(* ===== verification/_CoqProject ===== *)
-Q . S2P
Prelude.v
AuditLog.v
Capability.v
Bits.v
Pmm.v
Heap.v
Ipc.v
Mailbox.v
Vmm.v
Iommu.v
Authority.v
Ext2.v
Geometry.v
Damage.v
Crypto.v
AuditRing.v
Discovery.v
Tpm.v
Elf.v
FileServer.v
FileServerInv.v
FileNames.v
Gdt.v
Critical.v
Policy.v
Thread.v
ThreadInv.v
ThreadSwitch.v
Service.v
ServiceInv.v
Renderer.v
Text.v
Pacing.v
Windows.v
WindowsInv.v
Desktop.v
Driver.v
Input.v
Introspect.v
Machine.v
Surfaces.v
Process.v
Syscall.v
SyscallEntry.v
Nic.v
Packet.v
Netstack.v
NetstackInv.v
Update.v
Runtime.v
Pci.v
DeviceManager.v
Stores.v
Install.v
Editor.v
Shell.v
Boot.v
Bootstrap.v
Handoff.v
