(* ===== verification/Prelude.v ===== *)
(** * A verification library for Agentic OS

    Agentic OS is an x86-64 capability kernel in Rust.  [src/kernel_common] holds
    its hardware-independent logic, [src/kernel_rs] the kernel itself, [src/boot_rs]
    the UEFI boot loader and [src/user_rs] the ring-3 servers, drivers and
    programs.  This library translates the core of all four, function by
    function, into executable definitions and proves what makes each part correct.

    ** How the parts fit

    The boot loader reads and measures the kernel, builds the first page tables and
    jumps.  In the kernel every process holds a table of capabilities to kernel
    objects; an operation resolves a capability, checks its rights and its
    generation, and writes an audit record.  Endpoints are objects through which
    processes pass messages.  Physical memory is handed out page by page from a
    bitmap; the kernel heap and the page tables of every address space are built
    from those pages, and so are the tables through which the IOMMU confines
    devices.  The authority graph says which process or device may reach which
    physical range, and is projected onto both kinds of tables.  Programs are loaded
    from ELF images into an address space and run as threads, which the scheduler
    moves between processors.  A thread asks for anything through the system-call
    stub and its dispatcher.  Files and sockets are served by ring-3 processes
    behind the kernel's two services: the file server, with an ext2 filesystem and
    a ring of audit records on its disk, and the network stack.  The window system
    computes what is visible and what has to be redrawn; input goes to the window
    that has the focus.  The device manager binds drivers to the functions found on
    the PCI bus and restarts them when they crash.

    ** Files, and the sources they model

    Base and memory:
    - [Prelude]: machine integers with wrap-around, byte buffers, little-endian
      fields, panicking loops, tactics; no program code.
    - [AuditLog]: [kernel_rs/audit.rs].
    - [Capability]: [kernel_rs/capability.rs].  [kernel] is the object table with
      the audit log; [system] adds the tables of all processes, and [exec] runs
      one operation of a sequence.
    - [Bits]: [kernel_common/lib.rs], [bitmap.rs], [pagetable.rs],
      [supervision.rs].
    - [Pmm]: [kernel_rs/pmm.rs], [bootinfo.rs].  The state is the module's statics
      and physical memory.
    - [Heap]: [kernel_rs/heap.rs].  The class [PageSource] is what the heap needs
      of a page allocator; [Pmm] provides it.
    - [Ipc], [Mailbox]: [kernel_rs/ipc.rs].  The rendezvous ([Ipc]) and the mailbox
      ([Mailbox]) as one step function per thread at the granularity of its accesses
      to shared words, with schedules as lists of steps.  The source takes no lock
      around [try_send] and [try_receive]; the functions of these names in [Ipc], which the
      services and the dispatcher call, are a call during which no other one runs
      ([try_send_alone], [try_receive_alone]).
    - [Vmm]: [kernel_rs/vmm.rs].  Tables are frames of the physical memory of [Pmm];
      [debug_translate] is the walk.
    - [Iommu]: [kernel_rs/iommu.rs], assignment and revocation; [dma_translate] is
      the walk the hardware makes.
    - [Authority]: [kernel_common/authority_graph.rs],
      [impossibility_certificate.rs], [discovered_envelope.rs],
      [kernel_rs/authority.rs].
    - [Crypto], [Tpm]: [kernel_common/crypto.rs] and [tpm.rs], whole.
    - [Runtime]: [kernel_common/mem_intrinsics.rs] and [kernel_rs/events.rs]; every
      processor's timer pushes, so there is a producer for each.

    Boot and programs:
    - [Boot], [Bootstrap], [Handoff]: [boot_rs/loader.rs], [bootstrap_paging.rs],
      [elf.rs] and the search for the ACPI table in [uefi.rs].
    - [Elf]: [kernel_rs/elf.rs], on [Pmm] and [Vmm].
    - [Policy]: [kernel_rs/policy.rs], [manifest.rs].
    - [Process]: [kernel_rs/process.rs].
    - [Update], [Install]: [kernel_rs/package.rs], [update.rs], [telemetry.rs],
      [installer.rs].
    - [Stores]: [kernel_rs/multi_user.rs], [object_store.rs], [crypto_store.rs].

    Processors and threads:
    - [Gdt]: [kernel_rs/gdt.rs].
    - [Critical]: [kernel_rs/critical.rs] and the numbering of processors in
      [smp.rs]; any number of processors, one access of a shared word a step.
    - [Thread], [ThreadInv], [ThreadSwitch]: [kernel_rs/thread.rs], with the
      context switch register by register.

    System calls:
    - [Machine]: the state a system call can reach, and its monad.
    - [Syscall], [SyscallEntry]: [kernel_rs/syscall.rs], the dispatcher with its
      calls 1 to 36, and the stub instruction by instruction.
    - [Introspect]: [kernel_rs/introspect.rs], [tools.rs] and the decoders of
      [user_rs/agent_demo].

    Storage:
    - [Ext2]: [kernel_common/ext2.rs], whole.
    - [AuditRing]: [kernel_common/audit_ring.rs] and the boot step of
      [user_rs/virtio_blk_driver] that appends to the ring.
    - [FileServer], [FileServerInv], [FileNames]: the formatting and the requests
      of [user_rs/virtio_blk_driver].
    - [Service], [ServiceInv]: [kernel_rs/file_service.rs], [net_service.rs].

    Network, in [user_rs/netstack_driver]:
    - [Nic]: the card's rings; [Packet]: the formats and tables; [Netstack] and
      [NetstackInv]: TCP, DNS, ping and the requests of the network service.

    Display and applications:
    - [Geometry], [Damage]: [kernel_common/geometry.rs], [kernel_rs/damage.rs].
    - [Renderer], [Text]: [kernel_rs/renderer.rs], [text.rs].
    - [Pacing]: the two [animation.rs], [frame_pacing.rs], [frame_scheduler.rs].
    - [Windows], [WindowsInv], [Desktop]: [kernel_rs/window_manager.rs].
    - [Surfaces]: [kernel_rs/compositor.rs], the calls on surfaces.
    - [Input]: [kernel_rs/input_queue.rs], [input_routing.rs].
    - [Editor]: [user_rs/text_editor], [terminal_emulator] and what they use of
      [agentic_sdk]; [Shell]: [user_rs/shell].

    Devices:
    - [Discovery]: [kernel_common/madt.rs], [driver_registry.rs].
    - [Pci]: [kernel_rs/pci.rs].
    - [Driver]: [kernel_rs/driver.rs], [interrupt_forward.rs].
    - [DeviceManager]: [kernel_rs/device_manager.rs], [supervisor.rs],
      [service_manager.rs].

    ** Conventions

    A [w]-bit integer is a [Z]; [u8] ... [u64] wrap it.  The kernel is built in
    release mode, so [+], [-] and [*] wrap and an index out of range panics.  A
    panic is [None]; a [Result] is [result], a value like any other, so a theorem
    that a function returns [Some] excludes panics.  Code that mutates takes and
    returns its state.  Locks are not modelled where a whole operation runs under
    one; where the code relies on single accesses ([Ipc], [Mailbox], [Critical],
    [Driver], [Runtime]) the model interleaves them.  Serial output is not modelled, but for
    the shell, whose output is its result.

    What the code does not determine is an argument: the firmware's answers, the
    frames that arrive and whether a transmission succeeds, the bytes of
    uninitialised memory, the addresses of the kernel's buffers, the readings of
    the cycle counter, the thread that runs next.  Where a theorem needs such a
    part to behave, a class or a hypothesis says so ([PageSource], [Volume]) and a
    witness gives an instance.

    ** Fuel

    Loops that are not structural take fuel, with [None] (or the unfinished state)
    when it runs out, and the theorems show that it does not: a directory block has
    at most 128 records of at least 8 bytes, so [DIR_FUEL] is 129; the path
    iterator and the SHA-256 and ChaCha20 loops consume at least one byte a step,
    so the length is enough; the MADT walk advances by at least two bytes; merging
    sixteen rectangles takes at most 289 steps ([MERGE_FUEL]); a buffer of [len]
    bytes spans at most [len / 4096 + 2] pages; a file has twelve blocks and each
    turn of a write but the first and the last fills one ([WRITE_FUEL] is 14); two foldings
    bring a 32-bit sum into 16 bits ([FOLD_FUEL]); a DNS name shrinks at every
    label; the boot loader's hash loop reads at least one byte a step.  The walk of
    a PCI capability list is the exception: a cyclic list never ends, and its
    theorem is about lists that do.  Code that spins waiting for a device is run on
    a schedule of what it finds, and the theorems bound how much of the schedule it
    looks at; [tcp_accept] has no such bound of its own, and its theorem says what
    takes its place.

    ** What the theorems show

    - Capabilities: a revoked object can never be used again, whatever operations
      follow; no sequence of operations gives a holder a right its source did not
      have; the system calls that look at their caller's capabilities or ports refuse
      a thread that has none (the theorem lists them, and those that look at none);
      an installed application gets the requests whose kind its manifest declares; an
      object never granted or delegated to a group of sessions cannot be named by it.
    - Memory: initialisation frees exactly the firmware's usable memory; no page is
      handed out twice; live heap blocks never overlap; mapping, unmapping, creating
      and destroying address spaces change exactly the translations they should; a
      loaded program is in memory as its file says, and a started process runs it.
    - Boot: the processor continues in the kernel the file holds, and the tables
      translate the firmware's memory and the kernel's range as intended.
    - Threads: every thread is in one place; none starves on a busy processor; the
      kernel lock excludes, and under any contention taking it costs four accesses
      and one for each failed exchange, releasing it at most four; a port can be
      reached only with its grant; the stub returns the caller's registers, whatever
      the dispatcher does to memory outside the stub's frame.
    - Messages: with one sender and one receiver, whatever the interleaving, a
      mailbox is a bounded FIFO queue and the rendezvous delivers every message once
      and in order, without a failure; the event queue is FIFO under every
      interleaving in which pushes do not overlap.  Two senders, or two processors
      that push at once, lose messages and ticks ([two_senders_lose_message],
      [two_try_sends_lose_message], [two_cpus_lose_tick]).
    - Devices: a device reaches exactly the pages assigned to it, and none after
      revocation; an interrupt is not lost; restarts of a driver are bounded.
    - Storage: a write is read back (in files without holes), a created name of at
      most 255 bytes is found, formatting can be cut
      at any write; the file service is a table of requests that are opened,
      marked ready and closed; an update is staged only if authentic, and to the other bank.
    - Network: the receive ring delivers the frames in order; the stack never panics
      whatever arrives, and looks at the ring a bounded number of times; what a client
      gets is the bytes of the peer's stream, if only the peer uses its ports.
    - Cryptography: the streaming hash equals the one-shot definition however the
      input is cut; HMAC and ChaCha20 equal their definitions; published test
      vectors are checked by computation.
    - Display: composing the visible pieces equals painting whole windows; a call on
      a surface leaves the other windows alone (their pixels are memory that their
      owners may map and change: see [Windows]); a key reaches only the window in
      focus; the editor is an editor of sixteen lines.
    - Errors found: theorems whose names say so ([two_senders_lose_message],
      [revoked_page_still_mapped], [allocator_reaches_audit_block],
      [visible_pixel_dropped], [huge_request_wraps], [free_firmware_page_accepted],
      [changed_graph_still_valid], [derive_attenuation_violation_unaudited],
      [write_far_panics], [two_try_sends_lose_message], [two_cpus_lose_tick],
      [unaligned_grant_exceeds], [create_long_name_lost], [accept_exceeds_limit]
      and others) exhibit inputs on which the code does not do
      what its comments say.

    Most files end with a module of witnesses that apply the theorems to concrete
    machines.

    ** Not modelled

    The register and DMA protocols of the other drivers (xHCI, NVMe, AHCI, e1000,
    virtio-net, the GPU), for which the behaviour of the device is the larger part
    of the claim; the interrupt controllers, ACPI tables, the start of the other
    processors and power-off, which program registers; TLB shootdown and the PAT;
    the enabling and fault polling of the IOMMU; the demonstrations of the kernel's
    main function and of the sample programs, fixed sequences of the operations
    modelled here; printing; the host tests. *)

From stdpp Require Export base list list_numbers numbers option sets relations.
From Stdlib Require Export ZArith Lia.

#[global] Set Default Proof Using "Type".
#[global] Open Scope Z_scope.

(** ** Machine integers

    A [w]-bit unsigned integer is a [Z] in [0, 2^w).  The kernel is built with
    the release profile, where [+], [-] and [*] wrap. *)

Definition wrap (w x : Z) : Z := x mod 2 ^ w.
Abbreviation u8 := (wrap 8).
Abbreviation u16 := (wrap 16).
Abbreviation u32 := (wrap 32).
Abbreviation u64 := (wrap 64).

Definition in_width (w x : Z) : Prop := 0 <= x < 2 ^ w.

(** Two's complement reading of a [w]-bit value ([x as i32] and friends). *)
Definition signed (w x : Z) : Z :=
  let y := wrap w x in if y <? 2 ^ (w - 1) then y else y - 2 ^ w.
Abbreviation i32 := (signed 32).

Definition i32_min : Z := - 2 ^ 31.
Definition i32_max : Z := 2 ^ 31 - 1.

Definition saturating_sub (a b : Z) : Z := Z.max 0 (a - b).
Definition saturating_add (w a b : Z) : Z := Z.min (2 ^ w - 1) (a + b).
Definition i32_saturating_add (a b : Z) : Z := Z.max i32_min (Z.min i32_max (a + b)).

(** [!x] on a [w]-bit integer. *)
Definition wnot (w x : Z) : Z := Z.lxor x (2 ^ w - 1).

Definition rotr (w x n : Z) : Z :=
  Z.lor (Z.shiftr x n) (wrap w (Z.shiftl x (w - n))).
Definition rotl (w x n : Z) : Z :=
  Z.lor (wrap w (Z.shiftl x n)) (Z.shiftr x (w - n)).

Create HintDb width.

Lemma wrap_range w x : 0 <= w -> in_width w (wrap w x).
Proof. intros. apply Z.mod_pos_bound, Z.pow_pos_nonneg; lia. Qed.

Lemma wrap_small w x : in_width w x -> wrap w x = x.
Proof. apply Z.mod_small. Qed.

Lemma wrap_wrap w x : 0 <= w -> wrap w (wrap w x) = wrap w x.
Proof. intros. by apply wrap_small, wrap_range. Qed.

Lemma in_width_mono w w' x : 0 <= w <= w' -> in_width w x -> in_width w' x.
Proof.
  intros ? [? Hx]. split; [done|].
  eapply Z.lt_le_trans; [exact Hx|]. apply Z.pow_le_mono_r; lia.
Qed.

#[export] Hint Resolve wrap_range : width.
#[export] Hint Extern 1 (0 <= _) => lia : width.

(** A value below [2^w] has no bit at or above [w]. *)
Lemma in_width_testbit w x i : 0 <= w <= i -> in_width w x -> Z.testbit x i = false.
Proof.
  intros Hw Hx. rewrite <- (wrap_small w x Hx). unfold wrap.
  apply Z.mod_pow2_bits_high. lia.
Qed.

Lemma in_width_bits w x :
  0 <= w -> 0 <= x -> (forall i, w <= i -> Z.testbit x i = false) -> in_width w x.
Proof.
  intros Hw Hx Hb. split; [done|].
  destruct (decide (x = 0)) as [->|Hnz]; [apply Z.pow_pos_nonneg; lia|].
  apply Z.log2_lt_pow2; [lia|].
  destruct (Z_lt_le_dec (Z.log2 x) w) as [|Hle]; [done|].
  pose proof (Z.bit_log2 x) as Hl. rewrite Hb in Hl by lia. discriminate Hl. lia.
Qed.

Lemma in_width_land_l w x y : 0 <= w -> in_width w x -> 0 <= y -> in_width w (Z.land x y).
Proof.
  intros Hw Hx Hy. apply in_width_bits; [done|apply Z.land_nonneg; left; apply Hx|].
  intros i Hi. by rewrite Z.land_spec, (in_width_testbit w x i) by (done || lia).
Qed.

Lemma in_width_lor w x y : 0 <= w -> in_width w x -> in_width w y -> in_width w (Z.lor x y).
Proof.
  intros Hw Hx Hy. apply in_width_bits; [done|apply Z.lor_nonneg; split; [apply Hx|apply Hy]|].
  intros i Hi. by rewrite Z.lor_spec, !(in_width_testbit w _ i) by (done || lia).
Qed.

Lemma in_width_lxor w x y : 0 <= w -> in_width w x -> in_width w y -> in_width w (Z.lxor x y).
Proof.
  intros Hw Hx Hy. apply in_width_bits; [done|apply Z.lxor_nonneg; split; intros; [apply Hy|apply Hx]|].
  intros i Hi. by rewrite Z.lxor_spec, !(in_width_testbit w _ i) by (done || lia).
Qed.

Lemma in_width_shiftr w x n : 0 <= w -> 0 <= n -> in_width w x -> in_width w (Z.shiftr x n).
Proof.
  intros Hw Hn Hx. apply in_width_bits; [done|apply Z.shiftr_nonneg, Hx|].
  intros i Hi. rewrite Z.shiftr_spec by lia. apply (in_width_testbit w); [lia|done].
Qed.

#[export] Hint Resolve in_width_lor in_width_lxor in_width_shiftr : width.

(** [(v & 1 << k) != 0] is the [k]-th bit. *)
Lemma land_shift_testbit v k :
  0 <= k -> negb (Z.land v (Z.shiftl 1 k) =? 0) = Z.testbit v k.
Proof.
  intros Hk. rewrite Z.shiftl_1_l.
  destruct (Z.testbit v k) eqn:Hb.
  - apply negb_true_iff, Z.eqb_neq. intros H0.
    apply (f_equal (fun z => Z.testbit z k)) in H0.
    rewrite Z.land_spec, Hb, Z.pow2_bits_true, Z.bits_0 in H0 by done. discriminate.
  - apply negb_false_iff, Z.eqb_eq. apply Z.bits_inj'. intros i Hi.
    rewrite Z.land_spec, Z.bits_0, Z.pow2_bits_eqb by done.
    destruct (k =? i) eqn:He; [|by rewrite andb_false_r].
    apply Z.eqb_eq in He as <-. by rewrite Hb.
Qed.

(** ** Byte buffers

    A Rust slice of bytes is a [list Z]; indexing out of range panics, which is
    [None] here.  Offsets are [nat]. *)

Abbreviation bytes := (list Z).
Definition is_byte (b : Z) : Prop := 0 <= b < 256.
Abbreviation all_bytes := (Forall is_byte).

(** [b[off..off+len]]. *)
Definition rslice {A} (b : list A) (off len : nat) : option (list A) :=
  if decide (off + len <= length b)%nat then Some (take len (drop off b)) else None.

(** [b[off..off+s.len()].copy_from_slice(s)]. *)
Definition wslice {A} (b : list A) (off : nat) (s : list A) : option (list A) :=
  if decide (off + length s <= length b)%nat
  then Some (take off b ++ s ++ drop (off + length s) b) else None.

(** [b[i] = v]. *)
Definition wbyte {A} (b : list A) (i : nat) (v : A) : option (list A) :=
  if decide (i < length b)%nat then Some (<[i := v]> b) else None.

Fixpoint le_bytes (n : nat) (v : Z) : bytes :=
  match n with
  | O => []
  | S n' => v mod 256 :: le_bytes n' (v / 256)
  end.

Fixpoint le_val (bs : bytes) : Z :=
  match bs with
  | [] => 0
  | b :: bs' => b + 256 * le_val bs'
  end.

Definition be_bytes (n : nat) (v : Z) : bytes := reverse (le_bytes n v).
Definition be_val (bs : bytes) : Z := le_val (reverse bs).

Create HintDb bytes.
Create Rewrite HintDb lens.

Lemma length_le_bytes n v : length (le_bytes n v) = n.
Proof. revert v. induction n; intros; simpl; auto. Qed.

Lemma le_bytes_is_byte n v : all_bytes (le_bytes n v).
Proof.
  revert v. induction n as [|n IH]; intros v; simpl; constructor; auto.
  apply Z.mod_pos_bound. lia.
Qed.

Lemma le_val_le_bytes n v : le_val (le_bytes n v) = v mod 2 ^ (8 * Z.of_nat n).
Proof.
  revert v. induction n as [|n IH]; intros v.
  - simpl. by rewrite Z.mod_1_r.
  - cbn [le_bytes le_val]. rewrite IH.
    replace (8 * Z.of_nat (S n)) with (8 + 8 * Z.of_nat n) by lia.
    rewrite Z.pow_add_r by lia. change (2 ^ 8) with 256.
    rewrite Z.rem_mul_r; lia.
Qed.

Lemma le_val_range bs : all_bytes bs -> 0 <= le_val bs < 2 ^ (8 * Z.of_nat (length bs)).
Proof.
  induction 1 as [|b bs Hb _ IH]; [simpl; lia|].
  cbn [le_val length].
  replace (8 * Z.of_nat (S (length bs))) with (8 + 8 * Z.of_nat (length bs)) by lia.
  rewrite Z.pow_add_r by lia. change (2 ^ 8) with 256. red in Hb. lia.
Qed.

Lemma le_bytes_le_val bs : all_bytes bs -> le_bytes (length bs) (le_val bs) = bs.
Proof.
  induction 1 as [|b bs Hb _ IH]; [done|]. cbn [length le_bytes le_val].
  red in Hb. f_equal.
  - rewrite Z.mul_comm, Z_mod_plus_full. by apply Z.mod_small.
  - rewrite Z.mul_comm, Z.div_add by lia. by rewrite Z.div_small by lia.
Qed.

#[export] Hint Resolve le_bytes_is_byte : bytes.
#[export] Hint Rewrite length_le_bytes @length_app @length_take @length_drop @length_replicate @length_insert @length_fmap : lens.

Section slices.
Context {A : Type}.
Implicit Types b s : list A.

Lemma rslice_Some b off len r :
  rslice b off len = Some r <->
  (off + len <= length b)%nat /\ r = take len (drop off b).
Proof. unfold rslice. case_decide; naive_solver. Qed.

Lemma wslice_Some b off s r :
  wslice b off s = Some r <->
  (off + length s <= length b)%nat /\ r = take off b ++ s ++ drop (off + length s) b.
Proof. unfold wslice. case_decide; naive_solver. Qed.

Lemma wslice_is_Some b off s : (off + length s <= length b)%nat -> is_Some (wslice b off s).
Proof. intros. unfold wslice. rewrite decide_True by done. eauto. Qed.

Lemma length_wslice b off s r : wslice b off s = Some r -> length r = length b.
Proof.
  intros [Hle ->]%wslice_Some. rewrite !length_app, length_take, length_drop. lia.
Qed.

Lemma length_rslice b off len r : rslice b off len = Some r -> length r = len.
Proof. intros [Hle ->]%rslice_Some. rewrite length_take, length_drop. lia. Qed.

Lemma lookup_wslice b off s r i :
  wslice b off s = Some r ->
  r !! i = if decide (off <= i < off + length s)%nat then s !! (i - off)%nat else b !! i.
Proof.
  intros [Hle ->]%wslice_Some.
  assert (length (take off b) = off) as Ht by (rewrite length_take; lia).
  case_decide as Hi.
  - rewrite lookup_app_r, Ht by lia. by rewrite lookup_app_l by lia.
  - destruct (decide (i < off)%nat).
    + rewrite lookup_app_l by lia. by rewrite lookup_take_lt by lia.
    + rewrite lookup_app_r, Ht by lia. rewrite lookup_app_r by lia.
      rewrite lookup_drop. f_equal. lia.
Qed.

Lemma rslice_ext b b' off len :
  length b = length b' ->
  (forall i, (off <= i < off + len)%nat -> b !! i = b' !! i) ->
  rslice b off len = rslice b' off len.
Proof.
  intros Hl Hi. unfold rslice. rewrite Hl. case_decide; [|done]. f_equal.
  apply list_eq. intros i. destruct (decide (i < len)%nat).
  - rewrite !lookup_take_lt, !lookup_drop by done. apply Hi. lia.
  - rewrite !lookup_take_ge by lia. done.
Qed.

(** Reading back what was written, and reading around it. *)
Lemma rslice_wslice_eq b off s r :
  wslice b off s = Some r -> rslice r off (length s) = Some s.
Proof.
  intros Hw. pose proof (length_wslice _ _ _ _ Hw) as Hl.
  apply wslice_Some in Hw as [Hle ->]. apply rslice_Some. split; [lia|].
  rewrite drop_app_length' by (rewrite length_take; lia).
  by rewrite take_app_length.
Qed.

Lemma rslice_wslice_ne b off s r off' len :
  wslice b off s = Some r ->
  (off' + len <= off \/ off + length s <= off')%nat ->
  rslice r off' len = rslice b off' len.
Proof.
  intros Hw Hd. apply rslice_ext; [by eapply length_wslice|].
  intros i Hi. rewrite (lookup_wslice _ _ _ _ _ Hw). rewrite decide_False; [done|lia].
Qed.

Lemma wbyte_wslice b i v : wbyte b i v = wslice b i [v].
Proof.
  unfold wbyte, wslice. cbn [length].
  destruct (decide (i < length b)%nat) as [Hi|Hi].
  - rewrite decide_True by lia. f_equal.
    rewrite (insert_take_drop b i v Hi). do 3 f_equal. lia.
  - by rewrite decide_False by lia.
Qed.
End slices.

Lemma wslice_all_bytes b off s r :
  all_bytes b -> all_bytes s -> wslice b off s = Some r -> all_bytes r.
Proof.
  intros Hb Hs [_ ->]%wslice_Some. apply Forall_app; split; [by apply Forall_take|].
  apply Forall_app; split; [done|by apply Forall_drop].
Qed.

Lemma rslice_all_bytes b off len r :
  all_bytes b -> rslice b off len = Some r -> all_bytes r.
Proof. intros Hb [_ ->]%rslice_Some. by apply Forall_take, Forall_drop. Qed.

(** ** Little-endian fields *)

Definition wle (n : nat) (b : bytes) (off : nat) (v : Z) : option bytes :=
  wslice b off (le_bytes n v).
Definition rle (n : nat) (b : bytes) (off : nat) : option Z :=
  le_val <$> rslice b off n.

Section le_fields.
Context (n : nat).

Lemma rle_wle_eq b off v r :
  wle n b off v = Some r -> in_width (8 * Z.of_nat n) v -> rle n r off = Some v.
Proof using Type.
  intros Hw Hv. unfold rle. apply rslice_wslice_eq in Hw.
  rewrite length_le_bytes in Hw. rewrite Hw. simpl. f_equal.
  rewrite le_val_le_bytes. by apply Z.mod_small.
Qed.

Lemma rle_wslice_ne b off s r off' :
  wslice b off s = Some r ->
  (off' + n <= off \/ off + length s <= off')%nat -> rle n r off' = rle n b off'.
Proof using Type. intros Hw Hd. unfold rle. by rewrite (rslice_wslice_ne _ _ _ _ _ _ Hw Hd). Qed.

Lemma wle_is_Some b off v : (off + n <= length b)%nat -> is_Some (wle n b off v).
Proof using Type. intros. apply wslice_is_Some. by rewrite length_le_bytes. Qed.

Lemma length_wle b off v r : wle n b off v = Some r -> length r = length b.
Proof using Type. apply length_wslice. Qed.

Lemma wle_all_bytes b off v r : all_bytes b -> wle n b off v = Some r -> all_bytes r.
Proof using Type. intros Hb Hw. exact (wslice_all_bytes _ _ _ _ Hb (le_bytes_is_byte n v) Hw). Qed.

Lemma rle_is_Some b off : (off + n <= length b)%nat -> is_Some (rle n b off).
Proof using Type. intros. unfold rle, rslice. rewrite decide_True by done. simpl. eauto. Qed.

Lemma rle_range b off v : all_bytes b -> rle n b off = Some v -> in_width (8 * Z.of_nat n) v.
Proof using Type.
  intros Hb [bs [Hr ->]]%fmap_Some.
  rewrite <- (length_rslice _ _ _ _ Hr). apply le_val_range. eauto using rslice_all_bytes.
Qed.
End le_fields.

(** ** Results

    [Result<T, E>]; a panic is never an [Err]. *)
Inductive result (T E : Type) : Type :=
  | Ok (t : T)
  | Err (e : E).
Arguments Ok {T E} t.
Arguments Err {T E} e.

Definition is_ok {T E} (r : result T E) : bool :=
  match r with Ok _ => true | Err _ => false end.

(** ** Ranges and loops *)

(** [for i in lo..hi]: the indices, in order. *)
Definition range (lo hi : Z) : list Z := (fun k => lo + Z.of_nat k) <$> seq 0 (Z.to_nat (hi - lo)).

Lemma elem_of_range lo hi x : x ∈ range lo hi <-> lo <= x < hi.
Proof.
  unfold range. rewrite list_elem_of_fmap. split.
  - intros [k [-> Hk%elem_of_seq]]. lia.
  - intros Hx. exists (Z.to_nat (x - lo)). split; [lia|]. apply elem_of_seq. lia.
Qed.

Lemma range_nil lo hi : hi <= lo -> range lo hi = [].
Proof. intros. unfold range. by replace (Z.to_nat (hi - lo)) with 0%nat by lia. Qed.

Lemma range_cons lo hi : lo < hi -> range lo hi = lo :: range (lo + 1) hi.
Proof.
  intros. unfold range. replace (Z.to_nat (hi - lo)) with (S (Z.to_nat (hi - (lo + 1)))) by lia.
  rewrite <- cons_seq. cbn [fmap list_fmap]. f_equal; [lia|].
  rewrite <- fmap_S_seq, <- list_fmap_compose. apply list_fmap_ext. intros. simpl. lia.
Qed.

Lemma length_range lo hi : length (range lo hi) = Z.to_nat (hi - lo).
Proof. unfold range. by rewrite length_fmap, length_seq. Qed.

(** A loop whose body may panic. *)
Fixpoint foldM {A S} (f : S -> A -> option S) (s : S) (l : list A) : option S :=
  match l with
  | [] => Some s
  | a :: l' => s' ← f s a; foldM f s' l'
  end.

Lemma foldM_app {A S} (f : S -> A -> option S) s l1 l2 :
  foldM f s (l1 ++ l2) = s' ← foldM f s l1; foldM f s' l2.
Proof. revert s. induction l1 as [|a l1 IH]; intros s; simpl; [done|]. destruct (f s a); simpl; auto. Qed.

(** Invariants of a panicking loop. *)
Lemma foldM_ind {A S} (P : S -> Prop) (f : S -> A -> option S) l s :
  P s ->
  (forall s a, a ∈ l -> P s -> exists s', f s a = Some s' /\ P s') ->
  exists s', foldM f s l = Some s' /\ P s'.
Proof.
  revert s. induction l as [|a l IH]; intros s Hs Hf; simpl; [eauto|].
  destruct (Hf s a) as (s' & -> & Hs'); [set_solver|done|]. simpl.
  apply IH; [done|]. intros. apply Hf; [set_solver|done].
Qed.

(** ** Tactics *)

(** Split a chain of option binds in the hypotheses. *)
Ltac bind_inv :=
  repeat match goal with
  | H : mbind _ ?m = Some _ |- _ =>
      let E := fresh "E" in destruct m eqn:E; cbn [mbind option_bind] in H; [|discriminate H]
  | H : Some _ = Some _ |- _ => injection H as H; try subst
  | H : (_, _) = (_, _) |- _ => injection H as ? ?; subst
  | H : None = Some _ |- _ => discriminate H
  end.

Ltac bool_to_prop :=
  repeat match goal with
  | H : (_ && _) = true |- _ => apply andb_true_iff in H as [? ?]
  | H : (_ || _) = false |- _ => apply orb_false_iff in H as [? ?]
  | H : negb _ = true |- _ => apply negb_true_iff in H
  | H : negb _ = false |- _ => apply negb_false_iff in H
  | H : (_ =? _) = true |- _ => apply Z.eqb_eq in H
  | H : (_ =? _) = false |- _ => apply Z.eqb_neq in H
  | H : (_ <? _) = true |- _ => apply Z.ltb_lt in H
  | H : (_ <? _) = false |- _ => apply Z.ltb_ge in H
  | H : (_ <=? _) = true |- _ => apply Z.leb_le in H
  | H : (_ <=? _) = false |- _ => apply Z.leb_gt in H
  end.

(** ** Counting with one flipped element *)

Lemma NoDup_range lo hi : NoDup (range lo hi).
Proof. unfold range. apply NoDup_fmap_2; [intros a b; lia|apply NoDup_seq]. Qed.

Lemma filter_ext_in {A} (P Q : A -> Prop) `{!forall x, Decision (P x), !forall x, Decision (Q x)} (l : list A) :
  (forall x, x ∈ l -> P x <-> Q x) -> filter P l = filter Q l.
Proof.
  induction l as [|x l IH]; intros Hpq; [done|]. rewrite !filter_cons.
  rewrite IH by (intros; apply Hpq; set_solver).
  specialize (Hpq x ltac:(set_solver)). do 2 case_decide; tauto || done.
Qed.

Lemma length_filter_flip `{EqDecision A} (P Q : A -> Prop)
    `{!forall x, Decision (P x), !forall x, Decision (Q x)} (l : list A) i :
  NoDup l -> i ∈ l -> P i -> ~ Q i -> (forall j, j ∈ l -> j <> i -> P j <-> Q j) ->
  length (filter P l) = S (length (filter Q l)).
Proof.
  induction 1 as [|x l Hx _ IH]; intros Hi HP HQ Hj; [set_solver|].
  rewrite !filter_cons. destruct (decide (i = x)) as [->|Hne].
  - rewrite decide_True, decide_False by done. simpl. do 2 f_equal.
    apply filter_ext_in. intros y Hy. apply Hj; set_solver.
  - assert (i ∈ l) as Hil by set_solver. specialize (Hj x ltac:(set_solver) ltac:(done)) as Hjx.
    specialize (IH Hil HP HQ ltac:(intros; apply Hj; set_solver)).
    do 2 case_decide; simpl; rewrite ?IH; tauto || done.
Qed.
