(* ===== verification/AuditLog.v ===== *)
(** * The kernel audit log ([kernel_rs/src/audit.rs])

    An in-memory ring of at most [MAX_RECORDS] records.  The state is the
    [VecDeque] (oldest record first) and the [NEXT_SEQ] counter; the thread id
    [thread::current_id()] is an argument of [record].  The theorem relates the
    ring to the whole history of recorded events. *)

From S2P Require Import Prelude.

Definition MAX_RECORDS : nat := 4096.

Inductive AuditEvent :=
  | EvGrant (object_id rights : Z)
  | EvDerive (object_id rights : Z)
  | EvRevoke (object_id : Z)
  | EvDenied (cap_id : Z)
  | EvIpcSend (object_id : Z)
  | EvIpcReceive (object_id : Z)
  | EvInterruptDelivered (vector : Z)
  | EvInterruptAcknowledged (vector : Z)
  | EvPolicyDenied (rights : Z)
  | EvIommuFault (source_id reason : Z)
  | EvProcessCrashed (bdf fault_vector : Z)
  | EvProcessRestarted (bdf attempt : Z)
  | EvProcessQuarantined (bdf : Z)
  | EvManifestDenied (kind : Z)
  | EvAgentUiAction (target_object action_type : Z).

#[export] Instance AuditEvent_eq_dec : EqDecision AuditEvent.
Proof. solve_decision. Defined.

Record AuditRecord := mkRecord { rec_seq : Z; actor_tid : Z; rec_event : AuditEvent }.

#[export] Instance AuditRecord_eq_dec : EqDecision AuditRecord.
Proof. solve_decision. Defined.

Record audit := mkAudit { LOG : list AuditRecord; NEXT_SEQ : Z }.

Definition audit_init : audit := mkAudit [] 0.

(** [record]: the oldest record leaves when the ring is full. *)
Definition record (tid : Z) (ev : AuditEvent) (a : audit) : audit :=
  let seq := NEXT_SEQ a in
  let log := if decide (MAX_RECORDS <= length (LOG a))%nat then tail (LOG a) else LOG a in
  mkAudit (log ++ [mkRecord seq tid ev]) (u64 (seq + 1)).

Definition audit_len (a : audit) : nat := length (LOG a).

(** [last_n]: the newest [n] records, oldest first. *)
Definition last_n (n : nat) (a : audit) : list AuditRecord :=
  drop (length (LOG a) - n) (LOG a).

(** [records_by_actor]: the newest [max] records of one thread, newest first. *)
Definition records_by_actor (tid : Z) (max : nat) (a : audit) : list AuditRecord :=
  take max (filter (fun r => actor_tid r = tid) (reverse (LOG a))).

(** ** The history the ring is a window of *)

Definition record_all (evs : list (Z * AuditEvent)) (a : audit) : audit :=
  foldl (fun a e => record e.1 e.2 a) a evs.

(** Every event ever recorded, with the sequence number it got. *)
Definition history (evs : list (Z * AuditEvent)) : list AuditRecord :=
  imap (fun i e => mkRecord (u64 (Z.of_nat i)) e.1 e.2) evs.

Lemma length_history evs : length (history evs) = length evs.
Proof. apply length_imap. Qed.

Lemma history_snoc evs tid ev :
  history (evs ++ [(tid, ev)]) =
  history evs ++ [mkRecord (u64 (Z.of_nat (length evs))) tid ev].
Proof. unfold history. rewrite imap_app. simpl. by rewrite Nat.add_0_r. Qed.

Lemma tail_drop {A} (l : list A) n : tail (drop n l) = drop (S n) l.
Proof. revert n. induction l as [|x l IH]; intros [|n]; simpl; auto. Qed.

(** The ring after any sequence of events, in closed form. *)
Lemma record_all_closed evs :
  record_all evs audit_init =
  mkAudit (drop (length evs - MAX_RECORDS) (history evs)) (u64 (Z.of_nat (length evs))).
Proof.
  induction evs as [|[tid ev] evs IH] using rev_ind; [done|].
  unfold record_all in *. rewrite foldl_snoc, IH. simpl.
  unfold record. cbn [LOG NEXT_SEQ]. rewrite length_drop, length_history, history_snoc.
  rewrite length_app. cbn [length].
  f_equal.
  - case_decide.
    + rewrite tail_drop, drop_app_le by (rewrite length_history; unfold MAX_RECORDS in *; lia).
      do 2 f_equal. lia.
    + rewrite drop_app_le by (rewrite length_history; unfold MAX_RECORDS in *; lia).
      f_equal. f_equal. lia.
  - unfold wrap. rewrite Zplus_mod_idemp_l. f_equal. lia.
Qed.

(** The audit ring is exactly the newest [MAX_RECORDS] entries of the
    history of recorded events, in order and with their sequence numbers: no
    record is lost, reordered or altered before it is the 4097th newest. *)
Theorem audit_ring_is_newest_history evs :
  LOG (record_all evs audit_init) = drop (length evs - MAX_RECORDS) (history evs) /\
  NEXT_SEQ (record_all evs audit_init) = u64 (Z.of_nat (length evs)) /\
  (audit_len (record_all evs audit_init) <= MAX_RECORDS)%nat.
Proof.
  rewrite record_all_closed. split; [done|]. split; [done|].
  unfold audit_len. cbn [LOG]. rewrite length_drop, length_history. lia.
Qed.

(** [records_by_actor] returns records of the queried thread only, at most
    [max] of them, and when fewer than [max] come back they are all the records
    the ring holds for that thread. *)
Theorem records_by_actor_scoped tid max a r :
  (r ∈ records_by_actor tid max a -> actor_tid r = tid /\ r ∈ LOG a) /\
  (length (records_by_actor tid max a) <= max)%nat /\
  ((length (records_by_actor tid max a) < max)%nat ->
     r ∈ LOG a -> actor_tid r = tid -> r ∈ records_by_actor tid max a).
Proof.
  unfold records_by_actor. split_and!.
  - intros Hr. apply (subseteq_take max), list_elem_of_filter in Hr as [? Hr].
    split; [done|]. by rewrite elem_of_reverse in Hr.
  - rewrite length_take. lia.
  - rewrite length_take. intros Hlt Hin Htid. rewrite take_ge by lia.
    apply list_elem_of_filter. split; [done|]. by rewrite elem_of_reverse.
Qed.
