(* ===== verification/Capability.v ===== *)
(** * Capabilities ([kernel_rs/src/capability.rs])

    The global object table, the per-process capability tables and their
    operations.  [kernel] holds what the operations of this file share: the
    [OBJECTS] vector, the audit log and the id of the running thread.  A
    [CapabilityTable] is its vector of slots.  [system] puts a kernel and the
    tables of all processes together, and [exec] runs one capability operation
    on it, so that theorems can speak of arbitrary sequences of operations. *)

From S2P Require Import Prelude AuditLog.

(** ** Rights *)

Definition NONE : Z := 0.
Definition SEND : Z := Z.shiftl 1 0.
Definition RECEIVE : Z := Z.shiftl 1 1.
Definition GRANT : Z := Z.shiftl 1 2.
Definition REVOKE : Z := Z.shiftl 1 3.
Definition MAP : Z := Z.shiftl 1 4.
Definition WAIT : Z := Z.shiftl 1 5.
Definition PORT_IO : Z := Z.shiftl 1 6.
Definition INTROSPECT : Z := Z.shiftl 1 7.
Definition AUDIT_QUERY : Z := Z.shiftl 1 8.
Definition READ : Z := Z.shiftl 1 9.
Definition WRITE : Z := Z.shiftl 1 10.
Definition ENCRYPT : Z := Z.shiftl 1 11.
Definition DECRYPT : Z := Z.shiftl 1 12.
Definition SESSION_SWITCH : Z := Z.shiftl 1 13.
Definition EXEC : Z := Z.shiftl 1 14.

Definition contains (self other : Z) : bool := Z.land self other =? other.
Definition intersect (self other : Z) : Z := Z.land self other.
Definition union (self other : Z) : Z := Z.lor self other.

(** ** Objects and capabilities *)

Inductive SocketProtocol := Udp | Tcp.

Inductive KernelObjectKind :=
  | IpcEndpoint
  | MmioRegion (phys_base size : Z)
  | InterruptLine (vector : Z)
  | PortIoRange (base count : Z)
  | FileObject (inode : Z)
  | IntrospectionHandle
  | AuditQueryHandle
  | Socket (protocol : SocketProtocol) (local_port : Z) (remote_ip : list Z) (remote_port : Z)
  | Surface (x y width height : Z)
  | UserSession (uid : Z)
  | CryptoKey (key_id : Z)
  | DnsResolver (server_ip : list Z)
  | ExecHandle.

#[export] Instance SocketProtocol_eq_dec : EqDecision SocketProtocol.
Proof. solve_decision. Defined.
#[export] Instance KernelObjectKind_eq_dec : EqDecision KernelObjectKind.
Proof. solve_decision. Defined.

Record KernelObject := mkObject { kind : KernelObjectKind; generation : Z; alive : bool }.

Record Capability := mkCap { object_id : Z; rights : Z; cap_generation : Z }.

#[export] Instance Capability_eq_dec : EqDecision Capability.
Proof. solve_decision. Defined.

Inductive CapError := NoSuchCapability | InsufficientRights | Revoked | AttenuationViolation.

#[export] Instance CapError_eq_dec : EqDecision CapError.
Proof. solve_decision. Defined.

Abbreviation CapabilityTable := (list (option Capability)).

Record kernel := mkKernel { OBJECTS : list KernelObject; AUDIT : audit; TID : Z }.

Definition kernel_init : kernel := mkKernel [] audit_init 0.

(** [audit::record] seen from the callers. *)
Definition audit_record (ev : AuditEvent) (k : kernel) : kernel :=
  mkKernel (OBJECTS k) (record (TID k) ev (AUDIT k)) (TID k).

Definition set_objects (os : list KernelObject) (k : kernel) : kernel :=
  mkKernel os (AUDIT k) (TID k).

Definition get_object (k : kernel) (oid : Z) : option KernelObject := OBJECTS k !! Z.to_nat oid.

(** ** Operations on objects *)

Definition create_object (kd : KernelObjectKind) (k : kernel) : kernel * Z :=
  let id := u32 (Z.of_nat (length (OBJECTS k))) in
  (set_objects (OBJECTS k ++ [mkObject kd 1 true]) k, id).

Definition object_count (k : kernel) : nat := length (OBJECTS k).

Definition object_kind (k : kernel) (oid : Z) : option KernelObjectKind :=
  o ← get_object k oid; if alive o then Some (kind o) else None.

Definition revoke_object (destroy : bool) (o : KernelObject) : KernelObject :=
  mkObject (kind o) (u64 (generation o + 1)) (if destroy then false else alive o).

Definition revoke (oid : Z) (destroy : bool) (k : kernel) : kernel :=
  let k' :=
    match get_object k oid with
    | Some o => set_objects (<[Z.to_nat oid := revoke_object destroy o]> (OBJECTS k)) k
    | None => k
    end in
  audit_record (EvRevoke oid) k'.

(** ** Operations on a capability table *)

Definition table_new : CapabilityTable := [].

Definition grant (t : CapabilityTable) (oid rs : Z) (k : kernel)
  : kernel * CapabilityTable * Z :=
  let g := match get_object k oid with Some o => generation o | None => 0 end in
  let cap := mkCap oid rs g in
  let id := u32 (Z.of_nat (length t)) in
  (audit_record (EvGrant oid rs) k, t ++ [Some cap], id).

(** The generation a capability is checked against: none for a missing or
    destroyed object. *)
Definition current_gen (k : kernel) (oid : Z) : option Z :=
  o ← get_object k oid; if alive o then Some (generation o) else None.

Definition resolve (t : CapabilityTable) (cap_id required : Z) (k : kernel)
  : kernel * result Capability CapError :=
  match mjoin (t !! Z.to_nat cap_id) with
  | None => (audit_record (EvDenied cap_id) k, Err NoSuchCapability)
  | Some cap =>
      let res :=
        match current_gen k (object_id cap) with
        | Some g =>
            if g =? cap_generation cap then
              if contains (rights cap) required then Ok cap else Err InsufficientRights
            else Err Revoked
        | None => Err Revoked
        end in
      (if is_ok res then k else audit_record (EvDenied cap_id) k, res)
  end.

Definition derive (t : CapabilityTable) (source requested : Z) (target : CapabilityTable)
    (k : kernel) : kernel * CapabilityTable * result Z CapError :=
  match resolve t source GRANT k with
  | (k, Err e) => (k, target, Err e)
  | (k, Ok src) =>
      if negb (contains (rights src) requested) then (k, target, Err AttenuationViolation)
      else
        let new_cap := mkCap (object_id src) requested (cap_generation src) in
        let id := u32 (Z.of_nat (length target)) in
        (audit_record (EvDerive (object_id src) requested) k, target ++ [Some new_cap], Ok id)
  end.

Definition derive_self (t : CapabilityTable) (source requested : Z) (k : kernel)
  : kernel * CapabilityTable * result Z CapError :=
  derive t source requested t k.

(** The scan of [find_file_capability]: [want] is the test on the inode, [i] the
    index of the first slot of [rest]. *)
Fixpoint scan_files (t rest : CapabilityTable) (i : nat) (want : Z -> bool) (required : Z)
    (k : kernel) : kernel * option Z :=
  match rest with
  | [] => (k, None)
  | slot :: rest' =>
      let next k := scan_files t rest' (S i) want required k in
      match slot with
      | Some cap =>
          if contains (rights cap) required then
            match object_kind k (object_id cap) with
            | Some (FileObject obj_inode) =>
                if want obj_inode then
                  let id := u32 (Z.of_nat i) in
                  match resolve t id required k with
                  | (k, Ok _) => (k, Some id)
                  | (k, Err _) => next k
                  end
                else next k
            | _ => next k
            end
          else next k
      | None => next k
      end
  end.

Definition find_file_capability (t : CapabilityTable) (inode required : Z) (k : kernel)
  : kernel * option Z :=
  scan_files t t 0 (fun obj_inode => obj_inode =? inode) required k.

Definition has_any_file_capability (t : CapabilityTable) (required : Z) (k : kernel)
  : kernel * bool :=
  let '(k, r) := scan_files t t 0 (fun _ => true) required k in
  (k, match r with Some _ => true | None => false end).

(** ** Capability operations on the whole system *)

Record system := mkSystem { sys_kernel : kernel; sys_tables : list CapabilityTable }.

Definition system_init : system := mkSystem kernel_init [].

Inductive op :=
  | OpNewTable
  | OpCreate (kd : KernelObjectKind)
  | OpGrant (p : nat) (oid rs : Z)
  | OpResolve (p : nat) (cap_id required : Z)
  | OpDerive (p : nat) (cap_id requested : Z) (q : nat)
  | OpDeriveSelf (p : nat) (cap_id requested : Z)
  | OpRevoke (oid : Z) (destroy : bool)
  | OpFindFile (p : nat) (inode required : Z)
  | OpSwitch (tid : Z).

(** One operation; an operation of a process that has no table does nothing. *)
Definition exec (o : op) (s : system) : system :=
  let k := sys_kernel s in
  let ts := sys_tables s in
  match o with
  | OpNewTable => mkSystem k (ts ++ [table_new])
  | OpCreate kd => mkSystem (create_object kd k).1 ts
  | OpGrant p oid rs =>
      match ts !! p with
      | Some t => let '(k, t, _) := grant t oid rs k in mkSystem k (<[p := t]> ts)
      | None => s
      end
  | OpResolve p cid req =>
      match ts !! p with
      | Some t => mkSystem (resolve t cid req k).1 ts
      | None => s
      end
  | OpDerive p cid rs q =>
      match ts !! p, ts !! q with
      | Some t, Some target =>
          let '(k, target, _) := derive t cid rs target k in mkSystem k (<[q := target]> ts)
      | _, _ => s
      end
  | OpDeriveSelf p cid rs =>
      match ts !! p with
      | Some t => let '(k, t, _) := derive_self t cid rs k in mkSystem k (<[p := t]> ts)
      | None => s
      end
  | OpRevoke oid d => mkSystem (revoke oid d k) ts
  | OpFindFile p inode req =>
      match ts !! p with
      | Some t => mkSystem (find_file_capability t inode req k).1 ts
      | None => s
      end
  | OpSwitch tid => mkSystem (mkKernel (OBJECTS k) (AUDIT k) tid) ts
  end.

Definition run (ops : list op) (s : system) : system := foldl (fun s o => exec o s) s ops.

(** The capability in slot [c] of the table of process [p]. *)
Definition slot_at (s : system) (p c : nat) : option Capability :=
  t ← sys_tables s !! p; mjoin (t !! c).

(** Process [p] holds [cap] in some slot. *)
Definition holds (s : system) (p : nat) (cap : Capability) : Prop :=
  exists c, slot_at s p c = Some cap.

(** ** Facts about rights *)

Lemma contains_spec a b : contains a b = true <-> Z.land a b = b.
Proof. apply Z.eqb_eq. Qed.

Lemma contains_testbit a b :
  contains a b = true <-> (forall i, 0 <= i -> Z.testbit b i = true -> Z.testbit a i = true).
Proof.
  rewrite contains_spec. split.
  - intros H i Hi Hb. rewrite <- H, Z.land_spec in Hb. by apply andb_true_iff in Hb as [? _].
  - intros H. apply Z.bits_inj'. intros i Hi. rewrite Z.land_spec.
    destruct (Z.testbit b i) eqn:Hb; [by rewrite H|apply andb_false_r].
Qed.

#[export] Instance contains_refl_inst : Reflexive (fun a b => contains a b = true).
Proof. intros a. apply contains_spec, Z.land_diag. Qed.

#[export] Instance contains_trans_inst : Transitive (fun a b => contains a b = true).
Proof. intros a b c. rewrite !contains_testbit. auto. Qed.

(** ** Facts about the operations *)

Create HintDb caps.

Lemma OBJECTS_audit_record ev k : OBJECTS (audit_record ev k) = OBJECTS k.
Proof. done. Qed.

Lemma resolve_OBJECTS t cid req k : OBJECTS (resolve t cid req k).1 = OBJECTS k.
Proof. unfold resolve. destruct (mjoin _); [|done]. by destruct (is_ok _). Qed.

Lemma grant_OBJECTS t oid rs k : OBJECTS (grant t oid rs k).1.1 = OBJECTS k.
Proof. done. Qed.

Lemma derive_OBJECTS t cid rs tgt k : OBJECTS (derive t cid rs tgt k).1.1 = OBJECTS k.
Proof.
  unfold derive. pose proof (resolve_OBJECTS t cid GRANT k) as H.
  destruct (resolve t cid GRANT k) as [k' [src|e]]; simpl in *; [|done].
  by destruct (negb _).
Qed.

Lemma scan_files_OBJECTS t rest i want req k :
  OBJECTS (scan_files t rest i want req k).1 = OBJECTS k.
Proof.
  revert i k. induction rest as [|[cap|] rest IH]; intros i k; simpl; auto.
  destruct (contains _ _); [|done].
  destruct (object_kind k _) as [[]|]; auto.
  destruct (want _); [|done].
  pose proof (resolve_OBJECTS t (u32 (Z.of_nat i)) req k) as H.
  destruct (resolve t _ req k) as [k' [c|e]]; simpl in *; [done|]. by rewrite IH.
Qed.

(** The success condition of [resolve], as a predicate on the object table. *)
Definition live_for (k : kernel) (cap : Capability) (required : Z) : Prop :=
  (exists o, get_object k (object_id cap) = Some o /\ alive o = true /\
             generation o = cap_generation cap) /\
  contains (rights cap) required = true.

Lemma current_gen_Some k oid g :
  current_gen k oid = Some g <->
  exists o, get_object k oid = Some o /\ alive o = true /\ generation o = g.
Proof.
  unfold current_gen. destruct (get_object k oid) as [o|]; simpl.
  - destruct (alive o) eqn:Ha; split.
    + intros [= <-]. eauto.
    + by intros (o' & [= <-] & _ & ->).
    + done.
    + intros (o' & [= <-] & ? & _). congruence.
  - by split; [|intros (o & ? & _)].
Qed.

Lemma resolve_Ok t cid req k cap :
  (resolve t cid req k).2 = Ok cap <->
  mjoin (t !! Z.to_nat cid) = Some cap /\ live_for k cap req.
Proof.
  unfold resolve, live_for. destruct (mjoin _) as [c|]; simpl; [|by split; intros; destruct_and?].
  split.
  - destruct (current_gen k (object_id c)) as [g|] eqn:Hg; [|done].
    apply current_gen_Some in Hg as (o & Ho & Ha & <-).
    destruct (generation o =? cap_generation c) eqn:He; [|done]. bool_to_prop.
    destruct (contains (rights c) req) eqn:Hr; [|done]. intros [= <-]. eauto 10.
  - intros [[= ->] [(o & Ho & Ha & Hgen) Hr]].
    assert (current_gen k (object_id cap) = Some (cap_generation cap)) as ->
      by (apply current_gen_Some; eauto).
    by rewrite Z.eqb_refl, Hr.
Qed.

Lemma resolve_kernel t cid req k :
  (resolve t cid req k).1 =
  if is_ok (resolve t cid req k).2 then k else audit_record (EvDenied cid) k.
Proof. unfold resolve. destruct (mjoin _); [|done]. simpl. by destruct (is_ok _). Qed.

Lemma derive_target t cid rs tgt k :
  (derive t cid rs tgt k).1.2 =
  match (resolve t cid GRANT k).2 with
  | Ok src => if contains (rights src) rs
              then tgt ++ [Some (mkCap (object_id src) rs (cap_generation src))] else tgt
  | Err _ => tgt
  end.
Proof.
  unfold derive. destruct (resolve t cid GRANT k) as [k' [src|e]]; [|done]. simpl.
  by destruct (contains _ _).
Qed.

#[export] Hint Rewrite resolve_OBJECTS derive_OBJECTS scan_files_OBJECTS : lens.

(** ** Invariant: no capability is ahead of its object *)

Definition cap_ok (k : kernel) (cap : Capability) : Prop :=
  match get_object k (object_id cap) with
  | Some o => cap_generation cap <= generation o
  | None => cap_generation cap = 0
  end.

(** A capability that can never resolve again. *)
Definition dead (k : kernel) (cap : Capability) : Prop :=
  match get_object k (object_id cap) with
  | Some o => cap_generation cap < generation o
  | None => cap_generation cap = 0
  end.

(** [n] bounds the revocations so far. *)
Record wf (n : Z) (s : system) : Prop := {
  wf_gen : forall i o, OBJECTS (sys_kernel s) !! i = Some o -> 1 <= generation o <= n + 1;
  wf_caps : forall p c cap, slot_at s p c = Some cap -> cap_ok (sys_kernel s) cap
}.

(** How one operation changes the object table: it is left alone, extended by a
    fresh object, or one object is revoked. *)
Inductive obj_step : list KernelObject -> list KernelObject -> Prop :=
  | obj_same os : obj_step os os
  | obj_create os kd : obj_step os (os ++ [mkObject kd 1 true])
  | obj_revoke os i o d : os !! i = Some o -> obj_step os (<[i := revoke_object d o]> os).

#[export] Hint Constructors obj_step : caps.

(** The object table after an operation that only touches tables. *)
Lemma grant_exec_OBJECTS t oid rs k r : grant t oid rs k = r -> OBJECTS r.1.1 = OBJECTS k.
Proof. by intros <-. Qed.

Lemma derive_exec_OBJECTS t cid rs tgt k r : derive t cid rs tgt k = r -> OBJECTS r.1.1 = OBJECTS k.
Proof. intros <-. apply derive_OBJECTS. Qed.

Lemma exec_obj_step o s :
  obj_step (OBJECTS (sys_kernel s)) (OBJECTS (sys_kernel (exec o s))).
Proof.
  destruct o as [|kd|p oid rs|p cid req|p cid rs q|p cid rs|oid d|p inode req|tid]; simpl.
  - apply obj_same.
  - apply obj_create.
  - destruct (sys_tables s !! p) as [t|]; apply obj_same.
  - destruct (sys_tables s !! p) as [t|]; [|apply obj_same]. simpl.
    rewrite resolve_OBJECTS. apply obj_same.
  - destruct (sys_tables s !! p) as [t|]; [|apply obj_same].
    destruct (sys_tables s !! q) as [tgt|]; [|apply obj_same].
    destruct (derive _ _ _ _ _) as [[k' t'] r] eqn:Hd. apply derive_exec_OBJECTS in Hd.
    simpl in *. rewrite Hd. apply obj_same.
  - destruct (sys_tables s !! p) as [t|]; [|apply obj_same]. unfold derive_self.
    destruct (derive _ _ _ _ _) as [[k' t'] r] eqn:Hd. apply derive_exec_OBJECTS in Hd.
    simpl in *. rewrite Hd. apply obj_same.
  - unfold revoke, get_object. destruct (_ !! _) eqn:Ho; simpl; [by apply obj_revoke|apply obj_same].
  - destruct (sys_tables s !! p) as [t|]; [|apply obj_same]. simpl.
    unfold find_file_capability. rewrite scan_files_OBJECTS. apply obj_same.
  - apply obj_same.
Qed.

(** How one operation changes the tables: nothing, a new empty table, or one
    capability appended to one table. *)
Inductive tab_step : list CapabilityTable -> option (nat * Capability) -> list CapabilityTable -> Prop :=
  | tab_same ts : tab_step ts None ts
  | tab_new ts : tab_step ts None (ts ++ [[]])
  | tab_push ts p t cap :
      ts !! p = Some t -> tab_step ts (Some (p, cap)) (<[p := t ++ [Some cap]]> ts).

#[export] Hint Constructors tab_step : caps.

(** What an operation may put into a table. *)
Definition may_push (o : op) (s : system) (p : nat) (cap : Capability) : Prop :=
  match o with
  | OpGrant q oid rs =>
      p = q /\ cap = mkCap oid rs (match get_object (sys_kernel s) oid with
                                  | Some o => generation o | None => 0 end)
  | OpDerive _ _ _ _ | OpDeriveSelf _ _ _ =>
      exists q c src, slot_at s q c = Some src /\ live_for (sys_kernel s) src GRANT /\
        contains (rights src) (rights cap) = true /\
        object_id cap = object_id src /\ cap_generation cap = cap_generation src
  | _ => False
  end.

Lemma derive_push t cid rs tgt k :
  (derive t cid rs tgt k).1.2 = tgt \/
  exists src, mjoin (t !! Z.to_nat cid) = Some src /\ live_for k src GRANT /\
    contains (rights src) rs = true /\
    (derive t cid rs tgt k).1.2 = tgt ++ [Some (mkCap (object_id src) rs (cap_generation src))].
Proof.
  rewrite derive_target. destruct (resolve t cid GRANT k).2 as [src|e] eqn:Hr; [|by left].
  apply resolve_Ok in Hr as [? ?]. destruct (contains _ _) eqn:Hc; [|by left].
  right. eauto 10.
Qed.

Lemma derive_exec_step s p q t tgt cid rs r :
  sys_tables s !! p = Some t -> sys_tables s !! q = Some tgt ->
  derive t cid rs tgt (sys_kernel s) = r ->
  exists w, tab_step (sys_tables s) w (<[q := r.1.2]> (sys_tables s)) /\
    forall p' cap, w = Some (p', cap) ->
      exists q' c src, slot_at s q' c = Some src /\ live_for (sys_kernel s) src GRANT /\
        contains (rights src) (rights cap) = true /\
        object_id cap = object_id src /\ cap_generation cap = cap_generation src.
Proof.
  intros Hp Hq <-. destruct (derive_push t cid rs tgt (sys_kernel s)) as [->|(src & ? & ? & ? & ->)].
  - exists None. split; [rewrite list_insert_id by done; constructor|done].
  - eexists (Some _). split; [by constructor|]. intros p' cap [= <- <-].
    exists p, (Z.to_nat cid), src. unfold slot_at. rewrite Hp. simpl. auto.
Qed.

Lemma exec_tab_step o s :
  exists w, tab_step (sys_tables s) w (sys_tables (exec o s)) /\
    forall p cap, w = Some (p, cap) -> may_push o s p cap.
Proof.
  destruct o as [|kd|p oid rs|p cid req|p cid rs q|p cid rs|oid d|p inode req|tid]; simpl.
  - exists None. split; [constructor|done].
  - exists None. split; [constructor|done].
  - destruct (sys_tables s !! p) as [t|] eqn:Hp; [|exists None; split; [constructor|done]].
    eexists (Some (p, _)). split; [by constructor|]. by intros ? ? [= <- <-].
  - exists None. destruct (sys_tables s !! p); (split; [constructor|done]).
  - destruct (sys_tables s !! p) as [t|] eqn:Hp; [|exists None; split; [constructor|done]].
    destruct (sys_tables s !! q) as [tgt|] eqn:Hq; [|exists None; split; [constructor|done]].
    destruct (derive _ _ _ _ _) as [[k' t'] r] eqn:Hd.
    by destruct (derive_exec_step _ _ _ _ _ _ _ _ Hp Hq Hd) as (w & ? & ?); eauto.
  - destruct (sys_tables s !! p) as [t|] eqn:Hp; [|exists None; split; [constructor|done]].
    unfold derive_self. destruct (derive _ _ _ _ _) as [[k' t'] r] eqn:Hd.
    by destruct (derive_exec_step _ _ _ _ _ _ _ _ Hp Hp Hd) as (w & ? & ?); eauto.
  - exists None. split; [constructor|done].
  - exists None. destruct (sys_tables s !! p); (split; [constructor|done]).
  - exists None. split; [constructor|done].
Qed.

(** Slots never change once filled. *)
Lemma tab_step_slot ts w ts' p c cap :
  tab_step ts w ts' -> (t ← ts !! p; mjoin (t !! c)) = Some cap ->
  (t ← ts' !! p; mjoin (t !! c)) = Some cap.
Proof.
  intros Hst Hs. destruct (ts !! p) as [t|] eqn:Hp; [|done]. simpl in Hs.
  inversion Hst as [ts0|ts0|ts0 p' t' cap' Hp']; subst.
  - by rewrite Hp.
  - by rewrite (lookup_app_l_Some _ _ _ _ Hp).
  - destruct (decide (p = p')) as [->|Hne].
    + rewrite Hp in Hp'. injection Hp' as <-.
      rewrite list_lookup_insert_eq by by eapply lookup_lt_Some. simpl.
      destruct (t !! c) as [x|] eqn:Hc; [|done]. by rewrite (lookup_app_l_Some _ _ _ _ Hc).
    + by rewrite list_lookup_insert_ne, Hp by done.
Qed.

(** A slot of the new tables is an old one, or the one just pushed. *)
Lemma tab_step_slot_inv ts w ts' p c cap :
  tab_step ts w ts' -> (t ← ts' !! p; mjoin (t !! c)) = Some cap ->
  (t ← ts !! p; mjoin (t !! c)) = Some cap \/ w = Some (p, cap).
Proof.
  intros Hst Hs. destruct Hst as [ts|ts|ts p' t' cap' Hp'].
  - by left.
  - left. destruct (ts !! p) as [t|] eqn:Hp; [by rewrite (lookup_app_l_Some _ _ _ _ Hp) in Hs|].
    apply lookup_ge_None in Hp. rewrite lookup_app_r in Hs by done.
    by destruct (p - length ts)%nat.
  - destruct (decide (p = p')) as [->|Hne]; [|left; by rewrite list_lookup_insert_ne in Hs].
    rewrite list_lookup_insert_eq in Hs by by eapply lookup_lt_Some. simpl in Hs.
    destruct (decide (c < length t')%nat) as [Hc|Hc].
    + rewrite lookup_app_l in Hs by done. left. by rewrite Hp'.
    + rewrite lookup_app_r in Hs by lia. destruct (c - length t')%nat; simplify_eq/=. by right.
Qed.

(** ** Generations only grow *)

(** The object table may evolve this way without reviving a dead capability:
    no object disappears, and generations do not go down. *)
Definition obj_le (os os' : list KernelObject) : Prop :=
  forall i, match os !! i, os' !! i with
            | Some o, Some o' => generation o <= generation o'
            | Some _, None => False
            | None, Some o' => 1 <= generation o'
            | None, None => True
            end.

Lemma obj_step_le os os' n :
  (forall i o, os !! i = Some o -> 1 <= generation o <= n + 1) ->
  0 <= n -> n + 2 < 2 ^ 64 -> obj_step os os' ->
  obj_le os os' /\ (forall i o, os' !! i = Some o -> 1 <= generation o <= n + 2).
Proof.
  intros Hgen Hn0 Hn Hst.
  inversion Hst as [os0|os0 kd|os0 j o d Ho]; subst os0.
  - subst os'. split; [|intros i o ?; specialize (Hgen i o); naive_solver lia].
    intros i. by destruct (os !! i).
  - split.
    + intros i. destruct (os !! i) as [o|] eqn:Hi; [by rewrite (lookup_app_l_Some _ _ _ _ Hi)|].
      apply lookup_ge_None in Hi. rewrite lookup_app_r by done.
      by destruct (i - length os)%nat as [|[]].
    + intros i o [Hi|[Hi Hx]]%lookup_app_Some; [apply Hgen in Hi; lia|].
      apply list_lookup_singleton_Some in Hx as [_ <-]. simpl. lia.
  - pose proof (Hgen _ _ Ho) as Hg.
    assert (generation (revoke_object d o) = generation o + 1) as Hr
      by (simpl; apply wrap_small; red; lia).
    split.
    + intros i. destruct (decide (i = j)) as [->|Hne].
      * rewrite Ho, list_lookup_insert_eq by by eapply lookup_lt_Some. lia.
      * rewrite list_lookup_insert_ne by done. by destruct (os !! i).
    + intros i o'. destruct (decide (i = j)) as [->|Hne].
      * rewrite list_lookup_insert_eq by by eapply lookup_lt_Some. intros [= <-]. lia.
      * rewrite list_lookup_insert_ne by done. intros Hi%Hgen. lia.
Qed.

Lemma obj_le_dead k k' cap :
  obj_le (OBJECTS k) (OBJECTS k') -> dead k cap -> dead k' cap.
Proof.
  intros Hle. unfold dead, get_object. specialize (Hle (Z.to_nat (object_id cap))).
  destruct (OBJECTS k !! _), (OBJECTS k' !! _); lia || done.
Qed.

Lemma obj_le_cap_ok k k' cap :
  obj_le (OBJECTS k) (OBJECTS k') -> cap_ok k cap -> cap_ok k' cap.
Proof.
  intros Hle. unfold cap_ok, get_object. specialize (Hle (Z.to_nat (object_id cap))).
  destruct (OBJECTS k !! _), (OBJECTS k' !! _); lia || done.
Qed.

Lemma may_push_cap_ok n o s p cap : wf n s -> may_push o s p cap -> cap_ok (sys_kernel s) cap.
Proof.
  intros Hwf Hp. destruct o; try done; simpl in Hp.
  - destruct Hp as [-> ->]. unfold cap_ok. simpl. by destruct (get_object _ _).
  - destruct Hp as (q' & c & src & Hs & _ & _ & Hoid & Hg).
    apply (wf_caps _ _ Hwf) in Hs. unfold cap_ok in *. by rewrite Hoid, Hg.
  - destruct Hp as (q' & c & src & Hs & _ & _ & Hoid & Hg).
    apply (wf_caps _ _ Hwf) in Hs. unfold cap_ok in *. by rewrite Hoid, Hg.
Qed.

(** Every operation preserves the invariant, and only moves objects up. *)
Lemma exec_wf n o s :
  0 <= n -> n + 2 < 2 ^ 64 -> wf n s ->
  wf (n + 1) (exec o s) /\
  obj_le (OBJECTS (sys_kernel s)) (OBJECTS (sys_kernel (exec o s))).
Proof.
  intros Hn0 Hn Hwf.
  destruct (obj_step_le _ _ n (wf_gen _ _ Hwf) Hn0 Hn (exec_obj_step o s)) as [Hle Hgen].
  split; [|done]. constructor.
  - intros i ob Hi. apply Hgen in Hi. lia.
  - intros p c cap Hs. apply (obj_le_cap_ok (sys_kernel s)); [done|].
    destruct (exec_tab_step o s) as (w & Hst & Hpush).
    destruct (tab_step_slot_inv _ _ _ _ _ _ Hst Hs) as [Hold| ->].
    + by apply (wf_caps _ _ Hwf p c).
    + eapply may_push_cap_ok; [done|]. by apply Hpush.
Qed.

Lemma run_cons o ops s : run (o :: ops) s = run ops (exec o s).
Proof. done. Qed.

Lemma run_app ops1 ops2 s : run (ops1 ++ ops2) s = run ops2 (run ops1 s).
Proof. apply foldl_app. Qed.

Lemma obj_le_refl os : obj_le os os.
Proof. intros i. by destruct (os !! i). Qed.

Lemma obj_le_trans os1 os2 os3 : obj_le os1 os2 -> obj_le os2 os3 -> obj_le os1 os3.
Proof.
  intros H1 H2 i. specialize (H1 i). specialize (H2 i).
  destruct (os1 !! i), (os2 !! i), (os3 !! i); done || lia.
Qed.

Lemma run_wf ops n s :
  0 <= n -> n + Z.of_nat (length ops) + 1 < 2 ^ 64 -> wf n s ->
  wf (n + Z.of_nat (length ops)) (run ops s) /\
  obj_le (OBJECTS (sys_kernel s)) (OBJECTS (sys_kernel (run ops s))).
Proof.
  revert n s. induction ops as [|o ops IH]; intros n s Hn0 Hn Hwf.
  - simpl. rewrite Z.add_0_r. split; [done|apply obj_le_refl].
  - rewrite run_cons. cbn [length] in *. destruct (exec_wf n o s) as [Hwf' Hle]; [lia|lia|done|].
    destruct (IH (n + 1) (exec o s)) as [Hwf'' Hle']; [lia|lia|done|].
    split; [|by eapply obj_le_trans].
    by replace (n + Z.of_nat (S (length ops))) with (n + 1 + Z.of_nat (length ops)) by lia.
Qed.

Lemma wf_init : wf 0 system_init.
Proof. by constructor. Qed.

(** Filled slots stay filled along a run. *)
Lemma run_slot ops s p c cap :
  slot_at s p c = Some cap -> slot_at (run ops s) p c = Some cap.
Proof.
  revert s. induction ops as [|o ops IH]; intros s Hs; [done|]. rewrite run_cons. apply IH.
  destruct (exec_tab_step o s) as (w & Hst & _). by eapply tab_step_slot.
Qed.

Lemma dead_resolve_Revoked t cid req k cap :
  mjoin (t !! Z.to_nat cid) = Some cap -> dead k cap ->
  resolve t cid req k = (audit_record (EvDenied cid) k, Err Revoked).
Proof.
  intros Ht Hd. unfold resolve. rewrite Ht. unfold current_gen, dead in *.
  destruct (get_object k (object_id cap)) as [o|]; [|done]. simpl.
  destruct (alive o); [|done]. by rewrite (proj2 (Z.eqb_neq _ _)) by lia.
Qed.

Lemma revoke_dead n s oid d cap p c :
  0 <= n -> n + 2 < 2 ^ 64 -> wf n s -> slot_at s p c = Some cap -> object_id cap = oid ->
  dead (sys_kernel (exec (OpRevoke oid d) s)) cap.
Proof.
  intros Hn0 Hn Hwf Hs Hoid. pose proof (wf_caps _ _ Hwf _ _ _ Hs) as Hok.
  unfold dead, cap_ok, get_object in *. simpl. unfold revoke, get_object. rewrite <- Hoid.
  destruct (OBJECTS (sys_kernel s) !! Z.to_nat (object_id cap)) as [o|] eqn:Ho; simpl.
  - rewrite list_lookup_insert_eq by by eapply lookup_lt_Some.
    apply (wf_gen _ _ Hwf) in Ho. simpl. rewrite wrap_small by (red; lia). lia.
  - by rewrite Ho.
Qed.

(** C1. Revocation is immediate and permanent: in every history of capability
    operations (shorter than 2^64 operations, so that no generation counter
    wraps), once an object is revoked, every capability for it that any process
    held at that moment -- granted or derived, however many hops away -- fails
    to resolve with [Revoked], whatever rights are asked for, after any further
    operations, and each attempt leaves a [Denied] record. *)
Theorem revocation_immediate_and_permanent ops1 ops2 oid d p c cap t req :
  Z.of_nat (length (ops1 ++ OpRevoke oid d :: ops2)) + 1 < 2 ^ 64 ->
  slot_at (run ops1 system_init) p c = Some cap -> object_id cap = oid ->
  let s := run (ops1 ++ OpRevoke oid d :: ops2) system_init in
  sys_tables s !! p = Some t ->
  resolve t (Z.of_nat c) req (sys_kernel s) =
  (audit_record (EvDenied (Z.of_nat c)) (sys_kernel s), Err Revoked).
Proof.
  intros Hlen Hs Hoid s Ht. subst s. rewrite length_app in Hlen. cbn [length] in Hlen.
  destruct (run_wf ops1 0 system_init) as [Hwf1 _]; [lia|lia|apply wf_init|].
  rewrite run_app, run_cons in *. set (s1 := run ops1 system_init) in *.
  destruct (exec_wf (0 + Z.of_nat (length ops1)) (OpRevoke oid d) s1) as [Hwf2 _]; [lia|lia|done|].
  destruct (run_wf ops2 (0 + Z.of_nat (length ops1) + 1) _ ltac:(lia) ltac:(lia) Hwf2) as [_ Hle].
  apply (dead_resolve_Revoked _ _ _ _ cap).
  - apply (run_slot (OpRevoke oid d :: ops2)) in Hs. rewrite run_cons in Hs.
    unfold slot_at in Hs. rewrite Ht in Hs. by rewrite Nat2Z.id.
  - eapply obj_le_dead; [exact Hle|].
    by apply (revoke_dead (0 + Z.of_nat (length ops1)) _ _ _ _ p c); try lia.
Qed.

Definition bounded_by_start (s : system) (cap : Capability) : Prop :=
  exists q src, holds s q src /\ object_id src = object_id cap /\
    cap_generation src = cap_generation cap /\ contains (rights src) (rights cap) = true.

Lemma bounded_derive s s1 cap :
  (forall q src, holds s1 q src -> object_id src = object_id cap -> bounded_by_start s src) ->
  (exists q c src, slot_at s1 q c = Some src /\ live_for (sys_kernel s1) src GRANT /\
     contains (rights src) (rights cap) = true /\
     object_id cap = object_id src /\ cap_generation cap = cap_generation src) ->
  bounded_by_start s cap.
Proof.
  intros IH (q & c & src & Hs & _ & Hc & Hoid & Hg).
  destruct (IH q src) as (q0 & root & Hr & Ho & Hgen & Hcr); [by exists c|done|].
  exists q0, root. split_and!; [done|congruence|congruence|].
  by apply (contains_trans_inst _ (rights src)).
Qed.

(** C2. Attenuation: along any operations that do not mint fresh capabilities
    for object [oid] ([OpGrant] on it), every capability on [oid] that any
    process ends up with is bounded by one that some process already held at
    the start: same object and generation, and no right the other lacks. *)
Theorem no_rights_amplification ops s p cap :
  Forall (fun o => match o with OpGrant _ oid _ => oid <> object_id cap | _ => True end) ops ->
  holds (run ops s) p cap ->
  bounded_by_start s cap.
Proof.
  revert p cap. induction ops as [|o ops IH] using rev_ind; intros p cap Hops [c Hs].
  - exists p, cap. split_and!; [by exists c|done|done|apply (contains_refl_inst (rights cap))].
  - apply Forall_app in Hops as [Hops [Ho _]%Forall_cons].
    rewrite run_app, run_cons in Hs. simpl in Hs. set (s1 := run ops s) in *.
    destruct (exec_tab_step o s1) as (w & Hst & Hpush).
    destruct (tab_step_slot_inv _ _ _ _ _ _ Hst Hs) as [Hold| ->].
    + apply (IH p cap Hops). by exists c.
    + specialize (Hpush _ _ eq_refl). destruct o; simpl in Hpush; try done.
      * destruct Hpush as [-> ->]. by destruct (Ho eq_refl).
      * apply (bounded_derive s s1); [|done]. intros q' src Hh He. apply (IH q'); [|done].
        by rewrite He.
      * apply (bounded_derive s s1); [|done]. intros q' src Hh He. apply (IH q'); [|done].
        by rewrite He.
Qed.

(** Equivalences between a decided result and a case of the slot. *)
Ltac iff_cases :=
  split; intros; repeat match goal with H : exists _, _ |- _ => destruct H | H : _ /\ _ |- _ => destruct H end;
  simplify_eq; first [congruence | eexists; split_and!; solve [done | congruence] | eauto].

(** [resolve], every branch: success exactly for a filled slot whose object
    is alive at the capability's generation and whose rights cover the request;
    otherwise the error names the first check that failed.  The object table
    never changes, and the log grows by one [Denied] record exactly on failure. *)
Theorem resolve_branches t cid req k :
  (forall cap, (resolve t cid req k).2 = Ok cap <->
     mjoin (t !! Z.to_nat cid) = Some cap /\ live_for k cap req) /\
  ((resolve t cid req k).2 = Err NoSuchCapability <-> mjoin (t !! Z.to_nat cid) = None) /\
  ((resolve t cid req k).2 = Err Revoked <->
     exists cap, mjoin (t !! Z.to_nat cid) = Some cap /\ ~ live_for k cap NONE) /\
  ((resolve t cid req k).2 = Err InsufficientRights <->
     exists cap, mjoin (t !! Z.to_nat cid) = Some cap /\ live_for k cap NONE /\
       contains (rights cap) req = false) /\
  (resolve t cid req k).2 <> Err AttenuationViolation /\
  (resolve t cid req k).1 =
    (if is_ok (resolve t cid req k).2 then k else audit_record (EvDenied cid) k).
Proof.
  assert (forall cap, live_for k cap NONE <-> current_gen k (object_id cap) = Some (cap_generation cap))
    as Hlive.
  { intros cap. unfold live_for. rewrite current_gen_Some. split; [tauto|].
    intros H. split; [done|]. apply contains_spec. apply Z.land_0_r. }
  split; [intros; apply resolve_Ok|].
  unfold resolve. destruct (mjoin _) as [cap|] eqn:Ht; simpl.
  2: { split_and!; solve [done | iff_cases]. }
  setoid_rewrite Hlive.
  destruct (current_gen k (object_id cap)) as [g|] eqn:Hg.
  - destruct (g =? cap_generation cap) eqn:He; bool_to_prop; subst.
    + destruct (contains (rights cap) req) eqn:Hc; simpl;
        split_and!; solve [done | iff_cases].
    + simpl; split_and!; solve [done | iff_cases].
  - simpl; split_and!; solve [done | iff_cases].
Qed.

(** What a successful [derive] does. *)
Lemma derive_Ok t cid rs tgt k id :
  (derive t cid rs tgt k).2 = Ok id ->
  id = u32 (Z.of_nat (length tgt)) /\
  exists src, mjoin (t !! Z.to_nat cid) = Some src /\ live_for k src GRANT /\
    contains (rights src) rs = true /\
    derive t cid rs tgt k =
      (audit_record (EvDerive (object_id src) rs) k,
       tgt ++ [Some (mkCap (object_id src) rs (cap_generation src))], Ok id).
Proof.
  unfold derive. pose proof (resolve_Ok t cid GRANT k) as Hok.
  pose proof (resolve_kernel t cid GRANT k) as Hk.
  destruct (resolve t cid GRANT k) as [k' [src|e]]; simpl in *; [|done].
  destruct (proj1 (Hok src) eq_refl) as [Ht Hl]. subst k'.
  destruct (contains (rights src) rs) eqn:Hc; simpl; [|done]. intros [= <-]. eauto 10.
Qed.

Lemma resolve_short t cid req k cap :
  mjoin (t !! Z.to_nat cid) = Some cap -> live_for k cap NONE ->
  contains (rights cap) req = false -> (resolve t cid req k).2 = Err InsufficientRights.
Proof.
  intros Ht [Hl _] Hc. unfold resolve. rewrite Ht.
  assert (current_gen k (object_id cap) = Some (cap_generation cap)) as -> by by apply current_gen_Some.
  simpl. by rewrite Z.eqb_refl, Hc.
Qed.

(** [derive], every branch: it succeeds exactly when the source resolves
    with [GRANT] and covers the requested rights; then one attenuated copy (same
    object, same generation, exactly the requested rights) is appended to the
    target and one [Derive] record is written; otherwise the target is left
    alone. *)
Theorem derive_branches t cid rs tgt k :
  let r := derive t cid rs tgt k in
  (forall id, r.2 = Ok id <->
     id = u32 (Z.of_nat (length tgt)) /\
     exists src, mjoin (t !! Z.to_nat cid) = Some src /\ live_for k src GRANT /\
       contains (rights src) rs = true) /\
  (forall src, mjoin (t !! Z.to_nat cid) = Some src -> is_ok r.2 = true ->
     r.1.2 = tgt ++ [Some (mkCap (object_id src) rs (cap_generation src))] /\
     r.1.1 = audit_record (EvDerive (object_id src) rs) k) /\
  (is_ok r.2 = false -> r.1.2 = tgt).
Proof.
  simpl. unfold derive. pose proof (resolve_Ok t cid GRANT k) as Hok.
  pose proof (resolve_kernel t cid GRANT k) as Hk.
  destruct (resolve t cid GRANT k) as [k' [src|e]]; simpl in *.
  - destruct (Hok src) as [Hs _]. destruct (Hs eq_refl) as [Ht Hl]. subst k'.
    destruct (contains (rights src) rs) eqn:Hc; simpl; (split_and!; [|intros src'; rewrite Ht; by intros [= <-]|done]).
    + intros id. split; [intros [= <-]; eauto 10|]. by intros [-> _].
    + intros id. split; [done|]. intros (_ & src' & Ht' & _ & Hc'). congruence.
  - split_and!; [|done..]. intros id. split; [done|]. intros (_ & src & Ht & Hl & _).
    destruct (Hok src) as [_ H]. by specialize (H (conj Ht Hl)).
Qed.

(** A derivation that asks for more than the source holds is refused with
    [AttenuationViolation] -- and, unlike every other refusal of a capability
    operation, leaves the audit log exactly as it was. *)
Theorem derive_attenuation_violation_unaudited t cid rs tgt k src :
  mjoin (t !! Z.to_nat cid) = Some src -> live_for k src GRANT ->
  contains (rights src) rs = false ->
  derive t cid rs tgt k = (k, tgt, Err AttenuationViolation).
Proof.
  intros Ht Hl Hc. unfold derive. pose proof (resolve_kernel t cid GRANT k) as Hk.
  destruct (resolve_Ok t cid GRANT k src) as [_ H]. specialize (H (conj Ht Hl)).
  destruct (resolve t cid GRANT k) as [k' r]; simpl in *. subst. by rewrite Hc.
Qed.

(** Delegation round trip: the id [derive] returns names, in the target
    table, a capability that resolves at once -- for a request iff the derived
    rights cover it (target tables shorter than 2^32 slots). *)
Theorem derive_then_resolve t cid rs tgt k id req :
  Z.of_nat (length tgt) < 2 ^ 32 ->
  (derive t cid rs tgt k).2 = Ok id ->
  let k' := (derive t cid rs tgt k).1.1 in
  let tgt' := (derive t cid rs tgt k).1.2 in
  (contains rs req = true ->
     exists cap, (resolve tgt' id req k').2 = Ok cap /\ rights cap = rs) /\
  (contains rs req = false -> (resolve tgt' id req k').2 = Err InsufficientRights).
Proof.
  intros Hlen Hok. destruct (derive_Ok _ _ _ _ _ _ Hok) as (-> & src & Ht & Hl & Hc & ->).
  cbn [fst snd].
  set (cap := mkCap (object_id src) rs (cap_generation src)).
  assert (mjoin ((tgt ++ [Some cap]) !! Z.to_nat (u32 (Z.of_nat (length tgt)))) = Some cap) as Hslot.
  { rewrite wrap_small by (red; lia). rewrite Nat2Z.id, lookup_app_r, Nat.sub_diag by lia. done. }
  assert (forall ev, live_for (audit_record ev k) cap NONE) as Hlive.
  { intros ev. split; [apply Hl|]. apply contains_spec, Z.land_0_r. }
  split.
  - intros Hreq. exists cap. split; [|done]. apply resolve_Ok. split; [done|]. split; [apply Hl|done].
  - intros Hreq. by apply (resolve_short _ _ _ _ cap).
Qed.

(** ** Searching for a file capability *)

(** [cap] is a usable capability for a file whose inode passes [want]. *)
Definition file_match (k : kernel) (want : Z -> bool) (req : Z) (cap : Capability) : Prop :=
  live_for k cap req /\
  exists inode, object_kind k (object_id cap) = Some (FileObject inode) /\ want inode = true.

Lemma file_match_ext k k' want req cap :
  OBJECTS k = OBJECTS k' -> file_match k want req cap -> file_match k' want req cap.
Proof. unfold file_match, live_for, object_kind, get_object. by intros ->. Qed.

(** [r] is the first match among the slots [rest], which start at index [off]. *)
Definition first_match (k : kernel) (want : Z -> bool) (req : Z) (off : nat)
    (rest : CapabilityTable) (r : option Z) : Prop :=
  match r with
  | Some id => exists n cap, id = Z.of_nat (off + n) /\ rest !! n = Some (Some cap) /\
      file_match k want req cap /\
      forall j cap', (j < n)%nat -> rest !! j = Some (Some cap') -> ~ file_match k want req cap'
  | None => forall j cap', rest !! j = Some (Some cap') -> ~ file_match k want req cap'
  end.

Lemma first_match_skip k k' want req off slot rest r :
  OBJECTS k' = OBJECTS k -> (forall cap, slot = Some cap -> ~ file_match k want req cap) ->
  first_match k' want req (S off) rest r -> first_match k want req off (slot :: rest) r.
Proof.
  intros Hk Hno. destruct r as [id|]; simpl.
  - intros (n & cap & -> & Hn & Hm & Hj). exists (S n), cap.
    split_and!; [f_equal; lia|done|by eapply file_match_ext|].
    intros [|j] cap' Hlt Hl; [apply Hno; by simplify_eq/=|].
    intros Hm'. eapply Hj; [|exact Hl|by eapply file_match_ext]. lia.
  - intros IH [|j] cap' Hl; [apply Hno; by simplify_eq/=|].
    intros Hm'. eapply IH; [exact Hl|by eapply file_match_ext].
Qed.

Lemma scan_files_spec t pre rest want req k :
  t = pre ++ rest -> Z.of_nat (length t) < 2 ^ 32 ->
  first_match k want req (length pre) rest (scan_files t rest (length pre) want req k).2.
Proof.
  revert pre k. induction rest as [|slot rest IH]; intros pre k Heq Hlen; [done|].
  assert (forall k', OBJECTS k' = OBJECTS k ->
    (forall cap, slot = Some cap -> ~ file_match k want req cap) ->
    first_match k want req (length pre) (slot :: rest)
      (scan_files t rest (S (length pre)) want req k').2) as Hnext.
  { intros k' Hk Hno. eapply first_match_skip; [done|done|].
    specialize (IH (pre ++ [slot]) k'). rewrite last_length in IH.
    apply IH; [by rewrite <- app_assoc|done]. }
  simpl. destruct slot as [cap|]; [|by apply Hnext].
  destruct (contains (rights cap) req) eqn:Hc.
  2: { apply Hnext; [done|]. intros ? [= <-] [[_ ?] _]. congruence. }
  destruct (object_kind k (object_id cap)) as [kd|] eqn:Hkd.
  2: { apply Hnext; [done|]. intros ? [= <-] [_ (? & ? & _)]. congruence. }
  destruct kd; try by (apply Hnext; [done|]; intros ? [= <-] [_ (? & ? & _)]; congruence).
  destruct (want inode) eqn:Hw.
  2: { apply Hnext; [done|]. intros ? [= <-] [_ (? & ? & ?)]. congruence. }
  rewrite wrap_small by (subst t; rewrite length_app in Hlen; simpl in Hlen; red; lia).
  assert (mjoin (t !! Z.to_nat (Z.of_nat (length pre))) = Some cap) as Hslot.
  { subst t. rewrite Nat2Z.id, lookup_app_r, Nat.sub_diag by lia. done. }
  pose proof (resolve_OBJECTS t (Z.of_nat (length pre)) req k) as Hobj.
  pose proof (resolve_Ok t (Z.of_nat (length pre)) req k) as Hok.
  destruct (resolve t (Z.of_nat (length pre)) req k) as [k' [c|e]]; simpl in *.
  - destruct (proj1 (Hok c) eq_refl) as [Hc' Hl]. rewrite Hslot in Hc'. simplify_eq.
    exists 0%nat, c. split_and!; [f_equal; lia|done|split; eauto|]. intros; lia.
  - apply (Hnext k' Hobj). intros ? [= <-] [Hl _].
    by specialize (proj2 (Hok cap) (conj Hslot Hl)).
Qed.

(** [find_file_capability] finds the first slot that holds a live, unrevoked
    capability for the file [inode] with the required rights, and answers [None]
    only when no slot does; [has_any_file_capability] is the same test with the
    inode left open (tables shorter than 2^32 slots). *)
Theorem file_search_exact t inode req k :
  Z.of_nat (length t) < 2 ^ 32 ->
  first_match k (fun i => i =? inode) req 0 t (find_file_capability t inode req k).2 /\
  ((has_any_file_capability t req k).2 = true <->
     exists c cap, t !! c = Some (Some cap) /\ file_match k (fun _ => true) req cap).
Proof.
  intros Hlen. split; [by apply (scan_files_spec t [])|].
  unfold has_any_file_capability.
  pose proof (scan_files_spec t [] t (fun _ => true) req k eq_refl Hlen) as H. simpl in H.
  destruct (scan_files t t 0 _ req k) as [k' [id|]]; simpl in *.
  - destruct H as (n & cap & _ & Hn & Hm & _). split; [eauto|done].
  - split; [done|]. intros (c & cap & Hc & Hm). by destruct (H c cap).
Qed.

(** ** Concrete histories *)

Module CapWitness.

(** Process 0 creates an endpoint, holds it with [SEND|GRANT], derives
    [SEND] to process 1, which is then revoked. *)
Definition ops_before : list op :=
  [OpNewTable; OpNewTable; OpCreate IpcEndpoint; OpGrant 0 0 (union SEND GRANT);
   OpDerive 0 0 SEND 1].

Lemma revocation_witness :
  resolve [Some (mkCap 0 SEND 1)] 0 SEND (sys_kernel (run (ops_before ++ [OpRevoke 0 false]) system_init)) =
  (audit_record (EvDenied 0) (sys_kernel (run (ops_before ++ [OpRevoke 0 false]) system_init)), Err Revoked).
Proof.
  apply (revocation_immediate_and_permanent ops_before [] 0 false 1 0 (mkCap 0 SEND 1));
    vm_compute; reflexivity.
Defined.

Lemma no_rights_amplification_witness :
  bounded_by_start (run (take 4 ops_before) system_init) (mkCap 0 SEND 1).
Proof.
  apply (no_rights_amplification [OpDerive 0 0 SEND 1] (run (take 4 ops_before) system_init) 1).
  - repeat constructor.
  - exists 0%nat. vm_compute. reflexivity.
Defined.

Definition k0 : kernel := sys_kernel (run (take 4 ops_before) system_init).

Lemma derive_attenuation_violation_witness :
  derive [Some (mkCap 0 (union SEND GRANT) 1)] 0 RECEIVE [] k0 = (k0, [], Err AttenuationViolation).
Proof.
  apply (derive_attenuation_violation_unaudited _ _ _ _ _ (mkCap 0 (union SEND GRANT) 1)).
  - reflexivity.
  - split; [exists (mkObject IpcEndpoint 1 true)|]; vm_compute; auto.
  - reflexivity.
Defined.

Lemma derive_then_resolve_witness :
  (resolve [Some (mkCap 0 SEND 1)] 0 RECEIVE
     (derive [Some (mkCap 0 (union SEND GRANT) 1)] 0 SEND [] k0).1.1).2 = Err InsufficientRights.
Proof.
  apply (derive_then_resolve [Some (mkCap 0 (union SEND GRANT) 1)] 0 SEND [] k0 0 RECEIVE);
    vm_compute; reflexivity.
Defined.

Lemma file_search_witness :
  (has_any_file_capability [Some (mkCap 0 READ 1)] READ
     (create_object (FileObject 12) kernel_init).1).2 = true.
Proof.
  apply (file_search_exact [Some (mkCap 0 READ 1)] 12 READ (create_object (FileObject 12) kernel_init).1).
  - vm_compute. reflexivity.
  - exists 0%nat, (mkCap 0 READ 1). split; [reflexivity|]. split.
    + split; [exists (mkObject (FileObject 12) 1 true)|]; vm_compute; auto.
    + exists 12. vm_compute. auto.
Defined.

End CapWitness.
