(* ===== verification/Bits.v ===== *)
(** * Bit and page arithmetic

    [kernel_common/src/lib.rs] (rounding), [bitmap.rs] (the physical memory
    manager's bitmaps), [pagetable.rs] (four-level page-table indices) and
    [supervision.rs] (device addresses and the restart decision). *)

From S2P Require Import Prelude.

(** ** Rounding ([lib.rs]) *)

Definition align_up (addr align : Z) : Z :=
  Z.land (u64 (addr + align - 1)) (wnot 64 (u64 (align - 1))).

Definition pages_for (n page_size : Z) : Z := u64 (n + page_size - 1) / page_size.

(** ** Bitmaps ([bitmap.rs]) *)

Definition bitmap_set (b : bytes) (index : Z) : option bytes :=
  v ← b !! Z.to_nat (index / 8);
  Some (<[Z.to_nat (index / 8) := Z.lor v (Z.shiftl 1 (index mod 8))]> b).

Definition bitmap_clear (b : bytes) (index : Z) : option bytes :=
  v ← b !! Z.to_nat (index / 8);
  Some (<[Z.to_nat (index / 8) := Z.land v (wnot 8 (Z.shiftl 1 (index mod 8)))]> b).

Definition bitmap_test (b : bytes) (index : Z) : option bool :=
  v ← b !! Z.to_nat (index / 8);
  Some (negb (Z.land v (Z.shiftl 1 (index mod 8)) =? 0)).

Definition reserve_range_pages (start length page_size : Z) : Z * Z :=
  let start_page := start / page_size in
  let pages := u64 (length + page_size - 1) / page_size in
  let pages :=
    if negb (start mod page_size =? 0)
    then u64 (length + start mod page_size + page_size - 1) / page_size else pages in
  (start_page, pages).

(** ** Page-table indices ([pagetable.rs]) *)

Definition ADDR_MASK : Z := 0x000FFFFFFFFFF000.

Definition split_indices (vaddr : Z) : Z * Z * Z * Z :=
  let pt := Z.land (Z.shiftr vaddr 12) 0x1ff in
  let pd := Z.land (Z.shiftr vaddr 21) 0x1ff in
  let pdpt := Z.land (Z.shiftr vaddr 30) 0x1ff in
  let pml4 := Z.land (Z.shiftr vaddr 39) 0x1ff in
  (pml4, pdpt, pd, pt).

Definition frame_from_entry (entry : Z) : Z := Z.land entry ADDR_MASK.

(** ** Device addresses and restarts ([supervision.rs]) *)

Definition pack_bdf (bus device function : Z) : Z :=
  Z.lor (Z.lor (u32 (Z.shiftl bus 16)) (u32 (Z.shiftl device 8))) function.

Definition unpack_bdf (packed : Z) : Z * Z * Z :=
  (u8 (Z.land (Z.shiftr packed 16) 0xFF), u8 (Z.land (Z.shiftr packed 8) 0xFF),
   u8 (Z.land packed 0xFF)).

Inductive RestartDecision := Restart (attempt : Z) | Quarantine.

Definition decide_restart (prior_restart_count max_restarts : Z) : RestartDecision :=
  if max_restarts <=? prior_restart_count then Quarantine
  else Restart (u32 (prior_restart_count + 1)).

(** ** Lemmas *)

Lemma wnot_testbit w x i :
  0 <= i < w -> in_width w x -> Z.testbit (wnot w x) i = negb (Z.testbit x i).
Proof.
  intros Hi Hx. unfold wnot. rewrite Z.lxor_spec.
  replace (2 ^ w - 1) with (Z.ones w) by (rewrite Z.ones_equiv; lia).
  rewrite Z.ones_spec_low by lia. apply xorb_true_r.
Qed.

Lemma wnot_testbit_high w x i : 0 <= w <= i -> in_width w x -> Z.testbit (wnot w x) i = false.
Proof.
  intros Hi Hx. unfold wnot. rewrite Z.lxor_spec, (in_width_testbit w x) by done.
  replace (2 ^ w - 1) with (Z.ones w) by (rewrite Z.ones_equiv; lia).
  by rewrite Z.ones_spec_high by lia.
Qed.

(** Clearing the low [k] bits is rounding down. *)
Lemma land_wnot_ones w x k :
  0 <= k <= w -> in_width w x -> Z.land x (wnot w (2 ^ k - 1)) = x - x mod 2 ^ k.
Proof.
  intros Hk Hx.
  assert (x - x mod 2 ^ k = 2 ^ k * (x / 2 ^ k)) as -> by (pose proof (Z.div_mod x (2 ^ k)); lia).
  rewrite Z.mul_comm, <- Z.shiftl_mul_pow2, <- Z.shiftr_div_pow2 by lia.
  replace (2 ^ k - 1) with (Z.ones k) by (rewrite Z.ones_equiv; lia).
  assert (in_width w (Z.ones k)) as Hones.
  { rewrite Z.ones_equiv. split.
    - assert (0 < 2 ^ k) by (apply Z.pow_pos_nonneg; lia). lia.
    - assert (2 ^ k <= 2 ^ w) by (apply Z.pow_le_mono_r; lia). lia. }
  apply Z.bits_inj'. intros i Hi. rewrite Z.land_spec.
  destruct (Z_lt_le_dec i k) as [Hlt|Hge].
  - rewrite wnot_testbit, Z.ones_spec_low, Z.shiftl_spec_low by (done || lia). apply andb_false_r.
  - rewrite Z.shiftl_spec_high, Z.shiftr_spec by lia. replace (i - k + k) with i by lia.
    destruct (Z_lt_le_dec i w).
    + rewrite wnot_testbit, Z.ones_spec_high by (done || lia). apply andb_true_r.
    + by rewrite (in_width_testbit w x i) by (done || lia).
Qed.

(** *** Rounding *)

(** [align_up] returns the least multiple of a power-of-two alignment that
    is at least [addr], as long as the sum does not overflow. *)
Lemma align_up_least addr k :
  0 <= k < 64 -> 0 <= addr -> addr + 2 ^ k - 1 < 2 ^ 64 ->
  let r := align_up addr (2 ^ k) in
  addr <= r < addr + 2 ^ k /\ (2 ^ k | r) /\
  forall m, (2 ^ k | m) -> addr <= m -> r <= m.
Proof.
  intros Hk Ha Hov r. assert (0 < 2 ^ k) as Hp by (apply Z.pow_pos_nonneg; lia).
  assert (r = addr + 2 ^ k - 1 - (addr + 2 ^ k - 1) mod 2 ^ k) as Hr.
  { subst r. unfold align_up. rewrite (wrap_small 64 (2 ^ k - 1)), wrap_small by (red; lia).
    apply land_wnot_ones; [lia|red; lia]. }
  pose proof (Z.mod_pos_bound (addr + 2 ^ k - 1) (2 ^ k) Hp).
  assert ((2 ^ k | r)) as Hdiv.
  { exists ((addr + 2 ^ k - 1) / 2 ^ k). pose proof (Z.div_mod (addr + 2 ^ k - 1) (2 ^ k)). lia. }
  split_and!; [lia|lia|done|].
  intros m [q ->] Hm. destruct Hdiv as [q' Hq']. rewrite Hq' in *.
  destruct (Z_lt_le_dec q q'); [exfalso|nia]. assert (q + 1 <= q') by lia. nia.
Qed.

(** *** Bitmaps *)

(** The abstract bitmap: bit [i] of a byte sequence, [false] out of range. *)
Definition bit (b : bytes) (i : Z) : bool :=
  match b !! Z.to_nat (i / 8) with
  | Some v => Z.testbit v (i mod 8)
  | None => false
  end.

Lemma bit_index_bound (b : bytes) i : 0 <= i < 8 * Z.of_nat (length b) -> (Z.to_nat (i / 8) < length b)%nat.
Proof. intros. assert (0 <= i / 8 < Z.of_nat (length b)); [|lia]. split; [apply Z.div_pos; lia|apply Z.div_lt_upper_bound; lia]. Qed.

Lemma bitmap_test_bit b i : 0 <= i < 8 * Z.of_nat (length b) -> bitmap_test b i = Some (bit b i).
Proof.
  intros Hi%bit_index_bound. unfold bitmap_test, bit.
  destruct (lookup_lt_is_Some_2 b _ Hi) as [v ->]. simpl. f_equal.
  apply land_shift_testbit. apply Z.mod_pos_bound. lia.
Qed.

(** Two bit positions agree exactly when byte and bit within the byte do. *)
Lemma bit_pos_inj i j : 0 <= i -> 0 <= j ->
  Z.to_nat (i / 8) = Z.to_nat (j / 8) -> i mod 8 = j mod 8 -> i = j.
Proof.
  intros Hi Hj Hd Hm. assert (i / 8 = j / 8).
  { apply Z2Nat.inj in Hd; [done|apply Z.div_pos; lia|apply Z.div_pos; lia]. }
  rewrite (Z.div_mod i 8), (Z.div_mod j 8) by lia. congruence.
Qed.

Definition update_bit (b : bytes) (index : Z) (x : bool) (b' : bytes) : Prop :=
  length b' = length b /\ all_bytes b' /\
  forall j, 0 <= j -> bit b' j = if j =? index then x else bit b j.

Lemma byte_bit_update b i v v' x :
  all_bytes b -> 0 <= i -> b !! Z.to_nat (i / 8) = Some v -> is_byte v' ->
  (forall k, 0 <= k < 8 -> Z.testbit v' k = if k =? i mod 8 then x else Z.testbit v k) ->
  update_bit b i x (<[Z.to_nat (i / 8) := v']> b).
Proof.
  intros Hb Hi Hv Hv' Hk. split_and!.
  - apply length_insert.
  - apply Forall_insert; done.
  - intros j Hj. unfold bit. destruct (decide (Z.to_nat (i / 8) = Z.to_nat (j / 8))) as [He|Hne].
    + rewrite <- He, list_lookup_insert_eq, Hv by by eapply lookup_lt_Some.
      rewrite Hk by (apply Z.mod_pos_bound; lia).
      destruct (j =? i) eqn:Hji; bool_to_prop; [subst; by rewrite Z.eqb_refl|].
      destruct (j mod 8 =? i mod 8) eqn:Hm; bool_to_prop; [|done].
      exfalso. apply Hji. by apply bit_pos_inj.
    + rewrite list_lookup_insert_ne by done.
      destruct (j =? i) eqn:Hji; bool_to_prop; [by subst|done].
Qed.

Lemma shiftl1_byte k : 0 <= k < 8 -> in_width 8 (Z.shiftl 1 k).
Proof.
  intros. rewrite Z.shiftl_1_l. split; [apply Z.pow_nonneg; lia|].
  apply Z.pow_lt_mono_r; lia.
Qed.

Lemma all_bytes_lookup (b : bytes) i v : all_bytes b -> b !! i = Some v -> in_width 8 v.
Proof. intros Hb Hi. exact (proj1 (Forall_lookup _ _) Hb _ _ Hi). Qed.

Lemma bitmap_set_spec b i :
  all_bytes b -> 0 <= i < 8 * Z.of_nat (length b) ->
  exists b', bitmap_set b i = Some b' /\ update_bit b i true b'.
Proof.
  intros Hb Hi. unfold bitmap_set.
  destruct (lookup_lt_is_Some_2 b _ (bit_index_bound b i Hi)) as [v Hv]. rewrite Hv. simpl.
  eexists; split; [done|].
  assert (0 <= i mod 8 < 8) as Hm by (apply Z.mod_pos_bound; lia).
  apply (byte_bit_update _ _ v); [done|lia|done| |].
  - apply (in_width_lor 8); [lia|by eapply all_bytes_lookup|by apply shiftl1_byte].
  - intros k Hk. rewrite Z.lor_spec, Z.shiftl_1_l, Z.pow2_bits_eqb by lia.
    rewrite (Z.eqb_sym k). destruct (i mod 8 =? k); [apply orb_true_r|apply orb_false_r].
Qed.

Lemma bitmap_clear_spec b i :
  all_bytes b -> 0 <= i < 8 * Z.of_nat (length b) ->
  exists b', bitmap_clear b i = Some b' /\ update_bit b i false b'.
Proof.
  intros Hb Hi. unfold bitmap_clear.
  destruct (lookup_lt_is_Some_2 b _ (bit_index_bound b i Hi)) as [v Hv]. rewrite Hv. simpl.
  eexists; split; [done|].
  assert (0 <= i mod 8 < 8) as Hm by (apply Z.mod_pos_bound; lia).
  apply (byte_bit_update _ _ v); [done|lia|done| |].
  - apply (in_width_land_l 8); [lia|by eapply all_bytes_lookup|].
    apply Z.lxor_nonneg. split; intros; [lia|]. apply (shiftl1_byte (i mod 8)). done.
  - intros k Hk. rewrite Z.land_spec, wnot_testbit, Z.shiftl_1_l, Z.pow2_bits_eqb
      by (lia || by apply shiftl1_byte).
    rewrite (Z.eqb_sym k). destruct (i mod 8 =? k); [apply andb_false_r|apply andb_true_r].
Qed.

(** The bitmap operations implement a finite map from indices to booleans:
    inside the buffer [set] and [clear] succeed and change exactly the named
    bit, and [test] reads it; outside they panic. *)
Theorem bitmap_refines_bits b i :
  all_bytes b -> 0 <= i ->
  (i < 8 * Z.of_nat (length b) ->
     bitmap_test b i = Some (bit b i) /\
     (exists b', bitmap_set b i = Some b' /\ update_bit b i true b') /\
     (exists b', bitmap_clear b i = Some b' /\ update_bit b i false b')) /\
  (8 * Z.of_nat (length b) <= i ->
     bitmap_test b i = None /\ bitmap_set b i = None /\ bitmap_clear b i = None).
Proof.
  intros Hb Hi. split.
  - intros Hlt. split_and!; [apply bitmap_test_bit|apply bitmap_set_spec|apply bitmap_clear_spec]; done || lia.
  - intros Hge. assert (b !! Z.to_nat (i / 8) = None) as Hn.
    { apply lookup_ge_None. assert (Z.of_nat (length b) <= i / 8); [|lia].
      apply Z.div_le_lower_bound; lia. }
    unfold bitmap_test, bitmap_set, bitmap_clear. by rewrite Hn.
Qed.

(** [reserve_range_pages] returns exactly the pages that a non-empty byte
    range touches: page [p] is in the result iff it shares a byte with the
    range (no wrap-around in the sizes). *)
Lemma reserve_range_pages_exact start len ps p :
  0 < ps -> 0 <= start -> 0 < len -> len + 2 * ps < 2 ^ 64 ->
  let '(first, n) := reserve_range_pages start len ps in
  first <= p < first + n <-> p * ps < start + len /\ start < (p + 1) * ps.
Proof.
  intros Hps Hs Hl Hov. unfold reserve_range_pages.
  pose proof (Z.mod_pos_bound start ps Hps) as Hm.
  pose proof (Z.div_mod start ps ltac:(lia)) as Hd.
  set (r := start mod ps) in *. set (q := start / ps) in *.
  assert ((if negb (r =? 0) then u64 (len + r + ps - 1) / ps else u64 (len + ps - 1) / ps) =
          (len + r + ps - 1) / ps) as ->.
  { destruct (r =? 0) eqn:Hr; bool_to_prop; simpl; rewrite wrap_small by (red; lia); [|done].
    f_equal. lia. }
  pose proof (Z.div_mod (len + r + ps - 1) ps ltac:(lia)) as Hd2.
  pose proof (Z.mod_pos_bound (len + r + ps - 1) ps Hps) as Hm2.
  set (n := (len + r + ps - 1) / ps) in *. split.
  - intros [H1 H2]. nia.
  - intros [H1 H2]. nia.
Qed.

(** *** Page tables *)

Lemma land_0x1ff x : Z.land x 0x1ff = x mod 512.
Proof. change 0x1ff with (Z.ones 9). rewrite Z.land_ones by lia. done. Qed.

Lemma land_0xff x : Z.land x 0xFF = x mod 256.
Proof. change 0xFF with (Z.ones 8). rewrite Z.land_ones by lia. done. Qed.

(** The four indices of [split_indices] are each below 512 and, with the
    page offset, reconstruct the low 48 bits of the address; hence two addresses
    get the same indices iff they lie in the same 4 KiB page of the 48-bit
    space. *)
Lemma split_indices_reconstruct vaddr :
  0 <= vaddr ->
  let '(pml4, pdpt, pd, pt) := split_indices vaddr in
  0 <= pml4 < 512 /\ 0 <= pdpt < 512 /\ 0 <= pd < 512 /\ 0 <= pt < 512 /\
  vaddr mod 2 ^ 48 =
    pml4 * 2 ^ 39 + pdpt * 2 ^ 30 + pd * 2 ^ 21 + pt * 2 ^ 12 + vaddr mod 2 ^ 12.
Proof.
  intros Hv. unfold split_indices. rewrite !land_0x1ff, !Z.shiftr_div_pow2 by lia.
  change (2 ^ 12) with 4096. change (2 ^ 21) with (4096 * 512).
  change (2 ^ 30) with (4096 * 512 * 512). change (2 ^ 39) with (4096 * 512 * 512 * 512).
  change (2 ^ 48) with (4096 * 512 * 512 * 512 * 512).
  split_and!; try (apply Z.mod_pos_bound; lia).
  rewrite <- !Z.div_div by lia.
  rewrite !Z.rem_mul_r by lia. rewrite <- !Z.div_div by lia. lia.
Qed.

(** A page-table entry built from a page-aligned frame below 2^52 and flag
    bits outside the address field gives the frame back. *)
Lemma frame_from_entry_roundtrip frame flags :
  0 <= frame < 2 ^ 52 -> frame mod 4096 = 0 -> Z.land flags ADDR_MASK = 0 ->
  frame_from_entry (Z.lor frame flags) = frame.
Proof.
  intros Hf Ha Hfl. unfold frame_from_entry. rewrite Z.land_lor_distr_l, Hfl, Z.lor_0_r.
  replace ADDR_MASK with (Z.shiftl (Z.ones 40) 12) by done.
  apply Z.bits_inj'. intros i Hi. rewrite Z.land_spec.
  destruct (Z_lt_le_dec i 12) as [Hlt|Hge].
  - rewrite Z.shiftl_spec_low by lia. rewrite andb_false_r. symmetry.
    change 4096 with (2 ^ 12) in Ha.
    rewrite <- (Z.mod_pow2_bits_low frame 12 i) by lia. by rewrite Ha, Z.bits_0.
  - rewrite Z.shiftl_spec_high by lia. destruct (Z_lt_le_dec i 52).
    + rewrite Z.ones_spec_low by lia. apply andb_true_r.
    + rewrite Z.ones_spec_high by lia. rewrite andb_false_r. symmetry.
      apply (in_width_testbit 52); [lia|done].
Qed.

(** *** Device addresses and restarts *)

Lemma lor_disjoint_add a b k : 0 <= k -> 0 <= b < 2 ^ k -> Z.lor (Z.shiftl a k) b = a * 2 ^ k + b.
Proof.
  intros Hk Hb. rewrite <- Z.shiftl_mul_pow2 by lia.
  enough (Z.land (Z.shiftl a k) b = 0) by (pose proof (Z.add_lor_land (Z.shiftl a k) b); lia).
  apply Z.bits_inj'. intros i Hi. rewrite Z.land_spec, Z.bits_0.
  destruct (Z_lt_le_dec i k).
  - by rewrite Z.shiftl_spec_low by lia.
  - rewrite (in_width_testbit k b i); [apply andb_false_r|lia|done].
Qed.

Lemma pack_bdf_arith bus dev fn :
  0 <= bus < 256 -> 0 <= dev < 256 -> 0 <= fn < 256 ->
  pack_bdf bus dev fn = bus * 65536 + dev * 256 + fn.
Proof.
  intros. unfold pack_bdf. rewrite !wrap_small by (red; rewrite Z.shiftl_mul_pow2 by lia; lia).
  rewrite <- Z.lor_assoc, (lor_disjoint_add dev fn 8), lor_disjoint_add; lia.
Qed.

(** [unpack_bdf] inverts [pack_bdf] on every bus/device/function triple of
    bytes, and the packed form fits 24 bits. *)
Lemma bdf_roundtrip bus dev fn :
  0 <= bus < 256 -> 0 <= dev < 256 -> 0 <= fn < 256 ->
  unpack_bdf (pack_bdf bus dev fn) = (bus, dev, fn) /\ 0 <= pack_bdf bus dev fn < 2 ^ 24.
Proof.
  intros Hb Hd Hf. rewrite pack_bdf_arith by done. split; [|lia].
  unfold unpack_bdf. rewrite !land_0xff, !Z.shiftr_div_pow2 by lia.
  unfold wrap. change (2 ^ 16) with 65536. change (2 ^ 8) with 256.
  f_equal; [f_equal|]; Z.div_mod_to_equations; lia.
Qed.

(** [n] crashes in a row of a device that has been restarted [c] times: the
    decisions, with the count [report_crash] keeps. *)
Fixpoint crash_run (n : nat) (c max : Z) : list RestartDecision :=
  match n with
  | O => []
  | S n' =>
      let d := decide_restart c max in
      d :: crash_run n' (match d with Restart a => a | Quarantine => c end) max
  end.

Lemma crash_run_closed n c max :
  0 <= c <= max -> max < 2 ^ 32 ->
  crash_run n c max =
  ((fun i => if c + Z.of_nat i <? max then Restart (c + Z.of_nat i + 1) else Quarantine) <$> seq 0 n).
Proof.
  revert c. induction n as [|n IH]; intros c Hc Hm; [done|].
  cbn [crash_run seq fmap list_fmap]. unfold decide_restart. rewrite Z.add_0_r.
  rewrite <- fmap_S_seq, <- list_fmap_compose.
  destruct (max <=? c) eqn:He; bool_to_prop.
  - replace (c <? max) with false by (symmetry; apply Z.ltb_ge; lia). f_equal.
    rewrite IH by lia. apply list_fmap_ext. intros i x _. simpl.
    rewrite !(proj2 (Z.ltb_ge _ _)) by lia. done.
  - replace (c <? max) with true by (symmetry; apply Z.ltb_lt; lia).
    rewrite wrap_small by (red; lia). f_equal.
    rewrite IH by lia. apply list_fmap_ext. intros i x _. cbn [compose].
    replace (c + Z.of_nat (S x)) with (c + 1 + Z.of_nat x) by lia. done.
Qed.

(** The restart budget: however often a fresh device crashes, its first
    [max] crashes are answered by restarts numbered 1, 2, ..., [max], and every
    later one by quarantine. *)
Theorem restart_budget n i max :
  0 <= max < 2 ^ 32 -> (i < n)%nat ->
  crash_run n 0 max !! i =
  Some (if Z.of_nat i <? max then Restart (Z.of_nat i + 1) else Quarantine).
Proof.
  intros Hm Hi. rewrite crash_run_closed by lia.
  by rewrite list_lookup_fmap, lookup_seq_lt by done.
Qed.
