(* ===== verification/Pmm.v ===== *)
(** * The physical memory manager ([kernel_rs/src/pmm.rs])

    The state is what the module's statics hold: the two bitmaps, the span of
    managed pages, the scan position and the statistics.  [MEM] is physical
    memory as seen through [p2v], which [alloc_page] zeroes page by page; the
    bitmaps are kept apart from it, as the slices the code builds over them (they
    live in pages that [init] reserves).  A bitmap index out of range is a panic,
    [None].  [klog] output is not modelled. *)

From S2P Require Import Prelude Bits.

Definition PAGE_SIZE : Z := 4096.
Definition EFI_LOADER_CODE : Z := 1.
Definition EFI_LOADER_DATA : Z := 2.
Definition EFI_BOOT_SERVICES_CODE : Z := 3.
Definition EFI_BOOT_SERVICES_DATA : Z := 4.
Definition EFI_RUNTIME_SERVICES_CODE : Z := 5.
Definition EFI_RUNTIME_SERVICES_DATA : Z := 6.
Definition EFI_CONVENTIONAL_MEMORY : Z := 7.
Definition EFI_ACPI_RECLAIM_MEMORY : Z := 9.
Definition EFI_ACPI_MEMORY_NVS : Z := 10.

Definition is_real_memory (ty : Z) : bool :=
  (ty =? EFI_LOADER_CODE) || (ty =? EFI_LOADER_DATA) || (ty =? EFI_BOOT_SERVICES_CODE) ||
  (ty =? EFI_BOOT_SERVICES_DATA) || (ty =? EFI_RUNTIME_SERVICES_CODE) ||
  (ty =? EFI_RUNTIME_SERVICES_DATA) || (ty =? EFI_CONVENTIONAL_MEMORY) ||
  (ty =? EFI_ACPI_RECLAIM_MEMORY) || (ty =? EFI_ACPI_MEMORY_NVS).

Record PmmStats := mkStats {
  total_physical_span : Z; total_usable_memory : Z; reserved_memory : Z;
  free_pages : Z; used_pages : Z }.

Record pmm := mkPmm {
  USED_BITMAP : bytes; RESERVED_BITMAP : bytes; TOTAL_SPAN_PAGES : Z;
  LAST_SCANNED_PAGE : Z; STATS : PmmStats; MEM : Z -> Z }.

Definition set_used (b : bytes) (s : pmm) : pmm :=
  mkPmm b (RESERVED_BITMAP s) (TOTAL_SPAN_PAGES s) (LAST_SCANNED_PAGE s) (STATS s) (MEM s).
Definition set_reserved (b : bytes) (s : pmm) : pmm :=
  mkPmm (USED_BITMAP s) b (TOTAL_SPAN_PAGES s) (LAST_SCANNED_PAGE s) (STATS s) (MEM s).
Definition set_last (i : Z) (s : pmm) : pmm :=
  mkPmm (USED_BITMAP s) (RESERVED_BITMAP s) (TOTAL_SPAN_PAGES s) i (STATS s) (MEM s).
Definition set_mem (m : Z -> Z) (s : pmm) : pmm :=
  mkPmm (USED_BITMAP s) (RESERVED_BITMAP s) (TOTAL_SPAN_PAGES s) (LAST_SCANNED_PAGE s) (STATS s) m.
(** [STATS.free_pages += f; STATS.used_pages += u; STATS.reserved_memory += r;
    STATS.total_usable_memory += t]. *)
Definition add_stats (f u r t : Z) (s : pmm) : pmm :=
  let st := STATS s in
  mkPmm (USED_BITMAP s) (RESERVED_BITMAP s) (TOTAL_SPAN_PAGES s) (LAST_SCANNED_PAGE s)
    (mkStats (total_physical_span st) (u64 (total_usable_memory st + t))
       (u64 (reserved_memory st + r)) (u64 (free_pages st + f)) (u64 (used_pages st + u)))
    (MEM s).

(** ** Reserving a byte range *)

Definition reserve_page (s : pmm) (idx : Z) : option pmm :=
  if TOTAL_SPAN_PAGES s <=? idx then Some s else
  r ← bitmap_test (RESERVED_BITMAP s) idx;
  if (r : bool) then Some s else
  rb ← bitmap_set (RESERVED_BITMAP s) idx;
  let s := set_reserved rb s in
  u ← bitmap_test (USED_BITMAP s) idx;
  s ← (if negb u then
         ub ← bitmap_set (USED_BITMAP s) idx;
         Some (add_stats (-1) 0 0 0 (set_used ub s))
       else Some s);
  Some (add_stats 0 0 PAGE_SIZE 0 s).

Definition reserve_range (start length : Z) (s : pmm) : option pmm :=
  let '(start_page, pages) := reserve_range_pages start length PAGE_SIZE in
  foldM (fun s p => reserve_page s (u64 (start_page + p))) s (range 0 pages).

(** ** Allocation *)

(** [core::ptr::write_bytes(p2v(addr), 0, PAGE_SIZE)]. *)
Definition zero_page (addr : Z) (m : Z -> Z) : Z -> Z :=
  fun a => if (addr <=? a) && (a <? addr + PAGE_SIZE) then 0 else m a.

(** [while i < TOTAL_SPAN_PAGES]; [n] is the number of pages left to look at. *)
Fixpoint alloc_scan (n : nat) (i : Z) (s : pmm) : option (option (pmm * Z)) :=
  match n with
  | O => Some None
  | S n' =>
      u ← bitmap_test (USED_BITMAP s) i;
      if negb u then
        ub ← bitmap_set (USED_BITMAP s) i;
        let s := set_last i (add_stats (-1) 1 0 0 (set_used ub s)) in
        let addr := u64 (i * PAGE_SIZE) in
        Some (Some (set_mem (zero_page addr (MEM s)) s, addr))
      else alloc_scan n' (i + 1) s
  end.

Definition alloc_from_last (s : pmm) : option (option (pmm * Z)) :=
  alloc_scan (Z.to_nat (TOTAL_SPAN_PAGES s - LAST_SCANNED_PAGE s)) (LAST_SCANNED_PAGE s) s.

(** The recursive call happens with [LAST_SCANNED_PAGE = 0], so it does not
    recurse again. *)
Definition alloc_page (s : pmm) : option (pmm * Z) :=
  r ← alloc_from_last s;
  match r with
  | Some res => Some res
  | None =>
      if 0 <? LAST_SCANNED_PAGE s then
        let s := set_last 0 s in
        r ← alloc_from_last s;
        match r with Some res => Some res | None => Some (s, 0) end
      else Some (s, 0)
  end.

Definition free_page (addr : Z) (s : pmm) : option pmm :=
  if addr =? 0 then Some s else
  if negb (addr mod PAGE_SIZE =? 0) then Some s else
  let page_index := addr / PAGE_SIZE in
  if TOTAL_SPAN_PAGES s <=? page_index then Some s else
  r ← bitmap_test (RESERVED_BITMAP s) page_index;
  if (r : bool) then Some s else
  u ← bitmap_test (USED_BITMAP s) page_index;
  if negb u then Some s else
  ub ← bitmap_clear (USED_BITMAP s) page_index;
  let s := add_stats 1 (-1) 0 0 (set_used ub s) in
  Some (if page_index <? LAST_SCANNED_PAGE s then set_last page_index s else s).

(** ** Initialisation *)

Record EfiMemoryDescriptor := mkDesc { ty : Z; physical_start : Z; number_of_pages : Z }.

(** What [init] reads of the boot information. *)
Record BootInfo := mkBoot {
  memory_map : list EfiMemoryDescriptor; memory_map_addr : Z; memory_map_size : Z;
  kernel_physical_start : Z; kernel_physical_end : Z;
  boot_info_addr : Z; boot_info_size : Z }.

Definition desc_end (d : EfiMemoryDescriptor) : Z :=
  u64 (physical_start d + u64 (number_of_pages d * PAGE_SIZE)).

Definition highest_address (ds : list EfiMemoryDescriptor) : Z :=
  foldl (fun hi d =>
    let e := desc_end d in
    if negb (is_real_memory (ty d)) then hi else if hi <? e then e else hi) 0 ds.

Definition bitmap_size_bytes (span : Z) : Z :=
  if negb (span mod 8 =? 0) then span / 8 + 1 else span / 8.

Definition find_bitmap_region (ds : list EfiMemoryDescriptor) (total : Z) : option Z :=
  physical_start <$> head (filter (fun d =>
    ty d = EFI_CONVENTIONAL_MEMORY /\ 0 < physical_start d /\
    total <= u64 (number_of_pages d * PAGE_SIZE)) ds).

Definition clear_page (start_page : Z) (s : pmm) (p : Z) : option pmm :=
  ub ← bitmap_clear (USED_BITMAP s) (u64 (start_page + p));
  Some (add_stats 1 0 0 0 (set_used ub s)).

Definition free_conventional (s : pmm) (d : EfiMemoryDescriptor) : option pmm :=
  if ty d =? EFI_CONVENTIONAL_MEMORY then
    let s := add_stats 0 0 0 (u64 (number_of_pages d * PAGE_SIZE)) s in
    foldM (clear_page (physical_start d / PAGE_SIZE)) s (range 0 (number_of_pages d))
  else Some s.

(** [None] is the panic of [init]: no region for the bitmaps. *)
Definition init (bi : BootInfo) (mem : Z -> Z) : option pmm :=
  let ds := memory_map bi in
  let highest := highest_address ds in
  let span := highest / PAGE_SIZE in
  let size := bitmap_size_bytes span in
  let total := size * 2 in
  used_bitmap_addr ← find_bitmap_region ds total;
  let s := mkPmm (replicate (Z.to_nat size) 0xFF) (replicate (Z.to_nat size) 0) span 0
             (mkStats highest 0 0 0 0) mem in
  s ← foldM free_conventional s ds;
  s ← reserve_range 0 PAGE_SIZE s;
  s ← reserve_range used_bitmap_addr total s;
  s ← reserve_range (kernel_physical_start bi)
        (u64 (kernel_physical_end bi - kernel_physical_start bi)) s;
  s ← reserve_range (boot_info_addr bi) (boot_info_size bi) s;
  reserve_range (memory_map_addr bi) (memory_map_size bi) s.

(** ** The invariant *)

Definition free_count (b : bytes) (n : Z) : Z :=
  Z.of_nat (length (filter (fun i => bit b i = false) (range 0 n))).

Lemma free_count_set b b' i n :
  update_bit b i true b' -> 0 <= i < n -> bit b i = false ->
  free_count b' n = free_count b n - 1.
Proof.
  intros (_ & _ & Hb) Hi Hf. unfold free_count.
  rewrite (length_filter_flip (fun j => bit b j = false) (fun j => bit b' j = false) (range 0 n) i);
    [lia|apply NoDup_range|by apply elem_of_range|done| |].
  - rewrite Hb, Z.eqb_refl by lia. done.
  - intros j Hj%elem_of_range Hne. rewrite Hb by lia. by rewrite (proj2 (Z.eqb_neq j i) Hne).
Qed.

Lemma free_count_clear b b' i n :
  update_bit b i false b' -> 0 <= i < n -> bit b i = true ->
  free_count b' n = free_count b n + 1.
Proof.
  intros (_ & _ & Hb) Hi Hf. unfold free_count.
  rewrite (length_filter_flip (fun j => bit b' j = false) (fun j => bit b j = false) (range 0 n) i);
    [lia|apply NoDup_range|by apply elem_of_range| | |].
  - rewrite Hb, Z.eqb_refl by lia. done.
  - by rewrite Hf.
  - intros j Hj%elem_of_range Hne. rewrite Hb by lia. by rewrite (proj2 (Z.eqb_neq j i) Hne).
Qed.

Lemma free_count_range b n : 0 <= n -> 0 <= free_count b n <= n.
Proof.
  intros Hn. unfold free_count. pose proof (length_filter (fun i => bit b i = false) (range 0 n)) as H.
  rewrite length_range in H. lia.
Qed.

Lemma free_count_pos b n : 0 < free_count b n <-> exists i, 0 <= i < n /\ bit b i = false.
Proof.
  unfold free_count. split.
  - destruct (filter _ _) as [|i l] eqn:Hf; [done|]. intros _. exists i.
    assert (i ∈ filter (fun i => bit b i = false) (range 0 n)) as Hi by (rewrite Hf; set_solver).
    apply list_elem_of_filter in Hi as [? ?%elem_of_range]. auto.
  - intros (i & Hi & Hb).
    assert (i ∈ filter (fun i => bit b i = false) (range 0 n)) as Hin
      by (apply list_elem_of_filter; split; [done|by apply elem_of_range]).
    destruct (filter _ _); [set_solver|simpl; lia].
Qed.

Record pmm_inv (s : pmm) : Prop := {
  inv_len : length (USED_BITMAP s) = length (RESERVED_BITMAP s);
  inv_used_bytes : all_bytes (USED_BITMAP s);
  inv_reserved_bytes : all_bytes (RESERVED_BITMAP s);
  inv_span : 0 <= TOTAL_SPAN_PAGES s <= 8 * Z.of_nat (length (USED_BITMAP s));
  inv_addr : TOTAL_SPAN_PAGES s * PAGE_SIZE <= 2 ^ 64;
  inv_last : 0 <= LAST_SCANNED_PAGE s;
  inv_reserved_used : forall i, 0 <= i < TOTAL_SPAN_PAGES s ->
    bit (RESERVED_BITMAP s) i = true -> bit (USED_BITMAP s) i = true;
  inv_free : free_pages (STATS s) = free_count (USED_BITMAP s) (TOTAL_SPAN_PAGES s)
}.

(** Page 0 is never handed out, so that address 0 can mean failure. *)
Definition page_zero_reserved (s : pmm) : Prop :=
  0 < TOTAL_SPAN_PAGES s -> bit (RESERVED_BITMAP s) 0 = true.

Lemma u64_pred x n : 0 < x <= n -> n * PAGE_SIZE <= 2 ^ 64 -> u64 (x + -1) = x - 1.
Proof. unfold PAGE_SIZE. intros. apply wrap_small. red. lia. Qed.

(** [s'] is [s] with exactly the pages of [S] also reserved and used. *)
Definition reserves (s s' : pmm) (S : Z -> Prop) : Prop :=
  TOTAL_SPAN_PAGES s' = TOTAL_SPAN_PAGES s /\ MEM s' = MEM s /\
  forall j, 0 <= j < TOTAL_SPAN_PAGES s ->
    (bit (RESERVED_BITMAP s') j = true <-> bit (RESERVED_BITMAP s) j = true \/ S j) /\
    (bit (USED_BITMAP s') j = true <-> bit (USED_BITMAP s) j = true \/ S j).

Lemma update_bit_true_iff b i b' j :
  update_bit b i true b' -> 0 <= j -> bit b' j = true <-> bit b j = true \/ j = i.
Proof.
  intros (_ & _ & Hb) Hj. rewrite Hb by done. destruct (j =? i) eqn:He; bool_to_prop; naive_solver.
Qed.

Lemma reserve_page_spec s idx :
  pmm_inv s -> 0 <= idx ->
  exists s', reserve_page s idx = Some s' /\ pmm_inv s' /\ reserves s s' (fun j => j = idx).
Proof.
  intros Hs Hi. unfold reserve_page. destruct Hs as [Hlen Hub Hrb Hsp Had Hla Hru Hfr].
  destruct (TOTAL_SPAN_PAGES s <=? idx) eqn:Ho; bool_to_prop.
  { exists s. split_and!; [done|by constructor|]. split_and!; [done..|]. intros j Hj.
    split; (split; [tauto|intros [?|?]; [done|lia]]). }
  rewrite bitmap_test_bit by (rewrite <- Hlen; lia). simpl.
  destruct (bit (RESERVED_BITMAP s) idx) eqn:Hr.
  { exists s. split_and!; [done|by constructor|]. split_and!; [done..|]. intros j Hj.
    split; (split; [tauto|intros [?| ->]; [done|auto]]). }
  destruct (bitmap_set_spec (RESERVED_BITMAP s) idx) as (rb & -> & Hrb'); [done|rewrite <- Hlen; lia|].
  simpl. rewrite bitmap_test_bit by lia. simpl.
  pose proof (fun j Hj => update_bit_true_iff _ _ _ j Hrb' Hj) as Hriff.
  destruct Hrb' as (Hrl & Hrbb & _).
  destruct (bit (USED_BITMAP s) idx) eqn:Hu; simpl.
  - eexists; split_and!; [done| |].
    + constructor; simpl; try done; try lia.
      * intros j Hj. rewrite Hriff by lia. intros [?| ->]; auto.
      * rewrite Z.add_0_r, wrap_small; [done|]. rewrite Hfr.
        pose proof (free_count_range (USED_BITMAP s) (TOTAL_SPAN_PAGES s)). unfold PAGE_SIZE in *. red. lia.
    + split_and!; simpl; [done..|]. intros j Hj. split; [apply Hriff; lia|].
      split; [tauto|intros [?| ->]; done].
  - destruct (bitmap_set_spec (USED_BITMAP s) idx) as (ub & -> & Hub'); [done|lia|]. simpl.
    pose proof (fun j Hj => update_bit_true_iff _ _ _ j Hub' Hj) as Huiff.
    pose proof (free_count_set _ _ _ (TOTAL_SPAN_PAGES s) Hub' ltac:(lia) Hu) as Hcnt.
    pose proof (free_count_range ub (TOTAL_SPAN_PAGES s) ltac:(lia)) as Hcr.
    destruct Hub' as (Hul & Hubb & _). eexists; split_and!; [done| |].
    + constructor; simpl; try done; try lia.
      * intros j Hj. rewrite Hriff, Huiff by lia. intros [?| ->]; auto.
      * rewrite Hfr, Z.add_0_r. unfold PAGE_SIZE in *.
        rewrite (wrap_small 64 (free_count _ _ + -1)) by (red; lia).
        rewrite wrap_small by (red; lia). lia.
    + split_and!; simpl; [done..|]. intros j Hj. split; [apply Hriff|apply Huiff]; lia.
Qed.

Lemma reserves_refl s : reserves s s (fun _ => False).
Proof. split_and!; [done..|]. intros; split; tauto. Qed.

Lemma reserves_trans s1 s2 s3 S1 S2 :
  reserves s1 s2 S1 -> reserves s2 s3 S2 -> reserves s1 s3 (fun j => S1 j \/ S2 j).
Proof.
  intros (H1 & M1 & B1) (H2 & M2 & B2). split_and!; [congruence..|]. intros j Hj.
  destruct (B1 j Hj) as [R1 U1]. destruct (B2 j ltac:(lia)) as [R2 U2]. split; tauto.
Qed.

Lemma reserves_ext s s' S S' :
  (forall j, 0 <= j < TOTAL_SPAN_PAGES s -> S j <-> S' j) -> reserves s s' S -> reserves s s' S'.
Proof.
  intros HS (H & M & B). split_and!; [done..|]. intros j Hj. destruct (B j Hj) as [R U].
  rewrite <- (HS j Hj). split; tauto.
Qed.

Lemma reserve_pages_spec l s :
  pmm_inv s -> Forall (fun i => 0 <= i) l ->
  exists s', foldM reserve_page s l = Some s' /\ pmm_inv s' /\ reserves s s' (fun j => j ∈ l).
Proof.
  revert s. induction l as [|i l IH]; intros s Hs Hl; simpl.
  - exists s. split_and!; [done..|]. eapply reserves_ext; [|apply reserves_refl]. set_solver.
  - apply Forall_cons in Hl as [Hi Hl]. destruct (reserve_page_spec s i Hs Hi) as (s1 & -> & Hs1 & H1).
    destruct (IH s1 Hs1 Hl) as (s2 & Hf & Hs2 & H2). exists s2. simpl. split_and!; [done..|].
    eapply reserves_ext; [|exact (reserves_trans _ _ _ _ _ H1 H2)]. set_solver.
Qed.

Lemma foldM_fmap {A B S} (f : S -> B -> option S) (g : A -> B) s l :
  foldM (fun s a => f s (g a)) s l = foldM f s (g <$> l).
Proof. revert s. induction l as [|a l IH]; intros s; simpl; [done|]. destruct (f s (g a)); simpl; auto. Qed.

(** The pages that share a byte with [start, start + len). *)
Definition touches (start len p : Z) : Prop :=
  p * PAGE_SIZE < start + len /\ start < (p + 1) * PAGE_SIZE.

Lemma reserve_range_spec start len s :
  pmm_inv s -> 0 <= start -> 0 < len -> start + len + 2 * PAGE_SIZE < 2 ^ 64 ->
  exists s', reserve_range start len s = Some s' /\ pmm_inv s' /\ reserves s s' (touches start len).
Proof.
  intros Hs Hst Hl Hov. unfold reserve_range. unfold PAGE_SIZE in *.
  pose proof (fun p => reserve_range_pages_exact start len 4096 p ltac:(lia) Hst Hl ltac:(lia)) as Hex.
  destruct (reserve_range_pages start len 4096) as [first n] eqn:Hrr.
  assert (first = start / 4096) as Hfirst by (unfold reserve_range_pages in Hrr; by injection Hrr).
  assert (0 <= first) by (subst first; apply Z.div_pos; lia).
  assert (forall p, p ∈ range 0 n -> u64 (first + p) = first + p) as Hwrap.
  { intros p Hp%elem_of_range. apply wrap_small. red.
    destruct (Hex (first + p)) as [Hx _]. specialize (Hx ltac:(lia)). lia. }
  rewrite foldM_fmap.
  destruct (reserve_pages_spec ((fun p => u64 (first + p)) <$> range 0 n) s Hs) as (s' & -> & Hs' & Hr).
  { apply Forall_fmap, Forall_forall. intros p _. apply wrap_range. lia. }
  exists s'. split_and!; [done..|]. eapply reserves_ext; [|exact Hr].
  intros j Hj. unfold touches, PAGE_SIZE. rewrite <- Hex. rewrite list_elem_of_fmap. split.
  - intros (p & -> & Hp). rewrite Hwrap by done. apply elem_of_range in Hp. lia.
  - intros Hj'. exists (j - first). assert (j - first ∈ range 0 n) as Hin by (apply elem_of_range; lia).
    rewrite Hwrap by done. split; [lia|done].
Qed.

(** [s'] is [s] with the free page [p] handed out: marked used, zeroed, and
    nothing else changed. *)
Record allocates (s : pmm) (p : Z) (s' : pmm) : Prop := {
  al_range : 0 <= p < TOTAL_SPAN_PAGES s;
  al_was_free : bit (USED_BITMAP s) p = false;
  al_used : update_bit (USED_BITMAP s) p true (USED_BITMAP s');
  al_reserved : RESERVED_BITMAP s' = RESERVED_BITMAP s;
  al_span : TOTAL_SPAN_PAGES s' = TOTAL_SPAN_PAGES s;
  al_mem : MEM s' = zero_page (p * PAGE_SIZE) (MEM s);
  al_inv : pmm_inv s'
}.

Lemma alloc_scan_spec n i s :
  pmm_inv s -> 0 <= i -> n = Z.to_nat (TOTAL_SPAN_PAGES s - i) ->
  exists r, alloc_scan n i s = Some r /\
    match r with
    | Some (s', a) => exists p, a = p * PAGE_SIZE /\ i <= p /\ allocates s p s' /\
        forall j, i <= j < p -> bit (USED_BITMAP s) j = true
    | None => forall j, i <= j < TOTAL_SPAN_PAGES s -> bit (USED_BITMAP s) j = true
    end.
Proof.
  intros Hs. revert i. induction n as [|n IH]; intros i Hi Hn; simpl.
  { exists None. split; [done|]. intros; lia. }
  pose proof Hs as [Hlen Hub Hrb Hsp Had Hla Hru Hfr].
  rewrite bitmap_test_bit by lia. simpl.
  destruct (bit (USED_BITMAP s) i) eqn:Hu; simpl.
  - destruct (IH (i + 1)) as (r & -> & Hr); [lia|lia|]. exists r. split; [done|].
    destruct r as [[s' a]|].
    + destruct Hr as (p & -> & Hp & Hal & Hj). exists p. split_and!; [done|lia|done|].
      intros j Hij. destruct (decide (j = i)) as [->|]; [done|apply Hj; lia].
    + intros j Hij. destruct (decide (j = i)) as [->|]; [done|apply Hr; lia].
  - destruct (bitmap_set_spec (USED_BITMAP s) i) as (ub & -> & Hub'); [done|lia|]. simpl.
    eexists; split; [done|]. exists i. rewrite (wrap_small 64 (i * PAGE_SIZE)) by (unfold PAGE_SIZE in *; red; lia).
    split_and!; [done|lia| |intros; lia].
    constructor; simpl; try done; [lia|].
    pose proof (free_count_set _ _ _ (TOTAL_SPAN_PAGES s) Hub' ltac:(lia) Hu) as Hcnt.
    pose proof (free_count_range ub (TOTAL_SPAN_PAGES s) ltac:(lia)) as Hcr.
    pose proof (fun j Hj => update_bit_true_iff _ _ _ j Hub' Hj) as Huiff.
    destruct Hub' as (Hul & Hubb & _).
    constructor; simpl; try done; try lia.
    + intros j Hj Hr. apply Huiff; [lia|]. auto.
    + rewrite Hfr, wrap_small; unfold PAGE_SIZE in *; [lia|red; lia].
Qed.

Lemma set_last_inv i s : 0 <= i -> pmm_inv s -> pmm_inv (set_last i s).
Proof. intros Hi [? ? ? ? ? ? ? ?]. by constructor. Qed.

Lemma alloc_page_cases s :
  pmm_inv s ->
  (exists p s', alloc_page s = Some (s', p * PAGE_SIZE) /\ allocates s p s') \/
  ((forall j, 0 <= j < TOTAL_SPAN_PAGES s -> bit (USED_BITMAP s) j = true) /\
   alloc_page s = Some (set_last 0 s, 0)).
Proof.
  intros Hs. unfold alloc_page, alloc_from_last.
  destruct (alloc_scan_spec _ _ s Hs (inv_last _ Hs) eq_refl) as (r & -> & Hr). simpl.
  destruct r as [[s' a]|].
  { destruct Hr as (p & -> & _ & Hal & _). left. eauto. }
  destruct (0 <? LAST_SCANNED_PAGE s) eqn:Hl; bool_to_prop.
  - pose proof (set_last_inv 0 s ltac:(lia) Hs) as Hs0.
    destruct (alloc_scan_spec _ 0 _ Hs0 ltac:(lia) eq_refl) as (r & Heq & Hr0).
    simpl in Heq |- *. rewrite Heq. simpl. destruct r as [[s' a]|].
    + left. destruct Hr0 as (p & -> & _ & Hal & _). exists p, s'. split; [done|].
      by destruct Hal; constructor.
    + right. split; [done|]. done.
  - right. assert (LAST_SCANNED_PAGE s = 0) as H0 by (pose proof (inv_last _ Hs); lia).
    split; [by rewrite H0 in Hr|]. rewrite <- H0. by destruct s.
Qed.

Lemma allocates_nonzero s p s' :
  pmm_inv s -> page_zero_reserved s -> allocates s p s' -> 0 < p.
Proof.
  intros Hs Hz [Hr Hf _ _ _ _ _]. destruct (decide (p = 0)) as [->|]; [|lia].
  rewrite (inv_reserved_used _ Hs 0) in Hf; [done|lia|]. apply Hz. lia.
Qed.

Lemma allocates_free_pages s p s' :
  pmm_inv s -> allocates s p s' -> free_pages (STATS s') = free_pages (STATS s) - 1.
Proof.
  intros Hs [Hr Hf Hu _ Hsp _ Hs']. rewrite (inv_free _ Hs), (inv_free _ Hs'), Hsp.
  by apply (free_count_set _ _ p).
Qed.

(** [alloc_page] never panics and is exact: if any managed page is free it
    returns the address of one that was free, now marked used and filled with
    zeroes, every other page and every other byte of memory untouched; if none
    is free it returns 0 and leaves both bitmaps alone.  Address 0 therefore
    means exhaustion exactly. *)
Theorem alloc_page_exact s :
  pmm_inv s -> page_zero_reserved s ->
  exists s' addr, alloc_page s = Some (s', addr) /\
    (addr = 0 <-> free_pages (STATS s) = 0) /\
    (addr <> 0 -> allocates s (addr / PAGE_SIZE) s' /\ addr mod PAGE_SIZE = 0 /\
       bit (RESERVED_BITMAP s) (addr / PAGE_SIZE) = false) /\
    (addr = 0 -> USED_BITMAP s' = USED_BITMAP s /\ RESERVED_BITMAP s' = RESERVED_BITMAP s /\
       MEM s' = MEM s).
Proof.
  intros Hs Hz. pose proof (free_count_pos (USED_BITMAP s) (TOTAL_SPAN_PAGES s)) as Hpos.
  rewrite <- (inv_free _ Hs) in Hpos.
  pose proof (free_count_range (USED_BITMAP s) (TOTAL_SPAN_PAGES s) ltac:(apply Hs)) as Hge.
  rewrite <- (inv_free _ Hs) in Hge.
  destruct (alloc_page_cases s Hs) as [(p & s' & Heq & Hal)|[Hall Heq]].
  - pose proof Hal as [Hr Hwf _ _ _ _ _]. exists s', (p * PAGE_SIZE).
    pose proof (allocates_nonzero _ _ _ Hs Hz Hal) as Hp0.
    assert (p * PAGE_SIZE / PAGE_SIZE = p) as Hdiv by (apply Z.div_mul; done).
    rewrite Hdiv. assert (0 < free_pages (STATS s)) by (apply Hpos; eauto).
    unfold PAGE_SIZE in *. split_and!; [done|lia| |lia]. intros _. split_and!; [done|by apply Z.mod_mul|].
    destruct (bit (RESERVED_BITMAP s) p) eqn:Hres; [|done].
    rewrite (inv_reserved_used _ Hs) in Hwf by done. done.
  - exists (set_last 0 s), 0. split_and!; try done. split; [|done]. intros _.
    enough (~ 0 < free_pages (STATS s)) by lia. rewrite Hpos. intros (i & Hi & Hb).
    by rewrite Hall in Hb.
Qed.

(** [free_page] on a page it accepts. *)
Lemma free_page_accept s p :
  pmm_inv s -> 0 < p < TOTAL_SPAN_PAGES s ->
  bit (RESERVED_BITMAP s) p = false -> bit (USED_BITMAP s) p = true ->
  exists s', free_page (p * PAGE_SIZE) s = Some s' /\ pmm_inv s' /\
    update_bit (USED_BITMAP s) p false (USED_BITMAP s') /\
    RESERVED_BITMAP s' = RESERVED_BITMAP s /\ TOTAL_SPAN_PAGES s' = TOTAL_SPAN_PAGES s /\
    MEM s' = MEM s /\ used_pages (STATS s') = u64 (used_pages (STATS s) - 1) /\
    free_pages (STATS s') = free_pages (STATS s) + 1.
Proof.
  intros Hs Hp Hr Hu. pose proof Hs as [Hlen Hub Hrb Hsp Had Hla Hru Hfr].
  unfold free_page. rewrite (proj2 (Z.eqb_neq _ _)) by (unfold PAGE_SIZE; lia).
  rewrite Z.mod_mul, Z.div_mul by done. simpl. rewrite (proj2 (Z.leb_gt _ _)) by lia.
  rewrite !bitmap_test_bit by (rewrite <- ?Hlen; lia). simpl. rewrite Hr, Hu. simpl.
  destruct (bitmap_clear_spec (USED_BITMAP s) p) as (ub & -> & Hub'); [done|lia|]. simpl.
  pose proof (free_count_clear _ _ _ (TOTAL_SPAN_PAGES s) Hub' ltac:(lia) Hu) as Hcnt.
  pose proof (free_count_range ub (TOTAL_SPAN_PAGES s) ltac:(lia)) as Hcr.
  assert (u64 (free_pages (STATS s) + 1) = free_pages (STATS s) + 1) as Hfp.
  { apply wrap_small. unfold PAGE_SIZE in *. red. lia. }
  match goal with |- context [Some (if ?c then set_last p ?x else ?x)] => set (s1 := x) end.
  assert (pmm_inv s1) as Hs1.
  { destruct Hub' as (Hul & Hubb & Hbits). constructor; simpl; try done; try lia.
    intros j Hj Hrj. rewrite Hbits by lia. destruct (j =? p) eqn:He; bool_to_prop; [subst; congruence|auto]. }
  destruct (p <? LAST_SCANNED_PAGE s); eexists; split_and!; try done; apply set_last_inv; lia || done.
Qed.

Lemma free_page_spec s addr :
  pmm_inv s -> 0 <= addr ->
  let p := addr / PAGE_SIZE in
  let accepted := addr <> 0 /\ addr mod PAGE_SIZE = 0 /\ p < TOTAL_SPAN_PAGES s /\
    bit (RESERVED_BITMAP s) p = false /\ bit (USED_BITMAP s) p = true in
  exists s', free_page addr s = Some s' /\ pmm_inv s' /\
    (~ accepted -> s' = s) /\
    (accepted -> update_bit (USED_BITMAP s) p false (USED_BITMAP s') /\
       RESERVED_BITMAP s' = RESERVED_BITMAP s /\ MEM s' = MEM s /\
       free_pages (STATS s') = free_pages (STATS s) + 1).
Proof.
  intros Hs Ha p accepted.
  assert (0 <= p) as Hp0 by (apply Z.div_pos; [done|reflexivity]).
  assert (~ accepted -> free_page addr s = Some s) as Hrej.
  { subst accepted. intros Hn. unfold free_page.
    destruct (addr =? 0) eqn:H0; [done|]. destruct (addr mod PAGE_SIZE =? 0) eqn:Hm; [|done]. simpl.
    fold p. destruct (TOTAL_SPAN_PAGES s <=? p) eqn:Hsp; [done|]. bool_to_prop.
    pose proof (inv_span _ Hs). pose proof (inv_len _ Hs) as Hl.
    rewrite !bitmap_test_bit by (rewrite <- ?Hl; lia). simpl.
    destruct (bit (RESERVED_BITMAP s) p) eqn:Hr; [done|].
    destruct (bit (USED_BITMAP s) p) eqn:Hu; [|done]. by destruct Hn. }
  assert (Decision accepted) as Hdec by (subst accepted; apply _).
  destruct Hdec as [Hacc|Hn].
  - destruct Hacc as (H0 & Hm & Hsp & Hr & Hu).
    assert (addr = p * PAGE_SIZE) as Haddr by (subst p; pose proof (Z.div_mod addr PAGE_SIZE); unfold PAGE_SIZE in *; lia).
    destruct (free_page_accept s p) as (s' & Heq & Hinv & Hub & Hrb & _ & Hmem & _ & Hfp);
      [done|unfold PAGE_SIZE in *; lia|done..|].
    rewrite <- Haddr in Heq. exists s'. split_and!; [done|done| |done].
    intros Hn. destruct Hn. done.
  - exists s. split_and!; [auto|done|done|]. intros Hacc. by destruct Hn.
Qed.

(** [free_page] touches neither memory, the reservations nor the span. *)
Lemma free_page_frame a s s' :
  free_page a s = Some s' ->
  MEM s' = MEM s /\ RESERVED_BITMAP s' = RESERVED_BITMAP s /\ TOTAL_SPAN_PAGES s' = TOTAL_SPAN_PAGES s.
Proof.
  unfold free_page. destruct (a =? 0); [by intros [= <-]|]. destruct (negb _); [by intros [= <-]|].
  destruct (_ <=? _); [by intros [= <-]|].
  destruct (bitmap_test (RESERVED_BITMAP s) _) as [[]|]; cbn [mbind option_bind]; [by intros [= <-]| |done].
  destruct (bitmap_test (USED_BITMAP s) _) as [[]|]; cbn [mbind option_bind negb]; [|by intros [= <-]|done].
  destruct (bitmap_clear _ _); cbn [mbind option_bind]; [|done]. intros [= <-]. by destruct (_ <? _).
Qed.

(** [free_page] never panics; it rejects address 0, unaligned addresses,
    addresses past the span, reserved pages and free pages without changing
    anything, and otherwise frees exactly the named page. *)
Theorem free_page_exact s addr :
  pmm_inv s -> 0 <= addr ->
  let p := addr / PAGE_SIZE in
  let accepted := addr <> 0 /\ addr mod PAGE_SIZE = 0 /\ p < TOTAL_SPAN_PAGES s /\
    bit (RESERVED_BITMAP s) p = false /\ bit (USED_BITMAP s) p = true in
  exists s', free_page addr s = Some s' /\ pmm_inv s' /\
    (~ accepted -> s' = s) /\
    (accepted -> update_bit (USED_BITMAP s) p false (USED_BITMAP s') /\
       RESERVED_BITMAP s' = RESERVED_BITMAP s /\ MEM s' = MEM s /\
       free_pages (STATS s') = free_pages (STATS s) + 1).
Proof. apply free_page_spec. Qed.

(** [n] allocations in a row. *)
Fixpoint alloc_n (n : nat) (s : pmm) : option (pmm * list Z) :=
  match n with
  | O => Some (s, [])
  | S n' =>
      '(s, a) ← alloc_page s;
      '(s, l) ← alloc_n n' s;
      Some (s, a :: l)
  end.

(** C22. No page is handed out twice: with [n] pages free, the next [n]
    allocations succeed with pairwise distinct page addresses, all of them free
    at the start, and the allocation after them reports exhaustion. *)
Theorem alloc_until_exhausted n s :
  pmm_inv s -> page_zero_reserved s -> free_pages (STATS s) = Z.of_nat n ->
  exists s' l, alloc_n n s = Some (s', l) /\ length l = n /\ NoDup l /\
    Forall (fun a => 0 < a /\ a mod PAGE_SIZE = 0 /\ bit (USED_BITMAP s) (a / PAGE_SIZE) = false) l /\
    exists s'', alloc_page s' = Some (s'', 0).
Proof.
  revert s. induction n as [|n IH]; intros s Hs Hz Hn; simpl;
    destruct (alloc_page_cases s Hs) as [(p & s1 & Heq & Hal)|[Hall Heq]].
  - exfalso. destruct (free_count_pos (USED_BITMAP s) (TOTAL_SPAN_PAGES s)) as [_ Hpos].
    rewrite <- (inv_free _ Hs), Hn in Hpos. destruct Hal as [Hr Hf _ _ _ _ _].
    specialize (Hpos ltac:(eauto)). lia.
  - exists s, []. split_and!; [done|done|constructor|constructor|eauto].
  - rewrite Heq. cbn [mbind option_bind]. pose proof (allocates_free_pages _ _ _ Hs Hal) as Hfp.
    pose proof (allocates_nonzero _ _ _ Hs Hz Hal) as Hp.
    pose proof Hal as [_ Hwf Hub Hres Hsp _ Hs1].
    assert (page_zero_reserved s1) as Hz1 by (unfold page_zero_reserved in *; by rewrite Hres, Hsp).
    destruct (IH s1 Hs1 Hz1 ltac:(lia)) as (s' & l & -> & Hl & Hnd & Hlall & Hex).
    cbn [mbind option_bind]. exists s', (p * PAGE_SIZE :: l).
    assert (p * PAGE_SIZE / PAGE_SIZE = p) as Hdiv by (apply Z.div_mul; done).
    rewrite Forall_forall in Hlall.
    assert (forall b, b ∈ l -> bit (USED_BITMAP s) (b / PAGE_SIZE) = false /\ b <> p * PAGE_SIZE) as Hprev.
    { intros b Hb. destruct (Hlall b Hb) as (Hb0 & _ & Hbf). destruct Hub as (_ & _ & Hbits).
      rewrite Hbits in Hbf by (apply Z.div_pos; unfold PAGE_SIZE; lia).
      destruct (b / PAGE_SIZE =? p) eqn:He; [done|]. bool_to_prop.
      split; [done|]. by intros ->. }
    split_and!; [done|simpl; lia| | |done].
    + constructor; [|done]. intros Hin. by destruct (Hprev _ Hin).
    + constructor; [|apply Forall_forall; intros b Hb;
        destruct (Hlall b Hb) as (? & ? & _); by destruct (Hprev b Hb)].
      rewrite Hdiv. split_and!; [unfold PAGE_SIZE; lia|by apply Z.mod_mul|done].
  - exfalso. destruct (free_count_pos (USED_BITMAP s) (TOTAL_SPAN_PAGES s)) as [Hpos _].
    rewrite <- (inv_free _ Hs), Hn in Hpos. destruct Hpos as (i & Hi & Hf); [lia|].
    by rewrite Hall in Hf.
Qed.

(** ** Initialisation *)

(** The page indices of the conventional-memory descriptors, in order. *)
Definition conv_pages (ds : list EfiMemoryDescriptor) : list Z :=
  ds ≫= fun d => if ty d =? EFI_CONVENTIONAL_MEMORY
                 then range (physical_start d / PAGE_SIZE)
                        (physical_start d / PAGE_SIZE + number_of_pages d)
                 else [].

(** Firmware's part of the contract: sizes do not wrap, and no page is reported
    as conventional memory twice. *)
Record boot_ok (bi : BootInfo) : Prop := {
  ok_descs : Forall (fun d => 0 <= physical_start d /\ 0 <= number_of_pages d /\
    physical_start d + number_of_pages d * PAGE_SIZE + 4 * PAGE_SIZE < 2 ^ 63) (memory_map bi);
  ok_disjoint : NoDup (conv_pages (memory_map bi));
  ok_kernel : 0 <= kernel_physical_start bi < kernel_physical_end bi /\
    kernel_physical_end bi + 2 * PAGE_SIZE < 2 ^ 64;
  ok_info : 0 <= boot_info_addr bi /\ 0 < boot_info_size bi /\
    boot_info_addr bi + boot_info_size bi + 2 * PAGE_SIZE < 2 ^ 64;
  ok_map : 0 <= memory_map_addr bi /\ 0 < memory_map_size bi /\
    memory_map_addr bi + memory_map_size bi + 2 * PAGE_SIZE < 2 ^ 64
}.

Lemma desc_end_small d :
  0 <= physical_start d -> 0 <= number_of_pages d ->
  physical_start d + number_of_pages d * PAGE_SIZE < 2 ^ 63 ->
  desc_end d = physical_start d + number_of_pages d * PAGE_SIZE.
Proof.
  intros. unfold desc_end, PAGE_SIZE in *. rewrite (wrap_small 64 (_ * 4096)) by (red; lia).
  apply wrap_small. red. lia.
Qed.

Lemma highest_address_ge ds hi d :
  let f := fun hi d => let e := desc_end d in
    if negb (is_real_memory (ty d)) then hi else if hi <? e then e else hi in
  hi <= foldl f hi ds /\
  (d ∈ ds -> is_real_memory (ty d) = true -> desc_end d <= foldl f hi ds) /\
  (foldl f hi ds = hi \/ exists d', d' ∈ ds /\ foldl f hi ds = desc_end d').
Proof.
  simpl. revert hi. induction ds as [|x ds IH]; intros hi; simpl; [split_and!; [lia|set_solver|auto]|].
  match goal with |- context [foldl ?f ?h ds] => destruct (IH h) as (H1 & H2 & H3) end.
  split_and!.
  - etrans; [|exact H1]. destruct (is_real_memory (ty x)); simpl; [|lia].
    destruct (hi <? desc_end x) eqn:?; bool_to_prop; lia.
  - intros [-> |Hd]%elem_of_cons Hr; [|auto]. etrans; [|exact H1]. rewrite Hr. simpl.
    destruct (hi <? desc_end x) eqn:?; bool_to_prop; lia.
  - destruct H3 as [->|(d' & ? & ?)]; [|right; exists d'; set_solver].
    destruct (is_real_memory (ty x)); simpl; [|by left].
    destruct (hi <? desc_end x); [right; exists x; set_solver|by left].
Qed.

Lemma span_bounds bi :
  boot_ok bi ->
  0 <= highest_address (memory_map bi) < 2 ^ 63 /\
  forall p, p ∈ conv_pages (memory_map bi) -> 0 <= p < highest_address (memory_map bi) / PAGE_SIZE.
Proof.
  intros [Hd _ _ _ _]. rewrite Forall_forall in Hd. split.
  - destruct (highest_address_ge (memory_map bi) 0 (mkDesc 0 0 0)) as (H1 & _ & H3).
    fold (highest_address (memory_map bi)) in *. split; [done|].
    destruct H3 as [H3|(d & Hin & H3)]; unfold highest_address in *; rewrite H3; [lia|].
    destruct (Hd d Hin) as (? & ? & ?). rewrite desc_end_small; unfold PAGE_SIZE in *; lia.
  - intros p Hp. apply list_elem_of_bind in Hp as (d & Hp & Hin).
    destruct (ty d =? EFI_CONVENTIONAL_MEMORY) eqn:Ht; [|set_solver]. bool_to_prop.
    apply elem_of_range in Hp. destruct (Hd d Hin) as (Hs & Hn & Hov).
    destruct (highest_address_ge (memory_map bi) 0 d) as (_ & H2 & _).
    fold (highest_address (memory_map bi)) in *. specialize (H2 Hin).
    rewrite Ht in H2. specialize (H2 eq_refl).
    rewrite desc_end_small in H2 by (unfold PAGE_SIZE in *; lia).
    assert (0 <= physical_start d / PAGE_SIZE) by (apply Z.div_pos; unfold PAGE_SIZE; lia).
    split; [lia|]. eapply Z.lt_le_trans; [exact (proj2 Hp)|].
    apply Z.div_le_lower_bound; [reflexivity|]. unfold highest_address in *.
    pose proof (Z.mul_div_le (physical_start d) PAGE_SIZE ltac:(reflexivity)).
    unfold PAGE_SIZE in *. lia.
Qed.

(** The state between clearing conventional memory and reserving ranges. *)
Record clearing (s : pmm) (span : Z) (done_pages : list Z) (m : Z -> Z) : Prop := {
  cl_inv : pmm_inv s;
  cl_span : TOTAL_SPAN_PAGES s = span;
  cl_mem : MEM s = m;
  cl_res : forall j, 0 <= j < span -> bit (RESERVED_BITMAP s) j = false;
  cl_used : forall j, 0 <= j < span -> bit (USED_BITMAP s) j = false <-> j ∈ done_pages
}.

Lemma add_usable_inv t s : pmm_inv s -> pmm_inv (add_stats 0 0 0 t s).
Proof.
  intros [? ? ? Hsp Had ? ? Hfr]. constructor; simpl; try done.
  rewrite Z.add_0_r, wrap_small; [done|].
  pose proof (free_count_range (USED_BITMAP s) (TOTAL_SPAN_PAGES s) ltac:(lia)).
  unfold PAGE_SIZE in *. red. lia.
Qed.

Lemma clear_page_spec s span ps m first p :
  clearing s span ps m -> 0 <= first -> 0 <= p -> first + p < span -> span < 2 ^ 51 ->
  first + p ∉ ps ->
  exists s', clear_page first s p = Some s' /\ clearing s' span (ps ++ [first + p]) m.
Proof.
  intros [Hs Hspan Hm Hres Hused] Hf Hp Hlt Hsb Hnin. unfold clear_page.
  rewrite wrap_small by (red; lia). set (i := first + p) in *.
  pose proof Hs as [Hlen Hub Hrb Hsp Had Hla Hru Hfr].
  assert (bit (USED_BITMAP s) i = true) as Hu.
  { destruct (bit (USED_BITMAP s) i) eqn:He; [done|]. apply Hused in He; [done|lia]. }
  destruct (bitmap_clear_spec (USED_BITMAP s) i) as (ub & -> & Hub'); [done|lia|]. simpl.
  pose proof (free_count_clear _ _ _ (TOTAL_SPAN_PAGES s) Hub' ltac:(lia) Hu) as Hcnt.
  pose proof (free_count_range ub (TOTAL_SPAN_PAGES s) ltac:(lia)) as Hcr.
  destruct Hub' as (Hul & Hubb & Hbits). eexists; split; [done|]. constructor; simpl; try done.
  - constructor; simpl; try done; try lia.
    + intros j Hj Hr. rewrite Hres in Hr by lia. done.
    + rewrite Hfr, wrap_small; [lia|]. unfold PAGE_SIZE in *. red. lia.
  - intros j Hj. rewrite Hbits by lia. destruct (j =? i) eqn:He; bool_to_prop.
    + subst j. split; [set_solver|done].
    + rewrite Hused by done. set_solver.
Qed.

Lemma clear_pages_spec s span ps m first n k :
  clearing s span ps m -> 0 <= first -> first + (Z.of_nat k + Z.of_nat n) <= span -> span < 2 ^ 51 ->
  NoDup (ps ++ range (first + Z.of_nat k) (first + (Z.of_nat k + Z.of_nat n))) ->
  exists s', foldM (clear_page first) s (range (Z.of_nat k) (Z.of_nat k + Z.of_nat n)) = Some s' /\
    clearing s' span (ps ++ range (first + Z.of_nat k) (first + (Z.of_nat k + Z.of_nat n))) m.
Proof.
  revert s ps k. induction n as [|n IH]; intros s ps k Hcl Hf Hle Hsb Hnd.
  - rewrite !range_nil, app_nil_r by lia. simpl. eauto.
  - rewrite (range_cons (first + Z.of_nat k)) in Hnd |- * by lia.
    rewrite (range_cons (Z.of_nat k)) by lia. simpl foldM.
    rewrite cons_middle, app_assoc in Hnd |- *.
    destruct (clear_page_spec s span ps m first (Z.of_nat k)) as (s1 & -> & Hcl1); [done|lia..| |].
    { apply NoDup_app in Hnd as (Hnd & _ & _). apply NoDup_app in Hnd as (_ & Hd & _). set_solver. }
    simpl. specialize (IH s1 (ps ++ [first + Z.of_nat k]) (S k)).
    replace (Z.of_nat (S k) + Z.of_nat n) with (Z.of_nat k + Z.of_nat (S n)) in IH by lia.
    replace (first + Z.of_nat (S k)) with (first + Z.of_nat k + 1) in IH by lia.
    replace (Z.of_nat (S k)) with (Z.of_nat k + 1) in IH by lia.
    apply IH; done || lia.
Qed.

Lemma free_conventional_spec s span ps m d :
  clearing s span ps m -> span < 2 ^ 51 -> 0 <= physical_start d -> 0 <= number_of_pages d ->
  NoDup (ps ++ conv_pages [d]) -> (forall p, p ∈ conv_pages [d] -> p < span) ->
  exists s', free_conventional s d = Some s' /\ clearing s' span (ps ++ conv_pages [d]) m.
Proof.
  intros Hcl Hsb Hps Hnp Hnd Hlt. unfold free_conventional. unfold conv_pages in *.
  cbn [mbind list_bind] in *. rewrite app_nil_r in *.
  destruct (ty d =? EFI_CONVENTIONAL_MEMORY); [|rewrite app_nil_r; eauto].
  assert (0 <= physical_start d / PAGE_SIZE) as Hf by (apply Z.div_pos; unfold PAGE_SIZE; lia).
  set (first := physical_start d / PAGE_SIZE) in *.
  assert (clearing (add_stats 0 0 0 (u64 (number_of_pages d * PAGE_SIZE)) s) span ps m) as Hcl1.
  { destruct Hcl. constructor; try done. by apply add_usable_inv. }
  destruct (decide (number_of_pages d = 0)) as [He|Hne].
  { rewrite !range_nil, app_nil_r by lia. simpl. eauto. }
  specialize (Hlt (first + number_of_pages d - 1)). rewrite elem_of_range in Hlt.
  pose proof (clear_pages_spec _ span ps m first (Z.to_nat (number_of_pages d)) 0 Hcl1 Hf) as H.
  rewrite Z2Nat.id, Z.add_0_r, !Z.add_0_l in H by done. apply H; done || lia.
Qed.

Lemma free_all_spec ds s span ps m :
  clearing s span ps m -> span < 2 ^ 51 ->
  Forall (fun d => 0 <= physical_start d /\ 0 <= number_of_pages d) ds ->
  NoDup (ps ++ conv_pages ds) -> (forall p, p ∈ conv_pages ds -> p < span) ->
  exists s', foldM free_conventional s ds = Some s' /\ clearing s' span (ps ++ conv_pages ds) m.
Proof.
  revert s ps. induction ds as [|d ds IH]; intros s ps Hcl Hsb Hds Hnd Hlt.
  { simpl. rewrite app_nil_r. eauto. }
  cbn [foldM].
  apply Forall_cons in Hds as [[Hps Hnp] Hds].
  assert (conv_pages (d :: ds) = conv_pages [d] ++ conv_pages ds) as Hc.
  { unfold conv_pages. simpl. by rewrite app_nil_r. }
  rewrite Hc in *. rewrite app_assoc in Hnd |- *.
  destruct (free_conventional_spec s span ps m d) as (s1 & -> & Hcl1); [done..| | |].
  { by apply NoDup_app in Hnd as (? & _ & _). }
  { intros p Hp. apply Hlt, elem_of_app. by left. }
  cbn [mbind option_bind]. apply (IH s1 (ps ++ conv_pages [d])); try done.
  intros p Hp. apply Hlt, elem_of_app. by right.
Qed.

Lemma bit_replicate n v i :
  bit (replicate n v) i = true -> Z.testbit v (i mod 8) = true.
Proof.
  unfold bit. destruct (replicate n v !! _) eqn:H; [|done].
  by apply lookup_replicate in H as [-> _].
Qed.

Lemma init_clearing span m :
  0 <= span -> span * PAGE_SIZE < 2 ^ 63 ->
  let n := Z.to_nat (bitmap_size_bytes span) in
  forall st, free_pages st = 0 ->
  clearing (mkPmm (replicate n 0xFF) (replicate n 0) span 0 st m) span [] m.
Proof.
  intros Hsp Hb n st Hst.
  assert (span <= 8 * Z.of_nat n) as Hn.
  { subst n. unfold bitmap_size_bytes. pose proof (Z.div_mod span 8).
    pose proof (Z.mod_pos_bound span 8). pose proof (Z.div_pos span 8).
    destruct (span mod 8 =? 0) eqn:He; bool_to_prop; simpl; lia. }
  assert (forall j, 0 <= j < span -> bit (replicate n 0xFF) j = true) as Hused.
  { intros j Hj. unfold bit.
    rewrite lookup_replicate_2.
    - change 0xFF with (Z.ones 8). apply Z.ones_spec_low. apply Z.mod_pos_bound. lia.
    - pose proof (bit_index_bound (replicate n 0) j) as H. rewrite length_replicate in H. lia. }
  assert (forall j, bit (replicate n 0) j = false) as Hres.
  { intros j. destruct (bit (replicate n 0) j) eqn:He; [|done].
    apply bit_replicate in He. by rewrite Z.bits_0 in He. }
  constructor; simpl; try done.
  - constructor; simpl; rewrite ?length_replicate; try done; try lia.
    + by apply Forall_replicate.
    + by apply Forall_replicate.
    + intros j _. by rewrite Hres.
    + rewrite Hst. unfold free_count. destruct (filter _ _) as [|i l] eqn:Hf; [done|].
      assert (i ∈ filter (fun i => bit (replicate n 0xFF) i = false) (range 0 span)) as Hi by (rewrite Hf; set_solver).
      apply list_elem_of_filter in Hi as [Hi1 Hi2%elem_of_range]. by rewrite Hused in Hi1.
  - intros j Hj. rewrite Hused by done. set_solver.
Qed.

(** The five ranges [init] reserves. *)
Definition boot_reserved (bi : BootInfo) (bitmaps p : Z) : Prop :=
  let total := bitmap_size_bytes (highest_address (memory_map bi) / PAGE_SIZE) * 2 in
  touches 0 PAGE_SIZE p \/ touches bitmaps total p \/
  touches (kernel_physical_start bi) (kernel_physical_end bi - kernel_physical_start bi) p \/
  touches (boot_info_addr bi) (boot_info_size bi) p \/
  touches (memory_map_addr bi) (memory_map_size bi) p.

Lemma find_bitmap_region_Some ds total a :
  find_bitmap_region ds total = Some a ->
  exists d, d ∈ ds /\ physical_start d = a /\ 0 < a /\ ty d = EFI_CONVENTIONAL_MEMORY /\
    total <= u64 (number_of_pages d * PAGE_SIZE).
Proof.
  unfold find_bitmap_region. intros (d & Hd & ->)%fmap_Some.
  destruct (filter _ ds) as [|x l] eqn:Hf; [done|]. injection Hd as ->.
  assert (d ∈ filter (fun d => ty d = EFI_CONVENTIONAL_MEMORY /\ 0 < physical_start d /\
    total <= u64 (number_of_pages d * PAGE_SIZE)) ds) as Hin by (rewrite Hf; set_solver).
  apply list_elem_of_filter in Hin as ((? & ? & ?) & ?). eauto 10.
Qed.

Lemma bitmap_size_pos span : 0 < span -> 0 < bitmap_size_bytes span <= span.
Proof.
  intros. unfold bitmap_size_bytes. pose proof (Z.div_mod span 8). pose proof (Z.mod_pos_bound span 8).
  destruct (span mod 8 =? 0) eqn:He; bool_to_prop; simpl; lia.
Qed.

(** Chain of the five reservations. *)
Lemma reserve_next s s1 S start len :
  pmm_inv s1 -> reserves s s1 S -> 0 <= start -> 0 < len -> start + len + 2 * PAGE_SIZE < 2 ^ 64 ->
  exists s2, reserve_range start len s1 = Some s2 /\ pmm_inv s2 /\
    reserves s s2 (fun j => S j \/ touches start len j).
Proof.
  intros Hs Hr H1 H2 H3. destruct (reserve_range_spec start len s1) as (s2 & ? & ? & ?); [done..|].
  eauto using reserves_trans.
Qed.

Lemma init_spec bi m a :
  boot_ok bi ->
  let span := highest_address (memory_map bi) / PAGE_SIZE in
  0 < span ->
  find_bitmap_region (memory_map bi) (bitmap_size_bytes span * 2) = Some a ->
  exists s, init bi m = Some s /\ pmm_inv s /\ page_zero_reserved s /\
    TOTAL_SPAN_PAGES s = span /\ MEM s = m /\
    (forall p, 0 <= p < span ->
       (bit (USED_BITMAP s) p = false <-> p ∈ conv_pages (memory_map bi) /\ ~ boot_reserved bi a p) /\
       (bit (RESERVED_BITMAP s) p = true <-> boot_reserved bi a p)).
Proof.
  intros Hbi span Hspan Hreg. destruct (span_bounds bi Hbi) as [Hhi Hconv].
  pose proof (Z.mul_div_le (highest_address (memory_map bi)) PAGE_SIZE ltac:(reflexivity)) as Hmul.
  fold span in Hmul, Hconv. unfold init. fold span. rewrite Hreg. cbn [mbind option_bind].
  pose proof Hbi as [Hds Hnd (Hk1 & Hk2) (Hi1 & Hi2 & Hi3) (Hm1 & Hm2 & Hm3)].
  pose proof (bitmap_size_pos span Hspan) as Hbs.
  destruct (find_bitmap_region_Some _ _ _ Hreg) as (d & Hd & Hda & Ha & _ & Hfit).
  assert (a + bitmap_size_bytes span * 2 + 2 * PAGE_SIZE < 2 ^ 64) as Hbm.
  { rewrite Forall_forall in Hds. destruct (Hds d Hd) as (? & ? & ?).
    rewrite wrap_small in Hfit; unfold PAGE_SIZE in *; [lia|red; lia]. }
  match goal with |- context [foldM free_conventional ?x _] => set (s0 := x) end.
  destruct (free_all_spec (memory_map bi) s0 span [] m) as (s1 & -> & Hcl).
  { apply (init_clearing span m); [lia|unfold PAGE_SIZE in *; lia|done]. }
  { unfold PAGE_SIZE in *. lia. }
  { eapply Forall_impl; [exact Hds|]. simpl. tauto. }
  { done. }
  { intros p Hp%Hconv. lia. }
  cbn [mbind option_bind]. destruct Hcl as [Hs1 Hsp1 Hm1' Hres1 Hused1]. simpl in Hused1.
  destruct (reserve_next s1 s1 (fun _ => False) 0 PAGE_SIZE) as (s2 & -> & Hs2 & Hr2);
    [done|apply reserves_refl|unfold PAGE_SIZE; lia..|]. cbn [mbind option_bind].
  destruct (reserve_next s1 s2 _ a (bitmap_size_bytes span * 2) Hs2 Hr2) as (s3 & -> & Hs3 & Hr3);
    [lia..|]. cbn [mbind option_bind].
  rewrite (wrap_small 64 (kernel_physical_end bi - kernel_physical_start bi)) by (unfold PAGE_SIZE in *; red; lia).
  destruct (reserve_next s1 s3 _ (kernel_physical_start bi) (kernel_physical_end bi - kernel_physical_start bi) Hs3 Hr3)
    as (s4 & -> & Hs4 & Hr4); [lia..|]. cbn [mbind option_bind].
  destruct (reserve_next s1 s4 _ _ _ Hs4 Hr4 Hi1 Hi2 Hi3) as (s5 & -> & Hs5 & Hr5). cbn [mbind option_bind].
  destruct (reserve_next s1 s5 _ _ _ Hs5 Hr5 Hm1 Hm2 Hm3) as (s6 & Heq & Hs6 & (Hsp6 & Hm6 & Hb6)).
  exists s6. rewrite Hsp1 in *.
  assert (forall p, 0 <= p < span -> bit (RESERVED_BITMAP s6) p = true <-> boot_reserved bi a p) as Hresv.
  { intros p Hp. destruct (Hb6 p Hp) as [-> _]. rewrite Hres1 by done. unfold boot_reserved. fold span.
    split; [intros [?|?]; [done|tauto]|intros; right; tauto]. }
  split_and!; [done|done| |done|congruence|].
  - intros _. apply Hresv; [lia|]. left. unfold touches, PAGE_SIZE. lia.
  - intros p Hp. split; [|by apply Hresv]. destruct (Hb6 p Hp) as [_ Hu].
    rewrite <- (Hused1 p Hp), <- not_true_iff_false, Hu.
    unfold boot_reserved. fold span. rewrite <- not_true_iff_false. tauto.
Qed.

(** Initialisation succeeds whenever firmware reports a region for the
    bitmaps, establishes the allocator's invariant, and gives out exactly the
    right memory: a page is free afterwards iff a conventional-memory descriptor
    covers it and none of page zero, the bitmaps, the kernel image, the boot
    information and the memory map touches it. *)
Theorem init_frees_exactly_conventional bi m a :
  boot_ok bi ->
  let span := highest_address (memory_map bi) / PAGE_SIZE in
  0 < span ->
  find_bitmap_region (memory_map bi) (bitmap_size_bytes span * 2) = Some a ->
  exists s, init bi m = Some s /\ pmm_inv s /\ page_zero_reserved s /\
    TOTAL_SPAN_PAGES s = span /\ MEM s = m /\
    (forall p, 0 <= p < span ->
       (bit (USED_BITMAP s) p = false <-> p ∈ conv_pages (memory_map bi) /\ ~ boot_reserved bi a p) /\
       (bit (RESERVED_BITMAP s) p = true <-> boot_reserved bi a p)).
Proof. exact (init_spec bi m a). Qed.

(** ** Concrete boots *)

Module PmmWitness.

(** 64 pages: firmware code, then conventional memory, then runtime-services
    memory the operating system must leave alone. *)
Definition bi : BootInfo :=
  mkBoot [mkDesc EFI_CONVENTIONAL_MEMORY 0 8; mkDesc EFI_CONVENTIONAL_MEMORY 0x10000 32;
          mkDesc EFI_RUNTIME_SERVICES_DATA 0x30000 16]
    0x12000 120 0x14000 0x18000 0x13000 128.

Definition m0 : Z -> Z := fun _ => 0.
Definition booted : pmm := default (mkPmm [] [] 0 0 (mkStats 0 0 0 0 0) m0) (init bi m0).

Lemma bi_ok : boot_ok bi.
Proof.
  constructor.
  - repeat apply Forall_cons_2; [..|apply Forall_nil_2]; cbn; unfold PAGE_SIZE; lia.
  - apply (bool_decide_unpack _). vm_compute. exact I.
  - cbn. unfold PAGE_SIZE. lia.
  - cbn. unfold PAGE_SIZE. lia.
  - cbn. unfold PAGE_SIZE. lia.
Qed.

Lemma init_witness : exists s, init bi m0 = Some s /\ pmm_inv s /\ page_zero_reserved s.
Proof.
  destruct (init_frees_exactly_conventional bi m0 0x10000) as (s & H & Hi & Hz & _).
  - apply bi_ok.
  - vm_compute. reflexivity.
  - vm_compute. reflexivity.
  - exists s. auto.
Defined.

Lemma booted_inv : pmm_inv booted /\ page_zero_reserved booted.
Proof.
  destruct (init_spec bi m0 0x10000) as (s & H & Hi & Hz & _);
    [apply bi_ok|vm_compute; reflexivity..|]. unfold booted. rewrite H. auto.
Qed.

Lemma alloc_page_witness : exists s' addr, alloc_page booted = Some (s', addr) /\ allocates booted (addr / PAGE_SIZE) s'.
Proof.
  destruct (alloc_page_exact booted (proj1 booted_inv) (proj2 booted_inv)) as (s' & addr & H & H0 & H1 & _).
  exists s', addr. split; [exact H|]. apply H1. rewrite H0. vm_compute. discriminate.
Defined.

Lemma free_page_witness : exists s', free_page 0x10000 booted = Some s' /\ s' = booted.
Proof.
  destruct (free_page_exact booted 0x10000 (proj1 booted_inv) ltac:(lia)) as (s' & H & _ & Hrej & _).
  exists s'. split; [exact H|]. apply Hrej. intros (_ & _ & _ & Hr & _). vm_compute in Hr. discriminate Hr.
Defined.

Lemma alloc_until_exhausted_witness :
  exists s' l, alloc_n 32 booted = Some (s', l) /\ NoDup l /\ exists s'', alloc_page s' = Some (s'', 0).
Proof.
  destruct (alloc_until_exhausted 32 booted (proj1 booted_inv) (proj2 booted_inv)) as (s' & l & H & _ & Hn & _ & Hx).
  - vm_compute. reflexivity.
  - exists s', l. auto.
Defined.

(** The statistics do not survive a stray free: right after boot, with no
    page allocated, freeing the address of a runtime-services page -- marked
    used but not reserved by [init] -- is accepted, the page becomes free for
    allocation, and the used-page count wraps below zero to 2^64-1. *)
Theorem free_firmware_page_accepted :
  used_pages (STATS booted) = 0 /\
  bit (RESERVED_BITMAP booted) 0x30 = false /\ bit (USED_BITMAP booted) 0x30 = true /\
  match free_page 0x30000 booted with
  | Some s' => bit (USED_BITMAP s') 0x30 = false /\ used_pages (STATS s') = 2 ^ 64 - 1
  | None => False
  end.
Proof. vm_compute. auto. Qed.

End PmmWitness.
