(* ===== verification/Heap.v ===== *)
(** * The kernel heap ([kernel_rs/src/heap.rs])

    The allocator's free list, threaded through the free blocks themselves, is a
    list of (address, size) nodes in list order.  Sums on addresses wrap at 64
    bits as in the code.  The physical page allocator the heap grows from is an
    interface, [PageSource], which [Pmm] implements. *)

From S2P Require Import Prelude Bits Pmm.

Definition HEAP_VIRTUAL_BASE : Z := 0xFFFFFF0000000000.
Definition INITIAL_HEAP_PAGES : Z := 2048.

(** [size_of::<FreeListNode>()]: a [usize] and a pointer. *)
Definition NODE_SIZE : Z := 16.

Abbreviation node := (Z * Z)%type.

(** ** The free list *)

(** [while !curr.is_null() && curr < addr]: the nodes passed, and the rest. *)
Fixpoint walk (addr : Z) (l : list node) : list node * list node :=
  match l with
  | n :: l' => if n.1 <? addr then let '(b, c) := walk addr l' in (n :: b, c) else ([], l)
  | [] => ([], [])
  end.

Definition add_free_region (addr size : Z) (l : list node) : list node :=
  if size <? NODE_SIZE then l else
  let '(before, curr) := walk addr l in
  match last before with
  | Some (pa, ps) =>
      if u64 (pa + ps) =? addr then
        (* merge with prev, and with curr if that makes them meet *)
        let ps := u64 (ps + size) in
        match curr with
        | (ca, cs) :: rest =>
            if u64 (pa + ps) =? ca then removelast before ++ (pa, u64 (ps + cs)) :: rest
            else removelast before ++ (pa, ps) :: curr
        | [] => removelast before ++ [(pa, ps)]
        end
      else
        match curr with
        | (ca, cs) :: rest =>
            if u64 (addr + size) =? ca then before ++ (addr, u64 (size + cs)) :: rest
            else before ++ (addr, size) :: curr
        | [] => before ++ [(addr, size)]
        end
  | None =>
      match curr with
      | (ca, cs) :: rest =>
          if u64 (addr + size) =? ca then before ++ (addr, u64 (size + cs)) :: rest
          else before ++ (addr, size) :: curr
      | [] => before ++ [(addr, size)]
      end
  end.

Definition heap_align_up (addr align : Z) : Z :=
  Z.land (u64 (addr + align - 1)) (wnot 64 (u64 (align - 1))).

(** First fit: [pre] are the nodes already passed. *)
Fixpoint find_fit (pre l : list node) (size align : Z) : option (list node * Z) :=
  match l with
  | [] => None
  | (node_addr, node_size) :: next =>
      let alloc_start := heap_align_up node_addr align in
      let alloc_end := u64 (alloc_start + size) in
      let node_end := u64 (node_addr + node_size) in
      if alloc_end <=? node_end then
        let l := pre ++ next in
        let front_pad := u64 (alloc_start - node_addr) in
        let l := if 0 <? front_pad then add_free_region node_addr front_pad l else l in
        let back_pad := u64 (node_end - alloc_end) in
        let l := if 0 <? back_pad then add_free_region alloc_end back_pad l else l in
        Some (l, alloc_start)
      else find_fit (pre ++ [(node_addr, node_size)]) next size align
  end.

Definition find_and_remove (size align : Z) (l : list node) : option (list node * Z) :=
  find_fit [] l size align.

(** ** Growing, allocating, freeing *)

(** Where fresh physical pages come from: 0 means exhaustion. *)
Class PageSource (S : Type) := ps_alloc : S -> option (S * Z).

#[export] Instance pmm_page_source : PageSource pmm := alloc_page.

(** [mapped]: the pages [vmm::map_heap_page] was called on, newest last. *)
Record LockedHeap := mkHeap { head_list : list node; heap_end : Z; mapped : list (Z * Z) }.

Definition heap_empty : LockedHeap := mkHeap [] 0 [].

Section growing.
Context {S : Type} `{PageSource S}.

(** The mapping loop of [grow_by]; [false] when physical memory ran out. *)
Fixpoint map_pages (n : nat) (vaddr : Z) (m : list (Z * Z)) (s : S)
  : option (S * list (Z * Z) * bool) :=
  match n with
  | O => Some (s, m, true)
  | Datatypes.S n' =>
      '(s, phys) ← ps_alloc s;
      if phys =? 0 then Some (s, m, false)
      else map_pages n' (u64 (vaddr + PAGE_SIZE)) (m ++ [(vaddr, phys)]) s
  end.

Definition grow_by (pages : Z) (h : LockedHeap) (s : S) : option (S * LockedHeap) :=
  let start := heap_end h in
  '(s, m, ok) ← map_pages (Z.to_nat pages) start (mapped h) s;
  if (ok : bool) then
    Some (s, mkHeap (add_free_region start (u64 (pages * PAGE_SIZE)) (head_list h))
               (u64 (heap_end h + pages * PAGE_SIZE)) m)
  else Some (s, mkHeap (head_list h) (heap_end h) m).

(** [GlobalAlloc::alloc]; address 0 is the null pointer. *)
Definition heap_alloc (lsize lalign : Z) (h : LockedHeap) (s : S)
  : option (S * LockedHeap * Z) :=
  let size := Z.max lsize NODE_SIZE in
  let align := Z.max lalign 8 in
  match find_and_remove size align (head_list h) with
  | Some (l, addr) => Some (s, mkHeap l (heap_end h) (mapped h), addr)
  | None =>
      let needed_bytes := u64 (size + align + PAGE_SIZE) in
      let pages := Z.max (u64 (needed_bytes + PAGE_SIZE - 1) / PAGE_SIZE) 256 in
      '(s, h) ← grow_by pages h s;
      match find_and_remove size align (head_list h) with
      | Some (l, addr) => Some (s, mkHeap l (heap_end h) (mapped h), addr)
      | None => Some (s, h, 0)
      end
  end.

Definition heap_init (h : LockedHeap) (s : S) : option (S * LockedHeap) :=
  grow_by INITIAL_HEAP_PAGES (mkHeap (head_list h) HEAP_VIRTUAL_BASE (mapped h)) s.
End growing.

Definition heap_dealloc (ptr lsize : Z) (h : LockedHeap) : LockedHeap :=
  let size := Z.max lsize NODE_SIZE in
  mkHeap (add_free_region ptr size (head_list h)) (heap_end h) (mapped h).

(** ** The free-list invariant *)

(** The bytes a list of nodes covers. *)
Definition covers (l : list node) (a : Z) : Prop := exists n, n ∈ l /\ n.1 <= a < n.1 + n.2.

(** Nodes in increasing order, with a gap between neighbours (adjacent regions
    are always merged), none smaller than a node header, below 2^64. *)
Fixpoint chain (lo : Z) (l : list node) : Prop :=
  match l with
  | [] => True
  | (a, s) :: l' => lo < a /\ NODE_SIZE <= s /\ a + s < 2 ^ 64 /\ chain (a + s) l'
  end.

Definition heap_ok (l : list node) : Prop := chain 0 l.

Fixpoint chain_end (lo : Z) (l : list node) : Z :=
  match l with
  | [] => lo
  | (a, s) :: l' => chain_end (a + s) l'
  end.

Lemma chain_app lo l1 l2 : chain lo (l1 ++ l2) <-> chain lo l1 /\ chain (chain_end lo l1) l2.
Proof. revert lo. induction l1 as [|[a s] l1 IH]; intros lo; simpl; [tauto|]. rewrite IH. tauto. Qed.

Lemma chain_end_app lo l1 l2 : chain_end lo (l1 ++ l2) = chain_end (chain_end lo l1) l2.
Proof. revert lo. induction l1 as [|[a s] l1 IH]; intros lo; simpl; auto. Qed.

Lemma chain_mono lo lo' l : lo' <= lo -> chain lo l -> chain lo' l.
Proof. destruct l as [|[a s] l]; simpl; [done|]. intros ? (? & ? & ? & ?). split_and!; [lia|done..]. Qed.

Lemma chain_end_ge lo l : chain lo l -> lo <= chain_end lo l.
Proof.
  revert lo. induction l as [|[a s] l IH]; intros lo; simpl; [lia|]. unfold NODE_SIZE.
  intros (? & ? & ? & Hc). apply IH in Hc. lia.
Qed.

Lemma chain_elem lo l n : chain lo l -> n ∈ l -> lo < n.1 /\ NODE_SIZE <= n.2 /\ n.1 + n.2 <= chain_end lo l.
Proof.
  revert lo. induction l as [|[a s] l IH]; intros lo Hc Hn; [set_solver|].
  destruct Hc as (? & ? & ? & Hc). apply elem_of_cons in Hn as [->|Hn].
  - simpl. apply chain_end_ge in Hc. done.
  - specialize (IH _ Hc Hn). unfold NODE_SIZE in *. simpl. lia.
Qed.

Lemma covers_app l1 l2 a : covers (l1 ++ l2) a <-> covers l1 a \/ covers l2 a.
Proof. unfold covers. setoid_rewrite elem_of_app. naive_solver. Qed.

Lemma covers_cons x s l a : covers ((x, s) :: l) a <-> x <= a < x + s \/ covers l a.
Proof.
  unfold covers. setoid_rewrite elem_of_cons. split.
  - intros (n & [->|Hn] & Ha); [by left|right; eauto].
  - intros [Ha|(n & Hn & Ha)]; [exists (x, s); auto|exists n; auto].
Qed.

Lemma covers_nil a : covers [] a <-> False.
Proof. unfold covers. set_solver. Qed.

Lemma chain_covers lo l a : chain lo l -> covers l a -> lo < a < chain_end lo l.
Proof. intros Hc (n & Hn & Ha). destruct (chain_elem _ _ _ Hc Hn) as (? & ? & ?). lia. Qed.

Lemma walk_split addr l b c :
  walk addr l = (b, c) ->
  l = b ++ c /\ Forall (fun n => n.1 < addr) b /\
  match c with n :: _ => addr <= n.1 | [] => True end.
Proof.
  revert b c. induction l as [|n l IH]; intros b c; simpl; [by intros [= <- <-]|].
  destruct (n.1 <? addr) eqn:He; bool_to_prop; [|by intros [= <- <-]].
  destruct (walk addr l) as [b' c'] eqn:Hw. intros [= <- <-].
  destruct (IH _ _ eq_refl) as (-> & ? & ?). auto.
Qed.

Lemma last_Some_split {A} (l : list A) x : last l = Some x -> l = removelast l ++ [x].
Proof. intros [l' ->]%last_Some. by rewrite removelast_last. Qed.

Lemma chain_insert b addr size c :
  chain 0 b -> chain_end 0 b < addr -> NODE_SIZE <= size -> addr + size < 2 ^ 64 ->
  chain (addr + size) c -> heap_ok (b ++ (addr, size) :: c).
Proof. intros. apply chain_app. split; [done|]. simpl. auto. Qed.

(** The region fits between the nodes passed and the rest. *)
Lemma walk_gap addr size l b c :
  heap_ok l -> 0 < addr -> NODE_SIZE <= size ->
  (forall a, addr <= a < addr + size -> ~ covers l a) -> walk addr l = (b, c) ->
  l = b ++ c /\ chain 0 b /\ chain_end 0 b <= addr /\ chain (chain_end 0 b) c /\
  chain (addr + size - 1) c.
Proof.
  intros Hok Ha Hs Hd Hw. destruct (walk_split _ _ _ _ Hw) as (-> & Hb & Hc).
  unfold NODE_SIZE in *. apply chain_app in Hok as [Hcb Hcc]. split_and!; [done|done| |done|].
  - destruct (last b) as [[pa ps]|] eqn:Hl.
    + pose proof (last_Some_split _ _ Hl) as Heq. set (b0 := removelast b) in *. rewrite Heq in *.
      apply Forall_app in Hb as [_ [Hpa _]%Forall_cons]. simpl in Hpa.
      apply chain_app in Hcb as [_ (? & ? & ? & _)]. rewrite chain_end_app. simpl.
      destruct (Z_lt_le_dec addr (pa + ps)) as [Hlt|]; [|done]. exfalso.
      apply (Hd addr); [lia|]. rewrite covers_app, covers_app, covers_cons. left. right. left. lia.
    + apply last_None in Hl as ->. simpl. lia.
  - destruct c as [|[ca cs] c]; [done|]. simpl in *. destruct Hcc as (H1 & H2 & H3 & H4).
    split_and!; [|done..]. destruct (Z_lt_le_dec ca (addr + size)) as [Hlt|]; [|lia]. exfalso.
    apply (Hd ca); [lia|]. rewrite covers_app, covers_cons. right. left. unfold NODE_SIZE in *. lia.
Qed.

Lemma u64_id x : 0 <= x < 2 ^ 64 -> u64 x = x.
Proof. apply wrap_small. Qed.

(** Insertion that does not merge with the previous node. *)
Lemma insert_no_prev b addr size c :
  chain 0 b -> chain_end 0 b < addr -> NODE_SIZE <= size -> addr + size < 2 ^ 64 ->
  chain (addr + size - 1) c ->
  let l' := match c with
    | (ca, cs) :: rest =>
        if u64 (addr + size) =? ca then b ++ (addr, u64 (size + cs)) :: rest
        else b ++ (addr, size) :: c
    | [] => b ++ [(addr, size)]
    end in
  heap_ok l' /\ forall a, covers l' a <-> covers (b ++ c) a \/ addr <= a < addr + size.
Proof.
  intros Hb He Hs Hov Hc. pose proof (chain_end_ge _ _ Hb) as H0. unfold NODE_SIZE in *.
  destruct c as [|[ca cs] rest].
  - split; [by apply chain_insert|]. intros a. rewrite !covers_app, covers_cons. tauto.
  - destruct Hc as (H1 & H2 & H3 & H4). unfold NODE_SIZE in *.
    rewrite (u64_id (addr + size)) by lia. destruct (addr + size =? ca) eqn:Hm; bool_to_prop.
    + rewrite u64_id by lia. split.
      * apply chain_insert; [done|done|unfold NODE_SIZE; lia|lia|].
        by replace (addr + (size + cs)) with (ca + cs) by lia.
      * intros a. rewrite !covers_app, !covers_cons.
        enough (addr <= a < addr + (size + cs) <-> addr <= a < addr + size \/ ca <= a < ca + cs) by tauto. lia.
    + split.
      * apply chain_insert; [done|done|done|done|]. simpl. split_and!; [lia|done..].
      * intros a. rewrite !covers_app, !covers_cons. tauto.
Qed.

Lemma add_free_region_spec addr size l :
  heap_ok l -> 0 < addr -> NODE_SIZE <= size -> addr + size < 2 ^ 64 ->
  (forall a, addr <= a < addr + size -> ~ covers l a) ->
  heap_ok (add_free_region addr size l) /\
  forall a, covers (add_free_region addr size l) a <-> covers l a \/ addr <= a < addr + size.
Proof.
  intros Hok Ha Hs Hov Hd. unfold add_free_region.
  rewrite (proj2 (Z.ltb_ge _ _)) by lia.
  destruct (walk addr l) as [b c] eqn:Hw.
  destruct (walk_gap _ _ _ _ _ Hok Ha Hs Hd Hw) as (-> & Hb & He & Hc & Hc').
  destruct (last b) as [[pa ps]|] eqn:Hl.
  2: { apply insert_no_prev; try done. apply last_None in Hl as ->. simpl. lia. }
  pose proof (last_Some_split _ _ Hl) as Heq. set (b0 := removelast b) in *.
  assert (chain 0 b0 /\ chain_end 0 b0 < pa /\ NODE_SIZE <= ps /\ pa + ps < 2 ^ 64 /\
          chain_end 0 b = pa + ps) as (Hb0 & Hpa & Hps & Hpov & Hend).
  { rewrite Heq in Hb |- *. rewrite chain_end_app. apply chain_app in Hb as (? & ? & ? & ? & _). done. }
  pose proof (chain_end_ge _ _ Hb0) as H0. unfold NODE_SIZE in *.
  rewrite (u64_id (pa + ps)) by lia.
  destruct (pa + ps =? addr) eqn:Hm; bool_to_prop; [|apply insert_no_prev; done || lia].
  assert (forall a, covers (b ++ c) a \/ addr <= a < addr + size <->
    covers (b0 ++ c) a \/ pa <= a < pa + (ps + size)) as Hcov.
  { intros a. rewrite Heq, !covers_app, covers_cons, covers_nil.
    enough (pa <= a < pa + ps \/ addr <= a < addr + size <-> pa <= a < pa + (ps + size)) by tauto. lia. }
  rewrite (u64_id (ps + size)) by lia.
  destruct (insert_no_prev b0 pa (ps + size) c) as [Hok' Hcov']; [done|done|unfold NODE_SIZE; lia|lia| |].
  { eapply chain_mono; [|exact Hc']. lia. }
  setoid_rewrite Hcov. exact (conj Hok' Hcov').
Qed.

(** Freeing into the list: a region that overlaps no free byte is added
    exactly -- the free bytes afterwards are the old ones and the region's --
    and the list stays sorted, gap-separated and fully coalesced; a region
    smaller than a node header is dropped and the list left alone. *)
Theorem add_free_region_exact addr size l :
  heap_ok l -> 0 < addr -> 0 <= size -> addr + size < 2 ^ 64 ->
  (forall a, addr <= a < addr + size -> ~ covers l a) ->
  heap_ok (add_free_region addr size l) /\
  (size < NODE_SIZE -> add_free_region addr size l = l) /\
  (NODE_SIZE <= size -> forall a,
     covers (add_free_region addr size l) a <-> covers l a \/ addr <= a < addr + size).
Proof.
  intros Hok Ha Hs Hov Hd. destruct (Z_lt_le_dec size NODE_SIZE) as [Hlt|Hge].
  - assert (add_free_region addr size l = l) as ->
      by (unfold add_free_region; by rewrite (proj2 (Z.ltb_lt _ _) Hlt)).
    split_and!; [done|done|lia].
  - destruct (add_free_region_spec addr size l) as [? ?]; [done..|]. split_and!; [done|lia|done].
Qed.

Lemma chain_remove pre na ns next :
  heap_ok (pre ++ (na, ns) :: next) ->
  heap_ok (pre ++ next) /\ 0 < na /\ NODE_SIZE <= ns /\ na + ns < 2 ^ 64 /\
  (forall a, covers (pre ++ next) a -> ~ na <= a < na + ns).
Proof.
  intros [Hp (H1 & H2 & H3 & H4)]%chain_app. pose proof (chain_end_ge _ _ Hp) as H0.
  unfold NODE_SIZE in *. split_and!; [|lia..|].
  - apply chain_app. split; [done|]. eapply chain_mono; [|done]. lia.
  - intros a [Ha|Ha]%covers_app.
    + apply (chain_covers _ _ _ Hp) in Ha. lia.
    + apply (chain_covers _ _ _ H4) in Ha. lia.
Qed.

(** Returning a pad to the list: exact when it is large enough to track. *)
Lemma pad_spec addr pad l :
  heap_ok l -> 0 < addr -> 0 <= pad -> addr + pad < 2 ^ 64 ->
  (forall a, addr <= a < addr + pad -> ~ covers l a) ->
  let l' := if 0 <? pad then add_free_region addr pad l else l in
  heap_ok l' /\
  (forall a, covers l' a -> covers l a \/ addr <= a < addr + pad) /\
  (forall a, covers l a -> covers l' a) /\
  (NODE_SIZE <= pad -> forall a, addr <= a < addr + pad -> covers l' a).
Proof.
  intros Hok Ha Hp Hov Hd. destruct (0 <? pad) eqn:H0; bool_to_prop; simpl.
  - destruct (Z_lt_le_dec pad NODE_SIZE) as [Hlt|Hge].
    + assert (add_free_region addr pad l = l) as ->
        by (unfold add_free_region; by rewrite (proj2 (Z.ltb_lt _ _) Hlt)).
      split_and!; [done|auto|auto|lia].
    + destruct (add_free_region_spec addr pad l) as [? Hc]; [done..|].
      split_and!; [done|intros a; rewrite Hc; tauto|intros a; rewrite Hc; tauto|intros _ a; rewrite Hc; tauto].
  - split_and!; [done|auto|auto|unfold NODE_SIZE; lia].
Qed.

(** What an allocation of [size] bytes at [start] takes out of [l], leaving
    [l']: a block inside one free node, with at most [NODE_SIZE - 1] bytes lost
    on either side. *)
Record takes (l : list node) (start size : Z) (l' : list node) : Prop := {
  tk_ok : heap_ok l';
  tk_inside : forall a, start <= a < start + size -> covers l a;
  tk_sub : forall a, covers l' a -> covers l a /\ ~ start <= a < start + size;
  tk_lost : forall a, covers l a -> covers l' a \/ start - NODE_SIZE < a < start + size + NODE_SIZE
}.

(** Splitting the node that fits. *)
Lemma split_node pre na ns next start size :
  heap_ok (pre ++ (na, ns) :: next) -> 0 < size -> na <= start -> start + size <= na + ns ->
  let l := pre ++ next in
  let l := if 0 <? start - na then add_free_region na (start - na) l else l in
  let back := na + ns - (start + size) in
  let l := if 0 <? back then add_free_region (start + size) back l else l in
  takes (pre ++ (na, ns) :: next) start size l.
Proof.
  intros Hok Hsz Hlo Hhi. destruct (chain_remove _ _ _ _ Hok) as (Hok0 & Hna & Hns & Hov & Hout).
  unfold NODE_SIZE in *.
  destruct (pad_spec na (start - na) (pre ++ next)) as (Hok1 & Hin1 & Hkeep1 & Hpad1); [done|lia|lia|lia| |].
  { intros a Ha Hc. apply (Hout a Hc). lia. }
  set (l1 := if 0 <? start - na then _ else _) in *.
  destruct (pad_spec (start + size) (na + ns - (start + size)) l1) as (Hok2 & Hin2 & Hkeep2 & Hpad2);
    [done|lia|lia|lia| |].
  { intros a Ha Hc. apply Hin1 in Hc as [Hc|?]; [|lia]. apply (Hout a Hc). lia. }
  unfold NODE_SIZE in *.
  assert (forall a, covers (pre ++ (na, ns) :: next) a <-> covers (pre ++ next) a \/ na <= a < na + ns) as Hcov.
  { intros a. rewrite !covers_app, covers_cons. tauto. }
  constructor; simpl; [done| | |]; intros a; rewrite Hcov.
  - intros. right. lia.
  - intros [Hc|Ha]%Hin2; [apply Hin1 in Hc as [Hc|Ha]|].
    + split; [by left|]. intros ?. apply (Hout a Hc). lia.
    + split; [right; lia|lia].
    + split; [right; lia|lia].
  - unfold NODE_SIZE. intros [Hc|Ha]; [left; by apply Hkeep2, Hkeep1|].
    destruct (Z_lt_le_dec a start) as [H1|H1].
    + destruct (Z_lt_le_dec (start - na) 16) as [|Hge]; [right; lia|]. left. apply Hkeep2, Hpad1; lia.
    + destruct (Z_lt_le_dec a (start + size)) as [H2|H2]; [right; lia|].
      destruct (Z_lt_le_dec (na + ns - (start + size)) 16); [right; lia|]. left. apply Hpad2; lia.
Qed.

Lemma find_fit_spec k size pre l :
  heap_ok (pre ++ l) -> 0 <= k < 64 -> 0 < size ->
  chain_end 0 (pre ++ l) + 2 ^ k + size < 2 ^ 64 ->
  match find_fit pre l size (2 ^ k) with
  | Some (l', start) => (2 ^ k | start) /\ takes (pre ++ l) start size l'
  | None => forall n, n ∈ l -> n.1 + n.2 < heap_align_up n.1 (2 ^ k) + size
  end.
Proof.
  revert pre. induction l as [|[na ns] next IH]; intros pre Hok Hk Hsz Hov; [simpl; set_solver|].
  cbn [find_fit]. assert (0 < 2 ^ k) as Hp by (apply Z.pow_pos_nonneg; lia).
  destruct (chain_remove _ _ _ _ Hok) as (_ & Hna & Hns & Hb & _).
  assert (na + ns <= chain_end 0 (pre ++ (na, ns) :: next)) as Hle
    by (apply (chain_elem 0 _ (na, ns) Hok); set_solver).
  destruct (align_up_least na k) as (Hal & Hdiv & _); [lia|lia|unfold NODE_SIZE in *; lia|].
  change (align_up na (2 ^ k)) with (heap_align_up na (2 ^ k)) in *.
  set (start := heap_align_up na (2 ^ k)) in *. unfold NODE_SIZE in *.
  rewrite (u64_id (start + size)), (u64_id (na + ns)) by lia.
  destruct (start + size <=? na + ns) eqn:Hfit; bool_to_prop.
  - rewrite (u64_id (start - na)), (u64_id (na + ns - (start + size))) by lia.
    split; [done|]. apply split_node; done || lia.
  - specialize (IH (pre ++ [(na, ns)])). rewrite <- app_assoc in IH. specialize (IH Hok Hk Hsz Hov).
    destruct (find_fit _ next size (2 ^ k)) as [[l' st]|]; [done|].
    intros n [->|Hn]%elem_of_cons; [simpl; lia|by apply IH].
Qed.

(** First fit, exactly: an allocation takes an aligned block that was
    entirely free out of the list, keeps every other free byte except at most 15
    on either side of the block (pads too small for a node header), and fails
    only when no free node can hold the aligned block (sizes that do not wrap
    past the end of the address space). *)
Theorem find_and_remove_exact k size l :
  heap_ok l -> 0 <= k < 64 -> 0 < size -> chain_end 0 l + 2 ^ k + size < 2 ^ 64 ->
  match find_and_remove size (2 ^ k) l with
  | Some (l', start) => (2 ^ k | start) /\ takes l start size l'
  | None => forall n, n ∈ l -> n.1 + n.2 < heap_align_up n.1 (2 ^ k) + size
  end.
Proof. exact (find_fit_spec k size [] l). Qed.

(** A contiguous run of free bytes lies in one node. *)
Lemma contiguous_node lo l x y :
  chain lo l -> x < y -> (forall a, x <= a < y -> covers l a) ->
  exists n, n ∈ l /\ n.1 <= x /\ y <= n.1 + n.2.
Proof.
  intros Hc Hxy Hcov. destruct (Hcov x ltac:(lia)) as (n & Hn & Hx).
  exists n. split_and!; [done|lia|]. destruct (Z_lt_le_dec (n.1 + n.2) y) as [Hlt|]; [|done]. exfalso.
  destruct (Hcov (n.1 + n.2) ltac:(lia)) as (n' & Hn' & Hx').
  clear Hcov. revert lo Hc. induction l as [|[a s] l IH]; intros lo Hc; [set_solver|].
  destruct Hc as (H1 & H2 & H3 & H4). unfold NODE_SIZE in *.
  apply elem_of_cons in Hn as [->|Hn], Hn' as [->|Hn']; simpl in *.
  - lia.
  - destruct (chain_elem _ _ _ H4 Hn') as (? & ? & ?). lia.
  - destruct (chain_elem _ _ _ H4 Hn) as (? & ? & ?). unfold NODE_SIZE in *. lia.
  - by eapply IH.
Qed.

(** ** The heap and its clients *)

(** Bytes [a] of a live allocation: the block the allocator set aside for a
    request of [lsize] bytes at [p]. *)
Definition block_covers (b : Z * Z) (a : Z) : Prop := b.1 <= a < b.1 + Z.max b.2 NODE_SIZE.

(** Everything the heap manages or has given out lies between [HEAP_VIRTUAL_BASE] and [heap_end], free and
    live bytes are apart, and live blocks are pairwise apart. *)
Record heap_inv (h : LockedHeap) (live : list (Z * Z)) : Prop := {
  hi_ok : heap_ok (head_list h);
  hi_end : HEAP_VIRTUAL_BASE <= heap_end h < 2 ^ 64;
  hi_free_lo : forall a, covers (head_list h) a -> HEAP_VIRTUAL_BASE <= a < heap_end h;
  hi_live_lo : forall b a, b ∈ live -> block_covers b a -> HEAP_VIRTUAL_BASE <= a < heap_end h;
  hi_live_pos : forall b, b ∈ live -> 0 < b.1;
  hi_apart : forall b a, b ∈ live -> block_covers b a -> ~ covers (head_list h) a;
  hi_disjoint : forall i j b b' a, live !! i = Some b -> live !! j = Some b' -> i <> j ->
    block_covers b a -> ~ block_covers b' a
}.

(** A request that does not wrap past the end of the address space, even if the
    heap has to grow for it. *)
Definition request_ok (h : LockedHeap) (lsize k : Z) : Prop :=
  0 <= lsize /\ 0 <= k < 64 /\
  heap_end h + 2 * (Z.max lsize NODE_SIZE + 2 ^ Z.max k 3) + 2 ^ 21 < 2 ^ 64.

Lemma max_align k : 0 <= k -> Z.max (2 ^ k) 8 = 2 ^ Z.max k 3.
Proof.
  intros Hk. change 8 with (2 ^ 3). destruct (Z_le_gt_dec k 3).
  - rewrite (Z.max_r k 3), Z.max_r by (try apply Z.pow_le_mono_r; lia). done.
  - rewrite (Z.max_l k 3), Z.max_l by (try apply Z.pow_le_mono_r; lia). done.
Qed.

Lemma chain_end_bound lo l e :
  chain lo l -> lo < e -> (forall a, covers l a -> a < e) -> chain_end lo l <= e.
Proof.
  revert lo. induction l as [|[a s] l IH]; intros lo Hc Hlo Hcov; simpl; [lia|].
  destruct Hc as (H1 & H2 & H3 & H4). unfold NODE_SIZE in *.
  assert (a + s - 1 < e) by (apply Hcov; rewrite covers_cons; lia).
  destruct l as [|[a' s'] l']; [simpl; lia|].
  destruct H4 as (H4 & H5 & H6 & H7). unfold NODE_SIZE in *.
  apply IH; [done| |intros; apply Hcov; rewrite covers_cons; tauto].
  assert (a' < e); [|lia]. apply Hcov. rewrite !covers_cons. lia.
Qed.

Lemma heap_inv_chain_end h live : heap_inv h live -> chain_end 0 (head_list h) <= heap_end h.
Proof. intros Hi. pose proof (hi_end _ _ Hi). apply chain_end_bound; [apply Hi|unfold HEAP_VIRTUAL_BASE in *; lia|]. intros a Ha. apply (hi_free_lo _ _ Hi a Ha). Qed.

(** A hit of the first-fit search keeps the invariant, with the new block live. *)
Lemma take_inv h live l start lsize m :
  heap_inv h live -> takes (head_list h) start (Z.max lsize NODE_SIZE) l ->
  heap_inv (mkHeap l (heap_end h) m) ((start, lsize) :: live).
Proof.
  intros [Hok He Hfree Hlive Hpos Hap Hdis] [Htk Hin Hsub _]. unfold NODE_SIZE in *.
  assert (forall a, start <= a < start + Z.max lsize 16 -> HEAP_VIRTUAL_BASE <= a < heap_end h) as Hnew by auto.
  constructor; simpl; try done.
  - intros a [Ha _]%Hsub. auto.
  - intros b a [->|Hb]%elem_of_cons; [apply Hnew|eauto].
  - intros b [->|Hb]%elem_of_cons; [|auto]. simpl. pose proof (Hnew start ltac:(lia)). unfold HEAP_VIRTUAL_BASE in *. lia.
  - intros b a [->|Hb]%elem_of_cons Ha [Hc Hn]%Hsub; [done|]. by eapply Hap.
  - assert (forall b a, b ∈ live -> block_covers b a -> ~ block_covers (start, lsize) a) as Hx.
    { intros b a Hb Ha Hs. by eapply Hap, Hin. }
    intros [|i] [|j] b b' a Hb Hb' Hij Ha Ha'; simplify_eq/=; try done.
    + eapply Hx; [by eapply list_elem_of_lookup_2|exact Ha'|exact Ha].
    + eapply Hx; [by eapply list_elem_of_lookup_2|exact Ha|exact Ha'].
    + eapply (Hdis i j); [done..|lia|done|done].
Qed.

(** A hit of the search, seen by the client. *)
Lemma find_hit_inv h live l start lsize K m :
  heap_inv h live -> 0 <= K < 64 ->
  heap_end h + 2 ^ K + Z.max lsize NODE_SIZE < 2 ^ 64 ->
  find_and_remove (Z.max lsize NODE_SIZE) (2 ^ K) (head_list h) = Some (l, start) ->
  start <> 0 /\ (2 ^ K | start) /\ heap_inv (mkHeap l (heap_end h) m) ((start, lsize) :: live).
Proof.
  intros Hi HK Hov Hf. pose proof (heap_inv_chain_end _ _ Hi) as Hce.
  assert (0 < Z.max lsize NODE_SIZE) by (unfold NODE_SIZE; lia).
  pose proof (find_fit_spec K (Z.max lsize NODE_SIZE) [] (head_list h) (hi_ok _ _ Hi) HK ltac:(lia)) as Hs.
  simpl in Hs. specialize (Hs ltac:(lia)). unfold find_and_remove in Hf. rewrite Hf in Hs.
  destruct Hs as [Hdiv Htk]. pose proof (take_inv h live l start lsize m Hi Htk) as Hi2.
  split_and!; [|done|done]. pose proof (hi_live_pos _ _ Hi2 (start, lsize) ltac:(set_solver)) as Hp.
  simpl in Hp. lia.
Qed.

(** The page count of one growth step. *)
Lemma grow_pages_bounds size al :
  0 < size -> 0 < al -> size + al + 2 ^ 20 + 8192 < 2 ^ 64 ->
  let pages := Z.max (u64 (u64 (size + al + PAGE_SIZE) + PAGE_SIZE - 1) / PAGE_SIZE) 256 in
  1 <= pages /\ size + al <= pages * PAGE_SIZE <= size + al + 2 ^ 20 + 8192.
Proof.
  unfold PAGE_SIZE. intros Hs Ha Hov. rewrite (u64_id (size + al + 4096)), u64_id by lia.
  pose proof (Z.mul_div_le (size + al + 4096 + 4096 - 1) 4096 ltac:(lia)).
  pose proof (Z.mul_succ_div_gt (size + al + 4096 + 4096 - 1) 4096 ltac:(lia)). lia.
Qed.

Section clients.
Context {S : Type} `{PageSource S}.

Lemma grow_inv pages h s s' h' live :
  heap_inv h live -> 1 <= pages -> heap_end h + pages * PAGE_SIZE < 2 ^ 64 ->
  grow_by pages h s = Some (s', h') ->
  heap_inv h' live /\ heap_end h <= heap_end h' <= heap_end h + pages * PAGE_SIZE.
Proof.
  intros Hi Hp Hov Hg. unfold grow_by in Hg.
  destruct (map_pages _ _ _ s) as [[[s1 m] ok]|]; [|done]. cbn [mbind option_bind] in Hg.
  pose proof Hi as [Hok He Hfree Hlive Hpos Hap Hdis]. assert (0 < heap_end h) by (unfold HEAP_VIRTUAL_BASE in *; lia). unfold PAGE_SIZE in *.
  destruct ok; simplify_eq; simpl; [|split; [by constructor|lia]].
  rewrite (u64_id (heap_end h + _)), u64_id by lia.
  destruct (add_free_region_spec (heap_end h) (pages * 4096) (head_list h)) as [Hok' Hcov];
    [done|lia|unfold NODE_SIZE; lia|lia|intros a Ha Hc; apply Hfree in Hc; lia|].
  split; [|lia]. constructor; simpl; try done; try lia.
  - intros a [Ha%Hfree|Ha]%Hcov; lia.
  - intros b a Hb Ha. specialize (Hlive b a Hb Ha). lia.
  - intros b a Hb Ha [Hc|Hc]%Hcov; [by eapply Hap|]. specialize (Hlive b a Hb Ha). lia.
Qed.

(** One client operation on the heap: a successful or failed allocation, or
    the release of a live block with the layout it was requested with. *)
Inductive heap_step : S * LockedHeap * list (Z * Z) -> S * LockedHeap * list (Z * Z) -> Prop :=
  | step_alloc s h live lsize k s' h' addr :
      request_ok h lsize k ->
      heap_alloc lsize (2 ^ k) h s = Some (s', h', addr) -> addr <> 0 ->
      heap_step (s, h, live) (s', h', (addr, lsize) :: live)
  | step_null s h live lsize k s' h' :
      request_ok h lsize k ->
      heap_alloc lsize (2 ^ k) h s = Some (s', h', 0) ->
      heap_step (s, h, live) (s', h', live)
  | step_free s h live1 live2 addr lsize :
      heap_step (s, h, live1 ++ (addr, lsize) :: live2)
        (s, heap_dealloc addr lsize h, live1 ++ live2).

Lemma heap_alloc_inv lsize k h s s' h' addr live :
  heap_inv h live -> request_ok h lsize k ->
  heap_alloc lsize (2 ^ k) h s = Some (s', h', addr) ->
  (addr <> 0 /\ (2 ^ Z.max k 3 | addr) /\ heap_inv h' ((addr, lsize) :: live)) \/
  (addr = 0 /\ heap_inv h' live).
Proof.
  intros Hi (Hl & Hk & Hov) Ha. unfold heap_alloc in Ha. rewrite max_align in Ha by lia.
  set (size := Z.max lsize NODE_SIZE) in *. set (K := Z.max k 3) in *.
  assert (0 < size) by (subst size; unfold NODE_SIZE; lia).
  assert (0 < 2 ^ K) by (apply Z.pow_pos_nonneg; lia).
  destruct (find_and_remove size (2 ^ K) (head_list h)) as [[l start]|] eqn:Hf.
  { simplify_eq. left. apply (find_hit_inv h live l addr); [done|lia|lia|done]. }
  pose proof (hi_end _ _ Hi) as Hpos_end. unfold HEAP_VIRTUAL_BASE in Hpos_end.
  destruct (grow_pages_bounds size (2 ^ K)) as [Hpg1 Hpg2]; [lia..|].
  set (pages := Z.max (_ / PAGE_SIZE) 256) in *. unfold PAGE_SIZE in Hpg2.
  destruct (grow_by pages h s) as [[s1 h1]|] eqn:Hg; [|done]. cbn [mbind option_bind] in Ha.
  destruct (grow_inv pages h s s1 h1 live) as [Hi1 Hend]; [done|lia|unfold PAGE_SIZE; lia|done|].
  unfold PAGE_SIZE in Hend.
  destruct (find_and_remove size (2 ^ K) (head_list h1)) as [[l start]|] eqn:Hf1; simplify_eq.
  - left. apply (find_hit_inv h1 live l addr); [done|lia|lia|done].
  - by right.
Qed.

Lemma dealloc_inv h live1 live2 addr lsize :
  heap_inv h (live1 ++ (addr, lsize) :: live2) ->
  heap_inv (heap_dealloc addr lsize h) (live1 ++ live2).
Proof.
  intros Hi. set (live := live1 ++ (addr, lsize) :: live2) in *.
  pose proof Hi as [Hok He Hfree Hlive Hpos Hap Hdis].
  assert ((addr, lsize) ∈ live) as Hin by (subst live; set_solver).
  assert (forall b, b ∈ live1 ++ live2 -> b ∈ live) as Hsub by (subst live; set_solver).
  assert (forall a, addr <= a < addr + Z.max lsize NODE_SIZE -> HEAP_VIRTUAL_BASE <= a < heap_end h) as Hrng
    by (intros a Ha; by eapply Hlive).
  assert (live !! length live1 = Some (addr, lsize)) as Hmid by (subst live; by apply list_lookup_middle).
  assert (forall i b, (live1 ++ live2) !! i = Some b -> exists j, live !! j = Some b /\
    j <> length live1 /\ j = if decide (i < length live1)%nat then i else Datatypes.S i) as Hidx.
  { intros i b Hb. subst live. case_decide as Hlt; eexists; (split_and!; [|shelve|done]).
    - rewrite lookup_app_l in Hb |- * by done. done.
    - rewrite lookup_app_r in Hb by lia. rewrite lookup_app_r by lia.
      replace (Datatypes.S i - length live1)%nat with (Datatypes.S (i - length live1))%nat by lia. done.
    Unshelve. all: lia. }
  pose proof (Hrng (addr + Z.max lsize NODE_SIZE - 1)) as Hlast. pose proof (Hpos _ Hin) as Hp.
  unfold NODE_SIZE in *. simpl in Hp.
  assert (chain_end 0 (head_list h) <= heap_end h) by by eapply heap_inv_chain_end.
  destruct (add_free_region_spec addr (Z.max lsize 16) (head_list h)) as [Hok' Hcov];
    [done|lia|unfold NODE_SIZE; lia|lia|intros a Ha; by eapply Hap|].
  constructor; simpl; unfold NODE_SIZE; try done.
  - intros a [Ha|Ha]%Hcov; [auto|]. apply Hrng. done.
  - eauto.
  - eauto.
  - intros b a Hb Ha [Hc|Hc]%Hcov; [exact (Hap b a (Hsub b Hb) Ha Hc)|].
    apply list_elem_of_lookup in Hb as [i Hb]. destruct (Hidx i b Hb) as (j & Hj & Hne & _).
    eapply (Hdis j (length live1)); [done..|exact Ha|]. done.
  - intros i j b b' a Hb Hb' Hij Ha.
    destruct (Hidx i b Hb) as (i' & Hi' & _ & Hi'').
    destruct (Hidx j b' Hb') as (j' & Hj' & _ & Hj'').
    eapply (Hdis i' j'); [done..| |done]. repeat case_decide; lia.
Qed.

Lemma steps_inv st st' : heap_inv st.1.2 st.2 -> rtc heap_step st st' -> heap_inv st'.1.2 st'.2.
Proof.
  intros Hi Hst. induction Hst as [|x y z Hxy _ IH]; [done|]. apply IH. clear IH.
  destruct Hxy as [s h live lsize k s' h' addr Hr Ha Hn|s h live lsize k s' h' Hr Ha|s h l1 l2 addr lsize];
    simpl in *.
  - by destruct (heap_alloc_inv _ _ _ _ _ _ _ _ Hi Hr Ha) as [(_ & _ & ?)|[? _]].
  - by destruct (heap_alloc_inv _ _ _ _ _ _ _ _ Hi Hr Ha) as [[? _]|[_ ?]].
  - by apply dealloc_inv.
Qed.

Lemma heap_init_grow h s : heap_init h s = grow_by INITIAL_HEAP_PAGES (mkHeap (head_list h) HEAP_VIRTUAL_BASE (mapped h)) s.
Proof. unfold heap_init. reflexivity. Qed.

Lemma heap_init_inv s s1 h1 : heap_init heap_empty s = Some (s1, h1) -> heap_inv h1 [].
Proof.
  assert (heap_inv (mkHeap (head_list heap_empty) HEAP_VIRTUAL_BASE (mapped heap_empty)) []) as H0.
  { constructor; cbn [head_list heap_end heap_empty]; [exact I|unfold HEAP_VIRTUAL_BASE; lia|by intros a Ha%covers_nil|set_solver..|done]. }
  intros Hg. rewrite heap_init_grow in Hg. apply (grow_inv _ _ _ _ _ [] H0) in Hg as [Hi _]; [exact Hi|unfold INITIAL_HEAP_PAGES; lia|].
  cbn [heap_end]. unfold HEAP_VIRTUAL_BASE, INITIAL_HEAP_PAGES, PAGE_SIZE. lia.
Qed.

(** C9. Memory safety of the allocator: from the initialised heap on, in every sequence of allocations and
    frees by well-behaved clients (frees name live blocks with the layout they
    were requested with; sizes do not wrap the address space), whatever the
    page source does, no two live blocks share a byte, no byte of a live block is
    on the free list, and every live block and every free region lies inside the heap
    window, between its base address and the end of what has been mapped. *)
Theorem heap_live_blocks_disjoint s s1 h1 s2 h2 live :
  heap_init heap_empty s = Some (s1, h1) -> rtc heap_step (s1, h1, []) (s2, h2, live) ->
  (forall i j b b' a, live !! i = Some b -> live !! j = Some b' -> i <> j -> block_covers b a -> ~ block_covers b' a) /\
  (forall b a, b ∈ live -> block_covers b a -> ~ covers (head_list h2) a) /\
  (forall b a, b ∈ live -> block_covers b a -> HEAP_VIRTUAL_BASE <= a < heap_end h2) /\
  (forall a, covers (head_list h2) a -> HEAP_VIRTUAL_BASE <= a < heap_end h2) /\ heap_end h2 < 2 ^ 64.
Proof.
  intros Hi Hst. destruct (steps_inv _ _ (heap_init_inv _ _ _ Hi : heap_inv (s1, h1, []).1.2 (s1, h1, []).2) Hst) as [_ He Hf Hl _ Ha Hd].
  split; [done|]. split; [done|]. split; [done|]. split; [done|]. apply He.
Qed.

Lemma grow_fits pages h s s1 m live k size :
  heap_inv h live -> 0 <= k < 64 -> 0 < size -> size + 2 ^ k <= pages * PAGE_SIZE ->
  heap_end h + pages * PAGE_SIZE + 2 ^ k + size < 2 ^ 64 ->
  map_pages (Z.to_nat pages) (heap_end h) (mapped h) s = Some (s1, m, true) ->
  exists h1, grow_by pages h s = Some (s1, h1) /\
    is_Some (find_and_remove size (2 ^ k) (head_list h1)).
Proof.
  intros Hi Hk Hsz Hpg Hov Hm. assert (0 < 2 ^ k) by (apply Z.pow_pos_nonneg; lia).
  pose proof (hi_end _ _ Hi) as He. unfold PAGE_SIZE, HEAP_VIRTUAL_BASE in *.
  assert (exists h1, grow_by pages h s = Some (s1, h1)) as [h1 Hg]
    by (unfold grow_by; rewrite Hm; simpl; eauto).
  destruct (grow_inv pages h s s1 h1 live) as [Hi1 Hend]; [done|lia|unfold PAGE_SIZE; lia|done|].
  exists h1. split; [done|]. unfold PAGE_SIZE in *.
  assert (forall a, heap_end h <= a < heap_end h + pages * 4096 -> covers (head_list h1) a) as Hcov.
  { unfold grow_by in Hg. rewrite Hm in Hg. cbn [mbind option_bind] in Hg. simplify_eq. simpl.
    unfold PAGE_SIZE. rewrite u64_id by lia. intros a Ha.
    destruct (add_free_region_spec (heap_end h) (pages * 4096) (head_list h)) as [_ Hc];
      [apply Hi|lia|unfold NODE_SIZE; lia|lia| |apply Hc; by right].
    intros a' Ha' Hc'. apply (hi_free_lo _ _ Hi) in Hc'. lia. }
  destruct (contiguous_node 0 (head_list h1) (heap_end h) (heap_end h + pages * 4096))
    as (n & Hn & Hlo & Hhi); [apply Hi1|lia|done|].
  pose proof (heap_inv_chain_end _ _ Hi1) as Hce.
  pose proof (find_fit_spec k size [] (head_list h1) (hi_ok _ _ Hi1) Hk Hsz) as Hs.
  simpl in Hs. specialize (Hs ltac:(lia)). unfold find_and_remove.
  destruct (find_fit [] (head_list h1) size (2 ^ k)) as [[l start]|]; [eauto|]. exfalso.
  specialize (Hs n Hn). destruct (chain_elem _ _ _ (hi_ok _ _ Hi1) Hn) as (H1 & H2 & H3).
  destruct (align_up_least n.1 k) as ((? & ?) & _); [lia|lia|lia|].
  change (align_up n.1 (2 ^ k)) with (heap_align_up n.1 (2 ^ k)) in *. lia.
Qed.

(** An allocation only fails for lack of physical memory: if the page
    source can deliver the pages one growth step asks for, [alloc] returns a
    non-null, suitably aligned block. *)
Theorem heap_alloc_succeeds lsize k h s live :
  heap_inv h live -> request_ok h lsize k ->
  (forall n m, exists s1 m1, map_pages n (heap_end h) m s = Some (s1, m1, true)) ->
  exists s' h' addr, heap_alloc lsize (2 ^ k) h s = Some (s', h', addr) /\ addr <> 0 /\
    (2 ^ k | addr) /\ heap_inv h' ((addr, lsize) :: live).
Proof.
  intros Hi (Hl & Hk & Hov) Hsrc. unfold heap_alloc. rewrite max_align by lia.
  pose proof (hi_end _ _ Hi) as He. unfold HEAP_VIRTUAL_BASE in He.
  assert (0 < Z.max lsize NODE_SIZE) as Hsz by (unfold NODE_SIZE; lia).
  set (K := Z.max k 3) in *. assert (0 < 2 ^ K) by (apply Z.pow_pos_nonneg; lia).
  assert (forall x, (2 ^ K | x) -> (2 ^ k | x)) as Hdiv.
  { intros x Hx. etrans; [|exact Hx]. exists (2 ^ (K - k)). rewrite <- Z.pow_add_r by lia. f_equal. lia. }
  destruct (find_and_remove _ (2 ^ K) (head_list h)) as [[l st]|] eqn:Hf.
  { destruct (find_hit_inv h live l st lsize K (mapped h)) as (? & ? & ?); [done|lia|lia|done|].
    eauto 10. }
  destruct (grow_pages_bounds (Z.max lsize NODE_SIZE) (2 ^ K)) as [Hpg1 Hpg2]; [lia..|].
  set (pages := Z.max (_ / PAGE_SIZE) 256) in *.
  destruct (Hsrc (Z.to_nat pages) (mapped h)) as (s1 & m1 & Hm).
  destruct (grow_fits pages h s s1 m1 live K (Z.max lsize NODE_SIZE)) as (h1 & Hg & [[l st] Hf1]);
    [done|lia|lia|lia|lia|done|].
  rewrite Hg. cbn [mbind option_bind]. rewrite Hf1.
  destruct (grow_inv pages h s s1 h1 live) as [Hi1 Hend]; [done|lia|lia|done|].
  destruct (find_hit_inv h1 live l st lsize K (mapped h1)) as (? & ? & ?); [done|lia|lia|done|].
  eauto 10.
Qed.
End clients.

(** ** Concrete heaps *)

Module HeapWitness.

(** The heap right after [heap::init]: one 8 MiB region. *)
Definition h0 : LockedHeap :=
  mkHeap [(HEAP_VIRTUAL_BASE, INITIAL_HEAP_PAGES * PAGE_SIZE)]
    (HEAP_VIRTUAL_BASE + INITIAL_HEAP_PAGES * PAGE_SIZE) [].

Ltac heap_num :=
  cbn; unfold HEAP_VIRTUAL_BASE, INITIAL_HEAP_PAGES, PAGE_SIZE, NODE_SIZE; lia.

(** A page source that never runs out. *)
#[local] Instance counter_source : PageSource Z := fun n => Some (n + 1, (Z.abs n + 1) * PAGE_SIZE).

Lemma h0_ok : heap_ok (head_list h0).
Proof. heap_num. Qed.

Lemma h0_inv : heap_inv h0 [].
Proof.
  constructor; [apply h0_ok|heap_num| |set_solver..|done].
  intros a. simpl. rewrite covers_cons, covers_nil. unfold HEAP_VIRTUAL_BASE, INITIAL_HEAP_PAGES, PAGE_SIZE. lia.
Qed.

Lemma add_free_region_witness :
  add_free_region 0x1040 16 [(0x1000, 32); (0x1080, 64)] = [(0x1000, 32); (0x1040, 16); (0x1080, 64)] /\
  heap_ok (add_free_region 0x1040 16 [(0x1000, 32); (0x1080, 64)]).
Proof.
  split; [reflexivity|].
  apply (add_free_region_exact 0x1040 16 [(0x1000, 32); (0x1080, 64)]); try heap_num.
  intros a Ha. rewrite !covers_cons, covers_nil. lia.
Defined.

Lemma find_and_remove_witness :
  match find_and_remove 24 (2 ^ 6) (head_list h0) with
  | Some (l', start) => (2 ^ 6 | start) /\ takes (head_list h0) start 24 l'
  | None => forall n, n ∈ head_list h0 -> n.1 + n.2 < heap_align_up n.1 (2 ^ 6) + 24
  end.
Proof.
  apply (find_and_remove_exact 6 24 (head_list h0)); [apply h0_ok|lia|lia|vm_compute; reflexivity].
Defined.

Lemma h0_request : request_ok h0 24 4.
Proof. red. split_and!; [lia|lia|lia|vm_compute; reflexivity]. Qed.

Lemma counter_maps n v m s : exists s1 m1, map_pages n v m s = Some (s1, m1, true).
Proof.
  revert v m s. induction n as [|n IH]; intros v m s; simpl; [eauto|].
  destruct ((Z.abs s + 1) * PAGE_SIZE =? 0) eqn:He; [|apply IH].
  bool_to_prop. unfold PAGE_SIZE in He. lia.
Qed.

(** The heap after [init] on that page source. *)
Lemma counter_init : exists s1 m, heap_init heap_empty 0 = Some (s1, mkHeap (head_list h0) (heap_end h0) m).
Proof.
  unfold heap_init, grow_by. destruct (counter_maps (Z.to_nat INITIAL_HEAP_PAGES) (heap_end (mkHeap (head_list heap_empty) HEAP_VIRTUAL_BASE (mapped heap_empty))) (mapped heap_empty) 0) as (s1 & m & E).
  exists s1, m. cbn [mapped]. rewrite E. reflexivity.
Qed.

(** A block is allocated: it lies in the window and is not free. *)
Lemma heap_live_witness : exists s1 h1 l, heap_init heap_empty 0 = Some (s1, h1) /\ rtc heap_step (s1, h1, []) (s1, mkHeap l (heap_end h1) (mapped h1), [(HEAP_VIRTUAL_BASE, 24)]) /\
  ~ covers l (HEAP_VIRTUAL_BASE + 23) /\ HEAP_VIRTUAL_BASE + 23 < heap_end h1.
Proof.
  destruct counter_init as (s1 & m & E). set (h1 := mkHeap (head_list h0) (heap_end h0) m) in *.
  exists s1, h1, [(HEAP_VIRTUAL_BASE + 24, INITIAL_HEAP_PAGES * PAGE_SIZE - 24)].
  assert (rtc heap_step (s1, h1, []) (s1, mkHeap [(HEAP_VIRTUAL_BASE + 24, INITIAL_HEAP_PAGES * PAGE_SIZE - 24)] (heap_end h1) (mapped h1), [(HEAP_VIRTUAL_BASE, 24)])) as Hst.
  { eapply rtc_l; [|apply rtc_refl]. eapply (step_alloc s1 h1 [] 24 4); [apply h0_request|vm_compute; reflexivity|vm_compute; discriminate]. }
  assert (block_covers (HEAP_VIRTUAL_BASE, 24) (HEAP_VIRTUAL_BASE + 23)) as Hb by (unfold block_covers, NODE_SIZE; cbn; lia).
  destruct (heap_live_blocks_disjoint 0 s1 h1 s1 _ [(HEAP_VIRTUAL_BASE, 24)] E Hst) as (_ & H2 & H3 & _ & _).
  split; [exact E|]. split; [exact Hst|]. split; [apply (H2 (HEAP_VIRTUAL_BASE, 24)); [left|exact Hb]|apply (H3 (HEAP_VIRTUAL_BASE, 24)); [left|exact Hb]].
Defined.

Lemma heap_alloc_witness :
  exists s' h' addr, heap_alloc 24 (2 ^ 4) h0 0 = Some (s', h', addr) /\ addr <> 0.
Proof.
  destruct (heap_alloc_succeeds 24 4 h0 0 []) as (s' & h' & addr & H1 & H2 & _).
  - apply h0_inv.
  - apply h0_request.
  - intros. apply counter_maps.
  - eauto.
Defined.

(** The fit test wraps: the heap window starts 2^40 bytes below the end of
    the address space, and for a request of 2^40 bytes [alloc_start + size]
    overflows to a small number, so the test passes and the 8 MiB region is
    handed out as a 1 TiB block -- none of whose bytes past 8 MiB is free. *)
Theorem huge_request_wraps :
  exists h', heap_alloc (2 ^ 40) 8 h0 0 = Some (0, h', HEAP_VIRTUAL_BASE) /\
    ~ covers (head_list h0) (HEAP_VIRTUAL_BASE + 2 ^ 40 - 1).
Proof.
  assert (exists l, find_and_remove (2 ^ 40) 8 (head_list h0) = Some (l, HEAP_VIRTUAL_BASE)) as [l Hl].
  { eexists. vm_compute. reflexivity. }
  unfold heap_alloc. change (Z.max (2 ^ 40) NODE_SIZE) with (2 ^ 40). change (Z.max 8 8) with 8.
  rewrite Hl. eexists. split; [reflexivity|].
  unfold h0. cbn [head_list]. rewrite covers_cons, covers_nil.
  unfold HEAP_VIRTUAL_BASE, INITIAL_HEAP_PAGES, PAGE_SIZE. lia.
Qed.

End HeapWitness.
