(* ===== verification/Ipc.v ===== *)
(** * Inter-process communication ([kernel_rs/src/ipc.rs])

    Endpoints carry two independent protocols.  The fire-and-forget mailbox
    ([try_send], [try_receive]) is a ring buffer of [QUEUE_DEPTH] messages; here are
    the whole handlers, capability check and audit record included, as calls on
    one endpoint that do not overlap, shown to refine a bounded FIFO queue.  The
    code takes no lock: [Mailbox] models the same calls access by access and says
    when an overlap is harmless.  The blocking rendezvous ([send],
    [receive]) is modelled at the granularity of its atomic loads and stores, one
    step function per side, so that a schedule is a list of steps. *)

From S2P Require Import Prelude AuditLog Capability.

Definition Message := list Z.
Definition message_default : Message := [0; 0; 0; 0].

Definition STATE_IDLE : Z := 0.
Definition STATE_MESSAGE_PENDING : Z := 1.
Definition STATE_MESSAGE_TAKEN : Z := 2.
Definition QUEUE_DEPTH : nat := 32.

Record Endpoint := mkEndpoint {
  ep_state : Z; ep_message : Message;
  q_head : Z; q_tail : Z; q_len : Z; q_slots : list Message }.

Definition endpoint_new : Endpoint :=
  mkEndpoint STATE_IDLE message_default 0 0 0 (replicate QUEUE_DEPTH message_default).

Record EndpointSlot := mkSlot { slot_object_id : Z; slot_endpoint : Endpoint }.

(** The kernel with its endpoint table. *)
Record ipc := mkIpc { KERNEL : kernel; ENDPOINTS : list EndpointSlot }.

Definition set_kernel (k : kernel) (s : ipc) : ipc := mkIpc k (ENDPOINTS s).

(** [find_endpoint_mut]: the position of the first slot of the object. *)
Fixpoint find_slot (oid : Z) (l : list EndpointSlot) : option nat :=
  match l with
  | [] => None
  | s :: l' => if slot_object_id s =? oid then Some 0%nat else S <$> find_slot oid l'
  end.

Definition find_endpoint (oid : Z) (s : ipc) : option (nat * Endpoint) :=
  i ← find_slot oid (ENDPOINTS s);
  sl ← ENDPOINTS s !! i;
  Some (i, slot_endpoint sl).

(** Writing through the reference [find_endpoint_mut] returned. *)
Definition set_endpoint (i : nat) (ep : Endpoint) (s : ipc) : ipc :=
  mkIpc (KERNEL s) (alter (fun sl => mkSlot (slot_object_id sl) ep) i (ENDPOINTS s)).

Definition create_endpoint (t : CapabilityTable) (rs : Z) (s : ipc)
  : ipc * CapabilityTable * Z :=
  let '(k, object_id) := create_object IpcEndpoint (KERNEL s) in
  let '(k, t, id) := grant t object_id rs k in
  (mkIpc k (ENDPOINTS s ++ [mkSlot object_id endpoint_new]), t, id).

Inductive IpcError := Cap (e : CapError) | EndpointNotFound.

(** ** The mailbox

    The effect of a call during which no other call touches the endpoint. *)

(** [ep.q_slots[head] = msg] panics out of range. *)
Definition enqueue (msg : Message) (ep : Endpoint) : option (Endpoint * bool) :=
  let len := q_len ep in
  if (QUEUE_DEPTH <=? Z.to_nat len)%nat then Some (ep, false) else
  slots ← wbyte (q_slots ep) (Z.to_nat (q_head ep)) msg;
  Some (mkEndpoint (ep_state ep) (ep_message ep)
          (u8 ((q_head ep + 1) mod Z.of_nat QUEUE_DEPTH)) (q_tail ep) (u8 (len + 1)) slots, true).

Definition dequeue (ep : Endpoint) : option (Endpoint * option Message) :=
  let len := q_len ep in
  if len =? 0 then Some (ep, None) else
  m ← q_slots ep !! Z.to_nat (q_tail ep);
  Some (mkEndpoint (ep_state ep) (ep_message ep) (q_head ep)
          (u8 ((q_tail ep + 1) mod Z.of_nat QUEUE_DEPTH)) (u8 (len - 1)) (q_slots ep), Some m).

Definition try_send (t : CapabilityTable) (cap_id : Z) (msg : Message) (s : ipc)
  : option (ipc * result bool IpcError) :=
  let '(k, r) := resolve t cap_id SEND (KERNEL s) in
  let s := set_kernel k s in
  match r with
  | Err e => Some (s, Err (Cap e))
  | Ok cap =>
      match find_endpoint (object_id cap) s with
      | None => Some (s, Err EndpointNotFound)
      | Some (i, ep) =>
          '(ep, enqueued) ← enqueue msg ep;
          let s := set_endpoint i ep s in
          let s := if (enqueued : bool)
                   then set_kernel (audit_record (EvIpcSend (object_id cap)) (KERNEL s)) s else s in
          Some (s, Ok enqueued)
      end
  end.

Definition try_receive_on_object (oid : Z) (s : ipc) : option (ipc * option Message) :=
  match find_endpoint oid s with
  | None => Some (s, None)
  | Some (i, ep) =>
      '(ep, m) ← dequeue ep;
      let s := set_endpoint i ep s in
      match m with
      | None => Some (s, None)
      | Some m => Some (set_kernel (audit_record (EvIpcReceive oid) (KERNEL s)) s, Some m)
      end
  end.

Definition try_receive (t : CapabilityTable) (cap_id : Z) (s : ipc)
  : option (ipc * result (option Message) IpcError) :=
  let '(k, r) := resolve t cap_id RECEIVE (KERNEL s) in
  let s := set_kernel k s in
  match r with
  | Err e => Some (s, Err (Cap e))
  | Ok cap => '(s, m) ← try_receive_on_object (object_id cap) s; Some (s, Ok m)
  end.

(** ** The rendezvous

    One call of [send] or [receive], as the points between its accesses to the
    shared state: the capability check, each load and store of the endpoint's
    [state] and [message] fields, and the audit record.  A waiting loop is a
    point that steps to itself.  The reference [find_endpoint_mut] returned is the
    index of the slot: the endpoint is boxed and slots are only ever appended. *)

Inductive send_pc :=
  | SResolve                         (* table.resolve, find_endpoint_mut *)
  | SWaitIdle (oid : Z) (i : nat)    (* while state != IDLE *)
  | SWrite (oid : Z) (i : nat)       (* ep.message = msg *)
  | SPost (oid : Z) (i : nat)        (* state.store(PENDING) *)
  | SAudit (oid : Z)                 (* audit::record(IpcSend) *)
  | SRefind (oid : Z)                (* the second find_endpoint_mut *)
  | SWaitTaken (i : nat)             (* while state != TAKEN *)
  | SReset (i : nat)                 (* state.store(IDLE) *)
  | SRet (r : result unit IpcError).

Inductive recv_pc :=
  | RResolve
  | RWaitPending (oid : Z) (i : nat)           (* while state != PENDING *)
  | RRead (oid : Z) (i : nat)                  (* let m = ep.message *)
  | RTake (oid : Z) (i : nat) (m : Message)    (* state.store(TAKEN) *)
  | RAudit (oid : Z) (m : Message)             (* audit::record(IpcReceive) *)
  | RRet (r : result Message IpcError).

Definition set_state (v : Z) (ep : Endpoint) : Endpoint :=
  mkEndpoint v (ep_message ep) (q_head ep) (q_tail ep) (q_len ep) (q_slots ep).
Definition set_message (m : Message) (ep : Endpoint) : Endpoint :=
  mkEndpoint (ep_state ep) m (q_head ep) (q_tail ep) (q_len ep) (q_slots ep).

Definition endpoint_at (s : ipc) (i : nat) : option Endpoint := slot_endpoint <$> ENDPOINTS s !! i.
Definition upd_endpoint (i : nat) (f : Endpoint -> Endpoint) (s : ipc) : ipc :=
  mkIpc (KERNEL s) (alter (fun sl => mkSlot (slot_object_id sl) (f (slot_endpoint sl))) i (ENDPOINTS s)).
Definition state_is (s : ipc) (i : nat) (v : Z) : bool :=
  match endpoint_at s i with Some ep => ep_state ep =? v | None => false end.

Definition send_step (t : CapabilityTable) (cap_id : Z) (msg : Message) (pc : send_pc) (s : ipc)
  : send_pc * ipc :=
  match pc with
  | SResolve =>
      let '(k, r) := resolve t cap_id SEND (KERNEL s) in
      let s := set_kernel k s in
      match r with
      | Err e => (SRet (Err (Cap e)), s)
      | Ok cap =>
          match find_endpoint (object_id cap) s with
          | None => (SRet (Err EndpointNotFound), s)
          | Some (i, _) => (SWaitIdle (object_id cap) i, s)
          end
      end
  | SWaitIdle oid i => (if state_is s i STATE_IDLE then SWrite oid i else pc, s)
  | SWrite oid i => (SPost oid i, upd_endpoint i (set_message msg) s)
  | SPost oid i => (SAudit oid, upd_endpoint i (set_state STATE_MESSAGE_PENDING) s)
  | SAudit oid => (SRefind oid, set_kernel (audit_record (EvIpcSend oid) (KERNEL s)) s)
  | SRefind oid =>
      match find_endpoint oid s with
      | None => (SRet (Err EndpointNotFound), s)
      | Some (i, _) => (SWaitTaken i, s)
      end
  | SWaitTaken i => (if state_is s i STATE_MESSAGE_TAKEN then SReset i else pc, s)
  | SReset i => (SRet (Ok tt), upd_endpoint i (set_state STATE_IDLE) s)
  | SRet r => (SRet r, s)
  end.

Definition recv_step (t : CapabilityTable) (cap_id : Z) (pc : recv_pc) (s : ipc)
  : recv_pc * ipc :=
  match pc with
  | RResolve =>
      let '(k, r) := resolve t cap_id RECEIVE (KERNEL s) in
      let s := set_kernel k s in
      match r with
      | Err e => (RRet (Err (Cap e)), s)
      | Ok cap =>
          match find_endpoint (object_id cap) s with
          | None => (RRet (Err EndpointNotFound), s)
          | Some (i, _) => (RWaitPending (object_id cap) i, s)
          end
      end
  | RWaitPending oid i => (if state_is s i STATE_MESSAGE_PENDING then RRead oid i else pc, s)
  | RRead oid i =>
      (RTake oid i (match endpoint_at s i with Some ep => ep_message ep | None => message_default end), s)
  | RTake oid i m => (RAudit oid m, upd_endpoint i (set_state STATE_MESSAGE_TAKEN) s)
  | RAudit oid m => (RRet (Ok m), set_kernel (audit_record (EvIpcReceive oid) (KERNEL s)) s)
  | RRet r => (RRet r, s)
  end.

(** ** The mailbox as a queue *)

(** The messages waiting, oldest first. *)
Definition queue_of (ep : Endpoint) : list Message :=
  (fun i => default message_default (q_slots ep !! Z.to_nat ((q_tail ep + Z.of_nat i) mod 32)))
  <$> seq 0 (Z.to_nat (q_len ep)).

Record ep_ok (ep : Endpoint) : Prop := {
  eo_slots : length (q_slots ep) = 32%nat;
  eo_tail : 0 <= q_tail ep < 32;
  eo_len : 0 <= q_len ep <= 32;
  eo_head : q_head ep = (q_tail ep + q_len ep) mod 32
}.

Lemma endpoint_new_ok : ep_ok endpoint_new.
Proof. by constructor. Qed.

Lemma mod32_inj t i j : 0 <= i < 32 -> 0 <= j < 32 -> (t + i) mod 32 = (t + j) mod 32 -> i = j.
Proof. intros. Z.div_mod_to_equations. lia. Qed.

Lemma enqueue_spec msg ep :
  ep_ok ep ->
  exists ep', enqueue msg ep = Some (ep', bool_decide (length (queue_of ep) < 32)%nat) /\ ep_ok ep' /\
    queue_of ep' = (if decide (length (queue_of ep) < 32)%nat then queue_of ep ++ [msg] else queue_of ep) /\
    ep_state ep' = ep_state ep /\ ep_message ep' = ep_message ep.
Proof.
  intros [Hsl Ht Hl Hh]. unfold enqueue, QUEUE_DEPTH.
  assert (length (queue_of ep) = Z.to_nat (q_len ep)) as Hlq
    by (unfold queue_of; by rewrite length_fmap, length_seq).
  rewrite Hlq. destruct (Nat.leb_spec 32 (Z.to_nat (q_len ep))) as [Hfull|Hroom].
  { exists ep. rewrite bool_decide_false, decide_False by lia. by split_and!. }
  rewrite bool_decide_true, decide_True by lia.
  assert (0 <= q_head ep < 32) as Hhr by (rewrite Hh; apply Z.mod_pos_bound; lia).
  unfold wbyte. rewrite decide_True by lia. cbn [mbind option_bind].
  eexists; split; [reflexivity|].
  rewrite (wrap_small 8 (_ mod _)), (wrap_small 8 (q_len ep + 1))
    by (red; pose proof (Z.mod_pos_bound (q_head ep + 1) 32); lia).
  split_and!; [| |done|done].
  - constructor; simpl; [by rewrite length_insert|done|lia|].
    rewrite Hh, Z.add_mod_idemp_l by lia. f_equal. lia.
  - unfold queue_of. cbn [q_slots q_tail q_len].
    replace (Z.to_nat (q_len ep + 1)) with (S (Z.to_nat (q_len ep))) by lia.
    rewrite seq_S, fmap_app. simpl. f_equal.
    + apply list_fmap_ext. intros i x Hi. apply lookup_seq in Hi as [-> Hlt].
      rewrite list_lookup_insert_ne; [done|]. intros Heq%Z2Nat.inj; [|lia|apply Z.mod_pos_bound; lia].
      rewrite Hh in Heq. apply mod32_inj in Heq; lia.
    + rewrite Z2Nat.id by lia. rewrite <- Hh. by rewrite list_lookup_insert_eq by lia.
Qed.

Lemma dequeue_spec ep :
  ep_ok ep ->
  exists ep', dequeue ep = Some (ep', head (queue_of ep)) /\ ep_ok ep' /\
    queue_of ep' = tail (queue_of ep) /\ ep_state ep' = ep_state ep /\ ep_message ep' = ep_message ep.
Proof.
  intros [Hsl Ht Hl Hh]. unfold dequeue. destruct (q_len ep =? 0) eqn:He; bool_to_prop.
  { exists ep. unfold queue_of. rewrite He. by split_and!. }
  assert (Z.to_nat (q_len ep) = S (Z.to_nat (q_len ep - 1))) as Hn by lia.
  assert (queue_of ep = default message_default (q_slots ep !! Z.to_nat (q_tail ep)) ::
    ((fun i => default message_default (q_slots ep !! Z.to_nat ((q_tail ep + 1 + Z.of_nat i) mod 32)))
      <$> seq 0 (Z.to_nat (q_len ep - 1)))) as Hq.
  { unfold queue_of. rewrite Hn, <- cons_seq. cbn [fmap list_fmap]. f_equal.
    - rewrite Z.add_0_r, Z.mod_small by lia. done.
    - rewrite <- fmap_S_seq, <- list_fmap_compose. apply list_fmap_ext. intros i x _. simpl.
      do 4 f_equal. lia. }
  rewrite Hq. destruct (lookup_lt_is_Some_2 (q_slots ep) (Z.to_nat (q_tail ep)) ltac:(lia)) as [m Hm].
  rewrite Hm. cbn [mbind option_bind default]. eexists; split; [reflexivity|].
  unfold QUEUE_DEPTH. change (Z.of_nat 32) with 32.
  pose proof (Z.mod_pos_bound (q_tail ep + 1) 32 ltac:(lia)).
  rewrite (wrap_small 8 (_ mod _)), (wrap_small 8 (q_len ep - 1)) by (red; lia).
  split_and!; [| |done|done].
  - constructor; simpl; [done|lia|lia|]. rewrite Hh, Z.add_mod_idemp_l by lia. f_equal. lia.
  - unfold queue_of. cbn [q_slots q_tail q_len tail]. apply list_fmap_ext. intros i x _.
    rewrite Z.add_mod_idemp_l by lia. done.
Qed.

(** ** The handlers against the queues *)

(** The abstract state: the queue of each endpoint. *)
Definition queues (s : ipc) (oid : Z) : option (list Message) :=
  '(_, ep) ← find_endpoint oid s; Some (queue_of ep).

Definition ipc_ok (s : ipc) : Prop := Forall (fun sl => ep_ok (slot_endpoint sl)) (ENDPOINTS s).

Lemma find_slot_Some oid l i :
  find_slot oid l = Some i -> exists sl, l !! i = Some sl /\ slot_object_id sl = oid.
Proof.
  revert i. induction l as [|sl l IH]; intros i; simpl; [done|].
  destruct (slot_object_id sl =? oid) eqn:He; bool_to_prop; [by intros [= <-]; exists sl|].
  intros (j & Hj & ->)%fmap_Some. apply (IH j Hj).
Qed.

(** Updating an endpoint in place keeps every lookup's answer. *)
Lemma find_slot_alter oid l i f :
  find_slot oid (alter (fun sl => mkSlot (slot_object_id sl) (f (slot_endpoint sl))) i l) = find_slot oid l.
Proof.
  revert i. induction l as [|sl l IH]; intros i; [by destruct i|].
  destruct i; simpl; [done|]. destruct (_ =? _); [done|]. f_equal. apply IH.
Qed.

Lemma find_slot_unique oid oid' l i :
  find_slot oid l = Some i -> find_slot oid' l = Some i -> oid = oid'.
Proof.
  intros (sl & H & <-)%find_slot_Some (sl' & H' & <-)%find_slot_Some. congruence.
Qed.

Lemma find_endpoint_upd oid s i f :
  find_endpoint oid (upd_endpoint i f s) =
  '(j, ep) ← find_endpoint oid s; Some (j, if decide (j = i) then f ep else ep).
Proof.
  unfold find_endpoint, upd_endpoint. cbn [ENDPOINTS]. rewrite find_slot_alter.
  destruct (find_slot oid (ENDPOINTS s)) as [j|]; simpl; [|done].
  destruct (decide (j = i)) as [->|Hne].
  - rewrite list_lookup_alter_eq. by destruct (ENDPOINTS s !! i); simpl; rewrite ?decide_True by done.
  - rewrite list_lookup_alter_ne by done. destruct (ENDPOINTS s !! j); simpl; [|done].
    by rewrite decide_False by done.
Qed.

Lemma set_endpoint_upd i ep s : set_endpoint i ep s = upd_endpoint i (fun _ => ep) s.
Proof. done. Qed.

Lemma find_endpoint_kernel oid k s : find_endpoint oid (set_kernel k s) = find_endpoint oid s.
Proof. done. Qed.

Lemma find_endpoint_ok oid s i ep : ipc_ok s -> find_endpoint oid s = Some (i, ep) -> ep_ok ep.
Proof.
  intros Hs H. unfold find_endpoint in H. destruct (find_slot oid (ENDPOINTS s)) as [j|]; [|done]. simpl in H.
  destruct (ENDPOINTS s !! j) as [sl|] eqn:Hsl; [|done]. simpl in H. injection H as <- <-.
  exact (Forall_lookup_1 _ _ _ _ Hs Hsl).
Qed.

Lemma ipc_ok_upd i ep s : ipc_ok s -> ep_ok ep -> ipc_ok (upd_endpoint i (fun _ => ep) s).
Proof.
  intros Hs He. apply Forall_lookup. intros j sl. unfold upd_endpoint. cbn [ENDPOINTS].
  destruct (decide (i = j)) as [->|Hne].
  - rewrite list_lookup_alter_eq. by intros (sl' & _ & ->)%fmap_Some.
  - rewrite list_lookup_alter_ne by done. apply (Forall_lookup_1 _ _ _ _ Hs).
Qed.

Lemma find_endpoint_unique oid oid' s i ep ep' :
  find_endpoint oid s = Some (i, ep) -> find_endpoint oid' s = Some (i, ep') -> oid = oid'.
Proof.
  unfold find_endpoint. intros H H'. bind_inv. by eapply find_slot_unique.
Qed.

Lemma queues_upd oid s i ep ep' oid' :
  find_endpoint oid s = Some (i, ep) ->
  queues (upd_endpoint i (fun _ => ep') s) oid' =
  if decide (oid' = oid) then Some (queue_of ep') else queues s oid'.
Proof.
  intros Hf. unfold queues. rewrite find_endpoint_upd. case_decide as Ho.
  - subst oid'. rewrite Hf. simpl. by rewrite decide_True by done.
  - destruct (find_endpoint oid' s) as [[j ep2]|] eqn:Hf2; simpl; [|done].
    rewrite decide_False; [done|]. intros ->. apply Ho. by eapply find_endpoint_unique.
Qed.

Lemma queues_find oid s r : find_endpoint oid s = r -> queues s oid = '(_, ep) ← r; Some (queue_of ep).
Proof. by intros <-. Qed.

(** The abstract mailbox: what a handler does to the queues. *)
Definition spec_send (r : result Capability CapError) (msg : Message) (q : Z -> option (list Message))
  : (Z -> option (list Message)) * result bool IpcError :=
  match r with
  | Err e => (q, Err (Cap e))
  | Ok cap =>
      match q (object_id cap) with
      | None => (q, Err EndpointNotFound)
      | Some ms =>
          if decide (length ms < QUEUE_DEPTH)%nat
          then (fun o => if decide (o = object_id cap) then Some (ms ++ [msg]) else q o, Ok true)
          else (q, Ok false)
      end
  end.

Definition spec_receive (r : result Capability CapError) (q : Z -> option (list Message))
  : (Z -> option (list Message)) * result (option Message) IpcError :=
  match r with
  | Err e => (q, Err (Cap e))
  | Ok cap =>
      match q (object_id cap) with
      | Some (m :: ms) => (fun o => if decide (o = object_id cap) then Some ms else q o, Ok (Some m))
      | _ => (q, Ok None)
      end
  end.

Lemma try_send_queues s t cid msg :
  ipc_ok s ->
  exists s' r, try_send t cid msg s = Some (s', r) /\ ipc_ok s' /\
    r = (spec_send (resolve t cid SEND (KERNEL s)).2 msg (queues s)).2 /\
    (forall o, queues s' o = (spec_send (resolve t cid SEND (KERNEL s)).2 msg (queues s)).1 o).
Proof.
  intros Hs. unfold try_send, spec_send.
  destruct (resolve t cid SEND (KERNEL s)) as [k [cap|e]]; simpl; [|eexists _, _; by split_and!].
  rewrite find_endpoint_kernel.
  destruct (find_endpoint (object_id cap) s) as [[i ep]|] eqn:Hf; rewrite (queues_find _ _ _ Hf); simpl; [|eexists _, _; by split_and!].
  destruct (enqueue_spec msg ep (find_endpoint_ok _ _ _ _ Hs Hf)) as (ep' & -> & Hok & Hq & _). simpl.
  eexists _, _. split; [reflexivity|]. rewrite set_endpoint_upd. unfold QUEUE_DEPTH.
  case_decide as Hd.
  - rewrite bool_decide_true by done. split_and!; [by apply (ipc_ok_upd i ep' s)|done|].
    intros o. rewrite <- Hq. exact (queues_upd _ s i ep ep' o Hf).
  - rewrite bool_decide_false by done. split_and!; [by apply (ipc_ok_upd i ep' s)|done|].
    intros o. etransitivity; [exact (queues_upd _ s i ep ep' o Hf)|]. case_decide; [|done].
    subst o. simpl. rewrite Hq. by rewrite (queues_find _ _ _ Hf).
Qed.

Lemma try_receive_queues s t cid :
  ipc_ok s ->
  exists s' r, try_receive t cid s = Some (s', r) /\ ipc_ok s' /\
    r = (spec_receive (resolve t cid RECEIVE (KERNEL s)).2 (queues s)).2 /\
    (forall o, queues s' o = (spec_receive (resolve t cid RECEIVE (KERNEL s)).2 (queues s)).1 o).
Proof.
  intros Hs. unfold try_receive, spec_receive, try_receive_on_object.
  destruct (resolve t cid RECEIVE (KERNEL s)) as [k [cap|e]]; simpl; [|eexists _, _; by split_and!].
  rewrite find_endpoint_kernel.
  destruct (find_endpoint (object_id cap) s) as [[i ep]|] eqn:Hf; rewrite (queues_find _ _ _ Hf); simpl; [|eexists _, _; by split_and!].
  destruct (dequeue_spec ep (find_endpoint_ok _ _ _ _ Hs Hf)) as (ep' & -> & Hok & Hq & _). simpl.
  rewrite set_endpoint_upd. destruct (queue_of ep) as [|m ms] eqn:Hqe; simpl;
    (eexists _, _; split; [reflexivity|]); split_and!; [by apply (ipc_ok_upd i ep' s)|done| |by apply (ipc_ok_upd i ep' s)|done|].
  - intros o. etransitivity; [exact (queues_upd _ s i ep ep' o Hf)|]. case_decide; [|done].
    subst o. simpl. rewrite Hq. rewrite (queues_find _ _ _ Hf). simpl. by rewrite Hqe.
  - intros o. etransitivity; [exact (queues_upd _ s i ep ep' o Hf)|]. by rewrite Hq.
Qed.

(** ** Histories of a mailbox *)

(** A mailbox call by anyone holding any table, or any other kernel activity
    (grants, derivations, revocations, audit records). *)
Inductive mail_op :=
  | MSend (t : CapabilityTable) (cap_id : Z) (msg : Message)
  | MRecv (t : CapabilityTable) (cap_id : Z)
  | MOther (k : kernel).

(** What the callers observed: accepted sends and delivered messages. *)
Inductive mail_event := Accepted (oid : Z) (m : Message) | Delivered (oid : Z) (m : Message).

Definition cap_object (r : result Capability CapError) : Z :=
  match r with Ok cap => object_id cap | Err _ => 0 end.

Definition mail_step (st : ipc * list mail_event) (o : mail_op) : option (ipc * list mail_event) :=
  let '(s, tr) := st in
  match o with
  | MSend t cid msg =>
      '(s', r) ← try_send t cid msg s;
      Some (s', match r with
                | Ok true => tr ++ [Accepted (cap_object (resolve t cid SEND (KERNEL s)).2) msg]
                | _ => tr
                end)
  | MRecv t cid =>
      '(s', r) ← try_receive t cid s;
      Some (s', match r with
                | Ok (Some m) => tr ++ [Delivered (cap_object (resolve t cid RECEIVE (KERNEL s)).2) m]
                | _ => tr
                end)
  | MOther k => Some (set_kernel k s, tr)
  end.

Definition accepted (oid : Z) (tr : list mail_event) : list Message :=
  e ← tr; match e with Accepted o m => if decide (o = oid) then [m] else [] | _ => [] end.
Definition delivered (oid : Z) (tr : list mail_event) : list Message :=
  e ← tr; match e with Delivered o m => if decide (o = oid) then [m] else [] | _ => [] end.

Definition fifo_inv (oid : Z) (q0 : list Message) (st : ipc * list mail_event) : Prop :=
  ipc_ok st.1 /\ exists q, queues st.1 oid = Some q /\ q0 ++ accepted oid st.2 = delivered oid st.2 ++ q.

Lemma mail_step_fifo oid q0 st o :
  fifo_inv oid q0 st -> exists st', mail_step st o = Some st' /\ fifo_inv oid q0 st'.
Proof.
  destruct st as [s tr]. intros [Hs (q & Hq & He)]. cbn [fst snd] in *.
  destruct o as [t cid msg|t cid|k]; simpl.
  - destruct (try_send_queues s t cid msg Hs) as (s' & r & -> & Hok & Hr & Hqs). simpl.
    eexists; split; [reflexivity|]. split; [done|]. cbn [fst snd]. rewrite Hqs. subst r.
    unfold spec_send. destruct (resolve t cid SEND (KERNEL s)).2 as [cap|e]; simpl; [|eauto].
    destruct (queues s (object_id cap)) as [ms|] eqn:Hm; simpl; [|eauto].
    case_decide; simpl; [|eauto]. unfold accepted, delivered. rewrite !bind_app. simpl.
    destruct (decide (oid = object_id cap)) as [->|Hne].
    + rewrite decide_True by done. eexists; split; [done|].
      assert (q = ms) as -> by congruence. simpl. unfold accepted, delivered in He.
      rewrite !app_nil_r, app_assoc, He. by rewrite app_assoc.
    + rewrite decide_False by done. eexists; split; [done|]. by rewrite !app_nil_r.
  - destruct (try_receive_queues s t cid Hs) as (s' & r & -> & Hok & Hr & Hqs). simpl.
    eexists; split; [reflexivity|]. split; [done|]. cbn [fst snd]. rewrite Hqs. subst r.
    unfold spec_receive. destruct (resolve t cid RECEIVE (KERNEL s)).2 as [cap|e]; simpl; [|eauto].
    destruct (queues s (object_id cap)) as [[|m ms]|] eqn:Hm; simpl; [by eauto| |by eauto].
    unfold accepted, delivered. rewrite !bind_app. simpl.
    destruct (decide (oid = object_id cap)) as [->|Hne].
    + rewrite decide_True by done. eexists; split; [done|].
      assert (q = m :: ms) as -> by congruence. simpl. unfold accepted, delivered in He.
      rewrite !app_nil_r, He. by rewrite <- app_assoc.
    + rewrite decide_False by done. eexists; split; [done|]. by rewrite !app_nil_r.
  - eexists; split; [reflexivity|]. split; [done|]. eauto.
Qed.

(** Bounded FIFO delivery.  Whatever sequence of mailbox calls that do not overlap, with whatever
    tables, and of other kernel activity runs, no call panics and for every
    endpoint the messages accepted by [try_send] are those delivered by
    [try_receive], in the same order and each once, followed by the at most 32
    still queued. *)
Theorem mailbox_fifo ops s oid q0 :
  ipc_ok s -> queues s oid = Some q0 ->
  exists s' tr q, foldM mail_step (s, []) ops = Some (s', tr) /\
    ipc_ok s' /\ queues s' oid = Some q /\ (length q <= QUEUE_DEPTH)%nat /\
    q0 ++ accepted oid tr = delivered oid tr ++ q.
Proof.
  intros Hs Hq. destruct (foldM_ind (fifo_inv oid q0) mail_step ops (s, [])) as ([s' tr] & Hr & Hok & q & Hq' & He).
  - split; [done|]. exists q0. by rewrite app_nil_r.
  - intros st o _. apply mail_step_fifo.
  - exists s', tr, q. split_and!; try done. unfold queues in Hq'. bind_inv.
    destruct p as [i ep]. injection Hq' as <-.
    destruct (find_endpoint_ok _ _ _ _ Hok E) as [_ _ Hl _]. unfold queue_of, QUEUE_DEPTH.
    rewrite length_fmap, length_seq. lia.
Qed.

(** The whole handlers, every branch: [try_send] and [try_receive] refine the
    abstract bounded queue.  A failed capability check or an unknown endpoint
    changes no queue, a full queue refuses the message, an empty one answers
    [None], and no endpoint other than the capability's is touched. *)
Theorem mailbox_refines s t cid msg :
  ipc_ok s ->
  (exists s' r, try_send t cid msg s = Some (s', r) /\ ipc_ok s' /\
    r = (spec_send (resolve t cid SEND (KERNEL s)).2 msg (queues s)).2 /\
    (forall o, queues s' o = (spec_send (resolve t cid SEND (KERNEL s)).2 msg (queues s)).1 o)) /\
  (exists s' r, try_receive t cid s = Some (s', r) /\ ipc_ok s' /\
    r = (spec_receive (resolve t cid RECEIVE (KERNEL s)).2 (queues s)).2 /\
    (forall o, queues s' o = (spec_receive (resolve t cid RECEIVE (KERNEL s)).2 (queues s)).1 o)).
Proof. intros Hs. split; [by apply try_send_queues|by apply try_receive_queues]. Qed.

(** ** The rendezvous between one sender and one receiver *)

Section rendezvous.
Context (tS tR : CapabilityTable) (cidS cidR : Z).

(** A thread that sends [rv_todo] one after the other, and one that receives
    for ever.  [rv_sent] and [rv_recv] are what the calls that returned [Ok]
    sent and received, [rv_failed] the errors of the calls that did not. *)
Record rv := mkRv {
  rv_ipc : ipc; rv_todo : list Message; rv_spc : send_pc; rv_sent : list Message;
  rv_rpc : recv_pc; rv_recv : list Message; rv_failed : list IpcError }.

Inductive side := Sender | Receiver.

Definition rv_step (r : rv) (who : side) : rv :=
  match who with
  | Sender =>
      match rv_todo r with
      | [] => r
      | m :: rest =>
          let '(pc, s) := send_step tS cidS m (rv_spc r) (rv_ipc r) in
          match pc with
          | SRet (Ok _) => mkRv s rest SResolve (rv_sent r ++ [m]) (rv_rpc r) (rv_recv r) (rv_failed r)
          | SRet (Err e) => mkRv s rest SResolve (rv_sent r) (rv_rpc r) (rv_recv r) (rv_failed r ++ [e])
          | _ => mkRv s (rv_todo r) pc (rv_sent r) (rv_rpc r) (rv_recv r) (rv_failed r)
          end
      end
  | Receiver =>
      let '(pc, s) := recv_step tR cidR (rv_rpc r) (rv_ipc r) in
      match pc with
      | RRet (Ok m) => mkRv s (rv_todo r) (rv_spc r) (rv_sent r) RResolve (rv_recv r ++ [m]) (rv_failed r)
      | RRet (Err e) => mkRv s (rv_todo r) (rv_spc r) (rv_sent r) RResolve (rv_recv r) (rv_failed r ++ [e])
      | _ => mkRv s (rv_todo r) (rv_spc r) (rv_sent r) pc (rv_recv r) (rv_failed r)
      end
  end.

Definition rv_run (sched : list side) (r : rv) : rv := foldl rv_step r sched.

Definition rv_init (s : ipc) (msgs : list Message) : rv := mkRv s msgs SResolve [] RResolve [] [].

(** The message the receiver has taken but not yet returned. *)
Definition held (pc : recv_pc) : list Message :=
  match pc with RAudit _ m => [m] | _ => [] end.

(** Messages taken off the endpoint so far. *)
Definition taken (r : rv) : list Message := rv_recv r ++ held (rv_rpc r).

Context (capS capR : Capability) (oid : Z) (i : nat).

Definition early (pc : send_pc) : Prop :=
  pc = SResolve \/ pc = SWaitIdle oid i \/ pc = SWrite oid i.
Definition waiting (pc : send_pc) : Prop :=
  pc = SAudit oid \/ pc = SRefind oid \/ pc = SWaitTaken i.
Definition quiet (pc : recv_pc) : Prop :=
  pc = RResolve \/ pc = RWaitPending oid i \/ exists m, pc = RAudit oid m.

(** The protocol phase: which side owns the endpoint. *)
Inductive phase (ep : Endpoint) (r : rv) : Prop :=
  | Idle : early (rv_spc r) -> quiet (rv_rpc r) -> ep_state ep = STATE_IDLE ->
      taken r = rv_sent r -> phase ep r
  | Written m ms : rv_spc r = SPost oid i -> quiet (rv_rpc r) -> ep_state ep = STATE_IDLE ->
      rv_todo r = m :: ms -> ep_message ep = m -> taken r = rv_sent r -> phase ep r
  | Pending m ms : waiting (rv_spc r) -> quiet (rv_rpc r) \/ rv_rpc r = RRead oid i \/ rv_rpc r = RTake oid i m ->
      ep_state ep = STATE_MESSAGE_PENDING -> rv_todo r = m :: ms -> ep_message ep = m ->
      taken r = rv_sent r -> phase ep r
  | Taken m ms : waiting (rv_spc r) \/ rv_spc r = SReset i -> quiet (rv_rpc r) ->
      ep_state ep = STATE_MESSAGE_TAKEN -> rv_todo r = m :: ms ->
      taken r = rv_sent r ++ [m] -> phase ep r.

(** Both capabilities name the endpoint and stay live. *)
Record caps_ok (k : kernel) : Prop := {
  co_S : (resolve tS cidS SEND k).2 = Ok capS; co_So : object_id capS = oid;
  co_R : (resolve tR cidR RECEIVE k).2 = Ok capR; co_Ro : object_id capR = oid }.

Record rv_inv (msgs : list Message) (r : rv) : Prop := {
  ri_ep : exists ep, find_endpoint oid (rv_ipc r) = Some (i, ep) /\ phase ep r;
  ri_caps : caps_ok (KERNEL (rv_ipc r));
  ri_all : rv_sent r ++ rv_todo r = msgs;
  ri_failed : rv_failed r = [] }.

Lemma caps_ok_audit ev k : caps_ok k -> caps_ok (audit_record ev k).
Proof using Type.
  intros [HS ? HR ?]. apply resolve_Ok in HS, HR. split; [by apply resolve_Ok|done|by apply resolve_Ok|done].
Qed.

Lemma endpoint_at_find s ep : find_endpoint oid s = Some (i, ep) -> endpoint_at s i = Some ep.
Proof using Type.
  unfold find_endpoint, endpoint_at. destruct (find_slot oid (ENDPOINTS s)) as [j|]; [|done]. simpl.
  destruct (ENDPOINTS s !! j) as [sl|] eqn:Hs; simpl; [|done]. intros [= <- <-]. by rewrite Hs.
Qed.

Lemma state_is_find s ep v : find_endpoint oid s = Some (i, ep) -> state_is s i v = (ep_state ep =? v).
Proof using Type. intros H%endpoint_at_find. unfold state_is. by rewrite H. Qed.

Lemma find_upd s ep f :
  find_endpoint oid s = Some (i, ep) -> find_endpoint oid (upd_endpoint i f s) = Some (i, f ep).
Proof using Type. intros H. rewrite find_endpoint_upd, H. simpl. by rewrite decide_True. Qed.

Lemma set_kernel_same s : set_kernel (KERNEL s) s = s.
Proof using Type. by destruct s. Qed.

Lemma send_resolve_step s ep m :
  caps_ok (KERNEL s) -> find_endpoint oid s = Some (i, ep) ->
  send_step tS cidS m SResolve s = (SWaitIdle oid i, s).
Proof using Type.
  intros [HS Ho _ _] Hf. simpl. pose proof (resolve_kernel tS cidS SEND (KERNEL s)) as Hk.
  rewrite HS in Hk. destruct (resolve tS cidS SEND (KERNEL s)) as [k r]. simpl in *. subst k r.
  by rewrite set_kernel_same, Ho, Hf.
Qed.

Lemma recv_resolve_step s ep :
  caps_ok (KERNEL s) -> find_endpoint oid s = Some (i, ep) ->
  recv_step tR cidR RResolve s = (RWaitPending oid i, s).
Proof using Type.
  intros [_ _ HR Ho] Hf. simpl. pose proof (resolve_kernel tR cidR RECEIVE (KERNEL s)) as Hk.
  rewrite HR in Hk. destruct (resolve tR cidR RECEIVE (KERNEL s)) as [k r]. simpl in *. subst k r.
  by rewrite set_kernel_same, Ho, Hf.
Qed.

Lemma rv_inv_sender msgs r : rv_inv msgs r -> rv_inv msgs (rv_step r Sender).
Proof using Type.
  intros Hinv. destruct Hinv as [(ep & Hf & Hp) Hc Ha He0]. unfold rv_step.
  destruct r as [s todo spc sent rpc recv failed]. cbn [rv_ipc rv_todo rv_spc rv_sent rv_rpc rv_recv rv_failed] in *.
  destruct todo as [|m ms]; [split; cbn; eauto|].
  destruct Hp as [He Hq Hst Ht|m' ms' Hs Hq Hst [= <- <-] Hm Ht|m' ms' Hw Hq Hst [= <- <-] Hm Ht|m' ms' Hw Hq Hst [= <- <-] Ht];
    unfold taken in *; cbn [rv_ipc rv_todo rv_spc rv_sent rv_rpc rv_recv rv_failed] in *.
  - destruct He as [->|[->| ->]].
    + rewrite (send_resolve_step _ ep) by done. split; cbn; [|done|done|done].
      exists ep. split; [done|]. by apply Idle; [right; left| | |].
    + simpl. rewrite (state_is_find _ _ _ Hf), Hst. split; cbn; [|done|done|done].
      exists ep. split; [done|]. by apply Idle; [right; right| | |].
    + split; cbn; [|done|done|done]. exists (set_message m ep). split; [by apply find_upd|]. by eapply Written.
  - subst spc. split; cbn; [|done|done|done]. exists (set_state STATE_MESSAGE_PENDING ep). split; [by apply find_upd|].
    by eapply Pending; [left|left| | | |].
  - destruct Hw as [->|[->| ->]]; simpl.
    + split; cbn; [|by apply caps_ok_audit|done|done]. exists ep. split; [done|]. by eapply Pending; [right; left| | | | |].
    + rewrite Hf. split; cbn; [|done|done|done]. exists ep. split; [done|]. by eapply Pending; [right; right| | | | |].
    + rewrite (state_is_find _ _ _ Hf), Hst. split; cbn; [|done|done|done].
      exists ep. split; [done|]. by eapply Pending; [right; right| | | | |].
  - destruct Hw as [[->|[->| ->]]| ->]; simpl.
    + split; cbn; [|by apply caps_ok_audit|done|done]. exists ep. split; [done|]. by eapply Taken; [left; right; left| | | |].
    + rewrite Hf. split; cbn; [|done|done|done]. exists ep. split; [done|]. by eapply Taken; [left; right; right| | | |].
    + rewrite (state_is_find _ _ _ Hf), Hst. split; cbn; [|done|done|done].
      exists ep. split; [done|]. by eapply Taken; [right| | | |].
    + split; cbn; [|done|by rewrite <- app_assoc|done]. exists (set_state STATE_IDLE ep). split; [by apply find_upd|].
      by apply Idle; [left| | |].
Qed.

Lemma rv_inv_receiver msgs r : rv_inv msgs r -> rv_inv msgs (rv_step r Receiver).
Proof using Type.
  intros Hinv. destruct Hinv as [(ep & Hf & Hp) Hc Ha He0]. unfold rv_step.
  destruct r as [s todo spc sent rpc recv failed]. cbn [rv_ipc rv_todo rv_spc rv_sent rv_rpc rv_recv rv_failed] in *.
  assert (quiet rpc -> (forall s' rpc' recv', quiet rpc' -> recv' ++ held rpc' = recv ++ held rpc ->
            phase ep (mkRv s' todo spc sent rpc' recv' failed)) ->
          ep_state ep <> STATE_MESSAGE_PENDING \/ rpc <> RWaitPending oid i ->
          rv_inv msgs (rv_step (mkRv s todo spc sent rpc recv failed) Receiver)) as Hquiet.
  { intros [->|[->|[m ->]]] Hph Hne; unfold rv_step; cbn [rv_ipc rv_rpc rv_todo rv_spc rv_sent rv_recv rv_failed].
    - rewrite (recv_resolve_step _ ep) by done. split; cbn; [|done|done|done].
      exists ep. split; [done|]. apply Hph; [right; by left|done].
    - simpl. rewrite (state_is_find _ _ _ Hf). destruct Hne as [Hne|]; [|done].
      apply Z.eqb_neq in Hne. rewrite Hne. split; cbn; [|done|done|done].
      exists ep. split; [done|]. apply Hph; [right; by left|done].
    - simpl. split; cbn; [|by apply caps_ok_audit|done|done]. exists ep. split; [done|].
      apply Hph; [by left|]. simpl. by rewrite app_nil_r. }
  unfold rv_step in Hquiet. cbn [rv_ipc rv_todo rv_spc rv_sent rv_rpc rv_recv rv_failed] in Hquiet.
  destruct Hp as [He Hq Hst Ht|m' ms' Hs Hq Hst Hto Hm Ht|m' ms' Hw Hq Hst Hto Hm Ht|m' ms' Hw Hq Hst Hto Ht];
    unfold taken in *; cbn [rv_ipc rv_todo rv_spc rv_sent rv_rpc rv_recv rv_failed] in *.
  - apply Hquiet; [done| |left; by rewrite Hst]. intros s' rpc' recv' ? Hr. apply Idle; try done. unfold taken; cbn. by rewrite Hr.
  - apply Hquiet; [done| |left; by rewrite Hst]. intros s' rpc' recv' ? Hr. eapply Written; try done. unfold taken; cbn. by rewrite Hr.
  - destruct Hq as [Hq|[->| ->]].
    + destruct Hq as [->|[->|[m ->]]].
      * apply Hquiet; [by left| |by right]. intros s' rpc' recv' ? Hr.
        eapply Pending; try done; [by left|]. unfold taken; cbn. by rewrite Hr.
      * simpl. rewrite (state_is_find _ _ _ Hf), Hst. split; cbn; [|done|done|done].
        exists ep. split; [done|]. by eapply Pending; [|right; left| | | |].
      * apply Hquiet; [right; right; eauto| |by right]. intros s' rpc' recv' ? Hr.
        eapply Pending; try done; [by left|]. unfold taken; cbn. by rewrite Hr.
    + simpl. rewrite (endpoint_at_find _ _ Hf). split; cbn; [|done|done|done].
      exists ep. split; [done|]. eapply Pending; cbn; try done. right; right. by rewrite Hm.
    + simpl. split; cbn; [|done|done|done]. exists (set_state STATE_MESSAGE_TAKEN ep). split; [by apply find_upd|].
      eapply Taken; cbn; try done; [by left|right; right; eauto|]. unfold taken; cbn.
      simpl in Ht. rewrite app_nil_r in Ht. by rewrite Ht.
  - apply Hquiet; [done| |left; by rewrite Hst]. intros s' rpc' recv' ? Hr. eapply Taken; try done. unfold taken; cbn. by rewrite Hr.
Qed.

Lemma rv_inv_run msgs sched r : rv_inv msgs r -> rv_inv msgs (rv_run sched r).
Proof using Type.
  revert r. induction sched as [|[] sched IH]; intros r Hr; [done| |]; apply IH;
    [by apply rv_inv_sender|by apply rv_inv_receiver].
Qed.

(** ** Progress

    How many turns the send in progress still needs, at most, when the two threads
    take turns. *)
Definition stage_s (pc : send_pc) : nat :=
  match pc with
  | SResolve => 8 | SWaitIdle _ _ => 7 | SWrite _ _ => 6 | SPost _ _ => 5
  | SAudit _ => 4 | SRefind _ => 3 | SWaitTaken _ => 2 | SReset _ => 1 | SRet _ => 0
  end.
Definition stage_r (pc : recv_pc) : nat :=
  match pc with
  | RAudit _ _ => 5 | RResolve => 4 | RWaitPending _ _ => 3 | RRead _ _ => 2 | RTake _ _ _ => 1 | RRet _ => 0
  end.
Definition to_take (r : rv) : nat :=
  if state_is (rv_ipc r) i STATE_IDLE then 6%nat
  else if state_is (rv_ipc r) i STATE_MESSAGE_PENDING then stage_r (rv_rpc r) else 0%nat.
Definition turns_left (r : rv) : nat := (stage_s (rv_spc r) + to_take r)%nat.

Definition turns (n : nat) : list side := concat (replicate n [Sender; Receiver]).

Lemma to_take_find r ep : find_endpoint oid (rv_ipc r) = Some (i, ep) ->
  to_take r = if ep_state ep =? STATE_IDLE then 6%nat else if ep_state ep =? STATE_MESSAGE_PENDING then stage_r (rv_rpc r) else 0%nat.
Proof using Type. intros H. unfold to_take. by rewrite !(state_is_find _ _ _ H). Qed.

(** A turn of the sender completes its call, or brings it nearer, or finds the message not taken yet. *)
Lemma sender_turn msgs r m rest : rv_inv msgs r -> rv_todo r = m :: rest ->
  let r' := rv_step r Sender in
  (rv_todo r' = rest /\ rv_sent r' = rv_sent r ++ [m]) \/
  (rv_todo r' = rv_todo r /\ rv_sent r' = rv_sent r /\
    ((turns_left r' < turns_left r)%nat \/ r' = r /\ state_is (rv_ipc r) i STATE_MESSAGE_PENDING = true)).
Proof using Type.
  intros [(ep & Hf & Hp) Hc _ _] Htd. destruct r as [s todo spc sent rpc recv failed].
  cbn [rv_ipc rv_todo rv_spc rv_sent rv_rpc rv_recv rv_failed] in *. subst todo. unfold turns_left.
  destruct Hp as [He Hq Hst Ht|m' ms' Hs Hq Hst [= <- <-] Hm Ht|m' ms' Hw Hq Hst [= <- <-] Hm Ht|m' ms' Hw Hq Hst [= <- <-] Ht];
    cbn [rv_ipc rv_todo rv_spc rv_sent rv_rpc rv_recv rv_failed] in *; rewrite (to_take_find (mkRv s (m :: rest) spc sent rpc recv failed) ep) by done; rewrite Hst; cbn [rv_rpc Z.eqb STATE_IDLE STATE_MESSAGE_PENDING STATE_MESSAGE_TAKEN Pos.eqb].
  - right. destruct He as [->|[->| ->]]; unfold rv_step; cbn [rv_ipc rv_todo rv_spc rv_sent rv_rpc rv_recv rv_failed].
    + rewrite (send_resolve_step _ ep) by done. split; [done|]. split; [done|]. left. rewrite (to_take_find _ ep) by done. rewrite Hst. cbn. lia.
    + cbn [send_step]. rewrite (state_is_find _ _ _ Hf), Hst. split; [done|]. split; [done|]. left. rewrite (to_take_find _ ep) by done. rewrite Hst. cbn. lia.
    + cbn [send_step]. split; [done|]. split; [done|]. left. rewrite (to_take_find _ (set_message m ep)) by by apply find_upd. cbn [ep_state set_message]. rewrite Hst. cbn. lia.
  - right. subst spc. split; [done|]. split; [done|]. left. rewrite (to_take_find _ (set_state STATE_MESSAGE_PENDING ep)) by by apply find_upd.
    cbn. destruct Hq as [->|[->|[m' ->]]]; cbn; lia.
  - right. destruct Hw as [->|[->| ->]]; unfold rv_step; cbn [rv_ipc rv_todo rv_spc rv_sent rv_rpc rv_recv rv_failed send_step].
    + split; [done|]. split; [done|]. left. rewrite (to_take_find _ ep) by done. rewrite Hst. cbn. lia.
    + rewrite Hf. split; [done|]. split; [done|]. left. rewrite (to_take_find _ ep) by done. rewrite Hst. cbn. lia.
    + rewrite (state_is_find _ _ _ Hf), Hst. split; [done|]. split; [done|]. right. split; [done|]. by rewrite (state_is_find _ _ _ Hf), Hst.
  - destruct Hw as [[->|[->| ->]]| ->]; unfold rv_step; cbn [rv_ipc rv_todo rv_spc rv_sent rv_rpc rv_recv rv_failed send_step]; [right|right|right|by left].
    + split; [done|]. split; [done|]. left. rewrite (to_take_find _ ep) by done. rewrite Hst. cbn. lia.
    + rewrite Hf. split; [done|]. split; [done|]. left. rewrite (to_take_find _ ep) by done. rewrite Hst. cbn. lia.
    + rewrite (state_is_find _ _ _ Hf), Hst. split; [done|]. split; [done|]. left. rewrite (to_take_find _ ep) by done. rewrite Hst. cbn. lia.
Qed.

(** Decide a bound on the turns by the endpoint's state. *)
Ltac states := unfold STATE_IDLE, STATE_MESSAGE_PENDING, STATE_MESSAGE_TAKEN in *; cbn; repeat case_match; lia.

(** A turn of the receiver never sets the sender back, and brings a pending message nearer. *)
Lemma receiver_turn msgs r : rv_inv msgs r -> let r' := rv_step r Receiver in
  rv_todo r' = rv_todo r /\ rv_sent r' = rv_sent r /\ (turns_left r' <= turns_left r)%nat /\
  (state_is (rv_ipc r) i STATE_MESSAGE_PENDING = true -> (turns_left r' < turns_left r)%nat).
Proof using Type.
  intros [(ep & Hf & Hp) Hc _ _]. destruct r as [s todo spc sent rpc recv failed]. unfold turns_left.
  cbn [rv_ipc rv_todo rv_spc rv_sent rv_rpc rv_recv rv_failed] in *. rewrite (state_is_find _ _ _ Hf), (to_take_find (mkRv s todo spc sent rpc recv failed) ep) by done.
  assert (quiet rpc \/ rpc = RRead oid i \/ (exists m, rpc = RTake oid i m)) as Hr
    by (destruct Hp as [| |m ? ? [?|[?|?]]|]; eauto). clear Hp. cbn [rv_rpc].
  destruct Hr as [[->|[->|[m ->]]]|[->|[m ->]]]; unfold rv_step; cbn [rv_ipc rv_todo rv_spc rv_sent rv_rpc rv_recv rv_failed].
  - rewrite (recv_resolve_step _ ep) by done. split; [done|]. split; [done|]. rewrite (to_take_find _ ep) by done. states.
  - cbn [recv_step]. rewrite (state_is_find _ _ _ Hf). destruct (Z.eqb_spec (ep_state ep) STATE_MESSAGE_PENDING) as [E|E]; (split; [done|]); (split; [done|]);
      rewrite (to_take_find _ ep) by done; [rewrite E; cbn; lia|]. rewrite (proj2 (Z.eqb_neq _ _) E). cbn. split; [lia|done].
  - cbn [recv_step]. split; [done|]. split; [done|]. rewrite (to_take_find _ ep) by done. states.
  - cbn [recv_step]. split; [done|]. split; [done|]. rewrite (to_take_find _ ep) by done. states.
  - cbn [recv_step]. split; [done|]. split; [done|]. rewrite (to_take_find _ (set_state STATE_MESSAGE_TAKEN ep)) by by apply find_upd. states.
Qed.

Lemma turns_S k r : rv_run (turns (S k)) r = rv_run (turns k) (rv_step (rv_step r Sender) Receiver).
Proof using Type. done. Qed.

Lemma rv_progress n msgs r m rest : rv_inv msgs r -> rv_todo r = m :: rest -> (turns_left r <= n)%nat ->
  exists k, (k <= n)%nat /\ rv_sent (rv_run (turns k) r) = rv_sent r ++ [m].
Proof using Type.
  revert r. induction n as [|n IH]; intros r Hi Htd Hn.
  - pose proof Hi as [(ep & Hf & Hp) _ _ _]. exfalso. unfold turns_left in Hn.
    destruct Hp as [[E|[E|E]]|? ? E|? ? [E|[E|E]]|? ? [[E|[E|E]]|E]]; rewrite E in Hn; cbn in Hn; lia.
  - pose proof (sender_turn msgs r m rest Hi Htd) as Hs. pose proof (rv_inv_sender msgs r Hi) as Hi1.
    pose proof (receiver_turn msgs _ Hi1) as Hr. pose proof (rv_inv_receiver msgs _ Hi1) as Hi2. cbn zeta in Hs, Hr. destruct Hr as (Ht & Hsn & Hle & Hlt).
    destruct Hs as [[_ E]|(E1 & E2 & Hs)]; [exists 1%nat; split; [lia|]; rewrite turns_S; change (rv_run (turns 0) ?x) with x; by rewrite Hsn|].
    assert (turns_left (rv_step (rv_step r Sender) Receiver) < turns_left r)%nat as Hd
      by (destruct Hs as [|[Eq Hp]]; [lia|rewrite Eq in *; by apply Hlt]).
    destruct (IH _ Hi2) as (k & Hk & E); [congruence|lia|]. exists (S k). split; [lia|]. rewrite turns_S, E. congruence.
Qed.

Lemma turns_left_14 msgs r : rv_inv msgs r -> (turns_left r <= 14)%nat.
Proof using Type. unfold turns_left, to_take. intros _. destruct (rv_spc r), (rv_rpc r); cbn; repeat case_match; lia. Qed.

(** C36. Rendezvous. On an endpoint that is idle, with capabilities that are alive and stay so, one thread sends a
    list of messages with [send] and another receives, their atomic accesses interleaved in any order at all. At
    every point no call of either has failed, every completed [send]'s message has been taken, the messages taken
    are the completed ones plus at most the one being sent, all in order and once each; and from there on, if the
    two threads take turns, the [send] in progress returns within fourteen turns of each. *)
Theorem rendezvous_exactly_once s msgs sched ep :
  find_endpoint oid s = Some (i, ep) -> ep_state ep = STATE_IDLE -> caps_ok (KERNEL s) ->
  let r := rv_run sched (rv_init s msgs) in
  rv_failed r = [] /\ rv_sent r ++ rv_todo r = msgs /\
  (taken r = rv_sent r \/ exists m rest, rv_todo r = m :: rest /\ taken r = rv_sent r ++ [m]) /\
  prefix (rv_recv r) msgs /\
  (forall m rest, rv_todo r = m :: rest -> exists n, (n <= 14)%nat /\ rv_sent (rv_run (turns n) r) = rv_sent r ++ [m]).
Proof using Type.
  intros Hf Hst Hc r.
  assert (rv_inv msgs r) as Hinv.
  { apply rv_inv_run. split; cbn; [|done|done|done]. exists ep. split; [done|]. by apply Idle; [left|left| |]. }
  pose proof Hinv as [(ep' & _ & Hp) _ Ha He].
  assert (taken r = rv_sent r \/ exists m rest, rv_todo r = m :: rest /\ taken r = rv_sent r ++ [m]) as Ht
    by (destruct Hp; eauto).
  split_and!; [done|done|done| |].
  - trans (taken r); [by apply prefix_app_r|]. destruct Ht as [->|(m & rest & Hto & ->)]; rewrite <- Ha; [by apply prefix_app_r|].
    rewrite Hto. apply prefix_app. by exists rest.
  - intros m rest Hto. apply (rv_progress 14 msgs r m rest Hinv Hto). by apply (turns_left_14 msgs).
Qed.
End rendezvous.

Module IpcWitness.

(** An endpoint with one send and one receive capability. *)
Definition setup : ipc * CapabilityTable * Z :=
  create_endpoint table_new (union SEND RECEIVE) (mkIpc kernel_init []).
Definition s0 : ipc := setup.1.1.
Definition t0 : CapabilityTable := setup.1.2.

Definition hello : Message := [1; 2; 3; 4].
Definition world : Message := [5; 6; 7; 8].

Lemma s0_ok : ipc_ok s0.
Proof. constructor; [apply endpoint_new_ok|constructor]. Qed.

Lemma mailbox_fifo_witness :
  exists s' tr q,
    foldM mail_step (s0, []) [MSend t0 0 hello; MSend t0 0 world; MRecv t0 0] = Some (s', tr) /\
    ipc_ok s' /\ queues s' 0 = Some q /\ (length q <= QUEUE_DEPTH)%nat /\
    [] ++ accepted 0 tr = delivered 0 tr ++ q.
Proof. apply mailbox_fifo; [apply s0_ok|reflexivity]. Defined.

(** The third operation of that history returns the first message. *)
Example mailbox_fifo_run :
  ('(_, tr) ← foldM mail_step (s0, []) [MSend t0 0 hello; MSend t0 0 world; MRecv t0 0];
   Some (accepted 0 tr, delivered 0 tr)) = Some ([hello; world], [hello]).
Proof. by vm_compute. Qed.

Lemma mailbox_refines_witness :
  (exists s' r, try_send t0 0 hello s0 = Some (s', r) /\ ipc_ok s' /\
    r = (spec_send (resolve t0 0 SEND (KERNEL s0)).2 hello (queues s0)).2 /\
    (forall o, queues s' o = (spec_send (resolve t0 0 SEND (KERNEL s0)).2 hello (queues s0)).1 o)) /\
  (exists s' r, try_receive t0 0 s0 = Some (s', r) /\ ipc_ok s' /\
    r = (spec_receive (resolve t0 0 RECEIVE (KERNEL s0)).2 (queues s0)).2 /\
    (forall o, queues s' o = (spec_receive (resolve t0 0 RECEIVE (KERNEL s0)).2 (queues s0)).1 o)).
Proof. apply mailbox_refines. apply s0_ok. Defined.

Definition cap0 : Capability := mkCap 0 (union SEND RECEIVE) 1.
Definition schedule : list side :=
  [Sender; Receiver; Sender; Sender; Sender; Sender; Receiver; Sender; Sender; Receiver; Receiver;
   Sender; Sender; Receiver; Sender; Sender; Sender].

Lemma rendezvous_witness :
  let r := rv_run t0 t0 0 0 schedule (rv_init s0 [hello; world]) in
  rv_failed r = [] /\ rv_sent r = [hello] /\ rv_todo r = [world] /\
  exists n, (n <= 14)%nat /\ rv_sent (rv_run t0 t0 0 0 (turns n) r) = [hello; world].
Proof.
  intros r. assert (rv_sent r = [hello] /\ rv_todo r = [world]) as [E1 E2] by by vm_compute.
  destruct (rendezvous_exactly_once t0 t0 0 0 cap0 cap0 0 0%nat s0 [hello; world] schedule endpoint_new) as (H1 & _ & _ & _ & H2);
    [reflexivity|reflexivity|by constructor|].
  split; [exact H1|]. split; [exact E1|]. split; [exact E2|]. destruct (H2 world [] E2) as (n & Hn & E). exists n. split; [exact Hn|].
  etransitivity; [exact E|]. fold r. by rewrite E1.
Defined.

(** That schedule completes the first send and delivers its message. *)
Example rendezvous_run :
  let r := rv_run t0 t0 0 0 schedule (rv_init s0 [hello; world]) in
  rv_sent r = [hello] /\ rv_recv r = [hello].
Proof. by vm_compute. Qed.

(** Two threads calling [send] on one endpoint, and a receiver. *)
Inductive who := S1 | S2 | Rcv.

Definition step3 (st : send_pc * send_pc * recv_pc * ipc) (w : who)
  : send_pc * send_pc * recv_pc * ipc :=
  let '(p1, p2, q, s) := st in
  match w with
  | S1 => let '(p1, s) := send_step t0 0 hello p1 s in (p1, p2, q, s)
  | S2 => let '(p2, s) := send_step t0 0 world p2 s in (p1, p2, q, s)
  | Rcv => let '(q, s) := recv_step t0 0 q s in (p1, p2, q, s)
  end.

(** The schedule in which both senders see the endpoint idle before either
    writes. *)
Definition race : list who :=
  [S1; S1; S2; S2; S1; S1; S2; S2; Rcv; Rcv; Rcv; Rcv; Rcv; S1; S1; S1; S1].

Definition race_end : send_pc * send_pc * recv_pc * ipc :=
  Eval vm_compute in foldl step3 (SResolve, SResolve, RResolve, s0) race.

Lemma race_end_eq : foldl step3 (SResolve, SResolve, RResolve, s0) race = race_end.
Proof. by vm_compute. Qed.

Definition stuck : send_pc * ipc :=
  Eval vm_compute in Nat.iter 2 (fun ps => send_step t0 0 world ps.1 ps.2) (race_end.1.1.2, race_end.2).

Lemma stuck_eq :
  Nat.iter 2 (fun ps => send_step t0 0 world ps.1 ps.2) (race_end.1.1.2, race_end.2) = stuck.
Proof. by vm_compute. Qed.

Lemma stuck_forever n : Nat.iter n (fun ps => send_step t0 0 world ps.1 ps.2) stuck = stuck.
Proof. induction n as [|n IH]; [done|]. rewrite Nat.iter_succ, IH. reflexivity. Qed.

(** With two senders the rendezvous does not hold: there is a schedule in
    which the first sender's [send] returns [Ok] although its message was
    overwritten, the only message received is the second sender's, and the second
    sender is left waiting on an idle endpoint.  [send]'s wait for the idle state
    and its store of the pending state are not one atomic step. *)
Theorem two_senders_lose_message :
  let '(p1, p2, q, s) := foldl step3 (SResolve, SResolve, RResolve, s0) race in
  p1 = SRet (Ok tt) /\ q = RRet (Ok world) /\
  p2 = SAudit 0 /\
  (forall n, (Nat.iter n (fun ps => send_step t0 0 world ps.1 ps.2) (p2, s)).1 <> SRet (Ok tt)).
Proof.
  rewrite race_end_eq. split_and!; [done|done|done|].
  intros [|[|n]]; [done|done|]. replace (S (S n)) with (n + 2)%nat by lia.
  rewrite Nat.iter_add. pose proof stuck_eq as Hs. cbn [race_end fst snd] in Hs. by rewrite Hs, stuck_forever.
Qed.
End IpcWitness.
