(* ===== verification/Mailbox.v ===== *)
(** * The mailbox, one access at a time

    [try_send] and [try_receive] of [kernel_rs/src/ipc.rs] take no lock: two processors may
    be inside them at once.  Here they are the points between their accesses to the
    endpoint's shared words ([q_len], [q_head], [q_tail] and the slots), as the
    rendezvous of [Ipc] is.  A call that nothing interrupts is the handler of [Ipc]
    ([try_send_alone], [try_receive_alone]).  With one sender at a time the mailbox is
    a bounded queue under every interleaving; with two it is not
    ([two_try_sends_lose_message]). *)

From S2P Require Import Prelude AuditLog Capability Ipc.

(** ** The two calls *)

Inductive try_send_pc :=
  | TResolve                              (* table.resolve, find_endpoint_mut *)
  | TLen (oid : Z) (i : nat)              (* q_len.load *)
  | THead (oid : Z) (i : nat)             (* q_head.load *)
  | TSlot (oid : Z) (i head : nat)        (* q_slots[head] = msg *)
  | TAdvance (oid : Z) (i head : nat)     (* q_head.store *)
  | TCount (oid : Z) (i : nat)            (* q_len.fetch_add *)
  | TAudit (oid : Z)                      (* audit::record(IpcSend) *)
  | TRet (r : result bool IpcError)
  | TPanic.

Inductive try_recv_pc :=
  | VResolve                                          (* table.resolve *)
  | VFind (oid : Z)                                   (* find_endpoint_mut *)
  | VLen (oid : Z) (i : nat)                          (* q_len.load *)
  | VTail (oid : Z) (i : nat)                         (* q_tail.load *)
  | VSlot (oid : Z) (i tail : nat)                    (* let m = q_slots[tail] *)
  | VAdvance (oid : Z) (i tail : nat) (m : Message)   (* q_tail.store *)
  | VCount (oid : Z) (i : nat) (m : Message)          (* q_len.fetch_sub *)
  | VAudit (oid : Z) (m : Message)                    (* audit::record(IpcReceive) *)
  | VRet (r : result (option Message) IpcError)
  | VPanic.

Definition set_head (v : Z) (ep : Endpoint) : Endpoint :=
  mkEndpoint (ep_state ep) (ep_message ep) v (q_tail ep) (q_len ep) (q_slots ep).
Definition set_tail (v : Z) (ep : Endpoint) : Endpoint :=
  mkEndpoint (ep_state ep) (ep_message ep) (q_head ep) v (q_len ep) (q_slots ep).
Definition set_len (v : Z) (ep : Endpoint) : Endpoint :=
  mkEndpoint (ep_state ep) (ep_message ep) (q_head ep) (q_tail ep) v (q_slots ep).
Definition set_slot (k : nat) (m : Message) (ep : Endpoint) : Endpoint :=
  mkEndpoint (ep_state ep) (ep_message ep) (q_head ep) (q_tail ep) (q_len ep) (<[k := m]> (q_slots ep)).

(** [((k + 1) % QUEUE_DEPTH) as u8] *)
Definition next_slot (k : nat) : Z := u8 ((Z.of_nat k + 1) mod Z.of_nat QUEUE_DEPTH).

(** An index that no slot or endpoint has is a panic. *)
Definition try_send_step (t : CapabilityTable) (cap_id : Z) (msg : Message) (pc : try_send_pc) (s : ipc)
  : try_send_pc * ipc :=
  match pc with
  | TResolve =>
      let '(k, r) := resolve t cap_id SEND (KERNEL s) in
      let s := set_kernel k s in
      match r with
      | Err e => (TRet (Err (Cap e)), s)
      | Ok cap =>
          match find_endpoint (object_id cap) s with
          | None => (TRet (Err EndpointNotFound), s)
          | Some (i, _) => (TLen (object_id cap) i, s)
          end
      end
  | TLen oid i =>
      match endpoint_at s i with
      | None => (TPanic, s)
      | Some ep => (if (QUEUE_DEPTH <=? Z.to_nat (q_len ep))%nat then TRet (Ok false) else THead oid i, s)
      end
  | THead oid i =>
      match endpoint_at s i with None => (TPanic, s) | Some ep => (TSlot oid i (Z.to_nat (q_head ep)), s) end
  | TSlot oid i head =>
      match endpoint_at s i with
      | None => (TPanic, s)
      | Some ep => if (head <? length (q_slots ep))%nat then (TAdvance oid i head, upd_endpoint i (set_slot head msg) s) else (TPanic, s)
      end
  | TAdvance oid i head => (TCount oid i, upd_endpoint i (set_head (next_slot head)) s)
  | TCount oid i => (TAudit oid, upd_endpoint i (fun ep => set_len (u8 (q_len ep + 1)) ep) s)
  | TAudit oid => (TRet (Ok true), set_kernel (audit_record (EvIpcSend oid) (KERNEL s)) s)
  | TRet _ | TPanic => (pc, s)
  end.

Definition try_recv_step (t : CapabilityTable) (cap_id : Z) (pc : try_recv_pc) (s : ipc) : try_recv_pc * ipc :=
  match pc with
  | VResolve =>
      let '(k, r) := resolve t cap_id RECEIVE (KERNEL s) in
      (match r with Err e => VRet (Err (Cap e)) | Ok cap => VFind (object_id cap) end, set_kernel k s)
  | VFind oid => (match find_endpoint oid s with None => VRet (Ok None) | Some (i, _) => VLen oid i end, s)
  | VLen oid i =>
      match endpoint_at s i with
      | None => (VPanic, s)
      | Some ep => (if q_len ep =? 0 then VRet (Ok None) else VTail oid i, s)
      end
  | VTail oid i =>
      match endpoint_at s i with None => (VPanic, s) | Some ep => (VSlot oid i (Z.to_nat (q_tail ep)), s) end
  | VSlot oid i tail =>
      match (ep ← endpoint_at s i; q_slots ep !! tail) with None => (VPanic, s) | Some m => (VAdvance oid i tail m, s) end
  | VAdvance oid i tail m => (VCount oid i m, upd_endpoint i (set_tail (next_slot tail)) s)
  | VCount oid i m => (VAudit oid m, upd_endpoint i (fun ep => set_len (u8 (q_len ep - 1)) ep) s)
  | VAudit oid m => (VRet (Ok (Some m)), set_kernel (audit_record (EvIpcReceive oid) (KERNEL s)) s)
  | VRet _ | VPanic => (pc, s)
  end.

(** ** One sender and one receiver

    A thread that makes a call of [try_send] for each message of [mb_todo], one that calls
    [try_receive] for ever, and a kernel in which anything else may happen to the
    objects and the audit log between two accesses.  [mb_sent] and [mb_got] are what the
    calls returned. *)

Record mb := mkMb {
  mb_ipc : ipc; mb_todo : list Message; mb_spc : try_send_pc; mb_sent : list (Message * result bool IpcError);
  mb_rpc : try_recv_pc; mb_got : list (result (option Message) IpcError) }.

Inductive mb_turn := SenderTurn | ReceiverTurn | Elsewhere (k : kernel).

Section mailbox.
Context (tS tR : CapabilityTable) (cidS cidR : Z).

Definition mb_step (r : mb) (who : mb_turn) : mb :=
  match who with
  | SenderTurn =>
      match mb_todo r with
      | [] => r
      | m :: rest =>
          let '(pc, s) := try_send_step tS cidS m (mb_spc r) (mb_ipc r) in
          match pc with
          | TRet v => mkMb s rest TResolve (mb_sent r ++ [(m, v)]) (mb_rpc r) (mb_got r)
          | _ => mkMb s (mb_todo r) pc (mb_sent r) (mb_rpc r) (mb_got r)
          end
      end
  | ReceiverTurn =>
      let '(pc, s) := try_recv_step tR cidR (mb_rpc r) (mb_ipc r) in
      match pc with
      | VRet v => mkMb s (mb_todo r) (mb_spc r) (mb_sent r) VResolve (mb_got r ++ [v])
      | _ => mkMb s (mb_todo r) (mb_spc r) (mb_sent r) pc (mb_got r)
      end
  | Elsewhere k => mkMb (set_kernel k (mb_ipc r)) (mb_todo r) (mb_spc r) (mb_sent r) (mb_rpc r) (mb_got r)
  end.

Definition mb_run (sched : list mb_turn) (r : mb) : mb := foldl mb_step r sched.
Definition mb_init (s : ipc) (msgs : list Message) : mb := mkMb s msgs TResolve [] VResolve [].

(** The messages that entered the queue: those of the calls that returned [true], and the one of a call
    that has counted it and only has its audit record left.  The messages that left it, likewise. *)
Definition entered (r : mb) : list Message :=
  omap (fun p => match p.2 with Ok true => Some p.1 | _ => None end) (mb_sent r) ++
  match mb_spc r with TAudit _ => take 1 (mb_todo r) | _ => [] end.
Definition left_queue (r : mb) : list Message :=
  omap (fun v => match v with Ok (Some m) => Some m | _ => None end) (mb_got r) ++
  match mb_rpc r with VAudit _ m => [m] | _ => [] end.

Context (capS capR : Capability) (oid : Z) (i : nat).

(** The position of the [k]-th message after [base]. *)
Definition at_slot (base : Z) (k : nat) : nat := Z.to_nat ((base + Z.of_nat k) mod 32).

Definition sender_ok (ep : Endpoint) (base : Z) (q todo : list Message) (pc : try_send_pc) : Prop :=
  match pc with
  | TResolve => True
  | TLen o j => o = oid /\ j = i
  | THead o j => o = oid /\ j = i /\ (length q < 32)%nat
  | TSlot o j h => o = oid /\ j = i /\ (length q < 32)%nat /\ h = at_slot base (length q)
  | TAdvance o j h => o = oid /\ j = i /\ (length q < 32)%nat /\ h = at_slot base (length q) /\ q_slots ep !! h = head todo
  | TCount o j => o = oid /\ j = i /\ (length q < 32)%nat /\ q_slots ep !! at_slot base (length q) = head todo
  | TAudit o => o = oid
  | TRet _ | TPanic => False
  end.

Definition receiver_ok (base : Z) (q : list Message) (pc : try_recv_pc) : Prop :=
  match pc with
  | VResolve => True
  | VFind o => o = oid
  | VLen o j => o = oid /\ j = i
  | VTail o j => o = oid /\ j = i /\ q <> []
  | VSlot o j tl => o = oid /\ j = i /\ q <> [] /\ tl = at_slot base 0
  | VAdvance o j tl m => o = oid /\ j = i /\ head q = Some m /\ tl = at_slot base 0
  | VCount o j m => o = oid /\ j = i /\ head q = Some m
  | VAudit o m => o = oid
  | VRet _ | VPanic => False
  end.

(** The head and the tail are one ahead of the count between the store of the index and the count. *)
Definition head_ahead (pc : try_send_pc) : nat := match pc with TCount _ _ => 1 | _ => 0 end.
Definition tail_ahead (pc : try_recv_pc) : nat := match pc with VCount _ _ _ => 1 | _ => 0 end.

Record ring_ok (ep : Endpoint) (base : Z) (q : list Message) (spc : try_send_pc) (rpc : try_recv_pc) : Prop := {
  ro_slots : length (q_slots ep) = 32%nat;
  ro_base : 0 <= base < 32;
  ro_len : q_len ep = Z.of_nat (length q);
  ro_room : (length q <= 32)%nat;
  ro_head : q_head ep = (base + Z.of_nat (length q + head_ahead spc)) mod 32;
  ro_tail : q_tail ep = (base + Z.of_nat (tail_ahead rpc)) mod 32;
  ro_data : forall k m, q !! k = Some m -> q_slots ep !! at_slot base k = Some m }.

Record mb_inv (q0 msgs : list Message) (r : mb) : Prop := {
  mi_ring : exists ep base q, find_endpoint oid (mb_ipc r) = Some (i, ep) /\ ring_ok ep base q (mb_spc r) (mb_rpc r) /\
    sender_ok ep base q (mb_todo r) (mb_spc r) /\ receiver_ok base q (mb_rpc r) /\ q0 ++ entered r = left_queue r ++ q;
  mi_busy : mb_todo r = [] -> mb_spc r = TResolve;
  mi_calls : (mb_sent r).*1 ++ mb_todo r = msgs;
  mi_sent : Forall (fun p => match p.2 with Err (Cap _) | Ok _ => True | Err EndpointNotFound => False end) (mb_sent r);
  mi_got : Forall (fun v => match v with Err (Cap _) | Ok _ => True | Err EndpointNotFound => False end) (mb_got r) }.


Lemma at_slot_lt base k : (at_slot base k < 32)%nat.
Proof using Type. unfold at_slot. pose proof (Z.mod_pos_bound (base + Z.of_nat k) 32 ltac:(lia)). lia. Qed.

Lemma at_slot_inj base j k : (j < 32)%nat -> (k < 32)%nat -> at_slot base j = at_slot base k -> j = k.
Proof using Type. unfold at_slot. intros Hj Hk E. apply Nat2Z.inj. Z.to_euclidean_division_equations. lia. Qed.

Lemma next_slot_at base k : next_slot (at_slot base k) = (base + Z.of_nat (k + 1)) mod 32.
Proof using Type.
  unfold next_slot, at_slot, QUEUE_DEPTH. pose proof (Z.mod_pos_bound (base + Z.of_nat k) 32 ltac:(lia)) as Hb.
  rewrite Z2Nat.id by lia. change (Z.of_nat 32) with 32. rewrite Zplus_mod_idemp_l. rewrite wrap_small; [f_equal; lia|].
  red. pose proof (Z.mod_pos_bound (base + Z.of_nat k + 1) 32 ltac:(lia)). lia.
Qed.

Lemma at_slot_S base k : at_slot ((base + 1) mod 32) k = at_slot base (S k).
Proof using Type. unfold at_slot. rewrite Zplus_mod_idemp_l. do 2 f_equal. lia. Qed.

Lemma receiver_ok_snoc base q m pc : receiver_ok base q pc -> receiver_ok base (q ++ [m]) pc.
Proof using Type. destruct pc, q; cbn; intuition congruence. Qed.

Hypothesis HcapS : mjoin (tS !! Z.to_nat cidS) = Some capS.
Hypothesis HcapR : mjoin (tR !! Z.to_nat cidR) = Some capR.
Hypothesis HoS : object_id capS = oid.
Hypothesis HoR : object_id capR = oid.

(** A call finds the endpoint or fails for lack of a live capability. *)
Lemma try_send_resolve m s ep : find_endpoint oid s = Some (i, ep) ->
  exists k, try_send_step tS cidS m TResolve s = (TLen oid i, set_kernel k s) \/
    exists e, try_send_step tS cidS m TResolve s = (TRet (Err (Cap e)), set_kernel k s).
Proof using All.
  intros Hf. cbn [try_send_step]. destruct (resolve tS cidS SEND (KERNEL s)) as [k [cap|e]] eqn:E; exists k; [left|right; by exists e].
  assert ((resolve tS cidS SEND (KERNEL s)).2 = Ok cap) as [H _]%resolve_Ok by by rewrite E.
  rewrite HcapS in H. injection H as <-. by rewrite HoS, find_endpoint_kernel, Hf.
Qed.

Lemma try_recv_resolve s : exists k, try_recv_step tR cidR VResolve s = (VFind oid, set_kernel k s) \/
    exists e, try_recv_step tR cidR VResolve s = (VRet (Err (Cap e)), set_kernel k s).
Proof using All.
  cbn [try_recv_step]. destruct (resolve tR cidR RECEIVE (KERNEL s)) as [k [cap|e]] eqn:E; exists k; [left|right; by exists e].
  assert ((resolve tR cidR RECEIVE (KERNEL s)).2 = Ok cap) as [H _]%resolve_Ok by by rewrite E.
  rewrite HcapR in H. injection H as <-. by rewrite HoR.
Qed.

(** A sender that returns: the call is recorded, and the queue is what it was. *)
Lemma sender_returns q0 msgs s s' m rest spc sent rpc got v ep base q :
  mb_inv q0 msgs (mkMb s (m :: rest) spc sent rpc got) ->
  find_endpoint oid s' = Some (i, ep) -> ring_ok ep base q TResolve rpc -> receiver_ok base q rpc ->
  (match v with Ok true => exists o, spc = TAudit o | Ok false | Err (Cap _) => forall o, spc <> TAudit o | Err EndpointNotFound => False end) ->
  q0 ++ entered (mkMb s (m :: rest) spc sent rpc got) = left_queue (mkMb s (m :: rest) spc sent rpc got) ++ q ->
  mb_inv q0 msgs (mkMb s' rest TResolve (sent ++ [(m, v)]) rpc got).
Proof using Type.
  intros [_ _ Hc Hs Hg] Hf Hr Hro Hv Ho. cbn [mb_sent mb_todo mb_got] in *. split; cbn [mb_ipc mb_todo mb_spc mb_sent mb_rpc mb_got]; [|done| | |done].
  - exists ep, base, q. split; [done|]. split; [done|]. split; [done|]. split; [done|]. unfold left_queue in *. cbn [mb_got mb_rpc] in *. rewrite <- Ho.
    unfold entered. cbn [mb_sent mb_spc mb_todo]. rewrite omap_app, app_nil_r. f_equal. f_equal.
    destruct v as [[]|[]]; [destruct Hv as [o ->]; done|..|done]; destruct spc; try done; by destruct (Hv oid0).
  - rewrite fmap_app. cbn. by rewrite <- app_assoc.
  - apply Forall_app. split; [done|]. apply Forall_singleton. by destruct v as [[]|[]].
Qed.

(** A sender that goes on inside its call. *)
Lemma sender_goes_on q0 msgs s s' m rest spc spc' sent rpc got ep base q :
  mb_inv q0 msgs (mkMb s (m :: rest) spc sent rpc got) ->
  find_endpoint oid s' = Some (i, ep) -> ring_ok ep base q spc' rpc -> sender_ok ep base q (m :: rest) spc' -> receiver_ok base q rpc ->
  q0 ++ entered (mkMb s' (m :: rest) spc' sent rpc got) = left_queue (mkMb s (m :: rest) spc sent rpc got) ++ q ->
  mb_inv q0 msgs (mkMb s' (m :: rest) spc' sent rpc got).
Proof using Type. intros [_ _ Hc Hs Hg] Hf Hr Hso Hro Ho. split; try done. by exists ep, base, q. Qed.

Lemma sender_turn_ok q0 msgs r : mb_inv q0 msgs r -> mb_inv q0 msgs (mb_step r SenderTurn).
Proof using All.
  intros Hi. pose proof Hi as [(ep & base & q & Hf & Hr & Hso & Hro & Ho) Hb Hc _ _]. destruct r as [s todo spc sent rpc got].
  cbn [mb_ipc mb_todo mb_spc mb_sent mb_rpc mb_got] in *. destruct todo as [|m rest]; [done|]. unfold mb_step. cbn [mb_ipc mb_todo mb_spc mb_sent mb_rpc mb_got].
  pose proof Hr as [Hsl Hba Hln Hrm Hhd Htl Hda]. pose proof (endpoint_at_find _ _ _ _ Hf) as Hat.
  destruct spc as [|o j|o j|o j h|o j h|o j|o|v|]; cbn [sender_ok] in Hso; try done.
  - destruct (try_send_resolve m s ep Hf) as (k & [->|[e ->]]); [eapply sender_goes_on|eapply sender_returns]; eauto; try done; by split.
  - destruct Hso as [-> ->]. cbn [try_send_step]. rewrite Hat. unfold QUEUE_DEPTH. destruct (Nat.leb_spec 32 (Z.to_nat (q_len ep))).
    + eapply sender_returns; eauto; try done; by split.
    + eapply sender_goes_on; eauto; try done. cbn. split; [done|]. split; [done|]. lia.
  - destruct Hso as (-> & -> & Hq). cbn [try_send_step]. rewrite Hat. eapply sender_goes_on; eauto; try done. cbn. do 3 (split; [done|]).
    rewrite Hhd. cbn. by rewrite Nat.add_0_r.
  - destruct Hso as (-> & -> & Hq & ->). cbn [try_send_step]. rewrite Hat, Hsl. pose proof (at_slot_lt base (length q)) as Hlt. rewrite (proj2 (Nat.ltb_lt _ _) Hlt).
    eapply sender_goes_on; [done|by apply find_upd| | |done|done].
    + split; cbn [set_slot q_slots q_len q_head q_tail]; try done; [by rewrite length_insert|]. intros k x Hk. pose proof (lookup_lt_Some _ _ _ Hk).
      rewrite list_lookup_insert_ne; [by apply Hda|]. intros E. apply at_slot_inj in E; lia.
    + cbn. do 4 (split; [done|]). apply list_lookup_insert_eq. lia.
  - destruct Hso as (-> & -> & Hq & -> & Hm). cbn [try_send_step]. eapply sender_goes_on; [done|by apply find_upd| | |done|done].
    + split; cbn [set_head q_slots q_len q_head q_tail]; try done. apply next_slot_at.
    + cbn. done.
  - destruct Hso as (-> & -> & Hq & Hm). cbn [try_send_step]. eapply (sender_goes_on _ _ _ _ _ _ _ _ _ _ _ _ base (q ++ [m])); [done|by apply find_upd| |done|by apply receiver_ok_snoc|].
    + split; cbn [set_len q_slots q_len q_head q_tail]; try done; rewrite ?length_app; cbn [length]; [| lia| |].
      * rewrite Hln, wrap_small by (red; lia). lia.
      * rewrite Hhd. cbn [head_ahead]. do 2 f_equal. lia.
      * intros k x [[_ Hk]|[-> <-]]%lookup_snoc_Some; [by apply Hda|done].
    + unfold entered, left_queue in *. cbn [mb_sent mb_spc mb_todo mb_got mb_rpc take] in *. rewrite app_nil_r in Ho. by rewrite app_assoc, Ho, app_assoc.
  - cbn [try_send_step]. eapply sender_returns; eauto; try done; by split.
Qed.

(** The same for the receiver. *)
Lemma receiver_returns q0 msgs s s' todo spc sent rpc got v ep base q :
  mb_inv q0 msgs (mkMb s todo spc sent rpc got) ->
  find_endpoint oid s' = Some (i, ep) -> ring_ok ep base q spc VResolve -> sender_ok ep base q todo spc ->
  (match v with Ok (Some m) => exists o, rpc = VAudit o m | Ok None | Err (Cap _) => forall o m, rpc <> VAudit o m | Err EndpointNotFound => False end) ->
  q0 ++ entered (mkMb s todo spc sent rpc got) = left_queue (mkMb s todo spc sent rpc got) ++ q ->
  mb_inv q0 msgs (mkMb s' todo spc sent VResolve (got ++ [v])).
Proof using Type.
  intros [_ Hb Hc Hs Hg] Hf Hr Hso Hv Ho. cbn [mb_sent mb_todo mb_got mb_spc] in *. split; cbn [mb_ipc mb_todo mb_spc mb_sent mb_rpc mb_got]; [|done|done|done|].
  - exists ep, base, q. split; [done|]. split; [done|]. split; [done|]. split; [done|]. etransitivity; [exact Ho|]. f_equal.
    unfold left_queue. cbn [mb_got mb_rpc]. rewrite omap_app, app_nil_r. f_equal.
    destruct v as [[m|]|[]]; [destruct Hv as [o ->]; done|..|done]; destruct rpc; try done; by destruct (Hv oid0 m).
  - apply Forall_app. split; [done|]. apply Forall_singleton. by destruct v as [[]|[]].
Qed.

Lemma receiver_goes_on q0 msgs s s' todo spc sent rpc rpc' got ep base q :
  mb_inv q0 msgs (mkMb s todo spc sent rpc got) ->
  find_endpoint oid s' = Some (i, ep) -> ring_ok ep base q spc rpc' -> sender_ok ep base q todo spc -> receiver_ok base q rpc' ->
  q0 ++ entered (mkMb s todo spc sent rpc got) = left_queue (mkMb s' todo spc sent rpc' got) ++ q ->
  mb_inv q0 msgs (mkMb s' todo spc sent rpc' got).
Proof using Type. intros [_ Hb Hc Hs Hg] Hf Hr Hso Hro Ho. split; try done. by exists ep, base, q. Qed.

Lemma receiver_turn_ok q0 msgs r : mb_inv q0 msgs r -> mb_inv q0 msgs (mb_step r ReceiverTurn).
Proof using All.
  intros Hi. pose proof Hi as [(ep & base & q & Hf & Hr & Hso & Hro & Ho) _ _ _ _]. destruct r as [s todo spc sent rpc got].
  cbn [mb_ipc mb_todo mb_spc mb_sent mb_rpc mb_got] in *. unfold mb_step. cbn [mb_ipc mb_todo mb_spc mb_sent mb_rpc mb_got].
  pose proof Hr as [Hsl Hba Hln Hrm Hhd Htl Hda]. pose proof (endpoint_at_find _ _ _ _ Hf) as Hat.
  destruct rpc as [|o|o j|o j|o j tl|o j tl m|o j m|o m|v|]; cbn [receiver_ok] in Hro; try done.
  - destruct (try_recv_resolve s) as (k & [->|[e ->]]); [eapply receiver_goes_on|eapply receiver_returns]; eauto; try done; by split.
  - subst o. cbn [try_recv_step]. rewrite Hf. eapply receiver_goes_on; eauto; try done; by split.
  - destruct Hro as [-> ->]. cbn [try_recv_step]. rewrite Hat. destruct (Z.eqb_spec (q_len ep) 0).
    + eapply receiver_returns; eauto; try done; by split.
    + eapply receiver_goes_on; eauto; try done. cbn. split; [done|]. split; [done|]. intros ->. by rewrite Hln in *.
  - destruct Hro as (-> & -> & Hq). cbn [try_recv_step]. rewrite Hat. eapply receiver_goes_on; eauto; try done. cbn. do 3 (split; [done|]). by rewrite Htl.
  - destruct Hro as (-> & -> & Hq & ->). destruct q as [|m q]; [done|]. cbn [try_recv_step]. rewrite Hat. cbn [mbind option_bind]. rewrite (Hda 0%nat m eq_refl).
    eapply receiver_goes_on; eauto; try done; by split.
  - destruct Hro as (-> & -> & Hq & ->). cbn [try_recv_step]. eapply receiver_goes_on; [done|by apply find_upd| | |done|done].
    + split; cbn [set_tail q_slots q_len q_head q_tail]; try done. apply next_slot_at.
    + by destruct spc.
  - destruct Hro as (-> & -> & Hq). destruct q as [|m' q]; [done|]. injection Hq as ->. cbn [try_recv_step].
    eapply (receiver_goes_on _ _ _ _ _ _ _ _ _ _ _ ((base + 1) mod 32) q); [done|by apply find_upd| | |done|].
    + cbn [length] in *. split; cbn [set_len q_slots q_len q_head q_tail]; try done; [by apply Z.mod_pos_bound| |lia| | |].
      * rewrite Hln, wrap_small by (red; lia). lia.
      * rewrite Hhd, Zplus_mod_idemp_l. f_equal. lia.
      * rewrite Htl. cbn [tail_ahead]. by rewrite Z.add_0_r, Zmod_mod.
      * intros k x Hk. rewrite at_slot_S. by apply Hda.
    + destruct spc; cbn [sender_ok length q_slots set_len] in *; rewrite ?at_slot_S; intuition lia.
    + etransitivity; [exact Ho|]. unfold left_queue. cbn [mb_got mb_rpc]. by rewrite app_nil_r, <- app_assoc.
  - cbn [try_recv_step]. eapply receiver_returns; eauto; try done; by split.
Qed.

Lemma elsewhere_ok q0 msgs k r : mb_inv q0 msgs r -> mb_inv q0 msgs (mb_step r (Elsewhere k)).
Proof using Type. intros [(ep & base & q & Hf & H) Hb Hc Hs Hg]. split; try done. by exists ep, base, q. Qed.

Lemma mb_step_ok q0 msgs r who : mb_inv q0 msgs r -> mb_inv q0 msgs (mb_step r who).
Proof using All. destruct who as [| |k]; [apply sender_turn_ok|apply receiver_turn_ok|apply elsewhere_ok]. Qed.

Lemma mb_run_ok q0 msgs sched r : mb_inv q0 msgs r -> mb_inv q0 msgs (mb_run sched r).
Proof using All. revert r. induction sched as [|who sched IH]; intros r Hi; [done|]. by apply IH, mb_step_ok. Qed.

(** Every access of a call brings it nearer to its end, whatever the others do. *)
Definition accesses_s (pc : try_send_pc) : nat :=
  match pc with
  | TLen _ _ => 1 | THead _ _ => 2 | TSlot _ _ _ => 3 | TAdvance _ _ _ => 4 | TCount _ _ => 5 | TAudit _ => 6 | _ => 0
  end.
Definition accesses_r (pc : try_recv_pc) : nat :=
  match pc with
  | VFind _ => 1 | VLen _ _ => 2 | VTail _ _ => 3 | VSlot _ _ _ => 4 | VAdvance _ _ _ _ => 5 | VCount _ _ _ => 6 | VAudit _ _ => 7 | _ => 0
  end.
Definition work_s (r : mb) : nat := (7 * length (mb_sent r) + accesses_s (mb_spc r))%nat.
Definition work_r (r : mb) : nat := (8 * length (mb_got r) + accesses_r (mb_rpc r))%nat.

Definition is_sender (w : mb_turn) : bool := match w with SenderTurn => true | _ => false end.
Definition is_receiver (w : mb_turn) : bool := match w with ReceiverTurn => true | _ => false end.
Definition count (f : mb_turn -> bool) (sched : list mb_turn) : nat := length (filter (fun w => f w = true) sched).

Lemma count_cons f w sched : count f (w :: sched) = ((if f w then 1 else 0) + count f sched)%nat.
Proof using Type. unfold count. rewrite filter_cons. destruct (f w); by case_decide. Qed.

Lemma mb_step_work q0 msgs r who : mb_inv q0 msgs r -> let r' := mb_step r who in
  (mb_todo r' <> [] -> (work_s r + (if is_sender who then 1 else 0) <= work_s r')%nat) /\
  (work_r r + (if is_receiver who then 1 else 0) <= work_r r')%nat /\ (mb_todo r = [] -> mb_todo r' = []).
Proof using All.
  intros Hi. pose proof (mb_step_ok _ _ _ who Hi) as Hi'. destruct Hi as [(ep & base & q & _ & _ & Hs & Hr & _) _ _ _ _], Hi' as [(ep' & base' & q' & _ & _ & Hs' & Hr' & _) _ _ _ _].
  destruct r as [s todo spc sent rpc got]. destruct who as [| |k]; cbn [mb_step is_sender is_receiver mb_ipc mb_todo mb_spc mb_sent mb_rpc mb_got] in *; [| |unfold work_s, work_r; cbn; split; [lia|split; [lia|done]]].
  - destruct todo as [|m rest]; [split; [done|split; [unfold work_r; cbn; lia|done]]|].
    destruct spc; cbn [try_send_step sender_ok] in *; try done; repeat case_match; simplify_eq; cbn [mb_todo mb_spc mb_rpc sender_ok] in *; try done;
      unfold work_s, work_r; cbn [mb_todo mb_spc mb_sent mb_rpc mb_got accesses_s]; rewrite ?length_app; cbn [length]; (split; [lia|split; [lia|done]]).
  - destruct rpc; cbn [try_recv_step receiver_ok] in *; try done; repeat case_match; simplify_eq; cbn [mb_todo mb_spc mb_rpc receiver_ok] in *; try done;
      unfold work_s, work_r; cbn [mb_todo mb_spc mb_sent mb_rpc mb_got accesses_r]; rewrite ?length_app; cbn [length]; (split; [lia|split; [lia|done]]).
Qed.

Lemma mb_run_work q0 msgs sched r : mb_inv q0 msgs r -> let r' := mb_run sched r in
  (mb_todo r' <> [] -> (work_s r + count is_sender sched <= work_s r')%nat) /\ (work_r r + count is_receiver sched <= work_r r')%nat /\ (mb_todo r = [] -> mb_todo r' = []).
Proof using All.
  revert r. induction sched as [|w sched IH]; intros r Hi; [unfold count; cbn; split; [lia|split; [lia|done]]|]. cbn zeta.
  change (mb_run (w :: sched) r) with (mb_run sched (mb_step r w)). rewrite !count_cons.
  destruct (IH _ (mb_step_ok _ _ _ w Hi)) as (I1 & I2 & I3), (mb_step_work _ _ _ w Hi) as (S1 & S2 & S3). split; [|split; [lia|auto]].
  intros Hn. specialize (I1 Hn). assert (mb_todo (mb_step r w) <> []) as Hn' by auto. specialize (S1 Hn'). lia.
Qed.

(** C23. A well-formed mailbox with one sender and one receiver is a bounded queue, however their accesses to its
    words interleave and whatever else happens to the kernel's objects in between. Neither panics; a call fails only
    for its capability; the messages that entered the queue are those that left it, in order and each once, followed
    by at most 32 still there; a send is refused exactly when it finds 32 waiting, and a receive comes back empty
    exactly when it finds none; and no call waits: a send returns by its seventh access, a receive by its eighth. *)
Theorem mailbox_concurrent_fifo s msgs sched ep : find_endpoint oid s = Some (i, ep) -> ep_ok ep ->
  let r := mb_run sched (mb_init s msgs) in
  exists q, queue_of ep ++ entered r = left_queue r ++ q /\ (length q <= QUEUE_DEPTH)%nat /\
    (mb_sent r).*1 ++ mb_todo r = msgs /\
    Forall (fun p => forall e, p.2 = Err e -> exists c, e = Cap c) (mb_sent r) /\ Forall (fun v => forall e, v = Err e -> exists c, e = Cap c) (mb_got r) /\
    mb_spc r <> TPanic /\ mb_rpc r <> VPanic /\
    (forall o j m, mb_spc r = TLen o j -> (try_send_step tS cidS m (TLen o j) (mb_ipc r)).1 = if decide (length q < QUEUE_DEPTH)%nat then THead o j else TRet (Ok false)) /\
    (forall o j, mb_rpc r = VLen o j -> (try_recv_step tR cidR (VLen o j) (mb_ipc r)).1 = if decide (q = []) then VRet (Ok None) else VTail o j) /\
    (mb_todo r <> [] -> (count is_sender sched < 7 * S (length (mb_sent r)))%nat) /\ (count is_receiver sched < 8 * S (length (mb_got r)))%nat.
Proof using All.
  intros Hf [Hsl Ht Hl Hh] r.
  assert (length (queue_of ep) = Z.to_nat (q_len ep)) as Hlq by (unfold queue_of; by rewrite length_fmap, length_seq).
  assert (mb_inv (queue_of ep) msgs (mb_init s msgs)) as Hi0.
  { split; try done. exists ep, (q_tail ep), (queue_of ep). split; [done|]. split; [|cbn; by rewrite app_nil_r].
    split; try done; cbn [head_ahead tail_ahead mb_init mb_spc mb_rpc]; [lia|lia|rewrite Hh, Nat.add_0_r; do 2 f_equal; lia|by rewrite Z.add_0_r, Z.mod_small|].
    intros k m Hk. unfold queue_of in Hk. rewrite list_lookup_fmap in Hk. apply fmap_Some in Hk as (k' & [-> _]%lookup_seq & ->). cbn [Nat.add] in *.
    unfold at_slot. destruct (lookup_lt_is_Some_2 (q_slots ep) (Z.to_nat ((q_tail ep + Z.of_nat k) mod 32))) as [x Hx]; [|by rewrite Hx].
    rewrite Hsl. pose proof (Z.mod_pos_bound (q_tail ep + Z.of_nat k) 32 ltac:(lia)). lia. }
  pose proof (mb_run_ok _ _ sched _ Hi0) as Hi. destruct (mb_run_work _ _ sched _ Hi0) as (W1 & W2 & _). fold r in Hi, W1, W2.
  destruct Hi as [(ep' & base & q & Hf' & Hr & Hs & Hro & Ho) _ Hc Hfs Hfg]. pose proof (endpoint_at_find _ _ _ _ Hf') as Hat. pose proof (ro_len _ _ _ _ _ Hr) as Hln. pose proof (ro_room _ _ _ _ _ Hr).
  exists q. split; [done|]. split; [done|]. split; [done|].
  split; [eapply Forall_impl; [exact Hfs|]; intros [m v] Hv e E; cbn in *; subst v; destruct e; [eauto|done]|].
  split; [eapply Forall_impl; [exact Hfg|]; intros v Hv e ->; destruct e; [eauto|done]|].
  split; [intros E; by rewrite E in Hs|]. split; [intros E; by rewrite E in Hro|].
  split. { intros o j m E. rewrite E in Hs. destruct Hs as [-> ->]. cbn [try_send_step]. rewrite Hat, Hln, Nat2Z.id. unfold QUEUE_DEPTH. cbn [fst].
    case_decide; destruct (Nat.leb_spec 32 (length q)); done || lia. }
  split. { intros o j E. rewrite E in Hro. destruct Hro as [-> ->]. cbn [try_recv_step]. rewrite Hat, Hln. cbn [fst]. case_decide as D; [by subst q|]. destruct q; [done|]. by rewrite (proj2 (Z.eqb_neq _ _)) by (cbn; lia). }
  unfold work_s, work_r in *. cbn [mb_init mb_sent mb_got mb_spc mb_rpc length accesses_s accesses_r] in W1, W2.
  split; [intros Hn; specialize (W1 Hn); destruct (mb_spc r); cbn [accesses_s] in W1; lia|destruct (mb_rpc r); cbn [accesses_r] in W2; lia].
Qed.
End mailbox.

(** ** A call that nothing interrupts is the handler *)

Lemma upd_endpoint_twice j f g s : upd_endpoint j g (upd_endpoint j f s) = upd_endpoint j (fun ep => g (f ep)) s.
Proof.
  unfold upd_endpoint. cbn [KERNEL ENDPOINTS]. f_equal. apply list_eq. intros n. destruct (decide (j = n)) as [<-|Hn]; [|by rewrite !list_lookup_alter_ne].
  rewrite !list_lookup_alter_eq. by destruct (ENDPOINTS s !! j).
Qed.

Lemma upd_endpoint_at j f s ep : endpoint_at s j = Some ep -> upd_endpoint j f s = set_endpoint j (f ep) s.
Proof.
  unfold endpoint_at, upd_endpoint, set_endpoint. intros (sl & Hsl & ->)%fmap_Some. f_equal. apply list_alter_ext; [|done].
  intros sl' Hsl'. by rewrite Hsl in Hsl'; injection Hsl' as ->.
Qed.

Lemma set_endpoint_same j s ep : endpoint_at s j = Some ep -> set_endpoint j ep s = s.
Proof.
  unfold endpoint_at, set_endpoint. intros (sl & Hsl & ->)%fmap_Some. destruct s as [k eps]. cbn [KERNEL ENDPOINTS] in *. f_equal.
  apply list_eq. intros n. destruct (decide (j = n)) as [<-|Hn]; [|by rewrite list_lookup_alter_ne].
  rewrite list_lookup_alter_eq, Hsl. cbn. by destruct sl.
Qed.

Definition try_send_run (n : nat) (t : CapabilityTable) (cap_id : Z) (msg : Message) (ps : try_send_pc * ipc) : try_send_pc * ipc :=
  Nat.iter n (fun ps => try_send_step t cap_id msg ps.1 ps.2) ps.
Definition try_recv_run (n : nat) (t : CapabilityTable) (cap_id : Z) (ps : try_recv_pc * ipc) : try_recv_pc * ipc :=
  Nat.iter n (fun ps => try_recv_step t cap_id ps.1 ps.2) ps.

Lemma try_send_ret n t cid msg v s : try_send_run n t cid msg (TRet v, s) = (TRet v, s).
Proof. induction n as [|n IH]; [done|]. unfold try_send_run in *. by rewrite Nat.iter_succ, IH. Qed.

Lemma try_recv_ret n t cid v s : try_recv_run n t cid (VRet v, s) = (VRet v, s).
Proof. induction n as [|n IH]; [done|]. unfold try_recv_run in *. by rewrite Nat.iter_succ, IH. Qed.

Lemma try_send_next n t cid msg pc s : try_send_run (S n) t cid msg (pc, s) = try_send_run n t cid msg (try_send_step t cid msg pc s).
Proof. unfold try_send_run. by rewrite Nat.iter_succ_r. Qed.

Lemma try_recv_next n t cid pc s : try_recv_run (S n) t cid (pc, s) = try_recv_run n t cid (try_recv_step t cid pc s).
Proof. unfold try_recv_run. by rewrite Nat.iter_succ_r. Qed.

(** Seven accesses of [try_send] on its own are the handler of [Ipc]. *)
Lemma try_send_alone t cid msg s s' v : try_send t cid msg s = Some (s', v) -> (forall sl, sl ∈ ENDPOINTS s -> 0 <= q_head (slot_endpoint sl)) ->
  try_send_run 7 t cid msg (TResolve, s) = (TRet v, s').
Proof.
  unfold try_send. intros H Hh. rewrite try_send_next. cbn [try_send_step]. destruct (resolve t cid SEND (KERNEL s)) as [k [cap|e]]; [|injection H as <- <-; apply try_send_ret].
  destruct (find_endpoint (object_id cap) (set_kernel k s)) as [[j ep]|] eqn:Hf; [|injection H as <- <-; apply try_send_ret].
  pose proof (endpoint_at_find _ _ _ _ Hf) as Hat. rewrite try_send_next. cbn [try_send_step]. rewrite Hat. unfold enqueue in H.
  destruct (QUEUE_DEPTH <=? Z.to_nat (q_len ep))%nat; [injection H as <- <-; rewrite try_send_ret; by rewrite (set_endpoint_same j _ ep)|].
  rewrite try_send_next. cbn [try_send_step]. rewrite Hat. rewrite try_send_next. cbn [try_send_step]. rewrite Hat.
  unfold wbyte in H. destruct (Nat.ltb_spec (Z.to_nat (q_head ep)) (length (q_slots ep))); [rewrite decide_True in H by done|by rewrite decide_False in H by lia].
  injection H as <- <-. rewrite try_send_next. cbn [try_send_step]. rewrite try_send_next. cbn [try_send_step]. rewrite try_send_next. cbn [try_send_step]. rewrite try_send_ret.
  rewrite !upd_endpoint_twice, (upd_endpoint_at j _ _ ep) by done. unfold next_slot. rewrite Z2Nat.id; [done|].
  unfold endpoint_at in Hat. apply fmap_Some in Hat as (sl & Hsl & ->). apply Hh. by eapply list_elem_of_lookup_2.
Qed.

(** Eight of [try_receive]. *)
Lemma try_receive_alone t cid s s' v : try_receive t cid s = Some (s', v) -> (forall sl, sl ∈ ENDPOINTS s -> 0 <= q_tail (slot_endpoint sl)) ->
  try_recv_run 8 t cid (VResolve, s) = (VRet v, s').
Proof.
  unfold try_receive, try_receive_on_object. intros H Hh. rewrite try_recv_next. cbn [try_recv_step]. destruct (resolve t cid RECEIVE (KERNEL s)) as [k [cap|e]]; [|injection H as <- <-; apply try_recv_ret].
  rewrite try_recv_next. cbn [try_recv_step]. destruct (find_endpoint (object_id cap) (set_kernel k s)) as [[j ep]|] eqn:Hf; [|injection H as <- <-; apply try_recv_ret].
  pose proof (endpoint_at_find _ _ _ _ Hf) as Hat. rewrite try_recv_next. cbn [try_recv_step]. rewrite Hat. unfold dequeue in H.
  destruct (q_len ep =? 0); [injection H as <- <-; rewrite try_recv_ret; by rewrite (set_endpoint_same j _ ep)|].
  rewrite try_recv_next. cbn [try_recv_step]. rewrite Hat. rewrite try_recv_next. cbn [try_recv_step]. rewrite Hat. cbn [mbind option_bind] in *.
  destruct (q_slots ep !! Z.to_nat (q_tail ep)) as [m|]; [|done]. cbn [mbind option_bind] in *. injection H as <- <-.
  rewrite try_recv_next. cbn [try_recv_step]. rewrite try_recv_next. cbn [try_recv_step]. rewrite try_recv_next. cbn [try_recv_step]. rewrite try_recv_ret.
  rewrite !upd_endpoint_twice, (upd_endpoint_at j _ _ ep) by done. unfold next_slot. rewrite Z2Nat.id; [done|].
  unfold endpoint_at in Hat. apply fmap_Some in Hat as (sl & Hsl & ->). apply Hh. by eapply list_elem_of_lookup_2.
Qed.

Module MailboxWitness.
Import IpcWitness.

(** The receiver looks before, while and after the first message is put in; the second is sent meanwhile. *)
Definition schedule : list mb_turn :=
  [SenderTurn; ReceiverTurn; ReceiverTurn; SenderTurn; SenderTurn; ReceiverTurn; SenderTurn; SenderTurn; SenderTurn; ReceiverTurn; ReceiverTurn; ReceiverTurn;
   ReceiverTurn; ReceiverTurn; SenderTurn; SenderTurn; SenderTurn; ReceiverTurn; SenderTurn; ReceiverTurn; SenderTurn; ReceiverTurn].

Lemma mailbox_concurrent_witness :
  let r := mb_run t0 t0 0 0 schedule (mb_init s0 [hello; world]) in
  mb_sent r = [(hello, Ok true)] /\ mb_todo r = [world] /\ mb_got r = [Ok None; Ok (Some hello)] /\ left_queue r = [hello] /\
  exists q, entered r = left_queue r ++ q /\ (length q <= QUEUE_DEPTH)%nat /\ mb_spc r <> TPanic /\ mb_rpc r <> VPanic.
Proof.
  intros r. do 4 (split; [by vm_compute|]).
  destruct (mailbox_concurrent_fifo t0 t0 0 0 cap0 cap0 0 0%nat eq_refl eq_refl eq_refl eq_refl s0 [hello; world] schedule endpoint_new) as (q & H1 & H2 & _ & _ & _ & H3 & H4 & _);
    [reflexivity|apply endpoint_new_ok|]. exists q. split; [exact H1|]. split; [exact H2|]. split; [exact H3|exact H4].
Defined.

(** ** Two senders *)

Definition two_step (st : try_send_pc * try_send_pc * ipc) (second : bool) : try_send_pc * try_send_pc * ipc :=
  let '(p1, p2, s) := st in
  if second then let '(p2, s) := try_send_step t0 0 world p2 s in (p1, p2, s)
  else let '(p1, s) := try_send_step t0 0 hello p1 s in (p1, p2, s).

(** Both read the same head before either stores the next one. *)
Definition race : list bool := [false; true; false; true; false; true; false; true; false; true; false; true; false; true].

(** With two senders the mailbox loses messages: in this schedule both calls return
    [true], but the first message is overwritten, and the receiver gets the second
    and then an empty message nobody sent. *)
Lemma two_try_sends_lose_message :
  let '(p1, p2, s) := foldl two_step (TResolve, TResolve, s0) race in
  p1 = TRet (Ok true) /\ p2 = TRet (Ok true) /\
  ('(s, a) ← try_receive t0 0 s; '(_, b) ← try_receive t0 0 s; Some (a, b)) = Some (Ok (Some world), Ok (Some message_default)).
Proof. by vm_compute. Qed.
End MailboxWitness.
