(* ===== verification/Vmm.v ===== *)
(** * Virtual memory ([kernel_rs/src/vmm.rs], the table walk of [iommu.rs])

    Page tables live in the physical memory of [Pmm]: a table is a frame of 512
    little-endian 64-bit entries, read and written through the direct map.  The
    walks are the code's, level by level; [None] is the panic of [zeroed_table].
    TLB maintenance ([invlpg], shootdown) has no counterpart: the model is of the
    tables the hardware walks. *)

From S2P Require Import Prelude Bits Pmm.

Definition KERNEL_VIRTUAL_BASE : Z := 0xFFFFFFFF80000000.
Definition PHYS_MAP_BASE : Z := 0xFFFF800000000000.
Definition MMIO_VIRTUAL_BASE : Z := 0xFFFFFE0000000000.

Definition PAGE_PRESENT : Z := Z.shiftl 1 0.
Definition PAGE_WRITABLE : Z := Z.shiftl 1 1.
Definition PAGE_USER : Z := Z.shiftl 1 2.
Definition PAGE_CACHE_DISABLE : Z := Z.shiftl 1 4.
Definition PAGE_PAT : Z := Z.shiftl 1 7.
Definition PAGE_GLOBAL : Z := Z.shiftl 1 8.
Definition PAGE_NO_EXECUTE : Z := Z.shiftl 1 63.

(** ** Words of physical memory *)

Definition rd64 (m : Z -> Z) (p : Z) : Z := le_val (m <$> ((fun k => p + k) <$> range 0 8)).

Definition wr64 (m : Z -> Z) (p v : Z) : Z -> Z :=
  fun a => if (p <=? a) && (a <? p + 8) then (v / 2 ^ (8 * (a - p))) mod 256 else m a.

(** [*table.add(i)] *)
Definition entry (m : Z -> Z) (table i : Z) : Z := rd64 m (table + 8 * i).
Definition set_entry (table i v : Z) (s : pmm) : pmm := set_mem (wr64 (MEM s) (table + 8 * i) v) s.

Definition present (e : Z) : bool := negb (Z.land e PAGE_PRESENT =? 0).

(** ** Walks that read *)

Definition debug_translate (m : Z -> Z) (pml4 vaddr : Z) : Z :=
  let '(i4, i3, i2, i1) := split_indices vaddr in
  if negb (present (entry m pml4 i4)) then 0 else
  let pdpt := Z.land (entry m pml4 i4) ADDR_MASK in
  if negb (present (entry m pdpt i3)) then 0 else
  let pd := Z.land (entry m pdpt i3) ADDR_MASK in
  if negb (present (entry m pd i2)) then 0 else
  let pt := Z.land (entry m pd i2) ADDR_MASK in
  entry m pt i1.

Definition virt_to_phys (m : Z -> Z) (pml4 vaddr : Z) : option Z :=
  let '(i4, i3, i2, i1) := split_indices vaddr in
  if negb (present (entry m pml4 i4)) then None else
  let pdpt := Z.land (entry m pml4 i4) ADDR_MASK in
  if negb (present (entry m pdpt i3)) then None else
  let pd := Z.land (entry m pdpt i3) ADDR_MASK in
  if negb (present (entry m pd i2)) then None else
  let pt := Z.land (entry m pd i2) ADDR_MASK in
  let pte := entry m pt i1 in
  if negb (present pte) then None else
  Some (Z.lor (Z.land pte ADDR_MASK) (Z.land vaddr 0xFFF)).

(** The walk of [write_user_bytes] and [read_user_bytes], which do not test the
    present bits again. *)
Definition user_phys (m : Z -> Z) (pml4 addr : Z) : Z :=
  let '(i4, i3, i2, i1) := split_indices addr in
  let pdpt := Z.land (entry m pml4 i4) ADDR_MASK in
  let pd := Z.land (entry m pdpt i3) ADDR_MASK in
  let pt := Z.land (entry m pd i2) ADDR_MASK in
  let leaf_phys := Z.land (entry m pt i1) ADDR_MASK in
  u64 (leaf_phys + Z.land addr 0xFFF).

Definition set_byte (m : Z -> Z) (p b : Z) : Z -> Z := fun a => if a =? p then b else m a.

(** [vaddr + i] for each [i] of [data.iter().enumerate()]. *)
Definition buffer (vaddr : Z) (len : nat) : list Z := (fun i => u64 (vaddr + Z.of_nat i)) <$> seq 0 len.

Definition write_user_bytes (m : Z -> Z) (pml4 vaddr : Z) (data : bytes) : Z -> Z :=
  foldl (fun m ab => set_byte m (user_phys m pml4 ab.1) ab.2) m (zip (buffer vaddr (length data)) data).

Definition read_user_bytes (m : Z -> Z) (pml4 vaddr : Z) (len : nat) : bytes :=
  (fun addr => m (user_phys m pml4 addr)) <$> buffer vaddr len.

(** [while page < end]: [None] when the fuel runs out. *)
Fixpoint validate_loop (fuel : nat) (m : Z -> Z) (pml4 required page end_ : Z) : option bool :=
  match fuel with
  | O => None
  | S fuel' =>
      if page <? end_ then
        if Z.land (debug_translate m pml4 page) required =? required
        then validate_loop fuel' m pml4 required (u64 (page + 0x1000)) end_
        else Some false
      else Some true
  end.

(** Both validators: they differ in the required bits only. *)
Definition validate_user_buffer (fuel : nat) (m : Z -> Z) (pml4 required vaddr len : Z) : option bool :=
  if len =? 0 then Some false else
  if 2 ^ 64 <=? vaddr + len then Some false else
  validate_loop fuel m pml4 required (Z.land vaddr (wnot 64 0xFFF)) (vaddr + len).

Definition validate_user_buffer_writable (fuel : nat) (m : Z -> Z) (kernel_pml4 pml4 vaddr len : Z) :=
  validate_user_buffer fuel m pml4
    (if pml4 =? kernel_pml4 then Z.lor PAGE_PRESENT PAGE_WRITABLE
     else Z.lor (Z.lor PAGE_PRESENT PAGE_WRITABLE) PAGE_USER) vaddr len.

Definition validate_user_buffer_readable (fuel : nat) (m : Z -> Z) (kernel_pml4 pml4 vaddr len : Z) :=
  validate_user_buffer fuel m pml4
    (if pml4 =? kernel_pml4 then PAGE_PRESENT else Z.lor PAGE_PRESENT PAGE_USER) vaddr len.

(** ** Walks that write *)

Definition zeroed_table (s : pmm) : option (pmm * Z) :=
  '(s, page) ← alloc_page s;
  if page =? 0 then None else Some (s, page).

(** One level of the walk: the table the entry points to, allocated with
    [alloc] and linked with [inter] when the entry is not present. *)
Definition next_table (alloc : pmm -> option (pmm * Z)) (inter table i : Z) (s : pmm)
  : option (pmm * Z) :=
  s ← (if present (entry (MEM s) table i) then Some s
       else '(s, new) ← alloc s; Some (set_entry table i (Z.lor new inter) s));
  Some (s, Z.land (entry (MEM s) table i) ADDR_MASK).

Definition map_walk (alloc : pmm -> option (pmm * Z)) (inter pml4 vaddr leaf : Z) (s : pmm)
  : option pmm :=
  let '(i4, i3, i2, i1) := split_indices vaddr in
  '(s, pdpt) ← next_table alloc inter pml4 i4 s;
  '(s, pd) ← next_table alloc inter pdpt i3 s;
  '(s, pt) ← next_table alloc inter pd i2 s;
  Some (set_entry pt i1 leaf s).

Definition intermediate_flags : Z := Z.lor (Z.lor PAGE_PRESENT PAGE_WRITABLE) PAGE_USER.

Definition map_page (pml4 vaddr paddr flags : Z) (s : pmm) : option pmm :=
  map_walk zeroed_table intermediate_flags pml4 vaddr
    (Z.lor (Z.lor (Z.land paddr ADDR_MASK) flags) PAGE_PRESENT) s.

(** [iommu::vmm_map_iommu_page]: the same walk, without the exhaustion check. *)
Definition vmm_map_iommu_page (pml4 vaddr paddr : Z) (s : pmm) : option pmm :=
  map_walk alloc_page (Z.lor PAGE_PRESENT PAGE_WRITABLE) pml4 vaddr
    (Z.lor (Z.lor (Z.land paddr ADDR_MASK) PAGE_PRESENT) PAGE_WRITABLE) s.

Definition unmap_page (pml4 vaddr : Z) (s : pmm) : pmm :=
  let m := MEM s in
  let '(i4, i3, i2, i1) := split_indices vaddr in
  if negb (present (entry m pml4 i4)) then s else
  let pdpt := Z.land (entry m pml4 i4) ADDR_MASK in
  if negb (present (entry m pdpt i3)) then s else
  let pd := Z.land (entry m pdpt i3) ADDR_MASK in
  if negb (present (entry m pd i2)) then s else
  let pt := Z.land (entry m pd i2) ADDR_MASK in
  set_entry pt i1 0 s.

(** ** Address spaces *)

Record vmm := mkVmm {
  PMM : pmm; KERNEL_PML4_PHYS : Z; CR3 : Z;
  LAST_MMIO_PAGE_PADDR : Z; LAST_FB_PAGE_PADDR : Z }.

Definition set_pmm (s : pmm) (v : vmm) : vmm :=
  mkVmm s (KERNEL_PML4_PHYS v) (CR3 v) (LAST_MMIO_PAGE_PADDR v) (LAST_FB_PAGE_PADDR v).

Definition map_page_in (pml4 vaddr paddr flags : Z) (v : vmm) : option vmm :=
  s ← map_page pml4 vaddr paddr flags (PMM v); Some (set_pmm s v).

Definition map_heap_page (vaddr paddr : Z) (v : vmm) : option vmm :=
  map_page_in (KERNEL_PML4_PHYS v) vaddr paddr
    (Z.lor (Z.lor PAGE_WRITABLE PAGE_NO_EXECUTE) PAGE_GLOBAL) v.

Definition new_address_space (v : vmm) : option (vmm * Z) :=
  '(s, new_pml4) ← alloc_page (PMM v);
  let s := foldl (fun s i => set_entry new_pml4 i (entry (MEM s) (KERNEL_PML4_PHYS v) i) s) s (range 256 512) in
  Some (set_pmm s v, new_pml4).

Definition switch_address_space (pml4 : Z) (v : vmm) : vmm :=
  mkVmm (PMM v) (KERNEL_PML4_PHYS v) pml4 (LAST_MMIO_PAGE_PADDR v) (LAST_FB_PAGE_PADDR v).
Definition current_cr3 (v : vmm) : Z := Z.land (CR3 v) 0x000FFFFFFFFFF000.

(** One level of the teardown: for each present entry of the table, tear down
    what it points to, then free the frame. *)
Definition destroy_table (sub : Z -> pmm -> option pmm) (n : Z) (table : Z) (s : pmm) : option pmm :=
  foldM (fun s i =>
    let e := entry (MEM s) table i in
    if present e then s ← sub (Z.land e ADDR_MASK) s; free_page (Z.land e ADDR_MASK) s else Some s)
    s (range 0 n).

Definition destroy_address_space (pml4 : Z) (v : vmm) : option vmm :=
  if (pml4 =? 0) || (pml4 =? KERNEL_PML4_PHYS v) then Some v else
  let v := if current_cr3 v =? pml4 then switch_address_space (KERNEL_PML4_PHYS v) v else v in
  let pt := destroy_table (fun _ s => Some s) 512 in
  let pd := destroy_table pt 512 in
  let pdpt := destroy_table pd 512 in
  s ← destroy_table pdpt 256 pml4 (PMM v);
  s ← free_page pml4 s;
  Some (set_pmm s v).

(** ** Device mappings *)

Definition map_mmio_page (paddr : Z) (v : vmm) : option (vmm * Z) :=
  let page_paddr := Z.land paddr (wnot 64 0xFFF) in
  let vaddr := u64 (MMIO_VIRTUAL_BASE + page_paddr) in
  v ← (if LAST_MMIO_PAGE_PADDR v =? page_paddr then Some v else
       s ← map_page (KERNEL_PML4_PHYS v) vaddr page_paddr
             (Z.lor (Z.lor (Z.lor PAGE_WRITABLE PAGE_NO_EXECUTE) PAGE_CACHE_DISABLE) PAGE_GLOBAL) (PMM v);
       Some (mkVmm s (KERNEL_PML4_PHYS v) (CR3 v) page_paddr (LAST_FB_PAGE_PADDR v)));
  Some (v, u64 (vaddr + Z.land paddr 0xFFF)).

Definition FB_FLAGS : Z := Z.lor (Z.lor (Z.lor PAGE_WRITABLE PAGE_NO_EXECUTE) PAGE_PAT) PAGE_GLOBAL.

Definition map_framebuffer_page (paddr : Z) (v : vmm) : option (vmm * Z) :=
  let page_paddr := Z.land paddr (wnot 64 0xFFF) in
  let vaddr := u64 (MMIO_VIRTUAL_BASE + page_paddr) in
  v ← (if LAST_FB_PAGE_PADDR v =? page_paddr then Some v else
       s ← map_page (KERNEL_PML4_PHYS v) vaddr page_paddr FB_FLAGS (PMM v);
       Some (mkVmm s (KERNEL_PML4_PHYS v) (CR3 v) (LAST_MMIO_PAGE_PADDR v) page_paddr));
  Some (v, u64 (vaddr + Z.land paddr 0xFFF)).

Definition map_framebuffer_range (paddr size : Z) (v : vmm) : option vmm :=
  let start_page := Z.land paddr (wnot 64 0xFFF) in
  let end_page := Z.land (u64 (paddr + size + 0xFFF)) (wnot 64 0xFFF) in
  let pages := Z.to_nat ((end_page - start_page + 0xFFF) / 0x1000) in
  s ← foldM (fun s k =>
        let p := u64 (start_page + Z.of_nat k * 0x1000) in
        map_page (KERNEL_PML4_PHYS v) (u64 (MMIO_VIRTUAL_BASE + p)) p FB_FLAGS s) (PMM v) (seq 0 pages);
  Some (mkVmm s (KERNEL_PML4_PHYS v) (CR3 v) (LAST_MMIO_PAGE_PADDR v) start_page).

(** ** Boot *)

Record KernelSegment := mkSegment {
  seg_vaddr : Z; seg_paddr : Z; seg_len : Z; seg_writable : bool; seg_executable : bool }.

(** A request to map one page: address, frame, flags. *)
Abbreviation request := (Z * Z * Z)%type.

Definition segment_flags (seg : KernelSegment) : Z :=
  let flags := Z.lor PAGE_NO_EXECUTE PAGE_GLOBAL in
  let flags := if seg_writable seg then Z.lor flags PAGE_WRITABLE else flags in
  if seg_executable seg then Z.land flags (wnot 64 PAGE_NO_EXECUTE) else flags.

Definition segment_requests (seg : KernelSegment) : list request :=
  let pages := u64 (seg_len seg + PAGE_SIZE - 1) / PAGE_SIZE in
  (fun p => (u64 (seg_vaddr seg + p * PAGE_SIZE), u64 (seg_paddr seg + p * PAGE_SIZE), segment_flags seg))
  <$> range 0 pages.

Definition direct_map_requests (span : Z) : list request :=
  (fun p => (u64 (PHYS_MAP_BASE + p * PAGE_SIZE), p * PAGE_SIZE,
             Z.lor (Z.lor PAGE_WRITABLE PAGE_NO_EXECUTE) PAGE_GLOBAL))
  <$> range 0 (span / PAGE_SIZE).

Definition stack_requests (current_stack_ptr : Z) : list request :=
  let aligned := Z.land current_stack_ptr (wnot 64 0x1FFFFF) in
  let stack_region_base := u64 (aligned - 0x200000) in
  (fun k => (u64 (stack_region_base + k * PAGE_SIZE), u64 (stack_region_base + k * PAGE_SIZE),
             Z.lor (Z.lor PAGE_WRITABLE PAGE_NO_EXECUTE) PAGE_GLOBAL))
  <$> range 0 (0x600000 / PAGE_SIZE).

Definition map_all (pml4 : Z) (rs : list request) (s : pmm) : option pmm :=
  foldM (fun s '(vaddr, paddr, flags) => map_page pml4 vaddr paddr flags s) s rs.

(** [init]: the kernel's own tables, then the switch to them. *)
Definition vmm_init (segments : list KernelSegment) (current_stack_ptr : Z) (v : vmm) : option vmm :=
  '(s, pml4) ← zeroed_table (PMM v);
  s ← map_all pml4 (segments ≫= segment_requests) s;
  s ← map_all pml4 (direct_map_requests (total_physical_span (STATS s))) s;
  s ← map_all pml4 (stack_requests current_stack_ptr) s;
  Some (mkVmm s pml4 pml4 (LAST_MMIO_PAGE_PADDR v) (LAST_FB_PAGE_PADDR v)).

(** ** Words of memory *)

Lemma range_0_8 : range 0 8 = [0; 1; 2; 3; 4; 5; 6; 7].
Proof. reflexivity. Qed.

Lemma rd64_ext m m' p : (forall a, p <= a < p + 8 -> m a = m' a) -> rd64 m p = rd64 m' p.
Proof.
  intros H. unfold rd64. rewrite range_0_8. simpl. by rewrite !H by lia.
Qed.

Lemma rd64_zero m p : (forall a, p <= a < p + 8 -> m a = 0) -> rd64 m p = 0.
Proof. intros H. unfold rd64. rewrite range_0_8. simpl. by rewrite !H by lia. Qed.

Lemma rd64_wr64_eq m p v : in_width 64 v -> rd64 (wr64 m p v) p = v.
Proof.
  intros Hv. rewrite <- (wrap_small 64 v Hv) at 2. unfold wrap. change 64 with (8 * Z.of_nat 8).
  rewrite <- le_val_le_bytes. unfold rd64, wr64. f_equal. rewrite range_0_8. simpl.
  rewrite !(proj2 (Z.leb_le p _)), !(proj2 (Z.ltb_lt _ (p + 8))) by lia. cbn [andb].
  repeat match goal with |- context[p + ?k - p] => replace (p + k - p) with k by lia end.
  rewrite !Z.div_div by lia. change (2 ^ (8 * 0)) with 1. by rewrite Z.div_1_r.
Qed.

Lemma rd64_wr64_ne m p q v : p + 8 <= q \/ q + 8 <= p -> rd64 (wr64 m p v) q = rd64 m q.
Proof.
  intros H. apply rd64_ext. intros a Ha. unfold wr64.
  destruct (Z.leb_spec p a), (Z.ltb_spec a (p + 8)); simpl; done || lia.
Qed.

Lemma rd64_width m p : (forall a, is_byte (m a)) -> in_width 64 (rd64 m p).
Proof.
  intros Hm. unfold rd64. change 64 with (8 * Z.of_nat (length (m <$> ((fun k => p + k) <$> range 0 8)))).
  apply le_val_range, Forall_fmap, Forall_forall. intros a _. apply Hm.
Qed.

Lemma wr64_bytes m p v : (forall a, is_byte (m a)) -> forall a, is_byte (wr64 m p v a).
Proof. intros Hm a. unfold wr64. destruct (_ && _); [|apply Hm]. apply Z.mod_pos_bound. lia. Qed.

Lemma zero_page_bytes m p : (forall a, is_byte (m a)) -> forall a, is_byte (zero_page p m a).
Proof. intros Hm a. unfold zero_page. destruct (_ && _); [split; lia|apply Hm]. Qed.

(** A frame: a page of the physical address space. *)
Definition is_frame (f : Z) : Prop := 0 <= f < 2 ^ 52 /\ f mod 4096 = 0.

Lemma masked_is_frame e : is_frame (Z.land e ADDR_MASK).
Proof.
  replace ADDR_MASK with (Z.shiftl (Z.ones 40) 12) by done. split.
  - apply (in_width_bits 52); [lia|apply Z.land_nonneg; right; done|].
    intros i Hi. rewrite Z.land_spec, Z.shiftl_spec, Z.ones_spec_high by lia. apply andb_false_r.
  - change 4096 with (2 ^ 12). rewrite <- Z.land_ones by lia. apply Z.bits_inj'. intros i Hi.
    rewrite !Z.land_spec, Z.bits_0. destruct (Z_lt_le_dec i 12).
    + rewrite Z.shiftl_spec_low by lia. by rewrite andb_false_r.
    + rewrite Z.ones_spec_high by lia. apply andb_false_r.
Qed.

Lemma frame_gap f g : is_frame f -> is_frame g -> f <> g -> f + 4096 <= g \/ g + 4096 <= f.
Proof. intros [Hf Hf0] [Hg Hg0] Hne. Z.div_mod_to_equations. lia. Qed.

Definition is_index (i : Z) : Prop := 0 <= i < 512.

Lemma entry_set_eq f i v s : in_width 64 v -> entry (MEM (set_entry f i v s)) f i = v.
Proof. intros. by apply rd64_wr64_eq. Qed.

Lemma entry_set_ne f i v s g j :
  is_frame f -> is_frame g -> is_index i -> is_index j -> f <> g \/ i <> j ->
  entry (MEM (set_entry f i v s)) g j = entry (MEM s) g j.
Proof.
  intros Hf Hg Hi Hj Hne. apply rd64_wr64_ne. red in Hi, Hj.
  destruct (decide (f = g)) as [->|Hfg]; [destruct Hne as [|Hne]; [done|lia]|].
  pose proof (frame_gap f g Hf Hg Hfg). lia.
Qed.

Lemma entry_zero_page f g j m :
  is_frame f -> is_frame g -> is_index j ->
  entry (zero_page f m) g j = if decide (f = g) then 0 else entry m g j.
Proof.
  intros Hf Hg Hj. red in Hj. unfold entry. case_decide as Hfg.
  - subst g. apply rd64_zero. intros a Ha. unfold zero_page, PAGE_SIZE.
    rewrite (proj2 (Z.leb_le _ _)), (proj2 (Z.ltb_lt _ _)) by lia. done.
  - apply rd64_ext. intros a Ha. pose proof (frame_gap f g Hf Hg Hfg). unfold zero_page, PAGE_SIZE.
    destruct (Z.leb_spec f a), (Z.ltb_spec a (f + 4096)); simpl; done || lia.
Qed.

(** ** The tables as a forest *)

Definition next_frame (m : Z -> Z) (table i : Z) : option Z :=
  if present (entry m table i) then Some (Z.land (entry m table i) ADDR_MASK) else None.

(** The table reached from [root] through a list of indices. *)
Definition frame_of (m : Z -> Z) (root : Z) (p : list Z) : option Z := foldM (next_frame m) root p.

Definition path_ok (p : list Z) : Prop := Forall is_index p /\ (length p <= 3)%nat.

(** Paths through the half of the top-level table that processes share. *)
Definition kernel_half (p : list Z) : Prop := match p with i :: _ => 256 <= i | [] => False end.

(** The tables of a set of address spaces: every table is a frame the physical
    allocator counts as used, and no table is reached in two ways, except that
    different roots may share tables of the kernel half. *)
Record space_ok (s : pmm) (roots : list Z) : Prop := {
  so_pmm : pmm_inv s;
  so_zero : page_zero_reserved s;
  so_span : TOTAL_SPAN_PAGES s * PAGE_SIZE <= 2 ^ 52;
  so_bytes : forall a, is_byte (MEM s a);
  so_root : forall r, r ∈ roots -> is_frame r;
  so_used : forall r p f, r ∈ roots -> path_ok p -> frame_of (MEM s) r p = Some f ->
    bit (USED_BITMAP s) (f / PAGE_SIZE) = true;
  so_inj : forall r r' p q f, r ∈ roots -> r' ∈ roots -> path_ok p -> path_ok q ->
    frame_of (MEM s) r p = Some f -> frame_of (MEM s) r' q = Some f ->
    p = q /\ (r = r' \/ kernel_half p)
}.

(** A frame in use that is none of these tables. *)
Definition foreign (s : pmm) (roots : list Z) (g : Z) : Prop :=
  is_frame g /\ bit (USED_BITMAP s) (g / PAGE_SIZE) = true /\
  forall r q, r ∈ roots -> path_ok q -> frame_of (MEM s) r q <> Some g.

(** [s'] leaves the foreign frames of [s] alone. *)
Definition spares (s s' : pmm) (roots : list Z) : Prop :=
  forall g, foreign s roots g -> foreign s' roots g /\
    forall j, is_index j -> entry (MEM s') g j = entry (MEM s) g j.

Lemma path_ok_app p q : path_ok (p ++ q) -> path_ok p /\ Forall is_index q.
Proof. intros [[Hp Hq]%Forall_app Hl]. rewrite length_app in Hl. by split; [split; [|lia]|]. Qed.

Lemma path_ok_snoc p i : path_ok (p ++ [i]) -> path_ok p /\ is_index i /\ (length p <= 2)%nat.
Proof.
  intros [[Hp [Hi _]%Forall_cons]%Forall_app Hl]. rewrite length_app in Hl. simpl in Hl.
  by split; [split; [|lia]|split; [|lia]].
Qed.

Lemma frame_of_snoc m r p i : frame_of m r (p ++ [i]) = t ← frame_of m r p; next_frame m t i.
Proof. unfold frame_of. rewrite foldM_app. destruct (foldM _ r p); simpl; [|done]. by destruct (next_frame _ _ _). Qed.

Lemma frame_of_is_frame m r p f : is_frame r -> frame_of m r p = Some f -> is_frame f.
Proof.
  intros Hr. destruct p as [|i p _] using rev_ind; [by intros [= <-]|].
  rewrite frame_of_snoc. destruct (frame_of m r p) as [t|]; simpl; [|done].
  unfold next_frame. destruct (present _); [|done]. intros [= <-]. apply masked_is_frame.
Qed.

Lemma present_testbit e : present e = Z.testbit e 0.
Proof. unfold present, PAGE_PRESENT. by apply land_shift_testbit. Qed.

Lemma debug_translate_frame m r v :
  debug_translate m r v =
  let '(i4, i3, i2, i1) := split_indices v in
  match frame_of m r [i4; i3; i2] with Some t => entry m t i1 | None => 0 end.
Proof.
  unfold debug_translate. destruct (split_indices v) as [[[i4 i3] i2] i1]. unfold frame_of. simpl.
  unfold next_frame. destruct (present (entry m r i4)); simpl; [|done].
  destruct (present (entry m (Z.land (entry m r i4) ADDR_MASK) i3)); simpl; [|done].
  by destruct (present _).
Qed.

Lemma split_indices_ok v i4 i3 i2 i1 :
  split_indices v = (i4, i3, i2, i1) -> path_ok [i4; i3; i2] /\ is_index i1.
Proof.
  unfold split_indices. intros [= <- <- <- <-].
  assert (forall k, is_index (Z.land (Z.shiftr v k) 0x1ff)) as H.
  { intros k. red. change 0x1ff with (Z.ones 9). rewrite Z.land_ones by lia. apply Z.mod_pos_bound. lia. }
  split; [split; [|simpl; lia]|apply H]. repeat (apply Forall_cons_2; [apply H|]). constructor.
Qed.

(** *** Linking a fresh table *)

Section link.
Context (s s1 : pmm) (roots : list Z) (r : Z) (p : list Z) (i f n inter : Z).
Context (Hok : space_ok s roots) (Hr : r ∈ roots) (Hp : path_ok (p ++ [i])).
Context (Hf : frame_of (MEM s) r p = Some f) (Hnp : next_frame (MEM s) f i = None).
Context (Hal : allocates s n s1) (Hn : 0 < n).
Context (Hi0 : Z.testbit inter 0 = true) (Him : Z.land inter ADDR_MASK = 0) (Hiw : in_width 12 inter).

Let s2 := set_entry f i (Z.lor (n * PAGE_SIZE) inter) s1.

Lemma fresh_is_frame : is_frame (n * PAGE_SIZE).
Proof using Hal Hok Hn.
  pose proof (al_range _ _ _ Hal). pose proof (so_span _ _ Hok). unfold PAGE_SIZE in *.
  split; [lia|by apply Z.mod_mul].
Qed.

Lemma fresh_not_table r' q g :
  r' ∈ roots -> path_ok q -> frame_of (MEM s) r' q = Some g -> g <> n * PAGE_SIZE.
Proof using Hal Hok.
  intros Hr' Hq Hg ->. pose proof (so_used _ _ Hok _ _ _ Hr' Hq Hg) as Hu.
  unfold PAGE_SIZE in Hu. rewrite Z.div_mul in Hu by done. by rewrite (al_was_free _ _ _ Hal) in Hu.
Qed.

Lemma link_value : frame_from_entry (Z.lor (n * PAGE_SIZE) inter) = n * PAGE_SIZE.
Proof using Hal Hok Hn Him. destruct fresh_is_frame. by apply frame_from_entry_roundtrip. Qed.

Lemma link_entry r' q g j :
  r' ∈ roots -> path_ok q -> is_index j -> frame_of (MEM s) r' q = Some g ->
  entry (MEM s2) g j =
    if decide (g = f /\ j = i) then Z.lor (n * PAGE_SIZE) inter else entry (MEM s) g j.
Proof using Hal Hok Hn Hr Hp Hf Hiw.
  intros Hr' Hq Hj Hg. apply path_ok_snoc in Hp as (Hpp & Hii & _).
  assert (is_frame f) by (eapply frame_of_is_frame, Hf; by eapply so_root).
  assert (is_frame g) by (eapply frame_of_is_frame, Hg; by eapply so_root).
  case_decide as Hd.
  - destruct Hd as [-> ->]. apply entry_set_eq. apply in_width_lor; [lia| |by eapply (in_width_mono 12)].
    destruct fresh_is_frame. apply (in_width_mono 52); [lia|done].
  - unfold s2. rewrite entry_set_ne; [|done..|by apply not_and_l in Hd; naive_solver].
    rewrite (al_mem _ _ _ Hal), entry_zero_page by (done || apply fresh_is_frame).
    rewrite decide_False; [done|]. apply not_eq_sym. by eapply fresh_not_table.
Qed.

Lemma link_fresh_entry j : is_index j -> entry (MEM s2) (n * PAGE_SIZE) j = 0.
Proof using Hal Hok Hn Hr Hp Hf.
  intros Hj. apply path_ok_snoc in Hp as (Hpp & Hii & _).
  assert (is_frame f) by (eapply frame_of_is_frame, Hf; by eapply so_root).
  unfold s2. rewrite entry_set_ne; [|done|apply fresh_is_frame|done..|].
  - rewrite (al_mem _ _ _ Hal), entry_zero_page by (done || apply fresh_is_frame). by rewrite decide_True.
  - left. by eapply fresh_not_table.
Qed.

Lemma link_next r' q g j :
  r' ∈ roots -> path_ok q -> is_index j -> frame_of (MEM s) r' q = Some g ->
  next_frame (MEM s2) g j =
    if decide (g = f /\ j = i) then Some (n * PAGE_SIZE) else next_frame (MEM s) g j.
Proof using Hal Hok Hn Hr Hp Hf Hiw Hi0 Him.
  intros Hr' Hq Hj Hg. unfold next_frame. rewrite (link_entry _ _ _ _ Hr' Hq Hj Hg).
  case_decide; [|done]. rewrite present_testbit, Z.lor_spec, Hi0, orb_true_r.
  f_equal. exact link_value.
Qed.

(** Exactly one table appears: the fresh one, under the linked entry. *)
Lemma link_frames r' q g :
  r' ∈ roots -> path_ok q ->
  frame_of (MEM s2) r' q = Some g <->
  frame_of (MEM s) r' q = Some g \/ (g = n * PAGE_SIZE /\ q = p ++ [i] /\ frame_of (MEM s) r' p = Some f).
Proof using All.
  intros Hr' Hq. revert g. induction q as [|j q IH] using rev_ind; intros g.
  { split; [by left|]. intros [|(_ & He & _)]; [done|]. by destruct p. }
  apply path_ok_snoc in Hq as (Hq & Hj & _). specialize (IH Hq). rewrite !frame_of_snoc. split.
  - destruct (frame_of (MEM s2) r' q) as [t|] eqn:Ht; cbn [mbind option_bind]; [|done]. intros Hg.
    destruct (proj1 (IH t) eq_refl) as [Hold|(-> & -> & Hpf)].
    + rewrite (link_next _ _ _ _ Hr' Hq Hj Hold) in Hg. rewrite Hold. cbn [mbind option_bind].
      case_decide as Hd; [|by left]. destruct Hd as [-> ->]. right.
      apply path_ok_snoc in Hp as (Hpp & _). simplify_eq.
      destruct (so_inj _ _ Hok _ _ _ _ _ Hr' Hr Hq Hpp Hold Hf) as [-> _]. done.
    + exfalso. unfold next_frame in Hg. rewrite link_fresh_entry in Hg by done. done.
  - intros [Hg|(-> & [-> ->]%app_inj_tail & Hpf)].
    + destruct (frame_of (MEM s) r' q) as [t|] eqn:Ht; cbn [mbind option_bind] in Hg; [|done].
      rewrite (proj2 (IH t) (or_introl eq_refl)). cbn [mbind option_bind]. rewrite (link_next _ _ _ _ Hr' Hq Hj Ht).
      case_decide as Hd; [|done]. destruct Hd as [-> ->]. by rewrite Hnp in Hg.
    + rewrite (proj2 (IH f) (or_introl Hpf)). cbn [mbind option_bind]. rewrite (link_next _ _ _ _ Hr' Hq Hj Hpf).
      by rewrite decide_True.
Qed.

Lemma link_space_ok : space_ok s2 roots.
Proof using All.
  pose proof Hal as [_ Hwf Hup Hres Hsp _ Hinv]. constructor; cbn.
  - by destruct Hinv; constructor.
  - unfold page_zero_reserved in *. cbn. rewrite Hres, Hsp. apply Hok.
  - cbn. rewrite Hsp. apply Hok.
  - apply wr64_bytes. rewrite (al_mem _ _ _ Hal). apply zero_page_bytes, Hok.
  - apply Hok.
  - intros r' q g Hr' Hq [Hg|(-> & _)]%link_frames; [| |done..].
    + destruct Hup as (_ & _ & Hb). pose proof (so_used _ _ Hok _ _ _ Hr' Hq Hg) as Hu.
      rewrite Hb; [by destruct (_ =? _)|]. apply Z.div_pos; [|done].
      eapply frame_of_is_frame in Hg; [apply Hg|by eapply so_root].
    + destruct Hup as (_ & _ & Hb). unfold PAGE_SIZE. rewrite Z.div_mul, Hb by lia. by rewrite Z.eqb_refl.
  - intros r1 r2 q1 q2 g Hr1 Hr2 Hq1 Hq2 H1 H2. apply link_frames in H1; [|done..]. apply link_frames in H2; [|done..].
    destruct H1 as [Hg1|(Hg1 & Hp1 & Hf1)], H2 as [Hg2|(Hg2 & Hp2 & Hf2)].
    + by eapply (so_inj _ _ Hok).
    + exfalso. exact (fresh_not_table _ _ _ Hr1 Hq1 Hg1 Hg2).
    + exfalso. exact (fresh_not_table _ _ _ Hr2 Hq2 Hg2 Hg1).
    + subst. apply path_ok_snoc in Hp as (Hpp & _). split; [done|].
      destruct (so_inj _ _ Hok _ _ _ _ _ Hr1 Hr2 Hpp Hpp Hf1 Hf2) as [_ [->|Hk]]; [by left|right].
      by destruct p.
Qed.

Lemma link_spares : spares s s2 roots.
Proof using All.
  intros g (Hg & Hu & Hnt). assert (g <> n * PAGE_SIZE) as Hgn.
  { intros ->. unfold PAGE_SIZE in Hu. rewrite Z.div_mul in Hu by done. by rewrite (al_was_free _ _ _ Hal) in Hu. }
  pose proof (proj1 (path_ok_snoc _ _ Hp)) as Hpp. pose proof (proj1 (proj2 (path_ok_snoc _ _ Hp))) as Hii.
  assert (is_frame f) by (eapply frame_of_is_frame, Hf; by eapply so_root).
  split; [split_and!; [done| |]|].
  - destruct (al_used _ _ _ Hal) as (_ & _ & Hb). cbn. rewrite Hb, Hu; [by destruct (_ =? _)|].
    apply Z.div_pos; [apply Hg|done].
  - intros r' q Hr' Hq [Hq'|(? & _)]%link_frames; [by eapply Hnt|done..].
  - intros j Hj. unfold s2. rewrite entry_set_ne; [|done..|left; intros <-; by eapply Hnt].
    rewrite (al_mem _ _ _ Hal), entry_zero_page by (done || apply fresh_is_frame). by rewrite decide_False.
Qed.

Lemma link_translate r' v : r' ∈ roots -> debug_translate (MEM s2) r' v = debug_translate (MEM s) r' v.
Proof using All.
  intros Hr'. rewrite !debug_translate_frame.
  destruct (split_indices v) as [[[i4 i3] i2] i1] eqn:Hv.
  destruct (split_indices_ok _ _ _ _ _ Hv) as [Hq Hi1].
  destruct (frame_of (MEM s) r' [i4; i3; i2]) as [t|] eqn:Ht.
  - rewrite (proj2 (link_frames r' _ t Hr' Hq) (or_introl Ht)). rewrite (link_entry _ _ _ _ Hr' Hq Hi1 Ht).
    case_decide as Hd; [|done]. destruct Hd as [-> ->]. exfalso.
    apply path_ok_snoc in Hp as (Hpp & _ & Hl).
    destruct (so_inj _ _ Hok _ _ _ _ _ Hr' Hr Hq Hpp Ht Hf) as [<- _]. simpl in Hl. lia.
  - destruct (frame_of (MEM s2) r' [i4; i3; i2]) as [t|] eqn:Ht2; [|done].
    apply link_frames in Ht2 as [Ht2|(-> & _)]; [congruence| |done..]. by apply link_fresh_entry.
Qed.
End link.

(** *** One level, the leaf, the whole walk *)

(** What both allocation entry points promise when a page is free. *)
Definition supplies (alloc : pmm -> option (pmm * Z)) : Prop :=
  forall s, pmm_inv s -> page_zero_reserved s -> 0 < free_pages (STATS s) ->
    exists n s', alloc s = Some (s', n * PAGE_SIZE) /\ allocates s n s' /\ 0 < n.

Lemma alloc_page_supplies : supplies alloc_page.
Proof.
  intros s Hs Hz Hfree. destruct (alloc_page_cases s Hs) as [(n & s' & Heq & Hal)|[Hall _]].
  - exists n, s'. split_and!; [done..|by eapply allocates_nonzero].
  - exfalso. rewrite (inv_free _ Hs) in Hfree. apply free_count_pos in Hfree as (j & Hj & Hb).
    by rewrite Hall in Hb.
Qed.

Lemma zeroed_table_supplies : supplies zeroed_table.
Proof.
  intros s Hs Hz Hfree. destruct (alloc_page_supplies s Hs Hz Hfree) as (n & s' & Heq & Hal & Hn).
  exists n, s'. unfold zeroed_table. rewrite Heq. cbn [mbind option_bind].
  rewrite (proj2 (Z.eqb_neq _ _)) by (unfold PAGE_SIZE; lia). done.
Qed.

Definition link_flags (inter : Z) : Prop :=
  Z.testbit inter 0 = true /\ Z.land inter ADDR_MASK = 0 /\ in_width 12 inter.

(** [s'] has the tables of [s] and possibly more, and every translation of [s]. *)
Record extends (s s' : pmm) (roots : list Z) : Prop := {
  ex_ok : space_ok s' roots;
  ex_free : free_pages (STATS s) - 1 <= free_pages (STATS s');
  ex_frames : forall r q g, r ∈ roots -> path_ok q ->
    frame_of (MEM s) r q = Some g -> frame_of (MEM s') r q = Some g;
  ex_translate : forall r v, r ∈ roots -> debug_translate (MEM s') r v = debug_translate (MEM s) r v;
  ex_spares : spares s s' roots
}.

Lemma extends_refl s roots : space_ok s roots -> extends s s roots.
Proof. intros. constructor; [done|lia|auto|auto|]. intros g Hg. auto. Qed.

Lemma next_table_spec alloc inter s roots r p i f :
  supplies alloc -> link_flags inter -> space_ok s roots -> r ∈ roots -> path_ok (p ++ [i]) ->
  frame_of (MEM s) r p = Some f -> 0 < free_pages (STATS s) ->
  exists s' t, next_table alloc inter f i s = Some (s', t) /\ extends s s' roots /\
    frame_of (MEM s') r (p ++ [i]) = Some t.
Proof.
  intros Hsup (Hb & Hm & Hw) Hok Hr Hp Hf Hfree. unfold next_table.
  destruct (present (entry (MEM s) f i)) eqn:Hpr; cbn [mbind option_bind].
  - eexists _, _. split; [reflexivity|]. split; [by apply extends_refl|].
    rewrite frame_of_snoc, Hf. cbn [mbind option_bind]. unfold next_frame. by rewrite Hpr.
  - assert (next_frame (MEM s) f i = None) as Hnp by (unfold next_frame; by rewrite Hpr).
    destruct (Hsup s (so_pmm _ _ Hok) (so_zero _ _ Hok) Hfree) as (n & s1 & -> & Hal & Hn).
    cbn [mbind option_bind]. eexists _, _. split; [reflexivity|].
    pose proof (link_frames s s1 roots r p i f n inter Hok Hr Hp Hf Hnp Hal Hn Hb Hm Hw) as Hlf.
    split; [constructor|].
    + by eapply link_space_ok.
    + cbn. rewrite (allocates_free_pages _ _ _ (so_pmm _ _ Hok) Hal). lia.
    + intros r' q g Hr' Hq Hg. apply Hlf; auto.
    + intros r' v Hr'. exact (link_translate s s1 roots r p i f n inter Hok Hr Hp Hf Hnp Hal Hn Hb Hm Hw r' v Hr').
    + by apply (link_spares s s1 roots r p i f n inter).
    + rewrite frame_of_snoc. apply path_ok_snoc in Hp as (Hpp & Hi & _).
      rewrite (proj2 (Hlf r p f Hr Hpp) (or_introl Hf)). cbn [mbind option_bind]. unfold next_frame.
      rewrite entry_set_eq, present_testbit, Z.lor_spec, Hb, orb_true_r; [done|].
      apply in_width_lor; [lia| |by eapply (in_width_mono 12)].
      destruct (fresh_is_frame s s1 roots n Hok Hal Hn) as [? _]. by apply (in_width_mono 52); [lia|].
Qed.

Lemma spares_trans s1 s2 s3 roots : spares s1 s2 roots -> spares s2 s3 roots -> spares s1 s3 roots.
Proof.
  intros H12 H23 g Hg. destruct (H12 g Hg) as [Hg2 He2]. destruct (H23 g Hg2) as [Hg3 He3].
  split; [done|]. intros j Hj. by rewrite He3, He2.
Qed.

(** Writing a leaf changes no table and one translation. *)
Section leaf.
Context (s : pmm) (roots : list Z) (r v4 v3 v2 v1 t leaf : Z).
Context (Hok : space_ok s roots) (Hr : r ∈ roots) (Hp : path_ok [v4; v3; v2]) (Hi : is_index v1).
Context (Ht : frame_of (MEM s) r [v4; v3; v2] = Some t) (Hleaf : in_width 64 leaf).

Let s' := set_entry t v1 leaf s.

Lemma leaf_entry r' q g j :
  r' ∈ roots -> path_ok q -> is_index j -> frame_of (MEM s) r' q = Some g ->
  entry (MEM s') g j = if decide (g = t /\ j = v1) then leaf else entry (MEM s) g j.
Proof using Hok Hr Hi Ht Hleaf.
  intros Hr' Hq Hj Hg. case_decide as Hd.
  - destruct Hd as [-> ->]. by apply entry_set_eq.
  - apply entry_set_ne; [eapply frame_of_is_frame, Ht|eapply frame_of_is_frame, Hg|done|done|];
      [by eapply so_root..|]. apply not_and_l in Hd. naive_solver.
Qed.

Lemma leaf_frames r' q : r' ∈ roots -> path_ok q -> frame_of (MEM s') r' q = frame_of (MEM s) r' q.
Proof using All.
  intros Hr' Hq. induction q as [|j q IH] using rev_ind; [done|].
  apply path_ok_snoc in Hq as (Hq & Hj & Hl). rewrite !frame_of_snoc, IH by done.
  destruct (frame_of (MEM s) r' q) as [g|] eqn:Hg; cbn [mbind option_bind]; [|done].
  unfold next_frame. rewrite (leaf_entry _ _ _ _ Hr' Hq Hj Hg). case_decide as Hd; [|done].
  destruct Hd as [-> ->]. exfalso. destruct (so_inj _ _ Hok _ _ _ _ _ Hr' Hr Hq Hp Hg Ht) as [-> _].
  simpl in Hl. lia.
Qed.

Lemma leaf_space_ok : space_ok s' roots.
Proof using All.
  pose proof Hok as [[] ? ? Hby ? Hu Hinj]. constructor; cbn; try done; [by apply wr64_bytes| |].
  - intros r' q g Hr' Hq. pose proof (leaf_frames r' q Hr' Hq) as Hl. cbn in Hl. rewrite Hl. by apply Hu.
  - intros r1 r2 q1 q2 g Hr1 Hr2 Hq1 Hq2. pose proof (leaf_frames r1 q1 Hr1 Hq1) as Hl1.
    pose proof (leaf_frames r2 q2 Hr2 Hq2) as Hl2. cbn in Hl1, Hl2. rewrite Hl1, Hl2. by apply Hinj.
Qed.

Lemma leaf_spares : spares s s' roots.
Proof using All.
  intros g (Hg & Hu & Hnt). split; [split_and!; [done|done|]|].
  - intros r' q Hr' Hq. rewrite leaf_frames by done. by apply Hnt.
  - intros j Hj. apply entry_set_ne; [eapply frame_of_is_frame, Ht; by eapply so_root|done..|].
    left. intros <-. by eapply Hnt.
Qed.

(** The same slot, seen from [r']. *)
Definition same_slot (r' : Z) (v : Z) : Prop :=
  split_indices v = (v4, v3, v2, v1) /\ (r' = r \/ (256 <= v4 /\ frame_of (MEM s) r' [v4; v3; v2] = Some t)).

Lemma leaf_translate_eq r' v : r' ∈ roots -> same_slot r' v -> debug_translate (MEM s') r' v = leaf.
Proof using All.
  intros Hr' [Hv Hs]. rewrite debug_translate_frame, Hv, leaf_frames by done.
  assert (frame_of (MEM s) r' [v4; v3; v2] = Some t) as Hg by (destruct Hs as [->|[_ ?]]; done).
  rewrite Hg, (leaf_entry _ _ _ _ Hr' Hp Hi Hg). by rewrite decide_True.
Qed.

Lemma leaf_translate_ne r' v :
  r' ∈ roots -> ~ same_slot r' v -> debug_translate (MEM s') r' v = debug_translate (MEM s) r' v.
Proof using All.
  intros Hr' Hns. rewrite !debug_translate_frame.
  destruct (split_indices v) as [[[i4 i3] i2] i1] eqn:Hv.
  destruct (split_indices_ok _ _ _ _ _ Hv) as [Hq Hi1]. rewrite leaf_frames by done.
  destruct (frame_of (MEM s) r' [i4; i3; i2]) as [g|] eqn:Hg; [|done].
  rewrite (leaf_entry _ _ _ _ Hr' Hq Hi1 Hg). case_decide as Hd; [|done]. destruct Hd as [-> ->].
  exfalso. apply Hns. destruct (so_inj _ _ Hok _ _ _ _ _ Hr' Hr Hq Hp Hg Ht) as [[= -> -> ->] Hrr].
  split; [done|]. destruct Hrr as [->|Hk]; [by left|right]. done.
Qed.
End leaf.

(** [vaddr] and [v] lie in the same page of the 48-bit space. *)
Definition same_page (v w : Z) : Prop := split_indices v = split_indices w.

(** What one mapping call promises: the page translates to [leaf], in the mapped
    space and in those that share the kernel-half table; nothing else moves. *)
Record maps (s s' : pmm) (roots : list Z) (r vaddr leaf : Z) : Prop := {
  mp_ok : space_ok s' roots;
  mp_free : free_pages (STATS s) - 3 <= free_pages (STATS s');
  mp_here : forall v, same_page v vaddr -> debug_translate (MEM s') r v = leaf;
  mp_else : forall r' v, r' ∈ roots -> ~ (same_page v vaddr /\ (r' = r \/ PHYS_MAP_BASE mod 2 ^ 48 <= vaddr mod 2 ^ 48)) ->
    debug_translate (MEM s') r' v = debug_translate (MEM s) r' v;
  mp_spares : spares s s' roots
}.

Lemma upper_half v i4 i3 i2 i1 :
  0 <= v -> split_indices v = (i4, i3, i2, i1) -> 256 <= i4 -> PHYS_MAP_BASE mod 2 ^ 48 <= v mod 2 ^ 48.
Proof.
  intros Hv Hs Hi. pose proof (split_indices_reconstruct v Hv) as H. rewrite Hs in H.
  destruct H as (H4 & H3 & H2 & H1 & ->). change (PHYS_MAP_BASE mod 2 ^ 48) with (256 * 2 ^ 39).
  pose proof (Z.mod_pos_bound v (2 ^ 12) ltac:(lia)). lia.
Qed.

Lemma map_walk_spec alloc inter s roots r vaddr leaf :
  supplies alloc -> link_flags inter -> space_ok s roots -> r ∈ roots -> 0 <= vaddr ->
  in_width 64 leaf -> 3 <= free_pages (STATS s) ->
  exists s', map_walk alloc inter r vaddr leaf s = Some s' /\ maps s s' roots r vaddr leaf.
Proof.
  intros Hsup Hfl Hok Hr Hv Hleaf Hfree. unfold map_walk.
  destruct (split_indices vaddr) as [[[i4 i3] i2] i1] eqn:Hsp.
  destruct (split_indices_ok _ _ _ _ _ Hsp) as [Hp Hi1].
  assert (path_ok ([] ++ [i4]) /\ path_ok ([i4] ++ [i3])) as [Hp1 Hp2].
  { destruct Hp as [Hall _]. rewrite !Forall_cons in Hall. destruct Hall as (?&?&?&?).
    split; (split; [simpl; auto using Forall_cons_2, Forall_nil_2|simpl; lia]). }
  destruct (next_table_spec alloc inter s roots r [] i4 r Hsup Hfl Hok Hr Hp1 eq_refl ltac:(lia))
    as (s1 & t1 & -> & E1 & F1). cbn [mbind option_bind]. pose proof (ex_free _ _ _ E1).
  destruct (next_table_spec alloc inter s1 roots r [i4] i3 t1 Hsup Hfl (ex_ok _ _ _ E1) Hr Hp2 F1 ltac:(lia))
    as (s2 & t2 & -> & E2 & F2). cbn [mbind option_bind]. pose proof (ex_free _ _ _ E2).
  destruct (next_table_spec alloc inter s2 roots r [i4; i3] i2 t2 Hsup Hfl (ex_ok _ _ _ E2) Hr Hp F2 ltac:(lia))
    as (s3 & t3 & -> & E3 & F3). cbn [mbind option_bind]. pose proof (ex_free _ _ _ E3).
  eexists; split; [reflexivity|]. change ([i4; i3] ++ [i2]) with [i4; i3; i2] in F3.
  pose proof (ex_ok _ _ _ E3) as Hok3. constructor.
  - by eapply leaf_space_ok.
  - cbn. lia.
  - intros v Hsame. apply (leaf_translate_eq s3 roots r i4 i3 i2 i1 t3 leaf Hok3 Hr Hp Hi1 F3 Hleaf r v Hr). red in Hsame. rewrite Hsp in Hsame. split; [done|by left].
  - intros r' v Hr' Hne. transitivity (debug_translate (MEM s3) r' v).
    + apply (leaf_translate_ne s3 roots r i4 i3 i2 i1 t3 leaf Hok3 Hr Hp Hi1 F3 Hleaf r' v Hr'). intros [Hvs Hrr]. apply Hne. split; [red; congruence|].
      destruct Hrr as [->|[Hk _]]; [by left|right]. by eapply upper_half.
    + rewrite (ex_translate _ _ _ E3), (ex_translate _ _ _ E2), (ex_translate _ _ _ E1); done.
  - eapply spares_trans; [apply E1|]. eapply spares_trans; [apply E2|]. eapply spares_trans; [apply E3|].
    by apply (leaf_spares s3 roots r i4 i3 i2 i1 t3 leaf).
Qed.

Lemma intermediate_flags_link : link_flags intermediate_flags.
Proof. by repeat split. Qed.

Definition leaf_of (paddr flags : Z) : Z := Z.lor (Z.lor (Z.land paddr ADDR_MASK) flags) PAGE_PRESENT.

Lemma leaf_of_width paddr flags : in_width 64 flags -> in_width 64 (leaf_of paddr flags).
Proof.
  intros Hf. unfold leaf_of. apply in_width_lor; [lia| |by split]. apply in_width_lor; [lia| |done].
  apply (in_width_mono 52); [lia|]. apply masked_is_frame.
Qed.

Lemma map_page_spec s roots r vaddr paddr flags :
  space_ok s roots -> r ∈ roots -> 0 <= vaddr -> in_width 64 flags -> 3 <= free_pages (STATS s) ->
  exists s', map_page r vaddr paddr flags s = Some s' /\ maps s s' roots r vaddr (leaf_of paddr flags).
Proof.
  intros. apply map_walk_spec; try done; [apply zeroed_table_supplies|by apply leaf_of_width].
Qed.

(** C8. Mapping a page.  In any set of address spaces whose tables form a forest
    (distinct, allocated frames; only kernel-half tables shared), with three pages
    free, [map_page] succeeds, keeps the forest, makes every address of the page
    translate to the frame with the flags and the present bit, and changes the
    translation of no other page of any space; a user-half mapping is invisible to
    every other space. *)
Theorem map_page_exact s roots r vaddr paddr flags :
  space_ok s roots -> r ∈ roots -> in_width 64 vaddr -> in_width 64 flags -> 3 <= free_pages (STATS s) ->
  exists s', map_page r vaddr paddr flags s = Some s' /\ space_ok s' roots /\
    (forall v, same_page v vaddr ->
       debug_translate (MEM s') r v = Z.lor (Z.lor (Z.land paddr ADDR_MASK) flags) PAGE_PRESENT) /\
    (forall r' v, r' ∈ roots -> ~ same_page v vaddr ->
       debug_translate (MEM s') r' v = debug_translate (MEM s) r' v) /\
    (forall r' v, r' ∈ roots -> r' <> r -> vaddr < 2 ^ 47 ->
       debug_translate (MEM s') r' v = debug_translate (MEM s) r' v).
Proof.
  intros Hok Hr Hv Hf Hfree. destruct (map_page_spec s roots r vaddr paddr flags) as (s' & He & [H1 _ H3 H4 _]); try done; [apply Hv|].
  exists s'. split_and!; try done.
  - intros r' v Hr' Hne. apply H4; naive_solver.
  - intros r' v Hr' Hne Hlow. apply H4; [done|]. intros [_ [?|Hk]]; [done|].
    rewrite (Z.mod_small vaddr) in Hk by (red in Hv; lia). change (PHYS_MAP_BASE mod 2 ^ 48) with (2 ^ 47) in Hk. lia.
Qed.

(** Unmapping. *)
Lemma unmap_page_frame s r vaddr :
  unmap_page r vaddr s =
  let '(i4, i3, i2, i1) := split_indices vaddr in
  match frame_of (MEM s) r [i4; i3; i2] with Some t => set_entry t i1 0 s | None => s end.
Proof.
  unfold unmap_page. destruct (split_indices vaddr) as [[[i4 i3] i2] i1]. unfold frame_of. simpl.
  unfold next_frame. destruct (present (entry (MEM s) r i4)); simpl; [|done].
  destruct (present (entry (MEM s) (Z.land (entry (MEM s) r i4) ADDR_MASK) i3)); simpl; [|done].
  by destruct (present _).
Qed.

(** Unmapping a page never panics, keeps the forest, leaves no address of the
    page translated in that space, and changes the translation of no other
    page. *)
Theorem unmap_page_exact s roots r vaddr :
  space_ok s roots -> r ∈ roots ->
  space_ok (unmap_page r vaddr s) roots /\
  (forall v, same_page v vaddr -> debug_translate (MEM (unmap_page r vaddr s)) r v = 0) /\
  (forall r' v, r' ∈ roots -> ~ same_page v vaddr ->
     debug_translate (MEM (unmap_page r vaddr s)) r' v = debug_translate (MEM s) r' v).
Proof.
  intros Hok Hr. rewrite unmap_page_frame. unfold same_page.
  destruct (split_indices vaddr) as [[[i4 i3] i2] i1] eqn:Hsp.
  destruct (split_indices_ok _ _ _ _ _ Hsp) as [Hp Hi1].
  destruct (frame_of (MEM s) r [i4; i3; i2]) as [t|] eqn:Ht.
  - assert (in_width 64 0) by (split; lia). split_and!.
    + by eapply leaf_space_ok.
    + intros v Hvs. apply (leaf_translate_eq s roots r i4 i3 i2 i1 t 0); try done. split; [congruence|by left].
    + intros r' v Hr' Hne. apply (leaf_translate_ne s roots r i4 i3 i2 i1 t 0); try done. intros [Hvs _]. congruence.
  - split_and!; [done| |done]. intros v Hvs. rewrite debug_translate_frame, Hvs. by rewrite Ht.
Qed.

(** *** Many mappings *)

#[export] Instance same_page_dec v w : Decision (same_page v w).
Proof. unfold same_page. apply _. Defined.

(** The translation of [v] after a list of (address, leaf) requests: the last
    request for its page wins. *)
Definition requested (reqs : list (Z * Z)) (v old : Z) : Z :=
  foldl (fun acc q => if decide (same_page v q.1) then q.2 else acc) old reqs.

Lemma requested_other reqs v old :
  (forall q, q ∈ reqs -> ~ same_page v q.1) -> requested reqs v old = old.
Proof.
  revert old. induction reqs as [|q reqs IH]; intros old Hq; unfold requested; cbn [foldl]; [done|].
  rewrite decide_False by (apply Hq; set_solver). apply IH. intros. apply Hq. set_solver.
Qed.

Lemma requested_const reqs v old leaf :
  (forall q, q ∈ reqs -> same_page v q.1 -> q.2 = leaf) -> (exists q, q ∈ reqs /\ same_page v q.1) ->
  requested reqs v old = leaf.
Proof.
  revert old. induction reqs as [|q reqs IH]; intros old Hall [q0 [Hin Hsame]]; [set_solver|]. unfold requested. cbn [foldl].
  destruct (decide (Exists (fun q => same_page v q.1) reqs)) as [Hex|Hno].
  - apply IH; [intros; apply Hall; set_solver|]. by apply Exists_exists in Hex.
  - fold (requested reqs v (if decide (same_page v q.1) then q.2 else old)). rewrite requested_other.
    + apply elem_of_cons in Hin as [->|Hin]; [|exfalso; apply Hno, Exists_exists; eauto].
      rewrite decide_True by done. apply Hall; [set_solver|done].
    + intros q1 Hq1 Hs1. apply Hno, Exists_exists. eauto.
Qed.

Lemma map_walk_all alloc inter roots r reqs s :
  supplies alloc -> link_flags inter -> space_ok s roots -> r ∈ roots ->
  Forall (fun q => 0 <= q.1 < 2 ^ 47 /\ in_width 64 q.2) reqs ->
  3 * Z.of_nat (length reqs) <= free_pages (STATS s) ->
  exists s', foldM (fun s q => map_walk alloc inter r q.1 q.2 s) s reqs = Some s' /\
    space_ok s' roots /\ spares s s' roots /\
    free_pages (STATS s) - 3 * Z.of_nat (length reqs) <= free_pages (STATS s') /\
    (forall v, debug_translate (MEM s') r v = requested reqs v (debug_translate (MEM s) r v)) /\
    (forall r' v, r' ∈ roots -> r' <> r -> debug_translate (MEM s') r' v = debug_translate (MEM s) r' v).
Proof.
  intros Hsup Hfl Hok Hr Hreqs. revert s Hok. induction Hreqs as [|[va leaf] reqs [Hva Hleaf] Hreqs IH]; intros s Hok Hfree.
  { exists s. split_and!; [done|done|intros g Hg; auto|cbn [length]; lia|done|done]. }
  cbn [foldM fst snd length] in *.
  destruct (map_walk_spec alloc inter s roots r va leaf) as (s1 & -> & [Hok1 Hf1 Hh1 He1 Hs1]); try done; [lia|lia|].
  cbn [mbind option_bind]. destruct (IH s1 Hok1) as (s' & -> & Hok' & Hs' & Hf' & Ht' & Ho'); [lia|].
  exists s'. split_and!; [done|done|by eapply spares_trans|lia|..].
  - intros v. rewrite Ht'. unfold requested. cbn [foldl fst snd]. f_equal. case_decide as Hv; [by apply Hh1|].
    apply He1; [done|]. naive_solver.
  - intros r' v Hr' Hne. rewrite Ho' by done. apply He1; [done|]. intros [_ [?|Hk]]; [done|].
    rewrite (Z.mod_small va) in Hk by lia. change (PHYS_MAP_BASE mod 2 ^ 48) with (2 ^ 47) in Hk. lia.
Qed.

(** ** Validating a user buffer *)

Lemma same_page_div v w : 0 <= v -> 0 <= w -> v / 4096 = w / 4096 -> same_page v w.
Proof.
  intros Hv Hw He. unfold same_page, split_indices. rewrite !Z.shiftr_div_pow2 by lia.
  change (2 ^ 21) with (4096 * 512). change (2 ^ 30) with (4096 * 262144). change (2 ^ 39) with (4096 * 134217728).
  change (2 ^ 12) with 4096. rewrite <- !Z.div_div by lia. by rewrite He.
Qed.

Lemma same_page_low a b :
  0 <= a < 2 ^ 47 -> 0 <= b < 2 ^ 47 -> same_page a b -> a / 4096 = b / 4096.
Proof.
  intros Ha Hb Hs. pose proof (split_indices_reconstruct a ltac:(lia)) as Ra.
  pose proof (split_indices_reconstruct b ltac:(lia)) as Rb. red in Hs. rewrite Hs in Ra.
  destruct (split_indices b) as [[[i4 i3] i2] i1]. destruct Ra as (_ & _ & _ & _ & Ra). destruct Rb as (_ & _ & _ & _ & Rb).
  change (2 ^ 12) with 4096 in *. rewrite (Z.mod_small a (2 ^ 48)) in Ra by lia. rewrite (Z.mod_small b (2 ^ 48)) in Rb by lia.
  Z.div_mod_to_equations. lia.
Qed.

Lemma debug_translate_page m r v w : same_page v w -> debug_translate m r v = debug_translate m r w.
Proof. intros H. unfold debug_translate. by rewrite H. Qed.

Lemma page_floor v : in_width 64 v -> Z.land v (wnot 64 0xFFF) = v / 4096 * 4096.
Proof.
  intros Hv. change (wnot 64 0xFFF) with (Z.shiftl (Z.ones 52) 12).
  change 4096 with (2 ^ 12). rewrite <- Z.shiftr_div_pow2, <- Z.shiftl_mul_pow2 by lia.
  apply Z.bits_inj'. intros i Hi. rewrite Z.land_spec. destruct (Z_lt_le_dec i 12).
  - rewrite !Z.shiftl_spec_low by lia. apply andb_false_r.
  - rewrite !Z.shiftl_spec, Z.shiftr_spec by lia. replace (i - 12 + 12) with i by lia.
    destruct (Z_lt_le_dec i 64).
    + rewrite Z.ones_spec_low by lia. apply andb_true_r.
    + rewrite Z.ones_spec_high by lia. rewrite andb_false_r. symmetry. by apply (in_width_testbit 64).
Qed.

Definition page_allows (m : Z -> Z) (r required a : Z) : Prop :=
  Z.land (debug_translate m r a) required = required.

Lemma validate_loop_spec fuel m r required page end_ :
  0 <= page -> page mod 4096 = 0 -> end_ <= 2 ^ 64 - 4096 -> (1 <= fuel)%nat ->
  end_ <= page + 4096 * (Z.of_nat fuel - 1) ->
  exists b, validate_loop fuel m r required page end_ = Some b /\
    (b = true <-> forall a, page <= a < end_ -> page_allows m r required a).
Proof.
  revert page. induction fuel as [|fuel IH]; intros page Hp Ha He H1 Hf; [lia|]. cbn [validate_loop].
  destruct (Z.ltb_spec page end_) as [Hlt|Hge]; [|exists true; split; [done|]; split; [intros _ a; lia|done]].
  destruct (Z.land (debug_translate m r page) required =? required) eqn:Hok; bool_to_prop.
  - rewrite (wrap_small 64) by (red; lia).
    destruct (IH (page + 4096)) as (b & Heq & Hb); [lia| |done|lia|lia|].
    { rewrite <- Zplus_mod_idemp_l, Ha. done. }
    exists b. split; [done|]. rewrite Hb. split; intros Hall a Hr.
    + destruct (Z_lt_le_dec a (page + 4096)); [|apply Hall; lia]. unfold page_allows.
      rewrite (debug_translate_page m r a page); [done|]. apply same_page_div; [lia|lia|].
      Z.div_mod_to_equations. lia.
    + apply Hall. lia.
  - exists false. split; [done|]. split; [done|]. intros Hall. exfalso. apply Hok, Hall. lia.
Qed.

(** [validate_user_buffer_writable] decides exactly what it says: for a range
    below the last page of the address space it answers, and answers true iff the
    range is not empty and every byte of it lies in a page that is present and
    writable, and user-accessible when the tables are a process's.  Ranges that
    run past 2^64 are refused. *)
Theorem validate_writable_exact fuel m kernel_pml4 r vaddr len :
  in_width 64 vaddr -> 0 <= len -> len / 4096 + 3 <= Z.of_nat fuel ->
  let required := if r =? kernel_pml4 then 3 else 7 in
  (2 ^ 64 <= vaddr + len -> validate_user_buffer_writable fuel m kernel_pml4 r vaddr len = Some false) /\
  (vaddr + len <= 2 ^ 64 - 4096 ->
   exists b, validate_user_buffer_writable fuel m kernel_pml4 r vaddr len = Some b /\
     (b = true <-> 0 < len /\ forall a, vaddr <= a < vaddr + len -> page_allows m r required a)).
Proof.
  intros Hv Hl Hf required. unfold validate_user_buffer_writable, validate_user_buffer.
  replace (if r =? kernel_pml4 then Z.lor PAGE_PRESENT PAGE_WRITABLE else _) with required
    by (unfold required; by destruct (r =? kernel_pml4)).
  split; intros Hr.
  - destruct (len =? 0); [done|]. by rewrite (proj2 (Z.leb_le _ _) Hr).
  - destruct (len =? 0) eqn:H0; bool_to_prop; [exists false; split; [done|]; split; [done|lia]|].
    destruct (Z.leb_spec (2 ^ 64) (vaddr + len)); [lia|]. rewrite page_floor by done.
    red in Hv. pose proof (Z.mul_div_le vaddr 4096 ltac:(lia)) as Hle.
    pose proof (Z.mod_pos_bound vaddr 4096 ltac:(lia)) as Hmod. pose proof (Z.div_mod vaddr 4096 ltac:(lia)) as Hdm.
    pose proof (Z.mul_succ_div_gt len 4096 ltac:(lia)) as Hlen.
    destruct (validate_loop_spec fuel m r required (vaddr / 4096 * 4096) (vaddr + len)) as (b & -> & Hb);
      [lia|by apply Z.mod_mul|done|lia|lia|].
    exists b. split; [done|]. rewrite Hb. split.
    + intros Hall. split; [lia|]. intros a Ha. apply Hall. lia.
    + intros [_ Hall] a Ha. destruct (Z_lt_le_dec a vaddr) as [Hlt|]; [|apply Hall; lia].
      unfold page_allows. rewrite (debug_translate_page m r a vaddr); [apply Hall; lia|].
      apply same_page_div; [lia|lia|]. Z.div_mod_to_equations. lia.
Qed.

(** ** Copying through the tables *)

(** The four tables a walk reads. *)
Definition walk_frames (m : Z -> Z) (r v : Z) : list Z :=
  let '(i4, i3, i2, i1) := split_indices v in
  let pdpt := Z.land (entry m r i4) ADDR_MASK in
  let pd := Z.land (entry m pdpt i3) ADDR_MASK in
  let pt := Z.land (entry m pd i2) ADDR_MASK in
  [r; pdpt; pd; pt].

Definition outside (fs : list Z) (p : Z) : Prop := forall f, f ∈ fs -> p < f \/ f + 4096 <= p.

Lemma entry_set_byte m p b f i :
  is_index i -> p < f \/ f + 4096 <= p -> entry (set_byte m p b) f i = entry m f i.
Proof.
  intros Hi Hp. apply rd64_ext. intros a Ha. unfold set_byte. red in Hi.
  destruct (Z.eqb_spec a p); [lia|done].
Qed.

Lemma walk_set_byte m r v p b :
  outside (walk_frames m r v) p ->
  user_phys (set_byte m p b) r v = user_phys m r v /\ walk_frames (set_byte m p b) r v = walk_frames m r v.
Proof.
  unfold user_phys, walk_frames. destruct (split_indices v) as [[[i4 i3] i2] i1] eqn:Hs.
  destruct (split_indices_ok _ _ _ _ _ Hs) as [[Hall _] Hi1]. rewrite !Forall_cons in Hall.
  destruct Hall as (H4 & H3 & H2 & _). intros Ho.
  rewrite (entry_set_byte m p b r i4) by (done || (apply Ho; set_solver)).
  rewrite (entry_set_byte m p b _ i3) by (done || (apply Ho; set_solver)).
  rewrite (entry_set_byte m p b _ i2) by (done || (apply Ho; set_solver)).
  rewrite (entry_set_byte m p b _ i1) by (done || (apply Ho; set_solver)). done.
Qed.

(** No byte of the buffer lies in a table its own translation goes through. *)
Definition no_self_reference (m : Z -> Z) (r : Z) (addrs : list Z) : Prop :=
  forall a a', a ∈ addrs -> a' ∈ addrs -> outside (walk_frames m r a') (user_phys m r a).

Definition write_at (f : Z -> Z) (m : Z -> Z) (ab : Z * Z) : Z -> Z := set_byte m (f ab.1) ab.2.

(** The bytes of a write land where the walk of the original tables says. *)
Lemma write_walk_stable m r addrs l m' :
  no_self_reference m r addrs -> (forall ab, ab ∈ l -> ab.1 ∈ addrs) ->
  (forall a, a ∈ addrs -> user_phys m' r a = user_phys m r a /\ walk_frames m' r a = walk_frames m r a) ->
  foldl (fun m ab => write_at (user_phys m r) m ab) m' l = foldl (write_at (user_phys m r)) m' l /\
  (forall a, a ∈ addrs -> user_phys (foldl (write_at (user_phys m r)) m' l) r a = user_phys m r a).
Proof.
  intros Hno. revert m'. induction l as [|[a b] l IH]; intros m' Hl Hst; simpl.
  { split; [done|]. intros a Ha. by apply Hst. }
  assert (a ∈ addrs) as Ha by (apply (Hl (a, b)); set_solver).
  assert (write_at (user_phys m' r) m' (a, b) = write_at (user_phys m r) m' (a, b)) as Hw
    by (unfold write_at; simpl; by rewrite (proj1 (Hst a Ha))).
  rewrite Hw. apply IH; [intros; apply Hl; set_solver|]. intros a' Ha'. unfold write_at. simpl.
  destruct (Hst a' Ha') as [H1 H2]. destruct (walk_set_byte m' r a' (user_phys m r a) b) as [-> ->]; [|done].
  rewrite H2. by apply Hno.
Qed.

Lemma write_at_other f m l p :
  (forall ab, ab ∈ l -> f ab.1 <> p) -> foldl (write_at f) m l p = m p.
Proof.
  revert m. induction l as [|[a b] l IH]; intros m Hl; simpl; [done|].
  rewrite IH by (intros; apply Hl; set_solver). unfold write_at, set_byte. simpl.
  destruct (Z.eqb_spec p (f a)) as [->|]; [|done]. exfalso. apply (Hl (a, b)); [set_solver|done].
Qed.

Lemma write_at_read f m l :
  NoDup (f <$> l.*1) -> (fun ab => foldl (write_at f) m l (f ab.1)) <$> l = l.*2.
Proof.
  revert m. induction l as [|[a b] l IH]; intros m; simpl; [done|]. rewrite NoDup_cons. intros [Hni Hnd].
  f_equal.
  - rewrite write_at_other.
    + unfold write_at, set_byte. simpl. by rewrite Z.eqb_refl.
    + intros [a' b'] Hin Heq. apply Hni. simpl in Heq. rewrite <- Heq. apply list_elem_of_fmap.
      exists a'. split; [done|]. apply list_elem_of_fmap. by exists (a', b').
  - exact (IH (write_at f m (a, b)) Hnd).
Qed.

Lemma length_buffer vaddr len : length (buffer vaddr len) = len.
Proof. unfold buffer. by rewrite length_fmap, length_seq. Qed.

(** Copy-out and copy-in: what [write_user_bytes] wrote, [read_user_bytes]
    reads back, and no byte of memory outside the translated buffer changed --
    provided the buffer's pages are not its own page tables and no two of its
    addresses share a byte of memory. *)
Theorem user_bytes_roundtrip m r vaddr data :
  let addrs := buffer vaddr (length data) in
  no_self_reference m r addrs -> NoDup (user_phys m r <$> addrs) ->
  read_user_bytes (write_user_bytes m r vaddr data) r vaddr (length data) = data /\
  (forall p, p ∉ (user_phys m r <$> addrs) -> write_user_bytes m r vaddr data p = m p).
Proof.
  intros addrs Hno Hnd.
  assert (length addrs = length data) as Hlen by apply length_buffer.
  assert ((zip addrs data).*1 = addrs) as Hfst by (apply fst_zip; lia).
  assert ((zip addrs data).*2 = data) as Hsnd by (apply snd_zip; lia).
  destruct (write_walk_stable m r addrs (zip addrs data) m Hno) as [Hw Hph]; [|auto|].
  { intros [a b] Hin. eapply list_elem_of_fmap_2 in Hin. by rewrite Hfst in Hin. }
  unfold write_user_bytes. fold addrs. unfold write_at in Hw at 1. rewrite Hw. split.
  - pose proof (write_at_read (user_phys m r) m (zip addrs data)) as Hr. rewrite Hfst, Hsnd in Hr.
    specialize (Hr Hnd). unfold read_user_bytes. fold addrs. revert Hph Hr.
    generalize (foldl (write_at (user_phys m r)) m (zip addrs data)) as M. intros M Hph Hr.
    transitivity ((fun a => M (user_phys m r a)) <$> addrs).
    + apply list_fmap_ext. intros i a Hi. rewrite Hph; [done|]. by eapply list_elem_of_lookup_2.
    + rewrite <- Hr, <- Hfst at 1. by rewrite <- list_fmap_compose.
  - intros p Hp. apply write_at_other. intros [a b] Hin Heq. apply Hp. rewrite <- Heq.
    apply list_elem_of_fmap. exists a. split; [done|]. rewrite <- Hfst. apply list_elem_of_fmap. by exists (a, b).
Qed.

(** ** Tearing a space down *)

(** The frames a teardown frees, in order: per present entry, those below it,
    then the frame itself. *)
Definition table_frames (sub : Z -> list Z) (m : Z -> Z) (n table : Z) : list Z :=
  i ← range 0 n;
  if present (entry m table i)
  then sub (Z.land (entry m table i) ADDR_MASK) ++ [Z.land (entry m table i) ADDR_MASK] else [].

Definition space_frames (m : Z -> Z) (pml4 : Z) : list Z :=
  let pt := table_frames (fun _ => []) m 512 in
  let pd := table_frames pt m 512 in
  let pdpt := table_frames pd m 512 in
  table_frames pdpt m 256 pml4 ++ [pml4].

Definition free_all (fs : list Z) (s : pmm) : option pmm := foldM (fun s f => free_page f s) s fs.

Lemma free_all_mem fs s s' : free_all fs s = Some s' -> MEM s' = MEM s.
Proof.
  revert s. induction fs as [|f fs IH]; intros s; unfold free_all; cbn [foldM]; [by intros [= <-]|].
  destruct (free_page f s) as [s1|] eqn:Hf; cbn [mbind option_bind]; [|done]. intros H.
  rewrite (IH s1 H). by apply free_page_frame in Hf as [-> _].
Qed.

Lemma free_all_app fs gs s : free_all (fs ++ gs) s = s' ← free_all fs s; free_all gs s'.
Proof. apply foldM_app. Qed.

Lemma free_all_one f s : free_all [f] s = free_page f s.
Proof. unfold free_all. cbn [foldM]. by destruct (free_page f s). Qed.

Lemma destroy_table_flat (sub : Z -> pmm -> option pmm) (fr : (Z -> Z) -> Z -> list Z) n t s :
  (forall t s, sub t s = free_all (fr (MEM s) t) s) ->
  destroy_table sub n t s = free_all (table_frames (fr (MEM s)) (MEM s) n t) s.
Proof.
  intros Hsub. unfold destroy_table, table_frames. generalize (range 0 n) as l. intros l.
  remember (MEM s) as m eqn:Hm. revert s Hm. induction l as [|i l IH]; intros s Hm; [done|].
  cbn [foldM mbind list_bind]. rewrite free_all_app, <- Hm.
  destruct (present (entry m t i)); [|by apply IH].
  rewrite free_all_app, Hsub, <- Hm. destruct (free_all (fr m _) s) as [s1|] eqn:H1; cbn [mbind option_bind]; [|done].
  rewrite free_all_one. destruct (free_page _ s1) as [s2|] eqn:H2; cbn [mbind option_bind]; [|done].
  apply IH. apply free_page_frame in H2 as [-> _]. by rewrite (free_all_mem _ _ _ H1).
Qed.

Lemma destroy_flat m pml4 s :
  MEM s = m ->
  (let pt := destroy_table (fun _ s => Some s) 512 in
   let pd := destroy_table pt 512 in
   let pdpt := destroy_table pd 512 in
   s ← destroy_table pdpt 256 pml4 s; free_page pml4 s) = free_all (space_frames m pml4) s.
Proof.
  intros <-. cbv zeta. unfold space_frames. rewrite free_all_app.
  rewrite (destroy_table_flat _ (fun m t => table_frames (table_frames (table_frames (fun _ => []) m 512) m 512) m 512 t)).
  - destruct (free_all _ s) as [s1|]; cbn [mbind option_bind]; [|done].
    by rewrite free_all_one.
  - intros t1 s1. apply (destroy_table_flat _ (fun m => table_frames (table_frames (fun _ => []) m 512) m 512)).
    intros t2 s2. apply (destroy_table_flat _ (fun m => table_frames (fun _ => []) m 512)).
    intros t3 s3. by apply (destroy_table_flat _ (fun _ _ => [])).
Qed.

(** Frees of frames in any number: a page is free afterwards iff it was, or it is
    listed and the allocator may take it back. *)
Lemma free_frames_spec fs s :
  pmm_inv s -> Forall (fun f => 0 <= f) fs ->
  exists s', free_all fs s = Some s' /\ pmm_inv s' /\
    RESERVED_BITMAP s' = RESERVED_BITMAP s /\ TOTAL_SPAN_PAGES s' = TOTAL_SPAN_PAGES s /\
    forall j, 0 <= j < TOTAL_SPAN_PAGES s ->
      bit (USED_BITMAP s') j = false <->
      bit (USED_BITMAP s) j = false \/
      (j <> 0 /\ j * PAGE_SIZE ∈ fs /\ bit (RESERVED_BITMAP s) j = false).
Proof.
  intros Hs Hfs. revert s Hs. induction Hfs as [|f fs Hf Hfs IH]; intros s Hs.
  { exists s. split_and!; try done. intros j Hj. set_solver. }
  destruct (free_page_spec s f Hs Hf) as (s1 & H1 & Hinv1 & Hrej & Hacc).
  unfold free_all. cbn [foldM]. rewrite H1. cbn [mbind option_bind].
  destruct (IH s1 Hinv1) as (s' & H' & Hinv' & Hres' & Hspan' & Hbits').
  assert (RESERVED_BITMAP s1 = RESERVED_BITMAP s /\ TOTAL_SPAN_PAGES s1 = TOTAL_SPAN_PAGES s /\
    forall j, 0 <= j < TOTAL_SPAN_PAGES s -> bit (USED_BITMAP s1) j = false <->
      bit (USED_BITMAP s) j = false \/ (j <> 0 /\ j * PAGE_SIZE = f /\ bit (RESERVED_BITMAP s) j = false))
    as (Hres1 & Hspan1 & Hbits1).
  { apply free_page_frame in H1 as (_ & -> & ->). split_and!; [done|done|]. intros j Hj.
    set (acc := f <> 0 /\ _) in *. assert (Decision acc) as [Ha|Hn] by (subst acc; apply _).
    - destruct (Hacc Ha) as ((_ & _ & Hb) & _). destruct Ha as (Hf0 & Hfm & Hfs' & Hfr & Hfu).
      rewrite Hb by lia. pose proof (Z.div_mod f PAGE_SIZE ltac:(done)) as Hd. rewrite Hfm in Hd.
      destruct (Z.eqb_spec j (f / PAGE_SIZE)) as [->|Hne]; unfold PAGE_SIZE in *.
      + split; [intros _|done]. right. split_and!; [lia|lia|done].
      + split; [by left|]. intros [|(_ & Hjf & _)]; [done|]. exfalso. apply Hne. rewrite <- Hjf. by rewrite Z.div_mul.
    - rewrite (Hrej Hn). split; [by left|]. intros [|(Hj0 & <- & Hjr)]; [done|].
      destruct (bit (USED_BITMAP s) j) eqn:Hu; [|done]. exfalso. apply Hn. subst acc.
      unfold PAGE_SIZE in *. rewrite Z.div_mul, Z.mod_mul by done. split_and!; [lia|done|lia|done|done]. }
  exists s'. split_and!; [exact H'|done|congruence|congruence|]. intros j Hj.
  rewrite Hbits', Hres1 by lia. rewrite Hbits1 by done. rewrite elem_of_cons. naive_solver.
Qed.

Lemma table_frames_nonneg sub m n t :
  (forall t, Forall (fun f => 0 <= f) (sub t)) -> Forall (fun f => 0 <= f) (table_frames sub m n t).
Proof.
  intros Hsub. apply Forall_forall. intros f (i & Hf & _)%list_elem_of_bind.
  destruct (present _); [|set_solver]. apply elem_of_app in Hf as [Hf|Hf].
  - revert f Hf. apply Forall_forall, Hsub.
  - apply list_elem_of_singleton in Hf as ->. apply masked_is_frame.
Qed.

(** C35. Teardown.  Destroying an address space other than the kernel's never
    panics and returns to the allocator exactly the frames reachable through the
    user half of its tables -- leaves and tables -- and the top-level table
    itself: afterwards a page is free iff it was, or it is one of those and not
    reserved.  If the space was loaded, the kernel's is loaded instead.  Nothing
    is freed for address 0 or the kernel's own tables. *)
Theorem destroy_address_space_exact v pml4 :
  pmm_inv (PMM v) -> 0 <= pml4 ->
  let fs := space_frames (MEM (PMM v)) pml4 in
  exists v', destroy_address_space pml4 v = Some v' /\
    (pml4 = 0 \/ pml4 = KERNEL_PML4_PHYS v -> v' = v) /\
    (pml4 <> 0 -> pml4 <> KERNEL_PML4_PHYS v ->
     pmm_inv (PMM v') /\ MEM (PMM v') = MEM (PMM v) /\
     CR3 v' = (if current_cr3 v =? pml4 then KERNEL_PML4_PHYS v else CR3 v) /\
     forall j, 0 <= j < TOTAL_SPAN_PAGES (PMM v) ->
       bit (USED_BITMAP (PMM v')) j = false <->
       bit (USED_BITMAP (PMM v)) j = false \/
       (j <> 0 /\ j * PAGE_SIZE ∈ fs /\ bit (RESERVED_BITMAP (PMM v)) j = false)).
Proof.
  intros Hs Hp fs. unfold destroy_address_space.
  destruct (Z.eqb_spec pml4 0) as [H0|H0]; [exists v; by split_and!|].
  destruct (Z.eqb_spec pml4 (KERNEL_PML4_PHYS v)) as [Hk|Hk]; [exists v; by split_and!|]. cbn [orb].
  set (v1 := if current_cr3 v =? pml4 then _ else v).
  assert (PMM v1 = PMM v) as Hv1 by (unfold v1; by destruct (_ =? _)).
  pose proof (destroy_flat _ pml4 (PMM v1) eq_refl) as Hflat. cbv zeta in Hflat.
  destruct (free_frames_spec fs (PMM v) Hs) as (s' & Hfree & Hinv & Hres & Hspan & Hbits).
  { apply Forall_app. split; [|by repeat constructor].
    repeat (apply table_frames_nonneg; intros ?). constructor. }
  rewrite Hv1 in *. fold fs in Hflat. rewrite Hfree in Hflat. cbv zeta.
  destruct (destroy_table _ 256 pml4 (PMM v)) as [s1|]; cbn [mbind option_bind] in *; [|done].
  rewrite Hflat. cbn [mbind option_bind]. exists (set_pmm s' v1). split_and!; [done|intros [?|?]; done|].
  intros _ _. split_and!; [done|by eapply free_all_mem| |done].
  unfold v1. by destruct (_ =? _).
Qed.

(** *** A fresh space *)

Lemma set_entries_spec (f : Z -> Z) t l s g j :
  is_frame t -> is_frame g -> is_index j -> Forall is_index l -> (forall i, in_width 64 (f i)) ->
  entry (MEM (foldl (fun s i => set_entry t i (f i) s) s l)) g j =
    if decide (g = t /\ j ∈ l) then f j else entry (MEM s) g j.
Proof.
  intros Ht Hg Hj Hl Hf. revert s. induction l as [|i l IH]; intros s; simpl.
  { rewrite decide_False by set_solver. done. }
  apply Forall_cons in Hl as [Hi Hl]. rewrite (IH Hl).
  destruct (decide (g = t /\ j ∈ l)) as [[-> Hin]|Hn].
  - rewrite decide_True by set_solver. done.
  - destruct (decide (g = t /\ j = i)) as [[-> ->]|Hne].
    + rewrite entry_set_eq by done. rewrite decide_True by set_solver. done.
    + rewrite entry_set_ne by (done || (apply not_and_l in Hne; naive_solver)).
      rewrite decide_False; [done|]. intros [-> [->|?]%elem_of_cons]; naive_solver.
Qed.

Lemma path_ok_nil : path_ok [].
Proof. split; [constructor|simpl; lia]. Qed.

Lemma range_indices : Forall is_index (range 256 512).
Proof. apply Forall_forall. intros i Hi%elem_of_range. red. lia. Qed.

Section fresh_space.
Context (v : vmm) (roots : list Z) (n : Z) (s1 : pmm).
Context (Hok : space_ok (PMM v) roots) (HK : KERNEL_PML4_PHYS v ∈ roots).
Context (Hal : allocates (PMM v) n s1) (Hn : 0 < n).

Let K := KERNEL_PML4_PHYS v.
Let r := n * PAGE_SIZE.
Let s2 := foldl (fun s i => set_entry r i (entry (MEM s) K i) s) s1 (range 256 512).

Lemma fresh_root_frame : is_frame r.
Proof using Hok Hal Hn. exact (fresh_is_frame _ _ _ _ Hok Hal Hn). Qed.

Lemma fresh_ne_table r' q g : r' ∈ roots -> path_ok q -> frame_of (MEM (PMM v)) r' q = Some g -> g <> r.
Proof using Hok Hal. exact (fresh_not_table _ _ _ _ Hok Hal r' q g). Qed.

Lemma kernel_root_ne : K <> r.
Proof using Hok Hal HK. exact (fresh_ne_table K [] K HK path_ok_nil eq_refl). Qed.

Lemma copy_loop :
  s2 = foldl (fun s i => set_entry r i (entry (MEM (PMM v)) K i) s) s1 (range 256 512).
Proof using Hok Hal Hn HK.
  assert (forall l s, Forall is_index l ->
    (forall i, is_index i -> entry (MEM s) K i = entry (MEM (PMM v)) K i) ->
    foldl (fun s i => set_entry r i (entry (MEM s) K i) s) s l =
    foldl (fun s i => set_entry r i (entry (MEM (PMM v)) K i) s) s l) as H.
  { induction l as [|i l IH]; intros s Hl Hs; [done|]. apply Forall_cons in Hl as [Hi Hl]. simpl.
    rewrite Hs by done. apply IH; [done|]. intros j Hj.
    rewrite entry_set_ne; [by apply Hs|apply fresh_root_frame|by eapply so_root|done|done|].
    left. apply not_eq_sym, kernel_root_ne. }
  apply H; [apply range_indices|]. intros i Hi.
  rewrite (al_mem _ _ _ Hal), entry_zero_page; [|apply fresh_root_frame|by eapply so_root|done].
  rewrite decide_False; [done|]. apply not_eq_sym, kernel_root_ne.
Qed.

Lemma fresh_entries g j :
  is_frame g -> is_index j ->
  entry (MEM s2) g j =
    if decide (g = r) then (if decide (256 <= j) then entry (MEM (PMM v)) K j else 0)
    else entry (MEM (PMM v)) g j.
Proof using Hok Hal Hn HK.
  intros Hg Hj. rewrite copy_loop, set_entries_spec;
    [|apply fresh_root_frame|done|done|apply range_indices|intros; apply rd64_width, Hok].
  rewrite (al_mem _ _ _ Hal), entry_zero_page by (done || apply fresh_root_frame).
  fold r. red in Hj. destruct (decide (g = r /\ j ∈ range 256 512)) as [[-> Hin%elem_of_range]|Hnot].
  - by rewrite !decide_True by (done || lia).
  - destruct (decide (g = r)) as [->|Hne]; [|by rewrite decide_False by done].
    rewrite decide_True by done. rewrite decide_False; [done|]. intros Hge. apply Hnot.
    split; [done|]. apply elem_of_range. lia.
Qed.

Lemma fresh_frames_old r' q : r' ∈ roots -> path_ok q -> frame_of (MEM s2) r' q = frame_of (MEM (PMM v)) r' q.
Proof using Hok Hal Hn HK.
  intros Hr' Hq. induction q as [|j q IH] using rev_ind; [done|].
  apply path_ok_snoc in Hq as (Hq & Hj & _). rewrite !frame_of_snoc, IH by done.
  destruct (frame_of (MEM (PMM v)) r' q) as [g|] eqn:Hg; [|done]. cbn [mbind option_bind]. unfold next_frame.
  rewrite fresh_entries; [|eapply frame_of_is_frame, Hg; by eapply so_root|done].
  by rewrite decide_False by (by eapply fresh_ne_table).
Qed.

Lemma fresh_frames_new i q :
  path_ok (i :: q) ->
  frame_of (MEM s2) r (i :: q) = if decide (256 <= i) then frame_of (MEM (PMM v)) K (i :: q) else None.
Proof using Hok Hal Hn HK.
  intros Hp. assert (is_index i) as Hi by (destruct Hp as [[? _]%Forall_cons _]; done).
  transitivity (if decide (256 <= i) then frame_of (MEM s2) K (i :: q) else None).
  - assert (next_frame (MEM s2) r i = if decide (256 <= i) then next_frame (MEM s2) K i else None) as Hnext.
    { unfold next_frame. rewrite !fresh_entries by (done || apply fresh_root_frame || by eapply so_root).
      rewrite decide_True by done. rewrite (decide_False (P := K = r)) by apply kernel_root_ne.
      by destruct (decide (256 <= i)). }
    unfold frame_of. cbn [foldM]. rewrite Hnext. by destruct (decide (256 <= i)).
  - case_decide; [|done]. by apply fresh_frames_old.
Qed.

Lemma copy_frame s t l (f : pmm -> Z -> Z) :
  let s' := foldl (fun s i => set_entry t i (f s i) s) s l in
  USED_BITMAP s' = USED_BITMAP s /\ RESERVED_BITMAP s' = RESERVED_BITMAP s /\
  TOTAL_SPAN_PAGES s' = TOTAL_SPAN_PAGES s /\ LAST_SCANNED_PAGE s' = LAST_SCANNED_PAGE s /\
  STATS s' = STATS s /\ ((forall a, is_byte (MEM s a)) -> forall a, is_byte (MEM s' a)).
Proof using Type.
  cbv zeta. revert s. induction l as [|i l IH]; intros s; simpl; [done|].
  destruct (IH (set_entry t i (f s i) s)) as (-> & -> & -> & -> & -> & Hb). split_and!; [done..|].
  intros Hs. apply Hb. by apply wr64_bytes.
Qed.

Lemma fresh_space_ok : space_ok s2 (r :: roots).
Proof using Hok Hal Hn HK.
  destruct (copy_frame s1 r (range 256 512) (fun s i => entry (MEM s) K i)) as (Hu & Hr & Hsp & Hl & Hst & Hb).
  fold s2 in Hu, Hr, Hsp, Hl, Hst, Hb. pose proof Hal as [_ Hwf (_ & _ & Hbit) Hres Hsp1 Hmem Hinv].
  assert (forall r' q g, r' ∈ r :: roots -> path_ok q -> frame_of (MEM s2) r' q = Some g ->
    (r' = r /\ q = [] /\ g = r) \/
    exists r0, r0 ∈ roots /\ frame_of (MEM (PMM v)) r0 q = Some g /\ (r' = r0 \/ kernel_half q)) as Hcase.
  { intros r' q g [->|Hr']%elem_of_cons Hq Hg.
    - destruct q as [|i q]; [left; by injection Hg as <-|]. right.
      rewrite fresh_frames_new in Hg by done. case_decide; [|done]. exists K. split_and!; [done|done|by right].
    - right. rewrite fresh_frames_old in Hg by done. eauto. }
  constructor.
  - destruct Hinv; constructor; rewrite ?Hu, ?Hr, ?Hsp, ?Hl, ?Hst; done.
  - unfold page_zero_reserved. rewrite Hsp, Hr, Hres, Hsp1. apply Hok.
  - rewrite Hsp, Hsp1. apply Hok.
  - apply Hb. rewrite Hmem. apply zero_page_bytes, Hok.
  - intros r' [->|Hr']%elem_of_cons; [apply fresh_root_frame|by eapply so_root].
  - intros r' q g Hr' Hq Hg. rewrite Hu. destruct (Hcase _ _ _ Hr' Hq Hg) as [(_ & _ & ->)|(r0 & Hr0 & Hg0 & _)].
    + unfold r, PAGE_SIZE. rewrite Z.div_mul, Hbit by lia. by rewrite Z.eqb_refl.
    + rewrite Hbit; [|apply Z.div_pos; [|done]; eapply frame_of_is_frame in Hg0; [apply Hg0|by eapply so_root]].
      rewrite (so_used _ _ Hok _ _ _ Hr0 Hq Hg0). by destruct (_ =? _).
  - intros r1 r2 q1 q2 g H1 H2 Hq1 Hq2 Hg1 Hg2.
    destruct (Hcase _ _ _ H1 Hq1 Hg1) as [(-> & -> & ->)|(r01 & Hr01 & Hg01 & Hk1)];
      destruct (Hcase _ _ _ H2 Hq2 Hg2) as [(-> & -> & Hgr)|(r02 & Hr02 & Hg02 & Hk2)].
    + split; [done|by left].
    + exfalso. by eapply (fresh_ne_table _ _ _ Hr02 Hq2 Hg02).
    + exfalso. by eapply (fresh_ne_table _ _ _ Hr01 Hq1 Hg01).
    + destruct (so_inj _ _ Hok _ _ _ _ _ Hr01 Hr02 Hq1 Hq2 Hg01 Hg02) as [-> Hrr]. split; [done|].
      destruct Hk1 as [->|?], Hk2 as [->|?], Hrr as [->|?]; auto.
Qed.
End fresh_space.

(** A new address space starts with an empty user half and the kernel's
    half: with a page free, [new_address_space] returns a fresh frame, keeps the
    forest with the new root added, translates no user-half address in it,
    translates every kernel-half address as the kernel's tables do, and changes
    no translation of an existing space. *)
Theorem new_address_space_exact v roots :
  space_ok (PMM v) roots -> KERNEL_PML4_PHYS v ∈ roots -> 0 < free_pages (STATS (PMM v)) ->
  exists v' r, new_address_space v = Some (v', r) /\ ~ (r ∈ roots) /\
    space_ok (PMM v') (r :: roots) /\
    (forall a, 0 <= a < 2 ^ 47 -> debug_translate (MEM (PMM v')) r a = 0) /\
    (forall a, PHYS_MAP_BASE <= a < 2 ^ 64 ->
       debug_translate (MEM (PMM v')) r a = debug_translate (MEM (PMM v)) (KERNEL_PML4_PHYS v) a) /\
    (forall r' a, r' ∈ roots ->
       debug_translate (MEM (PMM v')) r' a = debug_translate (MEM (PMM v)) r' a).
Proof.
  intros Hok HK Hfree.
  destruct (alloc_page_supplies _ (so_pmm _ _ Hok) (so_zero _ _ Hok) Hfree) as (n & s1 & Heq & Hal & Hn).
  unfold new_address_space. rewrite Heq. cbn [mbind option_bind]. eexists _, _. split; [reflexivity|].
  cbn [PMM set_pmm]. set (r := n * PAGE_SIZE). set (s2 := foldl _ _ _). set (K := KERNEL_PML4_PHYS v) in *.
  assert (forall a i4 i3 i2 i1 r' f, split_indices a = (i4, i3, i2, i1) -> is_frame r' -> r' <> r ->
    frame_of (MEM (PMM v)) r' [i4; i3; i2] = Some f -> r' ∈ roots -> entry (MEM s2) f i1 = entry (MEM (PMM v)) f i1) as Hleaf.
  { intros a i4 i3 i2 i1 r' f Hs Hr' Hne Hf Hin. destruct (split_indices_ok _ _ _ _ _ Hs) as [Hp Hi].
    etransitivity; [apply (fresh_entries v roots n s1 Hok HK Hal Hn f i1); [by eapply frame_of_is_frame|done]|].
    by rewrite decide_False by (by eapply fresh_ne_table). }
  assert (~ (r ∈ roots)) as Hnin.
  { intros Hin. eapply (fresh_ne_table v roots n s1 Hok Hal r [] r Hin path_ok_nil eq_refl). done. }
  split_and!; [done|by eapply fresh_space_ok|..].
  - intros a Ha. rewrite debug_translate_frame. destruct (split_indices a) as [[[i4 i3] i2] i1] eqn:Hs.
    destruct (split_indices_ok _ _ _ _ _ Hs) as [Hp _].
    rewrite (fresh_frames_new v roots n s1 Hok HK Hal Hn i4 [i3; i2] Hp : frame_of (MEM s2) r _ = _).
    rewrite decide_False; [done|]. intros Hge. pose proof (upper_half a _ _ _ _ ltac:(lia) Hs Hge) as Hup.
    rewrite (Z.mod_small a) in Hup by lia. change (PHYS_MAP_BASE mod 2 ^ 48) with (2 ^ 47) in Hup. lia.
  - intros a Ha. rewrite !debug_translate_frame. destruct (split_indices a) as [[[i4 i3] i2] i1] eqn:Hs.
    destruct (split_indices_ok _ _ _ _ _ Hs) as [Hp _].
    assert (256 <= i4) as H4.
    { pose proof (split_indices_reconstruct a ltac:(unfold PHYS_MAP_BASE in Ha; lia)) as H. rewrite Hs in H.
      destruct H as (? & ? & ? & ? & H). pose proof (Z.mod_pos_bound a (2 ^ 12) ltac:(lia)).
      assert (2 ^ 47 <= a mod 2 ^ 48) by (unfold PHYS_MAP_BASE in Ha; Z.div_mod_to_equations; lia). lia. }
    rewrite (fresh_frames_new v roots n s1 Hok HK Hal Hn i4 [i3; i2] Hp : frame_of (MEM s2) r _ = _).
    rewrite decide_True by done. fold K. destruct (frame_of (MEM (PMM v)) K [i4; i3; i2]) as [f|] eqn:Hf; [|done].
    apply (Hleaf a i4 i3 i2 i1 K f); try done; [by eapply so_root|]. intros Hkr. apply Hnin. by rewrite <- Hkr.
  - intros r' a Hr'. rewrite !debug_translate_frame. destruct (split_indices a) as [[[i4 i3] i2] i1] eqn:Hs.
    destruct (split_indices_ok _ _ _ _ _ Hs) as [Hp _].
    rewrite (fresh_frames_old v roots n s1 Hok HK Hal Hn r' [i4; i3; i2] Hr' Hp : frame_of (MEM s2) r' _ = _).
    destruct (frame_of (MEM (PMM v)) r' [i4; i3; i2]) as [f|] eqn:Hf; [|done].
    apply (Hleaf a i4 i3 i2 i1 r' f); try done; [by eapply so_root|]. intros Hkr. apply Hnin. by rewrite <- Hkr.
Qed.

(** *** The first space *)

Lemma frame_of_zero_root m r p :
  (forall i, is_index i -> entry m r i = 0) -> path_ok p ->
  frame_of m r p = match p with [] => Some r | _ => None end.
Proof.
  intros Hz [Hp _]. destruct p as [|i p]; [done|]. apply Forall_cons in Hp as [Hi _].
  unfold frame_of. cbn [foldM]. assert (next_frame m r i = None) as -> by (unfold next_frame; by rewrite Hz). done.
Qed.

Lemma root_space_ok s n s1 :
  pmm_inv s -> page_zero_reserved s -> TOTAL_SPAN_PAGES s * PAGE_SIZE <= 2 ^ 52 ->
  (forall a, is_byte (MEM s a)) -> allocates s n s1 -> 0 < n ->
  space_ok s1 [n * PAGE_SIZE] /\ (forall a, debug_translate (MEM s1) (n * PAGE_SIZE) a = 0).
Proof.
  intros Hs Hz Hsp Hb Hal Hn. pose proof Hal as [Hr Hwf (_ & _ & Hbit) Hres Hsp1 Hmem Hinv].
  assert (is_frame (n * PAGE_SIZE)) as Hfr by (unfold PAGE_SIZE in *; split; [lia|by apply Z.mod_mul]).
  assert (forall i, is_index i -> entry (MEM s1) (n * PAGE_SIZE) i = 0) as Hent.
  { intros i Hi. rewrite Hmem, entry_zero_page by done. by rewrite decide_True. }
  assert (forall r p f, r ∈ [n * PAGE_SIZE] -> path_ok p -> frame_of (MEM s1) r p = Some f ->
    r = n * PAGE_SIZE /\ p = [] /\ f = n * PAGE_SIZE) as Hcase.
  { intros r p f ->%list_elem_of_singleton Hp Hf. rewrite frame_of_zero_root in Hf by done.
    destruct p; [by injection Hf as <-|done]. }
  split.
  - constructor; [done| | |rewrite Hmem; by apply zero_page_bytes| | |].
    + unfold page_zero_reserved. by rewrite Hres, Hsp1.
    + by rewrite Hsp1.
    + by intros r ->%list_elem_of_singleton.
    + intros r p f H1 H2 H3. destruct (Hcase _ _ _ H1 H2 H3) as (_ & _ & ->).
      unfold PAGE_SIZE. rewrite Z.div_mul, Hbit by lia. by rewrite Z.eqb_refl.
    + intros r r' p q f H1 H1' H2 H2' H3 H3'. destruct (Hcase _ _ _ H1 H2 H3) as (-> & -> & _).
      destruct (Hcase _ _ _ H1' H2' H3') as (-> & -> & _). auto.
  - intros a. rewrite debug_translate_frame. destruct (split_indices a) as [[[i4 i3] i2] i1] eqn:Ha.
    destruct (split_indices_ok _ _ _ _ _ Ha) as [Hp _]. by rewrite frame_of_zero_root.
Qed.

(** *** Memory outside the tables *)

(** Two memories that agree on the tables agree on every walk. *)
Section agree.
Context (m m' : Z -> Z) (roots : list Z).
Context (Hag : forall r q g j, r ∈ roots -> path_ok q -> frame_of m r q = Some g -> is_index j ->
  entry m' g j = entry m g j).

Lemma agree_frames r q : r ∈ roots -> path_ok q -> frame_of m' r q = frame_of m r q.
Proof using Hag.
  intros Hr Hq. induction q as [|j q IH] using rev_ind; [done|].
  apply path_ok_snoc in Hq as (Hq & Hj & _). rewrite !frame_of_snoc, IH by done.
  destruct (frame_of m r q) as [g|] eqn:Hg; [|done]. cbn [mbind option_bind]. unfold next_frame.
  by rewrite (Hag r q g j).
Qed.

Lemma agree_translate r v : r ∈ roots -> debug_translate m' r v = debug_translate m r v.
Proof using Hag.
  intros Hr. rewrite !debug_translate_frame. destruct (split_indices v) as [[[i4 i3] i2] i1] eqn:Hs.
  destruct (split_indices_ok _ _ _ _ _ Hs) as [Hp Hi]. rewrite agree_frames by done.
  destruct (frame_of m r [i4; i3; i2]) as [g|] eqn:Hg; [|done]. by eapply Hag.
Qed.
End agree.

(** Handing out a page touches no table. *)
Lemma alloc_agree s roots n s1 r q g j :
  space_ok s roots -> allocates s n s1 -> 0 < n -> r ∈ roots -> path_ok q -> frame_of (MEM s) r q = Some g ->
  is_index j -> entry (MEM s1) g j = entry (MEM s) g j.
Proof.
  intros Hok Hal Hn Hr Hq Hg Hj. rewrite (al_mem _ _ _ Hal), entry_zero_page;
    [|by eapply fresh_is_frame|eapply frame_of_is_frame, Hg; by eapply so_root|done].
  rewrite decide_False; [done|]. apply not_eq_sym. by eapply fresh_not_table.
Qed.

Lemma alloc_used s n s1 g :
  allocates s n s1 -> 0 <= g -> bit (USED_BITMAP s) (g / PAGE_SIZE) = true ->
  bit (USED_BITMAP s1) (g / PAGE_SIZE) = true /\ g <> n * PAGE_SIZE.
Proof.
  intros Hal Hg Hu. destruct (al_used _ _ _ Hal) as (_ & _ & Hb). split.
  - rewrite Hb, Hu by (apply Z.div_pos; done). by destruct (_ =? _).
  - intros ->. unfold PAGE_SIZE in Hu. rewrite Z.div_mul in Hu by done. by rewrite (al_was_free _ _ _ Hal) in Hu.
Qed.

Lemma alloc_entry s roots n s1 g j :
  space_ok s roots -> allocates s n s1 -> 0 < n -> is_frame g -> is_index j ->
  entry (MEM s1) g j = if decide (n * PAGE_SIZE = g) then 0 else entry (MEM s) g j.
Proof. intros Hok Hal Hn Hg Hj. rewrite (al_mem _ _ _ Hal). apply entry_zero_page; [by eapply fresh_is_frame|done..]. Qed.

(** A fresh page as the empty root of another space. *)
Lemma add_root_ok s roots n s1 :
  space_ok s roots -> allocates s n s1 -> 0 < n ->
  let d := n * PAGE_SIZE in
  space_ok s1 (d :: roots) /\ ~ (d ∈ roots) /\
  (forall v, debug_translate (MEM s1) d v = 0) /\
  (forall r v, r ∈ roots -> debug_translate (MEM s1) r v = debug_translate (MEM s) r v) /\
  (forall g, foreign s roots g -> foreign s1 (d :: roots) g /\
     forall j, is_index j -> entry (MEM s1) g j = entry (MEM s) g j).
Proof.
  intros Hok Hal Hn d. pose proof Hal as [Hr Hwf (_ & _ & Hbit) Hres Hsp1 Hmem Hinv].
  assert (is_frame d) as Hd by (by eapply fresh_is_frame).
  assert (forall i, is_index i -> entry (MEM s1) d i = 0) as Hent.
  { intros i Hi. rewrite (alloc_entry s roots n s1) by done. by rewrite decide_True. }
  pose proof (agree_frames _ _ roots (fun r q g j => alloc_agree s roots n s1 r q g j Hok Hal Hn)) as Hfr.
  assert (forall r q g, r ∈ d :: roots -> path_ok q -> frame_of (MEM s1) r q = Some g ->
    (r = d /\ q = [] /\ g = d) \/ (r ∈ roots /\ frame_of (MEM s) r q = Some g)) as Hcase.
  { intros r q g [->|Hin]%elem_of_cons Hq Hg; [left|right; rewrite Hfr in Hg by done; done].
    rewrite frame_of_zero_root in Hg by done. destruct q; [by injection Hg as <-|done]. }
  assert (~ (d ∈ roots)) as Hnin.
  { intros Hin. by apply (fresh_not_table s s1 roots n Hok Hal d [] d Hin path_ok_nil eq_refl). }
  split_and!; [constructor| done| | |].
  - done.
  - unfold page_zero_reserved. rewrite Hres, Hsp1. apply Hok.
  - rewrite Hsp1. apply Hok.
  - rewrite Hmem. apply zero_page_bytes, Hok.
  - intros r [->|Hin]%elem_of_cons; [done|by eapply so_root].
  - intros r q g H1 H2 H3. destruct (Hcase _ _ _ H1 H2 H3) as [(_ & _ & ->)|[Hin Hg]].
    + unfold d, PAGE_SIZE. rewrite Z.div_mul, Hbit by lia. by rewrite Z.eqb_refl.
    + eapply (alloc_used s n s1 g Hal); [|by eapply so_used].
      eapply frame_of_is_frame in Hg; [apply Hg|by eapply so_root].
  - intros r r' p q g H1 H1' H2 H2' H3 H3'.
    destruct (Hcase _ _ _ H1 H2 H3) as [(-> & -> & ->)|[Hin Hg]];
      destruct (Hcase _ _ _ H1' H2' H3') as [(-> & -> & Hgd)|[Hin' Hg']]; [by auto| | |by eapply (so_inj _ _ Hok)].
    + exfalso. by eapply (fresh_not_table s s1 roots n Hok Hal _ _ _ Hin' H2' Hg').
    + exfalso. by eapply (fresh_not_table s s1 roots n Hok Hal _ _ _ Hin H2 Hg).
  - intros v. rewrite debug_translate_frame. destruct (split_indices v) as [[[i4 i3] i2] i1] eqn:Hs.
    destruct (split_indices_ok _ _ _ _ _ Hs) as [Hp _]. by rewrite frame_of_zero_root.
  - intros r v Hin. by apply (agree_translate _ _ roots (fun r q g j => alloc_agree s roots n s1 r q g j Hok Hal Hn)).
  - intros g (Hg & Hu & Hnt). destruct (alloc_used s n s1 g Hal (proj1 (proj1 Hg)) Hu) as [Hu1 Hgn].
    split; [split_and!; [done|done|]|].
    + intros r q H1 H2 H3. destruct (Hcase _ _ _ H1 H2 H3) as [(_ & _ & ?)|[Hin Hgg]]; [done|by eapply Hnt].
    + intros j Hj. rewrite (alloc_entry s roots n s1) by done. by rewrite decide_False.
Qed.

(** A fresh page for something else. *)
Lemma alloc_foreign s roots n s1 :
  space_ok s roots -> allocates s n s1 -> 0 < n ->
  space_ok s1 roots /\ spares s s1 roots /\ foreign s1 roots (n * PAGE_SIZE) /\
  (forall j, is_index j -> entry (MEM s1) (n * PAGE_SIZE) j = 0) /\
  (forall g, foreign s roots g -> g <> n * PAGE_SIZE) /\
  (forall r v, r ∈ roots -> debug_translate (MEM s1) r v = debug_translate (MEM s) r v).
Proof.
  intros Hok Hal Hn. destruct (add_root_ok s roots n s1 Hok Hal Hn) as (Hok1 & Hnin & _ & Htr & Hfor).
  assert (forall r, r ∈ roots -> r ∈ n * PAGE_SIZE :: roots) as Hsub by set_solver.
  assert (is_frame (n * PAGE_SIZE)) as Hd by exact (fresh_is_frame s s1 roots n Hok Hal Hn).
  split_and!.
  - destruct Hok1 as [H1 H2 H3 H4 H5 H6 H7]. constructor; eauto.
  - intros g Hg. destruct (Hfor g Hg) as [(Hf1 & Hf2 & Hf3) He]. split; [|done]. split_and!; [done|done|].
    intros r q Hr. apply Hf3. auto.
  - split_and!; [done| |].
    + destruct (al_used _ _ _ Hal) as (_ & _ & Hb). unfold PAGE_SIZE. rewrite Z.div_mul, Hb by lia. by rewrite Z.eqb_refl.
    + intros r q Hr Hq Hg. rewrite (agree_frames _ _ roots
        (fun r q g j => alloc_agree s roots n s1 r q g j Hok Hal Hn)) in Hg by done. by eapply (fresh_not_table s s1 roots n Hok Hal _ _ _ Hr Hq Hg).
  - intros j Hj. rewrite (alloc_entry s roots n s1) by done. by rewrite decide_True.
  - intros g (Hg & Hu & _). by apply (alloc_used s n s1 g Hal (proj1 (proj1 Hg)) Hu).
  - done.
Qed.

(** Writing a word of a foreign frame. *)
Lemma write_foreign s roots g i v :
  space_ok s roots -> foreign s roots g -> is_index i ->
  let s' := set_entry g i v s in
  space_ok s' roots /\ (forall h, foreign s roots h -> foreign s' roots h) /\
  (forall r w, r ∈ roots -> debug_translate (MEM s') r w = debug_translate (MEM s) r w).
Proof.
  intros Hok Hg Hi s'.
  assert (forall r q h j, r ∈ roots -> path_ok q -> frame_of (MEM s) r q = Some h -> is_index j ->
    entry (MEM s') h j = entry (MEM s) h j) as Hag.
  { intros r q h j Hr Hq Hh Hj. apply entry_set_ne; [apply Hg|eapply frame_of_is_frame, Hh; by eapply so_root|done|done|].
    left. intros <-. by eapply Hg. }
  pose proof (agree_frames _ _ roots Hag) as Hfr. split_and!.
  - destruct Hok as [[] H2 H3 H4 H5 H6 H7]. constructor; cbn; try done; [by apply wr64_bytes| |].
    + intros r q h Hr Hq Hh. rewrite Hfr in Hh by done. by eapply H6.
    + intros r r' p q h Hr Hr' Hp Hq Hh Hh'. rewrite Hfr in Hh, Hh' by done. by eapply H7.
  - intros h (Hh1 & Hh2 & Hh3). split_and!; [done|done|]. intros r q Hr Hq. rewrite Hfr by done. by apply Hh3.
  - intros r w Hr. by apply (agree_translate _ _ roots Hag).
Qed.

Module VmmWitness.
Import PmmWitness.

(** The tables of the machine of [PmmWitness] after boot: one empty space. *)
Definition kernel_space : pmm * Z := default (booted, 0) (zeroed_table booted).
Definition s0 : pmm := kernel_space.1.
Definition root : Z := kernel_space.2.
Definition v0 : vmm := mkVmm s0 root root (2 ^ 64 - 1) (2 ^ 64 - 1).

Lemma space0_ok : space_ok s0 [root].
Proof.
  destruct booted_inv as [Hi Hz].
  destruct (zeroed_table_supplies booted Hi Hz) as (n & s1 & Heq & Hal & Hn); [by vm_compute|].
  unfold s0, root, kernel_space. rewrite Heq. cbn [default fst snd].
  refine (proj1 (root_space_ok booted n s1 Hi Hz _ _ Hal Hn)); [vm_compute; discriminate|].
  intros a. assert (MEM booted = m0) as -> by (vm_compute; reflexivity). split; [done|reflexivity].
Qed.

Lemma root_in : root ∈ [root].
Proof. by apply list_elem_of_singleton. Qed.

Lemma map_page_witness :
  exists s', map_page root 0x400000 0x1A000 PAGE_USER s0 = Some s' /\
    debug_translate (MEM s') root 0x400123 = 0x1A005.
Proof.
  destruct (map_page_exact s0 [root] root 0x400000 0x1A000 PAGE_USER) as (s' & H & _ & Hh & _);
    [apply space0_ok|apply root_in|split; [done|reflexivity]..|by vm_compute|].
  exists s'. split; [exact H|]. rewrite Hh by (vm_compute; reflexivity). vm_compute. reflexivity.
Defined.

Definition s1 : pmm := default s0 (map_page root 0x400000 0x1A000 (Z.lor PAGE_USER PAGE_WRITABLE) s0).

Lemma s1_ok : space_ok s1 [root].
Proof.
  destruct (map_page_spec s0 [root] root 0x400000 0x1A000 (Z.lor PAGE_USER PAGE_WRITABLE)) as (s' & H & Hm);
    [apply space0_ok|apply root_in|done|split; [done|reflexivity]|by vm_compute|].
  unfold s1. rewrite H. apply Hm.
Qed.

Lemma unmap_page_witness :
  debug_translate (MEM s1) root 0x400123 = 0x1A007 /\
  debug_translate (MEM (unmap_page root 0x400000 s1)) root 0x400123 = 0.
Proof.
  split; [vm_compute; reflexivity|].
  apply (unmap_page_exact s1 [root] root 0x400000 s1_ok root_in). vm_compute. reflexivity.
Defined.

Lemma validate_witness :
  exists b, validate_user_buffer_writable 4 (MEM s1) 0 root 0x400ff0 16 = Some b /\
    (b = true <-> 0 < 16 /\ forall a, 0x400ff0 <= a < 0x400ff0 + 16 -> page_allows (MEM s1) root 7 a).
Proof.
  apply (validate_writable_exact 4 (MEM s1) 0 root 0x400ff0 16); [split; [done|reflexivity]|lia|vm_compute; discriminate|vm_compute; discriminate].
Defined.

Definition greeting : bytes := [104; 101; 108; 108; 111].

Lemma user_bytes_witness :
  read_user_bytes (write_user_bytes (MEM s1) root 0x400ffb greeting) root 0x400ffb 5 = greeting.
Proof.
  apply (user_bytes_roundtrip (MEM s1) root 0x400ffb greeting).
  - intros a a' Ha Ha'.
    assert (Forall (fun a => Forall (fun a' => Forall (fun f =>
      user_phys (MEM s1) root a < f \/ f + 4096 <= user_phys (MEM s1) root a) (walk_frames (MEM s1) root a'))
      (buffer 0x400ffb (length greeting))) (buffer 0x400ffb (length greeting))) as H
      by (apply (bool_decide_unpack _); vm_compute; exact I).
    rewrite Forall_forall in H. specialize (H a Ha). rewrite Forall_forall in H. specialize (H a' Ha').
    intros f Hf. rewrite Forall_forall in H. by apply H.
  - apply (bool_decide_unpack _). vm_compute. exact I.
Defined.

Lemma destroy_witness :
  exists v', destroy_address_space 0x19000 (mkVmm booted 0x18000 0x19000 0 0) = Some v' /\ CR3 v' = 0x18000.
Proof.
  destruct (destroy_address_space_exact (mkVmm booted 0x18000 0x19000 0 0) 0x19000 (proj1 booted_inv) ltac:(done))
    as (v' & H & _ & Hd). exists v'. split; [exact H|].
  destruct Hd as (_ & _ & HC & _); [done|done|]. rewrite HC. reflexivity.
Defined.

Lemma new_address_space_witness :
  exists v' r, new_address_space v0 = Some (v', r) /\ space_ok (PMM v') [r; root].
Proof.
  destruct (new_address_space_exact v0 [root] space0_ok root_in) as (v' & r & H & _ & Hok & _); [by vm_compute|].
  exists v', r. auto.
Defined.
End VmmWitness.
