(* ===== verification/Iommu.v ===== *)
(** * DMA containment ([kernel_rs/src/iommu.rs])

    The root table, the per-bus context tables and the per-device second-level
    tables are frames of physical memory.  The remapping engine itself is read
    through [dma_translate], the walk VT-d hardware makes for a device's access.
    Register writes are a log; [ecap] is the value of the extended capability
    register.  Waiting for a command bit to clear has no effect on the tables, and
    both outcomes of the bounded spin continue the same way. *)

From S2P Require Import Prelude Bits Pmm Vmm.

Definition REG_ECAP : Z := 0x10.
Definition REG_CCMD : Z := 0x28.
Definition CCMD_ICC : Z := Z.shiftl 1 63.
Definition CCMD_CIRG_GLOBAL : Z := Z.shiftl 1 61.

Record iommu := mkIommu {
  IPMM : pmm; ROOT_TABLE_PHYS : Z; BUS_CONTEXT_PHYS : list Z; NEXT_DOMAIN_ID : Z;
  REG_WRITES : list (Z * Z) }.

Definition set_ipmm (p : pmm) (s : iommu) : iommu :=
  mkIommu p (ROOT_TABLE_PHYS s) (BUS_CONTEXT_PHYS s) (NEXT_DOMAIN_ID s) (REG_WRITES s).

Definition write_reg (reg v : Z) (s : iommu) : iommu :=
  mkIommu (IPMM s) (ROOT_TABLE_PHYS s) (BUS_CONTEXT_PHYS s) (NEXT_DOMAIN_ID s) (REG_WRITES s ++ [(reg, v)]).

Definition ctx_index (device function : Z) : Z :=
  Z.lor (Z.shiftl (Z.land device 0x1F) 3) (Z.land function 0x7).

(** The pages of a list of (base, length) ranges, in order. *)
Definition range_pages (ranges : list (Z * Z)) : list Z :=
  r ← ranges; (fun p => u64 (r.1 + p * 4096)) <$> range 0 (u64 (r.2 + 4095) / 4096).

(** The context table of a bus, created with the first device assigned there. *)
Definition bus_context (bus : Z) (s : iommu) : option (iommu * Z) :=
  existing ← BUS_CONTEXT_PHYS s !! Z.to_nat bus;
  if negb (existing =? 0) then Some (s, existing) else
  '(p, fresh) ← alloc_page (IPMM s);
  let p := set_entry (ROOT_TABLE_PHYS s) (bus * 2) (Z.lor fresh 1) p in
  Some (mkIommu p (ROOT_TABLE_PHYS s) (<[Z.to_nat bus := fresh]> (BUS_CONTEXT_PHYS s))
          (NEXT_DOMAIN_ID s) (REG_WRITES s), fresh).

Definition assign_device (bus device function : Z) (ranges : list (Z * Z)) (s : iommu)
  : option (iommu * Z) :=
  '(p, domain_pml4) ← alloc_page (IPMM s);
  p ← foldM (fun p addr => vmm_map_iommu_page domain_pml4 addr addr p) p (range_pages ranges);
  '(s, context) ← bus_context bus (set_ipmm p s);
  let domain_id := u16 (NEXT_DOMAIN_ID s + 1) in
  let i := ctx_index device function in
  let p := set_entry context (i * 2) (Z.lor domain_pml4 1) (IPMM s) in
  let p := set_entry context (i * 2 + 1) (Z.lor 2 (Z.shiftl domain_id 8)) p in
  let s := mkIommu p (ROOT_TABLE_PHYS s) (BUS_CONTEXT_PHYS s) domain_id (REG_WRITES s) in
  Some (write_reg REG_CCMD (Z.lor CCMD_ICC CCMD_CIRG_GLOBAL) s, domain_id).

Section revoking.
Context (ecap : Z).

Definition iotlb_reg : Z := Z.land (Z.shiftr ecap 8) 0x3FF * 16 + 8.

Definition iommu_revoke_device (bus device function : Z) (s : iommu) : option (iommu * bool) :=
  context ← BUS_CONTEXT_PHYS s !! Z.to_nat bus;
  if context =? 0 then Some (s, false) else
  let i := ctx_index device function in
  let low := entry (MEM (IPMM s)) context (i * 2) in
  if Z.land low 1 =? 0 then Some (s, false) else
  let high := entry (MEM (IPMM s)) context (i * 2 + 1) in
  let domain_id := u16 (Z.land (Z.shiftr high 8) 0xFFFF) in
  let p := set_entry context (i * 2) 0 (IPMM s) in
  let p := set_entry context (i * 2 + 1) 0 p in
  let s := write_reg REG_CCMD (Z.lor CCMD_ICC CCMD_CIRG_GLOBAL) (set_ipmm p s) in
  let invalidate := Z.lor (Z.lor (Z.shiftl 1 63) (Z.shiftl 1 60)) (Z.shiftl domain_id 32) in
  Some (write_reg iotlb_reg invalidate s, true).
End revoking.

Definition context_entry_raw (bus device function : Z) (s : iommu) : option (Z * Z) :=
  context ← BUS_CONTEXT_PHYS s !! Z.to_nat bus;
  if context =? 0 then Some (0, 0) else
  let i := ctx_index device function in
  Some (entry (MEM (IPMM s)) context (i * 2), entry (MEM (IPMM s)) context (i * 2 + 1)).

Definition context_entry_present (bus device function : Z) (s : iommu) : option bool :=
  context ← BUS_CONTEXT_PHYS s !! Z.to_nat bus;
  if context =? 0 then Some false else
  let i := ctx_index device function in
  Some (negb (Z.land (entry (MEM (IPMM s)) context (i * 2)) 1 =? 0)).

(** [debug_corrupt_context_entry], the fault the certificate demo injects. *)
Definition debug_corrupt_context_entry (bus device function : Z) (s : iommu) : option iommu :=
  context ← BUS_CONTEXT_PHYS s !! Z.to_nat bus;
  if context =? 0 then Some s else
  let i := ctx_index device function in
  Some (set_ipmm (set_entry context (i * 2)
    (Z.lxor (entry (MEM (IPMM s)) context (i * 2)) (Z.shiftl 1 4)) (IPMM s)) s).

(** ** What the hardware does *)

(** The remapping engine's walk for an access of a device: root entry, context
    entry, second-level tables.  0 is a fault. *)
Definition dma_translate (s : iommu) (bus device function addr : Z) : Z :=
  let m := IPMM s in
  let re := entry (MEM m) (ROOT_TABLE_PHYS s) (bus * 2) in
  if negb (present re) then 0 else
  let ce := entry (MEM m) (Z.land re ADDR_MASK) (ctx_index device function * 2) in
  if negb (present ce) then 0 else
  debug_translate (MEM m) (Z.land ce ADDR_MASK) addr.

(** ** Invariant *)

Definition dev_ok (bus device function : Z) : Prop := 0 <= bus < 256 /\ 0 <= device < 32 /\ 0 <= function < 8.

(** The tables of the engine: the root table and the context tables are frames
    of their own, distinct from each other and from the second-level tables of
    [domains]; the root entries point to the context tables; every present context
    entry names a domain. *)
Record iommu_ok (s : iommu) (domains : list Z) : Prop := {
  io_space : space_ok (IPMM s) domains;
  io_len : length (BUS_CONTEXT_PHYS s) = 256%nat;
  io_root : foreign (IPMM s) domains (ROOT_TABLE_PHYS s);
  io_ctx : forall b c, 0 <= b < 256 -> BUS_CONTEXT_PHYS s !! Z.to_nat b = Some c -> c <> 0 ->
    foreign (IPMM s) domains c /\ c <> ROOT_TABLE_PHYS s /\
    entry (MEM (IPMM s)) (ROOT_TABLE_PHYS s) (b * 2) = Z.lor c 1;
  io_none : forall b, 0 <= b < 256 -> BUS_CONTEXT_PHYS s !! Z.to_nat b = Some 0 ->
    present (entry (MEM (IPMM s)) (ROOT_TABLE_PHYS s) (b * 2)) = false;
  io_inj : forall b b' c, 0 <= b < 256 -> 0 <= b' < 256 -> c <> 0 ->
    BUS_CONTEXT_PHYS s !! Z.to_nat b = Some c -> BUS_CONTEXT_PHYS s !! Z.to_nat b' = Some c -> b = b';
  io_dom : forall b c i, 0 <= b < 256 -> BUS_CONTEXT_PHYS s !! Z.to_nat b = Some c -> c <> 0 ->
    0 <= i < 256 -> present (entry (MEM (IPMM s)) c (i * 2)) = true ->
    Z.land (entry (MEM (IPMM s)) c (i * 2)) ADDR_MASK ∈ domains
}.

Lemma ctx_index_val device function :
  0 <= device < 32 -> 0 <= function < 8 -> ctx_index device function = device * 8 + function.
Proof.
  intros Hd Hf.
  assert (Forall (fun d => Forall (fun f => ctx_index d f = d * 8 + f) (range 0 8)) (range 0 32)) as H
    by (apply (bool_decide_unpack _); vm_compute; exact I).
  rewrite Forall_forall in H. specialize (H device (proj2 (elem_of_range _ _ _) Hd)).
  rewrite Forall_forall in H. exact (H function (proj2 (elem_of_range _ _ _) Hf)).
Qed.

Lemma frame_tag f : is_frame f -> present (Z.lor f 1) = true /\ Z.land (Z.lor f 1) ADDR_MASK = f /\ in_width 64 (Z.lor f 1).
Proof.
  intros [Hf Ha]. split_and!.
  - by rewrite present_testbit, Z.lor_spec, orb_true_r.
  - by apply frame_from_entry_roundtrip.
  - apply in_width_lor; [lia| |split; [lia|reflexivity]]. apply (in_width_mono 52); [lia|done].
Qed.

(** The hardware walk in terms of the bookkeeping. *)
Lemma dma_translate_ok s domains bus device function a :
  iommu_ok s domains -> dev_ok bus device function ->
  exists c, BUS_CONTEXT_PHYS s !! Z.to_nat bus = Some c /\
    dma_translate s bus device function a =
    if decide (c = 0) then 0
    else let ce := entry (MEM (IPMM s)) c ((device * 8 + function) * 2) in
         if present ce then debug_translate (MEM (IPMM s)) (Z.land ce ADDR_MASK) a else 0.
Proof.
  intros Hok (Hb & Hd & Hf).
  destruct (lookup_lt_is_Some_2 (BUS_CONTEXT_PHYS s) (Z.to_nat bus)) as [c Hc]; [rewrite (io_len _ _ Hok); lia|].
  exists c. split; [done|]. unfold dma_translate. rewrite ctx_index_val by done.
  destruct (decide (c = 0)) as [->|Hne].
  - by rewrite (io_none _ _ Hok bus Hb Hc).
  - destruct (io_ctx _ _ Hok bus c Hb Hc Hne) as ((Hfr & _) & _ & ->).
    destruct (frame_tag c Hfr) as (-> & -> & _). cbn [negb]. cbv zeta. by destruct (present _).
Qed.

(** *** The context table of a bus *)

Lemma bus_context_spec s domains bus :
  iommu_ok s domains -> 0 <= bus < 256 -> 0 < free_pages (STATS (IPMM s)) ->
  exists s' c, bus_context bus s = Some (s', c) /\ iommu_ok s' domains /\ c <> 0 /\
    BUS_CONTEXT_PHYS s' !! Z.to_nat bus = Some c /\
    (forall r v, r ∈ domains -> debug_translate (MEM (IPMM s')) r v = debug_translate (MEM (IPMM s)) r v) /\
    (forall b, 0 <= b < 256 -> b <> bus -> BUS_CONTEXT_PHYS s' !! Z.to_nat b = BUS_CONTEXT_PHYS s !! Z.to_nat b) /\
    (forall b c' j, 0 <= b < 256 -> is_index j -> BUS_CONTEXT_PHYS s !! Z.to_nat b = Some c' -> c' <> 0 ->
       BUS_CONTEXT_PHYS s' !! Z.to_nat b = Some c' /\ entry (MEM (IPMM s')) c' j = entry (MEM (IPMM s)) c' j) /\
    (BUS_CONTEXT_PHYS s !! Z.to_nat bus = Some 0 -> forall j, is_index j -> entry (MEM (IPMM s')) c j = 0).
Proof.
  intros Hok Hb Hfree. unfold bus_context.
  destruct (lookup_lt_is_Some_2 (BUS_CONTEXT_PHYS s) (Z.to_nat bus)) as [c Hc]; [rewrite (io_len _ _ Hok); lia|].
  rewrite Hc. cbn [mbind option_bind]. destruct (Z.eqb_spec c 0) as [->|Hne]; cbn [negb].
  2:{ exists s, c. split_and!; try done. congruence. }
  pose proof Hok as [Hsp Hlen Hroot Hctx Hnone Hinj Hdom].
  destruct (alloc_page_supplies _ (so_pmm _ _ Hsp) (so_zero _ _ Hsp) Hfree) as (n & p1 & -> & Hal & Hn).
  cbn [mbind option_bind].
  destruct (alloc_foreign _ _ n p1 Hsp Hal Hn) as (Hsp1 & Hspare & Hfor & Hzero & Hfresh & Htr1).
  destruct (Hspare _ Hroot) as [Hroot1 Hroote].
  assert (is_index (bus * 2)) as Hib by (red; lia).
  destruct (write_foreign p1 domains (ROOT_TABLE_PHYS s) (bus * 2) (Z.lor (n * PAGE_SIZE) 1) Hsp1 Hroot1 Hib)
    as (Hsp2 & Hfor2 & Htr2).
  set (p2 := set_entry (ROOT_TABLE_PHYS s) (bus * 2) (Z.lor (n * PAGE_SIZE) 1) p1) in *.
  set (c := n * PAGE_SIZE) in *. assert (c <> 0) as Hc0 by (unfold c, PAGE_SIZE; lia).
  assert (c <> ROOT_TABLE_PHYS s) as HcR by (apply not_eq_sym, Hfresh, Hroot).
  destruct (frame_tag c (proj1 Hfor)) as (_ & _ & Hw).
  assert (forall b, 0 <= b < 256 -> b <> bus ->
    (<[Z.to_nat bus := c]> (BUS_CONTEXT_PHYS s)) !! Z.to_nat b = BUS_CONTEXT_PHYS s !! Z.to_nat b) as Hother
    by (intros; apply list_lookup_insert_ne; lia).
  assert ((<[Z.to_nat bus := c]> (BUS_CONTEXT_PHYS s)) !! Z.to_nat bus = Some c) as Hself
    by (apply list_lookup_insert_eq; lia).
  assert (forall b c', 0 <= b < 256 -> BUS_CONTEXT_PHYS s !! Z.to_nat b = Some c' -> c' <> 0 ->
    b <> bus /\ foreign p2 domains c' /\ c' <> ROOT_TABLE_PHYS s /\ c' <> c /\
    forall j, is_index j -> entry (MEM p2) c' j = entry (MEM (IPMM s)) c' j) as Hold.
  { intros b c' Hb' Hl Hc'. destruct (Hctx b c' Hb' Hl Hc') as (Hf & HR & He).
    destruct (Hspare _ Hf) as [Hf1 He1]. split_and!; [congruence|by apply Hfor2|done|by apply Hfresh|].
    intros j Hj. unfold p2. rewrite entry_set_ne; [by apply He1|apply Hroot|apply Hf|done|done|]. left. by apply not_eq_sym. }
  assert (forall b, 0 <= b < 256 -> b <> bus ->
    entry (MEM p2) (ROOT_TABLE_PHYS s) (b * 2) = entry (MEM (IPMM s)) (ROOT_TABLE_PHYS s) (b * 2)) as Hrooto.
  { intros b Hb' Hne. unfold p2. rewrite entry_set_ne; [apply Hroote; red; lia|apply Hroot..|done|red; lia|right; lia]. }
  eexists _, c. split; [reflexivity|]. cbn [IPMM BUS_CONTEXT_PHYS]. split_and!; [|done|done| |done| |].
  - constructor; cbn [IPMM ROOT_TABLE_PHYS BUS_CONTEXT_PHYS].
    + done.
    + by rewrite length_insert.
    + by apply Hfor2.
    + intros b c' Hb' Hl Hc'. destruct (decide (b = bus)) as [->|Hne].
      * rewrite Hself in Hl. injection Hl as <-. split_and!; [by apply Hfor2|done|]. by apply entry_set_eq.
      * rewrite Hother in Hl by done. destruct (Hold b c' Hb' Hl Hc') as (_ & ? & ? & _).
        split_and!; [done|done|]. rewrite Hrooto by done. by apply (Hctx b c').
    + intros b Hb' Hl. destruct (decide (b = bus)) as [->|Hne]; [congruence|].
      rewrite Hrooto by done. apply Hnone; [done|]. by rewrite <- Hother.
    + intros b b' c' H1 H2 Hc' L1 L2. destruct (decide (b = bus)) as [->|N1], (decide (b' = bus)) as [->|N2]; [done|..].
      * rewrite Hself in L1. rewrite Hother in L2 by done. injection L1 as <-. by destruct (Hold b' c H2 L2 Hc') as (_ & _ & _ & ? & _).
      * rewrite Hself in L2. rewrite Hother in L1 by done. injection L2 as <-. by destruct (Hold b c H1 L1 Hc') as (_ & _ & _ & ? & _).
      * rewrite Hother in L1, L2 by done. by eapply Hinj.
    + intros b c' i Hb' Hl Hc' Hi. destruct (decide (b = bus)) as [->|Hne].
      * rewrite Hself in Hl. injection Hl as <-. unfold p2.
        rewrite entry_set_ne; [|apply Hroot|apply Hfor|done|red; lia|left; by apply not_eq_sym].
        rewrite Hzero by (red; lia). done.
      * rewrite Hother in Hl by done. destruct (Hold b c' Hb' Hl Hc') as (_ & _ & _ & _ & He).
        rewrite He by (red; lia). by apply (Hdom b).
  - intros r v Hr. rewrite Htr2, Htr1; done.
  - intros b c' j Hb' Hj Hl Hc'. destruct (Hold b c' Hb' Hl Hc') as (Hne & _ & _ & _ & He).
    split; [by rewrite Hother|by apply He].
  - intros _ j Hj. unfold p2. rewrite entry_set_ne; [by apply Hzero|apply Hroot|apply Hfor|done|done|left; by apply not_eq_sym].
Qed.

(** *** Writing one context entry *)

Definition set_context (c i low high : Z) (s : iommu) : iommu :=
  set_ipmm (set_entry c (i * 2 + 1) high (set_entry c (i * 2) low (IPMM s))) s.

Section set_context.
Context (s : iommu) (domains : list Z) (bus c i low high : Z).
Context (Hok : iommu_ok s domains) (Hb : 0 <= bus < 256) (Hi : 0 <= i < 256).
Context (Hc : BUS_CONTEXT_PHYS s !! Z.to_nat bus = Some c) (Hc0 : c <> 0).
Context (Hlow : in_width 64 low) (Hhigh : in_width 64 high).
Context (Hdom : present low = true -> Z.land low ADDR_MASK ∈ domains).

Let s' := set_context c i low high s.

Lemma set_context_entry g j :
  is_frame g -> is_index j ->
  entry (MEM (IPMM s')) g j =
    if decide (g = c /\ j = i * 2 + 1) then high
    else if decide (g = c /\ j = i * 2) then low else entry (MEM (IPMM s)) g j.
Proof using Hok Hb Hi Hc Hc0 Hlow Hhigh.
  intros Hg Hj. destruct (io_ctx _ _ Hok bus c Hb Hc Hc0) as ((Hf & _) & _).
  unfold s', set_context. cbn [IPMM set_ipmm].
  destruct (decide (g = c /\ j = i * 2 + 1)) as [[-> ->]|H1]; [by apply entry_set_eq|].
  rewrite entry_set_ne; [|done|done|red; lia|done|apply not_and_l in H1; naive_solver].
  destruct (decide (g = c /\ j = i * 2)) as [[-> ->]|H2]; [by apply entry_set_eq|].
  rewrite entry_set_ne; [done|done|done|red; lia|done|apply not_and_l in H2; naive_solver].
Qed.

Lemma set_context_tables :
  space_ok (IPMM s') domains /\
  (forall h, foreign (IPMM s) domains h -> foreign (IPMM s') domains h) /\
  (forall r w, r ∈ domains -> debug_translate (MEM (IPMM s')) r w = debug_translate (MEM (IPMM s)) r w).
Proof using Hok Hb Hi Hc Hc0.
  destruct (io_ctx _ _ Hok bus c Hb Hc Hc0) as (Hf & _).
  destruct (write_foreign (IPMM s) domains c (i * 2) low (io_space _ _ Hok) Hf ltac:(red; lia)) as (H1 & F1 & T1).
  destruct (write_foreign _ domains c (i * 2 + 1) high H1 (F1 _ Hf) ltac:(red; lia)) as (H2 & F2 & T2).
  split_and!; [done|by intros h Hh; apply F2, F1|]. intros r w Hr. etransitivity; [exact (T2 r w Hr)|]. by apply T1.
Qed.

Lemma set_context_ok : iommu_ok s' domains.
Proof using All.
  destruct set_context_tables as (Hsp & Hfor & _). pose proof Hok as [_ Hlen Hroot Hctx Hnone Hinj Hd].
  destruct (Hctx bus c Hb Hc Hc0) as (Hf & HcR & _).
  assert (forall b, 0 <= b < 256 -> entry (MEM (IPMM s')) (ROOT_TABLE_PHYS s) (b * 2) =
    entry (MEM (IPMM s)) (ROOT_TABLE_PHYS s) (b * 2)) as HR.
  { intros b Hb'. rewrite set_context_entry by (apply Hroot || (red; lia)). by rewrite !decide_False by naive_solver. }
  constructor; cbn [IPMM ROOT_TABLE_PHYS BUS_CONTEXT_PHYS s' set_context set_ipmm]; try done.
  - by apply Hfor.
  - intros b c' Hb' Hl Hc'. destruct (Hctx b c' Hb' Hl Hc') as (H1 & H2 & H3).
    split_and!; [by apply Hfor|done|]. etransitivity; [exact (HR b Hb')|done].
  - intros b Hb' Hl. etransitivity; [|exact (Hnone b Hb' Hl)]. f_equal. exact (HR b Hb').
  - intros b c' k Hb' Hl Hc' Hk Hpr. destruct (Hctx b c' Hb' Hl Hc') as (H1 & _).
    pose proof (set_context_entry c' (k * 2) (proj1 H1) ltac:(red; lia)) as He.
    rewrite decide_False in He by lia. unfold s', set_context, set_ipmm in He. cbn in He, Hpr |- *. rewrite He in *.
    case_decide as Hd2; [by apply Hdom|exact (Hd b c' k Hb' Hl Hc' Hk Hpr)].
Qed.
End set_context.

(** The ranges as mapping requests of the domain. *)
Definition page_requests (pages : list Z) : list (Z * Z) :=
  (fun a => (a, Z.lor (Z.lor (Z.land a ADDR_MASK) PAGE_PRESENT) PAGE_WRITABLE)) <$> pages.

Lemma map_pages_walk d pages p :
  foldM (fun p addr => vmm_map_iommu_page d addr addr p) p pages =
  foldM (fun p q => map_walk alloc_page (Z.lor PAGE_PRESENT PAGE_WRITABLE) d q.1 q.2 p) p (page_requests pages).
Proof.
  revert p. induction pages as [|a pages IH]; intros p; [done|].
  change (page_requests (a :: pages)) with ((a, Z.lor (Z.lor (Z.land a ADDR_MASK) PAGE_PRESENT) PAGE_WRITABLE) :: page_requests pages).
  cbn [foldM fst snd]. fold (vmm_map_iommu_page d a a p). destruct (vmm_map_iommu_page d a a p); cbn [mbind option_bind]; auto.
Qed.

Lemma iommu_link : link_flags (Z.lor PAGE_PRESENT PAGE_WRITABLE).
Proof. by repeat split. Qed.

(** What a device may reach after an assignment of [pages]. *)
Definition granted (pages : list Z) (a : Z) : Z :=
  requested (page_requests pages) a 0.

Lemma assign_domain_spec s domains bus device function ranges :
  iommu_ok s domains -> dev_ok bus device function ->
  Forall (fun a => 0 <= a < 2 ^ 47) (range_pages ranges) ->
  3 * Z.of_nat (length (range_pages ranges)) + 2 <= free_pages (STATS (IPMM s)) ->
  exists p d, (('(p, d) ← alloc_page (IPMM s);
      p ← foldM (fun p addr => vmm_map_iommu_page d addr addr p) p (range_pages ranges); Some (p, d))
      : option (pmm * Z)) = Some (p, d) /\
    is_frame d /\ iommu_ok (set_ipmm p s) (d :: domains) /\ ~ (d ∈ domains) /\
    0 < free_pages (STATS p) /\
    (forall a, debug_translate (MEM p) d a = granted (range_pages ranges) a) /\
    (forall r a, r ∈ domains -> debug_translate (MEM p) r a = debug_translate (MEM (IPMM s)) r a) /\
    (forall g j, foreign (IPMM s) domains g -> is_index j -> entry (MEM p) g j = entry (MEM (IPMM s)) g j).
Proof.
  intros Hok Hdev Hpg Hfree. pose proof Hok as [Hsp Hlen Hroot Hctx Hnone Hinj Hdom].
  destruct (alloc_page_supplies _ (so_pmm _ _ Hsp) (so_zero _ _ Hsp) ltac:(lia)) as (n & p1 & Heq & Hal & Hn).
  rewrite Heq. cbn [mbind option_bind].
  destruct (add_root_ok _ _ n p1 Hsp Hal Hn) as (Hsp1 & Hnin & Hz & Htr & Hfor).
  pose proof (allocates_free_pages _ _ _ (so_pmm _ _ Hsp) Hal) as Hf1. rewrite map_pages_walk.
  destruct (map_walk_all alloc_page (Z.lor PAGE_PRESENT PAGE_WRITABLE) (n * PAGE_SIZE :: domains) (n * PAGE_SIZE)
    (page_requests (range_pages ranges)) p1) as (p2 & -> & Hsp2 & Hspare & Hf2 & Ht2 & Ho2).
  - apply alloc_page_supplies.
  - apply iommu_link.
  - done.
  - set_solver.
  - apply Forall_fmap. eapply Forall_impl; [exact Hpg|]. intros a Ha. split; [done|]. cbn.
    repeat apply in_width_lor; [lia..| |split; [done|reflexivity]|split; [done|reflexivity]].
    apply (in_width_mono 52); [lia|]. apply masked_is_frame.
  - unfold page_requests. rewrite length_fmap. lia.
  - cbn [mbind option_bind]. exists p2, (n * PAGE_SIZE). split; [done|].
    assert (forall g, foreign (IPMM s) domains g -> foreign p2 (n * PAGE_SIZE :: domains) g /\
      forall j, is_index j -> entry (MEM p2) g j = entry (MEM (IPMM s)) g j) as Hall.
    { intros g Hg. destruct (Hfor g Hg) as [Hg1 He1]. destruct (Hspare g Hg1) as [Hg2 He2].
      split; [done|]. intros j Hj. by rewrite He2, He1. }
    unfold page_requests in Hf2. rewrite length_fmap in Hf2.
    split_and!; [eapply so_root; [exact Hsp1|set_solver]|constructor|done|lia| | |].
    + done.
    + done.
    + by apply Hall.
    + intros b c Hb Hl Hc. destruct (Hctx b c Hb Hl Hc) as (F & R & E). cbn.
      split_and!; [by apply Hall|done|]. rewrite (proj2 (Hall _ Hroot)) by (red; lia). done.
    + intros b Hb Hl. cbn. rewrite (proj2 (Hall _ Hroot)) by (red; lia). by apply Hnone.
    + done.
    + intros b c i Hb Hl Hc Hi. cbn. destruct (Hctx b c Hb Hl Hc) as (F & _).
      rewrite (proj2 (Hall _ F)) by (red; lia). intros Hpr. apply elem_of_cons. right. exact (Hdom b c i Hb Hl Hc Hi Hpr).
    + intros a. rewrite Ht2, Hz. done.
    + intros r a Hr. rewrite Ho2, Htr; [done|done|set_solver|]. intros ->. done.
    + intros g j Hg Hj. by apply Hall.
Qed.

Lemma domain_word id : in_width 64 (Z.lor 2 (Z.shiftl (u16 id) 8)).
Proof.
  apply in_width_lor; [lia|split; [lia|reflexivity]|].
  pose proof (wrap_range 16 id ltac:(lia)) as [H1 H2]. rewrite Z.shiftl_mul_pow2 by lia.
  split; [lia|]. change (2 ^ 64) with (2 ^ 56 * 2 ^ 8). apply Z.mul_lt_mono_pos_r; [done|]. lia.
Qed.

(** Two different devices of one bus have different context slots. *)
Lemma slot_ne device function device' function' :
  0 <= function < 8 -> 0 <= function' < 8 -> (device, function) <> (device', function') ->
  device * 8 + function <> device' * 8 + function'.
Proof. intros Hf Hf' Hne Heq. apply Hne. f_equal; lia. Qed.

Lemma assign_device_spec s domains bus device function ranges :
  iommu_ok s domains -> dev_ok bus device function ->
  Forall (fun a => 0 <= a < 2 ^ 47) (range_pages ranges) ->
  3 * Z.of_nat (length (range_pages ranges)) + 2 <= free_pages (STATS (IPMM s)) ->
  exists s' id d, assign_device bus device function ranges s = Some (s', id) /\
    iommu_ok s' (d :: domains) /\
    context_entry_present bus device function s' = Some true /\
    (forall a, dma_translate s' bus device function a = granted (range_pages ranges) a) /\
    (forall b' d' f' a, dev_ok b' d' f' -> (b', d', f') <> (bus, device, function) ->
       dma_translate s' b' d' f' a = dma_translate s b' d' f' a).
Proof.
  intros Hok Hdev Hpg Hfree. pose proof Hdev as (Hb & Hd & Hf).
  destruct (assign_domain_spec s domains bus device function ranges Hok Hdev Hpg Hfree)
    as (p & d & Heq & Hdf & Hok1 & Hnin & Hfree1 & Hgr & Htr1 & Hfor1).
  unfold assign_device. destruct (alloc_page (IPMM s)) as [[p0 d0]|]; cbn [mbind option_bind] in *; [|done].
  destruct (foldM _ p0 (range_pages ranges)) as [p1|]; cbn [mbind option_bind] in *; [|done].
  injection Heq as -> ->.
  destruct (bus_context_spec (set_ipmm p s) (d :: domains) bus Hok1 Hb Hfree1)
    as (s2 & c & -> & Hok2 & Hc0 & Hc & Htr2 & Hoth2 & Hkeep2 & Hnew2). cbn [mbind option_bind].
  destruct (frame_tag d Hdf) as (Hpres & Hmask & Hw).
  set (id := u16 (NEXT_DOMAIN_ID s2 + 1)). set (i := ctx_index device function).
  assert (i = device * 8 + function) as Hi by (apply ctx_index_val; lia).
  assert (0 <= i < 256) as Hir by lia.
  pose proof (domain_word (NEXT_DOMAIN_ID s2 + 1)) as Hw2. fold id in Hw2.
  set (low := Z.lor d 1) in *. set (high := Z.lor 2 (Z.shiftl id 8)) in *.
  pose proof (set_context_entry s2 (d :: domains) bus c i low high Hok2 Hb Hir Hc Hc0 Hw Hw2) as Hent.
  destruct (set_context_tables s2 (d :: domains) bus c i low high Hok2 Hb Hir Hc Hc0) as (_ & _ & Htr3).
  assert (iommu_ok (set_context c i low high s2) (d :: domains)) as Hok3.
  { apply (set_context_ok s2 _ bus); try done. intros _. rewrite Hmask. set_solver. }
  set (s3 := write_reg _ _ _). exists s3, id, d.
  assert (iommu_ok s3 (d :: domains)) as Hok3' by (by destruct Hok3; constructor).
  assert (IPMM s3 = IPMM (set_context c i low high s2)) as HP by done.
  assert (BUS_CONTEXT_PHYS s3 = BUS_CONTEXT_PHYS s2) as HB by done.
  destruct (io_ctx _ _ Hok2 bus c Hb Hc Hc0) as ((Hcf & _) & _).
  split_and!; [done|done|..].
  - unfold context_entry_present. rewrite HB, Hc. cbn [mbind option_bind].
    rewrite (proj2 (Z.eqb_neq c 0) Hc0). fold i. rewrite HP, Hent by (done || (red; lia)).
    rewrite decide_False, decide_True by lia. f_equal. exact Hpres.
  - intros a. destruct (dma_translate_ok s3 _ bus device function a Hok3' Hdev) as (c' & Hc' & ->).
    rewrite HB, Hc in Hc'. injection Hc' as <-. rewrite decide_False by done. cbv zeta.
    rewrite <- Hi, HP, Hent by (done || (red; lia)). rewrite decide_False, decide_True by lia.
    rewrite Hpres, Hmask, Htr3 by set_solver. rewrite Htr2 by set_solver. cbn. apply Hgr.
  - intros b' d' f' a Hdev' Hne. pose proof Hdev' as (Hb' & Hd' & Hf').
    destruct (dma_translate_ok s3 _ b' d' f' a Hok3' Hdev') as (c3 & Hc3 & ->).
    destruct (dma_translate_ok s _ b' d' f' a Hok Hdev') as (c1 & Hc1 & ->).
    rewrite HB in Hc3. destruct (decide (c1 = 0)) as [->|Hc1n].
    + destruct (decide (b' = bus)) as [->|Hbn].
      * rewrite Hc in Hc3. injection Hc3 as <-. rewrite decide_False by done. cbv zeta.
        rewrite HP, Hent by (done || (red; lia)).
        pose proof (slot_ne device function d' f' Hf Hf' ltac:(congruence)) as Hs.
        rewrite !decide_False by lia. rewrite Hnew2 by (done || (red; lia)). done.
      * rewrite Hoth2 in Hc3 by done. cbn in Hc3. rewrite Hc1 in Hc3. injection Hc3 as <-. by rewrite decide_True.
    + assert (is_index ((d' * 8 + f') * 2)) as Hidx by (red; lia).
      destruct (Hkeep2 b' c1 ((d' * 8 + f') * 2) Hb' Hidx Hc1 Hc1n) as [Hl He].
      rewrite Hl in Hc3. injection Hc3 as <-. rewrite decide_False by done. cbv zeta.
      destruct (io_ctx _ _ Hok b' c1 Hb' Hc1 Hc1n) as (Hcf1 & _).
      rewrite HP, Hent by (done || apply Hcf1). rewrite decide_False by lia.
      assert (~ (c1 = c /\ (d' * 8 + f') * 2 = i * 2)) as Hns.
      { intros [-> Hii]. assert (b' = bus) as -> by (by eapply (io_inj _ _ Hok2 b' bus c)).
        apply (slot_ne device function d' f' Hf Hf'); [congruence|lia]. }
      rewrite decide_False by done. rewrite He. cbn [IPMM set_ipmm]. rewrite (Hfor1 c1) by done.
      destruct (present (entry (MEM (IPMM s)) c1 ((d' * 8 + f') * 2))) eqn:Hpr; [|done].
      assert (Z.land (entry (MEM (IPMM s)) c1 ((d' * 8 + f') * 2)) ADDR_MASK ∈ domains) as Hin
        by (apply (io_dom _ _ Hok b' c1 (d' * 8 + f') Hb' Hc1 Hc1n); [lia|exact Hpr]).
      rewrite Htr3 by set_solver. rewrite Htr2 by set_solver. cbn. by apply Htr1.
Qed.

Lemma page_leaf a : 0 <= a < 2 ^ 47 -> a mod 4096 = 0 ->
  Z.lor (Z.lor (Z.land a ADDR_MASK) PAGE_PRESENT) PAGE_WRITABLE = Z.lor a 3.
Proof.
  intros Ha Hm. rewrite <- Z.lor_assoc. f_equal.
  pose proof (frame_from_entry_roundtrip a 0 ltac:(lia) Hm eq_refl) as H. by rewrite Z.lor_0_r in H.
Qed.

Lemma granted_exact pages a :
  Forall (fun a => 0 <= a < 2 ^ 47 /\ a mod 4096 = 0) pages -> 0 <= a < 2 ^ 47 ->
  granted pages a = if decide (a / 4096 * 4096 ∈ pages) then Z.lor (a / 4096 * 4096) 3 else 0.
Proof.
  intros Hpg Ha. rewrite Forall_forall in Hpg. unfold granted. case_decide as Hin.
  - destruct (Hpg _ Hin) as [Hr Hm]. apply requested_const.
    + intros q (b & -> & Hb)%list_elem_of_fmap Hs. cbn [fst snd] in *. destruct (Hpg b Hb) as [Hbr Hbm].
      apply same_page_low in Hs; [|done|done]. rewrite page_leaf by done. f_equal. Z.div_mod_to_equations. lia.
    + eexists. split; [apply list_elem_of_fmap; by exists (a / 4096 * 4096)|]. cbn [fst].
      apply same_page_div; [lia|lia|]. by rewrite Z.div_mul.
  - apply requested_other. intros q (b & -> & Hb)%list_elem_of_fmap Hs. cbn [fst] in Hs. destruct (Hpg b Hb) as [Hbr Hbm].
    apply same_page_low in Hs; [|done|done]. apply Hin. replace (a / 4096 * 4096) with b; [done|].
    Z.div_mod_to_equations. lia.
Qed.

(** Assigning a device.  With enough free pages for the tables,
    [assign_device] succeeds and leaves the engine's tables well formed; the device
    can then reach exactly the pages of the granted ranges, identity-mapped and
    writable, and no other device's reachable memory changes -- in particular not
    that of another device on the same bus. *)
Theorem assign_device_exact s domains bus device function ranges :
  iommu_ok s domains -> dev_ok bus device function ->
  Forall (fun a => 0 <= a < 2 ^ 47 /\ a mod 4096 = 0) (range_pages ranges) ->
  3 * Z.of_nat (length (range_pages ranges)) + 2 <= free_pages (STATS (IPMM s)) ->
  exists s' id d, assign_device bus device function ranges s = Some (s', id) /\
    iommu_ok s' (d :: domains) /\
    context_entry_present bus device function s' = Some true /\
    (forall a, 0 <= a < 2 ^ 47 ->
       dma_translate s' bus device function a =
       if decide (a / 4096 * 4096 ∈ range_pages ranges) then Z.lor (a / 4096 * 4096) 3 else 0) /\
    (forall b' d' f' a, dev_ok b' d' f' -> (b', d', f') <> (bus, device, function) ->
       dma_translate s' b' d' f' a = dma_translate s b' d' f' a).
Proof.
  intros Hok Hdev Hpg Hfree.
  destruct (assign_device_spec s domains bus device function ranges) as (s' & id & d & H1 & H2 & H3 & H4 & H5); try done.
  { eapply Forall_impl; [exact Hpg|]. by intros a [Ha _]. }
  exists s', id, d. split_and!; try done. intros a Ha. rewrite H4. by apply granted_exact.
Qed.

(** *** Revocation *)

Section revoke.
Context (ecap : Z) (s : iommu) (domains : list Z) (bus device function : Z).
Context (Hok : iommu_ok s domains) (Hdev : dev_ok bus device function).

Lemma revoke_device_spec :
  exists s' b, iommu_revoke_device ecap bus device function s = Some (s', b) /\
    context_entry_present bus device function s = Some b /\
    iommu_ok s' domains /\
    context_entry_present bus device function s' = Some false /\
    (b = false -> s' = s) /\
    (forall a, dma_translate s' bus device function a = 0) /\
    (forall b' d' f' a, dev_ok b' d' f' -> (b', d', f') <> (bus, device, function) ->
       dma_translate s' b' d' f' a = dma_translate s b' d' f' a).
Proof using All.
  pose proof Hdev as (Hb & Hd & Hf).
  destruct (lookup_lt_is_Some_2 (BUS_CONTEXT_PHYS s) (Z.to_nat bus)) as [c Hc]; [rewrite (io_len _ _ Hok); lia|].
  unfold iommu_revoke_device, context_entry_present. rewrite Hc. cbn [mbind option_bind].
  destruct (Z.eqb_spec c 0) as [->|Hc0].
  { exists s, false. rewrite Hc. cbn [mbind option_bind]. split_and!; try done.
    intros a. destruct (dma_translate_ok s _ bus device function a Hok Hdev) as (c' & Hc' & ->).
    rewrite Hc in Hc'. injection Hc' as <-. by rewrite decide_True. }
  set (i := ctx_index device function). assert (i = device * 8 + function) as Hi by (apply ctx_index_val; lia).
  assert (present (entry (MEM (IPMM s)) c (i * 2)) = negb (Z.land (entry (MEM (IPMM s)) c (i * 2)) 1 =? 0)) as Hpr by done.
  destruct (Z.land (entry (MEM (IPMM s)) c (i * 2)) 1 =? 0) eqn:Hlow; cbn [negb] in Hpr |- *.
  { exists s, false. rewrite Hc. cbn [mbind option_bind]. rewrite (proj2 (Z.eqb_neq c 0) Hc0), Hlow. split_and!; try done.
    intros a. destruct (dma_translate_ok s _ bus device function a Hok Hdev) as (c' & Hc' & ->).
    rewrite Hc in Hc'. injection Hc' as <-. rewrite decide_False by done. cbv zeta. rewrite <- Hi. by rewrite Hpr. }
  assert (0 <= i < 256) as Hir by lia. assert (in_width 64 0) as Hw0 by (split; lia).
  pose proof (set_context_entry s domains bus c i 0 0 Hok Hb Hir Hc Hc0 Hw0 Hw0) as Hent.
  destruct (set_context_tables s domains bus c i 0 0 Hok Hb Hir Hc Hc0) as (_ & _ & Htr).
  assert (iommu_ok (set_context c i 0 0 s) domains) as Hok1 by (by apply (set_context_ok s _ bus)).
  destruct (io_ctx _ _ Hok bus c Hb Hc Hc0) as ((Hcf & _) & _).
  set (s' := write_reg _ _ _). assert (iommu_ok s' domains) as Hok' by (by destruct Hok1; constructor).
  assert (IPMM s' = IPMM (set_context c i 0 0 s)) as HP by done.
  assert (BUS_CONTEXT_PHYS s' = BUS_CONTEXT_PHYS s) as HB by done.
  exists s', true. split_and!; try done.
  - rewrite HB, Hc. cbn [mbind option_bind]. rewrite (proj2 (Z.eqb_neq c 0) Hc0), HP, Hent by (done || (red; lia)).
    by rewrite decide_False, decide_True by lia.
  - intros a. destruct (dma_translate_ok s' _ bus device function a Hok' Hdev) as (c' & Hc' & ->).
    rewrite HB, Hc in Hc'. injection Hc' as <-. rewrite decide_False by done. cbv zeta.
    rewrite <- Hi, HP, Hent by (done || (red; lia)). by rewrite decide_False, decide_True by lia.
  - intros b' d' f' a Hdev' Hne. pose proof Hdev' as (Hb' & Hd' & Hf').
    destruct (dma_translate_ok s' _ b' d' f' a Hok' Hdev') as (c2 & Hc2 & ->).
    destruct (dma_translate_ok s _ b' d' f' a Hok Hdev') as (c1 & Hc1 & ->).
    rewrite HB, Hc1 in Hc2. injection Hc2 as <-. destruct (decide (c1 = 0)) as [|Hc1n]; [done|]. cbv zeta.
    destruct (io_ctx _ _ Hok b' c1 Hb' Hc1 Hc1n) as (Hcf1 & _).
    rewrite HP, Hent by (apply Hcf1 || (red; lia)). rewrite decide_False by lia.
    assert (~ (c1 = c /\ (d' * 8 + f') * 2 = i * 2)) as Hns.
    { intros [-> Hii]. assert (b' = bus) as -> by (by eapply (io_inj _ _ Hok b' bus c)).
      apply (slot_ne device function d' f' Hf Hf'); [congruence|lia]. }
    rewrite decide_False by done.
    destruct (present (entry (MEM (IPMM s)) c1 ((d' * 8 + f') * 2))) eqn:Hpr'; [|done]. apply Htr.
    apply (io_dom _ _ Hok b' c1 (d' * 8 + f') Hb' Hc1 Hc1n); [lia|exact Hpr'].
Qed.
End revoke.

(** Revoking a device.  [revoke_device] answers whether the device had a
    context entry, changes nothing when it had none, and afterwards the device
    reaches no memory at all while every other device reaches exactly what it did
    before. *)
Theorem revoke_device_exact ecap s domains bus device function :
  iommu_ok s domains -> dev_ok bus device function ->
  exists s' b, iommu_revoke_device ecap bus device function s = Some (s', b) /\
    context_entry_present bus device function s = Some b /\
    iommu_ok s' domains /\ (b = false -> s' = s) /\
    (forall a, dma_translate s' bus device function a = 0) /\
    (forall b' d' f' a, dev_ok b' d' f' -> (b', d', f') <> (bus, device, function) ->
       dma_translate s' b' d' f' a = dma_translate s b' d' f' a).
Proof.
  intros Hok Hdev. destruct (revoke_device_spec ecap s domains bus device function Hok Hdev)
    as (s' & b & H1 & H2 & H3 & _ & H4 & H5 & H6). exists s', b. by split_and!.
Qed.

Module IommuWitness.
Import PmmWitness VmmWitness.

(** An engine with its root table and no device assigned. *)
Definition setup : pmm * Z := default (booted, 0) (alloc_page booted).
Definition e0 : iommu := mkIommu setup.1 setup.2 (replicate 256 0) 0 [].

Lemma booted_space : space_ok booted [].
Proof.
  destruct booted_inv as [Hi Hz]. constructor; [exact Hi|exact Hz|vm_compute; discriminate| |intros * Hr; exfalso; exact (not_elem_of_nil _ Hr)..].
  intros a. assert (MEM booted = m0) as -> by (vm_compute; reflexivity). split; [done|reflexivity].
Qed.

Lemma e0_ok : iommu_ok e0 [].
Proof.
  destruct booted_inv as [Hi Hz].
  destruct (alloc_page_supplies booted Hi Hz) as (n & p1 & Heq & Hal & Hn); [by vm_compute|].
  destruct (alloc_foreign booted [] n p1 booted_space Hal Hn) as (Hsp & _ & Hfor & Hzero & _).
  unfold e0, setup. rewrite Heq. cbn [default fst snd].
  assert (forall b c, 0 <= b < 256 -> replicate 256 0 !! Z.to_nat b = Some c -> c = 0) as Hrep
    by (intros b c _ [-> _]%lookup_replicate; done).
  constructor; cbn [IPMM ROOT_TABLE_PHYS BUS_CONTEXT_PHYS].
  - exact Hsp.
  - reflexivity.
  - exact Hfor.
  - intros b c Hb Hl Hc. destruct Hc. exact (Hrep b c Hb Hl).
  - intros b Hb _. rewrite Hzero by (red; lia). reflexivity.
  - intros b b' c Hb Hb' Hc Hl. destruct Hc. exact (Hrep b c Hb Hl).
  - intros b c i Hb Hl Hc. destruct Hc. exact (Hrep b c Hb Hl).
Qed.

Lemma dev_003 : dev_ok 0 3 0.
Proof. red. lia. Qed.

Lemma assign_device_witness :
  exists s' id d, assign_device 0 3 0 [(0x1A000, 8192)] e0 = Some (s', id) /\ iommu_ok s' [d] /\
    dma_translate s' 0 3 0 0x1B010 = 0x1B003.
Proof.
  destruct (assign_device_exact e0 [] 0 3 0 [(0x1A000, 8192)] e0_ok dev_003) as (s' & id & d & H1 & H2 & _ & H4 & _).
  - apply (bool_decide_unpack _). vm_compute. exact I.
  - vm_compute. discriminate.
  - exists s', id, d. split; [exact H1|]. split; [exact H2|]. rewrite H4 by lia. vm_compute. reflexivity.
Defined.

Lemma revoke_device_witness :
  exists s' b, iommu_revoke_device 0 0 3 0 e0 = Some (s', b) /\ dma_translate s' 0 3 0 0x1B010 = 0.
Proof.
  destruct (revoke_device_exact 0 e0 [] 0 3 0 e0_ok dev_003) as (s' & b & H1 & _ & _ & _ & H5 & _).
  exists s', b. split; [exact H1|]. apply H5.
Defined.
End IommuWitness.
