(* ===== verification/Authority.v ===== *)
(** * The authority graph and its hardware projections

    [kernel_common/src/authority_graph.rs], [impossibility_certificate.rs],
    [discovered_envelope.rs] and their wiring to the page tables and the IOMMU in
    [kernel_rs/src/authority.rs].  A graph is the array of optional grants; an
    output slice is the list of what was written to it.  Sums on addresses wrap at
    64 bits. *)

From S2P Require Import Prelude Bits Pmm Vmm Iommu.

(** ** The graph ([authority_graph.rs]) *)

Inductive Principal := CpuProcess (id : Z) | PciDevice (bus device function : Z).

#[export] Instance Principal_eq_dec : EqDecision Principal.
Proof. solve_decision. Defined.

Record Grant := mkGrant {
  principal : Principal; phys_base : Z; grant_len : Z; writable : bool; executable : bool }.

#[export] Instance Grant_eq_dec : EqDecision Grant.
Proof. solve_decision. Defined.

Record Entry := mkEntry { phys_page : Z; e_writable : bool; e_executable : bool }.

Abbreviation graph := (list (option Grant)).

Definition graph_pages_for (len : Z) : Z := u64 (u64 (len + PAGE_SIZE) - 1) / PAGE_SIZE.

Fixpoint graph_grant (g : graph) (x : Grant) : graph * bool :=
  match g with
  | [] => ([], false)
  | None :: g' => (Some x :: g', true)
  | Some y :: g' => let '(g', b) := graph_grant g' x in (Some y :: g', b)
  end.

Definition grant_matches (pr : Principal) (base : Z) (x : Grant) : bool :=
  bool_decide (principal x = pr) && (phys_base x =? base).

Fixpoint graph_revoke (g : graph) (pr : Principal) (base : Z) : graph * nat :=
  match g with
  | [] => ([], 0%nat)
  | slot :: g' =>
      let '(g', n) := graph_revoke g' pr base in
      match slot with
      | Some x => if grant_matches pr base x then (None :: g', S n) else (slot :: g', n)
      | None => (slot :: g', n)
      end
  end.

(** [while p < pages && count < out.len()]; [room] is what is left of [out]. *)
Fixpoint project_pages (room : nat) (p pages : Z) (x : Grant) : list Entry :=
  match room with
  | O => []
  | S room' =>
      if p <? pages
      then mkEntry (u64 (phys_base x + p * PAGE_SIZE)) (writable x) (executable x)
           :: project_pages room' (p + 1) pages x
      else []
  end.

Fixpoint project (g : graph) (pr : Principal) (room : nat) : list Entry :=
  match g with
  | [] => []
  | slot :: g' =>
      if (room =? 0)%nat then [] else
      match slot with
      | Some x =>
          if negb (bool_decide (principal x = pr)) then project g' pr room else
          let es := project_pages room 0 (graph_pages_for (grant_len x)) x in
          es ++ project g' pr (room - length es)
      | None => project g' pr room
      end
  end.

Definition project_page_table (g : graph) (pr : Principal) (room : nat) : list Entry :=
  match pr with CpuProcess _ => project g pr room | PciDevice _ _ _ => [] end.

Definition project_iommu_table (g : graph) (pr : Principal) (room : nat) : list Entry :=
  match pr with PciDevice _ _ _ => project g pr room | CpuProcess _ => [] end.

Definition grant_covers (x : Grant) (page : Z) : bool :=
  let pages := graph_pages_for (grant_len x) in
  (phys_base x <=? page) && (page <? u64 (phys_base x + pages * PAGE_SIZE)).

Fixpoint is_reachable (g : graph) (pr : Principal) (page : Z) : bool :=
  match g with
  | [] => false
  | slot :: g' =>
      match slot with
      | Some x =>
          if negb (bool_decide (principal x = pr)) then is_reachable g' pr page else
          if grant_covers x page then true else is_reachable g' pr page
      | None => is_reachable g' pr page
      end
  end.

(** ** Certificates ([impossibility_certificate.rs]) *)

Record Certificate := mkCert { c_principal : Principal; c_phys_page : Z; graph_checksum : Z }.

Inductive Verdict := Valid | Stale.

Definition FNV_OFFSET : Z := 0xcbf29ce484222325.
Definition FNV_PRIME : Z := 0x100000001b3.

Definition mix (h v : Z) : Z := u64 (Z.lxor h v * FNV_PRIME).

(** The words of one grant, in the order they are mixed. *)
Definition grant_words (x : Grant) : list Z :=
  match principal x with
  | CpuProcess id => [0; id; 0]
  | PciDevice bus device function => [1; bus; Z.lor (Z.shiftl device 8) function]
  end ++ [phys_base x; grant_len x; Z.b2z (writable x); Z.b2z (executable x)].

Definition checksum_graph (g : graph) : Z :=
  foldl (fun h slot => match slot with Some x => foldl mix h (grant_words x) | None => h end) FNV_OFFSET g.

Definition issue (g : graph) (pr : Principal) (page : Z) : option Certificate :=
  if is_reachable g pr page then None else Some (mkCert pr page (checksum_graph g)).

Definition verify (g : graph) (cert : Certificate) : Verdict :=
  if negb (checksum_graph g =? graph_checksum cert) then Stale else Valid.

(** ** Envelopes ([discovered_envelope.rs]) *)

Fixpoint discover_envelope (attempts : list Z) (seen : list Z) (room : nat) : list Z :=
  match attempts with
  | [] => seen
  | addr :: rest =>
      if (room <=? length seen)%nat then seen else
      discover_envelope rest (if bool_decide (addr ∈ seen) then seen else seen ++ [addr]) room
  end.

Definition freeze_envelope (g : graph) (pr : Principal) (envelope : list Z) : graph * nat :=
  foldl (fun st page =>
    let '(g, n) := st in
    let '(g, ok) := graph_grant g (mkGrant pr page 4096 true false) in
    (g, if ok : bool then S n else n)) (g, 0%nat) envelope.

(** ** The kernel's graph ([kernel_rs/src/authority.rs]) *)

Definition MAX_GRANTS : nat := 32.

(** One physical memory behind both kinds of tables. *)
Record machine := mkMachine { GRAPH : graph; VM : vmm; IO : iommu }.

Definition set_graph (g : graph) (m : machine) : machine := mkMachine g (VM m) (IO m).
Definition io_of (m : machine) : iommu := set_ipmm (PMM (VM m)) (IO m).
Definition put_io (io : iommu) (m : machine) : machine := mkMachine (GRAPH m) (set_pmm (IPMM io) (VM m)) io.
Definition put_vm (v : vmm) (m : machine) : machine := mkMachine (GRAPH m) v (set_ipmm (PMM v) (IO m)).

Definition grant_device (bus device function base len : Z) (m : machine) : option (machine * option Z) :=
  let pr := PciDevice bus device function in
  let '(g, added) := graph_grant (GRAPH m) (mkGrant pr base len true false) in
  let m := set_graph g m in
  if negb added then Some (m, None) else
  let entries := project_iommu_table (GRAPH m) pr MAX_GRANTS in
  if (length entries =? 0)%nat then Some (m, None) else
  let ranges := (fun e => (phys_page e, 4096)) <$> entries in
  '(io, domain) ← assign_device bus device function ranges (io_of m);
  Some (put_io io m, Some domain).

Section wiring.
Context (ecap : Z).

Definition revoke_device (bus device function base : Z) (m : machine) : option (machine * bool) :=
  let pr := PciDevice bus device function in
  let '(g, graph_removed) := graph_revoke (GRAPH m) pr base in
  let m := set_graph g m in
  '(io, hw_revoked) ← iommu_revoke_device ecap bus device function (io_of m);
  Some (put_io io m, (0 <? graph_removed)%nat && hw_revoked).
End wiring.

Definition cross_check (bus device function page : Z) (m : machine) : option (bool * bool) :=
  hw ← context_entry_present bus device function (io_of m);
  Some (is_reachable (GRAPH m) (PciDevice bus device function) page, hw).

Definition freeze_envelope_device (bus device function : Z) (envelope : list Z) (m : machine)
  : option (machine * nat) :=
  foldM (fun st page =>
    let '(m, n) := st in
    '(m, r) ← grant_device bus device function page 4096 m;
    Some (m, match r with Some _ => S n | None => n end)) (m, 0%nat) envelope.

Definition entry_flags (e : Entry) : Z :=
  let flags := 0 in
  let flags := if e_writable e then Z.lor flags PAGE_WRITABLE else flags in
  if negb (e_executable e) then Z.lor flags PAGE_NO_EXECUTE else flags.

Definition grant_process (pid target_pml4 vaddr_base base len : Z) (w x : bool) (m : machine)
  : option (machine * bool) :=
  let pr := CpuProcess pid in
  let '(g, added) := graph_grant (GRAPH m) (mkGrant pr base len w x) in
  let m := set_graph g m in
  if negb added then Some (m, false) else
  let entries := project_page_table (GRAPH m) pr MAX_GRANTS in
  if (length entries =? 0)%nat then Some (m, false) else
  v ← foldM (fun v ie => map_page_in target_pml4 (u64 (vaddr_base + Z.of_nat ie.1 * 4096))
                            (phys_page ie.2) (entry_flags ie.2) v)
        (VM m) (imap pair entries);
  Some (put_vm v m, true).

Definition revoke_process (pid target_pml4 vaddr_base base : Z) (m : machine) : machine * bool :=
  let pr := CpuProcess pid in
  let count := length (project_page_table (GRAPH m) pr MAX_GRANTS) in
  let '(g, removed) := graph_revoke (GRAPH m) pr base in
  let m := set_graph g m in
  if (0 <? removed)%nat then
    let v := foldl (fun v i => set_pmm (unmap_page target_pml4 (u64 (vaddr_base + Z.of_nat i * 4096)) (PMM v)) v)
               (VM m) (seq 0 count) in
    (put_vm v m, true)
  else (m, false).

Definition cross_check_cpu (pid target_pml4 vaddr page : Z) (m : machine) : bool * bool :=
  (is_reachable (GRAPH m) (CpuProcess pid) page,
   frame_from_entry (debug_translate (MEM (PMM (VM m))) target_pml4 vaddr) =? page).

Record HwCertificate := mkHwCert { cert : Certificate; hw_low : Z; hw_high : Z }.
Inductive HwVerdict := HwValid | GraphStale | HardwareMismatch.

Definition issue_device_certificate (bus device function page : Z) (m : machine)
  : option (option HwCertificate) :=
  match issue (GRAPH m) (PciDevice bus device function) page with
  | None => Some None
  | Some c => '(lo, hi) ← context_entry_raw bus device function (io_of m); Some (Some (mkHwCert c lo hi))
  end.

Definition verify_device_certificate (bus device function : Z) (hc : HwCertificate) (m : machine)
  : option HwVerdict :=
  match verify (GRAPH m) (cert hc) with
  | Stale => Some GraphStale
  | Valid =>
      '(lo, hi) ← context_entry_raw bus device function (io_of m);
      Some (if negb (lo =? hw_low hc) || negb (hi =? hw_high hc) then HardwareMismatch else HwValid)
  end.

(** ** The projection *)

(** Every page of every grant of a principal, in table order. *)
Definition grant_entries (x : Grant) : list Entry :=
  (fun p => mkEntry (u64 (phys_base x + p * PAGE_SIZE)) (writable x) (executable x))
  <$> range 0 (graph_pages_for (grant_len x)).

Definition entries_of (g : graph) (pr : Principal) : list Entry :=
  slot ← g;
  match slot with
  | Some x => if decide (principal x = pr) then grant_entries x else []
  | None => []
  end.

Lemma entries_of_cons slot g pr :
  entries_of (slot :: g) pr =
  match slot with
  | Some x => if decide (principal x = pr) then grant_entries x else []
  | None => []
  end ++ entries_of g pr.
Proof. done. Qed.

Lemma project_pages_take room p pages x :
  project_pages room p pages x =
  take room ((fun p => mkEntry (u64 (phys_base x + p * PAGE_SIZE)) (writable x) (executable x)) <$> range p pages).
Proof.
  revert p. induction room as [|room IH]; intros p; [done|]. cbn [project_pages].
  destruct (Z.ltb_spec p pages).
  - rewrite range_cons by done. cbn [fmap list_fmap take]. by rewrite IH.
  - by rewrite range_nil.
Qed.

Lemma project_take g pr room : project g pr room = take room (entries_of g pr).
Proof.
  revert room. induction g as [|slot g IH]; intros room; [by destruct room|].
  cbn [project]. rewrite entries_of_cons. destruct room as [|room]; [done|]. cbn [Nat.eqb].
  destruct slot as [x|]; [|apply IH]. destruct (decide (principal x = pr)) as [He|He].
  - rewrite bool_decide_true by done. cbn [negb]. rewrite IH, project_pages_take.
    rewrite take_app. f_equal. fold (grant_entries x). rewrite length_take. f_equal. lia.
  - rewrite bool_decide_false by done. apply IH.
Qed.

(** A grant the tables can express: page-aligned and inside the address space. *)
Definition grant_ok (x : Grant) : Prop :=
  0 <= phys_base x /\ phys_base x mod 4096 = 0 /\ 0 <= grant_len x /\
  phys_base x + grant_len x < 2 ^ 64 - 4096.

Definition graph_ok (g : graph) : Prop := forall x, Some x ∈ g -> grant_ok x.

Lemma grant_ok_pages x : grant_ok x ->
  graph_pages_for (grant_len x) = (grant_len x + 4095) / 4096 /\
  0 <= graph_pages_for (grant_len x) /\
  phys_base x + graph_pages_for (grant_len x) * 4096 < 2 ^ 64.
Proof.
  intros (H0 & _ & Hl & Hs). unfold graph_pages_for, PAGE_SIZE.
  rewrite (wrap_small 64 (grant_len x + 4096)), (wrap_small 64) by (red; lia).
  replace (grant_len x + 4096 - 1) with (grant_len x + 4095) by lia.
  split_and!; [done|apply Z.div_pos; lia|].
  pose proof (Z.mul_div_le (grant_len x + 4095) 4096 ltac:(lia)). lia.
Qed.

Lemma covers_entry x a : grant_ok x ->
  grant_covers x a = true <-> exists e, e ∈ grant_entries x /\ phys_page e <= a < phys_page e + 4096.
Proof.
  intros Hx. destruct (grant_ok_pages x Hx) as (_ & Hp & Hs). destruct Hx as (H0 & Hal & Hl & _).
  unfold grant_covers, PAGE_SIZE. rewrite (wrap_small 64) by (red; lia).
  rewrite andb_true_iff, Z.leb_le, Z.ltb_lt. unfold grant_entries. split.
  - intros [H1 H2]. set (p := (a - phys_base x) / 4096).
    pose proof (Z.div_mod (a - phys_base x) 4096 ltac:(lia)) as Hd.
    pose proof (Z.mod_pos_bound (a - phys_base x) 4096 ltac:(lia)) as Hm. fold p in Hd.
    eexists. split; [apply list_elem_of_fmap; exists p; split; [done|]; apply elem_of_range; lia|].
    cbn [phys_page]. unfold PAGE_SIZE. rewrite (wrap_small 64) by (red; lia). lia.
  - intros (e & (p & -> & Hr%elem_of_range)%list_elem_of_fmap & Hb). cbn [phys_page] in Hb.
    unfold PAGE_SIZE in Hb. rewrite (wrap_small 64) in Hb by (red; lia). lia.
Qed.

Lemma reachable_entries g pr a : graph_ok g ->
  is_reachable g pr a = true <-> exists e, e ∈ entries_of g pr /\ phys_page e <= a < phys_page e + 4096.
Proof.
  intros Hg. induction g as [|slot g IH]; [split; [done|intros (e & He & _); set_solver]|].
  assert (graph_ok g) as Hg' by (intros x Hx; apply Hg; set_solver). specialize (IH Hg').
  cbn [is_reachable]. rewrite entries_of_cons.
  assert (forall P : Entry -> Prop, forall l1 l2, (exists e, e ∈ l1 ++ l2 /\ P e) <->
    (exists e, e ∈ l1 /\ P e) \/ (exists e, e ∈ l2 /\ P e)) as Happ.
  { intros P l1 l2. setoid_rewrite elem_of_app. naive_solver. }
  rewrite Happ. destruct slot as [x|].
  - destruct (decide (principal x = pr)) as [He|He].
    + rewrite bool_decide_true by done. cbn [negb]. rewrite <- IH, <- covers_entry by (apply Hg; set_solver).
      destruct (grant_covers x a); naive_solver.
    + rewrite bool_decide_false by done. cbn [negb]. rewrite <- IH. split; [by right|].
      intros [(e & He' & _)|?]; [set_solver|done].
  - rewrite <- IH. split; [by right|]. intros [(e & He' & _)|?]; [set_solver|done].
Qed.

(** The projection is the authority: each projector returns the pages of the
    principal's grants in table order, cut to the room in the output, and nothing
    for the other kind of principal; and for page-aligned grants inside the address
    space [is_reachable] holds of exactly the addresses in projected pages. *)
Theorem projection_is_authority g pr room a :
  graph_ok g ->
  project_page_table g pr room = (if pr is CpuProcess _ then take room (entries_of g pr) else []) /\
  project_iommu_table g pr room = (if pr is PciDevice _ _ _ then take room (entries_of g pr) else []) /\
  (is_reachable g pr a = true <-> exists e, e ∈ entries_of g pr /\ phys_page e <= a < phys_page e + 4096).
Proof.
  intros Hg. split_and!; [by destruct pr; cbn; rewrite ?project_take..|by apply reachable_entries].
Qed.

(** ** Granting and revoking *)

Lemma graph_grant_spec g x g' b :
  graph_grant g x = (g', b) ->
  length g' = length g /\
  (b = true -> exists l r, g = l ++ None :: r /\ g' = l ++ Some x :: r /\ Forall (fun s => s <> None) l) /\
  (b = false -> g' = g /\ Forall (fun s => s <> None) g).
Proof.
  revert g' b. induction g as [|[y|] g IH]; intros g' b; cbn [graph_grant].
  - intros [= <- <-]. split_and!; [done|done|by split].
  - destruct (graph_grant g x) as [g1 b1] eqn:He. intros [= <- <-].
    destruct (IH _ _ eq_refl) as (Hl & Ht & Hf). split_and!; [simpl; lia| |].
    + intros Hb. destruct (Ht Hb) as (l & r & -> & -> & Hall). exists (Some y :: l), r. split_and!; [done..|by constructor].
    + intros Hb. destruct (Hf Hb) as [-> Hall]. split; [done|by constructor].
  - intros [= <- <-]. split_and!; [done| |done]. intros _. exists [], g. split_and!; [done..|constructor].
Qed.

Definition cleared (pr : Principal) (base : Z) (slot : option Grant) : option Grant :=
  match slot with Some x => if grant_matches pr base x then None else Some x | None => None end.

(** The slots a revocation names. *)
Definition names (pr : Principal) (base : Z) (slot : option Grant) : Prop :=
  match slot with Some x => principal x = pr /\ phys_base x = base | None => False end.

#[export] Instance names_dec pr base slot : Decision (names pr base slot).
Proof. destruct slot; cbn; apply _. Defined.

Lemma grant_matches_spec pr base x : grant_matches pr base x = true <-> principal x = pr /\ phys_base x = base.
Proof. unfold grant_matches. by rewrite andb_true_iff, bool_decide_eq_true, Z.eqb_eq. Qed.

Lemma cleared_spec pr base slot : cleared pr base slot = if decide (names pr base slot) then None else slot.
Proof.
  destruct slot as [x|]; [|by destruct (decide _)]. cbn [cleared].
  destruct (grant_matches pr base x) eqn:Hm.
  - apply grant_matches_spec in Hm. by rewrite decide_True.
  - rewrite decide_False; [done|]. intros Hn%grant_matches_spec. congruence.
Qed.

Lemma graph_revoke_map g pr base :
  graph_revoke g pr base = (cleared pr base <$> g, length (filter (names pr base) g)).
Proof.
  induction g as [|slot g IH]; [done|]. cbn [graph_revoke]. rewrite IH, filter_cons, fmap_cons, cleared_spec.
  destruct slot as [x|]; [|by rewrite !decide_False by (cbn; tauto)].
  destruct (grant_matches pr base x) eqn:Hm.
  - apply grant_matches_spec in Hm. by rewrite !decide_True.
  - rewrite !decide_False; [done|..]; intros Hn%grant_matches_spec; congruence.
Qed.

Lemma revoke_entries_other g pr base pr' : pr' <> pr -> entries_of (cleared pr base <$> g) pr' = entries_of g pr'.
Proof.
  intros Hne. induction g as [|slot g IH]; [done|]. rewrite fmap_cons, !entries_of_cons, IH, cleared_spec. f_equal.
  case_decide as Hn; [|done]. destruct slot as [x|]; [|done]. destruct Hn as [Hp _]. by rewrite decide_False by congruence.
Qed.

Lemma some_slot_cons (P : Grant -> Prop) slot g :
  (exists x, Some x ∈ slot :: g /\ P x) <->
  (exists x, slot = Some x /\ P x) \/ (exists x, Some x ∈ g /\ P x).
Proof.
  split.
  - intros (x & [<-|Hx]%elem_of_cons & HP); [left|right]; eauto.
  - intros [(x & -> & HP)|(x & Hx & HP)]; exists x; (split; [apply elem_of_cons; auto|done]).
Qed.

Lemma reachable_covers g pr a :
  is_reachable g pr a = true <-> exists x, Some x ∈ g /\ principal x = pr /\ grant_covers x a = true.
Proof.
  induction g as [|slot g IH]; [split; [done|intros (x & Hx & _); set_solver]|].
  rewrite (some_slot_cons (fun x => principal x = pr /\ grant_covers x a = true)), <- IH. cbn [is_reachable].
  destruct slot as [x|].
  - destruct (decide (principal x = pr)) as [He|He].
    + rewrite bool_decide_true by done. cbn [negb]. destruct (grant_covers x a) eqn:Hc; [split; [left; eauto|done]|].
      split; [by right|]. intros [(y & [= <-] & _ & Hy)|?]; [congruence|done].
    + rewrite bool_decide_false by done. cbn [negb]. split; [by right|]. intros [(y & [= <-] & ? & _)|?]; done.
  - split; [by right|]. by intros [(y & ? & _)|?].
Qed.

(** Revocation in the graph.  [revoke] removes exactly the principal's grants
    that start at the given address and reports how many; every other slot, and
    with it every projection of every other principal, is unchanged; and the
    principal still reaches an address only through a remaining grant that covers
    it. *)
Theorem graph_revoke_exact g pr base :
  let '(g', n) := graph_revoke g pr base in
  length g' = length g /\
  (forall i x, g' !! i = Some (Some x) <-> g !! i = Some (Some x) /\ ~ (principal x = pr /\ phys_base x = base)) /\
  n = length (filter (names pr base) g) /\
  (forall pr', pr' <> pr -> entries_of g' pr' = entries_of g pr') /\
  (forall a, is_reachable g' pr a = true <->
     exists x, Some x ∈ g /\ principal x = pr /\ phys_base x <> base /\ grant_covers x a = true).
Proof.
  rewrite graph_revoke_map.
  assert (forall i x, (cleared pr base <$> g) !! i = Some (Some x) <->
    g !! i = Some (Some x) /\ ~ (principal x = pr /\ phys_base x = base)) as Hslot.
  { intros i x. rewrite list_lookup_fmap. destruct (g !! i) as [slot|]; [|naive_solver]. cbn [fmap option_fmap option_map].
    rewrite cleared_spec. case_decide as Hn; [|].
    - split; [done|]. intros [[= ->] Hnot]. by destruct Hnot.
    - split; [intros [= ->]; done|]. by intros [[= ->] _]. }
  split_and!; [apply length_fmap|done|done|by intros; apply revoke_entries_other|].
  intros a. rewrite reachable_covers. split.
  - intros (x & [i Hi]%list_elem_of_lookup & Hp & Hc). apply Hslot in Hi as [Hi Hn].
    exists x. split_and!; [apply list_elem_of_lookup; eauto|done|naive_solver|done].
  - intros (x & [i Hi]%list_elem_of_lookup & Hp & Hb & Hc). exists x. split_and!; [|done|done].
    apply list_elem_of_lookup. exists i. apply Hslot. naive_solver.
Qed.

(** ** Certificates *)

Definition FNV_INVERSE : Z := 0xce965057aff6957b.

Lemma mul_prime_inj x y : in_width 64 x -> in_width 64 y -> u64 (x * FNV_PRIME) = u64 (y * FNV_PRIME) -> x = y.
Proof.
  intros Hx Hy He.
  assert (forall z, in_width 64 z -> u64 (u64 (z * FNV_PRIME) * FNV_INVERSE) = z) as Hinv.
  { intros z Hz. unfold wrap. rewrite Zmult_mod_idemp_l, <- Z.mul_assoc, <- Zmult_mod_idemp_r.
    change ((FNV_PRIME * FNV_INVERSE) mod 2 ^ 64) with 1. rewrite Z.mul_1_r. by apply Z.mod_small. }
  rewrite <- (Hinv x Hx), <- (Hinv y Hy). by rewrite He.
Qed.

Lemma mix_width h v : in_width 64 (mix h v).
Proof. by apply wrap_range. Qed.

Lemma lxor_cancel_r a b c : Z.lxor a c = Z.lxor b c -> a = b.
Proof. intros H. apply (f_equal (fun z => Z.lxor z c)) in H. by rewrite !Z.lxor_assoc, Z.lxor_nilpotent, !Z.lxor_0_r in H. Qed.

Lemma mix_inj_state h h' v : in_width 64 h -> in_width 64 h' -> in_width 64 v -> mix h v = mix h' v -> h = h'.
Proof.
  intros Hh Hh' Hv He. apply mul_prime_inj in He; [|apply in_width_lxor; (done || lia)..]. by eapply lxor_cancel_r.
Qed.

Lemma mix_inj_word h v v' : in_width 64 h -> in_width 64 v -> in_width 64 v' -> mix h v = mix h v' -> v = v'.
Proof.
  intros Hh Hv Hv' He. apply mul_prime_inj in He; [|apply in_width_lxor; (done || lia)..].
  rewrite (Z.lxor_comm h v), (Z.lxor_comm h v') in He. by eapply lxor_cancel_r.
Qed.

Lemma fold_mix_inj ws h h' :
  in_width 64 h -> in_width 64 h' -> Forall (in_width 64) ws -> foldl mix h ws = foldl mix h' ws -> h = h'.
Proof.
  intros Hh Hh' Hws. revert h h' Hh Hh'. induction Hws as [|w ws Hw _ IH]; intros h h' Hh Hh' He; [done|].
  cbn in He. apply IH in He; [|apply mix_width..]. exact (mix_inj_state h h' w Hh Hh' Hw He).
Qed.

Lemma fold_mix_width ws h : in_width 64 h -> in_width 64 (foldl mix h ws).
Proof. revert h. induction ws as [|w ws IH]; intros h Hh; cbn; [done|]. apply IH, mix_width. Qed.

Definition graph_words (g : graph) : list Z :=
  slot ← g; match slot with Some x => grant_words x | None => [] end.

Lemma checksum_words g : checksum_graph g = foldl mix FNV_OFFSET (graph_words g).
Proof.
  unfold checksum_graph. generalize FNV_OFFSET. induction g as [|[x|] g IH]; intros h; [done| |apply IH].
  cbn [foldl mbind list_bind graph_words]. rewrite IH. unfold graph_words. cbn [mbind list_bind]. by rewrite foldl_app.
Qed.

(** [x'] is [x] with one of the words that are hashed replaced. *)
Definition one_word_change (x x' : Grant) : Prop :=
  exists l a b r, grant_words x = l ++ a :: r /\ grant_words x' = l ++ b :: r /\ a <> b.

(** The certificate detects any single change: if one live grant differs
    from the certified one in a single hashed word (the base, the length, a
    permission, the process id, the bus, or the device and function), the checksum
    differs and [verify] answers [Stale]; an unchanged graph still verifies. *)
Theorem certificate_detects_single_change l x x' r pr page c :
  Forall (in_width 64) (graph_words (l ++ Some x :: r)) -> Forall (in_width 64) (grant_words x') ->
  issue (l ++ Some x :: r) pr page = Some c -> one_word_change x x' ->
  verify (l ++ Some x :: r) c = Valid /\ verify (l ++ Some x' :: r) c = Stale.
Proof.
  unfold issue, verify. intros Hw Hw' Hi (l1 & a & b & r1 & Hx & Hx' & Hab).
  destruct (is_reachable _ _ _); [done|]. injection Hi as <-. cbn [graph_checksum]. rewrite Z.eqb_refl. split; [done|].
  enough (checksum_graph (l ++ Some x' :: r) <> checksum_graph (l ++ Some x :: r)) as Hne
    by (by rewrite (proj2 (Z.eqb_neq _ _) Hne)).
  rewrite !checksum_words. unfold graph_words in *. rewrite !bind_app in *. cbn [mbind list_bind] in *.
  rewrite Hx, Hx' in *. rewrite !Forall_app in Hw. destruct Hw as (Hl & (Hl1 & [Ha Hr1]%Forall_cons) & Hr).
  apply Forall_app in Hw' as [_ [Hb _]%Forall_cons].
  rewrite !foldl_app. cbn [foldl]. intros He.
  apply fold_mix_inj in He; [|by apply fold_mix_width, mix_width..|done].
  apply fold_mix_inj in He; [|apply mix_width..|done].
  apply mix_inj_word in He; [congruence|by apply fold_mix_width, fold_mix_width; split|done|done].
Qed.

Module CertificateLimits.

Definition certified : graph := [Some (mkGrant (CpuProcess 1) 0x1000 0x1000 true false)].
Definition changed : graph := [Some (mkGrant (CpuProcess 1) 0x4001000 0x754001000 true false)].

(** The certificate does not detect every change: here is a graph in which
    process 1 cannot reach page 0x4001000, its certificate, and another graph --
    base and length of the one grant changed together -- in which the page is
    reachable and the certificate still verifies as [Valid].  [verify] compares
    checksums only; it does not ask again whether the page is reachable. *)
Theorem changed_graph_still_valid :
  exists c, issue certified (CpuProcess 1) 0x4001000 = Some c /\
    certified <> changed /\ is_reachable changed (CpuProcess 1) 0x4001000 = true /\
    verify changed c = Valid.
Proof. eexists. split_and!; [reflexivity|discriminate|reflexivity|reflexivity]. Qed.

Lemma certificate_detects_witness :
  exists c, issue certified (CpuProcess 1) 0x2000 = Some c /\
    verify certified c = Valid /\
    verify [Some (mkGrant (CpuProcess 1) 0x2000 0x1000 true false)] c = Stale.
Proof.
  eexists. split; [reflexivity|].
  apply (certificate_detects_single_change [] (mkGrant (CpuProcess 1) 0x1000 0x1000 true false)
    (mkGrant (CpuProcess 1) 0x2000 0x1000 true false) [] (CpuProcess 1) 0x2000).
  - apply (bool_decide_unpack _). vm_compute. exact I.
  - apply (bool_decide_unpack _). vm_compute. exact I.
  - reflexivity.
  - exists [0; 1; 0], 0x1000, 0x2000, [0x1000; 1; 0]. split_and!; [reflexivity|reflexivity|discriminate].
Defined.
End CertificateLimits.

(** ** Envelopes *)

(** The distinct addresses of a list, in first-seen order. *)
Fixpoint first_seen (seen l : list Z) : list Z :=
  match l with
  | [] => []
  | a :: l' => if decide (a ∈ seen) then first_seen seen l' else a :: first_seen (seen ++ [a]) l'
  end.

Lemma discover_first_seen attempts seen room :
  (length seen <= room)%nat ->
  discover_envelope attempts seen room = take room (seen ++ first_seen seen attempts).
Proof.
  revert seen. induction attempts as [|a rest IH]; intros seen Hl; cbn [discover_envelope first_seen].
  { by rewrite app_nil_r, take_ge. }
  destruct (Nat.leb_spec room (length seen)).
  - rewrite take_app_le by lia. by rewrite take_ge.
  - destruct (decide (a ∈ seen)) as [Hin|Hni].
    + rewrite bool_decide_true by done. by apply IH.
    + rewrite bool_decide_false by done. rewrite IH by (rewrite length_app; cbn; lia). by rewrite <- app_assoc.
Qed.

Lemma first_seen_elem seen l a : a ∈ first_seen seen l <-> a ∈ l /\ ~ (a ∈ seen).
Proof.
  revert seen. induction l as [|b l IH]; intros seen; cbn [first_seen]; [set_solver|].
  case_decide; [rewrite IH; set_solver|]. rewrite elem_of_cons, IH. destruct (decide (a = b)); set_solver.
Qed.

Lemma first_seen_NoDup seen l : NoDup (first_seen seen l).
Proof.
  revert seen. induction l as [|b l IH]; intros seen; cbn [first_seen]; [constructor|].
  case_decide; [apply IH|]. constructor; [|apply IH]. rewrite first_seen_elem. set_solver.
Qed.

(** Discovery: the envelope is the distinct observed addresses in first-seen
    order, cut to the room for them; with room for all, an address is in it iff it
    was observed, and never twice. *)
Theorem discover_envelope_exact attempts room :
  discover_envelope attempts [] room = take room (first_seen [] attempts) /\
  NoDup (discover_envelope attempts [] room) /\
  (forall a, a ∈ discover_envelope attempts [] room -> a ∈ attempts) /\
  ((length attempts <= room)%nat -> forall a, a ∈ attempts -> a ∈ discover_envelope attempts [] room).
Proof.
  rewrite discover_first_seen by (cbn; lia). cbn [app]. split_and!; [done|..].
  - eapply sublist_NoDup; [apply first_seen_NoDup|apply sublist_take].
  - intros a Ha%(subseteq_take room). by apply first_seen_elem in Ha as [? _].
  - intros Hl a Ha. rewrite take_ge; [apply first_seen_elem; set_solver|].
    enough (forall seen l, length (first_seen seen l) <= length l)%nat as He by (specialize (He [] attempts); lia).
    intros seen l. revert seen. induction l as [|b l IH]; intros seen; cbn [first_seen length]; [lia|].
    case_decide; cbn [length]; [specialize (IH seen); lia|]. specialize (IH (seen ++ [b])). lia.
Qed.

(** ** The device side of the kernel's graph *)

(** The physical pages a device's grants project to, as the kernel reads them. *)
Definition device_pages (g : graph) (bus device function : Z) : list Z :=
  phys_page <$> take MAX_GRANTS (entries_of g (PciDevice bus device function)).

Lemma ranges_pages (es : list Entry) :
  Forall (fun e => in_width 64 (phys_page e)) es ->
  range_pages ((fun e => (phys_page e, 4096)) <$> es) = phys_page <$> es.
Proof.
  induction 1 as [|e es He _ IH]; [done|]. unfold range_pages in *. rewrite fmap_cons. cbn [mbind list_bind fst snd].
  rewrite IH. change (u64 (4096 + 4095) / 4096) with 1. change (range 0 1) with [0]. cbn [fmap list_fmap app].
  by rewrite Z.add_0_r, wrap_small.
Qed.

Lemma entries_width g pr e : e ∈ entries_of g pr -> in_width 64 (phys_page e).
Proof.
  intros (slot & He & _)%list_elem_of_bind. destruct slot as [x|]; [|set_solver].
  case_decide; [|set_solver]. apply list_elem_of_fmap in He as (p & -> & _). by apply wrap_range.
Qed.

Lemma entries_aligned g pr e : graph_ok g -> e ∈ entries_of g pr -> phys_page e mod 4096 = 0.
Proof.
  intros Hg (slot & He & Hin)%list_elem_of_bind. destruct slot as [x|]; [|set_solver].
  case_decide; [|set_solver]. apply list_elem_of_fmap in He as (p & -> & Hp%elem_of_range).
  destruct (grant_ok_pages x (Hg x Hin)) as (_ & _ & Hs). destruct (Hg x Hin) as (H0 & Ha & _).
  cbn [phys_page]. unfold PAGE_SIZE. rewrite wrap_small by (red; lia).
  by rewrite <- Zplus_mod_idemp_l, Ha, Z.add_0_l, Z.mod_mul.
Qed.

(** C15. DMA containment through the graph.  When every grant of the graph, the new one included, starts on a page
    boundary and ends below the top of the address space, the granted pages are below 2^47
    and there is memory for the tables: after a successful [grant_device] the
    device reaches exactly the pages the graph's projection lists for it (at most
    32), so every address it can reach is one the graph says it may; no other
    device's reachable memory changes.  When the graph is full nothing in hardware
    changes.  (The code does not check the alignment: [unaligned_grant_exceeds].) *)
Theorem grant_device_contained m domains bus device function base len :
  iommu_ok (io_of m) domains -> dev_ok bus device function ->
  let '(g, added) := graph_grant (GRAPH m) (mkGrant (PciDevice bus device function) base len true false) in
  graph_ok g ->
  Forall (fun p => p < 2 ^ 47) (device_pages g bus device function) ->
  3 * Z.of_nat (length (device_pages g bus device function)) + 2 <= free_pages (STATS (PMM (VM m))) ->
  exists m' r, grant_device bus device function base len m = Some (m', r) /\ GRAPH m' = g /\
    match r with
    | Some _ =>
        added = true /\
        (forall a, 0 <= a < 2 ^ 47 ->
           dma_translate (io_of m') bus device function a =
           if decide (a / 4096 * 4096 ∈ device_pages g bus device function) then Z.lor (a / 4096 * 4096) 3 else 0) /\
        (forall a, 0 <= a < 2 ^ 47 -> dma_translate (io_of m') bus device function a <> 0 ->
           is_reachable g (PciDevice bus device function) a = true) /\
        (forall b' d' f' a, dev_ok b' d' f' -> (b', d', f') <> (bus, device, function) ->
           dma_translate (io_of m') b' d' f' a = dma_translate (io_of m) b' d' f' a)
    | None => io_of m' = io_of m /\ (added = false \/ device_pages g bus device function = [])
    end.
Proof.
  intros Hio Hdev. destruct (graph_grant _ _) as [g added] eqn:Hg. intros Hgok Hlow Hfree.
  unfold grant_device. rewrite Hg. cbn [GRAPH set_graph]. destruct added; cbn [negb].
  2:{ eexists _, None. split; [reflexivity|]. split_and!; [done|done|by left]. }
  unfold project_iommu_table. rewrite project_take. set (es := take MAX_GRANTS _) in *.
  assert (Forall (fun e => e ∈ entries_of g (PciDevice bus device function)) es) as Hes.
  { apply Forall_forall. intros e He. by apply (subseteq_take MAX_GRANTS). }
  destruct (Nat.eqb_spec (length es) 0) as [H0|H0].
  { eexists _, None. split; [reflexivity|]. split_and!; [done|done|right].
    unfold device_pages. fold es. by destruct es. }
  assert (range_pages ((fun e => (phys_page e, 4096)) <$> es) = device_pages g bus device function) as Hrp.
  { apply ranges_pages. eapply Forall_impl; [exact Hes|]. intros e. apply entries_width. }
  destruct (assign_device_spec (io_of m) domains bus device function ((fun e => (phys_page e, 4096)) <$> es))
    as (io & id & d & Heq & _ & _ & Hdma & Hoth); [done|done| | |].
  { rewrite Hrp. apply Forall_forall. intros p Hp. rewrite Forall_forall in Hlow. split; [|by apply Hlow].
    apply list_elem_of_fmap in Hp as (e & -> & He). rewrite Forall_forall in Hes. by eapply entries_width, Hes. }
  { rewrite Hrp. exact Hfree. }
  change (io_of (set_graph g m)) with (io_of m). rewrite Heq. cbn [mbind option_bind].
  eexists _, (Some id). split; [reflexivity|]. cbn [GRAPH put_io set_graph].
  assert (io_of (put_io io (set_graph g m)) = io) as -> by (by destruct io).
  assert (forall a, 0 <= a < 2 ^ 47 -> dma_translate io bus device function a =
    if decide (a / 4096 * 4096 ∈ device_pages g bus device function) then Z.lor (a / 4096 * 4096) 3 else 0) as Hex.
  { intros a Ha. rewrite Hdma, Hrp. apply granted_exact; [|done]. apply Forall_forall. intros p Hp.
    rewrite Forall_forall in Hlow. pose proof (Hlow p Hp) as Hp47. apply list_elem_of_fmap in Hp as (e & -> & He).
    rewrite Forall_forall in Hes. specialize (Hes e He). split; [|by eapply entries_aligned].
    apply entries_width in Hes. red in Hes. lia. }
  split_and!; [done|done|done| |done].
  intros a Ha Hnz. rewrite Hex in Hnz by done. case_decide as Hin; [|done].
  apply reachable_entries; [done|]. apply list_elem_of_fmap in Hin as (e & He1 & He2).
  exists e. rewrite Forall_forall in Hes. split; [by apply Hes|]. rewrite <- He1.
  pose proof (Z.mod_pos_bound a 4096 ltac:(lia)). pose proof (Z.div_mod a 4096 ltac:(lia)). lia.
Qed.

(** Revoking a device grant cuts the device off: whatever [revoke_device]
    finds, afterwards the grant is gone from the graph and the device reaches no
    memory at all, and every other device reaches what it did before.  It answers
    true iff both a grant and a context entry were there. *)
Theorem revoke_device_cuts_off ecap m domains bus device function base :
  iommu_ok (io_of m) domains -> dev_ok bus device function ->
  let '(g, n) := graph_revoke (GRAPH m) (PciDevice bus device function) base in
  exists m' b, revoke_device ecap bus device function base m = Some (m', b) /\
    GRAPH m' = g /\ iommu_ok (io_of m') domains /\
    (b = true <-> (0 < n)%nat /\ context_entry_present bus device function (io_of m) = Some true) /\
    (forall a, dma_translate (io_of m') bus device function a = 0) /\
    (forall b' d' f' a, dev_ok b' d' f' -> (b', d', f') <> (bus, device, function) ->
       dma_translate (io_of m') b' d' f' a = dma_translate (io_of m) b' d' f' a).
Proof.
  intros Hio Hdev. unfold revoke_device. destruct (graph_revoke _ _ _) as [g n].
  change (io_of (set_graph g m)) with (io_of m).
  destruct (revoke_device_spec ecap (io_of m) domains bus device function Hio Hdev)
    as (io & b & -> & Hpres & Hok' & _ & _ & Hz & Hoth). cbn [mbind option_bind].
  eexists _, _. split; [reflexivity|]. assert (io_of (put_io io (set_graph g m)) = io) as -> by (by destruct io).
  split_and!; [done|done| |done|done]. rewrite andb_true_iff, Nat.ltb_lt, Hpres.
  split; intros [? ?]; split; congruence.
Qed.

Module AuthorityWitness.
Import PmmWitness VmmWitness IommuWitness.

(** The booted machine with an empty graph and no device assigned. *)
Definition m0 : machine := mkMachine (replicate 4 None) (mkVmm (IPMM e0) 0 0 0 0) e0.

Lemma m0_io : io_of m0 = e0.
Proof. reflexivity. Qed.

Lemma grant_device_witness :
  exists m' d, grant_device 0 3 0 0x1A000 8192 m0 = Some (m', Some d) /\
    GRAPH m' = [Some (mkGrant (PciDevice 0 3 0) 0x1A000 8192 true false); None; None; None] /\
    dma_translate (io_of m') 0 3 0 0x1B010 = 0x1B003 /\ dma_translate (io_of m') 0 3 0 0x1C000 = 0.
Proof.
  pose proof (grant_device_contained m0 [] 0 3 0 0x1A000 8192) as H. cbn [graph_grant m0 GRAPH replicate] in H.
  destruct H as (m' & r & H1 & H2 & H3).
  - exact e0_ok.
  - exact dev_003.
  - intros x Hx. assert (x = mkGrant (PciDevice 0 3 0) 0x1A000 8192 true false) as -> by set_solver.
    cbv -[Z.le Z.lt]. lia.
  - apply (bool_decide_unpack _). vm_compute. exact I.
  - vm_compute. discriminate.
  - destruct r as [d|]; [|destruct H3 as [_ [H3|H3]]; discriminate H3]. destruct H3 as (_ & H3 & _). exists m', d. split; [exact H1|]. split; [exact H2|].
    split; [rewrite (H3 0x1B010 ltac:(lia)); vm_compute; reflexivity|rewrite (H3 0x1C000 ltac:(lia)); vm_compute; reflexivity].
Defined.

Lemma revoke_device_cuts_off_witness :
  exists m' b, revoke_device 0 0 3 0 0x1A000 m0 = Some (m', b) /\ dma_translate (io_of m') 0 3 0 0x1B010 = 0.
Proof.
  pose proof (revoke_device_cuts_off 0 m0 [] 0 3 0 0x1A000 e0_ok dev_003) as H.
  change (graph_revoke (GRAPH m0) (PciDevice 0 3 0) 0x1A000) with (replicate 4 (@None Grant), 0%nat) in H.
  destruct H as (m' & b & H1 & _ & _ & _ & H5 & _). exists m', b. split; [exact H1|apply H5].
Defined.

Lemma projection_witness :
  let g := [Some (mkGrant (CpuProcess 1) 0x1A000 8192 true false)] in
  is_reachable g (CpuProcess 1) 0x1B010 = true <->
  exists e, e ∈ entries_of g (CpuProcess 1) /\ phys_page e <= 0x1B010 < phys_page e + 4096.
Proof.
  intros g. apply (projection_is_authority g (CpuProcess 1) 0 0x1B010).
  intros x Hx. assert (x = mkGrant (CpuProcess 1) 0x1A000 8192 true false) as -> by set_solver.
  cbv -[Z.le Z.lt]. lia.
Defined.

(** A grant that does not start on a page boundary: the device reaches the start of the page, which the
    graph denies it. *)
Lemma unaligned_grant_exceeds :
  match grant_device 0 3 0 0x1A800 4096 m0 with
  | Some (m, Some _) => dma_translate (io_of m) 0 3 0 0x1A000 <> 0 /\ is_reachable (GRAPH m) (PciDevice 0 3 0) 0x1A000 = false
  | _ => False
  end.
Proof. vm_compute. split; [discriminate|reflexivity]. Qed.

(** Two grants of one process, then the first revoked with the address it was
    mapped at. *)
Definition p0 : machine := mkMachine (replicate 4 None) v0 (mkIommu s0 0 [] 0 []).

Definition aliased : option (machine * bool) :=
  '(m, _) ← grant_process 1 root 0x400000 0x1A000 4096 true false p0;
  '(m, _) ← grant_process 1 root 0x500000 0x1B000 4096 true false m;
  Some (revoke_process 1 root 0x400000 0x1A000 m).

(** Revoking a process grant can leave its page mapped.  [grant_process] maps
    every page the process's projection lists, from the new base address on, so a
    second grant maps the first grant's page again; [revoke_process] for the first
    grant unmaps from the first base address only.  After two grants and the
    revocation of the first, which reports success, the graph says page 0x1A000 is
    unreachable while the tables still translate the second grant's base address to
    it -- and the second grant's page, 0x1B000, is not at that address. *)
Theorem revoked_page_still_mapped :
  match aliased with
  | Some (m, ok) =>
      ok = true /\
      cross_check_cpu 1 root 0x500000 0x1A000 m = (false, true) /\
      frame_from_entry (debug_translate (MEM (PMM (VM m))) root 0x501000) = 0x1B000
  | None => False
  end.
Proof. vm_compute. auto. Qed.
End AuthorityWitness.
