(* ===== verification/Ext2.v ===== *)
(** * The on-disk filesystem ([kernel_common/src/ext2.rs])

    Blocks are byte lists of length [BLOCK_SIZE]; an access out of range panics,
    which is [None].  Directory walks are bounded by fuel: a record is at least 8
    bytes long, so 129 steps cover a block. *)

From S2P Require Import Prelude Bits.

Definition BLOCK_SIZE : nat := 1024.
Definition MAGIC : Z := 0xEF53.
Definition SUPERBLOCK_BLOCK : Z := 1.
Definition GROUP_DESC_BLOCK : Z := 2.
Definition BLOCK_BITMAP_BLOCK : Z := 3.
Definition INODE_BITMAP_BLOCK : Z := 4.
Definition INODE_TABLE_START_BLOCK : Z := 5.
Definition INODE_TABLE_BLOCKS : Z := 4.
Definition ROOT_DATA_BLOCK : Z := 9.
Definition FILE_DATA_BLOCK : Z := 10.
Definition TOTAL_BLOCKS : Z := 64.
Definition NUM_INODES : Z := 32.
Definition INODES_PER_BLOCK : Z := 8.
Definition ROOT_INODE : Z := 2.
Definition FILE_INODE : Z := 11.
Definition S_IFREG : Z := 0x8000.
Definition S_IFDIR : Z := 0x4000.
Definition MODE_644 : Z := 420.
Definition MODE_755 : Z := 493.
Definition FT_REG : Z := 1.
Definition FT_DIR : Z := 2.

(** ** Fields *)

Definition wu16 (b : bytes) (off : nat) (v : Z) : option bytes := wle 2 b off v.
Definition wu32 (b : bytes) (off : nat) (v : Z) : option bytes := wle 4 b off v.
Definition ru16 (b : bytes) (off : nat) : option Z := rle 2 b off.
Definition ru32 (b : bytes) (off : nat) : option Z := rle 4 b off.
Definition vzero (b : bytes) : bytes := replicate (length b) 0.

(** ** Inodes *)

Record InodeInfo := mkInode {
  mode : Z; size : Z; links : Z; blocks_count : Z; direct_blocks : list Z }.

Definition inode_block_and_offset (inode : Z) : Z * nat :=
  (u32 (INODE_TABLE_START_BLOCK + u32 (inode - 1) / INODES_PER_BLOCK),
   (Z.to_nat (u32 (inode - 1) mod INODES_PER_BLOCK) * 128)%nat).

(** The block pointers: [for i in 0..limit]. *)
Definition write_pointers (b : bytes) (off : nat) (blocks : list Z) : option bytes :=
  foldM (fun b ib => wu32 b (off + 0x28 + ib.1 * 4)%nat ib.2) b (imap pair (take 12 blocks)).

Definition write_inode_at (b : bytes) (off : nat) (mode size links : Z) (num_blocks : nat)
    (blocks : list Z) : option bytes :=
  b ← wslice b off (replicate 128 0);
  b ← wu16 b (off + 0x00) mode;
  b ← wu32 b (off + 0x04) size;
  b ← wu16 b (off + 0x1A) links;
  b ← wu32 b (off + 0x1C) (u32 (Z.of_nat (num_blocks * BLOCK_SIZE / 512)));
  write_pointers b off blocks.

Definition write_inode_entry_full (b : bytes) (inode mode size links : Z) (blocks : list Z) : option bytes :=
  let off := (inode_block_and_offset inode).2 in
  write_inode_at b off mode size links (length blocks) blocks.

Definition read_inode_entry (b : bytes) (inode : Z) : option InodeInfo :=
  let off := (inode_block_and_offset inode).2 in
  mode ← ru16 b (off + 0x00);
  size ← ru32 b (off + 0x04);
  links ← ru16 b (off + 0x1A);
  sectors ← ru32 b (off + 0x1C);
  blocks ← mapM (fun i => ru32 b (off + 0x28 + i * 4)%nat) (seq 0 12);
  Some (mkInode mode size links (sectors / 2) blocks).

Definition write_inode_entry_blocks (b : bytes) (entry_index : nat) (mode size links start_block : Z)
    (num_blocks : nat) : option bytes :=
  write_inode_at b (entry_index * 128) mode size links num_blocks
    ((fun i => u32 (start_block + Z.of_nat i)) <$> seq 0 (Nat.min num_blocks 12)).

Definition write_inode_entry (b : bytes) (entry_index : nat) (mode size links block0 : Z) : option bytes :=
  write_inode_entry_blocks b entry_index mode size links block0 (if negb (block0 =? 0) then 1%nat else 0%nat).

Definition write_root_inode (b : bytes) : option bytes :=
  write_inode_entry b (Z.to_nat (ROOT_INODE - 1)) (Z.lor S_IFDIR MODE_755) (Z.of_nat BLOCK_SIZE) 2 ROOT_DATA_BLOCK.

Definition file_entry_index : nat := Z.to_nat (FILE_INODE - INODES_PER_BLOCK - 1).

Definition write_file_inode_blocks (b : bytes) (size start_block : Z) (num_blocks : nat) : option bytes :=
  write_inode_entry_blocks b file_entry_index (Z.lor S_IFREG MODE_644) size 1 start_block num_blocks.

Definition write_file_inode (b : bytes) (size : Z) : option bytes :=
  let num_blocks := if 0 <? size then Z.to_nat ((size + 1024 - 1) / 1024) else 1%nat in
  write_file_inode_blocks b size FILE_DATA_BLOCK num_blocks.

Definition read_file_inode_size (b : bytes) : option Z := ru32 b (file_entry_index * 128 + 0x04).

(** ** Allocation bitmaps *)

(** [for id in first..=last]: the first id whose bit is clear. *)
Fixpoint alloc_id (ids : list Z) (bitmap : bytes) : bytes * option Z :=
  match ids with
  | [] => (bitmap, None)
  | id :: ids' =>
      let bit := id - 1 in
      match bitmap !! Z.to_nat (bit / 8) with
      | Some v =>
          let bit_mask := Z.shiftl 1 (bit mod 8) in
          if Z.land v bit_mask =? 0
          then (<[Z.to_nat (bit / 8) := Z.lor v bit_mask]> bitmap, Some id)
          else alloc_id ids' bitmap
      | None => alloc_id ids' bitmap
      end
  end.

Definition free_id (bitmap : bytes) (id : Z) : bytes :=
  if 0 <? id then
    let bit := id - 1 in
    match bitmap !! Z.to_nat (bit / 8) with
    | Some v => <[Z.to_nat (bit / 8) := Z.land v (wnot 8 (Z.shiftl 1 (bit mod 8)))]> bitmap
    | None => bitmap
    end
  else bitmap.

Definition alloc_block (bitmap : bytes) (total_blocks : Z) : bytes * option Z :=
  alloc_id (range (FILE_DATA_BLOCK + 1) (total_blocks + 1)) bitmap.
Definition free_block (bitmap : bytes) (block : Z) : bytes := free_id bitmap block.
Definition alloc_inode (bitmap : bytes) (num_inodes : Z) : bytes * option Z :=
  alloc_id (range (FILE_INODE + 1) (num_inodes + 1)) bitmap.
Definition free_inode (bitmap : bytes) (inode : Z) : bytes := free_id bitmap inode.

(** [b[bit / 8] |= 1 << (bit % 8)] for each id. *)
Definition mark_ids (ids : list Z) (b : bytes) : option bytes :=
  foldM (fun b id => bitmap_set b (id - 1)) b ids.

Definition build_block_bitmap (b : bytes) : option bytes := mark_ids (range 1 (FILE_DATA_BLOCK + 1)) (vzero b).
Definition build_inode_bitmap (b : bytes) : option bytes := mark_ids (range 1 (FILE_INODE + 1)) (vzero b).

(** ** Directories *)

Definition write_dir_entry (b : bytes) (off : nat) (inode rec_len file_type : Z) (name : bytes) : option bytes :=
  b ← wu32 b off inode;
  b ← wu16 b (off + 4) rec_len;
  b ← wbyte b (off + 6) (u8 (Z.of_nat (length name)));
  b ← wbyte b (off + 7) file_type;
  wslice b (off + 8) name.

Definition init_dir_block (b : bytes) (dir_inode parent_inode : Z) : option bytes :=
  b ← write_dir_entry (vzero b) 0 dir_inode 12 FT_DIR [46];
  write_dir_entry b 12 parent_inode (Z.of_nat BLOCK_SIZE - 12) FT_DIR [46; 46].

(** One directory record: header fields and what follows from them. *)
Record dirent := mkDirent { d_inode : Z; d_rec_len : nat; d_name_len : nat; d_type : Z }.

(** The header at [off], as each of the three walks reads it: [None] is a panic,
    [Some None] the end of the walk. *)
Definition read_header (b : bytes) (off : nat) : option (option dirent) :=
  if (off + 8 <=? BLOCK_SIZE)%nat then
    inode ← ru32 b off;
    rec_len ← ru16 b (off + 4);
    let rec_len := Z.to_nat rec_len in
    if (rec_len <? 8)%nat || (BLOCK_SIZE <? off + rec_len)%nat then Some None else
    name_len ← b !! (off + 6)%nat;
    file_type ← b !! (off + 7)%nat;
    Some (Some (mkDirent inode rec_len (Z.to_nat name_len) file_type))
  else Some None.

Definition visible (d : dirent) : bool :=
  negb (d_inode d =? 0) && (0 <? d_name_len d)%nat && (8 + d_name_len d <=? d_rec_len d)%nat.

(** [read_dir_entries] with a callback that collects: the entries in order. *)
Fixpoint read_dir_entries (fuel : nat) (b : bytes) (off : nat) : option (list (Z * Z * bytes)) :=
  match fuel with
  | O => None
  | S fuel' =>
      h ← read_header b off;
      match h with
      | None => Some []
      | Some d =>
          here ← (if visible d
                  then name ← rslice b (off + 8) (d_name_len d); Some [(d_inode d, d_type d, name)]
                  else Some []);
          rest ← read_dir_entries fuel' b (off + d_rec_len d);
          Some (here ++ rest)
      end
  end.

Definition DIR_FUEL : nat := 129.

Definition find_in (es : list (Z * Z * bytes)) (target : bytes) : option (Z * Z) :=
  (fun e => e.1) <$> head (filter (fun e => e.2 = target) es).

Definition find_dir_entry (b : bytes) (target : bytes) : option (option (Z * Z)) :=
  es ← read_dir_entries DIR_FUEL b 0; Some (find_in es target).

(** [(8 + n + 3) & !3] *)
Definition rec_size (n : nat) : nat := ((8 + n + 3) / 4 * 4)%nat.

Fixpoint add_dir_loop (fuel : nat) (b : bytes) (off : nat) (inode file_type : Z) (name : bytes)
  : option (bytes * bool) :=
  match fuel with
  | O => None
  | S fuel' =>
      let needed := rec_size (length name) in
      h ← read_header b off;
      match h with
      | None => Some (b, false)
      | Some d =>
          let actual_size := if d_inode d =? 0 then 0%nat else rec_size (d_name_len d) in
          if (d_inode d =? 0) && (needed <=? d_rec_len d)%nat then
            b ← write_dir_entry b off inode (u16 (Z.of_nat (d_rec_len d))) file_type name;
            Some (b, true)
          else if negb (d_inode d =? 0) && (actual_size + needed <=? d_rec_len d)%nat then
            let new_off := (off + actual_size)%nat in
            let new_rec_len := u16 (Z.of_nat (d_rec_len d - actual_size)) in
            b ← wu16 b (off + 4) (u16 (Z.of_nat actual_size));
            b ← write_dir_entry b new_off inode new_rec_len file_type name;
            Some (b, true)
          else add_dir_loop fuel' b (off + d_rec_len d) inode file_type name
      end
  end.

Definition add_dir_entry (b : bytes) (inode file_type : Z) (name : bytes) : option (bytes * bool) :=
  add_dir_loop DIR_FUEL b 0 inode file_type name.

Fixpoint remove_dir_loop (fuel : nat) (b : bytes) (prev_off : option nat) (off : nat) (target : bytes)
  : option (bytes * option Z) :=
  match fuel with
  | O => None
  | S fuel' =>
      h ← read_header b off;
      match h with
      | None => Some (b, None)
      | Some d =>
          hit ← (if visible d
                 then name ← rslice b (off + 8) (d_name_len d); Some (bool_decide (name = target))
                 else Some false);
          if (hit : bool) then
            b ← match prev_off with
                | Some p =>
                    prev ← ru16 b (p + 4);
                    wu16 b (p + 4) (u16 (prev + Z.of_nat (d_rec_len d)))
                | None => wu32 b off 0
                end;
            Some (b, Some (d_inode d))
          else remove_dir_loop fuel' b (Some off) (off + d_rec_len d) target
      end
  end.

Definition remove_dir_entry (b : bytes) (target : bytes) : option (bytes * option Z) :=
  remove_dir_loop DIR_FUEL b None 0 target.

(** ** Paths *)

Definition slash : Z := 47.

Fixpoint trim_start (s : bytes) : bytes :=
  match s with c :: s' => if c =? slash then trim_start s' else s | [] => [] end.
Definition trim_matches (s : bytes) : bytes := reverse (trim_start (reverse (trim_start s))).

(** [find('/')]: the part before the first slash and the part from it on. *)
Fixpoint split_at_slash (s : bytes) : option (bytes * bytes) :=
  match s with
  | [] => None
  | c :: s' => if c =? slash then Some ([], s) else '(a, b) ← split_at_slash s'; Some (c :: a, b)
  end.

(** [next] of [PathComponentIterator]: the segment and the new remainder. *)
Definition path_next (remainder : bytes) : option (bytes * bytes) :=
  match remainder with
  | [] => None
  | _ =>
      match split_at_slash remainder with
      | Some (seg, rest) => Some (seg, trim_start rest)
      | None => Some (remainder, [])
      end
  end.

(** All segments; the remainder shrinks at each step. *)
Fixpoint path_segments (fuel : nat) (remainder : bytes) : list bytes :=
  match fuel with
  | O => []
  | S fuel' => match path_next remainder with
               | Some (seg, rest) => seg :: path_segments fuel' rest
               | None => []
               end
  end.

Definition path_components (path : bytes) : list bytes :=
  path_segments (length path) (trim_matches path).

(** [rfind('/')]. *)
Definition split_parent_and_basename (path : bytes) : bytes * bytes :=
  let trimmed := trim_matches path in
  match split_at_slash (reverse trimmed) with
  | Some (rbase, rparent) => (reverse (tail rparent), reverse rbase)
  | None => ([], trimmed)
  end.

Section resolving.
(** [read_dir_block]: the directory's data block, or [None] when it cannot be
    read. *)
Context (read_dir_block : Z -> option bytes).

(** The loop, on the segments the iterator still yields; [None] is a panic. *)
Fixpoint resolve_segments (cur_inode cur_type : Z) (segs : list bytes) : option (option (Z * Z)) :=
  match segs with
  | [] => Some (Some (cur_inode, cur_type))
  | seg :: segs' =>
      if negb (cur_type =? FT_DIR) then Some None else
      match read_dir_block cur_inode with
      | None => Some None
      | Some buf =>
          r ← find_dir_entry buf seg;
          match r with
          | Some (next_inode, next_type) => resolve_segments next_inode next_type segs'
          | None => Some None
          end
      end
  end.

Definition resolve_path (path : bytes) (start_inode : Z) : option (option (Z * Z)) :=
  resolve_segments start_inode FT_DIR (path_components path).
End resolving.

(** ** The fixed blocks *)

Definition is_formatted (b : bytes) : option bool := v ← ru16 b 0x38; Some (v =? MAGIC).

Definition build_superblock (b : bytes) : option bytes :=
  b ← wu32 (vzero b) 0x00 NUM_INODES;
  b ← wu32 b 0x04 TOTAL_BLOCKS;
  b ← wu32 b 0x08 0;
  b ← wu32 b 0x0C (TOTAL_BLOCKS - (FILE_DATA_BLOCK + 1));
  b ← wu32 b 0x10 (NUM_INODES - FILE_INODE);
  b ← wu32 b 0x14 1;
  b ← wu32 b 0x18 0;
  b ← wu32 b 0x1C 0;
  b ← wu32 b 0x20 TOTAL_BLOCKS;
  b ← wu32 b 0x24 TOTAL_BLOCKS;
  b ← wu32 b 0x28 NUM_INODES;
  b ← wu16 b 0x38 MAGIC;
  b ← wu16 b 0x3A 1;
  b ← wu16 b 0x3C 1;
  wu32 b 0x4C 0.

Definition build_group_desc (b : bytes) : option bytes :=
  b ← wu32 (vzero b) 0x00 BLOCK_BITMAP_BLOCK;
  b ← wu32 b 0x04 INODE_BITMAP_BLOCK;
  b ← wu32 b 0x08 INODE_TABLE_START_BLOCK;
  b ← wu16 b 0x0C (TOTAL_BLOCKS - (FILE_DATA_BLOCK + 1));
  b ← wu16 b 0x0E (NUM_INODES - FILE_INODE);
  wu16 b 0x10 1.

(** [x as i32 + delta], then [.max(0) as u32] / [as u16]. *)
Definition adjust (w x delta : Z) : Z := wrap w (Z.max (signed 32 (signed 32 x + delta)) 0).

Definition update_alloc_counts (sb gd : bytes) (block_delta inode_delta dir_delta : Z)
  : option (bytes * bytes) :=
  free_blocks ← ru32 sb 0x0C;
  free_inodes ← ru32 sb 0x10;
  sb ← wu32 sb 0x0C (adjust 32 free_blocks block_delta);
  sb ← wu32 sb 0x10 (adjust 32 free_inodes inode_delta);
  gd_free_blocks ← ru16 gd 0x0C;
  gd_free_inodes ← ru16 gd 0x0E;
  gd_used_dirs ← ru16 gd 0x10;
  gd ← wu16 gd 0x0C (adjust 16 gd_free_blocks block_delta);
  gd ← wu16 gd 0x0E (adjust 16 gd_free_inodes inode_delta);
  gd ← wu16 gd 0x10 (adjust 16 gd_used_dirs dir_delta);
  Some (sb, gd).

Definition build_root_dir_block (b : bytes) (file_name : bytes) : option bytes :=
  b ← write_dir_entry (vzero b) 0 ROOT_INODE 12 FT_DIR [46];
  b ← write_dir_entry b 12 ROOT_INODE 12 FT_DIR [46; 46];
  write_dir_entry b 24 FILE_INODE (Z.of_nat BLOCK_SIZE - 24) FT_REG file_name.

Definition build_file_data_block (b content : bytes) : option (bytes * nat) :=
  let n := Nat.min (length content) BLOCK_SIZE in
  b ← wslice (vzero b) 0 (take n content);
  Some (b, n).

Definition read_file_data (inode_table data_block out : bytes) : option (bytes * nat) :=
  size ← ru32 inode_table (file_entry_index * 128 + 0x04);
  let n := Nat.min (Nat.min (Z.to_nat size) BLOCK_SIZE) (length out) in
  data ← rslice data_block 0 n;
  out ← wslice out 0 data;
  Some (out, n).

(** ** Facts about blocks *)

Definition block_ok (b : bytes) : Prop := length b = BLOCK_SIZE /\ all_bytes b.

Definition agree_from (o : nat) (b b' : bytes) : Prop := forall i, (o <= i)%nat -> b !! i = b' !! i.
Definition agree_below (o : nat) (b b' : bytes) : Prop := forall i, (i < o)%nat -> b !! i = b' !! i.

(** A buffer changed only inside [[lo, hi)]. *)
Definition changed_in (lo hi : nat) (b b' : bytes) : Prop :=
  length b' = length b /\ forall i, (i < lo \/ hi <= i)%nat -> b' !! i = b !! i.

Lemma changed_in_trans lo hi b1 b2 b3 : changed_in lo hi b1 b2 -> changed_in lo hi b2 b3 -> changed_in lo hi b1 b3.
Proof. intros [L1 H1] [L2 H2]. split; [congruence|]. intros i Hi. by rewrite H2, H1. Qed.

Lemma changed_in_weaken lo hi lo' hi' b b' :
  (lo' <= lo)%nat -> (hi <= hi')%nat -> changed_in lo hi b b' -> changed_in lo' hi' b b'.
Proof. intros Hl Hh [L H]. split; [done|]. intros i Hi. apply H. lia. Qed.

Lemma wslice_changed b off s r : wslice b off s = Some r -> changed_in off (off + length s) b r.
Proof.
  intros Hw. split; [by eapply length_wslice|]. intros i Hi. rewrite (lookup_wslice _ _ _ _ _ Hw).
  rewrite decide_False; [done|lia].
Qed.

Lemma wle_changed n b off v r : wle n b off v = Some r -> changed_in off (off + n) b r.
Proof. intros Hw%wslice_changed. by rewrite length_le_bytes in Hw. Qed.

Lemma rslice_agree {b b'} lo hi off len :
  changed_in lo hi b b' -> (off + len <= lo \/ hi <= off)%nat -> rslice b' off len = rslice b off len.
Proof. intros [L H] Hd. apply rslice_ext; [done|]. intros i Hi. apply H. lia. Qed.

Lemma rle_agree n lo hi b b' off :
  changed_in lo hi b b' -> (off + n <= lo \/ hi <= off)%nat -> rle n b' off = rle n b off.
Proof. intros Hc Hd. unfold rle. by rewrite (rslice_agree _ _ _ _ Hc Hd). Qed.

Lemma read_header_agree lo hi b b' off :
  changed_in lo hi b b' -> (off + 8 <= lo \/ hi <= off)%nat -> read_header b' off = read_header b off.
Proof.
  intros Hc Hd. unfold read_header, ru32, ru16. destruct (off + 8 <=? BLOCK_SIZE)%nat; [|done].
  rewrite (rle_agree 4 lo hi b b' off Hc), (rle_agree 2 lo hi b b' (off + 4) Hc) by lia.
  destruct Hc as [_ H]. by rewrite (H (off + 6)%nat), (H (off + 7)%nat) by lia.
Qed.

Lemma read_header_total b off :
  block_ok b -> exists h, read_header b off = Some h /\
    match h with
    | Some d => (8 <= d_rec_len d)%nat /\ (off + d_rec_len d <= 1024)%nat /\ (d_name_len d <= 255)%nat /\
        in_width 32 (d_inode d)
    | None => True
    end.
Proof.
  intros [Hl Hb]. unfold read_header, BLOCK_SIZE in *. destruct (Nat.leb_spec (off + 8) 1024) as [Hle|]; [|by eexists].
  destruct (rle_is_Some 4 b off ltac:(lia)) as [ino Hino]. destruct (rle_is_Some 2 b (off + 4) ltac:(lia)) as [rl Hrl].
  destruct (lookup_lt_is_Some_2 b (off + 6)%nat ltac:(lia)) as [nl Hnl].
  destruct (lookup_lt_is_Some_2 b (off + 7)%nat ltac:(lia)) as [ft Hft].
  unfold ru32, ru16. rewrite Hino, Hrl. cbn [mbind option_bind].
  destruct (Nat.ltb_spec (Z.to_nat rl) 8); [by eexists|].
  destruct (Nat.ltb_spec 1024 (off + Z.to_nat rl)); [by eexists|]. cbn [orb].
  rewrite Hnl, Hft. cbn [mbind option_bind]. eexists; split; [reflexivity|]. cbn.
  split_and!; [lia|lia| |exact (rle_range 4 b off ino Hb Hino)].
  pose proof (Forall_lookup_1 _ _ _ _ Hb Hnl) as Hn. red in Hn. lia.
Qed.

(** ** The entries of a directory *)

Definition here (b : bytes) (off : nat) (d : dirent) : list (Z * Z * bytes) :=
  if visible d then [(d_inode d, d_type d, take (d_name_len d) (drop (off + 8) b))] else [].

Lemma here_read b off d :
  block_ok b -> (off + d_rec_len d <= 1024)%nat ->
  (if visible d then name ← rslice b (off + 8) (d_name_len d); Some [(d_inode d, d_type d, name)] else Some [])
  = Some (here b off d).
Proof.
  intros [Hl _] Hr. unfold here. destruct (visible d) eqn:Hv; [|done]. unfold visible in Hv.
  repeat (apply andb_true_iff in Hv as [Hv ?]). unfold rslice, BLOCK_SIZE in *.
  rewrite decide_True; [done|]. apply Nat.leb_le in H. lia.
Qed.

Lemma here_agree lo hi b b' off d :
  changed_in lo hi b b' -> (off + d_rec_len d <= lo \/ hi <= off)%nat -> (off + d_rec_len d <= length b)%nat ->
  here b' off d = here b off d.
Proof.
  intros Hc Hd Hl. unfold here. destruct (visible d) eqn:Hv; [|done]. unfold visible in Hv.
  apply andb_true_iff in Hv as [_ Hv%Nat.leb_le].
  assert (rslice b' (off + 8) (d_name_len d) = rslice b (off + 8) (d_name_len d)) as He by (eapply rslice_agree; [done|lia]).
  unfold rslice in He. destruct Hc as [L _]. rewrite L in He. rewrite !decide_True in He by lia. apply (inj Some) in He. by rewrite He.
Qed.

Definition fuel_ok (fuel off : nat) : Prop := (off <= 1024)%nat /\ (1032 <= off + 8 * fuel)%nat.

Lemma read_dir_total fuel b off :
  block_ok b -> fuel_ok fuel off -> is_Some (read_dir_entries fuel b off).
Proof.
  intros Hb. revert off. induction fuel as [|fuel IH]; intros off [Ho Hf]; [lia|]. cbn [read_dir_entries].
  destruct (read_header_total b off Hb) as ([d|] & -> & Hd); cbn [mbind option_bind]; [|by eexists].
  destruct Hd as (H8 & Hend & _). rewrite here_read by done. cbn [mbind option_bind].
  destruct (IH (off + d_rec_len d)%nat) as [rest ->]; [split; lia|]. by eexists.
Qed.

Lemma read_dir_fuel fuel fuel' b off :
  block_ok b -> fuel_ok fuel off -> fuel_ok fuel' off -> read_dir_entries fuel b off = read_dir_entries fuel' b off.
Proof.
  intros Hb. revert fuel' off. induction fuel as [|fuel IH]; intros [|fuel'] off [Ho Hf] [_ Hf']; [lia..|].
  cbn [read_dir_entries]. destruct (read_header_total b off Hb) as ([d|] & -> & Hd); cbn [mbind option_bind]; [|done].
  destruct Hd as (H8 & Hend & _). rewrite (IH fuel' (off + d_rec_len d)%nat); [done|split; lia..].
Qed.

Definition entries (b : bytes) (off : nat) : list (Z * Z * bytes) := default [] (read_dir_entries DIR_FUEL b off).

Lemma dir_fuel_ok off : (off <= 1024)%nat -> fuel_ok DIR_FUEL off.
Proof. unfold fuel_ok, DIR_FUEL. lia. Qed.

Lemma entries_read b off : block_ok b -> (off <= 1024)%nat -> read_dir_entries DIR_FUEL b off = Some (entries b off).
Proof.
  intros Hb Ho. unfold entries. by destruct (read_dir_total DIR_FUEL b off Hb (dir_fuel_ok _ Ho)) as [es ->].
Qed.

Lemma entries_unfold b off :
  block_ok b -> (off <= 1024)%nat ->
  entries b off =
  match read_header b off with
  | Some (Some d) => here b off d ++ entries b (off + d_rec_len d)
  | _ => []
  end.
Proof.
  intros Hb Ho. pose proof (entries_read b off Hb Ho) as He.
  rewrite (read_dir_fuel DIR_FUEL (S DIR_FUEL)) in He by (done || (unfold fuel_ok, DIR_FUEL; lia)).
  cbn [read_dir_entries] in He.
  destruct (read_header_total b off Hb) as ([d|] & Hh & Hd); rewrite Hh in He |- *; cbn [mbind option_bind] in He; [|by injection He as <-].
  destruct Hd as (H8 & Hend & _). rewrite here_read in He by done. cbn [mbind option_bind] in He.
  rewrite entries_read in He by (done || lia). cbn [mbind option_bind] in He. by injection He as <-.
Qed.

Lemma entries_agree b b' lo hi off :
  block_ok b -> block_ok b' -> changed_in lo hi b b' -> (hi <= off <= 1024)%nat -> entries b' off = entries b off.
Proof.
  intros Hb Hb' Hc Ho.
  enough (forall fuel off, (hi <= off <= 1024)%nat -> read_dir_entries fuel b' off = read_dir_entries fuel b off) as H
    by (unfold entries; by rewrite H).
  clear off Ho. intros fuel.
  induction fuel as [|fuel IH]; intros off Ho; [done|]. cbn [read_dir_entries].
  rewrite (read_header_agree lo hi b b') by (done || lia).
  destruct (read_header_total b off Hb) as ([d|] & -> & Hd); cbn [mbind option_bind]; [|done].
  destruct Hd as (H8 & Hend & _). rewrite !here_read by done.
  rewrite (here_agree lo hi b b') by (done || (destruct Hb as [-> _]; unfold BLOCK_SIZE; lia) || lia).
  cbn [mbind option_bind]. by rewrite (IH (off + d_rec_len d)%nat) by lia.
Qed.

(** *** Writing one record *)

Definition name_ok (name : bytes) : Prop := (0 < length name <= 255)%nat /\ all_bytes name.

Lemma read_header_fields b off ino rl nl ft :
  (off + 8 <= 1024)%nat -> rle 4 b off = Some ino -> rle 2 b (off + 4) = Some rl ->
  b !! (off + 6)%nat = Some nl -> b !! (off + 7)%nat = Some ft ->
  (8 <= Z.to_nat rl)%nat -> (off + Z.to_nat rl <= 1024)%nat ->
  read_header b off = Some (Some (mkDirent ino (Z.to_nat rl) (Z.to_nat nl) ft)).
Proof.
  intros Ho H1 H2 H3 H4 H8 He. unfold read_header, ru32, ru16, BLOCK_SIZE.
  rewrite (proj2 (Nat.leb_le _ _)), H1, H2 by lia. cbn [mbind option_bind].
  rewrite (proj2 (Nat.ltb_ge _ _)), (proj2 (Nat.ltb_ge _ _)) by lia. cbn [orb]. by rewrite H3, H4.
Qed.

Lemma wbyte_lookup {A} (b : list A) i v r : wbyte b i v = Some r -> r !! i = Some v /\ (i < length b)%nat.
Proof. unfold wbyte. case_decide; [|done]. intros [= <-]. split; [by apply list_lookup_insert_eq|done]. Qed.

Lemma wbyte_changed b i v r : wbyte b i v = Some r -> changed_in i (i + 1) b r.
Proof. rewrite wbyte_wslice. apply wslice_changed. Qed.

Lemma write_dir_entry_spec b off inode rec_len ft name :
  block_ok b -> name_ok name -> in_width 32 inode -> in_width 16 rec_len -> is_byte ft ->
  (off + 8 + length name <= 1024)%nat ->
  exists b', write_dir_entry b off inode rec_len ft name = Some b' /\ block_ok b' /\
    changed_in off (off + 8 + length name) b b' /\
    take (length name) (drop (off + 8) b') = name /\
    ((8 <= Z.to_nat rec_len)%nat -> (off + Z.to_nat rec_len <= 1024)%nat ->
     read_header b' off = Some (Some (mkDirent inode (Z.to_nat rec_len) (length name) ft))).
Proof.
  intros [Hl Hb] [Hn Hnb] Hi Hr Hft Hend. unfold write_dir_entry, BLOCK_SIZE in *.
  destruct (wle_is_Some 4 b off inode ltac:(lia)) as [b1 H1]. pose proof (wle_changed _ _ _ _ _ H1) as C1.
  destruct (wle_is_Some 2 b1 (off + 4) rec_len ltac:(destruct C1; lia)) as [b2 H2]. pose proof (wle_changed _ _ _ _ _ H2) as C2.
  assert (length b2 = 1024%nat) as L2 by (destruct C1, C2; lia).
  destruct (wslice_is_Some b2 (off + 6) [u8 (Z.of_nat (length name))] ltac:(cbn; lia)) as [b3 H3].
  rewrite <- wbyte_wslice in H3. pose proof (wbyte_changed _ _ _ _ H3) as C3.
  destruct (wslice_is_Some b3 (off + 7) [ft] ltac:(destruct C3; cbn; lia)) as [b4 H4].
  rewrite <- wbyte_wslice in H4. pose proof (wbyte_changed _ _ _ _ H4) as C4.
  destruct (wslice_is_Some b4 (off + 8) name ltac:(destruct C3, C4; lia)) as [b5 H5].
  pose proof (wslice_changed _ _ _ _ H5) as C5.
  unfold wu32, wu16. rewrite H1. cbn [mbind option_bind]. rewrite H2. cbn [mbind option_bind].
  rewrite H3. cbn [mbind option_bind]. rewrite H4. cbn [mbind option_bind]. rewrite H5.
  exists b5. split; [done|].
  assert (all_bytes b5) as Hb5.
  { eapply wslice_all_bytes; [|exact Hnb|exact H5]. rewrite wbyte_wslice in H4.
    eapply wslice_all_bytes; [|by apply Forall_singleton|exact H4]. rewrite wbyte_wslice in H3.
    eapply wslice_all_bytes; [|apply Forall_singleton, (wrap_range 8); lia|exact H3].
    eapply wle_all_bytes, H2. by eapply wle_all_bytes, H1. }
  assert (changed_in off (off + 8 + length name) b b5) as C.
  { repeat (eapply changed_in_trans; [|eapply changed_in_weaken; [| |eassumption]; lia]).
    split; [done|]. done. }
  split_and!.
  - split; [|done]. destruct C. unfold BLOCK_SIZE. lia.
  - done.
  - pose proof (rslice_wslice_eq _ _ _ _ H5) as Hs. apply rslice_Some in Hs as [_ Hs]. by symmetry.
  - intros H8 He. replace (length name) with (Z.to_nat (u8 (Z.of_nat (length name)))) at 1
      by (rewrite wrap_small by (red; lia); lia).
    apply read_header_fields; [lia| | | | |done|done].
    + rewrite (rle_agree 4 _ _ _ _ _ C5), (rle_agree 4 _ _ _ _ _ C4), (rle_agree 4 _ _ _ _ _ C3), (rle_agree 4 _ _ _ _ _ C2) by lia.
      by eapply rle_wle_eq.
    + rewrite (rle_agree 2 _ _ _ _ _ C5), (rle_agree 2 _ _ _ _ _ C4), (rle_agree 2 _ _ _ _ _ C3) by lia.
      by eapply rle_wle_eq.
    + destruct C5 as [_ C5], C4 as [_ C4]. rewrite C5, C4 by lia. by apply wbyte_lookup in H3 as [? _].
    + destruct C5 as [_ C5]. rewrite C5 by lia. by apply wbyte_lookup in H4 as [? _].
Qed.

Lemma rec_size_bounds n : (8 + n <= rec_size n < 12 + n)%nat.
Proof. unfold rec_size. pose proof (Nat.div_mod_eq (8 + n + 3) 4). pose proof (Nat.mod_upper_bound (8 + n + 3) 4). lia. Qed.

Lemma new_entry_visible b off inode rl ft name :
  name_ok name -> 0 < inode -> (8 + length name <= rl)%nat -> take (length name) (drop (off + 8) b) = name ->
  here b off (mkDirent inode rl (length name) ft) = [(inode, ft, name)].
Proof.
  intros [Hn _] Hi Hr Ht. unfold here, visible. cbn [d_inode d_name_len d_rec_len d_type].
  rewrite (proj2 (Z.eqb_neq _ _)), (proj2 (Nat.ltb_lt _ _)), (proj2 (Nat.leb_le _ _)) by lia. cbn [negb andb]. by rewrite Ht.
Qed.

(** *** Adding an entry *)

Section adding.
Context (inode ft : Z) (name : bytes).
Context (Hname : name_ok name) (Hino : 0 < inode < 2 ^ 32) (Hft : is_byte ft).

Definition inserted (b b' : bytes) (off : nat) : Prop :=
  exists l r, entries b off = l ++ r /\ entries b' off = l ++ (inode, ft, name) :: r.

Lemma add_reuse b off d :
  block_ok b -> read_header b off = Some (Some d) -> (off + d_rec_len d <= 1024)%nat -> (8 <= d_rec_len d)%nat ->
  d_inode d = 0 -> (rec_size (length name) <= d_rec_len d)%nat ->
  exists b', write_dir_entry b off inode (u16 (Z.of_nat (d_rec_len d))) ft name = Some b' /\
    block_ok b' /\ changed_in off (off + d_rec_len d) b b' /\ inserted b b' off.
Proof using Hname Hino Hft.
  intros Hb Hh He H8 Hi0 Hneed. pose proof (rec_size_bounds (length name)) as Hrs.
  rewrite wrap_small by (red; lia).
  destruct (write_dir_entry_spec b off inode (Z.of_nat (d_rec_len d)) ft name) as (b' & -> & Hb' & Hc & Ht & Hh');
    try done; [split; lia|red; lia|lia|].
  exists b'. split; [done|]. split; [done|]. rewrite Nat2Z.id in Hh'.
  assert (changed_in off (off + d_rec_len d) b b') as Hc' by (eapply changed_in_weaken; [| |exact Hc]; lia).
  split; [done|]. exists [], (entries b (off + d_rec_len d)). split; cbn [app].
  - rewrite entries_unfold by (done || lia). rewrite Hh. unfold here, visible. by rewrite Hi0.
  - rewrite entries_unfold by (done || lia). rewrite Hh' by lia. cbn [d_rec_len].
    rewrite new_entry_visible by (done || lia). cbn [app].
    by rewrite (entries_agree b b' off (off + d_rec_len d)) by (done || lia).
Qed.

Lemma add_split b off d :
  block_ok b -> read_header b off = Some (Some d) -> (off + d_rec_len d <= 1024)%nat ->
  (d_name_len d <= 255)%nat -> d_inode d <> 0 -> (rec_size (d_name_len d) + rec_size (length name) <= d_rec_len d)%nat ->
  exists b1 b', wu16 b (off + 4) (u16 (Z.of_nat (rec_size (d_name_len d)))) = Some b1 /\
    write_dir_entry b1 (off + rec_size (d_name_len d)) inode
      (u16 (Z.of_nat (d_rec_len d - rec_size (d_name_len d)))) ft name = Some b' /\
    block_ok b' /\ changed_in off (off + d_rec_len d) b b' /\ inserted b b' off.
Proof using Hname Hino Hft.
  intros Hb Hh He Hnl Hi0 Hneed. pose proof (rec_size_bounds (length name)) as Hrs.
  pose proof (rec_size_bounds (d_name_len d)) as Hrd. set (a := rec_size (d_name_len d)) in *. clearbody a.
  rewrite !wrap_small by (red; lia).
  destruct Hb as [Hl Hby]. unfold BLOCK_SIZE in Hl.
  destruct (wle_is_Some 2 b (off + 4) (Z.of_nat a) ltac:(lia)) as [b1 H1]. pose proof (wle_changed _ _ _ _ _ H1) as C1.
  assert (block_ok b1) as Hb1 by (split; [destruct C1; unfold BLOCK_SIZE; lia|by eapply wle_all_bytes, H1]).
  destruct (write_dir_entry_spec b1 (off + a) inode (Z.of_nat (d_rec_len d - a)) ft name) as (b' & H2 & Hb' & C2 & Ht & Hh');
    try done; [split; lia|red; lia|lia|].
  rewrite Nat2Z.id in Hh'. exists b1, b'. split; [done|]. split; [done|]. split; [done|].
  assert (block_ok b) as Hb by done.
  assert (changed_in off (off + d_rec_len d) b b') as Hc.
  { eapply changed_in_trans; (eapply changed_in_weaken; [| |eassumption]; lia). }
  split; [done|].
  (* the shortened record still shows what it showed *)
  assert (read_header b' off = Some (Some (mkDirent (d_inode d) a (d_name_len d) (d_type d)))) as Hh2.
  { rewrite (read_header_agree _ _ _ _ _ C2) by lia. unfold read_header, ru32, ru16, BLOCK_SIZE in Hh.
    destruct (Nat.leb_spec (off + 8) 1024); [|done].
    destruct (rle 4 b off) as [ino|] eqn:Hr4; cbn [mbind option_bind] in Hh; [|done].
    destruct (rle 2 b (off + 4)) as [rl|] eqn:Hr2; cbn [mbind option_bind] in Hh; [|done].
    destruct (_ || _); [done|]. destruct (b !! (off + 6)%nat) as [nl|] eqn:H6; cbn [mbind option_bind] in Hh; [|done].
    destruct (b !! (off + 7)%nat) as [ty|] eqn:H7; cbn [mbind option_bind] in Hh; [|done]. injection Hh as <-.
    cbn [d_inode d_name_len d_type d_rec_len] in *. rewrite <- (Nat2Z.id a) at 1. apply read_header_fields; [lia| | | | |lia|lia].
    - by rewrite (rle_agree 4 _ _ _ _ _ C1) by lia.
    - eapply rle_wle_eq; [exact H1|]. red. lia.
    - destruct C1 as [_ C1]. by rewrite C1 by lia.
    - destruct C1 as [_ C1]. by rewrite C1 by lia. }
  exists (here b off d), (entries b (off + d_rec_len d)). split.
  - rewrite entries_unfold by (done || lia). by rewrite Hh.
  - rewrite entries_unfold by (done || lia). rewrite Hh2. cbn [d_rec_len]. apply (f_equal2 app).
    + unfold here, visible. cbn [d_inode d_name_len d_rec_len d_type].
      rewrite !(proj2 (Nat.leb_le (8 + d_name_len d) _)) by lia. destruct (_ && _); [|done]. do 2 f_equal.
      assert (rslice b' (off + 8) (d_name_len d) = rslice b (off + 8) (d_name_len d)) as Hs.
      { rewrite (rslice_agree _ _ _ _ C2), (rslice_agree _ _ _ _ C1) by lia. done. }
      unfold rslice in Hs. destruct Hb' as [Hl' _]. unfold BLOCK_SIZE in Hl'. rewrite !decide_True in Hs by lia.
      by injection Hs.
    + rewrite entries_unfold by (done || lia). rewrite Hh' by lia. cbn [d_rec_len].
      rewrite new_entry_visible by (done || lia). cbn [app].
      replace (off + a + (d_rec_len d - a))%nat with (off + d_rec_len d)%nat by lia.
      by rewrite (entries_agree b b' off (off + d_rec_len d)) by (done || lia).
Qed.

Lemma inserted_skip b b' off d :
  block_ok b -> block_ok b' -> read_header b off = Some (Some d) -> (8 <= d_rec_len d)%nat ->
  (off + d_rec_len d <= 1024)%nat -> changed_in (off + d_rec_len d) 1024 b b' ->
  inserted b b' (off + d_rec_len d) -> inserted b b' off.
Proof using Type.
  intros Hb Hb' Hh H8 He Hc (l & rr & E1 & E2). exists (here b off d ++ l), rr.
  rewrite !(entries_unfold _ off), (read_header_agree _ _ _ _ _ Hc), Hh, E1, E2 by (done || lia).
  rewrite (here_agree _ _ _ _ _ _ Hc) by (lia || (destruct Hb as [-> _]; unfold BLOCK_SIZE; lia)).
  by rewrite <- !app_assoc.
Qed.

Lemma add_dir_loop_spec fuel b off :
  block_ok b -> fuel_ok fuel off ->
  exists b' r, add_dir_loop fuel b off inode ft name = Some (b', r) /\ block_ok b' /\
    changed_in off 1024 b b' /\ (r = false -> b' = b) /\ (r = true -> inserted b b' off).
Proof using Hname Hino Hft.
  intros Hb. revert off. induction fuel as [|fuel IH]; intros off [Ho Hf]; [lia|]. cbn [add_dir_loop].
  destruct (read_header_total b off Hb) as ([d|] & Hh & Hd); rewrite Hh; cbn [mbind option_bind].
  2:{ exists b, false. split_and!; done || by split. }
  destruct Hd as (H8 & Hend & Hnl & Hin).
  destruct (Z.eqb_spec (d_inode d) 0) as [Hi0|Hi0]; cbn [andb negb].
  - destruct (Nat.leb_spec (rec_size (length name)) (d_rec_len d)) as [Hfit|Hno].
    + destruct (add_reuse b off d) as (b' & -> & Hb' & Hc & Hins); try done. cbn [mbind option_bind].
      exists b', true. split_and!; try done. eapply changed_in_weaken; [| |exact Hc]; lia.
    + destruct (IH (off + d_rec_len d)%nat) as (b' & r & -> & Hb' & Hc & Hfa & Htr); [split; lia|].
      exists b', r. split_and!; try done; [eapply changed_in_weaken; [| |exact Hc]; lia|].
      intros Hr. by apply (inserted_skip b b' off d); [..|apply Htr].
  - destruct (Nat.leb_spec (rec_size (d_name_len d) + rec_size (length name)) (d_rec_len d)) as [Hfit|Hno].
    + destruct (add_split b off d) as (b1 & b' & -> & H2 & Hb' & Hc & Hins); try done. cbn [mbind option_bind].
      rewrite H2. cbn [mbind option_bind].
      exists b', true. split_and!; try done. eapply changed_in_weaken; [| |exact Hc]; lia.
    + destruct (IH (off + d_rec_len d)%nat) as (b' & r & -> & Hb' & Hc & Hfa & Htr); [split; lia|].
      exists b', r. split_and!; try done; [eapply changed_in_weaken; [| |exact Hc]; lia|].
      intros Hr. by apply (inserted_skip b b' off d); [..|apply Htr].
Qed.
End adding.

(** Adding a directory entry.  On any 1024-byte block, whatever its contents,
    [add_dir_entry] returns; when it answers false the block is unchanged, and when
    it answers true the directory lists exactly what it did plus the new entry, so
    that looking the name up finds it unless an earlier entry has the same
    name. *)
Theorem add_dir_entry_exact b inode ft name :
  block_ok b -> name_ok name -> 0 < inode < 2 ^ 32 -> is_byte ft ->
  exists b' r es, add_dir_entry b inode ft name = Some (b', r) /\ block_ok b' /\
    read_dir_entries DIR_FUEL b 0 = Some es /\
    (r = false -> b' = b) /\
    (r = true -> exists l r', es = l ++ r' /\
       read_dir_entries DIR_FUEL b' 0 = Some (l ++ (inode, ft, name) :: r') /\
       (find_dir_entry b name = Some None -> find_dir_entry b' name = Some (Some (inode, ft)))).
Proof.
  intros Hb Hn Hi Hf. destruct (add_dir_loop_spec inode ft name Hn Hi Hf DIR_FUEL b 0 Hb) as (b' & r & He & Hb' & _ & Hfa & Htr);
    [apply dir_fuel_ok; lia|]. exists b', r, (entries b 0). split_and!; try done; [by apply entries_read; [|lia]|].
  intros Hr. destruct (Htr Hr) as (l & r' & E1 & E2). exists l, r'. split; [done|].
  split; [by rewrite entries_read, E2 by (done || lia)|]. unfold find_dir_entry.
  rewrite !entries_read by (done || lia). cbn [mbind option_bind]. rewrite E1, E2. unfold find_in. intros [= Hnone].
  destruct (filter (fun e : Z * Z * bytes => e.2 = name) (l ++ r')) eqn:Hfil; [|done].
  rewrite filter_app in Hfil. apply app_eq_nil in Hfil as [Hl Hr'].
  rewrite filter_app, Hl. cbn [app]. by rewrite filter_cons_True.
Qed.

(** *** Removing an entry *)

Definition dirent_wf (d : dirent) : Prop :=
  d_inode d <> 0 -> (0 < d_name_len d)%nat -> (8 + d_name_len d <= d_rec_len d)%nat.

(** Every record a walk from [off] meets keeps its name inside itself. *)
Fixpoint dir_wf (fuel : nat) (b : bytes) (off : nat) : Prop :=
  match fuel with
  | O => True
  | S fuel' => match read_header b off with
               | Some (Some d) => dirent_wf d /\ dir_wf fuel' b (off + d_rec_len d)
               | _ => True
               end
  end.

Section removing.
Context (b : bytes) (target : bytes) (Hb : block_ok b).

(** The result of removing the first entry called [target] from those at
    [off]. *)
Definition removed (b' : bytes) (r : option Z) (off start : nat) (pre : list (Z * Z * bytes)) : Prop :=
  match r with
  | None => b' = b /\ forall e, e ∈ entries b off -> e.2 <> target
  | Some ino => exists l ty rr, entries b off = l ++ (ino, ty, target) :: rr /\
      (forall e, e ∈ l -> e.2 <> target) /\ entries b' start = pre ++ l ++ rr
  end.

Lemma visible_here off d : visible d = true -> (off + d_rec_len d <= 1024)%nat ->
  rslice b (off + 8) (d_name_len d) = Some (take (d_name_len d) (drop (off + 8) b)).
Proof using Hb.
  intros Hv He. unfold visible in Hv. apply andb_true_iff in Hv as [_ Hv%Nat.leb_le].
  unfold rslice. rewrite decide_True; [done|]. destruct Hb as [-> _]. unfold BLOCK_SIZE. lia.
Qed.

(** Lengthening a record so that it swallows the next one. *)
Lemma merge_spec p dp d :
  read_header b p = Some (Some dp) -> dirent_wf dp -> (8 <= d_rec_len dp)%nat -> (8 <= d_rec_len d)%nat ->
  (p + d_rec_len dp + d_rec_len d <= 1024)%nat ->
  exists prev b', ru16 b (p + 4) = Some prev /\ wu16 b (p + 4) (u16 (prev + Z.of_nat (d_rec_len d))) = Some b' /\
    block_ok b' /\ changed_in p (p + 8) b b' /\
    entries b' p = here b p dp ++ entries b (p + d_rec_len dp + d_rec_len d).
Proof using Hb.
  intros Hh Hwf H8 H8' He. pose proof Hb as [Hl Hby]. unfold BLOCK_SIZE in Hl.
  unfold read_header, ru32, ru16, BLOCK_SIZE in Hh. destruct (Nat.leb_spec (p + 8) 1024); [|done].
  destruct (rle 4 b p) as [ino|] eqn:Hr4; cbn [mbind option_bind] in Hh; [|done].
  destruct (rle 2 b (p + 4)) as [rl|] eqn:Hr2; cbn [mbind option_bind] in Hh; [|done].
  destruct (_ || _); [done|]. destruct (b !! (p + 6)%nat) as [nl|] eqn:H6; cbn [mbind option_bind] in Hh; [|done].
  destruct (b !! (p + 7)%nat) as [ty|] eqn:H7; cbn [mbind option_bind] in Hh; [|done]. injection Hh as <-.
  cbn [d_inode d_name_len d_type d_rec_len] in *.
  pose proof (rle_range 2 b (p + 4) rl Hby Hr2) as [Hrl0 _].
  destruct (wle_is_Some 2 b (p + 4) (rl + Z.of_nat (d_rec_len d)) ltac:(lia)) as [b' H1].
  pose proof (wle_changed _ _ _ _ _ H1) as C1. exists rl, b'. split; [done|].
  assert (in_width 16 (rl + Z.of_nat (d_rec_len d))) as Hw by (red; lia).
  rewrite wrap_small by done. split; [done|].
  assert (block_ok b') as Hb' by (split; [destruct C1; unfold BLOCK_SIZE; lia|by eapply wle_all_bytes, H1]).
  split; [done|]. split; [eapply changed_in_weaken; [| |exact C1]; lia|].
  rewrite entries_unfold by (done || lia).
  rewrite (read_header_fields b' p ino (rl + Z.of_nat (d_rec_len d)) nl ty); [|lia| | | | |lia|lia].
  - cbn [d_rec_len]. replace (Z.to_nat (rl + Z.of_nat (d_rec_len d))) with (Z.to_nat rl + d_rec_len d)%nat by lia.
    rewrite Nat.add_assoc, (entries_agree b b' (p + 4) (p + 4 + 2)) by (done || lia). f_equal.
    unfold here, visible. cbn [d_inode d_name_len d_rec_len d_type].
    destruct (Z.eqb_spec ino 0); cbn [negb andb]; [done|]. destruct (Nat.ltb_spec 0 (Z.to_nat nl)); cbn [andb]; [|done].
    pose proof (Hwf ltac:(done) ltac:(done)) as Hfit. cbn [d_name_len d_rec_len] in Hfit.
    rewrite !(proj2 (Nat.leb_le _ _)) by lia. do 2 f_equal.
    assert (rslice b' (p + 8) (Z.to_nat nl) = rslice b (p + 8) (Z.to_nat nl)) as Hs by (eapply rslice_agree; [exact C1|lia]).
    unfold rslice in Hs. destruct Hb' as [Hl' _]. unfold BLOCK_SIZE in Hl'. rewrite !decide_True in Hs by lia. by injection Hs.
  - by rewrite (rle_agree 4 _ _ _ _ _ C1) by lia.
  - by eapply rle_wle_eq.
  - destruct C1 as [_ C1]. by rewrite C1 by lia.
  - destruct C1 as [_ C1]. by rewrite C1 by lia.
Qed.
(** Marking the first record of the block unused. *)
Lemma clear_spec off d :
  read_header b off = Some (Some d) -> (8 <= d_rec_len d)%nat -> (off + d_rec_len d <= 1024)%nat ->
  exists b', wu32 b off 0 = Some b' /\ block_ok b' /\ changed_in off (off + 8) b b' /\
    entries b' off = entries b (off + d_rec_len d).
Proof using Hb.
  intros Hh H8 He. pose proof Hb as [Hl Hby]. unfold BLOCK_SIZE in Hl.
  destruct (wle_is_Some 4 b off 0 ltac:(lia)) as [b' H1]. pose proof (wle_changed _ _ _ _ _ H1) as C1.
  exists b'. split; [done|].
  assert (block_ok b') as Hb' by (split; [destruct C1; unfold BLOCK_SIZE; lia|by eapply wle_all_bytes, H1]).
  split; [done|]. split; [eapply changed_in_weaken; [| |exact C1]; lia|].
  unfold read_header, ru32, ru16, BLOCK_SIZE in Hh. destruct (Nat.leb_spec (off + 8) 1024); [|done].
  destruct (rle 4 b off) as [ino|] eqn:Hr4; cbn [mbind option_bind] in Hh; [|done].
  destruct (rle 2 b (off + 4)) as [rl|] eqn:Hr2; cbn [mbind option_bind] in Hh; [|done].
  destruct (_ || _); [done|]. destruct (b !! (off + 6)%nat) as [nl|] eqn:H6; cbn [mbind option_bind] in Hh; [|done].
  destruct (b !! (off + 7)%nat) as [ty|] eqn:H7; cbn [mbind option_bind] in Hh; [|done]. injection Hh as <-.
  cbn [d_inode d_name_len d_type d_rec_len] in *. rewrite entries_unfold by (done || lia).
  rewrite (read_header_fields b' off 0 rl nl ty); [|lia| | | | |lia|lia].
  - cbn [d_rec_len]. unfold here, visible. cbn [d_inode Z.eqb negb andb app].
    by apply (entries_agree b b' off (off + 4)); [..|lia].
  - eapply rle_wle_eq; [exact H1|]. red. lia.
  - by rewrite (rle_agree 2 _ _ _ _ _ C1) by lia.
  - destruct C1 as [_ C1]. by rewrite C1 by lia.
  - destruct C1 as [_ C1]. by rewrite C1 by lia.
Qed.

(** The record before [off], if the walk has passed one. *)
Definition prev_ok (prev : option nat) (off : nat) (start : nat) (pre : list (Z * Z * bytes)) : Prop :=
  match prev with
  | None => start = off /\ pre = []
  | Some p => start = p /\ exists dp, read_header b p = Some (Some dp) /\ dirent_wf dp /\ (8 <= d_rec_len dp)%nat /\
      off = (p + d_rec_len dp)%nat /\ pre = here b p dp
  end.

Lemma remove_dir_loop_spec fuel prev off start pre :
  fuel_ok fuel off -> dir_wf fuel b off -> prev_ok prev off start pre ->
  exists b' r, remove_dir_loop fuel b prev off target = Some (b', r) /\ block_ok b' /\
    changed_in start 1024 b b' /\ removed b' r off start pre.
Proof using Hb.
  revert prev off start pre. induction fuel as [|fuel IH]; intros prev off start pre [Ho Hf] Hwf Hprev; [lia|].
  cbn [remove_dir_loop dir_wf] in *.
  assert (start <= off)%nat as Hso by (destruct prev; [destruct Hprev as [-> (dp & _ & _ & _ & -> & _)]; lia|destruct Hprev as [-> _]; lia]).
  destruct (read_header_total b off Hb) as ([d|] & Hh & Hd); rewrite Hh in Hwf |- *; cbn [mbind option_bind].
  2:{ exists b, None. split_and!; [done|done|by split|]. split; [done|].
      rewrite entries_unfold by done. rewrite Hh. set_solver. }
  destruct Hd as (H8 & Hend & Hnl & _). destruct Hwf as [Hwfd Hwf].
  assert (entries b off = here b off d ++ entries b (off + d_rec_len d)) as Heo
    by (rewrite entries_unfold by done; by rewrite Hh).
  set (hit := if visible d then _ else _).
  assert (hit = Some (bool_decide (here b off d = [(d_inode d, d_type d, target)] /\ visible d = true))) as ->.
  { unfold hit, here. destruct (visible d) eqn:Hv.
    - rewrite (visible_here off d Hv Hend). cbn [mbind option_bind]. f_equal. apply bool_decide_ext.
      split; [by intros ->|intros [He _]; by injection He].
    - rewrite bool_decide_false; [done|by intros [_ ?]]. }
  cbn [mbind option_bind]. case_bool_decide as Hhit.
  - destruct Hhit as [Hhere _]. rewrite Hhere in Heo. destruct prev as [p|].
    + destruct Hprev as [-> (dp & Hhp & Hwp & H8p & -> & ->)].
      destruct (merge_spec p dp d Hhp Hwp H8p H8 Hend) as (pr & b' & -> & Hw & Hb' & Hc & Hen). cbn [mbind option_bind].
      rewrite Hw. cbn [mbind option_bind]. exists b', (Some (d_inode d)). split_and!; [done|done| |].
      * eapply changed_in_weaken; [| |exact Hc]; lia.
      * exists [], (d_type d), (entries b (p + d_rec_len dp + d_rec_len d)). split_and!; [done|set_solver|done].
    + destruct Hprev as [-> ->]. destruct (clear_spec off d Hh H8 Hend) as (b' & -> & Hb' & Hc & Hen).
      cbn [mbind option_bind]. exists b', (Some (d_inode d)). split_and!; [done|done| |].
      * eapply changed_in_weaken; [| |exact Hc]; lia.
      * exists [], (d_type d), (entries b (off + d_rec_len d)). split_and!; [done|set_solver|done].
  - destruct (IH (Some off) (off + d_rec_len d)%nat off (here b off d)) as (b' & r & -> & Hb' & Hc & Hrem);
      [split; lia|done|split; [done|]; by exists d|].
    assert (forall e, e ∈ here b off d -> e.2 <> target) as Hmiss.
    { intros e He Ht. apply Hhit. unfold here in *. destruct (visible d); [|set_solver].
      apply list_elem_of_singleton in He as ->. cbn in Ht. by rewrite Ht. }
    exists b', r. split_and!; [done|done|eapply changed_in_weaken; [| |exact Hc]; lia|].
    destruct r as [ino|]; cbn [removed] in *.
    + destruct Hrem as (l & ty & rr & E1 & Hl & E2). exists (here b off d ++ l), ty, rr. split_and!.
      * by rewrite Heo, E1, app_assoc.
      * intros e [He|He]%elem_of_app; auto.
      * destruct prev as [p|]; [|by destruct Hprev as [-> ->]; rewrite E2, <- app_assoc].
        destruct Hprev as [-> (dp & Hhp & Hwp & H8p & Hoff & ->)].
        rewrite entries_unfold by (done || lia). rewrite (read_header_agree _ _ _ _ _ Hc) by lia.
        rewrite Hhp, <- Hoff, E2. rewrite (here_agree _ _ _ _ _ _ Hc) by (lia || (destruct Hb as [-> _]; unfold BLOCK_SIZE; lia)).
        by rewrite <- app_assoc.
    + destruct Hrem as [-> Hnone]. split; [done|]. rewrite Heo. intros e [He|He]%elem_of_app; auto.
Qed.
End removing.

(** Removing a directory entry.  On a block whose records keep their names
    inside themselves, [remove_dir_entry] returns; it answers the inode of the
    first entry with that name and the directory then lists exactly the other
    entries, in order; when no entry has the name it answers [None] and changes
    nothing. *)
Theorem remove_dir_entry_exact b target :
  block_ok b -> dir_wf DIR_FUEL b 0 ->
  exists b' r es, remove_dir_entry b target = Some (b', r) /\ block_ok b' /\
    read_dir_entries DIR_FUEL b 0 = Some es /\
    match r with
    | None => b' = b /\ find_in es target = None
    | Some ino => exists l ty rr, es = l ++ (ino, ty, target) :: rr /\
        (forall e, e ∈ l -> e.2 <> target) /\ read_dir_entries DIR_FUEL b' 0 = Some (l ++ rr)
    end.
Proof.
  intros Hb Hwf. destruct (remove_dir_loop_spec b target Hb DIR_FUEL None 0 0 []) as (b' & r & He & Hb' & _ & Hrem);
    [by apply dir_fuel_ok; lia|done|done|].
  exists b', r, (entries b 0). split_and!; [done|done|by apply entries_read; [|lia]|]. destruct r as [ino|].
  - destruct Hrem as (l & ty & rr & E1 & Hl & E2). exists l, ty, rr. split_and!; [done|done|].
    by rewrite entries_read, E2 by (done || lia).
  - destruct Hrem as [-> Hnone]. split; [done|]. unfold find_in.
    destruct (filter _ (entries b 0)) as [|e es] eqn:Hf; [done|]. exfalso.
    assert (e ∈ filter (fun e : Z * Z * bytes => e.2 = target) (entries b 0)) as Hin by (rewrite Hf; apply list_elem_of_here).
    apply list_elem_of_filter in Hin as [Ht Hin]. by apply (Hnone e).
Qed.

(** ** Inode entries *)

Lemma write_pointers_spec base l k b :
  (base + (k + length l) * 4 <= length b)%nat -> Forall (in_width 32) l ->
  exists b', foldM (fun b ib => wu32 b (base + ib.1 * 4)%nat ib.2) b (imap (fun i x => ((k + i)%nat, x)) l) = Some b' /\
    changed_in (base + k * 4) (base + (k + length l) * 4) b b' /\ (all_bytes b -> all_bytes b') /\
    forall i x, l !! i = Some x -> ru32 b' (base + (k + i) * 4) = Some x.
Proof.
  revert k b. induction l as [|x l IH]; intros k b Hlen Hw; [exists b; by split_and!|].
  apply Forall_cons in Hw as [Hx Hw]. cbn [length] in Hlen. rewrite imap_cons. cbn [foldM fst snd]. rewrite Nat.add_0_r.
  destruct (wle_is_Some 4 b (base + k * 4) x ltac:(lia)) as [b1 H1]. pose proof (wle_changed _ _ _ _ _ H1) as C1.
  change (wu32 b (base + k * 4) x) with (wle 4 b (base + k * 4) x). rewrite H1. cbn [mbind option_bind].
  destruct (IH (S k) b1) as (b' & Hf & C2 & Hby & Hr); [destruct C1; lia|done|].
  exists b'. split_and!.
  - rewrite <- Hf. f_equal. apply imap_ext. intros i y _. cbn. by rewrite Nat.add_succ_r.
  - cbn [length]. eapply changed_in_trans; eapply changed_in_weaken; [| |exact C1| | |exact C2]; lia.
  - intros Hb. apply Hby. by eapply wle_all_bytes, H1.
  - intros [|i] y Hi.
    + injection Hi as <-. unfold ru32. rewrite (rle_agree 4 _ _ _ _ _ C2) by lia.
      rewrite Nat.add_0_r. by eapply rle_wle_eq, Hx.
    + rewrite <- Nat.add_succ_comm. by apply Hr.
Qed.

Lemma zero_field n m b off b' o :
  wslice b off (replicate m 0) = Some b' -> (off <= o)%nat -> (o + n <= off + m)%nat -> rle n b' o = Some 0.
Proof.
  intros Hw Ho Hn. pose proof (wslice_is_Some b off (replicate m 0)) as _.
  assert (off + m <= length b)%nat as Hl by (apply wslice_Some in Hw as [Hl _]; by rewrite length_replicate in Hl).
  assert (rslice b' o n = Some (replicate n 0)) as Hr.
  { unfold rslice. rewrite (length_wslice _ _ _ _ Hw). rewrite decide_True by lia. f_equal.
    apply list_eq. intros i. destruct (decide (i < n)%nat) as [Hi|Hi].
    - rewrite lookup_take_lt, lookup_drop, (lookup_wslice _ _ _ _ _ Hw), length_replicate by done.
      rewrite decide_True by lia. rewrite !lookup_replicate_2 by lia. done.
    - rewrite lookup_take_ge by lia. symmetry. apply lookup_replicate_None. lia. }
  unfold rle. rewrite Hr. cbn [fmap option_fmap option_map]. f_equal.
  clear. induction n as [|n IH]; [done|]. cbn [replicate le_val]. by rewrite IH.
Qed.

(** All fields of an entry after [write_inode_at]. *)
Lemma write_inode_at_spec b off mode size links nb blocks :
  block_ok b -> (off + 128 <= 1024)%nat -> in_width 16 mode -> in_width 32 size -> in_width 16 links ->
  in_width 32 (Z.of_nat nb * 2) -> Forall (in_width 32) blocks ->
  exists b', write_inode_at b off mode size links nb blocks = Some b' /\ block_ok b' /\
    changed_in off (off + 128) b b' /\
    ru16 b' (off + 0x00) = Some mode /\ ru32 b' (off + 0x04) = Some size /\
    ru16 b' (off + 0x1A) = Some links /\ ru32 b' (off + 0x1C) = Some (Z.of_nat nb * 2) /\
    forall i, (i < 12)%nat -> ru32 b' (off + 0x28 + i * 4) = Some (default 0 (take 12 blocks !! i)).
Proof.
  intros [Hl Hby] Ho Hm Hs Hlk Hn Hbl. unfold BLOCK_SIZE in Hl.
  destruct (wslice_is_Some b off (replicate 128 0)) as [b0 H0]; [rewrite length_replicate; lia|].
  pose proof (wslice_changed _ _ _ _ H0) as C0. rewrite length_replicate in C0. pose proof C0 as [L0 _].
  destruct (wle_is_Some 2 b0 (off + 0) mode ltac:(lia)) as [b1 H1]. pose proof (wle_changed _ _ _ _ _ H1) as C1. pose proof C1 as [L1 _].
  destruct (wle_is_Some 4 b1 (off + 4) size ltac:(lia)) as [b2 H2]. pose proof (wle_changed _ _ _ _ _ H2) as C2. pose proof C2 as [L2 _].
  destruct (wle_is_Some 2 b2 (off + 0x1A) links ltac:(lia)) as [b3 H3]. pose proof (wle_changed _ _ _ _ _ H3) as C3. pose proof C3 as [L3 _].
  destruct (wle_is_Some 4 b3 (off + 0x1C) (Z.of_nat nb * 2) ltac:(lia)) as [b4 H4]. pose proof (wle_changed _ _ _ _ _ H4) as C4. pose proof C4 as [L4 _].
  assert (length (take 12 blocks) <= 12)%nat as Hl12 by (rewrite length_take; lia).
  destruct (write_pointers_spec (off + 0x28) (take 12 blocks) 0 b4) as (b5 & H5 & C5 & By5 & R5); [lia|by apply Forall_take|].
  pose proof C5 as [L5 _]. rewrite Nat.add_0_r, Nat.add_0_l in C5.
  exists b5. split_and!.
  - unfold write_inode_at. rewrite H0. cbn [mbind option_bind]. unfold wu16, wu32. rewrite H1. cbn [mbind option_bind].
    rewrite H2. cbn [mbind option_bind]. rewrite H3. cbn [mbind option_bind].
    assert (u32 (Z.of_nat (nb * BLOCK_SIZE / 512)) = Z.of_nat nb * 2) as ->.
    { unfold BLOCK_SIZE. replace (nb * 1024)%nat with (nb * 2 * 512)%nat by lia. rewrite Nat.div_mul by lia.
      rewrite Nat2Z.inj_mul. by apply wrap_small. }
    rewrite H4. cbn [mbind option_bind]. exact H5.
  - split; [unfold BLOCK_SIZE; lia|]. apply By5.
    eapply wle_all_bytes, H4. eapply wle_all_bytes, H3. eapply wle_all_bytes, H2. eapply wle_all_bytes, H1.
    eapply wslice_all_bytes, H0; [done|]. apply Forall_replicate. red. lia.
  - assert (forall b b' lo hi, changed_in lo hi b b' -> (off <= lo)%nat -> (hi <= off + 128)%nat -> changed_in off (off + 128) b b') as Hweak
      by (intros; eapply changed_in_weaken; eauto).
    eapply changed_in_trans; [eapply Hweak; [exact C0|lia..]|].
    eapply changed_in_trans; [eapply Hweak; [exact C1|lia..]|].
    eapply changed_in_trans; [eapply Hweak; [exact C2|lia..]|].
    eapply changed_in_trans; [eapply Hweak; [exact C3|lia..]|].
    eapply changed_in_trans; [eapply Hweak; [exact C4|lia..]|]. eapply Hweak; [exact C5|lia..].
  - unfold ru16. rewrite (rle_agree 2 _ _ _ _ _ C5), (rle_agree 2 _ _ _ _ _ C4), (rle_agree 2 _ _ _ _ _ C3), (rle_agree 2 _ _ _ _ _ C2) by lia.
    by eapply rle_wle_eq, Hm.
  - unfold ru32. rewrite (rle_agree 4 _ _ _ _ _ C5), (rle_agree 4 _ _ _ _ _ C4), (rle_agree 4 _ _ _ _ _ C3) by lia.
    by eapply rle_wle_eq, Hs.
  - unfold ru16. rewrite (rle_agree 2 _ _ _ _ _ C5), (rle_agree 2 _ _ _ _ _ C4) by lia. by eapply rle_wle_eq, Hlk.
  - unfold ru32. rewrite (rle_agree 4 _ _ _ _ _ C5) by lia. by eapply rle_wle_eq, Hn.
  - intros i Hi. destruct (take 12 blocks !! i) as [x|] eqn:Hx; cbn [default]; [by apply R5|].
    apply lookup_ge_None in Hx. unfold ru32.
    rewrite (rle_agree 4 _ _ _ _ _ C5), (rle_agree 4 _ _ _ _ _ C4), (rle_agree 4 _ _ _ _ _ C3), (rle_agree 4 _ _ _ _ _ C2),
      (rle_agree 4 _ _ _ _ _ C1) by lia.
    eapply zero_field; [exact H0|lia|lia].
Qed.

Definition slot (inode : Z) : Z := (inode - 1) mod 8.

Lemma inode_offset inode : 1 <= inode < 2 ^ 32 ->
  (inode_block_and_offset inode).2 = (Z.to_nat (slot inode) * 128)%nat /\ 0 <= slot inode < 8.
Proof.
  intros Hi. unfold inode_block_and_offset, slot, INODES_PER_BLOCK. cbn [snd].
  rewrite (wrap_small 32 (inode - 1)) by (red; lia). split; [done|]. apply Z.mod_pos_bound. lia.
Qed.

Lemma read_inode_agree b b' lo hi inode :
  1 <= inode < 2 ^ 32 -> changed_in lo hi b b' ->
  (Z.to_nat (slot inode) * 128 + 128 <= lo \/ hi <= Z.to_nat (slot inode) * 128)%nat ->
  read_inode_entry b' inode = read_inode_entry b inode.
Proof.
  intros Hi Hc Hd. destruct (inode_offset inode Hi) as [Ho _]. unfold read_inode_entry. rewrite Ho.
  unfold ru16, ru32. rewrite !(rle_agree _ _ _ _ _ _ Hc) by lia.
  assert (forall l, Forall (fun i => i < 12)%nat l ->
    mapM (fun i => rle 4 b' (Z.to_nat (slot inode) * 128 + 0x28 + i * 4)) l =
    mapM (fun i => rle 4 b (Z.to_nat (slot inode) * 128 + 0x28 + i * 4)) l) as Hm.
  { induction 1 as [|i l Hlt _ IH]; [done|]. cbn [mapM]. by rewrite IH, (rle_agree 4 _ _ _ _ _ Hc) by lia. }
  rewrite Hm; [done|]. apply Forall_forall. intros i Hin%elem_of_seq. lia.
Qed.

(** Writing an inode and reading it back.  For any inode number and up to
    twelve block pointers, [write_inode_entry_full] succeeds on an inode-table
    block, [read_inode_entry] then returns exactly the fields written, with unused
    pointers zero, and every other entry of the block reads as before. *)
Theorem inode_roundtrip b inode mode size links blocks :
  block_ok b -> 1 <= inode < 2 ^ 32 -> in_width 16 mode -> in_width 32 size -> in_width 16 links ->
  (length blocks <= 12)%nat -> Forall (in_width 32) blocks ->
  exists b', write_inode_entry_full b inode mode size links blocks = Some b' /\ block_ok b' /\
    read_inode_entry b' inode =
      Some (mkInode mode size links (Z.of_nat (length blocks)) (blocks ++ replicate (12 - length blocks) 0)) /\
    forall other, 1 <= other < 2 ^ 32 -> slot other <> slot inode ->
      read_inode_entry b' other = read_inode_entry b other.
Proof.
  intros Hb Hi Hm Hs Hl H12 Hbl. destruct (inode_offset inode Hi) as [Ho Hsl].
  destruct (write_inode_at_spec b (Z.to_nat (slot inode) * 128) mode size links (length blocks) blocks)
    as (b' & Hw & Hb' & Hc & R1 & R2 & R3 & R4 & R5); [done|lia|done..|red; lia|done|].
  exists b'. split_and!; [by unfold write_inode_entry_full; rewrite Ho|done| |].
  - unfold read_inode_entry. rewrite Ho, R1, R2, R3, R4. cbn [mbind option_bind].
    assert (mapM (fun i => ru32 b' (Z.to_nat (slot inode) * 128 + 0x28 + i * 4)) (seq 0 12)
      = Some (blocks ++ replicate (12 - length blocks) 0)) as ->.
    { apply mapM_Some. apply Forall2_same_length_lookup. split.
      - rewrite length_app, length_replicate, length_seq. lia.
      - intros i k y Hk Hy. apply lookup_seq in Hk as [-> Hk]. rewrite Nat.add_0_l, (R5 i Hk). f_equal.
        rewrite take_ge by lia. destruct (blocks !! i) as [x|] eqn:Hx.
        + rewrite (lookup_app_l_Some _ _ _ _ Hx) in Hy. by injection Hy.
        + apply lookup_ge_None in Hx. rewrite lookup_app_r in Hy by lia. by apply lookup_replicate in Hy as [-> _]. }
    cbn [mbind option_bind]. by rewrite Z.div_mul by lia.
  - intros other Hot Hne. destruct (inode_offset other Hot) as [_ Hso]. eapply read_inode_agree; [done|exact Hc|lia].
Qed.

(** ** Block and inode allocation *)

(** The id's bit exists and is clear. *)
Definition id_free (bitmap : bytes) (id : Z) : Prop :=
  id - 1 < 8 * Z.of_nat (length bitmap) /\ bit bitmap (id - 1) = false.

Lemma land_mask_zero v k : 0 <= k -> (Z.land v (Z.shiftl 1 k) =? 0) = negb (Z.testbit v k).
Proof. intros Hk. rewrite <- (land_shift_testbit v k Hk). by rewrite negb_involutive. Qed.

Lemma alloc_id_spec ids bitmap :
  all_bytes bitmap -> Forall (fun id => 1 <= id) ids ->
  exists bitmap' r, alloc_id ids bitmap = (bitmap', r) /\
    match r with
    | None => bitmap' = bitmap /\ forall id, id ∈ ids -> ~ id_free bitmap id
    | Some id => exists l rest, ids = l ++ id :: rest /\ id_free bitmap id /\
        (forall j, j ∈ l -> ~ id_free bitmap j) /\ update_bit bitmap (id - 1) true bitmap'
    end.
Proof.
  intros Hb. induction 1 as [|id ids Hid _ (bm' & r & IHe & IH)]; cbn [alloc_id];
    [exists bitmap, None; split_and!; [done|done|]; intros ? []%not_elem_of_nil|].
  assert (~ id_free bitmap id -> exists bm'' r', (bm', r) = (bm'', r') /\
    match r' with
    | None => bm'' = bitmap /\ forall i, i ∈ id :: ids -> ~ id_free bitmap i
    | Some i => exists l rest, id :: ids = l ++ i :: rest /\ id_free bitmap i /\
        (forall j, j ∈ l -> ~ id_free bitmap j) /\ update_bit bitmap (i - 1) true bm''
    end) as Hskip.
  { intros Hn. exists bm', r. split; [done|]. destruct r as [i|].
    - destruct IH as (l & rest & -> & Hf & Hl & Hu). exists (id :: l), rest. split_and!; [done|done| |done].
      intros j [->|Hj]%elem_of_cons; auto.
    - destruct IH as [-> Hn']. split; [done|]. intros i [->|Hi]%elem_of_cons; auto. }
  assert (0 <= (id - 1) mod 8 < 8) as Hm8 by (apply Z.mod_pos_bound; lia).
  destruct (bitmap !! Z.to_nat ((id - 1) / 8)) as [v|] eqn:Hv.
  - assert (id - 1 < 8 * Z.of_nat (length bitmap)) as Hlt.
    { apply lookup_lt_Some in Hv. pose proof (Z.div_mod (id - 1) 8 ltac:(lia)). lia. }
    rewrite land_mask_zero by lia. destruct (Z.testbit v _) eqn:Hbit; cbn [negb].
    + rewrite IHe. apply Hskip. intros [_ Hf]. unfold bit in Hf. rewrite Hv in Hf. congruence.
    + eexists _, (Some id). split; [done|]. exists [], ids. split_and!; [done| |by intros ? []%not_elem_of_nil|].
      * split; [done|]. unfold bit. by rewrite Hv.
      * destruct (bitmap_set_spec bitmap (id - 1) Hb ltac:(lia)) as (b' & Hset & Hu).
        unfold bitmap_set in Hset. rewrite Hv in Hset. cbn [mbind option_bind fmap option_fmap option_map] in Hset.
        injection Hset as <-. exact Hu.
  - rewrite IHe. apply Hskip. intros [Hlt _]. apply lookup_ge_None in Hv.
    pose proof (bit_index_bound bitmap (id - 1) ltac:(lia)). lia.
Qed.

(** Freeing an id clears its bit and no other. *)
Lemma free_id_spec bitmap id :
  all_bytes bitmap -> 1 <= id -> id - 1 < 8 * Z.of_nat (length bitmap) ->
  update_bit bitmap (id - 1) false (free_id bitmap id).
Proof.
  intros Hb Hid Hlt. destruct (bitmap_clear_spec bitmap (id - 1) Hb ltac:(lia)) as (b' & Hc & Hu).
  unfold free_id. rewrite (proj2 (Z.ltb_lt 0 id)) by lia. unfold bitmap_clear in Hc.
  destruct (bitmap !! _); cbn [mbind option_bind fmap option_fmap option_map] in Hc; [|done].
  injection Hc as <-. exact Hu.
Qed.

Lemma range_split lo hi l x rest : range lo hi = l ++ x :: rest ->
  lo <= x < hi /\ forall j, lo <= j < x -> j ∈ l.
Proof.
  revert lo. induction l as [|y l IH]; intros lo Hr.
  - assert (x ∈ range lo hi) as Hx%elem_of_range by (rewrite Hr; apply list_elem_of_here).
    rewrite range_cons in Hr by lia. injection Hr as <- _. split; [lia|]. lia.
  - assert (y ∈ range lo hi) as Hy%elem_of_range by (rewrite Hr; apply list_elem_of_here).
    rewrite range_cons in Hr by lia. injection Hr as <- Hr. destruct (IH _ Hr) as [H1 H2]. split; [lia|].
    intros j Hj. destruct (decide (j = lo)) as [->|]; [apply list_elem_of_here|]. apply elem_of_cons. right. apply H2. lia.
Qed.

(** Allocating and freeing disk blocks.  [alloc_block] answers the least free
    block from 11 to [total_blocks] inclusive and marks exactly that block used,
    or answers [None] and changes nothing when none of them is free; giving the
    block back with [free_block] clears exactly its bit again. *)
Theorem alloc_block_exact bitmap total :
  all_bytes bitmap ->
  exists bitmap' r, alloc_block bitmap total = (bitmap', r) /\
    match r with
    | None => bitmap' = bitmap /\ forall id, 11 <= id <= total -> ~ id_free bitmap id
    | Some id => 11 <= id <= total /\ id_free bitmap id /\ (forall j, 11 <= j < id -> ~ id_free bitmap j) /\
        update_bit bitmap (id - 1) true bitmap' /\
        update_bit bitmap' (id - 1) false (free_block bitmap' id)
    end.
Proof.
  intros Hb. destruct (alloc_id_spec (range (FILE_DATA_BLOCK + 1) (total + 1)) bitmap Hb) as (bm' & r & He & Hr).
  { apply Forall_forall. intros id Hin%elem_of_range. unfold FILE_DATA_BLOCK in Hin. lia. }
  exists bm', r. split; [exact He|]. destruct r as [id|].
  - destruct Hr as (l & rest & Hsp & Hf & Hl & Hu). destruct (range_split _ _ _ _ _ Hsp) as [Hin Hbelow].
    unfold FILE_DATA_BLOCK in Hin, Hbelow. split_and!; [lia|lia|done| |done|].
    + intros j Hj. apply Hl, Hbelow. lia.
    + destruct Hu as (Hlen & Hby & _). apply free_id_spec; [done|lia|]. destruct Hf. lia.
  - destruct Hr as [-> Hn]. split; [done|]. intros id Hid. apply Hn, elem_of_range. unfold FILE_DATA_BLOCK. lia.
Qed.

(** Allocating [n] times. *)
Fixpoint alloc_run (n : nat) (bitmap : bytes) : list (option Z) :=
  match n with
  | O => []
  | S n' => let '(bitmap', r) := alloc_block bitmap TOTAL_BLOCKS in r :: alloc_run n' bitmap'
  end.

(** The block virtio_blk_driver keeps the audit ring's header in. *)
Definition AUDIT_HEADER_BLOCK : Z := 64.

(** The allocator hands out the audit log's block.  From the bitmap of a
    freshly formatted disk the allocator gives out blocks 11 to 64, 54 of them,
    while the superblock counts 53 free; the last one, 64, is past the
    filesystem's own blocks 0 to 63 and is the block the audit ring's header is
    written to. *)
Theorem allocator_reaches_audit_block :
  exists bitmap sb, build_block_bitmap (replicate BLOCK_SIZE 0) = Some bitmap /\
    build_superblock (replicate BLOCK_SIZE 0) = Some sb /\ ru32 sb 0x0C = Some 53 /\
    alloc_run 55 bitmap = (Some <$> range 11 (AUDIT_HEADER_BLOCK + 1)) ++ [None] /\
    length (range 11 (AUDIT_HEADER_BLOCK + 1)) = 54%nat.
Proof.
  exists (default [] (build_block_bitmap (replicate BLOCK_SIZE 0))), (default [] (build_superblock (replicate BLOCK_SIZE 0))).
  split_and!; vm_compute; reflexivity.
Qed.

(** ** Paths *)

(** The reference: cut at every slash, empty segments included. *)
Fixpoint split_on (cur s : bytes) : list bytes :=
  match s with
  | [] => [cur]
  | c :: s' => if c =? slash then cur :: split_on [] s' else split_on (cur ++ [c]) s'
  end.

Definition segments (s : bytes) : list bytes := filter (fun seg => seg <> []) (split_on [] s).

Definition no_slash (s : bytes) : Prop := slash ∉ s.

Lemma split_on_no_slash cur s : no_slash s -> split_on cur s = [cur ++ s].
Proof.
  unfold no_slash. revert cur. induction s as [|c s IH]; intros cur Hn; cbn [split_on]; [by rewrite app_nil_r|].
  apply not_elem_of_cons in Hn as [Hc Hn]. destruct (Z.eqb_spec c slash); [done|].
  by rewrite IH, <- app_assoc by done.
Qed.

Lemma split_on_app cur a s : split_on cur (a ++ slash :: s) = split_on cur a ++ split_on [] s.
Proof.
  revert cur. induction a as [|c a IH]; intros cur; cbn [split_on app]; [done|].
  destruct (c =? slash); [by rewrite IH|apply IH].
Qed.

Lemma segments_app a s : segments (a ++ slash :: s) = segments a ++ segments s.
Proof. unfold segments. by rewrite split_on_app, filter_app. Qed.

Lemma segments_single s : no_slash s -> s <> [] -> segments s = [s].
Proof. intros Hn Hs. unfold segments. rewrite split_on_no_slash by done. by rewrite filter_cons_True. Qed.

Lemma segments_slashes k s : segments (replicate k slash ++ s) = segments s.
Proof. induction k as [|k IH]; [done|]. exact (eq_trans (segments_app [] _) IH). Qed.

Lemma segments_slashes_r k s : segments (s ++ replicate k slash) = segments s.
Proof.
  induction k as [|k IH]; [by rewrite app_nil_r|]. cbn [replicate]. rewrite segments_app.
  pose proof (segments_slashes k []) as Hk. rewrite app_nil_r in Hk. rewrite Hk. apply app_nil_r.
Qed.

(** A text that does not begin with a slash. *)
Definition trimmed (s : bytes) : Prop := head s <> Some slash.

Lemma trim_start_spec s : exists k, s = replicate k slash ++ trim_start s /\ trimmed (trim_start s).
Proof.
  induction s as [|c s (k & Hk & Ht)]; [by exists 0%nat|]. cbn [trim_start].
  destruct (Z.eqb_spec c slash) as [->|Hc].
  - exists (S k). cbn [replicate app]. split; [by rewrite <- Hk|done].
  - exists 0%nat. split; [done|]. unfold trimmed. cbn. congruence.
Qed.

Lemma segments_trim_start s : segments (trim_start s) = segments s.
Proof. destruct (trim_start_spec s) as (k & Hk & _). rewrite Hk at 2. by rewrite segments_slashes. Qed.

Lemma reverse_replicate' {A} k (x : A) : reverse (replicate k x) = replicate k x.
Proof.
  induction k as [|k IH]; [done|]. cbn [replicate]. rewrite reverse_cons, IH. symmetry. apply replicate_cons_app.
Qed.

Lemma trim_matches_spec s : exists a k, s = replicate a slash ++ trim_matches s ++ replicate k slash /\
  trimmed (trim_matches s) /\ trimmed (reverse (trim_matches s)).
Proof.
  unfold trim_matches. destruct (trim_start_spec s) as (a & Ha & Hta).
  destruct (trim_start_spec (reverse (trim_start s))) as (k & Hk & Htk). exists a, k.
  assert (trim_start s = reverse (trim_start (reverse (trim_start s))) ++ replicate k slash) as Heq.
  { rewrite <- (reverse_involutive (trim_start s)) at 1. rewrite Hk at 1. by rewrite reverse_app, reverse_replicate'. }
  split_and!; [by rewrite <- Heq| |by rewrite reverse_involutive].
  destruct (reverse (trim_start (reverse (trim_start s)))) as [|c r] eqn:Hr; [done|].
  rewrite Heq in Hta. exact Hta.
Qed.

Lemma segments_trim_matches s : segments (trim_matches s) = segments s.
Proof.
  destruct (trim_matches_spec s) as (a & k & Hs & _). rewrite Hs at 2. by rewrite segments_slashes, segments_slashes_r.
Qed.

Lemma split_at_slash_spec s :
  match split_at_slash s with
  | Some (a, r) => s = a ++ r /\ no_slash a /\ head r = Some slash
  | None => no_slash s
  end.
Proof.
  induction s as [|c s IH]; cbn [split_at_slash]; [apply not_elem_of_nil|].
  destruct (Z.eqb_spec c slash) as [->|Hc]; [split_and!; [done|apply not_elem_of_nil|done]|].
  destruct (split_at_slash s) as [[a r]|]; cbn [mbind option_bind].
  - destruct IH as (-> & Hn & Hr). split_and!; [done| |done]. apply not_elem_of_cons. split; [congruence|done].
  - apply not_elem_of_cons. split; [congruence|done].
Qed.

Lemma path_segments_spec fuel s : (length s <= fuel)%nat -> trimmed s -> path_segments fuel s = segments s.
Proof.
  revert s. induction fuel as [|fuel IH]; intros s Hl Ht; [by destruct s; cbn in Hl; [|lia]|].
  cbn [path_segments]. destruct (decide (s = [])) as [->|Hs0]; [done|].
  assert (path_next s = match split_at_slash s with Some (a, r) => Some (a, trim_start r) | None => Some (s, []) end) as ->
    by by destruct s.
  pose proof (split_at_slash_spec s) as Hsp. destruct (split_at_slash s) as [[a r]|].
  - destruct Hsp as (Hs & Hn & Hr). destruct r as [|c' r]; [done|]. injection Hr as ->.
    assert (a <> []) as Ha by (intros ->; apply Ht; by rewrite Hs).
    destruct (trim_start_spec (slash :: r)) as (k & Hk & Htr).
    assert (length (trim_start (slash :: r)) <= fuel)%nat as Hlen.
    { apply (f_equal length) in Hk. rewrite length_app in Hk. rewrite Hs, length_app in Hl. cbn [length] in Hl, Hk.
      assert (0 < length a)%nat by (destruct a; [done|cbn; lia]). lia. }
    rewrite (IH _ Hlen Htr).
    rewrite segments_trim_start, Hs, segments_app, (segments_single a) by done.
    change (segments (slash :: r)) with (segments ([] ++ slash :: r)). by rewrite (segments_app [] r).
  - rewrite segments_single by done. by destruct fuel.
Qed.

Lemma path_components_segments path : path_components path = segments path.
Proof.
  unfold path_components. destruct (trim_matches_spec path) as (a & k & Hs & Ht & _).
  rewrite path_segments_spec; [apply segments_trim_matches| |done].
  apply (f_equal length) in Hs. rewrite !length_app in Hs. lia.
Qed.

Lemma split_parent_segments path :
  let '(parent, leaf) := split_parent_and_basename path in
  match segments path with
  | [] => parent = [] /\ leaf = []
  | _ => no_slash leaf /\ leaf <> [] /\ segments path = path_components parent ++ [leaf]
  end.
Proof.
  unfold split_parent_and_basename.
  destruct (trim_matches_spec path) as (_ & _ & _ & Ht & Hrt).
  rewrite <- (segments_trim_matches path). set (t := trim_matches path) in *.
  pose proof (split_at_slash_spec (reverse t)) as Hsp.
  destruct (split_at_slash (reverse t)) as [[rb rp]|].
  - destruct Hsp as (Hs & Hn & Hr). destruct rp as [|c rp]; [done|]. injection Hr as ->. cbn [tail].
    assert (t = reverse rp ++ slash :: reverse rb) as ->.
    { rewrite <- (reverse_involutive t), Hs, reverse_app, reverse_cons, <- app_assoc. done. }
    assert (rb <> []) as Hne by (intros ->; apply Hrt; by rewrite Hs).
    assert (no_slash (reverse rb)) as Hn' by (unfold no_slash; by rewrite elem_of_reverse).
    assert (reverse rb <> []) as Hne' by (intros He; apply Hne; by rewrite <- (reverse_involutive rb), He).
    rewrite segments_app, (segments_single (reverse rb)) by done. rewrite path_components_segments.
    by destruct (segments (reverse rp)).
  - assert (no_slash t) as Hn by (unfold no_slash in *; by rewrite elem_of_reverse in Hsp).
    destruct (decide (t = [])) as [->|Hne]; [done|]. rewrite segments_single by done.
    by rewrite path_components_segments.
Qed.

(** Paths.  The components a path is walked by are exactly its non-empty
    segments between slashes, in order; and splitting off the last one gives a
    parent with all the others and a leaf name that is the last component itself,
    whatever slashes are repeated, leading or trailing. *)
Theorem paths_exact path :
  path_components path = segments path /\
  let '(parent, leaf) := split_parent_and_basename path in
  match segments path with
  | [] => parent = [] /\ leaf = []
  | _ => no_slash leaf /\ leaf <> [] /\ segments path = path_components parent ++ [leaf]
  end.
Proof. exact (conj (path_components_segments path) (split_parent_segments path)). Qed.

Lemma resolve_segments_app rd i t l1 l2 :
  resolve_segments rd i t (l1 ++ l2) =
    r ← resolve_segments rd i t l1;
    match r with Some (i', t') => resolve_segments rd i' t' l2 | None => Some None end.
Proof.
  revert i t. induction l1 as [|seg l1 IH]; intros i t; [done|]. cbn [resolve_segments app].
  destruct (negb _); [done|]. destruct (rd i) as [buf|]; [|done].
  destruct (find_dir_entry buf seg) as [[[ni nt]|]|]; cbn [mbind option_bind]; [apply IH|done|done].
Qed.

(** Looking a path up through its parent.  Whatever the directories hold,
    resolving a path with at least one component answers what looking its leaf
    name up in the directory its parent path resolves to answers, and nothing when
    the parent does not resolve or is not a directory. *)
Theorem resolve_via_parent rd path start :
  segments path <> [] ->
  resolve_path rd path start =
    r ← resolve_path rd (split_parent_and_basename path).1 start;
    match r with
    | Some (dir, t) =>
        if t =? FT_DIR then
          match rd dir with
          | Some buf => find_dir_entry buf (split_parent_and_basename path).2
          | None => Some None
          end
        else Some None
    | None => Some None
    end.
Proof.
  intros Hne. pose proof (split_parent_segments path) as Hs. unfold resolve_path at 1.
  rewrite path_components_segments. destruct (split_parent_and_basename path) as [parent leaf]. cbn [fst snd].
  destruct (segments path) as [|s0 ss]; [done|]. destruct Hs as (_ & _ & ->). rewrite resolve_segments_app.
  fold (resolve_path rd parent start). destruct (resolve_path rd parent start) as [[[dir t]|]|]; [|done..].
  cbn [mbind option_bind resolve_segments]. destruct (t =? FT_DIR); [|done]. cbn [negb].
  destruct (rd dir) as [buf|]; [|done]. by destruct (find_dir_entry buf leaf) as [[[? ?]|]|].
Qed.

(** ** The file's data *)

(** A file reads back as it was written.  For any content of at most one
    block, writing the file's inode with the content's length and its data block
    succeeds, and [read_file_data] through that inode fills the caller's buffer
    with the content, cut to the buffer's length, and answers the number of bytes
    copied, leaving the rest of the buffer alone. *)
Theorem file_data_roundtrip table data content out :
  block_ok table -> block_ok data -> all_bytes content -> (length content <= BLOCK_SIZE)%nat ->
  exists table' data' n, build_file_data_block data content = Some (data', length content) /\
    write_file_inode table (Z.of_nat (length content)) = Some table' /\ block_ok table' /\
    read_file_inode_size table' = Some (Z.of_nat (length content)) /\
    n = Nat.min (length content) (length out) /\
    read_file_data table' data' out = Some (take n content ++ drop n out, n).
Proof.
  intros Ht [Hd Hdb] Hc Hl. unfold BLOCK_SIZE in *.
  destruct (wslice_is_Some (vzero data) 0 content) as [data' Hw]; [unfold vzero; rewrite length_replicate; lia|].
  assert (forall n, (n <= 2)%nat -> Forall (in_width 32) ((fun i => u32 (FILE_DATA_BLOCK + Z.of_nat i)) <$> seq 0 n)) as Hbl.
  { intros n _. apply Forall_fmap, Forall_true. intros i. apply wrap_range. lia. }
  set (nb := if 0 <? Z.of_nat (length content) then Z.to_nat ((Z.of_nat (length content) + 1024 - 1) / 1024) else 1%nat).
  assert (nb = 1%nat) as Hnb.
  { unfold nb. destruct (Z.ltb_spec 0 (Z.of_nat (length content))); [|done].
    assert ((Z.of_nat (length content) + 1024 - 1) / 1024 = 1) as ->; [|done]. symmetry.
    apply (Z.div_unique _ _ 1 (Z.of_nat (length content) - 1)); lia. }
  destruct (write_inode_at_spec table (file_entry_index * 128) (Z.lor S_IFREG MODE_644) (Z.of_nat (length content)) 1 1
    ((fun i => u32 (FILE_DATA_BLOCK + Z.of_nat i)) <$> seq 0 1)) as (table' & Hti & Hbt & _ & _ & Hsz & _);
    [done|vm_compute; lia|vm_compute; done|red; lia|red; lia|red; lia|apply Hbl; lia|].
  set (n := Nat.min (length content) (length out)).
  exists table', data', n. split_and!; [| |done|exact Hsz|done|].
  - unfold build_file_data_block, BLOCK_SIZE. rewrite Nat.min_l, take_ge by lia. by rewrite Hw.
  - unfold write_file_inode. fold nb. rewrite Hnb. exact Hti.
  - unfold read_file_data. rewrite Hsz. cbn [mbind option_bind]. unfold BLOCK_SIZE. rewrite Nat2Z.id, (Nat.min_l (length content)) by lia.
    fold n. assert (rslice data' 0 n = Some (take n content)) as ->.
    { pose proof (length_wslice _ _ _ _ Hw) as Hlw. unfold vzero in Hlw. rewrite length_replicate in Hlw.
      apply wslice_Some in Hw as [_ ->]. unfold rslice. rewrite Hlw, decide_True by lia.
      apply (f_equal Some). rewrite take_0, drop_0. cbn [app]. apply take_app_le. lia. }
    cbn [mbind option_bind]. unfold wslice. rewrite length_take. rewrite decide_True by lia. cbn [mbind option_bind take app Nat.add].
    by rewrite Nat.min_l by lia.
Qed.

(** ** Witnesses *)

Module Ext2Witness.

(** [Forall] of a numeric range over a literal list. *)
Ltac forall_range := repeat (apply Forall_cons_2; [red; lia|]); apply Forall_nil_2.

Definition zero_block : bytes := Eval vm_compute in replicate BLOCK_SIZE 0.
(** A directory with inode 12 and parent 2. *)
Definition dir0 : bytes := Eval vm_compute in default [] (init_dir_block zero_block 12 ROOT_INODE).
Definition name_a : bytes := [97; 46; 116; 120; 116].

Definition block_okb (b : bytes) : bool :=
  (length b =? BLOCK_SIZE)%nat && forallb (fun x => (0 <=? x) && (x <? 256)) b.

Lemma block_okb_ok b : block_okb b = true -> block_ok b.
Proof.
  intros [Hl Hb]%andb_true_iff. split; [by apply Nat.eqb_eq|]. apply Forall_forall. intros x Hx.
  rewrite forallb_forall in Hb. specialize (Hb x (proj1 (list_elem_of_In _ _) Hx)). bool_to_prop. red. lia.
Qed.

Lemma zero_block_ok : block_ok zero_block.
Proof. apply block_okb_ok. vm_compute. reflexivity. Qed.

Lemma dir0_ok : block_ok dir0.
Proof. apply block_okb_ok. vm_compute. reflexivity. Qed.

Lemma name_a_ok : name_ok name_a.
Proof. split; [cbn; lia|]. unfold name_a. forall_range. Qed.

Lemma add_dir_entry_witness :
  block_ok dir0 /\ exists b' r es, add_dir_entry dir0 13 FT_REG name_a = Some (b', r) /\ block_ok b' /\
    read_dir_entries DIR_FUEL dir0 0 = Some es /\
    (r = false -> b' = dir0) /\
    (r = true -> exists l r', es = l ++ r' /\
       read_dir_entries DIR_FUEL b' 0 = Some (l ++ (13, FT_REG, name_a) :: r') /\
       (find_dir_entry dir0 name_a = Some None -> find_dir_entry b' name_a = Some (Some (13, FT_REG)))).
Proof.
  split; [exact dir0_ok|].
  refine (add_dir_entry_exact dir0 13 FT_REG name_a dir0_ok name_a_ok _ _); [lia|unfold FT_REG; red; lia].
Defined.

(** The directory after the entry is added. *)
Definition dir1 : bytes := Eval vm_compute in (default ([], false) (add_dir_entry dir0 13 FT_REG name_a)).1.

Example dir1_lists :
  read_dir_entries DIR_FUEL dir1 0 = Some [(12, FT_DIR, [46]); (2, FT_DIR, [46; 46]); (13, FT_REG, name_a)].
Proof. vm_compute. reflexivity. Qed.

Lemma dir1_ok : block_ok dir1.
Proof. apply block_okb_ok. vm_compute. reflexivity. Qed.

Lemma dir1_wf : dir_wf DIR_FUEL dir1 0.
Proof. vm_compute. repeat split; intros; lia. Qed.

Lemma remove_dir_entry_witness :
  dir_wf DIR_FUEL dir1 0 /\ exists b' r es, remove_dir_entry dir1 name_a = Some (b', r) /\ block_ok b' /\
    read_dir_entries DIR_FUEL dir1 0 = Some es /\
    match r with
    | None => b' = dir1 /\ find_in es name_a = None
    | Some ino => exists l ty rr, es = l ++ (ino, ty, name_a) :: rr /\
        (forall e, e ∈ l -> e.2 <> name_a) /\ read_dir_entries DIR_FUEL b' 0 = Some (l ++ rr)
    end.
Proof. split; [exact dir1_wf|exact (remove_dir_entry_exact dir1 name_a dir1_ok dir1_wf)]. Defined.

Lemma inode_roundtrip_witness :
  (length [11; 12] <= 12)%nat /\
  exists b', write_inode_entry_full zero_block 12 (Z.lor S_IFREG MODE_644) 1500 1 [11; 12] = Some b' /\ block_ok b' /\
    read_inode_entry b' 12 =
      Some (mkInode (Z.lor S_IFREG MODE_644) 1500 1 (Z.of_nat (length [11; 12])) ([11; 12] ++ replicate (12 - length [11; 12]) 0)) /\
    forall other, 1 <= other < 2 ^ 32 -> slot other <> slot 12 ->
      read_inode_entry b' other = read_inode_entry zero_block other.
Proof.
  split; [cbn; lia|].
  refine (inode_roundtrip zero_block 12 (Z.lor S_IFREG MODE_644) 1500 1 [11; 12] zero_block_ok _ _ _ _ _ _);
    [lia|vm_compute; split; [discriminate|reflexivity]|red; lia|red; lia|cbn; lia|forall_range].
Defined.

Lemma alloc_block_witness :
  all_bytes [0xFF; 0x07] /\
  exists bitmap' r, alloc_block [0xFF; 0x07] 16 = (bitmap', r) /\
    match r with
    | None => bitmap' = [0xFF; 0x07] /\ forall id, 11 <= id <= 16 -> ~ id_free [0xFF; 0x07] id
    | Some id => 11 <= id <= 16 /\ id_free [0xFF; 0x07] id /\ (forall j, 11 <= j < id -> ~ id_free [0xFF; 0x07] j) /\
        update_bit [0xFF; 0x07] (id - 1) true bitmap' /\
        update_bit bitmap' (id - 1) false (free_block bitmap' id)
    end.
Proof.
  assert (all_bytes [0xFF; 0x07]) as H by (forall_range).
  split; [exact H|exact (alloc_block_exact [0xFF; 0x07] 16 H)].
Defined.

Example alloc_block_least : alloc_block [0xFF; 0x07] 16 = ([0xFF; 0x0F], Some 12).
Proof. vm_compute. reflexivity. Qed.

(** ["/a.txt"] and a disk with the one directory. *)
Definition path_a : bytes := slash :: name_a.
Definition rd (i : Z) : option bytes := if i =? 12 then Some dir1 else None.

Lemma resolve_via_parent_witness :
  resolve_path rd path_a 12 = Some (Some (13, FT_REG)) /\
  resolve_path rd path_a 12 =
    r ← resolve_path rd (split_parent_and_basename path_a).1 12;
    match r with
    | Some (dir, t) =>
        if t =? FT_DIR then
          match rd dir with
          | Some buf => find_dir_entry buf (split_parent_and_basename path_a).2
          | None => Some None
          end
        else Some None
    | None => Some None
    end.
Proof.
  split; [vm_compute; reflexivity|]. refine (resolve_via_parent rd path_a 12 _). vm_compute. discriminate.
Defined.

Lemma file_data_witness :
  all_bytes name_a /\ exists table' data' n, build_file_data_block zero_block name_a = Some (data', length name_a) /\
    write_file_inode zero_block (Z.of_nat (length name_a)) = Some table' /\ block_ok table' /\
    read_file_inode_size table' = Some (Z.of_nat (length name_a)) /\
    n = Nat.min (length name_a) (length [1; 2; 3]) /\
    read_file_data table' data' [1; 2; 3] = Some (take n name_a ++ drop n [1; 2; 3], n).
Proof.
  split; [exact (proj2 name_a_ok)|].
  refine (file_data_roundtrip zero_block zero_block name_a [1; 2; 3] zero_block_ok zero_block_ok (proj2 name_a_ok) _).
  unfold BLOCK_SIZE. cbn. lia.
Defined.
End Ext2Witness.
