(* ===== verification/Geometry.v ===== *)
(** * Rectangles and occlusion ([kernel_common/src/geometry.rs])

    A rectangle has an [i32] origin and [u32] sides.  Its meaning is the set of
    pixels it covers; the clipping operations are proved against that. *)

From S2P Require Import Prelude.

Record Rect := mkRect { x : Z; y : Z; width : Z; height : Z }.

#[export] Instance Rect_eq_dec : EqDecision Rect.
Proof. solve_decision. Defined.

Definition rect_empty : Rect := mkRect 0 0 0 0.
Definition is_empty (r : Rect) : bool := (width r =? 0) || (height r =? 0).
Definition right (r : Rect) : Z := i32_saturating_add (x r) (signed 32 (width r)).
Definition bottom (r : Rect) : Z := i32_saturating_add (y r) (signed 32 (height r)).
(** [(width as usize) * (height as usize)]. *)
Definition area (r : Rect) : Z := u64 (width r * height r).

Definition intersect (self other : Rect) : option Rect :=
  let x0 := Z.max (x self) (x other) in
  let y0 := Z.max (y self) (y other) in
  let x1 := Z.min (right self) (right other) in
  let y1 := Z.min (bottom self) (bottom other) in
  if (x0 <? x1) && (y0 <? y1)
  then Some (mkRect x0 y0 (u32 (x1 - x0)) (u32 (y1 - y0)))
  else None.

Definition contains_rect (self other : Rect) : bool :=
  if is_empty other then true
  else (x self <=? x other) && (y self <=? y other) &&
       (right other <=? right self) && (bottom other <=? bottom self).

(** The rectangles written to [out], in order; their number is the result. *)
Definition subtract (self occluder : Rect) : list Rect :=
  if is_empty self then [] else
  match intersect self occluder with
  | None => [self]
  | Some inter =>
      if contains_rect occluder self then [] else
      (if y self <? y inter
       then [mkRect (x self) (y self) (width self) (u32 (y inter - y self))] else []) ++
      (if bottom inter <? bottom self
       then [mkRect (x self) (bottom inter) (width self) (u32 (bottom self - bottom inter))] else []) ++
      (if x self <? x inter
       then [mkRect (x self) (y inter) (u32 (x inter - x self)) (height inter)] else []) ++
      (if right inter <? right self
       then [mkRect (right inter) (y inter) (u32 (right self - right inter)) (height inter)] else [])
  end.

(** [if next_len < 32]: a full [next] drops what follows. *)
Definition push32 (next : list Rect) (r : Rect) : list Rect :=
  if (length next <? 32)%nat then next ++ [r] else next.

Definition cut_all (occ : Rect) (current : list Rect) : list Rect :=
  foldl (fun next r => foldl push32 next (subtract r occ)) [] current.

Fixpoint visible_loop (occluders : list Rect) (current : list Rect) : list Rect :=
  match occluders with
  | [] => current
  | occ :: occs =>
      if is_empty occ then visible_loop occs current
      else if (length current =? 0)%nat then current
      else visible_loop occs (cut_all occ current)
  end.

Definition compute_visible_rects (target : Rect) (occluders : list Rect) : list Rect :=
  if is_empty target then [] else visible_loop occluders [target].

(** ** Pixels *)

Abbreviation point := (Z * Z)%type.

Definition covers (r : Rect) (p : point) : Prop :=
  x r <= p.1 < x r + width r /\ y r <= p.2 < y r + height r.

Definition coversb (r : Rect) (p : point) : bool :=
  (x r <=? p.1) && (p.1 <? x r + width r) && (y r <=? p.2) && (p.2 <? y r + height r).

Lemma coversb_spec r p : coversb r p = true <-> covers r p.
Proof. unfold coversb, covers. rewrite !andb_true_iff, !Z.leb_le, !Z.ltb_lt. tauto. Qed.

(** A rectangle whose far edges are representable: nothing saturates. *)
Definition rect_wf (r : Rect) : Prop :=
  i32_min <= x r /\ i32_min <= y r /\ 0 <= width r < 2 ^ 31 /\ 0 <= height r < 2 ^ 31 /\
  x r + width r <= i32_max /\ y r + height r <= i32_max.

Definition disjoint (r s : Rect) : Prop := forall p, covers r p -> covers s p -> False.
Fixpoint pairwise_disjoint (rs : list Rect) : Prop :=
  match rs with
  | [] => True
  | r :: rs' => Forall (disjoint r) rs' /\ pairwise_disjoint rs'
  end.

Lemma edges r : rect_wf r -> right r = x r + width r /\ bottom r = y r + height r.
Proof.
  intros (Hx & Hy & Hw & Hh & Hr & Hb). unfold right, bottom, i32_saturating_add, signed, i32_min, i32_max in *.
  rewrite !(wrap_small 32) by (red; lia). rewrite !(proj2 (Z.ltb_lt _ _)) by lia. lia.
Qed.

Lemma is_empty_covers r p : rect_wf r -> is_empty r = true -> ~ covers r p.
Proof. intros Hwf He. unfold is_empty in He. apply orb_true_iff in He as [He|He]; bool_to_prop; intros [? ?]; lia. Qed.

Lemma is_empty_false r : rect_wf r -> is_empty r = false -> 0 < width r /\ 0 < height r.
Proof. intros (? & ? & ? & ? & ?) He. unfold is_empty in He. bool_to_prop. lia. Qed.

(** The intersection as edges. *)
Lemma intersect_spec r s : rect_wf r -> rect_wf s ->
  match intersect r s with
  | Some i => rect_wf i /\ 0 < width i /\ 0 < height i /\
      x i = Z.max (x r) (x s) /\ y i = Z.max (y r) (y s) /\
      x i + width i = Z.min (x r + width r) (x s + width s) /\
      y i + height i = Z.min (y r + height r) (y s + height s)
  | None => disjoint r s
  end.
Proof.
  intros Hr Hs. destruct (edges r Hr) as [Er Fr], (edges s Hs) as [Es Fs]. unfold intersect. rewrite Er, Fr, Es, Fs.
  destruct Hr as (? & ? & ? & ? & ? & ?), Hs as (? & ? & ? & ? & ? & ?). unfold i32_min, i32_max in *.
  destruct (_ && _) eqn:Hc.
  - bool_to_prop. rewrite !(wrap_small 32) by (red; lia). unfold rect_wf, i32_min, i32_max. cbn. lia.
  - apply andb_false_iff in Hc. intros [px py] [Hpx Hpy] [Hqx Hqy]. cbn in *. destruct Hc as [Hc|Hc]; bool_to_prop; lia.
Qed.

Lemma contains_rect_spec r s : rect_wf r -> rect_wf s -> is_empty s = false ->
  contains_rect r s = true <->
  x r <= x s /\ y r <= y s /\ x s + width s <= x r + width r /\ y s + height s <= y r + height r.
Proof.
  intros Hr Hs He. destruct (edges r Hr) as [Er Fr], (edges s Hs) as [Es Fs]. unfold contains_rect. rewrite He, Er, Fr, Es, Fs.
  rewrite !andb_true_iff, !Z.leb_le. tauto.
Qed.

(** The four slices as edges: what [subtract] produces. *)
Lemma subtract_wf r s : rect_wf r -> rect_wf s -> Forall (fun q => rect_wf q /\ is_empty q = false) (subtract r s).
Proof.
  intros Hr Hs. unfold subtract. destruct (is_empty r) eqn:He; [apply Forall_nil_2|].
  pose proof (intersect_spec r s Hr Hs) as Hi. destruct (intersect r s) as [i|]; [|by apply Forall_singleton].
  destruct Hi as (Hwi & Hiw & Hih & Hix & Hiy & Hir & Hib).
  destruct (edges r Hr) as [Er Fr], (edges i Hwi) as [Ei Fi]. rewrite Er, Fr, Ei, Fi.
  destruct (is_empty_false r Hr He). destruct (contains_rect s r); [apply Forall_nil_2|].
  destruct Hr as (? & ? & ? & ? & ? & ?), Hs as (? & ? & ? & ? & ? & ?), Hwi as (? & ? & ? & ? & ? & ?).
  unfold i32_min, i32_max in *.
  rewrite !Forall_app. split_and!; (match goal with |- context [if ?c then _ else _] => destruct c eqn:Hc end; [|apply Forall_nil_2]);
    bool_to_prop; (apply Forall_singleton; rewrite ?(wrap_small 32) by (red; lia); unfold rect_wf, is_empty, i32_min, i32_max; cbn [x y width height];
    split; [lia|]; apply orb_false_iff; rewrite !Z.eqb_neq; lia).
Qed.

Lemma covers_if {c : bool} {r p} : (exists q, q ∈ (if c then [r] else []) /\ covers q p) <-> c = true /\ covers r p.
Proof.
  destruct c.
  - split; [intros (q & ->%list_elem_of_singleton & Hq); done|]. intros [_ Hc]. exists r. split; [by apply list_elem_of_singleton|done].
  - split; [by intros (q & []%not_elem_of_nil & _)|by intros [? _]].
Qed.

Definition covers_any (rs : list Rect) (p : point) : Prop := exists q, q ∈ rs /\ covers q p.

Lemma covers_any_app l1 l2 p : covers_any (l1 ++ l2) p <-> covers_any l1 p \/ covers_any l2 p.
Proof. unfold covers_any. setoid_rewrite elem_of_app. naive_solver. Qed.

Lemma subtract_covers r s p : rect_wf r -> rect_wf s ->
  covers_any (subtract r s) p <-> covers r p /\ ~ covers s p.
Proof.
  intros Hr Hs. unfold subtract. destruct (is_empty r) eqn:He.
  { split; [by intros (q & []%not_elem_of_nil & _)|]. intros [Hc _]. by destruct (is_empty_covers r p Hr He). }
  pose proof (intersect_spec r s Hr Hs) as Hi. destruct (intersect r s) as [i|].
  2:{ unfold covers_any. setoid_rewrite list_elem_of_singleton. split; [|by intros [? _]; exists r].
      intros (q & -> & Hq). split; [done|]. intros Hsp. by apply (Hi p). }
  destruct Hi as (Hwi & Hiw & Hih & Hix & Hiy & Hir & Hib).
  destruct (edges r Hr) as [Er Fr], (edges i Hwi) as [Ei Fi]. rewrite Er, Fr, Ei, Fi.
  destruct (is_empty_false r Hr He). pose proof (contains_rect_spec s r Hs Hr He) as Hcon.
  destruct (contains_rect s r).
  { destruct (proj1 Hcon eq_refl) as (? & ? & ? & ?). split; [by intros (q & []%not_elem_of_nil & _)|].
    intros [Hp Hn]. exfalso. apply Hn. unfold covers in *. lia. }
  rewrite !covers_any_app. unfold covers_any. rewrite !covers_if, !Z.ltb_lt.
  destruct Hr as (? & ? & ? & ? & ? & ?), Hs as (? & ? & ? & ? & ? & ?), Hwi as (? & ? & ? & ? & ? & ?).
  unfold i32_min, i32_max in *. unfold covers. cbn [x y width height].
  destruct p as [px py]. cbn [fst snd]. clear Hcon Er Fr Ei Fi.
  split.
  - intros [[Hc Hp]|[[Hc Hp]|[[Hc Hp]|[Hc Hp]]]]; rewrite (wrap_small 32) in Hp by (red; lia); lia.
  - intros [Hp Hn].
    destruct (decide (py < y i)) as [|G1]; [left; rewrite (wrap_small 32) by (red; lia); lia|].
    destruct (decide (y i + height i <= py)) as [|G2]; [right; left; rewrite (wrap_small 32) by (red; lia); lia|].
    destruct (decide (px < x i)) as [|G3]; [right; right; left; rewrite (wrap_small 32) by (red; lia); lia|].
    destruct (decide (x i + width i <= px)) as [|G4]; [right; right; right; rewrite (wrap_small 32) by (red; lia); lia|].
    exfalso. apply Hn. lia.
Qed.

Lemma pairwise_app l1 l2 :
  pairwise_disjoint (l1 ++ l2) <->
  pairwise_disjoint l1 /\ pairwise_disjoint l2 /\ (forall r s, r ∈ l1 -> s ∈ l2 -> disjoint r s).
Proof.
  induction l1 as [|q l1 IH]; cbn [app pairwise_disjoint].
  - split; [intros H; split_and!; [done|done|by intros ? ? []%not_elem_of_nil]|by intros (_ & ? & _)].
  - rewrite IH, Forall_app, !Forall_forall. setoid_rewrite elem_of_cons. naive_solver.
Qed.

Lemma pairwise_if (c : bool) r : pairwise_disjoint (if c then [r] else []).
Proof. destruct c; cbn; [split; [apply Forall_nil_2|done]|done]. Qed.

Lemma elem_of_if (c : bool) (r s : Rect) : r ∈ (if c then [s] else []) <-> c = true /\ r = s.
Proof.
  destruct c; [rewrite list_elem_of_singleton; tauto|]. split; [by intros []%not_elem_of_nil|by intros [? _]].
Qed.

Lemma subtract_disjoint r s : rect_wf r -> rect_wf s -> pairwise_disjoint (subtract r s).
Proof.
  intros Hr Hs. unfold subtract. destruct (is_empty r) eqn:He; [done|].
  pose proof (intersect_spec r s Hr Hs) as Hi. destruct (intersect r s) as [i|]; [|exact (pairwise_if true r)].
  destruct Hi as (Hwi & Hiw & Hih & Hix & Hiy & Hir & Hib).
  destruct (edges r Hr) as [Er Fr], (edges i Hwi) as [Ei Fi]. rewrite Er, Fr, Ei, Fi.
  destruct (contains_rect s r); [done|].
  destruct Hr as (? & ? & ? & ? & ? & ?), Hs as (? & ? & ? & ? & ? & ?), Hwi as (? & ? & ? & ? & ? & ?).
  unfold i32_min, i32_max in *.
  rewrite !pairwise_app. split_and!; try apply pairwise_if;
    intros a b Ha Hb [px py]; rewrite ?elem_of_app, !elem_of_if, ?Z.ltb_lt in Ha;
    rewrite ?elem_of_app, !elem_of_if, ?Z.ltb_lt in Hb;
    repeat match goal with H : _ \/ _ |- _ => destruct H | H : _ /\ _ |- _ => destruct H end; subst;
    unfold covers; cbn [x y width height fst snd]; rewrite ?(wrap_small 32) by (red; lia); lia.
Qed.

(** Subtracting an occluder.  [subtract] produces at most four rectangles,
    all non-empty and pairwise disjoint, that together cover exactly the pixels of
    the rectangle outside the occluder. *)
Theorem subtract_exact r s :
  rect_wf r -> rect_wf s ->
  (length (subtract r s) <= 4)%nat /\ Forall (fun q => rect_wf q /\ is_empty q = false) (subtract r s) /\
  pairwise_disjoint (subtract r s) /\
  forall p, covers_any (subtract r s) p <-> covers r p /\ ~ covers s p.
Proof.
  intros Hr Hs. split_and!; [|by apply subtract_wf|by apply subtract_disjoint|by intros; apply subtract_covers].
  unfold subtract. destruct (is_empty r); [cbn; lia|]. destruct (intersect r s); [|cbn; lia].
  destruct (contains_rect s r); [cbn; lia|]. repeat destruct (_ <? _); cbn; lia.
Qed.

(** ** Several occluders *)

Lemma push32_all next l : (length next <= 32)%nat -> foldl push32 next l = take 32 (next ++ l).
Proof.
  revert next. induction l as [|r l IH]; intros next Hn; cbn [foldl]; [rewrite app_nil_r; by rewrite take_ge by lia|].
  unfold push32 at 2. destruct (Nat.ltb_spec (length next) 32) as [Hlt|Hge].
  - rewrite IH by (rewrite length_app; cbn; lia). by rewrite <- app_assoc.
  - rewrite IH by done. rewrite !take_app_ge by lia. by replace (32 - length next)%nat with 0%nat by lia.
Qed.

(** Without the capacity limit. *)
Definition cut_free (occ : Rect) (current : list Rect) : list Rect := current ≫= (fun r => subtract r occ).

Lemma cut_all_take occ current : cut_all occ current = take 32 (cut_free occ current).
Proof.
  unfold cut_all, cut_free.
  assert (forall next, (length next <= 32)%nat ->
    foldl (fun next r => foldl push32 next (subtract r occ)) next current =
    take 32 (next ++ (current ≫= (fun r => subtract r occ)))) as H; [|apply H; cbn; lia].
  induction current as [|r rs IH]; intros next Hn; cbn [foldl mbind list_bind]; [rewrite app_nil_r; by rewrite take_ge by lia|].
  rewrite push32_all by done. rewrite IH by (rewrite length_take; lia).
  rewrite app_assoc. destruct (Nat.le_gt_cases (length (next ++ subtract r occ)) 32).
  - by rewrite (take_ge (next ++ subtract r occ)) by done.
  - rewrite (take_app_le (take 32 _)) by (rewrite length_take; lia).
    rewrite (take_app_le (next ++ subtract r occ)) by lia. rewrite take_take. reflexivity.
Qed.

Definition good (rs : list Rect) : Prop := Forall (fun q => rect_wf q /\ is_empty q = false) rs /\ pairwise_disjoint rs.

Lemma cut_free_covers occ rs p : Forall (fun q => rect_wf q /\ is_empty q = false) rs -> rect_wf occ ->
  covers_any (cut_free occ rs) p <-> covers_any rs p /\ ~ covers occ p.
Proof.
  intros Hrs Ho. rewrite Forall_forall in Hrs. unfold covers_any, cut_free. setoid_rewrite list_elem_of_bind. split.
  - intros (q & (r & Hq & Hr) & Hc). destruct (proj1 (subtract_covers r occ p (proj1 (Hrs r Hr)) Ho)) as [Hcr Hno]; [by exists q|].
    split; [by exists r|done].
  - intros [(r & Hr & Hc) Hno]. destruct (proj2 (subtract_covers r occ p (proj1 (Hrs r Hr)) Ho) (conj Hc Hno)) as (q & Hq & Hcq).
    exists q. split; [by exists r|done].
Qed.

Lemma cut_free_good occ rs : good rs -> rect_wf occ -> good (cut_free occ rs).
Proof.
  intros [Hrs Hd] Ho. unfold cut_free. induction Hrs as [|r rs [Hr He] Hrs IH]; [split; [apply Forall_nil_2|done]|].
  destruct Hd as [Hdr Hd]. destruct (IH Hd) as [IH1 IH2]. cbn [mbind list_bind]. split.
  - apply Forall_app_2; [by apply subtract_wf|exact IH1].
  - apply pairwise_app. split_and!; [by apply subtract_disjoint|exact IH2|]. intros a b Ha Hb p Hpa Hpb.
    destruct (proj1 (subtract_covers r occ p Hr Ho)) as [Hcr _]; [by exists a|].
    destruct (proj1 (cut_free_covers occ rs p Hrs Ho)) as [(s & Hs & Hcs) _]; [by exists b|].
    rewrite Forall_forall in Hdr. by apply (Hdr s Hs p).
Qed.

Lemma covers_any_take n rs p : covers_any (take n rs) p -> covers_any rs p.
Proof. intros (q & Hq & Hc). exists q. split; [|done]. rewrite <- (take_drop n rs). apply elem_of_app. by left. Qed.

Lemma good_take n rs : good rs -> good (take n rs).
Proof.
  intros [Hf Hd]. split; [by apply Forall_take|]. rewrite <- (take_drop n rs) in Hd. by apply pairwise_app in Hd as [? _].
Qed.

(** Whether no step of the loop overflows the 32 slots. *)
Fixpoint fits (occluders : list Rect) (current : list Rect) : bool :=
  match occluders with
  | [] => true
  | occ :: occs =>
      if is_empty occ then fits occs current
      else (length (cut_free occ current) <=? 32)%nat && fits occs (cut_free occ current)
  end.

Definition unoccluded (occs : list Rect) (p : point) : Prop := forall o, o ∈ occs -> ~ covers o p.

Lemma unoccluded_cons o occs p : unoccluded (o :: occs) p <-> ~ covers o p /\ unoccluded occs p.
Proof. unfold unoccluded. setoid_rewrite elem_of_cons. naive_solver. Qed.

Lemma visible_loop_spec occs rs : Forall rect_wf occs -> good rs -> (length rs <= 32)%nat ->
  (length (visible_loop occs rs) <= 32)%nat /\ good (visible_loop occs rs) /\
  (forall p, covers_any (visible_loop occs rs) p -> covers_any rs p /\ unoccluded occs p) /\
  (fits occs rs = true -> forall p, covers_any rs p -> unoccluded occs p -> covers_any (visible_loop occs rs) p).
Proof.
  intros Hoccs. revert rs. induction Hoccs as [|o occs Ho Hoccs IH]; intros rs Hg Hlen; cbn [visible_loop fits].
  { split_and!; try done. intros p Hp. split; [done|]. by intros ? []%not_elem_of_nil. }
  destruct (is_empty o) eqn:He.
  { destruct (IH rs Hg Hlen) as (H1 & H2 & H3 & H4). split_and!; [done|done| |].
    - intros p Hp. rewrite unoccluded_cons. destruct (H3 p Hp). split_and!; [done|by apply is_empty_covers|done].
    - intros Hf p Hp [_ Hu]%unoccluded_cons. by apply H4. }
  destruct (Nat.eqb_spec (length rs) 0) as [H0|H0].
  { apply length_zero_iff_nil in H0 as ->. split_and!; [done|done| |]; [|done]. by intros p (q & []%not_elem_of_nil & _). }
  rewrite cut_all_take. pose proof (cut_free_good o rs Hg Ho) as Hg'.
  destruct (IH (take 32 (cut_free o rs)) (good_take 32 _ Hg')) as (H1 & H2 & H3 & H4); [rewrite length_take; lia|].
  split_and!; [done|done| |].
  - intros p Hp. destruct (H3 p Hp) as [Hc%covers_any_take Hu]. rewrite unoccluded_cons.
    by apply (cut_free_covers o rs p (proj1 Hg) Ho) in Hc as [? ?].
  - intros [Hl Hf]%andb_true_iff p Hp [Hno Hu]%unoccluded_cons. apply Nat.leb_le in Hl. rewrite take_ge in H4 |- * by done.
    apply H4; [done| |done]. by apply (cut_free_covers o rs p (proj1 Hg) Ho).
Qed.

Lemma visible_rects_spec target occs :
  rect_wf target -> Forall rect_wf occs ->
  let vis := compute_visible_rects target occs in
  (length vis <= 32)%nat /\ Forall (fun q => rect_wf q /\ is_empty q = false) vis /\ pairwise_disjoint vis /\
  (forall p, covers_any vis p -> covers target p /\ unoccluded occs p) /\
  (fits occs [target] = true -> forall p, covers target p -> unoccluded occs p -> covers_any vis p).
Proof.
  intros Ht Ho. cbn zeta. unfold compute_visible_rects. destruct (is_empty target) eqn:He.
  { split_and!; [cbn; lia|apply Forall_nil_2|done|by intros p (q & []%not_elem_of_nil & _)|].
    intros _ p Hp. by destruct (is_empty_covers target p Ht He). }
  assert (good [target]) as Hg by (split; [by apply Forall_singleton|exact (pairwise_if true target)]).
  assert (forall p, covers_any [target] p <-> covers target p) as H1.
  { intros p. unfold covers_any. setoid_rewrite list_elem_of_singleton. naive_solver. }
  destruct (visible_loop_spec occs [target] Ho Hg) as (L & [F D] & S & C); [cbn; lia|]. split_and!; try done.
  - intros p Hp. by destruct (S p Hp) as [?%H1 ?].
  - intros Hf p Hp. apply C, H1; done.
Qed.

(** Occlusion.  For any window and any stack of windows over it,
    [compute_visible_rects] yields at most 32 non-empty, pairwise disjoint
    rectangles that cover only pixels of the window outside every occluder; as
    long as no step has more than 32 pieces to keep, they cover every such
    pixel. *)
Theorem visible_rects_exact target occs :
  rect_wf target -> Forall rect_wf occs ->
  let vis := compute_visible_rects target occs in
  (length vis <= 32)%nat /\ Forall (fun q => rect_wf q /\ is_empty q = false) vis /\ pairwise_disjoint vis /\
  (forall p, covers_any vis p -> covers target p /\ unoccluded occs p) /\
  (fits occs [target] = true -> forall p, covers target p -> unoccluded occs p -> covers_any vis p).
Proof. exact (visible_rects_spec target occs). Qed.

(** With at most two occluders nothing is ever dropped. *)
Lemma two_occluders_fit target o1 o2 : rect_wf target -> rect_wf o1 -> rect_wf o2 -> fits [o1; o2] [target] = true.
Proof.
  intros Ht H1 H2.
  assert (forall r s, (length (subtract r s) <= 4)%nat) as H4.
  { intros r s. unfold subtract. destruct (is_empty r); [cbn; lia|]. destruct (intersect r s); [|cbn; lia].
    destruct (contains_rect s r); [cbn; lia|]. repeat destruct (_ <? _); cbn; lia. }
  assert (forall o rs, (length (cut_free o rs) <= 4 * length rs)%nat) as Hc.
  { intros o rs. unfold cut_free. induction rs as [|r rs IH]; cbn [mbind list_bind length]; [lia|].
    rewrite length_app. pose proof (H4 r o). cbn [mbind list_bind] in IH. lia. }
  pose proof (Hc o1 [target]) as A. cbn [length] in A.
  pose proof (Hc o2 (cut_free o1 [target])) as B. pose proof (Hc o2 [target]) as C. cbn [length] in C.
  cbn [fits]. destruct (is_empty o1), (is_empty o2); rewrite ?andb_true_r; repeat (apply andb_true_iff; split); try done; apply Nat.leb_le; lia.
Qed.

Module GeometryWitness.

Definition window : Rect := mkRect 100 80 640 480.
Definition occ1 : Rect := mkRect 50 50 200 200.
Definition occ2 : Rect := mkRect 400 300 100 100.

Lemma wf_by_compute r :
  (i32_min <=? x r) && (i32_min <=? y r) && (0 <=? width r) && (width r <? 2 ^ 31) && (0 <=? height r) && (height r <? 2 ^ 31) &&
  (x r + width r <=? i32_max) && (y r + height r <=? i32_max) = true -> rect_wf r.
Proof. intros H. bool_to_prop. unfold rect_wf. lia. Qed.

Lemma subtract_witness :
  rect_wf window /\ (length (subtract window occ2) <= 4)%nat /\
  Forall (fun q => rect_wf q /\ is_empty q = false) (subtract window occ2) /\
  pairwise_disjoint (subtract window occ2) /\
  forall p, covers_any (subtract window occ2) p <-> covers window p /\ ~ covers occ2 p.
Proof.
  assert (rect_wf window) as H by (apply wf_by_compute; reflexivity).
  split; [exact H|exact (subtract_exact window occ2 H ltac:(apply wf_by_compute; reflexivity))].
Defined.

Lemma visible_rects_witness :
  fits [occ1; occ2] [window] = true /\
  let vis := compute_visible_rects window [occ1; occ2] in
  (length vis <= 32)%nat /\ Forall (fun q => rect_wf q /\ is_empty q = false) vis /\ pairwise_disjoint vis /\
  (forall p, covers_any vis p -> covers window p /\ unoccluded [occ1; occ2] p) /\
  (fits [occ1; occ2] [window] = true -> forall p, covers window p -> unoccluded [occ1; occ2] p -> covers_any vis p).
Proof.
  split; [vm_compute; reflexivity|].
  refine (visible_rects_exact window [occ1; occ2] _ _); [apply wf_by_compute; reflexivity|].
  repeat (apply Forall_cons_2; [apply wf_by_compute; reflexivity|]). apply Forall_nil_2.
Defined.

(** Eleven small windows along a diagonal of a large one. *)
Definition big : Rect := mkRect 0 0 1000 1000.
Definition dots : list Rect := (fun k => mkRect (10 + 80 * k) (10 + 80 * k) 20 20) <$> range 0 11.

Lemma not_covers_any rs p : forallb (fun r => negb (coversb r p)) rs = true -> forall r, r ∈ rs -> ~ covers r p.
Proof.
  intros Hf r Hr Hc. rewrite forallb_forall in Hf. apply coversb_spec in Hc.
  specialize (Hf r (proj1 (list_elem_of_In _ _) Hr)). by rewrite Hc in Hf.
Qed.

(** A visible pixel can be dropped.  With eleven small windows above a large
    one, fewer than the sixteen the window manager passes, a pixel of the large
    window that no window hides is in none of the rectangles
    [compute_visible_rects] returns. *)
Theorem visible_pixel_dropped :
  rect_wf big /\ Forall rect_wf dots /\ (length dots <= 15)%nat /\
  exists p, covers big p /\ unoccluded dots p /\ ~ covers_any (compute_visible_rects big dots) p.
Proof.
  split_and!; [apply wf_by_compute; reflexivity| |vm_compute; lia|].
  - apply Forall_fmap, Forall_forall. intros k [? ?]%elem_of_range. unfold rect_wf, compose, i32_min, i32_max. cbn. lia.
  - exists (500, 20). split_and!; [apply coversb_spec; reflexivity|refine (not_covers_any dots (500, 20) _); vm_compute; reflexivity|].
    intros (q & Hq & Hc). refine (not_covers_any (compute_visible_rects big dots) (500, 20) _ q Hq Hc).
    vm_compute. reflexivity.
Qed.
End GeometryWitness.
