(* ===== verification/Damage.v ===== *)
(** * Damage regions ([kernel_rs/src/damage.rs])

    The dirty rectangles of a frame: [rects[..count]] is a list.  The merge loop
    restarts after every merge; [MERGE_FUEL] steps are enough for sixteen
    rectangles. *)

From S2P Require Import Prelude Geometry.

Definition MAX_DIRTY_RECTS : nat := 16.

Definition i32_add (a b : Z) : Z := signed 32 (a + b).

Definition rects_overlap_or_adjacent (a b : Rect) : bool :=
  let a_x1 := i32_add (x a) (signed 32 (width a)) in
  let a_y1 := i32_add (y a) (signed 32 (height a)) in
  let b_x1 := i32_add (x b) (signed 32 (width b)) in
  let b_y1 := i32_add (y b) (signed 32 (height b)) in
  negb ((a_x1 <? x b) || (b_x1 <? x a) || (a_y1 <? y b) || (b_y1 <? y a)).

Definition union_rect (a b : Rect) : Rect :=
  let x0 := Z.min (x a) (x b) in
  let y0 := Z.min (y a) (y b) in
  let x1 := Z.max (i32_add (x a) (signed 32 (width a))) (i32_add (x b) (signed 32 (width b))) in
  let y1 := Z.max (i32_add (y a) (signed 32 (height a))) (i32_add (y b) (signed 32 (height b))) in
  mkRect x0 y0 (u32 (Z.max (signed 32 (x1 - x0)) 0)) (u32 (Z.max (signed 32 (y1 - y0)) 0)).

(** [swap(i, count - 1); count -= 1]. *)
Definition swap_remove (rects : list Rect) (i : nat) : list Rect :=
  match last rects with
  | Some l => take (length rects - 1) (<[i := l]> rects)
  | None => rects
  end.

Definition MERGE_FUEL : nat := 289.

(** The merge loop: the remaining rectangles and the merged one; [None] is out of
    fuel. *)
Fixpoint merge_loop (fuel : nat) (rects : list Rect) (i : nat) (new_rect : Rect) : option (list Rect * Rect) :=
  match fuel with
  | O => None
  | S fuel' =>
      match rects !! i with
      | None => Some (rects, new_rect)
      | Some r =>
          if rects_overlap_or_adjacent r new_rect
          then merge_loop fuel' (swap_remove rects i) 0 (union_rect r new_rect)
          else merge_loop fuel' rects (S i) new_rect
      end
  end.

Definition add_rect (rects : list Rect) (new_rect : Rect) : option (list Rect) :=
  if (width new_rect =? 0) || (height new_rect =? 0) then Some rects else
  '(rects, new_rect) ← merge_loop MERGE_FUEL rects 0 new_rect;
  if (length rects <? MAX_DIRTY_RECTS)%nat then Some (rects ++ [new_rect])
  else Some [foldl (fun bounding r => union_rect bounding r) new_rect rects].

Definition clear : list Rect := [].
Definition total_pixels (rects : list Rect) : Z :=
  foldl (fun acc r => u64 (acc + u64 (width r * height r))) 0 rects.

(** ** Properties *)

Lemma i32_edges r : rect_wf r ->
  i32_add (x r) (signed 32 (width r)) = x r + width r /\ i32_add (y r) (signed 32 (height r)) = y r + height r.
Proof.
  intros (Hx & Hy & Hw & Hh & Hr & Hb). unfold i32_min, i32_max in *.
  assert (forall v, - 2 ^ 31 <= v < 2 ^ 31 -> signed 32 v = v) as Hs.
  { intros v Hv. unfold signed. destruct (Z.ltb_spec (wrap 32 v) (2 ^ 31)) as [H|H]; change (2 ^ (32 - 1)) with (2 ^ 31).
    - rewrite (proj2 (Z.ltb_lt _ _)) by done. unfold wrap in *. destruct (decide (0 <= v)).
      + by rewrite Z.mod_small in * by lia.
      + assert (v mod 2 ^ 32 = v + 2 ^ 32) as Hm by (symmetry; apply (Z.mod_unique _ _ (-1)); lia). lia.
    - rewrite (proj2 (Z.ltb_ge _ _)) by done. unfold wrap in *. destruct (decide (0 <= v)).
      + rewrite Z.mod_small in * by lia. lia.
      + assert (v mod 2 ^ 32 = v + 2 ^ 32) as Hm by (symmetry; apply (Z.mod_unique _ _ (-1)); lia). lia. }
  unfold i32_add. rewrite !(Hs (width r)), !(Hs (height r)) by lia. rewrite !Hs by lia. done.
Qed.

(** Strictly apart: no shared pixel and no shared edge. *)
Definition apart (a b : Rect) : Prop := rects_overlap_or_adjacent a b = false.

Lemma apart_iff a b : rect_wf a -> rect_wf b ->
  apart a b <-> x a + width a < x b \/ x b + width b < x a \/ y a + height a < y b \/ y b + height b < y a.
Proof.
  intros Ha Hb. destruct (i32_edges a Ha) as [Ea Fa], (i32_edges b Hb) as [Eb Fb].
  unfold apart, rects_overlap_or_adjacent. rewrite Ea, Fa, Eb, Fb.
  rewrite negb_false_iff, !orb_true_iff, !Z.ltb_lt. tauto.
Qed.

Lemma apart_sym a b : rect_wf a -> rect_wf b -> apart a b -> apart b a.
Proof. intros Ha Hb. rewrite !apart_iff by done. tauto. Qed.

(** Rectangles within 2^30 of the origin: unions of them do not overflow. *)
Definition rect_small (r : Rect) : Prop :=
  - 2 ^ 30 <= x r /\ - 2 ^ 30 <= y r /\ 0 < width r /\ 0 < height r /\ x r + width r < 2 ^ 30 /\ y r + height r < 2 ^ 30.

Lemma small_wf r : rect_small r -> rect_wf r.
Proof. unfold rect_small, rect_wf, i32_min, i32_max. lia. Qed.

Lemma signed_small v : 0 <= v < 2 ^ 31 -> signed 32 v = v.
Proof. intros Hv. unfold signed. rewrite wrap_small by (red; lia). by rewrite (proj2 (Z.ltb_lt _ _)) by (cbn; lia). Qed.

Definition within (r s : Rect) : Prop :=
  x s <= x r /\ y s <= y r /\ x r + width r <= x s + width s /\ y r + height r <= y s + height s.

Lemma within_covers r s p : within r s -> covers r p -> covers s p.
Proof. unfold within, covers. lia. Qed.

Lemma within_trans r s t : within r s -> within s t -> within r t.
Proof. unfold within. lia. Qed.

(** The union is the least rectangle around both. *)
Lemma union_spec a b : rect_small a -> rect_small b ->
  rect_small (union_rect a b) /\ within a (union_rect a b) /\ within b (union_rect a b) /\
  forall s, within a s -> within b s -> within (union_rect a b) s.
Proof.
  intros Ha Hb. destruct (i32_edges a (small_wf a Ha)) as [Ea Fa], (i32_edges b (small_wf b Hb)) as [Eb Fb].
  unfold union_rect. rewrite Ea, Fa, Eb, Fb. unfold rect_small in *.
  rewrite !signed_small by lia. rewrite !(Z.max_l _ 0) by lia. rewrite !(wrap_small 32) by (red; lia).
  unfold rect_small, within. cbn [x y width height]. split_and!; [lia..|]. intros s. lia.
Qed.

Fixpoint pairwise_apart (rs : list Rect) : Prop :=
  match rs with
  | [] => True
  | r :: rs' => Forall (apart r) rs' /\ pairwise_apart rs'
  end.

Lemma pairwise_apart_lookup rs : pairwise_apart rs <->
  forall i j a b, (i < j)%nat -> rs !! i = Some a -> rs !! j = Some b -> apart a b.
Proof.
  induction rs as [|r rs IH]; cbn [pairwise_apart]; [split; done|]. rewrite IH, Forall_lookup. split.
  - intros [H1 H2] [|i] [|j] a b Hij; try lia; cbn.
    + intros [= <-]. apply H1.
    + apply H2. lia.
  - intros H. split; [intros j b; apply (H 0%nat (S j)); [lia|done]|]. intros i j a b Hij. apply (H (S i) (S j)). lia.
Qed.

Lemma swap_remove_lookup rs i r : rs !! i = Some r ->
  length (swap_remove rs i) = (length rs - 1)%nat /\
  forall k, (k < length rs - 1)%nat ->
    swap_remove rs i !! k = rs !! (if decide (k = i) then (length rs - 1)%nat else k).
Proof.
  intros Hi. pose proof (lookup_lt_Some _ _ _ Hi) as Hlt. unfold swap_remove. rewrite last_lookup.
  destruct (lookup_lt_is_Some_2 rs (pred (length rs)) ltac:(lia)) as [l Hl]. rewrite Hl. split.
  - rewrite length_take, length_insert. lia.
  - intros k Hk. rewrite lookup_take_lt by done. case_decide as Hd.
    + subst k. rewrite list_lookup_insert_eq by lia. rewrite <- Hl. f_equal. lia.
    + by rewrite list_lookup_insert_ne by done.
Qed.

(** Removal keeps every other rectangle, and only those. *)
Lemma swap_remove_elem rs i r : rs !! i = Some r ->
  (forall q, q ∈ swap_remove rs i -> q ∈ rs) /\ (forall q, q ∈ rs -> q = r \/ q ∈ swap_remove rs i).
Proof.
  intros Hi. destruct (swap_remove_lookup rs i r Hi) as [Hlen Hlk]. split.
  - intros q [k Hk]%list_elem_of_lookup. pose proof (lookup_lt_Some _ _ _ Hk).
    rewrite Hlk in Hk by lia. by eapply list_elem_of_lookup_2.
  - intros q [k Hk]%list_elem_of_lookup. pose proof (lookup_lt_Some _ _ _ Hk) as Hlt.
    destruct (decide (k = i)) as [->|Hne]; [left; congruence|right].
    destruct (decide (k = length rs - 1)%nat) as [->|Hnl].
    + pose proof (lookup_lt_Some _ _ _ Hi). apply list_elem_of_lookup. exists i. rewrite Hlk by lia. by rewrite decide_True.
    + apply list_elem_of_lookup. exists k. rewrite Hlk by lia. by rewrite decide_False.
Qed.

Definition region_ok (rs : list Rect) : Prop := Forall rect_small rs /\ pairwise_apart rs.

Lemma swap_remove_ok rs i r : rs !! i = Some r -> region_ok rs -> region_ok (swap_remove rs i).
Proof.
  intros Hi [Hs Ha]. destruct (swap_remove_elem rs i r Hi) as [Hsub _]. destruct (swap_remove_lookup rs i r Hi) as [Hlen Hlk].
  rewrite Forall_forall in Hs. split; [apply Forall_forall; auto|].
  rewrite pairwise_apart_lookup in Ha |- *. intros j k a b Hjk Hj Hk.
  assert (apart a b \/ apart b a) as [|Hba]; [|done|].
  2:{ apply apart_sym; [| |done]; apply small_wf, Hs, Hsub; by eapply list_elem_of_lookup_2. }
  pose proof (lookup_lt_Some _ _ _ Hk). rewrite Hlk in Hj, Hk by lia.
  destruct (decide (j = i)), (decide (k = i)); [lia|right; by eapply (Ha k (length rs - 1)%nat); [lia|..]|left..].
  - by eapply (Ha j (length rs - 1)%nat); [lia|..].
  - by eapply (Ha j k).
Qed.

(** The loop ends, keeps every pixel and leaves rectangles apart from the merged
    one. *)
Lemma merge_loop_spec fuel rs i new :
  region_ok rs -> rect_small new -> (i <= length rs)%nat -> Forall (fun r => apart r new) (take i rs) ->
  (length rs * length rs + length rs + (length rs - i) < fuel)%nat ->
  exists rs' new', merge_loop fuel rs i new = Some (rs', new') /\ region_ok rs' /\ rect_small new' /\
    (length rs' <= length rs)%nat /\ Forall (fun r => apart r new') rs' /\ within new new' /\
    forall q, q ∈ rs -> q ∈ rs' \/ within q new'.
Proof.
  revert rs i new. induction fuel as [|fuel IH]; intros rs i new Hok Hn Hi Hap Hf; [lia|]. cbn [merge_loop].
  destruct (rs !! i) as [r|] eqn:Hr.
  2:{ apply lookup_ge_None in Hr. exists rs, new. rewrite take_ge in Hap by lia.
      split_and!; [done|done|done|done|done|unfold within; lia|by left]. }
  pose proof (lookup_lt_Some _ _ _ Hr) as Hlt.
  assert (rect_small r) as Hrs by (destruct Hok as [H _]; rewrite Forall_lookup in H; eauto).
  destruct (rects_overlap_or_adjacent r new) eqn:Ho.
  - destruct (union_spec r new Hrs Hn) as (Hu & Hwr & Hwn & _). destruct (swap_remove_lookup rs i r Hr) as [Hlen _].
    destruct (IH (swap_remove rs i) 0%nat (union_rect r new)) as (rs' & new' & He & Hok' & Hn' & Hl' & Ha' & Hw' & Hkeep);
      [by eapply swap_remove_ok|done|lia|apply Forall_nil_2|rewrite Hlen; nia|].
    exists rs', new'. split_and!; [done..|lia|done|by eapply within_trans|]. intros q Hq.
    destruct (swap_remove_elem rs i r Hr) as [_ Hsplit]. destruct (Hsplit q Hq) as [->|Hq']; [right; by eapply within_trans|auto].
  - apply IH; [done|done|lia| |lia]. rewrite (take_S_r _ _ _ Hr). apply Forall_app_2; [done|by apply Forall_singleton].
Qed.

Lemma union_all_spec rs new : Forall rect_small rs -> rect_small new ->
  let u := foldl (fun b r => union_rect b r) new rs in
  rect_small u /\ within new u /\ Forall (fun r => within r u) rs.
Proof.
  intros Hs. revert new. induction Hs as [|r rs Hr Hs IH]; intros new Hn; cbn [foldl].
  - split_and!; [done|unfold within; lia|apply Forall_nil_2].
  - destruct (union_spec new r Hn Hr) as (Hu & H1 & H2 & _). destruct (IH _ Hu) as (A & B & C).
    split_and!; [done|by eapply within_trans|]. apply Forall_cons_2; [by eapply within_trans|done].
Qed.

(** No damage is lost.  Adding a rectangle to a region of at most sixteen
    rectangles, none touching another, returns a region with the same shape: at
    most sixteen rectangles, no two of them overlapping or adjacent, covering every
    pixel the region covered and every pixel of the new rectangle; an empty
    rectangle changes nothing. *)
Theorem add_rect_exact rs new :
  region_ok rs -> (length rs <= MAX_DIRTY_RECTS)%nat -> is_empty new = true \/ rect_small new ->
  exists rs', add_rect rs new = Some rs' /\ region_ok rs' /\ (length rs' <= MAX_DIRTY_RECTS)%nat /\
    (is_empty new = true -> rs' = rs) /\
    (is_empty new = false -> exists q, q ∈ rs' /\ within new q) /\
    forall r, r ∈ rs -> exists q, q ∈ rs' /\ within r q.
Proof.
  unfold MAX_DIRTY_RECTS. intros Hok Hlen Hnew. unfold add_rect. fold (is_empty new). destruct (is_empty new) eqn:He.
  { exists rs. split_and!; try done. intros r Hr. exists r. split; [done|unfold within; lia]. }
  destruct Hnew as [?|Hn]; [done|].
  destruct (merge_loop_spec MERGE_FUEL rs 0 new Hok Hn) as (rs' & new' & -> & [Hs' Ha'] & Hn' & Hl' & Hap & Hw & Hkeep);
    [lia|apply Forall_nil_2|unfold MERGE_FUEL; nia|]. cbn [mbind option_bind]. unfold MAX_DIRTY_RECTS.
  destruct (Nat.ltb_spec (length rs') 16) as [Hlt|Hge].
  - exists (rs' ++ [new']). split_and!; [done| | |done| |].
    + split; [apply Forall_app_2; [done|by apply Forall_singleton]|]. clear -Ha' Hap Hs' Hn'.
      induction rs' as [|r rs' IH]; cbn [app pairwise_apart]; [by split; [apply Forall_nil_2|]|].
      apply Forall_cons in Hap as [Hr Hap]. apply Forall_cons in Hs' as [_ Hs']. destruct Ha' as [H1 H2].
      split; [apply Forall_app_2; [done|by apply Forall_singleton]|by apply IH].
    + rewrite length_app. cbn. lia.
    + intros _. exists new'. split; [apply elem_of_app; right; by apply list_elem_of_singleton|done].
    + intros r Hr. destruct (Hkeep r Hr) as [H|H].
      * exists r. split; [apply elem_of_app; by left|unfold within; lia].
      * exists new'. split; [apply elem_of_app; right; by apply list_elem_of_singleton|done].
  - destruct (union_all_spec rs' new' Hs' Hn') as (Hu & Hwn & Hwr). set (u := foldl _ new' rs') in *.
    exists [u]. split_and!; [done| |cbn; lia|done| |].
    + split; [by apply Forall_singleton|by split; [apply Forall_nil_2|]].
    + intros _. exists u. split; [by apply list_elem_of_singleton|by eapply within_trans].
    + intros r Hr. exists u. split; [by apply list_elem_of_singleton|]. destruct (Hkeep r Hr) as [H|H]; [|by eapply within_trans].
      rewrite Forall_forall in Hwr. by apply Hwr.
Qed.

Lemma add_rect_witness :
  region_ok [mkRect 0 0 10 10; mkRect 40 0 10 10] /\
  exists rs', add_rect [mkRect 0 0 10 10; mkRect 40 0 10 10] (mkRect 8 5 30 2) = Some rs' /\ region_ok rs' /\
    (length rs' <= MAX_DIRTY_RECTS)%nat /\
    (is_empty (mkRect 8 5 30 2) = true -> rs' = [mkRect 0 0 10 10; mkRect 40 0 10 10]) /\
    (is_empty (mkRect 8 5 30 2) = false -> exists q, q ∈ rs' /\ within (mkRect 8 5 30 2) q) /\
    forall r, r ∈ [mkRect 0 0 10 10; mkRect 40 0 10 10] -> exists q, q ∈ rs' /\ within r q.
Proof.
  assert (region_ok [mkRect 0 0 10 10; mkRect 40 0 10 10]) as H.
  { split; [repeat (apply Forall_cons_2; [unfold rect_small; cbn; lia|]); apply Forall_nil_2|].
    cbn [pairwise_apart]. split; [apply Forall_singleton; reflexivity|]. split; [apply Forall_nil_2|exact I]. }
  split; [exact H|]. refine (add_rect_exact _ (mkRect 8 5 30 2) H _ _); [unfold MAX_DIRTY_RECTS; cbn; lia|].
  right. unfold rect_small. cbn. lia.
Defined.
