(* ===== verification/Crypto.v ===== *)
(** * Cryptographic primitives ([kernel_common/src/crypto.rs])

    SHA-256 as the streaming state machine of the source, proved equal to the
    padded one-shot definition for every way of cutting the message into pieces;
    HMAC-SHA256, the constant-time comparison and ChaCha20 on top of it. *)

From S2P Require Import Prelude.

Definition H0 : list Z :=
  [0x6a09e667; 0xbb67ae85; 0x3c6ef372; 0xa54ff53a; 0x510e527f; 0x9b05688c; 0x1f83d9ab; 0x5be0cd19].

(** The round constants, by the rounds they serve. *)
Definition K_0_7 : list Z :=
  [0x428a2f98; 0x71374491; 0xb5c0fbcf; 0xe9b5dba5; 0x3956c25b; 0x59f111f1; 0x923f82a4; 0xab1c5ed5].
Definition K_8_15 : list Z :=
  [0xd807aa98; 0x12835b01; 0x243185be; 0x550c7dc3; 0x72be5d74; 0x80deb1fe; 0x9bdc06a7; 0xc19bf174].
Definition K_16_23 : list Z :=
  [0xe49b69c1; 0xefbe4786; 0x0fc19dc6; 0x240ca1cc; 0x2de92c6f; 0x4a7484aa; 0x5cb0a9dc; 0x76f988da].
Definition K_24_31 : list Z :=
  [0x983e5152; 0xa831c66d; 0xb00327c8; 0xbf597fc7; 0xc6e00bf3; 0xd5a79147; 0x06ca6351; 0x14292967].
Definition K_32_39 : list Z :=
  [0x27b70a85; 0x2e1b2138; 0x4d2c6dfc; 0x53380d13; 0x650a7354; 0x766a0abb; 0x81c2c92e; 0x92722c85].
Definition K_40_47 : list Z :=
  [0xa2bfe8a1; 0xa81a664b; 0xc24b8b70; 0xc76c51a3; 0xd192e819; 0xd6990624; 0xf40e3585; 0x106aa070].
Definition K_48_55 : list Z :=
  [0x19a4c116; 0x1e376c08; 0x2748774c; 0x34b0bcb5; 0x391c0cb3; 0x4ed8aa4a; 0x5b9cca4f; 0x682e6ff3].
Definition K_56_63 : list Z :=
  [0x748f82ee; 0x78a5636f; 0x84c87814; 0x8cc70208; 0x90befffa; 0xa4506ceb; 0xbef9a3f7; 0xc67178f2].

Definition K : list Z := K_0_7 ++ K_8_15 ++ K_16_23 ++ K_24_31 ++ K_32_39 ++ K_40_47 ++ K_48_55 ++ K_56_63.

Definition ch (x y z : Z) : Z := Z.lxor (Z.land x y) (Z.land (wnot 32 x) z).
Definition maj (x y z : Z) : Z := Z.lxor (Z.lxor (Z.land x y) (Z.land x z)) (Z.land y z).
Definition big_sigma0 (x : Z) : Z := Z.lxor (Z.lxor (rotr 32 x 2) (rotr 32 x 13)) (rotr 32 x 22).
Definition big_sigma1 (x : Z) : Z := Z.lxor (Z.lxor (rotr 32 x 6) (rotr 32 x 11)) (rotr 32 x 25).
Definition small_sigma0 (x : Z) : Z := Z.lxor (Z.lxor (rotr 32 x 7) (rotr 32 x 18)) (Z.shiftr x 3).
Definition small_sigma1 (x : Z) : Z := Z.lxor (Z.lxor (rotr 32 x 17) (rotr 32 x 19)) (Z.shiftr x 10).

Record Sha256 := mkSha { state : list Z; buffer : bytes; buffer_len : nat; total_len : Z }.

Definition sha_new : Sha256 := mkSha H0 (replicate 64 0) 0 0.

(** The first sixteen words of the schedule, then the rest. *)
Definition schedule (block : bytes) : option (list Z) :=
  w ← mapM (fun i => be_val <$> rslice block (i * 4) 4) (seq 0 16);
  foldM (fun w i =>
    w15 ← w !! (i - 15)%nat; w2 ← w !! (i - 2)%nat; w16 ← w !! (i - 16)%nat; w7 ← w !! (i - 7)%nat;
    Some (w ++ [u32 (u32 (u32 (w16 + small_sigma0 w15) + w7) + small_sigma1 w2)])) w (seq 16 48).

(** One round on [(a, b, c, d, e, f, g, h)]. *)
Definition round (v : Z * Z * Z * Z * Z * Z * Z * Z) (kw : Z * Z) : Z * Z * Z * Z * Z * Z * Z * Z :=
  let '(a, b, c, d, e, f, g, h) := v in
  let t1 := u32 (u32 (u32 (u32 (h + big_sigma1 e) + ch e f g) + kw.1) + kw.2) in
  let t2 := u32 (big_sigma0 a + maj a b c) in
  (u32 (t1 + t2), a, b, c, u32 (d + t1), e, f, g).

Definition process_block (st : list Z) (block : bytes) : option (list Z) :=
  w ← schedule block;
  match st with
  | [s0; s1; s2; s3; s4; s5; s6; s7] =>
      let '(a, b, c, d, e, f, g, h) := foldl round (s0, s1, s2, s3, s4, s5, s6, s7) (zip K w) in
      Some [u32 (s0 + a); u32 (s1 + b); u32 (s2 + c); u32 (s3 + d); u32 (s4 + e); u32 (s5 + f); u32 (s6 + g); u32 (s7 + h)]
  | _ => None
  end.

(** [while data.len() >= 64]; the fuel is the data's length. *)
Fixpoint absorb (fuel : nat) (st : list Z) (data : bytes) : option (list Z * bytes) :=
  match fuel with
  | O => Some (st, data)
  | S fuel' =>
      if (64 <=? length data)%nat then
        st ← process_block st (take 64 data);
        absorb fuel' st (drop 64 data)
      else Some (st, data)
  end.

(** What follows the partial block. *)
Definition update_rest (st : list Z) (buf : bytes) (total : Z) (data : bytes) : option Sha256 :=
  '(st, data) ← absorb (length data) st data;
  match data with
  | [] => Some (mkSha st buf 0 total)
  | _ => buf ← wslice buf 0 data; Some (mkSha st buf (length data) total)
  end.

Definition update (s : Sha256) (data : bytes) : option Sha256 :=
  let total := u64 (total_len s + Z.of_nat (length data)) in
  if (0 <? buffer_len s)%nat then
    let needed := (64 - buffer_len s)%nat in
    if (length data <? needed)%nat then
      buf ← wslice (buffer s) (buffer_len s) data;
      Some (mkSha (state s) buf (buffer_len s + length data) total)
    else
      buf ← wslice (buffer s) (buffer_len s) (take needed data);
      st ← process_block (state s) buf;
      update_rest st buf total (drop needed data)
  else update_rest (state s) (buffer s) total data.

Definition words_to_bytes (st : list Z) : bytes := st ≫= be_bytes 4.

Definition finalize (s : Sha256) : option bytes :=
  let bit_len := u64 (total_len s * 8) in
  buf ← wbyte (buffer s) (buffer_len s) 0x80;
  let len := (buffer_len s + 1)%nat in
  '(st, buf, len) ←
    (if (56 <? len)%nat then
       buf ← wslice buf len (replicate (64 - len) 0);
       st ← process_block (state s) buf;
       Some (st, buf, 0%nat)
     else Some (state s, buf, len));
  buf ← wslice buf len (replicate (56 - len) 0);
  buf ← wslice buf 56 (be_bytes 8 bit_len);
  st ← process_block st buf;
  Some (words_to_bytes st).

Definition digest (data : bytes) : option bytes := s ← update sha_new data; finalize s.

(** [diff |= x ^ y] over the pairs. *)
Definition constant_time_eq (a b : bytes) : bool :=
  if negb (length a =? length b)%nat then false
  else foldl (fun diff p => Z.lor diff (Z.lxor p.1 p.2)) 0 (zip a b) =? 0.

Definition xor_pad (c : Z) (key_block : bytes) : bytes := Z.lxor c <$> key_block.

Definition mac (key message : bytes) : option bytes :=
  key_block ← (if (64 <? length key)%nat
               then key_digest ← digest key; wslice (replicate 64 0) 0 key_digest
               else wslice (replicate 64 0) 0 key);
  inner ← update sha_new (xor_pad 0x36 key_block);
  inner ← update inner message;
  inner_hash ← finalize inner;
  outer ← update sha_new (xor_pad 0x5c key_block);
  outer ← update outer inner_hash;
  finalize outer.

Definition hmac_verify (key message tag : bytes) : option bool :=
  expected ← mac key message; Some (constant_time_eq expected tag).

(** ** ChaCha20 *)

Definition quarter_round (st : list Z) (a b c d : nat) : option (list Z) :=
  va ← st !! a; vb ← st !! b; vc ← st !! c; vd ← st !! d;
  let va := u32 (va + vb) in let vd := rotl 32 (Z.lxor vd va) 16 in
  let vc := u32 (vc + vd) in let vb := rotl 32 (Z.lxor vb vc) 12 in
  let va := u32 (va + vb) in let vd := rotl 32 (Z.lxor vd va) 8 in
  let vc := u32 (vc + vd) in let vb := rotl 32 (Z.lxor vb vc) 7 in
  Some (<[d := vd]> (<[c := vc]> (<[b := vb]> (<[a := va]> st)))).

Definition double_round (st : list Z) : option (list Z) :=
  foldM (fun st q => let '(a, b, c, d) := q in quarter_round st a b c d) st
    [(0, 4, 8, 12); (1, 5, 9, 13); (2, 6, 10, 14); (3, 7, 11, 15);
     (0, 5, 10, 15); (1, 6, 11, 12); (2, 7, 8, 13); (3, 4, 9, 14)]%nat.

Definition words (b : bytes) (n : nat) : option (list Z) := mapM (fun i => le_val <$> rslice b (i * 4) 4) (seq 0 n).

Definition chacha_block (key nonce : bytes) (counter : Z) : option bytes :=
  kw ← words key 8;
  nw ← words nonce 3;
  let initial := [0x61707865; 0x3320646e; 0x79622d32; 0x6b206574] ++ kw ++ [counter] ++ nw in
  st ← foldM (fun st _ => double_round st) initial (seq 0 10);
  Some (zip_with (fun a b => u32 (a + b)) st initial ≫= le_bytes 4).

(** The loop from [offset]; the data before it has been processed. *)
Fixpoint keystream_loop (fuel : nat) (key nonce : bytes) (counter : Z) (data : bytes) : option bytes :=
  match fuel with
  | O => Some data
  | S fuel' =>
      match data with
      | [] => Some []
      | _ =>
          keyblock ← chacha_block key nonce counter;
          rest ← keystream_loop fuel' key nonce (u32 (counter + 1)) (drop 64 data);
          Some (zip_with Z.lxor (take 64 data) keyblock ++ rest)
      end
  end.

Definition apply_keystream (key nonce : bytes) (start_counter : Z) (data : bytes) : option bytes :=
  keystream_loop (length data) key nonce start_counter data.

(** ["SECT"] *)
Definition sector_nonce (sector_lba : Z) : bytes := le_bytes 8 sector_lba ++ [83; 69; 67; 84].

Definition transform_sector (key : bytes) (sector_lba : Z) (sector_data : bytes) : option bytes :=
  apply_keystream key (sector_nonce sector_lba) 1 sector_data.

(** ** The one-shot definition *)

Definition compress (st : list Z) (block : bytes) : list Z := default st (process_block st block).

(** The first [n] blocks of 64 bytes. *)
Fixpoint chunks (n : nat) (m : bytes) : list bytes :=
  match n with
  | O => []
  | S n' => take 64 m :: chunks n' (drop 64 m)
  end.

(** FIPS 180-4 padding: a one bit, zeros, and the length in bits. *)
Definition padding (len : nat) : bytes :=
  0x80 :: replicate (Z.to_nat ((55 - Z.of_nat len) mod 64)) 0 ++ be_bytes 8 (u64 (Z.of_nat len * 8)).
Definition pad (m : bytes) : bytes := m ++ padding (length m).

Definition sha256_ref (m : bytes) : bytes :=
  words_to_bytes (foldl compress H0 (chunks (length (pad m) / 64) (pad m))).

Lemma schedule_total block : length block = 64%nat -> exists w, schedule block = Some w.
Proof.
  intros Hb. unfold schedule.
  assert (exists w, mapM (fun i => be_val <$> rslice block (i * 4) 4) (seq 0 16) = Some w /\ length w = 16%nat) as (w & -> & Hw).
  { assert (is_Some (mapM (fun i => be_val <$> rslice block (i * 4) 4) (seq 0 16))) as [w Hw].
    { apply mapM_is_Some, Forall_forall. intros i Hi%elem_of_seq. apply fmap_is_Some. unfold rslice.
      rewrite decide_True by lia. eauto. }
    exists w. split; [done|]. apply length_mapM in Hw. by rewrite length_seq in Hw. }
  cbn [mbind option_bind].
  enough (forall k n w, (16 <= n)%nat -> length w = n -> exists w', foldM (fun w i =>
    w15 ← w !! (i - 15)%nat; w2 ← w !! (i - 2)%nat; w16 ← w !! (i - 16)%nat; w7 ← w !! (i - 7)%nat;
    Some (w ++ [u32 (u32 (u32 (w16 + small_sigma0 w15) + w7) + small_sigma1 w2)])) w (seq n k) = Some w') as H by (apply H; lia).
  clear. induction k as [|k IH]; intros n w Hn Hw; [by exists w|]. cbn [seq foldM].
  destruct (lookup_lt_is_Some_2 w (n - 15) ltac:(lia)) as [w15 ->].
  destruct (lookup_lt_is_Some_2 w (n - 2) ltac:(lia)) as [w2 ->].
  destruct (lookup_lt_is_Some_2 w (n - 16) ltac:(lia)) as [w16 ->].
  destruct (lookup_lt_is_Some_2 w (n - 7) ltac:(lia)) as [w7 ->].
  cbn [mbind option_bind]. apply IH; [lia|]. rewrite length_app. cbn. lia.
Qed.

Lemma process_total st block : length st = 8%nat -> length block = 64%nat ->
  process_block st block = Some (compress st block) /\ length (compress st block) = 8%nat.
Proof.
  intros Hs Hb. unfold compress, process_block. destruct (schedule_total block Hb) as [w ->]. cbn [mbind option_bind].
  do 8 (destruct st as [|? st]; [done|]). destruct st; [|done].
  destruct (foldl round _ _) as [[[[[[[? ?] ?] ?] ?] ?] ?] ?]. done.
Qed.

Lemma chunks_app n k a b : length a = (64 * n)%nat -> chunks (n + k) (a ++ b) = chunks n a ++ chunks k b.
Proof.
  revert a. induction n as [|n IH]; intros a Ha.
  - by apply length_zero_iff_nil in Ha as ->.
  - cbn [chunks Nat.add app]. rewrite take_app_le, drop_app_le by lia. by rewrite IH by (rewrite length_drop; lia).
Qed.

Lemma chunks_prefix n a b : length a = (64 * n)%nat -> chunks n (a ++ b) = chunks n a.
Proof. intros Ha. rewrite <- (Nat.add_0_r n) at 1. rewrite chunks_app by done. apply app_nil_r. Qed.

Lemma chunks_one b : length b = 64%nat -> chunks 1 b = [b].
Proof. intros Hb. cbn [chunks]. by rewrite take_ge by lia. Qed.

(** The words after a whole number of blocks. *)
Definition after (m : bytes) : list Z := foldl compress H0 (chunks (length m / 64) m).

Lemma after_snoc m b n : length m = (64 * n)%nat -> length b = 64%nat ->
  after (m ++ b) = compress (after m) b /\ length (after m) = 8%nat.
Proof.
  intros Hm Hb. unfold after. rewrite length_app, Hm, Hb.
  replace (64 * n + 64)%nat with ((n + 1) * 64)%nat by lia. rewrite (Nat.mul_comm 64 n), !Nat.div_mul by lia.
  rewrite chunks_app, chunks_one, foldl_app by done. split; [done|].
  assert (forall bs st, length st = 8%nat -> Forall (fun b => length b = 64%nat) bs -> length (foldl compress st bs) = 8%nat) as H.
  { induction bs as [|b' bs IH]; intros st Hs Hf; [done|]. apply Forall_cons in Hf as [H1 H2]. cbn [foldl].
    apply IH; [by apply process_total|done]. }
  apply H; [done|]. clear -Hm. revert m Hm. induction n as [|n IH]; intros m Hm; [apply Forall_nil_2|]. cbn [chunks].
  apply Forall_cons_2; [rewrite length_take; lia|apply IH; rewrite length_drop; lia].
Qed.

(** What a hasher that has absorbed [m] holds. *)
Definition hasher_ok (s : Sha256) (m : bytes) : Prop :=
  exists n done pending, m = done ++ pending /\ length done = (64 * n)%nat /\
    (length pending < 64)%nat /\ buffer_len s = length pending /\ length (buffer s) = 64%nat /\
    take (length pending) (buffer s) = pending /\ state s = after done /\
    total_len s = u64 (Z.of_nat (length m)).

Lemma absorb_spec fuel done n data : length done = (64 * n)%nat -> (length data < 64 * (fuel + 1))%nat ->
  exists full rest, absorb fuel (after done) data = Some (after (done ++ full), rest) /\
    data = full ++ rest /\ (length rest < 64)%nat /\ exists k, length full = (64 * k)%nat.
Proof.
  revert done n data. induction fuel as [|fuel IH]; intros d n data Hd Hf; cbn [absorb].
  - exists [], data. rewrite app_nil_r. split_and!; [done|done|lia|by exists 0%nat].
  - destruct (Nat.leb_spec 64 (length data)) as [Hge|Hlt].
    + assert (length (take 64 data) = 64%nat) as Ht by (rewrite length_take; lia).
      destruct (after_snoc d (take 64 data) n Hd Ht) as [Ha H8].
      destruct (process_total (after d) (take 64 data) H8 Ht) as [-> _]. cbn [mbind option_bind]. rewrite <- Ha.
      destruct (IH (d ++ take 64 data) (S n) (drop 64 data)) as (full & rest & -> & E & Hr & k & Hk);
        [rewrite length_app; lia|rewrite length_drop; lia|].
      exists (take 64 data ++ full), rest. rewrite <- !app_assoc. split_and!; [done| |done|].
      * by rewrite <- E, take_drop.
      * exists (S k). rewrite length_app. lia.
    + exists [], data. rewrite app_nil_r. split_and!; [done|done|lia|by exists 0%nat].
Qed.

Lemma update_rest_spec d n buf data total : length d = (64 * n)%nat -> length buf = 64%nat ->
  total = u64 (Z.of_nat (length (d ++ data))) ->
  exists s', update_rest (after d) buf total data = Some s' /\ hasher_ok s' (d ++ data).
Proof.
  intros Hd Hb Ht. unfold update_rest.
  destruct (absorb_spec (length data) d n data Hd ltac:(lia)) as (full & rest & -> & -> & Hr & k & Hk).
  cbn [mbind option_bind]. destruct rest as [|r0 rest'].
  - eexists. split; [done|]. exists (n + k)%nat, (d ++ full), []. cbn [length buffer_len buffer state total_len take].
    rewrite !app_nil_r in *. split_and!; [done|rewrite length_app; lia|lia|done|done|done|done|done].
  - set (rest := r0 :: rest') in *. destruct (wslice_is_Some buf 0 rest) as [buf' Hw]; [lia|]. rewrite Hw. cbn [mbind option_bind].
    eexists. split; [done|]. exists (n + k)%nat, (d ++ full), rest. cbn [buffer_len buffer state total_len].
    split_and!; [by rewrite app_assoc|rewrite length_app; lia|done|done|by rewrite (length_wslice _ _ _ _ Hw)| |done|done].
    apply wslice_Some in Hw as [_ ->]. rewrite take_0. cbn [app]. rewrite take_app_le by lia. by rewrite take_ge.
Qed.

Lemma total_step a b : u64 (u64 a + b) = u64 (a + b).
Proof. unfold wrap. by rewrite Z.add_mod_idemp_l by lia. Qed.

Lemma take_wslice (buf data : bytes) n buf' : (n <= length buf)%nat -> wslice buf n data = Some buf' ->
  take (n + length data) buf' = take n buf ++ data.
Proof.
  intros Hn [Hl ->]%wslice_Some. rewrite app_assoc. rewrite take_app_le by (rewrite length_app, length_take; lia).
  apply take_ge. rewrite length_app, length_take. lia.
Qed.

Lemma update_spec s m data : hasher_ok s m ->
  exists s', update s data = Some s' /\ hasher_ok s' (m ++ data).
Proof.
  intros (n & d & p & -> & Hd & Hp & Hbl & Hb & Htk & Hst & Htot). unfold update. rewrite Htot, total_step, Hst, Hbl.
  assert (Z.of_nat (length (d ++ p)) + Z.of_nat (length data) = Z.of_nat (length (d ++ p ++ data))) as ->
    by (rewrite !length_app; lia).
  rewrite <- app_assoc. destruct (Nat.ltb_spec 0 (length p)) as [H0|H0].
  - destruct (Nat.ltb_spec (length data) (64 - length p)) as [Hlt|Hge].
    + destruct (wslice_is_Some (buffer s) (length p) data) as [buf' Hw]; [lia|]. rewrite Hw. cbn [mbind option_bind].
      eexists. split; [done|]. exists n, d, (p ++ data). cbn [buffer_len buffer state total_len].
      rewrite length_app. split_and!; [done|done|lia|done|by rewrite (length_wslice _ _ _ _ Hw)| |done|done].
      rewrite (take_wslice (buffer s) data (length p) buf' ltac:(lia) Hw). by rewrite Htk.
    + set (needed := (64 - length p)%nat) in *. assert (length (take needed data) = needed) as Htn by (rewrite length_take; lia).
      destruct (wslice_is_Some (buffer s) (length p) (take needed data)) as [buf' Hw]; [lia|]. rewrite Hw. cbn [mbind option_bind].
      pose proof (take_wslice (buffer s) (take needed data) (length p) buf' ltac:(lia) Hw) as Hbuf. rewrite Htk, Htn in Hbuf.
      assert (length buf' = 64%nat) as Hb' by (by rewrite (length_wslice _ _ _ _ Hw)).
      rewrite take_ge in Hbuf by lia.
      destruct (after_snoc d buf' n Hd Hb') as [Ha H8]. destruct (process_total (after d) buf' H8 Hb') as [-> _].
      cbn [mbind option_bind]. rewrite <- Ha.
      assert (d ++ p ++ data = (d ++ buf') ++ drop needed data) as ->
        by (rewrite Hbuf, <- !app_assoc; by rewrite take_drop).
      apply (update_rest_spec _ (S n)); [rewrite length_app; lia|done|done].
  - assert (p = []) as -> by (destruct p; [done|cbn in H0; lia]). rewrite ?app_nil_r in *. cbn [app].
    by apply (update_rest_spec d n).
Qed.

Lemma padding_zeros n k len : (len < 64)%nat -> (k = if (len <? 56)%nat then 55 - len else 119 - len)%nat ->
  Z.to_nat ((55 - Z.of_nat (64 * n + len)) mod 64) = k.
Proof.
  intros Hl ->. destruct (Nat.ltb_spec len 56).
  - assert ((55 - Z.of_nat (64 * n + len)) mod 64 = 55 - Z.of_nat len) as ->; [|lia].
    symmetry. apply (Z.mod_unique _ _ (- Z.of_nat n)); lia.
  - assert ((55 - Z.of_nat (64 * n + len)) mod 64 = 119 - Z.of_nat len) as ->; [|lia].
    symmetry. apply (Z.mod_unique _ _ (- Z.of_nat n - 1)); lia.
Qed.

Lemma length_be_bytes n v : length (be_bytes n v) = n.
Proof. unfold be_bytes. by rewrite length_reverse, length_le_bytes. Qed.

(** The last block: whatever is in the buffer up to [len], zeros, the length. *)
Lemma last_block_spec d n buf len bits : length d = (64 * n)%nat -> length buf = 64%nat -> (len <= 56)%nat ->
  exists buf1 buf2, wslice buf len (replicate (56 - len) 0) = Some buf1 /\ wslice buf1 56 (be_bytes 8 bits) = Some buf2 /\
    process_block (after d) buf2 = Some (after (d ++ take len buf ++ replicate (56 - len) 0 ++ be_bytes 8 bits)).
Proof.
  intros Hd Hb Hl. destruct (wslice_is_Some buf len (replicate (56 - len) 0)) as [b1 H1]; [rewrite length_replicate; lia|].
  pose proof (length_wslice _ _ _ _ H1) as L1.
  destruct (wslice_is_Some b1 56 (be_bytes 8 bits)) as [b2 H2]; [rewrite length_be_bytes; lia|].
  pose proof (length_wslice _ _ _ _ H2) as L2. exists b1, b2. split_and!; [done|done|].
  pose proof (take_wslice buf (replicate (56 - len) 0) len b1 ltac:(lia) H1) as T1. rewrite length_replicate in T1.
  pose proof (take_wslice b1 (be_bytes 8 bits) 56 b2 ltac:(lia) H2) as T2. rewrite length_be_bytes in T2.
  replace (len + (56 - len))%nat with 56%nat in T1 by lia. rewrite T1 in T2. rewrite take_ge in T2 by (cbn; lia).
  rewrite <- app_assoc in T2. rewrite <- T2. destruct (after_snoc d b2 n Hd ltac:(lia)) as [-> H8].
  apply process_total; [done|lia].
Qed.

Lemma finalize_spec s m : hasher_ok s m -> finalize s = Some (sha256_ref m).
Proof.
  intros (n & d & p & -> & Hd & Hp & Hbl & Hb & Htk & Hst & Htot). unfold finalize, sha256_ref. fold (after (pad (d ++ p))).
  rewrite Htot, Hbl, Hst.
  assert (u64 (u64 (Z.of_nat (length (d ++ p))) * 8) = u64 (Z.of_nat (length (d ++ p)) * 8)) as ->
    by (unfold wrap; by rewrite Z.mul_mod_idemp_l by lia).
  unfold pad, padding. set (bits := u64 _). rewrite <- app_assoc, length_app, Hd.
  rewrite wbyte_wslice. destruct (wslice_is_Some (buffer s) (length p) [0x80]) as [b1 H1]; [cbn; lia|].
  pose proof (length_wslice _ _ _ _ H1) as L1.
  pose proof (take_wslice (buffer s) [0x80] (length p) b1 ltac:(lia) H1) as T1. rewrite Htk in T1. cbn [length] in T1.
  rewrite H1. cbn [mbind option_bind]. destruct (Nat.ltb_spec 56 (length p + 1)) as [Hbig|Hsmall].
  - destruct (wslice_is_Some b1 (length p + 1) (replicate (64 - (length p + 1)) 0)) as [b2 H2]; [rewrite length_replicate; lia|].
    pose proof (length_wslice _ _ _ _ H2) as L2.
    pose proof (take_wslice b1 (replicate (64 - (length p + 1)) 0) (length p + 1) b2 ltac:(lia) H2) as T2.
    rewrite length_replicate, T1 in T2. rewrite take_ge in T2 by lia.
    rewrite H2. cbn [mbind option_bind]. destruct (after_snoc d b2 n Hd ltac:(lia)) as [Ha H8].
    destruct (process_total (after d) b2 H8 ltac:(lia)) as [-> _]. cbn [mbind option_bind]. rewrite <- Ha.
    destruct (last_block_spec (d ++ b2) (S n) b2 0 bits) as (b3 & b4 & H3 & H4 & H5); [rewrite length_app; lia|lia|lia|].
    rewrite H3. cbn [mbind option_bind]. rewrite H4. cbn [mbind option_bind]. rewrite H5. cbn [mbind option_bind]. do 3 f_equal. rewrite (padding_zeros n (119 - length p)) by (lia || by destruct (Nat.ltb_spec (length p) 56); lia).
    rewrite T2, take_0, <- !app_assoc. cbn [app]. do 3 f_equal. rewrite app_assoc, <- replicate_add.
    f_equal. f_equal. lia.
  - cbn [mbind option_bind].
    destruct (last_block_spec d n b1 (length p + 1) bits) as (b3 & b4 & H3 & H4 & H5); [done|lia|lia|].
    rewrite H3. cbn [mbind option_bind]. rewrite H4. cbn [mbind option_bind]. rewrite H5. cbn [mbind option_bind]. do 3 f_equal. rewrite (padding_zeros n (55 - length p)) by (lia || by destruct (Nat.ltb_spec (length p) 56); lia).
    rewrite T1, <- !app_assoc. cbn [app]. replace (56 - (length p + 1))%nat with (55 - length p)%nat by lia. done.
Qed.

Lemma new_ok : hasher_ok sha_new [].
Proof. exists 0%nat, [], []. split_and!; (done || (cbn; lia)). Qed.

(** Feeding the pieces of a message one after another. *)
Definition stream (pieces : list bytes) : option Sha256 := foldM update sha_new pieces.

Lemma stream_spec pieces : exists s, stream pieces = Some s /\ hasher_ok s (concat pieces).
Proof.
  unfold stream. enough (forall s m, hasher_ok s m -> exists s', foldM update s pieces = Some s' /\ hasher_ok s' (m ++ concat pieces)) as H
    by exact (H sha_new [] new_ok).
  induction pieces as [|p ps IH]; intros s m Hs; cbn [foldM concat]; [exists s; by rewrite app_nil_r|].
  destruct (update_spec s m p Hs) as (s1 & -> & H1). cbn [mbind option_bind].
  destruct (IH s1 _ H1) as (s' & -> & H'). exists s'. by rewrite app_assoc.
Qed.

(** C40. Streaming SHA-256 is SHA-256.  However a message is cut into pieces, of
    any lengths and empty ones included, feeding them to [update] and calling
    [finalize] never panics and gives the digest of the whole message by the
    one-shot padded definition; [digest] is the case of one piece. *)
Theorem sha256_streaming pieces :
  (s ← stream pieces; finalize s) = Some (sha256_ref (concat pieces)) /\
  digest (concat pieces) = Some (sha256_ref (concat pieces)).
Proof.
  destruct (stream_spec pieces) as (s & -> & Hs). cbn [mbind option_bind]. split; [by apply finalize_spec|].
  unfold digest. destruct (update_spec sha_new [] (concat pieces) new_ok) as (s' & -> & H').
  cbn [mbind option_bind]. by apply finalize_spec.
Qed.

Lemma length_sha256_ref m : length (sha256_ref m) = 32%nat.
Proof.
  destruct (stream_spec [m]) as (s & _ & (n & d & p & Hm & Hd & Hp & _)). cbn [concat] in Hm. rewrite app_nil_r in Hm.
  unfold sha256_ref. fold (after (pad m)).
  assert (exists k, length (pad m) = (64 * k)%nat) as [k Hk].
  { unfold pad, padding. rewrite Hm, (length_app d p), Hd, length_app. cbn [length]. rewrite !length_app, length_replicate, length_be_bytes.
    destruct (Nat.ltb_spec (length p) 56) as [H|H].
    - rewrite (padding_zeros n (55 - length p)) by (lia || by destruct (Nat.ltb_spec (length p) 56); lia). exists (n + 1)%nat. lia.
    - rewrite (padding_zeros n (119 - length p)) by (lia || by destruct (Nat.ltb_spec (length p) 56); lia). exists (n + 2)%nat. lia. }
  destruct (after_snoc (pad m) (replicate 64 0) k Hk ltac:(by rewrite length_replicate)) as [_ H8].
  revert H8. generalize (after (pad m)). intros st H8. do 8 (destruct st as [|? st]; [done|]). by destruct st.
Qed.

(** ** Comparison and HMAC *)

Lemma diff_zero acc ps : foldl (fun diff (p : Z * Z) => Z.lor diff (Z.lxor p.1 p.2)) acc ps = 0 <->
  acc = 0 /\ Forall (fun p => p.1 = p.2) ps.
Proof.
  revert acc. induction ps as [|[x y] ps IH]; intros acc; cbn [foldl]; [split; [by intros ->|by intros [-> _]]|].
  rewrite IH, Forall_cons. cbn [fst snd]. rewrite Z.lor_eq_0_iff, Z.lxor_eq_0_iff. tauto.
Qed.

Lemma constant_time_eq_spec a b : constant_time_eq a b = bool_decide (a = b).
Proof.
  unfold constant_time_eq. destruct (Nat.eqb_spec (length a) (length b)) as [Hl|Hl]; cbn [negb].
  2:{ symmetry. apply bool_decide_false. by intros ->. }
  apply eq_bool_prop_intro. rewrite bool_decide_spec. rewrite Is_true_true, Z.eqb_eq, diff_zero. split.
  - intros [_ Hf]. revert b Hl Hf. induction a as [|x a IH]; intros [|y b] Hl Hf; [done..|].
    cbn [zip zip_with] in Hf. apply Forall_cons in Hf as [Hxy Hf]. cbn in Hxy. subst y. f_equal. apply IH; [by injection Hl|done].
  - intros ->. split; [done|]. clear. induction b as [|x b IH]; [apply Forall_nil_2|by apply Forall_cons_2].
Qed.

Definition hmac_key (key : bytes) : bytes :=
  let k := if (64 <? length key)%nat then sha256_ref key else key in k ++ replicate (64 - length k) 0.

(** RFC 2104. *)
Definition hmac_ref (key message : bytes) : bytes :=
  sha256_ref (xor_pad 0x5c (hmac_key key) ++ sha256_ref (xor_pad 0x36 (hmac_key key) ++ message)).

Lemma digest_spec m : digest m = Some (sha256_ref m).
Proof.
  unfold digest. destruct (update_spec sha_new [] m new_ok) as (s & -> & Hs). by apply finalize_spec.
Qed.

Lemma two_updates a b : (s ← update sha_new a; s ← update s b; finalize s) = Some (sha256_ref (a ++ b)).
Proof.
  destruct (update_spec sha_new [] a new_ok) as (s & -> & Hs). cbn [mbind option_bind].
  destruct (update_spec s _ b Hs) as (s' & -> & Hs'). cbn [mbind option_bind]. by apply finalize_spec.
Qed.

Lemma key_block_spec k : (length k <= 64)%nat -> wslice (replicate 64 0) 0 k = Some (k ++ replicate (64 - length k) 0).
Proof.
  intros Hk. unfold wslice. rewrite length_replicate, decide_True by lia. rewrite take_0. cbn [app].
  by rewrite drop_replicate.
Qed.

Lemma mac_spec key message : mac key message = Some (hmac_ref key message).
Proof.
  unfold mac.
  assert ((if (64 <? length key)%nat then key_digest ← digest key; wslice (replicate 64 0) 0 key_digest
           else wslice (replicate 64 0) 0 key) = Some (hmac_key key)) as ->.
  { unfold hmac_key. destruct (Nat.ltb_spec 64 (length key)).
    - rewrite digest_spec. cbn [mbind option_bind]. apply key_block_spec. rewrite length_sha256_ref. lia.
    - by apply key_block_spec. }
  cbn [mbind option_bind].
  pose proof (two_updates (xor_pad 0x36 (hmac_key key)) message) as Hi.
  destruct (update sha_new (xor_pad 0x36 (hmac_key key))) as [s1|]; cbn [mbind option_bind] in Hi |- *; [|done].
  destruct (update s1 message) as [s2|]; cbn [mbind option_bind] in Hi |- *; [|done]. rewrite Hi. cbn [mbind option_bind].
  apply two_updates.
Qed.

(** HMAC.  For keys and messages of every length [mac] never panics and is
    the RFC 2104 construction over SHA-256, long keys hashed first, and [verify]
    accepts exactly the correct tag. *)
Theorem hmac_exact key message tag :
  mac key message = Some (hmac_ref key message) /\
  hmac_verify key message tag = Some (bool_decide (hmac_ref key message = tag)).
Proof. unfold hmac_verify. rewrite mac_spec. cbn [mbind option_bind]. by rewrite constant_time_eq_spec. Qed.

(** ** The stream cipher *)

Lemma quarter_round_total st a b c d : length st = 16%nat -> (a < 16)%nat -> (b < 16)%nat -> (c < 16)%nat -> (d < 16)%nat ->
  exists st', quarter_round st a b c d = Some st' /\ length st' = 16%nat.
Proof.
  intros Hs Ha Hb Hc Hd. unfold quarter_round.
  destruct (lookup_lt_is_Some_2 st a ltac:(lia)) as [va ->]. destruct (lookup_lt_is_Some_2 st b ltac:(lia)) as [vb ->].
  destruct (lookup_lt_is_Some_2 st c ltac:(lia)) as [vc ->]. destruct (lookup_lt_is_Some_2 st d ltac:(lia)) as [vd ->].
  cbn [mbind option_bind]. eexists. split; [done|]. by rewrite !length_insert.
Qed.

Lemma words_total b n : length b = (4 * n)%nat -> exists w, words b n = Some w /\ length w = n.
Proof.
  intros Hb. unfold words.
  assert (is_Some (mapM (fun i => le_val <$> rslice b (i * 4) 4) (seq 0 n))) as [w Hw].
  { apply mapM_is_Some, Forall_forall. intros i Hi%elem_of_seq. apply fmap_is_Some. unfold rslice.
    rewrite decide_True by lia. eauto. }
  exists w. split; [done|]. apply length_mapM in Hw. by rewrite length_seq in Hw.
Qed.

Lemma length_bind_le (ws : list Z) : length (ws ≫= le_bytes 4) = (4 * length ws)%nat.
Proof. induction ws as [|w ws IH]; [done|]. cbn [mbind list_bind]. rewrite length_app, length_le_bytes. cbn [length mbind list_bind] in *. lia. Qed.

Section cipher.
Context (key nonce : bytes) (Hk : length key = 32%nat) (Hn : length nonce = 12%nat).

Lemma chacha_block_total counter : exists kb, chacha_block key nonce counter = Some kb /\ length kb = 64%nat.
Proof using Hk Hn.
  unfold chacha_block. destruct (words_total key 8) as (kw & -> & Hkw); [lia|].
  destruct (words_total nonce 3) as (nw & -> & Hnw); [lia|]. cbn [mbind option_bind].
  set (initial := _ ++ kw ++ _). assert (length initial = 16%nat) as Hi.
  { unfold initial. rewrite !length_app, Hkw, Hnw. done. }
  destruct (foldM_ind (fun st => length st = 16%nat) (fun st _ => double_round st) (seq 0 10) initial Hi) as (st & -> & Hst).
  { intros st i _ Hst. unfold double_round. apply (foldM_ind (fun st => length st = 16%nat)); [done|].
    intros st' [[[a b] c] d] Hq Hst'. apply quarter_round_total; [done|..];
      repeat (apply elem_of_cons in Hq as [[= -> -> -> ->]|Hq]; [lia|]); by apply not_elem_of_nil in Hq. }
  cbn [mbind option_bind]. eexists. split; [done|]. rewrite length_bind_le, length_zip_with. lia.
Qed.

(** Byte [i] of the keystream that starts at block [counter]. *)
Definition keystream (counter : Z) (i : nat) : Z :=
  default 0 (default [] (chacha_block key nonce (u32 (counter + Z.of_nat (i / 64)))) !! (i mod 64)%nat).

Lemma keystream_next counter i : keystream counter (64 + i) = keystream (u32 (counter + 1)) i.
Proof using Type.
  clear Hk Hn. unfold keystream. replace (64 + i)%nat with (i + 1 * 64)%nat by lia.
  rewrite Nat.div_add, Nat.Div0.mod_add by lia. do 4 f_equal. unfold wrap. rewrite Z.add_mod_idemp_l by lia. f_equal. lia.
Qed.

Lemma first_block kb counter data : in_width 32 counter -> (length data <= 64)%nat -> chacha_block key nonce counter = Some kb ->
  length kb = 64%nat -> zip_with Z.lxor data kb = imap (fun i b => Z.lxor b (keystream counter i)) data.
Proof using Type.
  clear Hk Hn. intros Hc Hl Hkb H64. apply list_eq. intros i. rewrite list_lookup_imap.
  destruct (data !! i) as [b|] eqn:Hi.
  2:{ apply lookup_ge_None in Hi. apply lookup_ge_None. rewrite length_zip_with. lia. }
  pose proof (lookup_lt_Some _ _ _ Hi).
  destruct (lookup_lt_is_Some_2 kb i ltac:(lia)) as [k Hki]. cbn [fmap option_fmap option_map].
  transitivity (Some (Z.lxor b k)); [apply lookup_zip_with_Some; by exists b, k|].
  unfold keystream. rewrite Nat.div_small, Nat.mod_small by lia. rewrite Z.add_0_r, (wrap_small 32) by done.
  rewrite Hkb. cbn [default]. cbn. destruct (kb !! i); [|done]. injection Hki as ->. done.
Qed.

Lemma keystream_loop_spec fuel counter data : in_width 32 counter -> (length data <= fuel)%nat ->
  keystream_loop fuel key nonce counter data = Some (imap (fun i b => Z.lxor b (keystream counter i)) data).
Proof using Hk Hn.
  revert counter data. induction fuel as [|fuel IH]; intros counter data Hc Hl; [by destruct data; cbn in Hl; [|lia]|].
  cbn [keystream_loop]. destruct (decide (data = [])) as [->|Hne]; [done|].
  destruct (chacha_block_total counter) as (kb & Hkb & H64). rewrite Hkb. cbn [mbind option_bind].
  rewrite (IH (u32 (counter + 1)) (drop 64 data)); [|by apply wrap_range|destruct data; [done|rewrite length_drop; cbn [length] in *; lia]].
  cbn [mbind option_bind].
  assert (zip_with Z.lxor (take 64 data) kb ++ imap (fun i b => Z.lxor b (keystream (u32 (counter + 1)) i)) (drop 64 data) =
    imap (fun i b => Z.lxor b (keystream counter i)) data) as Heq; [|rewrite <- Heq; by destruct data].
  rewrite <- (take_drop 64 data) at 3. rewrite imap_app.
  rewrite (first_block kb counter (take 64 data)); [|done|rewrite length_take; lia|done|done]. f_equal.
  destruct (Nat.le_gt_cases (length data) 64) as [H|H]; [by rewrite drop_ge by lia|].
  rewrite length_take, Nat.min_l by lia. apply imap_ext. intros i b _. cbn. by rewrite <- keystream_next.
Qed.
End cipher.

(** The stream cipher.  With a 32-byte key and a 12-byte nonce
    [apply_keystream] never panics on data of any length; byte [i] of the result
    is byte [i] of the data xored with byte [i] of the keystream, whose block
    counter wraps at 2^32; applying it again with the same key, nonce and counter
    restores the data. *)
Theorem apply_keystream_exact key nonce counter data :
  length key = 32%nat -> length nonce = 12%nat -> in_width 32 counter ->
  exists out, apply_keystream key nonce counter data = Some out /\
    out = imap (fun i b => Z.lxor b (keystream key nonce counter i)) data /\
    apply_keystream key nonce counter out = Some data.
Proof.
  intros Hk Hn Hc. unfold apply_keystream. eexists. split_and!; [by apply keystream_loop_spec|done|].
  rewrite keystream_loop_spec by done. f_equal. apply list_eq. intros i. rewrite !list_lookup_imap.
  destruct (data !! i) as [b|]; [|done]. cbn. by rewrite Z.lxor_assoc, Z.lxor_nilpotent, Z.lxor_0_r.
Qed.

Lemma sector_nonce_spec lba : length (sector_nonce lba) = 12%nat.
Proof. unfold sector_nonce. by rewrite length_app, length_le_bytes. Qed.

(** Sector encryption.  Encrypting a sector and decrypting it again restores
    it, and two different sector numbers never share a nonce. *)
Theorem transform_sector_roundtrip key lba lba' data :
  length key = 32%nat -> in_width 64 lba -> in_width 64 lba' ->
  (exists out, transform_sector key lba data = Some out /\ length out = length data /\ transform_sector key lba out = Some data) /\
  (sector_nonce lba = sector_nonce lba' -> lba = lba').
Proof.
  intros Hk Hl Hl'. split.
  - unfold transform_sector, apply_keystream.
    assert (in_width 32 1) as H1 by (red; lia). pose proof (sector_nonce_spec lba) as Hn.
    eexists. split_and!; [by apply keystream_loop_spec|by rewrite length_imap|].
    rewrite keystream_loop_spec by done. f_equal. apply list_eq. intros i. rewrite !list_lookup_imap.
    destruct (data !! i) as [b|]; [|done]. cbn. by rewrite Z.lxor_assoc, Z.lxor_nilpotent, Z.lxor_0_r.
  - intros He. apply app_inj_1 in He as [He _]; [|by rewrite !length_le_bytes].
    apply (f_equal le_val) in He. rewrite !le_val_le_bytes in He. rewrite !Z.mod_small in He by (red in Hl, Hl'; lia). done.
Qed.

(** ** Published test vectors, and witnesses *)

Module CryptoWitness.

(** ["abc"] *)
Example sha256_abc : digest [97; 98; 99] = Some
  [0xba; 0x78; 0x16; 0xbf; 0x8f; 0x01; 0xcf; 0xea; 0x41; 0x41; 0x40; 0xde; 0x5d; 0xae; 0x22; 0x23;
   0xb0; 0x03; 0x61; 0xa3; 0x96; 0x17; 0x7a; 0x9c; 0xb4; 0x10; 0xff; 0x61; 0xf2; 0x00; 0x15; 0xad].
Proof. vm_compute. reflexivity. Qed.

(** The empty message. *)
Example sha256_empty : digest [] = Some
  [0xe3; 0xb0; 0xc4; 0x42; 0x98; 0xfc; 0x1c; 0x14; 0x9a; 0xfb; 0xf4; 0xc8; 0x99; 0x6f; 0xb9; 0x24;
   0x27; 0xae; 0x41; 0xe4; 0x64; 0x9b; 0x93; 0x4c; 0xa4; 0x95; 0x99; 0x1b; 0x78; 0x52; 0xb8; 0x55].
Proof. vm_compute. reflexivity. Qed.

(** RFC 4231, case 1: key of twenty 0x0b bytes, ["Hi There"]. *)
Example hmac_rfc4231 : mac (replicate 20 0x0b) [72; 105; 32; 84; 104; 101; 114; 101] = Some
  [0xb0; 0x34; 0x4c; 0x61; 0xd8; 0xdb; 0x38; 0x53; 0x5c; 0xa8; 0xaf; 0xce; 0xaf; 0x0b; 0xf1; 0x2b;
   0x88; 0x1d; 0xc2; 0x00; 0xc9; 0x83; 0x3d; 0xa7; 0x26; 0xe9; 0x37; 0x6c; 0x2e; 0x32; 0xcf; 0xf7].
Proof. vm_compute. reflexivity. Qed.

Definition rfc_key : bytes := range 0 32.
Definition rfc_nonce : bytes := [0; 0; 0; 9; 0; 0; 0; 0x4a; 0; 0; 0; 0].

(** RFC 8439, section 2.3.2. *)
Example chacha_rfc8439 : chacha_block rfc_key rfc_nonce 1 = Some
  [0x10; 0xf1; 0xe7; 0xe4; 0xd1; 0x3b; 0x59; 0x15; 0x50; 0x0f; 0xdd; 0x1f; 0xa3; 0x20; 0x71; 0xc4;
   0xc7; 0xd1; 0xf4; 0xc7; 0x33; 0xc0; 0x68; 0x03; 0x04; 0x22; 0xaa; 0x9a; 0xc3; 0xd4; 0x6c; 0x4e;
   0xd2; 0x82; 0x64; 0x46; 0x07; 0x9f; 0xaa; 0x09; 0x14; 0xc2; 0xd7; 0x05; 0xd9; 0x8b; 0x02; 0xa2;
   0xb5; 0x12; 0x9c; 0xd1; 0xde; 0x16; 0x4e; 0xb9; 0xcb; 0xd0; 0x83; 0xe8; 0xa2; 0x50; 0x3c; 0x4e].
Proof. vm_compute. reflexivity. Qed.

Lemma apply_keystream_witness :
  length rfc_key = 32%nat /\
  exists out, apply_keystream rfc_key rfc_nonce 1 [1; 2; 3] = Some out /\
    out = imap (fun i b => Z.lxor b (keystream rfc_key rfc_nonce 1 i)) [1; 2; 3] /\
    apply_keystream rfc_key rfc_nonce 1 out = Some [1; 2; 3].
Proof.
  split; [reflexivity|]. refine (apply_keystream_exact rfc_key rfc_nonce 1 [1; 2; 3] _ _ _); [reflexivity..|red; lia].
Defined.

Lemma transform_sector_witness :
  length rfc_key = 32%nat /\
  (exists out, transform_sector rfc_key 7 [1; 2; 3] = Some out /\ length out = length [1; 2; 3] /\ transform_sector rfc_key 7 out = Some [1; 2; 3]) /\
  (sector_nonce 7 = sector_nonce 8 -> 7 = 8).
Proof.
  split; [reflexivity|]. refine (transform_sector_roundtrip rfc_key 7 8 [1; 2; 3] _ _ _); [reflexivity|red; lia..].
Defined.
End CryptoWitness.
