(* ===== verification/AuditRing.v ===== *)
(** * The on-disk audit ring ([kernel_common/src/audit_ring.rs]) and the boot step
    that appends to it ([user_rs/virtio_blk_driver/src/main.rs])

    A disk is a map from block numbers to 1024-byte blocks.  Buffers are byte
    lists; an access out of range panics, which is [None]. *)

From S2P Require Import Prelude Ext2.

Definition RING_MAGIC : Z := 0xA0D170C5.
Definition RING_SLOTS : Z := 4.
Definition MAX_MESSAGE_LEN : nat := 512.

Definition wu64 (b : bytes) (off : nat) (v : Z) : option bytes := wle 8 b off v.
Definition ru64 (b : bytes) (off : nat) : option Z := rle 8 b off.

Definition is_initialized (header_block : bytes) : option bool :=
  v ← ru32 header_block 0; Some (v =? RING_MAGIC).

Record RingHeader := mkHeader { next_write_index : Z; total_written_count : Z }.

Definition read_ring_header (header_block : bytes) : option RingHeader :=
  i ← ru32 header_block 4;
  c ← ru64 header_block 8;
  Some (mkHeader i c).

Definition build_header (b : bytes) (h : RingHeader) : option bytes :=
  b ← wu32 (vzero b) 0 RING_MAGIC;
  b ← wu32 b 4 (next_write_index h);
  wu64 b 8 (total_written_count h).

Definition build_record (b : bytes) (seq : Z) (message : bytes) : option bytes :=
  b ← wu64 (vzero b) 0 seq;
  let len := Nat.min (length message) MAX_MESSAGE_LEN in
  b ← wu32 b 8 (Z.of_nat len);
  wslice b 12 (take len message).

(** The filled [out], the sequence number and the length. *)
Definition read_record (record_block out : bytes) : option (bytes * (Z * nat)) :=
  seq ← ru64 record_block 0;
  l ← ru32 record_block 8;
  let len := Nat.min (Nat.min (Z.to_nat l) MAX_MESSAGE_LEN) (length out) in
  data ← rslice record_block 12 len;
  out ← wslice out 0 data;
  Some (out, (seq, len)).

(** ** One boot *)

Definition disk : Type := Z -> bytes.
Definition write_block (d : disk) (n : Z) (b : bytes) : disk := fun m => if m =? n then b else d m.

Definition AUDIT_RECORD_BLOCK_START : Z := TOTAL_BLOCKS + 1.
Definition zeroed_block : bytes := replicate BLOCK_SIZE 0.

(** The header a boot starts from. *)
Definition open_ring (d : disk) : option RingHeader :=
  i ← is_initialized (d AUDIT_HEADER_BLOCK);
  if (i : bool) then read_ring_header (d AUDIT_HEADER_BLOCK) else Some (mkHeader 0 0).

(** [run_audit_persistence_proof]: the disk after it and the self-check's
    verdict. *)
Definition run_audit_persistence_proof (d : disk) (message : bytes) : option (disk * bool) :=
  header ← open_ring d;
  let seq := total_written_count header in
  let slot := next_write_index header in
  record_block ← build_record zeroed_block seq message;
  let d := write_block d (u32 (AUDIT_RECORD_BLOCK_START + slot)) record_block in
  let header := mkHeader (u32 (slot + 1) mod RING_SLOTS) (u64 (seq + 1)) in
  new_header_block ← build_header zeroed_block header;
  let d := write_block d AUDIT_HEADER_BLOCK new_header_block in
  '(out, (read_seq, read_len)) ← read_record (d (u32 (AUDIT_RECORD_BLOCK_START + slot))) zeroed_block;
  read ← rslice out 0 read_len;
  Some (d, (read_seq =? seq) && (read_len =? length message)%nat && bool_decide (read = message)).

(** ** Properties *)

Lemma vzero_len (b : bytes) : length (vzero b) = length b.
Proof. unfold vzero. apply length_replicate. Qed.

Lemma header_roundtrip b h : length b = BLOCK_SIZE -> in_width 32 (next_write_index h) -> in_width 64 (total_written_count h) ->
  exists b', build_header b h = Some b' /\ is_initialized b' = Some true /\ read_ring_header b' = Some h.
Proof.
  intros Hb Hi Hc. unfold BLOCK_SIZE in Hb. unfold build_header, wu32, wu64.
  destruct (wle_is_Some 4 (vzero b) 0 RING_MAGIC) as [b1 H1]; [rewrite vzero_len; lia|].
  pose proof (wle_changed _ _ _ _ _ H1) as C1. pose proof C1 as [L1 _]. rewrite vzero_len in L1.
  destruct (wle_is_Some 4 b1 4 (next_write_index h)) as [b2 H2]; [lia|]. pose proof (wle_changed _ _ _ _ _ H2) as C2. pose proof C2 as [L2 _].
  destruct (wle_is_Some 8 b2 8 (total_written_count h)) as [b3 H3]; [lia|]. pose proof (wle_changed _ _ _ _ _ H3) as C3.
  rewrite H1. cbn [mbind option_bind]. rewrite H2. cbn [mbind option_bind]. exists b3. split; [done|].
  unfold is_initialized, read_ring_header, ru32, ru64. split.
  - rewrite (rle_agree 4 _ _ _ _ _ C3), (rle_agree 4 _ _ _ _ _ C2) by lia.
    rewrite (rle_wle_eq 4 _ _ _ _ H1) by (unfold RING_MAGIC; red; lia). done.
  - rewrite (rle_agree 4 _ _ _ _ _ C3) by lia. rewrite (rle_wle_eq 4 _ _ _ _ H2) by done. cbn [mbind option_bind].
    rewrite (rle_wle_eq 8 _ _ _ _ H3) by done. by destruct h.
Qed.

Lemma record_roundtrip b out seq message : length b = BLOCK_SIZE -> in_width 64 seq -> (length message <= 512)%nat ->
  (512 <= length out)%nat ->
  exists b', build_record b seq message = Some b' /\
    read_record b' out = Some (message ++ drop (length message) out, (seq, length message)).
Proof.
  intros Hb Hs Hm Ho. unfold BLOCK_SIZE in Hb. unfold build_record, wu32, wu64, MAX_MESSAGE_LEN. rewrite Nat.min_l, take_ge by lia.
  destruct (wle_is_Some 8 (vzero b) 0 seq) as [b1 H1]; [rewrite vzero_len; lia|].
  pose proof (wle_changed _ _ _ _ _ H1) as C1. pose proof C1 as [L1 _]. rewrite vzero_len in L1.
  destruct (wle_is_Some 4 b1 8 (Z.of_nat (length message))) as [b2 H2]; [lia|]. pose proof (wle_changed _ _ _ _ _ H2) as C2. pose proof C2 as [L2 _].
  destruct (wslice_is_Some b2 12 message) as [b3 H3]; [lia|]. pose proof (wslice_changed _ _ _ _ H3) as C3.
  rewrite H1. cbn [mbind option_bind]. rewrite H2. cbn [mbind option_bind]. exists b3. split; [done|].
  unfold read_record, ru32, ru64, MAX_MESSAGE_LEN.
  rewrite (rle_agree 8 _ _ _ _ _ C3), (rle_agree 8 _ _ _ _ _ C2) by lia. rewrite (rle_wle_eq 8 _ _ _ _ H1) by done. cbn [mbind option_bind].
  rewrite (rle_agree 4 _ _ _ _ _ C3) by lia. rewrite (rle_wle_eq 4 _ _ _ _ H2) by (red; lia). cbn [mbind option_bind].
  rewrite Nat2Z.id, !Nat.min_l by lia. rewrite (rslice_wslice_eq _ _ _ _ H3). cbn [mbind option_bind].
  unfold wslice. rewrite decide_True by lia. by rewrite take_0.
Qed.

(** Record [seq] of [messages] is on the disk, in the slot for its number. *)
Definition recorded (d : disk) (messages : list bytes) (seq : nat) : Prop :=
  exists m, messages !! seq = Some m /\
    forall out, (512 <= length out)%nat ->
      read_record (d (AUDIT_RECORD_BLOCK_START + Z.of_nat seq mod RING_SLOTS)) out =
        Some (m ++ drop (length m) out, (Z.of_nat seq, length m)).

(** A disk on which [messages] have been appended: the header counts them, and the
    newest four are readable. *)
Definition ring_ok (d : disk) (messages : list bytes) : Prop :=
  open_ring d = Some (mkHeader (Z.of_nat (length messages) mod RING_SLOTS) (Z.of_nat (length messages))) /\
  forall seq, (length messages <= seq + 4)%nat -> (seq < length messages)%nat -> recorded d messages seq.

Lemma boot_step d messages m : ring_ok d messages -> Z.of_nat (length messages) < 2 ^ 64 - 1 -> (length m <= 512)%nat ->
  exists d', run_audit_persistence_proof d m = Some (d', true) /\ ring_ok d' (messages ++ [m]) /\
    forall n, n < TOTAL_BLOCKS \/ AUDIT_RECORD_BLOCK_START + RING_SLOTS <= n -> d' n = d n.
Proof.
  intros [Hopen Hrec] Hlen Hm. set (n := length messages) in *.
  assert (0 <= Z.of_nat n mod RING_SLOTS < 4) as Hmod by (apply Z.mod_pos_bound; unfold RING_SLOTS; lia).
  destruct (record_roundtrip zeroed_block zeroed_block (Z.of_nat n) m) as (rb & Hrb & _);
    [apply length_replicate|red; lia|done|unfold zeroed_block, BLOCK_SIZE; rewrite length_replicate; lia|].
  assert (forall out, (512 <= length out)%nat -> read_record rb out = Some (m ++ drop (length m) out, (Z.of_nat n, length m))) as Hrd.
  { intros out Ho. destruct (record_roundtrip zeroed_block out (Z.of_nat n) m) as (rb' & Hrb' & Hr);
      [apply length_replicate|red; lia|done|done|]. congruence. }
  destruct (header_roundtrip zeroed_block (mkHeader (Z.of_nat (S n) mod RING_SLOTS) (Z.of_nat (S n)))) as (hb & Hhb & Hhi & Hhr);
    [apply length_replicate|cbn; assert (0 <= Z.of_nat (S n) mod RING_SLOTS < 4) by (apply Z.mod_pos_bound; unfold RING_SLOTS; lia); red; lia|cbn; red; lia|].
  assert (u32 (AUDIT_RECORD_BLOCK_START + Z.of_nat n mod RING_SLOTS) = AUDIT_RECORD_BLOCK_START + Z.of_nat n mod RING_SLOTS) as Hblk
    by (apply wrap_small; unfold AUDIT_RECORD_BLOCK_START, TOTAL_BLOCKS; red; lia).
  assert (u32 (Z.of_nat n mod RING_SLOTS + 1) mod RING_SLOTS = Z.of_nat (S n) mod RING_SLOTS) as Hnext.
  { rewrite wrap_small by (red; lia). unfold RING_SLOTS. rewrite Z.add_mod_idemp_l by lia. f_equal. lia. }
  assert (u64 (Z.of_nat n + 1) = Z.of_nat (S n)) as Hcnt by (rewrite wrap_small by (red; lia); lia).
  set (d' := write_block (write_block d (AUDIT_RECORD_BLOCK_START + Z.of_nat n mod RING_SLOTS) rb) AUDIT_HEADER_BLOCK hb).
  assert (d' (AUDIT_RECORD_BLOCK_START + Z.of_nat n mod RING_SLOTS) = rb) as Hd'.
  { unfold d', write_block. rewrite (proj2 (Z.eqb_neq _ _)) by (unfold AUDIT_RECORD_BLOCK_START, TOTAL_BLOCKS, AUDIT_HEADER_BLOCK; lia).
    by rewrite Z.eqb_refl. }
  exists d'. split; [|split].
  - unfold run_audit_persistence_proof. rewrite Hopen. cbn [mbind option_bind next_write_index total_written_count].
    rewrite Hrb. cbn [mbind option_bind]. cbn zeta. rewrite Hnext, Hcnt, Hhb. cbn [mbind option_bind]. rewrite Hblk.
    fold d'. rewrite Hd'.
    rewrite Hrd by (unfold zeroed_block, BLOCK_SIZE; rewrite length_replicate; lia). cbn [mbind option_bind].
    assert (rslice (m ++ drop (length m) zeroed_block) 0 (length m) = Some m) as ->.
    { apply rslice_Some. split; [rewrite length_app; lia|]. rewrite drop_0, take_app_le, take_ge by lia. done. }
    cbn [mbind option_bind]. rewrite Z.eqb_refl, Nat.eqb_refl, bool_decide_true by done. reflexivity.
  - split.
    + unfold open_ring. replace (d' AUDIT_HEADER_BLOCK) with hb by (unfold d', write_block; by rewrite Z.eqb_refl). rewrite Hhi. cbn [mbind option_bind]. rewrite Hhr.
      rewrite length_app. cbn [length]. by rewrite Nat.add_1_r.
    + intros seq Hlo Hhi'. rewrite length_app in Hlo, Hhi'. cbn [length] in Hlo, Hhi'. fold n in Hlo, Hhi'. unfold recorded.
      assert (forall k : nat, 0 <= Z.of_nat k mod RING_SLOTS < 4) as Hk by (intros k; apply Z.mod_pos_bound; unfold RING_SLOTS; lia).
      unfold d', write_block. rewrite (proj2 (Z.eqb_neq (_ + _) AUDIT_HEADER_BLOCK))
        by (pose proof (Hk seq); unfold AUDIT_RECORD_BLOCK_START, TOTAL_BLOCKS, AUDIT_HEADER_BLOCK; lia).
      destruct (decide (seq = n)) as [->|Hne].
      * exists m. split; [by apply list_lookup_middle|]. by rewrite Z.eqb_refl.
      * destruct (Hrec seq ltac:(lia) ltac:(lia)) as (m' & Hm' & Hr'). exists m'.
        split; [by apply lookup_app_l_Some|].
        rewrite (proj2 (Z.eqb_neq _ _)); [done|]. unfold RING_SLOTS. intros He.
        assert (Z.of_nat seq mod 4 = Z.of_nat n mod 4) as Hmm by lia.
        pose proof (Z.div_mod (Z.of_nat seq) 4 ltac:(lia)). pose proof (Z.div_mod (Z.of_nat n) 4 ltac:(lia)). lia.
  - intros k Hk. unfold d', write_block. unfold AUDIT_RECORD_BLOCK_START, TOTAL_BLOCKS, RING_SLOTS in *.
    rewrite (proj2 (Z.eqb_neq k AUDIT_HEADER_BLOCK)) by (unfold AUDIT_HEADER_BLOCK; lia).
    rewrite (proj2 (Z.eqb_neq k _)) by lia. done.
Qed.

(** [n] boots, each appending its message. *)
Fixpoint boots (d : disk) (messages : list bytes) : option (disk * bool) :=
  match messages with
  | [] => Some (d, true)
  | m :: ms => '(d, ok) ← run_audit_persistence_proof d m; '(d, oks) ← boots d ms; Some (d, ok && oks)
  end.

Lemma boots_spec ms : forall d done, ring_ok d done -> Z.of_nat (length done + length ms) < 2 ^ 64 ->
  Forall (fun m => length m <= 512)%nat ms ->
  exists d', boots d ms = Some (d', true) /\ ring_ok d' (done ++ ms) /\
    forall n, n < TOTAL_BLOCKS \/ AUDIT_RECORD_BLOCK_START + RING_SLOTS <= n -> d' n = d n.
Proof.
  induction ms as [|m ms IH]; intros d dn Hok Hlen Hf; cbn [boots]; [exists d; by rewrite app_nil_r|].
  apply Forall_cons in Hf as [Hm Hf]. cbn [length] in Hlen.
  destruct (boot_step d dn m Hok ltac:(lia) Hm) as (d1 & -> & Hok1 & Hfr1). cbn [mbind option_bind].
  destruct (IH d1 (dn ++ [m]) Hok1 ltac:(rewrite length_app; cbn; lia) Hf) as (d' & -> & Hok' & Hfr').
  exists d'. cbn [mbind option_bind andb]. split_and!; [done|by rewrite <- app_assoc in Hok'|]. intros n Hn. by rewrite Hfr', Hfr1.
Qed.

(** The persisted audit ring.  Starting from a disk whose header block has no
    ring on it, any sequence of boots succeeds and passes its self-check; then the
    header counts all the records ever written, the newest four records are each
    in their slot and read back with their own sequence number and message, and no
    block of the filesystem or past the ring has changed. *)
Theorem audit_ring_keeps_newest d ms :
  is_initialized (d AUDIT_HEADER_BLOCK) = Some false -> Z.of_nat (length ms) < 2 ^ 64 ->
  Forall (fun m => length m <= MAX_MESSAGE_LEN)%nat ms ->
  exists d', boots d ms = Some (d', true) /\
    open_ring d' = Some (mkHeader (Z.of_nat (length ms) mod RING_SLOTS) (Z.of_nat (length ms))) /\
    (forall seq, (length ms <= seq + 4)%nat -> (seq < length ms)%nat -> recorded d' ms seq) /\
    (forall n, n < TOTAL_BLOCKS \/ AUDIT_RECORD_BLOCK_START + RING_SLOTS <= n -> d' n = d n).
Proof.
  intros Hi Hl Hf. destruct (boots_spec ms d []) as (d' & Hb & [Ho Hr] & Hfr); [|done|done|by exists d'].
  split; [unfold open_ring; rewrite Hi; reflexivity|]. cbn. lia.
Qed.

Lemma audit_ring_witness :
  is_initialized zeroed_block = Some false /\
  exists d', boots (fun _ => zeroed_block) [[1]; [2]; [3]; [4]; [5]] = Some (d', true) /\
    open_ring d' = Some (mkHeader (Z.of_nat (length [[1]; [2]; [3]; [4]; [5]]) mod RING_SLOTS) (Z.of_nat (length [[1]; [2]; [3]; [4]; [5]]))) /\
    (forall seq, (length [[1]; [2]; [3]; [4]; [5]] <= seq + 4)%nat -> (seq < length [[1]; [2]; [3]; [4]; [5]])%nat ->
       recorded d' [[1]; [2]; [3]; [4]; [5]] seq) /\
    (forall n, n < TOTAL_BLOCKS \/ AUDIT_RECORD_BLOCK_START + RING_SLOTS <= n -> d' n = zeroed_block).
Proof.
  split; [vm_compute; reflexivity|].
  refine (audit_ring_keeps_newest (fun _ => zeroed_block) [[1]; [2]; [3]; [4]; [5]] _ _ _);
    [vm_compute; reflexivity|cbn; lia|].
  unfold MAX_MESSAGE_LEN. repeat (apply Forall_cons_2; [cbn; lia|]). apply Forall_nil_2.
Defined.
