(* ===== verification/Discovery.v ===== *)
(** * Finding processors and drivers ([kernel_common/src/madt.rs],
    [kernel_common/src/driver_registry.rs])

    Both write into a caller's array of fixed capacity [cap]; the result here is
    the list written. *)

From S2P Require Import Prelude.

(** ** The MADT walk *)

Record CpuEntry := mkCpu { apic_id : Z; processor_uid : Z; enabled : bool }.

Definition TYPE_LOCAL_APIC : Z := 0.
Definition TYPE_LOCAL_X2APIC : Z := 9.
Definition LOCAL_APIC_ENTRY_LEN : Z := 8.
Definition LOCAL_X2APIC_ENTRY_LEN : Z := 16.
Definition FLAGS_ENABLED : Z := 1.
Definition MADT_SUBHEADER_LEN : nat := 8.

(** The processor an entry at [i] describes, if it does; [None] is a panic. *)
Definition decode_entry (body : bytes) (i : nat) (entry_type entry_len : Z) : option (option CpuEntry) :=
  if (entry_type =? TYPE_LOCAL_APIC) && (LOCAL_APIC_ENTRY_LEN <=? entry_len) then
    uid ← body !! (i + 2)%nat;
    id ← body !! (i + 3)%nat;
    flags ← rle 4 body (i + 4);
    Some (Some (mkCpu id uid (negb (Z.land flags FLAGS_ENABLED =? 0))))
  else if (entry_type =? TYPE_LOCAL_X2APIC) && (LOCAL_X2APIC_ENTRY_LEN <=? entry_len) then
    id ← rle 4 body (i + 4);
    flags ← rle 4 body (i + 8);
    uid ← rle 4 body (i + 12);
    Some (Some (mkCpu id uid (negb (Z.land flags FLAGS_ENABLED =? 0))))
  else Some None.

(** The loop at [i] with [room] free slots left. *)
Fixpoint parse_loop (fuel : nat) (body : bytes) (i room : nat) : option (list CpuEntry) :=
  match fuel with
  | O => None
  | S fuel' =>
      if (i + 2 <=? length body)%nat && (0 <? room)%nat then
        entry_type ← body !! i;
        entry_len ← body !! (i + 1)%nat;
        if entry_len <? 2 then Some [] else
        let entry_end := (i + Z.to_nat entry_len)%nat in
        if (length body <? entry_end)%nat then Some [] else
        c ← decode_entry body i entry_type entry_len;
        match c with
        | Some cpu => rest ← parse_loop fuel' body entry_end (room - 1); Some (cpu :: rest)
        | None => parse_loop fuel' body entry_end room
        end
      else Some []
  end.

Definition parse_cpus (body : bytes) (cap : nat) : option (list CpuEntry) :=
  if (length body <? MADT_SUBHEADER_LEN)%nat then Some []
  else parse_loop (length body) body MADT_SUBHEADER_LEN cap.

(** ** The driver table *)

Record PciId := mkPci { bus : Z; device_slot : Z; pci_function : Z; vendor : Z; device : Z; class : Z; subclass : Z; prog_if : Z }.

Inductive MatchRule :=
| VendorDevice (v d : Z)
| Class_ (c s p : Z).

Definition matches (r : MatchRule) (id : PciId) : bool :=
  match r with
  | VendorDevice v d => (vendor id =? v) && (device id =? d)
  | Class_ c s p => (class id =? c) && (subclass id =? s) && (prog_if id =? p)
  end.

Section registry.
Context {T : Type}.

Record DriverEntry := mkDriver { driver_name : bytes; rule : MatchRule; handler : T }.

(** The inner loop: the first row that matches. *)
Fixpoint first_match (table : list DriverEntry) (dev : PciId) : option T :=
  match table with
  | [] => None
  | entry :: table' => if matches (rule entry) dev then Some (handler entry) else first_match table' dev
  end.

Fixpoint match_all (devices : list PciId) (table : list DriverEntry) (room : nat) : list (PciId * T) :=
  match devices with
  | [] => []
  | dev :: devices' =>
      if (room =? 0)%nat then []
      else match first_match table dev with
           | Some h => (dev, h) :: match_all devices' table (room - 1)
           | None => match_all devices' table room
           end
  end.

(** [match_all] assigns every device its first matching row, in device order,
    cut at the capacity. *)
Lemma match_all_spec devices table room :
  match_all devices table room = take room (omap (fun d => pair d <$> first_match table d) devices).
Proof.
  revert room. induction devices as [|d ds IH]; intros room; cbn [match_all omap list_omap]; [by rewrite take_nil|].
  destruct (Nat.eqb_spec room 0) as [->|Hr]; [by rewrite take_0|].
  destruct (first_match table d); cbn [fmap option_fmap option_map]; [|by rewrite IH].
  destruct room as [|room]; [done|]. cbn [take Nat.sub]. by rewrite Nat.sub_0_r, IH.
Qed.
End registry.

(** ** The walk on well-formed tables *)

(** The interrupt-controller structures of a table. *)
Inductive madt_entry :=
| LocalApic (uid id flags : Z)
| LocalX2apic (id flags uid : Z)
| OtherEntry (ty : Z) (payload : bytes).

Definition entry_wf (e : madt_entry) : Prop :=
  match e with
  | LocalApic uid id flags => in_width 8 uid /\ in_width 8 id /\ in_width 32 flags
  | LocalX2apic id flags uid => in_width 32 id /\ in_width 32 flags /\ in_width 32 uid
  | OtherEntry ty payload => ty <> 0 /\ ty <> 9 /\ (length payload <= 253)%nat
  end.

Definition encode_entry (e : madt_entry) : bytes :=
  match e with
  | LocalApic uid id flags => [0; 8; uid; id] ++ le_bytes 4 flags
  | LocalX2apic id flags uid => [9; 16; 0; 0] ++ le_bytes 4 id ++ le_bytes 4 flags ++ le_bytes 4 uid
  | OtherEntry ty payload => [ty; 2 + Z.of_nat (length payload)] ++ payload
  end.

Definition cpu_of (e : madt_entry) : option CpuEntry :=
  match e with
  | LocalApic uid id flags => Some (mkCpu id uid (Z.testbit flags 0))
  | LocalX2apic id flags uid => Some (mkCpu id uid (Z.testbit flags 0))
  | OtherEntry _ _ => None
  end.

Lemma flag_bit flags : negb (Z.land flags FLAGS_ENABLED =? 0) = Z.testbit flags 0.
Proof. exact (land_shift_testbit flags 0 ltac:(lia)). Qed.

Lemma lookup_at (pre s post : bytes) k : (k < length s)%nat -> (pre ++ s ++ post) !! (length pre + k)%nat = s !! k.
Proof. intros Hk. rewrite lookup_app_r by lia. replace (length pre + k - length pre)%nat with k by lia. by apply lookup_app_l. Qed.

Lemma rle_at (pre s1 s2 post : bytes) v k n : k = length s1 -> in_width (8 * Z.of_nat n) v ->
  rle n (pre ++ (s1 ++ le_bytes n v ++ s2) ++ post) (length pre + k) = Some v.
Proof.
  intros -> Hv. unfold rle. assert (rslice (pre ++ (s1 ++ le_bytes n v ++ s2) ++ post) (length pre + length s1) n = Some (le_bytes n v)) as ->.
  { apply rslice_Some. split; [rewrite !length_app, length_le_bytes; lia|].
    rewrite <- !app_assoc, app_assoc. rewrite drop_app_ge by (rewrite length_app; lia).
    rewrite length_app, Nat.sub_diag, drop_0. rewrite take_app_le, take_ge by (rewrite length_le_bytes; lia). done. }
  cbn [fmap option_fmap option_map]. rewrite le_val_le_bytes. f_equal. by apply Z.mod_small.
Qed.

(** Decoding an encoded entry, wherever it stands. *)
Lemma decode_encoded pre e post : entry_wf e ->
  (pre ++ encode_entry e ++ post) !! (length pre) = encode_entry e !! 0%nat /\
  (pre ++ encode_entry e ++ post) !! (length pre + 1)%nat = encode_entry e !! 1%nat /\
  exists ty len, encode_entry e !! 0%nat = Some ty /\ encode_entry e !! 1%nat = Some len /\ 2 <= len < 256 /\
    Z.to_nat len = length (encode_entry e) /\ decode_entry (pre ++ encode_entry e ++ post) (length pre) ty len = Some (cpu_of e).
Proof.
  intros Hwf. split; [rewrite <- (Nat.add_0_r (length pre)); apply lookup_at; destruct e; cbn; lia|].
  split; [apply lookup_at; destruct e; cbn; lia|]. destruct e as [uid id flags|id flags uid|ty payload].
  - destruct Hwf as (Hu & Hi & Hf). exists 0, 8. split_and!; [done|done|lia|lia|done|].
    unfold decode_entry. change (0 =? TYPE_LOCAL_APIC) with true. cbn [andb].
    change (LOCAL_APIC_ENTRY_LEN <=? 8) with true. cbn [andb].
    rewrite !lookup_at by (cbn; lia). cbn [encode_entry lookup list_lookup app mbind option_bind].
    pose proof (rle_at pre [0; 8; uid; id] [] post flags 4 4 eq_refl Hf) as Hr. rewrite app_nil_r in Hr.
    cbn [app] in Hr |- *. rewrite Hr. cbn [mbind option_bind cpu_of]. by rewrite flag_bit.
  - destruct Hwf as (Hi & Hf & Hu). exists 9, 16. split_and!; [done|done|lia|lia|done|].
    unfold decode_entry. cbn [encode_entry].
    pose proof (rle_at pre [9; 16; 0; 0] (le_bytes 4 flags ++ le_bytes 4 uid) post id 4 4 eq_refl Hi) as H1.
    pose proof (rle_at pre ([9; 16; 0; 0] ++ le_bytes 4 id) (le_bytes 4 uid) post flags 8 4 eq_refl Hf) as H2.
    pose proof (rle_at pre ([9; 16; 0; 0] ++ le_bytes 4 id ++ le_bytes 4 flags) [] post uid 12 4 eq_refl Hu) as H3.
    rewrite app_nil_r in H3. rewrite <- !app_assoc in H1, H2, H3. rewrite <- !app_assoc.
    change (9 =? TYPE_LOCAL_APIC) with false. change (9 =? TYPE_LOCAL_X2APIC) with true. cbn [andb].
    change (LOCAL_X2APIC_ENTRY_LEN <=? 16) with true. cbn [andb].
    rewrite H1. cbn [mbind option_bind]. rewrite H2. cbn [mbind option_bind]. rewrite H3. cbn [mbind option_bind cpu_of].
    by rewrite flag_bit.
  - destruct Hwf as (H0 & H9 & Hl). exists ty, (2 + Z.of_nat (length payload)).
    split_and!; [done|done|lia|lia|cbn [encode_entry app length]; lia|].
    unfold decode_entry, TYPE_LOCAL_APIC, TYPE_LOCAL_X2APIC. by rewrite !(proj2 (Z.eqb_neq ty _)) by done.
Qed.

Lemma parse_loop_spec es : forall pre room fuel, Forall entry_wf es -> (length (pre ++ (es ≫= encode_entry)) < length pre + fuel)%nat ->
  parse_loop fuel (pre ++ (es ≫= encode_entry)) (length pre) room = Some (take room (omap cpu_of es)).
Proof.
  induction es as [|e es IH]; intros pre room fuel Hwf Hf.
  - cbn [mbind list_bind] in *. rewrite app_nil_r in *. destruct fuel as [|fuel]; [lia|]. cbn [parse_loop].
    destruct (Nat.leb_spec (length pre + 2) (length pre)); [lia|]. cbn [andb omap list_omap]. by rewrite take_nil.
  - apply Forall_cons in Hwf as [He Hwf]. cbn [mbind list_bind] in Hf |- *. cbn [mbind list_bind] in IH.
    set (rest := es ≫= encode_entry) in *. change (list_bind _ _ encode_entry es) with rest in *.
    destruct (decode_encoded pre e rest He) as (L0 & L1 & ty & len & E0 & E1 & Hlen & Hn & Hd).
    rewrite !length_app in Hf. destruct fuel as [|fuel]; [lia|]. cbn [parse_loop].
    destruct (Nat.leb_spec (length pre + 2) (length (pre ++ encode_entry e ++ rest))) as [_|Hbad]; [|rewrite !length_app in Hbad; lia].
    destruct room as [|room]; [by rewrite take_0|]. change (0 <? S room)%nat with true. cbn [andb].
    rewrite L0, E0. cbn [mbind option_bind]. rewrite L1, E1. cbn [mbind option_bind].
    rewrite (proj2 (Z.ltb_ge len 2)) by lia. rewrite Hn.
    destruct (Nat.ltb_spec (length (pre ++ encode_entry e ++ rest)) (length pre + length (encode_entry e))) as [Hbad|_];
      [rewrite !length_app in Hbad; lia|].
    rewrite Hd. cbn [mbind option_bind omap list_omap].
    assert (forall r, parse_loop fuel (pre ++ encode_entry e ++ rest) (length pre + length (encode_entry e)) r =
      Some (take r (omap cpu_of es))) as Hrec.
    { intros r. rewrite app_assoc, <- length_app. apply IH; [done|]. rewrite !length_app. lia. }
    destruct (cpu_of e); [|rewrite Hrec; reflexivity]. rewrite Hrec. cbn [mbind option_bind take Nat.sub]. by rewrite Nat.sub_0_r.
Qed.

(** The walk never runs out of fuel or reads out of bounds. *)
Lemma parse_loop_total fuel body : all_bytes body -> forall i room, (i <= length body)%nat -> (length body < i + fuel)%nat ->
  exists cpus, parse_loop fuel body i room = Some cpus /\ (length cpus <= room)%nat.
Proof.
  intros Hb. induction fuel as [|fuel IH]; intros i room Hi0 Hf; cbn [parse_loop].
  - lia.
  - destruct (Nat.leb_spec (i + 2) (length body)) as [Hi|]; cbn [andb]; [|exists []; split; [done|cbn; lia]].
    destruct (Nat.ltb_spec 0 room) as [Hr|]; [|exists []; split; [done|cbn; lia]].
    destruct (lookup_lt_is_Some_2 body i ltac:(lia)) as [ty ->]. destruct (lookup_lt_is_Some_2 body (i + 1) ltac:(lia)) as [len Hlen].
    rewrite Hlen. cbn [mbind option_bind]. destruct (Z.ltb_spec len 2); [exists []; split; [done|cbn; lia]|].
    destruct (Nat.ltb_spec (length body) (i + Z.to_nat len)); [exists []; split; [done|cbn; lia]|].
    assert (exists c, decode_entry body i ty len = Some c) as [c ->].
    { unfold decode_entry. destruct (_ && _) eqn:H1.
      - bool_to_prop. unfold LOCAL_APIC_ENTRY_LEN in *.
        destruct (lookup_lt_is_Some_2 body (i + 2) ltac:(lia)) as [? ->]. destruct (lookup_lt_is_Some_2 body (i + 3) ltac:(lia)) as [? ->].
        cbn [mbind option_bind]. destruct (rle_is_Some 4 body (i + 4) ltac:(lia)) as [? ->]. cbn [mbind option_bind]. eauto.
      - destruct ((ty =? TYPE_LOCAL_X2APIC) && _) eqn:H2; [|eauto]. bool_to_prop. unfold LOCAL_X2APIC_ENTRY_LEN in *.
        destruct (rle_is_Some 4 body (i + 4) ltac:(lia)) as [? ->]. cbn [mbind option_bind].
        destruct (rle_is_Some 4 body (i + 8) ltac:(lia)) as [? ->]. cbn [mbind option_bind].
        destruct (rle_is_Some 4 body (i + 12) ltac:(lia)) as [? ->]. cbn [mbind option_bind]. eauto. }
    cbn [mbind option_bind]. destruct c as [cpu|].
    + destruct (IH (i + Z.to_nat len)%nat (room - 1)%nat ltac:(lia) ltac:(lia)) as (cpus & -> & Hc). cbn [mbind option_bind].
      eexists. split; [done|]. cbn. lia.
    + destruct (IH (i + Z.to_nat len)%nat room ltac:(lia) ltac:(lia)) as (cpus & -> & Hc). eauto.
Qed.

(** Processor discovery.  On any bytes whatever [parse_cpus] returns, never
    reading out of bounds and never writing past the caller's array; and on the
    encoding of any list of MADT structures, unknown types included, it returns
    exactly the processors they describe, in order, cut at the array's size. *)
Theorem parse_cpus_exact body cap :
  all_bytes body ->
  (exists cpus, parse_cpus body cap = Some cpus /\ (length cpus <= cap)%nat) /\
  forall hdr es, length hdr = MADT_SUBHEADER_LEN -> Forall entry_wf es -> body = hdr ++ (es ≫= encode_entry) ->
    parse_cpus body cap = Some (take cap (omap cpu_of es)).
Proof.
  intros Hb. unfold parse_cpus, MADT_SUBHEADER_LEN. split.
  - destruct (Nat.ltb_spec (length body) 8); [exists []; split; [done|cbn; lia]|]. apply parse_loop_total; [done|lia|lia].
  - intros hdr es Hh Hwf ->. destruct (Nat.ltb_spec (length (hdr ++ (es ≫= encode_entry))) 8) as [Hbad|_]; [rewrite length_app in Hbad; lia|].
    rewrite <- Hh at 1. apply parse_loop_spec; [done|lia].
Qed.

Lemma parse_cpus_witness :
  all_bytes (replicate 8 0 ++ ([LocalApic 1 0 1; OtherEntry 1 [7; 7]; LocalX2apic 300 1 4] ≫= encode_entry)) /\
  parse_cpus (replicate 8 0 ++ ([LocalApic 1 0 1; OtherEntry 1 [7; 7]; LocalX2apic 300 1 4] ≫= encode_entry)) 16 =
    Some (take 16 (omap cpu_of [LocalApic 1 0 1; OtherEntry 1 [7; 7]; LocalX2apic 300 1 4])).
Proof.
  assert (all_bytes (replicate 8 0 ++ ([LocalApic 1 0 1; OtherEntry 1 [7; 7]; LocalX2apic 300 1 4] ≫= encode_entry))) as H
    by (vm_compute; repeat (apply Forall_cons_2; [split; [discriminate|reflexivity]|]); apply Forall_nil_2).
  split; [exact H|]. refine (proj2 (parse_cpus_exact _ 16 H) (replicate 8 0) _ _ _ eq_refl); [reflexivity|].
  repeat (apply Forall_cons_2; [cbn; unfold in_width; lia|]). apply Forall_nil_2.
Defined.
