(* ===== verification/Tpm.v ===== *)
(** * Measured boot ([kernel_common/src/tpm.rs])

    The event log is a fixed array with a count; a PCR is replayed from it by
    hashing. *)

From S2P Require Import Prelude Crypto.

Definition MAX_TPM_EVENTS : nat := 16.

Record TcgEvent := mkEvent {
  pcr_index : Z; event_type : Z; ev_digest : bytes; event_data_len : Z; event_data : bytes }.

Definition event_empty : TcgEvent := mkEvent 0 0 (replicate 32 0) 0 (replicate 32 0).

(** [TcgEvent::new]; [None] is a panic. *)
Definition event_new (pcr ty : Z) (digest data : bytes) : option TcgEvent :=
  let copy_len := Nat.min (length data) 32 in
  buf ← wslice (replicate 32 0) 0 (take copy_len data);
  Some (mkEvent pcr ty digest (u16 (Z.of_nat copy_len)) buf).

Record TcgEventLog := mkLog { magic : bytes; count : Z; events : list TcgEvent }.

(** ["TCGLOG2\0"] *)
Definition TPM_LOG_MAGIC : bytes := [84; 67; 71; 76; 79; 71; 50; 0].
Definition log_new : TcgEventLog := mkLog TPM_LOG_MAGIC 0 (replicate MAX_TPM_EVENTS event_empty).

Definition record (l : TcgEventLog) (pcr ty : Z) (digest data : bytes) : option (TcgEventLog * bool) :=
  if (MAX_TPM_EVENTS <=? Z.to_nat (count l))%nat then Some (l, false) else
  e ← event_new pcr ty digest data;
  evs ← wbyte (events l) (Z.to_nat (count l)) e;
  Some (mkLog (magic l) (u32 (count l + 1)) evs, true).

(** [PCR_new = SHA256(PCR_old || event.digest)], with the streaming hasher. *)
Definition extend (pcr digest : bytes) : option bytes :=
  h ← update sha_new pcr;
  h ← update h digest;
  finalize h.

Definition compute_pcr (l : TcgEventLog) (idx : Z) : option bytes :=
  foldM (fun pcr i =>
    event ← events l !! i;
    if pcr_index event =? idx then extend pcr (ev_digest event) else Some pcr)
    (replicate 32 0) (seq 0 (Z.to_nat (count l))).

(** ** The log and its replay *)

Definition log_ok (l : TcgEventLog) : Prop :=
  length (events l) = MAX_TPM_EVENTS /\ 0 <= count l <= Z.of_nat MAX_TPM_EVENTS.

(** The events recorded so far. *)
Definition recorded_events (l : TcgEventLog) : list TcgEvent := take (Z.to_nat (count l)) (events l).

(** The PCR a list of measurements gives, by the one-shot hash. *)
Definition replay (idx : Z) (evs : list TcgEvent) : bytes :=
  foldl (fun pcr e => if pcr_index e =? idx then sha256_ref (pcr ++ ev_digest e) else pcr) (replicate 32 0) evs.

Lemma extend_spec pcr d : extend pcr d = Some (sha256_ref (pcr ++ d)).
Proof. apply two_updates. Qed.

Lemma compute_pcr_spec l idx : log_ok l -> compute_pcr l idx = Some (replay idx (recorded_events l)).
Proof.
  intros [Hlen Hc]. unfold compute_pcr, replay, recorded_events, MAX_TPM_EVENTS in *.
  assert (Z.to_nat (count l) <= length (events l))%nat as Hle by lia. revert Hle.
  generalize (Z.to_nat (count l)). intros n. induction n as [|n IH]; intros Hle; [done|].
  rewrite seq_S, foldM_app, IH by lia. cbn [mbind option_bind foldM].
  destruct (lookup_lt_is_Some_2 (events l) n ltac:(lia)) as [e He]. cbn [Nat.add]. rewrite He. cbn [mbind option_bind].
  rewrite (take_S_r _ _ _ He), foldl_app. cbn [foldl]. destruct (pcr_index e =? idx); [by rewrite extend_spec|done].
Qed.

Lemma event_new_spec pcr ty d data : exists e, event_new pcr ty d data = Some e /\ pcr_index e = pcr /\ event_type e = ty /\ ev_digest e = d /\
  take (Z.to_nat (event_data_len e)) (event_data e) = take 32 data.
Proof.
  unfold event_new. set (n := Nat.min (length data) 32).
  destruct (wslice_is_Some (replicate 32 0) 0 (take n data)) as [b Hb]; [rewrite length_take, length_replicate; lia|].
  rewrite Hb. cbn [mbind option_bind]. eexists. split; [done|]. cbn. split_and!; [done..|].
  rewrite wrap_small by (red; lia). rewrite Nat2Z.id. apply wslice_Some in Hb as [_ ->]. rewrite take_0. cbn [app].
  rewrite take_app_le by (rewrite length_take; lia). rewrite take_take, Nat.min_id.
  destruct (Nat.le_gt_cases (length data) 32); [by rewrite !take_ge by lia|]. f_equal. lia.
Qed.

(** Measured boot.  A full log refuses a measurement and does not change; a
    log with room appends exactly the measurement.  Replaying a PCR never panics
    and is the iterated hash of the digests recorded for it, so a measurement
    extends its own PCR by one hash and leaves every other PCR as it was. *)
Theorem measure_extends l pcr ty d data :
  log_ok l ->
  exists l' ok, record l pcr ty d data = Some (l', ok) /\ log_ok l' /\
    (ok = false <-> count l = Z.of_nat MAX_TPM_EVENTS) /\
    (ok = false -> l' = l) /\
    (ok = true -> exists e, recorded_events l' = recorded_events l ++ [e] /\
       pcr_index e = pcr /\ event_type e = ty /\ ev_digest e = d /\
       take (Z.to_nat (event_data_len e)) (event_data e) = take 32 data) /\
    forall idx, exists old, compute_pcr l idx = Some old /\
      compute_pcr l' idx = Some (if ok && (pcr =? idx) then sha256_ref (old ++ d) else old).
Proof.
  intros Hok. pose proof Hok as [Hlen Hc]. unfold record. unfold MAX_TPM_EVENTS in *.
  destruct (Nat.leb_spec 16 (Z.to_nat (count l))) as [Hfull|Hroom].
  - exists l, false. split_and!; [done|done|split; [lia|done]|done|done|].
    intros idx. eexists. split; by apply compute_pcr_spec.
  - destruct (event_new_spec pcr ty d data) as (e & -> & Hp & Ht & Hd & Hdata). cbn [mbind option_bind].
    unfold wbyte. rewrite decide_True by lia. cbn [mbind option_bind].
    set (l' := mkLog _ _ _). exists l', true.
    assert (count l' = count l + 1) as Hc' by (unfold l'; cbn; rewrite wrap_small; [done|red; lia]).
    assert (log_ok l') as Hok' by (split; [unfold l'; cbn; by rewrite length_insert|unfold MAX_TPM_EVENTS; lia]).
    assert (recorded_events l' = recorded_events l ++ [e]) as Hrec.
    { unfold recorded_events. rewrite Hc'. replace (Z.to_nat (count l + 1)) with (S (Z.to_nat (count l))) by lia.
      unfold l'. cbn [events]. rewrite (take_S_r _ _ e) by (apply list_lookup_insert_eq; lia).
      by rewrite take_insert_ge by lia. }
    split_and!; [done|done|split; [done|lia]|done|by exists e|].
    intros idx. eexists. split; [by apply compute_pcr_spec|]. rewrite compute_pcr_spec, Hrec by done.
    unfold replay. rewrite foldl_app. cbn [foldl andb]. rewrite Hp, Hd. by destruct (pcr =? idx).
Qed.

Lemma measure_witness :
  log_ok log_new /\
  exists l' ok, record log_new 9 13 (replicate 32 7) [1; 2] = Some (l', ok) /\ log_ok l' /\
    (ok = false <-> count log_new = Z.of_nat MAX_TPM_EVENTS) /\
    (ok = false -> l' = log_new) /\
    (ok = true -> exists e, recorded_events l' = recorded_events log_new ++ [e] /\
       pcr_index e = 9 /\ event_type e = 13 /\ ev_digest e = replicate 32 7 /\
       take (Z.to_nat (event_data_len e)) (event_data e) = take 32 [1; 2]) /\
    forall idx, exists old, compute_pcr log_new idx = Some old /\
      compute_pcr l' idx = Some (if ok && (9 =? idx) then sha256_ref (old ++ replicate 32 7) else old).
Proof.
  assert (log_ok log_new) as H by (split; [reflexivity|unfold MAX_TPM_EVENTS; cbn; lia]).
  split; [exact H|exact (measure_extends log_new 9 13 (replicate 32 7) [1; 2] H)].
Defined.
