(* ===== verification/Elf.v ===== *)
(** * The program loader ([kernel_rs/src/elf.rs])

    Reads a program from a byte slice and maps its segments into an address space
    through the physical and virtual memory managers.  A read past the slice is
    [None], as is a panic of a callee. *)

From S2P Require Import Prelude Bits Pmm Vmm.

Definition PT_LOAD : Z := 1.
Definition EM_X86_64 : Z := 62.
Definition ELFCLASS64 : Z := 2.
Definition ELFDATA2LSB : Z := 1.
Definition EV_CURRENT : Z := 1.
Definition PF_X : Z := 1.
Definition PF_W : Z := 2.

(** [size_of] of the two headers. *)
Definition EHDR_SIZE : nat := 64.
Definition PHDR_SIZE : Z := 56.

Record Elf64Ehdr := mkEhdr {
  e_ident : bytes; e_type : Z; e_machine : Z; e_version : Z; e_entry : Z; e_phoff : Z; e_shoff : Z; e_flags : Z;
  e_ehsize : Z; e_phentsize : Z; e_phnum : Z; e_shentsize : Z; e_shnum : Z; e_shstrndx : Z }.

Record Elf64Phdr := mkPhdr {
  p_type : Z; p_flags : Z; p_offset : Z; p_vaddr : Z; p_paddr : Z; p_filesz : Z; p_memsz : Z; p_align : Z }.

Inductive ElfError :=
| TooSmall | BadMagic | WrongClassOrEndian | WrongMachineOrVersion | PhdrOutOfBounds | SegmentOutOfBounds.

(** [read_unaligned] of the header at the start of the slice. *)
Definition read_ehdr (bs : bytes) : option Elf64Ehdr :=
  ident ← rslice bs 0 16;
  type ← rle 2 bs 16;
  machine ← rle 2 bs 18;
  version ← rle 4 bs 20;
  entry ← rle 8 bs 24;
  phoff ← rle 8 bs 32;
  shoff ← rle 8 bs 40;
  flags ← rle 4 bs 48;
  ehsize ← rle 2 bs 52;
  phentsize ← rle 2 bs 54;
  phnum ← rle 2 bs 56;
  shentsize ← rle 2 bs 58;
  shnum ← rle 2 bs 60;
  shstrndx ← rle 2 bs 62;
  Some (mkEhdr ident type machine version entry phoff shoff flags ehsize phentsize phnum shentsize shnum shstrndx).

Definition read_phdr (bs : bytes) (off : nat) : option Elf64Phdr :=
  type ← rle 4 bs off;
  flags ← rle 4 bs (off + 4);
  offset ← rle 8 bs (off + 8);
  vaddr ← rle 8 bs (off + 16);
  paddr ← rle 8 bs (off + 24);
  filesz ← rle 8 bs (off + 32);
  memsz ← rle 8 bs (off + 40);
  align ← rle 8 bs (off + 48);
  Some (mkPhdr type flags offset vaddr paddr filesz memsz align).

(** The checks before the segment loop. *)
Definition check_ehdr (bs : bytes) : option (result Elf64Ehdr ElfError) :=
  if (length bs <? EHDR_SIZE)%nat then Some (Err TooSmall) else
  e ← read_ehdr bs;
  if negb (bool_decide (take 4 (e_ident e) = [0x7f; 69; 76; 70])) then Some (Err BadMagic) else
  class ← e_ident e !! 4%nat;
  data ← e_ident e !! 5%nat;
  if negb (class =? ELFCLASS64) || negb (data =? ELFDATA2LSB) then Some (Err WrongClassOrEndian) else
  if negb (e_machine e =? EM_X86_64) || negb (e_version e =? EV_CURRENT) then Some (Err WrongMachineOrVersion) else
  if negb (e_phentsize e =? PHDR_SIZE) then Some (Err PhdrOutOfBounds) else
  if (2 ^ 64 <=? e_phoff e + e_phnum e * PHDR_SIZE) || (Z.of_nat (length bs) <? e_phoff e + e_phnum e * PHDR_SIZE)
  then Some (Err PhdrOutOfBounds) else Some (Ok e).

(** [x & !0xFFF]. *)
Definition page_down (x : Z) : Z := Z.land x (wnot 64 0xFFF).

Definition seg_flags (ph : Elf64Phdr) : Z :=
  let flags := PAGE_USER in
  let flags := if negb (Z.land (p_flags ph) PF_W =? 0) then Z.lor flags PAGE_WRITABLE else flags in
  if Z.land (p_flags ph) PF_X =? 0 then Z.lor flags PAGE_NO_EXECUTE else flags.

(** [copy_nonoverlapping] into physical memory. *)
Definition copy_bytes (dst : Z) (src : bytes) (m : Z -> Z) : Z -> Z :=
  fun a => if (dst <=? a) && (a <? dst + Z.of_nat (length src)) then default 0 (src !! Z.to_nat (a - dst)) else m a.

(** The body of the page loop. *)
Definition load_page (pml4 : Z) (bs : bytes) (ph : Elf64Phdr) (page_vaddr : Z) (v : vmm) : option vmm :=
  '(s, page_phys) ← alloc_page (PMM v);
  let s := set_mem (zero_page page_phys (MEM s)) s in
  let page_vaddr_end := u64 (page_vaddr + 4096) in
  let seg_vaddr_start := p_vaddr ph in
  let seg_vaddr_file_end := u64 (p_vaddr ph + p_filesz ph) in
  let copy_start := Z.max page_vaddr seg_vaddr_start in
  let copy_end := Z.min page_vaddr_end seg_vaddr_file_end in
  s ← (if copy_start <? copy_end then
         src ← rslice bs (Z.to_nat (u64 (p_offset ph + u64 (copy_start - seg_vaddr_start)))) (Z.to_nat (copy_end - copy_start));
         Some (set_mem (copy_bytes (page_phys + (copy_start - page_vaddr)) src (MEM s)) s)
       else Some s);
  map_page_in pml4 page_vaddr page_phys (seg_flags ph) (set_pmm s v).

(** The pages of a segment, in loop order. *)
Definition seg_pages (ph : Elf64Phdr) : list Z :=
  let vaddr_start := page_down (p_vaddr ph) in
  let vaddr_end := page_down (u64 (u64 (p_vaddr ph + p_memsz ph) + 0xFFF)) in
  (fun p => u64 (vaddr_start + u64 (p * 4096))) <$> range 0 (u64 (vaddr_end - vaddr_start) / 4096).

(** One program header, and the error of an early return. *)
Definition load_segment (pml4 : Z) (bs : bytes) (ph : Elf64Phdr) (v : vmm) : option (vmm * option ElfError) :=
  if negb (p_type ph =? PT_LOAD) then Some (v, None) else
  if 2 ^ 64 <=? p_offset ph + p_filesz ph then Some (v, Some SegmentOutOfBounds) else
  if (Z.of_nat (length bs) <? p_offset ph + p_filesz ph) || (p_memsz ph <? p_filesz ph)
  then Some (v, Some SegmentOutOfBounds) else
  v ← foldM (fun v page => load_page pml4 bs ph page v) v (seg_pages ph);
  Some (v, None).

Fixpoint load_segments (pml4 : Z) (bs : bytes) (offs : list nat) (v : vmm) : option (vmm * option ElfError) :=
  match offs with
  | [] => Some (v, None)
  | off :: offs' =>
      ph ← read_phdr bs off;
      '(v, err) ← load_segment pml4 bs ph v;
      match err with
      | Some e => Some (v, Some e)
      | None => load_segments pml4 bs offs' v
      end
  end.

Definition phdr_offsets (e : Elf64Ehdr) : list nat :=
  (fun i => Z.to_nat (e_phoff e + i * PHDR_SIZE)) <$> range 0 (e_phnum e).

Definition load (into_pml4 : Z) (bs : bytes) (v : vmm) : option (vmm * result Z ElfError) :=
  h ← check_ehdr bs;
  match h with
  | Err e => Some (v, Err e)
  | Ok e =>
      '(v, err) ← load_segments into_pml4 bs (phdr_offsets e) v;
      Some (v, match err with Some x => Err x | None => Ok (e_entry e) end)
  end.

(** ** Bytes of frames that are not tables *)

Lemma rd64_inj m m' p : (forall a, is_byte (m a)) -> (forall a, is_byte (m' a)) -> rd64 m' p = rd64 m p ->
  forall k, 0 <= k < 8 -> m' (p + k) = m (p + k).
Proof.
  intros Hm Hm' He k Hk. unfold rd64 in He. set (l := (fun k => p + k) <$> range 0 8) in *.
  assert (forall f : Z -> Z, (forall a, is_byte (f a)) -> le_bytes 8 (le_val (f <$> l)) = f <$> l) as Hrt.
  { intros f Hf. replace 8%nat with (length (f <$> l)) by (by unfold l; rewrite !length_fmap, length_range).
    apply le_bytes_le_val, Forall_fmap, Forall_true. intros a. apply Hf. }
  assert (m' <$> l = m <$> l) as Hl by (rewrite <- (Hrt m' Hm'), <- (Hrt m Hm); congruence).
  assert (l !! Z.to_nat k = Some (p + k)) as Hlk.
  { unfold l. rewrite list_lookup_fmap. unfold range. rewrite list_lookup_fmap, lookup_seq_lt by lia. cbn. f_equal. lia. }
  apply (f_equal (fun x => x !! Z.to_nat k)) in Hl. rewrite !list_lookup_fmap, Hlk in Hl. by injection Hl.
Qed.

Lemma spares_bytes s s' roots g a : spares s s' roots -> space_ok s roots -> space_ok s' roots -> foreign s roots g ->
  g <= a < g + 4096 -> MEM s' a = MEM s a.
Proof.
  intros Hsp Hok Hok' Hg Ha. destruct (Hsp g Hg) as [_ He].
  pose proof (Z.div_mod (a - g) 8 ltac:(lia)) as Hd. pose proof (Z.mod_pos_bound (a - g) 8 ltac:(lia)) as Hb.
  replace a with ((g + 8 * ((a - g) / 8)) + (a - g) mod 8) by lia.
  apply rd64_inj; [apply Hok|apply Hok'|apply (He ((a - g) / 8)); split; lia|lia].
Qed.

(** Filling a foreign frame with any bytes. *)
Lemma write_frame s roots g m' : space_ok s roots -> foreign s roots g -> (forall a, is_byte (m' a)) ->
  (forall a, ~ (g <= a < g + 4096) -> m' a = MEM s a) ->
  let s' := set_mem m' s in
  space_ok s' roots /\ (forall h, foreign s roots h -> foreign s' roots h) /\
  (forall h j, is_frame h -> h <> g -> is_index j -> entry m' h j = entry (MEM s) h j) /\
  (forall r w, r ∈ roots -> debug_translate m' r w = debug_translate (MEM s) r w).
Proof.
  intros Hok Hg Hby Hout s'.
  assert (forall h j, is_frame h -> h <> g -> is_index j -> entry m' h j = entry (MEM s) h j) as Hent.
  { intros h j Hh Hne Hj. apply rd64_ext. intros a Ha. apply Hout. unfold is_index in Hj.
    destruct (frame_gap h g Hh (proj1 Hg) Hne); lia. }
  assert (forall r q h j, r ∈ roots -> path_ok q -> frame_of (MEM s) r q = Some h -> is_index j ->
    entry m' h j = entry (MEM s) h j) as Hag.
  { intros r q h j Hr Hq Hh Hj. apply Hent; [eapply frame_of_is_frame, Hh; by eapply so_root| |done]. intros ->. by eapply Hg. }
  pose proof (agree_frames _ _ roots Hag) as Hfr. split_and!; [| |done|intros r w Hr; by apply (agree_translate _ _ roots Hag)].
  - destruct Hok as [[] H2 H3 H4 H5 H6 H7]. constructor; cbn; try done.
    + intros r q h Hr Hq Hh. rewrite Hfr in Hh by done. by eapply H6.
    + intros r r' p q h Hr Hr' Hp Hq Hh Hh'. rewrite Hfr in Hh, Hh' by done. by eapply H7.
  - intros h (Hh1 & Hh2 & Hh3). split_and!; [done|done|]. intros r q Hr Hq. cbn [MEM set_mem]. rewrite Hfr by done. by apply Hh3.
Qed.

(** ** One page *)

(** The byte of the program at address [a]: file contents, then zeros. *)
Definition image_byte (bs : bytes) (ph : Elf64Phdr) (a : Z) : Z :=
  if (p_vaddr ph <=? a) && (a <? p_vaddr ph + p_filesz ph)
  then default 0 (bs !! Z.to_nat (p_offset ph + (a - p_vaddr ph))) else 0.

(** A segment the loader accepts, in the user half. *)
Record seg_ok (bs : bytes) (ph : Elf64Phdr) : Prop := {
  sg_load : p_type ph = PT_LOAD;
  sg_pos : 0 <= p_offset ph /\ 0 <= p_vaddr ph /\ 0 <= p_filesz ph;
  sg_file : p_offset ph + p_filesz ph <= Z.of_nat (length bs) /\ Z.of_nat (length bs) < 2 ^ 64;
  sg_mem : p_filesz ph <= p_memsz ph;
  sg_user : p_vaddr ph + p_memsz ph <= 2 ^ 47 - 4096
}.

(** Page [pg] of [r] is loaded: it maps to a frame of its own, with the segment's
    permissions, that holds the program's bytes. *)
Definition page_loaded (s : pmm) (roots : list Z) (r : Z) (bs : bytes) (ph : Elf64Phdr) (pg : Z) : Prop :=
  exists f, foreign s roots f /\ (forall a, same_page a pg -> debug_translate (MEM s) r a = leaf_of f (seg_flags ph)) /\
    forall k, 0 <= k < 4096 -> MEM s (f + k) = image_byte bs ph (pg + k).

Lemma seg_flags_width ph : in_width 64 (seg_flags ph).
Proof. unfold seg_flags. destruct (negb _), (_ =? _); by vm_compute. Qed.

(** The contents the loop body leaves in a fresh frame. *)
Lemma page_contents bs ph f pg m : seg_ok bs ph -> all_bytes bs -> 0 <= pg <= 2 ^ 47 - 4096 -> (forall a, is_byte (m a)) ->
  (forall a, f <= a < f + 4096 -> m a = 0) ->
  let copy_start := Z.max pg (p_vaddr ph) in
  let copy_end := Z.min (u64 (pg + 4096)) (u64 (p_vaddr ph + p_filesz ph)) in
  exists m', (if copy_start <? copy_end then
      src ← rslice bs (Z.to_nat (u64 (p_offset ph + u64 (copy_start - p_vaddr ph)))) (Z.to_nat (copy_end - copy_start));
      Some (copy_bytes (f + (copy_start - pg)) src m)
    else Some m) = Some m' /\ (forall a, is_byte (m' a)) /\
    (forall a, ~ (f <= a < f + 4096) -> m' a = m a) /\
    forall k, 0 <= k < 4096 -> m' (f + k) = image_byte bs ph (pg + k).
Proof.
  intros [_ (Ho & Hv & Hfs) (Hf1 & Hf2) Hm Hu] Hbs Hpg Hby Hz copy_start copy_end.
  unfold copy_end. rewrite !(wrap_small 64) by (red; lia). fold copy_start.
  set (ce := Z.min (pg + 4096) (p_vaddr ph + p_filesz ph)). unfold image_byte.
  destruct (Z.ltb_spec copy_start ce) as [Hlt|Hge].
  - rewrite (wrap_small 64 (copy_start - p_vaddr ph)) by (red; lia). rewrite (wrap_small 64) by (red; lia).
    destruct (rslice bs (Z.to_nat (p_offset ph + (copy_start - p_vaddr ph))) (Z.to_nat (ce - copy_start))) as [src|] eqn:Hsrc.
    2:{ unfold rslice in Hsrc. rewrite decide_True in Hsrc by lia. done. }
    pose proof (length_rslice _ _ _ _ Hsrc) as Hlen. pose proof (rslice_all_bytes _ _ _ _ Hbs Hsrc) as Hsb.
    apply rslice_Some in Hsrc as [_ Hsrc]. cbn [mbind option_bind]. eexists. split; [done|]. unfold copy_bytes. rewrite Hlen.
    split_and!.
    + intros a. destruct (_ && _) eqn:Hc; [|apply Hby]. destruct (src !! Z.to_nat (a - (f + (copy_start - pg)))) as [b|] eqn:Hb; [|red; cbn; lia].
      rewrite Forall_lookup in Hsb. exact (Hsb _ _ Hb).
    + intros a Ha. destruct (_ && _) eqn:Hc; [|reflexivity]. bool_to_prop. lia.
    + intros k Hk. destruct (_ && _) eqn:Hc; bool_to_prop.
      * rewrite (proj2 (Z.leb_le _ _)), (proj2 (Z.ltb_lt _ _)) by lia. cbn [andb]. f_equal. rewrite Hsrc.
        rewrite lookup_take_lt, lookup_drop by lia. f_equal. lia.
      * rewrite Hz by lia. destruct ((p_vaddr ph <=? pg + k) && _) eqn:Hc2; [|done]. bool_to_prop. apply andb_false_iff in Hc as [Hc|Hc]; bool_to_prop; lia.
  - exists m. split_and!; [done|done|done|]. intros k Hk. rewrite Hz by lia. destruct (_ && _) eqn:Hc; [|done]. bool_to_prop. lia.
Qed.

(** What one step promises of the machine it leaves: enough memory kept, nothing
    else of any address space changed. *)
Record step_ok (s s' : pmm) (roots : list Z) (r : Z) (pages : list Z) : Prop := {
  st_ok : space_ok s' roots;
  st_free : free_pages (STATS s) - 4 * Z.of_nat (length pages) <= free_pages (STATS s');
  st_spares : spares s s' roots;
  st_else : forall r' a, r' ∈ roots -> ~ (r' = r /\ exists pg, pg ∈ pages /\ same_page a pg) ->
    debug_translate (MEM s') r' a = debug_translate (MEM s) r' a
}.

Lemma load_page_spec v roots r bs ph pg :
  space_ok (PMM v) roots -> r ∈ roots -> seg_ok bs ph -> all_bytes bs -> 0 <= pg <= 2 ^ 47 - 4096 ->
  4 <= free_pages (STATS (PMM v)) ->
  exists s', load_page r bs ph pg v = Some (set_pmm s' v) /\ step_ok (PMM v) s' roots r [pg] /\
    page_loaded s' roots r bs ph pg.
Proof.
  intros Hok Hr Hsg Hbs Hpg Hfree. unfold load_page. set (s := PMM v) in *.
  destruct (alloc_page_supplies s (so_pmm _ _ Hok) (so_zero _ _ Hok) ltac:(lia)) as (n & s1 & -> & Hal & Hn).
  cbn [mbind option_bind]. set (f := n * PAGE_SIZE).
  destruct (alloc_foreign s roots n s1 Hok Hal Hn) as (Hok1 & Hsp1 & Hf1 & _ & Hnf & Htr1). fold f in Hf1, Hnf.
  pose proof (allocates_free_pages _ _ _ (so_pmm _ _ Hok) Hal) as Hfr1.
  set (m1 := zero_page f (MEM s1)).
  destruct (page_contents bs ph f pg m1 Hsg Hbs Hpg) as (m2 & Hcopy & Hby2 & Hout2 & Hin2).
  { apply zero_page_bytes, Hok1. }
  { intros a Ha. unfold m1, zero_page, PAGE_SIZE. by rewrite (proj2 (Z.leb_le _ _)), (proj2 (Z.ltb_lt _ _)) by lia. }
  cbv zeta in Hcopy.
  assert (forall a, ~ (f <= a < f + 4096) -> m2 a = MEM s1 a) as Hout.
  { intros a Ha. rewrite Hout2 by done. unfold m1, zero_page, PAGE_SIZE. destruct (_ && _) eqn:Hc; [|done]. bool_to_prop. lia. }
  set (copy := if _ <? _ then _ else _).
  assert (copy = Some (set_mem m2 s1)) as ->.
  { unfold copy. cbn [MEM set_mem]. fold m1. revert Hcopy. destruct (_ <? _); [|by intros [= <-]].
    destruct (rslice _ _ _); cbn [mbind option_bind]; [|done]. by intros [= <-]. }
  cbn [mbind option_bind]. unfold map_page_in. cbn [PMM set_pmm].
  destruct (write_frame s1 roots f m2 Hok1 Hf1 Hby2 Hout) as (Hok2 & Hfor2 & Hent2 & Htr2).
  destruct (map_page_spec (set_mem m2 s1) roots r pg f (seg_flags ph)) as (s3 & -> & [Hok3 Hfree3 Hhere Helse Hsp3]);
    [done|done|lia|apply seg_flags_width|cbn; lia|].
  cbn [mbind option_bind]. exists s3. split_and!; [done| |].
  - constructor; [done|cbn in *; lia| |].
    + intros g Hg. destruct (Hsp1 g Hg) as [Hg1 He1]. destruct (Hsp3 g (Hfor2 g Hg1)) as [Hg3 He3]. split; [done|].
      intros j Hj. rewrite He3 by done. cbn [MEM set_mem]. rewrite Hent2, He1; [done|done|apply Hg|by apply Hnf|done].
    + intros r' a Hr' Hne. rewrite Helse; [|done|].
      * cbn [MEM set_mem]. by rewrite Htr2, Htr1.
      * intros [Hsame [->|Hk]]; [apply Hne; split; [done|]; exists pg; split; [by apply list_elem_of_singleton|done]|].
        rewrite (Z.mod_small pg) in Hk by lia. change (PHYS_MAP_BASE mod 2 ^ 48) with (2 ^ 47) in Hk. lia.
  - exists f. destruct (Hsp3 f (Hfor2 f Hf1)) as [Hf3 _]. split_and!; [done|done|]. intros k Hk.
    rewrite (spares_bytes (set_mem m2 s1) s3 roots f) by (done || by apply Hfor2 || lia). by apply Hin2.
Qed.

Lemma step_ok_refl s roots r : space_ok s roots -> step_ok s s roots r [].
Proof. intros Hok. constructor; [done|cbn; lia| |done]. intros g Hg. done. Qed.

Lemma step_ok_trans s1 s2 s3 roots r l1 l2 :
  step_ok s1 s2 roots r l1 -> step_ok s2 s3 roots r l2 -> step_ok s1 s3 roots r (l1 ++ l2).
Proof.
  intros [A1 B1 C1 D1] [A2 B2 C2 D2]. constructor; [done|rewrite length_app; lia|by eapply spares_trans|].
  intros r' a Hr' Hne. rewrite D2, D1; try done; intros [-> (pg & Hpg & Hs)]; apply Hne; (split; [done|]); exists pg;
    (split; [apply elem_of_app; auto|done]).
Qed.

(** A loaded page survives the loading of others. *)
Lemma page_loaded_step s s' roots r bs ph pg pages :
  r ∈ roots -> space_ok s roots -> step_ok s s' roots r pages -> (forall q, q ∈ pages -> ~ same_page pg q) ->
  page_loaded s roots r bs ph pg -> page_loaded s' roots r bs ph pg.
Proof.
  intros Hr Hok [Hok' _ Hsp Helse] Hd (f & Hf & Htr & Hmem). exists f. destruct (Hsp f Hf) as [Hf' _]. split_and!; [done| |].
  - intros a Ha. rewrite Helse; [by apply Htr|done|]. intros [_ (q & Hq & Hs)]. apply (Hd q Hq). red in Ha, Hs |- *. congruence.
  - intros k Hk. rewrite (spares_bytes s s' roots f) by (done || lia). by apply Hmem.
Qed.

(** ** A segment *)

(** The end of the last page of a segment. *)
Definition seg_top (ph : Elf64Phdr) : Z := (p_vaddr ph + p_memsz ph + 4095) / 4096 * 4096.

Lemma seg_pages_elem bs ph pg : seg_ok bs ph ->
  pg ∈ seg_pages ph <-> pg mod 4096 = 0 /\ p_vaddr ph / 4096 * 4096 <= pg < seg_top ph.
Proof.
  intros [_ (Ho & Hv & Hf) _ Hm Hu]. unfold seg_pages, seg_top, page_down.
  rewrite (wrap_small 64 (p_vaddr ph + p_memsz ph)) by (red; lia). rewrite (wrap_small 64 (_ + 0xFFF)) by (red; lia).
  rewrite !page_floor by (red; lia). change (p_vaddr ph + p_memsz ph + 0xFFF) with (p_vaddr ph + p_memsz ph + 4095).
  set (lo := p_vaddr ph / 4096). set (hi := (p_vaddr ph + p_memsz ph + 4095) / 4096).
  assert (0 <= lo <= hi /\ hi * 4096 <= 2 ^ 47) as [Hlh Hhi] by (unfold lo, hi; Z.div_mod_to_equations; lia).
  rewrite (wrap_small 64) by (red; lia). rewrite <- Z.mul_sub_distr_r, Z.div_mul by lia.
  rewrite list_elem_of_fmap. setoid_rewrite elem_of_range. split.
  - intros (p & -> & Hp). rewrite (wrap_small 64 (p * 4096)) by (red; lia). rewrite (wrap_small 64) by (red; lia).
    rewrite <- Z.mul_add_distr_r, Z.mod_mul by lia. lia.
  - intros [H0 Hr]. exists (pg / 4096 - lo). assert (pg = pg / 4096 * 4096) by (Z.div_mod_to_equations; lia).
    split; [|lia]. rewrite (wrap_small 64 ((pg / 4096 - lo) * 4096)) by (red; lia). rewrite (wrap_small 64) by (red; lia). lia.
Qed.

(** The pages of a segment are aligned and below the last page of the user half. *)
Definition page_in_range (pg : Z) : Prop := pg mod 4096 = 0 /\ 0 <= pg <= 2 ^ 47 - 4096.

Lemma seg_pages_range bs ph pg : seg_ok bs ph -> pg ∈ seg_pages ph -> page_in_range pg.
Proof.
  intros Hsg Hpg. apply (seg_pages_elem bs ph pg Hsg) in Hpg as [H0 Hr]. destruct Hsg as [_ (_ & Hv & _) _ _ Hu].
  split; [done|]. unfold seg_top in Hr. Z.div_mod_to_equations. lia.
Qed.

Lemma pages_distinct p q : page_in_range p -> page_in_range q -> p <> q -> ~ same_page p q.
Proof.
  intros [Hp0 Hp] [Hq0 Hq] Hne Hs. apply same_page_low in Hs; [|lia|lia]. apply Hne. Z.div_mod_to_equations. lia.
Qed.

Lemma load_pages_spec roots r bs ph pages v :
  space_ok (PMM v) roots -> r ∈ roots -> seg_ok bs ph -> all_bytes bs -> NoDup pages -> Forall page_in_range pages ->
  4 * Z.of_nat (length pages) <= free_pages (STATS (PMM v)) ->
  exists s', foldM (fun v page => load_page r bs ph page v) v pages = Some (set_pmm s' v) /\
    step_ok (PMM v) s' roots r pages /\ forall pg, pg ∈ pages -> page_loaded s' roots r bs ph pg.
Proof.
  intros Hok Hr Hsg Hbs Hnd Hall. revert v Hok. induction Hnd as [|p pages Hp Hnd IH]; intros v Hok Hfree; cbn [foldM].
  { exists (PMM v). split_and!; [by destruct v|by apply step_ok_refl|by intros ? []%not_elem_of_nil]. }
  apply Forall_cons in Hall as [Hpr Hall]. cbn [length] in Hfree.
  destruct (load_page_spec v roots r bs ph p Hok Hr Hsg Hbs (proj2 Hpr) ltac:(lia)) as (s1 & -> & Hst1 & Hld1).
  cbn [mbind option_bind]. destruct (IH Hall (set_pmm s1 v)) as (s2 & -> & Hst2 & Hld2);
    [apply Hst1|cbn [PMM set_pmm]; pose proof (st_free _ _ _ _ _ Hst1) as Hf; cbn [length] in Hf; lia|].
  exists s2. cbn [PMM set_pmm] in Hst2. split_and!; [done|exact (step_ok_trans _ _ _ _ _ _ _ Hst1 Hst2)|].
  intros pg [->|Hpg]%elem_of_cons; [|by apply Hld2].
  eapply page_loaded_step; [done|apply Hst1|exact Hst2| |done]. intros q Hq. rewrite Forall_forall in Hall.
  apply pages_distinct; [done|by apply Hall|]. by intros ->.
Qed.

(** ** The whole program *)

Definition is_load (ph : Elf64Phdr) : bool := p_type ph =? PT_LOAD.
Definition load_list (ph : Elf64Phdr) : list Z := if is_load ph then seg_pages ph else [].

Lemma load_segments_spec roots r bs offs phs v :
  r ∈ roots -> all_bytes bs -> mapM (read_phdr bs) offs = Some phs ->
  (forall ph, ph ∈ phs -> is_load ph = true -> seg_ok bs ph) -> NoDup (phs ≫= load_list) ->
  space_ok (PMM v) roots -> 4 * Z.of_nat (length (phs ≫= load_list)) <= free_pages (STATS (PMM v)) ->
  exists s', load_segments r bs offs v = Some (set_pmm s' v, None) /\
    step_ok (PMM v) s' roots r (phs ≫= load_list) /\
    forall ph pg, ph ∈ phs -> pg ∈ load_list ph -> page_loaded s' roots r bs ph pg.
Proof.
  intros Hr Hbs. revert phs v. induction offs as [|off offs IH]; intros phs v Hm Hsg Hnd Hok Hfree; cbn [load_segments].
  { injection Hm as <-. exists (PMM v). split_and!; [by destruct v|by apply step_ok_refl|by intros ? ? []%not_elem_of_nil]. }
  cbn [mapM] in Hm. destruct (read_phdr bs off) as [ph|]; cbn [mbind option_bind] in Hm |- *; [|done].
  destruct (mapM (read_phdr bs) offs) as [rest|]; cbn [mbind option_bind] in Hm; [|done]. injection Hm as <-.
  rename rest into phs. cbn [mbind list_bind] in Hnd, Hfree |- *.
  change (list_bind _ _ load_list phs) with (phs ≫= load_list) in *.
  apply NoDup_app in Hnd as (Hnd1 & Hdis & Hnd2). rewrite length_app in Hfree.
  assert (exists s1, load_segment r bs ph v = Some (set_pmm s1 v, None) /\ step_ok (PMM v) s1 roots r (load_list ph) /\
    forall pg, pg ∈ load_list ph -> page_loaded s1 roots r bs ph pg) as (s1 & -> & Hst1 & Hld1).
  { unfold load_segment, load_list in *. fold (is_load ph). destruct (is_load ph) eqn:Hil; cbn [negb].
    2:{ exists (PMM v). split_and!; [by destruct v|by apply step_ok_refl|by intros ? []%not_elem_of_nil]. }
    pose proof (Hsg ph (list_elem_of_here _ _) Hil) as Hs. pose proof Hs as [_ (Ho & _ & Hfs) (Hf1 & Hf2) Hmm _].
    rewrite (proj2 (Z.leb_gt _ _)) by lia. rewrite (proj2 (Z.ltb_ge _ _)) by lia. rewrite (proj2 (Z.ltb_ge _ _)) by lia. cbn [orb].
    destruct (load_pages_spec roots r bs ph (seg_pages ph) v Hok Hr Hs Hbs Hnd1) as (s1 & -> & Hst & Hld); [|lia|by exists s1].
    apply Forall_forall. intros pg. by apply (seg_pages_range bs). }
  cbn [mbind option_bind]. destruct (IH phs (set_pmm s1 v)) as (s2 & -> & Hst2 & Hld2);
    [done|intros q Hq; apply Hsg; by apply list_elem_of_further|done|apply Hst1| |].
  { cbn [PMM set_pmm]. pose proof (st_free _ _ _ _ _ Hst1). lia. }
  exists s2. cbn [PMM set_pmm] in Hst2. split_and!; [done|exact (step_ok_trans _ _ _ _ _ _ _ Hst1 Hst2)|].
  intros q pg [->|Hq]%elem_of_cons Hpg; [|by apply Hld2].
  eapply page_loaded_step; [done|apply Hst1|exact Hst2| |by apply Hld1]. intros p Hp.
  assert (forall q, q ∈ phs \/ q = ph -> forall x, x ∈ load_list q -> page_in_range x) as Hrange.
  { intros q' Hq' x Hx. unfold load_list in Hx. destruct (is_load q') eqn:Hil; [|by apply not_elem_of_nil in Hx].
    apply (seg_pages_range bs q'); [|done]. apply Hsg; [|done].
    destruct Hq' as [?| ->]; [by apply list_elem_of_further|apply list_elem_of_here]. }
  apply pages_distinct; [by apply (Hrange ph); [right|]| |].
  - apply list_elem_of_bind in Hp as (q' & Hx & Hq'). by apply (Hrange q'); [left|].
  - intros ->. by apply (Hdis p).
Qed.

(** An entry that maps frame [f] for user code with the permissions of a segment:
    writable iff [PF_W], not executable iff not [PF_X]. *)
Definition maps_segment (e f : Z) (ph : Elf64Phdr) : Prop :=
  frame_from_entry e = f /\ Z.testbit e 0 = true /\ Z.testbit e 2 = true /\
  Z.testbit e 1 = Z.testbit (p_flags ph) 1 /\ Z.testbit e 63 = negb (Z.testbit (p_flags ph) 0).

Lemma leaf_maps_segment f ph : is_frame f -> maps_segment (leaf_of f (seg_flags ph)) f ph.
Proof.
  intros Hf. unfold leaf_of. pose proof (frame_from_entry_roundtrip f 0) as _.
  assert (Z.land f ADDR_MASK = f) as ->.
  { pose proof (frame_from_entry_roundtrip f 0) as Hrt. unfold frame_from_entry in Hrt. rewrite Z.lor_0_r in Hrt.
    apply Hrt; destruct Hf; (done || by vm_compute). }
  assert (Z.testbit (p_flags ph) 1 = negb (Z.land (p_flags ph) PF_W =? 0)) as Hw
    by exact (eq_sym (land_shift_testbit (p_flags ph) 1 ltac:(lia))).
  assert (Z.testbit (p_flags ph) 0 = negb (Z.land (p_flags ph) PF_X =? 0)) as Hx
    by exact (eq_sym (land_shift_testbit (p_flags ph) 0 ltac:(lia))).
  unfold maps_segment. rewrite Hw, Hx, negb_involutive, <- Z.lor_assoc.
  assert (forall k, 0 <= k < 12 \/ 52 <= k -> Z.testbit f k = false) as Hbits.
  { intros k [Hk|Hk]; [|by apply (in_width_testbit 52); [lia|apply Hf]].
    destruct Hf as [H1 H2]. rewrite (Z.div_mod f 4096), H2, Z.add_0_r, Z.mul_comm by lia.
    change 4096 with (2 ^ 12). rewrite Z.mul_pow2_bits_low by lia. done. }
  split.
  - apply frame_from_entry_roundtrip; [by destruct Hf..|]. unfold seg_flags.
    destruct (negb _), (_ =? _); vm_compute; reflexivity.
  - rewrite !Z.lor_spec, !Hbits by lia. unfold seg_flags. destruct (negb _), (_ =? _); vm_compute; by split_and!.
Qed.

(** C18. Loading a program.  Given a program whose header the loader accepts and
    whose loadable segments lie in the file and in the user half, on pages of
    their own, and four free pages for each page to load, [load] succeeds and
    returns the entry point; every address of every segment then maps, with
    exactly the permissions of its header, to a frame of its own that holds the
    file's byte for it, or zero past the file's part; and no other translation of
    any address space has changed. *)
Theorem elf_load_exact roots r bs v e phs :
  space_ok (PMM v) roots -> r ∈ roots -> all_bytes bs ->
  check_ehdr bs = Some (Ok e) -> mapM (read_phdr bs) (phdr_offsets e) = Some phs ->
  (forall ph, ph ∈ phs -> is_load ph = true -> seg_ok bs ph) -> NoDup (phs ≫= load_list) ->
  4 * Z.of_nat (length (phs ≫= load_list)) <= free_pages (STATS (PMM v)) ->
  exists s', load r bs v = Some (set_pmm s' v, Ok (e_entry e)) /\ space_ok s' roots /\
    (forall ph a, ph ∈ phs -> is_load ph = true -> p_vaddr ph / 4096 * 4096 <= a < seg_top ph ->
       exists f, foreign s' roots f /\ maps_segment (debug_translate (MEM s') r a) f ph /\
         MEM s' (f + a mod 4096) = image_byte bs ph a) /\
    (forall r' a, r' ∈ roots -> ~ (r' = r /\ exists pg, pg ∈ (phs ≫= load_list) /\ same_page a pg) ->
       debug_translate (MEM s') r' a = debug_translate (MEM (PMM v)) r' a).
Proof.
  intros Hok Hr Hbs Hh Hm Hsg Hnd Hfree.
  destruct (load_segments_spec roots r bs (phdr_offsets e) phs v Hr Hbs Hm Hsg Hnd Hok Hfree) as (s' & Hl & [H1 _ _ H4] & Hld).
  exists s'. unfold load. rewrite Hh. cbn [mbind option_bind]. rewrite Hl. cbn [mbind option_bind]. split_and!; [done|done| |done].
  intros ph a Hph Hil Ha. pose proof (Hsg ph Hph Hil) as Hs. pose proof Hs as [_ (_ & Hv & _) _ _ Hu].
  assert (a / 4096 * 4096 ∈ load_list ph) as Hpg.
  { unfold load_list. rewrite Hil. apply (seg_pages_elem bs ph _ Hs). rewrite Z.mod_mul by lia. split; [done|].
    unfold seg_top in *. Z.div_mod_to_equations. lia. }
  destruct (Hld ph _ Hph Hpg) as (f & Hf & Htr & Hmem). exists f. split_and!; [done| |].
  - assert (0 <= a /\ 0 <= a / 4096 * 4096) as [? ?] by (clear -Ha Hv; Z.div_mod_to_equations; lia).
    rewrite (Htr a) by (apply same_page_div; [lia|lia|]; by rewrite Z.div_mul by lia). apply leaf_maps_segment, Hf.
  - rewrite Hmem by (apply Z.mod_pos_bound; lia). f_equal. pose proof (Z.div_mod a 4096 ltac:(lia)). lia.
Qed.

(** Step over reads of fields inside the slice. *)
Ltac read_fields :=
  repeat match goal with
  | |- context [mbind _ (rle ?n ?b ?o)] =>
      let H := fresh in destruct (rle_is_Some n b o ltac:(lia)) as [? H]; rewrite H; clear H; cbn [mbind option_bind]
  end.

(** On every byte slice the header checks give a verdict without reading past it;
    a rejected program changes nothing, and an accepted one has all its program
    headers inside the slice. *)
Lemma check_ehdr_total bs v r : all_bytes bs ->
  exists h, check_ehdr bs = Some h /\
    match h with
    | Err x => load r bs v = Some (v, Err x)
    | Ok e => exists phs, mapM (read_phdr bs) (phdr_offsets e) = Some phs
    end.
Proof.
  intros Hb. enough (exists h, check_ehdr bs = Some h /\
    forall e, h = Ok e -> 0 <= e_phoff e /\ e_phoff e + e_phnum e * PHDR_SIZE <= Z.of_nat (length bs)) as (h & Hh & Hoff).
  { exists h. split; [done|]. destruct h as [e|x]; [|unfold load; by rewrite Hh].
    destruct (Hoff e eq_refl) as [H0 Hend]. apply mapM_is_Some, Forall_fmap, Forall_forall. intros i [Hi Hlt]%elem_of_range.
    unfold compose, read_phdr. unfold PHDR_SIZE in *. set (off := Z.to_nat (e_phoff e + i * 56)).
    assert (off + 56 <= length bs)%nat as Hin by nia.
    read_fields. eauto. }
  unfold check_ehdr. unfold EHDR_SIZE. destruct (Nat.ltb_spec (length bs) 64) as [|Hlen]; [by eexists|].
  assert (exists e, read_ehdr bs = Some e /\ length (e_ident e) = 16%nat /\ 0 <= e_phoff e) as (e & -> & Hid & Hoff).
  { unfold read_ehdr. destruct (rslice bs 0 16) as [id|] eqn:Hid; [|unfold rslice in Hid; by rewrite decide_True in Hid by lia].
    cbn [mbind option_bind]. pose proof (length_rslice _ _ _ _ Hid).
    destruct (rle 8 bs 32) as [po|] eqn:Hpo; [|destruct (rle_is_Some 8 bs 32 ltac:(lia)) as [? ?]; congruence].
    read_fields.
    eexists. split_and!; [done|done|]. cbn. by apply (rle_range 8 bs 32 po) in Hpo as [? _]. }
  cbn [mbind option_bind]. destruct (negb (bool_decide _)); [by eexists|].
  destruct (lookup_lt_is_Some_2 (e_ident e) 4 ltac:(lia)) as [? ->]. destruct (lookup_lt_is_Some_2 (e_ident e) 5 ltac:(lia)) as [? ->].
  cbn [mbind option_bind]. do 2 (destruct (negb _ || negb _); [by eexists|]). destruct (negb _); [by eexists|].
  destruct (_ || _) eqn:Hb2; [by eexists|]. bool_to_prop. eexists. split; [done|]. intros e' [= <-]. lia.
Qed.

Module ElfWitness.
Import PmmWitness VmmWitness.

(** A program of one segment: five bytes of code at 0x400010, eight in memory. *)
Definition prog_segment : Elf64Phdr := mkPhdr PT_LOAD (Z.lor PF_X 4) 120 0x400010 0 5 8 4096.
Definition prog : bytes :=
  [0x7f; 69; 76; 70; 2; 1; 1] ++ replicate 9 0 ++ le_bytes 2 2 ++ le_bytes 2 EM_X86_64 ++ le_bytes 4 EV_CURRENT ++
  le_bytes 8 0x400010 ++ le_bytes 8 64 ++ le_bytes 8 0 ++ le_bytes 4 0 ++ le_bytes 2 64 ++ le_bytes 2 56 ++ le_bytes 2 1 ++
  le_bytes 6 0 ++
  le_bytes 4 PT_LOAD ++ le_bytes 4 5 ++ le_bytes 8 120 ++ le_bytes 8 0x400010 ++ le_bytes 8 0 ++ le_bytes 8 5 ++ le_bytes 8 8 ++
  le_bytes 8 4096 ++ [0x90; 0x90; 0x90; 0x0f; 0x05].

Definition prog_ehdr : Elf64Ehdr := mkEhdr ([0x7f; 69; 76; 70; 2; 1; 1] ++ replicate 9 0) 2 62 1 0x400010 64 0 0 64 56 1 0 0 0.

Lemma prog_segment_ok : seg_ok prog prog_segment.
Proof. constructor; vm_compute; intuition discriminate. Qed.

Lemma prog_bytes : all_bytes prog.
Proof. vm_compute. repeat (apply Forall_cons_2; [split; [discriminate|reflexivity]|]). apply Forall_nil_2. Qed.

Lemma elf_load_witness :
  check_ehdr prog = Some (Ok prog_ehdr) /\
  exists s', load root prog v0 = Some (set_pmm s' v0, Ok 0x400010) /\ space_ok s' [root] /\
    (forall ph a, ph ∈ [prog_segment] -> is_load ph = true -> p_vaddr ph / 4096 * 4096 <= a < seg_top ph ->
       exists f, foreign s' [root] f /\ maps_segment (debug_translate (MEM s') root a) f ph /\
         MEM s' (f + a mod 4096) = image_byte prog ph a) /\
    (forall r' a, r' ∈ [root] -> ~ (r' = root /\ exists pg, pg ∈ ([prog_segment] ≫= load_list) /\ same_page a pg) ->
       debug_translate (MEM s') r' a = debug_translate (MEM (PMM v0)) r' a).
Proof.
  split; [vm_compute; reflexivity|].
  refine (elf_load_exact [root] root prog v0 prog_ehdr [prog_segment] space0_ok root_in prog_bytes _ _ _ _ _).
  - vm_compute. reflexivity.
  - vm_compute. reflexivity.
  - intros ph ->%list_elem_of_singleton _. exact prog_segment_ok.
  - assert ([prog_segment] ≫= load_list = [0x400000]) as -> by (vm_compute; reflexivity).
    apply NoDup_singleton.
  - vm_compute. discriminate.
Defined.
End ElfWitness.
