(* ===== verification/FileServer.v ===== *)
(** * The file server

    The request loop of [user_rs/virtio_blk_driver/src/main.rs]: the boot-time
    formatting of the disk ([run_filesystem_proof]) and the seven operations the
    driver serves to other processes, on the ext2 structures of [Ext2].

    The disk is the sequence of its 1024-byte blocks; a completed request to the
    virtio device is taken to have transferred the block.  [zeroed_block!] and the
    4096-byte buffers are uninitialised memory ([MaybeUninit]): their contents are
    the arguments [junk] and [junk4], and the theorems hold for all of them.  Serial
    output is not modelled.  A panic of the driver is [None]. *)

From S2P Require Import Prelude Bits Ext2.

(** ** The disk *)

Abbreviation disk := (Z -> bytes).

Definition ext2_read_block (d : disk) (block_num : Z) : bytes := d block_num.
Definition ext2_write_block (d : disk) (block_num : Z) (data : bytes) : disk :=
  fun n => if n =? block_num then data else d n.

(** A sequence of block writes, in the order they reach the disk. *)
Definition write_all (d : disk) (ws : list (Z * bytes)) : disk :=
  foldl (fun d w => ext2_write_block d w.1 w.2) d ws.

(** ** Text *)

Definition in_rangeb (lo hi x : Z) : bool := (lo <=? x) && (x <=? hi).

(** One scalar value of [core::str::from_utf8]: the bytes after it. *)
Definition utf8_next (s : bytes) : option bytes :=
  let tail x := in_rangeb 0x80 0xBF x in
  match s with
  | [] => None
  | a :: s1 =>
      if in_rangeb 0 0x7F a then Some s1 else
      match s1 with
      | [] => None
      | b :: s2 =>
          if in_rangeb 0xC2 0xDF a then if tail b then Some s2 else None else
          match s2 with
          | [] => None
          | c :: s3 =>
              if in_rangeb 0xE0 0xEF a then
                let lo := if a =? 0xE0 then 0xA0 else 0x80 in
                let hi := if a =? 0xED then 0x9F else 0xBF in
                if in_rangeb lo hi b && tail c then Some s3 else None
              else
              match s3 with
              | [] => None
              | e :: s4 =>
                  if in_rangeb 0xF0 0xF4 a then
                    let lo := if a =? 0xF0 then 0x90 else 0x80 in
                    let hi := if a =? 0xF4 then 0x8F else 0xBF in
                    if in_rangeb lo hi b && tail c && tail e then Some s4 else None
                  else None
              end
          end
      end
  end.

Fixpoint utf8_valid (fuel : nat) (s : bytes) : bool :=
  match s, fuel with
  | [], _ => true
  | _, O => false
  | _, S fuel' => match utf8_next s with Some s' => utf8_valid fuel' s' | None => false end
  end.

(** [core::str::from_utf8(s).unwrap_or("")]. *)
Definition str_or_empty (s : bytes) : bytes := if utf8_valid (length s) s then s else [].

(** ** Formatting *)

(** "Agentic OS Phase 4 persisted this.\n" and "greeting.txt". *)
Definition FILE_CONTENT : bytes :=
  [65; 103; 101; 110; 116; 105; 99; 32; 79; 83; 32; 80; 104; 97; 115; 101; 32; 52; 32;
   112; 101; 114; 115; 105; 115; 116; 101; 100; 32; 116; 104; 105; 115; 46; 10].
Definition FILE_NAME : bytes := [103; 114; 101; 101; 116; 105; 110; 103; 46; 116; 120; 116].

Section driver.
Context (junk junk4 : bytes).

(** [really_zero_into!]. *)
Definition really_zero : bytes := replicate BLOCK_SIZE 0.

(** The blocks [run_filesystem_proof] writes to an unformatted disk, in order. *)
Definition format_writes : option (list (Z * bytes)) :=
  gd ← build_group_desc junk;
  bb ← build_block_bitmap gd;
  ib ← build_inode_bitmap bb;
  t0 ← write_root_inode really_zero;
  t1 ← write_file_inode really_zero (Z.of_nat (length FILE_CONTENT));
  root ← build_root_dir_block junk FILE_NAME;
  '(data, _) ← build_file_data_block junk FILE_CONTENT;
  sb ← build_superblock junk;
  Some [(GROUP_DESC_BLOCK, gd); (BLOCK_BITMAP_BLOCK, bb); (INODE_BITMAP_BLOCK, ib);
        (INODE_TABLE_START_BLOCK, t0); (INODE_TABLE_START_BLOCK + 1, t1);
        (INODE_TABLE_START_BLOCK + 2, really_zero); (INODE_TABLE_START_BLOCK + 3, really_zero);
        (ROOT_DATA_BLOCK, root); (FILE_DATA_BLOCK, data); (SUPERBLOCK_BLOCK, sb)].

(** The disk afterwards and whether the self-check passed. *)
Definition run_filesystem_proof (d : disk) : option (disk * bool) :=
  formatted ← is_formatted (ext2_read_block d SUPERBLOCK_BLOCK);
  d ← (if (formatted : bool) then Some d else ws ← format_writes; Some (write_all d ws));
  let inode_table1 := ext2_read_block d (INODE_TABLE_START_BLOCK + 1) in
  let file_data := ext2_read_block d FILE_DATA_BLOCK in
  '(out, n) ← read_file_data inode_table1 file_data junk;
  Some (d, bool_decide (n = length FILE_CONTENT /\ take n out = FILE_CONTENT)).

(** ** Requests *)

Definition FS_OP_LOOKUP : Z := 2.
Definition FS_OP_READDIR : Z := 3.
Definition FS_OP_MKDIR : Z := 4.
Definition FS_OP_CREATE : Z := 5.
Definition FS_OP_UNLINK : Z := 6.

Definition U64_MAX : Z := 2 ^ 64 - 1.

(** What the driver passes to [SYS_FILE_SERVICE_REPLY]: the buffer [data_vaddr]
    points to ([None] for a null pointer) and [len]. *)
Record FileReply := mkReply { rep_data : option bytes; rep_len : Z }.

Definition no_reply_data : FileReply := mkReply None 0.

(** The inode [ino], read from its table block. *)
Definition read_inode (d : disk) (ino : Z) : option InodeInfo :=
  read_inode_entry (ext2_read_block d (inode_block_and_offset ino).1) ino.

(** The closure [driver_resolve_path] passes to [resolve_path]: the directory's
    first block, unless it has none. *)
Definition read_dir_block (d : disk) (dir_ino : Z) : option bytes :=
  info ← read_inode d dir_ino;
  b0 ← direct_blocks info !! 0%nat;
  if negb (b0 =? 0) then Some (ext2_read_block d b0) else None.

Definition driver_resolve_path (d : disk) (path : bytes) : option (option (Z * Z)) :=
  resolve_path (read_dir_block d) path ROOT_INODE.

(** [driver_resolve_path(..).map(|(i, _)| i).unwrap_or(0)]. *)
Definition resolve_inode (d : disk) (path : bytes) : option Z :=
  r ← driver_resolve_path d path; Some (match r with Some (i, _) => i | None => 0 end).

(** The path in the buffer [SYS_FILE_SERVICE_GET_WRITE_DATA] filled; [ret] is what
    the call returned. *)
Definition fetched_path (ret : Z) (write_buf : bytes) : option bytes :=
  let bytes_len := if negb (ret =? U64_MAX) then Z.to_nat (u32 ret) else 0%nat in
  s ← rslice write_buf 0 bytes_len; Some (str_or_empty s).

(** [FS_OP_LOOKUP]: no reply at all when the path could not be fetched. *)
Definition serve_lookup (d : disk) (ret : Z) (write_buf : bytes) : option (option FileReply) :=
  if negb (ret =? U64_MAX) then
    path ← fetched_path ret write_buf;
    r ← driver_resolve_path d path;
    match r with
    | Some (found_ino, ft) =>
        info ← read_inode d found_ino;
        Some (Some (mkReply (Some (le_bytes 4 found_ino ++ [ft; 0; 0; 0] ++ le_bytes 4 (size info) ++ [0; 0; 0; 0])) 16))
    | None => Some (Some no_reply_data)
    end
  else Some None.

(** One entry of a directory listing: 64 bytes. *)
Definition dir_slot (e : Z * Z * bytes) : bytes :=
  let '(e_ino, e_ft, e_name) := e in
  let nlen := Nat.min (length e_name) 56 in
  le_bytes 4 e_ino ++ [e_ft; u8 (Z.of_nat (length e_name)); 0; 0] ++ take nlen e_name ++ replicate (56 - nlen) 0.

(** The callback of [FS_OP_READDIR] over all entries: the listing so far. *)
Definition list_entries (es : list (Z * Z * bytes)) : bytes :=
  foldl (fun out e => if (length out + 64 <=? 4096)%nat then out ++ dir_slot e else out) [] es.

Definition serve_readdir (d : disk) (ret : Z) (write_buf : bytes) : option FileReply :=
  path ← fetched_path ret write_buf;
  dir_ino ← (if bool_decide (path = [] \/ path = [slash]) then Some ROOT_INODE else resolve_inode d path);
  if negb (dir_ino =? 0) then
    info ← read_inode d dir_ino;
    b0 ← direct_blocks info !! 0%nat;
    out ← (if negb (b0 =? 0)
           then es ← read_dir_entries DIR_FUEL (ext2_read_block d b0) 0; Some (list_entries es)
           else Some []);
    Some (mkReply (Some (out ++ replicate (4096 - length out) 0)) (Z.of_nat (length out)))
  else Some no_reply_data.

(** The inode of the directory [FS_OP_MKDIR], [FS_OP_CREATE] and [FS_OP_UNLINK]
    work in, 0 if there is none. *)
Definition parent_inode (d : disk) (parent_path : bytes) : option Z :=
  if bool_decide (parent_path = []) then Some ROOT_INODE else resolve_inode d parent_path.

(** Read the two counters' blocks, change them, write the descriptor and then the
    superblock. *)
Definition commit_counts (d : disk) (block_delta inode_delta dir_delta : Z) : option disk :=
  '(sb, gd) ← update_alloc_counts (ext2_read_block d SUPERBLOCK_BLOCK) (ext2_read_block d GROUP_DESC_BLOCK)
                block_delta inode_delta dir_delta;
  Some (ext2_write_block (ext2_write_block d GROUP_DESC_BLOCK gd) SUPERBLOCK_BLOCK sb).

Definition write_inode (d : disk) (ino mode size links : Z) (blocks : list Z) : option disk :=
  let tbl_blk := (inode_block_and_offset ino).1 in
  tbl ← write_inode_entry_full (ext2_read_block d tbl_blk) ino mode size links blocks;
  Some (ext2_write_block d tbl_blk tbl).

Definition inode_reply (success_ino : Z) : FileReply :=
  if negb (success_ino =? 0) then mkReply (Some (le_bytes 4 success_ino)) 4 else no_reply_data.

(** [FS_OP_MKDIR]: the inode of the new directory, 0 on failure. *)
Definition make_dir (d : disk) (parent_ino : Z) (leaf_name : bytes) : option (disk * Z) :=
  let '(blk_bm, new_blk) := alloc_block (ext2_read_block d BLOCK_BITMAP_BLOCK) TOTAL_BLOCKS in
  let '(ino_bm, new_ino) := alloc_inode (ext2_read_block d INODE_BITMAP_BLOCK) NUM_INODES in
  match new_blk, new_ino with
  | Some new_b, Some new_i =>
      new_dir_b ← init_dir_block junk new_i parent_ino;
      let d := ext2_write_block d new_b new_dir_b in
      p_info ← read_inode d parent_ino;
      p_blk ← direct_blocks p_info !! 0%nat;
      '(p_dir_b, added) ← add_dir_entry (ext2_read_block d p_blk) new_i FT_DIR leaf_name;
      if (added : bool) then
        let p_tbl := ext2_read_block d (inode_block_and_offset parent_ino).1 in
        let d := ext2_write_block d p_blk p_dir_b in
        p_tbl ← write_inode_entry_full p_tbl parent_ino (mode p_info) (size p_info)
                  (u16 (links p_info + 1)) (direct_blocks p_info);
        let d := ext2_write_block d (inode_block_and_offset parent_ino).1 p_tbl in
        d ← write_inode d new_i (Z.lor S_IFDIR MODE_755) (Z.of_nat BLOCK_SIZE) 2 [new_b];
        let d := ext2_write_block d BLOCK_BITMAP_BLOCK blk_bm in
        let d := ext2_write_block d INODE_BITMAP_BLOCK ino_bm in
        d ← commit_counts d (-1) (-1) 1;
        Some (d, new_i)
      else Some (d, 0)
  | _, _ => Some (d, 0)
  end.

Definition serve_mkdir (d : disk) (ret : Z) (write_buf : bytes) : option (disk * FileReply) :=
  path ← fetched_path ret write_buf;
  let '(parent_path, leaf_name) := split_parent_and_basename path in
  parent_ino ← parent_inode d parent_path;
  '(d, success_ino) ← (if negb (parent_ino =? 0) && negb (bool_decide (leaf_name = []))
                       then make_dir d parent_ino leaf_name else Some (d, 0));
  Some (d, inode_reply success_ino).

(** [FS_OP_CREATE]. *)
Definition create_file (d : disk) (parent_ino : Z) (leaf_name : bytes) : option (disk * Z) :=
  let '(blk_bm, new_blk) := alloc_block (ext2_read_block d BLOCK_BITMAP_BLOCK) TOTAL_BLOCKS in
  let '(ino_bm, new_ino) := alloc_inode (ext2_read_block d INODE_BITMAP_BLOCK) NUM_INODES in
  match new_blk, new_ino with
  | Some new_b, Some new_i =>
      let d := ext2_write_block d new_b junk in
      p_info ← read_inode d parent_ino;
      p_blk ← direct_blocks p_info !! 0%nat;
      '(p_dir_b, added) ← add_dir_entry (ext2_read_block d p_blk) new_i FT_REG leaf_name;
      if (added : bool) then
        let d := ext2_write_block d p_blk p_dir_b in
        d ← write_inode d new_i (Z.lor S_IFREG MODE_644) 0 1 [new_b];
        let d := ext2_write_block d BLOCK_BITMAP_BLOCK blk_bm in
        let d := ext2_write_block d INODE_BITMAP_BLOCK ino_bm in
        d ← commit_counts d (-1) (-1) 0;
        Some (d, new_i)
      else Some (d, 0)
  | _, _ => Some (d, 0)
  end.

Definition serve_create (d : disk) (ret : Z) (write_buf : bytes) : option (disk * FileReply) :=
  path ← fetched_path ret write_buf;
  let '(parent_path, leaf_name) := split_parent_and_basename path in
  parent_ino ← parent_inode d parent_path;
  '(d, success_ino) ← (if negb (parent_ino =? 0) && negb (bool_decide (leaf_name = []))
                       then create_file d parent_ino leaf_name else Some (d, 0));
  Some (d, inode_reply success_ino).

(** [FS_OP_UNLINK]: whether an entry was removed. *)
Definition free_blocks (blk_bm : bytes) (bs : list Z) : bytes * Z :=
  foldl (fun s b => if negb (b =? 0) then (free_block s.1 b, s.2 + 1) else s) (blk_bm, 0) bs.

Definition unlink_file (d : disk) (parent_ino : Z) (leaf_name : bytes) : option (disk * bool) :=
  p_info ← read_inode d parent_ino;
  p_blk ← direct_blocks p_info !! 0%nat;
  '(p_dir_b, removed) ← remove_dir_entry (ext2_read_block d p_blk) leaf_name;
  match removed with
  | Some target_ino =>
      let d := ext2_write_block d p_blk p_dir_b in
      t_info ← read_inode d target_ino;
      let '(blk_bm, freed_blks) := free_blocks (ext2_read_block d BLOCK_BITMAP_BLOCK) (direct_blocks t_info) in
      let ino_bm := free_inode (ext2_read_block d INODE_BITMAP_BLOCK) target_ino in
      let d := ext2_write_block d BLOCK_BITMAP_BLOCK blk_bm in
      let d := ext2_write_block d INODE_BITMAP_BLOCK ino_bm in
      let is_dir := negb (Z.land (mode t_info) S_IFDIR =? 0) in
      d ← commit_counts d freed_blks 1 (if is_dir then -1 else 0);
      Some (d, true)
  | None => Some (d, false)
  end.

Definition serve_unlink (d : disk) (ret : Z) (write_buf : bytes) : option (disk * FileReply) :=
  path ← fetched_path ret write_buf;
  let '(parent_path, leaf_name) := split_parent_and_basename path in
  parent_ino ← parent_inode d parent_path;
  '(d, unlinked) ← (if negb (parent_ino =? 0) && negb (bool_decide (leaf_name = []))
                    then unlink_file d parent_ino leaf_name else Some (d, false));
  Some (d, mkReply (Some [if unlinked : bool then 1 else 0]) 1).

(** ** Writing and reading a file *)

Definition set_block (info : InodeInfo) (k : nat) (b : Z) : InodeInfo :=
  mkInode (mode info) (size info) (links info) (blocks_count info) (<[k := b]> (direct_blocks info)).

(** The block for index [block_idx] of the file, allocated if there is none yet;
    [Some None] when the disk is full. *)
Definition block_for (d : disk) (info : InodeInfo) (block_idx : nat) : option (option (disk * InodeInfo)) :=
  cur ← direct_blocks info !! block_idx;
  if cur =? 0 then
    let '(blk_bm, r) := alloc_block (ext2_read_block d BLOCK_BITMAP_BLOCK) TOTAL_BLOCKS in
    match r with
    | Some new_blk =>
        let d := ext2_write_block d BLOCK_BITMAP_BLOCK blk_bm in
        d ← commit_counts d (-1) 0 0;
        Some (Some (d, set_block info block_idx new_blk))
    | None => Some None
    end
  else Some (Some (d, info)).

(** [while written < bytes_len]. *)
Fixpoint write_loop (fuel : nat) (d : disk) (info : InodeInfo) (offset : nat) (data : bytes) (written : nat)
  : option (disk * InodeInfo * nat) :=
  match fuel with
  | O => None
  | S fuel' =>
      if (written <? length data)%nat then
        let cur_offset := (offset + written)%nat in
        let block_idx := (cur_offset / BLOCK_SIZE)%nat in
        if (12 <=? block_idx)%nat then Some (d, info, written) else
        let block_offset := (cur_offset mod BLOCK_SIZE)%nat in
        let chunk_len := Nat.min (BLOCK_SIZE - block_offset) (length data - written) in
        r ← block_for d info block_idx;
        match r with
        | None => Some (d, info, written)
        | Some (d, info) =>
            dblk ← direct_blocks info !! block_idx;
            let disk_block := if negb (block_offset =? 0)%nat || (chunk_len <? BLOCK_SIZE)%nat
                              then ext2_read_block d dblk else junk in
            disk_block ← wslice disk_block block_offset (take chunk_len (drop written data));
            write_loop fuel' (ext2_write_block d dblk disk_block) info offset data (written + chunk_len)
        end
      else Some (d, info, written)
  end.

(** Each turn of the loop but the first and the last fills one of the twelve
    blocks. *)
Definition WRITE_FUEL : nat := 14.

(** The write operation on an open inode: the disk and the number of bytes
    written. *)
Definition write_data (d : disk) (target_inode : Z) (offset : nat) (data : bytes) : option (disk * nat) :=
  let tbl_blk := (inode_block_and_offset target_inode).1 in
  let tbl := ext2_read_block d tbl_blk in
  info ← read_inode_entry tbl target_inode;
  '(d, info, written) ← write_loop WRITE_FUEL d info offset data 0;
  let new_size := u32 (Z.of_nat (Nat.max (offset + written) (Z.to_nat (size info)))) in
  let num_blocks := ((Z.to_nat new_size + BLOCK_SIZE - 1) / BLOCK_SIZE)%nat in
  blocks ← rslice (direct_blocks info) 0 num_blocks;
  tbl ← write_inode_entry_full tbl target_inode (mode info) new_size (links info) blocks;
  Some (ext2_write_block d tbl_blk tbl, written).

Definition serve_write (d : disk) (target_inode ret : Z) (write_buf : bytes) : option (disk * option FileReply) :=
  if negb (ret =? U64_MAX) && (0 <? u32 ret) then
    data ← rslice write_buf 0 (Z.to_nat (u32 ret));
    '(d, written) ← write_data d target_inode (Z.to_nat (Z.shiftr ret 32)) data;
    Some (d, Some (mkReply None (u32 (Z.of_nat written))))
  else Some (d, None).

(** The body of [for blk_idx in 0..num_blocks.min(12)]. *)
Definition read_step (d : disk) (info : InodeInfo) (read_len : nat) (out : bytes) (blk_idx : nat) : option bytes :=
  dblk ← direct_blocks info !! blk_idx;
  if negb (dblk =? 0) then
    let blk_start := (blk_idx * BLOCK_SIZE)%nat in
    let blk_len := Nat.min BLOCK_SIZE (read_len - blk_start) in
    chunk ← rslice (ext2_read_block d dblk) 0 blk_len;
    wslice out blk_start chunk
  else Some out.

Definition serve_read (d : disk) (target_inode : Z) : option FileReply :=
  info ← read_inode d target_inode;
  let read_len := Nat.min (Z.to_nat (size info)) 4096 in
  let num_blocks := ((read_len + BLOCK_SIZE - 1) / BLOCK_SIZE)%nat in
  out ← foldM (read_step d info read_len) junk4 (seq 0 (Nat.min num_blocks 12));
  Some (mkReply (Some out) (Z.of_nat read_len)).

(** ** One turn of the loop *)

Record Decoded := mkDecoded { dec_request_id : Z; is_write_bit : bool; dec_op : Z; dec_inode : Z }.

Definition decode_request (r : Z) : Decoded :=
  let op := Z.land (Z.shiftr r 24) 0x7F in
  let target_inode := Z.land (u32 r) 0x00FFFFFF in
  mkDecoded (Z.shiftr r 32) (negb (Z.land (Z.shiftr r 31) 1 =? 0)) op
    (if (op =? 0) && (target_inode =? 0) then FILE_INODE else target_inode).

(** [r] is what [SYS_IPC_TRY_RECEIVE] returned; [ret] and [write_buf] are the result
    of [SYS_FILE_SERVICE_GET_WRITE_DATA] for the request.  [None]: panic; the reply is
    [None] when no reply is sent. *)
Definition serve (d : disk) (r ret : Z) (write_buf : bytes) : option (disk * option FileReply) :=
  if r =? U64_MAX then Some (d, None) else
  let q := decode_request r in
  let op := dec_op q in
  if op =? FS_OP_LOOKUP then rep ← serve_lookup d ret write_buf; Some (d, rep)
  else if op =? FS_OP_READDIR then rep ← serve_readdir d ret write_buf; Some (d, Some rep)
  else if op =? FS_OP_MKDIR then '(d, rep) ← serve_mkdir d ret write_buf; Some (d, Some rep)
  else if op =? FS_OP_CREATE then '(d, rep) ← serve_create d ret write_buf; Some (d, Some rep)
  else if op =? FS_OP_UNLINK then '(d, rep) ← serve_unlink d ret write_buf; Some (d, Some rep)
  else if is_write_bit q then serve_write d (dec_inode q) ret write_buf
  else rep ← serve_read d (dec_inode q); Some (d, Some rep).
End driver.
