(* ===== verification/FileServerInv.v ===== *)
(** * What the file server guarantees

    The consistency of the disk ([fs_ok]), the contents of a file as seen through its
    inode ([file_byte]), and the effect of each request of [FileServer] on both. *)

From S2P Require Import Prelude Bits Ext2 FileServer.

(** ** Blocks *)

Definition disk_ok (d : disk) : Prop := forall n, block_ok (d n).

Lemma write_block_ok d n b : disk_ok d -> block_ok b -> disk_ok (ext2_write_block d n b).
Proof. intros Hd Hb m. unfold ext2_write_block. by destruct (m =? n). Qed.

Lemma write_block_eq d n b : ext2_write_block d n b n = b.
Proof. unfold ext2_write_block. by rewrite Z.eqb_refl. Qed.

Lemma write_block_ne d n b m : m <> n -> ext2_write_block d n b m = d m.
Proof. intros Hne. unfold ext2_write_block. by destruct (Z.eqb_spec m n). Qed.

Create HintDb disk.
#[export] Hint Resolve write_block_ok : disk.

(** Rewrite reads of a chain of writes; side conditions by [lia]. *)
Ltac simpl_disk :=
  repeat first [rewrite write_block_eq | rewrite write_block_ne by (unfold SUPERBLOCK_BLOCK, GROUP_DESC_BLOCK,
    BLOCK_BITMAP_BLOCK, INODE_BITMAP_BLOCK in *; lia)].

(** The block of an inode's table entry. *)
Lemma table_block ino : 1 <= ino <= NUM_INODES ->
  (inode_block_and_offset ino).1 = 5 + (ino - 1) / 8 /\ 5 <= 5 + (ino - 1) / 8 <= 8.
Proof.
  unfold NUM_INODES. intros Hi. unfold inode_block_and_offset, INODE_TABLE_START_BLOCK, INODES_PER_BLOCK. cbn [fst].
  assert (0 <= (ino - 1) / 8 <= 3) as Hd by (split; [apply Z.div_pos; lia|apply Z.lt_succ_r, Z.div_lt_upper_bound; lia]).
  rewrite (wrap_small 32 (ino - 1)) by (red; lia). rewrite wrap_small by (red; lia). lia.
Qed.

(** Two inodes in the same table block have different slots. *)
Lemma table_slot i j : 1 <= i <= NUM_INODES -> 1 <= j <= NUM_INODES -> i <> j ->
  (i - 1) / 8 = (j - 1) / 8 -> slot i <> slot j.
Proof. intros ? ? Hne Hq Hs. unfold slot in Hs. pose proof (Z.div_mod (i - 1) 8). pose proof (Z.div_mod (j - 1) 8). lia. Qed.

Record info_ok (info : InodeInfo) : Prop := {
  io_mode : in_width 16 (mode info);
  io_size : in_width 32 (size info);
  io_links : in_width 16 (links info);
  io_len : length (direct_blocks info) = 12%nat;
  io_ptrs : Forall (in_width 32) (direct_blocks info) }.

Lemma read_inode_total b ino : block_ok b -> 1 <= ino < 2 ^ 32 ->
  exists info, read_inode_entry b ino = Some info /\ info_ok info.
Proof.
  intros [Hl Hb] Hi. destruct (inode_offset ino Hi) as [Ho Hs]. unfold read_inode_entry. rewrite Ho.
  set (o := (Z.to_nat (slot ino) * 128)%nat). assert (o + 128 <= 1024)%nat as Hlt by (unfold o; lia). unfold BLOCK_SIZE in Hl.
  destruct (rle_is_Some 2 b (o + 0) ltac:(lia)) as [m Hm]. destruct (rle_is_Some 4 b (o + 4) ltac:(lia)) as [s Hsz].
  destruct (rle_is_Some 2 b (o + 0x1A) ltac:(lia)) as [k Hk]. destruct (rle_is_Some 4 b (o + 0x1C) ltac:(lia)) as [c Hc].
  unfold ru16, ru32. rewrite Hm, Hsz, Hk, Hc. cbn [mbind option_bind].
  assert (forall l, Forall (fun i => i < 12)%nat l -> exists bs, mapM (fun i => rle 4 b (o + 0x28 + i * 4)) l = Some bs /\
    length bs = length l /\ Forall (in_width 32) bs) as Hmap.
  { induction 1 as [|i l Hlt' _ (bs & He & Hlen & Hw)]; [by exists []|]. cbn [mapM].
    destruct (rle_is_Some 4 b (o + 0x28 + i * 4) ltac:(lia)) as [x Hx]. rewrite Hx, He. cbn [mbind option_bind].
    exists (x :: bs). cbn [length]. split_and!; [done|lia|]. constructor; [exact (rle_range 4 _ _ _ Hb Hx)|done]. }
  destruct (Hmap (seq 0 12)) as (bs & -> & Hlen & Hw). { apply Forall_forall. intros i Hin%elem_of_seq. lia. }
  cbn [mbind option_bind]. eexists; split; [done|]. constructor; cbn.
  - exact (rle_range 2 _ _ _ Hb Hm).
  - exact (rle_range 4 _ _ _ Hb Hsz).
  - exact (rle_range 2 _ _ _ Hb Hk).
  - by rewrite Hlen, length_seq.
  - done.
Qed.

Lemma disk_inode d ino : disk_ok d -> 1 <= ino <= NUM_INODES -> exists info, read_inode d ino = Some info /\ info_ok info.
Proof. intros Hd Hi. apply read_inode_total; [apply Hd|]. unfold NUM_INODES in Hi. lia. Qed.

(** The counters never make a request fail. *)
Lemma update_counts_total sb gd x y z : block_ok sb -> block_ok gd ->
  exists sb' gd', update_alloc_counts sb gd x y z = Some (sb', gd') /\ block_ok sb' /\ block_ok gd'.
Proof.
  intros [Hs Hsb] [Hg Hgb]. unfold update_alloc_counts, ru32, ru16, wu32, wu16, block_ok, BLOCK_SIZE in *.
  destruct (rle_is_Some 4 sb 0x0C ltac:(lia)) as [a ->]. destruct (rle_is_Some 4 sb 0x10 ltac:(lia)) as [b ->].
  cbn [mbind option_bind].
  destruct (wle_is_Some 4 sb 0x0C (adjust 32 a x) ltac:(lia)) as [sb1 H1]. pose proof (length_wle _ _ _ _ _ H1). rewrite H1.
  cbn [mbind option_bind].
  destruct (wle_is_Some 4 sb1 0x10 (adjust 32 b y) ltac:(lia)) as [sb2 H2]. pose proof (length_wle _ _ _ _ _ H2). rewrite H2.
  cbn [mbind option_bind].
  destruct (rle_is_Some 2 gd 0x0C ltac:(lia)) as [p ->]. destruct (rle_is_Some 2 gd 0x0E ltac:(lia)) as [q ->].
  destruct (rle_is_Some 2 gd 0x10 ltac:(lia)) as [r ->]. cbn [mbind option_bind].
  destruct (wle_is_Some 2 gd 0x0C (adjust 16 p x) ltac:(lia)) as [g1 G1]. pose proof (length_wle _ _ _ _ _ G1). rewrite G1.
  cbn [mbind option_bind].
  destruct (wle_is_Some 2 g1 0x0E (adjust 16 q y) ltac:(lia)) as [g2 G2]. pose proof (length_wle _ _ _ _ _ G2). rewrite G2.
  cbn [mbind option_bind].
  destruct (wle_is_Some 2 g2 0x10 (adjust 16 r z) ltac:(lia)) as [g3 G3]. pose proof (length_wle _ _ _ _ _ G3). rewrite G3.
  cbn [mbind option_bind]. exists sb2, g3. split_and!; [done|lia| |lia|]; eauto using wle_all_bytes.
Qed.

(** Only the superblock and the group descriptor change. *)
Lemma commit_counts_total d x y z : disk_ok d -> exists d', commit_counts d x y z = Some d' /\ disk_ok d' /\
  forall n, n <> SUPERBLOCK_BLOCK -> n <> GROUP_DESC_BLOCK -> d' n = d n.
Proof.
  intros Hd. unfold commit_counts, ext2_read_block.
  destruct (update_counts_total (d SUPERBLOCK_BLOCK) (d GROUP_DESC_BLOCK) x y z) as (sb & gd & -> & Hs & Hg); [apply Hd..|].
  cbn [mbind option_bind]. eexists; split_and!; [done|auto with disk|]. intros n H1 H2. by rewrite !write_block_ne by done.
Qed.

Lemma write_inode_total d ino mode size links blocks :
  disk_ok d -> 1 <= ino <= NUM_INODES -> in_width 16 mode -> in_width 32 size -> in_width 16 links ->
  (length blocks <= 12)%nat -> Forall (in_width 32) blocks ->
  exists tbl, write_inode_entry_full (d (inode_block_and_offset ino).1) ino mode size links blocks = Some tbl /\ block_ok tbl /\
    (forall d', d' (inode_block_and_offset ino).1 = tbl ->
       read_inode d' ino = Some (mkInode mode size links (Z.of_nat (length blocks)) (blocks ++ replicate (12 - length blocks) 0))) /\
    (forall d' j, d' (inode_block_and_offset ino).1 = tbl ->
       (forall n, 5 <= n <= 8 -> n <> (inode_block_and_offset ino).1 -> d' n = d n) ->
       1 <= j <= NUM_INODES -> j <> ino -> read_inode d' j = read_inode d j).
Proof.
  intros Hd Hi Hm Hs Hl H12 Hb. pose proof (table_block ino Hi) as [Ht Hr].
  destruct (inode_roundtrip (d (inode_block_and_offset ino).1) ino mode size links blocks)
    as (tbl & Hw & Hok & Hrd & Hot); [apply Hd|unfold NUM_INODES in Hi; lia|done..|].
  exists tbl. split_and!; [done|done| |].
  - intros d' He. unfold read_inode, ext2_read_block. by rewrite He.
  - intros d' j He Hne Hj Hji. pose proof (table_block j Hj) as [Htj Hrj]. unfold read_inode, ext2_read_block.
    destruct (decide ((inode_block_and_offset j).1 = (inode_block_and_offset ino).1)) as [Hsame|Hdiff].
    + rewrite Hsame, He. apply Hot; [unfold NUM_INODES in Hj; lia|]. apply table_slot; [done..|]. lia.
    + rewrite Hne by (done || lia). done.
Qed.

(** ** Consistency of the disk *)

Definition live (d : disk) (ino : Z) : Prop :=
  1 <= ino <= NUM_INODES /\ bit (d INODE_BITMAP_BLOCK) (ino - 1) = true.

Definition used_block (d : disk) (b : Z) : bool := bit (d BLOCK_BITMAP_BLOCK) (b - 1).

(** The block pointers of an inode, zeros included. *)
Definition pointers (d : disk) (ino : Z) : list Z :=
  match read_inode d ino with Some info => direct_blocks info | None => [] end.

Definition file_size (d : disk) (ino : Z) : nat :=
  match read_inode d ino with Some info => Z.to_nat (size info) | None => 0%nat end.

(** Every block is a block, and every block an inode in use points to is a data
    block marked used and belongs to that pointer alone. *)
Record fs_ok (d : disk) : Prop := {
  fs_blocks : disk_ok d;
  fs_used ino k b : live d ino -> pointers d ino !! k = Some b -> b <> 0 -> 9 <= b <= 64 /\ used_block d b = true;
  fs_owner i j k l b : live d i -> live d j -> pointers d i !! k = Some b -> pointers d j !! l = Some b -> b <> 0 ->
    i = j /\ k = l }.

(** Byte [i] of a file, through its block pointers. *)
Definition byte_at (d : disk) (ptrs : list Z) (i : nat) : option Z :=
  b ← ptrs !! (i / BLOCK_SIZE)%nat; if b =? 0 then None else d b !! (i mod BLOCK_SIZE)%nat.

Definition file_byte (d : disk) (ino : Z) (i : nat) : option Z :=
  if (i <? file_size d ino)%nat then byte_at d (pointers d ino) i else None.

(** No hole below [n]. *)
Definition dense (ptrs : list Z) (n : nat) : Prop :=
  forall k, (k * BLOCK_SIZE < n)%nat -> exists b, ptrs !! k = Some b /\ b <> 0.

(** ** Allocating a block for a file *)

Lemma alloc_block_disk d : disk_ok d ->
  exists bm r, alloc_block (d BLOCK_BITMAP_BLOCK) TOTAL_BLOCKS = (bm, r) /\
    match r with
    | None => forall b, 11 <= b <= 64 -> used_block d b = true
    | Some b => 11 <= b <= 64 /\ used_block d b = false /\ block_ok bm /\
        forall j, 1 <= j -> bit bm (j - 1) = if j =? b then true else used_block d j
    end.
Proof.
  intros Hd. destruct (Hd BLOCK_BITMAP_BLOCK) as [Hl Hb].
  destruct (alloc_block_exact (d BLOCK_BITMAP_BLOCK) TOTAL_BLOCKS Hb) as (bm & r & He & Hr).
  exists bm, r. split; [done|]. unfold TOTAL_BLOCKS, used_block in *. destruct r as [b|].
  - destruct Hr as (Hin & [_ Hf] & _ & (Hlen & Hby & Hbit) & _). split_and!; [lia|lia|done|split; [lia|done]|].
    intros j Hj. rewrite Hbit by lia. destruct (Z.eqb_spec (j - 1) (b - 1)), (Z.eqb_spec j b); lia || done.
  - destruct Hr as [_ Hn]. intros b Hb'. specialize (Hn b Hb').
    destruct (bit _ _) eqn:Hbit; [done|]. exfalso. apply Hn. split; [|done]. rewrite Hl. unfold BLOCK_SIZE. lia.
Qed.

(** What changes when block index [k] gets a block: at most that pointer, the
    bitmap's bit and the counters. *)
Lemma block_for_spec d info k :
  disk_ok d -> info_ok info -> (k < 12)%nat ->
  exists r, block_for d info k = Some r /\
    match r with
    | None => direct_blocks info !! k = Some 0 /\ forall b, 11 <= b <= 64 -> used_block d b = true
    | Some (d', info') => disk_ok d' /\ (forall n, 4 <= n -> d' n = d n) /\
        exists b, b <> 0 /\ info' = set_block info k b /\
          ((direct_blocks info !! k = Some b /\ d' = d) \/
           (direct_blocks info !! k = Some 0 /\ 11 <= b <= 64 /\ used_block d b = false /\
            forall j, 1 <= j -> used_block d' j = if j =? b then true else used_block d j))
    end.
Proof.
  intros Hd Hi Hk. destruct (lookup_lt_is_Some_2 (direct_blocks info) k) as [c Hc]; [rewrite (io_len _ Hi); lia|].
  unfold block_for. rewrite Hc. cbn [mbind option_bind]. destruct (Z.eqb_spec c 0) as [->|Hnz].
  - destruct (alloc_block_disk d Hd) as (bm & r & He & Hr). unfold ext2_read_block. rewrite He. destruct r as [b|].
    + destruct Hr as (Hin & Hu & Hbm & Hbit).
      destruct (commit_counts_total (ext2_write_block d BLOCK_BITMAP_BLOCK bm) (-1) 0 0) as (d' & -> & Hd' & Hsame);
        [auto with disk|]. cbn [mbind option_bind]. eexists; split; [done|]. split; [done|].
      unfold SUPERBLOCK_BLOCK, GROUP_DESC_BLOCK, BLOCK_BITMAP_BLOCK in *. split.
      { intros n Hn. rewrite Hsame by lia. by rewrite write_block_ne by lia. }
      exists b. split; [lia|]. split; [done|]. right. split_and!; [done|lia|lia|done|].
      intros j Hj. unfold used_block at 1, BLOCK_BITMAP_BLOCK. rewrite Hsame by lia. rewrite write_block_eq. by apply Hbit.
    + eexists; split; [done|]. done.
  - eexists; split; [done|]. split; [done|]. split; [done|]. exists c. split; [done|]. split.
    + destruct info. unfold set_block. cbn in *. by rewrite list_insert_id.
    + by left.
Qed.

Lemma set_block_ok info k b : info_ok info -> in_width 32 b -> info_ok (set_block info k b).
Proof. intros [] Hb. constructor; cbn; try done; [by rewrite length_insert|by apply Forall_insert]. Qed.

(** ** The write loop *)

(** Where byte [i] is. *)
Lemma byte_split (k i : nat) : (k * BLOCK_SIZE <= i < k * BLOCK_SIZE + BLOCK_SIZE)%nat <-> (i / BLOCK_SIZE)%nat = k.
Proof.
  unfold BLOCK_SIZE. pose proof (Nat.div_mod_eq i 1024). pose proof (Nat.mod_upper_bound i 1024 ltac:(lia)). split; intros; [|subst; lia].
  symmetry. apply (Nat.div_unique _ _ _ (i - k * 1024)); lia.
Qed.

Lemma byte_mod (i : nat) : (i mod BLOCK_SIZE = i - i / BLOCK_SIZE * BLOCK_SIZE)%nat.
Proof. pose proof (Nat.div_mod_eq i BLOCK_SIZE). lia. Qed.

(** The block a turn of the loop writes. *)
Definition chunk (off : nat) (data : bytes) (w : nat) : nat := Nat.min (BLOCK_SIZE - (off + w) mod BLOCK_SIZE) (length data - w).

Lemma chunk_bounds off data w : (w < length data)%nat ->
  (0 < chunk off data w)%nat /\ (w + chunk off data w <= length data)%nat /\
  ((off + w) mod BLOCK_SIZE + chunk off data w <= BLOCK_SIZE)%nat /\
  (w + chunk off data w = length data \/ (off + w) mod BLOCK_SIZE + chunk off data w = BLOCK_SIZE)%nat.
Proof.
  intros Hw. unfold chunk. pose proof (Nat.mod_upper_bound (off + w) BLOCK_SIZE ltac:(done)). unfold BLOCK_SIZE in *. lia.
Qed.

Section writing.
Context (junk : bytes) (Hjunk : block_ok junk).
Context (d : disk) (info : InodeInfo) (off : nat) (data : bytes).
Context (Hdata : all_bytes data) (Hoff : (off <= Z.to_nat (size info))%nat).

(** After [w] bytes: the disk [d1] and the inode in memory [info1]. *)
Record writing (d1 : disk) (info1 : InodeInfo) (w : nat) : Prop := {
  wi_len : (w <= length data)%nat;
  wi_aligned : w = 0%nat \/ w = length data \/ ((off + w) mod BLOCK_SIZE = 0)%nat;
  wi_disk : disk_ok d1;
  wi_meta n : 4 <= n <= 8 -> d1 n = d n;
  wi_other n : 9 <= n <= 64 -> n ∉ direct_blocks info1 -> d1 n = d n;
  wi_info : info_ok info1;
  wi_fields : mode info1 = mode info /\ size info1 = size info /\ links info1 = links info;
  wi_keep k b : direct_blocks info !! k = Some b -> b <> 0 -> direct_blocks info1 !! k = Some b;
  wi_used b : 1 <= b -> used_block d b = true -> used_block d1 b = true;
  wi_new k b : direct_blocks info1 !! k = Some b -> b <> 0 -> direct_blocks info !! k = Some b \/
    (11 <= b <= 64 /\ used_block d b = false /\ used_block d1 b = true);
  wi_nodup k l b : direct_blocks info1 !! k = Some b -> direct_blocks info1 !! l = Some b -> b <> 0 -> k = l;
  wi_dense : dense (direct_blocks info1) (Nat.max (Z.to_nat (size info)) (off + w));
  wi_bytes i : (i < Nat.max (Z.to_nat (size info)) (off + w))%nat ->
    byte_at d1 (direct_blocks info1) i =
    if decide (off <= i < off + w)%nat then data !! (i - off)%nat else byte_at d (direct_blocks info) i }.

Context (Hinfo : info_ok info) (Hdisk : disk_ok d) (Hdense : dense (direct_blocks info) (Z.to_nat (size info))).
Context (Hused : forall k b, direct_blocks info !! k = Some b -> b <> 0 -> 9 <= b <= 64 /\ used_block d b = true).
Context (Hnodup : forall k l b, direct_blocks info !! k = Some b -> direct_blocks info !! l = Some b -> b <> 0 -> k = l).

Lemma writing_start : writing d info 0.
Proof using All.
  constructor; try done.
  - lia.
  - by left.
  - by left.
  - by rewrite Nat.max_l by lia.
  - intros i _. rewrite decide_False by lia. done.
Qed.

Lemma writing_ptr d1 info1 w k b : writing d1 info1 w -> direct_blocks info1 !! k = Some b -> b <> 0 ->
  9 <= b <= 64 /\ used_block d1 b = true.
Proof using All.
  intros Hw Hk Hb. destruct (wi_new _ _ _ Hw _ _ Hk Hb) as [Hold|(? & ? & ?)]; [|split; [lia|done]].
  destruct (Hused _ _ Hold Hb) as [Hr Hu]. split; [done|]. apply (wi_used _ _ _ Hw); [lia|done].
Qed.

(** The state after one turn: block index [k] has block [b], filled with [blk]. *)
Section turn.
Context (d1 d2 : disk) (info1 : InodeInfo) (w : nat) (b : Z) (blk : bytes).
Let k := ((off + w) / BLOCK_SIZE)%nat.
Let c := chunk off data w.
Context (Hw : writing d1 info1 w) (Hlt : (w < length data)%nat) (Hk : (k < 12)%nat) (Hb0 : b <> 0).
Context (Hd2 : disk_ok d2) (Hsame : forall n, 4 <= n -> d2 n = d1 n).
Context (Hcase : (direct_blocks info1 !! k = Some b /\ d2 = d1) \/
  (direct_blocks info1 !! k = Some 0 /\ 11 <= b <= 64 /\ used_block d1 b = false /\
   forall j, 1 <= j -> used_block d2 j = if j =? b then true else used_block d1 j)).
Context (Hblk : wslice (if negb ((off + w) mod BLOCK_SIZE =? 0)%nat || (c <? BLOCK_SIZE)%nat then d2 b else junk)
  ((off + w) mod BLOCK_SIZE) (take c (drop w data)) = Some blk).
Let d3 := ext2_write_block d2 b blk.
Let ptrs := <[k := b]> (direct_blocks info1).

Lemma turn_b_range : 9 <= b <= 64.
Proof using All. destruct Hcase as [[H1 _]|(_ & ? & _)]; [|lia]. by apply (writing_ptr _ _ _ _ _ Hw H1). Qed.

Lemma turn_used2 j : 1 <= j -> used_block d1 j = true -> used_block d3 j = true.
Proof using All.
  intros Hj Hu. pose proof turn_b_range. unfold used_block, d3, BLOCK_BITMAP_BLOCK. rewrite write_block_ne by lia.
  destruct Hcase as [[_ ->]|(_ & _ & _ & Hbit)]; [done|]. specialize (Hbit j Hj). unfold used_block, BLOCK_BITMAP_BLOCK in Hbit.
  rewrite Hbit. destruct (j =? b); done.
Qed.

Lemma turn_used_b : used_block d3 b = true.
Proof using All.
  pose proof turn_b_range. destruct Hcase as [[H1 He]|(_ & _ & _ & Hbit)].
  - apply turn_used2; [lia|]. by apply (writing_ptr _ _ _ _ _ Hw H1).
  - specialize (Hbit b ltac:(lia)). rewrite Z.eqb_refl in Hbit. unfold used_block, d3, BLOCK_BITMAP_BLOCK in *.
    by rewrite write_block_ne by lia.
Qed.

Lemma turn_ptrs_k : ptrs !! k = Some b.
Proof using All. unfold ptrs. apply list_lookup_insert_eq. rewrite (io_len _ (wi_info _ _ _ Hw)). lia. Qed.

Lemma turn_ptrs_ne l x : l <> k -> ptrs !! l = Some x -> direct_blocks info1 !! l = Some x.
Proof using All. intros Hne. unfold ptrs. by rewrite list_lookup_insert_ne by done. Qed.

(** No other pointer is [b]. *)
Lemma turn_fresh l : direct_blocks info1 !! l = Some b -> l = k.
Proof using All.
  intros Hl. destruct Hcase as [[H1 _]|(_ & _ & Hu & _)]; [by apply (wi_nodup _ _ _ Hw _ _ _ Hl H1)|].
  destruct (writing_ptr _ _ _ _ _ Hw Hl Hb0) as [_ Hu']. congruence.
Qed.

Lemma turn_new l x : ptrs !! l = Some x -> x <> 0 -> direct_blocks info !! l = Some x \/
  (11 <= x <= 64 /\ used_block d x = false /\ used_block d3 x = true).
Proof using All.
  intros Hl Hx. pose proof turn_b_range as Hbr. destruct (decide (l = k)) as [->|Hne].
  - rewrite turn_ptrs_k in Hl. injection Hl as <-. destruct Hcase as [[H1 _]|(_ & Hr & Hu & _)].
    + destruct (wi_new _ _ _ Hw _ _ H1 Hx) as [?|(? & ? & ?)]; [by left|right]. split_and!; [lia|lia|done|apply turn_used_b].
    + right. split_and!; [lia|lia| |apply turn_used_b]. destruct (used_block d b) eqn:He; [|done].
      rewrite (wi_used _ _ _ Hw b) in Hu by (lia || done). done.
  - apply turn_ptrs_ne in Hl; [|done]. destruct (wi_new _ _ _ Hw _ _ Hl Hx) as [?|(? & ? & ?)]; [by left|right].
    split_and!; [lia|lia|done|]. apply turn_used2; [lia|done].
Qed.

Lemma turn_nodup l m x : ptrs !! l = Some x -> ptrs !! m = Some x -> x <> 0 -> l = m.
Proof using All.
  intros Hl Hm Hx. destruct (decide (l = k)) as [->|Hl'], (decide (m = k)) as [->|Hm']; [done| | |].
  - rewrite turn_ptrs_k in Hl. injection Hl as <-. apply turn_ptrs_ne in Hm; [|done]. symmetry. by apply turn_fresh.
  - rewrite turn_ptrs_k in Hm. injection Hm as <-. apply turn_ptrs_ne in Hl; [|done]. by apply turn_fresh.
  - apply turn_ptrs_ne in Hl, Hm; [|done..]. by apply (wi_nodup _ _ _ Hw _ _ _ Hl Hm).
Qed.

Let top := Nat.max (Z.to_nat (size info)) (off + w).

(** The bytes the turn writes are in block [k]. *)
Lemma turn_span i : (off + w <= i < off + w + c)%nat -> (i / BLOCK_SIZE)%nat = k.
Proof using All.
  intros Hi. apply byte_split. destruct (chunk_bounds off data w Hlt) as (_ & _ & Hc & _). fold c in Hc.
  pose proof (byte_mod (off + w)) as Hm. fold k in Hm.
  assert (k * BLOCK_SIZE <= off + w)%nat by (unfold k; pose proof (Nat.div_mod_eq (off + w) BLOCK_SIZE); lia). lia.
Qed.

Lemma turn_dense : dense ptrs (Nat.max (Z.to_nat (size info)) (off + (w + c))).
Proof using All.
  intros l Hl. destruct (decide (l = k)) as [->|Hne]; [exists b; split; [apply turn_ptrs_k|done]|].
  destruct (decide (l * BLOCK_SIZE < top)%nat) as [Hin|Hout].
  - destruct (wi_dense _ _ _ Hw l Hin) as (x & Hx & Hx0). exists x. split; [|done]. unfold ptrs.
    by rewrite list_lookup_insert_ne by done.
  - exfalso. apply Hne. unfold top in Hout. rewrite <- (turn_span (l * BLOCK_SIZE)) by lia. by rewrite Nat.div_mul.
Qed.

Lemma turn_bytes i : (i < Nat.max (Z.to_nat (size info)) (off + (w + c)))%nat ->
  byte_at d3 ptrs i = if decide (off <= i < off + (w + c))%nat then data !! (i - off)%nat else byte_at d (direct_blocks info) i.
Proof using All.
  intros Hi. pose proof turn_b_range as Hbr. destruct (chunk_bounds off data w Hlt) as (Hc0 & Hcl & Hcb & _). fold c in Hc0, Hcl, Hcb.
  unfold byte_at. destruct (decide ((i / BLOCK_SIZE)%nat = k)) as [Hik|Hik].
  - rewrite Hik, turn_ptrs_k. cbn [mbind option_bind]. rewrite (proj2 (Z.eqb_neq b 0)) by done. unfold d3. rewrite write_block_eq.
    rewrite (lookup_wslice _ _ _ _ _ Hblk). rewrite length_take, length_drop, Nat.min_l by lia.
    pose proof (byte_mod i) as Him. rewrite Hik in Him. pose proof (byte_mod (off + w)) as Hom. fold k in Hom.
    assert (k * BLOCK_SIZE <= off + w)%nat by (unfold k; pose proof (Nat.div_mod_eq (off + w) BLOCK_SIZE); lia).
    assert (k * BLOCK_SIZE <= i < k * BLOCK_SIZE + BLOCK_SIZE)%nat as Hblkr by (by apply byte_split).
    destruct (decide (off + w <= i < off + w + c)%nat) as [Hin|Hout].
    + rewrite decide_True by lia. rewrite decide_True by lia. rewrite lookup_take_lt by lia. rewrite lookup_drop. f_equal. lia.
    + rewrite decide_False by lia.
      assert ((if negb ((off + w) mod BLOCK_SIZE =? 0)%nat || (c <? BLOCK_SIZE)%nat then d2 b else junk) = d1 b) as ->.
      { rewrite (Hsame b) by lia. destruct (Nat.eqb_spec ((off + w) mod BLOCK_SIZE) 0); [|done].
        destruct (Nat.ltb_spec c BLOCK_SIZE); [done|]. lia. }
      destruct Hcase as [[H1 _]|(H1 & _)].
      * pose proof (wi_bytes _ _ _ Hw i ltac:(lia)) as Hby. unfold byte_at in Hby. rewrite Hik, H1 in Hby. cbn [mbind option_bind] in Hby.
        rewrite (proj2 (Z.eqb_neq b 0)) in Hby by done. rewrite Hby. repeat case_decide; try lia; done.
      * exfalso. destruct (wi_dense _ _ _ Hw k) as (x & Hx & Hx0); [lia|]. congruence.
  - assert (~ (off + w <= i < off + w + c)%nat) as Hout by (intros Hin; by apply Hik, turn_span).
    pose proof (wi_bytes _ _ _ Hw i ltac:(lia)) as Hby. unfold byte_at in Hby.
    destruct (wi_dense _ _ _ Hw (i / BLOCK_SIZE)%nat) as (x & Hx & Hx0).
    { pose proof (Nat.div_mod_eq i BLOCK_SIZE). lia. }
    unfold ptrs. rewrite list_lookup_insert_ne by done. rewrite Hx in Hby |- *. cbn [mbind option_bind] in Hby |- *.
    rewrite (proj2 (Z.eqb_neq x 0)) in Hby |- * by done.
    assert (x <> b) as Hxb by (intros ->; by apply Hik, turn_fresh).
    destruct (writing_ptr _ _ _ _ _ Hw Hx Hx0) as [Hxr _]. unfold d3. rewrite write_block_ne by done.
    rewrite Hsame by lia. rewrite Hby. repeat case_decide; try lia; done.
Qed.

Lemma turn_writing : writing d3 (set_block info1 k b) (w + c).
Proof using All.
  pose proof turn_b_range as Hbr. destruct (chunk_bounds off data w Hlt) as (Hc0 & Hcl & Hcb & Hce). fold c in Hc0, Hcl, Hcb, Hce.
  constructor; cbn [direct_blocks set_block mode size links]; fold ptrs.
  - lia.
  - right. destruct Hce as [|Hce]; [by left|right].
    pose proof (Nat.div_mod_eq (off + w) BLOCK_SIZE) as Hdm. replace (off + (w + c))%nat with ((k + 1) * BLOCK_SIZE)%nat.
    + by apply Nat.Div0.mod_mul.
    + unfold k. lia.
  - apply write_block_ok; [done|]. split.
    + rewrite (length_wslice _ _ _ _ Hblk). destruct (_ || _); [apply Hd2|apply Hjunk].
    + eapply wslice_all_bytes; [|by apply Forall_take, Forall_drop|exact Hblk]. destruct (_ || _); [apply Hd2|apply Hjunk].
  - intros n Hn. unfold d3. rewrite write_block_ne by lia. rewrite Hsame by lia. by apply (wi_meta _ _ _ Hw).
  - intros n Hn Hni. assert (n <> b) as Hnb by (intros ->; apply Hni; eapply list_elem_of_lookup_2, turn_ptrs_k).
    unfold d3. rewrite write_block_ne by done. rewrite Hsame by lia. apply (wi_other _ _ _ Hw); [done|].
    intros [l Hl]%list_elem_of_lookup. destruct (decide (l = k)) as [->|Hne].
    + destruct Hcase as [[H1 _]|(H1 & _)]; rewrite H1 in Hl; injection Hl as <-; [done|lia].
    + apply Hni. eapply list_elem_of_lookup_2. unfold ptrs. by rewrite list_lookup_insert_ne by done.
  - apply set_block_ok; [apply Hw|]. red. lia.
  - apply (wi_fields _ _ _ Hw).
  - intros l x Hl Hx. pose proof (wi_keep _ _ _ Hw _ _ Hl Hx) as Hl1. destruct (decide (l = k)) as [->|Hne].
    + destruct Hcase as [[H1 _]|(H1 & _)]; rewrite H1 in Hl1; injection Hl1 as <-; [apply turn_ptrs_k|done].
    + unfold ptrs. by rewrite list_lookup_insert_ne by done.
  - intros x Hx Hu. apply turn_used2; [done|]. by apply (wi_used _ _ _ Hw).
  - apply turn_new.
  - apply turn_nodup.
  - apply turn_dense.
  - apply turn_bytes.
Qed.
End turn.
End writing.

Lemma dense_bound info n : info_ok info -> dense (direct_blocks info) n -> (n <= 12 * BLOCK_SIZE)%nat.
Proof.
  intros Hi Hd. destruct (decide (n <= 12 * BLOCK_SIZE)%nat) as [|Hn]; [done|]. destruct (Hd 12%nat) as (b & Hb & _); [lia|].
  apply lookup_lt_Some in Hb. rewrite (io_len _ Hi) in Hb. lia.
Qed.

Section loop.
Context (junk : bytes) (Hjunk : block_ok junk).
Context (d : disk) (info : InodeInfo) (off : nat) (data : bytes).
Context (Hdata : all_bytes data) (Hoff : (off <= Z.to_nat (size info))%nat).
Context (Hinfo : info_ok info) (Hdisk : disk_ok d) (Hdense : dense (direct_blocks info) (Z.to_nat (size info))).
Context (Hused : forall k b, direct_blocks info !! k = Some b -> b <> 0 -> 9 <= b <= 64 /\ used_block d b = true).
Context (Hnodup : forall k l b, direct_blocks info !! k = Some b -> direct_blocks info !! l = Some b -> b <> 0 -> k = l).

(** Why the loop stopped. *)
Definition stopped (d' : disk) (w : nat) : Prop :=
  w = length data \/ (off + w)%nat = (12 * BLOCK_SIZE)%nat \/ forall b, 11 <= b <= 64 -> used_block d' b = true.

Lemma write_loop_spec fuel d1 info1 w :
  writing d info off data d1 info1 w -> (1 <= fuel)%nat ->
  (w = length data \/ 13 <= fuel + (off + w) / BLOCK_SIZE)%nat ->
  exists d2 info2 w2, write_loop junk fuel d1 info1 off data w = Some (d2, info2, w2) /\
    writing d info off data d2 info2 w2 /\ stopped d2 w2.
Proof using All.
  revert d1 info1 w. induction fuel as [|fuel IH]; intros d1 info1 w Hw H1 Hf; [lia|]. cbn [write_loop].
  destruct (Nat.ltb_spec w (length data)) as [Hlt|Hge].
  2:{ exists d1, info1, w. split_and!; [done|done|]. left. pose proof (wi_len _ _ _ _ _ _ _ Hw). lia. }
  destruct (Nat.leb_spec 12 ((off + w) / BLOCK_SIZE)) as [Hend|Hk].
  { exists d1, info1, w. split_and!; [done|done|]. right; left.
    pose proof (dense_bound _ _ (wi_info _ _ _ _ _ _ _ Hw) (wi_dense _ _ _ _ _ _ _ Hw)) as Hb.
    pose proof (Nat.div_mod_eq (off + w) BLOCK_SIZE). unfold BLOCK_SIZE in *. lia. }
  destruct (block_for_spec d1 info1 ((off + w) / BLOCK_SIZE)) as (r & Hbf & Hr); [apply Hw|apply Hw|done|].
  rewrite Hbf. cbn [mbind option_bind]. destruct r as [[d2 info2]|].
  2:{ exists d1, info1, w. split_and!; [done|done|]. right; right. apply Hr. }
  destruct Hr as (Hd2 & Hsame & b & Hb0 & -> & Hcase).
  set (k := ((off + w) / BLOCK_SIZE)%nat) in *.
  assert (direct_blocks (set_block info1 k b) !! k = Some b) as ->.
  { cbn [set_block direct_blocks]. apply list_lookup_insert_eq. rewrite (io_len _ (wi_info _ _ _ _ _ _ _ Hw)). lia. }
  cbn [mbind option_bind]. fold (chunk off data w).
  destruct (chunk_bounds off data w Hlt) as (Hc0 & Hcl & Hcb & Hce). unfold ext2_read_block.
  destruct (wslice_is_Some (if negb ((off + w) mod BLOCK_SIZE =? 0)%nat || (chunk off data w <? BLOCK_SIZE)%nat then d2 b else junk)
    ((off + w) mod BLOCK_SIZE) (take (chunk off data w) (drop w data))) as [blk Hblk].
  { rewrite length_take, length_drop. destruct (_ || _); [destruct (Hd2 b) as [-> _]|destruct Hjunk as [-> _]]; lia. }
  rewrite Hblk. cbn [mbind option_bind]. apply IH.
  - eapply turn_writing; done.
  - lia.
  - destruct Hce as [|Hce]; [by left|right]. replace (off + (w + chunk off data w))%nat with ((k + 1) * BLOCK_SIZE)%nat.
    + rewrite Nat.div_mul by done. destruct Hf; lia.
    + unfold k. pose proof (Nat.div_mod_eq (off + w) BLOCK_SIZE). lia.
Qed.
End loop.

(** ** The file a write leaves behind *)

Lemma blocks_needed n k : (k < (n + BLOCK_SIZE - 1) / BLOCK_SIZE <-> k * BLOCK_SIZE < n)%nat.
Proof.
  unfold BLOCK_SIZE. pose proof (Nat.div_mod_eq (n + 1024 - 1) 1024). pose proof (Nat.mod_upper_bound (n + 1024 - 1) 1024 ltac:(lia)). lia.
Qed.

Lemma pad_lookup (l : list Z) n k : length l = 12%nat -> (k < 12)%nat ->
  (take n l ++ replicate (12 - length (take n l)) 0) !! k = if (k <? n)%nat then l !! k else Some 0.
Proof.
  intros Hl Hk. rewrite length_take, Hl. destruct (Nat.ltb_spec k n).
  - rewrite lookup_app_l by (rewrite length_take; lia). by rewrite lookup_take_lt.
  - rewrite lookup_app_r by (rewrite length_take; lia). apply lookup_replicate_2. rewrite length_take. lia.
Qed.

Lemma byte_at_ext d d' ptrs ptrs' i :
  ptrs !! (i / BLOCK_SIZE)%nat = ptrs' !! (i / BLOCK_SIZE)%nat ->
  (forall b, ptrs' !! (i / BLOCK_SIZE)%nat = Some b -> b <> 0 -> d b = d' b) ->
  byte_at d ptrs i = byte_at d' ptrs' i.
Proof.
  intros Hp Hd. unfold byte_at. rewrite Hp. destruct (ptrs' !! _) as [b|] eqn:Hb; [|done]. cbn [mbind option_bind].
  destruct (Z.eqb_spec b 0); [done|]. by rewrite (Hd b).
Qed.

Lemma read_inode_pointers d ino info : read_inode d ino = Some info ->
  pointers d ino = direct_blocks info /\ file_size d ino = Z.to_nat (size info).
Proof. intros He. unfold pointers, file_size. by rewrite He. Qed.

(** The inode and all bytes are as before. *)
Definition same_file (d d' : disk) (ino : Z) : Prop :=
  read_inode d' ino = read_inode d ino /\ forall i, file_byte d' ino i = file_byte d ino i.

(** A disk that kept an inode's entry and all its blocks kept the file. *)
Lemma same_file_intro d d' ino :
  read_inode d' ino = read_inode d ino ->
  (forall k b, pointers d ino !! k = Some b -> b <> 0 -> d' b = d b) -> same_file d d' ino.
Proof.
  intros Hr Hb. split; [done|]. intros i. unfold file_byte, file_size, pointers in *. rewrite Hr.
  destruct (i <? _)%nat; [|done]. apply byte_at_ext; [done|]. intros b Hp Hb0. by eapply Hb.
Qed.

Section commit.
Context (d d1 d' : disk) (ino : Z) (info info1 : InodeInfo) (off w : nat) (data : bytes).
Context (Hfs : fs_ok d) (Hlive : live d ino) (Hri : read_inode d ino = Some info).
Context (Hw : writing d info off data d1 info1 w) (Hoff : (off <= Z.to_nat (size info))%nat).
Let top := Nat.max (off + w) (Z.to_nat (size info)).
Let nb := ((top + BLOCK_SIZE - 1) / BLOCK_SIZE)%nat.
Let ptrs' := take nb (direct_blocks info1) ++ replicate (12 - length (take nb (direct_blocks info1))) 0.
Context (Hri' : read_inode d' ino = Some (mkInode (mode info1) (Z.of_nat top) (links info1)
  (Z.of_nat (length (take nb (direct_blocks info1)))) ptrs')).
Context (Hother : forall j, 1 <= j <= NUM_INODES -> j <> ino -> read_inode d' j = read_inode d1 j).
Context (Hd' : disk_ok d') (Hrest : forall n, (n < 5 \/ 8 < n) -> d' n = d1 n).

Lemma commit_ptr k b : ptrs' !! k = Some b -> b <> 0 -> direct_blocks info1 !! k = Some b /\ (k < nb)%nat.
Proof using All.
  intros Hk Hb. assert (k < 12)%nat as Hk12.
  { apply lookup_lt_Some in Hk. unfold ptrs' in Hk. rewrite length_app, length_replicate, length_take in Hk.
    rewrite (io_len _ (wi_info _ _ _ _ _ _ _ Hw)) in Hk. lia. }
  unfold ptrs' in Hk. rewrite pad_lookup in Hk by (done || apply Hw).
  destruct (Nat.ltb_spec k nb); [done|]. congruence.
Qed.

Lemma commit_same_table j : 1 <= j <= NUM_INODES -> read_inode d1 j = read_inode d j.
Proof using All.
  intros Hj. destruct (table_block j Hj) as [Ht Hr]. unfold read_inode, ext2_read_block.
  rewrite (wi_meta _ _ _ _ _ _ _ Hw); [done|lia].
Qed.

Lemma commit_live j : live d' j <-> live d j.
Proof using All.
  unfold live, INODE_BITMAP_BLOCK. rewrite Hrest by lia. rewrite (wi_meta _ _ _ _ _ _ _ Hw); [done|lia].
Qed.

Lemma commit_used b : 1 <= b -> used_block d b = true -> used_block d' b = true.
Proof using All.
  intros Hb Hu. unfold used_block, BLOCK_BITMAP_BLOCK. rewrite Hrest by lia. by apply (wi_used _ _ _ _ _ _ _ Hw).
Qed.

Lemma commit_pointers : pointers d' ino = ptrs' /\ file_size d' ino = top.
Proof using All. destruct (read_inode_pointers _ _ _ Hri') as [-> ->]. cbn. by rewrite Nat2Z.id. Qed.

Lemma commit_pointers_ne j : 1 <= j <= NUM_INODES -> j <> ino -> pointers d' j = pointers d j.
Proof using All. intros Hj Hne. unfold pointers. by rewrite Hother, commit_same_table. Qed.

(** A pointer of the written file is an old one of its own, or was free. *)
Lemma commit_origin k b : ptrs' !! k = Some b -> b <> 0 ->
  (pointers d ino !! k = Some b) \/ (11 <= b <= 64 /\ used_block d b = false /\ used_block d' b = true).
Proof using All.
  intros Hk Hb. destruct (commit_ptr k b Hk Hb) as [Hk1 _]. rewrite (proj1 (read_inode_pointers _ _ _ Hri)).
  destruct (wi_new _ _ _ _ _ _ _ Hw _ _ Hk1 Hb) as [?|(? & ? & Hu)]; [by left|right]. split_and!; [lia|lia|done|].
  unfold used_block, BLOCK_BITMAP_BLOCK in *. by rewrite Hrest by lia.
Qed.

Lemma commit_fs_ok : fs_ok d'.
Proof using All.
  constructor; [done| |].
  - intros j k b Hj Hp Hb. apply commit_live in Hj. destruct (decide (j = ino)) as [->|Hne].
    + rewrite (proj1 commit_pointers) in Hp. destruct (commit_origin _ _ Hp Hb) as [Ho|(? & ? & ?)]; [|split; [lia|done]].
      destruct (fs_used d Hfs _ _ _ Hlive Ho Hb) as [? ?]. split; [lia|]. apply commit_used; [lia|done].
    + rewrite commit_pointers_ne in Hp by (done || apply Hj). destruct (fs_used d Hfs _ _ _ Hj Hp Hb) as [? ?].
      split; [lia|]. apply commit_used; [lia|done].
  - assert (forall j k l b, live d j -> j <> ino -> pointers d j !! k = Some b -> ptrs' !! l = Some b -> b <> 0 -> False) as Hx.
    { intros j k l b Hj Hne Hp Hq Hb. destruct (commit_origin _ _ Hq Hb) as [Ho|(? & Hf & _)].
      - apply Hne. by apply (fs_owner d Hfs j ino k l b).
      - destruct (fs_used d Hfs _ _ _ Hj Hp Hb) as [_ Hu]. congruence. }
    intros i j k l b Hi%commit_live Hj%commit_live Hp Hq Hb.
    destruct (decide (i = ino)) as [->|Hi'], (decide (j = ino)) as [->|Hj'].
    + rewrite (proj1 commit_pointers) in Hp, Hq. split; [done|].
      destruct (commit_ptr _ _ Hp Hb) as [Hp1 _], (commit_ptr _ _ Hq Hb) as [Hq1 _]. by apply (wi_nodup _ _ _ _ _ _ _ Hw _ _ _ Hp1 Hq1).
    + exfalso. rewrite (proj1 commit_pointers) in Hp. rewrite commit_pointers_ne in Hq by (done || apply Hj). by eapply (Hx j).
    + exfalso. rewrite (proj1 commit_pointers) in Hq. rewrite commit_pointers_ne in Hp by (done || apply Hi). by eapply (Hx i).
    + rewrite commit_pointers_ne in Hp, Hq by (done || apply Hi || apply Hj). by apply (fs_owner d Hfs i j k l b).
Qed.

Lemma commit_others j : live d j -> j <> ino -> same_file d d' j.
Proof using All.
  intros Hj Hne. apply same_file_intro; [by rewrite Hother, commit_same_table by (done || apply Hj)|].
  intros k b Hp Hb. destruct (fs_used d Hfs _ _ _ Hj Hp Hb) as [Hr Hu]. rewrite Hrest by lia.
  apply (wi_other _ _ _ _ _ _ _ Hw); [done|]. intros [l Hl]%list_elem_of_lookup.
  destruct (wi_new _ _ _ _ _ _ _ Hw _ _ Hl Hb) as [Ho|(? & Hf & _)]; [|congruence].
  rewrite <- (proj1 (read_inode_pointers _ _ _ Hri)) in Ho. apply Hne. by apply (fs_owner d Hfs j ino k l b).
Qed.

(** Inside the new size the pointers are those of the loop. *)
Lemma commit_in i : (i < top)%nat -> ptrs' !! (i / BLOCK_SIZE)%nat = direct_blocks info1 !! (i / BLOCK_SIZE)%nat.
Proof using All.
  intros Hi. assert ((i / BLOCK_SIZE) * BLOCK_SIZE < top)%nat as Hlt by (pose proof (Nat.div_mod_eq i BLOCK_SIZE); lia).
  assert (dense (direct_blocks info1) top) as Hde by (unfold top; rewrite Nat.max_comm; apply Hw).
  destruct (Hde _ Hlt) as (b & Hb & _). pose proof (lookup_lt_Some _ _ _ Hb) as Hl. rewrite (io_len _ (wi_info _ _ _ _ _ _ _ Hw)) in Hl.
  unfold ptrs'. rewrite pad_lookup by (done || apply Hw). rewrite (proj2 (Nat.ltb_lt _ _)); [done|].
  unfold nb. by apply blocks_needed.
Qed.

Lemma commit_bytes i :
  file_byte d' ino i = if decide (off <= i < off + w)%nat then data !! (i - off)%nat else file_byte d ino i.
Proof using All.
  unfold file_byte at 1. destruct commit_pointers as [-> ->]. destruct (Nat.ltb_spec i top) as [Hi|Hi].
  - trans (byte_at d1 (direct_blocks info1) i).
    + apply byte_at_ext; [by apply commit_in|]. intros b Hb Hb0. rewrite Hrest; [done|].
      destruct (wi_new _ _ _ _ _ _ _ Hw _ _ Hb Hb0) as [Ho|?]; [|lia].
      rewrite <- (proj1 (read_inode_pointers _ _ _ Hri)) in Ho. pose proof (fs_used d Hfs _ _ _ Hlive Ho Hb0). lia.
    + rewrite (wi_bytes _ _ _ _ _ _ _ Hw i) by (unfold top in Hi; lia). case_decide as Hin; [done|].
      unfold file_byte. destruct (read_inode_pointers _ _ _ Hri) as [-> ->].
      rewrite (proj2 (Nat.ltb_lt _ _)); [done|]. unfold top in Hi. lia.
  - rewrite decide_False by (unfold top in Hi; lia). unfold file_byte. destruct (read_inode_pointers _ _ _ Hri) as [-> ->].
    rewrite (proj2 (Nat.ltb_ge _ _)); [done|]. unfold top in Hi. lia.
Qed.

Lemma commit_dense : dense (pointers d' ino) (file_size d' ino).
Proof using All.
  destruct commit_pointers as [-> ->]. intros k Hk. assert (dense (direct_blocks info1) top) as Hde by (unfold top; rewrite Nat.max_comm; apply Hw).
  destruct (Hde k Hk) as (b & Hb & Hb0). exists b. split; [|done].
  rewrite <- Hb, <- (Nat.div_mul k BLOCK_SIZE) by done. by apply commit_in.
Qed.
End commit.

Lemma io_ptrs_take info n : info_ok info -> Forall (in_width 32) (take n (direct_blocks info)).
Proof. intros Hi. apply Forall_take, Hi. Qed.

Lemma bind_Some {A B} (f : A -> option B) (x : A) : (Some x ≫= f) = f x.
Proof. done. Qed.

(** [write_data] after its loop. *)
Lemma write_data_eq junk d ino info off data d1 info1 w n :
  read_inode d ino = Some info -> write_loop junk WRITE_FUEL d info off data 0 = Some (d1, info1, w) ->
  n = Nat.max (off + w) (Z.to_nat (size info1)) -> in_width 32 (Z.of_nat n) ->
  write_data junk d ino off data =
    blocks ← rslice (direct_blocks info1) 0 ((n + BLOCK_SIZE - 1) / BLOCK_SIZE);
    tbl ← write_inode_entry_full (d (inode_block_and_offset ino).1) ino (mode info1) (Z.of_nat n) (links info1) blocks;
    Some (ext2_write_block d1 (inode_block_and_offset ino).1 tbl, w).
Proof.
  intros Hri Hloop -> Hn. unfold write_data, ext2_read_block. cbv zeta. unfold read_inode, ext2_read_block in Hri. rewrite Hri.
  rewrite bind_Some, Hloop, bind_Some, (wrap_small 32 _ Hn), Nat2Z.id. reflexivity.
Qed.

Lemma write_fuel_ok x : (1 <= WRITE_FUEL)%nat /\ (13 <= WRITE_FUEL + x)%nat.
Proof. unfold WRITE_FUEL. lia. Qed.

(** The loop and the inode update, run on a consistent disk. *)
Lemma write_data_run junk d ino info off data :
  block_ok junk -> fs_ok d -> live d ino -> read_inode d ino = Some info ->
  dense (direct_blocks info) (Z.to_nat (size info)) -> (off <= Z.to_nat (size info))%nat -> all_bytes data ->
  exists d1 info1 w tbl, writing d info off data d1 info1 w /\ stopped off data d1 w /\ block_ok tbl /\
    write_data junk d ino off data = Some (ext2_write_block d1 (inode_block_and_offset ino).1 tbl, w) /\
    let d' := ext2_write_block d1 (inode_block_and_offset ino).1 tbl in
    let top := Nat.max (off + w) (Z.to_nat (size info)) in
    let blocks := take ((top + BLOCK_SIZE - 1) / BLOCK_SIZE) (direct_blocks info1) in
    read_inode d' ino = Some (mkInode (mode info1) (Z.of_nat top) (links info1) (Z.of_nat (length blocks))
      (blocks ++ replicate (12 - length blocks) 0)) /\
    (forall j, 1 <= j <= NUM_INODES -> j <> ino -> read_inode d' j = read_inode d1 j).
Proof.
  intros Hj Hfs [Hino Hbit] Hri Hde Hoff Hdata. pose proof (fs_blocks d Hfs) as Hd. assert (live d ino) as Hlive by done.
  destruct (disk_inode d ino Hd Hino) as (i' & He & Hio). rewrite Hri in He. injection He as <-.
  destruct (read_inode_pointers _ _ _ Hri) as [Hp _].
  assert (forall k b, direct_blocks info !! k = Some b -> b <> 0 -> 9 <= b <= 64 /\ used_block d b = true) as Hu
    by (intros k b; rewrite <- Hp; by apply (fs_used d Hfs)).
  assert (forall k l b, direct_blocks info !! k = Some b -> direct_blocks info !! l = Some b -> b <> 0 -> k = l) as Hn
    by (intros k l b Hk Hk' Hb; rewrite <- Hp in Hk, Hk'; by apply (fs_owner d Hfs ino ino k l b)).
  destruct (write_loop_spec junk Hj d info off data Hdata Hoff Hio Hd Hde Hu Hn WRITE_FUEL d info 0)
    as (d1 & info1 & w & Hloop & Hw & Hstop); [by apply (writing_start junk)|apply (write_fuel_ok 0)|right; apply write_fuel_ok|].
  destruct (wi_fields _ _ _ _ _ _ _ Hw) as (_ & Hsi & _). pose proof (wi_info _ _ _ _ _ _ _ Hw) as Hio1.
  set (top := Nat.max (off + w) (Z.to_nat (size info))).
  assert (top <= 12 * BLOCK_SIZE)%nat as Htop.
  { eapply dense_bound; [exact Hio1|]. unfold top. rewrite Nat.max_comm. apply Hw. }
  assert ((top + BLOCK_SIZE - 1) / BLOCK_SIZE <= 12)%nat as Hnb.
  { apply Nat.nlt_ge. intros Hlt%blocks_needed. lia. }
  destruct (write_inode_total d1 ino (mode info1) (Z.of_nat top) (links info1) (take ((top + BLOCK_SIZE - 1) / BLOCK_SIZE) (direct_blocks info1)))
    as (tbl & Hwi & Htok & Hrd & Hot); [apply Hw|done|apply Hio1|red; unfold BLOCK_SIZE in Htop; lia|apply Hio1|rewrite length_take; lia|by apply io_ptrs_take|].
  exists d1, info1, w, tbl. split_and!; [done|done|done| |].
  - rewrite (write_data_eq junk d ino info off data d1 info1 w top) by
      (done || by (unfold top; rewrite Hsi) || (red; unfold BLOCK_SIZE in Htop; lia)).
    unfold rslice. rewrite (io_len _ Hio1), decide_True by lia. cbn [mbind option_bind]. rewrite drop_0.
    destruct (table_block ino Hino). rewrite <- (wi_meta _ _ _ _ _ _ _ Hw (inode_block_and_offset ino).1) by lia. by rewrite Hwi.
  - split; [apply Hrd, write_block_eq|]. intros j Hj' Hne. apply Hot; [apply write_block_eq| |done|done].
    intros n _ Hne'. by apply write_block_ne.
Qed.

(** A write to a file without holes, at or before its end. *)
Lemma write_data_exact junk d ino off data :
  block_ok junk -> fs_ok d -> live d ino -> dense (pointers d ino) (file_size d ino) ->
  (off <= file_size d ino)%nat -> all_bytes data ->
  exists d' w, write_data junk d ino off data = Some (d', w) /\ fs_ok d' /\ (forall j, live d' j <-> live d j) /\
    (w <= length data)%nat /\ stopped off data d' w /\
    file_size d' ino = Nat.max (off + w) (file_size d ino) /\ dense (pointers d' ino) (file_size d' ino) /\
    (forall i, file_byte d' ino i =
       if decide (off <= i < off + w)%nat then data !! (i - off)%nat else file_byte d ino i) /\
    (forall j, live d j -> j <> ino -> same_file d d' j).
Proof.
  intros Hj Hfs Hlive Hde Hoff Hdata. pose proof Hlive as [Hino _].
  destruct (disk_inode d ino (fs_blocks d Hfs) Hino) as (info & Hri & _). destruct (read_inode_pointers _ _ _ Hri) as [Hp Hs].
  rewrite Hp, Hs in *.
  destruct (write_data_run junk d ino info off data) as (d1 & info1 & w & tbl & Hw & Hstop & Htok & Hrun & Hrd & Hother); [done..|].
  set (d' := ext2_write_block d1 (inode_block_and_offset ino).1 tbl) in *. destruct (table_block ino Hino) as [Htb Htr].
  assert (disk_ok d') as Hd' by (apply write_block_ok; [apply Hw|done]).
  assert (forall n, n < 5 \/ 8 < n -> d' n = d1 n) as Hrest by (intros n Hn; apply write_block_ne; lia).
  exists d', w. split; [done|]. split; [by apply (commit_fs_ok d d1 d' ino info info1 off w data)|]. split; [intros j; by apply (commit_live d d1 d' ino info info1 off w data)|].
  split; [apply Hw|]. split.
  { destruct Hstop as [|[|Hfull]]; [by left|right; by left|right; right]. intros b Hb. unfold used_block, BLOCK_BITMAP_BLOCK in *.
    rewrite Hrest by lia. by apply Hfull. }
  split; [by apply (commit_pointers d d1 d' ino info info1 off w data)|]. split; [by apply (commit_dense d d1 d' ino info info1 off w data)|].
  split; [intros i; by apply (commit_bytes d d1 d' ino info info1 off w data)|]. intros j Hlj Hne. by apply (commit_others d d1 d' ino info info1 off w data).
Qed.

(** ** Reading *)

Lemma read_steps d info n junk4 m :
  disk_ok d -> (n <= length junk4)%nat -> dense (direct_blocks info) n -> (m <= (n + BLOCK_SIZE - 1) / BLOCK_SIZE)%nat ->
  exists out, foldM (read_step d info n) junk4 (seq 0 m) = Some out /\ length out = length junk4 /\
    forall i, (i < n)%nat -> (i / BLOCK_SIZE < m)%nat -> out !! i = byte_at d (direct_blocks info) i.
Proof.
  intros Hd Hn Hde. induction m as [|m IH]; intros Hm; [exists junk4; split_and!; [done|done|lia]|].
  destruct IH as (out & Hf & Hl & Ho); [lia|]. rewrite seq_S, foldM_app, Hf, bind_Some. cbn [foldM Nat.add].
  assert (m * BLOCK_SIZE < n)%nat as Hmn by (apply blocks_needed; lia).
  destruct (Hde m Hmn) as (b & Hb & Hb0). unfold read_step. rewrite Hb, bind_Some, (proj2 (Z.eqb_neq b 0)) by done. cbn [negb].
  destruct (Hd b) as [Hlb _]. unfold ext2_read_block.
  set (k := Nat.min BLOCK_SIZE (n - m * BLOCK_SIZE)).
  assert (rslice (d b) 0 k = Some (take k (d b))) as ->.
  { unfold rslice. rewrite decide_True by (unfold k; lia). by rewrite drop_0. }
  rewrite bind_Some. assert (length (take k (d b)) = k) as Hk by (rewrite length_take; unfold k; lia).
  destruct (wslice_is_Some out (m * BLOCK_SIZE) (take k (d b))) as [out' Hw]; [rewrite Hk; unfold k; lia|].
  rewrite Hw. cbn [mbind option_bind]. exists out'. split; [done|]. split; [by rewrite (length_wslice _ _ _ _ Hw)|].
  intros i Hi Him. rewrite (lookup_wslice _ _ _ _ _ Hw), Hk. destruct (decide ((i / BLOCK_SIZE)%nat = m)) as [He|Hne].
  - pose proof (proj2 (byte_split m i) He). rewrite decide_True by (unfold k; lia). unfold byte_at. rewrite He, Hb, bind_Some.
    rewrite (proj2 (Z.eqb_neq b 0)) by done. rewrite byte_mod, He. rewrite lookup_take_lt by (unfold k; lia). done.
  - rewrite decide_False; [apply Ho; lia|]. intros Hin. apply Hne, byte_split. unfold k in Hin. lia.
Qed.

(** The bytes of the file, up to 4096 of them. *)
Lemma serve_read_exact junk4 d ino :
  disk_ok d -> 1 <= ino <= NUM_INODES -> length junk4 = 4096%nat ->
  dense (pointers d ino) (Nat.min (file_size d ino) 4096) ->
  exists out, serve_read junk4 d ino = Some (mkReply (Some out) (Z.of_nat (Nat.min (file_size d ino) 4096))) /\
    length out = 4096%nat /\
    forall i, (i < Nat.min (file_size d ino) 4096)%nat -> out !! i = file_byte d ino i.
Proof.
  intros Hd Hi Hj Hde. destruct (disk_inode d ino Hd Hi) as (info & Hri & Hio). unfold file_byte.
  destruct (read_inode_pointers _ _ _ Hri) as [Hp Hs]. rewrite Hp, Hs in *. set (n := Nat.min (Z.to_nat (size info)) 4096) in *.
  assert (Nat.min ((n + BLOCK_SIZE - 1) / BLOCK_SIZE) 12 = (n + BLOCK_SIZE - 1) / BLOCK_SIZE)%nat as Hm.
  { apply Nat.min_l, Nat.nlt_ge. intros Hlt%blocks_needed. unfold BLOCK_SIZE, n in Hlt. lia. }
  destruct (read_steps d info n junk4 ((n + BLOCK_SIZE - 1) / BLOCK_SIZE)) as (out & Hf & Hl & Ho); [done|lia|done|lia|].
  exists out. split; [|split; [by rewrite Hl|]].
  - unfold serve_read. rewrite Hri, bind_Some. cbv zeta. fold n. by rewrite Hm, Hf.
  - intros i Hin. rewrite Ho; [|done|apply blocks_needed; pose proof (Nat.div_mod_eq i BLOCK_SIZE); lia].
    rewrite (proj2 (Nat.ltb_lt _ _)); [done|]. unfold n in Hin. lia.
Qed.

(** ** Request words *)

(** [(id << 32) | payload << 24 | inode], as the kernel sends it. *)
Definition request_word (id payload inode : Z) : Z := Z.lor (Z.lor (Z.shiftl id 32) (Z.shiftl payload 24)) inode.

Lemma request_word_add id p ino : 0 <= id -> 0 <= p < 256 -> 0 <= ino < 2 ^ 24 ->
  request_word id p ino = id * 2 ^ 32 + p * 2 ^ 24 + ino.
Proof.
  intros Hid Hp Hi. unfold request_word.
  replace (Z.lor (Z.shiftl id 32) (Z.shiftl p 24)) with (Z.shiftl (id * 256 + p) 24).
  - rewrite lor_disjoint_add by lia. lia.
  - rewrite <- lor_disjoint_add with (k := 8) by lia. rewrite Z.shiftl_lor, Z.shiftl_shiftl by lia. done.
Qed.

Lemma decode_word id p ino : 0 <= id -> 0 <= p < 256 -> 0 <= ino < 2 ^ 24 ->
  decode_request (request_word id p ino) =
    mkDecoded id (128 <=? p) (p mod 128) (if (p mod 128 =? 0) && (ino =? 0) then FILE_INODE else ino).
Proof.
  intros Hid Hp Hi. unfold decode_request. rewrite request_word_add by lia.
  rewrite !Z.shiftr_div_pow2 by lia.
  change 0x7F with (Z.ones 7). change 0x00FFFFFF with (Z.ones 24). change (Z.land (_ / 2 ^ 31) 1) with (Z.land ((id * 2 ^ 32 + p * 2 ^ 24 + ino) / 2 ^ 31) (Z.ones 1)).
  rewrite !Z.land_ones by lia. unfold wrap.
  assert (((id * 2 ^ 32 + p * 2 ^ 24 + ino) mod 2 ^ 32) mod 2 ^ 24 = ino) as ->.
  { assert ((id * 2 ^ 32 + p * 2 ^ 24 + ino) mod 2 ^ 32 = p * 2 ^ 24 + ino) as -> by (symmetry; apply (Z.mod_unique _ _ id); lia).
    symmetry. apply (Z.mod_unique _ _ p); lia. }
  assert ((id * 2 ^ 32 + p * 2 ^ 24 + ino) / 2 ^ 32 = id) as -> by (symmetry; apply (Z.div_unique _ _ _ (p * 2 ^ 24 + ino)); lia).
  assert ((id * 2 ^ 32 + p * 2 ^ 24 + ino) / 2 ^ 24 = id * 256 + p) as -> by (symmetry; apply (Z.div_unique _ _ _ ino); lia).
  assert ((id * 256 + p) mod 2 ^ 7 = p mod 128) as ->.
  { replace (id * 256 + p) with (p + (id * 2) * 128) by lia. by rewrite Z_mod_plus_full. }
  assert (((id * 2 ^ 32 + p * 2 ^ 24 + ino) / 2 ^ 31) mod 2 ^ 1 = p / 128) as ->.
  { pose proof (Z.div_mod p 128). pose proof (Z.mod_pos_bound p 128).
    assert ((id * 2 ^ 32 + p * 2 ^ 24 + ino) / 2 ^ 31 = id * 2 + p / 128) as ->.
    { symmetry. apply (Z.div_unique _ _ _ ((p mod 128) * 2 ^ 24 + ino)); lia. }
    symmetry. apply (Z.mod_unique _ _ id); lia. }
  f_equal.
  pose proof (Z.div_mod p 128). pose proof (Z.mod_pos_bound p 128). destruct (Z.leb_spec 128 p), (Z.eqb_spec (p / 128) 0); cbn; lia || done.
Qed.

(** The word [SYS_FILE_SERVICE_GET_WRITE_DATA] returns: the offset and the length. *)
Definition data_word (off len : Z) : Z := Z.lor (Z.shiftl off 32) len.

Lemma data_word_fields off len : 0 <= off < 2 ^ 32 -> 0 <= len <= 4096 ->
  data_word off len <> U64_MAX /\ Z.shiftr (data_word off len) 32 = off /\ u32 (data_word off len) = len.
Proof.
  intros Ho Hl. unfold data_word, U64_MAX. rewrite lor_disjoint_add by lia. rewrite Z.shiftr_div_pow2 by lia. split_and!.
  - lia.
  - symmetry. apply (Z.div_unique _ _ _ len); lia.
  - symmetry. apply (Z.mod_unique _ _ off); lia.
Qed.

Lemma request_word_max id p ino : 0 <= id < 2 ^ 32 -> 0 <= p < 256 -> 0 <= ino <= NUM_INODES -> request_word id p ino <> U64_MAX.
Proof. unfold NUM_INODES. intros Hid Hp Hi. rewrite request_word_add by lia. unfold U64_MAX. lia. Qed.

(** Payload 128 is the write bit, payload 0 a read. *)
Lemma serve_write_word junk junk4 d id ino ret buf : 0 <= id < 2 ^ 32 -> 1 <= ino <= NUM_INODES ->
  serve junk junk4 d (request_word id 128 ino) ret buf = serve_write junk d ino ret buf.
Proof.
  intros Hid Hi. unfold serve. rewrite (proj2 (Z.eqb_neq _ _)) by (apply request_word_max; lia).
  rewrite decode_word by (unfold NUM_INODES in Hi; lia). rewrite (proj2 (Z.eqb_neq ino 0)) by lia. done.
Qed.

Lemma serve_read_word junk junk4 d id ino ret buf : 0 <= id < 2 ^ 32 -> 1 <= ino <= NUM_INODES ->
  serve junk junk4 d (request_word id 0 ino) ret buf = rep ← serve_read junk4 d ino; Some (d, Some rep).
Proof.
  intros Hid Hi. unfold serve. rewrite (proj2 (Z.eqb_neq _ _)) by (apply request_word_max; lia).
  rewrite decode_word by (unfold NUM_INODES in Hi; lia). rewrite (proj2 (Z.eqb_neq ino 0)) by lia. done.
Qed.

Section write_request.
Context (junk junk4 : bytes) (d : disk) (id ino : Z) (off : nat) (data rest : bytes).
Context (Hjunk : block_ok junk) (Hfs : fs_ok d) (Hlive : live d ino) (Hid : 0 <= id < 2 ^ 32).
Context (Hdense : dense (pointers d ino) (file_size d ino)) (Hoff : (off <= file_size d ino)%nat).
Context (Hdata : all_bytes data) (Hlen : (0 < length data <= 4096)%nat).

Let ret := data_word (Z.of_nat off) (Z.of_nat (length data)).

(** The whole request, in terms of [write_data]. *)
Lemma write_request_run d' w : write_data junk d ino off data = Some (d', w) -> (w <= length data)%nat ->
  serve junk junk4 d (request_word id 128 ino) ret (data ++ rest) = Some (d', Some (mkReply None (Z.of_nat w))).
Proof using All.
  intros Hw Hwl. rewrite serve_write_word by (done || apply Hlive). unfold serve_write, ret.
  assert (file_size d ino <= 12 * BLOCK_SIZE)%nat as Hsz.
  { destruct (disk_inode d ino (fs_blocks d Hfs) (proj1 Hlive)) as (info & Hri & Hio).
    destruct (read_inode_pointers _ _ _ Hri) as [Hp _]. rewrite Hp in Hdense. by eapply dense_bound. }
  destruct (data_word_fields (Z.of_nat off) (Z.of_nat (length data))) as (Hne & Hsh & Hlo); [unfold BLOCK_SIZE in Hsz; lia|lia|].
  rewrite Hsh, Hlo, (proj2 (Z.eqb_neq _ _)), (proj2 (Z.ltb_lt _ _)), !Nat2Z.id by (done || lia). cbn [negb andb].
  assert (rslice (data ++ rest) 0 (length data) = Some data) as ->.
  { unfold rslice. rewrite length_app, decide_True by lia. by rewrite drop_0, take_app_length. }
  rewrite bind_Some, Hw. cbn [mbind option_bind]. by rewrite wrap_small by (red; lia).
Qed.
End write_request.

(** Writing to a file.  On a consistent disk, a request to write at or before the
    end of a file without holes always completes.  It writes the whole data unless
    the file reached its twelve blocks or no block of the disk is free, and replies
    with the number of bytes written; the file then holds the data at the offset and
    its old bytes elsewhere, it has no holes and the size it should have, every other
    file is untouched, and the disk is consistent: no block belongs to two files and
    every block in use is marked so. *)
Theorem write_request_exact junk junk4 d id ino off data rest :
  block_ok junk -> fs_ok d -> live d ino -> 0 <= id < 2 ^ 32 -> dense (pointers d ino) (file_size d ino) ->
  (off <= file_size d ino)%nat -> all_bytes data -> (0 < length data <= 4096)%nat ->
  exists d' w,
    serve junk junk4 d (request_word id 128 ino) (data_word (Z.of_nat off) (Z.of_nat (length data))) (data ++ rest) =
      Some (d', Some (mkReply None (Z.of_nat w))) /\
    fs_ok d' /\ (forall j, live d' j <-> live d j) /\ (w <= length data)%nat /\ stopped off data d' w /\
    file_size d' ino = Nat.max (off + w) (file_size d ino) /\ dense (pointers d' ino) (file_size d' ino) /\
    (forall i, file_byte d' ino i =
       if decide (off <= i < off + w)%nat then data !! (i - off)%nat else file_byte d ino i) /\
    (forall j, live d j -> j <> ino -> same_file d d' j).
Proof.
  intros Hj Hfs Hl Hid Hde Hoff Hdata Hlen.
  destruct (write_data_exact junk d ino off data) as (d' & w & Hw & Hfs' & Hlv & Hwl & Hrest); [done..|].
  exists d', w. split; [by apply write_request_run|]. done.
Qed.

(** C6. A file reads back as it was written. On a consistent disk, for a file without holes (every block up to its
    size is allocated) and a write that starts no later than its end: after a write request of 1 to 4096 bytes that
    was carried out in full, a read request for the file replies with its first 4096 bytes (or all of them, if
    fewer), those at the offset written are the data and the others are as before; reading changes nothing on the
    disk, and the file is still without holes. (A write past the end leaves a hole.) *)
Theorem write_then_read junk junk4 d id id' ino off data rest ret buf d' :
  block_ok junk -> length junk4 = 4096%nat -> fs_ok d -> live d ino -> 0 <= id < 2 ^ 32 -> 0 <= id' < 2 ^ 32 ->
  dense (pointers d ino) (file_size d ino) -> (off <= file_size d ino)%nat -> all_bytes data -> (0 < length data <= 4096)%nat ->
  serve junk junk4 d (request_word id 128 ino) (data_word (Z.of_nat off) (Z.of_nat (length data))) (data ++ rest) =
    Some (d', Some (mkReply None (Z.of_nat (length data)))) ->
  exists out n,
    serve junk junk4 d' (request_word id' 0 ino) ret buf = Some (d', Some (mkReply (Some out) (Z.of_nat n))) /\
    n = Nat.min (Nat.max (off + length data) (file_size d ino)) 4096 /\
    (forall i, (i < n)%nat -> out !! i =
       if decide (off <= i < off + length data)%nat then data !! (i - off)%nat else file_byte d ino i) /\
    ((off + length data <= 4096)%nat -> take (length data) (drop off out) = data) /\
    dense (pointers d' ino) (file_size d' ino).
Proof.
  intros Hj Hj4 Hfs Hl Hid Hid' Hde Hoff Hdata Hlen Hs.
  destruct (write_data_exact junk d ino off data) as (d1 & w & Hw & Hfs' & Hlv & Hwl & _ & Hsz & Hde' & Hby & _); [done..|].
  rewrite (write_request_run junk junk4 d id ino off data rest Hj Hfs Hl Hid Hde Hoff Hdata Hlen d1 w Hw Hwl) in Hs.
  injection Hs as -> Hwe. assert (w = length data) as -> by lia.
  destruct (serve_read_exact junk4 d' ino) as (out & Hr & Hlo & Ho); [apply Hfs'|apply Hl|done| |].
  { intros k Hk. apply Hde'. lia. }
  rewrite Hsz in *. eexists out, _. split; [|split; [reflexivity|split; [|split; [|exact Hde']]]].
  - rewrite serve_read_word by (done || apply Hl). by rewrite Hr.
  - intros i Hi. rewrite Ho by done. apply Hby.
  - intros Hin. apply list_eq. intros i. destruct (decide (i < length data)%nat) as [Hi|Hi].
    + rewrite lookup_take_lt, lookup_drop by done. rewrite Ho, Hby by lia. rewrite decide_True by lia. f_equal. lia.
    + rewrite lookup_take_ge by lia. symmetry. apply lookup_ge_None. lia.
Qed.

Lemma write_loop_past junk fuel d info off data w :
  (1 <= fuel)%nat -> (12 * BLOCK_SIZE <= off + w)%nat -> write_loop junk fuel d info off data w = Some (d, info, w).
Proof.
  intros Hf Ho. destruct fuel as [|fuel]; [lia|]. cbn [write_loop]. destruct (w <? length data)%nat; [|done].
  rewrite (proj2 (Nat.leb_le 12 _)); [done|]. apply Nat.div_le_lower_bound; [done|lia].
Qed.

(** A write past twelve blocks kills the driver.  Whatever is on the disk, a
    write request whose offset lies beyond 12 KiB makes the driver panic: the loop
    writes nothing, the size becomes the offset, and the pointers for that size are
    sliced out of the twelve there are. *)
Theorem write_far_panics junk junk4 d id ino off data rest :
  disk_ok d -> 1 <= ino <= NUM_INODES -> 0 <= id < 2 ^ 32 -> (12 * BLOCK_SIZE < off)%nat -> Z.of_nat off < 2 ^ 32 ->
  (0 < length data <= 4096)%nat ->
  serve junk junk4 d (request_word id 128 ino) (data_word (Z.of_nat off) (Z.of_nat (length data))) (data ++ rest) = None.
Proof.
  intros Hd Hi Hid Ho Ho32 Hlen. rewrite serve_write_word by done. unfold serve_write.
  destruct (data_word_fields (Z.of_nat off) (Z.of_nat (length data))) as (Hne & Hsh & Hlo); [lia|lia|].
  rewrite Hsh, Hlo, (proj2 (Z.eqb_neq _ _)), (proj2 (Z.ltb_lt _ _)), !Nat2Z.id by (done || lia). cbn [negb andb].
  assert (rslice (data ++ rest) 0 (length data) = Some data) as ->.
  { unfold rslice. rewrite length_app, decide_True by lia. by rewrite drop_0, take_app_length. }
  rewrite bind_Some. destruct (disk_inode d ino Hd Hi) as (info & Hri & Hio). destruct (io_size _ Hio) as [Hs0 Hs1].
  assert (write_loop junk WRITE_FUEL d info off data 0 = Some (d, info, 0%nat)) as Hloop.
  { apply write_loop_past; [apply (write_fuel_ok 0)|lia]. }
  rewrite (write_data_eq junk d ino info off data d info 0 _ Hri Hloop eq_refl) by (red; lia).
  unfold rslice. rewrite (io_len _ Hio), decide_False; [done|]. rewrite Nat.add_0_l, Nat.add_0_r.
  assert (12 < (Nat.max off (Z.to_nat (size info)) + BLOCK_SIZE - 1) / BLOCK_SIZE)%nat; [|lia].
  apply blocks_needed. lia.
Qed.
