(* ===== verification/FileNames.v ===== *)
(** * Names on the disk

    Formatting, and the requests of [FileServer] that create and remove names: what
    they do to the directory, to the allocation of blocks and inodes, and to every
    other file. *)

From S2P Require Import Prelude Bits Ext2 FileServer FileServerInv.

(** ** Allocating an inode *)

Definition used_inode (d : disk) (i : Z) : bool := bit (d INODE_BITMAP_BLOCK) (i - 1).

Lemma alloc_inode_disk d : disk_ok d ->
  exists bm r, alloc_inode (d INODE_BITMAP_BLOCK) NUM_INODES = (bm, r) /\
    match r with
    | None => forall i, 12 <= i <= 32 -> used_inode d i = true
    | Some i => 12 <= i <= 32 /\ used_inode d i = false /\ block_ok bm /\
        forall j, 1 <= j -> bit bm (j - 1) = if j =? i then true else used_inode d j
    end.
Proof.
  intros Hd. destruct (Hd INODE_BITMAP_BLOCK) as [Hl Hb].
  destruct (alloc_id_spec (range (FILE_INODE + 1) (NUM_INODES + 1)) (d INODE_BITMAP_BLOCK) Hb) as (bm & r & He & Hr).
  { apply Forall_forall. intros x Hx%elem_of_range. unfold FILE_INODE in Hx. lia. }
  exists bm, r. split; [exact He|]. unfold used_inode. destruct r as [i|].
  - destruct Hr as (l & rest & Hsp & [_ Hf] & _ & (Hlen & Hby & Hbit)). destruct (range_split _ _ _ _ _ Hsp) as [Hin _].
    unfold FILE_INODE, NUM_INODES in Hin. split_and!; [lia|lia|done|split; [lia|done]|].
    intros j Hj. rewrite Hbit by lia. destruct (Z.eqb_spec (j - 1) (i - 1)), (Z.eqb_spec j i); lia || done.
  - destruct Hr as [_ Hn]. intros i Hi. specialize (Hn i). destruct (bit _ _) eqn:Hbit; [done|]. exfalso. apply Hn.
    + apply elem_of_range. unfold FILE_INODE, NUM_INODES. lia.
    + split; [|done]. rewrite Hl. unfold BLOCK_SIZE. lia.
Qed.

(** ** A new entry in a directory *)

(** [d'] is [d] with a new inode [i], its block [b], and an entry for it in the
    directory block [b0]. *)
Record adds (d d' : disk) (b0 i b ft : Z) (leaf : bytes) (n : nat) (content : bytes) : Prop := {
  ad_disk : disk_ok d';
  ad_i : 12 <= i <= 32;
  ad_b : 11 <= b <= 64 /\ used_block d b = false;
  ad_free : used_inode d i = false;
  ad_live j : 1 <= j -> used_inode d' j = if j =? i then true else used_inode d j;
  ad_used j : 1 <= j -> used_block d' j = if j =? b then true else used_block d j;
  ad_ptrs : pointers d' i = b :: replicate 11 0;
  ad_size : file_size d' i = n;
  ad_new : d' b = content;
  ad_same j : 1 <= j <= NUM_INODES -> j <> i -> pointers d' j = pointers d j /\ file_size d' j = file_size d j;
  ad_rest m : 9 <= m <= 64 -> m <> b -> m <> b0 -> d' m = d m;
  ad_entry : exists l r, entries (d b0) 0 = l ++ r /\ entries (d' b0) 0 = l ++ (i, ft, leaf) :: r }.

(** The bytes of every file but the directory are as before. *)
Definition same_content (d d' : disk) (j : Z) : Prop :=
  pointers d' j = pointers d j /\ file_size d' j = file_size d j /\ forall x, file_byte d' j x = file_byte d j x.

Lemma same_content_intro d d' j :
  pointers d' j = pointers d j -> file_size d' j = file_size d j ->
  (forall k b, pointers d j !! k = Some b -> b <> 0 -> d' b = d b) -> same_content d d' j.
Proof.
  intros Hp Hs Hb. split_and!; [done..|]. intros x. unfold file_byte. rewrite Hp, Hs. destruct (x <? _)%nat; [|done].
  apply byte_at_ext; [done|]. intros b Hk H0. by eapply Hb.
Qed.

Section added.
Context (d d' : disk) (p b0 i b ft : Z) (leaf : bytes) (n : nat) (content : bytes).
Context (Hfs : fs_ok d) (Hp : live d p) (Hb0 : pointers d p !! 0%nat = Some b0) (Hnz : b0 <> 0).
Context (Had : adds d d' b0 i b ft leaf n content).

Lemma added_live j : live d' j <-> live d j \/ j = i.
Proof using All.
  unfold live. pose proof (ad_i _ _ _ _ _ _ _ _ _ Had) as Hi. pose proof (ad_free _ _ _ _ _ _ _ _ _ Had) as Hf.
  unfold used_inode in Hf. unfold NUM_INODES. split.
  - intros [Hj Hu]. pose proof (ad_live _ _ _ _ _ _ _ _ _ Had j ltac:(lia)) as Hl. unfold used_inode in Hl. rewrite Hl in Hu.
    destruct (Z.eqb_spec j i); [by right|by left].
  - intros Hj. assert (1 <= j <= 32) as Hr by (destruct Hj as [[? _]| ->]; lia). split; [done|].
    pose proof (ad_live _ _ _ _ _ _ _ _ _ Had j ltac:(lia)) as Hl. unfold used_inode in Hl. rewrite Hl.
    destruct (Z.eqb_spec j i); [done|]. by destruct Hj as [[_ ?]|].
Qed.

Lemma added_not_new j : live d j -> j <> i.
Proof using All.
  intros [_ Hu] ->. pose proof (ad_free _ _ _ _ _ _ _ _ _ Had) as Hf. unfold used_inode in Hf. congruence.
Qed.

(** No file had the new block. *)
Lemma added_block_fresh j k : live d j -> pointers d j !! k = Some b -> False.
Proof using All.
  intros Hj Hk. destruct (ad_b _ _ _ _ _ _ _ _ _ Had) as [Hr Hf]. destruct (fs_used d Hfs j k b Hj Hk) as [_ Hu]; [lia|]. congruence.
Qed.

Lemma added_ptr k x : pointers d' i !! k = Some x -> x <> 0 -> x = b /\ k = 0%nat.
Proof using All.
  rewrite (ad_ptrs _ _ _ _ _ _ _ _ _ Had). intros Hk Hx. destruct k as [|k]; [by injection Hk|].
  change (replicate 11 0 !! k = Some x) in Hk. by apply lookup_replicate in Hk as [-> _].
Qed.

Lemma added_fs_ok : fs_ok d'.
Proof using All.
  destruct (ad_b _ _ _ _ _ _ _ _ _ Had) as [Hr Hf]. constructor; [apply Had| |].
  - intros j k x Hj Hk Hx. apply added_live in Hj as [Hj| ->].
    + rewrite (proj1 (ad_same _ _ _ _ _ _ _ _ _ Had j (proj1 Hj) (added_not_new j Hj))) in Hk.
      destruct (fs_used d Hfs j k x Hj Hk Hx) as [Hxr Hu]. split; [lia|]. rewrite (ad_used _ _ _ _ _ _ _ _ _ Had) by lia.
      by destruct (x =? b).
    + destruct (added_ptr k x Hk Hx) as [-> _]. split; [lia|]. rewrite (ad_used _ _ _ _ _ _ _ _ _ Had) by lia. by rewrite Z.eqb_refl.
  - intros j1 j2 k1 k2 x H1 H2 K1 K2 Hx. apply added_live in H1, H2.
    assert (forall j k, live d j -> pointers d' j !! k = Some x -> pointers d j !! k = Some x) as Hback.
    { intros j k Hj Hk. by rewrite (proj1 (ad_same _ _ _ _ _ _ _ _ _ Had j (proj1 Hj) (added_not_new j Hj))) in Hk. }
    destruct H1 as [H1| ->], H2 as [H2| ->].
    + exact (fs_owner d Hfs j1 j2 k1 k2 x H1 H2 (Hback _ _ H1 K1) (Hback _ _ H2 K2) Hx).
    + destruct (added_ptr k2 x K2 Hx) as [-> _]. destruct (added_block_fresh j1 k1 H1 (Hback _ _ H1 K1)).
    + destruct (added_ptr k1 x K1 Hx) as [-> _]. destruct (added_block_fresh j2 k2 H2 (Hback _ _ H2 K2)).
    + destruct (added_ptr k1 x K1 Hx) as [_ ->], (added_ptr k2 x K2 Hx) as [_ ->]. done.
Qed.

Lemma added_others j : live d j -> j <> p -> same_content d d' j.
Proof using All.
  intros Hj Hne. destruct (ad_same _ _ _ _ _ _ _ _ _ Had j (proj1 Hj) (added_not_new j Hj)) as [Hq Hs].
  apply same_content_intro; [done..|]. intros k x Hk Hx. destruct (fs_used d Hfs j k x Hj Hk Hx) as [Hr _].
  apply (ad_rest _ _ _ _ _ _ _ _ _ Had); [done| |].
  - intros ->. by apply (added_block_fresh j k).
  - intros ->. apply Hne. by apply (fs_owner d Hfs j p k 0 b0).
Qed.
End added.

(** ** Creating *)

Lemma read_inode_ext d d' j :
  (forall n, 5 <= n <= 8 -> d' n = d n) -> 1 <= j <= NUM_INODES -> read_inode d' j = read_inode d j.
Proof. intros Hs Hj. destruct (table_block j Hj) as [Ht Hr]. unfold read_inode, ext2_read_block. rewrite Hs; [done|lia]. Qed.

Lemma pointers_ext d d' j : read_inode d' j = read_inode d j -> pointers d' j = pointers d j /\ file_size d' j = file_size d j.
Proof. intros He. unfold pointers, file_size. by rewrite He. Qed.

(** The entry a request adds, on the directory's block. *)
Lemma add_entry_run b i ft leaf :
  block_ok b -> name_ok leaf -> 12 <= i <= 32 -> is_byte ft ->
  exists b' r, add_dir_entry b i ft leaf = Some (b', r) /\ block_ok b' /\
    (r = true -> exists l r', entries b 0 = l ++ r' /\ entries b' 0 = l ++ (i, ft, leaf) :: r').
Proof.
  intros Hb Hn Hi Hft. destruct (add_dir_loop_spec i ft leaf Hn ltac:(lia) Hft DIR_FUEL b 0 Hb (dir_fuel_ok 0 ltac:(lia)))
    as (b' & r & He & Hb' & _ & _ & Ht). exists b', r. split_and!; [done|done|]. intros Hr. apply (Ht Hr).
Qed.

(** The bitmaps and the counters, after the new inode is in its table. *)
Lemma commit_new d3 blk_bm ino_bm x y z :
  disk_ok d3 -> block_ok blk_bm -> block_ok ino_bm ->
  exists d', commit_counts (ext2_write_block (ext2_write_block d3 BLOCK_BITMAP_BLOCK blk_bm) INODE_BITMAP_BLOCK ino_bm) x y z = Some d' /\
    disk_ok d' /\ (forall n, 5 <= n -> d' n = d3 n) /\ d' BLOCK_BITMAP_BLOCK = blk_bm /\ d' INODE_BITMAP_BLOCK = ino_bm.
Proof.
  intros Hd Hb Hi. destruct (commit_counts_total (ext2_write_block (ext2_write_block d3 BLOCK_BITMAP_BLOCK blk_bm) INODE_BITMAP_BLOCK ino_bm) x y z)
    as (d' & Hc & Hd' & Hs); [auto with disk|]. unfold SUPERBLOCK_BLOCK, GROUP_DESC_BLOCK, BLOCK_BITMAP_BLOCK, INODE_BITMAP_BLOCK in *.
  exists d'. split_and!; [done|done| | |].
  - intros n Hn. rewrite Hs by lia. by rewrite !write_block_ne by lia.
  - rewrite Hs by lia. rewrite write_block_ne by lia. apply write_block_eq.
  - rewrite Hs by lia. apply write_block_eq.
Qed.

(** What a failed request leaves: at most a free block overwritten. *)
Definition only_free (d d' : disk) : Prop :=
  d' = d \/ exists b c, used_block d b = false /\ 11 <= b <= 64 /\ block_ok c /\ d' = ext2_write_block d b c.

Lemma vzero_ok b : block_ok b -> block_ok (vzero b).
Proof. intros [Hl _]. split; [by unfold vzero; rewrite length_replicate|]. apply Forall_replicate. red. lia. Qed.

Definition DOT : bytes := [46].
Definition DOTDOT : bytes := [46; 46].

Lemma dot_ok : name_ok DOT /\ name_ok DOTDOT.
Proof. unfold name_ok, DOT, DOTDOT. cbn. split_and!; try lia; repeat (apply Forall_cons_2; [red; lia|]); apply Forall_nil_2. Qed.

(** A new directory lists itself and its parent. *)
Lemma init_dir_spec b i p : block_ok b -> 0 < i < 2 ^ 32 -> 0 < p < 2 ^ 32 ->
  exists c, init_dir_block b i p = Some c /\ block_ok c /\ entries c 0 = [(i, FT_DIR, DOT); (p, FT_DIR, DOTDOT)].
Proof.
  intros Hb Hi Hp. destruct dot_ok as [Hd1 Hd2]. unfold init_dir_block. change [46; 46] with DOTDOT. change [46] with DOT.
  destruct (write_dir_entry_spec (vzero b) 0 i 12 FT_DIR DOT) as (b1 & -> & Hb1 & C1 & T1 & H1);
    [by apply vzero_ok|done|red; lia|red; lia|by vm_compute|cbn; lia|]. rewrite bind_Some.
  cbv beta. change (Z.of_nat BLOCK_SIZE - 12) with 1012.
  destruct (write_dir_entry_spec b1 12 p 1012 FT_DIR DOTDOT) as (b2 & -> & Hb2 & C2 & T2 & H2);
    [done|done|red; lia|red; lia|by vm_compute|cbn; lia|].
  exists b2. split_and!; [done|done|]. change (Z.to_nat 12) with 12%nat in H1. change (Z.to_nat 1012) with 1012%nat in H2.
  assert (changed_in 12 1024 b1 b2) as C2' by (eapply changed_in_weaken; [| |exact C2]; cbn; lia).
  rewrite entries_unfold by (done || lia). rewrite (read_header_agree _ _ _ _ _ C2') by lia. rewrite H1 by lia. cbn [d_rec_len].
  rewrite (here_agree _ _ _ _ _ _ C2') by (cbn; lia || (destruct Hb1 as [-> _]; unfold BLOCK_SIZE; lia)).
  rewrite new_entry_visible by (done || (cbn; lia)). cbn [app Nat.add]. f_equal.
  rewrite entries_unfold by (done || lia). rewrite H2 by lia. cbn [d_rec_len].
  rewrite new_entry_visible by (done || (cbn; lia)). cbn [app Nat.add]. f_equal.
Qed.

Section creating.
Context (junk : bytes) (Hjunk : block_ok junk) (d : disk) (Hfs : fs_ok d).
Context (p b0 : Z) (Hp : live d p) (Hb0 : pointers d p !! 0%nat = Some b0) (Hnz : b0 <> 0).
Context (leaf : bytes) (Hleaf : name_ok leaf).

(** Everything after the directory entry: [d2] has the entry and the new block. *)
Lemma create_finish d2 i b ft m n lk content p_dir_b l r blk_bm ino_bm dd :
  12 <= i <= 32 -> 11 <= b <= 64 -> used_inode d i = false -> used_block d b = false ->
  block_ok blk_bm -> (forall j, 1 <= j -> bit blk_bm (j - 1) = if j =? b then true else used_block d j) ->
  block_ok ino_bm -> (forall j, 1 <= j -> bit ino_bm (j - 1) = if j =? i then true else used_inode d j) ->
  disk_ok d2 -> (forall j, 1 <= j <= NUM_INODES -> pointers d2 j = pointers d j /\ file_size d2 j = file_size d j) ->
  (forall x, 9 <= x <= 64 -> d2 x = if x =? b0 then p_dir_b else if x =? b then content else d x) ->
  entries (d b0) 0 = l ++ r -> entries p_dir_b 0 = l ++ (i, ft, leaf) :: r ->
  in_width 16 m -> in_width 16 lk -> Z.of_nat n < 2 ^ 32 ->
  exists d3 d', write_inode d2 i m (Z.of_nat n) lk [b] = Some d3 /\
    commit_counts (ext2_write_block (ext2_write_block d3 BLOCK_BITMAP_BLOCK blk_bm) INODE_BITMAP_BLOCK ino_bm) (-1) (-1) dd = Some d' /\
    adds d d' b0 i b ft leaf n content.
Proof using All.
  intros Hi Hb Hui Hub Hbb Hbbit Hib Hibit Hd2 Hold Hx He1 He2 Hm Hlk Hn. assert (1 <= i <= NUM_INODES) as Hin by (unfold NUM_INODES; lia).
  destruct (fs_used d Hfs p 0 b0 Hp Hb0 Hnz) as [Hb0r Hb0u]. assert (b0 <> b) as Hne by congruence.
  destruct (write_inode_total d2 i m (Z.of_nat n) lk [b]) as (tbl & Hwi & Htok & Hrd & Hot); try done.
  { red. lia. }
  { cbn. lia. }
  { apply Forall_singleton. red. lia. }
  destruct (table_block i Hin) as [Htb Htr].
  set (d3 := ext2_write_block d2 (inode_block_and_offset i).1 tbl).
  assert (disk_ok d3) as Hd3 by (by apply write_block_ok).
  destruct (commit_new d3 blk_bm ino_bm (-1) (-1) dd) as (d' & Hc & Hd' & Hs & HB & HI); [done..|].
  exists d3, d'. split; [unfold write_inode, ext2_read_block; by rewrite Hwi|]. split; [done|].
  assert (forall x, 9 <= x <= 64 -> d' x = d2 x) as Hdata.
  { intros x Hxr. rewrite Hs by lia. apply write_block_ne. lia. }
  specialize (Hrd d'). rewrite Hs in Hrd by lia. specialize (Hrd (write_block_eq _ _ _)).
  destruct (read_inode_pointers _ _ _ Hrd) as [Hpi Hsi].
  assert (forall j, 1 <= j <= NUM_INODES -> j <> i -> read_inode d' j = read_inode d2 j) as Hoth.
  { intros j Hj Hji. apply Hot; [rewrite Hs by lia; apply write_block_eq| |done|done]. intros x Hxr Hxn. rewrite Hs by lia. by apply write_block_ne. }
  constructor; [exact Hd'|exact Hi|exact (conj Hb Hub)|exact Hui| | |exact Hpi| | | | |].
  - intros j Hj. unfold used_inode at 1. rewrite HI. by apply Hibit.
  - intros j Hj. unfold used_block at 1. rewrite HB. by apply Hbbit.
  - rewrite Hsi. cbn. lia.
  - rewrite Hdata, Hx by lia. rewrite (proj2 (Z.eqb_neq _ _)) by lia. by rewrite Z.eqb_refl.
  - intros j Hj Hji. destruct (pointers_ext d2 d' j (Hoth j Hj Hji)) as [-> ->]. by apply Hold.
  - intros x Hxr Hxb Hxb0. rewrite Hdata, Hx by lia. by rewrite !(proj2 (Z.eqb_neq _ _)) by done.
  - exists l, r. split; [done|]. rewrite Hdata, Hx by lia. by rewrite Z.eqb_refl.
Qed.

Definition space_left : Prop :=
  (exists b, 11 <= b <= 64 /\ used_block d b = false) /\ (exists i, 12 <= i <= 32 /\ used_inode d i = false).

(** [FS_OP_CREATE] in a directory. *)
Lemma create_file_run :
  exists d' i, create_file junk d p leaf = Some (d', i) /\
    ((i = 0 /\ only_free d d') \/ exists b, adds d d' b0 i b FT_REG leaf 0 junk).
Proof using All.
  pose proof (fs_blocks d Hfs) as Hd. destruct (fs_used d Hfs p 0 b0 Hp Hb0 Hnz) as [Hb0r Hb0u].
  unfold create_file, ext2_read_block. destruct (alloc_block_disk d Hd) as (bm & rb & -> & Hrb).
  destruct (alloc_inode_disk d Hd) as (im & ri & -> & Hri).
  destruct rb as [b|]; [|exists d, 0; split; [done|left; split; [done|by left]]].
  destruct ri as [i|]; [|exists d, 0; split; [done|left; split; [done|by left]]].
  destruct Hrb as (Hb & Hub & Hbm & Hbbit), Hri as (Hi & Hui & Him & Hibit). assert (b0 <> b) as Hne by congruence.
  set (d1 := ext2_write_block d b junk). assert (disk_ok d1) as Hd1 by (by apply write_block_ok).
  assert (forall j, 1 <= j <= NUM_INODES -> read_inode d1 j = read_inode d j) as Hr1.
  { intros j Hj. apply read_inode_ext; [|done]. intros n Hn. apply write_block_ne. lia. }
  destruct (disk_inode d p Hd (proj1 Hp)) as (info & Hinfo & _). rewrite Hr1, Hinfo, bind_Some by apply Hp.
  destruct (read_inode_pointers _ _ _ Hinfo) as [Hpp _]. rewrite <- Hpp, Hb0, bind_Some.
  assert (d1 b0 = d b0) as -> by (by apply write_block_ne).
  destruct (add_entry_run (d b0) i FT_REG leaf) as (b' & r & -> & Hb' & Hins); [apply Hd|done|done|by vm_compute|]. rewrite bind_Some.
  destruct r; [|exists d1, 0; split; [done|left; split; [done|right; by exists b, junk]]].
  destruct (Hins eq_refl) as (l & r & He1 & He2).
  destruct (create_finish (ext2_write_block d1 b0 b') i b FT_REG (Z.lor S_IFREG MODE_644) 0 1 junk b' l r bm im 0) as (d3 & d' & Hw & Hc & Had);
    [exact Hi|exact Hb|exact Hui|exact Hub|exact Hbm|exact Hbbit|exact Him|exact Hibit|by apply write_block_ok| |reflexivity|
     exact He1|exact He2|by vm_compute|red; lia|lia|].
  - intros j Hj. apply pointers_ext. rewrite <- (Hr1 j Hj). apply read_inode_ext; [|done]. intros n Hn. apply write_block_ne. lia.
  - change (Z.of_nat 0) with 0 in Hw. rewrite Hw, bind_Some, Hc, bind_Some. exists d', i. split; [done|]. right. by exists b.
Qed.
(** Counting the new subdirectory in the parent's inode. *)
Lemma bump_links d1 info :
  disk_ok d1 -> read_inode d1 p = Some info ->
  exists tbl, write_inode_entry_full (d1 (inode_block_and_offset p).1) p (mode info) (size info) (u16 (links info + 1)) (direct_blocks info) = Some tbl /\
    block_ok tbl /\
    forall d2, d2 (inode_block_and_offset p).1 = tbl ->
      (forall n, 5 <= n <= 8 -> n <> (inode_block_and_offset p).1 -> d2 n = d1 n) ->
      forall j, 1 <= j <= NUM_INODES -> pointers d2 j = pointers d1 j /\ file_size d2 j = file_size d1 j.
Proof using All.
  intros Hd1 Hri. destruct (disk_inode d1 p Hd1 (proj1 Hp)) as (info' & He & Hio). rewrite Hri in He. injection He as <-.
  destruct (write_inode_total d1 p (mode info) (size info) (u16 (links info + 1)) (direct_blocks info)) as (tbl & Hw & Ht & Hrd & Hot);
    [done|apply Hp|apply Hio|apply Hio|apply wrap_range; lia|rewrite (io_len _ Hio); lia|apply Hio|].
  exists tbl. split_and!; [done|done|]. intros d2 H2 Hs j Hj. destruct (decide (j = p)) as [->|Hne].
  - specialize (Hrd d2 H2). destruct (read_inode_pointers _ _ _ Hrd) as [-> ->]. destruct (read_inode_pointers _ _ _ Hri) as [-> ->].
    cbn [direct_blocks size]. rewrite (io_len _ Hio). cbn [Nat.sub replicate]. by rewrite app_nil_r.
  - apply pointers_ext. by apply Hot.
Qed.

(** [FS_OP_MKDIR] in a directory. *)
Lemma make_dir_run :
  exists d' i, make_dir junk d p leaf = Some (d', i) /\
    ((i = 0 /\ only_free d d') \/
     exists b c, adds d d' b0 i b FT_DIR leaf BLOCK_SIZE c /\ entries c 0 = [(i, FT_DIR, DOT); (p, FT_DIR, DOTDOT)]).
Proof using All.
  pose proof (fs_blocks d Hfs) as Hd. destruct (fs_used d Hfs p 0 b0 Hp Hb0 Hnz) as [Hb0r Hb0u].
  pose proof (proj1 Hp) as Hpr. unfold NUM_INODES in Hpr.
  unfold make_dir, ext2_read_block. destruct (alloc_block_disk d Hd) as (bm & rb & -> & Hrb).
  destruct (alloc_inode_disk d Hd) as (im & ri & -> & Hri).
  destruct rb as [b|]; [|exists d, 0; split; [done|left; split; [done|by left]]].
  destruct ri as [i|]; [|exists d, 0; split; [done|left; split; [done|by left]]].
  destruct Hrb as (Hb & Hub & Hbm & Hbbit), Hri as (Hi & Hui & Him & Hibit). assert (b0 <> b) as Hne by congruence.
  destruct (init_dir_spec junk i p) as (c & -> & Hc & Hce); [done|lia|lia|]. rewrite bind_Some. cbv zeta.
  set (d1 := ext2_write_block d b c). assert (disk_ok d1) as Hd1 by (by apply write_block_ok).
  assert (forall j, 1 <= j <= NUM_INODES -> read_inode d1 j = read_inode d j) as Hr1.
  { intros j Hj. apply read_inode_ext; [|done]. intros n Hn. apply write_block_ne. lia. }
  destruct (disk_inode d1 p Hd1 (proj1 Hp)) as (info & Hinfo & _). rewrite Hinfo, bind_Some.
  assert (direct_blocks info !! 0%nat = Some b0) as ->.
  { rewrite Hr1 in Hinfo by apply Hp. destruct (read_inode_pointers _ _ _ Hinfo) as [<- _]. exact Hb0. }
  rewrite bind_Some. assert (d1 b0 = d b0) as Hdb0 by (by apply write_block_ne). rewrite Hdb0.
  destruct (add_entry_run (d b0) i FT_DIR leaf) as (b' & r & -> & Hb' & Hins); [apply Hd|done|done|by vm_compute|]. rewrite bind_Some.
  destruct r; [|exists d1, 0; split; [done|left; split; [done|right; by exists b, c]]].
  destruct (Hins eq_refl) as (l & r & He1 & He2).
  destruct (bump_links d1 info Hd1 Hinfo) as (tbl & -> & Htok & Hbump). rewrite bind_Some.
  destruct (table_block p (proj1 Hp)) as [Htb Htr].
  set (d2 := ext2_write_block (ext2_write_block d1 b0 b') (inode_block_and_offset p).1 tbl).
  destruct (create_finish d2 i b FT_DIR (Z.lor S_IFDIR MODE_755) BLOCK_SIZE 2 c b' l r bm im 1) as (d3 & d' & Hw & Hcc & Had);
    [exact Hi|exact Hb|exact Hui|exact Hub|exact Hbm|exact Hbbit|exact Him|exact Hibit|apply write_block_ok; [by apply write_block_ok|done]| | |
     exact He1|exact He2|by vm_compute|red; lia|unfold BLOCK_SIZE; lia|].
  - intros j Hj. destruct (pointers_ext d d1 j (Hr1 j Hj)) as [<- <-]. apply Hbump; [apply write_block_eq| |done].
    intros n Hn Hn'. unfold d2. rewrite !write_block_ne by lia. done.
  - intros x Hx. unfold d2. rewrite write_block_ne by lia. reflexivity.
  - rewrite Hw, bind_Some, Hcc, bind_Some. exists d', i. split; [done|]. right. by exists b, c.
Qed.
End creating.

(** ** Directories and paths *)

(** The directories that path resolution can reach. *)
Inductive directory (d : disk) : Z -> Prop :=
  | dir_root : directory d ROOT_INODE
  | dir_sub i j b0 name : directory d i -> pointers d i !! 0%nat = Some b0 -> b0 <> 0 ->
      (j, FT_DIR, name) ∈ entries (d b0) 0 -> directory d j.

(** Every one of them is an inode in use. *)
Definition tree_ok (d : disk) : Prop := forall i, directory d i -> live d i.

Lemma find_in_elem es name r : find_in es name = Some r -> (r.1, r.2, name) ∈ es.
Proof.
  unfold find_in. intros Hf. apply fmap_Some in Hf as ([[i t] n] & Hh & ->). cbn.
  assert ((i, t, n) ∈ filter (fun e : Z * Z * bytes => e.2 = name) es) as Hin.
  { destruct (filter _ es); [done|]. injection Hh as ->. apply list_elem_of_here. }
  apply list_elem_of_filter in Hin as [Hn Hin]. cbn in Hn. by subst.
Qed.

Lemma find_dir_ok b name : block_ok b -> find_dir_entry b name = Some (find_in (entries b 0) name).
Proof. intros Hb. unfold find_dir_entry. rewrite entries_read by (done || lia). done. Qed.

Lemma read_dir_block_eq d i : read_dir_block d i =
  match pointers d i !! 0%nat with Some b0 => if b0 =? 0 then None else Some (d b0) | None => None end.
Proof.
  unfold read_dir_block, pointers, ext2_read_block. destruct (read_inode d i) as [info|]; [|done]. cbn [mbind option_bind].
  destruct (direct_blocks info !! 0%nat) as [b0|]; [|done]. cbn [mbind option_bind]. by destruct (b0 =? 0).
Qed.

(** One step of a walk: the directory's block and the entry in it. *)
Lemma resolve_cons d i t seg segs j t' : disk_ok d ->
  resolve_segments (read_dir_block d) i t (seg :: segs) = Some (Some (j, t')) ->
  t = FT_DIR /\ exists b0 i1 t1, pointers d i !! 0%nat = Some b0 /\ b0 <> 0 /\
    find_in (entries (d b0) 0) seg = Some (i1, t1) /\ resolve_segments (read_dir_block d) i1 t1 segs = Some (Some (j, t')).
Proof.
  intros Hd. cbn [resolve_segments]. destruct (Z.eqb_spec t FT_DIR) as [->|]; [|done]. cbn [negb]. rewrite read_dir_block_eq.
  destruct (pointers d i !! 0%nat) as [b0|]; [|done]. destruct (Z.eqb_spec b0 0); [done|].
  rewrite find_dir_ok by apply Hd. cbn [mbind option_bind]. destruct (find_in _ seg) as [[i1 t1]|] eqn:Hf; [|done].
  intros Hr. split; [done|]. by exists b0, i1, t1.
Qed.

Lemma resolve_directory d segs i t j : disk_ok d -> (t = FT_DIR -> directory d i) ->
  resolve_segments (read_dir_block d) i t segs = Some (Some (j, FT_DIR)) -> directory d j.
Proof.
  intros Hd. revert i t. induction segs as [|seg segs IH]; intros i t Hi Hr.
  - cbn in Hr. injection Hr as <- Ht. by apply Hi.
  - apply resolve_cons in Hr as (Ht & b0 & i1 & t1 & Hb & Hnz & Hf & Hr); [|done]. eapply IH; [|exact Hr]. intros ->.
    eapply dir_sub; [by apply Hi|done|done|]. exact (find_in_elem _ _ _ Hf).
Qed.

Section names.
Context (d d' : disk) (p b0 i b ft : Z) (leaf : bytes) (n : nat) (content : bytes).
Context (Hfs : fs_ok d) (Htree : tree_ok d) (Hdir : directory d p) (Hb0 : pointers d p !! 0%nat = Some b0) (Hnz : b0 <> 0).
Context (Had : adds d d' b0 i b ft leaf n content).
Context (Hcontent : ft = FT_DIR -> entries content 0 = [(i, FT_DIR, DOT); (p, FT_DIR, DOTDOT)]).
Context (Hnew : find_in (entries (d b0) 0) leaf = None).

Let Hp : live d p := Htree p Hdir.

(** A directory's block, after the request. *)
Lemma names_block j x : live d j -> pointers d j !! 0%nat = Some x -> x <> 0 ->
  pointers d' j !! 0%nat = Some x /\ (x = b0 /\ j = p \/ x <> b0 /\ d' x = d x).
Proof using All.
  intros Hj Hx Hx0. rewrite (proj1 (ad_same _ _ _ _ _ _ _ _ _ Had j (proj1 Hj) (added_not_new d d' p b0 i b ft leaf n content Hfs Hp Hb0 Hnz Had j Hj))).
  split; [done|]. destruct (decide (x = b0)) as [->|Hne]; [left; split; [done|]; by apply (fs_owner d Hfs j p 0 0 b0)|right; split; [done|]].
  apply (ad_rest _ _ _ _ _ _ _ _ _ Had); [by apply (fs_used d Hfs j 0 x)| |done].
  intros ->. by apply (added_block_fresh d d' p b0 i b ft leaf n content Hfs Hp Hb0 Hnz Had j 0).
Qed.

Lemma names_directory j : directory d' j -> directory d j \/ (ft = FT_DIR /\ j = i).
Proof using All.
  induction 1 as [|i0 j x name _ IH Hx Hx0 Hin]; [left; constructor|]. destruct IH as [Hd0|[-> ->]].
  - pose proof (Htree i0 Hd0) as Hl.
    assert (pointers d i0 !! 0%nat = Some x) as Hxd.
    { by rewrite (proj1 (ad_same _ _ _ _ _ _ _ _ _ Had i0 (proj1 Hl) (added_not_new d d' p b0 i b ft leaf n content Hfs Hp Hb0 Hnz Had i0 Hl))) in Hx. }
    destruct (names_block i0 x Hl Hxd Hx0) as [_ [[-> ->]|[_ He]]].
    + destruct (ad_entry _ _ _ _ _ _ _ _ _ Had) as (l & r & E1 & E2). rewrite E2 in Hin.
      assert ((j, FT_DIR, name) = (i, ft, leaf) \/ (j, FT_DIR, name) ∈ entries (d b0) 0) as [Hq|Hq].
      { rewrite E1. apply elem_of_app in Hin as [?|[?|?]%elem_of_cons]; [right|by left|right]; apply elem_of_app; auto. }
      * right. by injection Hq as Hji Hft _.
      * left. by eapply dir_sub.
    + left. rewrite He in Hin. by eapply dir_sub.
  - rewrite (ad_ptrs _ _ _ _ _ _ _ _ _ Had) in Hx. injection Hx as <-. rewrite (ad_new _ _ _ _ _ _ _ _ _ Had), (Hcontent eq_refl) in Hin.
    apply elem_of_cons in Hin as [Hq|Hin]; [right; by injection Hq as -> _|].
    apply list_elem_of_singleton in Hin. injection Hin as -> _. by left.
Qed.

Lemma names_tree_ok : tree_ok d'.
Proof using All.
  intros j Hj. apply (added_live d d' p b0 i b ft leaf n content Hfs Hp Hb0 Hnz Had). destruct (names_directory j Hj) as [Hd|[_ ->]]; [|by right].
  left. by apply Htree.
Qed.

(** A name found before is found still. *)
Lemma names_found j x seg r : directory d j -> pointers d j !! 0%nat = Some x -> x <> 0 ->
  find_in (entries (d x) 0) seg = Some r -> find_in (entries (d' x) 0) seg = Some r.
Proof using All.
  intros Hj Hx Hx0 Hf. destruct (names_block j x (Htree j Hj) Hx Hx0) as [_ [[-> _]|[_ He]]]; [|by rewrite He].
  destruct (ad_entry _ _ _ _ _ _ _ _ _ Had) as (l & rr & E1 & E2). rewrite E1 in Hf, Hnew. rewrite E2. unfold find_in in *.
  rewrite filter_app in Hf, Hnew. rewrite filter_app, filter_cons. destruct (decide ((i, ft, leaf).2 = seg)) as [He|]; [|done].
  cbn in He. subst seg. destruct (filter _ l); [|done]. cbn [app] in Hf, Hnew. congruence.
Qed.

Lemma names_resolve segs j t r t' : (t = FT_DIR -> directory d j) ->
  resolve_segments (read_dir_block d) j t segs = Some (Some (r, t')) ->
  resolve_segments (read_dir_block d') j t segs = Some (Some (r, t')).
Proof using All.
  revert j t. induction segs as [|seg segs IH]; intros j t Hj Hr; [done|].
  apply resolve_cons in Hr as (Ht & x & i1 & t1 & Hx & Hx0 & Hf & Hr); [|apply Hfs]. specialize (Hj Ht). subst t.
  cbn [resolve_segments]. rewrite Z.eqb_refl. cbn [negb]. rewrite read_dir_block_eq.
  destruct (names_block j x (Htree j Hj) Hx Hx0) as [-> _]. rewrite (proj2 (Z.eqb_neq x 0)) by done.
  rewrite find_dir_ok by apply Had. cbn [mbind option_bind]. rewrite (names_found j x seg (i1, t1)) by done.
  apply IH; [|done]. intros ->. eapply dir_sub; [exact Hj|done|done|]. exact (find_in_elem _ _ _ Hf).
Qed.

Lemma names_lookup : find_in (entries (d' b0) 0) leaf = Some (i, ft).
Proof using All.
  destruct (ad_entry _ _ _ _ _ _ _ _ _ Had) as (l & r & E1 & E2). rewrite E2. unfold find_in in *. rewrite E1 in Hnew.
  rewrite filter_app in Hnew |- *. destruct (filter _ l); [|done]. rewrite filter_cons_True by done. done.
Qed.

(** The whole path leads to the new inode. *)
Lemma names_path path parent :
  split_parent_and_basename path = (parent, leaf) -> leaf <> [] ->
  driver_resolve_path d parent = Some (Some (p, FT_DIR)) -> driver_resolve_path d' path = Some (Some (i, ft)).
Proof using All.
  intros Hs Hl Hr. unfold driver_resolve_path in *. pose proof (split_parent_segments path) as Hseg. rewrite Hs in Hseg.
  rewrite resolve_via_parent, Hs by (intros He; rewrite He in Hseg; by destruct Hseg). cbn [fst snd].
  assert (resolve_path (read_dir_block d') parent ROOT_INODE = Some (Some (p, FT_DIR))) as ->.
  { apply names_resolve; [|exact Hr]. intros _. constructor. }
  cbn [mbind option_bind]. rewrite Z.eqb_refl, read_dir_block_eq. destruct (names_block p b0 Hp Hb0 Hnz) as [-> _].
  rewrite (proj2 (Z.eqb_neq b0 0)) by done. rewrite find_dir_ok by apply Had. by rewrite names_lookup.
Qed.
End names.

(** ** Requests *)

Lemma only_free_spec d d' : fs_ok d -> tree_ok d -> only_free d d' ->
  fs_ok d' /\ tree_ok d' /\ (forall j, live d' j <-> live d j) /\ forall j, live d j -> same_content d d' j.
Proof.
  intros Hfs Ht [->|(b & c & Hu & Hb & Hc & ->)]; [split_and!; done|]. set (d' := ext2_write_block d b c).
  assert (forall n, n <= 8 -> d' n = d n) as Hlow by (intros n Hn; apply write_block_ne; lia).
  assert (forall j, live d' j <-> live d j) as Hlive by (intros j; unfold live, INODE_BITMAP_BLOCK; by rewrite Hlow by lia).
  assert (forall x, used_block d' x = used_block d x) as Hub by (intros x; unfold used_block, BLOCK_BITMAP_BLOCK; by rewrite Hlow by lia).
  assert (forall j, 1 <= j <= NUM_INODES -> pointers d' j = pointers d j /\ file_size d' j = file_size d j) as Hptr.
  { intros j Hj. apply pointers_ext, read_inode_ext; [|done]. intros n Hn. apply Hlow. lia. }
  assert (forall j k x, live d j -> pointers d j !! k = Some x -> x <> 0 -> d' x = d x) as Hblk.
  { intros j k x Hj Hk Hx. apply write_block_ne. intros ->. destruct (fs_used d Hfs j k b Hj Hk Hx). congruence. }
  split_and!.
  - constructor; [apply write_block_ok; [apply Hfs|done]| |].
    + intros j k x Hj%Hlive. rewrite (proj1 (Hptr j (proj1 Hj))), Hub. by apply (fs_used d Hfs).
    + intros i j k l x Hi%Hlive Hj%Hlive. rewrite (proj1 (Hptr i (proj1 Hi))), (proj1 (Hptr j (proj1 Hj))). by apply (fs_owner d Hfs).
  - intros j Hj. apply Hlive. apply Ht. induction Hj as [|i j x name _ IH Hx Hx0 Hin]; [constructor|].
    pose proof (Ht i IH) as Hl. rewrite (proj1 (Hptr i (proj1 Hl))) in Hx. rewrite (Hblk i 0%nat x Hl Hx Hx0) in Hin. by eapply dir_sub.
  - done.
  - intros j Hj. destruct (Hptr j (proj1 Hj)). apply same_content_intro; [done..|]. by apply (fun k x => Hblk j k x Hj).
Qed.

(** A request whose data is the path [path]. *)
Lemma fetched_path_ok off path rest : 0 <= off < 2 ^ 32 -> (length path <= 4096)%nat -> utf8_valid (length path) path = true ->
  fetched_path (data_word off (Z.of_nat (length path))) (path ++ rest) = Some path.
Proof.
  intros Ho Hl Hu. destruct (data_word_fields off (Z.of_nat (length path))) as (Hne & _ & Hlo); [done|lia|].
  unfold fetched_path. rewrite (proj2 (Z.eqb_neq _ _)) by done. cbn [negb]. rewrite Hlo, Nat2Z.id.
  assert (rslice (path ++ rest) 0 (length path) = Some path) as ->.
  { unfold rslice. rewrite length_app, decide_True by lia. by rewrite drop_0, take_app_length. }
  rewrite bind_Some. unfold str_or_empty. by rewrite Hu.
Qed.

Lemma parent_inode_ok d parent p : driver_resolve_path d parent = Some (Some (p, FT_DIR)) -> parent_inode d parent = Some p.
Proof.
  intros Hr. unfold parent_inode. case_bool_decide as He.
  - subst parent. vm_compute in Hr. by injection Hr as <-.
  - unfold resolve_inode. by rewrite Hr.
Qed.

Lemma not_found d path parent leaf p b0 :
  disk_ok d -> split_parent_and_basename path = (parent, leaf) -> leaf <> [] ->
  driver_resolve_path d parent = Some (Some (p, FT_DIR)) -> pointers d p !! 0%nat = Some b0 -> b0 <> 0 ->
  driver_resolve_path d path = Some None -> find_in (entries (d b0) 0) leaf = None.
Proof.
  intros Hd Hs Hl Hr Hb Hnz Hn. unfold driver_resolve_path in *. pose proof (split_parent_segments path) as Hseg. rewrite Hs in Hseg.
  rewrite resolve_via_parent, Hs in Hn by (intros He; rewrite He in Hseg; by destruct Hseg). cbn [fst snd] in Hn. rewrite Hr in Hn.
  cbn [mbind option_bind] in Hn. rewrite Z.eqb_refl, read_dir_block_eq, Hb, (proj2 (Z.eqb_neq b0 0)), find_dir_ok in Hn by (done || apply Hd).
  by injection Hn.
Qed.

Section create_request.
Context (d : disk) (Hfs : fs_ok d) (Htree : tree_ok d) (path parent leaf : bytes) (p b0 : Z).
Context (Hsplit : split_parent_and_basename path = (parent, leaf)) (Hleaf : name_ok leaf).
Context (Hparent : driver_resolve_path d parent = Some (Some (p, FT_DIR))).
Context (Hb0 : pointers d p !! 0%nat = Some b0) (Hnz : b0 <> 0) (Hnew : driver_resolve_path d path = Some None).

Lemma create_facts : directory d p /\ live d p /\ leaf <> [] /\ find_in (entries (d b0) 0) leaf = None /\ p <> 0.
Proof using All.
  assert (directory d p) as Hd.
  { unfold driver_resolve_path, resolve_path in Hparent. eapply resolve_directory; [apply Hfs| |exact Hparent]. intros _. constructor. }
  assert (leaf <> []) as Hne by (intros ->; destruct Hleaf as [[? _] _]; cbn in *; lia).
  split_and!; [done|by apply Htree|done| |].
  - eapply not_found; [apply Hfs|exact Hsplit|exact Hne|exact Hparent|exact Hb0|exact Hnz|exact Hnew].
  - destruct (Htree p Hd) as [? _]. lia.
Qed.

(** What a creating request did: [ft] and [n] are the type and size of what it
    makes. *)
Definition created (d' : disk) (ft : Z) (n : nat) (i : Z) : Prop :=
  fs_ok d' /\ tree_ok d' /\
  ((i = 0 /\ (forall j, live d' j <-> live d j) /\ (forall j, live d j -> same_content d d' j)) \/
   (12 <= i <= 32 /\ ~ live d i /\ (forall j, live d' j <-> live d j \/ j = i) /\
    file_size d' i = n /\ driver_resolve_path d' path = Some (Some (i, ft)) /\
    (forall q r, driver_resolve_path d q = Some (Some r) -> driver_resolve_path d' q = Some (Some r)) /\
    (forall j, live d j -> j <> p -> same_content d d' j))).

Lemma created_failed d' ft n : only_free d d' -> created d' ft n 0.
Proof using All.
  intros Ho. destruct (only_free_spec d d' Hfs Htree Ho) as (? & ? & ? & ?). split_and!; [done..|]. left. done.
Qed.

Lemma created_added d' ft n i b c :
  adds d d' b0 i b ft leaf n c -> (ft = FT_DIR -> entries c 0 = [(i, FT_DIR, DOT); (p, FT_DIR, DOTDOT)]) -> created d' ft n i.
Proof using All.
  intros Had Hc. destruct create_facts as (Hdir & Hp & Hne & Hnf & _). split.
  { eapply added_fs_ok; [exact Hfs|exact Hp|exact Hb0|exact Hnz|exact Had]. }
  split. { eapply names_tree_ok; [exact Hfs|exact Htree|exact Hdir|exact Hb0|exact Hnz|exact Had|exact Hc|exact Hnf]. }
  right. split_and!.
  - apply (ad_i _ _ _ _ _ _ _ _ _ Had).
  - apply (ad_i _ _ _ _ _ _ _ _ _ Had).
  - intros Hl. eapply added_not_new; [exact Hfs|exact Hp|exact Hb0|exact Hnz|exact Had|exact Hl|reflexivity].
  - eapply added_live; [exact Hfs|exact Hp|exact Hb0|exact Hnz|exact Had].
  - apply (ad_size _ _ _ _ _ _ _ _ _ Had).
  - eapply names_path; [exact Hfs|exact Htree|exact Hdir|exact Hb0|exact Hnz|exact Had|exact Hc|exact Hnf|exact Hsplit|exact Hne|exact Hparent].
  - intros q [r t] Hr. unfold driver_resolve_path, resolve_path in *.
    eapply names_resolve; [exact Hfs|exact Htree|exact Hdir|exact Hb0|exact Hnz|exact Had|exact Hc|exact Hnf| |exact Hr]. intros _. constructor.
  - intros j Hj Hjp. eapply added_others; [exact Hfs|exact Hp|exact Hb0|exact Hnz|exact Had|exact Hj|exact Hjp].
Qed.
End create_request.

Section dispatch.
Context (junk junk4 : bytes) (d : disk) (id x ret : Z) (buf : bytes) (Hid : 0 <= id < 2 ^ 32) (Hx : 0 <= x <= NUM_INODES).

Lemma serve_create_word : serve junk junk4 d (request_word id FS_OP_CREATE x) ret buf =
  '(d, rep) ← serve_create junk d ret buf; Some (d, Some rep).
Proof using All.
  unfold serve. rewrite (proj2 (Z.eqb_neq _ _)) by (apply request_word_max; unfold FS_OP_CREATE; lia).
  by rewrite decode_word by (unfold FS_OP_CREATE, NUM_INODES in *; lia).
Qed.

Lemma serve_mkdir_word : serve junk junk4 d (request_word id FS_OP_MKDIR x) ret buf =
  '(d, rep) ← serve_mkdir junk d ret buf; Some (d, Some rep).
Proof using All.
  unfold serve. rewrite (proj2 (Z.eqb_neq _ _)) by (apply request_word_max; unfold FS_OP_MKDIR; lia).
  by rewrite decode_word by (unfold FS_OP_MKDIR, NUM_INODES in *; lia).
Qed.

Lemma serve_unlink_word : serve junk junk4 d (request_word id FS_OP_UNLINK x) ret buf =
  '(d, rep) ← serve_unlink d ret buf; Some (d, Some rep).
Proof using All.
  unfold serve. rewrite (proj2 (Z.eqb_neq _ _)) by (apply request_word_max; unfold FS_OP_UNLINK; lia).
  by rewrite decode_word by (unfold FS_OP_UNLINK, NUM_INODES in *; lia).
Qed.

Lemma serve_lookup_word : serve junk junk4 d (request_word id FS_OP_LOOKUP x) ret buf =
  rep ← serve_lookup d ret buf; Some (d, rep).
Proof using All.
  unfold serve. rewrite (proj2 (Z.eqb_neq _ _)) by (apply request_word_max; unfold FS_OP_LOOKUP; lia).
  by rewrite decode_word by (unfold FS_OP_LOOKUP, NUM_INODES in *; lia).
Qed.
End dispatch.

(** C17. Creating a file. On a consistent disk whose reachable directories are in use, a request to create a path
    that does not exist, valid UTF-8 of at most 4096 bytes with a last name of 1 to 255 bytes, in a directory that
    does and has its first block, never fails to reply. Either it replies nothing and every file, name and inode is
    as before, or it replies a fresh inode: the path then resolves to an empty regular file with that inode, every
    path that resolved before resolves to the same inode, every file but the directory is untouched, and the disk is
    consistent. *)
Theorem create_then_lookup junk junk4 d id x path rest parent leaf p b0 :
  block_ok junk -> fs_ok d -> tree_ok d -> 0 <= id < 2 ^ 32 -> 0 <= x <= NUM_INODES ->
  (length path <= 4096)%nat -> utf8_valid (length path) path = true ->
  split_parent_and_basename path = (parent, leaf) -> name_ok leaf ->
  driver_resolve_path d parent = Some (Some (p, FT_DIR)) -> pointers d p !! 0%nat = Some b0 -> b0 <> 0 ->
  driver_resolve_path d path = Some None ->
  exists d' i, serve junk junk4 d (request_word id FS_OP_CREATE x) (data_word 0 (Z.of_nat (length path))) (path ++ rest) =
      Some (d', Some (inode_reply i)) /\
    created d path p d' FT_REG 0 i.
Proof.
  intros Hj Hfs Ht Hid Hx Hlen Hutf Hs Hleaf Hpar Hb0 Hnz Hnew.
  destruct (create_facts d Hfs Ht path parent leaf p b0) as (Hdir & Hp & Hne & Hnf & Hp0); [done..|].
  rewrite serve_create_word by done. unfold serve_create. rewrite fetched_path_ok, bind_Some, Hs by (done || lia).
  rewrite (parent_inode_ok d parent p Hpar), bind_Some, (proj2 (Z.eqb_neq p 0)), bool_decide_false by done. cbn [negb andb].
  destruct (create_file_run junk Hj d Hfs p b0 Hp Hb0 Hnz leaf Hleaf) as (d' & i & -> & Hr). cbn [mbind option_bind].
  exists d', i. split; [done|]. destruct Hr as [[-> Ho]|[b Had]].
  - by eapply created_failed.
  - eapply created_added; [exact Hfs|exact Ht|exact Hs|exact Hleaf|exact Hpar|exact Hb0|exact Hnz|exact Hnew|exact Had|].
    by intros [=].
Qed.

(** Creating a directory.  The same for a request to make a directory: it fails
    without effect, or the path resolves to a fresh directory inode whose one block
    lists "." and "..", every path that resolved before still does, and every file
    but the parent directory is untouched. *)
Theorem mkdir_then_lookup junk junk4 d id x path rest parent leaf p b0 :
  block_ok junk -> fs_ok d -> tree_ok d -> 0 <= id < 2 ^ 32 -> 0 <= x <= NUM_INODES ->
  (length path <= 4096)%nat -> utf8_valid (length path) path = true ->
  split_parent_and_basename path = (parent, leaf) -> name_ok leaf ->
  driver_resolve_path d parent = Some (Some (p, FT_DIR)) -> pointers d p !! 0%nat = Some b0 -> b0 <> 0 ->
  driver_resolve_path d path = Some None ->
  exists d' i, serve junk junk4 d (request_word id FS_OP_MKDIR x) (data_word 0 (Z.of_nat (length path))) (path ++ rest) =
      Some (d', Some (inode_reply i)) /\
    created d path p d' FT_DIR BLOCK_SIZE i /\
    (i <> 0 -> exists b, pointers d' i = b :: replicate 11 0 /\ b <> 0 /\
       entries (d' b) 0 = [(i, FT_DIR, DOT); (p, FT_DIR, DOTDOT)]).
Proof.
  intros Hj Hfs Ht Hid Hx Hlen Hutf Hs Hleaf Hpar Hb0 Hnz Hnew.
  destruct (create_facts d Hfs Ht path parent leaf p b0) as (Hdir & Hp & Hne & Hnf & Hp0); [done..|].
  rewrite serve_mkdir_word by done. unfold serve_mkdir. rewrite fetched_path_ok, bind_Some, Hs by (done || lia).
  rewrite (parent_inode_ok d parent p Hpar), bind_Some, (proj2 (Z.eqb_neq p 0)), bool_decide_false by done. cbn [negb andb].
  destruct (make_dir_run junk Hj d Hfs p b0 Hp Hb0 Hnz leaf Hleaf) as (d' & i & -> & Hr). cbn [mbind option_bind].
  exists d', i. split; [done|]. destruct Hr as [[-> Ho]|(b & c & Had & Hc)].
  - split; [by eapply created_failed|done].
  - split.
    + eapply created_added; [exact Hfs|exact Ht|exact Hs|exact Hleaf|exact Hpar|exact Hb0|exact Hnz|exact Hnew|exact Had|].
      intros _. exact Hc.
    + intros _. exists b. split_and!; [apply Had|pose proof (ad_b _ _ _ _ _ _ _ _ _ Had); lia|]. by rewrite (ad_new _ _ _ _ _ _ _ _ _ Had).
Qed.

(** ** Removing *)

Lemma free_blocks_fold bm k0 bs :
  block_ok bm -> Forall (fun b => b = 0 \/ 1 <= b <= 64) bs ->
  exists bm' k, foldl (fun (s : bytes * Z) b => if negb (b =? 0) then (free_block s.1 b, s.2 + 1) else s) (bm, k0) bs = (bm', k) /\ block_ok bm' /\
    forall j, 1 <= j -> bit bm' (j - 1) = bit bm (j - 1) && bool_decide (j ∉ bs).
Proof.
  intros Hb Hbs. revert bm k0 Hb. induction Hbs as [|b bs Hr _ IH]; intros bm k0 Hb.
  - exists bm, k0. split_and!; [done|done|]. intros j _. rewrite bool_decide_true by apply not_elem_of_nil. by rewrite andb_true_r.
  - cbn [foldl fst snd]. destruct (Z.eqb_spec b 0) as [->|Hnz]; cbn [negb].
    + destruct (IH bm k0 Hb) as (bm' & k & He & Hb' & Hbit). exists bm', k. split_and!; [done|done|]. intros j Hj. rewrite Hbit by done.
      f_equal. apply bool_decide_ext. rewrite not_elem_of_cons. split; [intros; split; [lia|done]|tauto].
    + destruct Hr as [|Hr]; [done|]. destruct Hb as [Hl Hby].
      destruct (free_id_spec bm b Hby ltac:(lia)) as (Hl1 & Hby1 & Hbit1); [rewrite Hl; unfold BLOCK_SIZE; lia|].
      destruct (IH (free_block bm b) (k0 + 1) (conj (eq_trans Hl1 Hl) Hby1)) as (bm' & k & He & Hb' & Hbit).
      exists bm', k. split_and!; [done|done|]. intros j Hj. rewrite Hbit by done. unfold free_block. rewrite Hbit1 by lia.
      destruct (Z.eqb_spec (j - 1) (b - 1)) as [Hjb|Hjb].
      * rewrite (bool_decide_false (j ∉ b :: bs)); [by rewrite andb_false_r|]. intros Hn. apply Hn. replace j with b by lia. apply list_elem_of_here.
      * f_equal. apply bool_decide_ext. rewrite not_elem_of_cons. split; [intros; split; [lia|done]|tauto].
Qed.

Lemma free_blocks_spec bm bs :
  block_ok bm -> Forall (fun b => b = 0 \/ 1 <= b <= 64) bs ->
  exists bm' k, free_blocks bm bs = (bm', k) /\ block_ok bm' /\
    forall j, 1 <= j -> bit bm' (j - 1) = bit bm (j - 1) && bool_decide (j ∉ bs).
Proof. apply free_blocks_fold. Qed.

Section unlinking.
Context (d : disk) (Hfs : fs_ok d) (p b0 : Z) (Hp : live d p) (Hb0 : pointers d p !! 0%nat = Some b0) (Hnz : b0 <> 0).
Context (leaf : bytes) (Hwf : dir_wf DIR_FUEL (d b0) 0) (t ft : Z) (Hfind : find_in (entries (d b0) 0) leaf = Some (t, ft)).
Context (Ht : live d t) (Htp : t <> p).

(** [d'] is [d] without the entry, the inode and its blocks. *)
Record unlinks (d' : disk) : Prop := {
  un_disk : disk_ok d';
  un_table j : 1 <= j <= NUM_INODES -> read_inode d' j = read_inode d j;
  un_live j : live d' j <-> live d j /\ j <> t;
  un_used j : 1 <= j -> used_block d' j = used_block d j && bool_decide (j ∉ pointers d t);
  un_rest m : 9 <= m <= 64 -> m <> b0 -> d' m = d m;
  un_entry : exists l r, entries (d b0) 0 = l ++ (t, ft, leaf) :: r /\ (forall e, e ∈ l -> e.2 <> leaf) /\ entries (d' b0) 0 = l ++ r }.

Lemma remove_entry_run : exists b', remove_dir_entry (d b0) leaf = Some (b', Some t) /\ block_ok b' /\
  exists l r, entries (d b0) 0 = l ++ (t, ft, leaf) :: r /\ (forall e, e ∈ l -> e.2 <> leaf) /\ entries b' 0 = l ++ r.
Proof using All.
  destruct (remove_dir_loop_spec (d b0) leaf (fs_blocks d Hfs b0) DIR_FUEL None 0 0 []) as (b' & r & He & Hb' & _ & Hrem);
    [by apply dir_fuel_ok; lia|done|done|]. fold (remove_dir_entry (d b0) leaf) in He. destruct r as [ino|].
  - destruct Hrem as (l & ty & rr & E1 & Hl & E2). rewrite E1 in Hfind. unfold find_in in Hfind. rewrite filter_app, filter_cons_True in Hfind by done.
    assert (filter (fun e : Z * Z * bytes => e.2 = leaf) l = []) as Hnil.
    { destruct (filter _ l) as [|e es] eqn:Hfl; [done|]. exfalso.
      assert (e ∈ filter (fun e : Z * Z * bytes => e.2 = leaf) l) as Hin by (rewrite Hfl; apply list_elem_of_here).
      apply list_elem_of_filter in Hin as [Hn Hin]. by apply (Hl e). }
    rewrite Hnil in Hfind. cbn in Hfind. injection Hfind as -> ->.
    exists b'. split_and!; [done|done|]. exists l, rr. done.
  - exfalso. destruct Hrem as [_ Hn]. apply (Hn (t, ft, leaf)); [exact (find_in_elem _ _ _ Hfind)|done].
Qed.

Lemma unlink_file_run : exists d', unlink_file d p leaf = Some (d', true) /\ unlinks d'.
Proof using All.
  pose proof (fs_blocks d Hfs) as Hd. destruct (fs_used d Hfs p 0 b0 Hp Hb0 Hnz) as [Hb0r _]. pose proof (proj1 Ht) as Htr. unfold NUM_INODES in Htr.
  unfold unlink_file, ext2_read_block. destruct (disk_inode d p Hd (proj1 Hp)) as (info & Hri & _). rewrite Hri, bind_Some.
  destruct (read_inode_pointers _ _ _ Hri) as [Hpp _]. rewrite <- Hpp, Hb0, bind_Some.
  destruct remove_entry_run as (b' & -> & Hb' & l & r & He1 & Hl & He2). rewrite bind_Some.
  set (d1 := ext2_write_block d b0 b'). assert (disk_ok d1) as Hd1 by (by apply write_block_ok).
  assert (forall n, n <= 8 -> d1 n = d n) as Hlow by (intros n Hn; apply write_block_ne; lia).
  assert (read_inode d1 t = read_inode d t) as -> by (apply read_inode_ext; [intros n Hn; apply Hlow; lia|apply Ht]).
  destruct (disk_inode d t Hd (proj1 Ht)) as (ti & Hti & _). rewrite Hti, bind_Some. destruct (read_inode_pointers _ _ _ Hti) as [Htp' _].
  destruct (free_blocks_spec (d1 BLOCK_BITMAP_BLOCK) (direct_blocks ti)) as (bm & k & -> & Hbm & Hbit); [apply Hd1| |].
  { apply Forall_forall. intros x [m Hm]%list_elem_of_lookup. rewrite <- Htp' in Hm. destruct (decide (x = 0)) as [|Hx]; [by left|right].
    pose proof (fs_used d Hfs t m x Ht Hm Hx). lia. }
  destruct (Hd1 INODE_BITMAP_BLOCK) as [Hil Hiby].
  destruct (free_id_spec (d1 INODE_BITMAP_BLOCK) t Hiby ltac:(lia)) as (Hl1 & Hby1 & Hibit); [rewrite Hil; unfold BLOCK_SIZE; lia|].
  destruct (commit_new d1 bm (free_inode (d1 INODE_BITMAP_BLOCK) t) k 1 (if negb (Z.land (mode ti) S_IFDIR =? 0) then -1 else 0))
    as (d' & Hc & Hd' & Hs & HB & HI); [done|done|split; [exact (eq_trans Hl1 Hil)|exact Hby1]|].
  rewrite Hc, bind_Some. exists d'. split; [done|]. constructor.
  - done.
  - intros j Hj. apply read_inode_ext; [|done]. intros n Hn. rewrite Hs by lia. apply Hlow. lia.
  - intros j. unfold live. rewrite HI. unfold free_inode. split.
    + intros [Hj Hu]. rewrite Hibit in Hu by (unfold NUM_INODES in Hj; lia). destruct (Z.eqb_spec (j - 1) (t - 1)); [done|].
      unfold INODE_BITMAP_BLOCK in *. rewrite Hlow in Hu by lia. split; [done|]. lia.
    + intros [[Hj Hu] Hne]. split; [done|]. rewrite Hibit by (unfold NUM_INODES in Hj; lia). destruct (Z.eqb_spec (j - 1) (t - 1)); [lia|].
      unfold INODE_BITMAP_BLOCK in *. by rewrite Hlow by lia.
  - intros j Hj. unfold used_block. rewrite HB, Hbit, Htp' by done. unfold BLOCK_BITMAP_BLOCK. by rewrite Hlow by lia.
  - intros m Hm Hne. rewrite Hs by lia. by apply write_block_ne.
  - exists l, r. split_and!; [done|done|]. rewrite Hs by lia. unfold d1. by rewrite write_block_eq.
Qed.

Lemma unlinks_fs_ok d' : unlinks d' -> fs_ok d'.
Proof using All.
  intros Hu. assert (forall j, live d j -> pointers d' j = pointers d j) as Hptr.
  { intros j Hj. apply pointers_ext, (un_table d' Hu), Hj. }
  constructor; [apply Hu| |].
  - intros j k x [Hj Hne]%(un_live d' Hu) Hk Hx. rewrite Hptr in Hk by done. destruct (fs_used d Hfs j k x Hj Hk Hx) as [Hr Hus].
    split; [done|]. rewrite (un_used d' Hu), Hus by lia. apply andb_true_iff. split; [done|]. apply bool_decide_eq_true_2.
    intros [m Hm]%list_elem_of_lookup. apply Hne. by apply (fs_owner d Hfs j t k m x).
  - intros i j k l x [Hi _]%(un_live d' Hu) [Hj _]%(un_live d' Hu). rewrite !Hptr by done. by apply (fs_owner d Hfs).
Qed.

Lemma unlinks_others d' j : unlinks d' -> live d j -> j <> p -> same_content d d' j.
Proof using All.
  intros Hu Hj Hne. destruct (pointers_ext d d' j (un_table d' Hu j (proj1 Hj))) as [H1 H2]. apply same_content_intro; [done..|].
  intros k x Hk Hx. apply (un_rest d' Hu); [by apply (fs_used d Hfs j k x)|]. intros ->. apply Hne. by apply (fs_owner d Hfs j p k 0 b0).
Qed.
End unlinking.

(** Removing a file.  A request to remove a name of a directory, for an inode in
    use other than the directory itself, replies 1; the directory then lists exactly
    its other entries, in order; the inode and exactly its blocks are free again;
    every other file but the directory is untouched and the disk is consistent. *)
Theorem unlink_exact junk junk4 d id x path rest parent leaf p b0 t ft :
  fs_ok d -> tree_ok d -> 0 <= id < 2 ^ 32 -> 0 <= x <= NUM_INODES ->
  (length path <= 4096)%nat -> utf8_valid (length path) path = true ->
  split_parent_and_basename path = (parent, leaf) -> leaf <> [] ->
  driver_resolve_path d parent = Some (Some (p, FT_DIR)) -> pointers d p !! 0%nat = Some b0 -> b0 <> 0 ->
  dir_wf DIR_FUEL (d b0) 0 -> find_in (entries (d b0) 0) leaf = Some (t, ft) -> live d t -> t <> p ->
  exists d', serve junk junk4 d (request_word id FS_OP_UNLINK x) (data_word 0 (Z.of_nat (length path))) (path ++ rest) =
      Some (d', Some (mkReply (Some [1]) 1)) /\
    fs_ok d' /\ (forall j, live d' j <-> live d j /\ j <> t) /\
    (forall j, 1 <= j -> used_block d' j = used_block d j && bool_decide (j ∉ pointers d t)) /\
    (exists l r, entries (d b0) 0 = l ++ (t, ft, leaf) :: r /\ (forall e, e ∈ l -> e.2 <> leaf) /\ entries (d' b0) 0 = l ++ r) /\
    (forall j, live d j -> j <> p -> same_content d d' j).
Proof.
  intros Hfs Htree Hid Hx Hlen Hutf Hs Hne Hpar Hb0 Hnz Hwf Hf Ht Htp.
  assert (directory d p) as Hdir.
  { unfold driver_resolve_path, resolve_path in Hpar. eapply resolve_directory; [apply Hfs| |exact Hpar]. intros _. constructor. }
  pose proof (Htree p Hdir) as Hp. assert (p <> 0) as Hp0 by (destruct Hp; lia).
  rewrite serve_unlink_word by done. unfold serve_unlink. rewrite fetched_path_ok, bind_Some, Hs by (done || lia).
  rewrite (parent_inode_ok d parent p Hpar), bind_Some, (proj2 (Z.eqb_neq p 0)), bool_decide_false by done. cbn [negb andb].
  destruct (unlink_file_run d Hfs p b0 Hp Hb0 Hnz leaf Hwf t ft Hf Ht Htp) as (d' & -> & Hu). cbn [mbind option_bind].
  exists d'. split; [done|]. split; [exact (unlinks_fs_ok d Hfs p b0 Hp Hb0 Hnz leaf Hwf t ft Hf Ht Htp d' Hu)|].
  split_and!; [apply Hu|apply Hu|apply Hu|].
  intros j Hj Hjp. exact (unlinks_others d Hfs p b0 Hp Hb0 Hnz leaf Hwf t ft Hf Ht Htp d' j Hu Hj Hjp).
Qed.

(** ** Formatting *)

(** Only the length of the uninitialised block matters. *)
Lemma format_writes_eq junk : length junk = BLOCK_SIZE -> format_writes junk = format_writes really_zero.
Proof.
  intros Hl. assert (vzero junk = vzero really_zero) as Hv by (unfold vzero, really_zero; by rewrite Hl, length_replicate).
  unfold format_writes, build_group_desc, build_root_dir_block, build_file_data_block, build_superblock. by rewrite Hv.
Qed.

Definition FORMATTED : list (Z * bytes) := Eval vm_compute in default [] (format_writes really_zero).

Lemma format_writes_run junk : length junk = BLOCK_SIZE -> format_writes junk = Some FORMATTED.
Proof. intros Hl. rewrite format_writes_eq by done. vm_compute. reflexivity. Qed.

(** The superblock is the last of the ten. *)
Lemma formatted_order : length FORMATTED = 10%nat /\ FORMATTED.*1 = [2; 3; 4; 5; 6; 7; 8; 9; 10; 1].
Proof. vm_compute. done. Qed.

Lemma write_all_other d ws n : n ∉ ws.*1 -> write_all d ws n = d n.
Proof.
  revert d. induction ws as [|[m b] ws IH]; intros d Hn; [done|]. cbn [fmap list_fmap fst] in Hn. apply not_elem_of_cons in Hn as [H1 H2].
  unfold write_all. cbn [foldl fst snd]. fold (write_all (ext2_write_block d m b) ws). rewrite IH by done. by apply write_block_ne.
Qed.

Lemma write_all_app d ws ws' : write_all d (ws ++ ws') = write_all (write_all d ws) ws'.
Proof. unfold write_all. apply foldl_app. Qed.

(** What formatting leaves in its ten blocks does not depend on what was there. *)
Lemma write_all_same ws : forall d d' n, n ∈ ws.*1 -> write_all d ws n = write_all d' ws n.
Proof.
  induction ws as [|[m b] ws IH] using rev_ind; intros d d' n Hn; [by apply not_elem_of_nil in Hn|].
  rewrite !write_all_app. unfold write_all at 1 3. cbn [foldl fst snd]. destruct (decide (n = m)) as [->|Hne]; [by rewrite !write_block_eq|].
  rewrite !write_block_ne by done. apply IH. rewrite fmap_app in Hn. apply elem_of_app in Hn as [|Hn]; [done|].
  apply list_elem_of_singleton in Hn. done.
Qed.

Section format.
Context (d : disk).
Let D := write_all d FORMATTED.

Lemma formatted_inodes : pointers D <$> range 1 33 =
  (fun i => (if i =? 2 then 9 else if i =? 11 then 10 else 0) :: replicate 11 0) <$> range 1 33.
Proof using Type. vm_compute. reflexivity. Qed.

Lemma formatted_pointers i : 1 <= i <= NUM_INODES ->
  pointers D i = (if i =? 2 then 9 else if i =? 11 then 10 else 0) :: replicate 11 0.
Proof using Type.
  intros Hi. pose proof (f_equal (fun l => l !! Z.to_nat (i - 1)) formatted_inodes) as H. cbv beta in H.
  assert (range 1 33 !! Z.to_nat (i - 1) = Some i) as Hr.
  { unfold range. rewrite list_lookup_fmap, lookup_seq_lt by (unfold NUM_INODES in Hi; lia). cbn. f_equal. lia. }
  rewrite !list_lookup_fmap, Hr in H. by injection H.
Qed.

Lemma formatted_bits i : live D i -> 1 <= i <= 11.
Proof using Type.
  intros [Hi Hb]. unfold NUM_INODES in Hi. assert (forallb (fun j => negb (bit (D INODE_BITMAP_BLOCK) (j - 1))) (range 12 33) = true) as Hf
    by (vm_compute; reflexivity).
  destruct (decide (i <= 11)) as [|Hgt]; [lia|]. rewrite forallb_forall in Hf.
  specialize (Hf i). rewrite Hb in Hf. discriminate Hf. apply list_elem_of_In, elem_of_range. lia.
Qed.

Lemma formatted_ok : disk_ok d -> fs_ok D.
Proof using Type.
  intros Hd. constructor.
  - intros n. destruct (decide (n ∈ FORMATTED.*1)) as [Hin|Hout]; [|unfold D; by rewrite write_all_other].
    unfold D. rewrite (write_all_same FORMATTED d (fun _ => really_zero) n Hin). apply Ext2Witness.block_okb_ok.
    assert (forallb (fun n => Ext2Witness.block_okb (write_all (fun _ => really_zero) FORMATTED n)) FORMATTED.*1 = true) as Hf
      by (vm_compute; reflexivity).
    rewrite forallb_forall in Hf. by apply Hf, list_elem_of_In.
  - intros i k b Hl Hk Hb. rewrite formatted_pointers in Hk by apply Hl. destruct k as [|k]; [|change (replicate 11 0 !! k = Some b) in Hk;
      by apply lookup_replicate in Hk as [-> _]]. injection Hk as <-.
    destruct (i =? 2); [split; [lia|vm_compute; reflexivity]|]. destruct (i =? 11); [split; [lia|vm_compute; reflexivity]|done].
  - intros i j k l b Hi Hj Hk Hl Hb. rewrite formatted_pointers in Hk by apply Hi. rewrite formatted_pointers in Hl by apply Hj.
    destruct k as [|k]; [|change (replicate 11 0 !! k = Some b) in Hk; by apply lookup_replicate in Hk as [-> _]].
    destruct l as [|l]; [|change (replicate 11 0 !! l = Some b) in Hl; by apply lookup_replicate in Hl as [-> _]].
    injection Hk as Hk. injection Hl as Hl. destruct (Z.eqb_spec i 2), (Z.eqb_spec i 11), (Z.eqb_spec j 2), (Z.eqb_spec j 11); try lia; split; lia || done.
Qed.

Lemma formatted_root : entries (D 9) 0 = [(2, FT_DIR, DOT); (2, FT_DIR, DOTDOT); (11, FT_REG, FILE_NAME)].
Proof using Type. vm_compute. reflexivity. Qed.

Lemma formatted_tree : tree_ok D.
Proof using Type.
  intros i Hi. assert (i = 2) as ->; [|split; [unfold NUM_INODES; lia|vm_compute; reflexivity]].
  induction Hi as [|i j b0 name _ -> Hb Hnz Hin]; [done|]. rewrite formatted_pointers in Hb by (unfold NUM_INODES; lia). injection Hb as <-.
  rewrite formatted_root in Hin. repeat (apply elem_of_cons in Hin as [[= -> _]|Hin]; [done|]).
  apply elem_of_cons in Hin as [[=]|Hin]. by apply not_elem_of_nil in Hin.
Qed.

(** The self-check reads the greeting back. *)
Lemma formatted_check junk d' : length junk = BLOCK_SIZE -> (forall n, n ∈ FORMATTED.*1 -> d' n = D n) ->
  is_formatted (d' SUPERBLOCK_BLOCK) = Some true /\ run_filesystem_proof junk d' = Some (d', true).
Proof using Type.
  intros Hj Hs. assert (d' SUPERBLOCK_BLOCK = D SUPERBLOCK_BLOCK) as H1 by (apply Hs; vm_compute; set_solver).
  assert (d' (INODE_TABLE_START_BLOCK + 1) = D (INODE_TABLE_START_BLOCK + 1)) as H2 by (apply Hs; vm_compute; set_solver).
  assert (d' FILE_DATA_BLOCK = D FILE_DATA_BLOCK) as H3 by (apply Hs; vm_compute; set_solver).
  assert (is_formatted (D SUPERBLOCK_BLOCK) = Some true) as Hf by (vm_compute; reflexivity).
  split; [by rewrite H1|]. unfold run_filesystem_proof, ext2_read_block. rewrite H1, Hf, bind_Some, bind_Some, H2, H3.
  assert (ru32 (D (INODE_TABLE_START_BLOCK + 1)) (file_entry_index * 128 + 0x04) = Some (Z.of_nat (length FILE_CONTENT))) as Hsz
    by (vm_compute; reflexivity).
  unfold read_file_data. rewrite Hsz, bind_Some, Nat2Z.id, Hj.
  change (Nat.min (Nat.min (length FILE_CONTENT) BLOCK_SIZE) BLOCK_SIZE) with (length FILE_CONTENT).
  assert (rslice (D FILE_DATA_BLOCK) 0 (length FILE_CONTENT) = Some FILE_CONTENT) as -> by (vm_compute; reflexivity). rewrite bind_Some.
  unfold wslice. rewrite decide_True by (rewrite Hj; vm_compute; lia). cbn [mbind option_bind take app Nat.add].
  rewrite bool_decide_true; [done|]. split; [done|]. apply (take_app_length FILE_CONTENT).
Qed.
End format.

Lemma write_all_ok d ws : disk_ok d -> Forall (fun w => block_ok w.2) ws -> disk_ok (write_all d ws).
Proof.
  intros Hd Hw. revert d Hd. induction Hw as [|[n b] ws Hb _ IH]; intros d Hd; [done|].
  unfold write_all. cbn [foldl fst snd]. apply IH. by apply write_block_ok.
Qed.

Lemma FORMATTED_blocks : Forall (fun w => block_ok w.2) FORMATTED.
Proof.
  apply Forall_forall. intros w Hw. apply Ext2Witness.block_okb_ok.
  assert (forallb (fun w => Ext2Witness.block_okb w.2) FORMATTED = true) as Hf by (vm_compute; reflexivity).
  rewrite forallb_forall in Hf. by apply Hf, list_elem_of_In.
Qed.

Lemma run_unformatted junk e ws :
  is_formatted (e SUPERBLOCK_BLOCK) = Some false -> format_writes junk = Some ws ->
  is_formatted (write_all e ws SUPERBLOCK_BLOCK) = Some true ->
  run_filesystem_proof junk e = run_filesystem_proof junk (write_all e ws).
Proof.
  intros H0 Hw H1. unfold run_filesystem_proof, ext2_read_block. rewrite H0, H1, !bind_Some, Hw, bind_Some. by rewrite bind_Some.
Qed.

(** Before the last write the superblock is untouched. *)
Lemma interrupted_superblock d k : (k < 10)%nat -> write_all d (take k FORMATTED) SUPERBLOCK_BLOCK = d SUPERBLOCK_BLOCK.
Proof.
  intros Hk. apply write_all_other. rewrite fmap_take, (proj2 formatted_order). unfold SUPERBLOCK_BLOCK.
  do 10 (destruct k as [|k]; [cbn; set_solver|]). lia.
Qed.

(** C38. Formatting survives a power cut.  The disk is formatted by ten block writes,
    the superblock last.  Cut after any number of them short of all, the disk does
    not claim to be formatted; and the next boot, whatever was interrupted and
    wherever, ends with the same ten blocks as an uninterrupted one, passes its
    self-check, and leaves a consistent filesystem and every other block alone. *)
Theorem format_crash_safe junk d :
  length junk = BLOCK_SIZE -> disk_ok d -> is_formatted (d SUPERBLOCK_BLOCK) = Some false ->
  exists ws, format_writes junk = Some ws /\ length ws = 10%nat /\
    (forall k, (k < length ws)%nat -> is_formatted (write_all d (take k ws) SUPERBLOCK_BLOCK) = Some false) /\
    (forall k, (k <= length ws)%nat -> exists d', run_filesystem_proof junk (write_all d (take k ws)) = Some (d', true) /\
       is_formatted (d' SUPERBLOCK_BLOCK) = Some true /\ fs_ok d' /\ tree_ok d' /\
       (forall n, n ∈ ws.*1 -> d' n = write_all d ws n) /\ (forall n, n ∉ ws.*1 -> d' n = d n)).
Proof.
  intros Hj Hd H0. exists FORMATTED. destruct formatted_order as [Hlen _].
  split; [by apply format_writes_run|]. split; [done|]. rewrite Hlen. split.
  - intros k Hk. by rewrite interrupted_superblock.
  - intros k Hk. destruct (decide (k = 10%nat)) as [->|Hne].
    + assert (take 10 FORMATTED = FORMATTED) as -> by (apply take_ge; rewrite Hlen; lia).
      exists (write_all d FORMATTED). destruct (formatted_check d junk (write_all d FORMATTED) Hj) as [H1 H2]; [done|].
      split_and!; [done|done|by apply formatted_ok|apply formatted_tree|done|]. intros n Hn. by apply write_all_other.
    + set (e := write_all d (take k FORMATTED)).
      assert (disk_ok e) as He by (apply write_all_ok; [done|apply Forall_take, FORMATTED_blocks]).
      assert (is_formatted (e SUPERBLOCK_BLOCK) = Some false) as He0 by (unfold e; by rewrite interrupted_superblock by lia).
      destruct (formatted_check e junk (write_all e FORMATTED) Hj) as [H1 H2]; [done|].
      exists (write_all e FORMATTED). rewrite (run_unformatted junk e FORMATTED He0 (format_writes_run junk Hj) H1).
      split_and!; [done|done|by apply formatted_ok|apply formatted_tree|by intros n Hn; apply write_all_same|].
      intros n Hn. rewrite write_all_other by done. unfold e. apply write_all_other. rewrite fmap_take.
      intros Hin. apply Hn. rewrite <- (take_drop k (FORMATTED.*1)). apply elem_of_app. by left.
Qed.

(** ** Witnesses *)

Module FilesWitness.

(** A blank disk, formatted, and uninitialised memory that is not zero. *)
Abbreviation blank := (fun _ : Z => really_zero) (only parsing).
Definition fresh : disk := write_all blank FORMATTED.
Definition garbage : bytes := Eval vm_compute in replicate BLOCK_SIZE 0xAA.
Definition garbage4 : bytes := Eval vm_compute in replicate 4096 0xAA.

Lemma garbage_ok : block_ok garbage.
Proof. apply Ext2Witness.block_okb_ok. vm_compute. reflexivity. Qed.

Lemma blank_ok : disk_ok blank.
Proof. intros n. apply Ext2Witness.block_okb_ok. vm_compute. reflexivity. Qed.

Lemma fresh_ok : fs_ok fresh.
Proof. apply formatted_ok, blank_ok. Qed.

Lemma fresh_tree : tree_ok fresh.
Proof. apply formatted_tree. Qed.

Lemma format_witness :
  exists ws, format_writes garbage = Some ws /\ length ws = 10%nat /\
    (forall k, (k < length ws)%nat -> is_formatted (write_all blank (take k ws) SUPERBLOCK_BLOCK) = Some false) /\
    (forall k, (k <= length ws)%nat -> exists d', run_filesystem_proof garbage (write_all blank (take k ws)) = Some (d', true) /\
       is_formatted (d' SUPERBLOCK_BLOCK) = Some true /\ fs_ok d' /\ tree_ok d' /\
       (forall n, n ∈ ws.*1 -> d' n = write_all blank ws n) /\ (forall n, n ∉ ws.*1 -> d' n = blank n)).
Proof. apply (format_crash_safe garbage blank); [apply garbage_ok|exact blank_ok|vm_compute; reflexivity]. Defined.

(** "/a" *)
Definition path_a : bytes := [47; 97].

Lemma files_name_a_ok : name_ok [97].
Proof. split; [cbn; lia|]. apply Forall_cons_2; [red; lia|apply Forall_nil_2]. Qed.

Lemma create_witness :
  exists d' i, serve garbage garbage4 fresh (request_word 1 FS_OP_CREATE 0) (data_word 0 (Z.of_nat (length path_a))) (path_a ++ []) =
      Some (d', Some (inode_reply i)) /\
    created fresh path_a 2 d' FT_REG 0 i.
Proof.
  apply (create_then_lookup garbage garbage4 fresh 1 0 path_a [] [] [97] 2 9);
    [exact garbage_ok|exact fresh_ok|exact fresh_tree|lia|unfold NUM_INODES; lia|cbn; lia|reflexivity|reflexivity|exact files_name_a_ok|
     vm_compute; reflexivity|vm_compute; reflexivity|lia|vm_compute; reflexivity].
Defined.

Lemma mkdir_witness :
  exists d' i, serve garbage garbage4 fresh (request_word 1 FS_OP_MKDIR 0) (data_word 0 (Z.of_nat (length path_a))) (path_a ++ []) =
      Some (d', Some (inode_reply i)) /\
    created fresh path_a 2 d' FT_DIR BLOCK_SIZE i /\
    (i <> 0 -> exists b, pointers d' i = b :: replicate 11 0 /\ b <> 0 /\
       entries (d' b) 0 = [(i, FT_DIR, DOT); (2, FT_DIR, DOTDOT)]).
Proof.
  apply (mkdir_then_lookup garbage garbage4 fresh 1 0 path_a [] [] [97] 2 9);
    [exact garbage_ok|exact fresh_ok|exact fresh_tree|lia|unfold NUM_INODES; lia|cbn; lia|reflexivity|reflexivity|exact files_name_a_ok|
     vm_compute; reflexivity|vm_compute; reflexivity|lia|vm_compute; reflexivity].
Defined.

Definition greeting_path : bytes := slash :: FILE_NAME.

Lemma unlink_witness :
  exists d', serve garbage garbage4 fresh (request_word 1 FS_OP_UNLINK 0) (data_word 0 (Z.of_nat (length greeting_path))) (greeting_path ++ []) =
      Some (d', Some (mkReply (Some [1]) 1)) /\
    fs_ok d' /\ (forall j, live d' j <-> live fresh j /\ j <> 11) /\
    (forall j, 1 <= j -> used_block d' j = used_block fresh j && bool_decide (j ∉ pointers fresh 11)) /\
    (exists l r, entries (fresh 9) 0 = l ++ (11, FT_REG, FILE_NAME) :: r /\ (forall e, e ∈ l -> e.2 <> FILE_NAME) /\ entries (d' 9) 0 = l ++ r) /\
    (forall j, live fresh j -> j <> 2 -> same_content fresh d' j).
Proof.
  apply (unlink_exact garbage garbage4 fresh 1 0 greeting_path [] [] FILE_NAME 2 9 11 FT_REG);
    [exact fresh_ok|exact fresh_tree|lia|unfold NUM_INODES; lia|vm_compute; lia|reflexivity|reflexivity|done|
     vm_compute; reflexivity|vm_compute; reflexivity|lia| |vm_compute; reflexivity| |lia].
  - change DIR_FUEL with (4 + 125)%nat. generalize 125%nat. intros f. vm_compute. repeat split; intros; try lia; by destruct f.
  - split; [unfold NUM_INODES; lia|vm_compute; reflexivity].
Defined.

(** "hi" at the end of the greeting. *)
Definition hi : bytes := [104; 105].

Lemma hi_ok : all_bytes hi.
Proof. repeat (apply Forall_cons_2; [red; lia|]). apply Forall_nil_2. Qed.

Lemma fresh_dense : dense (pointers fresh 11) (file_size fresh 11).
Proof.
  assert (file_size fresh 11 = 35%nat) as -> by (vm_compute; reflexivity).
  assert (pointers fresh 11 = 10 :: replicate 11 0) as -> by (vm_compute; reflexivity).
  intros k Hk. assert (k = 0%nat) as -> by (unfold BLOCK_SIZE in Hk; lia). by exists 10.
Qed.

Lemma fresh_live11 : live fresh 11.
Proof. split; [unfold NUM_INODES; lia|vm_compute; reflexivity]. Qed.

Lemma write_witness :
  exists d' w,
    serve garbage garbage4 fresh (request_word 1 128 11) (data_word (Z.of_nat 35) (Z.of_nat (length hi))) (hi ++ []) =
      Some (d', Some (mkReply None (Z.of_nat w))) /\
    fs_ok d' /\ (forall j, live d' j <-> live fresh j) /\ (w <= length hi)%nat /\ stopped 35 hi d' w /\
    file_size d' 11 = Nat.max (35 + w) (file_size fresh 11) /\ dense (pointers d' 11) (file_size d' 11) /\
    (forall i, file_byte d' 11 i =
       if decide (35 <= i < 35 + w)%nat then hi !! (i - 35)%nat else file_byte fresh 11 i) /\
    (forall j, live fresh j -> j <> 11 -> same_file fresh d' j).
Proof.
  apply (write_request_exact garbage garbage4 fresh 1 11 35 hi []);
    [exact garbage_ok|exact fresh_ok|exact fresh_live11|lia|exact fresh_dense| |exact hi_ok|cbn; lia].
  assert (file_size fresh 11 = 35%nat) as -> by (vm_compute; reflexivity). lia.
Defined.

Abbreviation written_disk := (default (fresh, None)
  (serve garbage garbage4 fresh (request_word 1 128 11) (data_word (Z.of_nat 35) (Z.of_nat (length hi))) (hi ++ []))).1 (only parsing).

Lemma written_run :
  serve garbage garbage4 fresh (request_word 1 128 11) (data_word (Z.of_nat 35) (Z.of_nat (length hi))) (hi ++ []) =
    Some (written_disk, Some (mkReply None (Z.of_nat (length hi)))).
Proof. vm_compute. reflexivity. Qed.

Lemma write_read_witness :
  exists out n,
    serve garbage garbage4 written_disk (request_word 2 0 11) 0 [] = Some (written_disk, Some (mkReply (Some out) (Z.of_nat n))) /\
    n = Nat.min (Nat.max (35 + length hi) (file_size fresh 11)) 4096 /\
    (forall i, (i < n)%nat -> out !! i =
       if decide (35 <= i < 35 + length hi)%nat then hi !! (i - 35)%nat else file_byte fresh 11 i) /\
    ((35 + length hi <= 4096)%nat -> take (length hi) (drop 35 out) = hi) /\
    dense (pointers written_disk 11) (file_size written_disk 11).
Proof.
  refine (write_then_read garbage garbage4 fresh 1 2 11 35 hi [] 0 [] written_disk garbage_ok eq_refl fresh_ok fresh_live11 _ _ fresh_dense _ hi_ok _ written_run);
    [lia|lia| |cbn; lia].
  assert (file_size fresh 11 = 35%nat) as -> by (vm_compute; reflexivity). lia.
Defined.

Lemma write_far_witness :
  serve garbage garbage4 fresh (request_word 1 128 11) (data_word (Z.of_nat (12 * BLOCK_SIZE + 1)) (Z.of_nat (length hi))) (hi ++ []) = None.
Proof.
  apply (write_far_panics garbage garbage4 fresh 1 11 (12 * BLOCK_SIZE + 1) hi []);
    [apply fresh_ok|unfold NUM_INODES; lia|lia|lia|unfold BLOCK_SIZE; lia|cbn; lia].
Defined.

(** *** Requests that do not do what they should *)

Definition after (r : option (disk * option FileReply)) : disk := (default (fresh, None) r).1.
Definition reply (r : option (disk * option FileReply)) : option FileReply := (default (fresh, None) r).2.
Definition request (d : disk) (payload ino : Z) (off : Z) (data : bytes) : option (disk * option FileReply) :=
  serve garbage garbage4 d (request_word 1 payload ino) (data_word off (Z.of_nat (length data))) data.

(** "/d", "/d/." and "/x" *)
Definition path_d : bytes := [47; 100].
Definition path_d_dot : bytes := [47; 100; 47; 46].
Definition path_x : bytes := [47; 120].

(** Removing "." frees a directory that is still there.  On a fresh disk, make
    /d, remove /d/. (the reply is 1), and create /x: /x gets the inode and the block
    of /d, so that one inode is a directory under one name and a regular file under
    the other. *)
Theorem unlink_dot_frees_directory :
  let d1 := after (request fresh FS_OP_MKDIR 0 0 path_d) in
  let d2 := after (request d1 FS_OP_UNLINK 0 0 path_d_dot) in
  let d3 := after (request d2 FS_OP_CREATE 0 0 path_x) in
  reply (request fresh FS_OP_MKDIR 0 0 path_d) = Some (inode_reply 12) /\
  reply (request d1 FS_OP_UNLINK 0 0 path_d_dot) = Some (mkReply (Some [1]) 1) /\
  reply (request d2 FS_OP_CREATE 0 0 path_x) = Some (inode_reply 12) /\
  driver_resolve_path d3 path_d = Some (Some (12, FT_DIR)) /\ driver_resolve_path d3 path_x = Some (Some (12, FT_REG)).
Proof. vm_compute. done. Qed.

(** A name of 256 bytes is created and cannot be found: its length is stored in one byte, as 0. *)
Definition path_long : bytes := 47 :: replicate 256 97.

Theorem create_long_name_lost :
  let d1 := after (request fresh FS_OP_CREATE 0 0 path_long) in
  reply (request fresh FS_OP_CREATE 0 0 path_long) = Some (inode_reply 12) /\ driver_resolve_path d1 path_long = Some None.
Proof. vm_compute. done. Qed.

(** Creating a name twice succeeds twice; the second file cannot be reached. *)
Theorem create_duplicate :
  let d1 := after (request fresh FS_OP_CREATE 0 0 path_x) in
  let d2 := after (request d1 FS_OP_CREATE 0 0 path_x) in
  reply (request fresh FS_OP_CREATE 0 0 path_x) = Some (inode_reply 12) /\
  reply (request d1 FS_OP_CREATE 0 0 path_x) = Some (inode_reply 13) /\
  driver_resolve_path d2 path_x = Some (Some (12, FT_REG)).
Proof. vm_compute. done. Qed.

(** A new file's block holds the driver's uninitialised memory: writing one byte at
    offset 4 of a new file makes the four bytes before it readable. *)
Theorem hole_reads_uninitialised :
  let d1 := after (request fresh FS_OP_CREATE 0 0 path_x) in
  let d2 := after (request d1 128 12 4 [7]) in
  exists out, reply (request d2 0 12 0 []) = Some (mkReply (Some out) 5) /\ take 5 out = [0xAA; 0xAA; 0xAA; 0xAA; 7].
Proof. eexists. split; vm_compute; reflexivity. Qed.
End FilesWitness.
