(* ===== verification/Gdt.v ===== *)
(** * Segment descriptors, task state and the port permission bitmap

    [kernel_rs/src/gdt.rs]: the per-CPU descriptor table as the bytes the
    processor reads, the task state segment with its privileged stack pointer
    and its I/O permission bitmap, and the bitmap operations the scheduler and
    the driver layer use to give one thread access to one port. *)

From S2P Require Import Prelude Bits.

Definition GDT_ENTRIES : nat := 7.
Definition IOPB_PORTS : Z := 1024.
Definition IOPB_BYTES : nat := Z.to_nat (IOPB_PORTS / 8 + 1).

(** The fields of the packed [Tss] that are not reserved. *)
Record Tss := mkTss { rsp0 : Z; ist : list Z; iomap_base : Z; tss_iopb : bytes }.

Definition TSS_ZERO : Tss := mkTss 0 (replicate 7 0) 0 (replicate IOPB_BYTES 0xFF).

(** ** Port permission bits *)

Definition allow_port_bits (bitmap : bytes) (port : Z) : option bytes :=
  if IOPB_PORTS <=? port then Some bitmap else bitmap_clear bitmap port.

Definition deny_port_bits (bitmap : bytes) (port : Z) : option bytes :=
  if IOPB_PORTS <=? port then Some bitmap else bitmap_set bitmap port.

Definition is_port_allowed (bitmap : bytes) (port : Z) : option bool :=
  if IOPB_PORTS <=? port then Some false else
  denied ← bitmap_test bitmap port; Some (negb denied).

Definition set_iopb (bitmap : bytes) (t : Tss) : Tss := mkTss (rsp0 t) (ist t) (iomap_base t) bitmap.
Definition gdt_set_kernel_stack (rsp : Z) (t : Tss) : Tss := mkTss rsp (ist t) (iomap_base t) (tss_iopb t).

(** ** Descriptors *)

Definition gdt_set_entry (gdt : bytes) (index : nat) (base limit access flags : Z) : option bytes :=
  let e := (8 * index)%nat in
  gdt ← wle 2 gdt (e + 2) (Z.land base 0xFFFF);
  gdt ← wle 1 gdt (e + 4) (Z.land (Z.shiftr base 16) 0xFF);
  gdt ← wle 1 gdt (e + 7) (Z.land (Z.shiftr base 24) 0xFF);
  gdt ← wle 2 gdt e (Z.land limit 0xFFFF);
  gdt ← wle 1 gdt (e + 6) (Z.lor (Z.land (Z.shiftr limit 16) 0x0F) (Z.land flags 0xF0));
  wle 1 gdt (e + 5) access.

Definition set_tss_entry (gdt : bytes) (index : nat) (base limit : Z) : option bytes :=
  let low := (8 * index)%nat in
  let base32 := u32 base in
  let base_high32 := Z.shiftr base 32 in
  gdt ← wle 2 gdt low (Z.land limit 0xFFFF);
  gdt ← wle 2 gdt (low + 2) (Z.land base32 0xFFFF);
  gdt ← wle 1 gdt (low + 4) (Z.land (Z.shiftr base32 16) 0xFF);
  gdt ← wle 1 gdt (low + 5) 0x89;
  gdt ← wle 1 gdt (low + 6) (Z.lor (Z.land (Z.shiftr limit 16) 0x0F) 0x00);
  gdt ← wle 1 gdt (low + 7) (Z.land (Z.shiftr base32 24) 0xFF);
  gdt ← wle 4 gdt (low + 8) base_high32;
  wle 4 gdt (low + 12) 0.

Definition USER_DATA_SELECTOR : Z := Z.lor (Z.shiftl 5 3) 3.
Definition USER_CODE_SELECTOR : Z := Z.lor (Z.shiftl 6 3) 3.
Definition DOUBLE_FAULT_STACK_SIZE : Z := 16 * 1024.

(** The size of the packed [Tss] and the offset of its last field. *)
Definition TSS_SIZE : Z := 104 + Z.of_nat IOPB_BYTES.
Definition TSS_IOPB_OFFSET : Z := 104.

(** [tss_base] and [df_stack] are the addresses of this CPU's task state
    segment and double-fault stack. *)
Definition init_for_cpu (tss_base df_stack : Z) (gdt : bytes) (t : Tss) : option (bytes * Tss) :=
  gdt ← gdt_set_entry gdt 0 0 0 0 0;
  gdt ← gdt_set_entry gdt 1 0 0xFFFFF 0x9A 0xA0;
  gdt ← gdt_set_entry gdt 2 0 0xFFFFF 0x92 0x80;
  gdt ← gdt_set_entry gdt 5 0 0xFFFFF 0xF2 0x80;
  gdt ← gdt_set_entry gdt 6 0 0xFFFFF 0xFA 0xA0;
  let df_stack_top := u64 (df_stack + DOUBLE_FAULT_STACK_SIZE) in
  let iopb_addr := u64 (tss_base + TSS_IOPB_OFFSET) in
  let t := mkTss (rsp0 t) (<[0%nat := df_stack_top]> (ist t)) (u16 (u64 (iopb_addr - tss_base))) (tss_iopb t) in
  gdt ← set_tss_entry gdt 3 tss_base (TSS_SIZE - 1);
  Some (gdt, t).

(** ** What the processor reads

    The layout of a segment descriptor and of the 16-byte task-state
    descriptor, and the bitmap test of an [in]/[out] at privilege level 3, as the
    processor manual gives them. *)

Record descriptor := mkDesc { d_base : Z; d_limit : Z; d_access : Z; d_flags : Z }.

Definition read_descriptor (gdt : bytes) (selector : Z) : option descriptor :=
  let e := (8 * Z.to_nat (selector / 8))%nat in
  limit_low ← rle 2 gdt e; base_low ← rle 2 gdt (e + 2); base_mid ← rle 1 gdt (e + 4);
  access ← rle 1 gdt (e + 5); fl ← rle 1 gdt (e + 6); base_high ← rle 1 gdt (e + 7);
  Some (mkDesc (base_low + 2 ^ 16 * base_mid + 2 ^ 24 * base_high)
               (limit_low + 2 ^ 16 * (fl mod 16)) access (fl / 16)).

Definition read_tss_descriptor (gdt : bytes) (selector : Z) : option descriptor :=
  d ← read_descriptor gdt selector;
  upper ← rle 4 gdt (8 * Z.to_nat (selector / 8) + 8)%nat;
  Some (mkDesc (d_base d + 2 ^ 32 * upper) (d_limit d) (d_access d) (d_flags d)).

Definition dpl (d : descriptor) : Z := d_access d / 2 ^ 5 mod 4.
Definition rpl (selector : Z) : Z := selector mod 4.

(** ** Permission bits: lemmas *)

Record iopb_ok (b : bytes) : Prop := {
  iopb_length : length b = IOPB_BYTES;
  iopb_bytes : all_bytes b }.

Definition allowed (b : bytes) (port : Z) : bool := (port <? IOPB_PORTS) && negb (bit b port).

Lemma IOPB_BYTES_eq : IOPB_BYTES = 129%nat.
Proof. reflexivity. Qed.

Lemma iopb_room b i : iopb_ok b -> i < IOPB_PORTS -> i < 8 * Z.of_nat (length b).
Proof. intros [-> _] Hi. rewrite IOPB_BYTES_eq. unfold IOPB_PORTS in *. lia. Qed.

Lemma is_port_allowed_spec b p : iopb_ok b -> 0 <= p -> is_port_allowed b p = Some (allowed b p).
Proof.
  intros Hb Hp. unfold is_port_allowed, allowed. destruct (Z.ltb_spec p IOPB_PORTS).
  - rewrite (proj2 (Z.leb_gt IOPB_PORTS p)) by done.
    rewrite bitmap_test_bit by (try apply Hb; pose proof (iopb_room b p Hb); lia). done.
  - by rewrite (proj2 (Z.leb_le IOPB_PORTS p)).
Qed.

(** An update of the bitmap that gives one port the permission [v]. *)
Definition port_update (b : bytes) (p : Z) (v : bool) (b' : bytes) : Prop :=
  iopb_ok b' /\ forall q, 0 <= q -> allowed b' q = if (q =? p) && (p <? IOPB_PORTS) then v else allowed b q.

Lemma port_update_bit b p v b' :
  iopb_ok b -> 0 <= p < IOPB_PORTS -> update_bit b p (negb v) b' -> port_update b p v b'.
Proof.
  intros [Hl Hb] Hp (Hl' & Hb' & Hu). split; [split; [congruence|done]|].
  intros q Hq. unfold allowed. rewrite Hu by done.
  destruct (Z.eqb_spec q p) as [->|]; [|done].
  rewrite (proj2 (Z.ltb_lt p IOPB_PORTS)) by lia. simpl. apply negb_involutive.
Qed.

Lemma port_update_out b p v : iopb_ok b -> IOPB_PORTS <= p -> port_update b p v b.
Proof.
  intros Hb Hp. split; [done|]. intros q _. rewrite (proj2 (Z.ltb_ge p IOPB_PORTS)) by done.
  by rewrite andb_false_r.
Qed.

Lemma allow_port_spec b p :
  iopb_ok b -> 0 <= p -> exists b', allow_port_bits b p = Some b' /\ port_update b p true b'.
Proof.
  intros Hb Hp. unfold allow_port_bits. destruct (Z.leb_spec IOPB_PORTS p); [eauto using port_update_out|].
  destruct (bitmap_clear_spec b p) as (b' & ? & ?); [apply Hb|split; [done|by apply iopb_room]|].
  exists b'. split; [done|]. apply port_update_bit; done || lia.
Qed.

Lemma deny_port_spec b p :
  iopb_ok b -> 0 <= p -> exists b', deny_port_bits b p = Some b' /\ port_update b p false b'.
Proof.
  intros Hb Hp. unfold deny_port_bits. destruct (Z.leb_spec IOPB_PORTS p); [eauto using port_update_out|].
  destruct (bitmap_set_spec b p) as (b' & ? & ?); [apply Hb|split; [done|by apply iopb_room]|].
  exists b'. split; [done|]. apply port_update_bit; done || lia.
Qed.

Lemma denied_iopb_ok : iopb_ok (replicate IOPB_BYTES 0xFF).
Proof. split; [apply length_replicate|]. apply Forall_replicate. red. lia. Qed.

Lemma bit_denied p : 0 <= p < IOPB_PORTS -> bit (replicate IOPB_BYTES 0xFF) p = true.
Proof.
  intros Hp. unfold bit. rewrite lookup_replicate_2.
  - assert (0 <= p mod 8 < 8) as Hm by (apply Z.mod_pos_bound; lia). change 0xFF with (Z.ones 8).
    apply Z.ones_spec_low. lia.
  - rewrite IOPB_BYTES_eq. unfold IOPB_PORTS in *. assert (p / 8 < 129) by (apply Z.div_lt_upper_bound; lia). lia.
Qed.

Lemma allowed_denied p : 0 <= p -> allowed (replicate IOPB_BYTES 0xFF) p = false.
Proof.
  intros Hp. unfold allowed. destruct (Z.ltb_spec p IOPB_PORTS); [|done]. by rewrite bit_denied.
Qed.

(** ** Descriptors: lemmas *)

(** Splitting a 32-bit value into the byte fields of a descriptor loses
    nothing. *)
Lemma base_fields b : in_width 32 b ->
  Z.land b 0xFFFF + 2 ^ 16 * Z.land (Z.shiftr b 16) 0xFF + 2 ^ 24 * Z.land (Z.shiftr b 24) 0xFF = b.
Proof.
  intros [H0 Hb]. change 0xFFFF with (Z.ones 16). change 0xFF with (Z.ones 8).
  rewrite !Z.land_ones, !Z.shiftr_div_pow2 by lia.
  assert (b / 2 ^ 24 < 2 ^ 8) by (apply Z.div_lt_upper_bound; lia).
  assert (0 <= b / 2 ^ 24) by (apply Z.div_pos; lia).
  rewrite (Z.mod_small (b / 2 ^ 24)) by lia.
  assert (b / 2 ^ 24 = b / 2 ^ 16 / 2 ^ 8) as E by (rewrite Z.div_div by lia; done).
  rewrite E. pose proof (Z.div_mod b (2 ^ 16)). pose proof (Z.div_mod (b / 2 ^ 16) (2 ^ 8)). lia.
Qed.

Lemma rle_wle_ne n m b off v r off' :
  wle n b off v = Some r -> (off' + m <= off \/ off + n <= off')%nat -> rle m r off' = rle m b off'.
Proof. intros Hw Hd. apply (rle_wslice_ne m _ _ _ _ _ Hw). by rewrite length_le_bytes. Qed.

(** Run one field write of a chain, recording its length; read a field back
    through the later writes. *)
Ltac write_field :=
  match goal with
  | |- context [wle ?n ?b ?off ?v] =>
      let g := fresh "g" in let E := fresh "E" in
      destruct (wle_is_Some n b off v) as [g E]; [lia|];
      rewrite E; cbn [mbind option_bind]; pose proof (length_wle n _ _ _ _ E)
  end.
Ltac read_field :=
  repeat match goal with
  | E : wle _ _ _ _ = Some ?g |- context [rle _ ?g _] =>
      first [rewrite (rle_wle_eq _ _ _ _ _ E) by (red; lia) | rewrite (rle_wle_ne _ _ _ _ _ _ _ E) by lia]
  end.

Definition untouched (lo hi : nat) (b b' : bytes) : Prop :=
  length b' = length b /\
  forall n off, (off + n <= lo \/ hi <= off)%nat -> rle n b' off = rle n b off.

Lemma land_mask_range x k : 0 <= k -> 0 <= Z.land x (Z.ones k) < 2 ^ k.
Proof. intros. rewrite Z.land_ones by done. apply Z.mod_pos_bound. lia. Qed.

Lemma nibbles a f : 0 <= a < 16 -> 0 <= f < 16 -> Z.lor a (Z.land (16 * f) 0xF0) = a + 16 * f.
Proof.
  intros Ha Hf.
  assert (forallb (fun a => forallb (fun f => Z.lor a (Z.land (16 * f) 0xF0) =? a + 16 * f) (range 0 16)) (range 0 16) = true)
    as H by reflexivity.
  apply Z.eqb_eq.
  apply (proj1 (forallb_forall _ _) (proj1 (forallb_forall _ _) H a (proj1 (list_elem_of_In _ _) (proj2 (elem_of_range 0 16 a) Ha)))
           f (proj1 (list_elem_of_In _ _) (proj2 (elem_of_range 0 16 f) Hf))).
Qed.

Lemma high_limit limit : in_width 20 limit -> Z.land (Z.shiftr limit 16) 0x0F = limit / 2 ^ 16 /\ 0 <= limit / 2 ^ 16 < 16.
Proof.
  intros [H0 H]. change 0x0F with (Z.ones 4). rewrite Z.land_ones, Z.shiftr_div_pow2 by lia.
  assert (0 <= limit / 2 ^ 16 < 16) by (split; [apply Z.div_pos; lia|apply Z.div_lt_upper_bound; lia]).
  split; [apply Z.mod_small|]; done.
Qed.

(** The descriptor read from the fields a write chain stored. *)
Lemma descriptor_value base limit access hi f :
  in_width 32 base -> in_width 20 limit -> 0 <= f < 16 -> hi = limit / 2 ^ 16 + 16 * f ->
  mkDesc (Z.land base 0xFFFF + 2 ^ 16 * Z.land (Z.shiftr base 16) 0xFF + 2 ^ 24 * Z.land (Z.shiftr base 24) 0xFF)
         (Z.land limit 0xFFFF + 2 ^ 16 * (hi mod 16)) access (hi / 16) = mkDesc base limit access f.
Proof.
  intros Hb Hl Hf ->. rewrite (base_fields base Hb). pose proof (high_limit limit Hl) as [_ Hh].
  rewrite (Z.mul_comm 16 f), Z_mod_plus_full, Z.div_add by lia.
  rewrite (Z.mod_small (limit / 2 ^ 16)), (Z.div_small (limit / 2 ^ 16)) by done.
  change 0xFFFF with (Z.ones 16). rewrite Z.land_ones by lia.
  pose proof (Z.div_mod limit (2 ^ 16)). f_equal; lia.
Qed.

Lemma gdt_set_entry_spec b i base limit access f :
  (8 * i + 8 <= length b)%nat -> in_width 32 base -> in_width 20 limit -> in_width 8 access -> 0 <= f < 16 ->
  exists b', gdt_set_entry b i base limit access (16 * f) = Some b' /\
    untouched (8 * i) (8 * i + 8) b b' /\
    forall sel, Z.to_nat (sel / 8) = i -> read_descriptor b' sel = Some (mkDesc base limit access f).
Proof.
  intros Hl Hb Hlim [Ha1 Ha2] Hf. unfold gdt_set_entry.
  pose proof (land_mask_range base 16 ltac:(lia)) as H1.
  pose proof (land_mask_range (Z.shiftr base 16) 8 ltac:(lia)) as H2.
  pose proof (land_mask_range (Z.shiftr base 24) 8 ltac:(lia)) as H3.
  pose proof (land_mask_range limit 16 ltac:(lia)) as H4.
  destruct (high_limit limit Hlim) as [-> H5]. rewrite nibbles by done.
  change (Z.ones 16) with 0xFFFF in *. change (Z.ones 8) with 0xFF in *.
  do 6 write_field. exists g4. split_and!; [done| |].
  - split; [lia|]. intros n off Ho. read_field. done.
  - intros sel Hsel. unfold read_descriptor. rewrite Hsel. cbv zeta. read_field. cbn [mbind option_bind].
    f_equal. by apply descriptor_value.
Qed.

Lemma set_tss_entry_spec b i base limit :
  (8 * i + 16 <= length b)%nat -> in_width 64 base -> in_width 20 limit ->
  exists b', set_tss_entry b i base limit = Some b' /\
    untouched (8 * i) (8 * i + 16) b b' /\
    forall sel, Z.to_nat (sel / 8) = i -> read_tss_descriptor b' sel = Some (mkDesc base limit 0x89 0).
Proof.
  intros Hl [Hb1 Hb2] Hlim. unfold set_tss_entry.
  pose proof (wrap_range 32 base ltac:(lia)) as Hw. set (b32 := u32 base) in *.
  pose proof (land_mask_range b32 16 ltac:(lia)) as H1.
  pose proof (land_mask_range (Z.shiftr b32 16) 8 ltac:(lia)) as H2.
  pose proof (land_mask_range (Z.shiftr b32 24) 8 ltac:(lia)) as H3.
  pose proof (land_mask_range limit 16 ltac:(lia)) as H4.
  destruct (high_limit limit Hlim) as [-> H5]. rewrite Z.lor_0_r.
  change (Z.ones 16) with 0xFFFF in *. change (Z.ones 8) with 0xFF in *.
  assert (0 <= Z.shiftr base 32 < 2 ^ 32).
  { rewrite Z.shiftr_div_pow2 by lia. split; [apply Z.div_pos; lia|apply Z.div_lt_upper_bound; lia]. }
  do 8 write_field. exists g6. split_and!; [done| |].
  - split; [lia|]. intros n off Ho. read_field. done.
  - intros sel Hsel. unfold read_tss_descriptor, read_descriptor. rewrite Hsel. cbv zeta. read_field.
    cbn [mbind option_bind]. rewrite (descriptor_value b32 limit 0x89 _ 0) by (done || lia). cbn.
    f_equal. f_equal. unfold b32, wrap. rewrite Z.shiftr_div_pow2 by lia.
    pose proof (Z.div_mod base (2 ^ 32)). lia.
Qed.

Lemma untouched_descriptor lo hi b b' sel :
  untouched lo hi b b' -> (8 * Z.to_nat (sel / 8) + 8 <= lo \/ hi <= 8 * Z.to_nat (sel / 8))%nat ->
  read_descriptor b' sel = read_descriptor b sel.
Proof.
  intros [_ H] Ho. unfold read_descriptor. cbv zeta.
  rewrite !H by lia. done.
Qed.

(** Run one [gdt_set_entry] of the initialisation; read an entry back through
    the later ones. *)
Ltac set_descriptor fl :=
  match goal with
  | |- context [gdt_set_entry ?g ?i ?b ?l ?a ?f] =>
      change (gdt_set_entry g i b l a f) with (gdt_set_entry g i b l a (16 * fl));
      let g' := fresh "gdt" in let E := fresh "E" in let U := fresh "U" in let R := fresh "R" in
      destruct (gdt_set_entry_spec g i b l a fl) as (g' & E & U & R); [lia|red; lia|red; lia|red; lia|lia|];
      rewrite E; cbn [mbind option_bind]; pose proof (proj1 U)
  end.
Ltac read_back :=
  repeat match goal with
  | U : untouched _ _ _ ?g |- context [read_descriptor ?g _] =>
      rewrite (untouched_descriptor _ _ _ _ _ U) by (vm_compute; lia)
  end; auto.

(** The descriptor table a CPU loads is the intended one, whatever was in
    the table before and wherever the task state segment lies: decoding it as
    the processor does gives a null entry, flat kernel code and data at
    privilege 0, flat user data and code at privilege 3 (the user selectors
    request the level of their descriptors), and a 64-bit task-state descriptor
    with exactly the segment's address and size; the bitmap offset points inside
    the segment with the whole bitmap before its limit, and the bitmap itself is
    not touched. *)
Theorem gdt_init_exact tss_base df_stack gdt t :
  length gdt = (8 * GDT_ENTRIES)%nat -> in_width 64 (tss_base + TSS_SIZE) -> 0 <= tss_base -> ist t <> [] ->
  exists gdt' t', init_for_cpu tss_base df_stack gdt t = Some (gdt', t') /\
    read_descriptor gdt' 0x00 = Some (mkDesc 0 0 0 0) /\
    read_descriptor gdt' 0x08 = Some (mkDesc 0 0xFFFFF 0x9A 0xA) /\
    read_descriptor gdt' 0x10 = Some (mkDesc 0 0xFFFFF 0x92 0x8) /\
    read_descriptor gdt' USER_DATA_SELECTOR = Some (mkDesc 0 0xFFFFF 0xF2 0x8) /\
    read_descriptor gdt' USER_CODE_SELECTOR = Some (mkDesc 0 0xFFFFF 0xFA 0xA) /\
    (dpl <$> read_descriptor gdt' USER_DATA_SELECTOR = Some (rpl USER_DATA_SELECTOR)) /\
    (dpl <$> read_descriptor gdt' USER_CODE_SELECTOR = Some (rpl USER_CODE_SELECTOR)) /\
    read_tss_descriptor gdt' 0x18 = Some (mkDesc tss_base (TSS_SIZE - 1) 0x89 0) /\
    0 < iomap_base t' /\ iomap_base t' + Z.of_nat IOPB_BYTES <= TSS_SIZE /\
    tss_iopb t' = tss_iopb t /\ ist t' !! 0%nat = Some (u64 (df_stack + DOUBLE_FAULT_STACK_SIZE)).
Proof.
  intros Hl [Hw1 Hw2] Hb0 Hist. change (8 * GDT_ENTRIES)%nat with 56%nat in Hl. unfold init_for_cpu.
  set_descriptor 0. set_descriptor 0xA. set_descriptor 0x8. set_descriptor 0x8. set_descriptor 0xA.
  change TSS_SIZE with 233 in *. change TSS_IOPB_OFFSET with 104. change (233 - 1) with 232.
  destruct (set_tss_entry_spec gdt4 3 tss_base 232) as (g5 & E5 & U5 & R5); [lia|red; lia|red; lia|].
  rewrite E5. cbn [mbind option_bind].
  assert (u16 (u64 (u64 (tss_base + 104) - tss_base)) = 104) as ->.
  { rewrite (wrap_small 64 (tss_base + 104)) by (red; lia). replace (tss_base + 104 - tss_base) with 104 by lia. reflexivity. }
  assert (read_descriptor g5 USER_DATA_SELECTOR = Some (mkDesc 0 0xFFFFF 0xF2 0x8)) as Hd by read_back.
  assert (read_descriptor g5 USER_CODE_SELECTOR = Some (mkDesc 0 0xFFFFF 0xFA 0xA)) as Hc by read_back.
  eexists _, _. split; [done|]. rewrite Hd, Hc. split_and!; try done; try (by read_back); try (by apply R5).
  cbn. by destruct (ist t).
Qed.

Module GdtWitness.
Lemma gdt_init_witness :
  length (replicate 56 0) = (8 * GDT_ENTRIES)%nat /\
  exists gdt' t', init_for_cpu 0xFFFFFFFF80123456 0xFFFFFFFF80200000 (replicate 56 0) TSS_ZERO = Some (gdt', t') /\
    read_tss_descriptor gdt' 0x18 = Some (mkDesc 0xFFFFFFFF80123456 232 0x89 0).
Proof.
  split; [reflexivity|].
  destruct (gdt_init_exact 0xFFFFFFFF80123456 0xFFFFFFFF80200000 (replicate 56 0) TSS_ZERO)
    as (g & t & E & _ & _ & _ & _ & _ & _ & _ & R & _); [reflexivity|red; vm_compute; split; congruence|lia|discriminate|].
  exists g, t. split; [exact E|exact R].
Defined.
End GdtWitness.
