(* ===== verification/Critical.v ===== *)
(** * The kernel-wide lock

    [kernel_rs/src/critical.rs]: one recursive spin lock that excludes every
    other CPU, [acquire]/[release] with a per-CPU nesting depth, and
    [smp.rs]'s table from hardware APIC ids to CPU indices.  The two functions
    are modelled one shared-memory access at a time, so that the accesses of
    several CPUs interleave freely; interrupts are off on the executing CPU for
    the whole of each call. *)

From S2P Require Import Prelude.

Definition MAX_CPUS : nat := 32.

(** ** CPU indices ([smp.rs]) *)

Abbreviation apic_table := (list (option Z)).

Definition register_cpu (index : nat) (apic_id : Z) (t : apic_table) : apic_table :=
  if (index <? MAX_CPUS)%nat then <[index := Some apic_id]> t else t.

Definition apic_id_for_index (index : nat) (t : apic_table) : option Z :=
  if (MAX_CPUS <=? index)%nat then None else default None (t !! index).

Fixpoint index_scan (t : apic_table) (i : nat) (id : Z) : nat :=
  match t with
  | [] => 0
  | slot :: t' => if decide (slot = Some id) then i else index_scan t' (S i) id
  end.

(** [apic_ready] is [apic::is_initialized()], [id] the CPU's own APIC id. *)
Definition current_cpu_index (apic_ready : bool) (id : Z) (t : apic_table) : nat :=
  if negb apic_ready then 0%nat else index_scan t 0 id.

Definition lock_slot (cpu_index : nat) : nat := Nat.min cpu_index (MAX_CPUS - 1).

(** ** The lock word and the counters *)

Record lock := mkLock {
  KERNEL_LOCK_OWNER : Z; PER_CPU_DEPTH : list Z;
  TOTAL_ACQUIRES : Z; TOTAL_RELEASES : Z; UNBALANCED_RELEASES : Z }.

Definition lock_init : lock := mkLock (-1) (replicate MAX_CPUS 0) 0 0 0.

Definition depth_at (l : lock) (me : nat) : Z := default 0 (PER_CPU_DEPTH l !! me).
Definition set_owner (o : Z) (l : lock) : lock :=
  mkLock o (PER_CPU_DEPTH l) (TOTAL_ACQUIRES l) (TOTAL_RELEASES l) (UNBALANCED_RELEASES l).
Definition set_depth (me : nat) (d : Z) (l : lock) : lock :=
  mkLock (KERNEL_LOCK_OWNER l) (<[me := d]> (PER_CPU_DEPTH l)) (TOTAL_ACQUIRES l) (TOTAL_RELEASES l) (UNBALANCED_RELEASES l).
Definition count_acquire (l : lock) : lock :=
  mkLock (KERNEL_LOCK_OWNER l) (PER_CPU_DEPTH l) (u64 (TOTAL_ACQUIRES l + 1)) (TOTAL_RELEASES l) (UNBALANCED_RELEASES l).
Definition count_release (l : lock) : lock :=
  mkLock (KERNEL_LOCK_OWNER l) (PER_CPU_DEPTH l) (TOTAL_ACQUIRES l) (u64 (TOTAL_RELEASES l + 1)) (UNBALANCED_RELEASES l).
Definition count_unbalanced (l : lock) : lock :=
  mkLock (KERNEL_LOCK_OWNER l) (PER_CPU_DEPTH l) (TOTAL_ACQUIRES l) (TOTAL_RELEASES l) (u64 (UNBALANCED_RELEASES l + 1)).

(** ** The two calls, one access at a time

    [Returned] is any point outside the two functions; the other constructors
    are the program points inside them, with the value of the local [depth]. *)
Inductive lock_pc :=
  | Returned
  | AcquireLoad | AcquireNest (depth : Z) | AcquireSpin | AcquireStore | AcquireCount
  | ReleaseLoad | ReleaseStray | ReleaseNest (depth : Z) | ReleaseStore | ReleaseUnlock | ReleaseCount.

#[export] Instance lock_pc_eq_dec : EqDecision lock_pc.
Proof. solve_decision. Defined.

(** [spurious] is the compare-exchange's licence to fail on equal values. *)
Definition acquire_step (me : nat) (spurious : bool) (pc : lock_pc) (l : lock) : lock_pc * lock :=
  match pc with
  | AcquireLoad => (if 0 <? depth_at l me then AcquireNest (depth_at l me) else AcquireSpin, l)
  | AcquireNest depth => (Returned, set_depth me (u32 (depth + 1)) l)
  | AcquireSpin =>
      if (KERNEL_LOCK_OWNER l =? -1) && negb spurious
      then (AcquireStore, set_owner (Z.of_nat me) l) else (AcquireSpin, l)
  | AcquireStore => (AcquireCount, set_depth me 1 l)
  | AcquireCount => (Returned, count_acquire l)
  | _ => (pc, l)
  end.

Definition release_step (me : nat) (pc : lock_pc) (l : lock) : lock_pc * lock :=
  match pc with
  | ReleaseLoad =>
      let depth := depth_at l me in
      (if depth =? 0 then ReleaseStray else if depth =? 1 then ReleaseStore else ReleaseNest depth, l)
  | ReleaseStray => (Returned, count_unbalanced l)
  | ReleaseNest depth => (Returned, set_depth me (u32 (depth - 1)) l)
  | ReleaseStore => (ReleaseUnlock, set_depth me 0 l)
  | ReleaseUnlock => (ReleaseCount, set_owner (-1) l)
  | ReleaseCount => (Returned, count_release l)
  | _ => (pc, l)
  end.

Definition lock_step (me : nat) (spurious : bool) (pc : lock_pc) (l : lock) : lock_pc * lock :=
  match pc with
  | Returned => (pc, l)
  | AcquireLoad | AcquireNest _ | AcquireSpin | AcquireStore | AcquireCount => acquire_step me spurious pc l
  | _ => release_step me pc l
  end.

(** ** All CPUs together *)

Record locked_cpus := mkLocked { LOCK : lock; PCS : list lock_pc }.

Definition locked_init : locked_cpus := mkLocked lock_init (replicate MAX_CPUS Returned).

(** A CPU outside the functions may call either; a CPU inside makes its next
    access. *)
Inductive locked_step (s : locked_cpus) : locked_cpus -> Prop :=
  | CallAcquire c : PCS s !! c = Some Returned -> locked_step s (mkLocked (LOCK s) (<[c := AcquireLoad]> (PCS s)))
  | CallRelease c : PCS s !! c = Some Returned -> locked_step s (mkLocked (LOCK s) (<[c := ReleaseLoad]> (PCS s)))
  | Access c spurious pc pc' l : PCS s !! c = Some pc -> pc <> Returned ->
      lock_step c spurious pc (LOCK s) = (pc', l) -> locked_step s (mkLocked l (<[c := pc']> (PCS s))).

(** Reachable in [n] steps from the boot state. *)
Inductive locked_reach : nat -> locked_cpus -> Prop :=
  | locked_start : locked_reach 0 locked_init
  | locked_more n s s' : locked_reach n s -> locked_step s s' -> locked_reach (S n) s'.

(** The CPU is executing code between an [acquire] and the matching
    [release]. *)
Definition in_section (s : locked_cpus) (c : nat) : Prop :=
  PCS s !! c = Some Returned /\ 0 < depth_at (LOCK s) c.

(** What each program point says about the CPU's depth and the lock word. *)
Definition pc_ok (c : nat) (pc : lock_pc) (depth owner : Z) : Prop :=
  match pc with
  | Returned | AcquireLoad | ReleaseLoad => 0 < depth <-> owner = Z.of_nat c
  | AcquireNest d => d = depth /\ 0 < depth /\ owner = Z.of_nat c
  | ReleaseNest d => d = depth /\ 1 < depth /\ owner = Z.of_nat c
  | AcquireSpin | ReleaseStray | ReleaseCount => depth = 0 /\ owner <> Z.of_nat c
  | AcquireStore | ReleaseUnlock => depth = 0 /\ owner = Z.of_nat c
  | AcquireCount | ReleaseStore => depth = 1 /\ owner = Z.of_nat c
  end.

Record locked_ok (n : nat) (s : locked_cpus) : Prop := {
  ok_pcs : length (PCS s) = MAX_CPUS;
  ok_depths : length (PER_CPU_DEPTH (LOCK s)) = MAX_CPUS;
  ok_bound c : 0 <= depth_at (LOCK s) c <= Z.of_nat n;
  ok_pc c pc : PCS s !! c = Some pc -> pc_ok c pc (depth_at (LOCK s) c) (KERNEL_LOCK_OWNER (LOCK s)) }.

Lemma depth_set_eq l c d : (c < length (PER_CPU_DEPTH l))%nat -> depth_at (set_depth c d l) c = d.
Proof. intros. unfold depth_at. cbn. by rewrite list_lookup_insert_eq. Qed.

Lemma depth_set_ne l c c' d : c <> c' -> depth_at (set_depth c d l) c' = depth_at l c'.
Proof. intros. unfold depth_at. cbn. by rewrite list_lookup_insert_ne. Qed.

Lemma locked_init_ok : locked_ok 0 locked_init.
Proof.
  assert (forall c, depth_at lock_init c = 0) as Hd.
  { intros c. unfold depth_at, lock_init. cbn [PER_CPU_DEPTH].
    destruct (replicate MAX_CPUS 0 !! c) eqn:E; [by apply lookup_replicate in E as [-> _]|done]. }
  split; cbn [LOCK PCS locked_init]; [apply length_replicate|apply length_replicate|intros c; rewrite Hd; lia|].
  intros c pc [-> _]%lookup_replicate. cbn. rewrite Hd. lia.
Qed.

(** What one access by CPU [c] does to the lock as the other CPUs see it. *)
Lemma lock_step_frame c sp pc pc' l l' c' :
  lock_step c sp pc l = (pc', l') -> c <> c' -> depth_at l' c' = depth_at l c'.
Proof.
  intros Hs Hne. destruct pc; cbn in Hs; repeat case_match; simplify_eq; try done; by apply depth_set_ne.
Qed.

Lemma lock_step_length c sp pc pc' l l' :
  lock_step c sp pc l = (pc', l') -> length (PER_CPU_DEPTH l') = length (PER_CPU_DEPTH l).
Proof. intros Hs. destruct pc; cbn in Hs; repeat case_match; simplify_eq; try done; apply length_insert. Qed.

Lemma lock_step_own c sp pc pc' l l' n :
  lock_step c sp pc l = (pc', l') -> pc <> Returned -> (c < length (PER_CPU_DEPTH l))%nat -> Z.of_nat n < 2 ^ 32 - 1 ->
  0 <= depth_at l c <= Z.of_nat n -> pc_ok c pc (depth_at l c) (KERNEL_LOCK_OWNER l) ->
  pc_ok c pc' (depth_at l' c) (KERNEL_LOCK_OWNER l') /\ 0 <= depth_at l' c <= Z.of_nat n + 1.
Proof.
  intros Hs Hpc Hc Hn Hb Hok.
  destruct pc; cbn in Hs; try done; repeat case_match; simplify_eq; bool_to_prop; cbn in Hok |- *;
    rewrite ?depth_set_eq by done; rewrite ?(wrap_small 32) by (red; lia); cbn in *; try lia;
    unfold depth_at, set_owner, count_acquire, count_release, count_unbalanced in *; cbn in *; lia.
Qed.

(** Another CPU's program point stays true when [c] moves. *)
Lemma lock_step_other c sp pc pc' l l' c' q :
  lock_step c sp pc l = (pc', l') -> c <> c' ->
  pc_ok c pc (depth_at l c) (KERNEL_LOCK_OWNER l) ->
  pc_ok c' q (depth_at l c') (KERNEL_LOCK_OWNER l) ->
  pc_ok c' q (depth_at l c') (KERNEL_LOCK_OWNER l').
Proof.
  intros Hs Hne Hok Hok'.
  assert (KERNEL_LOCK_OWNER l' = KERNEL_LOCK_OWNER l \/
          (KERNEL_LOCK_OWNER l = -1 \/ KERNEL_LOCK_OWNER l = Z.of_nat c) /\
          (KERNEL_LOCK_OWNER l' = -1 \/ KERNEL_LOCK_OWNER l' = Z.of_nat c)) as [->|[Ho Ho']]; [|done|].
  { destruct pc; cbn in Hs; repeat case_match; simplify_eq; bool_to_prop; cbn in *; lia. }
  destruct q; cbn in *; lia.
Qed.

Lemma locked_step_ok n s s' : Z.of_nat n < 2 ^ 32 - 1 -> locked_ok n s -> locked_step s s' -> locked_ok (S n) s'.
Proof.
  intros Hn Hs Hstep. pose proof (ok_depths _ _ Hs) as Hd.
  destruct Hstep as [c Hc|c Hc|c sp pc pc' l Hc Hpc Hl].
  1,2: split; cbn [LOCK PCS]; [rewrite length_insert; apply Hs|apply Hs|intros; pose proof (ok_bound _ _ Hs c0); lia|];
    intros c' q [(-> & <- & _)|[Hne Hq]]%list_lookup_insert_Some;
    [exact (ok_pc _ _ Hs _ _ Hc)|exact (ok_pc _ _ Hs _ _ Hq)].
  assert (c < length (PER_CPU_DEPTH (LOCK s)))%nat as Hlt.
  { rewrite Hd. erewrite <- (ok_pcs _ _ Hs). by eapply lookup_lt_Some. }
  pose proof (ok_pc _ _ Hs _ _ Hc) as Hok.
  destruct (lock_step_own _ _ _ _ _ _ n Hl Hpc Hlt Hn (ok_bound _ _ Hs c) Hok) as [Hok' Hb'].
  split; cbn [LOCK PCS].
  - rewrite length_insert. apply Hs.
  - by rewrite (lock_step_length _ _ _ _ _ _ Hl).
  - intros c'. destruct (decide (c = c')) as [<-|Hne]; [lia|].
    rewrite (lock_step_frame _ _ _ _ _ _ c' Hl Hne). pose proof (ok_bound _ _ Hs c'). lia.
  - intros c' q [(-> & <- & _)|[Hne Hq]]%list_lookup_insert_Some; [done|].
    rewrite (lock_step_frame _ _ _ _ _ _ c' Hl Hne).
    exact (lock_step_other _ _ _ _ _ _ _ _ Hl Hne Hok (ok_pc _ _ Hs _ _ Hq)).
Qed.

Lemma locked_reach_ok n s : locked_reach n s -> Z.of_nat n < 2 ^ 32 -> locked_ok n s.
Proof.
  induction 1 as [|n s s' Hr IH Hs]; intros Hn; [apply locked_init_ok|].
  eapply locked_step_ok; [|apply IH|exact Hs]; lia.
Qed.

(** C14. The kernel lock excludes: in every state reachable by any interleaving
    of the CPUs' accesses (fewer than 2^32, the range of the nesting counter) at
    most one CPU is between an [acquire] and its [release], that CPU is the one
    the lock word names. *)
Theorem kernel_lock_mutual_exclusion n s c d :
  locked_reach n s -> Z.of_nat n < 2 ^ 32 -> in_section s c -> 
  KERNEL_LOCK_OWNER (LOCK s) = Z.of_nat c /\ (in_section s d -> c = d).
Proof.
  intros Hr Hn [Hc Hdc]. pose proof (locked_reach_ok _ _ Hr Hn) as Hs.
  pose proof (ok_pc _ _ Hs _ _ Hc) as Ho. cbn in Ho. split; [by apply Ho|].
  intros [Hd Hdd]. pose proof (ok_pc _ _ Hs _ _ Hd) as Ho'. cbn in Ho'. lia.
Qed.

(** ** Progress of one CPU

    Executions with the CPU that moves at each step. *)

Inductive lock_label := DoAcquire (c : nat) | DoRelease (c : nat) | DoAccess (c : nat) (spurious : bool).

Definition label_step (s : locked_cpus) (lb : lock_label) : option locked_cpus :=
  match lb with
  | DoAcquire c => pc ← PCS s !! c; if decide (pc = Returned) then Some (mkLocked (LOCK s) (<[c := AcquireLoad]> (PCS s))) else None
  | DoRelease c => pc ← PCS s !! c; if decide (pc = Returned) then Some (mkLocked (LOCK s) (<[c := ReleaseLoad]> (PCS s))) else None
  | DoAccess c spurious =>
      pc ← PCS s !! c;
      if decide (pc = Returned) then None
      else let r := lock_step c spurious pc (LOCK s) in Some (mkLocked r.2 (<[c := r.1]> (PCS s)))
  end.

Lemma label_step_step s lb s' : label_step s lb = Some s' -> locked_step s s'.
Proof.
  destruct lb as [c|c|c sp]; cbn; intros H; bind_inv; case_decide; simplify_eq; [by apply CallAcquire|by apply CallRelease|].
  eapply (Access s c sp); [done|done|apply surjective_pairing].
Qed.

(** The compare-exchange of this access fails: spuriously, or because the word is not free. *)
Definition failed_cas (c : nat) (s : locked_cpus) (lb : lock_label) : bool :=
  match lb with
  | DoAccess d spurious => bool_decide (d = c) && bool_decide (PCS s !! c = Some AcquireSpin) && (spurious || negb (KERNEL_LOCK_OWNER (LOCK s) =? -1))
  | _ => false
  end.
Definition access_of (c : nat) (lb : lock_label) : bool := match lb with DoAccess d _ => bool_decide (d = c) | _ => false end.
Definition calls (c : nat) (lb : lock_label) : bool := match lb with DoAcquire d | DoRelease d => bool_decide (d = c) | _ => false end.

Definition one (b : bool) : nat := if b then 1 else 0.
Fixpoint accesses (c : nat) (tr : list lock_label) : nat :=
  match tr with [] => 0 | lb :: tr => one (access_of c lb) + accesses c tr end.
Fixpoint failures (c : nat) (s : locked_cpus) (tr : list lock_label) : nat :=
  match tr with
  | [] => 0
  | lb :: tr => one (failed_cas c s lb) + match label_step s lb with Some s' => failures c s' tr | None => 0 end
  end.

(** Accesses to the return when no compare-exchange fails. *)
Definition remaining (pc : lock_pc) : nat :=
  match pc with
  | Returned => 0
  | AcquireLoad => 4 | AcquireNest _ => 1 | AcquireSpin => 3 | AcquireStore => 2 | AcquireCount => 1
  | ReleaseLoad => 4 | ReleaseStray => 1 | ReleaseNest _ => 1 | ReleaseStore => 3 | ReleaseUnlock => 2 | ReleaseCount => 1
  end.

(** The depth of a CPU inside a call that it made at depth [d]. *)
Definition in_acquire (d : Z) (pc : lock_pc) (depth : Z) : Prop :=
  match pc with
  | AcquireLoad => depth = d
  | AcquireNest x => x = d /\ depth = d
  | AcquireSpin | AcquireStore => depth = d /\ d = 0
  | AcquireCount => depth = 1 /\ d = 0
  | Returned => depth = d + 1
  | _ => False
  end.
Definition in_release (d : Z) (pc : lock_pc) (depth : Z) : Prop :=
  match pc with
  | ReleaseLoad => depth = d
  | ReleaseStray => depth = d /\ d = 0
  | ReleaseNest x => x = d /\ depth = d /\ 1 < d
  | ReleaseStore => depth = d /\ d = 1
  | ReleaseUnlock | ReleaseCount => depth = 0 /\ d = 1
  | Returned => depth = Z.max 0 (d - 1)
  | _ => False
  end.

(** One access of the CPU itself. *)
Lemma own_access c sp pc l n d : pc <> Returned -> (c < length (PER_CPU_DEPTH l))%nat -> 0 <= depth_at l c <= Z.of_nat n -> Z.of_nat n < 2 ^ 32 - 1 ->
  let r := lock_step c sp pc l in
  (one true + remaining r.1 <= remaining pc + one (bool_decide (pc = AcquireSpin) && (sp || negb (KERNEL_LOCK_OWNER l =? -1)%Z)))%nat /\
  (in_acquire d pc (depth_at l c) -> in_acquire d r.1 (depth_at r.2 c)) /\ (in_release d pc (depth_at l c) -> in_release d r.1 (depth_at r.2 c)).
Proof.
  intros Hpc Hc Hb Hn. change (one true) with 1%nat. destruct (decide (pc = AcquireSpin)) as [->|Hsp].
  { rewrite bool_decide_true by done. cbn [lock_step acquire_step andb]. destruct (KERNEL_LOCK_OWNER l =? -1), sp; cbn; (split; [lia|]); done. }
  assert (depth_at (set_owner (-1) l) c = depth_at l c /\ depth_at (count_acquire l) c = depth_at l c /\ depth_at (count_release l) c = depth_at l c /\
    depth_at (count_unbalanced l) c = depth_at l c) as (E1 & E2 & E3 & E4) by done.
  destruct pc; cbn [lock_step acquire_step release_step]; try done; repeat case_match; bool_to_prop; cbn [fst snd in_acquire in_release remaining];
    rewrite ?depth_set_eq, ?E1, ?E2, ?E3, ?E4 by done; (split; [lia|]); split; intros; destruct_and?; subst; try done; try rewrite wrap_small by (red; lia); lia.
Qed.

(** An access of another CPU. *)
Lemma other_label c s lb s' pc : label_step s lb = Some s' -> access_of c lb = false -> calls c lb = false -> PCS s !! c = Some pc ->
  PCS s' !! c = Some pc /\ depth_at (LOCK s') c = depth_at (LOCK s) c.
Proof.
  destruct lb as [d|d|d sp]; cbn [label_step access_of calls]; intros H H1 H2 Hc; bind_inv; case_decide; simplify_eq; cbn [PCS LOCK]; first [apply bool_decide_eq_false in H2 | apply bool_decide_eq_false in H1]; rewrite list_lookup_insert_ne by done; [done|done|].
  split; [done|]. eapply lock_step_frame; [apply surjective_pairing|done].
Qed.

Lemma own_label c s lb s' pc n d : locked_ok n s -> Z.of_nat n < 2 ^ 32 - 1 -> label_step s lb = Some s' -> calls c lb = false -> PCS s !! c = Some pc ->
  exists pc', PCS s' !! c = Some pc' /\ (one (access_of c lb) + remaining pc' <= remaining pc + one (failed_cas c s lb))%nat /\
    (in_acquire d pc (depth_at (LOCK s) c) -> in_acquire d pc' (depth_at (LOCK s') c)) /\ (in_release d pc (depth_at (LOCK s) c) -> in_release d pc' (depth_at (LOCK s') c)).
Proof.
  intros Hs Hn H Hcl Hc. destruct (access_of c lb) eqn:Ha.
  - destruct lb as [e|e|e sp]; try done. cbn [access_of] in Ha. apply bool_decide_eq_true in Ha as ->. cbn [label_step] in H. rewrite Hc in H. cbn [mbind option_bind] in H. case_decide as Hr; [done|]. injection H as <-.
    cbn [PCS LOCK failed_cas]. rewrite (bool_decide_true (c = c)) by done. exists (lock_step c sp pc (LOCK s)).1.
    assert (c < length (PER_CPU_DEPTH (LOCK s)))%nat as Hlt.
    { rewrite (ok_depths _ _ Hs). erewrite <- (ok_pcs _ _ Hs). by eapply lookup_lt_Some. }
    split; [apply list_lookup_insert_eq; by eapply lookup_lt_Some|]. rewrite Hc. cbn [andb].
    replace (bool_decide (Some pc = Some AcquireSpin)) with (bool_decide (pc = AcquireSpin)) by (apply bool_decide_ext; naive_solver).
    apply (own_access c sp pc (LOCK s) n d Hr Hlt (ok_bound _ _ Hs c) Hn).
  - destruct (other_label c s lb s' pc H Ha Hcl Hc) as [E1 E2]. exists pc. split; [done|]. rewrite E2. cbn. split; [lia|done].
Qed.

Lemma trace_progress tr n s s' c pc d : locked_ok n s -> Z.of_nat (n + length tr) < 2 ^ 32 -> foldM label_step s tr = Some s' -> Forall (fun lb => calls c lb = false) tr -> PCS s !! c = Some pc ->
  exists pc', PCS s' !! c = Some pc' /\ locked_ok (n + length tr) s' /\ (accesses c tr + remaining pc' <= remaining pc + failures c s tr)%nat /\
    (in_acquire d pc (depth_at (LOCK s) c) -> in_acquire d pc' (depth_at (LOCK s') c)) /\ (in_release d pc (depth_at (LOCK s) c) -> in_release d pc' (depth_at (LOCK s') c)).
Proof.
  revert n s pc. induction tr as [|lb tr IH]; intros n s pc Hs Hn H Hcl Hc.
  - cbn in H. injection H as <-. exists pc. cbn. rewrite Nat.add_0_r. split; [done|]. split; [done|]. split; [lia|done].
  - apply Forall_cons in Hcl as [Hcl Hcls]. cbn [foldM] in H. destruct (label_step s lb) as [s1|] eqn:E; [|done]. cbn [mbind option_bind] in H. cbn [length] in Hn.
    destruct (own_label c s lb s1 pc n d Hs ltac:(lia) E Hcl Hc) as (pc1 & Hc1 & Hle & Ha & Hr).
    pose proof (locked_step_ok n s s1 ltac:(lia) Hs (label_step_step _ _ _ E)) as Hs1.
    destruct (IH (S n) s1 pc1 Hs1 ltac:(lia) H Hcls Hc1) as (pc' & Hc' & Hs' & Hle' & Ha' & Hr'). exists pc'. split; [done|]. cbn [length].
    replace (n + S (length tr))%nat with (S n + length tr)%nat by lia. split; [done|]. cbn [accesses failures]. rewrite E. split; [lia|auto].
Qed.

(** A CPU inside [release] never makes a compare-exchange. *)
Definition releasing (pc : lock_pc) : Prop :=
  match pc with AcquireLoad | AcquireNest _ | AcquireSpin | AcquireStore | AcquireCount => False | _ => True end.

Lemma releasing_step c sp pc l : releasing pc -> releasing (lock_step c sp pc l).1.
Proof. destruct pc; cbn; try done; repeat case_match; done. Qed.

Lemma release_never_fails tr n s s' c pc : locked_ok n s -> Z.of_nat (n + length tr) < 2 ^ 32 -> foldM label_step s tr = Some s' -> Forall (fun lb => calls c lb = false) tr -> PCS s !! c = Some pc ->
  releasing pc -> failures c s tr = 0%nat.
Proof.
  revert n s pc. induction tr as [|lb tr IH]; intros n s pc Hs Hn H Hcl Hc Hp; [done|].
  apply Forall_cons in Hcl as [Hcl Hcls]. cbn [foldM] in H. destruct (label_step s lb) as [s1|] eqn:E; [|done]. cbn [mbind option_bind length] in *. cbn [failures]. rewrite E.
  assert (failed_cas c s lb = false) as ->.
  { destruct lb as [e|e|e sp]; try done. cbn. rewrite Hc. rewrite (bool_decide_false (Some pc = Some AcquireSpin)) by (intros [= ->]; done). by rewrite andb_false_r. }
  pose proof (locked_step_ok n s s1 ltac:(lia) Hs (label_step_step _ _ _ E)) as Hs1. cbn [one Nat.add].
  assert (exists pc1, PCS s1 !! c = Some pc1 /\ releasing pc1) as (pc1 & Hc1 & Hp1); [|by apply (IH (S n) s1 pc1 Hs1 ltac:(lia) H Hcls Hc1)].
  destruct (access_of c lb) eqn:Ha; [|exists pc; split; [by eapply other_label|done]].
  destruct lb as [e|e|e sp]; try done. cbn [access_of] in Ha. apply bool_decide_eq_true in Ha as ->. cbn [label_step] in E. rewrite Hc in E. cbn [mbind option_bind] in E. case_decide as Hr; [done|]. injection E as <-.
  cbn [PCS]. eexists. split; [apply list_lookup_insert_eq; by eapply lookup_lt_Some|by apply releasing_step].
Qed.

(** C39. A lock section is entered and left. In any execution of fewer than 2^32 steps, whatever the other CPUs do
    between its accesses, a CPU that has called [acquire] or [release] and makes [k] accesses has returned unless
    [k] is less than four plus the number of its compare-exchanges that failed, each of them spuriously or because
    the word named another CPU; a [release] has none that fail. When [acquire] returns, the word names the CPU and
    its depth is one more than at the call; when [release] returns the depth is one less (an unmatched one leaves it
    0), and the word names the CPU exactly if a section is still open. *)
Theorem section_terminates n s c tr s' : locked_reach n s -> Z.of_nat (n + length tr) < 2 ^ 32 -> foldM label_step s tr = Some s' ->
  Forall (fun lb => calls c lb = false) tr ->
  (PCS s !! c = Some AcquireLoad ->
    (PCS s' !! c <> Some Returned -> (accesses c tr < 4 + failures c s tr)%nat) /\
    (PCS s' !! c = Some Returned -> KERNEL_LOCK_OWNER (LOCK s') = Z.of_nat c /\ depth_at (LOCK s') c = depth_at (LOCK s) c + 1) /\
    (PCS s' !! c = Some AcquireSpin -> KERNEL_LOCK_OWNER (LOCK s') <> Z.of_nat c)) /\
  (PCS s !! c = Some ReleaseLoad ->
    (PCS s' !! c <> Some Returned -> (accesses c tr < 4)%nat) /\
    (PCS s' !! c = Some Returned -> depth_at (LOCK s') c = Z.max 0 (depth_at (LOCK s) c - 1) /\ (KERNEL_LOCK_OWNER (LOCK s') = Z.of_nat c <-> 1 < depth_at (LOCK s) c))).
Proof.
  intros Hreach Hn H Hcl. pose proof (locked_reach_ok n s Hreach ltac:(lia)) as Hs. pose proof (ok_bound _ _ Hs c).
  split; intros Hc; destruct (trace_progress tr n s s' c _ (depth_at (LOCK s) c) Hs Hn H Hcl Hc) as (pc' & Hc' & Hs' & Hle & Ha & Hr); rewrite Hc'; pose proof (ok_pc _ _ Hs' _ _ Hc') as Hok.
  - clear Hr. cbn [remaining in_acquire] in Hle, Ha. specialize (Ha eq_refl). split; [intros Hne; destruct pc'; done || (cbn in Hle; lia)|].
    split; intros [= ->]; cbn in Ha, Hok; [|by destruct Hok]. split; [apply Hok; lia|done].
  - clear Ha. cbn [remaining in_release] in Hle, Hr. specialize (Hr eq_refl). rewrite (release_never_fails tr n s s' c _ Hs Hn H Hcl Hc I) in Hle.
    split; [intros Hne; destruct pc'; done || (cbn in Hle; lia)|]. intros [= ->]. cbn in Hr, Hok. split; [done|]. rewrite <- Hok, Hr. lia.
Qed.

Lemma index_scan_first t i id k :
  t !! k = Some (Some id) -> (forall j, (j < k)%nat -> t !! j <> Some (Some id)) -> index_scan t i id = (i + k)%nat.
Proof.
  revert i k. induction t as [|slot t IH]; intros i k Hk Hj; [done|]. cbn.
  destruct k as [|k]; [injection Hk as ->; rewrite decide_True by done; lia|].
  rewrite decide_False by (intros ->; by apply (Hj 0%nat); [lia|]).
  rewrite (IH (S i) k); [lia|done|]. intros j Hlt. apply (Hj (S j)). lia.
Qed.

(** A CPU that has registered its APIC id finds its own index, and is found by
    it. *)
Lemma register_cpu_index t i id :
  length t = MAX_CPUS -> (i < MAX_CPUS)%nat -> (forall j, t !! j <> Some (Some id)) ->
  current_cpu_index true id (register_cpu i id t) = i /\ apic_id_for_index i (register_cpu i id t) = Some id.
Proof.
  intros Hl Hi Hn. unfold register_cpu, current_cpu_index, apic_id_for_index.
  rewrite (proj2 (Nat.ltb_lt i MAX_CPUS) Hi), (proj2 (Nat.leb_gt MAX_CPUS i) Hi). cbn [negb].
  assert (<[i:=Some id]> t !! i = Some (Some id)) as He by (apply list_lookup_insert_eq; lia).
  split; [|by rewrite He]. rewrite (index_scan_first _ 0 id i He); [lia|].
  intros j Hj. rewrite list_lookup_insert_ne by lia. apply Hn.
Qed.

Module CriticalWitness.
Definition call_acquire (c : nat) (s : locked_cpus) : locked_cpus := mkLocked (LOCK s) (<[c := AcquireLoad]> (PCS s)).
Definition access (c : nat) (s : locked_cpus) : locked_cpus :=
  let r := lock_step c false (default Returned (PCS s !! c)) (LOCK s) in mkLocked r.2 (<[c := r.1]> (PCS s)).

Lemma access_reach n s c pc :
  PCS s !! c = Some pc -> pc <> Returned -> locked_reach n s -> locked_reach (S n) (access c s).
Proof.
  intros Hc Hpc Hr. eapply locked_more; [exact Hr|]. unfold access. rewrite Hc. cbn [default].
  eapply (Access _ c false pc); [done|done|apply surjective_pairing].
Qed.

(** CPU 3 takes the free lock while CPU 5 is calling [acquire]. *)
Definition two_cpus : locked_cpus := Nat.iter 4 (access 3) (call_acquire 3 (call_acquire 5 locked_init)).

Lemma two_cpus_reach : locked_reach 6 two_cpus.
Proof.
  do 4 (eapply access_reach; [reflexivity|discriminate|]).
  eapply locked_more; [|by eapply (CallAcquire _ 3)].
  eapply locked_more; [apply locked_start|by eapply (CallAcquire _ 5)].
Qed.

Lemma mutual_exclusion_witness :
  in_section two_cpus 3 /\ KERNEL_LOCK_OWNER (LOCK two_cpus) = 3 /\ (in_section two_cpus 5 -> 3 = 5)%nat.
Proof.
  assert (in_section two_cpus 3) as H by (split; reflexivity).
  split; [exact H|]. exact (kernel_lock_mutual_exclusion 6 two_cpus 3 5 two_cpus_reach ltac:(lia) H).
Defined.

(** CPU 3 calls [acquire] while CPU 5 holds the lock: it fails once for that and once spuriously, then enters when 5 has left. *)
Definition contended : locked_cpus := call_acquire 3 (Nat.iter 4 (access 5) (call_acquire 5 locked_init)).
Definition handover : list lock_label :=
  [DoAccess 3 false; DoAccess 3 false; DoRelease 5; DoAccess 5 false; DoAccess 5 false; DoAccess 5 false; DoAccess 3 true; DoAccess 3 false; DoAccess 5 false; DoAccess 3 false; DoAccess 3 false].

Lemma contended_reach : locked_reach 6 contended.
Proof.
  eapply locked_more; [|by eapply (CallAcquire _ 3)]. do 4 (eapply access_reach; [reflexivity|discriminate|]).
  eapply locked_more; [apply locked_start|by eapply (CallAcquire _ 5)].
Qed.

Lemma section_witness : exists s', foldM label_step contended handover = Some s' /\ PCS s' !! 3%nat = Some Returned /\ failures 3 contended handover = 2%nat /\
  KERNEL_LOCK_OWNER (LOCK s') = 3 /\ depth_at (LOCK s') 3 = depth_at (LOCK contended) 3 + 1.
Proof.
  destruct (foldM label_step contended handover) as [s'|] eqn:E; [|by vm_compute in E].
  assert (PCS s' !! 3%nat = Some Returned) as Hr by (vm_compute in E; injection E as <-; reflexivity).
  destruct (section_terminates 6 contended 3 handover s' contended_reach ltac:(cbn; lia) E ltac:(repeat constructor)) as [H _].
  destruct (H eq_refl) as (_ & H1 & _). destruct (H1 Hr) as [H2 H3]. exists s'. split; [reflexivity|]. split; [exact Hr|]. split; [reflexivity|]. split; [exact H2|exact H3].
Defined.
End CriticalWitness.
