(* ===== verification/Policy.v ===== *)
(** * Grant-time policy and application manifests

    [kernel_rs/src/policy.rs] (the one ceiling on an agent's rights) and
    [manifest.rs] (the set of object kinds an application declares, one bit per
    kind). *)

From S2P Require Import Prelude AuditLog Capability.

Definition AGENT_MAX_RIGHTS : Z := Z.lor (Z.lor (Z.lor INTROSPECT AUDIT_QUERY) SEND) RECEIVE.

Definition allows (rs : Z) : bool := contains AGENT_MAX_RIGHTS rs.

Inductive CapKind :=
  | KIpcEndpoint | KMmioRegion | KInterruptLine | KPortIoRange | KFileObject | KIntrospectionHandle
  | KAuditQueryHandle | KSocket | KSurface | KUserSession | KCryptoKey | KDnsResolver | KExecHandle.

#[export] Instance CapKind_eq_dec : EqDecision CapKind.
Proof. solve_decision. Defined.

(** [kind as u16]. *)
Definition CapKind_code (k : CapKind) : Z :=
  match k with
  | KIpcEndpoint => 0 | KMmioRegion => 1 | KInterruptLine => 2 | KPortIoRange => 3 | KFileObject => 4
  | KIntrospectionHandle => 5 | KAuditQueryHandle => 6 | KSocket => 7 | KSurface => 8 | KUserSession => 9
  | KCryptoKey => 10 | KDnsResolver => 11 | KExecHandle => 12
  end.

Definition kind_of (k : KernelObjectKind) : CapKind :=
  match k with
  | IpcEndpoint => KIpcEndpoint
  | MmioRegion _ _ => KMmioRegion
  | InterruptLine _ => KInterruptLine
  | PortIoRange _ _ => KPortIoRange
  | FileObject _ => KFileObject
  | IntrospectionHandle => KIntrospectionHandle
  | AuditQueryHandle => KAuditQueryHandle
  | Socket _ _ _ _ => KSocket
  | Surface _ _ _ _ => KSurface
  | UserSession _ => KUserSession
  | CryptoKey _ => KCryptoKey
  | DnsResolver _ => KDnsResolver
  | ExecHandle => KExecHandle
  end.

(** [Manifest(u16)]. *)
Abbreviation Manifest := Z (only parsing).
Definition MANIFEST_NONE : Manifest := 0.
Definition allow (m : Manifest) (k : CapKind) : Manifest := Z.lor m (u16 (Z.shiftl 1 (CapKind_code k))).
Definition declares (m : Manifest) (k : CapKind) : bool := negb (Z.land m (u16 (Z.shiftl 1 (CapKind_code k))) =? 0).

(** ** Lemmas *)

Lemma CapKind_code_range k : 0 <= CapKind_code k < 16.
Proof. destruct k; cbn; lia. Qed.

Lemma CapKind_code_inj k k' : CapKind_code k = CapKind_code k' -> k = k'.
Proof. destruct k, k'; cbn; congruence || lia. Qed.

Lemma kind_bit k : u16 (Z.shiftl 1 (CapKind_code k)) = Z.shiftl 1 (CapKind_code k).
Proof. by destruct k. Qed.

Lemma declares_testbit m k : declares m k = Z.testbit m (CapKind_code k).
Proof. unfold declares. rewrite kind_bit. apply land_shift_testbit, CapKind_code_range. Qed.

(** A manifest built with [allow] declares exactly the kinds named: no kind's
    bit collides with another's or falls off the 16-bit word. *)
Lemma manifest_declares_exact ks k : declares (foldl allow MANIFEST_NONE ks) k = bool_decide (k ∈ ks).
Proof.
  rewrite declares_testbit.
  assert (forall m, Z.testbit (foldl allow m ks) (CapKind_code k) = Z.testbit m (CapKind_code k) || bool_decide (k ∈ ks)) as H.
  { induction ks as [|k' ks IH]; intros m; cbn [foldl].
    - by rewrite bool_decide_eq_false_2, orb_false_r by apply not_elem_of_nil.
    - rewrite IH. unfold allow. rewrite Z.lor_spec, kind_bit, Z.shiftl_1_l, Z.pow2_bits_eqb by apply CapKind_code_range.
      rewrite <- orb_assoc. f_equal. destruct (decide (k = k')) as [->|Hne].
      + rewrite Z.eqb_refl. symmetry. apply bool_decide_eq_true_2, list_elem_of_here.
      + rewrite (proj2 (Z.eqb_neq _ _)) by (intros ?%CapKind_code_inj; congruence). cbn.
        apply bool_decide_ext. rewrite elem_of_cons. naive_solver. }
  rewrite H. unfold MANIFEST_NONE. by rewrite Z.bits_0.
Qed.

(** The agent ceiling: exactly four rights, none of which grants, revokes,
    maps, or touches files, ports or keys. *)
Lemma allows_bits rs : allows rs = true -> forall i, Z.testbit rs i = true -> 0 <= i -> i ∈ [0; 1; 7; 8].
Proof.
  unfold allows. intros Hc i Hi H0. pose proof (proj1 (contains_testbit _ _) Hc i H0 Hi) as Hb.
  assert (i < 9) as Hlt.
  { destruct (Z_lt_le_dec i 9) as [|Hge]; [done|]. exfalso.
    rewrite (in_width_testbit 9 AGENT_MAX_RIGHTS i) in Hb; [done|lia|vm_compute; split; congruence]. }
  assert (i = 0 \/ i = 1 \/ i = 2 \/ i = 3 \/ i = 4 \/ i = 5 \/ i = 6 \/ i = 7 \/ i = 8) as Hcases by lia.
  repeat (destruct Hcases as [->|Hcases]; [first [discriminate Hb|set_solver]|]). subst. set_solver.
Qed.
