(* ===== verification/Thread.v ===== *)
(** * Threads and scheduling

    [kernel_rs/src/thread.rs]: thread creation, the per-CPU round-robin
    scheduler with work stealing and deferred reaping, the context switch, and
    the operations on the running thread's capability table and port bitmap.

    The arrays the source indexes by CPU ([RUN_QUEUES], [CURRENTS], [ZOMBIES],
    [gdt::TSSES], [syscall::PER_CPU_SYSCALL_SCRATCH]) are one record per CPU
    here, together with the registers of that CPU.  Kernel stacks are regions of
    [KMEM]; the address the global allocator returns for a new stack is an
    argument of the creating operation, and the code addresses that end up on a
    stack (the two trampolines, the return address of the call to [switch_to])
    are arguments too.  The kernel lock makes every operation one atomic step,
    except that the scheduler releases the lock before it switches stacks: that
    switch is a step of its own, and [pending] holds its arguments in between. *)

From S2P Require Import Prelude AuditLog Capability Bits Pmm Vmm Gdt Critical Policy.

Definition KERNEL_STACK_SIZE : Z := 64 * 1024.

Inductive ThreadState := Ready | Running | Exited.

#[export] Instance ThreadState_eq_dec : EqDecision ThreadState.
Proof. solve_decision. Defined.

Record Thread := mkThread {
  id : Z; state : ThreadState; saved_rsp : Z;
  stack_ptr : Z; stack_len : Z;
  address_space : Z; cap_table : CapabilityTable; iopb : bytes }.

Definition set_state (st : ThreadState) (t : Thread) : Thread :=
  mkThread (id t) st (saved_rsp t) (stack_ptr t) (stack_len t) (address_space t) (cap_table t) (iopb t).
Definition set_rsp (sp : Z) (t : Thread) : Thread :=
  mkThread (id t) (state t) sp (stack_ptr t) (stack_len t) (address_space t) (cap_table t) (iopb t).
Definition set_space (a : Z) (t : Thread) : Thread :=
  mkThread (id t) (state t) (saved_rsp t) (stack_ptr t) (stack_len t) a (cap_table t) (iopb t).
Definition set_table (c : CapabilityTable) (t : Thread) : Thread :=
  mkThread (id t) (state t) (saved_rsp t) (stack_ptr t) (stack_len t) (address_space t) c (iopb t).
Definition set_thread_iopb (b : bytes) (t : Thread) : Thread :=
  mkThread (id t) (state t) (saved_rsp t) (stack_ptr t) (stack_len t) (address_space t) (cap_table t) b.

Definition stack_top (t : Thread) : Z := u64 (stack_ptr t + stack_len t).

(** The registers [switch_to] saves, restores or reads. *)
Record regs := mkRegs {
  r15 : Z; r14 : Z; r13 : Z; r12 : Z; rbx : Z; rbp : Z; rsp : Z; rip : Z; cr3 : Z; iflag : bool }.

Record percpu := mkCpu {
  queue : option (list Thread);          (* RUN_QUEUES[cpu] *)
  current : option Thread;               (* CURRENTS[cpu] *)
  zombie : option Thread;                (* ZOMBIES[cpu] *)
  tss : Tss;                             (* gdt::TSSES[cpu] *)
  kernel_rsp : Z;                        (* syscall::PER_CPU_SYSCALL_SCRATCH[cpu].kernel_rsp *)
  reg : regs;
  pending : option (Z * Z * Z) }.        (* switch_to(outgoing, new_rsp, new_cr3) not yet executed *)

Definition set_queue (q : option (list Thread)) (c : percpu) : percpu := mkCpu q (current c) (zombie c) (tss c) (kernel_rsp c) (reg c) (pending c).
Definition set_current (t : option Thread) (c : percpu) : percpu := mkCpu (queue c) t (zombie c) (tss c) (kernel_rsp c) (reg c) (pending c).
Definition set_zombie (z : option Thread) (c : percpu) : percpu := mkCpu (queue c) (current c) z (tss c) (kernel_rsp c) (reg c) (pending c).
Definition set_tss (x : Tss) (c : percpu) : percpu := mkCpu (queue c) (current c) (zombie c) x (kernel_rsp c) (reg c) (pending c).
Definition set_kernel_rsp (r : Z) (c : percpu) : percpu := mkCpu (queue c) (current c) (zombie c) (tss c) r (reg c) (pending c).
Definition set_reg (r : regs) (c : percpu) : percpu := mkCpu (queue c) (current c) (zombie c) (tss c) (kernel_rsp c) r (pending c).
Definition set_pending (p : option (Z * Z * Z)) (c : percpu) : percpu := mkCpu (queue c) (current c) (zombie c) (tss c) (kernel_rsp c) (reg c) p.

Record sched := mkSched {
  NEXT_TID : Z; CPUS : list percpu;
  SWITCH_LOG : list Z; SWITCH_LOG_POS : Z;
  KMEM : Z -> Z; KOBJ : kernel; VM : vmm;
  APICS : apic_table; IPIS : list Z }.

Definition set_cpus (cs : list percpu) (s : sched) : sched :=
  mkSched (NEXT_TID s) cs (SWITCH_LOG s) (SWITCH_LOG_POS s) (KMEM s) (KOBJ s) (VM s) (APICS s) (IPIS s).
Definition set_tid (n : Z) (s : sched) : sched :=
  mkSched n (CPUS s) (SWITCH_LOG s) (SWITCH_LOG_POS s) (KMEM s) (KOBJ s) (VM s) (APICS s) (IPIS s).
Definition set_log (l : list Z) (p : Z) (s : sched) : sched :=
  mkSched (NEXT_TID s) (CPUS s) l p (KMEM s) (KOBJ s) (VM s) (APICS s) (IPIS s).
Definition set_kmem (m : Z -> Z) (s : sched) : sched :=
  mkSched (NEXT_TID s) (CPUS s) (SWITCH_LOG s) (SWITCH_LOG_POS s) m (KOBJ s) (VM s) (APICS s) (IPIS s).
Definition set_kobj (k : kernel) (s : sched) : sched :=
  mkSched (NEXT_TID s) (CPUS s) (SWITCH_LOG s) (SWITCH_LOG_POS s) (KMEM s) k (VM s) (APICS s) (IPIS s).
Definition set_vm (v : vmm) (s : sched) : sched :=
  mkSched (NEXT_TID s) (CPUS s) (SWITCH_LOG s) (SWITCH_LOG_POS s) (KMEM s) (KOBJ s) v (APICS s) (IPIS s).
Definition send_ipi (a : Z) (s : sched) : sched :=
  mkSched (NEXT_TID s) (CPUS s) (SWITCH_LOG s) (SWITCH_LOG_POS s) (KMEM s) (KOBJ s) (VM s) (APICS s) (IPIS s ++ [a]).

(** [&mut ARRAY[me]]: an index out of range panics. *)
Definition put_cpu (me : nat) (c : percpu) (s : sched) : sched := set_cpus (<[me := c]> (CPUS s)) s.

Definition with_cpu (me : nat) (f : percpu -> percpu) (s : sched) : option sched :=
  c ← CPUS s !! me; Some (put_cpu me (f c) s).

(** Apply [f] to the running thread, if there is one. *)
Definition with_current (me : nat) (f : Thread -> Thread) (s : sched) : option sched :=
  with_cpu me (fun c => set_current (f <$> current c) c) s.

Definition current_id (me : nat) (s : sched) : Z :=
  match (c ← CPUS s !! me; current c) with Some t => id t | None => 0 end.

(** [audit::record] attributes an event to the running thread. *)
Definition kernel_on (me : nat) (s : sched) : kernel :=
  mkKernel (OBJECTS (KOBJ s)) (AUDIT (KOBJ s)) (current_id me s).

(** [vmm] functions read and write the executing CPU's own CR3. *)
Definition vmm_on (c : percpu) (s : sched) : vmm :=
  mkVmm (PMM (VM s)) (KERNEL_PML4_PHYS (VM s)) (cr3 (reg c)) (LAST_MMIO_PAGE_PADDR (VM s)) (LAST_FB_PAGE_PADDR (VM s)).
Definition set_cr3 (v : Z) (r : regs) : regs :=
  mkRegs (r15 r) (r14 r) (r13 r) (r12 r) (rbx r) (rbp r) (rsp r) (rip r) v (iflag r).
Definition set_if (b : bool) (r : regs) : regs :=
  mkRegs (r15 r) (r14 r) (r13 r) (r12 r) (rbx r) (rbp r) (rsp r) (rip r) (cr3 r) b.

(** ** The switch log *)

Definition SWITCH_LOG_LEN : Z := 24.

Definition record_switch (from to top : Z) (s : sched) : option sched :=
  let slot := Z.to_nat (SWITCH_LOG_POS s mod SWITCH_LOG_LEN) in
  l ← wbyte (SWITCH_LOG s) (slot * 3) from;
  l ← wbyte l (slot * 3 + 1) to;
  l ← wbyte l (slot * 3 + 2) top;
  Some (set_log l (u64 (SWITCH_LOG_POS s + 1)) s).

(** The lines [dump_switch_log] prints, oldest first. *)
Definition dump_switch_log (s : sched) : list (Z * Z * Z) :=
  let pos := SWITCH_LOG_POS s in
  let count := Z.min pos SWITCH_LOG_LEN in
  let start := saturating_sub pos count in
  (fun i =>
     let slot := Z.to_nat (i mod SWITCH_LOG_LEN) in
     (default 0 (SWITCH_LOG s !! (slot * 3)%nat), default 0 (SWITCH_LOG s !! (slot * 3 + 1)%nat),
      default 0 (SWITCH_LOG s !! (slot * 3 + 2)%nat))) <$> range start pos.

(** ** Thread creation *)

Definition zero_fill (p len : Z) (m : Z -> Z) : Z -> Z := fun a => if (p <=? a) && (a <? p + len) then 0 else m a.

(** [sp -= 8; *sp = w] for each word. *)
Definition push_words (ws : list Z) (sm : Z * (Z -> Z)) : Z * (Z -> Z) :=
  foldl (fun '(sp, m) w => (u64 (sp - 8), wr64 m (u64 (sp - 8)) w)) sm ws.

Definition CALLEE_SAVED_SIZE : Z := 48.

Definition zero_words (p : Z) (n : Z) (m : Z -> Z) : Z -> Z := foldl (fun m i => wr64 m (p + 8 * i) 0) m (range 0 n).

(** The part the four spawning functions share: take the next id, allocate and
    zero the stack, push [words] and a zeroed [CalleeSaved]. *)
Definition build_thread (words : list Z) (stack aspace : Z) (s : sched) : sched * Thread :=
  let tid := NEXT_TID s in
  let m := zero_fill stack KERNEL_STACK_SIZE (KMEM s) in
  let top := u64 (stack + KERNEL_STACK_SIZE) in
  let '(sp, m) := push_words words (top, m) in
  let sp := u64 (sp - CALLEE_SAVED_SIZE) in
  let m := zero_words sp 6 m in
  (set_kmem m (set_tid (u64 (tid + 1)) s),
   mkThread tid Ready sp stack KERNEL_STACK_SIZE aspace table_new (replicate IOPB_BYTES 0xFF)).

Definition push_back (t : Thread) (c : percpu) : percpu := set_queue (Some (default [] (queue c) ++ [t])) c.

Section creation.
Context (thread_trampoline user_process_trampoline : Z).

Definition spawn_in_locked (me : nat) (entry aspace stack : Z) (s : sched) : option (sched * Z) :=
  let '(s, t) := build_thread [entry; thread_trampoline] stack aspace s in
  s ← with_cpu me (push_back t) s; Some (s, id t).

Definition spawn (me : nat) (entry stack : Z) (s : sched) : option (sched * Z) :=
  spawn_in_locked me entry (KERNEL_PML4_PHYS (VM s)) stack s.

Definition spawn_user (me : nat) (entry_rip user_rsp aspace stack : Z) (s : sched) : option (sched * Z) :=
  let '(s, t) := build_thread [user_rsp; entry_rip; user_process_trampoline] stack aspace s in
  s ← with_cpu me (push_back t) s; Some (s, id t).

Definition send_reschedule_ipi (target_cpu : nat) (s : sched) : sched :=
  match apic_id_for_index target_cpu (APICS s) with Some a => send_ipi a s | None => s end.

Definition spawn_pinned_to_cpu (target_cpu : nat) (entry aspace stack : Z) (s : sched) : option (sched * Z) :=
  let '(s, t) := build_thread [entry; thread_trampoline] stack aspace s in
  s ← with_cpu target_cpu (push_back t) s;
  Some (send_reschedule_ipi target_cpu s, id t).

(** One grant of [spawn_with_capabilities] and of [spawn_with_manifest]. *)
Definition policy_grant (kt : kernel * CapabilityTable) (g : Z * Z) : kernel * CapabilityTable :=
  let '(k, t) := kt in let '(oid, rs) := g in
  if allows rs then (grant t oid rs k).1 else (audit_record (EvPolicyDenied rs) k, t).

Definition manifest_grant (m : Manifest) (kt : kernel * CapabilityTable) (g : Z * Z) : kernel * CapabilityTable :=
  let '(k, t) := kt in let '(oid, rs) := g in
  match object_kind k oid with
  | None => (k, t)
  | Some kd =>
      if declares m (kind_of kd) then (grant t oid rs k).1
      else (audit_record (EvManifestDenied (CapKind_code (kind_of kd))) k, t)
  end.

(** [threads.iter_mut().find(|t| t.id == tid)], then the grants in order. *)
Definition grant_to (me : nat) (tid : Z) (one : kernel * CapabilityTable -> Z * Z -> kernel * CapabilityTable)
    (grants : list (Z * Z)) (s : sched) : option sched :=
  c ← CPUS s !! me;
  match queue c with
  | None => Some s
  | Some q =>
      match list_find (fun t => id t = tid) q with
      | None => Some s
      | Some (i, t) =>
          let '(k, tab) := foldl one (kernel_on me s, cap_table t) grants in
          Some (set_kobj k (put_cpu me (set_queue (Some (<[i := set_table tab t]> q)) c) s))
      end
  end.

Definition spawn_with_capabilities (me : nat) (entry aspace : Z) (grants : list (Z * Z)) (stack : Z) (s : sched)
  : option (sched * Z) :=
  '(s, tid) ← spawn_in_locked me entry aspace stack s;
  s ← grant_to me tid policy_grant grants s; Some (s, tid).

Definition spawn_with_manifest (me : nat) (entry aspace : Z) (grants : list (Z * Z)) (m : Manifest) (stack : Z) (s : sched)
  : option (sched * Z) :=
  '(s, tid) ← spawn_in_locked me entry aspace stack s;
  s ← grant_to me tid (manifest_grant m) grants s; Some (s, tid).
End creation.

(** ** The running thread *)

(** Update the running thread's bitmap and load it into the live task state. *)
Definition update_port (upd : bytes -> Z -> option bytes) (me : nat) (port : Z) (s : sched) : option sched :=
  c ← CPUS s !! me;
  match current c with
  | None => Some s
  | Some t =>
      b ← upd (iopb t) port;
      Some (put_cpu me (set_tss (set_iopb b (tss c)) (set_current (Some (set_thread_iopb b t)) c)) s)
  end.

Definition allow_port_for_current : nat -> Z -> sched -> option sched := update_port allow_port_bits.
Definition deny_port_for_current : nat -> Z -> sched -> option sched := update_port deny_port_bits.

Definition current_has_port_access (me : nat) (port : Z) (s : sched) : option bool :=
  c ← CPUS s !! me;
  match current c with Some t => is_port_allowed (iopb t) port | None => Some false end.

Definition grant_current_capability (me : nat) (oid rs : Z) (s : sched) : option (sched * Z) :=
  c ← CPUS s !! me;
  match current c with
  | None => Some (s, 0)
  | Some t =>
      let '(k, tab, cid) := grant (cap_table t) oid rs (kernel_on me s) in
      Some (set_kobj k (put_cpu me (set_current (Some (set_table tab t)) c) s), cid)
  end.

Definition resolve_current_capability (me : nat) (cap_id required : Z) (s : sched)
  : option (sched * result Capability CapError) :=
  c ← CPUS s !! me;
  match current c with
  | None => Some (s, Err NoSuchCapability)
  | Some t => let '(k, r) := resolve (cap_table t) cap_id required (kernel_on me s) in Some (set_kobj k s, r)
  end.

Definition current_has_file_capability (me : nat) (inode required : Z) (s : sched) : option (sched * bool) :=
  c ← CPUS s !! me;
  match current c with
  | None => Some (s, false)
  | Some t =>
      let '(k, r) := find_file_capability (cap_table t) inode required (kernel_on me s) in
      Some (set_kobj k s, bool_decide (is_Some r))
  end.

Definition current_has_any_file_capability (me : nat) (required : Z) (s : sched) : option (sched * bool) :=
  c ← CPUS s !! me;
  match current c with
  | None => Some (s, false)
  | Some t =>
      let '(k, r) := has_any_file_capability (cap_table t) required (kernel_on me s) in Some (set_kobj k s, r)
  end.

Definition resolve_file_capability (me : nat) (cap_id required : Z) (s : sched) : option (sched * option Z) :=
  '(s, r) ← resolve_current_capability me cap_id required s;
  Some (s, match r with
           | Ok cap => match object_kind (KOBJ s) (object_id cap) with Some (FileObject inode) => Some inode | _ => None end
           | Err _ => None
           end).

Definition current_kernel_stack_top (me : nat) (s : sched) : Z :=
  match (c ← CPUS s !! me; current c) with Some t => stack_top t | None => 0 end.

Definition set_current_address_space (me : nat) (pml4 : Z) (s : sched) : option sched :=
  with_current me (set_space pml4) s.

Definition init_as_current_thread (me : nat) (stack : Z) (s : sched) : option sched :=
  let tid := NEXT_TID s in
  let t := mkThread tid Running 0 stack 0 (KERNEL_PML4_PHYS (VM s)) table_new (replicate IOPB_BYTES 0xFF) in
  with_cpu me (set_current (Some t)) (set_tid (u64 (tid + 1)) s).

Definition snapshot_cpu (kernel_pml4 : Z) (c : percpu) : list (Z * ThreadState * bool) :=
  match current c with Some t => [(id t, Running, negb (address_space t =? kernel_pml4))] | None => [] end ++
  match queue c with
  | Some q => (fun t => (id t, state t, negb (address_space t =? kernel_pml4))) <$> q
  | None => []
  end.

Definition snapshot (s : sched) : list (Z * ThreadState * bool) :=
  c ← CPUS s; snapshot_cpu (KERNEL_PML4_PHYS (VM s)) c.

(** ** The scheduler *)

(** Drop what the previous exit left behind. *)
Definition reap (me : nat) (s : sched) : option sched :=
  c ← CPUS s !! me;
  match zombie c with
  | None => Some s
  | Some z =>
      let c := set_zombie None c in
      let space := address_space z in
      if negb (space =? 0) && negb (space =? KERNEL_PML4_PHYS (VM s)) then
        v ← destroy_address_space space (vmm_on c s);
        Some (set_vm v (put_cpu me (set_reg (set_cr3 (CR3 v) (reg c)) c) s))
      else Some (put_cpu me c s)
  end.

(** The scan for the longest other queue: [(best_cpu, best_len)], [None] for
    [usize::MAX]. *)
Definition scan_victim (me : nat) (best : option nat * nat) (ic : nat * percpu) : option nat * nat :=
  let '(cpu, c) := ic in
  if (cpu =? me)%nat then best else
  match queue c with
  | Some q => if (best.2 <? length q)%nat then (Some cpu, length q) else best
  | None => best
  end.

Definition best_victim (me : nat) (s : sched) : option nat :=
  (foldl (scan_victim me) (None, 0%nat) (zip (seq 0 (length (CPUS s))) (CPUS s))).1.

(** [Vec::pop_back]. *)
Definition pop_back (q : list Thread) : option (list Thread * Thread) :=
  match last q with Some t => Some (removelast q, t) | None => None end.

(** The next thread of CPU [me]: the head of its own queue, else the tail of the
    longest other queue; the inner [None] is the bail-out. *)
Definition pick_next (me : nat) (s : sched) : option (option (sched * Thread)) :=
  c ← CPUS s !! me;
  match queue c with
  | Some (t :: rest) => Some (Some (put_cpu me (set_queue (Some rest) c) s, t))
  | _ =>
      match best_victim me s with
      | None => Some None
      | Some victim =>
          v ← CPUS s !! victim;
          q ← queue v;
          match pop_back q with
          | Some (rest, stolen) => Some (Some (put_cpu victim (set_queue (Some rest) v) s, stolen))
          | None => Some None
          end
      end
  end.

(** Make [next] the running thread of [me] and load its stacks and bitmap. *)
Definition dispatch (me : nat) (outgoing : Z) (next : Thread) (s : sched) : option sched :=
  let next := set_state Running next in
  let top := stack_top next in
  s ← record_switch outgoing (id next) top s;
  with_cpu me (fun c =>
    let c := set_tss (gdt_set_kernel_stack top (tss c)) c in
    let c := set_kernel_rsp top c in
    let c := set_tss (set_iopb (iopb next) (tss c)) c in
    let c := set_current (Some next) c in
    set_pending (Some (outgoing, saved_rsp next, address_space next)) c) s.

(** Releasing the lock is the end of the atomic step; [sti] if the caller had
    interrupts on. *)
Definition bail (me : nat) (caller_if : bool) (s : sched) : option sched :=
  with_cpu me (fun c => set_reg (set_if (caller_if || iflag (reg c)) (reg c)) c) s.

(** Take the running thread off the CPU: requeue it, or stash it as the zombie
    if it exited. *)
Definition put_away (cur : Thread) (threads : list Thread) (c : percpu) : percpu :=
  let cur := if decide (state cur = Running) then set_state Ready cur else cur in
  let c := set_current None c in
  if decide (state cur = Exited) then set_zombie (Some cur) c else set_queue (Some (threads ++ [cur])) c.

Definition schedule_locked (me : nat) (caller_if : bool) (s : sched) : option sched :=
  s ← reap me s;
  c ← CPUS s !! me;
  match queue c with
  | None => bail me caller_if s
  | Some threads =>
      match current c with
      | None => bail me caller_if s
      | Some cur =>
          let s := put_cpu me (put_away cur threads c) s in
          r ← pick_next me s;
          match r with
          | None => bail me caller_if s
          | Some (s, next) => dispatch me (id cur) next s
          end
      end
  end.

(** [schedule] up to the release of the lock: [cli], remembering the flag. *)
Definition schedule (me : nat) (s : sched) : option sched :=
  c ← CPUS s !! me;
  schedule_locked me (iflag (reg c)) (put_cpu me (set_reg (set_if false (reg c)) c) s).

(** ** The context switch *)

(** [*old_rsp_slot = sp]: the slot lies in the outgoing thread's box, wherever
    that box has moved to. *)
Definition map_threads (f : Thread -> Thread) (c : percpu) : percpu :=
  set_zombie (option_map f (zombie c)) (set_current (option_map f (current c)) (set_queue (option_map (map f) (queue c)) c)).

Definition store_rsp (tid sp : Z) (s : sched) : sched :=
  set_cpus (map (map_threads (fun t => if id t =? tid then set_rsp sp t else t)) (CPUS s)) s.

Definition push (v : Z) (sm : Z * (Z -> Z)) : Z * (Z -> Z) := (u64 (sm.1 - 8), wr64 sm.2 (u64 (sm.1 - 8)) v).

(** The instructions of [switch_to] after the call pushed [ret]: the registers
    and memory, and the stack pointer it stores for the outgoing thread. *)
Definition switch_regs (ret new_rsp new_cr3 : Z) (r : regs) (m : Z -> Z) : regs * (Z -> Z) * Z :=
  let sm := push (r15 r) (push (r14 r) (push (r13 r) (push (r12 r) (push (rbx r) (push (rbp r) (push ret (rsp r, m))))))) in
  let '(old_sp, m) := sm in
  let c := if cr3 r =? new_cr3 then cr3 r else new_cr3 in
  let at_ k := rd64 m (u64 (new_rsp + 8 * k)) in
  (mkRegs (at_ 0) (at_ 1) (at_ 2) (at_ 3) (at_ 4) (at_ 5) (u64 (new_rsp + 56)) (at_ 6) c (iflag r), m, old_sp).

Definition switch_to (ret : Z) (me : nat) (s : sched) : option sched :=
  c ← CPUS s !! me;
  match pending c with
  | None => None
  | Some (outgoing, new_rsp, new_cr3) =>
      let '(r, m, old_sp) := switch_regs ret new_rsp new_cr3 (reg c) (KMEM s) in
      Some (set_kmem m (store_rsp outgoing old_sp (put_cpu me (set_pending None (set_reg r c)) s)))
  end.

(** [thread_trampoline]: pop the entry function, enable interrupts, call it. *)
Definition trampoline_step (after : Z) (r : regs) (m : Z -> Z) : regs * (Z -> Z) :=
  let entry := rd64 m (rsp r) in
  let '(sp, m) := push after (u64 (rsp r + 8), m) in
  (mkRegs (r15 r) (r14 r) (r13 r) (r12 r) (rbx r) (rbp r) sp entry (cr3 r) true, m).

(** [user_process_trampoline]: pop the two arguments of [enter_user_process]. *)
Definition user_trampoline_args (r : regs) (m : Z -> Z) : Z * Z := (rd64 m (rsp r), rd64 m (u64 (rsp r + 8))).

(** ** Exits *)

Definition exit_current (me : nat) (s : sched) : option sched := with_current me (set_state Exited) s.

Definition kill_current_and_reschedule (me : nat) (s : sched) : option sched :=
  s ← with_current me (set_state Exited) s; schedule me s.
