(* ===== verification/ThreadInv.v ===== *)
(** * Invariants of the scheduler

    The step relation of [Thread] (every operation of every CPU, in any order),
    the placement invariant of the threads, and the isolation of the port
    permission bitmaps. *)

From S2P Require Import Prelude AuditLog Capability Bits Pmm Vmm Gdt Critical Policy Thread.

(** ** Steps

    What the CPUs can do to the scheduler's state.  A CPU whose switch is
    pending can only execute it.  [StepElse] is everything the kernel and its
    threads do elsewhere: it may change memory, registers, kernel objects and
    page tables in any way.  The event of a step records which CPU ran the
    scheduler, and which thread was given which port. *)

Inductive event := Quiet | Scheduled (cpu : nat) | PortAllowed (tid port : Z).

Definition at_rest (me : nat) (s : sched) : Prop := exists c, CPUS s !! me = Some c /\ pending c = None.

Inductive sched_step (s : sched) : event -> sched -> Prop :=
  | StepSpawn tt me entry a stk s' tid : at_rest me s -> spawn_in_locked tt me entry a stk s = Some (s', tid) -> sched_step s Quiet s'
  | StepSpawnUser ut me entry ursp a stk s' tid : at_rest me s -> spawn_user ut me entry ursp a stk s = Some (s', tid) -> sched_step s Quiet s'
  | StepPinned tt me target entry a stk s' tid : at_rest me s -> spawn_pinned_to_cpu tt target entry a stk s = Some (s', tid) -> sched_step s Quiet s'
  | StepCaps tt me entry a gs stk s' tid : at_rest me s -> spawn_with_capabilities tt me entry a gs stk s = Some (s', tid) -> sched_step s Quiet s'
  | StepManifest tt me entry a gs m stk s' tid : at_rest me s -> spawn_with_manifest tt me entry a gs m stk s = Some (s', tid) -> sched_step s Quiet s'
  | StepAllow me port s' : at_rest me s -> 0 <= port -> allow_port_for_current me port s = Some s' ->
      sched_step s (PortAllowed (current_id me s) port) s'
  | StepDeny me port s' : at_rest me s -> 0 <= port -> deny_port_for_current me port s = Some s' -> sched_step s Quiet s'
  | StepGrant me oid rs s' cid : at_rest me s -> grant_current_capability me oid rs s = Some (s', cid) -> sched_step s Quiet s'
  | StepSetSpace me a s' : at_rest me s -> set_current_address_space me a s = Some s' -> sched_step s Quiet s'
  | StepInit me stk c s' : at_rest me s -> CPUS s !! me = Some c -> current c = None ->
      tss_iopb (tss c) = replicate IOPB_BYTES 0xFF -> init_as_current_thread me stk s = Some s' -> sched_step s Quiet s'
  | StepExit me s' : at_rest me s -> exit_current me s = Some s' -> sched_step s Quiet s'
  | StepSchedule me s' : at_rest me s -> schedule me s = Some s' -> sched_step s (Scheduled me) s'
  | StepKill me s' : at_rest me s -> kill_current_and_reschedule me s = Some s' -> sched_step s (Scheduled me) s'
  | StepSwitch me ret s' : switch_to ret me s = Some s' -> sched_step s Quiet s'
  | StepElse me c r m k v : at_rest me s -> CPUS s !! me = Some c ->
      sched_step s Quiet (set_vm v (set_kobj k (set_kmem m (put_cpu me (set_reg r c) s)))).

Definition cpu_init (r : regs) : percpu := mkCpu None None None TSS_ZERO 0 r None.

(** The boot state: empty slots, the default task state on every CPU. *)
Definition boots (s : sched) : Prop :=
  NEXT_TID s = 1 /\ length (CPUS s) = MAX_CPUS /\ (forall c, c ∈ CPUS s -> exists r, c = cpu_init r) /\
  SWITCH_LOG s = replicate (Z.to_nat SWITCH_LOG_LEN * 3) 0 /\ SWITCH_LOG_POS s = 0.

Inductive sched_reach : list event -> sched -> Prop :=
  | reach_boot s : boots s -> sched_reach [] s
  | reach_step tr s l s' : sched_reach tr s -> sched_step s l s' -> sched_reach (tr ++ [l]) s'.

(** Runs too short for the 64-bit thread counter to wrap. *)
Definition bounded_run (tr : list event) : Prop := Z.of_nat (length tr) + 2 < 2 ^ 64.

(** ** The thread population *)

Definition ids (o : option Thread) : list Z := match o with Some t => [id t] | None => [] end.
Definition cpu_tids (c : percpu) : list Z := (id <$> default [] (queue c)) ++ ids (current c) ++ ids (zombie c).
Definition tids (s : sched) : list Z := CPUS s ≫= cpu_tids.

(** The state each place implies, and the running thread's bitmap is the live
    one. *)
Record cpu_ok (c : percpu) : Prop := {
  ok_queue : Forall (fun t => state t = Ready /\ iopb_ok (iopb t)) (default [] (queue c));
  ok_current t : current c = Some t -> state t <> Ready /\ iopb_ok (iopb t) /\ iopb t = tss_iopb (tss c);
  ok_zombie t : zombie c = Some t -> state t = Exited }.

Record sched_ok (n : nat) (s : sched) : Prop := {
  ok_cpus : length (CPUS s) = MAX_CPUS;
  ok_each : Forall cpu_ok (CPUS s);
  ok_unique : NoDup (tids s);
  ok_range : Forall (fun i => 0 < i < NEXT_TID s) (tids s);
  ok_next : 0 < NEXT_TID s <= Z.of_nat n + 1 }.

Lemma tids_split me c s :
  CPUS s !! me = Some c -> exists rest, tids s ≡ₚ cpu_tids c ++ rest /\ forall c', tids (put_cpu me c' s) ≡ₚ cpu_tids c' ++ rest.
Proof.
  intros Hc. exists ((take me (CPUS s) ≫= cpu_tids) ++ (drop (S me) (CPUS s) ≫= cpu_tids)). split.
  - unfold tids. rewrite <- (take_drop_middle _ _ _ Hc) at 1. rewrite bind_app, bind_cons. by rewrite Permutation_app_swap_app.
  - intros c'. unfold tids, put_cpu. cbn [CPUS set_cpus].
    rewrite insert_take_drop by (by eapply lookup_lt_Some). rewrite bind_app, bind_cons. by rewrite Permutation_app_swap_app.
Qed.

Lemma tids_put me c c' s : CPUS s !! me = Some c -> cpu_tids c' ≡ₚ cpu_tids c -> tids (put_cpu me c' s) ≡ₚ tids s.
Proof. intros Hc Hp. destruct (tids_split me c s Hc) as (rest & -> & ->). by rewrite Hp. Qed.

Lemma submseteq_NoDup {A} (l k : list A) : l ⊆+ k -> NoDup k -> NoDup l.
Proof. intros [k' ->]%submseteq_Permutation [? _]%NoDup_app. done. Qed.

(** Keeping the threads, dropping some, or adding the one with the next id
    keeps the invariant. *)
Lemma sched_ok_keep n s s' :
  sched_ok n s -> length (CPUS s') = length (CPUS s) -> Forall cpu_ok (CPUS s') ->
  tids s' ⊆+ tids s -> NEXT_TID s' = NEXT_TID s -> sched_ok n s'.
Proof.
  intros [Hl Hc Hu Hr Hn] Hl' Hc' Hsub HN.
  split; [congruence|done|by eapply submseteq_NoDup| |by rewrite HN]. rewrite HN.
  apply Forall_forall. intros i Hi. apply (proj1 (Forall_forall _ _) Hr). by eapply elem_of_submseteq.
Qed.

Lemma sched_ok_fresh n s s' :
  sched_ok n s -> length (CPUS s') = length (CPUS s) -> Forall cpu_ok (CPUS s') ->
  tids s' ⊆+ NEXT_TID s :: tids s -> Z.of_nat n + 2 < 2 ^ 64 -> NEXT_TID s' = u64 (NEXT_TID s + 1) -> sched_ok (S n) s'.
Proof.
  intros [Hl Hc Hu Hr Hn] Hl' Hc' Hsub Hb HN. rewrite wrap_small in HN by (red; lia).
  assert (Forall (fun i => 0 < i < NEXT_TID s') (NEXT_TID s :: tids s)) as Hall.
  { apply Forall_cons. split; [lia|]. eapply Forall_impl; [exact Hr|]. cbn. lia. }
  split; [congruence|done| | |lia].
  - eapply submseteq_NoDup; [exact Hsub|]. apply NoDup_cons. split; [|done].
    intros Hin. pose proof (proj1 (Forall_forall _ _) Hr _ Hin) as H. cbn in H. lia.
  - apply Forall_forall. intros i Hi. apply (proj1 (Forall_forall _ _) Hall). by eapply elem_of_submseteq.
Qed.

Lemma sched_ok_mono n s : sched_ok n s -> sched_ok (S n) s.
Proof. intros []. split; try done. lia. Qed.

Lemma cpu_ok_at n s me c : sched_ok n s -> CPUS s !! me = Some c -> cpu_ok c.
Proof. intros Hs Hc. by eapply (proj1 (Forall_lookup _ _) (ok_each _ _ Hs)). Qed.

Lemma tids_ext s s' : CPUS s' = CPUS s -> tids s' = tids s.
Proof. unfold tids. by intros ->. Qed.

(** The same for a change of one CPU. *)
Lemma put_cpu_keep n s s' me c c' :
  sched_ok n s -> CPUS s !! me = Some c -> CPUS s' = <[me := c']> (CPUS s) -> cpu_ok c' ->
  cpu_tids c' ⊆+ cpu_tids c -> NEXT_TID s' = NEXT_TID s -> sched_ok n s'.
Proof.
  intros Hs Hc Hs' Hok Hsub HN. apply (sched_ok_keep n s s'); try done.
  - by rewrite Hs', length_insert.
  - rewrite Hs'. apply Forall_insert; [apply Hs|done].
  - rewrite (tids_ext (put_cpu me c' s) s') by done.
    destruct (tids_split me c s Hc) as (rest & -> & ->). by apply submseteq_app.
Qed.

Lemma put_cpu_fresh n s s' me c c' :
  sched_ok n s -> CPUS s !! me = Some c -> CPUS s' = <[me := c']> (CPUS s) -> cpu_ok c' ->
  cpu_tids c' ⊆+ NEXT_TID s :: cpu_tids c -> Z.of_nat n + 2 < 2 ^ 64 -> NEXT_TID s' = u64 (NEXT_TID s + 1) -> sched_ok (S n) s'.
Proof.
  intros Hs Hc Hs' Hok Hsub Hn HN. apply (sched_ok_fresh n s s'); try done.
  - by rewrite Hs', length_insert.
  - rewrite Hs'. apply Forall_insert; [apply Hs|done].
  - rewrite (tids_ext (put_cpu me c' s) s') by done.
    destruct (tids_split me c s Hc) as (rest & -> & ->). rewrite app_comm_cons. by apply submseteq_app.
Qed.

(** ** Preservation *)

Lemma with_cpu_Some me f s s' :
  with_cpu me f s = Some s' <-> exists c, CPUS s !! me = Some c /\ s' = put_cpu me (f c) s.
Proof. unfold with_cpu. destruct (CPUS s !! me); naive_solver. Qed.

Lemma build_thread_facts words stk a s s1 t :
  build_thread words stk a s = (s1, t) ->
  CPUS s1 = CPUS s /\ NEXT_TID s1 = u64 (NEXT_TID s + 1) /\ KOBJ s1 = KOBJ s /\ VM s1 = VM s /\
  id t = NEXT_TID s /\ state t = Ready /\ cap_table t = table_new /\ address_space t = a /\
  iopb t = replicate IOPB_BYTES 0xFF.
Proof. unfold build_thread. destruct (push_words _ _). by intros [= <- <-]. Qed.

Lemma push_back_ok c t : cpu_ok c -> state t = Ready -> iopb_ok (iopb t) -> cpu_ok (push_back t c).
Proof.
  intros [Hq Hcur Hz] Ht Hi. split; cbn; [|done|done]. apply Forall_app. split; [done|]. by apply Forall_singleton.
Qed.

Lemma push_back_tids c t : cpu_tids (push_back t c) ≡ₚ id t :: cpu_tids c.
Proof.
  unfold cpu_tids. cbn. rewrite fmap_app, <- app_assoc. cbn. by rewrite <- Permutation_middle.
Qed.

Lemma spawn_at_ok n words stk a me s s1 t s2 :
  sched_ok n s -> Z.of_nat n + 2 < 2 ^ 64 -> build_thread words stk a s = (s1, t) ->
  with_cpu me (push_back t) s1 = Some s2 -> sched_ok (S n) s2.
Proof.
  intros Hs Hn Hb%build_thread_facts (c & Hc & ->)%with_cpu_Some.
  destruct Hb as (HC & HN & _ & _ & Hid & Hst & _ & _ & Hi). rewrite HC in Hc.
  apply (put_cpu_fresh n s _ me c (push_back t c)); try done.
  - cbn. by rewrite HC.
  - apply push_back_ok; [by eapply cpu_ok_at|done|]. rewrite Hi. apply denied_iopb_ok.
  - by rewrite push_back_tids, Hid.
Qed.

Lemma grant_to_ok n me tid one gs s s' :
  sched_ok n s -> grant_to me tid one gs s = Some s' -> sched_ok n s'.
Proof.
  intros Hs Hg. unfold grant_to in Hg. destruct (CPUS s !! me) as [c|] eqn:Hc; [cbn in Hg|done].
  destruct (queue c) as [q|] eqn:Hq; [|by simplify_eq].
  destruct (list_find _ q) as [[i t]|] eqn:Hf; [|by simplify_eq].
  destruct (foldl one _ gs) as [k tab]. injection Hg as <-.
  apply list_find_Some in Hf as (Hi & _ & _).
  destruct (cpu_ok_at _ _ _ _ Hs Hc) as [Hqs Hcur Hz]. rewrite Hq in Hqs. cbn in Hqs.
  eapply (put_cpu_keep n s _ me c (set_queue (Some (<[i:=set_table tab t]> q)) c)); try done.
  - split; cbn; [|done|done]. apply Forall_insert; [done|]. exact (proj1 (Forall_lookup _ _) Hqs _ _ Hi).
  - unfold cpu_tids. cbn. rewrite Hq. cbn. rewrite list_fmap_insert. cbn.
    rewrite list_insert_id; [done|]. by rewrite list_lookup_fmap, Hi.
Qed.

Lemma update_port_ok n upd me port s s' :
  (forall b, iopb_ok b -> exists b', upd b port = Some b' /\ iopb_ok b') ->
  sched_ok n s -> update_port upd me port s = Some s' -> sched_ok n s'.
Proof.
  intros Hu Hs Hp. unfold update_port in Hp. destruct (CPUS s !! me) as [c|] eqn:Hc; [cbn in Hp|done].
  destruct (current c) as [t|] eqn:Ht; [|by simplify_eq].
  destruct (cpu_ok_at _ _ _ _ Hs Hc) as [Hqs Hcur Hz]. destruct (Hcur t Ht) as (Hst & Hi & _).
  destruct (Hu _ Hi) as (b & Hb & Hbok). rewrite Hb in Hp. injection Hp as <-.
  eapply (put_cpu_keep n s _ me c); [done|done|reflexivity| | |done].
  - split; cbn; [done| |done]. intros ? [= <-]. done.
  - unfold cpu_tids. cbn. by rewrite Ht.
Qed.

(** Any change of the running thread that keeps its id and bitmap and does not
    make it ready. *)
Lemma with_current_ok n me f s s' :
  (forall t, id (f t) = id t /\ (state t <> Ready -> state (f t) <> Ready) /\ iopb (f t) = iopb t) ->
  sched_ok n s -> with_current me f s = Some s' -> sched_ok n s'.
Proof.
  intros Hf Hs (c & Hc & ->)%with_cpu_Some. destruct (cpu_ok_at _ _ _ _ Hs Hc) as [Hqs Hcur Hz].
  eapply (put_cpu_keep n s _ me c); [done|done|reflexivity| | |done].
  - split; cbn; [done| |done]. intros t' (t & Ht & ->)%fmap_Some. destruct (Hf t) as (? & Hst & ->).
    destruct (Hcur t Ht) as (? & ? & ?). auto.
  - unfold cpu_tids. cbn. destruct (current c) as [t|]; cbn; [|done]. destruct (Hf t) as (-> & _). done.
Qed.

(** *** The scheduler *)

(** [reap] empties the zombie slot of [me], and nothing else the scheduler
    keeps. *)
Lemma reap_facts me s s1 c :
  reap me s = Some s1 -> CPUS s !! me = Some c ->
  exists r, CPUS s1 = <[me := set_reg r (set_zombie None c)]> (CPUS s) /\ iflag r = iflag (reg c) /\
    NEXT_TID s1 = NEXT_TID s /\ SWITCH_LOG s1 = SWITCH_LOG s /\ SWITCH_LOG_POS s1 = SWITCH_LOG_POS s /\
    KMEM s1 = KMEM s /\ KOBJ s1 = KOBJ s.
Proof.
  unfold reap. intros Hr Hc. rewrite Hc in Hr. cbn in Hr. destruct (zombie c) as [z|] eqn:Hz.
  - destruct (negb _ && _).
    + bind_inv. eexists. split; [reflexivity|]. done.
    + injection Hr as <-. exists (reg c). split; [by destruct c|done].
  - injection Hr as <-. exists (reg c). split; [|done]. symmetry. apply list_insert_id. rewrite Hc. f_equal.
    destruct c; cbn in *; by subst.
Qed.

Lemma reap_zombie me s s1 c1 : reap me s = Some s1 -> CPUS s1 !! me = Some c1 -> zombie c1 = None.
Proof.
  intros Hr Hc1. assert (exists c, CPUS s !! me = Some c) as [c Hc].
  { unfold reap in Hr. destruct (CPUS s !! me); [eauto|done]. }
  destruct (reap_facts _ _ _ _ Hr Hc) as (r & HC & _). rewrite HC in Hc1.
  rewrite list_lookup_insert_eq in Hc1 by by eapply lookup_lt_Some. by simplify_eq.
Qed.

Lemma put_away_tids cur q c :
  queue c = Some q -> current c = Some cur -> zombie c = None -> cpu_tids (put_away cur q c) ≡ₚ cpu_tids c.
Proof.
  intros Hq Hc Hz. unfold put_away, cpu_tids. rewrite Hq, Hc, Hz.
  assert (id (if decide (state cur = Running) then set_state Ready cur else cur) = id cur) as Hid by by case_decide.
  set (cur' := if decide (state cur = Running) then _ else _) in *.
  case_decide; cbn; rewrite ?Hq, ?Hz, ?fmap_app, <-?app_assoc; cbn; rewrite ?Hid, ?app_nil_r; done.
Qed.

Lemma put_away_ok cur q c :
  cpu_ok c -> queue c = Some q -> current c = Some cur -> cpu_ok (put_away cur q c).
Proof.
  intros [Hqs Hcur Hz] Hq Hc. rewrite Hq in Hqs. cbn in Hqs. destruct (Hcur cur Hc) as (Hst & Hi & _).
  unfold put_away. destruct (state cur) eqn:Es; [congruence| |].
  - rewrite (decide_True (P := Running = Running)) by done. rewrite decide_False by done. split; cbn; [|done|done].
    apply Forall_app. split; [done|]. by apply Forall_singleton.
  - rewrite (decide_False (P := Exited = Running)) by done. rewrite decide_True by done.
    split; cbn; [by rewrite Hq|done|]. by intros ? [= <-].
Qed.

(** The CPU chosen to steal from is another one with a non-empty queue. *)
Lemma scan_victim_spec me cs i best v :
  (forall w, best.1 = Some w -> w <> me /\ exists c q, cs !! w = Some c /\ queue c = Some q /\ q <> []) ->
  (foldl (scan_victim me) best (zip (seq i (length cs - i)) (drop i cs))).1 = Some v ->
  v <> me /\ exists c q, cs !! v = Some c /\ queue c = Some q /\ q <> [].
Proof.
  remember (length cs - i)%nat as k eqn:Hk. revert i best Hk. induction k as [|k IH]; intros i best Hk Hb Hf; [by apply Hb|].
  destruct (lookup_lt_is_Some_2 cs i) as [c Hc]; [lia|].
  rewrite (drop_S _ _ _ Hc) in Hf. cbn [seq zip zip_with foldl] in Hf. eapply (IH (S i)); [lia| |exact Hf].
  intros w. unfold scan_victim. destruct (i =? me)%nat eqn:Hi; [apply Hb|]. apply Nat.eqb_neq in Hi.
  destruct (queue c) as [q|] eqn:Hq; [|apply Hb]. destruct (best.2 <? length q)%nat eqn:Hl; [|apply Hb].
  cbn. intros [= <-]. split; [done|]. exists c, q. apply Nat.ltb_lt in Hl. split_and!; [done|done|]. intros ->. cbn in Hl. lia.
Qed.

Lemma best_victim_spec me s v :
  best_victim me s = Some v -> v <> me /\ exists c q t, CPUS s !! v = Some c /\ queue c = Some (q ++ [t]).
Proof.
  intros Hv. unfold best_victim in Hv.
  destruct (scan_victim_spec me (CPUS s) 0 (None, 0%nat) v) as (Hne & c & q & Hc & Hq & Hnil).
  - done.
  - rewrite Nat.sub_0_r, drop_0. exact Hv.
  - split; [done|]. destruct (exists_last Hnil) as (q' & t & ->). eauto 6.
Qed.

Lemma pop_back_app q t : pop_back (q ++ [t]) = Some (q, t).
Proof. unfold pop_back. by rewrite last_snoc, removelast_last. Qed.

(** Where the next thread comes from. *)
Inductive picked (me : nat) (s : sched) : sched -> Thread -> Prop :=
  | PickOwn c t rest : CPUS s !! me = Some c -> queue c = Some (t :: rest) ->
      picked me s (put_cpu me (set_queue (Some rest) c) s) t
  | PickStolen c v cv t rest : CPUS s !! me = Some c -> default [] (queue c) = [] -> v <> me ->
      CPUS s !! v = Some cv -> queue cv = Some (rest ++ [t]) ->
      picked me s (put_cpu v (set_queue (Some rest) cv) s) t.

Lemma pick_next_spec me s r :
  pick_next me s = Some r ->
  match r with
  | Some (s1, t) => picked me s s1 t
  | None => exists c, CPUS s !! me = Some c /\ default [] (queue c) = [] /\ best_victim me s = None
  end.
Proof.
  unfold pick_next. destruct (CPUS s !! me) as [c|] eqn:Hc; [cbn|done].
  assert (default [] (queue c) = [] ->
    match best_victim me s with
    | Some v => cv ← CPUS s !! v; q ← queue cv;
        match pop_back q with
        | Some (rest, t) => Some (Some (put_cpu v (set_queue (Some rest) cv) s, t))
        | None => Some None
        end
    | None => Some None
    end = Some r -> match r with Some (s1, t) => picked me s s1 t | None => exists c, CPUS s !! me = Some c /\ default [] (queue c) = [] /\ best_victim me s = None end) as Hsteal.
  { intros Hempty. destruct (best_victim me s) as [v|] eqn:Hb; [|intros [= <-]; by exists c].
    apply best_victim_spec in Hb as (Hne & cv & q & t & Hv & Hq). rewrite Hv. cbn. rewrite Hq. cbn. rewrite pop_back_app.
    intros [= <-]. by eapply PickStolen. }
  destruct (queue c) as [[|t rest]|] eqn:Hq; [| |].
  - intros Hr. specialize (Hsteal eq_refl Hr). destruct r as [[s1 t]|]; naive_solver.
  - intros [= <-]. by eapply PickOwn.
  - intros Hr. specialize (Hsteal eq_refl Hr). destruct r as [[s1 t]|]; naive_solver.
Qed.

(** The CPU after a dispatch. *)
Definition dispatched (outgoing : Z) (next : Thread) (c : percpu) : percpu :=
  mkCpu (queue c) (Some (set_state Running next)) (zombie c)
    (mkTss (stack_top next) (ist (tss c)) (iomap_base (tss c)) (iopb next)) (stack_top next) (reg c)
    (Some (outgoing, saved_rsp next, address_space next)).

Lemma record_switch_facts f t top s s' :
  record_switch f t top s = Some s' -> exists l, s' = set_log l (u64 (SWITCH_LOG_POS s + 1)) s.
Proof. unfold record_switch. intros H. bind_inv. eauto. Qed.

Lemma dispatch_facts me out next s s' :
  dispatch me out next s = Some s' ->
  exists c l, CPUS s !! me = Some c /\
    s' = put_cpu me (dispatched out next c) (set_log l (u64 (SWITCH_LOG_POS s + 1)) s) /\
    record_switch out (id next) (stack_top next) s = Some (set_log l (u64 (SWITCH_LOG_POS s + 1)) s).
Proof.
  unfold dispatch. intros H. bind_inv. destruct (record_switch_facts _ _ _ _ _ E) as [l ->].
  apply with_cpu_Some in H as (c & Hc & ->). exists c, l. done.
Qed.

(** The branches of [schedule_locked]. *)
Inductive scheduled (me : nat) (b : bool) (s : sched) : sched -> Prop :=
  | SchedIdle s1 c1 s' : reap me s = Some s1 -> CPUS s1 !! me = Some c1 -> queue c1 = None \/ current c1 = None ->
      bail me b s1 = Some s' -> scheduled me b s s'
  | SchedStuck s1 c1 q cur s' : reap me s = Some s1 -> CPUS s1 !! me = Some c1 ->
      queue c1 = Some q -> current c1 = Some cur ->
      pick_next me (put_cpu me (put_away cur q c1) s1) = Some None ->
      bail me b (put_cpu me (put_away cur q c1) s1) = Some s' -> scheduled me b s s'
  | SchedSwitch s1 c1 q cur s2 next s' : reap me s = Some s1 -> CPUS s1 !! me = Some c1 ->
      queue c1 = Some q -> current c1 = Some cur ->
      picked me (put_cpu me (put_away cur q c1) s1) s2 next ->
      dispatch me (id cur) next s2 = Some s' -> scheduled me b s s'.

Lemma schedule_locked_cases me b s s' : schedule_locked me b s = Some s' -> scheduled me b s s'.
Proof.
  unfold schedule_locked. destruct (reap me s) as [s1|] eqn:Hr; [cbn|done].
  destruct (CPUS s1 !! me) as [c1|] eqn:Hc; [cbn|done].
  destruct (queue c1) as [q|] eqn:Hq; [|intros Hb; eapply SchedIdle; eauto].
  destruct (current c1) as [cur|] eqn:Hcur; [|intros Hb; eapply SchedIdle; eauto].
  destruct (pick_next me _) as [[[s2 next]|]|] eqn:Hp; cbn; [| |done].
  - intros Hd. eapply SchedSwitch; eauto. exact (pick_next_spec _ _ _ Hp).
  - intros Hb. eapply SchedStuck; eauto.
Qed.

Lemma reap_ok n me s s1 : sched_ok n s -> reap me s = Some s1 -> sched_ok n s1.
Proof.
  intros Hs Hr. assert (exists c, CPUS s !! me = Some c) as [c Hc].
  { unfold reap in Hr. destruct (CPUS s !! me); [eauto|done]. }
  destruct (reap_facts _ _ _ _ Hr Hc) as (r & HC & _ & HN & _).
  destruct (cpu_ok_at _ _ _ _ Hs Hc) as [Hq Hcur Hz].
  eapply (put_cpu_keep n s s1 me c); [done|done|exact HC|by split| |done].
  unfold cpu_tids. cbn. rewrite app_nil_r, app_assoc. by apply submseteq_inserts_r.
Qed.

Lemma bail_ok n me b s s' : sched_ok n s -> bail me b s = Some s' -> sched_ok n s'.
Proof.
  intros Hs (c & Hc & ->)%with_cpu_Some. destruct (cpu_ok_at _ _ _ _ Hs Hc).
  eapply (put_cpu_keep n s _ me c); [done|done|reflexivity|by split|done|done].
Qed.

Lemma put_away_sched_ok n me cur q c s :
  sched_ok n s -> CPUS s !! me = Some c -> queue c = Some q -> current c = Some cur -> zombie c = None ->
  sched_ok n (put_cpu me (put_away cur q c) s).
Proof.
  intros Hs Hc Hq Hcur Hz. eapply (put_cpu_keep n s _ me c); [done|done|reflexivity| | |done].
  - apply put_away_ok; eauto using cpu_ok_at.
  - by rewrite put_away_tids.
Qed.

(** Taking a thread from a queue. *)
Lemma picked_facts n me s s1 t :
  sched_ok n s -> picked me s s1 t ->
  sched_ok n s1 /\ tids s ≡ₚ id t :: tids s1 /\ iopb_ok (iopb t) /\ state t = Ready.
Proof.
  intros Hs [c t' rest Hc Hq|c v cv t' rest Hc He Hne Hv Hq].
  - destruct (cpu_ok_at _ _ _ _ Hs Hc) as [Hqs Hcur Hz]. rewrite Hq in Hqs. cbn in Hqs.
    apply Forall_cons in Hqs as [[Hst Hi] Hqs]. split_and!; [| |done|done].
    + eapply (put_cpu_keep n s _ me c); [done|done|reflexivity|by split| |done].
      unfold cpu_tids. cbn. rewrite Hq. cbn. by apply submseteq_cons.
    + destruct (tids_split me c s Hc) as (r & -> & ->). unfold cpu_tids. cbn. by rewrite Hq.
  - destruct (cpu_ok_at _ _ _ _ Hs Hv) as [Hqs Hcur Hz]. rewrite Hq in Hqs. cbn in Hqs.
    apply Forall_app in Hqs as [Hqs [[Hst Hi] _]%Forall_cons].
    assert (cpu_tids cv ≡ₚ id t' :: cpu_tids (set_queue (Some rest) cv)) as Hp.
    { unfold cpu_tids. cbn. rewrite Hq. cbn. rewrite fmap_app, <- app_assoc. cbn. by rewrite <- Permutation_middle. }
    split_and!; [| |done|done].
    + eapply (put_cpu_keep n s _ v cv); [done|done|reflexivity|by split| |done]. rewrite Hp. by apply submseteq_cons.
    + destruct (tids_split v cv s Hv) as (r & -> & ->). by rewrite Hp.
Qed.

(** A CPU outside the queue that was popped is untouched, and so is everything
    but the queue of the one that was. *)
Lemma picked_cpu me s s1 t d :
  picked me s s1 t -> exists c c1, CPUS s !! me = Some c /\ CPUS s1 !! me = Some c1 /\
    current c1 = current c /\ zombie c1 = zombie c /\ reg c1 = reg c /\ pending c1 = pending c /\ tss c1 = tss c /\
    (forall e, CPUS s !! d = Some e -> exists e1, CPUS s1 !! d = Some e1 /\ current e1 = current e /\ zombie e1 = zombie e /\ reg e1 = reg e).
Proof.
  intros [c t' rest Hc Hq|c v cv t' rest Hc He Hne Hv Hq].
  - exists c, (set_queue (Some rest) c). cbn. rewrite list_lookup_insert_eq by by eapply lookup_lt_Some.
    split_and!; try done. intros e He. destruct (decide (me = d)) as [<-|Hd].
    + rewrite list_lookup_insert_eq by by eapply lookup_lt_Some. simplify_eq. by eexists.
    + rewrite list_lookup_insert_ne by done. by exists e.
  - exists c, c. cbn. rewrite list_lookup_insert_ne by done. split_and!; try done.
    intros e Hd. destruct (decide (v = d)) as [<-|Hvd].
    + rewrite list_lookup_insert_eq by by eapply lookup_lt_Some. simplify_eq. by eexists.
    + rewrite list_lookup_insert_ne by done. by exists e.
Qed.

(** Taking the next thread and running it keeps the population. *)
Lemma dispatch_ok n me out s s1 next s' c :
  sched_ok n s -> CPUS s !! me = Some c -> current c = None -> picked me s s1 next -> dispatch me out next s1 = Some s' ->
  sched_ok n s' /\ tids s' ≡ₚ tids s.
Proof.
  intros Hs Hc Hcur Hp Hd. destruct (picked_facts _ _ _ _ _ Hs Hp) as (Hs1 & Hperm & Hi & Hst).
  destruct (picked_cpu _ _ _ _ me Hp) as (c0 & c1 & Hc0 & Hc1 & Hcur1 & Hz1 & _ & _ & _ & _). simplify_eq.
  destruct (dispatch_facts _ _ _ _ _ Hd) as (c1' & l & Hc1' & -> & _). simplify_eq.
  destruct (cpu_ok_at _ _ _ _ Hs1 Hc1) as [Hq1 Hcc1 Hzz1].
  assert (tids (put_cpu me (dispatched out next c1) (set_log l (u64 (SWITCH_LOG_POS s1 + 1)) s1)) ≡ₚ tids s) as Ht.
  { rewrite Hperm. rewrite (tids_ext (put_cpu me (dispatched out next c1) s1)) by done.
    destruct (tids_split me c1 s1 Hc1) as (r & -> & ->). unfold cpu_tids. cbn. rewrite Hcur1, Hcur. cbn.
    by rewrite <- Permutation_middle. }
  split; [|done]. apply (sched_ok_keep n s); [done| | |by rewrite Ht|].
  - cbn. rewrite length_insert, (ok_cpus _ _ Hs1). by rewrite (ok_cpus _ _ Hs).
  - cbn. apply Forall_insert; [apply Hs1|]. split; cbn; [done| |done]. intros ? [= <-]. done.
  - by destruct Hp.
Qed.

Lemma schedule_locked_ok n me b s s' :
  sched_ok n s -> schedule_locked me b s = Some s' -> sched_ok n s'.
Proof.
  intros Hs [s1 c1 s'' Hr Hc1 _ Hb|s1 c1 q cur s'' Hr Hc1 Hq Hcur _ Hb|s1 c1 q cur s2 next s'' Hr Hc1 Hq Hcur Hp Hd]%schedule_locked_cases;
    pose proof (reap_ok _ _ _ _ Hs Hr) as Hs1; [by eapply bail_ok| |].
  - eapply bail_ok; [|exact Hb]. apply put_away_sched_ok; try done. by eapply reap_zombie.
  - eapply (dispatch_ok n me (id cur) (put_cpu me (put_away cur q c1) s1) s2 next s'' (put_away cur q c1));
      [|cbn; apply list_lookup_insert_eq; by eapply lookup_lt_Some| |done|done].
    + apply put_away_sched_ok; try done. by eapply reap_zombie.
    + unfold put_away. by case_decide.
Qed.

Lemma schedule_ok n me s s' : sched_ok n s -> schedule me s = Some s' -> sched_ok n s'.
Proof.
  intros Hs H. unfold schedule in H. destruct (CPUS s !! me) as [c|] eqn:Hc; [cbn in H|done].
  eapply schedule_locked_ok; [|exact H]. destruct (cpu_ok_at _ _ _ _ Hs Hc).
  eapply (put_cpu_keep n s _ me c); [done|done|reflexivity|by split|done|done].
Qed.

Lemma map_threads_ok f c :
  (forall t, state (f t) = state t /\ iopb (f t) = iopb t) -> cpu_ok c -> cpu_ok (map_threads f c).
Proof.
  intros Hf [Hq Hcur Hz]. split; cbn.
  - destruct (queue c) as [q|]; cbn in *; [|done]. apply Forall_fmap. eapply Forall_impl; [exact Hq|].
    intros t. cbn. by destruct (Hf t) as [-> ->].
  - intros t' Ht. destruct (current c) as [t|]; [|done]. injection Ht as <-. destruct (Hf t) as [-> ->]. by apply Hcur.
  - intros t' Ht. destruct (zombie c) as [t|]; [|done]. injection Ht as <-. destruct (Hf t) as [-> _]. by apply Hz.
Qed.

Lemma map_threads_tids f c : (forall t, id (f t) = id t) -> cpu_tids (map_threads f c) = cpu_tids c.
Proof.
  intros Hf. unfold cpu_tids, map_threads. cbn.
  assert (forall o, ids (option_map f o) = ids o) as Ho by (intros [t|]; cbn; by rewrite ?Hf).
  rewrite !Ho. f_equal. destruct (queue c) as [q|]; [cbn|done].
  rewrite <- list_fmap_compose. apply list_fmap_ext. intros. apply Hf.
Qed.

Lemma bind_map_same {A B} (f : A -> A) (g : A -> list B) l : (forall a, g (f a) = g a) -> map f l ≫= g = l ≫= g.
Proof. intros Hg. induction l as [|a l IH]; [done|]. cbn. rewrite Hg. by f_equal. Qed.

Lemma store_rsp_ok n tid sp s : sched_ok n s -> sched_ok n (store_rsp tid sp s).
Proof.
  intros Hs. apply (sched_ok_keep n s); [done|by cbn; rewrite length_map| | |done].
  - cbn. apply Forall_fmap. eapply Forall_impl; [apply Hs|]. intros c. cbn. apply map_threads_ok. intros t. by case_match.
  - unfold tids. cbn. rewrite bind_map_same; [done|].
    intros c. apply map_threads_tids. intros t. by case_match.
Qed.

Lemma switch_to_facts ret me s s' :
  switch_to ret me s = Some s' ->
  exists c out nr nc r m sp, CPUS s !! me = Some c /\ pending c = Some (out, nr, nc) /\
    switch_regs ret nr nc (reg c) (KMEM s) = (r, m, sp) /\
    s' = set_kmem m (store_rsp out sp (put_cpu me (set_pending None (set_reg r c)) s)).
Proof.
  unfold switch_to. destruct (CPUS s !! me) as [c|]; [cbn [mbind option_bind]|done].
  destruct (pending c) as [[[out nr] nc]|] eqn:Hp; [|done].
  destruct (switch_regs _ _ _ _ _) as [[r m] sp] eqn:Hr. intros [= <-]. exists c, out, nr, nc, r, m, sp. done.
Qed.

Lemma switch_to_ok n ret me s s' : sched_ok n s -> switch_to ret me s = Some s' -> sched_ok n s'.
Proof.
  intros Hs (c & out & nr & nc & r & m & sp & Hc & _ & _ & ->)%switch_to_facts. destruct (cpu_ok_at _ _ _ _ Hs Hc).
  assert (sched_ok n (store_rsp out sp (put_cpu me (set_pending None (set_reg r c)) s))) as Hok.
  { apply store_rsp_ok. eapply (put_cpu_keep n s _ me c); [done|done|reflexivity|by split|done|done]. }
  by destruct Hok; split.
Qed.

Lemma sched_step_ok n s l s' : sched_ok n s -> Z.of_nat n + 2 < 2 ^ 64 -> sched_step s l s' -> sched_ok (S n) s'.
Proof.
  intros Hs Hn Hstep. destruct Hstep as [tt me entry a stk s' tid _ H|ut me entry u a stk s' tid _ H|tt me tg entry a stk s' tid _ H
    |tt me entry a gs stk s' tid _ H|tt me entry a gs m stk s' tid _ H|me port s' _ Hp H|me port s' _ Hp H|me oid rs s' cid _ H
    |me a s' _ H|me stk c s' _ Hc Hcur Hio H|me s' _ H|me s' _ H|me s' _ H|me ret s' H|me c r m k v _ Hc].
  - unfold spawn_in_locked in H. destruct (build_thread _ _ _ _) eqn:Hb. bind_inv. by eapply spawn_at_ok.
  - unfold spawn_user in H. destruct (build_thread _ _ _ _) eqn:Hb. bind_inv. by eapply spawn_at_ok.
  - unfold spawn_pinned_to_cpu in H. destruct (build_thread _ _ _ _) eqn:Hb. bind_inv.
    assert (sched_ok (S n) s1) as Hok by by eapply spawn_at_ok.
    unfold send_reschedule_ipi. destruct (apic_id_for_index tg (APICS s1)); [|done]. by destruct Hok; split.
  - unfold spawn_with_capabilities, spawn_in_locked in H. destruct (build_thread _ _ _ _) eqn:Hb. bind_inv.
    eapply grant_to_ok; [|done]. by eapply spawn_at_ok.
  - unfold spawn_with_manifest, spawn_in_locked in H. destruct (build_thread _ _ _ _) eqn:Hb. bind_inv.
    eapply grant_to_ok; [|done]. by eapply spawn_at_ok.
  - apply sched_ok_mono. eapply update_port_ok; [|done|exact H].
    intros b Hb. destruct (allow_port_spec b port Hb Hp) as (b' & ? & ? & _). eauto.
  - apply sched_ok_mono. eapply update_port_ok; [|done|exact H].
    intros b Hb. destruct (deny_port_spec b port Hb Hp) as (b' & ? & ? & _). eauto.
  - apply sched_ok_mono. unfold grant_current_capability in H. destruct (CPUS s !! me) as [c|] eqn:Hc; [cbn [mbind option_bind] in H|done].
    destruct (current c) as [t|] eqn:Ht; [|by simplify_eq]. destruct (grant _ _ _ _) as [[k tab] ci]. injection H as <- <-.
    destruct (cpu_ok_at _ _ _ _ Hs Hc) as [Hq Hcc Hz].
    eapply (put_cpu_keep n s _ me c (set_current (Some (set_table tab t)) c)); [done|done|reflexivity| | |done].
    + split; cbn; [done| |done]. intros ? [= <-]. exact (Hcc t Ht).
    + unfold cpu_tids. cbn. by rewrite Ht.
  - apply sched_ok_mono. eapply with_current_ok; [|done|exact H]. done.
  - unfold init_as_current_thread in H. apply with_cpu_Some in H as (c' & Hc' & ->). cbn in Hc'. simplify_eq.
    destruct (cpu_ok_at _ _ _ _ Hs Hc) as [Hq Hcc Hz].
    eapply (put_cpu_fresh n s _ me c); [done|done|reflexivity| | |done|done].
    + split; cbn; [done| |done]. intros ? [= <-]. cbn. rewrite Hio. split_and!; [done|apply denied_iopb_ok|done].
    + unfold cpu_tids. cbn. rewrite Hcur. cbn. by rewrite <- Permutation_middle.
  - apply sched_ok_mono. eapply with_current_ok; [|done|exact H]. done.
  - apply sched_ok_mono. by eapply schedule_ok.
  - apply sched_ok_mono. unfold kill_current_and_reschedule in H. bind_inv.
    eapply schedule_ok; [|exact H]. eapply with_current_ok; [|done|exact E]. done.
  - apply sched_ok_mono. by eapply switch_to_ok.
  - apply sched_ok_mono. destruct (cpu_ok_at _ _ _ _ Hs Hc).
    eapply (put_cpu_keep n s _ me c); [done|done|reflexivity|by split|done|done].
Qed.

Lemma boots_ok s : boots s -> sched_ok 0 s.
Proof.
  intros (HN & Hl & Hc & _).
  assert (tids s = []) as Ht.
  { unfold tids. revert Hc. generalize (CPUS s). induction l as [|c l IH]; intros Hc; [done|]. cbn.
    destruct (Hc c) as [r ->]; [apply list_elem_of_here|]. cbn. apply IH. intros c Hin. apply Hc. by apply list_elem_of_further. }
  split; rewrite ?Ht; [done| |constructor|constructor|lia].
  apply Forall_forall. intros c Hin. destruct (Hc c Hin) as [r ->]. by split; cbn; [constructor|intros|intros].
Qed.

Lemma sched_reach_ok tr s : sched_reach tr s -> bounded_run tr -> sched_ok (length tr) s.
Proof.
  unfold bounded_run. induction 1 as [s Hb|tr s l s' _ IH Hstep]; intros Hn; [by apply boots_ok|].
  rewrite length_app in *. cbn in *. rewrite Nat.add_1_r. eapply sched_step_ok; [apply IH; lia|lia|exact Hstep].
Qed.

(** C5. In every state the kernel can reach, by any interleaving of the CPUs'
    operations, thread ids are unique and already issued, so a thread is in
    exactly one place: one run queue, running on one CPU, or waiting to be
    reaped; the threads in run queues are exactly ready ones, a running thread
    is running or has just exited, and only exited threads wait to be reaped. *)
Theorem thread_placement tr s :
  sched_reach tr s -> bounded_run tr ->
  NoDup (tids s) /\ (forall i, i ∈ tids s -> 0 < i < NEXT_TID s) /\
  forall me c, CPUS s !! me = Some c ->
    (forall q t, queue c = Some q -> t ∈ q -> state t = Ready) /\
    (forall t, current c = Some t -> state t = Running \/ state t = Exited) /\
    (forall t, zombie c = Some t -> state t = Exited).
Proof.
  intros Hr Hb. pose proof (sched_reach_ok _ _ Hr Hb) as Hs.
  split_and!; [apply Hs|apply Forall_forall, Hs|]. intros me c Hc. destruct (cpu_ok_at _ _ _ _ Hs Hc) as [Hq Hcur Hz].
  split_and!; [| |done].
  - intros q t Hqq Ht. rewrite Hqq in Hq. by apply (proj1 (Forall_forall _ _) Hq).
  - intros t Ht. destruct (Hcur t Ht) as (Hst & _). destruct (state t); auto; congruence.
Qed.

(** ** Port permissions *)

Definition in_cpu (c : percpu) (t : Thread) : Prop :=
  t ∈ default [] (queue c) \/ current c = Some t \/ zombie c = Some t.
Definition thread_in (s : sched) (t : Thread) : Prop := exists me c, CPUS s !! me = Some c /\ in_cpu c t.

(** Across [s] to [s'] no thread gains a port except by the event [l]. *)
Definition gains (l : event) (s s' : sched) : Prop :=
  forall t' p, thread_in s' t' -> 0 <= p -> allowed (iopb t') p = true ->
    (exists t, thread_in s t /\ id t = id t' /\ allowed (iopb t) p = true) \/ l = PortAllowed (id t') p.

Lemma gains_trans l s1 s2 s3 : gains Quiet s1 s2 -> gains l s2 s3 -> gains l s1 s3.
Proof.
  intros H1 H2 t p Ht Hp Ha. destruct (H2 t p Ht Hp Ha) as [(t2 & Ht2 & Hid & Ha2)|]; [|by right].
  destruct (H1 t2 p Ht2 Hp Ha2) as [(t1 & ? & ? & ?)|]; [|done]. left. exists t1. split_and!; congruence || done.
Qed.

Lemma gains_any l s s' : gains Quiet s s' -> gains l s s'.
Proof. intros H t p Ht Hp Ha. destruct (H t p Ht Hp Ha) as [|]; [by left|done]. Qed.

(** A state whose threads have the ids and bitmaps of old ones, or none. *)
Lemma gains_same s s' :
  (forall t', thread_in s' t' -> (exists t, thread_in s t /\ id t = id t' /\ iopb t = iopb t') \/ iopb t' = replicate IOPB_BYTES 0xFF) ->
  gains Quiet s s'.
Proof.
  intros H t' p Ht Hp Ha. destruct (H t' Ht) as [(t & Hin & Hid & Hio)|Hd].
  - left. exists t. by rewrite Hio.
  - by rewrite Hd, allowed_denied in Ha.
Qed.

Lemma thread_in_put me c c' s s' t :
  CPUS s !! me = Some c -> CPUS s' = <[me := c']> (CPUS s) -> thread_in s' t -> in_cpu c' t \/ thread_in s t.
Proof.
  intros Hc Hs' (d & e & He & Hin). rewrite Hs' in He.
  apply list_lookup_insert_Some in He as [(-> & -> & _)|[_ He]]; [by left|]. right. by exists d, e.
Qed.

Lemma thread_in_put_cpu me c c' s t :
  CPUS s !! me = Some c -> thread_in (put_cpu me c' s) t -> in_cpu c' t \/ thread_in s t.
Proof. intros Hc. by apply (thread_in_put me c c' s (put_cpu me c' s)). Qed.

Lemma gains_put me c c' s s' :
  CPUS s !! me = Some c -> CPUS s' = <[me := c']> (CPUS s) ->
  (forall t', in_cpu c' t' -> (exists t, in_cpu c t /\ id t = id t' /\ iopb t = iopb t') \/ iopb t' = replicate IOPB_BYTES 0xFF) ->
  gains Quiet s s'.
Proof.
  intros Hc Hs' H. apply gains_same. intros t' Ht.
  destruct (thread_in_put _ _ _ _ _ _ Hc Hs' Ht) as [Hin|Hin]; [|left; by exists t'].
  destruct (H t' Hin) as [(t & Hct & ?)|]; [|by right]. left. exists t. split; [by exists me, c|done].
Qed.

Lemma gains_spawn me words stk a s s1 t s2 :
  build_thread words stk a s = (s1, t) -> with_cpu me (push_back t) s1 = Some s2 -> gains Quiet s s2.
Proof.
  intros Hb%build_thread_facts (c & Hc & ->)%with_cpu_Some. destruct Hb as (HC & _ & _ & _ & _ & _ & _ & _ & Hi).
  rewrite HC in Hc. eapply (gains_put me c); [done|cbn; by rewrite HC|].
  intros t' [Hin|[Hin|Hin]]; cbn in Hin; [|left; exists t'; split; [right; by left|done]|left; exists t'; split; [right; by right|done]].
  apply elem_of_app in Hin as [Hin|Hin%list_elem_of_singleton]; [left; exists t'; split; [by left|done]|]. subst. by right.
Qed.

Lemma gains_grant_to me tid one gs s s' : grant_to me tid one gs s = Some s' -> gains Quiet s s'.
Proof.
  unfold grant_to. destruct (CPUS s !! me) as [c|] eqn:Hc; [cbn|done].
  destruct (queue c) as [q|] eqn:Hq; [|intros [= <-]; apply gains_same; intros t' Ht; left; by exists t'].
  destruct (list_find _ q) as [[i t]|] eqn:Hf; [|intros [= <-]; apply gains_same; intros t' Ht; left; by exists t'].
  destruct (foldl one _ gs) as [k tab]. intros [= <-]. apply list_find_Some in Hf as (Hi & _ & _).
  eapply (gains_put me c _ s _ Hc); [reflexivity|]. intros t' [Hin|[Hin|Hin]]; cbn in Hin; left.
  - apply list_elem_of_lookup in Hin as [j Hj]. apply list_lookup_insert_Some in Hj as [(-> & <- & _)|[_ Hj]].
    + exists t. split; [left; rewrite Hq; by eapply list_elem_of_lookup_2|done].
    + exists t'. split; [left; rewrite Hq; by eapply list_elem_of_lookup_2|done].
  - exists t'. split; [right; by left|done].
  - exists t'. split; [right; by right|done].
Qed.

Lemma gains_current me f s s' :
  (forall t, id (f t) = id t /\ iopb (f t) = iopb t) -> with_current me f s = Some s' -> gains Quiet s s'.
Proof.
  intros Hf (c & Hc & ->)%with_cpu_Some. eapply (gains_put me c _ s _ Hc); [reflexivity|].
  intros t' [Hin|[Hin|Hin]]; cbn in Hin; left.
  - exists t'. split; [by left|done].
  - apply fmap_Some in Hin as (t & Ht & ->). exists t. split; [right; by left|]. by destruct (Hf t) as [-> ->].
  - exists t'. split; [right; by right|done].
Qed.

(** A CPU whose three slots are the same or emptier. *)
Lemma gains_shrink me c c' s s' :
  CPUS s !! me = Some c -> CPUS s' = <[me := c']> (CPUS s) -> (forall t, in_cpu c' t -> in_cpu c t) -> gains Quiet s s'.
Proof. intros Hc Hs' H. eapply gains_put; [done|done|]. intros t' Hin. left. exists t'. auto. Qed.

Ltac same_slots me c := eapply (gains_shrink me c); [eassumption|reflexivity|intros ? Hsame; exact Hsame].

Lemma picked_in me s s1 t : picked me s s1 t -> thread_in s t /\ forall t', thread_in s1 t' -> thread_in s t'.
Proof.
  intros [c t' rest Hc Hq|c v cv t' rest Hc He Hne Hv Hq].
  - split; [exists me, c; split; [done|left; rewrite Hq; apply list_elem_of_here]|]. intros u Hu.
    destruct (thread_in_put_cpu _ _ _ _ _ Hc Hu) as [Hin|]; [|done]. exists me, c. split; [done|].
    destruct Hin as [Hin|[Hin|Hin]]; cbn in Hin; [left; rewrite Hq; by apply list_elem_of_further|right; by left|right; by right].
  - split; [exists v, cv; split; [done|left; rewrite Hq; cbn; set_solver]|]. intros u Hu.
    destruct (thread_in_put_cpu _ _ _ _ _ Hv Hu) as [Hin|]; [|done]. exists v, cv. split; [done|].
    destruct Hin as [Hin|[Hin|Hin]]; cbn in Hin; [left; rewrite Hq; cbn; set_solver|right; by left|right; by right].
Qed.

Lemma gains_dispatch me out s s1 next s' :
  picked me s s1 next -> dispatch me out next s1 = Some s' -> gains Quiet s s'.
Proof.
  intros Hp (c1 & l & Hc1 & -> & _)%dispatch_facts. destruct (picked_in _ _ _ _ Hp) as [Hn Hsub].
  apply gains_same. intros t' Ht. left.
  destruct (thread_in_put me c1 (dispatched out next c1) s1 (put_cpu me (dispatched out next c1) (set_log l (u64 (SWITCH_LOG_POS s1 + 1)) s1)) t' Hc1 eq_refl Ht) as [[Hin|[Hin|Hin]]|Hin]; cbn in Hin.
  - exists t'. split; [apply Hsub; exists me, c1; by split; [|left]|done].
  - injection Hin as <-. exists next. split; [done|]. done.
  - exists t'. split; [apply Hsub; exists me, c1; split; [done|right; by right]|done].
  - exists t'. split; [by apply Hsub|done].
Qed.

Lemma gains_bail me b s s' : bail me b s = Some s' -> gains Quiet s s'.
Proof. intros (c & Hc & ->)%with_cpu_Some. same_slots me c. Qed.

Lemma gains_schedule me s s' : schedule me s = Some s' -> gains Quiet s s'.
Proof.
  intros H. unfold schedule in H. destruct (CPUS s !! me) as [c|] eqn:Hc; [cbn in H|done].
  apply (gains_trans _ s (put_cpu me (set_reg (set_if false (reg c)) c) s)); [same_slots me c|].
  set (s0 := put_cpu me _ s) in *.
  assert (CPUS s0 !! me = Some (set_reg (set_if false (reg c)) c)) as Hc0 by (apply list_lookup_insert_eq; by eapply lookup_lt_Some).
  assert (forall s1, reap me s0 = Some s1 -> gains Quiet s0 s1) as Hreap.
  { intros s1 Hr. destruct (reap_facts _ _ _ _ Hr Hc0) as (r & HC & _).
    eapply (gains_shrink me _ _ s0 s1 Hc0 HC). intros t [?|[?|?]]; [by left|right; by left|done]. }
  assert (forall s1 c1 q cur, CPUS s1 !! me = Some c1 -> queue c1 = Some q -> current c1 = Some cur ->
    gains Quiet s1 (put_cpu me (put_away cur q c1) s1)) as Haway.
  { intros s1 c1 q cur Hc1 Hq Hcur. eapply (gains_put me c1 _ s1 _ Hc1); [reflexivity|]. intros t' Hin. left.
    unfold put_away in Hin. set (cur' := if decide (state cur = Running) then set_state Ready cur else cur) in *.
    assert (id cur' = id cur /\ iopb cur' = iopb cur) as [Hid Hio] by (unfold cur'; clear; by destruct (decide (state cur = Running))).
    case_decide; destruct Hin as [Hin|[Hin|Hin]]; cbn in Hin; try done.
    - exists t'. split; [by left|done].
    - injection Hin as <-. exists cur. split; [right; by left|done].
    - apply elem_of_app in Hin as [Hin| ->%list_elem_of_singleton].
      + exists t'. split; [left; by rewrite Hq|done].
      + exists cur. split; [right; by left|done].
    - exists t'. split; [right; by right|done]. }
  apply schedule_locked_cases in H.
  destruct H as [s1 c1 s'' Hr Hc1 _ Hb|s1 c1 q cur s'' Hr Hc1 Hq Hcur _ Hb|s1 c1 q cur s2 next s'' Hr Hc1 Hq Hcur Hp Hd];
    (eapply gains_trans; [by apply Hreap|]).
  - by eapply gains_bail.
  - eapply gains_trans; [by apply Haway|]. by eapply gains_bail.
  - eapply gains_trans; [by apply Haway|]. by eapply gains_dispatch.
Qed.

Lemma gains_switch ret me s s' : switch_to ret me s = Some s' -> gains Quiet s s'.
Proof.
  intros (c & out & nr & nc & r & m & sp & Hc & _ & _ & ->)%switch_to_facts.
  apply (gains_trans _ s (put_cpu me (set_pending None (set_reg r c)) s)); [same_slots me c|].
  apply gains_same. intros t' (d & e & He & Hin). cbn in He. left.
  apply list_lookup_fmap_Some in He as (e0 & -> & He0).
  set (f t := if id t =? out then set_rsp sp t else t) in *.
  assert (exists t, in_cpu e0 t /\ t' = f t) as (t & Ht & ->).
  { destruct Hin as [Hin|[Hin|Hin]]; cbn in Hin.
    - destruct (queue e0) as [q|] eqn:Hq; cbn in Hin; [|by apply not_elem_of_nil in Hin].
      apply list_elem_of_fmap in Hin as (t & -> & Ht). exists t. split; [left; by rewrite Hq|done].
    - destruct (current e0) as [t|] eqn:Hq; [|done]. injection Hin as <-. exists t. split; [right; by left|done].
    - destruct (zombie e0) as [t|] eqn:Hq; [|done]. injection Hin as <-. exists t. split; [right; by right|done]. }
  exists t. split; [by exists d, e0|]. unfold f. by case_match.
Qed.

(** An update of the running thread's bitmap. *)
Lemma gains_port upd v me port s s' n :
  (forall b, iopb_ok b -> exists b', upd b port = Some b' /\ port_update b port v b') ->
  sched_ok n s -> update_port upd me port s = Some s' ->
  gains (if v then PortAllowed (current_id me s) port else Quiet) s s'.
Proof.
  intros Hu Hs H. unfold update_port in H. unfold current_id. destruct (CPUS s !! me) as [c|] eqn:Hc; [cbn in H|done].
  cbn. destruct (current c) as [t|] eqn:Ht; [|simplify_eq; apply gains_any, gains_same; intros t' ?; left; by exists t'].
  destruct (ok_current _ (cpu_ok_at _ _ _ _ Hs Hc) t Ht) as (_ & Hi & _).
  destruct (Hu _ Hi) as (b & Hb & _ & Hupd). rewrite Hb in H. injection H as <-.
  intros t' p Hin Hp Ha. destruct (thread_in_put_cpu _ _ _ _ _ Hc Hin) as [[Hq|[Hq|Hq]]|Hq]; cbn in Hq.
  - left. exists t'. split; [exists me, c; by split; [|left]|done].
  - injection Hq as <-. cbn in *. rewrite Hupd in Ha by done.
    destruct (Z.eqb_spec p port) as [->|]; cbn in Ha; [|left; exists t; split; [exists me, c; split; [done|right; by left]|done]].
    destruct (port <? IOPB_PORTS) eqn:Hlt; [subst v; by right|].
    unfold allowed in Ha. by rewrite Hlt in Ha.
  - left. exists t'. split; [exists me, c; split; [done|right; by right]|done].
  - left. by exists t'.
Qed.

Lemma step_gains n s l s' : sched_ok n s -> sched_step s l s' -> gains l s s'.
Proof.
  intros Hs Hstep. destruct Hstep as [tt me entry a stk s' tid _ H|ut me entry u a stk s' tid _ H|tt me tg entry a stk s' tid _ H
    |tt me entry a gs stk s' tid _ H|tt me entry a gs m stk s' tid _ H|me port s' _ Hp H|me port s' _ Hp H|me oid rs s' cid _ H
    |me a s' _ H|me stk c s' _ Hc Hcur Hio H|me s' _ H|me s' _ H|me s' _ H|me ret s' H|me c r m k v _ Hc].
  - unfold spawn_in_locked in H. destruct (build_thread _ _ _ _) eqn:Hb. bind_inv. by eapply gains_spawn.
  - unfold spawn_user in H. destruct (build_thread _ _ _ _) eqn:Hb. bind_inv. by eapply gains_spawn.
  - unfold spawn_pinned_to_cpu in H. destruct (build_thread _ _ _ _) eqn:Hb. bind_inv.
    eapply gains_trans; [by eapply gains_spawn|]. apply gains_same. intros t' Ht. left. exists t'. split; [|done].
    unfold send_reschedule_ipi in Ht. by destruct (apic_id_for_index tg _).
  - unfold spawn_with_capabilities, spawn_in_locked in H. destruct (build_thread _ _ _ _) eqn:Hb. bind_inv.
    eapply gains_trans; [by eapply gains_spawn|by eapply gains_grant_to].
  - unfold spawn_with_manifest, spawn_in_locked in H. destruct (build_thread _ _ _ _) eqn:Hb. bind_inv.
    eapply gains_trans; [by eapply gains_spawn|by eapply gains_grant_to].
  - eapply (gains_port allow_port_bits true); [|done|exact H]. intros b Hb. by apply allow_port_spec.
  - eapply (gains_port deny_port_bits false); [|done|exact H]. intros b Hb. by apply deny_port_spec.
  - unfold grant_current_capability in H. destruct (CPUS s !! me) as [c|] eqn:Hc; [cbn [mbind option_bind] in H|done].
    destruct (current c) as [t|] eqn:Ht; [|simplify_eq; apply gains_same; intros t' ?; left; by exists t'].
    destruct (grant _ _ _ _) as [[k tab] ci]. injection H as <- <-.
    eapply (gains_put me c _ s _ Hc); [reflexivity|]. intros t' [Hin|[Hin|Hin]]; cbn in Hin; left.
    + exists t'. split; [by left|done].
    + injection Hin as <-. exists t. split; [right; by left|done].
    + exists t'. split; [right; by right|done].
  - eapply gains_current; [|exact H]. done.
  - unfold init_as_current_thread in H. apply with_cpu_Some in H as (c' & Hc' & ->). cbn in Hc'. simplify_eq.
    eapply (gains_put me c _ s _ Hc); [reflexivity|]. intros t' [Hin|[Hin|Hin]]; cbn in Hin.
    + left. exists t'. split; [by left|done].
    + injection Hin as <-. by right.
    + left. exists t'. split; [right; by right|done].
  - eapply gains_current; [|exact H]. done.
  - apply gains_any. by eapply gains_schedule.
  - apply gains_any. unfold kill_current_and_reschedule in H. bind_inv.
    eapply gains_trans; [eapply gains_current; [|exact E]; done|by eapply gains_schedule].
  - by eapply gains_switch.
  - same_slots me c.
Qed.

(** C13. Port isolation: on every CPU, at every moment, the bitmap the processor
    consults lets a port through only if the thread running there was itself
    given that port, by a grant executed while it was the running thread; ports
    from 1024 up are never let through. *)
Theorem port_access_needs_grant tr s me c t p :
  sched_reach tr s -> bounded_run tr -> CPUS s !! me = Some c -> current c = Some t -> 0 <= p ->
  allowed (tss_iopb (tss c)) p = true -> PortAllowed (id t) p ∈ tr /\ p < IOPB_PORTS.
Proof.
  intros Hr Hb Hc Ht Hp Ha. pose proof (sched_reach_ok _ _ Hr Hb) as Hs.
  destruct (ok_current _ (cpu_ok_at _ _ _ _ Hs Hc) t Ht) as (_ & _ & Heq). rewrite <- Heq in Ha.
  split; [|unfold allowed in Ha; by apply andb_true_iff in Ha as [?%Z.ltb_lt _]].
  assert (thread_in s t) as Hin by (exists me, c; split; [done|right; by left]).
  clear Hc Ht Heq Hs. revert t Hin Ha. induction Hr as [s Hboot|tr s l s' Hr IH Hstep]; intros t Hin Ha.
  - exfalso. destruct Hboot as (_ & _ & Hcs & _). destruct Hin as (d & e & He & Hin).
    destruct (Hcs e) as [r ->]; [by eapply list_elem_of_lookup_2|].
    destruct Hin as [Hin|[Hin|Hin]]; cbn in Hin; [by apply not_elem_of_nil in Hin|done|done].
  - unfold bounded_run in *. rewrite length_app in Hb. cbn in Hb. apply elem_of_app.
    destruct (step_gains _ _ _ _ (sched_reach_ok _ _ Hr ltac:(unfold bounded_run; lia)) Hstep t p Hin Hp Ha) as [(t0 & Hin0 & <- & Ha0)| ->].
    + left. apply IH; [lia|done|done].
    + right. apply list_elem_of_here.
Qed.
