(* ===== verification/ThreadSwitch.v ===== *)
(** * Scheduling guarantees

    What the scheduler of [Thread] promises to a thread: it is reached after a
    bounded number of turns of its CPU, the state the CPU runs it with is its
    own, a switch away and back preserves its registers, a new thread starts at
    its entry point, and a thread created with capabilities holds exactly the
    ones the policy lets through. *)

From S2P Require Import Prelude AuditLog Capability Bits Pmm Vmm Gdt Critical Policy Thread ThreadInv.

#[export] Instance event_eq_dec : EqDecision event.
Proof. solve_decision. Defined.

(** ** Bounded waiting *)

Inductive sched_trace : sched -> list event -> sched -> Prop :=
  | trace_nil s : sched_trace s [] s
  | trace_cons s l s1 tr s' : sched_step s l s1 -> sched_trace s1 tr s' -> sched_trace s (l :: tr) s'.

(** Thread [tid] is the [p]-th in the queue of a CPU that is running
    something. *)
Definition waiting (s : sched) (cpu : nat) (tid : Z) (p : nat) : Prop :=
  exists c q t, CPUS s !! cpu = Some c /\ current c <> None /\ queue c = Some q /\ q !! p = Some t /\ id t = tid.

Definition is_running (s : sched) (tid : Z) : Prop :=
  exists cpu c t, CPUS s !! cpu = Some c /\ current c = Some t /\ id t = tid.

(** What one step may do to a waiting thread. *)
Definition advances (s' : sched) (cpu : nat) (tid : Z) (p : nat) (turn : bool) : Prop :=
  is_running s' tid \/ exists p', waiting s' cpu tid p' /\ (p' <= p)%nat /\ (turn = true -> p' < p)%nat.

Lemma waiting_stays s' cpu tid p : waiting s' cpu tid p -> advances s' cpu tid p false.
Proof. intros H. right. exists p. done. Qed.

Lemma waiting_ext s s' cpu tid p : CPUS s' = CPUS s -> waiting s cpu tid p -> waiting s' cpu tid p.
Proof. unfold waiting. by intros ->. Qed.

(** A CPU whose queue grows at the back or keeps its ids, and which keeps
    running something. *)
Lemma waiting_put s s' me c c' cpu tid p :
  CPUS s !! me = Some c -> CPUS s' = <[me := c']> (CPUS s) ->
  (current c <> None -> current c' <> None) ->
  (forall q t, queue c = Some q -> q !! p = Some t -> exists q' t', queue c' = Some q' /\ q' !! p = Some t' /\ id t' = id t) ->
  waiting s cpu tid p -> waiting s' cpu tid p.
Proof.
  intros Hc HC Hcur Hq (e & q & t & He & Hec & Heq & Ht & Hid). unfold waiting. rewrite HC.
  destruct (decide (me = cpu)) as [<-|Hne].
  - simplify_eq. destruct (Hq q t Heq Ht) as (q' & t' & ? & ? & ?). exists c', q', t'.
    rewrite list_lookup_insert_eq by by eapply lookup_lt_Some. split_and!; auto.
  - exists e, q, t. by rewrite list_lookup_insert_ne.
Qed.

Lemma waiting_same_queue s s' me c c' cpu tid p :
  CPUS s !! me = Some c -> CPUS s' = <[me := c']> (CPUS s) ->
  (current c <> None -> current c' <> None) -> queue c' = queue c ->
  waiting s cpu tid p -> waiting s' cpu tid p.
Proof. intros Hc HC Hcur Hq. eapply waiting_put; eauto. intros q t ? ?. exists q, t. by rewrite Hq. Qed.

Lemma waiting_spawn me words stk a s s1 t s2 cpu tid p :
  build_thread words stk a s = (s1, t) -> with_cpu me (push_back t) s1 = Some s2 ->
  waiting s cpu tid p -> waiting s2 cpu tid p.
Proof.
  intros Hb%build_thread_facts (c & Hc & ->)%with_cpu_Some Hw. destruct Hb as (HC & _).
  eapply (waiting_put s1 _ me c (push_back t c)); [done|reflexivity|done| |by eapply waiting_ext].
  intros q u Hq Hu. cbn. rewrite Hq. cbn. eexists _, u. split; [done|]. split; [|done].
  by apply lookup_app_l_Some.
Qed.

Lemma waiting_grant_to me i one gs s s' cpu tid p :
  grant_to me i one gs s = Some s' -> waiting s cpu tid p -> waiting s' cpu tid p.
Proof.
  unfold grant_to. destruct (CPUS s !! me) as [c|] eqn:Hc; [cbn|done].
  destruct (queue c) as [q|] eqn:Hq; [|by intros [= <-]].
  destruct (list_find _ q) as [[j t]|] eqn:Hf; [|by intros [= <-]].
  destruct (foldl one _ gs) as [k tab]. intros [= <-]. apply list_find_Some in Hf as (Hj & _).
  eapply (waiting_put s _ me c (set_queue (Some (<[j:=set_table tab t]> q)) c)); [done|reflexivity|done|].
  intros q' u Hq' Hu. rewrite Hq in Hq'. injection Hq' as <-. exists (<[j:=set_table tab t]> q).
  destruct (decide (j = p)) as [->|Hne].
  - exists (set_table tab t). rewrite list_lookup_insert_eq by by eapply lookup_lt_Some. by simplify_eq.
  - exists u. by rewrite list_lookup_insert_ne.
Qed.

Lemma waiting_port upd me port s s' cpu tid p :
  update_port upd me port s = Some s' -> waiting s cpu tid p -> waiting s' cpu tid p.
Proof.
  unfold update_port. destruct (CPUS s !! me) as [c|] eqn:Hc; [cbn|done].
  destruct (current c) as [t|] eqn:Ht; [|by intros [= <-]].
  destruct (upd (iopb t) port); [cbn|done]. intros [= <-]. by eapply (waiting_same_queue s _ me c).
Qed.

Lemma waiting_current me f s s' cpu tid p :
  with_current me f s = Some s' -> waiting s cpu tid p -> waiting s' cpu tid p.
Proof.
  intros (c & Hc & ->)%with_cpu_Some. eapply (waiting_same_queue s _ me c); [done|reflexivity| |done].
  cbn. by destruct (current c).
Qed.

Lemma waiting_switch ret me s s' cpu tid p :
  switch_to ret me s = Some s' -> waiting s cpu tid p -> waiting s' cpu tid p.
Proof.
  intros (c & out & nr & nc & r & m & sp & Hc & _ & _ & ->)%switch_to_facts Hw.
  assert (waiting (put_cpu me (set_pending None (set_reg r c)) s) cpu tid p) as (e & q & t & He & Hcur & Hq & Ht & Hid)
    by by eapply (waiting_same_queue s _ me c).
  set (f t := if id t =? out then set_rsp sp t else t).
  exists (map_threads f e), (map f q), (f t). cbn. split_and!.
  - rewrite list_lookup_fmap. cbn in He. by rewrite He.
  - by destruct (current e).
  - by rewrite Hq.
  - rewrite list_lookup_fmap. by rewrite Ht.
  - unfold f. by case_match.
Qed.

(** A turn of CPU [me] when it is running something and has a queue. *)
Lemma put_away_queue cur q c :
  queue c = Some q -> exists q', queue (put_away cur q c) = Some q' /\ current (put_away cur q c) = None /\
    forall p t, q !! p = Some t -> q' !! p = Some t.
Proof.
  intros Hq. unfold put_away. case_decide; cbn.
  - exists q. by rewrite Hq.
  - eexists. split; [done|]. split; [done|]. intros. by apply lookup_app_l_Some.
Qed.

Lemma reap_waiting me s s1 cpu tid p : reap me s = Some s1 -> waiting s cpu tid p -> waiting s1 cpu tid p.
Proof.
  intros Hr. assert (exists c, CPUS s !! me = Some c) as [c Hc].
  { unfold reap in Hr. destruct (CPUS s !! me); [eauto|done]. }
  destruct (reap_facts _ _ _ _ Hr Hc) as (r & HC & _). by eapply (waiting_same_queue s s1 me c).
Qed.

(** After a dispatch the chosen thread runs, and the others have kept their
    places or moved up. *)
Lemma dispatch_waiting me out s s1 next s' c cpu q t p :
  picked me s s1 next -> dispatch me out next s1 = Some s' ->
  CPUS s !! cpu = Some c -> queue c = Some q -> q !! p = Some t -> (cpu = me \/ current c <> None) ->
  advances s' cpu (id t) p (bool_decide (cpu = me)).
Proof.
  intros Hp (c1 & l & Hc1 & -> & _)%dispatch_facts Hc Hq Ht Hrun.
  set (s' := put_cpu me (dispatched out next c1) _).
  assert (is_running s' (id next)) as Hnext.
  { exists me, (dispatched out next c1), (set_state Running next).
    split; [apply list_lookup_insert_eq; by eapply lookup_lt_Some|done]. }
  (* the queue of [cpu] after the pick, as the dispatch leaves it *)
  assert (forall c2 q2 p2 , CPUS s1 !! cpu = Some c2 -> queue c2 = Some q2 -> current c2 = current c \/ cpu = me ->
    q2 !! p2 = Some t -> waiting s' cpu (id t) p2) as Hplace.
  { intros c2 q2 p2 Hc2 Hq2 Hcur Ht2. unfold waiting, s'. cbn. destruct (decide (me = cpu)) as [<-|Hne].
    - simplify_eq. exists (dispatched out next c1), q2, t.
      rewrite list_lookup_insert_eq by by eapply lookup_lt_Some. done.
    - exists c2, q2, t. rewrite list_lookup_insert_ne by done. split_and!; try done.
      destruct Hcur as [->|]; [|congruence]. destruct Hrun; [congruence|done]. }
  destruct Hp as [cm t0 rest Hcm Hqm|cm v cv t0 rest Hcm Hem Hne Hv Hqv].
  - destruct (decide (cpu = me)) as [->|Hcpu].
    + rewrite bool_decide_eq_true_2 by done. simplify_eq. destruct p as [|p]; [cbn in Ht; simplify_eq; by left|]. right.
      exists p. split; [|lia]. eapply (Hplace (set_queue (Some rest) _) rest); [|done|by right|done].
      cbn. apply list_lookup_insert_eq. by eapply lookup_lt_Some.
    + rewrite bool_decide_eq_false_2 by done. apply waiting_stays. eapply (Hplace c q); [|done|by left|done].
      cbn. by rewrite list_lookup_insert_ne by done.
  - destruct (decide (cpu = me)) as [->|Hcpu].
    { simplify_eq. rewrite Hq in Hem. cbn in Hem. by subst q. }
    rewrite bool_decide_eq_false_2 by done. destruct (decide (cpu = v)) as [->|Hcv].
    + simplify_eq. apply lookup_app_Some in Ht as [Ht|[Hlen Ht]].
      * apply waiting_stays. eapply (Hplace (set_queue (Some rest) _) rest); [|done|by left|done].
        cbn. apply list_lookup_insert_eq. by eapply lookup_lt_Some.
      * apply list_lookup_singleton_Some in Ht as [_ ->]. by left.
    + apply waiting_stays. eapply (Hplace c q); [|done|by left|done]. cbn. by rewrite list_lookup_insert_ne by done.
Qed.

Lemma bail_waiting me b s s' cpu tid p : bail me b s = Some s' -> waiting s cpu tid p -> waiting s' cpu tid p.
Proof. intros (c & Hc & ->)%with_cpu_Some. by eapply (waiting_same_queue s _ me c). Qed.

Lemma schedule_waiting me s s' cpu tid p :
  schedule me s = Some s' -> waiting s cpu tid p -> advances s' cpu tid p (bool_decide (cpu = me)).
Proof.
  intros H Hw. unfold schedule in H. destruct (CPUS s !! me) as [c0|] eqn:Hc0; [cbn in H|done].
  assert (waiting (put_cpu me (set_reg (set_if false (reg c0)) c0) s) cpu tid p) as Hw0 by by eapply (waiting_same_queue s _ me c0).
  apply schedule_locked_cases in H.
  destruct H as [s1 c1 s'' Hr Hc1 Hidle Hb|s1 c1 q cur s'' Hr Hc1 Hq Hcur Hn Hb|s1 c1 q cur s2 next s'' Hr Hc1 Hq Hcur Hp Hd];
    pose proof (reap_waiting _ _ _ _ _ _ Hr Hw0) as Hw1; destruct Hw1 as (e & qe & t & He & Hec & Heq & Ht & <-).
  - destruct (decide (cpu = me)) as [->|Hne]; [simplify_eq; destruct Hidle; congruence|].
    rewrite bool_decide_eq_false_2 by done. apply waiting_stays. eapply bail_waiting; [exact Hb|]. by exists e, qe, t.
  - destruct (decide (cpu = me)) as [->|Hne].
    + exfalso. simplify_eq. destruct (put_away_queue cur q c1 Hq) as (q' & Hq' & _ & Hsub).
      apply pick_next_spec in Hn as (c' & Hc' & Hem & _). cbn in Hc'.
      rewrite list_lookup_insert_eq in Hc' by by eapply lookup_lt_Some. simplify_eq. rewrite Hq' in Hem. cbn in Hem. subst q'.
      by apply Hsub in Ht.
    + rewrite bool_decide_eq_false_2 by done. apply waiting_stays. eapply bail_waiting; [exact Hb|].
      exists e, qe, t. cbn. by rewrite list_lookup_insert_ne by done.
  - destruct (decide (cpu = me)) as [->|Hne].
    + simplify_eq. destruct (put_away_queue cur q c1 Hq) as (q' & Hq' & _ & Hsub).
      eapply (dispatch_waiting me _ _ s2 next s'' (put_away cur q c1) me q' t p); try done; [|by apply Hsub|by left].
      cbn. apply list_lookup_insert_eq. by eapply lookup_lt_Some.
    + eapply (dispatch_waiting me _ _ s2 next s'' e cpu qe t p); try done; [|by right].
      cbn. by rewrite list_lookup_insert_ne by done.
Qed.

Definition is_turn (cpu : nat) (l : event) : bool := bool_decide (l = Scheduled cpu).

Lemma step_waiting s l s' cpu tid p :
  sched_step s l s' -> waiting s cpu tid p -> advances s' cpu tid p (is_turn cpu l).
Proof.
  intros Hstep Hw. assert (forall me, bool_decide (Scheduled me = Scheduled cpu) = bool_decide (cpu = me)) as Hturn.
  { intros me. apply bool_decide_ext. naive_solver. }
  destruct Hstep as [tt me entry a stk s' i _ H|ut me entry u a stk s' i _ H|tt me tg entry a stk s' i _ H
    |tt me entry a gs stk s' i _ H|tt me entry a gs m stk s' i _ H|me port s' _ Hp H|me port s' _ Hp H|me oid rs s' cid _ H
    |me a s' _ H|me stk c s' _ Hc Hcur Hio H|me s' _ H|me s' _ H|me s' _ H|me ret s' H|me c r m k v _ Hc];
    unfold is_turn; rewrite ?Hturn; try (rewrite bool_decide_eq_false_2 by done; apply waiting_stays).
  - unfold spawn_in_locked in H. destruct (build_thread _ _ _ _) eqn:Hb. bind_inv. by eapply waiting_spawn.
  - unfold spawn_user in H. destruct (build_thread _ _ _ _) eqn:Hb. bind_inv. by eapply waiting_spawn.
  - unfold spawn_pinned_to_cpu in H. destruct (build_thread _ _ _ _) eqn:Hb. bind_inv.
    eapply waiting_ext; [|by eapply waiting_spawn]. unfold send_reschedule_ipi. by destruct (apic_id_for_index tg _).
  - unfold spawn_with_capabilities, spawn_in_locked in H. destruct (build_thread _ _ _ _) eqn:Hb. bind_inv.
    eapply waiting_grant_to; [done|]. by eapply waiting_spawn.
  - unfold spawn_with_manifest, spawn_in_locked in H. destruct (build_thread _ _ _ _) eqn:Hb. bind_inv.
    eapply waiting_grant_to; [done|]. by eapply waiting_spawn.
  - by eapply waiting_port.
  - by eapply waiting_port.
  - unfold grant_current_capability in H. destruct (CPUS s !! me) as [c|] eqn:Hc; [cbn [mbind option_bind] in H|done].
    destruct (current c) as [t|] eqn:Ht; [|by simplify_eq]. destruct (grant _ _ _ _) as [[k tab] ci]. injection H as <- <-.
    by eapply (waiting_same_queue s _ me c).
  - by eapply waiting_current.
  - unfold init_as_current_thread in H. apply with_cpu_Some in H as (c' & Hc' & ->). by eapply (waiting_same_queue s _ me c').
  - by eapply waiting_current.
  - by eapply schedule_waiting.
  - unfold kill_current_and_reschedule in H. bind_inv. eapply schedule_waiting; [exact H|]. by eapply waiting_current.
  - by eapply waiting_switch.
  - by eapply (waiting_same_queue s _ me c).
Qed.

(** C29. No starvation: on a CPU that is running a thread, a thread with [p] others ahead of it in the run queue
    has run, there or on a CPU that stole it, by the time that CPU has taken [p + 1] scheduling turns, whatever else all
    the CPUs do in between (creating, killing and stealing threads included). *)
Theorem no_starvation s tr s' cpu tid p :
  sched_trace s tr s' -> waiting s cpu tid p ->
  (p < length (filter (fun l => l = Scheduled cpu) tr))%nat ->
  exists tr1 s1 tr2, tr = tr1 ++ tr2 /\ sched_trace s tr1 s1 /\ sched_trace s1 tr2 s' /\ is_running s1 tid.
Proof.
  intros Ht. revert p. induction Ht as [s|s l s1 tr s' Hstep Ht IH]; intros p Hw Hn; [cbn in Hn; lia|].
  destruct (step_waiting _ _ _ _ _ _ Hstep Hw) as [Hrun|(p' & Hw' & Hle & Hlt)].
  - exists [l], s1, tr. split_and!; [done| |done|done]. eapply trace_cons; [done|constructor].
  - rewrite filter_cons in Hn. destruct (IH p' Hw') as (tr1 & s2 & tr2 & -> & H1 & H2 & H3).
    { unfold is_turn in Hlt. case_decide; cbn in Hn; [|lia].
      rewrite bool_decide_eq_true_2 in Hlt by done. specialize (Hlt eq_refl). lia. }
    exists (l :: tr1), s2, tr2. split_and!; try done. by eapply trace_cons.
Qed.

(** ** The context switch *)

(** The stack pointer and memory after the seven pushes of a switch. *)
Definition saved_sp (r : regs) : Z := u64 (rsp r - 56).
Definition frame_words (ret : Z) (r : regs) : list Z := [r15 r; r14 r; r13 r; r12 r; rbx r; rbp r; ret].

(** Registers of the machine's width, and room for the frame below the stack
    pointer. *)
Record regs_ok (ret : Z) (r : regs) : Prop := {
  ok_words : Forall (in_width 64) (frame_words ret r);
  ok_rsp : 56 <= rsp r < 2 ^ 64 }.

Definition push_frame (ret : Z) (r : regs) (m : Z -> Z) : Z -> Z :=
  let w k v m := wr64 m (rsp r - 8 * k) v in
  w 7 (r15 r) (w 6 (r14 r) (w 5 (r13 r) (w 4 (r12 r) (w 3 (rbx r) (w 2 (rbp r) (w 1 ret m)))))).

Lemma switch_regs_eq ret nr nc r m :
  56 <= rsp r < 2 ^ 64 ->
  switch_regs ret nr nc r m =
  (let m' := push_frame ret r m in
   let at_ k := rd64 m' (u64 (nr + 8 * k)) in
   (mkRegs (at_ 0) (at_ 1) (at_ 2) (at_ 3) (at_ 4) (at_ 5) (u64 (nr + 56)) (at_ 6) nc (iflag r), m', rsp r - 56)).
Proof.
  intros H. unfold switch_regs, push. cbn [fst snd].
  assert (forall k x, x = rsp r - k -> 0 <= k <= 48 -> u64 (x - 8) = rsp r - (k + 8)) as Hs.
  { intros k x -> Hk. rewrite wrap_small by (red; lia). lia. }
  rewrite (Hs 0 (rsp r)) by lia. rewrite (Hs 8 (rsp r - (0 + 8))) by lia. rewrite (Hs 16 (rsp r - (8 + 8))) by lia.
  rewrite (Hs 24 (rsp r - (16 + 8))) by lia. rewrite (Hs 32 (rsp r - (24 + 8))) by lia.
  rewrite (Hs 40 (rsp r - (32 + 8))) by lia. rewrite (Hs 48 (rsp r - (40 + 8))) by lia.
  cbv zeta. cbn [Z.add]. change (0 + 8) with 8. 
  replace (if cr3 r =? nc then cr3 r else nc) with nc by (destruct (Z.eqb_spec (cr3 r) nc); congruence).
  reflexivity.
Qed.

(** The words a frame push leaves in memory. *)
Lemma frame_word ret r m k v :
  regs_ok ret r -> frame_words ret r !! k = Some v -> rd64 (push_frame ret r m) (rsp r - 56 + 8 * Z.of_nat k) = v.
Proof.
  intros [Hw Hr] Hk. pose proof (proj1 (Forall_lookup _ _) Hw _ _ Hk) as Hv. unfold push_frame. cbv zeta.
  do 7 (destruct k as [|k]; [cbn in Hk; injection Hk as <-;
    repeat first [ rewrite rd64_wr64_ne by lia
                 | match goal with |- rd64 (wr64 _ ?a _) ?b = _ => replace b with a by lia end; by rewrite rd64_wr64_eq ]|]).
  done.
Qed.

(** Memory outside the frame is unchanged. *)
Lemma frame_other ret r m p : p + 8 <= rsp r - 56 \/ rsp r <= p -> rd64 (push_frame ret r m) p = rd64 m p.
Proof. intros Hp. unfold push_frame. cbv zeta. by rewrite !rd64_wr64_ne by lia. Qed.

(** A switch away and back is invisible to a thread: when a thread's
    registers [r] are switched out and, at any later time, some CPU with any
    registers [r2] switches to the stack pointer that was stored, the thread
    continues with the same callee-saved registers, the same stack pointer and
    at its return address, under the address space named by the second switch;
    provided the saved frame was not overwritten in between (by the code that
    ran, or by the other switch's own pushes). *)
Theorem context_switch_roundtrip ret nr nc r m ret2 nc2 r2 m2 r' m' sp r2' m2' sp2 :
  regs_ok ret r -> regs_ok ret2 r2 ->
  switch_regs ret nr nc r m = (r', m', sp) ->
  (forall a, sp <= a < sp + 56 -> m2 a = m' a) ->
  (rsp r <= rsp r2 - 56 \/ rsp r2 <= sp) ->
  switch_regs ret2 sp nc2 r2 m2 = (r2', m2', sp2) ->
  r15 r2' = r15 r /\ r14 r2' = r14 r /\ r13 r2' = r13 r /\ r12 r2' = r12 r /\ rbx r2' = rbx r /\ rbp r2' = rbp r /\
  rsp r2' = rsp r /\ rip r2' = ret /\ cr3 r2' = nc2 /\ cr3 r' = nc.
Proof.
  intros Hr Hr2 H1 Hm Hsep H2. pose proof (ok_rsp _ _ Hr) as Hb. pose proof (ok_rsp _ _ Hr2) as Hb2.
  rewrite switch_regs_eq in H1 by done. rewrite switch_regs_eq in H2 by done. cbv zeta in H1, H2.
  injection H1 as <- <- <-. injection H2 as <- <- <-.
  assert (forall k v, frame_words ret r !! k = Some v -> rd64 (push_frame ret2 r2 m2) (u64 (rsp r - 56 + 8 * Z.of_nat k)) = v) as Hk.
  { intros k v Hk. assert (k < 7)%nat by (apply lookup_lt_Some in Hk; exact Hk).
    rewrite wrap_small by (red; lia). rewrite frame_other by lia.
    rewrite <- (frame_word ret r m k v Hr Hk). apply rd64_ext. intros a Ha. apply Hm. lia. }
  cbn. split_and!;
    [exact (Hk 0%nat _ eq_refl)|exact (Hk 1%nat _ eq_refl)|exact (Hk 2%nat _ eq_refl)|exact (Hk 3%nat _ eq_refl)
    |exact (Hk 4%nat _ eq_refl)|exact (Hk 5%nat _ eq_refl)| |exact (Hk 6%nat _ eq_refl)|done|done].
  rewrite wrap_small by (red; lia). lia.
Qed.

(** *** A new thread *)

Lemma zero_words_read p n m k : 0 <= k < n -> rd64 (zero_words p n m) (p + 8 * k) = 0.
Proof.
  intros Hk. unfold zero_words.
  assert (forall l m, NoDup l -> k ∈ l -> rd64 (foldl (fun m i => wr64 m (p + 8 * i) 0) m l) (p + 8 * k) = 0) as H.
  { clear. induction l as [|i l IH]; intros m Hnd Hin; [by apply not_elem_of_nil in Hin|].
    apply NoDup_cons in Hnd as [Hi Hnd]. cbn. destruct (decide (k ∈ l)) as [Hl|Hl]; [by apply IH|].
    apply elem_of_cons in Hin as [->|]; [|done].
    assert (forall l m, i ∉ l -> rd64 (foldl (fun m i => wr64 m (p + 8 * i) 0) m l) (p + 8 * i) = rd64 m (p + 8 * i)) as Hf.
    { clear. induction l as [|j l IH]; intros m Hi; [done|]. cbn. apply not_elem_of_cons in Hi as [Hne Hi].
      rewrite IH by done. apply rd64_wr64_ne. lia. }
    rewrite Hf by done. apply rd64_wr64_eq. red. lia. }
  apply H; [apply NoDup_range|by apply elem_of_range].
Qed.

Lemma zero_words_other p n m q : q + 8 <= p \/ p + 8 * n <= q -> rd64 (zero_words p n m) q = rd64 m q.
Proof.
  intros Hq. unfold zero_words.
  assert (forall l m, (forall i, i ∈ l -> 0 <= i < n) -> rd64 (foldl (fun m i => wr64 m (p + 8 * i) 0) m l) q = rd64 m q) as H.
  { clear - Hq. induction l as [|i l IH]; intros m Hl; [done|]. cbn.
    rewrite IH by (intros j Hj; apply Hl; by apply list_elem_of_further).
    pose proof (Hl i (list_elem_of_here _ _)). apply rd64_wr64_ne. lia. }
  apply H. intros i. apply elem_of_range.
Qed.

(** What [build_thread] puts on the new stack: six zero words for the
    callee-saved registers, then the words in reverse order of pushing. *)
Lemma build_thread_stack words stk a s s1 t :
  build_thread words stk a s = (s1, t) ->
  0 <= stk -> stk + KERNEL_STACK_SIZE < 2 ^ 64 -> 8 * Z.of_nat (length words) + 48 <= KERNEL_STACK_SIZE ->
  Forall (in_width 64) words ->
  saved_rsp t = stk + KERNEL_STACK_SIZE - 8 * Z.of_nat (length words) - 48 /\
  (forall k, 0 <= k < 6 -> rd64 (KMEM s1) (saved_rsp t + 8 * k) = 0) /\
  (forall k w, reverse words !! k = Some w -> rd64 (KMEM s1) (saved_rsp t + 48 + 8 * Z.of_nat k) = w).
Proof.
  unfold KERNEL_STACK_SIZE. change (64 * 1024) with 65536. intros Hb H0 H1 Hlen Hw. unfold build_thread in Hb.
  change KERNEL_STACK_SIZE with 65536 in Hb. change CALLEE_SAVED_SIZE with 48 in Hb.
  rewrite (wrap_small 64 (stk + 65536)) in Hb by (red; lia).
  set (top := stk + 65536) in *. set (m0 := zero_fill stk 65536 (KMEM s)) in *.
  assert (forall ws sp m, Forall (in_width 64) ws -> stk + 8 * Z.of_nat (length ws) <= sp <= top ->
    exists m', push_words ws (sp, m) = (sp - 8 * Z.of_nat (length ws), m') /\
      (forall q, sp <= q -> rd64 m' q = rd64 m q) /\
      forall k w, reverse ws !! k = Some w -> rd64 m' (sp - 8 * Z.of_nat (length ws) + 8 * Z.of_nat k) = w) as Hpush.
  { induction ws as [|w ws IH]; intros sp m Hws Hsp; cbn [length] in *.
    - exists m. cbn. split; [f_equal; lia|]. split; [done|]. intros k w. by rewrite lookup_nil.
    - apply Forall_cons in Hws as [Hwd Hws]. cbn [push_words foldl].
      rewrite (wrap_small 64 (sp - 8)) by (red; lia).
      destruct (IH (sp - 8) (wr64 m (sp - 8) w) Hws) as (m' & Hm' & Hkeep & Hread); [lia|]. unfold push_words in Hm'.
      exists m'. rewrite Hm'. split; [f_equal; lia|]. split.
      + intros q Hq. rewrite Hkeep by lia. apply rd64_wr64_ne. lia.
      + intros k v. rewrite reverse_cons. intros [Hk|[Hk1 Hk2]]%lookup_app_Some.
        * rewrite <- (Hread k v Hk). f_equal. lia.
        * rewrite length_reverse in Hk1, Hk2. apply list_lookup_singleton_Some in Hk2 as [Hk2 <-].
          replace (sp - 8 * Z.of_nat (S (length ws)) + 8 * Z.of_nat k) with (sp - 8) by lia.
          rewrite Hkeep by lia. by apply rd64_wr64_eq. }
  destruct (Hpush words top m0 Hw) as (m' & Hm' & _ & Hread); [unfold top; lia|]. rewrite Hm' in Hb.
  rewrite (wrap_small 64 (top - 8 * Z.of_nat (length words) - 48)) in Hb by (red; unfold top; lia).
  injection Hb as <- <-. cbn. split; [done|]. split.
  - intros k Hk. by apply zero_words_read.
  - intros k w Hk. assert (k < length words)%nat by (apply lookup_lt_Some in Hk; by rewrite length_reverse in Hk).
    rewrite zero_words_other by lia. rewrite <- (Hread k w Hk). f_equal. lia.
Qed.

(** Memory that agrees with [m] on the new stack. *)
Definition keeps_stack (stk : Z) (m m' : Z -> Z) : Prop := forall a, stk <= a < stk + KERNEL_STACK_SIZE -> m' a = m a.

Lemma push_frame_keeps ret r m stk :
  56 <= rsp r -> rsp r <= stk \/ stk + KERNEL_STACK_SIZE <= rsp r - 56 -> keeps_stack stk m (push_frame ret r m).
Proof.
  intros H0 Hs a Ha. unfold push_frame, wr64. cbv zeta.
  repeat match goal with |- context [if ?b then _ else _] => destruct b eqn:?; bool_to_prop; [lia|] end. done.
Qed.

Lemma keeps_rd64 stk m m' p : keeps_stack stk m m' -> stk <= p -> p + 8 <= stk + KERNEL_STACK_SIZE -> rd64 m' p = rd64 m p.
Proof. intros Hk H0 H1. apply rd64_ext. intros a Ha. apply Hk. lia. Qed.

(** A new thread starts where it should: [spawn_in] puts one thread at the
    end of the queue, and the first switch to it, from any thread whose own
    stack lies elsewhere, loads its address space and zeroed registers and
    returns into the trampoline, which enables interrupts and calls the entry
    function with the stack pointer inside the new stack. *)
Theorem new_thread_starts tt me entry a stk s s1 tid ret r m r' m' sp after :
  spawn_in_locked tt me entry a stk s = Some (s1, tid) ->
  0 <= stk -> stk + KERNEL_STACK_SIZE < 2 ^ 64 -> in_width 64 entry -> in_width 64 tt ->
  regs_ok ret r -> rsp r <= stk \/ stk + KERNEL_STACK_SIZE <= rsp r - 56 -> keeps_stack stk (KMEM s1) m ->
  exists c q t, CPUS s1 !! me = Some c /\ queue c = Some (q ++ [t]) /\ id t = tid /\ state t = Ready /\
    (switch_regs ret (saved_rsp t) (address_space t) r m = (r', m', sp) ->
     rip r' = tt /\ cr3 r' = a /\
     [r15 r'; r14 r'; r13 r'; r12 r'; rbx r'; rbp r'] = [0; 0; 0; 0; 0; 0] /\
     let r'' := (trampoline_step after r' m').1 in
     rip r'' = entry /\ iflag r'' = true /\ rsp r'' = stk + KERNEL_STACK_SIZE - 8).
Proof.
  intros Hs H0 H1 He Ht Hr Hsep Hm. unfold spawn_in_locked in Hs.
  destruct (build_thread _ _ _ _) as [s0 t] eqn:Hb. bind_inv.
  destruct (build_thread_facts _ _ _ _ _ _ Hb) as (_ & _ & _ & _ & _ & Hst & _ & Ha & _).
  destruct (build_thread_stack _ _ _ _ _ _ Hb H0 H1) as (Hsp & Hz & Hwords).
  { unfold KERNEL_STACK_SIZE. cbn. lia. }
  { by repeat (apply Forall_cons; split; [done|]). }
  apply with_cpu_Some in E as (c & Hc & ->). cbn [length] in Hsp. unfold KERNEL_STACK_SIZE in *. change (64 * 1024) with 65536 in *.
  pose proof (ok_rsp _ _ Hr).
  exists (push_back t c), (default [] (queue c)), t. split; [apply list_lookup_insert_eq; by eapply lookup_lt_Some|].
  split_and!; try done. rewrite switch_regs_eq by apply Hr. cbv zeta. intros [= <- <- <-]. cbn [rip cr3 r15 r14 r13 r12 rbx rbp].
  assert (forall k, 0 <= k <= 7 -> rd64 (push_frame ret r m) (u64 (saved_rsp t + 8 * k)) = rd64 (KMEM s0) (saved_rsp t + 8 * k)) as Hread.
  { intros k Hk. rewrite wrap_small by (red; lia).
    rewrite (keeps_rd64 stk m) by (unfold KERNEL_STACK_SIZE; try lia; apply push_frame_keeps; unfold KERNEL_STACK_SIZE; lia).
    apply (keeps_rd64 stk); [exact Hm|lia|unfold KERNEL_STACK_SIZE; lia]. }
  rewrite !Hread by lia.
  assert (rd64 (KMEM s0) (saved_rsp t + 8 * 6) = tt) as -> by (rewrite <- (Hwords 0%nat tt eq_refl); f_equal; lia).
  rewrite !Hz by lia.
  split; [done|]. split; [exact Ha|]. split; [done|]. unfold trampoline_step. cbn.
  replace (saved_rsp t + 56) with (saved_rsp t + 8 * 7) by lia. rewrite Hread by lia.
  split_and!; [rewrite <- (Hwords 1%nat entry eq_refl); f_equal; lia|done|].
  rewrite (wrap_small 64 (saved_rsp t + 8 * 7)) by (red; lia). rewrite (wrap_small 64 (_ + 8)) by (red; lia).
  rewrite wrap_small by (red; lia). lia.
Qed.

(** ** What a switch loads *)

Lemma switch_regs_cr3 ret nr nc r m r' m' sp : switch_regs ret nr nc r m = (r', m', sp) -> cr3 r' = nc.
Proof.
  unfold switch_regs. destruct (push _ _) as [x y]. intros [= <- _ _]. cbn [cr3].
  destruct (Z.eqb_spec (cr3 r) nc); congruence.
Qed.

(** The CPU after [switch_to]. *)
Lemma switch_to_cpu ret me s s' c :
  switch_to ret me s = Some s' -> CPUS s !! me = Some c ->
  exists out nr nc f r, pending c = Some (out, nr, nc) /\ cr3 r = nc /\
    (forall t, id (f t) = id t /\ state (f t) = state t /\ stack_ptr (f t) = stack_ptr t /\ stack_len (f t) = stack_len t /\
       address_space (f t) = address_space t /\ iopb (f t) = iopb t /\ cap_table (f t) = cap_table t) /\
    CPUS s' !! me = Some (map_threads f (set_pending None (set_reg r c))).
Proof.
  intros (c' & out & nr & nc & r & m & sp & Hc' & Hp & Hr & ->)%switch_to_facts Hc. simplify_eq.
  exists out, nr, nc, (fun t => if id t =? out then set_rsp sp t else t), r. split; [done|].
  split; [by eapply switch_regs_cr3|]. split; [intros t; by case_match|].
  cbn. rewrite list_lookup_fmap, list_lookup_insert_eq by by eapply lookup_lt_Some. done.
Qed.

(** Either the scheduler left no switch pending, or it dispatched a thread. *)
Lemma schedule_outcome me s s1 c0 c1 :
  schedule me s = Some s1 -> CPUS s !! me = Some c0 -> CPUS s1 !! me = Some c1 ->
  pending c1 = pending c0 \/ exists out next c, c1 = dispatched out next c.
Proof.
  intros Hs Hc0 Hc1. unfold schedule in Hs. rewrite Hc0 in Hs. cbn in Hs. set (s0 := put_cpu me _ s) in Hs.
  assert (CPUS s0 !! me = Some (set_reg (set_if false (reg c0)) c0)) as Hs0 by (apply list_lookup_insert_eq; by eapply lookup_lt_Some).
  assert (forall x c, reap me s0 = Some x -> CPUS x !! me = Some c -> pending c = pending c0) as Hreap.
  { intros x c Hr Hc. destruct (reap_facts _ _ _ _ Hr Hs0) as (r & HC & _). rewrite HC in Hc.
    rewrite list_lookup_insert_eq in Hc by by eapply lookup_lt_Some. by simplify_eq. }
  assert (forall x b c, bail me b x = Some s1 -> CPUS x !! me = Some c -> pending c1 = pending c) as Hbail.
  { intros x b c (c' & Hc' & ->)%with_cpu_Some Hc. cbn in Hc1.
    rewrite list_lookup_insert_eq in Hc1 by by eapply lookup_lt_Some. by simplify_eq. }
  apply schedule_locked_cases in Hs.
  destruct Hs as [s2 c2 s'' Hr Hc2 _ Hb|s2 c2 q cur s'' Hr Hc2 Hq Hcur Hn Hb|s2 c2 q cur s3 next s'' Hr Hc2 Hq Hcur Hp Hd].
  - left. rewrite (Hbail _ _ _ Hb Hc2). by eapply Hreap.
  - left. rewrite (Hbail _ _ (put_away cur q c2) Hb) by (apply list_lookup_insert_eq; by eapply lookup_lt_Some).
    rewrite <- (Hreap _ _ Hr Hc2). unfold put_away. by case_decide.
  - right. destruct (dispatch_facts _ _ _ _ _ Hd) as (c3 & l & Hc3 & -> & _). cbn in Hc1.
    rewrite list_lookup_insert_eq in Hc1 by by eapply lookup_lt_Some. simplify_eq. eauto.
Qed.

(** Isolation across a switch: once a scheduling decision has been carried
    out, the CPU runs the thread it recorded as current with that thread's own
    page tables in CR3, that thread's kernel stack in the task state and in the
    system-call scratch area, and that thread's port bitmap; nothing of the
    outgoing thread stays loaded. *)
Theorem switch_loads_own_context ret me s s1 s2 c0 c1 c2 :
  CPUS s !! me = Some c0 -> pending c0 = None -> schedule me s = Some s1 ->
  CPUS s1 !! me = Some c1 -> pending c1 <> None -> switch_to ret me s1 = Some s2 -> CPUS s2 !! me = Some c2 ->
  exists t, current c2 = Some t /\ state t = Running /\ pending c2 = None /\
    cr3 (reg c2) = address_space t /\ rsp0 (tss c2) = stack_top t /\ kernel_rsp c2 = stack_top t /\
    tss_iopb (tss c2) = iopb t.
Proof.
  intros Hc0 Hp0 Hs Hc1 Hp1 Hsw Hc2.
  destruct (schedule_outcome _ _ _ _ _ Hs Hc0 Hc1) as [|(out & next & c & ->)]; [congruence|].
  destruct (switch_to_cpu _ _ _ _ _ Hsw Hc1) as (o & nr & nc & f & r & Hp & Hcr & Hf & Hc2'). rewrite Hc2' in Hc2. injection Hc2 as <-.
  cbn in Hp. injection Hp as <- <- <-. exists (f (set_state Running next)).
  destruct (Hf (set_state Running next)) as (_ & Hst & Hptr & Hlen & Ha & Hi & _).
  unfold stack_top. rewrite Hst, Hptr, Hlen, Ha, Hi.
  by split_and!.
Qed.

(** ** A turn of the scheduler *)

Definition log_ok (s : sched) : Prop := length (SWITCH_LOG s) = (Z.to_nat SWITCH_LOG_LEN * 3)%nat.

Lemma wbyte_is_Some {A} (l : list A) i v : (i < length l)%nat -> wbyte l i v = Some (<[i := v]> l).
Proof. intros. unfold wbyte. by rewrite decide_True. Qed.

Lemma record_switch_total f t top s :
  log_ok s -> exists l, record_switch f t top s = Some (set_log l (u64 (SWITCH_LOG_POS s + 1)) s) /\ length l = length (SWITCH_LOG s).
Proof.
  unfold log_ok. change (Z.to_nat SWITCH_LOG_LEN * 3)%nat with 72%nat. intros Hl. unfold record_switch. change SWITCH_LOG_LEN with 24.
  pose proof (Z.mod_pos_bound (SWITCH_LOG_POS s) 24 ltac:(lia)) as Hm.
  rewrite wbyte_is_Some by lia. cbn [mbind option_bind]. rewrite wbyte_is_Some by (rewrite length_insert; lia). cbn [mbind option_bind].
  rewrite wbyte_is_Some by (rewrite !length_insert; lia). cbn [mbind option_bind]. eexists. split; [done|]. by rewrite !length_insert.
Qed.

(** Round robin: while the running thread has not exited, a turn of the
    scheduler always succeeds and takes the head of the CPU's own queue with the
    running thread appended: every thread of the queue moves up by one, the
    outgoing thread goes to the back, and no other CPU is affected; in
    particular a CPU with a live thread of its own never steals work. *)
Theorem round_robin me s c q cur :
  CPUS s !! me = Some c -> zombie c = None -> queue c = Some q -> current c = Some cur -> state cur = Running -> log_ok s ->
  exists s' c' next rest, schedule me s = Some s' /\ CPUS s' !! me = Some c' /\
    q ++ [set_state Ready cur] = next :: rest /\
    current c' = Some (set_state Running next) /\ queue c' = Some rest /\ zombie c' = None /\
    pending c' = Some (id cur, saved_rsp next, address_space next) /\ iflag (reg c') = false /\
    (forall d, d <> me -> CPUS s' !! d = CPUS s !! d) /\ VM s' = VM s.
Proof.
  intros Hc Hz Hq Hcur Hst Hlog. assert (me < length (CPUS s))%nat as Hme by by eapply lookup_lt_Some.
  unfold schedule. rewrite Hc. cbn [mbind option_bind]. set (c0 := set_reg (set_if false (reg c)) c).
  assert (reap me (put_cpu me c0 s) = Some (put_cpu me c0 s)) as Hr.
  { unfold reap. cbn. rewrite list_lookup_insert_eq by done. cbn. by rewrite Hz. }
  unfold schedule_locked. rewrite Hr. cbn [mbind option_bind]. cbn [CPUS put_cpu set_cpus].
  rewrite list_lookup_insert_eq by done. cbn [mbind option_bind]. change (queue c0) with (queue c). change (current c0) with (current c).
  rewrite Hq, Hcur.
  assert (put_away cur q c0 = set_queue (Some (q ++ [set_state Ready cur])) (set_current None c0)) as ->.
  { unfold put_away. rewrite Hst, (decide_True (P := Running = Running)) by done. by rewrite decide_False by done. }
  destruct (q ++ [set_state Ready cur]) as [|next rest] eqn:Hnext; [by destruct q|].
  unfold pick_next. cbn [CPUS put_cpu set_cpus]. rewrite list_lookup_insert_eq by by rewrite length_insert.
  cbn [mbind option_bind queue set_queue]. unfold dispatch.
  match goal with |- context [record_switch ?a ?b ?d ?x] => destruct (record_switch_total a b d x) as (l & -> & _); [done|] end.
  cbn [mbind option_bind]. unfold with_cpu. cbn [CPUS put_cpu set_cpus set_log].
  rewrite list_lookup_insert_eq by by rewrite !length_insert. cbn [mbind option_bind].
  eexists _, _, next, rest. split; [reflexivity|]. cbn [CPUS put_cpu set_cpus set_log].
  split; [apply list_lookup_insert_eq; by rewrite !length_insert|]. split_and!; try done.
  intros d Hd. by rewrite !list_lookup_insert_ne.
Qed.

(** The parts of the state a turn may touch besides the CPUs. *)
Lemma schedule_tail_VM me b s s1 s' : scheduled me b s s' -> reap me s = Some s1 -> VM s' = VM s1.
Proof.
  assert (forall x y, bail me b x = Some y -> VM y = VM x) as Hb by by intros x y (c & _ & ->)%with_cpu_Some.
  intros [s2 c2 s'' Hr _ _ H|s2 c2 q cur s'' Hr _ _ _ _ H|s2 c2 q cur s3 next s'' Hr _ _ _ Hp H] Hr'; simplify_eq.
  - by apply Hb.
  - by rewrite (Hb _ _ H).
  - destruct (dispatch_facts _ _ _ _ _ H) as (c3 & l & _ & -> & _). by destruct Hp.
Qed.

(** A turn of the scheduler loses no thread: afterwards the threads are the
    ones there were, except the exited thread left by an earlier turn, which is
    gone from every place and whose address space was torn down in this very
    turn (the kernel's own is never torn down); without such a thread no page is
    freed. *)
Theorem schedule_conserves n me s s' c :
  sched_ok n s -> CPUS s !! me = Some c -> schedule me s = Some s' ->
  tids s ≡ₚ ids (zombie c) ++ tids s' /\
  match zombie c with
  | None => VM s' = VM s
  | Some z =>
      if negb (address_space z =? 0) && negb (address_space z =? KERNEL_PML4_PHYS (VM s))
      then exists v, destroy_address_space (address_space z) (vmm_on c s) = Some v /\ VM s' = v
      else VM s' = VM s
  end.
Proof.
  intros Hs Hc H. unfold schedule in H. rewrite Hc in H. cbn in H.
  set (c0 := set_reg (set_if false (reg c)) c) in *. set (s0 := put_cpu me c0 s) in *.
  assert (CPUS s0 !! me = Some c0) as Hc0 by (apply list_lookup_insert_eq; by eapply lookup_lt_Some).
  assert (sched_ok n s0) as Hs0.
  { destruct (cpu_ok_at _ _ _ _ Hs Hc). eapply (put_cpu_keep n s _ me c); [done|done|reflexivity|by split|done|done]. }
  assert (tids s0 ≡ₚ tids s) as Ht0 by by apply (tids_put me c).
  apply schedule_locked_cases in H. assert (exists s1, reap me s0 = Some s1) as [s1 Hr] by (destruct H; eauto).
  pose proof (schedule_tail_VM _ _ _ _ _ H Hr) as HVM. destruct (reap_facts _ _ _ _ Hr Hc0) as (r & HC & _).
  assert (tids s0 ≡ₚ ids (zombie c) ++ tids s1) as Ht1.
  { destruct (tids_split me c0 s0 Hc0) as (rest & -> & Hp). rewrite (tids_ext (put_cpu me (set_reg r (set_zombie None c0)) s0) s1) by done.
    rewrite Hp. unfold cpu_tids. cbn. rewrite app_nil_r, !app_assoc. f_equiv. by rewrite Permutation_app_comm, !app_assoc. }
  assert (forall b c1, CPUS s1 !! me = Some c1 -> bail me b s1 = Some s' -> tids s' ≡ₚ tids s1) as Hbail.
  { intros b c1 Hc1 (c2 & Hc2 & ->)%with_cpu_Some. by eapply tids_put. }
  split.
  - rewrite <- Ht0, Ht1. f_equiv. symmetry.
    destruct H as [s2 c2 s'' Hr2 Hc2 _ Hb|s2 c2 q cur s'' Hr2 Hc2 Hq Hcur _ Hb|s2 c2 q cur s3 next s'' Hr2 Hc2 Hq Hcur Hp Hd]; simplify_eq.
    + by eapply Hbail.
    + apply with_cpu_Some in Hb as (c3 & Hc3 & ->). rewrite (tids_put me c3) by done.
      apply (tids_put me c2); [done|]. apply put_away_tids; try done. by eapply reap_zombie.
    + pose proof (reap_ok _ _ _ _ Hs0 Hr2) as Hs1. pose proof (reap_zombie _ _ _ _ Hr2 Hc2) as Hz.
      destruct (dispatch_ok n me (id cur) (put_cpu me (put_away cur q c2) s2) s3 next s'' (put_away cur q c2)) as [_ ->]; try done.
      * by apply put_away_sched_ok.
      * cbn. apply list_lookup_insert_eq. by eapply lookup_lt_Some.
      * unfold put_away. by case_decide.
      * apply (tids_put me c2); [done|]. by apply put_away_tids.
  - rewrite HVM. unfold reap in Hr. rewrite Hc0 in Hr. cbn [mbind option_bind] in Hr. change (zombie c0) with (zombie c) in Hr.
    destruct (zombie c) as [z|]; [|by injection Hr as <-]. change (KERNEL_PML4_PHYS (VM s0)) with (KERNEL_PML4_PHYS (VM s)) in Hr.
    destruct (negb (address_space z =? 0) && _); [|by injection Hr as <-].
    bind_inv. eexists. split; [|reflexivity]. exact E.
Qed.

(** ** Creation with capabilities *)

(** The capability a grant makes. *)
Definition granted (os : list KernelObject) (g : Z * Z) : option Capability :=
  Some (mkCap g.1 g.2 (match os !! Z.to_nat g.1 with Some o => generation o | None => 0 end)).

(** A sequence of grants that only looks at the kernel objects. *)
Lemma grant_sequence (one : kernel * CapabilityTable -> Z * Z -> kernel * CapabilityTable)
    (ok : list KernelObject -> Z * Z -> bool) (ev : list KernelObject -> Z * Z -> list AuditEvent) :
  (forall k t g, one (k, t) g = (foldl (fun k e => audit_record e k) k (ev (OBJECTS k) g),
                                 if ok (OBJECTS k) g then t ++ [granted (OBJECTS k) g] else t)) ->
  forall gs k t, foldl one (k, t) gs =
    (foldl (fun k e => audit_record e k) k (gs ≫= ev (OBJECTS k)),
     t ++ (granted (OBJECTS k) <$> filter (fun g => ok (OBJECTS k) g = true) gs)).
Proof.
  intros Hone. assert (forall es k, OBJECTS (foldl (fun k e => audit_record e k) k es) = OBJECTS k) as Hobj.
  { induction es as [|e es IH]; intros k; [done|]. cbn. by rewrite IH. }
  induction gs as [|g gs IH]; intros k t; [cbn; by rewrite app_nil_r|]. cbn [foldl]. rewrite Hone, IH, Hobj.
  rewrite bind_cons, foldl_app. f_equal. rewrite filter_cons.
  destruct (ok (OBJECTS k) g); [rewrite decide_True by done|rewrite decide_False by done]; [|done].
  cbn. by rewrite <- app_assoc.
Qed.

(** The new thread is the one [grant_to] finds. *)
Lemma spawn_grant_to n tt me entry a stk s s1 tid one gs s'
    (ok : list KernelObject -> Z * Z -> bool) (ev : list KernelObject -> Z * Z -> list AuditEvent) :
  (forall k t g, one (k, t) g = (foldl (fun k e => audit_record e k) k (ev (OBJECTS k) g),
                                 if ok (OBJECTS k) g then t ++ [granted (OBJECTS k) g] else t)) ->
  sched_ok n s -> spawn_in_locked tt me entry a stk s = Some (s1, tid) -> grant_to me tid one gs s1 = Some s' ->
  exists c q t, CPUS s' !! me = Some c /\ queue c = Some (q ++ [t]) /\ id t = tid /\ state t = Ready /\ address_space t = a /\
    cap_table t = granted (OBJECTS (KOBJ s)) <$> filter (fun g => ok (OBJECTS (KOBJ s)) g = true) gs /\
    OBJECTS (KOBJ s') = OBJECTS (KOBJ s) /\
    AUDIT (KOBJ s') = record_all ((fun e : AuditEvent => (current_id me s, e)) <$> (gs ≫= ev (OBJECTS (KOBJ s)))) (AUDIT (KOBJ s)).
Proof.
  intros Hone Hs Hsp Hg. unfold spawn_in_locked in Hsp. destruct (build_thread _ _ _ _) as [s0 t] eqn:Hb. bind_inv.
  destruct (build_thread_facts _ _ _ _ _ _ Hb) as (HC & _ & HK & _ & Hid & Hst & Htab & Ha & _).
  apply with_cpu_Some in E as (c & Hc & ->). rewrite HC in Hc. assert (me < length (CPUS s0))%nat as Hme by (rewrite HC; by eapply lookup_lt_Some).
  unfold grant_to in Hg. cbn [CPUS put_cpu set_cpus] in Hg. rewrite list_lookup_insert_eq in Hg by done.
  cbn [mbind option_bind push_back queue set_queue] in Hg. set (q := default [] (queue c)) in *.
  assert (list_find (fun u => id u = id t) (q ++ [t]) = Some (length q, t)) as Hf.
  { apply list_find_Some. split; [by apply list_lookup_middle|]. split; [done|]. intros j u Hj Hlt Hu.
    rewrite lookup_app_l in Hj by done.
    assert (id u ∈ tids s) as Hin.
    { apply list_elem_of_bind. exists c. split; [|by eapply list_elem_of_lookup_2].
      unfold cpu_tids. apply elem_of_app. left. apply list_elem_of_fmap. exists u. split; [done|]. by eapply list_elem_of_lookup_2. }
    pose proof (proj1 (Forall_forall _ _) (ok_range _ _ Hs) _ Hin) as Hr. cbn in Hr. lia. }
  rewrite Hf in Hg. match type of Hg with context [kernel_on me ?x] => remember (kernel_on me x) as k0 eqn:Ek end. rewrite (grant_sequence one ok ev Hone) in Hg. injection Hg as <-.
  assert (OBJECTS k0 = OBJECTS (KOBJ s)) as Hk by (rewrite Ek; cbn; by rewrite HK).
  assert (TID k0 = current_id me s) as Htid.
  { rewrite Ek. unfold kernel_on, current_id. cbn [TID CPUS put_cpu set_cpus].
    rewrite list_lookup_insert_eq by done. by rewrite Hc. }
  assert (AUDIT k0 = AUDIT (KOBJ s)) as Haud by (rewrite Ek; cbn; by rewrite HK). clear Ek.
  exists (set_queue (Some (<[length q := set_table (cap_table t ++ (granted (OBJECTS k0) <$> filter (fun g => ok (OBJECTS k0) g = true) gs)) t]> (q ++ [t]))) (push_back t c)),
    q, (set_table (cap_table t ++ (granted (OBJECTS k0) <$> filter (fun g => ok (OBJECTS k0) g = true) gs)) t).
  split_and!; try done.
  - cbn. rewrite list_insert_insert_eq. by apply list_lookup_insert_eq.
  - cbn. by rewrite insert_app_r_alt, Nat.sub_diag by done.
  - cbn. by rewrite Htab, Hk.
  - cbn [KOBJ set_kobj]. rewrite <- Hk. generalize (gs ≫= ev (OBJECTS k0)). clear. intros es.
    revert k0. induction es as [|e es IH]; intros k0; [done|]. cbn. by rewrite IH.
  - cbn [KOBJ set_kobj]. rewrite <- Hk, <- Htid, <- Haud. generalize (gs ≫= ev (OBJECTS k0)). clear. intros es.
    revert k0. induction es as [|e es IH]; intros k0; [done|]. cbn. by rewrite IH.
Qed.

(** An agent starts with no more than the policy allows: a thread created
    with a list of capabilities is put in the queue holding exactly the requested
    capabilities whose rights are within the agent ceiling, in the order asked;
    every other request is refused on its own and leaves one audit record, and
    each accepted one is recorded as a grant. *)
Theorem spawn_policy_confines n tt me entry a gs stk s s' tid :
  sched_ok n s -> spawn_with_capabilities tt me entry a gs stk s = Some (s', tid) ->
  exists c q t, CPUS s' !! me = Some c /\ queue c = Some (q ++ [t]) /\ id t = tid /\ state t = Ready /\ address_space t = a /\
    cap_table t = granted (OBJECTS (KOBJ s)) <$> filter (fun g => allows g.2 = true) gs /\
    (forall cap, Some cap ∈ cap_table t -> contains AGENT_MAX_RIGHTS (rights cap) = true) /\
    AUDIT (KOBJ s') = record_all ((fun g => (current_id me s, if allows g.2 then EvGrant g.1 g.2 else EvPolicyDenied g.2)) <$> gs) (AUDIT (KOBJ s)).
Proof.
  intros Hs H. unfold spawn_with_capabilities in H. bind_inv. destruct p as [s1 tid1]. bind_inv.
  destruct (spawn_grant_to n tt me entry a stk s s1 tid policy_grant gs s'
    (fun _ g => allows g.2) (fun _ g => [if allows g.2 then EvGrant g.1 g.2 else EvPolicyDenied g.2])) as (c & q & t & H1 & H2 & H3 & H4 & H5 & H6 & _ & H7); try done.
  { intros k t [oid rs]. cbn. by destruct (allows rs). }
  exists c, q, t. split_and!; try done.
  - rewrite H6. intros cap ([oid rs] & Hcap & Hin)%list_elem_of_fmap. apply list_elem_of_filter in Hin as [Hal _].
    injection Hcap as ->. exact Hal.
  - rewrite H7. f_equal. clear. induction gs as [|g gs IH]; [done|]. cbn. by f_equal.
Qed.

(** An application holds no object kind its manifest does not declare: a
    thread created with a manifest is put in the queue holding exactly the
    requested capabilities on existing objects of a declared kind, in order;
    every request of an undeclared kind is refused and recorded. *)
Theorem spawn_manifest_confines n tt me entry a gs kinds stk s s' tid :
  sched_ok n s -> spawn_with_manifest tt me entry a gs (foldl allow MANIFEST_NONE kinds) stk s = Some (s', tid) ->
  exists c q t, CPUS s' !! me = Some c /\ queue c = Some (q ++ [t]) /\ id t = tid /\ state t = Ready /\ address_space t = a /\
    (forall i cap, cap_table t !! i = Some (Some cap) ->
       exists kd, object_kind (KOBJ s) (object_id cap) = Some kd /\ kind_of kd ∈ kinds) /\
    cap_table t = granted (OBJECTS (KOBJ s)) <$>
      filter (fun g => match object_kind (KOBJ s) g.1 with Some kd => bool_decide (kind_of kd ∈ kinds) | None => false end = true) gs.
Proof.
  intros Hs H. unfold spawn_with_manifest in H. bind_inv. destruct p as [s1 tid1]. bind_inv.
  set (okb os (g : Z * Z) := match object_kind (mkKernel os audit_init 0) g.1 with
    | Some kd => declares (foldl allow MANIFEST_NONE kinds) (kind_of kd) | None => false end).
  set (evb os (g : Z * Z) := match object_kind (mkKernel os audit_init 0) g.1 with
    | Some kd => [if declares (foldl allow MANIFEST_NONE kinds) (kind_of kd) then EvGrant g.1 g.2
                  else EvManifestDenied (CapKind_code (kind_of kd))]
    | None => [] end).
  destruct (spawn_grant_to n tt me entry a stk s s1 tid (manifest_grant (foldl allow MANIFEST_NONE kinds)) gs s' okb evb)
    as (c & q & t & H1 & H2 & H3 & H4 & H5 & H6 & _); [|done|done|done|].
  { intros k t [oid rs]. unfold okb, evb. cbn. change (object_kind (mkKernel (OBJECTS k) audit_init 0) oid) with (object_kind k oid).
    destruct (object_kind k oid) as [kd|]; [|done]. by destruct (declares _ _). }
  assert (cap_table t = granted (OBJECTS (KOBJ s)) <$>
      filter (fun g => match object_kind (KOBJ s) g.1 with Some kd => bool_decide (kind_of kd ∈ kinds) | None => false end = true) gs) as Htab.
  { rewrite H6. f_equal. apply filter_ext_in. intros g _. unfold okb.
    change (object_kind (mkKernel (OBJECTS (KOBJ s)) audit_init 0) g.1) with (object_kind (KOBJ s) g.1).
    destruct (object_kind (KOBJ s) g.1); [|done]. by rewrite manifest_declares_exact. }
  exists c, q, t. split_and!; try done.
  rewrite Htab. intros i cap Hi. apply list_lookup_fmap_Some in Hi as (g & Hg & Hi). injection Hg as ->.
  apply list_elem_of_lookup_2, list_elem_of_filter in Hi as [Hok _]. cbn.
  destruct (object_kind (KOBJ s) g.1) as [kd|]; [|done]. exists kd. split; [done|]. by apply bool_decide_eq_true in Hok.
Qed.

Module ThreadWitness.
Section run.
Context (p : pmm).

Definition r0 : regs := mkRegs 0 0 0 0 0 0 0x9000 0x100 0x1000 true.
Definition b0 : sched :=
  mkSched 1 (replicate MAX_CPUS (cpu_init r0)) (replicate 72 0) 0 (fun _ => 0) kernel_init (mkVmm p 0x1000 0x1000 0 0)
    (replicate MAX_CPUS None) [].

Lemma b0_boots : boots b0.
Proof.
  split_and!; try reflexivity. intros c Hc. apply elem_of_replicate_inv in Hc as ->. by exists r0.
Qed.

(** Thread 1 is the boot thread of CPU 0; thread 2 is created, runs and exits;
    thread 1 goes on and calls deeper into its stack. *)
Definition TRAMP : Z := 0x5000.
Definition RET : Z := 0x7000.
Definition b1 : sched := default b0 (init_as_current_thread 0 0 b0).
Definition b2 : sched := default b0 (fst <$> spawn_in_locked TRAMP 0 0x6000 0x1000 0x100000 b1).
Definition b3 : sched := default b0 (schedule 0 b2).
Definition b4 : sched := default b0 (switch_to RET 0 b3).
Definition b5 : sched := default b0 (exit_current 0 b4).
Definition b6 : sched := default b0 (schedule 0 b5).
Definition b7 : sched := default b0 (switch_to RET 0 b6).
Definition deeper (r : regs) : regs := mkRegs (r15 r) (r14 r) (r13 r) (r12 r) (rbx r) (rbp r) (rsp r - 256) (rip r) (cr3 r) true.
Definition cpu0 (s : sched) : percpu := default (cpu_init r0) (CPUS s !! 0%nat).
Definition b8 : sched :=
  set_vm (VM b7) (set_kobj (KOBJ b7) (set_kmem (KMEM b7) (put_cpu 0 (set_reg (deeper (reg (cpu0 b7))) (cpu0 b7)) b7))).
Definition b9 : sched := default b0 (schedule 0 b8).
Definition b10 : sched := default b0 (switch_to RET 0 b9).

Definition succeeds {A} (o : option A) : bool := match o with Some _ => true | None => false end.

Lemma force {A} (d : A) (o : option A) : succeeds o = true -> o = Some (default d o).
Proof. by destruct o. Qed.

Lemma force_fst {A B} (d : A) (o : option (A * B)) : succeeds o = true -> exists b, o = Some (default d (fst <$> o), b).
Proof. destruct o as [[a b]|]; [|done]. by exists b. Qed.

Lemma rest_at (s : sched) : pending (cpu0 s) = None -> succeeds (CPUS s !! 0%nat) = true -> at_rest 0 s.
Proof. unfold cpu0, at_rest. destruct (CPUS s !! 0%nat) as [c|]; [|done]. by exists c. Qed.

Lemma cpu0_at (s : sched) : succeeds (CPUS s !! 0%nat) = true -> CPUS s !! 0%nat = Some (cpu0 s).
Proof. apply force. Qed.

Lemma steps_to_b3 : sched_step (b0) Quiet (b1) /\ sched_step b1 Quiet b2 /\ sched_step b2 (Scheduled 0) b3.
Proof.
  split_and!.
  - apply (StepInit _ 0 0 (cpu_init r0)); [apply rest_at; vm_compute; reflexivity|reflexivity|reflexivity|reflexivity|apply force; vm_compute; reflexivity].
  - destruct (force_fst b0 (spawn_in_locked TRAMP 0 0x6000 0x1000 0x100000 b1)) as [i Hi]; [reflexivity|].
    eapply StepSpawn; [apply rest_at; vm_compute; reflexivity|exact Hi].
  - apply StepSchedule; [apply rest_at; vm_compute; reflexivity|apply force; vm_compute; reflexivity].
Qed.

Lemma steps_to_b8 : sched_step b3 Quiet b4 /\ sched_step b4 Quiet b5 /\ sched_step b5 (Scheduled 0) b6 /\
  sched_step b6 Quiet b7 /\ sched_step b7 Quiet b8.
Proof.
  split_and!.
  - eapply (StepSwitch _ 0 RET). apply force. vm_compute. reflexivity.
  - apply (StepExit _ 0); [apply rest_at; vm_compute; reflexivity|apply force; vm_compute; reflexivity].
  - apply StepSchedule; [apply rest_at; vm_compute; reflexivity|apply force; vm_compute; reflexivity].
  - eapply (StepSwitch _ 0 RET). apply force. vm_compute. reflexivity.
  - unfold b8. apply (StepElse _ 0); [apply rest_at; vm_compute; reflexivity|apply cpu0_at; vm_compute; reflexivity].
Qed.

Definition trace8 : list event := [] ++ [Quiet] ++ [Quiet] ++ [Scheduled 0] ++ [Quiet] ++ [Quiet] ++ [Scheduled 0] ++ [Quiet] ++ [Quiet].

Lemma reach_b8 : sched_reach trace8 b8.
Proof.
  destruct steps_to_b3 as (H1 & H2 & H3). destruct steps_to_b8 as (H4 & H5 & H6 & H7 & H8).
  unfold trace8. rewrite !app_assoc.
  refine (reach_step _ _ _ _ _ H8). refine (reach_step _ _ _ _ _ H7). refine (reach_step _ _ _ _ _ H6).
  refine (reach_step _ _ _ _ _ H5). refine (reach_step _ _ _ _ _ H4). refine (reach_step _ _ _ _ _ H3).
  refine (reach_step _ _ _ _ _ H2). refine (reach_step _ _ _ _ _ H1). exact (reach_boot _ b0_boots).
Qed.

Lemma bounded8 : bounded_run trace8.
Proof. unfold bounded_run. cbn. lia. Qed.
End run.

(** A CPU left with a single thread resumes it on a stale stack: from boot,
    thread 1 creates thread 2, which runs and exits; thread 1 then calls 256
    bytes deeper into its stack and is preempted.  The turn requeues thread 1,
    takes it again and switches to the stack pointer stored at its previous
    switch, because that pointer is read before the current one is stored: the
    thread continues 256 bytes away from where it was. *)
Theorem self_switch_stale_stack (p : pmm) :
  exists tr s s1 s2 c c2, sched_reach tr s /\ CPUS s !! 0%nat = Some c /\
    schedule 0 s = Some s1 /\ switch_to RET 0 s1 = Some s2 /\ CPUS s2 !! 0%nat = Some c2 /\
    (id <$> current c) = Some 1 /\ (id <$> current c2) = Some 1 /\ rsp (reg c) = 36608 /\ rsp (reg c2) = 36864.
Proof.
  exists trace8, (b8 p), (b9 p), (b10 p), (cpu0 (b8 p)), (cpu0 (b10 p)).
  split; [apply reach_b8|]. split; [apply cpu0_at; vm_compute; reflexivity|]. split; [unfold b9; apply (force (b0 p)); vm_compute; reflexivity|].
  split; [unfold b10; apply (force (b0 p)); vm_compute; reflexivity|]. split; [apply cpu0_at; vm_compute; reflexivity|]. split; [vm_compute; reflexivity|]. split; [vm_compute; reflexivity|]. split; vm_compute; reflexivity.
Qed.

Definition p0 : pmm := VmmWitness.s0.

Lemma thread_placement_witness :
  sched_reach trace8 (b8 p0) /\ NoDup (tids (b8 p0)) /\ zombie (cpu0 (b8 p0)) <> None.
Proof.
  split; [apply reach_b8|]. split; [exact (proj1 (thread_placement trace8 (b8 p0) (reach_b8 p0) bounded8))|]. vm_compute. congruence.
Defined.

(** Thread 1 is given the serial port and tests it. *)
Definition with_port : sched := default (b0 p0) (allow_port_for_current 0 0x3F8 (b8 p0)).

Lemma reach_with_port : sched_reach (trace8 ++ [PortAllowed 1 0x3F8]) with_port.
Proof.
  eapply reach_step; [apply reach_b8|]. apply (StepAllow (b8 p0) 0 0x3F8); [apply rest_at; vm_compute; reflexivity|lia|apply force; vm_compute; reflexivity].
Qed.

Lemma port_access_witness :
  allowed (tss_iopb (tss (cpu0 with_port))) 0x3F8 = true /\ PortAllowed 1 0x3F8 ∈ trace8 ++ [PortAllowed 1 0x3F8].
Proof.
  assert (allowed (tss_iopb (tss (cpu0 with_port))) 0x3F8 = true) as Ha by reflexivity. split; [exact Ha|].
  refine (proj1 (port_access_needs_grant _ with_port 0 (cpu0 with_port) (default (mkThread 0 Ready 0 0 0 0 [] []) (current (cpu0 with_port))) 0x3F8
    reach_with_port _ _ _ _ Ha)); [unfold bounded_run; cbn; lia|apply cpu0_at; vm_compute; reflexivity|vm_compute; reflexivity|lia].
Defined.

Lemma no_starvation_witness :
  waiting (b2 p0) 0 2 0 /\
  exists tr1 s1 tr2, [Scheduled 0] = tr1 ++ tr2 /\ sched_trace (b2 p0) tr1 s1 /\ sched_trace s1 tr2 (b3 p0) /\ is_running s1 2.
Proof.
  assert (waiting (b2 p0) 0 2 0) as Hw.
  { exists (cpu0 (b2 p0)), (default [] (queue (cpu0 (b2 p0)))), (default (mkThread 0 Ready 0 0 0 0 [] []) (default [] (queue (cpu0 (b2 p0))) !! 0%nat)).
    split; [apply cpu0_at; vm_compute; reflexivity|]. split; [vm_compute; congruence|]. split; [vm_compute; reflexivity|]. split; vm_compute; reflexivity. }
  split; [exact Hw|]. apply (no_starvation (b2 p0) [Scheduled 0] (b3 p0) 0 2 0); [|exact Hw|vm_compute; lia].
  eapply trace_cons; [apply (proj2 (proj2 (steps_to_b3 p0)))|apply trace_nil].
Defined.

Definition ra : regs := mkRegs 15 14 13 12 11 10 0x9000 0x100 0x1000 true.
Definition rb : regs := mkRegs 1 2 3 4 5 6 0x20000 0x200 0x2000 true.

Lemma context_switch_witness :
  let x := switch_regs 77 0x1FFC8 0x2000 ra (fun _ => 0) in
  let y := switch_regs 88 x.2 0x1000 rb x.1.2 in r15 y.1.1 = 15 /\ rip y.1.1 = 77 /\ rsp y.1.1 = 0x9000.
Proof.
  intros x y.
  assert (regs_ok 77 ra) as Ha.
  { split; [repeat (apply Forall_cons; split; [split; cbn; lia|]); apply Forall_nil_2|cbn; lia]. }
  assert (regs_ok 88 rb) as Hb.
  { split; [repeat (apply Forall_cons; split; [split; cbn; lia|]); apply Forall_nil_2|cbn; lia]. }
  destruct (context_switch_roundtrip 77 0x1FFC8 0x2000 ra (fun _ => 0) 88 0x1000 rb x.1.2 x.1.1 x.1.2 x.2 y.1.1 y.1.2 y.2 Ha Hb)
    as (H1 & _ & _ & _ & _ & _ & H2 & H3 & _); [reflexivity|reflexivity|left; cbn; lia|reflexivity|].
  split; [exact H1|]. split; [exact H3|exact H2].
Defined.

Lemma new_thread_witness :
  let x := switch_regs RET 0x10FFC0 0x1000 r0 (KMEM (b2 p0)) in
  rip x.1.1 = TRAMP /\ rip (trampoline_step 0 x.1.1 x.1.2).1 = 0x6000.
Proof.
  intros x.
  assert (regs_ok RET r0) as Hr.
  { split; [repeat (apply Forall_cons; split; [split; cbn; unfold RET; lia|]); apply Forall_nil_2|cbn; lia]. }
  destruct (force_fst (b0 p0) (spawn_in_locked TRAMP 0 0x6000 0x1000 0x100000 (b1 p0))) as [i Hi]; [vm_compute; reflexivity|].
  destruct (new_thread_starts TRAMP 0 0x6000 0x1000 0x100000 (b1 p0) (b2 p0) i RET r0 (KMEM (b2 p0)) x.1.1 x.1.2 x.2 0 Hi)
    as (c & q & t & Hc & Hq & _ & _ & H);
    [lia|unfold KERNEL_STACK_SIZE; lia|red; lia|red; unfold TRAMP; lia|exact Hr|left; cbn; lia|intros a _; reflexivity|].
  assert (saved_rsp t = 0x10FFC0 /\ address_space t = 0x1000) as [Hs Ha].
  { rewrite (cpu0_at (b2 p0)) in Hc by (vm_compute; reflexivity). injection Hc as <-.
    assert (saved_rsp <$> last (default [] (queue (cpu0 (b2 p0)))) = Some 0x10FFC0) as H1 by (vm_compute; reflexivity).
    assert (address_space <$> last (default [] (queue (cpu0 (b2 p0)))) = Some 0x1000) as H2 by (vm_compute; reflexivity).
    rewrite Hq in H1, H2. change (default [] (Some (q ++ [t]))) with (q ++ [t]) in H1, H2. rewrite last_snoc in H1, H2.
    injection H1 as H1. injection H2 as H2. split; assumption. }
  rewrite Hs, Ha in H. destruct H as (H1 & _ & _ & H2 & _); [unfold x; destruct (switch_regs _ _ _ _ _) as [[? ?] ?]; reflexivity|].
  split; [exact H1|exact H2].
Defined.

Lemma switch_loads_witness :
  exists t, current (cpu0 (b4 p0)) = Some t /\ cr3 (reg (cpu0 (b4 p0))) = address_space t /\ tss_iopb (tss (cpu0 (b4 p0))) = iopb t.
Proof.
  destruct (switch_loads_own_context RET 0 (b2 p0) (b3 p0) (b4 p0) (cpu0 (b2 p0)) (cpu0 (b3 p0)) (cpu0 (b4 p0)))
    as (t & H1 & _ & _ & H2 & _ & _ & H3);
    [apply cpu0_at; vm_compute; reflexivity|vm_compute; reflexivity|unfold b3; apply (force (b0 p0)); vm_compute; reflexivity
    |apply cpu0_at; vm_compute; reflexivity|vm_compute; congruence|unfold b4; apply (force (b0 p0)); vm_compute; reflexivity
    |apply cpu0_at; vm_compute; reflexivity|].
  exists t. split; [exact H1|]. split; [exact H2|exact H3].
Defined.

Lemma round_robin_witness : exists s' c', schedule 0 (b2 p0) = Some s' /\ CPUS s' !! 0%nat = Some c' /\ zombie c' = None.
Proof.
  destruct (round_robin 0 (b2 p0) (cpu0 (b2 p0)) (default [] (queue (cpu0 (b2 p0))))
    (default (mkThread 0 Ready 0 0 0 0 [] []) (current (cpu0 (b2 p0))))) as (s' & c' & next & rest & H1 & H2 & _ & _ & _ & H3 & _);
    [apply cpu0_at; vm_compute; reflexivity|vm_compute; reflexivity|vm_compute; reflexivity|vm_compute; reflexivity
    |vm_compute; reflexivity|vm_compute; reflexivity|].
  exists s', c'. split; [exact H1|]. split; [exact H2|exact H3].
Defined.

Lemma schedule_conserves_witness : ids (zombie (cpu0 (b8 p0))) = [2] /\ tids (b8 p0) ≡ₚ [2] ++ tids (b9 p0).
Proof.
  assert (ids (zombie (cpu0 (b8 p0))) = [2]) as Hz by (vm_compute; reflexivity). split; [exact Hz|].
  destruct (schedule_conserves (length trace8) 0 (b8 p0) (b9 p0) (cpu0 (b8 p0))) as [H _];
    [apply sched_reach_ok; [apply reach_b8|apply bounded8]|apply cpu0_at; vm_compute; reflexivity
    |unfold b9; apply (force (b0 p0)); vm_compute; reflexivity|].
  rewrite Hz in H. exact H.
Defined.

(** An agent asks for introspection, and for the right to map memory. *)
Definition asks : list (Z * Z) := [(0, INTROSPECT); (0, MAP); (1, SEND)].
Abbreviation spawned := (spawn_with_capabilities TRAMP 0 0x6000 0x2000 asks 0x200000 (b8 p0)).

Lemma spawned_id : snd <$> spawned = Some 3.
Proof. vm_compute. reflexivity. Qed.
Lemma b8_objects : OBJECTS (KOBJ (b8 p0)) = [].
Proof. vm_compute. reflexivity. Qed.
Lemma b8_ok : sched_ok (length trace8) (b8 p0).
Proof. apply sched_reach_ok; [apply reach_b8|apply bounded8]. Qed.

Lemma spawn_policy_witness :
  exists s' c q t, spawned = Some (s', 3) /\ CPUS s' !! 0%nat = Some c /\ queue c = Some (q ++ [t]) /\
    cap_table t = [Some (mkCap 0 INTROSPECT 0); Some (mkCap 1 SEND 0)].
Proof.
  pose proof spawned_id as Hid.
  destruct (spawn_with_capabilities TRAMP 0 0x6000 0x2000 asks 0x200000 (b8 p0)) as [[s' i]|] eqn:Hi; [|discriminate Hid].
  injection Hid as ->.
  destruct (spawn_policy_confines (length trace8) TRAMP 0 0x6000 0x2000 asks 0x200000 (b8 p0) s' 3 b8_ok Hi)
    as (c & q & t & H1 & H2 & _ & _ & _ & H3 & _).
  exists s', c, q, t. split; [reflexivity|]. split; [exact H1|]. split; [exact H2|]. rewrite H3, b8_objects. reflexivity.
Defined.

(** An application whose manifest declares only files asks for a socket too. *)
Definition with_objects : sched :=
  set_kobj (mkKernel [mkObject (FileObject 7) 1 true; mkObject IpcEndpoint 1 true] audit_init 0) (b8 p0).
Abbreviation launched :=
  (spawn_with_manifest TRAMP 0 0x6000 0x2000 [(1, SEND); (0, READ); (5, READ)] (foldl allow MANIFEST_NONE [KFileObject; KSocket]) 0x200000 with_objects).

Lemma set_kobj_ok n k s : sched_ok n s -> sched_ok n (set_kobj k s).
Proof. by intros []; split. Qed.

Lemma with_objects_ok : sched_ok (length trace8) with_objects.
Proof. unfold with_objects. apply set_kobj_ok, b8_ok. Qed.

Lemma launched_ok : succeeds launched = true.
Proof. vm_compute. reflexivity. Qed.

Lemma spawn_manifest_witness :
  exists s' i c q t, launched = Some (s', i) /\ CPUS s' !! 0%nat = Some c /\ queue c = Some (q ++ [t]) /\
    cap_table t = [Some (mkCap 0 READ 1)].
Proof.
  pose proof launched_ok as Hok.
  destruct (spawn_with_manifest TRAMP 0 0x6000 0x2000 _ _ 0x200000 with_objects) as [[s' i]|] eqn:Hi; [|discriminate Hok].
  destruct (spawn_manifest_confines (length trace8) TRAMP 0 0x6000 0x2000 [(1, SEND); (0, READ); (5, READ)] [KFileObject; KSocket] 0x200000 with_objects s' i
    with_objects_ok Hi) as (c & q & t & H1 & H2 & _ & _ & _ & _ & H3).
  exists s', i, c, q, t. split; [reflexivity|]. split; [exact H1|]. split; [exact H2|]. rewrite H3. reflexivity.
Defined.
End ThreadWitness.
