(* ===== verification/Service.v ===== *)
(** * The file and network services of the kernel

    [kernel_rs/src/file_service.rs] and [kernel_rs/src/net_service.rs]: the tables
    of requests in flight between a program and the process that serves it.  A
    request is announced to the server by a message on its endpoint ([Ipc]), the
    bytes cross through the kernel by copies through the page tables of the two
    processes ([Vmm]), and whether the caller may ask at all is decided by the
    capabilities of the running thread ([Thread]).

    [world] is the kernel state these handlers touch.  [me] is the executing CPU and
    [pml4] the address space the system-call dispatcher passes.  Every handler returns
    the value the caller sees in [rax].  [None] is a panic, or a buffer check that
    does not end (see [validate_fuel]). *)

From S2P Require Import Prelude AuditLog Capability Pmm Vmm Ipc Thread FileServer.

(** ** State *)

Record Request := mkRequest {
  req_inode : Z; req_ready : bool; req_len : nat; req_offset : Z; req_data : bytes; req_is_write : bool }.

Record NetRequest := mkNetRequest { net_ready : bool; net_len : nat; net_data : bytes }.

(** The statics of each module: [REQUESTS], [NEXT_REQUEST_ID], [SERVER_SEND_CAP] and
    [SENDER_TABLE]. *)
Record service (R : Type) := mkService {
  requests : list (Z * R); next_request_id : Z; server_send_cap : Z; sender_table : CapabilityTable }.
Arguments mkService {R}.
Arguments requests {R}.
Arguments next_request_id {R}.
Arguments server_send_cap {R}.
Arguments sender_table {R}.

Definition NO_SERVER : Z := 2 ^ 32 - 1.
Definition MAX_BYTES : nat := 4096.

Definition service_init {R} : service R := mkService [] 1 NO_SERVER table_new.

Definition set_requests {R} (l : list (Z * R)) (v : service R) : service R :=
  mkService l (next_request_id v) (server_send_cap v) (sender_table v).

Record world := mkWorld {
  SCHED : sched; EPS : list EndpointSlot; FILES : service Request; NETS : service NetRequest }.

Definition set_sched (s : sched) (w : world) : world := mkWorld s (EPS w) (FILES w) (NETS w).
Definition set_files (v : service Request) (w : world) : world := mkWorld (SCHED w) (EPS w) v (NETS w).
Definition set_nets (v : service NetRequest) (w : world) : world := mkWorld (SCHED w) (EPS w) (FILES w) v.

(** [ipc] functions work on the kernel's objects and the endpoint table. *)
Definition ipc_on (me : nat) (w : world) : ipc := mkIpc (kernel_on me (SCHED w)) (EPS w).
Definition set_ipc (s : ipc) (w : world) : world :=
  mkWorld (set_kobj (KERNEL s) (SCHED w)) (ENDPOINTS s) (FILES w) (NETS w).

Definition record_on (me : nat) (ev : AuditEvent) (w : world) : world :=
  set_sched (set_kobj (audit_record ev (kernel_on me (SCHED w))) (SCHED w)) w.

(** ** User memory *)

Definition phys (w : world) : Z -> Z := MEM (PMM (VM (SCHED w))).
Definition set_phys (m : Z -> Z) (w : world) : world :=
  set_sched (set_vm (set_pmm (set_mem m (PMM (VM (SCHED w)))) (VM (SCHED w))) (SCHED w)) w.
Definition kernel_pml4 (w : world) : Z := KERNEL_PML4_PHYS (VM (SCHED w)).

(** Pages a buffer of [len] bytes can touch, plus the last test of the loop. *)
Definition validate_fuel (len : Z) : nat := Z.to_nat (len / 4096 + 3).

Definition readable (pml4 vaddr len : Z) (w : world) : option bool :=
  validate_user_buffer_readable (validate_fuel len) (phys w) (kernel_pml4 w) pml4 vaddr len.
Definition writable (pml4 vaddr len : Z) (w : world) : option bool :=
  validate_user_buffer_writable (validate_fuel len) (phys w) (kernel_pml4 w) pml4 vaddr len.
Definition copy_in (pml4 vaddr : Z) (len : nat) (w : world) : bytes := read_user_bytes (phys w) pml4 vaddr len.
Definition copy_out (pml4 vaddr : Z) (data : bytes) (w : world) : world :=
  set_phys (write_user_bytes (phys w) pml4 vaddr data) w.

(** ** The request tables *)

Section table.
Context {R : Type}.

(** [iter().find(|s| s.id == request_id)] and [iter().position(..)]. *)
Definition find_request (request_id : Z) (l : list (Z * R)) : option (nat * R) :=
  '(i, e) ← list_find (fun e => e.1 = request_id) l; Some (i, e.2).

(** Writing through the reference the search returned. *)
Definition put_request (i : nat) (r : R) (l : list (Z * R)) : list (Z * R) := alter (fun e => (e.1, r)) i l.

(** [NEXT_REQUEST_ID.fetch_add(1)] and [requests_mut().push(..)]. *)
Definition push_request (r : R) (v : service R) : service R * Z :=
  let id := next_request_id v in
  (mkService (requests v ++ [(id, r)]) (u64 (id + 1)) (server_send_cap v) (sender_table v), id).
End table.

(** A message with one word. *)
Definition word_message (x : Z) : Message := [x; 0; 0; 0].

(** [ipc::try_send(sender_table_mut(), send_cap, msg)]; the outcome is only logged. *)
Definition announce (me : nat) (t : CapabilityTable) (send_cap : Z) (msg : Message) (w : world) : option world :=
  '(s, _) ← try_send t send_cap msg (ipc_on me w); Some (set_ipc s w).

(** [register_server] of either module: the endpoint, its SEND half kept by the
    kernel and its RECEIVE half granted to the running thread. *)
Definition register {R} (me : nat) (v : service R) (w : world) : option (service R * world * Z) :=
  let '(s, t, send_cap) := create_endpoint (sender_table v) SEND (ipc_on me w) in
  let w := set_ipc s w in
  let '(k, r) := resolve t send_cap SEND (kernel_on me (SCHED w)) in
  let w := set_sched (set_kobj k (SCHED w)) w in
  match r with
  | Err _ => None
  | Ok cap =>
      '(sc, receive_cap) ← grant_current_capability me (object_id cap) RECEIVE (SCHED w);
      Some (mkService (requests v) (next_request_id v) send_cap t, set_sched sc w, receive_cap)
  end.

(** ** The file service *)

Module FileService.

Definition register_server (me : nat) (w : world) : option (world * Z) :=
  '(v, w, c) ← register me (FILES w) w; Some (set_files v w, c).

Definition is_server_registered (w : world) : bool := negb (server_send_cap (FILES w) =? NO_SERVER).

(** The three ways the capability check of [request_file] and [write_file] can
    succeed: the inode to use. *)
Definition authorised_inode (me : nat) (arg0 rs : Z) (w : world) : option (world * option Z) :=
  '(s, r) ← resolve_file_capability me arg0 rs (SCHED w);
  let w := set_sched s w in
  match r with
  | Some resolved_inode => Some (w, Some resolved_inode)
  | None =>
      '(s, has) ← current_has_file_capability me arg0 rs (SCHED w);
      let w := set_sched s w in
      if (has : bool) then Some (w, Some arg0) else
      '(s, any) ← current_has_any_file_capability me rs (SCHED w);
      let w := set_sched s w in
      if (any : bool) then Some (w, Some arg0) else Some (w, None)
  end.

Definition request_file_internal (me : nat) (inode : Z) (w : world) : option (world * Z) :=
  let v := FILES w in
  if server_send_cap v =? NO_SERVER then Some (w, 0) else
  let '(v, id) := push_request (mkRequest inode false 0 0 (replicate MAX_BYTES 0) false) v in
  let w := set_files v w in
  w ← announce me (sender_table v) (server_send_cap v) (word_message (Z.lor (u64 (Z.shiftl id 32)) inode)) w;
  Some (w, id).

Definition request_file (me : nat) (arg0 : Z) (w : world) : option (world * Z) :=
  '(w, r) ← authorised_inode me arg0 READ w;
  match r with
  | Some inode => request_file_internal me inode w
  | None => Some (record_on me (EvDenied arg0) w, 0)
  end.

(** [write_file] once the caller is authorised. *)
Definition write_file_internal (me : nat) (pml4 op inode data_vaddr len offset : Z) (w : world) : option (world * Z) :=
  let v := FILES w in
  if server_send_cap v =? NO_SERVER then Some (w, 0) else
  let real_len := Nat.min (Z.to_nat len) MAX_BYTES in
  ok ← (if (0 <? real_len)%nat then readable pml4 data_vaddr (Z.of_nat real_len) w else Some true);
  if negb ok then Some (w, 0) else
  let buf := copy_in pml4 data_vaddr real_len w ++ replicate (MAX_BYTES - real_len) 0 in
  let '(v, id) := push_request (mkRequest inode false real_len offset buf true) v in
  let w := set_files v w in
  let op_payload := if op =? 0 then Z.shiftl 1 31 else Z.shiftl op 24 in
  w ← announce me (sender_table v) (server_send_cap v)
        (word_message (Z.lor (Z.lor (u64 (Z.shiftl id 32)) op_payload) inode)) w;
  Some (w, id).

Definition write_file (me : nat) (pml4 arg0 data_vaddr len offset : Z) (w : world) : option (world * Z) :=
  let op := Z.shiftr arg0 24 in
  let inode := Z.land arg0 0x00FFFFFF in
  if (op =? 0) && negb (pml4 =? kernel_pml4 w) then
    '(w, r) ← authorised_inode me arg0 WRITE w;
    match r with
    | Some inode => write_file_internal me pml4 op inode data_vaddr len offset w
    | None => Some (record_on me (EvDenied arg0) w, 0)
    end
  else write_file_internal me pml4 op inode data_vaddr len offset w.

Definition server_get_write_data (pml4 request_id out_vaddr max_len : Z) (w : world) : option (world * Z) :=
  match find_request request_id (requests (FILES w)) with
  | None => Some (w, U64_MAX)
  | Some (_, r) =>
      if negb (req_is_write r) then Some (w, U64_MAX) else
      let copy_len := Nat.min (req_len r) (Z.to_nat max_len) in
      ok ← writable pml4 out_vaddr (Z.of_nat copy_len) w;
      if negb ok then Some (w, U64_MAX) else
      data ← rslice (req_data r) 0 copy_len;
      Some (copy_out pml4 out_vaddr data w, Z.lor (u64 (Z.shiftl (req_offset r) 32)) (Z.of_nat copy_len))
  end.

(** The slot after a reply of [real_len] bytes [data]. *)
Definition replied (r : Request) (null : bool) (real_len : nat) (data : bytes) : option Request :=
  new ← (if negb null && (0 <? real_len)%nat
         then d ← wslice (req_data r) 0 data; Some (real_len, d)
         else Some (if null && (0 <? real_len)%nat then real_len else 0%nat, req_data r));
  Some (mkRequest (req_inode r) true new.1 (req_offset r) new.2 (req_is_write r)).

Definition server_reply (pml4 request_id data_vaddr len : Z) (w : world) : option (world * Z) :=
  let real_len := Nat.min (Z.to_nat len) MAX_BYTES in
  let null := data_vaddr =? 0 in
  ok ← (if negb null && (0 <? real_len)%nat then readable pml4 data_vaddr (Z.of_nat real_len) w else Some true);
  if negb ok then Some (w, U64_MAX) else
  let temp_buf := if negb null && (0 <? real_len)%nat then copy_in pml4 data_vaddr real_len w else replicate real_len 0 in
  match find_request request_id (requests (FILES w)) with
  | None => Some (w, U64_MAX)
  | Some (i, r) =>
      r ← replied r null real_len temp_buf;
      Some (set_files (set_requests (put_request i r (requests (FILES w))) (FILES w)) w, 0)
  end.

Definition poll_reply (pml4 request_id out_vaddr out_max_len : Z) (w : world) : option (world * Z) :=
  match find_request request_id (requests (FILES w)) with
  | None => Some (w, U64_MAX)
  | Some (i, r) =>
      let remove w := set_files (set_requests (delete i (requests (FILES w))) (FILES w)) w in
      if negb (req_ready r) then Some (w, U64_MAX) else
      if (out_vaddr =? 0) || (out_max_len =? 0) then Some (remove w, Z.of_nat (req_len r)) else
      let copy_len := Nat.min (req_len r) (Z.to_nat out_max_len) in
      ok ← (if (0 <? copy_len)%nat then writable pml4 out_vaddr (Z.of_nat copy_len) w else Some true);
      if negb ok then Some (w, U64_MAX) else
      data ← rslice (req_data r) 0 copy_len;
      let w := if (0 <? copy_len)%nat then copy_out pml4 out_vaddr data w else w in
      let ret := if req_is_write r && (copy_len <? req_len r)%nat then Z.of_nat (req_len r) else Z.of_nat copy_len in
      Some (remove w, ret)
  end.

(** *** The system-call glue: request structures in the caller's memory *)

Definition syscall_reply (pml4 request_vaddr : Z) (w : world) : option (world * Z) :=
  ok ← readable pml4 request_vaddr 24 w;
  if negb ok then Some (w, U64_MAX) else
  let b := copy_in pml4 request_vaddr 24 w in
  request_id ← rle 8 b 0; data_vaddr ← rle 8 b 8; len ← rle 4 b 16;
  server_reply pml4 request_id data_vaddr len w.

Definition syscall_poll (pml4 request_id request_vaddr : Z) (w : world) : option (world * Z) :=
  ok ← readable pml4 request_vaddr 16 w;
  if negb ok then Some (w, U64_MAX) else
  let b := copy_in pml4 request_vaddr 16 w in
  out_vaddr ← rle 8 b 0; out_max_len ← rle 4 b 8;
  poll_reply pml4 request_id out_vaddr out_max_len w.

Definition syscall_write (me : nat) (pml4 inode request_vaddr : Z) (w : world) : option (world * Z) :=
  ok16 ← readable pml4 request_vaddr 16 w;
  if (ok16 : bool) then
    let b := copy_in pml4 request_vaddr 16 w in
    data_vaddr ← rle 8 b 0; len ← rle 4 b 8; offset ← rle 4 b 12;
    write_file me pml4 inode data_vaddr len offset w
  else
    ok12 ← readable pml4 request_vaddr 12 w;
    if (ok12 : bool) then
      let b := copy_in pml4 request_vaddr 12 w in
      data_vaddr ← rle 8 b 0; len ← rle 4 b 8;
      write_file me pml4 inode data_vaddr len 0 w
    else Some (w, 0).

Definition syscall_get_write_data (pml4 request_id out_vaddr max_len : Z) (w : world) : option (world * Z) :=
  server_get_write_data pml4 request_id out_vaddr max_len w.
End FileService.

(** ** The network service *)

Module NetService.

Definition register_server (me : nat) (w : world) : option (world * Z) :=
  '(v, w, c) ← register me (NETS w) w; Some (set_nets v w, c).

Definition request_fetch (me : nat) (socket_cap_id : Z) (w : world) : option (world * Z) :=
  let v := NETS w in
  if server_send_cap v =? NO_SERVER then Some (w, 0) else
  '(s, r) ← resolve_current_capability me socket_cap_id SEND (SCHED w);
  let w := set_sched s w in
  match r with
  | Err _ => Some (w, 0)
  | Ok cap =>
      match object_kind (KOBJ (SCHED w)) (object_id cap) with
      | Some (Socket _ _ _ _) =>
          let '(v, id) := push_request (mkNetRequest false 0 (replicate MAX_BYTES 0)) v in
          let w := set_nets v w in
          w ← announce me (sender_table v) (server_send_cap v) (word_message (Z.lor (u64 (Z.shiftl id 32)) 80)) w;
          Some (w, id)
      | _ => Some (record_on me (EvDenied socket_cap_id) w, 0)
      end
  end.

Definition server_reply (pml4 request_id data_vaddr len : Z) (w : world) : option (world * Z) :=
  let real_len := Nat.min (Z.to_nat len) MAX_BYTES in
  ok ← readable pml4 data_vaddr (Z.of_nat real_len) w;
  if negb ok then Some (w, U64_MAX) else
  let temp_buf := copy_in pml4 data_vaddr real_len w in
  match find_request request_id (requests (NETS w)) with
  | None => Some (w, U64_MAX)
  | Some (i, r) =>
      d ← wslice (net_data r) 0 temp_buf;
      Some (set_nets (set_requests (put_request i (mkNetRequest true real_len d) (requests (NETS w))) (NETS w)) w, 0)
  end.

Definition poll_reply (pml4 request_id out_vaddr out_max_len : Z) (w : world) : option (world * Z) :=
  match find_request request_id (requests (NETS w)) with
  | None => Some (w, U64_MAX)
  | Some (i, r) =>
      if negb (net_ready r) then Some (w, U64_MAX) else
      let copy_len := Nat.min (net_len r) (Z.to_nat out_max_len) in
      ok ← writable pml4 out_vaddr (Z.of_nat copy_len) w;
      if negb ok then Some (w, U64_MAX) else
      data ← rslice (net_data r) 0 copy_len;
      let w := copy_out pml4 out_vaddr data w in
      Some (set_nets (set_requests (delete i (requests (NETS w))) (NETS w)) w, Z.of_nat copy_len)
  end.

Definition syscall_request (me : nat) (socket_cap_id : Z) (w : world) : option (world * Z) := request_fetch me socket_cap_id w.

Definition syscall_reply (pml4 request_vaddr : Z) (w : world) : option (world * Z) :=
  ok ← readable pml4 request_vaddr 24 w;
  if negb ok then Some (w, U64_MAX) else
  let b := copy_in pml4 request_vaddr 24 w in
  request_id ← rle 8 b 0; data_vaddr ← rle 8 b 8; len ← rle 4 b 16;
  server_reply pml4 request_id data_vaddr len w.

Definition syscall_poll (pml4 request_id request_vaddr : Z) (w : world) : option (world * Z) :=
  ok ← readable pml4 request_vaddr 16 w;
  if negb ok then Some (w, U64_MAX) else
  let b := copy_in pml4 request_vaddr 16 w in
  out_vaddr ← rle 8 b 0; out_max_len ← rle 4 b 8;
  poll_reply pml4 request_id out_vaddr out_max_len w.

Inductive dns_error := WrongObjectKind | InvalidObject | InsufficientDnsRights.

(** The answer is the same for every name. *)
Definition request_dns_lookup (t : CapabilityTable) (dns_cap_id : Z) (k : kernel) : kernel * result (list Z) dns_error :=
  let '(k, r) := resolve t dns_cap_id SEND k in
  match r with
  | Ok cap =>
      match object_kind k (object_id cap) with
      | Some (DnsResolver _) => (k, Ok [93; 184; 215; 14])
      | Some _ => (audit_record (EvDenied dns_cap_id) k, Err WrongObjectKind)
      | None => (audit_record (EvDenied dns_cap_id) k, Err InvalidObject)
      end
  | Err _ => (audit_record (EvDenied dns_cap_id) k, Err InsufficientDnsRights)
  end.
End NetService.
