(* ===== verification/ServiceInv.v ===== *)
(** * What the file and network services guarantee

    The request tables of [Service] as finite maps, the effect of every handler on
    them, and a file read followed from the asking program through the kernel and the
    file server back into its memory. *)

From stdpp Require Import gmap.
From S2P Require Import Prelude AuditLog Capability Pmm Vmm Ipc Gdt Thread Ext2 FileServer FileServerInv FileNames Service.

(** ** A request table is a map *)

Section maps.
Context {R : Type}.
Implicit Types l : list (Z * R).

Definition table (v : service R) : gmap Z R := list_to_map (requests v).

Lemma find_request_Some id l i r :
  find_request id l = Some (i, r) -> l !! i = Some (id, r) /\ (list_to_map l : gmap Z R) !! id = Some r.
Proof.
  unfold find_request. intros H. destruct (list_find _ l) as [[j [x r']]|] eqn:Hf; [|done]. cbn in H. injection H as -> ->.
  apply list_find_Some in Hf as (Hl & Hx & Hmin). cbn in Hx. subst x. split; [done|].
  revert i Hl Hmin. induction l as [|[y s] l IH]; intros i Hl Hmin; [done|]. cbn [list_to_map foldr]. destruct i as [|i].
  - injection Hl as -> ->. apply lookup_insert_eq.
  - rewrite lookup_insert_ne; [|intros <-; exact (Hmin 0%nat _ eq_refl ltac:(lia) eq_refl)]. eapply IH; [exact Hl|].
    intros j z Hj Hlt. exact (Hmin (S j) z Hj ltac:(lia)).
Qed.

Lemma find_request_None id l : find_request id l = None -> (list_to_map l : gmap Z R) !! id = None.
Proof.
  unfold find_request. intros H. destruct (list_find _ l) as [[j e]|] eqn:Hf; [done|]. apply list_find_None in Hf.
  apply not_elem_of_list_to_map_1. intros ([x r] & Hx & Hin)%list_elem_of_fmap. rewrite Forall_forall in Hf. by apply (Hf _ Hin).
Qed.

Lemma put_request_map i id r r' l : NoDup l.*1 -> l !! i = Some (id, r) ->
  (list_to_map (put_request i r' l) : gmap Z R) = <[id := r']> (list_to_map l) /\ (put_request i r' l).*1 = l.*1.
Proof.
  unfold put_request. revert i. induction l as [|[x s] l IH]; intros i Hn Hi; [done|]. cbn [fmap list_fmap fst] in Hn.
  apply NoDup_cons in Hn as [Hx Hn]. destruct i as [|i].
  - injection Hi as -> ->. cbn. by rewrite insert_insert_eq.
  - destruct (IH i Hn Hi) as [H1 H2]. cbn. rewrite H1, H2. split; [|done].
    apply insert_insert_ne. intros ->. apply Hx. change id with (id, r).1. apply list_elem_of_fmap_2. by eapply list_elem_of_lookup_2.
Qed.

Lemma delete_request_map i id r l : NoDup l.*1 -> l !! i = Some (id, r) ->
  (list_to_map (delete i l) : gmap Z R) = delete id (list_to_map l) /\ NoDup (delete i l).*1.
Proof.
  revert i. induction l as [|[x s] l IH]; intros i Hn Hi; [done|]. cbn [fmap list_fmap fst] in Hn.
  pose proof Hn as Hn0. apply NoDup_cons in Hn as [Hx Hn]. destruct i as [|i].
  - injection Hi as -> ->. cbn. rewrite delete_insert_eq, delete_id; [done|by apply not_elem_of_list_to_map_1].
  - destruct (IH i Hn Hi) as [H1 H2]. change (delete (S i) ((x, s) :: l)) with ((x, s) :: delete i l).
    rewrite !list_to_map_cons, fmap_cons, H1. split.
    + rewrite delete_insert_ne; [done|]. intros ->. apply Hx, list_elem_of_fmap. eexists. split; [|by eapply list_elem_of_lookup_2]. done.
    + apply NoDup_cons. split; [|done]. intros (e & He & Hin)%list_elem_of_fmap. apply Hx. cbn [fst] in He. rewrite He. apply list_elem_of_fmap_2.
      clear -Hin. revert i Hin. induction l as [|y l IH]; intros i Hin; [by destruct i|]. destruct i as [|i]; [by apply elem_of_cons; right|].
      cbn in Hin. apply elem_of_cons in Hin as [->|Hin]; [apply list_elem_of_here|]. apply elem_of_cons. right. by eapply IH.
Qed.

Lemma find_request_put id i r r' l : find_request id l = Some (i, r) -> find_request id (put_request i r' l) = Some (i, r').
Proof.
  unfold find_request, put_request. intros H. destruct (list_find _ l) as [[j [x r0]]|] eqn:Hf; [|done]. cbn in H. injection H as -> ->.
  apply list_find_Some in Hf as (Hl & Hx & Hmin). cbn in Hx. subst x.
  assert (list_find (fun e : Z * R => e.1 = id) (alter (fun e => (e.1, r')) i l) = Some (i, (id, r'))) as ->; [|done].
  apply list_find_Some. split_and!; [by rewrite list_lookup_alter_eq, Hl|done|]. intros j y Hj Hlt.
  rewrite list_lookup_alter_ne in Hj by lia. by eapply Hmin.
Qed.

(** Ids are distinct and all below the next one; every request satisfies [P]. *)
Record service_ok (P : R -> Prop) (v : service R) : Prop := {
  so_nodup : NoDup (requests v).*1;
  so_ids : Forall (fun e => 1 <= e.1 < next_request_id v) (requests v);
  so_reqs : Forall (fun e => P e.2) (requests v);
  so_next : 1 <= next_request_id v < 2 ^ 64 }.

Context (P : R -> Prop).

Lemma push_request_ok v r : service_ok P v -> P r -> next_request_id v < 2 ^ 64 - 1 ->
  let '(v', id) := push_request r v in
  service_ok P v' /\ id = next_request_id v /\ table v !! id = None /\ table v' = <[id := r]> (table v) /\
  server_send_cap v' = server_send_cap v /\ sender_table v' = sender_table v.
Proof using Type.
  intros [Hn Hi Hr Hx] HP Hlt. unfold push_request. assert (next_request_id v ∉ (requests v).*1) as Hfresh.
  { intros (e & He & Hin)%list_elem_of_fmap. rewrite Forall_forall in Hi. specialize (Hi _ Hin). lia. }
  split_and!; try done; [|by apply not_elem_of_list_to_map_1|unfold table; cbn [requests]; by apply list_to_map_snoc].
  constructor; cbn [requests next_request_id]; rewrite ?wrap_small by (red; lia); [| | |lia].
  - rewrite fmap_app. apply NoDup_app. split_and!; [done| |by apply NoDup_singleton]. cbn. intros x Hx' ->%list_elem_of_singleton. done.
  - apply Forall_app. split; [|by apply Forall_singleton; cbn; lia]. eapply Forall_impl; [exact Hi|]. cbn. intros. lia.
  - apply Forall_app. split; [done|by apply Forall_singleton].
Qed.

Lemma find_request_ok v id i r : service_ok P v -> find_request id (requests v) = Some (i, r) -> P r.
Proof using Type.
  intros Hv Hf. apply find_request_Some in Hf as [Hl _]. exact (Forall_lookup_1 _ _ _ _ (so_reqs P v Hv) Hl).
Qed.

Lemma set_requests_put v id i r r' : service_ok P v -> find_request id (requests v) = Some (i, r) -> P r' ->
  service_ok P (set_requests (put_request i r' (requests v)) v) /\
  table (set_requests (put_request i r' (requests v)) v) = <[id := r']> (table v).
Proof using Type.
  intros [Hn Hi Hr Hx] Hf HP. apply find_request_Some in Hf as [Hl _]. destruct (put_request_map i id r r' _ Hn Hl) as [H1 H2].
  split; [|exact H1]. constructor; cbn; [by rewrite H2| | |done].
  - apply (Forall_fmap fst (fun x => 1 <= x < next_request_id v)). rewrite H2. by apply Forall_fmap.
  - unfold put_request. apply Forall_alter; [done|]. by intros [? ?] _ _.
Qed.

Lemma set_requests_delete v id i r : service_ok P v -> find_request id (requests v) = Some (i, r) ->
  service_ok P (set_requests (delete i (requests v)) v) /\
  table (set_requests (delete i (requests v)) v) = delete id (table v).
Proof using Type.
  intros [Hn Hi Hr Hx] Hf. apply find_request_Some in Hf as [Hl _]. destruct (delete_request_map i id r _ Hn Hl) as [H1 H2].
  split; [|exact H1]. constructor; cbn; [done|by apply Forall_delete|by apply Forall_delete|done].
Qed.
End maps.

(** ** The handlers return *)

Definition req_ok (r : Request) : Prop :=
  length (req_data r) = MAX_BYTES /\ (req_len r <= MAX_BYTES)%nat /\ 0 <= req_offset r < 2 ^ 32.
Definition net_ok (r : NetRequest) : Prop := length (net_data r) = MAX_BYTES /\ (net_len r <= MAX_BYTES)%nat.

Record world_ok (me : nat) (w : world) : Prop := {
  wo_files : service_ok req_ok (FILES w);
  wo_nets : service_ok net_ok (NETS w);
  wo_ipc : Forall (fun sl => ep_ok (slot_endpoint sl)) (EPS w);
  wo_cpu : is_Some (CPUS (SCHED w) !! me) }.

(** Addresses for which a buffer of up to a page is checked within the fuel: all but
    the last two pages of the address space. *)
Definition addr_ok (vaddr : Z) : Prop := 0 <= vaddr <= 2 ^ 64 - 8192.

Lemma validate_answers m r required vaddr len :
  addr_ok vaddr -> 0 <= len <= 4096 -> exists b, validate_user_buffer (validate_fuel len) m r required vaddr len = Some b.
Proof.
  intros [Hv0 Hv1] Hl. unfold validate_user_buffer. destruct (len =? 0) eqn:H0; bool_to_prop; [by eexists|].
  destruct (Z.leb_spec (2 ^ 64) (vaddr + len)); [by eexists|]. rewrite page_floor by (red; lia).
  pose proof (Z.mul_div_le vaddr 4096 ltac:(lia)). pose proof (Z.mod_pos_bound vaddr 4096 ltac:(lia)). pose proof (Z.div_mod vaddr 4096 ltac:(lia)).
  assert (0 <= len / 4096) by (apply Z.div_pos; lia). pose proof (Z.mul_succ_div_gt len 4096 ltac:(lia)).
  destruct (validate_loop_spec (validate_fuel len) m r required (vaddr / 4096 * 4096) (vaddr + len)) as (b & -> & _);
    [lia|by apply Z.mod_mul|lia|unfold validate_fuel; lia|unfold validate_fuel; lia|]. by exists b.
Qed.

Lemma readable_answers pml4 vaddr len w : addr_ok vaddr -> 0 <= len <= 4096 -> exists b, readable pml4 vaddr len w = Some b.
Proof. intros. by apply validate_answers. Qed.

Lemma writable_answers pml4 vaddr len w : addr_ok vaddr -> 0 <= len <= 4096 -> exists b, writable pml4 vaddr len w = Some b.
Proof. intros. by apply validate_answers. Qed.

(** The check that is skipped for nothing to copy. *)
Lemma guarded_answers (p : bool) pml4 vaddr len w :
  addr_ok vaddr -> 0 <= len <= 4096 -> exists b, (if p then readable pml4 vaddr len w else Some true) = Some b.
Proof. intros. destruct p; [by apply readable_answers|by eexists]. Qed.

Lemma guarded_writable_answers (p : bool) pml4 vaddr len w :
  addr_ok vaddr -> 0 <= len <= 4096 -> exists b, (if p then writable pml4 vaddr len w else Some true) = Some b.
Proof. intros. destruct p; [by apply writable_answers|by eexists]. Qed.

(** Only the kernel's objects and audit log change. *)
Definition kobj_only (w w' : world) : Prop := exists k, w' = set_sched (set_kobj k (SCHED w)) w.

Lemma kobj_only_ok me w w' : kobj_only w w' -> world_ok me w -> world_ok me w'.
Proof. intros [k ->] [? ? ? ?]. by constructor. Qed.

Lemma kobj_only_trans w1 w2 w3 : kobj_only w1 w2 -> kobj_only w2 w3 -> kobj_only w1 w3.
Proof. intros [k ->] [k' ->]. by exists k'. Qed.

Lemma record_kobj me ev w : kobj_only w (record_on me ev w).
Proof. by eexists. Qed.

Lemma resolve_current_total me c rs s : is_Some (CPUS s !! me) ->
  exists k r, resolve_current_capability me c rs s = Some (set_kobj k s, r).
Proof.
  intros [cpu Hc]. unfold resolve_current_capability. rewrite Hc. cbn [mbind option_bind]. destruct (current cpu) as [t|].
  - destruct (resolve (cap_table t) c rs (kernel_on me s)) as [k r]. by exists k, r.
  - exists (KOBJ s), (Err NoSuchCapability). by destruct s.
Qed.

Lemma resolve_file_total me c rs s : is_Some (CPUS s !! me) ->
  exists k r, resolve_file_capability me c rs s = Some (set_kobj k s, r).
Proof.
  intros Hc. unfold resolve_file_capability. destruct (resolve_current_total me c rs s Hc) as (k & r & ->). cbn [mbind option_bind]. by eexists _, _.
Qed.

Lemma has_file_total me ino rs s : is_Some (CPUS s !! me) ->
  exists k r, current_has_file_capability me ino rs s = Some (set_kobj k s, r).
Proof.
  intros [cpu Hc]. unfold current_has_file_capability. rewrite Hc. cbn [mbind option_bind]. destruct (current cpu) as [t|].
  - destruct (find_file_capability (cap_table t) ino rs (kernel_on me s)) as [k r]. by eexists _, _.
  - exists (KOBJ s), false. by destruct s.
Qed.

Lemma has_any_total me rs s : is_Some (CPUS s !! me) ->
  exists k r, current_has_any_file_capability me rs s = Some (set_kobj k s, r).
Proof.
  intros [cpu Hc]. unfold current_has_any_file_capability. rewrite Hc. cbn [mbind option_bind]. destruct (current cpu) as [t|].
  - destruct (has_any_file_capability (cap_table t) rs (kernel_on me s)) as [k r]. by eexists _, _.
  - exists (KOBJ s), false. by destruct s.
Qed.

Lemma authorised_total me a rs w : is_Some (CPUS (SCHED w) !! me) ->
  exists w' r, FileService.authorised_inode me a rs w = Some (w', r) /\ kobj_only w w'.
Proof.
  intros Hc. unfold FileService.authorised_inode. destruct (resolve_file_total me a rs (SCHED w) Hc) as (k1 & r1 & ->). cbn [mbind option_bind].
  destruct r1 as [ino|]; [eexists _, _; split; [done|]; by eexists|].
  destruct (has_file_total me a rs (set_kobj k1 (SCHED w)) Hc) as (k2 & r2 & E2). cbn [SCHED set_sched]. rewrite E2. cbn [mbind option_bind].
  destruct r2; [eexists _, _; split; [done|]; by eexists|].
  destruct (has_any_total me rs (set_kobj k2 (set_kobj k1 (SCHED w))) Hc) as (k3 & r3 & E3). cbn [SCHED set_sched]. rewrite E3. cbn [mbind option_bind].
  destruct r3; (eexists _, _; split; [done|]; by eexists).
Qed.

Lemma try_send_objects t c msg s s' r : try_send t c msg s = Some (s', r) -> OBJECTS (KERNEL s') = OBJECTS (KERNEL s).
Proof.
  unfold try_send. pose proof (resolve_OBJECTS t c SEND (KERNEL s)) as Ho. destruct (resolve t c SEND (KERNEL s)) as [k [cap|e]]; cbn [fst] in Ho.
  - destruct (find_endpoint _ _) as [[i ep]|]; [|by intros [= <- _]]. destruct (enqueue msg ep) as [[ep' b]|]; [|done]. cbn [mbind option_bind].
    destruct b; by intros [= <- _].
  - by intros [= <- _].
Qed.

(** Resolving depends on the objects alone. *)
Lemma resolve_objects t c rs k k' cap : OBJECTS k = OBJECTS k' -> (resolve t c rs k).2 = Ok cap -> (resolve t c rs k').2 = Ok cap.
Proof. intros Ho [H1 H2]%resolve_Ok. apply resolve_Ok. split; [done|]. unfold live_for, get_object in *. by rewrite <- Ho. Qed.

(** Announcing a request leaves the tables alone and says whether the message is
    queued. *)
Lemma announce_total me t c msg w : Forall (fun sl => ep_ok (slot_endpoint sl)) (EPS w) ->
  exists w', announce me t c msg w = Some w' /\ Forall (fun sl => ep_ok (slot_endpoint sl)) (EPS w') /\
    FILES w' = FILES w /\ NETS w' = NETS w /\ VM (SCHED w') = VM (SCHED w) /\ CPUS (SCHED w') = CPUS (SCHED w) /\
    OBJECTS (KOBJ (SCHED w')) = OBJECTS (KOBJ (SCHED w)) /\
    forall o, queues (ipc_on me w') o =
      (spec_send (resolve t c SEND (kernel_on me (SCHED w))).2 msg (queues (ipc_on me w))).1 o.
Proof.
  intros He. unfold announce. destruct (try_send_queues (ipc_on me w) t c msg He) as (s & r & He' & Hs & _ & Hq).
  rewrite He'. cbn [mbind option_bind]. eexists. split_and!; [done|exact Hs|done|done|done|done|exact (try_send_objects _ _ _ _ _ _ He')|exact Hq].
Qed.

Lemma copy_in_length pml4 vaddr n w : length (copy_in pml4 vaddr n w) = n.
Proof. unfold copy_in, read_user_bytes. rewrite length_fmap. apply length_buffer. Qed.

(** ** The handlers as steps on the map *)

(** One call of the file service: the caller's arguments. *)
Inductive file_op :=
  | Ask (arg0 : Z)
  | Write (pml4 arg0 data_vaddr len offset : Z)
  | GetData (pml4 request_id out_vaddr max_len : Z)
  | Reply (pml4 request_id data_vaddr len : Z)
  | Poll (pml4 request_id out_vaddr out_max_len : Z).

Definition file_call (me : nat) (o : file_op) (w : world) : option (world * Z) :=
  match o with
  | Ask a => FileService.request_file me a w
  | Write p a v l off => FileService.write_file me p a v l off w
  | GetData p i v m => FileService.server_get_write_data p i v m w
  | Reply p i v l => FileService.server_reply p i v l w
  | Poll p i v m => FileService.poll_reply p i v m w
  end.

Definition op_ok (o : file_op) : Prop :=
  match o with
  | Ask _ => True
  | Write _ _ v l off => addr_ok v /\ 0 <= off < 2 ^ 32
  | GetData _ _ v _ | Reply _ _ v _ | Poll _ _ v _ => addr_ok v
  end.

(** What a call may do to the requests in flight: nothing; open a request under a
    fresh id, not ready; mark a request ready; close a ready one. *)
Inductive file_step : file_op -> gmap Z Request -> Z -> gmap Z Request -> Prop :=
  | step_none o t ret : file_step o t ret t
  | step_open o t id r : (match o with Ask _ | Write _ _ _ _ _ => True | _ => False end) ->
      t !! id = None -> req_ready r = false -> file_step o t id (<[id := r]> t)
  | step_ready p id v l t r r' : t !! id = Some r -> req_ready r' = true -> req_is_write r' = req_is_write r ->
      file_step (Reply p id v l) t 0 (<[id := r']> t)
  | step_close p id v m t r : t !! id = Some r -> req_ready r = true ->
      file_step (Poll p id v m) t (if req_is_write r && (Nat.min (req_len r) (Z.to_nat m) <? req_len r)%nat || (v =? 0) || (m =? 0)
        then Z.of_nat (req_len r) else Z.of_nat (Nat.min (req_len r) (Z.to_nat m))) (delete id t).

Section handlers.
Context (me : nat).

(** Opening a request: what [request_file_internal] and [write_file] share. *)
Lemma open_total r msg w : world_ok me w -> req_ok r -> next_request_id (FILES w) < 2 ^ 64 - 1 ->
  let id := next_request_id (FILES w) in
  exists v w', push_request r (FILES w) = (v, id) /\
    announce me (sender_table v) (server_send_cap v) (word_message (msg id)) (set_files v w) = Some w' /\
    world_ok me w' /\ table (FILES w) !! id = None /\ table (FILES w') = <[id := r]> (table (FILES w)) /\
    FILES w' = v /\ VM (SCHED w') = VM (SCHED w) /\ CPUS (SCHED w') = CPUS (SCHED w) /\
    OBJECTS (KOBJ (SCHED w')) = OBJECTS (KOBJ (SCHED w)) /\
    forall o, queues (ipc_on me w') o =
      (spec_send (resolve (sender_table (FILES w)) (server_send_cap (FILES w)) SEND (kernel_on me (SCHED w))).2
         (word_message (msg id)) (queues (ipc_on me w))).1 o.
Proof using Type.
  intros [Hf Hn He Hc] Hr Hlt. cbv zeta. pose proof (push_request_ok req_ok (FILES w) r Hf Hr Hlt) as Hp.
  destruct (push_request r (FILES w)) as [v id] eqn:Hpe. destruct Hp as (Hv & -> & Hnone & Htab & Hcap & Hst).
  exists v. destruct (announce_total me (sender_table v) (server_send_cap v) (word_message (msg (next_request_id (FILES w)))) (set_files v w) He)
    as (w' & Ha & He' & HF & HN & HV & HC & HO & HQ).
  exists w'. split; [done|]. split; [exact Ha|]. split.
  { constructor; [rewrite HF; exact Hv|rewrite HN; exact Hn|exact He'|rewrite HC; exact Hc]. }
  rewrite HF. split_and!; [done|exact Htab|done|exact HV|exact HC|exact HO|]. rewrite Hst, Hcap in HQ. exact HQ.
Qed.

Lemma request_internal_total ino w : world_ok me w -> next_request_id (FILES w) < 2 ^ 64 - 1 ->
  exists w' ret, FileService.request_file_internal me ino w = Some (w', ret) /\ world_ok me w' /\
    ((ret = 0 /\ w' = w) \/
     (ret = next_request_id (FILES w) /\ table (FILES w) !! ret = None /\
      table (FILES w') = <[ret := mkRequest ino false 0 0 (replicate MAX_BYTES 0) false]> (table (FILES w)))).
Proof using Type.
  intros Hw Hlt. unfold FileService.request_file_internal. destruct (server_send_cap (FILES w) =? NO_SERVER).
  { exists w, 0. split_and!; [done|done|by left]. }
  destruct (open_total (mkRequest ino false 0 0 (replicate MAX_BYTES 0) false) (fun id => Z.lor (u64 (Z.shiftl id 32)) ino) w Hw)
    as (v & w' & -> & Ha & Hw' & Hnone & Htab & _); [split_and!; cbn [req_data req_len req_offset]; [apply length_replicate|lia|lia|lia]|done|].
  rewrite Ha. cbn [mbind option_bind]. eexists _, _. split_and!; [done|done|]. right. split_and!; done.
Qed.

Lemma write_internal_total p op ino v l off w :
  world_ok me w -> next_request_id (FILES w) < 2 ^ 64 - 1 -> addr_ok v -> 0 <= off < 2 ^ 32 ->
  exists w' ret, FileService.write_file_internal me p op ino v l off w = Some (w', ret) /\ world_ok me w' /\
    ((ret = 0 /\ w' = w) \/
     (ret = next_request_id (FILES w) /\ table (FILES w) !! ret = None /\ exists r,
      table (FILES w') = <[ret := r]> (table (FILES w)) /\ req_ready r = false)).
Proof using Type.
  intros Hw Hlt Hv Hoff. unfold FileService.write_file_internal. destruct (server_send_cap (FILES w) =? NO_SERVER).
  { exists w, 0. split_and!; [done|done|by left]. }
  set (n := Nat.min (Z.to_nat l) MAX_BYTES). assert (n <= MAX_BYTES)%nat as Hn by (unfold n; lia).
  destruct (guarded_answers (0 <? n)%nat p v (Z.of_nat n) w Hv) as [b ->]; [unfold MAX_BYTES in Hn; lia|]. rewrite bind_Some.
  destruct b; cbn [negb]; [|exists w, 0; split_and!; [done|done|by left]].
  destruct (open_total (mkRequest ino false n off (copy_in p v n w ++ replicate (MAX_BYTES - n) 0) true)
      (fun id => Z.lor (Z.lor (u64 (Z.shiftl id 32)) (if op =? 0 then Z.shiftl 1 31 else Z.shiftl op 24)) ino) w Hw)
    as (vv & w' & -> & Ha & Hw' & Hnone & Htab & _).
  { split_and!; cbn [req_data req_len req_offset]; [rewrite length_app, copy_in_length, length_replicate; lia|done|lia|lia]. }
  { done. }
  rewrite Ha. cbn [mbind option_bind]. eexists _, _. split_and!; [done|done|]. right. split_and!; [done|done|]. eexists. split; [exact Htab|done].
Qed.

(** Only user memory changes. *)
Lemma copy_out_ok p v data w : world_ok me w -> world_ok me (copy_out p v data w).
Proof using Type. intros [? ? ? ?]. by constructor. Qed.

Lemma get_data_total p i v m w : world_ok me w -> addr_ok v ->
  exists w' ret, FileService.server_get_write_data p i v m w = Some (w', ret) /\ world_ok me w' /\ FILES w' = FILES w.
Proof using Type.
  intros Hw Hv. unfold FileService.server_get_write_data. destruct (find_request i (requests (FILES w))) as [[j r]|] eqn:Hf; [|by exists w, U64_MAX].
  destruct (req_is_write r); cbn [negb]; [|by exists w, U64_MAX].
  destruct (find_request_ok req_ok _ _ _ _ (wo_files _ _ Hw) Hf) as (Hd & Hl & Ho). set (n := Nat.min (req_len r) (Z.to_nat m)).
  assert (n <= MAX_BYTES)%nat as Hn by (unfold n; lia).
  destruct (writable_answers p v (Z.of_nat n) w Hv) as [b ->]; [unfold MAX_BYTES in Hn; lia|]. rewrite bind_Some.
  destruct b; cbn [negb]; [|by exists w, U64_MAX]. unfold rslice. rewrite decide_True by lia. rewrite bind_Some.
  eexists _, _. split_and!; [done|by apply copy_out_ok|done].
Qed.

Lemma reply_total p i v l w : world_ok me w -> addr_ok v ->
  exists w' ret, FileService.server_reply p i v l w = Some (w', ret) /\ world_ok me w' /\
    ((ret = U64_MAX /\ w' = w) \/
     (ret = 0 /\ exists r r', table (FILES w) !! i = Some r /\ table (FILES w') = <[i := r']> (table (FILES w)) /\
        req_ready r' = true /\ req_is_write r' = req_is_write r)).
Proof using Type.
  intros Hw Hv. unfold FileService.server_reply. set (n := Nat.min (Z.to_nat l) MAX_BYTES). assert (n <= MAX_BYTES)%nat as Hn by (unfold n; lia).
  destruct (guarded_answers (negb (v =? 0) && (0 <? n)%nat) p v (Z.of_nat n) w Hv) as [b ->]; [unfold MAX_BYTES in Hn; lia|]. rewrite bind_Some.
  destruct b; cbn [negb]; [|exists w, U64_MAX; split_and!; [done|done|by left]].
  destruct (find_request i (requests (FILES w))) as [[j r]|] eqn:Hf; [|exists w, U64_MAX; split_and!; [done|done|by left]].
  destruct (find_request_ok req_ok _ _ _ _ (wo_files _ _ Hw) Hf) as (Hd & Hl & Ho).
  assert (exists r', FileService.replied r (v =? 0) n (if negb (v =? 0) && (0 <? n)%nat then copy_in p v n w else replicate n 0) = Some r' /\
    req_ok r' /\ req_ready r' = true /\ req_is_write r' = req_is_write r) as (r' & -> & Hr' & Hrd & Hiw).
  { unfold FileService.replied. destruct (negb (v =? 0) && (0 <? n)%nat).
    - destruct (wslice_is_Some (req_data r) 0 (copy_in p v n w)) as [dd Hdd]; [rewrite copy_in_length; lia|].
      rewrite Hdd. cbn [mbind option_bind fst snd]. eexists. split_and!; [done| |done|done]. split_and!; cbn [req_data req_len req_offset]; [by rewrite (length_wslice _ _ _ _ Hdd)|done|lia|lia].
    - cbn [mbind option_bind fst snd]. eexists. split_and!; [done| |done|done]. split_and!; cbn [req_data req_len req_offset]; [done| |lia|lia]. destruct (_ && _); lia. }
  rewrite bind_Some. destruct (set_requests_put req_ok _ _ _ _ r' (wo_files _ _ Hw) Hf Hr') as [Hok Htab].
  eexists _, _. split_and!; [done| |].
  - destruct Hw as [? ? ? ?]. by constructor.
  - right. split; [done|]. exists r, r'. apply find_request_Some in Hf as [_ Hm]. split_and!; [exact Hm|exact Htab|done|done].
Qed.

Lemma poll_total p i v m w : world_ok me w -> addr_ok v ->
  exists w' ret, FileService.poll_reply p i v m w = Some (w', ret) /\ world_ok me w' /\
    ((ret = U64_MAX /\ w' = w) \/
     (exists r, table (FILES w) !! i = Some r /\ req_ready r = true /\ table (FILES w') = delete i (table (FILES w)) /\
        ret = if req_is_write r && (Nat.min (req_len r) (Z.to_nat m) <? req_len r)%nat || (v =? 0) || (m =? 0)
              then Z.of_nat (req_len r) else Z.of_nat (Nat.min (req_len r) (Z.to_nat m)))).
Proof using Type.
  intros Hw Hv. unfold FileService.poll_reply. destruct (find_request i (requests (FILES w))) as [[j r]|] eqn:Hf;
    [|exists w, U64_MAX; split_and!; [done|done|by left]].
  destruct (req_ready r) eqn:Hrd; cbn [negb]; [|exists w, U64_MAX; split_and!; [done|done|by left]].
  destruct (find_request_ok req_ok _ _ _ _ (wo_files _ _ Hw) Hf) as (Hd & Hl & Ho).
  destruct (set_requests_delete req_ok _ _ _ _ (wo_files _ _ Hw) Hf) as [Hok Htab]. pose proof (proj2 (find_request_Some _ _ _ _ Hf)) as Hm.
  assert (forall w1, world_ok me w1 -> FILES w1 = FILES w ->
    world_ok me (set_files (set_requests (delete j (requests (FILES w1))) (FILES w1)) w1)) as Hrem.
  { intros w1 [? ? ? ?] ->. by constructor. }
  destruct ((v =? 0) || (m =? 0)) eqn:Hz.
  - eexists _, _. split; [done|]. split; [by apply Hrem|]. right. exists r. split_and!; [exact Hm|done|exact Htab|]. rewrite <- orb_assoc, Hz. by rewrite orb_true_r.
  - set (n := Nat.min (req_len r) (Z.to_nat m)). assert (n <= MAX_BYTES)%nat as Hn by (unfold n; lia).
    destruct (guarded_writable_answers (0 <? n)%nat p v (Z.of_nat n) w Hv) as [b ->]; [unfold MAX_BYTES in Hn; lia|]. rewrite bind_Some.
    destruct b; cbn [negb]; [|exists w, U64_MAX; split_and!; [done|done|by left]]. unfold rslice. rewrite decide_True by lia. rewrite bind_Some.
    assert (world_ok me (if (0 <? n)%nat then copy_out p v (take n (drop 0 (req_data r))) w else w) /\
      FILES (if (0 <? n)%nat then copy_out p v (take n (drop 0 (req_data r))) w else w) = FILES w) as [Hw1 HF1]
      by (destruct (0 <? n)%nat; [split; [by apply copy_out_ok|done]|done]).
    eexists _, _. split; [done|]. split; [by apply Hrem|]. right. exists r. rewrite HF1. split_and!; [exact Hm|done|exact Htab|].
    rewrite <- orb_assoc, Hz, orb_false_r. done.
Qed.
End handlers.

(** C19. The file service implements its request table.  In a well-formed kernel, with
    buffers anywhere but in the last two pages of the address space, every call of
    the service returns; and what it does to the requests in flight, seen as a map
    from ids to requests, is at most one step: open a request under an id not in use,
    mark one ready, or close a ready one and return its length.  Requests under other
    ids are never touched, and the table stays within its bounds. *)
Theorem file_service_refines me o w :
  world_ok me w -> next_request_id (FILES w) < 2 ^ 64 - 1 -> op_ok o ->
  exists w' ret, file_call me o w = Some (w', ret) /\ world_ok me w' /\
    file_step o (table (FILES w)) ret (table (FILES w')).
Proof.
  intros Hw Hlt Ho. destruct o as [a|p a v l off|p i v m|p i v l|p i v m]; cbn [file_call op_ok] in *.
  - unfold FileService.request_file. destruct (authorised_total me a READ w (wo_cpu _ _ Hw)) as (w1 & r & -> & Hk). cbn [mbind option_bind].
    pose proof (kobj_only_ok me w w1 Hk Hw) as Hw1. destruct Hk as [k ->]. destruct r as [ino|].
    + destruct (request_internal_total me ino _ Hw1 Hlt) as (w' & ret & -> & Hw' & [[-> ->]|(-> & Hn & Ht)]); (eexists _, _; split_and!; [done|done|]).
      * constructor.
      * rewrite Ht. by constructor.
    + eexists _, _. split_and!; [done|eapply kobj_only_ok; [apply record_kobj|exact Hw1]|constructor].
  - destruct Ho as [Hv Hoff]. unfold FileService.write_file.
    assert (forall op ino w1, kobj_only w w1 -> exists w' ret, FileService.write_file_internal me p op ino v l off w1 = Some (w', ret) /\ world_ok me w' /\
      file_step (Write p a v l off) (table (FILES w)) ret (table (FILES w'))) as Hint.
    { intros op ino w1 Hk. pose proof (kobj_only_ok me w w1 Hk Hw) as Hw1. destruct Hk as [k ->].
      destruct (write_internal_total me p op ino v l off _ Hw1 Hlt Hv Hoff) as (w' & ret & -> & Hw' & [[-> ->]|(-> & Hn & r & Ht & Hr)]);
        (eexists _, _; split_and!; [done|done|]); [constructor|]. rewrite Ht. by constructor. }
    destruct (_ && _); [|apply Hint; exists (KOBJ (SCHED w)); destruct w as [s ? ? ?]; by destruct s].
    destruct (authorised_total me a WRITE w (wo_cpu _ _ Hw)) as (w1 & r & -> & Hk). cbn [mbind option_bind]. destruct r as [ino|]; [by apply Hint|].
    eexists _, _. split_and!; [done|eapply kobj_only_ok; [apply record_kobj|by eapply kobj_only_ok]|]. destruct Hk as [k ->]. constructor.
  - destruct (get_data_total me p i v m w Hw Ho) as (w' & ret & -> & Hw' & HF). eexists _, _. split_and!; [done|done|]. rewrite HF. constructor.
  - destruct (reply_total me p i v l w Hw Ho) as (w' & ret & -> & Hw' & [[-> ->]|(-> & r & r' & Hm & Ht & Hr & Hi)]); (eexists _, _; split_and!; [done|done|]).
    + constructor.
    + rewrite Ht. by eapply step_ready.
  - destruct (poll_total me p i v m w Hw Ho) as (w' & ret & -> & Hw' & [[-> ->]|(r & Hm & Hr & Ht & ->)]); (eexists _, _; split_and!; [done|done|]).
    + constructor.
    + rewrite Ht. by apply step_close.
Qed.

(** ** Who may ask *)

(** The running thread holds a usable capability to some file, with the rights. *)
Definition holds_file (s : sched) (t : Thread) (rs : Z) : Prop :=
  exists c cap, cap_table t !! c = Some (Some cap) /\ file_match (KOBJ s) (fun _ => true) rs cap.

(** The inode the argument names if it is itself a usable file capability. *)
Definition named_file (s : sched) (t : Thread) (rs a : Z) (ino : Z) : Prop :=
  exists cap, mjoin (cap_table t !! Z.to_nat a) = Some cap /\ live_for (KOBJ s) cap rs /\
    object_kind (KOBJ s) (object_id cap) = Some (FileObject ino).

Lemma authorised_exact me a rs w cpu t :
  CPUS (SCHED w) !! me = Some cpu -> current cpu = Some t -> Z.of_nat (length (cap_table t)) < 2 ^ 32 ->
  exists w' r, FileService.authorised_inode me a rs w = Some (w', r) /\ kobj_only w w' /\
    match r with
    | None => ~ holds_file (SCHED w) t rs
    | Some ino => named_file (SCHED w) t rs a ino \/ (ino = a /\ holds_file (SCHED w) t rs)
    end.
Proof.
  intros Hc Ht Hlen. unfold FileService.authorised_inode, resolve_file_capability, resolve_current_capability. rewrite Hc. cbn [mbind option_bind]. rewrite Ht.
  pose proof (resolve_Ok (cap_table t) a rs (kernel_on me (SCHED w))) as Hok. pose proof (resolve_OBJECTS (cap_table t) a rs (kernel_on me (SCHED w))) as Ho1.
  destruct (resolve (cap_table t) a rs (kernel_on me (SCHED w))) as [k1 r1]. cbn [fst snd] in *. cbn [mbind option_bind].
  assert (OBJECTS k1 = OBJECTS (KOBJ (SCHED w))) as Hob by exact Ho1.
  set (named := match r1 with Ok cap => match object_kind (KOBJ (set_kobj k1 (SCHED w))) (object_id cap) with Some (FileObject inode) => Some inode | _ => None end | Err _ => None end).
  destruct named as [ino|] eqn:Hn.
  { eexists _, _. split; [done|]. split; [by eexists|]. left. unfold named in Hn. destruct r1 as [cap|]; [|done].
    destruct (proj1 (Hok cap) eq_refl) as [Hm Hl]. exists cap. split; [done|]. split; [exact Hl|].
    assert (object_kind (KOBJ (SCHED w)) (object_id cap) = object_kind (KOBJ (set_kobj k1 (SCHED w))) (object_id cap)) as ->
      by (unfold object_kind, get_object; cbn; by rewrite Hob).
    destruct (object_kind _ _) as [[]|]; try done. by injection Hn as ->. }
  unfold current_has_file_capability. cbn [SCHED set_sched]. change (CPUS (set_kobj k1 (SCHED w))) with (CPUS (SCHED w)). rewrite Hc. cbn [mbind option_bind]. rewrite Ht.
  set (s1 := set_kobj k1 (SCHED w)). destruct (file_search_exact (cap_table t) a rs (kernel_on me s1) Hlen) as [Hff _].
  destruct (find_file_capability (cap_table t) a rs (kernel_on me s1)) as [k2 r2] eqn:Hf2.
  pose proof (scan_files_OBJECTS (cap_table t) (cap_table t) 0 (fun i => i =? a) rs (kernel_on me s1)) as Ho2.
  unfold find_file_capability in Hf2. rewrite Hf2 in Ho2. cbn [fst snd] in *. cbn [mbind option_bind].
  assert (forall k want cap, OBJECTS k = OBJECTS (KOBJ (SCHED w)) -> file_match k want rs cap -> file_match (KOBJ (SCHED w)) (fun _ => true) rs cap) as Hany.
  { intros k want cap Hk [Hl (ino & Hi & _)]. apply (file_match_ext k); [done|]. split; [done|]. by exists ino. }
  case_bool_decide as Hr2.
  { eexists _, _. split; [done|]. split; [by eexists|]. right. split; [done|]. destruct Hr2 as [id ->].
    destruct Hff as (n & cap & _ & Hnl & Hfm & _). exists n, cap. split; [done|]. by eapply Hany; [|exact Hfm]. }
  unfold current_has_any_file_capability. cbn [SCHED set_sched]. change (CPUS (set_kobj k2 s1)) with (CPUS (SCHED w)). rewrite Hc. cbn [mbind option_bind]. rewrite Ht.
  set (s2 := set_kobj k2 (SCHED w)). destruct (file_search_exact (cap_table t) a rs (kernel_on me s2) Hlen) as [_ Hha].
  assert (OBJECTS (kernel_on me s2) = OBJECTS (KOBJ (SCHED w))) as Hos2 by (cbn; by rewrite Ho2).
  change (set_kobj k2 s1) with s2. destruct (has_any_file_capability (cap_table t) rs (kernel_on me s2)) as [k3 r3]. cbn [snd mbind option_bind] in *.
  destruct r3; (eexists _, _; split; [done|]; split; [by eexists|]).
  - right. split; [done|]. destruct (proj1 Hha eq_refl) as (c & cap & Hcc & Hfm). exists c, cap. split; [done|]. by eapply Hany; [|exact Hfm].
  - intros (c & cap & Hcc & Hfm). assert (false = true) as [=]. apply Hha. exists c, cap. split; [done|]. by eapply file_match_ext; [|exact Hfm].
Qed.

(** Asking for a file takes a file capability.  A thread that holds no usable
    capability to any file with the READ right gets 0: no request is opened, no
    message is sent, and the refusal is the newest audit event.  A thread that holds
    one gets its request, for the inode its argument names as a capability, or else
    for the inode number it passed, whichever file its capability is for. *)
Theorem request_file_exact me a w cpu t :
  world_ok me w -> next_request_id (FILES w) < 2 ^ 64 - 1 -> server_send_cap (FILES w) <> NO_SERVER ->
  CPUS (SCHED w) !! me = Some cpu -> current cpu = Some t -> Z.of_nat (length (cap_table t)) < 2 ^ 32 ->
  (~ holds_file (SCHED w) t READ ->
     exists k, FileService.request_file me a w =
       Some (set_sched (set_kobj (audit_record (EvDenied a) k) (SCHED w)) w, 0)) /\
  (holds_file (SCHED w) t READ ->
     exists w' ino, FileService.request_file me a w = Some (w', next_request_id (FILES w)) /\
       (named_file (SCHED w) t READ a ino \/ ino = a) /\
       table (FILES w') = <[next_request_id (FILES w) := mkRequest ino false 0 0 (replicate MAX_BYTES 0) false]> (table (FILES w))).
Proof.
  intros Hw Hlt Hsrv Hc Ht Hlen. unfold FileService.request_file.
  destruct (authorised_exact me a READ w cpu t Hc Ht Hlen) as (w1 & r & -> & Hk & Hr). cbn [mbind option_bind].
  assert (forall ino, named_file (SCHED w) t READ a ino -> holds_file (SCHED w) t READ) as Hnh.
  { intros ino (cap & Hm & Hl & Ho). exists (Z.to_nat a), cap. split; [by destruct (cap_table t !! _) as [[]|]; simplify_eq/=|]. split; [done|]. by exists ino. }
  split; intros Hh.
  - destruct r as [ino|].
    + exfalso. apply Hh. destruct Hr as [Hr|[_ Hr]]; [by eapply Hnh|done].
    + destruct Hk as [k ->]. by eexists.
  - destruct r as [ino|]; [|done]. pose proof (kobj_only_ok me w w1 Hk Hw) as Hw1. destruct Hk as [k ->].
    destruct (request_internal_total me ino _ Hw1 Hlt) as (w' & ret & Hrun & _ & [[-> Hsame]|(-> & _ & Htab)]).
    + exfalso. unfold FileService.request_file_internal in Hrun. cbn [FILES set_sched] in Hrun. rewrite (proj2 (Z.eqb_neq _ _)) in Hrun by done.
      destruct (push_request _ _) as [v id] eqn:Hp. destruct (announce _ _ _ _ _); [|done]. injection Hrun as _ Hid.
      unfold push_request in Hp. injection Hp as _ Hp. cbn [FILES set_sched] in Hp. pose proof (so_next _ _ (wo_files _ _ Hw)). lia.
    + exists w', ino. split; [exact Hrun|]. split; [destruct Hr as [?|[? _]]; [by left|by right]|exact Htab].
Qed.

(** ** A read, end to end *)

Lemma ipc_on_eps me me' w : ENDPOINTS (ipc_on me w) = ENDPOINTS (ipc_on me' w).
Proof. done. Qed.

Lemma queues_eps s s' o : ENDPOINTS s = ENDPOINTS s' -> queues s o = queues s' o.
Proof. intros He. unfold queues, find_endpoint. by rewrite He. Qed.

(** The first [n] bytes of a file. *)
Definition file_prefix (d : disk) (ino : Z) (n : nat) : bytes := (fun i => default 0 (file_byte d ino i)) <$> seq 0 n.

Lemma file_prefix_take d ino n out :
  (n <= length out)%nat -> (forall i, (i < n)%nat -> out !! i = file_byte d ino i) -> take n out = file_prefix d ino n.
Proof.
  intros Hl Ho. apply list_eq. intros i. unfold file_prefix. rewrite list_lookup_fmap. destruct (decide (i < n)%nat) as [Hi|Hi].
  - rewrite lookup_take_lt, lookup_seq_lt by done. cbn. rewrite <- Ho by done. destruct (lookup_lt_is_Some_2 out i ltac:(lia)) as [x ->]. done.
  - rewrite lookup_take_ge, lookup_seq_ge by lia. done.
Qed.

(** The word of a read request. *)
Lemma request_word_read id ino : 0 <= id < 2 ^ 32 -> 0 <= ino < 2 ^ 24 ->
  Z.lor (u64 (Z.shiftl id 32)) ino = request_word id 0 ino.
Proof.
  intros Hid Hi. unfold request_word. rewrite Z.shiftl_0_l, Z.lor_0_r. f_equal. apply wrap_small. red. rewrite Z.shiftl_mul_pow2 by lia. lia.
Qed.

Section end_to_end.
Context (me : nat) (w : world) (Hw : world_ok me w).
Context (cap : Capability) (Hsrv : server_send_cap (FILES w) <> NO_SERVER).
Context (Hcap : (resolve (sender_table (FILES w)) (server_send_cap (FILES w)) SEND (kernel_on me (SCHED w))).2 = Ok cap).
Context (Hq : queues (ipc_on me w) (object_id cap) = Some []).
Context (id : Z) (Hid : id = next_request_id (FILES w)) (Hid32 : id < 2 ^ 32).
Context (ino : Z) (Hino : 1 <= ino <= NUM_INODES).

Lemma e2e_ask : exists w1, FileService.request_file_internal me ino w = Some (w1, id) /\ world_ok me w1 /\
  table (FILES w1) !! id = Some (mkRequest ino false 0 0 (replicate MAX_BYTES 0) false) /\
  queues (ipc_on me w1) (object_id cap) = Some [word_message (request_word id 0 ino)] /\
  VM (SCHED w1) = VM (SCHED w) /\ OBJECTS (KOBJ (SCHED w1)) = OBJECTS (KOBJ (SCHED w)).
Proof using All.
  pose proof (so_next _ _ (wo_files _ _ Hw)) as Hn. unfold FileService.request_file_internal. rewrite (proj2 (Z.eqb_neq _ _)) by done.
  destruct (open_total me (mkRequest ino false 0 0 (replicate MAX_BYTES 0) false) (fun id => Z.lor (u64 (Z.shiftl id 32)) ino) w Hw)
    as (v & w1 & Hp & Ha & Hw1 & _ & Htab & _ & HV & _ & HO & HQ).
  { split_and!; cbn [req_data req_len req_offset]; [apply length_replicate|lia|lia|lia]. }
  { lia. }
  rewrite Hp, Ha. cbn [mbind option_bind]. exists w1. rewrite <- Hid in *. split_and!; [done|done| | |exact HV|exact HO].
  - rewrite Htab. apply lookup_insert_eq.
  - rewrite HQ, Hcap. unfold spec_send. rewrite Hq. cbn [length]. rewrite decide_True by (unfold QUEUE_DEPTH; lia). cbn [fst].
    rewrite decide_True by done. cbn [app]. rewrite request_word_read; [done|lia|unfold NUM_INODES in Hino; lia].
Qed.
End end_to_end.

(** A file read, end to end.  A program asks for a file: the kernel opens request
    [id] and queues its word to the server; the server receives exactly that word and,
    on a consistent disk, answers with the bytes of that inode; once it has them in
    its memory ([mem] is memory at that point) and replies, the program's poll copies
    them into its own buffer, returns their number, and closes the request. *)
Theorem file_read_end_to_end me sme w cap t c rcap id ino d junk junk4 mem spml4 v cpml4 ov max n m :
  world_ok me w -> server_send_cap (FILES w) <> NO_SERVER ->
  (resolve (sender_table (FILES w)) (server_send_cap (FILES w)) SEND (kernel_on me (SCHED w))).2 = Ok cap ->
  queues (ipc_on me w) (object_id cap) = Some [] ->
  (resolve t c RECEIVE (kernel_on sme (SCHED w))).2 = Ok rcap -> object_id rcap = object_id cap ->
  id = next_request_id (FILES w) -> id < 2 ^ 32 ->
  1 <= ino <= NUM_INODES -> disk_ok d -> length junk4 = 4096%nat -> n = Nat.min (file_size d ino) 4096 -> (0 < n)%nat ->
  dense (pointers d ino) n -> m = Nat.min n (Z.to_nat max) ->
  addr_ok v -> v <> 0 -> readable spml4 v (Z.of_nat n) (set_phys mem w) = Some true ->
  copy_in spml4 v n (set_phys mem w) = file_prefix d ino n ->
  ov <> 0 -> 0 < max -> writable cpml4 ov (Z.of_nat m) (set_phys mem w) = Some true ->
  no_self_reference mem cpml4 (buffer ov m) -> NoDup (user_phys mem cpml4 <$> buffer ov m) ->
  exists w1 s2 out w3 w4,
    FileService.request_file_internal me ino w = Some (w1, id) /\
    try_receive t c (ipc_on sme w1) = Some (s2, Ok (Some (word_message (request_word id 0 ino)))) /\
    serve junk junk4 d (request_word id 0 ino) 0 [] = Some (d, Some (mkReply (Some out) (Z.of_nat n))) /\
    take n out = file_prefix d ino n /\
    FileService.server_reply spml4 id v (Z.of_nat n) (set_phys mem (set_ipc s2 w1)) = Some (w3, 0) /\
    FileService.poll_reply cpml4 id ov max w3 = Some (w4, Z.of_nat m) /\
    copy_in cpml4 ov m w4 = take m (file_prefix d ino n) /\
    table (FILES w4) !! id = None.
Proof.
  intros Hw Hsrv Hcap Hq Hrec Hobj Hid Hid32 Hino Hd Hj4 Hn Hn0 Hde Hm Hv Hv0 Hrd Hcin Hov Hmax Hwr Hns Hnd.
  pose proof (so_next _ _ (wo_files _ _ Hw)) as Hnx.
  destruct (e2e_ask me w Hw cap Hsrv Hcap Hq id Hid Hid32 ino Hino) as (w1 & Hask & Hw1 & Htab1 & Hq1 & HV1 & HO1).
  destruct (try_receive_queues (ipc_on sme w1) t c (wo_ipc _ _ Hw1)) as (s2 & r2 & Hrecv & Hs2 & Hr2 & _).
  cbn [KERNEL ipc_on] in Hr2. rewrite (resolve_objects t c RECEIVE (kernel_on sme (SCHED w)) (kernel_on sme (SCHED w1)) rcap (eq_sym HO1) Hrec) in Hr2. unfold spec_receive in Hr2. rewrite Hobj in Hr2.
  rewrite (queues_eps (ipc_on sme w1) (ipc_on me w1) _ eq_refl), Hq1 in Hr2. cbn [snd] in Hr2. subst r2.
  destruct (serve_read_exact junk4 d ino Hd Hino Hj4) as (out & Hserve & Hlo & Hout); [by rewrite <- Hn|]. rewrite <- Hn in *.
  set (w2 := set_phys mem (set_ipc s2 w1)). pose proof (file_prefix_take d ino n out ltac:(lia) Hout) as Hpre.
  assert (kernel_pml4 w2 = kernel_pml4 (set_phys mem w)) as Hkp by (unfold kernel_pml4, w2; cbn; by rewrite HV1).
  assert (phys w2 = mem /\ phys (set_phys mem w) = mem) as [Hph2 Hph] by done.
  unfold readable, writable, copy_in in Hrd, Hwr, Hcin. rewrite Hph in Hrd, Hwr, Hcin. rewrite <- Hkp in Hrd, Hwr.
  destruct (find_request id (requests (FILES w1))) as [[j r]|] eqn:Hf; [|apply find_request_None in Hf; unfold table in Htab1; congruence].
  pose proof (find_request_Some _ _ _ _ Hf) as [_ Hfm]. assert (r = mkRequest ino false 0 0 (replicate MAX_BYTES 0) false) as -> by (unfold table in Htab1; congruence).
  set (data := file_prefix d ino n ++ drop n (replicate MAX_BYTES 0)).
  assert (length (file_prefix d ino n) = n) as Hlp by (unfold file_prefix; by rewrite length_fmap, length_seq).
  assert (n <= MAX_BYTES)%nat as Hnm by (unfold MAX_BYTES; lia).
  set (r' := mkRequest ino true n 0 data false).
  destruct (set_requests_put req_ok _ _ _ _ r' (wo_files _ _ Hw1) Hf) as [Hok3 Htab3].
  { split_and!; cbn; [unfold data; rewrite length_app, length_drop, length_replicate, Hlp; lia|done|lia|lia]. }
  set (w3 := set_files (set_requests (put_request j r' (requests (FILES w1))) (FILES w1)) w2).
  exists w1, s2, out, w3, (set_files (set_requests (delete j (requests (FILES w3))) (FILES w3)) (copy_out cpml4 ov (take m data) w3)).
  split; [done|]. split; [done|]. split; [by rewrite serve_read_word, Hserve by (done || lia)|]. split; [done|]. split.
  { fold w2. unfold FileService.server_reply, readable, copy_in. rewrite Hph2, Nat2Z.id, Nat.min_l by lia. fold (validate_fuel (Z.of_nat n)).
    rewrite (proj2 (Z.eqb_neq v 0)), (proj2 (Nat.ltb_lt 0 n)) by done. cbn [negb andb]. rewrite Hrd, bind_Some. cbn [negb].
    change (FILES w2) with (FILES w1). rewrite Hf, Hcin. unfold FileService.replied. cbn [negb andb req_data req_inode req_offset req_is_write].
    unfold wslice. rewrite Hlp, length_replicate, decide_True by lia. rewrite (proj2 (Nat.ltb_lt 0 n)) by done. reflexivity. }
  assert (find_request id (requests (FILES w3)) = Some (j, r')) as Hf3.
  { unfold w3. cbn [FILES set_files requests set_requests]. eapply find_request_put. exact Hf. }
  split.
  { unfold FileService.poll_reply. rewrite Hf3. cbn [req_ready r' negb req_len req_data req_is_write].
    rewrite (proj2 (Z.eqb_neq ov 0)), (proj2 (Z.eqb_neq max 0)) by lia. cbn [orb]. rewrite <- Hm.
    assert (0 < m)%nat as Hm0 by (subst m; lia). rewrite (proj2 (Nat.ltb_lt 0 m)) by done. unfold writable.
    change (phys w3) with mem. change (kernel_pml4 w3) with (kernel_pml4 w2). rewrite Hwr, bind_Some. cbn [negb andb].
    unfold rslice. rewrite decide_True; [done|]. unfold data. rewrite length_app, length_drop, length_replicate, Hlp. lia. }
  assert (take m data = take m (file_prefix d ino n)) as Htd by (unfold data; apply take_app_le; lia).
  split.
  - rewrite Htd. assert (length (take m (file_prefix d ino n)) = m) as Hlm by (rewrite length_take; lia).
    unfold copy_in. pose proof (user_bytes_roundtrip mem cpml4 ov (take m (file_prefix d ino n))) as Hrt. rewrite Hlm in Hrt.
    exact (proj1 (Hrt Hns Hnd)).
  - destruct (set_requests_delete req_ok (FILES w3) id j r' Hok3 Hf3) as [_ Hdel]. change (FILES (set_files ?v _)) with v. cbn [FILES set_files].
    rewrite Hdel. apply lookup_delete_eq.
Qed.

(** ** Witnesses *)

Module ServiceWitness.
Import VmmWitness FilesWitness.

(** One CPU whose thread may read file 11; it registers as the file server too. *)
Definition k0 : kernel := (create_object (FileObject 11) kernel_init).1.
Definition t0 : Thread := mkThread 1 Running 0 0 0 root [Some (mkCap 0 READ 1)] [].
Definition r0 : regs := mkRegs 0 0 0 0 0 0 0x9000 0x100 root true.
Definition cpu0 : percpu := mkCpu None (Some t0) None TSS_ZERO 0 r0 None.
Definition sc0 : sched := mkSched 2 [cpu0] [] 0 (fun _ => 0) k0 (mkVmm s1 root root 0 0) [] [].
Definition w0 : world := mkWorld sc0 [] service_init service_init.
Definition w1 : world := (default (w0, 0) (FileService.register_server 0 w0)).1.

Lemma w1_files : requests (FILES w1) = [] /\ next_request_id (FILES w1) = 1 /\ server_send_cap (FILES w1) = 0 /\ requests (NETS w1) = [] /\
  next_request_id (NETS w1) = 1.
Proof. vm_compute. done. Qed.

Lemma w1_eps : EPS w1 = [mkSlot 1 endpoint_new].
Proof. vm_compute. reflexivity. Qed.

Lemma empty_ok {R} (P : R -> Prop) (v : service R) : requests v = [] -> next_request_id v = 1 -> service_ok P v.
Proof. intros Hr Hn. constructor; rewrite ?Hr, ?Hn; [apply NoDup_nil_2|apply Forall_nil_2|apply Forall_nil_2|lia]. Qed.

Lemma w1_ok : world_ok 0 w1.
Proof.
  destruct w1_files as (H1 & H2 & _ & H3 & H4). constructor; [by apply empty_ok|by apply empty_ok| |].
  - rewrite w1_eps. apply Forall_singleton, endpoint_new_ok.
  - assert (length (CPUS (SCHED w1)) = 1%nat) as Hl by (vm_compute; reflexivity). apply lookup_lt_is_Some. lia.
Qed.

Lemma refines_witness :
  exists w' ret, file_call 0 (Ask 0) w1 = Some (w', ret) /\ world_ok 0 w' /\
    file_step (Ask 0) (table (FILES w1)) ret (table (FILES w')).
Proof. apply (file_service_refines 0 (Ask 0) w1 w1_ok); [rewrite (proj1 (proj2 w1_files)); lia|exact I]. Defined.

Definition t1 : Thread := default t0 (c ← CPUS (SCHED w1) !! 0%nat; current c).
Definition cpu1 : percpu := default cpu0 (CPUS (SCHED w1) !! 0%nat).

Lemma cpu1_at : CPUS (SCHED w1) !! 0%nat = Some cpu1 /\ current cpu1 = Some t1.
Proof. vm_compute. done. Qed.

(** The capability in slot 0 is for file 11; the thread asks for inode 2 with it. *)
Lemma request_witness :
  (~ holds_file (SCHED w1) t1 READ ->
     exists k, FileService.request_file 0 2 w1 = Some (set_sched (set_kobj (audit_record (EvDenied 2) k) (SCHED w1)) w1, 0)) /\
  (holds_file (SCHED w1) t1 READ ->
     exists w' ino, FileService.request_file 0 2 w1 = Some (w', next_request_id (FILES w1)) /\
       (named_file (SCHED w1) t1 READ 2 ino \/ ino = 2) /\
       table (FILES w') = <[next_request_id (FILES w1) := mkRequest ino false 0 0 (replicate MAX_BYTES 0) false]> (table (FILES w1))).
Proof.
  destruct w1_files as (_ & H2 & H3 & _). destruct cpu1_at as [Hc Ht].
  apply (request_file_exact 0 2 w1 cpu1 t1 w1_ok); [rewrite H2; lia|rewrite H3; unfold NO_SERVER; lia|exact Hc|exact Ht|vm_compute; reflexivity].
Defined.

Lemma w1_holds : holds_file (SCHED w1) t1 READ.
Proof.
  exists 0%nat, (mkCap 0 READ 1). split; [vm_compute; reflexivity|]. split.
  - split; [exists (mkObject (FileObject 11) 1 true); vm_compute; done|vm_compute; reflexivity].
  - exists 11. split; [vm_compute; reflexivity|done].
Qed.

(** *** Reading the greeting *)

Abbreviation greeting35 := (file_prefix fresh 11 35).
(** Memory with the server's reply buffer filled. *)
Definition mem1 : Z -> Z := write_user_bytes (MEM s1) root 0x400000 greeting35.

Lemma fresh_size : file_size fresh 11 = 35%nat.
Proof. vm_compute. reflexivity. Qed.

Lemma mem1_readable : readable root 0x400000 (Z.of_nat 35) (set_phys mem1 w1) = Some true.
Proof. vm_compute. reflexivity. Qed.

Lemma mem1_content : copy_in root 0x400000 35 (set_phys mem1 w1) = greeting35.
Proof. vm_compute. reflexivity. Qed.

Lemma mem1_writable : writable root 0x400800 (Z.of_nat 2) (set_phys mem1 w1) = Some true.
Proof. vm_compute. reflexivity. Qed.

Lemma mem1_apart : Forall (fun a => Forall (fun a' => Forall (fun f =>
  user_phys mem1 root a < f \/ f + 4096 <= user_phys mem1 root a) (walk_frames mem1 root a')) (buffer 0x400800 2)) (buffer 0x400800 2).
Proof. apply (bool_decide_unpack _). vm_compute. exact I. Qed.

Lemma mem1_no_self : no_self_reference mem1 root (buffer 0x400800 2).
Proof.
  intros a a' Ha Ha'. pose proof mem1_apart as H. rewrite Forall_forall in H. specialize (H a Ha). rewrite Forall_forall in H.
  specialize (H a' Ha'). intros f Hf. rewrite Forall_forall in H. by apply H.
Qed.

Lemma mem1_nodup : NoDup (user_phys mem1 root <$> buffer 0x400800 2).
Proof. apply (bool_decide_unpack _). vm_compute. exact I. Qed.

Lemma w1_send : (resolve (sender_table (FILES w1)) (server_send_cap (FILES w1)) SEND (kernel_on 0 (SCHED w1))).2 = Ok (mkCap 1 SEND 1).
Proof. vm_compute. reflexivity. Qed.

Lemma w1_queue : queues (ipc_on 0 w1) (object_id (mkCap 1 SEND 1)) = Some [].
Proof. vm_compute. reflexivity. Qed.

Lemma t1_receive : (resolve (cap_table t1) 1 RECEIVE (kernel_on 0 (SCHED w1))).2 = Ok (mkCap 1 RECEIVE 1).
Proof. vm_compute. reflexivity. Qed.

Lemma end_to_end_witness :
  exists w2 s2 out w3 w4,
    FileService.request_file_internal 0 11 w1 = Some (w2, 1) /\
    try_receive (cap_table t1) 1 (ipc_on 0 w2) = Some (s2, Ok (Some (word_message (request_word 1 0 11)))) /\
    serve garbage garbage4 fresh (request_word 1 0 11) 0 [] = Some (fresh, Some (mkReply (Some out) (Z.of_nat 35))) /\
    take 35 out = greeting35 /\
    FileService.server_reply root 1 0x400000 (Z.of_nat 35) (set_phys mem1 (set_ipc s2 w2)) = Some (w3, 0) /\
    FileService.poll_reply root 1 0x400800 2 w3 = Some (w4, Z.of_nat 2) /\
    copy_in root 0x400800 2 w4 = take 2 greeting35 /\
    table (FILES w4) !! 1 = None.
Proof.
  destruct w1_files as (_ & H2 & H3 & _).
  assert (server_send_cap (FILES w1) <> NO_SERVER) as Hs by (rewrite H3; unfold NO_SERVER; lia).
  assert (35%nat = Nat.min (file_size fresh 11) 4096) as Hn by (rewrite fresh_size; reflexivity).
  assert (dense (pointers fresh 11) 35) as Hde by (rewrite <- fresh_size; exact fresh_dense).
  assert (addr_ok 0x400000) as Ha by (red; lia).
  assert (1 <= 11 <= NUM_INODES) as Hi by (unfold NUM_INODES; lia).
  exact (file_read_end_to_end 0 0 w1 (mkCap 1 SEND 1) (cap_table t1) 1 (mkCap 1 RECEIVE 1) 1 11 fresh garbage garbage4 mem1 root 0x400000 root 0x400800 2 35 2
    w1_ok Hs w1_send w1_queue t1_receive eq_refl (eq_sym H2) ltac:(lia) Hi (fs_blocks _ fresh_ok) eq_refl Hn ltac:(lia) Hde eq_refl
    Ha ltac:(lia) mem1_readable mem1_content ltac:(lia) ltac:(lia) mem1_writable mem1_no_self mem1_nodup).
Defined.
End ServiceWitness.
