(* ===== verification/Renderer.v ===== *)
(** * The renderer ([kernel_rs/src/renderer.rs])

    Pixels are [u32] values in row-major buffers: the offscreen buffer in which
    windows are composed, the frontbuffer that holds what the display should show
    without the cursor, and the memory of the display itself.  Slices of the
    first two are checked, and an index out of range panics ([None]).  The display
    is written through a raw pointer: a write outside its memory is [None] too,
    so that a theorem that the renderer returns also shows that it stays inside.
    The display's rows are [ppsl] pixels apart.  Both renderers of the source (with
    and without a GPU) run the code modelled here. *)

From S2P Require Import Prelude Geometry.

Abbreviation pixels := (list Z).

(** [dst[doff..doff+n].copy_from_slice(&src[soff..soff+n])]. *)
Definition copy_row (dst : pixels) (doff : Z) (src : pixels) (soff n : Z) : option pixels :=
  s ← rslice src (Z.to_nat soff) (Z.to_nat n);
  wslice dst (Z.to_nat doff) s.

(** [dst[off..off+n].fill(color)]. *)
Definition fill_row (dst : pixels) (off n color : Z) : option pixels :=
  wslice dst (Z.to_nat off) (replicate (Z.to_nat n) color).

(** [put_fb_scanline_fast]: the pixels at [src] go to row [sy] of the display. *)
Definition put_fb_scanline_fast (ppsl sx sy : Z) (src : pixels) (disp : pixels) : option pixels :=
  if (length src =? 0)%nat then Some disp
  else wslice disp (Z.to_nat (sy * ppsl + sx)) src.

(** [v.clamp(lo, hi)], which asserts [lo <= hi]. *)
Definition clamp (v lo hi : Z) : option Z := if hi <? lo then None else Some (Z.max lo (Z.min v hi)).

Definition clear_rect (buf : pixels) (buf_width buf_height : Z) (rect : Rect) (color : Z) : option pixels :=
  let x0 := Z.max (x rect) 0 in
  let y0 := Z.max (y rect) 0 in
  x1 ← clamp (signed 32 (x rect + width rect)) 0 (signed 32 buf_width);
  y1 ← clamp (signed 32 (y rect + height rect)) 0 (signed 32 buf_height);
  if (x1 <=? x0) || (y1 <=? y0) then Some buf
  else foldM (fun b sy => fill_row b (u32 (sy * buf_width + x0)) (x1 - x0) color) buf (range y0 y1).

Definition blit_row (fb_width : Z) (src_buf : pixels) (src_w dst_x dst_y : Z) (rc : Rect) (bb : pixels) (sy : Z) : option pixels :=
  let local_y := u32 (sy - dst_y) in
  let local_x := u32 (x rc - dst_x) in
  copy_row bb (u32 (u32 sy * fb_width + u32 (x rc))) src_buf (u32 (local_y * src_w + local_x)) (width rc).

Definition blit_surface_clipped (bb : pixels) (fb_width fb_height : Z) (src_buf : pixels) (src_w src_h dst_x dst_y : Z)
    (clip_rect : Rect) (occluders : list Rect) : option pixels :=
  match intersect (mkRect dst_x dst_y src_w src_h) clip_rect with
  | None => Some bb
  | Some target_rect =>
      foldM (fun bb v =>
        match intersect v (mkRect 0 0 fb_width fb_height) with
        | None => Some bb
        | Some rc => foldM (blit_row fb_width src_buf src_w dst_x dst_y rc) bb (range (y rc) (bottom rc))
        end) bb (compute_visible_rects target_rect occluders)
  end.

(** One scanline: backbuffer to frontbuffer to display. *)
Definition present_row (ppsl fb_width x0 count : Z) (bb : pixels) (s : pixels * pixels) (sy : Z) : option (pixels * pixels) :=
  let offset := u32 (sy * fb_width + x0) in
  fb ← copy_row s.1 offset bb offset count;
  src ← rslice fb (Z.to_nat offset) (Z.to_nat count);
  disp ← put_fb_scanline_fast ppsl x0 sy src s.2;
  Some (fb, disp).

(** The frontbuffer, the display and the number of scanlines written. *)
Definition present_rect (ppsl fb_width fb_height : Z) (bb fb disp : pixels) (rect : Rect) : option (pixels * pixels * Z) :=
  let x0 := Z.max (x rect) 0 in
  let y0 := Z.max (y rect) 0 in
  x1 ← clamp (signed 32 (x rect + width rect)) 0 (signed 32 fb_width);
  y1 ← clamp (signed 32 (y rect + height rect)) 0 (signed 32 fb_height);
  if (x1 <=? x0) || (y1 <=? y0) then Some (fb, disp, 0)
  else s ← foldM (present_row ppsl fb_width x0 (x1 - x0) bb) (fb, disp) (range y0 y1);
       Some (s, y1 - y0).

(** ** Pixels of a buffer *)

Definition idx (w px py : Z) : nat := Z.to_nat (py * w + px).

(** The pixel at [p] of a buffer whose rows are [w] pixels. *)
Definition pix (w : Z) (b : pixels) (p : point) : option Z := b !! idx w p.1 p.2.

Lemma idx_inj w x1 y1 x2 y2 : 0 <= x1 < w -> 0 <= x2 < w -> 0 <= y1 -> 0 <= y2 ->
  idx w x1 y1 = idx w x2 y2 -> x1 = x2 /\ y1 = y2.
Proof.
  unfold idx. intros. assert (0 <= y1 * w) by nia. assert (0 <= y2 * w) by nia. assert (y1 * w + x1 = y2 * w + x2) by lia.
  assert (~ y1 < y2) by (intros ?; assert ((y1 + 1) * w <= y2 * w) by nia; lia).
  assert (~ y2 < y1) by (intros ?; assert ((y2 + 1) * w <= y1 * w) by nia; lia).
  assert (y1 = y2) as -> by lia. lia.
Qed.

(** A layer says what each pixel becomes, from what it was; [d'] is [d] seen
    through the layer [g]. *)
Abbreviation layer := (point -> option Z -> option Z).

Record paints (w : Z) (g : layer) (d d' : pixels) : Prop := {
  paints_length : length d' = length d;
  paints_pix : forall p, 0 <= p.1 < w -> 0 <= p.2 -> pix w d' p = g p (pix w d p) }.

(** The image [v] on the region [reg], over what is there. *)
Definition over (reg : point -> bool) (v : point -> option Z) : layer := fun p c => if reg p then v p else c.

Definition box (x0 x1 y0 y1 : Z) (p : point) : bool := (x0 <=? p.1) && (p.1 <? x1) && (y0 <=? p.2) && (p.2 <? y1).

Lemma box_spec x0 x1 y0 y1 p : box x0 x1 y0 y1 p = true <-> x0 <= p.1 < x1 /\ y0 <= p.2 < y1.
Proof. unfold box. rewrite !andb_true_iff, !Z.leb_le, !Z.ltb_lt. tauto. Qed.

Lemma signed_in v : i32_min <= v <= i32_max -> signed 32 v = v.
Proof.
  unfold i32_min, i32_max, signed. intros Hv. destruct (decide (0 <= v)).
  - rewrite (wrap_small 32) by (red; lia). by rewrite (proj2 (Z.ltb_lt _ _)) by lia.
  - assert (wrap 32 v = v + 2 ^ 32) as ->.
    { unfold wrap. rewrite <- (Z_mod_plus_full v 1). apply Z.mod_small. lia. }
    rewrite (proj2 (Z.ltb_ge _ _)) by lia. lia.
Qed.

(** Two boolean tests that agree. *)
Lemma bool_iff (a b : bool) : (a = true <-> b = true) -> a = b.
Proof. destruct a, b; intuition congruence. Qed.

Lemma paints_id w d : paints w (fun _ c => c) d d.
Proof. by split. Qed.

Lemma paints_trans w g1 g2 d d1 d2 : paints w g1 d d1 -> paints w g2 d1 d2 -> paints w (fun p c => g2 p (g1 p c)) d d2.
Proof. intros [L1 P1] [L2 P2]. split; [congruence|]. intros p Hx Hy. by rewrite P2, P1. Qed.

Lemma paints_ext w g g' d d' : (forall p, 0 <= p.1 < w -> 0 <= p.2 -> g p (pix w d p) = g' p (pix w d p)) -> paints w g d d' -> paints w g' d d'.
Proof. intros Hg [L P]. split; [done|]. intros p Hx Hy. rewrite P by done. by apply Hg. Qed.

(** The layers of a list, in order. *)
Definition layers {A} (g : A -> layer) (l : list A) : layer := fun p c => foldl (fun c a => g a p c) c l.

Lemma layers_over {A} (reg : A -> point -> bool) v l p c :
  layers (fun a => over (reg a) v) l p c = over (fun p => existsb (fun a => reg a p) l) v p c.
Proof.
  unfold layers, over. revert c. induction l as [|a l IH]; intros c; [done|]. cbn [foldl existsb].
  rewrite IH. by destruct (reg a p), (existsb _ l).
Qed.

Section loops.
Context {A : Type} (w : Z).

Lemma foldM_paints (f : pixels -> A -> option pixels) (g : A -> layer) l d n :
  length d = n ->
  (forall d a, a ∈ l -> length d = n -> exists d', f d a = Some d' /\ paints w (g a) d d') ->
  exists d', foldM f d l = Some d' /\ paints w (layers g l) d d'.
Proof.
  revert d. induction l as [|a l IH]; intros d Hd Hf; [by exists d; split; [|apply paints_id]|]. cbn [foldM].
  destruct (Hf d a) as (d1 & -> & H1); [set_solver|done|]. cbn [mbind option_bind].
  destruct (IH d1) as (d2 & -> & H2); [by rewrite (paints_length _ _ _ _ H1)|intros; apply Hf; set_solver|].
  exists d2. split; [done|]. exact (paints_trans _ _ _ _ _ _ H1 H2).
Qed.

(** The same for a loop on two buffers of different widths. *)
Lemma foldM_paints2 (w2 : Z) (f : pixels * pixels -> A -> option (pixels * pixels)) (g : A -> layer) l s n n2 :
  length s.1 = n -> length s.2 = n2 ->
  (forall s a, a ∈ l -> length s.1 = n -> length s.2 = n2 ->
     exists s', f s a = Some s' /\ paints w (g a) s.1 s'.1 /\ paints w2 (g a) s.2 s'.2) ->
  exists s', foldM f s l = Some s' /\ paints w (layers g l) s.1 s'.1 /\ paints w2 (layers g l) s.2 s'.2.
Proof.
  revert s. induction l as [|a l IH]; intros s Hn Hn2 Hf; [by exists s; split_and!; [|apply paints_id|apply paints_id]|]. cbn [foldM].
  destruct (Hf s a) as (s1 & -> & H1 & H1'); [set_solver|done|done|]. cbn [mbind option_bind].
  destruct (IH s1) as (s2 & -> & H2 & H2'); [by rewrite (paints_length _ _ _ _ H1)|by rewrite (paints_length _ _ _ _ H1')|intros; apply Hf; set_solver|].
  exists s2. split_and!; [done|exact (paints_trans _ _ _ _ _ _ H1 H2)|exact (paints_trans _ _ _ _ _ _ H1' H2')].
Qed.
End loops.

(** Row by row is the whole box. *)
Lemma layers_rows x0 x1 y0 y1 v p c :
  layers (fun sy => over (box x0 x1 sy (sy + 1)) v) (range y0 y1) p c = over (box x0 x1 y0 y1) v p c.
Proof.
  rewrite layers_over. unfold over. cbn beta.
  rewrite (bool_iff (existsb _ (range y0 y1)) (box x0 x1 y0 y1 p)); [done|]. rewrite existsb_exists, box_spec.
  setoid_rewrite box_spec. split.
  - intros (sy & Hin & ?). apply list_elem_of_In, elem_of_range in Hin. lia.
  - intros ?. exists p.2. split; [apply list_elem_of_In, elem_of_range; lia|lia].
Qed.

(** A slice written in row [sy]. *)
Lemma wslice_row w x0 x1 sy s d : 0 <= x0 <= x1 -> x1 <= w -> 0 <= sy -> length s = Z.to_nat (x1 - x0) ->
  sy * w + x1 <= Z.of_nat (length d) ->
  exists d', wslice d (Z.to_nat (sy * w + x0)) s = Some d' /\
    paints w (over (box x0 x1 sy (sy + 1)) (fun p => s !! Z.to_nat (p.1 - x0))) d d'.
Proof.
  intros Hx Hw Hsy Hs Hlen. assert (0 <= sy * w) by nia.
  destruct (wslice_is_Some d (Z.to_nat (sy * w + x0)) s) as [d' Hd]; [lia|]. exists d'. split; [done|].
  split; [by eapply length_wslice|]. intros [px py] Hpx Hpy. cbn [fst snd] in *. unfold pix, over. cbn [fst snd].
  rewrite (lookup_wslice _ _ _ _ (idx w px py) Hd). unfold idx in *.
  assert (0 <= py * w) by nia.
  destruct (box x0 x1 sy (sy + 1) (px, py)) eqn:Hb; [apply box_spec in Hb; cbn in Hb; assert (py = sy) as -> by lia|].
  - rewrite decide_True by lia. f_equal. lia.
  - rewrite decide_False; [done|]. intros Hi. apply not_true_iff_false in Hb. apply Hb, box_spec. cbn [fst snd].
    assert (~ py < sy) by (intros ?; assert ((py + 1) * w <= sy * w) by (apply Z.mul_le_mono_nonneg_r; lia); lia).
    assert (~ sy < py) by (intros ?; assert ((sy + 1) * w <= py * w) by (apply Z.mul_le_mono_nonneg_r; lia); lia).
    assert (py = sy) as -> by lia. lia.
Qed.

(** A row copied from another buffer. *)
Lemma copy_row_spec w x0 x1 sy d src soff : 0 <= x0 <= x1 -> x1 <= w -> 0 <= sy -> sy * w + x1 <= Z.of_nat (length d) ->
  0 <= soff -> soff + (x1 - x0) <= Z.of_nat (length src) ->
  exists d', copy_row d (sy * w + x0) src soff (x1 - x0) = Some d' /\
    paints w (over (box x0 x1 sy (sy + 1)) (fun p => src !! Z.to_nat (soff + (p.1 - x0)))) d d'.
Proof.
  intros Hx Hw Hsy Hd Hs Hsrc. unfold copy_row, rslice. rewrite decide_True by lia. cbn [mbind option_bind].
  destruct (wslice_row w x0 x1 sy (take (Z.to_nat (x1 - x0)) (drop (Z.to_nat soff) src)) d) as (d' & -> & Hp); [done..| |done|].
  { rewrite length_take, length_drop. lia. }
  exists d'. split; [done|]. refine (paints_ext _ _ _ _ _ _ Hp). intros p Hpx Hpy. unfold over.
  destruct (box _ _ _ _ _) eqn:Hb; [|done]. apply box_spec in Hb. rewrite lookup_take_lt, lookup_drop by lia. f_equal. lia.
Qed.

Lemma fill_row_spec w x0 x1 sy d color : 0 <= x0 <= x1 -> x1 <= w -> 0 <= sy -> sy * w + x1 <= Z.of_nat (length d) ->
  exists d', fill_row d (sy * w + x0) (x1 - x0) color = Some d' /\ paints w (over (box x0 x1 sy (sy + 1)) (fun _ => Some color)) d d'.
Proof.
  intros Hx Hw Hsy Hd. unfold fill_row.
  destruct (wslice_row w x0 x1 sy (replicate (Z.to_nat (x1 - x0)) color) d) as (d' & -> & Hp); [done..|by rewrite length_replicate|done|].
  exists d'. split; [done|]. refine (paints_ext _ _ _ _ _ _ Hp). intros p Hpx Hpy. unfold over.
  destruct (box _ _ _ _ _) eqn:Hb; [|done]. apply box_spec in Hb. rewrite lookup_replicate_2; [done|lia].
Qed.

(** ** Blitting and presenting *)

(** A screen whose pixels can be counted in 31 bits. *)
Definition screen_ok (w h : Z) : Prop := 0 < w /\ 0 < h /\ w * h < 2 ^ 31.

Definition on_screen (w h : Z) (r : Rect) : Prop := 0 <= x r /\ 0 <= y r /\ x r + width r <= w /\ y r + height r <= h.

Definition screen_rect (w h : Z) : Rect := mkRect 0 0 w h.

Lemma screen_small w h : screen_ok w h -> w < 2 ^ 31 /\ h < 2 ^ 31.
Proof. intros (? & ? & ?). nia. Qed.

Lemma screen_rect_wf w h : screen_ok w h -> rect_wf (screen_rect w h).
Proof. intros Hs. destruct (screen_small _ _ Hs). destruct Hs as (? & ? & ?). unfold rect_wf, i32_min, i32_max. cbn. lia. Qed.

(** Where row [sy] of a screen starts is not truncated. *)
Lemma row_small w h sy : screen_ok w h -> 0 <= sy < h -> 0 <= sy * w /\ sy * w + w <= w * h.
Proof. intros (? & ? & ?) ?. split; [nia|]. assert ((sy + 1) * w <= h * w) by (apply Z.mul_le_mono_nonneg_r; lia). lia. Qed.

Lemma coversb_box r p : coversb r p = box (x r) (x r + width r) (y r) (y r + height r) p.
Proof. done. Qed.

Section blit.
Variables (W H : Z).
Hypothesis screen : screen_ok W H.

(** A source of [sw] by [sh] pixels put at [(dx, dy)]. *)
Variables (src : pixels) (sw sh dx dy : Z).
Hypothesis src_full : Z.of_nat (length src) = sw * sh.
Hypothesis src_screen : screen_ok sw sh.
Hypothesis dst_wf : rect_wf (mkRect dx dy sw sh).

Definition placed (p : point) : option Z := pix sw src (p.1 - dx, p.2 - dy).

Lemma blit_row_spec rc d sy : rect_wf rc -> 0 < width rc -> on_screen W H rc ->
  dx <= x rc -> x rc + width rc <= dx + sw -> dy <= y rc -> y rc + height rc <= dy + sh -> y rc <= sy < y rc + height rc -> Z.of_nat (length d) = W * H ->
  exists d', blit_row W src sw dx dy rc d sy = Some d' /\
    paints W (over (box (x rc) (x rc + width rc) sy (sy + 1)) placed) d d'.
Proof using screen src_full src_screen dst_wf.
  intros Hwf Hpos (Hx & Hy & Hxw & Hyh) Hl Hr Ht Hb Hsy Hd. destruct (screen_small _ _ screen), (screen_small _ _ src_screen).
  destruct (row_small W H sy screen ltac:(lia)), (row_small sw sh (sy - dy) src_screen ltac:(lia)).
  destruct screen as (? & ? & ?), src_screen as (? & ? & ?).
  unfold blit_row. rewrite !(wrap_small 32 sy), !(wrap_small 32 (x rc)), (wrap_small 32 (sy - dy)), (wrap_small 32 (x rc - dx)) by (red; lia).
  rewrite (wrap_small 32 (sy * W + x rc)), (wrap_small 32 ((sy - dy) * sw + (x rc - dx))) by (red; lia).
  destruct (copy_row_spec W (x rc) (x rc + width rc) sy d src ((sy - dy) * sw + (x rc - dx))) as (d' & Hc & Hp); [lia..|].
  replace (x rc + width rc - x rc) with (width rc) in Hc by lia. exists d'. split; [done|].
  refine (paints_ext _ _ _ _ _ _ Hp). intros p Hpx Hpy. unfold over, placed, pix, idx. cbn [fst snd].
  destruct (box _ _ _ _ _) eqn:E; [|done]. apply box_spec in E. assert (p.2 = sy) as -> by lia. f_equal. lia.
Qed.

(** The rectangle [tgt] of the source's place, cut by the occluders, shows the
    source; nothing else changes. *)
Lemma blit_rects_spec vis d :
  Forall (fun q => rect_wf q /\ is_empty q = false) vis ->
  (forall q, q ∈ vis -> dx <= x q /\ x q + width q <= dx + sw /\ dy <= y q /\ y q + height q <= dy + sh) ->
  Z.of_nat (length d) = W * H ->
  exists d', foldM (fun bb v =>
        match intersect v (mkRect 0 0 W H) with
        | None => Some bb
        | Some rc => foldM (blit_row W src sw dx dy rc) bb (range (y rc) (bottom rc))
        end) d vis = Some d' /\
    paints W (over (fun p => existsb (fun q => coversb q p && coversb (screen_rect W H) p) vis) placed) d d'.
Proof using screen src_full src_screen dst_wf.
  intros Hwf Hin Hd.
  destruct (foldM_paints W (fun bb v =>
        match intersect v (mkRect 0 0 W H) with
        | None => Some bb
        | Some rc => foldM (blit_row W src sw dx dy rc) bb (range (y rc) (bottom rc))
        end) (fun q => over (fun p => coversb q p && coversb (screen_rect W H) p) placed) vis d (Z.to_nat (W * H))) as (d' & E & Hp); [lia| |].
  2:{ exists d'. split; [done|]. refine (paints_ext _ _ _ _ _ _ Hp). intros p _ _. apply layers_over. }
  intros b q Hq Hb. destruct (proj1 (Forall_forall _ _) Hwf q Hq) as [Hqwf Hqe]. destruct (Hin q Hq) as (? & ? & ? & ?).
  pose proof (intersect_spec q (screen_rect W H) Hqwf (screen_rect_wf _ _ screen)) as Hi. fold (screen_rect W H).
  destruct screen as (? & ? & ?). destruct (intersect q (screen_rect W H)) as [rc|].
  - destruct Hi as (Hrwf & ? & ? & Hx & Hy & Hr & Hbt). cbn [x y width height screen_rect] in *.
    rewrite (proj2 (edges rc Hrwf)).
    destruct (foldM_paints W (blit_row W src sw dx dy rc) (fun sy => over (box (x rc) (x rc + width rc) sy (sy + 1)) placed)
      (range (y rc) (y rc + height rc)) b (Z.to_nat (W * H)) Hb) as (b' & E & Hp).
    { intros b0 sy Hsy%elem_of_range Hb0. apply blit_row_spec; try done; [red|..]; lia. }
    exists b'. split; [done|]. refine (paints_ext _ _ _ _ _ _ Hp). intros p _ _. rewrite layers_rows. unfold over.
    rewrite (bool_iff (box _ _ _ _ p) (coversb q p && coversb (screen_rect W H) p)); [done|].
    rewrite andb_true_iff, !coversb_spec, box_spec. unfold covers. cbn [x y width height screen_rect]. lia.
  - exists b. split; [done|]. refine (paints_ext _ _ _ _ _ _ (paints_id _ _)). intros p _ _. unfold over.
    destruct (_ && _) eqn:E; [|done]. apply andb_true_iff in E as [E1%coversb_spec E2%coversb_spec]. destruct (Hi p E1 E2).
Qed.

Definition clearb (occs : list Rect) (p : point) : bool := forallb (fun o => negb (coversb o p)) occs.

Definition shown (clip : Rect) (occs : list Rect) (p : point) : bool :=
  coversb (mkRect dx dy sw sh) p && coversb clip p && coversb (screen_rect W H) p && clearb occs p.

Lemma clearb_spec occs p : clearb occs p = true <-> unoccluded occs p.
Proof.
  unfold clearb, unoccluded. rewrite forallb_forall. setoid_rewrite negb_true_iff. setoid_rewrite <- not_true_iff_false.
  setoid_rewrite coversb_spec. setoid_rewrite list_elem_of_In. done.
Qed.

Definition blit_fits (clip : Rect) (occs : list Rect) : bool :=
  match intersect (mkRect dx dy sw sh) clip with Some t => fits occs [t] | None => true end.

Lemma blit_surface_clipped_spec clip occs d : rect_wf clip -> Forall rect_wf occs -> Z.of_nat (length d) = W * H ->
  exists d' reg, blit_surface_clipped d W H src sw sh dx dy clip occs = Some d' /\ paints W (over reg placed) d d' /\
    (forall p, reg p = true -> shown clip occs p = true) /\
    (blit_fits clip occs = true -> forall p, reg p = shown clip occs p).
Proof using screen src_full src_screen dst_wf.
  intros Hclip Hoccs Hd. unfold blit_surface_clipped, blit_fits, shown.
  pose proof (intersect_spec (mkRect dx dy sw sh) clip dst_wf Hclip) as Hi. destruct (intersect _ clip) as [t|].
  2:{ exists d, (fun _ => false). split_and!; [done|by apply (paints_ext _ _ _ _ _ (fun p _ _ => eq_refl) (paints_id _ _))|done|].
      intros _ p. symmetry. apply not_true_iff_false. rewrite !andb_true_iff, !coversb_spec. intros [[[H1 H2] _] _]. by apply (Hi p). }
  destruct Hi as (Htwf & ? & ? & Hx & Hy & Hr & Hb). cbn [x y width height] in *.
  destruct (visible_rects_spec t occs Htwf Hoccs) as (_ & Hvwf & _ & Hsub & Hall).
  assert (forall p, covers t p <-> covers (mkRect dx dy sw sh) p /\ covers clip p) as Ht.
  { intros p. unfold covers. cbn [x y width height]. lia. }
  destruct (blit_rects_spec (compute_visible_rects t occs) d Hvwf) as (d' & E & Hp); [|done|].
  { intros q Hq. destruct (proj1 (Forall_forall _ _) Hvwf q Hq) as [Hqwf Hqe]. destruct (is_empty_false q Hqwf Hqe).
    assert (forall p, covers q p -> covers (mkRect dx dy sw sh) p) as Hq'.
    { intros p Hc. by destruct (proj1 (Ht p) (proj1 (Hsub p (ex_intro _ q (conj Hq Hc))))). }
    pose proof (Hq' (x q, y q)) as C1. pose proof (Hq' (x q + width q - 1, y q + height q - 1)) as C2.
    unfold covers in C1, C2. cbn [fst snd x y width height] in C1, C2. lia. }
  exists d', (fun p => existsb (fun q => coversb q p && coversb (screen_rect W H) p) (compute_visible_rects t occs)). split_and!; [done|done| |].
  - intros p (q & Hq & [C1 C2]%andb_true_iff)%existsb_exists. rewrite <- list_elem_of_In in Hq. apply coversb_spec in C1.
    destruct (Hsub p (ex_intro _ q (conj Hq C1))) as [[? ?]%Ht ?]. rewrite C2, !andb_true_iff, !coversb_spec, clearb_spec. done.
  - intros Hf p. apply bool_iff. rewrite existsb_exists, !andb_true_iff, !coversb_spec, clearb_spec. split.
    + intros (q & Hq & [C1%coversb_spec C2%coversb_spec]%andb_true_iff). rewrite <- list_elem_of_In in Hq.
      destruct (Hsub p (ex_intro _ q (conj Hq C1))) as [[? ?]%Ht ?]. done.
    + intros [[[? ?] Hs] Hu]. destruct (Hall Hf p) as (q & Hq & Hc); [by apply Ht|done|]. exists q.
      rewrite <- list_elem_of_In, andb_true_iff, !coversb_spec. done.
Qed.
End blit.

Section present.
Variables (W H ppsl : Z).
Hypothesis screen : screen_ok W H.
Hypothesis stride : W <= ppsl.

Lemma clamp_edge r : rect_wf r ->
  clamp (signed 32 (x r + width r)) 0 (signed 32 W) = Some (Z.max 0 (Z.min (x r + width r) W)) /\
  clamp (signed 32 (y r + height r)) 0 (signed 32 H) = Some (Z.max 0 (Z.min (y r + height r) H)).
Proof using screen.
  intros (? & ? & ? & ? & ? & ?). destruct (screen_small _ _ screen). destruct screen as (? & ? & ?). unfold clamp.
  rewrite !signed_in, !(proj2 (Z.ltb_ge _ _)) by (unfold i32_min, i32_max in *; cbn; lia). done.
Qed.

Lemma present_row_spec x0 x1 bb s sy : 0 <= x0 < x1 -> x1 <= W -> 0 <= sy < H ->
  Z.of_nat (length bb) = W * H -> length s.1 = Z.to_nat (W * H) -> length s.2 = Z.to_nat (ppsl * H) ->
  exists s', present_row ppsl W x0 (x1 - x0) bb s sy = Some s' /\
    paints W (over (box x0 x1 sy (sy + 1)) (pix W bb)) s.1 s'.1 /\ paints ppsl (over (box x0 x1 sy (sy + 1)) (pix W bb)) s.2 s'.2.
Proof using screen stride.
  intros Hx Hx1 Hsy Hbb H1 H2. destruct (row_small W H sy screen Hsy), (screen_small _ _ screen). destruct screen as (? & ? & ?).
  assert (0 <= sy * ppsl) by nia. assert ((sy + 1) * ppsl <= H * ppsl) by (apply Z.mul_le_mono_nonneg_r; lia).
  unfold present_row. rewrite (wrap_small 32) by (red; lia).
  destruct (copy_row_spec W x0 x1 sy s.1 bb (sy * W + x0)) as (fb & -> & Hp); [lia..|]. cbn [mbind option_bind].
  pose proof (paints_length _ _ _ _ Hp) as Hl. unfold rslice. rewrite decide_True by lia. cbn [mbind option_bind].
  set (row := take _ _). assert (length row = Z.to_nat (x1 - x0)) as Hrow by (unfold row; rewrite length_take, length_drop; lia).
  unfold put_fb_scanline_fast. rewrite (proj2 (Nat.eqb_neq _ _)) by lia.
  destruct (wslice_row ppsl x0 x1 sy row s.2) as (disp & -> & Hq); [lia..|]. cbn [mbind option_bind].
  exists (fb, disp). split; [done|]. cbn [fst snd].
  assert (paints W (over (box x0 x1 sy (sy + 1)) (pix W bb)) s.1 fb) as Hp'.
  { refine (paints_ext _ _ _ _ _ _ Hp). intros p _ _. unfold over, pix, idx. destruct (box _ _ _ _ _) eqn:E; [|done].
    apply box_spec in E. assert (p.2 = sy) as -> by lia. f_equal. lia. }
  split; [done|]. refine (paints_ext _ _ _ _ _ _ Hq). intros p _ _. unfold over. destruct (box x0 x1 sy (sy + 1) p) eqn:E; [|done].
  pose proof E as E'. apply box_spec in E. unfold row. rewrite lookup_take_lt, lookup_drop by lia.
  pose proof (paints_pix _ _ _ _ Hp' p ltac:(lia) ltac:(lia)) as Hv. unfold over in Hv. rewrite E' in Hv. rewrite <- Hv.
  unfold pix, idx. f_equal. assert (p.2 = sy) as -> by lia. lia.
Qed.

Lemma present_rect_spec bb fb disp r : rect_wf r ->
  Z.of_nat (length bb) = W * H -> Z.of_nat (length fb) = W * H -> Z.of_nat (length disp) = ppsl * H ->
  exists fb' disp' n, present_rect ppsl W H bb fb disp r = Some (fb', disp', n) /\
    paints W (over (fun p => coversb r p && coversb (screen_rect W H) p) (pix W bb)) fb fb' /\
    paints ppsl (over (fun p => coversb r p && coversb (screen_rect W H) p) (pix W bb)) disp disp'.
Proof using screen stride.
  intros Hwf Hbb Hfb Hd. unfold present_rect. destruct (clamp_edge r Hwf) as [-> ->]. cbn [mbind option_bind].
  destruct screen as (? & ? & ?). set (x0 := Z.max (x r) 0). set (y0 := Z.max (y r) 0).
  set (x1 := Z.max 0 (Z.min _ W)). set (y1 := Z.max 0 (Z.min _ H)).
  assert (forall p, coversb r p && coversb (screen_rect W H) p = box x0 x1 y0 y1 p) as Hbox.
  { intros p. apply bool_iff. rewrite andb_true_iff, !coversb_spec, box_spec. unfold covers. cbn [x y width height screen_rect]. lia. }
  destruct (_ || _) eqn:E.
  { exists fb, disp, 0. split; [done|]. split; refine (paints_ext _ _ _ _ _ _ (paints_id _ _)); intros p _ _; unfold over;
      rewrite Hbox; (destruct (box _ _ _ _ p) eqn:B; [|done]); apply box_spec in B; apply orb_true_iff in E as [E|E]; bool_to_prop; lia. }
  bool_to_prop.
  destruct (foldM_paints2 W ppsl (present_row ppsl W x0 (x1 - x0) bb) (fun sy => over (box x0 x1 sy (sy + 1)) (pix W bb)) (range y0 y1)
    (fb, disp) (Z.to_nat (W * H)) (Z.to_nat (ppsl * H))) as (s' & -> & Q1 & Q2); [cbn; lia..| |].
  { intros s sy Hsy%elem_of_range L1 L2. apply present_row_spec; (done || lia). }
  destruct s' as [fb' disp']. cbn [mbind option_bind]. exists fb', disp', (y1 - y0). split; [done|].
  split; [refine (paints_ext _ _ _ _ _ _ Q1)|refine (paints_ext _ _ _ _ _ _ Q2)]; intros p _ _; rewrite layers_rows; unfold over; by rewrite Hbox.
Qed.
End present.
