(* ===== verification/Text.v ===== *)
(** * Text ([kernel_rs/src/text.rs])

    The font: one bitmap of eight pixels by [glyph_height] rows per character,
    copied once into a table of sixteen rows each.  Glyphs are drawn a row at a
    time through a table of the 256 row patterns for the colours in use, rebuilt
    when the colours change.  Drawing into a window's buffer is proved equal to
    testing the bits one pixel at a time. *)

From S2P Require Import Prelude Geometry Renderer.

Definition GLYPH_WIDTH : Z := 8.

Record FontInfo := mkFont { glyph_buffer_vaddr : Z; font_height : Z }.
Record RowLut := mkLut { lut_fg : Z; lut_bg : Z; lut_valid : bool; lut_rows : list pixels }.
Record text := mkText { FONT : option FontInfo; GLYPH_RAW_CACHE : list bytes; ACTIVE_ROW_LUT : RowLut }.

Definition text_boot : text :=
  mkText None (replicate 256 (replicate 16 0)) (mkLut 0 0 false (replicate 256 (replicate 8 0))).

Definition bit_colour (byte mask fg bg : Z) : Z := if Z.land byte mask =? 0 then bg else fg.

(** The eight assignments of the loop body. *)
Definition row_of (fg bg byte : Z) : pixels :=
  (fun mask => bit_colour byte mask fg bg) <$> [128; 64; 32; 16; 8; 4; 2; 1].

Definition ensure_row_lut (fg bg : Z) (t : text) : text :=
  let l := ACTIVE_ROW_LUT t in
  if negb (lut_valid l) || negb (lut_fg l =? fg) || negb (lut_bg l =? bg)
  then mkText (FONT t) (GLYPH_RAW_CACHE t) (mkLut fg bg true (row_of fg bg <$> range 0 256))
  else t.

(** [init]: the font is [chars_size] bytes per character at [glyph_buffer]. *)
Definition text_init (glyph_buffer chars_size : Z) (mem : Z -> Z) (t : text) : option text :=
  let max_r := Z.min chars_size 16 in
  cache ← foldM (fun c chr => foldM (fun c chr_r =>
      row ← c !! Z.to_nat chr_r.1;
      row' ← wbyte row (Z.to_nat chr_r.2) (mem (glyph_buffer + (chr_r.1 * chars_size + chr_r.2)));
      Some (<[Z.to_nat chr_r.1 := row']> c)) c ((fun r => (chr, r)) <$> range 0 max_r)) (GLYPH_RAW_CACHE t) (range 0 256);
  Some (mkText (Some (mkFont glyph_buffer chars_size)) cache (ACTIVE_ROW_LUT t)).

Definition glyph_height (t : text) : Z := match FONT t with Some f => font_height f | None => 0 end.

(** [put_pixel] and [blit_glyph]: straight to the display, clipped per pixel. *)
Definition put_pixel (ppsl px py color : Z) (disp : pixels) : option pixels := wbyte disp (Z.to_nat (py * ppsl + px)) color.

Definition blit_glyph (ppsl gx gy ch fg bg clip_x clip_y clip_w clip_h : Z) (s : pixels * text) : option (pixels * text) :=
  let h := glyph_height s.2 in
  if h =? 0 then Some s else
  let t := ensure_row_lut fg bg s.2 in
  raw_glyph ← GLYPH_RAW_CACHE t !! Z.to_nat ch;
  disp ← foldM (fun disp row =>
    let py := u32 (gy + row) in
    if (py <? clip_y) || (u32 (clip_y + clip_h) <=? py) then Some disp else
    row_byte ← raw_glyph !! Z.to_nat row;
    row_pixels ← lut_rows (ACTIVE_ROW_LUT t) !! Z.to_nat row_byte;
    foldM (fun disp col =>
      let px := u32 (gx + col) in
      if (px <? clip_x) || (u32 (clip_x + clip_w) <=? px) then Some disp else
      color ← row_pixels !! Z.to_nat col;
      put_pixel ppsl px py color disp) disp (range 0 GLYPH_WIDTH)) s.1 (range 0 (Z.min h 16));
  Some (disp, t).

Definition draw_text (ppsl tx ty : Z) (txt : bytes) (fg bg clip_x clip_y clip_w clip_h : Z) (s : pixels * text) : option (pixels * text) :=
  foldM (fun s ich => blit_glyph ppsl (u32 (tx + u32 (u32 (Z.of_nat ich.1) * GLYPH_WIDTH))) ty ich.2 fg bg clip_x clip_y clip_w clip_h s)
    s (imap (fun i ch => (i, ch)) txt).

Definition clear_screen (ppsl w h color : Z) (disp : pixels) : option pixels :=
  foldM (fun d sy => wslice d (Z.to_nat (sy * ppsl)) (replicate (Z.to_nat w) color)) disp (range 0 h).

(** ** Into a buffer *)

Definition glyph_row (raw_glyph : bytes) (lut : list pixels) (buf_width gx gy copy_w : Z) (buf : pixels) (row : Z) : option pixels :=
  row_byte ← raw_glyph !! Z.to_nat row;
  row_pixels ← lut !! Z.to_nat row_byte;
  let dst_off := u32 (u32 (gy + row) * buf_width + gx) in
  src ← if copy_w =? 8 then Some row_pixels else rslice row_pixels 0 (Z.to_nat copy_w);
  wslice buf (Z.to_nat dst_off) src.

Definition blit_glyph_to_buffer (buf_width buf_height gx gy ch fg bg : Z) (s : pixels * text) : option (pixels * text) :=
  let h := glyph_height s.2 in
  if (h =? 0) || (buf_height <=? gy) || (buf_width <=? gx) then Some s else
  let t := ensure_row_lut fg bg s.2 in
  raw_glyph ← GLYPH_RAW_CACHE t !! Z.to_nat ch;
  let max_rows := Z.min (Z.min h 16) (buf_height - gy) in
  let copy_w := Z.min GLYPH_WIDTH (buf_width - gx) in
  buf ← foldM (glyph_row raw_glyph (lut_rows (ACTIVE_ROW_LUT t)) buf_width gx gy copy_w) s.1 (range 0 max_rows);
  Some (buf, t).

(** The loop over the characters, with its [break]. *)
Fixpoint draw_chars (buf_width buf_height tx ty fg bg : Z) (i : nat) (txt : bytes) (s : pixels * text) : option (pixels * text) :=
  match txt with
  | [] => Some s
  | ch :: txt' =>
      let cx := u32 (tx + u32 (u32 (Z.of_nat i) * GLYPH_WIDTH)) in
      if buf_width <=? cx then Some s
      else s ← blit_glyph_to_buffer buf_width buf_height cx ty ch fg bg s;
           draw_chars buf_width buf_height tx ty fg bg (S i) txt' s
  end.

Definition draw_text_to_buffer (buf : pixels) (buf_width buf_height tx ty : Z) (txt : bytes) (fg bg : Z) (t : text) : option (pixels * text) :=
  if (buf_height <=? ty) || (buf_width <=? tx) then Some (buf, t)
  else draw_chars buf_width buf_height tx ty fg bg 0 txt (buf, ensure_row_lut fg bg t).

(** ** What is drawn *)

(** The colour of one pixel of a character, by testing its bit. *)
Definition glyph_pixel (t : text) (fg bg ch col row : Z) : option Z :=
  raw ← GLYPH_RAW_CACHE t !! Z.to_nat ch;
  byte ← raw !! Z.to_nat row;
  Some (if Z.testbit byte (7 - col) then fg else bg).

(** The font is loaded whole and the row table, when valid, is that of its
    colours. *)
Definition lut_ok (l : RowLut) : Prop := lut_valid l = true -> lut_rows l = row_of (lut_fg l) (lut_bg l) <$> range 0 256.

Record text_ok (t : text) : Prop := {
  text_height : 0 <= glyph_height t < 256;
  text_cache : length (GLYPH_RAW_CACHE t) = 256%nat;
  text_rows : Forall (fun r => length r = 16%nat /\ all_bytes r) (GLYPH_RAW_CACHE t);
  text_lut : lut_ok (ACTIVE_ROW_LUT t) }.

Lemma land_pow2 b k : 0 <= k -> Z.land b (2 ^ k) = if Z.testbit b k then 2 ^ k else 0.
Proof.
  intros Hk. apply Z.bits_inj'. intros n Hn. rewrite Z.land_spec, Z.pow2_bits_eqb by done.
  destruct (Z.eqb_spec k n) as [->|Hne].
  - rewrite andb_true_r. destruct (Z.testbit b n); [by rewrite Z.pow2_bits_true|by rewrite Z.bits_0].
  - rewrite andb_false_r. destruct (Z.testbit b k); [by rewrite Z.pow2_bits_false by lia|by rewrite Z.bits_0].
Qed.

Lemma row_of_lookup fg bg byte col : 0 <= col < 8 ->
  row_of fg bg byte !! Z.to_nat col = Some (if Z.testbit byte (7 - col) then fg else bg).
Proof.
  intros Hc. assert (forall k, 0 <= k -> bit_colour byte (2 ^ k) fg bg = if Z.testbit byte k then fg else bg) as Hb.
  { intros k Hk. unfold bit_colour. rewrite land_pow2 by done. destruct (Z.testbit byte k); [|done].
    by rewrite (proj2 (Z.eqb_neq _ _)) by lia. }
  change (row_of fg bg byte) with ((fun k => bit_colour byte (2 ^ k) fg bg) <$> [7; 6; 5; 4; 3; 2; 1; 0]).
  assert ([7; 6; 5; 4; 3; 2; 1; 0] !! Z.to_nat col = Some (7 - col)) as E.
  { assert (col = 0 \/ col = 1 \/ col = 2 \/ col = 3 \/ col = 4 \/ col = 5 \/ col = 6 \/ col = 7) as Hcs by lia.
    by destruct_or! Hcs; subst col. }
  rewrite list_lookup_fmap, E. cbn. by rewrite Hb by lia.
Qed.

Lemma ensure_row_lut_ok fg bg t : text_ok t ->
  text_ok (ensure_row_lut fg bg t) /\ FONT (ensure_row_lut fg bg t) = FONT t /\
  GLYPH_RAW_CACHE (ensure_row_lut fg bg t) = GLYPH_RAW_CACHE t /\
  lut_rows (ACTIVE_ROW_LUT (ensure_row_lut fg bg t)) = row_of fg bg <$> range 0 256.
Proof.
  intros Ht. unfold ensure_row_lut. destruct (_ || _) eqn:E.
  - split_and!; [|done..]. destruct Ht. split; [done..|]. done.
  - bool_to_prop. split_and!; [done..|]. subst. by apply (text_lut t Ht).
Qed.

Lemma range_lookup lo hi k : (k < Z.to_nat (hi - lo))%nat -> range lo hi !! k = Some (lo + Z.of_nat k).
Proof. intros Hk. unfold range. by rewrite list_lookup_fmap, lookup_seq_lt by done. Qed.

Section buffer.
Variables (bw bh fg bg : Z).
Hypothesis screen : screen_ok bw bh.

Definition glyph_image (t : text) (gx gy ch : Z) (p : point) : option Z := glyph_pixel t fg bg ch (p.1 - gx) (p.2 - gy).

Lemma glyph_row_spec t gx gy ch row raw d : text_ok t -> 0 <= ch < 256 -> 0 <= gx < bw -> 0 <= gy ->
  0 <= row < 16 -> gy + row < bh -> GLYPH_RAW_CACHE t !! Z.to_nat ch = Some raw -> length d = Z.to_nat (bw * bh) ->
  exists d', glyph_row raw (row_of fg bg <$> range 0 256) bw gx gy (Z.min GLYPH_WIDTH (bw - gx)) d row = Some d' /\
    paints bw (over (box gx (Z.min (gx + 8) bw) (gy + row) (gy + row + 1)) (glyph_image t gx gy ch)) d d'.
Proof using screen.
  intros Ht Hch Hgx Hgy Hrow Hin Hraw Hd. destruct (row_small bw bh (gy + row) screen ltac:(lia)), (screen_small _ _ screen).
  destruct screen as (? & ? & ?). destruct (proj1 (Forall_forall _ _) (text_rows t Ht) raw (list_elem_of_lookup_2 _ _ _ Hraw)) as [Hlen Hby].
  unfold glyph_row. destruct (lookup_lt_is_Some_2 raw (Z.to_nat row)) as [byte Hbyte]; [lia|]. rewrite Hbyte. cbn [mbind option_bind].
  pose proof (proj1 (Forall_lookup _ _) Hby _ _ Hbyte) as Hb8. red in Hb8.
  rewrite list_lookup_fmap, range_lookup by lia. cbn [fmap option_fmap option_map mbind option_bind].
  replace (0 + Z.of_nat (Z.to_nat byte)) with byte by lia.
  rewrite (wrap_small 32 (gy + row)) by (red; lia). rewrite (wrap_small 32) by (red; lia). unfold GLYPH_WIDTH.
  set (n := Z.min 8 (bw - gx)).
  assert ((if n =? 8 then Some (row_of fg bg byte) else rslice (row_of fg bg byte) 0 (Z.to_nat n)) = Some (take (Z.to_nat n) (row_of fg bg byte))) as ->.
  { destruct (Z.eqb_spec n 8) as [->|]; [by rewrite take_ge by (cbn; lia)|]. unfold rslice. rewrite decide_True by (cbn; lia). by rewrite drop_0. }
  cbn [mbind option_bind].
  destruct (wslice_row bw gx (gx + n) (gy + row) (take (Z.to_nat n) (row_of fg bg byte)) d) as (d' & -> & Hp); [lia..|rewrite length_take; cbn; lia|lia|].
  exists d'. split; [done|]. replace (Z.min (gx + 8) bw) with (gx + n) by lia. refine (paints_ext _ _ _ _ _ _ Hp). intros p _ _. unfold over.
  destruct (box _ _ _ _ _) eqn:E; [|done]. apply box_spec in E. rewrite lookup_take_lt, row_of_lookup by lia.
  unfold glyph_image, glyph_pixel. rewrite Hraw. cbn [mbind option_bind]. replace (p.2 - gy) with row by lia. by rewrite Hbyte.
Qed.

Lemma blit_glyph_to_buffer_spec t gx gy ch d : text_ok t -> 0 <= ch < 256 -> 0 <= gx < bw -> 0 <= gy < bh -> length d = Z.to_nat (bw * bh) ->
  exists d' t', blit_glyph_to_buffer bw bh gx gy ch fg bg (d, t) = Some (d', t') /\ text_ok t' /\ FONT t' = FONT t /\ GLYPH_RAW_CACHE t' = GLYPH_RAW_CACHE t /\
    paints bw (over (box gx (Z.min (gx + 8) bw) gy (Z.min (gy + Z.min (glyph_height t) 16) bh)) (glyph_image t gx gy ch)) d d'.
Proof using screen.
  intros Ht Hch Hgx Hgy Hd. unfold blit_glyph_to_buffer. cbn [fst snd]. destruct (text_height t Ht).
  rewrite (proj2 (Z.leb_gt bh gy)), (proj2 (Z.leb_gt bw gx)) by lia. rewrite !orb_false_r.
  destruct (Z.eqb_spec (glyph_height t) 0) as [Hz|Hz].
  { exists d, t. split_and!; try done. refine (paints_ext _ _ _ _ _ _ (paints_id _ _)). intros p _ _. unfold over.
    destruct (box _ _ _ _ p) eqn:E; [apply box_spec in E; lia|done]. }
  destruct (ensure_row_lut_ok fg bg t Ht) as (Ht' & Hf & Hc & Hl). rewrite Hc, Hl.
  destruct (lookup_lt_is_Some_2 (GLYPH_RAW_CACHE t) (Z.to_nat ch)) as [raw Hraw]; [rewrite (text_cache t Ht); lia|].
  rewrite Hraw. cbn [mbind option_bind].
  destruct (foldM_paints bw (glyph_row raw (row_of fg bg <$> range 0 256) bw gx gy (Z.min GLYPH_WIDTH (bw - gx)))
     (fun row => over (box gx (Z.min (gx + 8) bw) (gy + row) (gy + row + 1)) (glyph_image t gx gy ch))
     (range 0 (Z.min (Z.min (glyph_height t) 16) (bh - gy))) d _ Hd) as (d' & -> & Hp).
  { intros b row Hrow%elem_of_range Hb. apply glyph_row_spec; (done || lia). }
  cbn [mbind option_bind]. exists d', (ensure_row_lut fg bg t). split_and!; try done.
  refine (paints_ext _ _ _ _ _ _ Hp). intros p _ _. rewrite layers_over. unfold over. cbn beta.
  rewrite (bool_iff (existsb _ _) (box gx (Z.min (gx + 8) bw) gy (Z.min (gy + Z.min (glyph_height t) 16) bh) p)); [done|].
  rewrite existsb_exists, box_spec. setoid_rewrite box_spec. split.
  - intros (r & Hr & ?). apply list_elem_of_In, elem_of_range in Hr. lia.
  - intros ?. exists (p.2 - gy). split; [apply list_elem_of_In, elem_of_range; lia|lia].
Qed.

Definition text_box (t : text) (tx ty : Z) (n : nat) : point -> bool :=
  box tx (Z.min (tx + 8 * Z.of_nat n) bw) ty (Z.min (ty + Z.min (glyph_height t) 16) bh).

(** Each character's eight columns, bit by bit. *)
Definition text_image (t : text) (tx ty : Z) (txt : bytes) (p : point) : option Z :=
  ch ← txt !! Z.to_nat ((p.1 - tx) / 8);
  glyph_pixel t fg bg ch ((p.1 - tx) mod 8) (p.2 - ty).

Lemma glyph_pixel_cache t t' c ch col row : GLYPH_RAW_CACHE t' = GLYPH_RAW_CACHE t ->
  glyph_pixel t' fg c ch col row = glyph_pixel t fg c ch col row.
Proof. unfold glyph_pixel. by intros ->. Qed.

Lemma draw_chars_spec tx ty txt i d t : text_ok t -> all_bytes txt -> 0 <= ty < bh -> 0 <= tx ->
  tx + 8 * Z.of_nat i < bw + 8 -> length d = Z.to_nat (bw * bh) ->
  exists d' t', draw_chars bw bh tx ty fg bg i txt (d, t) = Some (d', t') /\ text_ok t' /\ FONT t' = FONT t /\ GLYPH_RAW_CACHE t' = GLYPH_RAW_CACHE t /\
    paints bw (over (text_box t (tx + 8 * Z.of_nat i) ty (length txt)) (text_image t (tx + 8 * Z.of_nat i) ty txt)) d d'.
Proof using screen.
  destruct (screen_small _ _ screen) as [Hbw _]. revert i d t. induction txt as [|ch txt IH]; intros i d t Ht Hb Hty Htx Hi Hd.
  { exists d, t. split_and!; try done. refine (paints_ext _ _ _ _ _ _ (paints_id _ _)). intros p _ _. unfold over, text_box.
    destruct (box _ _ _ _ p) eqn:E; [apply box_spec in E; cbn in E; lia|done]. }
  apply Forall_cons in Hb as [Hch Hb]. red in Hch. cbn [draw_chars]. unfold GLYPH_WIDTH.
  rewrite (wrap_small 32 (Z.of_nat i)) by (red; lia). rewrite (wrap_small 32 (Z.of_nat i * 8)) by (red; lia).
  replace (Z.of_nat i * 8) with (8 * Z.of_nat i) by lia. rewrite (wrap_small 32) by (red; lia).
  set (cx := tx + 8 * Z.of_nat i) in *. destruct (Z.leb_spec bw cx) as [Hc|Hc].
  { exists d, t. split_and!; try done. refine (paints_ext _ _ _ _ _ _ (paints_id _ _)). intros p _ _. unfold over, text_box.
    destruct (box _ _ _ _ p) eqn:E; [apply box_spec in E; lia|done]. }
  destruct (blit_glyph_to_buffer_spec t cx ty ch d Ht Hch ltac:(lia) Hty Hd) as (d1 & t1 & -> & Ht1 & Hf1 & Hc1 & P1). cbn [mbind option_bind].
  destruct (IH (S i) d1 t1) as (d2 & t2 & -> & Ht2 & Hf2 & Hc2 & P2); [done..|lia|by rewrite (paints_length _ _ _ _ P1)|].
  exists d2, t2. split_and!; [done|done|congruence|congruence|].
  refine (paints_ext _ _ _ _ _ _ (paints_trans _ _ _ _ _ _ P1 P2)). intros p Hpx Hpy. unfold over, text_box, glyph_image, text_image.
  replace (tx + 8 * Z.of_nat (S i)) with (cx + 8) by lia. unfold glyph_height in *. rewrite Hf1.
  set (y1 := Z.min _ bh). cbn [length].
  assert (box cx (Z.min (cx + 8 * Z.of_nat (S (length txt))) bw) ty y1 p =
    box (cx + 8) (Z.min (cx + 8 + 8 * Z.of_nat (length txt)) bw) ty y1 p || box cx (Z.min (cx + 8) bw) ty y1 p) as ->.
  { apply bool_iff. rewrite orb_true_iff, !box_spec. lia. }
  destruct (box (cx + 8) _ _ _ p) eqn:E2; cbn [orb]; [|destruct (box cx _ _ _ p) eqn:E1; [|done]].
  - apply box_spec in E2. replace (p.1 - cx) with (p.1 - (cx + 8) + 1 * 8) by lia. rewrite Z.div_add, Z_mod_plus_full by lia.
    pose proof (Z.div_pos (p.1 - (cx + 8)) 8 ltac:(lia) ltac:(lia)). rewrite Z2Nat.inj_add by lia.
    rewrite (Nat.add_comm _ (Z.to_nat 1)). set (k := Z.to_nat ((p.1 - (cx + 8)) / 8)).
    change ((ch :: txt) !! (Z.to_nat 1 + k)%nat) with (txt !! k).
    destruct (txt !! k) as [c|]; cbn [mbind option_bind]; [by apply glyph_pixel_cache|done].
  - apply box_spec in E1. rewrite Z.div_small, Z.mod_small by lia. done.
Qed.

(** The text on [bw] by [bh] pixels at [(tx, ty)]: characters past the edge are
    cut, every other pixel is untouched. *)
Lemma draw_text_to_buffer_spec tx ty txt d t : text_ok t -> all_bytes txt -> 0 <= tx -> 0 <= ty -> length d = Z.to_nat (bw * bh) ->
  exists d' t', draw_text_to_buffer d bw bh tx ty txt fg bg t = Some (d', t') /\ text_ok t' /\ FONT t' = FONT t /\ GLYPH_RAW_CACHE t' = GLYPH_RAW_CACHE t /\
    paints bw (over (text_box t tx ty (length txt)) (text_image t tx ty txt)) d d'.
Proof using screen.
  intros Ht Hb Htx Hty Hd. unfold draw_text_to_buffer. destruct (_ || _) eqn:E.
  { exists d, t. split_and!; try done. refine (paints_ext _ _ _ _ _ _ (paints_id _ _)). intros p _ _. unfold over, text_box.
    destruct (box _ _ _ _ p) eqn:B; [|done]. apply box_spec in B. apply orb_true_iff in E as [E|E]; bool_to_prop; lia. }
  bool_to_prop. destruct (ensure_row_lut_ok fg bg t Ht) as (Ht' & Hf & Hc & Hl).
  destruct (draw_chars_spec tx ty txt 0 d (ensure_row_lut fg bg t)) as (d' & t' & -> & Ht2 & Hf2 & Hc2 & P); [done|done|lia|lia|lia|done|].
  exists d', t'. split_and!; [done|done|congruence|congruence|]. replace (tx + 8 * Z.of_nat 0) with tx in P by lia.
  refine (paints_ext _ _ _ _ _ _ P). intros p _ _. unfold over, text_box, text_image, glyph_height. rewrite Hf.
  destruct (box _ _ _ _ p); [|done]. destruct (txt !! _) as [c|]; cbn [mbind option_bind]; [by apply glyph_pixel_cache|done].
Qed.
End buffer.
