(* ===== verification/Pacing.v ===== *)
(** * Animation and frame pacing ([kernel_common/src/animation.rs],
      [kernel_common/src/frame_pacing.rs])

    Slides of windows in fixed point, and the decision when a frame may be
    presented.  Times are readings of the cycle counter. *)

From S2P Require Import Prelude Renderer.

(** ** Interpolation *)

Definition Q16_ONE : Z := 65536.

(** [(diff * p) / Q16_ONE] on [i64] truncates towards zero. *)
Definition lerp_i32 (start target progress_q16 : Z) : Z :=
  let p := Z.min progress_q16 Q16_ONE in
  let diff := target - start in
  signed 32 (start + Z.quot (diff * p) Q16_ONE).

Definition ease_out_quad (progress_q16 : Z) : Z :=
  let p := Z.min progress_q16 Q16_ONE in
  let factor := saturating_sub (2 * Q16_ONE) p in
  u32 (u64 (p * factor) / Q16_ONE).

Definition interpolate_position (start_x start_y target_x target_y elapsed duration : Z) : Z * Z * bool :=
  if (duration =? 0) || (duration <=? elapsed) then (target_x, target_y, true)
  else
    let progress_q16 := u32 (elapsed * Q16_ONE / duration) in
    let eased := ease_out_quad progress_q16 in
    (lerp_i32 start_x target_x eased, lerp_i32 start_y target_y eased, false).

Record SlideAnimation := mkSlide {
  start_x : Z; start_y : Z; target_x : Z; target_y : Z; start_tsc : Z; duration_cycles : Z; active : bool }.

Definition slide_new : SlideAnimation := mkSlide 0 0 0 0 0 0 false.

Definition slide_start (start target : Z * Z) (now duration : Z) (_ : SlideAnimation) : SlideAnimation :=
  mkSlide start.1 start.2 target.1 target.2 now duration true.

Definition slide_step (now : Z) (a : SlideAnimation) : SlideAnimation * (Z * Z * bool) :=
  if negb (active a) then (a, (target_x a, target_y a, true))
  else
    let elapsed := saturating_sub now (start_tsc a) in
    let '(sx, sy, finished) := interpolate_position (start_x a) (start_y a) (target_x a) (target_y a) elapsed (duration_cycles a) in
    (if (finished : bool) then mkSlide (start_x a) (start_y a) (target_x a) (target_y a) (start_tsc a) (duration_cycles a) false else a,
     (sx, sy, finished)).

(** ** Pacing *)

Record FramePacer := mkPacer {
  target_fps : Z; last_present_tsc : Z; has_damage : bool; dropped_frames : Z; presented_frames : Z }.

Definition pacer_new (fps : Z) : FramePacer := mkPacer fps 0 false 0 0.

Definition frame_interval_us (s : FramePacer) : Z := if target_fps s =? 0 then 0 else 1000000 / target_fps s.

Definition frame_interval_cycles (s : FramePacer) (cycles_per_us : Z) : Z := u64 (frame_interval_us s * cycles_per_us).

Definition mark_damage (s : FramePacer) : FramePacer :=
  mkPacer (target_fps s) (last_present_tsc s) true (dropped_frames s) (presented_frames s).

Definition pacer_request (now cycles_per_us : Z) (force : bool) (s : FramePacer) : FramePacer * bool :=
  if negb (has_damage s) && negb force then (s, false)
  else
    let interval := frame_interval_cycles s cycles_per_us in
    let elapsed := saturating_sub now (last_present_tsc s) in
    if force || (last_present_tsc s =? 0) || (interval <=? elapsed)
    then (mkPacer (target_fps s) now false (dropped_frames s) (u64 (presented_frames s + 1)), true)
    else (mkPacer (target_fps s) (last_present_tsc s) (has_damage s) (u64 (dropped_frames s + 1)) (presented_frames s), false).

Record DisplayTiming := mkTiming { refresh_rate_hz : Z; last_vsync_tsc : Z; total_vsync_events : Z }.

Definition timing_new (hz : Z) : DisplayTiming := mkTiming hz 0 0.

Definition refresh_period_us (d : DisplayTiming) : Z := if refresh_rate_hz d =? 0 then 0 else 1000000 / refresh_rate_hz d.
Definition refresh_period_cycles (d : DisplayTiming) (cycles_per_us : Z) : Z := u64 (refresh_period_us d * cycles_per_us).

Definition next_deadline_tsc (d : DisplayTiming) (now cycles_per_us : Z) : Z :=
  let period := refresh_period_cycles d cycles_per_us in
  if (period =? 0) || (last_vsync_tsc d =? 0) then now
  else
    let elapsed := saturating_sub now (last_vsync_tsc d) in
    let periods_elapsed := elapsed / period in
    u64 (last_vsync_tsc d + u64 ((periods_elapsed + 1) * period)).

Definition record_vsync (now : Z) (d : DisplayTiming) : DisplayTiming :=
  mkTiming (refresh_rate_hz d) now (u64 (total_vsync_events d + 1)).

(** [PresentationFence]: its sequence number. *)
Definition fence_advance (sequence : Z) : Z := u64 (sequence + 1).
Definition is_reached (sequence target : Z) : bool := target <=? sequence.

(** ** A slide stays on its way *)

Definition between (a b v : Z) : Prop := Z.min a b <= v <= Z.max a b.
Definition i32_ok (v : Z) : Prop := i32_min <= v <= i32_max.

Lemma ease_range p : 0 <= p -> 0 <= ease_out_quad p <= Q16_ONE /\ (p < Q16_ONE -> p <= ease_out_quad p).
Proof.
  intros Hp. unfold ease_out_quad, saturating_sub, Q16_ONE. set (q := Z.min p 65536). assert (0 <= q <= 65536) by lia.
  replace (Z.max 0 (2 * 65536 - q)) with (131072 - q) by lia.
  assert (0 <= q * (131072 - q) <= 65536 * 65536) by nia. rewrite (wrap_small 64) by (red; lia).
  assert (0 <= q * (131072 - q) / 65536 <= 65536) by (split; [apply Z.div_pos; lia|apply Z.div_le_upper_bound; lia]).
  rewrite (wrap_small 32) by (red; lia). split; [done|]. intros Hlt. apply Z.div_le_lower_bound; [lia|]. assert (q = p) by lia. nia.
Qed.

Lemma ease_mono p q : 0 <= p <= q -> ease_out_quad p <= ease_out_quad q.
Proof.
  intros Hp. unfold ease_out_quad, saturating_sub, Q16_ONE. set (p' := Z.min p 65536). set (q' := Z.min q 65536). assert (0 <= p' <= q' /\ q' <= 65536) by lia.
  replace (Z.max 0 (2 * 65536 - p')) with (131072 - p') by lia. replace (Z.max 0 (2 * 65536 - q')) with (131072 - q') by lia.
  assert (0 <= p' * (131072 - p') <= 65536 * 65536) by nia. assert (0 <= q' * (131072 - q') <= 65536 * 65536) by nia.
  rewrite !(wrap_small 64) by (red; lia).
  assert (0 <= p' * (131072 - p') / 65536 <= 65536) by (split; [apply Z.div_pos; lia|apply Z.div_le_upper_bound; lia]).
  assert (0 <= q' * (131072 - q') / 65536 <= 65536) by (split; [apply Z.div_pos; lia|apply Z.div_le_upper_bound; lia]).
  rewrite !(wrap_small 32) by (red; lia). apply Z.div_le_mono; [lia|nia].
Qed.

(** [quot] by a positive number is monotone and shrinks. *)
Lemma quot_between a b p n : 0 < n -> 0 <= p <= n -> between 0 (b - a) (Z.quot ((b - a) * p) n).
Proof.
  intros Hn Hp. unfold between. destruct (Z_le_gt_dec a b).
  - assert (0 <= (b - a) * p) by nia. rewrite Z.quot_div_nonneg by lia. split; [rewrite Z.min_l by lia; apply Z.div_pos; lia|].
    rewrite Z.max_r by lia. apply Z.div_le_upper_bound; [lia|nia].
  - replace ((b - a) * p) with (- ((a - b) * p)) by lia. rewrite Z.quot_opp_l by lia. assert (0 <= (a - b) * p) by nia.
    rewrite Z.quot_div_nonneg by lia. assert (0 <= (a - b) * p / n) by (apply Z.div_pos; lia).
    assert ((a - b) * p / n <= a - b) by (apply Z.div_le_upper_bound; [lia|nia]). lia.
Qed.

Lemma lerp_spec a b p : i32_ok a -> i32_ok b -> 0 <= p -> lerp_i32 a b p = a + Z.quot ((b - a) * Z.min p Q16_ONE) Q16_ONE /\ between a b (lerp_i32 a b p).
Proof.
  intros Ha Hb Hp. unfold lerp_i32. pose proof (quot_between a b (Z.min p Q16_ONE) Q16_ONE ltac:(done) ltac:(unfold Q16_ONE; lia)) as Hq.
  unfold between, i32_ok in *. rewrite signed_in by lia. lia.
Qed.

(** Further along the way is nearer to the target. *)
Lemma lerp_mono a b p q : i32_ok a -> i32_ok b -> 0 <= p <= q -> between (lerp_i32 a b p) b (lerp_i32 a b q).
Proof.
  intros Ha Hb Hp. destruct (lerp_spec a b p Ha Hb ltac:(lia)) as [Ep Bp], (lerp_spec a b q Ha Hb ltac:(lia)) as [Eq Bq].
  unfold between in *. set (p' := Z.min p Q16_ONE) in *. set (q' := Z.min q Q16_ONE) in *. assert (0 <= p' <= q') by (unfold Q16_ONE in *; lia).
  destruct (Z_le_gt_dec a b).
  - assert (Z.quot ((b - a) * p') Q16_ONE <= Z.quot ((b - a) * q') Q16_ONE) by (apply Z.quot_le_mono; [done|nia]). lia.
  - assert (Z.quot ((b - a) * q') Q16_ONE <= Z.quot ((b - a) * p') Q16_ONE) by (apply Z.quot_le_mono; [done|nia]). lia.
Qed.

Lemma progress_spec e d : 0 <= e < d -> u32 (e * Q16_ONE / d) = e * Q16_ONE / d /\ 0 <= e * Q16_ONE / d < Q16_ONE.
Proof.
  intros He. unfold Q16_ONE. assert (0 <= e * 65536 / d < 65536) as H; [|split; [apply wrap_small; red; lia|done]].
  split; [apply Z.div_pos; lia|apply Z.div_lt_upper_bound; nia].
Qed.

Lemma interpolate_mono a b c d e1 e2 dur : i32_ok a -> i32_ok b -> i32_ok c -> i32_ok d -> 0 <= e1 <= e2 -> 0 <= dur ->
  let '(x1, y1, f1) := interpolate_position a b c d e1 dur in
  let '(x2, y2, f2) := interpolate_position a b c d e2 dur in
  f1 = (dur <=? e1) /\ (f1 = true -> x1 = c /\ y1 = d) /\ between a c x1 /\ between b d y1 /\ between x1 c x2 /\ between y1 d y2.
Proof.
  intros Ha Hb Hc Hd He Hdur. unfold interpolate_position.
  destruct (Z.eqb_spec dur 0), (Z.leb_spec dur e1), (Z.leb_spec dur e2); cbn [orb]; try lia;
    try (split_and!; [done|done|unfold between; lia..]); destruct (progress_spec e1 dur ltac:(lia)) as [-> P1].
  - destruct (ease_range (e1 * Q16_ONE / dur) ltac:(lia)) as [E1 _].
    split_and!; [done|done|apply lerp_spec; (done || lia)|apply lerp_spec; (done || lia)|unfold between; lia..].
  - destruct (progress_spec e2 dur ltac:(lia)) as [-> P2]. destruct (ease_range (e1 * Q16_ONE / dur) ltac:(lia)) as [E1 _].
    assert (e1 * Q16_ONE / dur <= e2 * Q16_ONE / dur) by (apply Z.div_le_mono; unfold Q16_ONE; lia).
    pose proof (ease_mono (e1 * Q16_ONE / dur) (e2 * Q16_ONE / dur) ltac:(lia)).
    split_and!; [done|done|apply lerp_spec; (done || lia)|apply lerp_spec; (done || lia)|apply lerp_mono; (done || lia)..].
Qed.

(** A slide moves only forward.  Stepped at two times one after the other, an
    active slide is finished exactly when its duration has passed, and then it is
    at its target and inactive; before that it is between its start and its
    target, and at the later time it is between where it was and the target. *)
Theorem slide_monotone a t1 t2 : active a = true ->
  i32_ok (start_x a) -> i32_ok (start_y a) -> i32_ok (target_x a) -> i32_ok (target_y a) ->
  0 <= start_tsc a <= t1 -> t1 <= t2 -> 0 <= duration_cycles a ->
  let '(a1, (x1, y1, f1)) := slide_step t1 a in
  let '(a2, (x2, y2, f2)) := slide_step t2 a1 in
  f1 = (start_tsc a + duration_cycles a <=? t1) /\ active a1 = negb f1 /\ (f1 = true -> x1 = target_x a /\ y1 = target_y a) /\
  between (start_x a) (target_x a) x1 /\ between (start_y a) (target_y a) y1 /\
  between x1 (target_x a) x2 /\ between y1 (target_y a) y2.
Proof.
  intros Hact Hsx Hsy Htx Hty Ht Ht2 Hd. unfold slide_step at 1. rewrite Hact. cbn [negb].
  pose proof (interpolate_mono (start_x a) (start_y a) (target_x a) (target_y a) (t1 - start_tsc a) (t2 - start_tsc a) (duration_cycles a)
    Hsx Hsy Htx Hty ltac:(lia) Hd) as Hi. unfold saturating_sub. rewrite (Z.max_r 0 (t1 - start_tsc a)) by lia.
  destruct (interpolate_position _ _ _ _ (t1 - _) _) as [[x1 y1] f1].
  destruct (interpolate_position _ _ _ _ (t2 - _) _) as [[x2 y2] f2] eqn:E2. destruct Hi as (Hf & Ht1 & B1 & B2 & B3 & B4).
  assert ((start_tsc a + duration_cycles a <=? t1) = (duration_cycles a <=? t1 - start_tsc a)) as -> by (apply bool_iff; rewrite !Z.leb_le; lia).
  destruct f1.
  - unfold slide_step. cbn. destruct (Ht1 eq_refl) as [-> ->]. split_and!; try done; unfold between; lia.
  - unfold slide_step. rewrite Hact. cbn [negb]. unfold saturating_sub. rewrite (Z.max_r 0 (t2 - start_tsc a)) by lia. rewrite E2.
    split_and!; try done.
Qed.

(** ** Frames keep their distance *)

(** The times at which frames are presented, when damage is marked before every
    request; [force] marks the requests that must not wait. *)
Fixpoint pace (cycles_per_us : Z) (reqs : list (Z * bool)) (s : FramePacer) : list (Z * bool) :=
  match reqs with
  | [] => []
  | (now, force) :: reqs' =>
      let '(s', go) := pacer_request now cycles_per_us force (mark_damage s) in
      (if (go : bool) then [(now, force)] else []) ++ pace cycles_per_us reqs' s'
  end.

Fixpoint spaced (gap last : Z) (l : list (Z * bool)) : Prop :=
  match l with
  | [] => True
  | (t, force) :: l' => (force = true \/ gap <= t - last) /\ spaced gap t l'
  end.

(** A clock that does not run backwards. *)
Fixpoint ascending (last : Z) (reqs : list (Z * bool)) : Prop :=
  match reqs with
  | [] => True
  | (now, _) :: reqs' => last <= now /\ ascending now reqs'
  end.

Lemma ascending_weaken a b reqs : a <= b -> ascending b reqs -> ascending a reqs.
Proof. destruct reqs as [|[n f] reqs]; [done|]. cbn. intros ? [? ?]. split; [lia|done]. Qed.

(** After the first frame, whatever is asked and when, a frame that was not forced
    comes at least one frame interval after the frame before it. *)
Theorem frames_spaced cpu reqs s : 0 < last_present_tsc s -> ascending (last_present_tsc s) reqs ->
  spaced (frame_interval_cycles s cpu) (last_present_tsc s) (pace cpu reqs s).
Proof.
  revert s. induction reqs as [|[now f] reqs IH]; intros s Hs Hr; [done|]. destruct Hr as [Hn Hr]. cbn [pace]. unfold pacer_request, mark_damage.
  cbn [has_damage negb andb last_present_tsc target_fps dropped_frames presented_frames]. rewrite (proj2 (Z.eqb_neq _ _)), orb_false_r by lia.
  change (frame_interval_cycles (mkPacer _ _ _ _ _) cpu) with (frame_interval_cycles s cpu).
  unfold saturating_sub. rewrite Z.max_r by lia. destruct (f || _) eqn:E; cbn [app].
  - cbn [spaced]. split; [apply orb_true_iff in E as [->|E]; [by left|right; by apply Z.leb_le]|].
    exact (IH (mkPacer (target_fps s) now false (dropped_frames s) (u64 (presented_frames s + 1))) ltac:(cbn; lia) Hr).
  - exact (IH (mkPacer (target_fps s) (last_present_tsc s) true (u64 (dropped_frames s + 1)) (presented_frames s)) Hs (ascending_weaken _ _ _ Hn Hr)).
Qed.

(** The next refresh: after now, within one period, a whole number of periods after
    the last one. *)
Lemma next_deadline_spec d now cpu : 0 < last_vsync_tsc d <= now -> 0 < refresh_period_cycles d cpu -> now + refresh_period_cycles d cpu < 2 ^ 64 ->
  let t := next_deadline_tsc d now cpu in
  now < t <= now + refresh_period_cycles d cpu /\ (t - last_vsync_tsc d) mod refresh_period_cycles d cpu = 0.
Proof.
  intros Hl Hp Ho. unfold next_deadline_tsc. set (P := refresh_period_cycles d cpu) in *. rewrite !(proj2 (Z.eqb_neq _ _)) by lia. cbn [orb].
  unfold saturating_sub. rewrite Z.max_r by lia. set (e := now - last_vsync_tsc d).
  pose proof (Z.div_mod e P ltac:(lia)) as Hdm. pose proof (Z.mod_pos_bound e P ltac:(lia)).
  assert ((e / P + 1) * P = P * (e / P) + P) as -> by ring. assert (0 <= P * (e / P)) by (assert (0 <= e / P) by (apply Z.div_pos; lia); nia).
  set (k := P * (e / P)) in *. assert (e = now - last_vsync_tsc d) by done.
  rewrite (wrap_small 64 (k + P)) by (red; lia). rewrite (wrap_small 64) by (red; lia). split; [lia|]. unfold k.
  replace (last_vsync_tsc d + (P * (e / P) + P) - last_vsync_tsc d) with ((e / P + 1) * P) by ring. apply Z_mod_mult.
Qed.

Module PacingWitness.

Definition slide : SlideAnimation := mkSlide 100 50 (-20) 400 1000 5000 true.

Lemma slide_witness :
  slide_step 2000 slide = (slide, (57, 175, false)) /\
  between 100 (-20) 57 /\ between 50 400 175 /\ between 57 (-20) (-20).
Proof.
  assert (slide_step 2000 slide = (slide, (57, 175, false))) as E by (vm_compute; reflexivity).
  pose proof (slide_monotone slide 2000 7000) as Hm. rewrite E in Hm.
  destruct Hm as (_ & _ & _ & B1 & B2 & B3 & _); [reflexivity|split; vm_compute; congruence..|vm_compute; split; congruence|vm_compute; congruence|vm_compute; congruence|].
  split_and!; [exact E|exact B1|exact B2|exact B3].
Defined.

Definition requests : list (Z * bool) := [(1100, false); (2000, false); (2500, true); (4000, false); (9000, false)].
Definition pacer : FramePacer := mkPacer 1000 1000 false 0 0.

Lemma spaced_witness : pace 1 requests pacer = [(2000, false); (2500, true); (4000, false); (9000, false)] /\
  spaced 1000 1000 (pace 1 requests pacer).
Proof. split; [vm_compute; reflexivity|]. apply (frames_spaced 1 requests pacer); vm_compute; [reflexivity|intuition congruence]. Defined.

End PacingWitness.
