(* ===== verification/Windows.v ===== *)
(** * The window manager ([kernel_rs/src/window_manager.rs])

    Windows own a buffer of pixels and a rendered title bar; the stack of windows,
    lowest first, is composed into the backbuffer, and what changed goes through
    the frontbuffer to the display, with the cursor drawn over it.  The parts of
    the source's state are fields of [gui]: its buffers ([bufs]), the windows, the
    cursor and what is being dragged, the damage not yet presented, the focus
    ([input_routing.rs]), the parameters of the display ([compositor.rs]), and the
    state of the frame scheduler and the animations ([pacing]).

    The cycle counter is the argument [rdtsc] of the section: its readings, in
    order.  Only the readings that decide something are counted.  The performance
    counters and the copies to a GPU, which no decision depends on, are left out.

    The pixels of a window are a field of the window ([win_buffer]), apart from the physical memory of [Vmm].  In the
    source they are heap memory, which call 30 maps into the process that owns the window: what such a process stores
    there between two operations, or has the kernel store there as the buffer of another call, is a change of
    [win_buffer] from outside.  The theorems about windows therefore take the pixels an operation starts from as
    they are, and speak only of operations that do not write users' buffers. *)

From Stdlib Require Ascii String.
From S2P Require Import Prelude Geometry Damage Renderer Text Pacing.

(** ** State *)

Record Window := mkWindow {
  surface_object : Z; win_width : Z; win_height : Z; win_x : Z; win_y : Z;
  win_buffer : pixels; title_buffer : pixels; win_title : bytes; title_len : nat }.

Definition set_win_buffer (b : pixels) (w : Window) : Window :=
  mkWindow (surface_object w) (win_width w) (win_height w) (win_x w) (win_y w) b (title_buffer w) (win_title w) (title_len w).
Definition set_title_buffer (b : pixels) (w : Window) : Window :=
  mkWindow (surface_object w) (win_width w) (win_height w) (win_x w) (win_y w) (win_buffer w) b (win_title w) (title_len w).
Definition set_position (px py : Z) (w : Window) : Window :=
  mkWindow (surface_object w) (win_width w) (win_height w) px py (win_buffer w) (title_buffer w) (win_title w) (title_len w).

Record bufs := mkBufs {
  BACKBUFFER : option pixels; FRONTBUFFER : option pixels; BACKBUFFER_WIDTH : Z; BACKBUFFER_HEIGHT : Z; DISPLAY : pixels }.

Record pacing := mkPacing {
  TARGET_FPS : Z; LAST_PRESENT_TSC : Z; FRAME_PENDING : bool;
  FRAMES_REQUESTED : Z; FRAMES_PRESENTED : Z; FRAMES_THROTTLED : Z;
  PRESENTATION_SEQUENCE : Z; ANIMATIONS : list (Z * SlideAnimation); HAS_ACTIVE : bool; TSC_READS : nat }.

Record gui := mkGui {
  BUFS : bufs; WINDOWS : list Window; TEXT : text;
  CURSOR_X : Z; CURSOR_Y : Z; LEFT_BUTTON_DOWN : bool; DRAGGING : option (Z * Z * Z);
  CURSOR_DIRTY : bool; WINDOW_DIRTY : bool; GLOBAL_DAMAGE : list Rect;
  FOCUSED_SURFACE : Z; FB_PARAMS : option (Z * Z * Z); PACING : pacing }.

Definition set_bufs (b : bufs) (g : gui) : gui :=
  mkGui b (WINDOWS g) (TEXT g) (CURSOR_X g) (CURSOR_Y g) (LEFT_BUTTON_DOWN g) (DRAGGING g) (CURSOR_DIRTY g) (WINDOW_DIRTY g) (GLOBAL_DAMAGE g) (FOCUSED_SURFACE g) (FB_PARAMS g) (PACING g).
Definition set_windows (ws : list Window) (g : gui) : gui :=
  mkGui (BUFS g) ws (TEXT g) (CURSOR_X g) (CURSOR_Y g) (LEFT_BUTTON_DOWN g) (DRAGGING g) (CURSOR_DIRTY g) (WINDOW_DIRTY g) (GLOBAL_DAMAGE g) (FOCUSED_SURFACE g) (FB_PARAMS g) (PACING g).
Definition set_text (t : text) (g : gui) : gui :=
  mkGui (BUFS g) (WINDOWS g) t (CURSOR_X g) (CURSOR_Y g) (LEFT_BUTTON_DOWN g) (DRAGGING g) (CURSOR_DIRTY g) (WINDOW_DIRTY g) (GLOBAL_DAMAGE g) (FOCUSED_SURFACE g) (FB_PARAMS g) (PACING g).
Definition set_cursor (cx cy : Z) (down : bool) (g : gui) : gui :=
  mkGui (BUFS g) (WINDOWS g) (TEXT g) cx cy down (DRAGGING g) (CURSOR_DIRTY g) (WINDOW_DIRTY g) (GLOBAL_DAMAGE g) (FOCUSED_SURFACE g) (FB_PARAMS g) (PACING g).
Definition set_dragging (d : option (Z * Z * Z)) (g : gui) : gui :=
  mkGui (BUFS g) (WINDOWS g) (TEXT g) (CURSOR_X g) (CURSOR_Y g) (LEFT_BUTTON_DOWN g) d (CURSOR_DIRTY g) (WINDOW_DIRTY g) (GLOBAL_DAMAGE g) (FOCUSED_SURFACE g) (FB_PARAMS g) (PACING g).
Definition set_dirty (c w : bool) (g : gui) : gui :=
  mkGui (BUFS g) (WINDOWS g) (TEXT g) (CURSOR_X g) (CURSOR_Y g) (LEFT_BUTTON_DOWN g) (DRAGGING g) c w (GLOBAL_DAMAGE g) (FOCUSED_SURFACE g) (FB_PARAMS g) (PACING g).
Definition set_damage (d : list Rect) (g : gui) : gui :=
  mkGui (BUFS g) (WINDOWS g) (TEXT g) (CURSOR_X g) (CURSOR_Y g) (LEFT_BUTTON_DOWN g) (DRAGGING g) (CURSOR_DIRTY g) (WINDOW_DIRTY g) d (FOCUSED_SURFACE g) (FB_PARAMS g) (PACING g).
(** [input_routing::set_focus]. *)
Definition set_focus (surface : Z) (g : gui) : gui :=
  mkGui (BUFS g) (WINDOWS g) (TEXT g) (CURSOR_X g) (CURSOR_Y g) (LEFT_BUTTON_DOWN g) (DRAGGING g) (CURSOR_DIRTY g) (WINDOW_DIRTY g) (GLOBAL_DAMAGE g) surface (FB_PARAMS g) (PACING g).
Definition set_pacing (p : pacing) (g : gui) : gui :=
  mkGui (BUFS g) (WINDOWS g) (TEXT g) (CURSOR_X g) (CURSOR_Y g) (LEFT_BUTTON_DOWN g) (DRAGGING g) (CURSOR_DIRTY g) (WINDOW_DIRTY g) (GLOBAL_DAMAGE g) (FOCUSED_SURFACE g) (FB_PARAMS g) p.

(** ** Constants *)

Definition TITLE_BAR_HEIGHT : Z := 20.
Definition TITLE_BAR_ACTIVE_BG : Z := 0x1E293B.
Definition TITLE_BAR_INACTIVE_BG : Z := 0x0F172A.
Definition TITLE_BAR_ACTIVE_TOP : Z := 0x38BDF8.
Definition TITLE_BAR_INACTIVE_TOP : Z := 0x1E293B.
Definition TITLE_BAR_BORDER_COLOR : Z := 0x334155.
Definition TITLE_FG_ACTIVE : Z := 0xF8FAFC.
Definition TITLE_FG_INACTIVE : Z := 0x64748B.
Definition MAX_TITLE_LEN : nat := 24.
Definition DESKTOP_BG_COLOR : Z := 0x0F172A.
Definition MENU_BAR_COLOR : Z := 0x1E293B.
Definition MENU_BAR_HEIGHT : Z := 22.
Definition MENU_BAR_BORDER_COLOR : Z := 0x334155.
Definition STATUS_BAR_BG_COLOR : Z := 0x0B1120.
Definition STATUS_BAR_BORDER_COLOR : Z := 0x1E293B.

Import (notations) String.

(** [b] of a literal is its bytes. *)
Definition b (s : String.string) : bytes := (fun c => Z.of_N (Ascii.N_of_ascii c)) <$> String.list_ascii_of_string s.

(** ** Damage *)

Definition mark_window_dirty (g : gui) : gui := set_dirty (CURSOR_DIRTY g) true g.
Definition mark_cursor_dirty (g : gui) : gui := set_dirty true (WINDOW_DIRTY g) g.

Definition add_damage_rect (r : Rect) (g : gui) : option gui :=
  d ← add_rect (GLOBAL_DAMAGE g) r;
  Some (mark_window_dirty (set_damage d g)).

(** ** Buffers and chrome *)

Definition ensure_buffers (w h : Z) (s : bufs) : bufs :=
  let size := Z.to_nat (u32 (w * h)) in
  match BACKBUFFER s, FRONTBUFFER s with
  | Some _, Some _ =>
      if (BACKBUFFER_WIDTH s =? w) && (BACKBUFFER_HEIGHT s =? h) then s
      else mkBufs (Some (replicate size DESKTOP_BG_COLOR)) (Some (replicate size DESKTOP_BG_COLOR)) w h (DISPLAY s)
  | _, _ => mkBufs (Some (replicate size DESKTOP_BG_COLOR)) (Some (replicate size DESKTOP_BG_COLOR)) w h (DISPLAY s)
  end.

Definition draw_control_button (buf_width buf_height cx cy inner_color ring_color : Z) (buf : pixels) : option pixels :=
  foldM (fun buf dy =>
    let py := cy + dy in
    if (py <? 0) || (buf_height <=? py) then Some buf else
    foldM (fun buf dx =>
      let d2 := dx * dx + dy * dy in
      if negb (d2 <=? 9) then Some buf else
      let px := cx + dx in
      if (0 <=? px) && (px <? buf_width)
      then wbyte buf (Z.to_nat (u32 (py * buf_width + px))) (if d2 <=? 4 then inner_color else ring_color)
      else Some buf) buf (range (-3) 4)) buf (range (-3) 4).

Definition title_sides (w : Z) (buf : pixels) : option pixels :=
  foldM (fun buf ty =>
    let row := u32 (ty * w) in
    buf ← wbyte buf (Z.to_nat row) TITLE_BAR_BORDER_COLOR;
    if w =? 0 then None else wbyte buf (Z.to_nat (row + (w - 1))) TITLE_BAR_BORDER_COLOR) buf (range 0 TITLE_BAR_HEIGHT).

Definition title_buttons (w : Z) (is_active : bool) (buf : pixels) : option pixels :=
  if w <? 48 then Some buf
  else if is_active then
    buf ← draw_control_button w TITLE_BAR_HEIGHT 12 10 0xEF4444 0x991B1B buf;
    buf ← draw_control_button w TITLE_BAR_HEIGHT 24 10 0xF59E0B 0x92400E buf;
    draw_control_button w TITLE_BAR_HEIGHT 36 10 0x10B981 0x065F46 buf
  else
    buf ← draw_control_button w TITLE_BAR_HEIGHT 12 10 0x475569 0x334155 buf;
    buf ← draw_control_button w TITLE_BAR_HEIGHT 24 10 0x475569 0x334155 buf;
    draw_control_button w TITLE_BAR_HEIGHT 36 10 0x475569 0x334155 buf.

Definition render_title_bar (w : Z) (title : bytes) (is_active : bool) (s : pixels * text) : option (pixels * text) :=
  let bg := if is_active then TITLE_BAR_ACTIVE_BG else TITLE_BAR_INACTIVE_BG in
  let buf := replicate (length s.1) bg in
  buf ← fill_row buf 0 w (if is_active then TITLE_BAR_ACTIVE_TOP else TITLE_BAR_INACTIVE_TOP);
  buf ← fill_row buf (u32 ((TITLE_BAR_HEIGHT - 1) * w)) w TITLE_BAR_BORDER_COLOR;
  buf ← title_sides w buf;
  buf ← title_buttons w is_active buf;
  let text_x := if 48 <=? w then 48 else 4 in
  let fg := if is_active then TITLE_FG_ACTIVE else TITLE_FG_INACTIVE in
  draw_text_to_buffer buf w TITLE_BAR_HEIGHT text_x 2 (take MAX_TITLE_LEN title) fg bg s.2.

Definition draw_menu_bar (w h : Z) (s : pixels * text) : option (pixels * text) :=
  let menu_h := Z.min MENU_BAR_HEIGHT h in
  bb ← foldM (fun bb my =>
    fill_row bb (u32 (my * w)) w (if (my =? 0) || (my =? menu_h - 1) then MENU_BAR_BORDER_COLOR else MENU_BAR_COLOR)) s.1 (range 0 menu_h);
  s ← draw_text_to_buffer bb w h 10 3 (b "AGENTIC OS"%string) 0x38BDF8 MENU_BAR_COLOR s.2;
  s ← draw_text_to_buffer s.1 w h 114 3 (b "File   Edit   View   Apps   Help"%string) 0xCBD5E1 MENU_BAR_COLOR s.2;
  let badge := b "[RAM: 256MB]  [Ring-3 Microkernel]"%string in
  let badge_x := saturating_sub w (Z.of_nat (length badge) * 8 + 12) in
  if 400 <? badge_x then draw_text_to_buffer s.1 w h badge_x 3 badge 0x38BDF8 MENU_BAR_COLOR s.2 else Some s.

Definition has_footer (h : Z) : bool := MENU_BAR_HEIGHT + 50 <? saturating_sub h 20.

Definition draw_bottom_status_bar (w h : Z) (s : pixels * text) : option (pixels * text) :=
  let footer_y := saturating_sub h 20 in
  if footer_y <=? MENU_BAR_HEIGHT + 50 then Some s else
  bb ← foldM (fun bb fy =>
    fill_row bb (u32 (fy * w)) w (if fy =? footer_y then STATUS_BAR_BORDER_COLOR else STATUS_BAR_BG_COLOR)) s.1 (range footer_y h);
  s ← draw_text_to_buffer bb w h 10 (footer_y + 2) (b "Ready"%string) 0x34D399 STATUS_BAR_BG_COLOR s.2;
  let tip := b "Tip: Click window to focus | Drag title bar to move | Ctrl+Alt+G release mouse"%string in
  let tip_x := saturating_sub w (Z.of_nat (length tip) * 8) / 2 in
  s ← draw_text_to_buffer s.1 w h tip_x (footer_y + 2) tip 0x94A3B8 STATUS_BAR_BG_COLOR s.2;
  let fps := b "60 FPS"%string in
  let fps_x := saturating_sub w (Z.of_nat (length fps) * 8 + 12) in
  if u32 (tip_x + Z.of_nat (length tip) * 8 + 20) <? fps_x
  then draw_text_to_buffer s.1 w h fps_x (footer_y + 2) fps 0x38BDF8 STATUS_BAR_BG_COLOR s.2 else Some s.

(** ** The cursor *)

Definition CURSOR_W : Z := 12.
Definition CURSOR_H : Z := 18.

Definition CURSOR_OUTLINE : list Z :=
  [0x800; 0xC00; 0xE00; 0xF00; 0xF80; 0xFC0; 0xFE0; 0xFF0; 0xFF8;
   0xFFC; 0xFFE; 0xFF0; 0xF78; 0xE38; 0xC1C; 0x81C; 0x00E; 0x006].
Definition CURSOR_INTERIOR : list Z :=
  [0x000; 0x400; 0x600; 0x700; 0x780; 0x7C0; 0x7E0; 0x7F0; 0x7F0;
   0x7E0; 0x7C0; 0x6C0; 0x460; 0x030; 0x018; 0x018; 0x004; 0x000].

(** 2 is the white body, 1 the black outline, 0 transparent. *)
Definition build_cursor_sprite : list (list Z) :=
  zip_with (fun outline interior => (fun c =>
    let shift := CURSOR_W - 1 - c in
    if negb (Z.land (Z.shiftr interior shift) 1 =? 0) then 2
    else if negb (Z.land (Z.shiftr outline shift) 1 =? 0) then 1 else 0) <$> range 0 CURSOR_W)
    CURSOR_OUTLINE CURSOR_INTERIOR.
Definition CURSOR_SPRITE : list (list Z) := Eval vm_compute in build_cursor_sprite.

Definition sprite_over (code c : Z) : Z := if code =? 2 then 0xFFFFFF else if code =? 1 then 0 else c.

(** The line buffer: the pixels of the frontbuffer under the sprite's row. *)
Definition cursor_line (sprite_row : list Z) (col_offset : Z) (line : pixels) : pixels :=
  imap (fun col c => match sprite_row !! Z.to_nat (col_offset + Z.of_nat col) with Some code => sprite_over code c | None => c end) line.

Definition draw_cursor_row (ppsl w h cx cy : Z) (fb : pixels) (disp : pixels) (row : Z) : option pixels :=
  let sy := signed 32 (cy + row) in
  if (sy <? 0) || (h <=? u32 sy) then Some disp else
  let x_start := Z.max cx 0 in
  x_end ← clamp (signed 32 (cx + CURSOR_W)) 0 (signed 32 w);
  if x_end <=? x_start then Some disp else
  let count := x_end - x_start in
  if CURSOR_W <? count then None else
  line ← rslice fb (Z.to_nat (u32 (u32 sy * w + x_start))) (Z.to_nat count);
  sprite_row ← CURSOR_SPRITE !! Z.to_nat row;
  put_fb_scanline_fast ppsl x_start sy (cursor_line sprite_row (x_start - cx) line) disp.

Definition draw_cursor_at (ppsl w h cx cy : Z) (s0 : bufs) : option bufs :=
  let s := ensure_buffers w h s0 in
  fb ← FRONTBUFFER s;
  disp ← foldM (draw_cursor_row ppsl w h cx cy fb) (DISPLAY s) (range 0 CURSOR_H);
  Some (mkBufs (BACKBUFFER s) (FRONTBUFFER s) (BACKBUFFER_WIDTH s) (BACKBUFFER_HEIGHT s) disp).

Definition restore_cursor_rect (ppsl w h cx cy : Z) (s0 : bufs) : option bufs :=
  let s := ensure_buffers w h s0 in
  fb ← FRONTBUFFER s;
  disp ← foldM (fun disp row =>
    let sy := signed 32 (cy + row) in
    if (sy <? 0) || (h <=? u32 sy) then Some disp else
    let x_start := Z.max cx 0 in
    x_end ← clamp (signed 32 (cx + CURSOR_W)) 0 (signed 32 w);
    if x_end <=? x_start then Some disp else
    src ← rslice fb (Z.to_nat (u32 (u32 sy * w + x_start))) (Z.to_nat (x_end - x_start));
    put_fb_scanline_fast ppsl x_start sy src disp) (DISPLAY s) (range 0 CURSOR_H);
  Some (mkBufs (BACKBUFFER s) (FRONTBUFFER s) (BACKBUFFER_WIDTH s) (BACKBUFFER_HEIGHT s) disp).

(** One rectangle the cursor has left. *)
Definition restore_vacated (ppsl w h : Z) (fb disp : pixels) (r : Rect) : option pixels :=
  let x_start := Z.max (x r) 0 in
  x_end ← clamp (signed 32 (x r + signed 32 (width r))) 0 (signed 32 w);
  if x_end <=? x_start then Some disp else
  foldM (fun disp sy =>
    if (sy <? 0) || (h <=? u32 sy) then Some disp else
    src ← rslice fb (Z.to_nat (u32 (u32 sy * w + x_start))) (Z.to_nat (x_end - x_start));
    put_fb_scanline_fast ppsl x_start sy src disp) disp (range (y r) (bottom r)).

Definition cursor_rect (cx cy : Z) : Rect := mkRect cx cy CURSOR_W CURSOR_H.

Definition move_cursor_overlay (ppsl w h old_x old_y new_x new_y : Z) (s0 : bufs) : option bufs :=
  if (old_x =? new_x) && (old_y =? new_y) then Some s0 else
  let s := ensure_buffers w h s0 in
  fb ← FRONTBUFFER s;
  disp ← foldM (restore_vacated ppsl w h fb) (DISPLAY s) (subtract (cursor_rect old_x old_y) (cursor_rect new_x new_y));
  draw_cursor_at ppsl w h new_x new_y (mkBufs (BACKBUFFER s) (FRONTBUFFER s) (BACKBUFFER_WIDTH s) (BACKBUFFER_HEIGHT s) disp).

Definition draw_cursor (ppsl w h : Z) (g : gui) : option gui :=
  s ← draw_cursor_at ppsl w h (CURSOR_X g) (CURSOR_Y g) (BUFS g);
  Some (set_bufs s g).

(** ** The stack of windows *)

Definition init_desktop_chrome (ppsl w h : Z) (g : gui) : option gui :=
  let s := ensure_buffers w h (BUFS g) in
  bb ← BACKBUFFER s; fb ← FRONTBUFFER s;
  r ← draw_menu_bar w h (replicate (length bb) DESKTOP_BG_COLOR, TEXT g);
  '(bb, t) ← draw_bottom_status_bar w h r;
  '(fb, disp, _) ← present_rect ppsl w h bb fb (DISPLAY s) (mkRect 0 0 w h);
  draw_cursor ppsl w h (set_text t (set_bufs (mkBufs (Some bb) (Some fb) (BACKBUFFER_WIDTH s) (BACKBUFFER_HEIGHT s) disp) g)).

(** The title bar of one window, drawn as active or not. *)
Definition refresh_title (is_top : bool) (wt : Window * text) : option (Window * text) :=
  let '(w, t) := wt in
  '(buf, t) ← render_title_bar (win_width w) (take (title_len w) (win_title w)) is_top (title_buffer w, t);
  Some (set_title_buffer buf w, t).

Fixpoint refresh_titles (ws : list Window) (t : text) : option (list Window * text) :=
  match ws with
  | [] => Some ([], t)
  | w :: ws' =>
      '(w, t) ← refresh_title (match ws' with [] => true | _ => false end) (w, t);
      '(ws', t) ← refresh_titles ws' t;
      Some (w :: ws', t)
  end.

Definition update_window_focus_visuals (g : gui) : option gui :=
  '(ws, t) ← refresh_titles (WINDOWS g) (TEXT g);
  Some (set_text t (set_windows ws g)).

Definition register (surface px py w h : Z) (title : bytes) (g : gui) : option gui :=
  let n := Nat.min (length title) MAX_TITLE_LEN in
  let t := take n title ++ replicate (MAX_TITLE_LEN - n) 0 in
  '(tb, txt) ← render_title_bar w (take n t) true (replicate (Z.to_nat (w * TITLE_BAR_HEIGHT)) 0, TEXT g);
  update_window_focus_visuals
    (set_text txt (set_windows (WINDOWS g ++ [mkWindow surface w h px py (replicate (Z.to_nat (w * h)) 0) tb t n]) g)).

(** [windows.iter().position(|w| w.surface_object == surface)]. *)
Definition position (surface : Z) (ws : list Window) : option nat :=
  fst <$> list_find (fun w => surface_object w = surface) ws.

Definition find_window (surface : Z) (g : gui) : option Window := k ← position surface (WINDOWS g); WINDOWS g !! k.
Definition exists_window (surface : Z) (g : gui) : bool := existsb (fun w => surface_object w =? surface) (WINDOWS g).

(** [find_mut] and an assignment to the window it gives. *)
Definition with_window (surface : Z) (f : Window -> Window) (g : gui) : gui :=
  match position surface (WINDOWS g) with
  | Some k => set_windows (alter f k (WINDOWS g)) g
  | None => g
  end.

Definition to_top (k : nat) (ws : list Window) : list Window :=
  match ws !! k with Some w => delete k ws ++ [w] | None => ws end.

Definition raise_window (surface : Z) (g : gui) : option (gui * bool) :=
  match position surface (WINDOWS g) with
  | Some pos =>
      if (pos + 1 <? length (WINDOWS g))%nat then
        g ← update_window_focus_visuals (set_windows (to_top pos (WINDOWS g)) g);
        Some (g, true)
      else Some (g, false)
  | None => Some (g, false)
  end.

(** A window with its title bar. *)
Definition bounds (w : Window) : Rect :=
  mkRect (win_x w) (signed 32 (win_y w - TITLE_BAR_HEIGHT)) (win_width w) (u32 (win_height w + TITLE_BAR_HEIGHT)).
Definition title_rect (w : Window) : Rect := mkRect (win_x w) (signed 32 (win_y w - TITLE_BAR_HEIGHT)) (win_width w) TITLE_BAR_HEIGHT.
Definition content_rect (w : Window) : Rect := mkRect (win_x w) (win_y w) (win_width w) (win_height w).

Definition fill (surface color : Z) (g : gui) : gui * bool :=
  match find_window surface g with
  | Some w => (with_window surface (set_win_buffer (replicate (length (win_buffer w)) color)) g, true)
  | None => (g, false)
  end.

Definition width_height (surface : Z) (g : gui) : option (Z * Z) := (fun w => (win_width w, win_height w)) <$> find_window surface g.

Definition commit_window_damage (surface dx dy w h : Z) (g : gui) : option (gui * bool) :=
  match find_window surface g with
  | None => Some (g, false)
  | Some win =>
      let dirty_w := Z.min w (saturating_sub (win_width win) dx) in
      let dirty_h := Z.min h (saturating_sub (win_height win) dy) in
      if (0 <? dirty_w) && (0 <? dirty_h) then
        g ← add_damage_rect (mkRect (signed 32 (win_x win + signed 32 dx)) (signed 32 (win_y win + signed 32 dy)) dirty_w dirty_h) g;
        Some (g, true)
      else Some (g, false)
  end.

Definition window_draw_text (surface tx ty : Z) (txt : bytes) (fg bg : Z) (g : gui) : option (gui * bool) :=
  match find_window surface g with
  | Some w =>
      '(buf, t) ← draw_text_to_buffer (win_buffer w) (win_width w) (win_height w) tx ty txt fg bg (TEXT g);
      Some (set_text t (with_window surface (set_win_buffer buf) g), true)
  | None => Some (g, false)
  end.

(** The columns of one row of a bitmap; [None] inside is the panic, the loop ends
    at the window's edge or at the end of the data. *)
Fixpoint bitmap_cols (w : Window) (bx py row pitch : Z) (data : bytes) (fg bg : Z) (cols : list Z) (buf : pixels) : option pixels :=
  match cols with
  | [] => Some buf
  | col :: cols' =>
      let px := u32 (bx + col) in
      if win_width w <=? px then Some buf else
      let byte_idx := row * pitch + col / 8 in
      match data !! Z.to_nat byte_idx with
      | None => Some buf
      | Some byte =>
          buf ← (if negb (Z.land byte (Z.shiftr 128 (col mod 8)) =? 0) then wbyte buf (Z.to_nat (u32 (py * win_width w + px))) fg
                 else if negb (bg =? 0) then wbyte buf (Z.to_nat (u32 (py * win_width w + px))) bg else Some buf);
          bitmap_cols w bx py row pitch data fg bg cols' buf
      end
  end.

Fixpoint bitmap_rows (w : Window) (bx by' bm_width pitch : Z) (data : bytes) (fg bg : Z) (rows : list Z) (buf : pixels) : option pixels :=
  match rows with
  | [] => Some buf
  | row :: rows' =>
      let py := u32 (by' + row) in
      if win_height w <=? py then Some buf else
      buf ← bitmap_cols w bx py row pitch data fg bg (range 0 bm_width) buf;
      bitmap_rows w bx by' bm_width pitch data fg bg rows' buf
  end.

Definition window_draw_bitmap (surface bx by' bm_width bm_height : Z) (data : bytes) (fg bg : Z) (g : gui) : option (gui * bool) :=
  match find_window surface g with
  | Some w =>
      let pitch := u32 (bm_width + 7) / 8 in
      buf ← bitmap_rows w bx by' bm_width pitch data fg bg (range 0 bm_height) (win_buffer w);
      Some (with_window surface (set_win_buffer buf) g, true)
  | None => Some (g, false)
  end.

Definition move_window (surface new_x new_y fb_width fb_height : Z) (g : gui) : option (gui * bool) :=
  match find_window surface g with
  | None => Some (g, false)
  | Some w =>
      let max_x := Z.max (signed 32 (signed 32 fb_width - signed 32 (win_width w))) 0 in
      let max_y := Z.max (signed 32 (signed 32 fb_height - signed 32 (win_height w))) 0 in
      clamped_x ← clamp new_x 0 max_x;
      clamped_y ← clamp new_y TITLE_BAR_HEIGHT max_y;
      if (win_x w =? clamped_x) && (win_y w =? clamped_y) then Some (g, false)
      else Some (with_window surface (set_position clamped_x clamped_y) g, true)
  end.

(** ** Composition *)

(** [&win_bounds[i + 1..num_windows.min(16)]]: the windows above, of the first
    sixteen. *)
Definition occluders_of (ws : list Window) (i : nat) : option (list Rect) :=
  let n := Nat.min (length ws) 16 in
  if (S i <=? n)%nat then Some (take (n - S i) (drop (S i) (bounds <$> ws))) else None.

(** The title bar and the contents of a window, clipped to [clip]. *)
Definition blit_window (w h : Z) (clip : Rect) (occs : list Rect) (win : Window) (bb : pixels) : option pixels :=
  bb ← blit_surface_clipped bb w h (title_buffer win) (win_width win) TITLE_BAR_HEIGHT (win_x win) (signed 32 (win_y win - TITLE_BAR_HEIGHT)) clip occs;
  blit_surface_clipped bb w h (win_buffer win) (win_width win) (win_height win) (win_x win) (win_y win) clip occs.

Definition blit_window_clipped (win : Window) (occs : list Rect) (w h : Z) (bb : pixels) : option pixels :=
  blit_window w h (mkRect 0 0 w h) occs win bb.

Definition compose_window (w h : Z) (clip : Rect) (ws : list Window) (bb : pixels) (i : nat) : option pixels :=
  occs ← occluders_of ws i;
  win ← ws !! i;
  blit_window w h clip occs win bb.

(** The visible part of one rectangle of a window, to the display. *)
Definition flush_visible (ppsl w h : Z) (bb : pixels) (occs : list Rect) (r : Rect) (s : pixels * pixels) : option (pixels * pixels) :=
  foldM (fun s v =>
    match intersect v (mkRect 0 0 w h) with
    | None => Some s
    | Some rc => fst <$> present_rect ppsl w h bb s.1 s.2 rc
    end) s (compute_visible_rects r occs).

Definition flush_window (ppsl w h : Z) (bb : pixels) (ws : list Window) (s : pixels * pixels) (i : nat) : option (pixels * pixels) :=
  win ← ws !! i;
  occs ← occluders_of ws i;
  s ← flush_visible ppsl w h bb occs (title_rect win) s;
  flush_visible ppsl w h bb occs (content_rect win) s.

Definition advance_presentation_fence (g : gui) : gui :=
  let p := PACING g in
  set_pacing (mkPacing (TARGET_FPS p) (LAST_PRESENT_TSC p) (FRAME_PENDING p) (FRAMES_REQUESTED p) (FRAMES_PRESENTED p) (FRAMES_THROTTLED p)
    (u64 (PRESENTATION_SEQUENCE p + 1)) (ANIMATIONS p) (HAS_ACTIVE p) (TSC_READS p)) g.

Definition present (ppsl w h : Z) (g : gui) : option gui :=
  let s := ensure_buffers w h (BUFS g) in
  bb ← BACKBUFFER s; fb ← FRONTBUFFER s;
  let ws := WINDOWS g in
  bb ← foldM (compose_window w h (mkRect 0 0 w h) ws) bb (seq 0 (length ws));
  '(fb, disp) ← foldM (flush_window ppsl w h bb ws) (fb, DISPLAY s) (seq 0 (length ws));
  g ← draw_cursor ppsl w h (set_bufs (mkBufs (Some bb) (Some fb) (BACKBUFFER_WIDTH s) (BACKBUFFER_HEIGHT s) disp) g);
  Some (advance_presentation_fence g).

(** The rows of one visible rectangle of a partial present: into the backbuffer,
    the frontbuffer and the display; whether the cursor was drawn over. *)
Definition partial_row (ppsl w cx cy : Z) (win : Window) (rc : Rect) (s : pixels * pixels * pixels * bool) (sy : Z)
    : option (pixels * pixels * pixels * bool) :=
  let '(bb, fb, disp, hit) := s in
  let py := u32 (sy - win_y win) in
  let local_x := u32 (x rc - win_x win) in
  let dst_offset := u32 (u32 sy * w + u32 (x rc)) in
  bb ← copy_row bb dst_offset (win_buffer win) (u32 (py * win_width win + local_x)) (width rc);
  fb ← copy_row fb dst_offset bb dst_offset (width rc);
  src ← rslice fb (Z.to_nat dst_offset) (Z.to_nat (width rc));
  disp ← put_fb_scanline_fast ppsl (u32 (x rc)) (u32 sy) src disp;
  let affected := (cy <=? sy) && (sy <? signed 32 (cy + CURSOR_H)) && (x rc <? signed 32 (cx + CURSOR_W)) && (cx <? signed 32 (x rc + signed 32 (width rc))) in
  Some (bb, fb, disp, hit || affected).

Definition present_partial (ppsl w h surface local_y local_height : Z) (g : gui) : option (gui * bool) :=
  match position surface (WINDOWS g) with
  | None => Some (g, false)
  | Some w_idx =>
      win ← WINDOWS g !! w_idx;
      let end_y := Z.min (u32 (local_y + local_height)) (win_height win) in
      if end_y <=? local_y then Some (g, false) else
      let occs := take 16 (bounds <$> drop (S w_idx) (WINDOWS g)) in
      let damage_rect := mkRect (win_x win) (signed 32 (win_y win + signed 32 local_y)) (win_width win) (end_y - local_y) in
      let vis := compute_visible_rects damage_rect occs in
      if (length vis =? 0)%nat then Some (g, true) else
      let s := ensure_buffers w h (BUFS g) in
      bb ← BACKBUFFER s; fb ← FRONTBUFFER s;
      '(bb, fb, disp, hit) ← foldM (fun st v =>
          match intersect v (mkRect 0 0 w h) with
          | None => Some st
          | Some rc => foldM (partial_row ppsl w (CURSOR_X g) (CURSOR_Y g) win rc) st (range (y rc) (bottom rc))
          end) (bb, fb, DISPLAY s, false) vis;
      let s := mkBufs (Some bb) (Some fb) (BACKBUFFER_WIDTH s) (BACKBUFFER_HEIGHT s) disp in
      s ← (if (hit : bool) then draw_cursor_at ppsl w h (CURSOR_X g) (CURSOR_Y g) s else Some s);
      Some (advance_presentation_fence (set_bufs s g), true)
  end.

(** ** Hit tests *)

Definition point_in_rect (px py rx ry rw rh : Z) : bool :=
  (rx <=? px) && (px <? signed 32 (rx + signed 32 rw)) && (ry <=? py) && (py <? signed 32 (ry + signed 32 rh)).

Definition find_topmost (hit : Window -> bool) (ws : list Window) : option Z :=
  (fun r => surface_object r.2) <$> list_find (fun w => hit w = true) (reverse ws).

Definition topmost_titlebar_at (px py : Z) (g : gui) : option Z :=
  find_topmost (fun w => point_in_rect px py (win_x w) (signed 32 (win_y w - TITLE_BAR_HEIGHT)) (win_width w) TITLE_BAR_HEIGHT) (WINDOWS g).
Definition topmost_content_at (px py : Z) (g : gui) : option Z :=
  find_topmost (fun w => point_in_rect px py (win_x w) (win_y w) (win_width w) (win_height w)) (WINDOWS g).

(** ** Redrawing a rectangle *)

(** The desktop behind the windows, row by row. *)
Definition background (h py : Z) : Z :=
  let footer_y := saturating_sub h 20 in
  if py <? MENU_BAR_HEIGHT then
    if (py =? 0) || (py =? MENU_BAR_HEIGHT - 1) then MENU_BAR_BORDER_COLOR else MENU_BAR_COLOR
  else if (footer_y <=? py) && has_footer h then
    if py =? footer_y then STATUS_BAR_BORDER_COLOR else STATUS_BAR_BG_COLOR
  else DESKTOP_BG_COLOR.

Definition redraw_rect (ppsl w h rx ry rw rh : Z) (g : gui) : option gui :=
  let rx0 := Z.max rx 0 in
  let ry0 := Z.max ry 0 in
  let rx1 := Z.min (signed 32 (rx + signed 32 rw)) (signed 32 w) in
  let ry1 := Z.min (signed 32 (ry + signed 32 rh)) (signed 32 h) in
  if (rx1 <=? rx0) || (ry1 <=? ry0) then Some g else
  let s := ensure_buffers w h (BUFS g) in
  bb ← BACKBUFFER s; fb ← FRONTBUFFER s;
  let footer_y := saturating_sub h 20 in
  bb ← foldM (fun bb py => fill_row bb (u32 (py * w + rx0)) (rx1 - rx0) (background h py)) bb (range ry0 ry1);
  '(bb, t) ← (if ry0 <? MENU_BAR_HEIGHT then draw_menu_bar w h (bb, TEXT g) else Some (bb, TEXT g));
  '(bb, t) ← (if (footer_y <? ry1) && has_footer h then draw_bottom_status_bar w h (bb, t) else Some (bb, t));
  let target_rect := mkRect rx0 ry0 (rx1 - rx0) (ry1 - ry0) in
  bb ← foldM (compose_window w h target_rect (WINDOWS g)) bb (seq 0 (length (WINDOWS g)));
  '(fb, disp, _) ← present_rect ppsl w h bb fb (DISPLAY s) target_rect;
  Some (set_text t (set_bufs (mkBufs (Some bb) (Some fb) (BACKBUFFER_WIDTH s) (BACKBUFFER_HEIGHT s) disp) g)).

Definition unregister_window (surface ppsl w h : Z) (g : gui) : option (gui * bool) :=
  match position surface (WINDOWS g) with
  | None => Some (g, false)
  | Some pos =>
      win ← WINDOWS g !! pos;
      g ← update_window_focus_visuals (set_windows (delete pos (WINDOWS g)) g);
      g ← redraw_rect ppsl w h (win_x win) (signed 32 (win_y win - TITLE_BAR_HEIGHT)) (win_width win) (u32 (win_height win + TITLE_BAR_HEIGHT)) g;
      g ← draw_cursor ppsl w h g;
      Some (g, true)
  end.

(** ** Presenting what is damaged *)

Definition flush_dirty_surfaces (ppsl w h : Z) (g : gui) : option gui :=
  if WINDOW_DIRTY g then
    let g := set_dirty (CURSOR_DIRTY g) false g in
    if (length (GLOBAL_DAMAGE g) =? 0)%nat then present ppsl w h g
    else
      g ← foldM (fun g r => redraw_rect ppsl w h (x r) (y r) (width r) (height r) g) g (GLOBAL_DAMAGE g);
      draw_cursor ppsl w h (set_damage clear g)
  else if CURSOR_DIRTY g then draw_cursor ppsl w h (set_dirty false (WINDOW_DIRTY g) g)
  else Some g.

Definition CYCLES_PER_US : Z := 2500.

Section clock.
(** The readings of the cycle counter. *)
Variable rdtsc : nat -> Z.

Definition read_tsc (g : gui) : Z * gui :=
  let p := PACING g in
  (rdtsc (TSC_READS p),
   set_pacing (mkPacing (TARGET_FPS p) (LAST_PRESENT_TSC p) (FRAME_PENDING p) (FRAMES_REQUESTED p) (FRAMES_PRESENTED p) (FRAMES_THROTTLED p)
     (PRESENTATION_SEQUENCE p) (ANIMATIONS p) (HAS_ACTIVE p) (S (TSC_READS p))) g).

Definition scheduler_interval (p : pacing) : Z :=
  if TARGET_FPS p =? 0 then 0 else u64 (1000000 / TARGET_FPS p * CYCLES_PER_US).

Definition can_present (now : Z) (p : pacing) : bool :=
  (LAST_PRESENT_TSC p =? 0) || (scheduler_interval p <=? saturating_sub now (LAST_PRESENT_TSC p)).

Definition request_presentation (ppsl w h : Z) (force : bool) (g : gui) : option (gui * bool) :=
  let p := PACING g in
  let g := set_pacing (mkPacing (TARGET_FPS p) (LAST_PRESENT_TSC p) (FRAME_PENDING p) (u64 (FRAMES_REQUESTED p + 1)) (FRAMES_PRESENTED p) (FRAMES_THROTTLED p)
     (PRESENTATION_SEQUENCE p) (ANIMATIONS p) (HAS_ACTIVE p) (TSC_READS p)) g in
  let '(now, g) := read_tsc g in
  let p := PACING g in
  if force || can_present now p then
    g ← flush_dirty_surfaces ppsl w h
      (set_pacing (mkPacing (TARGET_FPS p) now false (FRAMES_REQUESTED p) (u64 (FRAMES_PRESENTED p + 1)) (FRAMES_THROTTLED p)
        (PRESENTATION_SEQUENCE p) (ANIMATIONS p) (HAS_ACTIVE p) (TSC_READS p)) g);
    Some (advance_presentation_fence g, true)
  else
    Some (set_pacing (mkPacing (TARGET_FPS p) (LAST_PRESENT_TSC p) true (FRAMES_REQUESTED p) (FRAMES_PRESENTED p) (u64 (FRAMES_THROTTLED p + 1))
        (PRESENTATION_SEQUENCE p) (ANIMATIONS p) (HAS_ACTIVE p) (TSC_READS p)) g, false).

(** ** Animations ([kernel_rs/src/animation.rs]) *)

Definition set_animations (l : list (Z * SlideAnimation)) (has : bool) (g : gui) : gui :=
  let p := PACING g in
  set_pacing (mkPacing (TARGET_FPS p) (LAST_PRESENT_TSC p) (FRAME_PENDING p) (FRAMES_REQUESTED p) (FRAMES_PRESENTED p) (FRAMES_THROTTLED p)
     (PRESENTATION_SEQUENCE p) l has (TSC_READS p)) g.

Definition start_window_slide (surface : Z) (current_pos target_pos : Z * Z) (duration_ms : Z) (g : gui) : gui :=
  let '(now, g) := read_tsc g in
  let duration := u64 (u64 (duration_ms * 1000) * CYCLES_PER_US) in
  let anims := ANIMATIONS (PACING g) in
  let slot :=
    match list_find (fun a => active a.2 && (a.1 =? surface) = true) anims with
    | Some (i, _) => Some i
    | None => fst <$> list_find (fun a => active a.2 = false) anims
    end in
  match slot with
  | Some i => set_animations (alter (fun a => (surface, slide_start current_pos target_pos now duration a.2)) i anims) true g
  | None => g
  end.

(** One animation of the array, moved to where it is at [now]. *)
Definition step_animation (now w h : Z) (s : gui * list (Z * SlideAnimation) * bool) (a : Z * SlideAnimation)
    : option (gui * list (Z * SlideAnimation) * bool) :=
  let '(g, done, any_active) := s in
  if active a.2 then
    let '(slide, (new_x, new_y, finished)) := slide_step now a.2 in
    '(g, _) ← move_window a.1 new_x new_y w h g;
    Some (g, done ++ [(a.1, slide)], any_active || negb finished)
  else Some (g, done ++ [a], any_active).

Definition step_animations (g : gui) : option (gui * bool) :=
  if negb (HAS_ACTIVE (PACING g)) then Some (g, false) else
  match FB_PARAMS g with
  | None => Some (g, false)
  | Some (_, w, h) =>
      let '(now, g) := read_tsc g in
      '(g, anims, any_active) ← foldM (step_animation now w h) (g, [], false) (ANIMATIONS (PACING g));
      Some (set_animations anims any_active g, any_active)
  end.

Definition try_present_pending (ppsl w h : Z) (g : gui) : option (gui * bool) :=
  let anim_active := HAS_ACTIVE (PACING g) in
  if negb (FRAME_PENDING (PACING g)) && negb anim_active then Some (g, false) else
  let '(now, g) := read_tsc g in
  if can_present now (PACING g) then
    g ← (if anim_active then fst <$> step_animations g else Some g);
    request_presentation ppsl w h true g
  else Some (g, false).

(** ** The mouse *)

Definition press (px py : Z) (g : gui) : option (gui * bool) :=
  match topmost_titlebar_at px py g with
  | Some target =>
      '(g, raised) ← raise_window target (set_focus target g);
      match find_window target g with
      | Some w => Some (set_dragging (Some (target, signed 32 (px - win_x w), signed 32 (py - win_y w))) g, raised)
      | None => Some (g, raised)
      end
  | None =>
      match topmost_content_at px py g with
      | Some target => raise_window target (set_focus target g)
      | None => Some (g, false)
      end
  end.

(** The dragged window's old place and whether it moved. *)
Definition drag (px py w h : Z) (g : gui) : option (gui * option Rect * bool) :=
  match DRAGGING g with
  | None => Some (g, None, false)
  | Some (target, off_x, off_y) =>
      let old := bounds <$> find_window target g in
      '(g, moved) ← move_window target (signed 32 (px - off_x)) (signed 32 (py - off_y)) w h g;
      Some (g, old, moved)
  end.

Definition damage_windows (old : option Rect) (g : gui) : option gui :=
  g ← match old with Some r => add_damage_rect r g | None => Some g end;
  match DRAGGING g with
  | Some (target, _, _) =>
      match find_window target g with Some w => add_damage_rect (bounds w) g | None => Some g end
  | None => foldM (fun g w => add_damage_rect (bounds w) g) g (WINDOWS g)
  end.

Definition report_mouse (dx dy : Z) (left_down : bool) (g : gui) : option gui :=
  match FB_PARAMS g with
  | None => Some g
  | Some (ppsl, w, h) =>
      let old_x := CURSOR_X g in
      let old_y := CURSOR_Y g in
      new_x ← clamp (signed 32 (old_x + dx)) 0 (signed 32 (signed 32 w - 1));
      new_y ← clamp (signed 32 (old_y + dy)) 0 (signed 32 (signed 32 h - 1));
      let was_down := LEFT_BUTTON_DOWN g in
      let g := set_cursor new_x new_y left_down g in
      '(g, window_raised) ← (if left_down && negb was_down then press new_x new_y g else Some (g, false));
      let release_edge := negb left_down && was_down in
      let g := if left_down then g else set_dragging None g in
      '(g, old_win_rect, window_moved) ← drag new_x new_y w h g;
      if window_moved || window_raised then
        g ← damage_windows old_win_rect g;
        fst <$> request_presentation ppsl w h release_edge (mark_window_dirty g)
      else
        '(g, _) ← try_present_pending ppsl w h g;
        s ← move_cursor_overlay ppsl w h old_x old_y new_x new_y (BUFS g);
        Some (set_bufs s g)
  end.
End clock.

(** ** Introspection *)

Record WindowInfo := mkWindowInfo {
  wi_surface : Z; wi_x : Z; wi_y : Z; wi_width : Z; wi_height : Z; wi_focused : Z; wi_title_len : Z; wi_title : bytes }.

Definition window_info (focused : Z) (w : Window) : WindowInfo :=
  let len := Nat.min (title_len w) 32 in
  mkWindowInfo (surface_object w) (win_x w) (win_y w) (win_width w) (win_height w)
    (if surface_object w =? focused then 1 else 0) (Z.of_nat len) (take len (win_title w) ++ replicate (32 - len) 0).

Definition get_windows_snapshot (max_entries : nat) (g : gui) : list WindowInfo :=
  window_info (FOCUSED_SURFACE g) <$> take max_entries (WINDOWS g).
