(* ===== verification/WindowsInv.v ===== *)
(** * What the display shows

    The compositor copies only the visible pieces of each window; it is proved
    equal to the painter's algorithm, which paints whole windows from the lowest
    to the highest ([painter]).  The display is what the frontbuffer holds with the
    cursor over it ([display_ok]), an invariant of the operations that present. *)

From Stdlib Require Ascii String.
From S2P Require Import Prelude Geometry Damage Renderer Text Pacing Windows.
Import (notations) String.

(** ** Well-formed windows *)

Record window_ok (w : Window) : Prop := {
  wok_width : 0 < win_width w < 2 ^ 24;
  wok_height : 0 < win_height w < 2 ^ 24;
  wok_area : win_width w * win_height w < 2 ^ 31;
  wok_x : - 2 ^ 29 <= win_x w <= 2 ^ 29;
  wok_y : - 2 ^ 29 <= win_y w <= 2 ^ 29;
  wok_buffer : Z.of_nat (length (win_buffer w)) = win_width w * win_height w;
  wok_titlebar : Z.of_nat (length (title_buffer w)) = win_width w * TITLE_BAR_HEIGHT;
  wok_title : length (win_title w) = MAX_TITLE_LEN /\ all_bytes (win_title w) /\ (title_len w <= MAX_TITLE_LEN)%nat }.

Lemma window_edges w : window_ok w ->
  signed 32 (win_y w - TITLE_BAR_HEIGHT) = win_y w - 20 /\ u32 (win_height w + TITLE_BAR_HEIGHT) = win_height w + 20.
Proof.
  intros []. unfold TITLE_BAR_HEIGHT. rewrite signed_in by (unfold i32_min, i32_max; lia). rewrite (wrap_small 32) by (red; lia). done.
Qed.

Lemma bounds_wf w : window_ok w -> rect_wf (bounds w).
Proof.
  intros Hw. destruct (window_edges w Hw) as [E1 E2]. destruct Hw. unfold rect_wf, bounds, i32_min, i32_max. cbn [x y width height]. rewrite E1, E2. lia.
Qed.

Lemma title_wf w : window_ok w -> rect_wf (title_rect w) /\ screen_ok (win_width w) TITLE_BAR_HEIGHT.
Proof.
  intros Hw. destruct (window_edges w Hw) as [E1 _]. destruct Hw. unfold rect_wf, title_rect, screen_ok, TITLE_BAR_HEIGHT, i32_min, i32_max in *.
  cbn [x y width height]. rewrite E1. lia.
Qed.

Lemma content_wf w : window_ok w -> rect_wf (content_rect w) /\ screen_ok (win_width w) (win_height w).
Proof. intros []. unfold rect_wf, content_rect, screen_ok, i32_min, i32_max. cbn [x y width height]. lia. Qed.

Lemma coversb_bounds w p : window_ok w -> coversb (bounds w) p = coversb (title_rect w) p || coversb (content_rect w) p.
Proof.
  intros Hw. apply bool_iff. rewrite orb_true_iff, !coversb_spec. unfold covers, bounds, title_rect, content_rect. cbn [x y width height].
  destruct (window_edges w Hw) as [-> ->]. unfold TITLE_BAR_HEIGHT. destruct Hw. lia.
Qed.

Lemma title_above w p : window_ok w -> coversb (title_rect w) p = true -> coversb (content_rect w) p = false.
Proof.
  intros Hw Ht. apply not_true_iff_false. rewrite coversb_spec in *. unfold covers, title_rect, content_rect in *. cbn [x y width height] in *.
  destruct (window_edges w Hw) as [E1 _]. rewrite E1 in Ht. unfold TITLE_BAR_HEIGHT in Ht. lia.
Qed.

(** ** The painter's algorithm *)

(** The pixel of a window at a point of the screen. *)
Definition win_pixel (w : Window) (p : point) : option Z :=
  if coversb (title_rect w) p then pix (win_width w) (title_buffer w) (p.1 - win_x w, p.2 - (win_y w - 20))
  else pix (win_width w) (win_buffer w) (p.1 - win_x w, p.2 - win_y w).

(** Whole windows, the last one on top. *)
Definition painter (ws : list Window) : layer := layers (fun w => over (coversb (bounds w)) (win_pixel w)) ws.

Definition uncovered (ws : list Window) (p : point) : bool := clearb (bounds <$> ws) p.

Lemma painter_cons w ws p c : painter (w :: ws) p c = painter ws p (if coversb (bounds w) p then win_pixel w p else c).
Proof. done. Qed.

Lemma painter_uncovered ws p c : uncovered ws p = true -> painter ws p c = c.
Proof.
  revert c. induction ws as [|w ws IH]; intros c Hu; [done|]. cbn in Hu. apply andb_true_iff in Hu as [H1%negb_true_iff H2].
  rewrite painter_cons, H1. by apply IH.
Qed.

(** What is below a covered pixel does not matter. *)
Lemma painter_covered ws p c c' : uncovered ws p = false -> painter ws p c = painter ws p c'.
Proof.
  revert c c'. induction ws as [|w ws IH]; intros c c' Hu; [done|]. rewrite !painter_cons. destruct (coversb (bounds w) p) eqn:E; [done|].
  apply IH. cbn in Hu. rewrite E in Hu. done.
Qed.

(** The recursive reading of the composition loop. *)
Fixpoint compose_all (w h : Z) (clip : Rect) (ws : list Window) (bb : pixels) : option pixels :=
  match ws with
  | [] => Some bb
  | win :: ws' => bb ← blit_window w h clip (bounds <$> ws') win bb; compose_all w h clip ws' bb
  end.

Lemma occluders_of_spec ws i : (length ws <= 16)%nat -> (i < length ws)%nat -> occluders_of ws i = Some (bounds <$> drop (S i) ws).
Proof.
  intros Hl Hi. unfold occluders_of. rewrite (proj2 (Nat.leb_le _ _)) by lia. f_equal. rewrite fmap_drop.
  apply take_ge. rewrite length_drop, length_fmap. lia.
Qed.

Lemma compose_window_eq w h clip ws bb i :
  compose_window w h clip ws bb i = occs ← occluders_of ws i; win ← ws !! i; blit_window w h clip occs win bb.
Proof. done. Qed.

Lemma compose_all_eq w h clip ws bb : (length ws <= 16)%nat ->
  foldM (compose_window w h clip ws) bb (seq 0 (length ws)) = compose_all w h clip ws bb.
Proof.
  intros Hl. assert (forall k pre suf bb, ws = pre ++ suf -> length pre = k ->
    foldM (compose_window w h clip ws) bb (seq k (length suf)) = compose_all w h clip suf bb) as Hgen.
  2:{ exact (Hgen 0%nat [] ws bb eq_refl eq_refl). }
  intros k pre suf. revert k pre. induction suf as [|win suf IH]; intros k pre b0 Hws Hk; [done|].
  cbn [length seq foldM compose_all]. rewrite compose_window_eq.
  assert (length ws = (length pre + S (length suf))%nat) as Hlen by (rewrite Hws, length_app; done).
  assert (ws !! k = Some win) as -> by (rewrite Hws, lookup_app_r, Hk, Nat.sub_diag by lia; done).
  assert (drop (S k) ws = suf) as Hd.
  { rewrite Hws, cons_middle, app_assoc. apply drop_app_length'. rewrite length_app. cbn. lia. }
  rewrite occluders_of_spec, Hd by lia. cbn [mbind option_bind].
  destruct (blit_window w h clip (bounds <$> suf) win b0) as [b1|]; [|done]. cbn [mbind option_bind].
  apply (IH (S k) (pre ++ [win])); [by rewrite Hws, <- app_assoc|rewrite length_app; cbn; lia].
Qed.

(** More than sixteen windows: the slice of the seventeenth starts past its end. *)
Lemma compose_too_many w h clip ws bb : (16 < length ws)%nat ->
  foldM (compose_window w h clip ws) bb (seq 0 (length ws)) = None.
Proof.
  intros Hl. replace (length ws) with (16 + S (length ws - 17))%nat by lia. rewrite seq_app, foldM_app.
  destruct (foldM _ bb (seq 0 16)) as [b0|]; [|done]. cbn [mbind option_bind seq foldM Nat.add]. rewrite compose_window_eq. unfold occluders_of at 1.
  rewrite (proj2 (Nat.leb_gt _ _)) by lia. done.
Qed.

(** ** Composing equals painting *)

(** Whether no window has more than 32 visible pieces. *)
Fixpoint scene_fits (clip : Rect) (ws : list Window) : bool :=
  match ws with
  | [] => true
  | w :: ws' =>
      blit_fits (win_width w) TITLE_BAR_HEIGHT (win_x w) (signed 32 (win_y w - TITLE_BAR_HEIGHT)) clip (bounds <$> ws') &&
      blit_fits (win_width w) (win_height w) (win_x w) (win_y w) clip (bounds <$> ws') && scene_fits clip ws'
  end.

(** Whether a point is on the screen and in the clip. *)
Definition clipped (W H : Z) (clip : Rect) (p : point) : bool := coversb clip p && coversb (screen_rect W H) p.

Lemma bounds_all_wf ws : Forall window_ok ws -> Forall rect_wf (bounds <$> ws).
Proof. intros Hw. apply Forall_fmap. eapply Forall_impl; [exact Hw|]. intros w. apply bounds_wf. Qed.

Section compose.
Variables (W H : Z).
Hypothesis screen : screen_ok W H.

Lemma blit_window_spec clip ws w d : rect_wf clip -> Forall window_ok ws -> window_ok w -> Z.of_nat (length d) = W * H ->
  blit_fits (win_width w) TITLE_BAR_HEIGHT (win_x w) (signed 32 (win_y w - TITLE_BAR_HEIGHT)) clip (bounds <$> ws) = true ->
  blit_fits (win_width w) (win_height w) (win_x w) (win_y w) clip (bounds <$> ws) = true ->
  exists d', blit_window W H clip (bounds <$> ws) w d = Some d' /\
    paints W (over (fun p => coversb (bounds w) p && clipped W H clip p && uncovered ws p) (win_pixel w)) d d'.
Proof using screen.
  intros Hclip Hws Hw Hd F1 F2. destruct (title_wf w Hw) as [Ht Hts], (content_wf w Hw) as [Hc Hcs]. unfold blit_window.
  destruct (blit_surface_clipped_spec W H screen (title_buffer w) (win_width w) TITLE_BAR_HEIGHT (win_x w) (signed 32 (win_y w - TITLE_BAR_HEIGHT))
    (wok_titlebar w Hw) Hts Ht clip (bounds <$> ws) d Hclip (bounds_all_wf ws Hws) Hd) as (d1 & r1 & -> & P1 & _ & R1). cbn [mbind option_bind].
  specialize (R1 F1). pose proof (paints_length _ _ _ _ P1) as L1.
  destruct (blit_surface_clipped_spec W H screen (win_buffer w) (win_width w) (win_height w) (win_x w) (win_y w)
    (wok_buffer w Hw) Hcs Hc clip (bounds <$> ws) d1 Hclip (bounds_all_wf ws Hws) ltac:(lia)) as (d2 & r2 & -> & P2 & _ & R2).
  specialize (R2 F2). exists d2. split; [done|].
  refine (paints_ext _ _ _ _ _ _ (paints_trans _ _ _ _ _ _ P1 P2)). intros p _ _. unfold over. rewrite R1, R2, (coversb_bounds w p Hw).
  unfold shown, clipped, uncovered, win_pixel, placed. fold (title_rect w). fold (content_rect w). pose proof (title_above w p Hw) as Hta.
  destruct (window_edges w Hw) as [E1 _]. rewrite E1.
  destruct (coversb (title_rect w) p), (coversb (content_rect w) p), (coversb clip p), (coversb (screen_rect W H) p), (clearb (bounds <$> ws) p); cbn; try done;
    by specialize (Hta eq_refl).
Qed.

Lemma compose_all_spec clip ws d : rect_wf clip -> Forall window_ok ws -> Z.of_nat (length d) = W * H -> scene_fits clip ws = true ->
  exists d', compose_all W H clip ws d = Some d' /\ paints W (fun p c => if clipped W H clip p then painter ws p c else c) d d'.
Proof using screen.
  intros Hclip Hws. revert d. induction Hws as [|w ws Hw Hws IH]; intros d Hd Hf.
  { exists d. split; [done|]. refine (paints_ext _ _ _ _ _ _ (paints_id _ _)). intros p _ _. by destruct (clipped W H clip p). }
  cbn [scene_fits] in Hf. apply andb_true_iff in Hf as [[F1 F2]%andb_true_iff Hf].
  cbn [compose_all]. destruct (blit_window_spec clip ws w d Hclip Hws Hw Hd F1 F2) as (d1 & -> & P1). cbn [mbind option_bind].
  pose proof (paints_length _ _ _ _ P1). destruct (IH d1 ltac:(lia) Hf) as (d2 & -> & P2). exists d2. split; [done|].
  refine (paints_ext _ _ _ _ _ _ (paints_trans _ _ _ _ _ _ P1 P2)). intros p _ _. unfold over. cbn beta. rewrite painter_cons.
  destruct (clipped W H clip p); [|by rewrite andb_false_r]. rewrite andb_true_r. destruct (coversb (bounds w) p); [|done]. cbn [andb].
  destruct (uncovered ws p) eqn:U; [done|]. by apply painter_covered.
Qed.
End compose.

(** ** Flushing what is visible *)

Fixpoint flush_all (ppsl w h : Z) (bb : pixels) (ws : list Window) (s : pixels * pixels) : option (pixels * pixels) :=
  match ws with
  | [] => Some s
  | win :: ws' =>
      s ← flush_visible ppsl w h bb (bounds <$> ws') (title_rect win) s;
      s ← flush_visible ppsl w h bb (bounds <$> ws') (content_rect win) s;
      flush_all ppsl w h bb ws' s
  end.

Lemma flush_all_eq ppsl w h bb ws s : (length ws <= 16)%nat ->
  foldM (flush_window ppsl w h bb ws) s (seq 0 (length ws)) = flush_all ppsl w h bb ws s.
Proof.
  intros Hl. assert (forall k pre suf s, ws = pre ++ suf -> length pre = k ->
    foldM (flush_window ppsl w h bb ws) s (seq k (length suf)) = flush_all ppsl w h bb suf s) as Hgen.
  2:{ exact (Hgen 0%nat [] ws s eq_refl eq_refl). }
  intros k pre suf. revert k pre. induction suf as [|win suf IH]; intros k pre s0 Hws Hk; [done|].
  cbn [length seq foldM flush_all].
  assert (length ws = (length pre + S (length suf))%nat) as Hlen by (rewrite Hws, length_app; done).
  assert (ws !! k = Some win) as Hwin by (rewrite Hws, lookup_app_r, Hk, Nat.sub_diag by lia; done).
  assert (drop (S k) ws = suf) as Hd.
  { rewrite Hws, cons_middle, app_assoc. apply drop_app_length'. rewrite length_app. cbn. lia. }
  assert (flush_window ppsl w h bb ws s0 k = s ← flush_visible ppsl w h bb (bounds <$> suf) (title_rect win) s0;
    flush_visible ppsl w h bb (bounds <$> suf) (content_rect win) s) as ->.
  { unfold flush_window. rewrite Hwin, occluders_of_spec, Hd by lia. done. }
  destruct (flush_visible _ _ _ _ _ (title_rect win) s0) as [s1|]; [|done]. cbn [mbind option_bind].
  destruct (flush_visible _ _ _ _ _ (content_rect win) s1) as [s2|]; [|done]. cbn [mbind option_bind].
  apply (IH (S k) (pre ++ [win])); [by rewrite Hws, <- app_assoc|rewrite length_app; cbn; lia].
Qed.

Fixpoint flush_fits (ws : list Window) : bool :=
  match ws with
  | [] => true
  | w :: ws' => fits (bounds <$> ws') [title_rect w] && fits (bounds <$> ws') [content_rect w] && flush_fits ws'
  end.

Section flush.
Variables (W H ppsl : Z) (bb : pixels).
Hypothesis screen : screen_ok W H.
Hypothesis stride : W <= ppsl.
Hypothesis bb_full : Z.of_nat (length bb) = W * H.

Lemma flush_visible_spec occs r s : rect_wf r -> Forall rect_wf occs -> fits occs [r] = true ->
  length s.1 = Z.to_nat (W * H) -> length s.2 = Z.to_nat (ppsl * H) ->
  exists s', flush_visible ppsl W H bb occs r s = Some s' /\
    let g := over (fun p => coversb r p && coversb (screen_rect W H) p && clearb occs p) (pix W bb) in
    paints W g s.1 s'.1 /\ paints ppsl g s.2 s'.2.
Proof using screen stride bb_full.
  intros Hr Hoccs Hf H1 H2. destruct (visible_rects_spec r occs Hr Hoccs) as (_ & Hwf & _ & Hsub & Hall). specialize (Hall Hf). unfold flush_visible.
  destruct screen as (? & ? & ?). assert (0 <= W * H) by nia. assert (0 <= ppsl * H) by nia.
  destruct (foldM_paints2 W ppsl (fun s v => match intersect v (mkRect 0 0 W H) with None => Some s | Some rc => fst <$> present_rect ppsl W H bb s.1 s.2 rc end)
    (fun v => over (fun p => coversb v p && coversb (screen_rect W H) p) (pix W bb)) (compute_visible_rects r occs) s _ _ H1 H2) as (s' & E & P1 & P2).
  { intros s0 v Hv L1 L2. destruct (proj1 (Forall_forall _ _) Hwf v Hv) as [Hvwf _].
    pose proof (intersect_spec v (screen_rect W H) Hvwf (screen_rect_wf _ _ screen)) as Hi. fold (screen_rect W H).
    destruct (intersect v (screen_rect W H)) as [rc|].
    - destruct Hi as (Hrwf & ? & ? & Ex & Ey & Er & Eb). cbn [x y width height screen_rect] in *.
      destruct (present_rect_spec W H ppsl screen stride bb s0.1 s0.2 rc Hrwf bb_full ltac:(lia) ltac:(lia)) as (fb' & disp' & n & -> & Q1 & Q2).
      exists (fb', disp'). split; [done|].
      split; [refine (paints_ext _ _ _ _ _ _ Q1)|refine (paints_ext _ _ _ _ _ _ Q2)]; intros p _ _; unfold over;
        (rewrite (bool_iff (coversb rc p && coversb (screen_rect W H) p) (coversb v p && coversb (screen_rect W H) p)); [done|]); rewrite !andb_true_iff, !coversb_spec; unfold covers; cbn [x y width height screen_rect]; lia.
    - exists s0. split; [done|]. split; refine (paints_ext _ _ _ _ _ _ (paints_id _ _)); intros p _ _; unfold over;
        (destruct (_ && _) eqn:E; [|done]); apply andb_true_iff in E as [E1%coversb_spec E2%coversb_spec]; destruct (Hi p E1 E2). }
  exists s'. split; [exact E|]. cbn zeta.
  assert (forall p, existsb (fun v => coversb v p && coversb (screen_rect W H) p) (compute_visible_rects r occs) =
    coversb r p && coversb (screen_rect W H) p && clearb occs p) as Hreg.
  { intros p. apply bool_iff. rewrite existsb_exists, !andb_true_iff, !coversb_spec, clearb_spec. split.
    - intros (v & Hv & [C1%coversb_spec C2%coversb_spec]%andb_true_iff). rewrite <- list_elem_of_In in Hv.
      by destruct (Hsub p (ex_intro _ v (conj Hv C1))).
    - intros [[C1 C2] U]. destruct (Hall p C1 U) as (v & Hv & Hc). exists v. rewrite <- list_elem_of_In, andb_true_iff, !coversb_spec. done. }
  split; [refine (paints_ext _ _ _ _ _ _ P1)|refine (paints_ext _ _ _ _ _ _ P2)]; intros p _ _; rewrite layers_over; unfold over; cbn beta; by rewrite Hreg.
Qed.

Lemma flush_all_spec ws s : Forall window_ok ws -> flush_fits ws = true -> length s.1 = Z.to_nat (W * H) -> length s.2 = Z.to_nat (ppsl * H) ->
  exists s', flush_all ppsl W H bb ws s = Some s' /\
    let g := over (fun p => coversb (screen_rect W H) p && negb (uncovered ws p)) (pix W bb) in
    paints W g s.1 s'.1 /\ paints ppsl g s.2 s'.2.
Proof using screen stride bb_full.
  intros Hws. revert s. induction Hws as [|w ws Hw Hws IH]; intros s Hf H1 H2.
  { exists s. split; [done|]. split; refine (paints_ext _ _ _ _ _ _ (paints_id _ _)); intros p _ _; unfold over; by rewrite andb_false_r. }
  cbn [flush_fits] in Hf. apply andb_true_iff in Hf as [[F1 F2]%andb_true_iff Hf]. cbn [flush_all].
  destruct (flush_visible_spec (bounds <$> ws) (title_rect w) s (proj1 (title_wf w Hw)) (bounds_all_wf ws Hws) F1 H1 H2) as (s1 & -> & P1 & Q1). cbn [mbind option_bind].
  destruct (flush_visible_spec (bounds <$> ws) (content_rect w) s1 (proj1 (content_wf w Hw)) (bounds_all_wf ws Hws) F2) as (s2 & -> & P2 & Q2);
    [by rewrite (paints_length _ _ _ _ P1)|by rewrite (paints_length _ _ _ _ Q1)|]. cbn [mbind option_bind].
  destruct (IH s2 Hf) as (s3 & -> & P3 & Q3);
    [by rewrite (paints_length _ _ _ _ P2), (paints_length _ _ _ _ P1)|by rewrite (paints_length _ _ _ _ Q2), (paints_length _ _ _ _ Q1)|].
  exists s3. split; [done|].
  split; [refine (paints_ext _ _ _ _ _ _ (paints_trans _ _ _ _ _ _ P1 (paints_trans _ _ _ _ _ _ P2 P3)))|
          refine (paints_ext _ _ _ _ _ _ (paints_trans _ _ _ _ _ _ Q1 (paints_trans _ _ _ _ _ _ Q2 Q3)))];
    intros p _ _; unfold over, uncovered; cbn [fmap list_fmap clearb forallb]; fold (clearb (bounds <$> ws) p); rewrite (coversb_bounds w p Hw);
    destruct (coversb (title_rect w) p), (coversb (content_rect w) p), (coversb (screen_rect W H) p), (clearb (bounds <$> ws) p); done.
Qed.
End flush.

(** With at most three windows every piece is kept. *)
Lemma few_fit occs t : (length occs <= 2)%nat -> Forall rect_wf occs -> rect_wf t -> fits occs [t] = true.
Proof.
  intros Hl Ho Ht. destruct occs as [|o1 [|o2 [|]]]; [done| | |cbn in Hl; lia].
  - apply Forall_cons in Ho as [H1 _]. pose proof (two_occluders_fit t o1 o1 Ht H1 H1) as Hf. cbn [fits] in *.
    destruct (is_empty o1); [done|]. apply andb_true_iff in Hf as [-> _]. done.
  - apply Forall_cons in Ho as [H1 [H2 _]%Forall_cons]. by apply two_occluders_fit.
Qed.

Lemma few_windows_fit clip ws : rect_wf clip -> Forall window_ok ws -> (length ws <= 3)%nat -> scene_fits clip ws = true /\ flush_fits ws = true.
Proof.
  intros Hc Hws. induction Hws as [|w ws Hw Hws IH]; intros Hl; [done|]. cbn [length] in Hl. cbn [scene_fits flush_fits].
  destruct (IH ltac:(lia)) as [-> ->]. pose proof (bounds_all_wf ws Hws) as Hb. destruct (title_wf w Hw) as [Ht _], (content_wf w Hw) as [Hcw _].
  rewrite !(few_fit (bounds <$> ws)) by (done || (rewrite length_fmap; lia)). unfold blit_fits. fold (title_rect w). fold (content_rect w).
  pose proof (intersect_spec _ _ Ht Hc) as I1. pose proof (intersect_spec _ _ Hcw Hc) as I2.
  destruct (intersect (title_rect w) clip) as [t1|], (intersect (content_rect w) clip) as [t2|];
    rewrite ?few_fit by (done || (rewrite length_fmap; lia) || apply I1 || apply I2); done.
Qed.

(** ** The cursor over the frontbuffer *)

Definition cursor_pixel (cx cy : Z) (f : point -> option Z) (p : point) : option Z :=
  c ← f p; row ← CURSOR_SPRITE !! Z.to_nat (p.2 - cy); code ← row !! Z.to_nat (p.1 - cx); Some (sprite_over code c).

(** An image with the cursor at [(cx, cy)]. *)
Definition with_cursor (cx cy : Z) (f : point -> option Z) (p : point) : option Z :=
  if coversb (cursor_rect cx cy) p then cursor_pixel cx cy f p else f p.

Lemma sprite_row k : 0 <= k < CURSOR_H -> exists row, CURSOR_SPRITE !! Z.to_nat k = Some row /\ length row = Z.to_nat CURSOR_W.
Proof.
  intros Hk. assert (Forall (fun row => length row = Z.to_nat CURSOR_W) CURSOR_SPRITE) as Hr by (repeat constructor).
  destruct (lookup_lt_is_Some_2 CURSOR_SPRITE (Z.to_nat k)) as [row Hrow]; [unfold CURSOR_H in Hk; cbn; lia|].
  exists row. split; [done|]. exact (proj1 (Forall_lookup _ _) Hr _ _ Hrow).
Qed.

Section cursor.
Variables (W H ppsl : Z) (fb : pixels).
Hypothesis screen : screen_ok W H.
Hypothesis stride : W <= ppsl.
Hypothesis dims : W < 2 ^ 29 /\ H < 2 ^ 29.
Hypothesis fb_full : Z.of_nat (length fb) = W * H.

Lemma draw_cursor_row_spec cx cy disp row : 0 <= cx < W -> 0 <= cy < H -> 0 <= row < CURSOR_H -> length disp = Z.to_nat (ppsl * H) ->
  exists disp', draw_cursor_row ppsl W H cx cy fb disp row = Some disp' /\
    paints ppsl (over (fun p => box cx (cx + CURSOR_W) (cy + row) (cy + row + 1) p && coversb (screen_rect W H) p)
      (cursor_pixel cx cy (pix W fb))) disp disp'.
Proof using screen stride dims fb_full.
  intros Hcx Hcy Hrow Hd. unfold CURSOR_H in Hrow. destruct (screen_small _ _ screen). destruct screen as (? & ? & ?).
  unfold draw_cursor_row, CURSOR_W. rewrite (signed_in (cy + row)) by (unfold i32_min, i32_max; lia).
  rewrite (wrap_small 32 (cy + row)) by (red; lia). rewrite (proj2 (Z.ltb_ge (cy + row) 0)) by lia.
  cbn [orb]. destruct (Z.leb_spec H (cy + row)) as [Hout|Hin].
  { exists disp. split; [done|]. refine (paints_ext _ _ _ _ _ _ (paints_id _ _)). intros p _ _. unfold over.
    destruct (_ && _) eqn:E; [|done]. apply andb_true_iff in E as [E1%box_spec E2%coversb_spec]. unfold covers in E2. cbn in E2. lia. }
  rewrite (Z.max_l cx 0), (signed_in (cx + 12)), (signed_in W) by (unfold i32_min, i32_max; lia). unfold clamp. rewrite (proj2 (Z.ltb_ge W 0)) by lia. cbn [mbind option_bind].
  set (x_end := Z.max 0 (Z.min (cx + 12) W)). assert (x_end = Z.min (cx + 12) W) as Hxe by lia. clearbody x_end.
  rewrite (proj2 (Z.leb_gt x_end cx)), (proj2 (Z.ltb_ge 12 (x_end - cx))) by lia.
  destruct (row_small W H (cy + row) screen ltac:(lia)). rewrite (wrap_small 32) by (red; lia).
  unfold rslice. rewrite decide_True by lia. cbn [mbind option_bind].
  destruct (sprite_row row ltac:(unfold CURSOR_H; lia)) as (sr & Hsr & Hsl). rewrite Hsr. cbn [mbind option_bind].
  set (line := take _ _). assert (length line = Z.to_nat (x_end - cx)) as Hline by (unfold line; rewrite length_take, length_drop; lia).
  assert (length (cursor_line sr (cx - cx) line) = Z.to_nat (x_end - cx)) as Hcl by (unfold cursor_line; by rewrite length_imap).
  unfold put_fb_scanline_fast. rewrite (proj2 (Nat.eqb_neq _ _)) by lia.
  assert ((cy + row + 1) * ppsl <= H * ppsl) by (apply Z.mul_le_mono_nonneg_r; lia). assert (0 <= (cy + row) * ppsl) by nia.
  destruct (wslice_row ppsl cx x_end (cy + row) (cursor_line sr (cx - cx) line) disp) as (disp' & -> & P); [lia..|].
  exists disp'. split; [done|]. refine (paints_ext _ _ _ _ _ _ P). intros p _ _. unfold over.
  rewrite (bool_iff (box cx (cx + 12) (cy + row) (cy + row + 1) p && coversb (screen_rect W H) p) (box cx x_end (cy + row) (cy + row + 1) p)).
  2:{ rewrite andb_true_iff, !box_spec, coversb_spec. unfold covers. cbn [x y width height screen_rect]. lia. }
  destruct (box _ _ _ _ p) eqn:E; [|done]. apply box_spec in E. unfold cursor_line, cursor_pixel. rewrite list_lookup_imap.
  assert (p.2 = cy + row) as Hp2 by lia. rewrite Hp2. replace (cy + row - cy) with row by lia. rewrite Hsr. unfold line.
  rewrite lookup_take_lt, lookup_drop by lia. unfold pix, idx. rewrite Hp2.
  replace (Z.to_nat ((cy + row) * W + cx) + Z.to_nat (p.1 - cx))%nat with (Z.to_nat ((cy + row) * W + p.1)) by lia.
  destruct (fb !! _) as [c|]; [|done]. cbn [fmap option_fmap option_map mbind option_bind].
  replace (Z.to_nat (cx - cx + Z.of_nat (Z.to_nat (p.1 - cx)))) with (Z.to_nat (p.1 - cx)) by lia.
  destruct (lookup_lt_is_Some_2 sr (Z.to_nat (p.1 - cx))) as [code ->]; [unfold CURSOR_W in Hsl; lia|]. done.
Qed.

Lemma cursor_rows_spec cx cy disp : 0 <= cx < W -> 0 <= cy < H -> length disp = Z.to_nat (ppsl * H) ->
  exists disp', foldM (draw_cursor_row ppsl W H cx cy fb) disp (range 0 CURSOR_H) = Some disp' /\
    paints ppsl (over (fun p => coversb (cursor_rect cx cy) p && coversb (screen_rect W H) p) (cursor_pixel cx cy (pix W fb))) disp disp'.
Proof using screen stride dims fb_full.
  intros Hcx Hcy Hd.
  destruct (foldM_paints ppsl (draw_cursor_row ppsl W H cx cy fb)
    (fun row => over (fun p => box cx (cx + CURSOR_W) (cy + row) (cy + row + 1) p && coversb (screen_rect W H) p) (cursor_pixel cx cy (pix W fb)))
    (range 0 CURSOR_H) disp _ Hd) as (disp' & -> & P).
  { intros d row Hrow%elem_of_range L. by apply draw_cursor_row_spec. }
  exists disp'. split; [done|]. refine (paints_ext _ _ _ _ _ _ P). intros p _ _. rewrite layers_over. unfold over. cbn beta.
  rewrite (bool_iff (existsb _ _) (coversb (cursor_rect cx cy) p && coversb (screen_rect W H) p)); [done|].
  rewrite existsb_exists. split.
  - intros (r & Hr & [B1%box_spec B2]%andb_true_iff). apply list_elem_of_In, elem_of_range in Hr. rewrite B2, andb_true_r, coversb_spec.
    unfold covers. cbn [x y width height cursor_rect]. lia.
  - intros [Hc%coversb_spec Hs]%andb_true_iff. unfold covers in Hc. cbn [x y width height cursor_rect] in Hc. exists (p.2 - cy).
    split; [apply list_elem_of_In, elem_of_range; lia|]. rewrite Hs, andb_true_r, box_spec. lia.
Qed.
End cursor.

(** ** The state of the compositor *)

Record bufs_ready (ppsl W H : Z) (s : bufs) : Prop := {
  br_back : exists bb, BACKBUFFER s = Some bb /\ Z.of_nat (length bb) = W * H;
  br_front : exists fb, FRONTBUFFER s = Some fb /\ Z.of_nat (length fb) = W * H;
  br_width : BACKBUFFER_WIDTH s = W;
  br_height : BACKBUFFER_HEIGHT s = H;
  br_display : Z.of_nat (length (DISPLAY s)) = ppsl * H }.

Record screen_setup (ppsl W H : Z) : Prop := {
  ss_screen : screen_ok W H;
  ss_stride : W <= ppsl;
  ss_dims : W < 2 ^ 29 /\ H < 2 ^ 29 }.

Record gui_ok (ppsl W H : Z) (g : gui) : Prop := {
  gok_setup : screen_setup ppsl W H;
  gok_bufs : bufs_ready ppsl W H (BUFS g);
  gok_windows : Forall window_ok (WINDOWS g);
  gok_text : text_ok (TEXT g);
  gok_cursor : 0 <= CURSOR_X g < W /\ 0 <= CURSOR_Y g < H }.

(** What the frontbuffer and the display hold at a point. *)
Definition front (W : Z) (s : bufs) (p : point) : option Z := fb ← FRONTBUFFER s; pix W fb p.
Definition display (ppsl : Z) (s : bufs) (p : point) : option Z := pix ppsl (DISPLAY s) p.

Definition on (W H : Z) (p : point) : Prop := 0 <= p.1 < W /\ 0 <= p.2 < H.

(** The display shows the frontbuffer with the cursor where it is. *)
Definition display_ok (ppsl W H : Z) (g : gui) : Prop :=
  forall p, on W H p -> display ppsl (BUFS g) p = with_cursor (CURSOR_X g) (CURSOR_Y g) (front W (BUFS g)) p.

Lemma on_screen_rect W H p : on W H p -> coversb (screen_rect W H) p = true.
Proof. intros [? ?]. rewrite coversb_spec. unfold covers. cbn [x y width height screen_rect]. lia. Qed.

Lemma ensure_ready ppsl W H s : bufs_ready ppsl W H s -> ensure_buffers W H s = s.
Proof.
  intros [(bb & Hb & _) (fb & Hf & _) Hw Hh _]. unfold ensure_buffers. rewrite Hb, Hf, Hw, Hh, !Z.eqb_refl. done.
Qed.

Lemma setup_pos ppsl W H : screen_setup ppsl W H -> 0 <= W * H /\ 0 <= ppsl * H /\ 0 < W /\ 0 < H.
Proof. intros [(? & ? & ?) ? ?]. nia. Qed.

(** A display painted by a layer, seen on the screen. *)
Lemma paints_on w W H g d d' p : paints w g d d' -> W <= w -> on W H p -> pix w d' p = g p (pix w d p).
Proof. intros Hp Hw [? ?]. apply (paints_pix _ _ _ _ Hp); lia. Qed.

Lemma draw_cursor_at_spec ppsl W H cx cy s : screen_setup ppsl W H -> bufs_ready ppsl W H s -> 0 <= cx < W -> 0 <= cy < H ->
  exists s', draw_cursor_at ppsl W H cx cy s = Some s' /\ bufs_ready ppsl W H s' /\
    BACKBUFFER s' = BACKBUFFER s /\ FRONTBUFFER s' = FRONTBUFFER s /\
    (forall p, on W H p -> display ppsl s' p = if coversb (cursor_rect cx cy) p then cursor_pixel cx cy (front W s) p else display ppsl s p).
Proof.
  intros Hs Hr Hcx Hcy. destruct (setup_pos _ _ _ Hs) as (? & ? & ? & ?). unfold draw_cursor_at. rewrite (ensure_ready _ _ _ _ Hr).
  destruct (br_front _ _ _ _ Hr) as (fb & Hf & Hl). pose proof (br_display _ _ _ _ Hr). rewrite Hf. cbn [mbind option_bind].
  destruct (cursor_rows_spec W H ppsl fb (ss_screen _ _ _ Hs) (ss_stride _ _ _ Hs) (ss_dims _ _ _ Hs) Hl cx cy (DISPLAY s) Hcx Hcy ltac:(lia)) as (disp & -> & P).
  cbn [mbind option_bind]. eexists. split; [done|]. pose proof (paints_length _ _ _ _ P).
  split_and!; [destruct Hr; split; cbn; try done; [by exists fb|lia]|done|done|].
  intros p Hp. unfold display, front. cbn [DISPLAY]. rewrite (paints_on _ _ _ _ _ _ p P (ss_stride _ _ _ Hs) Hp). unfold over.
  rewrite (on_screen_rect _ _ _ Hp), andb_true_r, Hf. done.
Qed.

Lemma draw_cursor_spec ppsl W H g : gui_ok ppsl W H g ->
  exists g', draw_cursor ppsl W H g = Some g' /\ gui_ok ppsl W H g' /\ g' = set_bufs (BUFS g') g /\ front W (BUFS g') = front W (BUFS g) /\
    (forall p, on W H p -> display ppsl (BUFS g') p =
       if coversb (cursor_rect (CURSOR_X g) (CURSOR_Y g)) p then cursor_pixel (CURSOR_X g) (CURSOR_Y g) (front W (BUFS g)) p else display ppsl (BUFS g) p).
Proof.
  intros [Hs Hb Hw Ht [Hx Hy]]. unfold draw_cursor.
  destruct (draw_cursor_at_spec ppsl W H (CURSOR_X g) (CURSOR_Y g) (BUFS g) Hs Hb Hx Hy) as (s & -> & Hr & _ & Hf & Hd). cbn [mbind option_bind].
  eexists. split; [done|]. split_and!; [by split|done|unfold front; cbn; by rewrite Hf|done].
Qed.

(** Composing and flushing every window. *)
Lemma windows_to_display ppsl W H ws s : screen_setup ppsl W H -> bufs_ready ppsl W H s -> Forall window_ok ws -> (length ws <= 16)%nat ->
  scene_fits (screen_rect W H) ws = true -> flush_fits ws = true ->
  exists bb bb' fb fb' disp', BACKBUFFER s = Some bb /\ FRONTBUFFER s = Some fb /\
    foldM (compose_window W H (mkRect 0 0 W H) ws) bb (seq 0 (length ws)) = Some bb' /\
    foldM (flush_window ppsl W H bb' ws) (fb, DISPLAY s) (seq 0 (length ws)) = Some (fb', disp') /\
    bufs_ready ppsl W H (mkBufs (Some bb') (Some fb') W H disp') /\
    (forall p, on W H p -> pix W fb' p = painter ws p (pix W fb p) /\ pix ppsl disp' p = painter ws p (pix ppsl (DISPLAY s) p)).
Proof.
  intros Hs Hr Hws Hl Hf1 Hf2. destruct (setup_pos _ _ _ Hs) as (? & ? & ? & ?). destruct Hs as [Hsc Hst Hdm].
  destruct Hr as [(bb & Hbb & Lb) (fb & Hfb & Lf) Hw Hh Ld]. exists bb.
  destruct (compose_all_spec W H Hsc (screen_rect W H) ws bb (screen_rect_wf _ _ Hsc) Hws Lb Hf1) as (bb' & E1 & P1). exists bb', fb.
  pose proof (paints_length _ _ _ _ P1).
  destruct (flush_all_spec W H ppsl bb' Hsc Hst ltac:(lia) ws (fb, DISPLAY s) Hws Hf2 ltac:(cbn; lia) ltac:(cbn; lia)) as ([fb' disp'] & E2 & P2 & P3).
  cbn [fst snd] in P2, P3. exists fb', disp'. pose proof (paints_length _ _ _ _ P2). pose proof (paints_length _ _ _ _ P3).
  split_and!; [done|done|by rewrite compose_all_eq|by rewrite flush_all_eq|split; cbn; eauto; [exists bb'|exists fb'|]; (split; [done|lia]) || lia|].
  intros p Hp. rewrite (paints_on _ W H _ _ _ p P2 ltac:(lia) Hp), (paints_on _ W H _ _ _ p P3 Hst Hp). unfold over.
  rewrite (on_screen_rect _ _ _ Hp). cbn [andb]. destruct (uncovered ws p) eqn:U; cbn [negb]; [by rewrite !painter_uncovered|].
  rewrite (paints_on _ W H _ _ _ p P1 ltac:(lia) Hp). unfold clipped. rewrite (on_screen_rect _ _ _ Hp). cbn [andb].
  split; by apply painter_covered.
Qed.

(** C24. The compositor equals the painter's algorithm.  With at most sixteen windows,
    none cut into more than 32 pieces, [present] always returns and writes nothing
    outside the display; afterwards the frontbuffer holds what painting the whole
    windows from the lowest to the highest over it would give, and the display
    holds the same outside the cursor, and the cursor over it. *)
Theorem present_exact ppsl W H g : gui_ok ppsl W H g -> (length (WINDOWS g) <= 16)%nat ->
  scene_fits (screen_rect W H) (WINDOWS g) = true -> flush_fits (WINDOWS g) = true ->
  exists g', present ppsl W H g = Some g' /\ gui_ok ppsl W H g' /\ WINDOWS g' = WINDOWS g /\
    (forall p, on W H p ->
       front W (BUFS g') p = painter (WINDOWS g) p (front W (BUFS g) p) /\
       display ppsl (BUFS g') p = if coversb (cursor_rect (CURSOR_X g) (CURSOR_Y g)) p then cursor_pixel (CURSOR_X g) (CURSOR_Y g) (front W (BUFS g')) p
         else painter (WINDOWS g) p (display ppsl (BUFS g) p)) /\
    (display_ok ppsl W H g -> display_ok ppsl W H g').
Proof.
  intros Hg Hl Hf1 Hf2. pose proof Hg as [Hs Hb Hw Ht Hc].
  destruct (windows_to_display ppsl W H (WINDOWS g) (BUFS g) Hs Hb Hw Hl Hf1 Hf2) as (bb & bb' & fb & fb' & disp' & Ebb & Efb & E1 & E2 & Hr & Hp).
  unfold present. rewrite (ensure_ready _ _ _ _ Hb), Ebb, Efb. cbn [mbind option_bind]. rewrite E1. cbn [mbind option_bind]. rewrite E2. cbn [mbind option_bind].
  rewrite (br_width _ _ _ _ Hb), (br_height _ _ _ _ Hb).
  set (g1 := set_bufs _ g). assert (gui_ok ppsl W H g1) as Hg1 by by split.
  destruct (draw_cursor_spec ppsl W H g1 Hg1) as (g2 & -> & Hg2 & Hset & Hfr & Hd). cbn [mbind option_bind].
  eexists. split; [done|]. assert (forall p, front W (BUFS g2) p = pix W fb' p) as Hf' by (intros p; rewrite Hfr; done).
  split_and!; [by destruct Hg2|by rewrite Hset| |].
  - intros p Hon. destruct (Hp p Hon) as [F D]. change (BUFS (advance_presentation_fence g2)) with (BUFS g2). rewrite Hf', F. unfold front at 1. rewrite Efb. split; [done|].
    rewrite (Hd p Hon). change (CURSOR_X g1) with (CURSOR_X g). change (CURSOR_Y g1) with (CURSOR_Y g). rewrite Hfr.
    destruct (coversb _ p); [done|]. unfold display. cbn. by rewrite D.
  - intros Hok p Hon. destruct (Hp p Hon) as [F D]. assert (CURSOR_X (advance_presentation_fence g2) = CURSOR_X g /\ CURSOR_Y (advance_presentation_fence g2) = CURSOR_Y g) as [-> ->] by (rewrite Hset; done).
    change (BUFS (advance_presentation_fence g2)) with (BUFS g2). rewrite (Hd p Hon). change (CURSOR_X g1) with (CURSOR_X g). change (CURSOR_Y g1) with (CURSOR_Y g).
    unfold with_cursor. rewrite Hfr. destruct (coversb (cursor_rect (CURSOR_X g) (CURSOR_Y g)) p) eqn:E; [done|].
    unfold display, front. cbn. rewrite F, D. specialize (Hok p Hon). unfold with_cursor in Hok. rewrite E in Hok.
    unfold display, front in Hok. rewrite Efb in Hok. cbn in Hok. by rewrite Hok.
Qed.

(** ** The desktop *)

(** A line of text of the chrome: where, what and in which colour. *)
Abbreviation span := (Z * Z * bytes * Z)%type.

Definition span_layer (W H : Z) (t : text) (bg : Z) (s : span) : layer :=
  let '(tx, ty, txt, fg) := s in over (text_box W H t tx ty (length txt)) (text_image fg bg t tx ty txt).

(** The same font. *)
Definition same_font (t t' : text) : Prop := FONT t' = FONT t /\ GLYPH_RAW_CACHE t' = GLYPH_RAW_CACHE t.

Lemma same_font_trans t1 t2 t3 : same_font t1 t2 -> same_font t2 t3 -> same_font t1 t3.
Proof. intros [? ?] [? ?]. split; congruence. Qed.

Lemma span_layer_ext W H t t' bg s p c : same_font t t' -> span_layer W H t' bg s p c = span_layer W H t bg s p c.
Proof.
  intros [Hf Hc]. destruct s as [[[tx ty] txt] fg]. unfold span_layer, over, text_box, text_image, glyph_height. rewrite Hf.
  destruct (box _ _ _ _ p); [|done]. destruct (txt !! _) as [ch|]; cbn [mbind option_bind]; [by apply glyph_pixel_cache|done].
Qed.

Definition span_ok (s : span) : Prop := 0 <= s.1.1.1 /\ 0 <= s.1.1.2 /\ all_bytes s.1.2.

Lemma draw_span_spec W H bg tx ty txt fg d t : screen_ok W H -> text_ok t -> span_ok (tx, ty, txt, fg) -> length d = Z.to_nat (W * H) ->
  exists d' t', draw_text_to_buffer d W H tx ty txt fg bg t = Some (d', t') /\ text_ok t' /\ same_font t t' /\
    paints W (span_layer W H t bg (tx, ty, txt, fg)) d d'.
Proof.
  intros Hs Ht (Hx & Hy & Hb) Hd. cbn [fst snd] in *.
  destruct (draw_text_to_buffer_spec W H fg bg Hs tx ty txt d t Ht Hb Hx Hy Hd) as (d' & t' & E & Ht' & Hf & Hc & P).
  exists d', t'. done.
Qed.

(** Text inside full rows does not look at what was there. *)
Lemma span_in_rows W H t bg s p c y0 y1 : span_ok s -> y0 <= s.1.1.2 -> Z.min (s.1.1.2 + 16) H <= y1 -> (p.2 < y0 \/ y1 <= p.2) -> span_layer W H t bg s p c = c.
Proof.
  destruct s as [[[tx ty] txt] fg]. unfold span_layer, over, text_box. cbn [fst snd]. intros _ Hy Hy1 Hp.
  destruct (box _ _ _ _ p) eqn:E; [apply box_spec in E; lia|done].
Qed.

(** Rows filled whole. *)
Lemma fill_rows_spec W H c y0 y1 d : screen_ok W H -> 0 <= y0 -> y1 <= H -> length d = Z.to_nat (W * H) ->
  exists d', foldM (fun bb my => fill_row bb (u32 (my * W)) W (c my)) d (range y0 y1) = Some d' /\
    paints W (over (fun p => (y0 <=? p.2) && (p.2 <? y1)) (fun p => Some (c p.2))) d d'.
Proof.
  intros Hs Hy0 Hy1 Hd. destruct (screen_small _ _ Hs).
  destruct (foldM_paints W (fun bb my => fill_row bb (u32 (my * W)) W (c my)) (fun my => over (box 0 W my (my + 1)) (fun p => Some (c p.2)))
    (range y0 y1) d _ Hd) as (d' & -> & P).
  { intros b0 my Hmy%elem_of_range Hb0. destruct (row_small W H my Hs ltac:(lia)). rewrite (wrap_small 32) by (destruct Hs as (? & ? & ?); red; lia).
    destruct (fill_row_spec W 0 W my b0 (c my)) as (b1 & E & P); [destruct Hs; lia..|]. rewrite Z.add_0_r, Z.sub_0_r in E. exists b1. split; [done|].
    refine (paints_ext _ _ _ _ _ _ P). intros p _ _. unfold over. destruct (box _ _ _ _ p) eqn:E'; [|done]. apply box_spec in E'. by assert (p.2 = my) as -> by lia. }
  exists d'. split; [done|]. refine (paints_ext _ _ _ _ _ _ P). intros p Hx _. rewrite layers_rows. unfold over.
  rewrite (bool_iff (box 0 W y0 y1 p) ((y0 <=? p.2) && (p.2 <? y1))); [done|]. rewrite box_spec, andb_true_iff, Z.leb_le, Z.ltb_lt. lia.
Qed.

Definition menu_spans (W : Z) : list span :=
  let badge := b "[RAM: 256MB]  [Ring-3 Microkernel]"%string in
  let badge_x := saturating_sub W (Z.of_nat (length badge) * 8 + 12) in
  [(10, 3, b "AGENTIC OS"%string, 0x38BDF8); (114, 3, b "File   Edit   View   Apps   Help"%string, 0xCBD5E1)] ++
  (if 400 <? badge_x then [(badge_x, 3, badge, 0x38BDF8)] else []).

Definition menu_row (H my : Z) : Z := if (my =? 0) || (my =? Z.min MENU_BAR_HEIGHT H - 1) then MENU_BAR_BORDER_COLOR else MENU_BAR_COLOR.

Definition spans_layer (W H : Z) (t : text) (bg : Z) (l : list span) : layer := layers (span_layer W H t bg) l.

(** The menu bar: its rows, and its text over them. *)
Definition menu_layer (W H : Z) (t : text) : layer := fun p c =>
  if p.2 <? Z.min MENU_BAR_HEIGHT H then spans_layer W H t MENU_BAR_COLOR (menu_spans W) p (Some (menu_row H p.2)) else c.

Lemma b_bytes s : all_bytes (b s).
Proof.
  unfold b. apply Forall_fmap, Forall_forall. intros c _. unfold compose, is_byte. pose proof (Ascii.N_ascii_bounded c). lia.
Qed.

(** The spans of a bar drawn one after the other, the last one if it has room. *)
Lemma draw_bar_spans W H bg s1 s2 s3 (room : bool) d t : screen_ok W H -> text_ok t -> span_ok s1 -> span_ok s2 -> span_ok s3 -> length d = Z.to_nat (W * H) ->
  exists d' t', (r ← draw_text_to_buffer d W H s1.1.1.1 s1.1.1.2 s1.1.2 s1.2 bg t;
                 r ← draw_text_to_buffer r.1 W H s2.1.1.1 s2.1.1.2 s2.1.2 s2.2 bg r.2;
                 if room then draw_text_to_buffer r.1 W H s3.1.1.1 s3.1.1.2 s3.1.2 s3.2 bg r.2 else Some r) = Some (d', t') /\
    text_ok t' /\ same_font t t' /\ paints W (spans_layer W H t bg ([s1; s2] ++ (if room then [s3] else []))) d d'.
Proof.
  destruct s1 as [[[x1 y1] t1] f1], s2 as [[[x2 y2] t2] f2], s3 as [[[x3 y3] t3] f3]. intros Hs Ht O1 O2 O3 Hd. cbn [fst snd].
  destruct (draw_span_spec W H bg x1 y1 t1 f1 d t Hs Ht O1 Hd) as (d1 & u1 & -> & Hu1 & S1 & P1). cbn [mbind option_bind fst snd].
  destruct (draw_span_spec W H bg x2 y2 t2 f2 d1 u1 Hs Hu1 O2) as (d2 & u2 & -> & Hu2 & S2 & P2); [by rewrite (paints_length _ _ _ _ P1)|]. cbn [mbind option_bind fst snd].
  pose proof (same_font_trans _ _ _ S1 S2) as S12. destruct room.
  - destruct (draw_span_spec W H bg x3 y3 t3 f3 d2 u2 Hs Hu2 O3) as (d3 & u3 & -> & Hu3 & S3 & P3);
      [by rewrite (paints_length _ _ _ _ P2), (paints_length _ _ _ _ P1)|].
    exists d3, u3. split_and!; [done|done|exact (same_font_trans _ _ _ S12 S3)|].
    refine (paints_ext _ _ _ _ _ _ (paints_trans _ _ _ _ _ _ P1 (paints_trans _ _ _ _ _ _ P2 P3))). intros p _ _.
    unfold spans_layer, layers. cbn [app foldl]. by rewrite (span_layer_ext W H t u2) by done; rewrite (span_layer_ext W H t u1) by done.
  - exists d2, u2. split_and!; [done..|].
    refine (paints_ext _ _ _ _ _ _ (paints_trans _ _ _ _ _ _ P1 P2)). intros p _ _.
    unfold spans_layer, layers. cbn [app foldl]. by rewrite (span_layer_ext W H t u1) by done.
Qed.

Lemma spans_in_rows W H t bg l p c y0 y1 : Forall (fun s => span_ok s /\ y0 <= s.1.1.2 /\ Z.min (s.1.1.2 + 16) H <= y1) l ->
  (p.2 < y0 \/ y1 <= p.2) -> spans_layer W H t bg l p c = c.
Proof.
  intros Hl Hp. revert c. induction Hl as [|s l (Ho & H0 & H1) _ IH]; intros c; [done|]. unfold spans_layer, layers in *. cbn [foldl].
  rewrite (span_in_rows W H t bg s p c y0 y1) by done. apply IH.
Qed.

Lemma menu_spans_ok W H : Forall (fun s => span_ok s /\ 0 <= s.1.1.2 /\ Z.min (s.1.1.2 + 16) H <= Z.min MENU_BAR_HEIGHT H) (menu_spans W).
Proof.
  unfold menu_spans, MENU_BAR_HEIGHT, saturating_sub.
  assert (forall tx txt fg, 0 <= tx -> all_bytes txt -> (fun s : span => span_ok s /\ 0 <= s.1.1.2 /\ Z.min (s.1.1.2 + 16) H <= Z.min 22 H) (tx, 3, txt, fg)) as Ho.
  { intros tx txt fg Hx Hb. unfold span_ok. cbn [fst snd]. split_and!; try done; lia. }
  apply Forall_app. split; [|destruct (_ <? _)]; repeat apply Forall_cons_2; try apply Forall_nil_2; apply Ho; (apply b_bytes || lia).
Qed.

Lemma draw_menu_bar_spec W H d t : screen_ok W H -> text_ok t -> length d = Z.to_nat (W * H) ->
  exists d' t', draw_menu_bar W H (d, t) = Some (d', t') /\ text_ok t' /\ same_font t t' /\ paints W (menu_layer W H t) d d'.
Proof.
  intros Hs Ht Hd. unfold draw_menu_bar. cbn [fst snd].
  destruct (fill_rows_spec W H (menu_row H) 0 (Z.min MENU_BAR_HEIGHT H) d Hs ltac:(lia) ltac:(lia) Hd) as (d1 & E1 & P1).
  unfold menu_row in E1. rewrite E1. cbn [mbind option_bind].
  set (badge := b "[RAM: 256MB]  [Ring-3 Microkernel]"%string). set (bx := saturating_sub W (Z.of_nat (length badge) * 8 + 12)).
  destruct (draw_bar_spans W H MENU_BAR_COLOR (10, 3, b "AGENTIC OS"%string, 0x38BDF8) (114, 3, b "File   Edit   View   Apps   Help"%string, 0xCBD5E1)
    (bx, 3, badge, 0x38BDF8) (400 <? bx) d1 t Hs Ht) as (d2 & t2 & E2 & Ht2 & S2 & P2);
    [split_and!; cbn [fst snd]; (apply b_bytes || (unfold bx, saturating_sub; lia))..|by rewrite (paints_length _ _ _ _ P1)|].
  cbn [fst snd] in E2. rewrite E2. exists d2, t2. split_and!; [done..|].
  refine (paints_ext _ _ _ _ _ _ (paints_trans _ _ _ _ _ _ P1 P2)). intros p _ Hy. unfold over, menu_layer. rewrite (proj2 (Z.leb_le 0 p.2)) by lia. cbn [andb].
  destruct (Z.ltb_spec p.2 (Z.min MENU_BAR_HEIGHT H)) as [Hin|Hout]; [done|].
  exact (spans_in_rows W H t MENU_BAR_COLOR (menu_spans W) p _ 0 _ (menu_spans_ok W H) (or_intror Hout)).
Qed.

Definition status_spans (W H : Z) : list span :=
  let footer_y := saturating_sub H 20 in
  let tip := b "Tip: Click window to focus | Drag title bar to move | Ctrl+Alt+G release mouse"%string in
  let tip_x := saturating_sub W (Z.of_nat (length tip) * 8) / 2 in
  let fps := b "60 FPS"%string in
  let fps_x := saturating_sub W (Z.of_nat (length fps) * 8 + 12) in
  [(10, footer_y + 2, b "Ready"%string, 0x34D399); (tip_x, footer_y + 2, tip, 0x94A3B8)] ++
  (if u32 (tip_x + Z.of_nat (length tip) * 8 + 20) <? fps_x then [(fps_x, footer_y + 2, fps, 0x38BDF8)] else []).

Definition status_row (H fy : Z) : Z := if fy =? saturating_sub H 20 then STATUS_BAR_BORDER_COLOR else STATUS_BAR_BG_COLOR.

(** The status bar, on screens high enough to have one. *)
Definition status_layer (W H : Z) (t : text) : layer := fun p c =>
  if has_footer H && (saturating_sub H 20 <=? p.2) && (p.2 <? H)
  then spans_layer W H t STATUS_BAR_BG_COLOR (status_spans W H) p (Some (status_row H p.2)) else c.

Lemma status_spans_ok W H : Forall (fun s => span_ok s /\ saturating_sub H 20 <= s.1.1.2 /\ Z.min (s.1.1.2 + 16) H <= H) (status_spans W H).
Proof.
  unfold status_spans, saturating_sub.
  assert (forall tx txt fg, 0 <= tx -> all_bytes txt ->
    (fun s : span => span_ok s /\ Z.max 0 (H - 20) <= s.1.1.2 /\ Z.min (s.1.1.2 + 16) H <= H) (tx, Z.max 0 (H - 20) + 2, txt, fg)) as Ho.
  { intros tx txt fg Hx Hb. unfold span_ok. cbn [fst snd]. split_and!; try done; lia. }
  apply Forall_app. split; [|destruct (_ <? _)]; repeat apply Forall_cons_2; try apply Forall_nil_2; apply Ho; (apply b_bytes || (apply Z.div_pos; lia) || lia).
Qed.

Lemma draw_status_spec W H d t : screen_ok W H -> text_ok t -> length d = Z.to_nat (W * H) ->
  exists d' t', draw_bottom_status_bar W H (d, t) = Some (d', t') /\ text_ok t' /\ same_font t t' /\ paints W (status_layer W H t) d d'.
Proof.
  intros Hs Ht Hd. unfold draw_bottom_status_bar, status_layer. cbn [fst snd].
  destruct (Z.leb_spec (saturating_sub H 20) (MENU_BAR_HEIGHT + 50)) as [Hno|Hyes].
  { exists d, t. split_and!; try done. refine (paints_ext _ _ _ _ _ _ (paints_id _ _)). intros p _ _.
    unfold has_footer. by rewrite (proj2 (Z.ltb_ge _ _)) by lia. }
  assert (has_footer H = true) as Hfoot by (unfold has_footer; apply Z.ltb_lt; lia).
  destruct (fill_rows_spec W H (status_row H) (saturating_sub H 20) H d Hs ltac:(unfold saturating_sub; lia) ltac:(lia) Hd) as (d1 & E1 & P1).
  unfold status_row in E1. rewrite E1. cbn [mbind option_bind].
  set (fy := saturating_sub H 20) in *. assert (0 <= fy) by (unfold fy, saturating_sub; lia).
  set (tip := b "Tip: Click window to focus | Drag title bar to move | Ctrl+Alt+G release mouse"%string).
  set (tx := saturating_sub W (Z.of_nat (length tip) * 8) / 2). set (fps := b "60 FPS"%string). set (fx := saturating_sub W (Z.of_nat (length fps) * 8 + 12)).
  assert (0 <= tx) by (apply Z.div_pos; unfold saturating_sub; lia). assert (0 <= fx) by (unfold fx, saturating_sub; lia).
  destruct (draw_bar_spans W H STATUS_BAR_BG_COLOR (10, fy + 2, b "Ready"%string, 0x34D399) (tx, fy + 2, tip, 0x94A3B8)
    (fx, fy + 2, fps, 0x38BDF8) (u32 (tx + Z.of_nat (length tip) * 8 + 20) <? fx) d1 t Hs Ht) as (d2 & t2 & E2 & Ht2 & S2 & P2);
    [split_and!; cbn [fst snd]; (apply b_bytes || lia)..|by rewrite (paints_length _ _ _ _ P1)|].
  cbn [fst snd] in E2. rewrite E2. exists d2, t2. split_and!; [done..|].
  refine (paints_ext _ _ _ _ _ _ (paints_trans _ _ _ _ _ _ P1 P2)). intros p _ Hy. unfold over. rewrite Hfoot. cbn [andb].
  destruct ((fy <=? p.2) && (p.2 <? H)) eqn:E; [done|].
  apply (spans_in_rows W H t STATUS_BAR_BG_COLOR (status_spans W H) p _ fy H (status_spans_ok W H)).
  apply andb_false_iff in E as [E|E]; bool_to_prop; lia.
Qed.

(** The desktop with its bars, behind the windows. *)
Definition desktop (W H : Z) (t : text) (p : point) : option Z :=
  status_layer W H t p (menu_layer W H t p (Some (background H p.2))).

Lemma same_font_refl t : same_font t t.
Proof. done. Qed.

Lemma menu_layer_ext W H t t' p c : same_font t t' -> menu_layer W H t' p c = menu_layer W H t p c.
Proof.
  intros Hs. unfold menu_layer, spans_layer, layers. destruct (_ <? _); [|done]. generalize (Some (menu_row H p.2)) as c0.
  induction (menu_spans W) as [|s l IH]; intros c0; [done|]. cbn [foldl]. by rewrite (span_layer_ext W H t t') by done.
Qed.

Lemma status_layer_ext W H t t' p c : same_font t t' -> status_layer W H t' p c = status_layer W H t p c.
Proof.
  intros Hs. unfold status_layer, spans_layer, layers. destruct (_ && _); [|done]. generalize (Some (status_row H p.2)) as c0.
  induction (status_spans W H) as [|s l IH]; intros c0; [done|]. cbn [foldl]. by rewrite (span_layer_ext W H t t') by done.
Qed.

(** The bars of the desktop are drawn when the rectangle reaches them; either way
    the pixels inside it come out as the desktop's. *)
Lemma redraw_bars W H rx0 ry0 rx1 ry1 d t : screen_ok W H -> text_ok t -> length d = Z.to_nat (W * H) ->
  0 <= rx0 < rx1 -> rx1 <= W -> 0 <= ry0 -> ry1 <= H ->
  exists d1 d2 d3 t2 t3,
    foldM (fun bb py => fill_row bb (u32 (py * W + rx0)) (rx1 - rx0) (background H py)) d (range ry0 ry1) = Some d1 /\
    (if ry0 <? MENU_BAR_HEIGHT then draw_menu_bar W H (d1, t) else Some (d1, t)) = Some (d2, t2) /\
    (if (saturating_sub H 20 <? ry1) && has_footer H then draw_bottom_status_bar W H (d2, t2) else Some (d2, t2)) = Some (d3, t3) /\
    length d3 = Z.to_nat (W * H) /\ text_ok t3 /\ same_font t t3 /\
    (forall p, rx0 <= p.1 < rx1 -> ry0 <= p.2 < ry1 -> pix W d3 p = desktop W H t p).
Proof.
  intros Hs Ht Hd Hx0 Hx1 Hy0 Hy1. destruct (screen_small _ _ Hs).
  destruct (foldM_paints W (fun bb py => fill_row bb (u32 (py * W + rx0)) (rx1 - rx0) (background H py))
    (fun py => over (box rx0 rx1 py (py + 1)) (fun p => Some (background H p.2))) (range ry0 ry1) d _ Hd) as (d1 & E1 & P1).
  { intros b0 py Hpy%elem_of_range Hb0. destruct (row_small W H py Hs ltac:(lia)). destruct Hs as (? & ? & ?). rewrite (wrap_small 32) by (red; lia).
    destruct (fill_row_spec W rx0 rx1 py b0 (background H py)) as (b1 & -> & P); [lia..|]. exists b1. split; [done|].
    refine (paints_ext _ _ _ _ _ _ P). intros p _ _. unfold over. destruct (box _ _ _ _ p) eqn:E'; [|done]. apply box_spec in E'. by assert (p.2 = py) as -> by lia. }
  assert (forall p, rx0 <= p.1 < rx1 -> ry0 <= p.2 < ry1 -> pix W d1 p = Some (background H p.2)) as Q1.
  { intros p Hpx Hpy. rewrite (paints_pix _ _ _ _ P1) by lia. rewrite layers_rows. unfold over. rewrite (proj2 (box_spec _ _ _ _ _)) by lia. done. }
  pose proof (paints_length _ _ _ _ P1) as L1.
  assert (exists d2 t2, (if ry0 <? MENU_BAR_HEIGHT then draw_menu_bar W H (d1, t) else Some (d1, t)) = Some (d2, t2) /\ text_ok t2 /\ same_font t t2 /\
    length d2 = length d1 /\ (forall p, rx0 <= p.1 < rx1 -> ry0 <= p.2 < ry1 -> pix W d2 p = menu_layer W H t p (Some (background H p.2)))) as (d2 & t2 & E2 & Ht2 & S2 & L2 & Q2).
  { destruct (Z.ltb_spec ry0 MENU_BAR_HEIGHT).
    - destruct (draw_menu_bar_spec W H d1 t Hs Ht ltac:(lia)) as (d2 & t2 & -> & ? & ? & P2). exists d2, t2. split_and!; [done..|by rewrite (paints_length _ _ _ _ P2)|].
      intros p Hpx Hpy. by rewrite (paints_pix _ _ _ _ P2), Q1 by lia.
    - exists d1, t. split_and!; [done..|]. intros p Hpx Hpy. rewrite Q1 by done. unfold menu_layer. by rewrite (proj2 (Z.ltb_ge _ _)) by lia. }
  destruct ((saturating_sub H 20 <? ry1) && has_footer H) eqn:Ef.
  - destruct (draw_status_spec W H d2 t2 Hs Ht2 ltac:(lia)) as (d3 & t3 & E3 & Ht3 & S3 & P3). exists d1, d2, d3, t2, t3.
    split_and!; [done|done|done|rewrite (paints_length _ _ _ _ P3); lia|done|exact (same_font_trans _ _ _ S2 S3)|].
    intros p Hpx Hpy. rewrite (paints_pix _ _ _ _ P3), Q2, (status_layer_ext W H t t2) by (done || lia). done.
  - exists d1, d2, d2, t2, t2. split_and!; [done..|lia|done|done|]. intros p Hpx Hpy. rewrite Q2 by done. unfold desktop, status_layer.
    destruct (has_footer H); [|done]. cbn [andb]. rewrite andb_true_r in Ef. bool_to_prop. by rewrite (proj2 (Z.leb_gt _ _)) by lia.
Qed.

(** Redrawing is exact.  [redraw_rect] of any rectangle returns, for at most sixteen
    windows, and changes the frontbuffer and the display inside the rectangle only:
    there they hold the desktop with its bars and the windows painted over it from
    the lowest to the highest. *)
Theorem redraw_rect_exact ppsl W H rx ry rw rh g : gui_ok ppsl W H g -> rect_wf (mkRect rx ry rw rh) -> (length (WINDOWS g) <= 16)%nat ->
  (forall clip, rect_wf clip -> scene_fits clip (WINDOWS g) = true) ->
  exists g', redraw_rect ppsl W H rx ry rw rh g = Some g' /\ gui_ok ppsl W H g' /\ same_font (TEXT g) (TEXT g') /\ g' = set_text (TEXT g') (set_bufs (BUFS g') g) /\
    (forall p, on W H p ->
       front W (BUFS g') p = (if coversb (mkRect rx ry rw rh) p then painter (WINDOWS g) p (desktop W H (TEXT g) p) else front W (BUFS g) p) /\
       display ppsl (BUFS g') p = (if coversb (mkRect rx ry rw rh) p then front W (BUFS g') p else display ppsl (BUFS g) p)).
Proof.
  intros Hg Hwf Hl Hfit. pose proof Hg as [Hs Hb Hw Ht Hc]. pose proof Hs as [Hsc Hst [Hd1 Hd2]]. pose proof Hwf as (? & ? & ? & ? & ? & ?). cbn [x y width height] in *.
  unfold redraw_rect. destruct (setup_pos _ _ _ Hs) as (? & ? & ? & ?). rewrite !(signed_in rw), !(signed_in rh), !signed_in by (unfold i32_min, i32_max in *; lia).
  set (rx0 := Z.max rx 0). set (ry0 := Z.max ry 0). set (rx1 := Z.min (rx + rw) W). set (ry1 := Z.min (ry + rh) H).
  assert (forall p, on W H p -> coversb (mkRect rx ry rw rh) p = box rx0 rx1 ry0 ry1 p) as Hbox.
  { intros p [? ?]. apply bool_iff. rewrite coversb_spec, box_spec. unfold covers. cbn [x y width height]. lia. }
  destruct (_ || _) eqn:E.
  { exists g. split_and!; [done..|by destruct g|]. intros p Hp. rewrite (Hbox p Hp). destruct (box _ _ _ _ p) eqn:B; [|done].
    apply box_spec in B. apply orb_true_iff in E as [E|E]; bool_to_prop; lia. }
  bool_to_prop. rewrite (ensure_ready _ _ _ _ Hb). destruct Hb as [(bb & Ebb & Lb) (fb & Efb & Lf) Ew Eh Ld]. rewrite Ebb, Efb. cbn [mbind option_bind].
  destruct (redraw_bars W H rx0 ry0 rx1 ry1 bb (TEXT g) Hsc Ht) as (d1 & d2 & d3 & t2 & t3 & E1 & E2 & E3 & L3 & Ht3 & S3 & Hpix); [lia..|].
  rewrite E1. cbn [mbind option_bind]. rewrite E2. cbn [mbind option_bind]. rewrite E3. cbn [mbind option_bind]. rewrite compose_all_eq by done.
  set (tgt := mkRect rx0 ry0 (rx1 - rx0) (ry1 - ry0)). assert (rect_wf tgt) as Htgt by (unfold rect_wf, tgt, i32_min, i32_max in *; cbn [x y width height]; lia).
  destruct (compose_all_spec W H Hsc tgt (WINDOWS g) d3 Htgt Hw ltac:(lia) (Hfit tgt Htgt)) as (d4 & -> & P4). cbn [mbind option_bind].
  pose proof (paints_length _ _ _ _ P4).
  destruct (present_rect_spec W H ppsl Hsc Hst d4 fb (DISPLAY (BUFS g)) tgt Htgt ltac:(lia) Lf Ld) as (fb' & disp' & n & -> & P5 & P6). cbn [mbind option_bind].
  pose proof (paints_length _ _ _ _ P5). pose proof (paints_length _ _ _ _ P6). rewrite Ew, Eh. eexists. split; [done|].
  split_and!; [split; try done; cbn; split; cbn; eauto; [exists d4|exists fb'|]; (split; [done|lia]) || lia|done|done|].
  intros p Hp. rewrite (Hbox p Hp). unfold front, display. cbn [BUFS set_text set_bufs FRONTBUFFER DISPLAY mbind option_bind]. rewrite Efb. cbn [mbind option_bind].
  rewrite (paints_on _ W H _ _ _ p P5 ltac:(lia) Hp), (paints_on _ W H _ _ _ p P6 Hst Hp). unfold over. rewrite (on_screen_rect _ _ _ Hp), andb_true_r.
  assert (coversb tgt p = box rx0 rx1 ry0 ry1 p) as Hcov by (apply bool_iff; rewrite coversb_spec, box_spec; unfold covers, tgt; cbn [x y width height]; lia).
  rewrite Hcov. destruct (box rx0 rx1 ry0 ry1 p) eqn:B; [|done]. split; [|done]. rewrite (paints_on _ W H _ _ _ p P4 ltac:(lia) Hp). unfold clipped.
  rewrite Hcov, (on_screen_rect _ _ _ Hp). cbn [andb]. apply box_spec in B. by rewrite Hpix by lia.
Qed.

(** ** Moving the cursor *)

Section vacated.
Variables (W H ppsl : Z) (fb : pixels).
Hypothesis setup : screen_setup ppsl W H.
Hypothesis fb_full : Z.of_nat (length fb) = W * H.

Lemma restore_vacated_spec r disp : rect_wf r -> length disp = Z.to_nat (ppsl * H) ->
  exists disp', restore_vacated ppsl W H fb disp r = Some disp' /\
    paints ppsl (over (fun p => coversb r p && coversb (screen_rect W H) p) (pix W fb)) disp disp'.
Proof using setup fb_full.
  intros Hr Hd. pose proof setup as [Hsc Hst [? ?]]. destruct (setup_pos _ _ _ setup) as (? & ? & ? & ?).
  unfold restore_vacated. rewrite (proj2 (edges r Hr)). pose proof Hr as (? & ? & ? & ? & ? & ?).
  rewrite (signed_in (width r)) by (unfold i32_min, i32_max in *; lia). rewrite (proj1 (clamp_edge W H Hsc r Hr)). cbn [mbind option_bind].
  set (x0 := Z.max (x r) 0). set (x1 := Z.max 0 (Z.min _ W)).
  destruct (Z.leb_spec x1 x0) as [He|Hne].
  { exists disp. split; [done|]. refine (paints_ext _ _ _ _ _ _ (paints_id _ _)). intros p _ _. unfold over.
    destruct (_ && _) eqn:E; [|done]. apply andb_true_iff in E as [E1%coversb_spec E2%coversb_spec]. unfold covers in *. cbn [x y width height screen_rect] in *. lia. }
  destruct (foldM_paints ppsl (fun disp sy => if (sy <? 0) || (H <=? u32 sy) then Some disp else
      src ← rslice fb (Z.to_nat (u32 (u32 sy * W + x0))) (Z.to_nat (x1 - x0)); put_fb_scanline_fast ppsl x0 sy src disp)
    (fun sy => over (fun p => box x0 x1 sy (sy + 1) p && coversb (screen_rect W H) p) (pix W fb)) (range (y r) (y r + height r)) disp _ Hd) as (disp' & -> & P).
  - intros d sy Hsy%elem_of_range Ld. destruct (Z.ltb_spec sy 0); [|rewrite (wrap_small 32 sy) by (unfold i32_max in *; red; lia); destruct (Z.leb_spec H sy)]; cbn [orb].
    1,2: exists d; split; [done|]; refine (paints_ext _ _ _ _ _ _ (paints_id _ _)); intros p _ _; unfold over;
      (destruct (_ && _) eqn:E; [|done]); apply andb_true_iff in E as [E1%box_spec E2%coversb_spec]; unfold covers in *; cbn [x y width height screen_rect] in *; lia.
    destruct (row_small W H sy Hsc ltac:(lia)). destruct Hsc as (? & ? & ?). rewrite (wrap_small 32) by (red; lia). unfold rslice. rewrite decide_True by lia. cbn [mbind option_bind].
    set (row := take _ _). assert (length row = Z.to_nat (x1 - x0)) as Hrow by (unfold row; rewrite length_take, length_drop; lia).
    unfold put_fb_scanline_fast. rewrite (proj2 (Nat.eqb_neq _ _)) by lia.
    assert ((sy + 1) * ppsl <= H * ppsl) by (apply Z.mul_le_mono_nonneg_r; lia). assert (0 <= sy * ppsl) by nia.
    destruct (wslice_row ppsl x0 x1 sy row d) as (d' & -> & Q); [lia..|]. exists d'. split; [done|].
    refine (paints_ext _ _ _ _ _ _ Q). intros p _ _. unfold over.
    rewrite (bool_iff (box x0 x1 sy (sy + 1) p && coversb (screen_rect W H) p) (box x0 x1 sy (sy + 1) p)).
    2:{ rewrite andb_true_iff, box_spec, coversb_spec. unfold covers. cbn [x y width height screen_rect]. lia. }
    destruct (box _ _ _ _ p) eqn:E; [|done]. apply box_spec in E. unfold row. rewrite lookup_take_lt, lookup_drop by lia.
    unfold pix, idx. f_equal. assert (p.2 = sy) as -> by lia. lia.
  - exists disp'. split; [done|]. refine (paints_ext _ _ _ _ _ _ P). intros p _ _. rewrite layers_over. unfold over. cbn beta.
    rewrite (bool_iff (existsb _ _) (coversb r p && coversb (screen_rect W H) p)); [done|]. rewrite existsb_exists. split.
    + intros (sy & Hsy & [B1%box_spec B2]%andb_true_iff). apply list_elem_of_In, elem_of_range in Hsy. rewrite B2, andb_true_r, coversb_spec.
      apply coversb_spec in B2. unfold covers in *. cbn [x y width height screen_rect] in *. lia.
    + intros [C1%coversb_spec C2]%andb_true_iff. exists p.2. pose proof C2 as C3. apply coversb_spec in C3. unfold covers in *. cbn [x y width height screen_rect] in *.
      split; [apply list_elem_of_In, elem_of_range; lia|]. rewrite C2, andb_true_r, box_spec. lia.
Qed.
End vacated.

Lemma cursor_rect_wf W H cx cy : W < 2 ^ 29 /\ H < 2 ^ 29 -> 0 <= cx < W -> 0 <= cy < H -> rect_wf (cursor_rect cx cy).
Proof. intros [? ?] ? ?. unfold rect_wf, cursor_rect, CURSOR_W, CURSOR_H, i32_min, i32_max. cbn [x y width height]. lia. Qed.

Lemma move_cursor_spec ppsl W H ox oy nx ny s : screen_setup ppsl W H -> bufs_ready ppsl W H s ->
  0 <= ox < W -> 0 <= oy < H -> 0 <= nx < W -> 0 <= ny < H ->
  exists s', move_cursor_overlay ppsl W H ox oy nx ny s = Some s' /\ bufs_ready ppsl W H s' /\
    BACKBUFFER s' = BACKBUFFER s /\ FRONTBUFFER s' = FRONTBUFFER s /\
    ((forall p, on W H p -> display ppsl s p = with_cursor ox oy (front W s) p) ->
     forall p, on W H p -> display ppsl s' p = with_cursor nx ny (front W s) p).
Proof.
  intros Hs Hr Hox Hoy Hnx Hny. unfold move_cursor_overlay. destruct (_ && _) eqn:E.
  { bool_to_prop. subst. exists s. done. }
  rewrite (ensure_ready _ _ _ _ Hr). pose proof Hr as [(bb & Eb & Lb) (fb & Ef & Lf) Ew Eh Ld]. rewrite Ef. cbn [mbind option_bind].
  destruct (setup_pos _ _ _ Hs) as (? & ? & ? & ?). pose proof (cursor_rect_wf W H ox oy (ss_dims _ _ _ Hs) Hox Hoy) as Wo. pose proof (cursor_rect_wf W H nx ny (ss_dims _ _ _ Hs) Hnx Hny) as Wn.
  pose proof (subtract_wf _ _ Wo Wn) as Hsub.
  destruct (foldM_paints ppsl (restore_vacated ppsl W H fb) (fun r => over (fun p => coversb r p && coversb (screen_rect W H) p) (pix W fb))
    (subtract (cursor_rect ox oy) (cursor_rect nx ny)) (DISPLAY s) (Z.to_nat (ppsl * H)) ltac:(lia)) as (disp & -> & P).
  { intros d r Hin L. apply restore_vacated_spec; try done. exact (proj1 (proj1 (Forall_forall _ _) Hsub r Hin)). }
  cbn [mbind option_bind]. pose proof (paints_length _ _ _ _ P). set (s1 := mkBufs _ _ _ _ disp).
  assert (bufs_ready ppsl W H s1) as Hr1 by (split; cbn; eauto; lia).
  destruct (draw_cursor_at_spec ppsl W H nx ny s1 Hs Hr1 Hnx Hny) as (s2 & -> & Hr2 & Hb2 & Hf2 & Hd2). exists s2.
  split_and!; [done|done|by rewrite Hb2|by rewrite Hf2; cbn; rewrite ?Ef|]. intros Hold p Hp. rewrite (Hd2 p Hp). unfold with_cursor.
  assert (front W s1 = front W s) as -> by (unfold front; cbn; by rewrite Ef).
  destruct (coversb (cursor_rect nx ny) p) eqn:En; [done|]. unfold display at 1. cbn [DISPLAY s1].
  rewrite (paints_on _ W H _ _ _ p P (ss_stride _ _ _ Hs) Hp), layers_over. unfold over. cbn beta.
  specialize (Hold p Hp). unfold display, with_cursor in Hold.
  destruct (existsb _ _) eqn:Ex; [unfold front; by rewrite Ef|]. rewrite Hold. destruct (coversb (cursor_rect ox oy) p) eqn:Eo; [|done].
  exfalso. apply not_true_iff_false in Ex. apply Ex, existsb_exists. apply coversb_spec in Eo. apply not_true_iff_false in En. rewrite coversb_spec in En.
  destruct (proj2 (subtract_covers _ _ p Wo Wn) (conj Eo En)) as (q & Hq & Hc). exists q. rewrite <- list_elem_of_In, (on_screen_rect _ _ _ Hp), andb_true_r, coversb_spec. done.
Qed.

(** The pointer moves cleanly: from a display that shows the frontbuffer with the
    cursor at the old place, the overlay gives one that shows the frontbuffer with
    the cursor at the new place, and nothing else of the state changes. *)
Theorem cursor_moves_cleanly ppsl W H ox oy nx ny s : screen_setup ppsl W H -> bufs_ready ppsl W H s ->
  0 <= ox < W -> 0 <= oy < H -> 0 <= nx < W -> 0 <= ny < H ->
  (forall p, on W H p -> display ppsl s p = with_cursor ox oy (front W s) p) ->
  exists s', move_cursor_overlay ppsl W H ox oy nx ny s = Some s' /\ bufs_ready ppsl W H s' /\
    BACKBUFFER s' = BACKBUFFER s /\ FRONTBUFFER s' = FRONTBUFFER s /\
    (forall p, on W H p -> display ppsl s' p = with_cursor nx ny (front W s) p).
Proof.
  intros Hs Hr Hox Hoy Hnx Hny Hold. destruct (move_cursor_spec ppsl W H ox oy nx ny s) as (s' & E & Hr' & Hb & Hf & Hd); [done..|].
  exists s'. split_and!; [done..|exact (Hd Hold)].
Qed.
