(* ===== verification/Desktop.v ===== *)
(** * The desktop as a state machine

    What every event does to the well-formed desktop ([desk_ok]): windows are drawn
    into, moved, raised and presented, and the mouse is handled, without a panic
    and without a write outside the buffers and the display. *)

From S2P Require Import Prelude Geometry Damage Renderer Text Pacing Windows WindowsInv.

(** ** Loops that keep a buffer's size *)

Lemma wbyte_len {A} (d : list A) i v : (i < length d)%nat -> exists d', wbyte d i v = Some d' /\ length d' = length d.
Proof. intros Hi. unfold wbyte. rewrite decide_True by done. eexists. split; [done|]. apply length_insert. Qed.

Lemma wslice_len {A} (d : list A) off s : (off + length s <= length d)%nat -> exists d', wslice d off s = Some d' /\ length d' = length d.
Proof. intros Hl. destruct (wslice_is_Some d off s Hl) as [d' Hd]. exists d'. split; [done|]. by eapply length_wslice. Qed.

Lemma fill_row_len d off n c : 0 <= off -> 0 <= n -> off + n <= Z.of_nat (length d) -> exists d', fill_row d off n c = Some d' /\ length d' = length d.
Proof. intros. apply wslice_len. rewrite length_replicate. lia. Qed.

Lemma foldM_len {A B} (f : list A -> B -> option (list A)) l d n : length d = n ->
  (forall d a, a ∈ l -> length d = n -> exists d', f d a = Some d' /\ length d' = n) -> exists d', foldM f d l = Some d' /\ length d' = n.
Proof. intros Hd Hf. exact (foldM_ind (fun d => length d = n) f l d Hd (fun d a Ha Hl => Hf d a Ha Hl)). Qed.

(** ** Title bars *)

Lemma control_button_len w cx inner ring d : 0 < w < 2 ^ 24 -> Z.of_nat (length d) = w * 20 ->
  exists d', draw_control_button w TITLE_BAR_HEIGHT cx 10 inner ring d = Some d' /\ length d' = length d.
Proof.
  intros Hw Hd. unfold draw_control_button, TITLE_BAR_HEIGHT. apply foldM_len; [done|]. intros d1 dy Hdy%elem_of_range L1.
  destruct (_ || _) eqn:E; [by exists d1|]. bool_to_prop. apply foldM_len; [done|]. intros d2 dx Hdx L2.
  destruct (negb _); [by exists d2|]. destruct (_ && _) eqn:E2; [|by exists d2]. bool_to_prop.
  rewrite <- L2. apply wbyte_len. assert (0 <= (10 + dy) * w) by nia. assert ((10 + dy + 1) * w <= 20 * w) by (apply Z.mul_le_mono_nonneg_r; lia).
  rewrite (wrap_small 32) by (red; lia). lia.
Qed.

Lemma title_sides_len w d : 0 < w < 2 ^ 24 -> Z.of_nat (length d) = w * 20 -> exists d', title_sides w d = Some d' /\ length d' = length d.
Proof.
  intros Hw Hd. unfold title_sides, TITLE_BAR_HEIGHT. apply foldM_len; [done|]. intros d1 ty Hty%elem_of_range L1.
  assert (0 <= ty * w) by nia. assert ((ty + 1) * w <= 20 * w) by (apply Z.mul_le_mono_nonneg_r; lia). rewrite (wrap_small 32) by (red; lia).
  destruct (wbyte_len d1 (Z.to_nat (ty * w)) TITLE_BAR_BORDER_COLOR) as (d2 & -> & L2); [lia|]. cbn [mbind option_bind].
  rewrite (proj2 (Z.eqb_neq _ _)) by lia. destruct (wbyte_len d2 (Z.to_nat (ty * w + (w - 1))) TITLE_BAR_BORDER_COLOR) as (d3 & -> & L3); [lia|].
  exists d3. split; [done|lia].
Qed.

Lemma title_buttons_len w act d : 0 < w < 2 ^ 24 -> Z.of_nat (length d) = w * 20 -> exists d', title_buttons w act d = Some d' /\ length d' = length d.
Proof.
  intros Hw Hd. unfold title_buttons. destruct (w <? 48); [by exists d|].
  assert (forall i1 r1 i2 r2 i3 r3, exists d', (d ← draw_control_button w TITLE_BAR_HEIGHT 12 10 i1 r1 d; d ← draw_control_button w TITLE_BAR_HEIGHT 24 10 i2 r2 d;
    draw_control_button w TITLE_BAR_HEIGHT 36 10 i3 r3 d) = Some d' /\ length d' = length d) as Hb; [|destruct act; apply Hb].
  intros. destruct (control_button_len w 12 i1 r1 d Hw Hd) as (d1 & -> & L1). cbn [mbind option_bind].
  destruct (control_button_len w 24 i2 r2 d1 Hw ltac:(lia)) as (d2 & -> & L2). cbn [mbind option_bind].
  destruct (control_button_len w 36 i3 r3 d2 Hw ltac:(lia)) as (d3 & -> & L3). exists d3. split; [done|lia].
Qed.

Lemma render_title_bar_ok w title act d t : 0 < w < 2 ^ 24 -> Z.of_nat (length d) = w * TITLE_BAR_HEIGHT -> all_bytes title -> text_ok t ->
  exists d' t', render_title_bar w title act (d, t) = Some (d', t') /\ length d' = length d /\ text_ok t' /\ same_font t t'.
Proof.
  unfold TITLE_BAR_HEIGHT. intros Hw Hd Hb Ht. unfold render_title_bar, TITLE_BAR_HEIGHT. cbn [fst snd]. set (d0 := replicate (length d) _).
  assert (length d0 = length d) as L0 by apply length_replicate.
  destruct (fill_row_len d0 0 w (if act then TITLE_BAR_ACTIVE_TOP else TITLE_BAR_INACTIVE_TOP)) as (d1 & -> & L1); [lia..|]. cbn [mbind option_bind].
  rewrite (wrap_small 32) by (red; lia). destruct (fill_row_len d1 ((20 - 1) * w) w TITLE_BAR_BORDER_COLOR) as (d2 & -> & L2); [lia..|]. cbn [mbind option_bind].
  destruct (title_sides_len w d2 Hw ltac:(lia)) as (d3 & -> & L3). cbn [mbind option_bind].
  destruct (title_buttons_len w act d3 Hw ltac:(lia)) as (d4 & -> & L4). cbn [mbind option_bind].
  destruct (draw_text_to_buffer_spec w 20 (if act then TITLE_FG_ACTIVE else TITLE_FG_INACTIVE) (if act then TITLE_BAR_ACTIVE_BG else TITLE_BAR_INACTIVE_BG)
    ltac:(unfold screen_ok; lia) (if 48 <=? w then 48 else 4) 2 (take MAX_TITLE_LEN title) d4 t Ht) as (d5 & t5 & E & Ht5 & Hf & Hc & P);
    [by apply Forall_take|destruct (48 <=? w); lia|lia|lia|].
  exists d5, t5. split; [exact E|]. split; [rewrite (paints_length _ _ _ _ P); lia|]. split; [done|split; done].
Qed.

(** A window whose title bar was drawn again. *)
Definition restyled (w w' : Window) : Prop := window_ok w' /\ w' = set_title_buffer (title_buffer w') w.

Lemma refresh_titles_ok ws t : Forall window_ok ws -> text_ok t ->
  exists ws' t', refresh_titles ws t = Some (ws', t') /\ Forall2 restyled ws ws' /\ text_ok t' /\ same_font t t'.
Proof.
  intros Hws. revert t. induction Hws as [|w ws Hw Hws IH]; intros t Ht; [by exists [], t|]. cbn [refresh_titles refresh_title].
  destruct (wok_title w Hw) as (_ & Hb & _).
  destruct (render_title_bar_ok (win_width w) (take (title_len w) (win_title w)) (match ws with [] => true | _ => false end) (title_buffer w) t
    (wok_width w Hw) (wok_titlebar w Hw) ltac:(by apply Forall_take) Ht) as (d & t1 & -> & L & Ht1 & S1). cbn [mbind option_bind].
  destruct (IH t1 Ht1) as (ws' & t2 & -> & HF & Ht2 & S2). cbn [mbind option_bind]. eexists _, t2. split; [done|].
  split_and!; [|done|exact (same_font_trans _ _ _ S1 S2)]. apply Forall2_cons_2; [|done]. split; [|done].
  destruct Hw. split; cbn; try done. lia.
Qed.

(** ** Totality without the bound on pieces *)

Section total.
Variables (W H ppsl : Z).
Hypothesis setup : screen_setup ppsl W H.

Lemma compose_all_len clip ws d : rect_wf clip -> Forall window_ok ws -> Z.of_nat (length d) = W * H ->
  exists d', compose_all W H clip ws d = Some d' /\ length d' = length d.
Proof using setup.
  intros Hclip Hws. pose proof (ss_screen _ _ _ setup) as Hsc. revert d. induction Hws as [|w ws Hw Hws IH]; intros d Hd; [by exists d|]. cbn [compose_all]. unfold blit_window.
  destruct (title_wf w Hw) as [Ht Hts], (content_wf w Hw) as [Hc Hcs]. pose proof (bounds_all_wf ws Hws) as Hb.
  destruct (blit_surface_clipped_spec W H Hsc (title_buffer w) (win_width w) TITLE_BAR_HEIGHT (win_x w) (signed 32 (win_y w - TITLE_BAR_HEIGHT))
    (wok_titlebar w Hw) Hts Ht clip (bounds <$> ws) d Hclip Hb Hd) as (d1 & r1 & -> & P1 & _). cbn [mbind option_bind].
  pose proof (paints_length _ _ _ _ P1).
  destruct (blit_surface_clipped_spec W H Hsc (win_buffer w) (win_width w) (win_height w) (win_x w) (win_y w)
    (wok_buffer w Hw) Hcs Hc clip (bounds <$> ws) d1 Hclip Hb ltac:(lia)) as (d2 & r2 & -> & P2 & _). cbn [mbind option_bind].
  pose proof (paints_length _ _ _ _ P2). destruct (IH d2 ltac:(lia)) as (d3 & -> & L). exists d3. split; [done|lia].
Qed.

Definition pair_len (s : pixels * pixels) : Prop := Z.of_nat (length s.1) = W * H /\ Z.of_nat (length s.2) = ppsl * H.

Lemma flush_visible_len bb occs r s : Z.of_nat (length bb) = W * H -> rect_wf r -> Forall rect_wf occs -> pair_len s ->
  exists s', flush_visible ppsl W H bb occs r s = Some s' /\ pair_len s'.
Proof using setup.
  intros Hbb Hr Hoccs Hs. destruct (visible_rects_spec r occs Hr Hoccs) as (_ & Hwf & _). unfold flush_visible.
  apply (foldM_ind pair_len); [done|]. intros s0 v Hv [L1 L2]. destruct (proj1 (Forall_forall _ _) Hwf v Hv) as [Hvwf _].
  pose proof (intersect_spec v (screen_rect W H) Hvwf (screen_rect_wf _ _ (ss_screen _ _ _ setup))) as Hi. fold (screen_rect W H).
  destruct (intersect v (screen_rect W H)) as [rc|]; [|by exists s0]. destruct Hi as (Hrwf & _).
  destruct (present_rect_spec W H ppsl (ss_screen _ _ _ setup) (ss_stride _ _ _ setup) bb s0.1 s0.2 rc Hrwf Hbb L1 L2) as (fb' & disp' & n & -> & Q1 & Q2).
  exists (fb', disp'). split; [done|]. unfold pair_len. cbn [fst snd]. rewrite (paints_length _ _ _ _ Q1), (paints_length _ _ _ _ Q2). done.
Qed.

Lemma flush_all_len bb ws s : Z.of_nat (length bb) = W * H -> Forall window_ok ws -> pair_len s ->
  exists s', flush_all ppsl W H bb ws s = Some s' /\ pair_len s'.
Proof using setup.
  intros Hbb Hws. revert s. induction Hws as [|w ws Hw Hws IH]; intros s Hs; [by exists s|]. cbn [flush_all]. pose proof (bounds_all_wf ws Hws) as Hb.
  destruct (flush_visible_len bb (bounds <$> ws) (title_rect w) s Hbb (proj1 (title_wf w Hw)) Hb Hs) as (s1 & -> & L1). cbn [mbind option_bind].
  destruct (flush_visible_len bb (bounds <$> ws) (content_rect w) s1 Hbb (proj1 (content_wf w Hw)) Hb L1) as (s2 & -> & L2). cbn [mbind option_bind].
  exact (IH s2 L2).
Qed.
End total.

(** ** The well-formed desktop *)

Definition windows_good (H : Z) (ws : list Window) : Prop :=
  Forall (fun w => window_ok w /\ win_height w + 20 <= H) ws /\ (length ws <= 16)%nat.

Definition damage_good (d : list Rect) : Prop := region_ok d /\ (length d <= MAX_DIRTY_RECTS)%nat.

Record desk_ok (ppsl W H : Z) (g : gui) : Prop := {
  dok_setup : screen_setup ppsl W H;
  dok_bufs : bufs_ready ppsl W H (BUFS g);
  dok_windows : windows_good H (WINDOWS g);
  dok_text : text_ok (TEXT g);
  dok_cursor : 0 <= CURSOR_X g < W /\ 0 <= CURSOR_Y g < H;
  dok_damage : damage_good (GLOBAL_DAMAGE g);
  dok_params : FB_PARAMS g = Some (ppsl, W, H) }.

Lemma good_ok H ws : windows_good H ws -> Forall window_ok ws.
Proof. intros [Hf _]. eapply Forall_impl; [exact Hf|]. by intros w []. Qed.

Lemma desk_gui ppsl W H g : desk_ok ppsl W H g -> gui_ok ppsl W H g.
Proof. intros []. split; try done. by eapply good_ok. Qed.

Lemma restyled_good H ws ws' : windows_good H ws -> Forall2 restyled ws ws' -> windows_good H ws'.
Proof.
  intros [Hf Hl] H2. split; [|by rewrite <- (Forall2_length _ _ _ H2)]. clear Hl. induction H2 as [|w w' ws ws' [Ho Hr] _ IH]; [done|].
  apply Forall_cons in Hf as [[_ Hh] Hf]. apply Forall_cons_2; [|by apply IH]. split; [done|]. by rewrite Hr.
Qed.

Definition pointer (g : gui) : Z * Z * bool := (CURSOR_X g, CURSOR_Y g, LEFT_BUTTON_DOWN g).

Section desk.
Variables (ppsl W H : Z).

Lemma draw_cursor_desk g : desk_ok ppsl W H g -> exists g', draw_cursor ppsl W H g = Some g' /\ desk_ok ppsl W H g' /\ g' = set_bufs (BUFS g') g.
Proof.
  intros Hg. destruct (draw_cursor_spec ppsl W H g (desk_gui _ _ _ _ Hg)) as (g' & E & Ho & Hs & _). exists g'. split_and!; [done| |done].
  rewrite Hs. destruct Hg. split; cbn; try done. by destruct Ho.
Qed.

Lemma present_desk g : desk_ok ppsl W H g ->
  exists g', present ppsl W H g = Some g' /\ desk_ok ppsl W H g' /\ WINDOWS g' = WINDOWS g /\ pointer g' = pointer g.
Proof.
  intros Hg. pose proof Hg as [Hs Hb Hw Ht Hc Hd Hp]. pose proof (good_ok _ _ Hw) as Hok. pose proof Hb as [(bb & Eb & Lb) (fb & Ef & Lf) Ew Eh Ld].
  unfold present. rewrite (ensure_ready _ _ _ _ Hb), Eb, Ef. cbn [mbind option_bind]. rewrite compose_all_eq by apply Hw.
  destruct (compose_all_len W H ppsl Hs (mkRect 0 0 W H) (WINDOWS g) bb (screen_rect_wf W H (ss_screen _ _ _ Hs)) Hok Lb) as (bb' & -> & L1). cbn [mbind option_bind].
  rewrite flush_all_eq by apply Hw.
  destruct (flush_all_len W H ppsl Hs bb' (WINDOWS g) (fb, DISPLAY (BUFS g)) ltac:(lia) Hok ltac:(done)) as ([fb' disp'] & -> & [L2 L3]). cbn [mbind option_bind fst snd] in *.
  set (g1 := set_bufs _ g). assert (desk_ok ppsl W H g1) as Hg1.
  { split; cbn; try done. split; cbn; eauto; [exists bb'; split; [done|lia]]. }
  destruct (draw_cursor_desk g1 Hg1) as (g2 & -> & Hg2 & E2). cbn [mbind option_bind]. eexists. split; [done|].
  split_and!; [by destruct Hg2|by rewrite E2|by rewrite E2].
Qed.

Lemma redraw_desk rx ry rw rh g : desk_ok ppsl W H g -> rect_wf (mkRect rx ry rw rh) ->
  exists g', redraw_rect ppsl W H rx ry rw rh g = Some g' /\ desk_ok ppsl W H g' /\ same_font (TEXT g) (TEXT g') /\ g' = set_text (TEXT g') (set_bufs (BUFS g') g).
Proof.
  intros Hg Hwf. pose proof Hg as [Hs Hb Hw Ht Hc Hd Hp]. pose proof (good_ok _ _ Hw) as Hok. pose proof Hs as [Hsc Hst [Hd1 Hd2]].
  pose proof Hwf as (? & ? & ? & ? & ? & ?). cbn [x y width height] in *.
  unfold redraw_rect. destruct (setup_pos _ _ _ Hs) as (? & ? & ? & ?). rewrite !(signed_in rw), !(signed_in rh), !signed_in by (unfold i32_min, i32_max in *; lia).
  set (rx0 := Z.max rx 0). set (ry0 := Z.max ry 0). set (rx1 := Z.min (rx + rw) W). set (ry1 := Z.min (ry + rh) H).
  destruct (_ || _) eqn:E; [exists g; split_and!; [done..|by destruct g]|].
  bool_to_prop. rewrite (ensure_ready _ _ _ _ Hb). destruct Hb as [(bb & Ebb & Lb) (fb & Efb & Lf) Ew Eh Ld]. rewrite Ebb, Efb. cbn [mbind option_bind].
  destruct (redraw_bars W H rx0 ry0 rx1 ry1 bb (TEXT g) Hsc Ht) as (d1 & d2 & d3 & t2 & t3 & E1 & E2 & E3 & L3 & Ht3 & S3 & _); [lia..|].
  rewrite E1. cbn [mbind option_bind]. rewrite E2. cbn [mbind option_bind]. rewrite E3. cbn [mbind option_bind]. rewrite compose_all_eq by apply Hw.
  set (tgt := mkRect rx0 ry0 (rx1 - rx0) (ry1 - ry0)). assert (rect_wf tgt) as Htgt by (unfold rect_wf, tgt, i32_min, i32_max in *; cbn [x y width height]; lia).
  destruct (compose_all_len W H ppsl Hs tgt (WINDOWS g) d3 Htgt Hok ltac:(lia)) as (d4 & -> & L4). cbn [mbind option_bind].
  destruct (present_rect_spec W H ppsl Hsc Hst d4 fb (DISPLAY (BUFS g)) tgt Htgt ltac:(lia) Lf Ld) as (fb' & disp' & n & -> & P5 & P6). cbn [mbind option_bind].
  pose proof (paints_length _ _ _ _ P5). pose proof (paints_length _ _ _ _ P6). rewrite Ew, Eh. eexists. split; [done|].
  split_and!; [split; try done; cbn; split; cbn; eauto; [exists d4|exists fb'|]; (split; [done|lia]) || lia|done|done].
Qed.

Lemma flush_dirty_desk g : desk_ok ppsl W H g ->
  exists g', flush_dirty_surfaces ppsl W H g = Some g' /\ desk_ok ppsl W H g' /\ WINDOWS g' = WINDOWS g /\ pointer g' = pointer g.
Proof.
  intros Hg. unfold flush_dirty_surfaces. destruct (WINDOW_DIRTY g).
  2:{ destruct (CURSOR_DIRTY g); [|by exists g]. destruct (draw_cursor_desk (set_dirty false false g)) as (g' & E & Hg' & Hset); [by destruct Hg|].
      exists g'. split_and!; [done..|by rewrite Hset|by rewrite Hset]. }
  set (g1 := set_dirty _ false g). assert (desk_ok ppsl W H g1) as Hg1 by by destruct Hg.
  destruct (_ =? 0)%nat; [exact (present_desk g1 Hg1)|].
  destruct (foldM_ind (fun a => desk_ok ppsl W H a /\ WINDOWS a = WINDOWS g /\ pointer a = pointer g)
    (fun g r => redraw_rect ppsl W H (x r) (y r) (width r) (height r) g) (GLOBAL_DAMAGE g1) g1) as (g2 & -> & Hg2 & E1 & E2); [done| |].
  { intros a r Hin (Ha & A1 & A2). destruct (redraw_desk (x r) (y r) (width r) (height r) a Ha) as (a' & Ea & Ha' & _ & Hset).
    { destruct (dok_damage _ _ _ _ Hg) as [[Hsm _] _]. assert (rect_wf r) as Hr by exact (small_wf r (proj1 (Forall_forall _ _) Hsm r Hin)). by destruct r. }
    exists a'. split; [done|]. split_and!; [done|by rewrite Hset..]. }
  cbn [mbind option_bind]. destruct (draw_cursor_desk (set_damage clear g2)) as (g3 & E & Hg3 & Hset).
  { destruct Hg2. split; cbn; try done. split; [split; [apply Forall_nil_2|done]|cbn; lia]. }
  exists g3. split_and!; [done..|by rewrite Hset|by rewrite Hset].
Qed.
End desk.

(** ** Windows found, moved and raised *)

Lemma position_Some surface ws k : position surface ws = Some k ->
  exists w, ws !! k = Some w /\ surface_object w = surface /\ forall j w', (j < k)%nat -> ws !! j = Some w' -> surface_object w' <> surface.
Proof.
  unfold position. intros E. destruct (list_find _ ws) as [[i w]|] eqn:F; [|done]. injection E as <-.
  apply list_find_Some in F as (Hw & Hs & Hmin). exists w. split_and!; [done..|]. intros j w' Hj Hw'. exact (Hmin j w' Hw' Hj).
Qed.

Lemma position_None surface ws : position surface ws = None -> Forall (fun w => surface_object w <> surface) ws.
Proof. unfold position. intros E. destruct (list_find _ ws) eqn:F; [done|]. by apply list_find_None in F. Qed.

Lemma find_window_Some surface g w : find_window surface g = Some w ->
  exists k, position surface (WINDOWS g) = Some k /\ WINDOWS g !! k = Some w /\ surface_object w = surface.
Proof.
  unfold find_window. destruct (position surface (WINDOWS g)) as [k|] eqn:E; [|done]. cbn [mbind option_bind]. intros Hw. exists k.
  destruct (position_Some _ _ _ E) as (w' & Hw' & Hs & _). rewrite Hw in Hw'. injection Hw' as <-. done.
Qed.

Lemma good_alter H f k ws : windows_good H ws ->
  (forall w, ws !! k = Some w -> window_ok w /\ win_height w + 20 <= H -> window_ok (f w) /\ win_height (f w) + 20 <= H) -> windows_good H (alter f k ws).
Proof.
  intros [Hf Hl] Hk. split; [|by rewrite length_alter]. apply Forall_lookup. intros j w Hj. destruct (decide (j = k)) as [->|Hne].
  - rewrite list_lookup_alter_eq in Hj. destruct (ws !! k) as [w0|] eqn:E; [|done]. injection Hj as <-. apply Hk; [done|]. exact (proj1 (Forall_lookup _ _) Hf _ _ E).
  - rewrite list_lookup_alter_ne in Hj by done. exact (proj1 (Forall_lookup _ _) Hf _ _ Hj).
Qed.

Lemma to_top_perm k ws : to_top k ws ≡ₚ ws.
Proof.
  unfold to_top. destruct (ws !! k) as [w|] eqn:E; [|done]. rewrite (delete_Permutation ws k w E) at 2. by rewrite Permutation_app_comm.
Qed.

Lemma good_perm H ws ws' : ws ≡ₚ ws' -> windows_good H ws -> windows_good H ws'.
Proof. intros Hp [Hf Hl]. split; [by rewrite <- Hp|by rewrite <- Hp]. Qed.

Section events.
Variables (ppsl W H : Z).

(** Moving a window keeps it on the screen, its title bar included. *)
Lemma move_window_desk surface nx ny g : desk_ok ppsl W H g ->
  exists g' moved, move_window surface nx ny W H g = Some (g', moved) /\ desk_ok ppsl W H g' /\
    g' = set_windows (WINDOWS g') g /\ surface_object <$> WINDOWS g' = surface_object <$> WINDOWS g /\
    (moved = true -> exists k w, position surface (WINDOWS g) = Some k /\ WINDOWS g !! k = Some w /\
       WINDOWS g' = alter (set_position (Z.max 0 (Z.min nx (Z.max (W - win_width w) 0))) (Z.max 20 (Z.min ny (H - win_height w)))) k (WINDOWS g)) /\
    (moved = false -> g' = g).
Proof.
  intros Hg. pose proof (dok_setup _ _ _ _ Hg) as Hs. pose proof Hs as [_ _ [? ?]]. destruct (setup_pos _ _ _ Hs) as (_ & _ & ? & ?).
  pose proof (dok_windows _ _ _ _ Hg) as Hw. unfold move_window.
  destruct (find_window surface g) as [w|] eqn:Ef; [|exists g, false; split_and!; [done|done|by destruct g|done..]].
  destruct (find_window_Some _ _ _ Ef) as (k & Ek & Ew & _). destruct (proj1 (Forall_lookup _ _) (proj1 Hw) _ _ Ew) as [Hok Hh]. pose proof Hok as [].
  rewrite !(signed_in W), !(signed_in H), !(signed_in (win_width w)), !(signed_in (win_height w)) by (unfold i32_min, i32_max; lia).
  rewrite !signed_in by (unfold i32_min, i32_max; lia). unfold clamp, TITLE_BAR_HEIGHT.
  rewrite (proj2 (Z.ltb_ge (Z.max (W - win_width w) 0) 0)) by lia. cbn [mbind option_bind]. rewrite (Z.max_l (H - win_height w) 0) by lia.
  rewrite (proj2 (Z.ltb_ge (H - win_height w) 20)) by lia. cbn [mbind option_bind].
  set (cx := Z.max 0 (Z.min nx _)). set (cy := Z.max 20 (Z.min ny _)).
  destruct ((win_x w =? cx) && (win_y w =? cy)) eqn:Same; [exists g, false; split_and!; [done|done|by destruct g|done..]|].
  unfold with_window. rewrite Ek. eexists _, true. split; [done|]. split_and!; [|done| |exists k, w; done|done].
  - destruct Hg. split; cbn; try done. apply good_alter; [done|]. intros w' Hw' [[] Hh']. rewrite Ew in Hw'. injection Hw' as <-.
    split; [split; cbn; try done; lia|done].
  - cbn. apply list_eq. intros j. rewrite !list_lookup_fmap. destruct (decide (j = k)) as [->|Hne].
    + rewrite list_lookup_alter_eq. destruct (WINDOWS g !! k); done.
    + by rewrite list_lookup_alter_ne.
Qed.

Lemma focus_visuals_desk g : desk_ok ppsl W H g ->
  exists g', update_window_focus_visuals g = Some g' /\ desk_ok ppsl W H g' /\ Forall2 restyled (WINDOWS g) (WINDOWS g') /\
    same_font (TEXT g) (TEXT g') /\ g' = set_text (TEXT g') (set_windows (WINDOWS g') g).
Proof.
  intros Hg. unfold update_window_focus_visuals.
  destruct (refresh_titles_ok (WINDOWS g) (TEXT g) (good_ok _ _ (dok_windows _ _ _ _ Hg)) (dok_text _ _ _ _ Hg)) as (ws & t & -> & H2 & Ht & Hs).
  cbn [mbind option_bind]. eexists. split; [done|]. split_and!; [|done..]. destruct Hg. split; cbn; try done. by eapply restyled_good.
Qed.

(** Raising puts the window on top, keeps the others in order and redraws titles. *)
Lemma raise_window_desk surface g : desk_ok ppsl W H g ->
  exists g' raised, raise_window surface g = Some (g', raised) /\ desk_ok ppsl W H g' /\
    g' = set_text (TEXT g') (set_windows (WINDOWS g') g) /\ same_font (TEXT g) (TEXT g') /\
    match position surface (WINDOWS g) with
    | Some k => if (raised : bool) then Forall2 restyled (to_top k (WINDOWS g)) (WINDOWS g') else g' = g /\ (k + 1 = length (WINDOWS g))%nat
    | None => raised = false /\ g' = g
    end.
Proof.
  intros Hg. unfold raise_window. destruct (position surface (WINDOWS g)) as [k|] eqn:Ek.
  2:{ exists g, false. split_and!; [done|done|by destruct g|done..]. }
  destruct (Nat.ltb_spec (k + 1) (length (WINDOWS g))) as [Hlt|Hge].
  - set (g1 := set_windows _ g). assert (desk_ok ppsl W H g1) as Hg1.
    { destruct Hg. split; cbn; try done. eapply good_perm; [symmetry; apply to_top_perm|done]. }
    destruct (focus_visuals_desk g1 Hg1) as (g2 & -> & Hg2 & H2 & Hs & Hset). cbn [mbind option_bind]. exists g2, true. split_and!; [done|done| |done|done].
    rewrite Hset. done.
  - exists g, false. destruct (position_Some _ _ _ Ek) as (w & Hw & _). apply lookup_lt_Some in Hw. split_and!; [done|done|by destruct g|done|done|lia].
Qed.

Lemma desk_focus surface g : desk_ok ppsl W H g -> desk_ok ppsl W H (set_focus surface g).
Proof. by intros []. Qed.

Lemma press_desk px py g : desk_ok ppsl W H g -> exists g' raised, press px py g = Some (g', raised) /\ desk_ok ppsl W H g' /\ BUFS g' = BUFS g /\
  pointer g' = pointer g /\ PACING g' = PACING g /\ (raised = false -> WINDOWS g' = WINDOWS g /\ TEXT g' = TEXT g).
Proof.
  intros Hg. unfold press.
  assert (forall s, exists g' raised, raise_window s (set_focus s g) = Some (g', raised) /\ desk_ok ppsl W H g' /\ BUFS g' = BUFS g /\
    pointer g' = pointer g /\ PACING g' = PACING g /\ (raised = false -> WINDOWS g' = WINDOWS g /\ TEXT g' = TEXT g)) as Hr.
  { intros s. destruct (raise_window_desk s _ (desk_focus s g Hg)) as (g' & r & E & Hd & Hset & _ & Hm). exists g', r.
    split_and!; [done|done|by rewrite Hset..|]. intros ->. destruct (position s _) as [k|]; [destruct Hm as [-> _]|destruct Hm as [_ ->]]; done. }
  destruct (topmost_titlebar_at px py g) as [s|].
  - destruct (Hr s) as (g1 & r & -> & H1 & H2 & H3 & H4 & H5). cbn [mbind option_bind]. destruct (find_window s g1); [|by exists g1, r].
    eexists _, r. split; [done|]. split_and!; [by destruct H1|done..].
  - destruct (topmost_content_at px py g) as [s|]; [exact (Hr s)|by exists g, false].
Qed.

Lemma add_damage_desk r g : desk_ok ppsl W H g -> rect_small r ->
  exists g', add_damage_rect r g = Some g' /\ desk_ok ppsl W H g' /\ g' = mark_window_dirty (set_damage (GLOBAL_DAMAGE g') g) /\
    (exists q, q ∈ GLOBAL_DAMAGE g' /\ within r q) /\ (forall s, s ∈ GLOBAL_DAMAGE g -> exists q, q ∈ GLOBAL_DAMAGE g' /\ within s q).
Proof.
  intros Hg Hr. destruct (dok_damage _ _ _ _ Hg) as [Hok Hl]. destruct (add_rect_exact (GLOBAL_DAMAGE g) r Hok Hl (or_intror Hr)) as (d & E & Hd & Ld & _ & Hn & Ho).
  unfold add_damage_rect. rewrite E. cbn [mbind option_bind]. eexists. split; [done|]. split_and!; [|done| |done].
  - destruct Hg. by split.
  - apply Hn. destruct Hr as (? & ? & ? & ? & ?). unfold is_empty. rewrite !(proj2 (Z.eqb_neq _ _)) by lia. done.
Qed.

Lemma bounds_small w : window_ok w -> rect_small (bounds w).
Proof.
  intros Hw. destruct (window_edges w Hw) as [E1 E2]. destruct Hw. unfold rect_small, bounds. cbn [x y width height]. rewrite E1, E2. lia.
Qed.

Lemma find_window_ok s g w : desk_ok ppsl W H g -> find_window s g = Some w -> window_ok w.
Proof.
  intros Hg Hf. destruct (find_window_Some _ _ _ Hf) as (k & _ & Hk & _). exact (proj1 (Forall_lookup _ _) (good_ok _ _ (dok_windows _ _ _ _ Hg)) _ _ Hk).
Qed.

Lemma damage_windows_desk old g : desk_ok ppsl W H g -> match old with Some r => rect_small r | None => True end ->
  exists g', damage_windows old g = Some g' /\ desk_ok ppsl W H g' /\ WINDOWS g' = WINDOWS g /\ BUFS g' = BUFS g /\ pointer g' = pointer g.
Proof.
  intros Hg Hold. unfold damage_windows.
  assert (exists g1, match old with Some r => add_damage_rect r g | None => Some g end = Some g1 /\ desk_ok ppsl W H g1 /\
    WINDOWS g1 = WINDOWS g /\ BUFS g1 = BUFS g /\ pointer g1 = pointer g) as (g1 & -> & Hg1 & E1 & E2 & E3).
  { destruct old as [r|]; [|by exists g]. destruct (add_damage_desk r g Hg Hold) as (g1 & E & Hd & Hset & _). exists g1. split_and!; [done|done|by rewrite Hset..]. }
  cbn [mbind option_bind]. destruct (DRAGGING g1) as [[[s ox] oy]|].
  - destruct (find_window s g1) as [w|] eqn:Ef; [|by exists g1]. destruct (add_damage_desk (bounds w) g1 Hg1) as (g2 & E & Hd & Hset & _).
    { by eapply bounds_small, find_window_ok. }
    exists g2. split_and!; [done|done|rewrite Hset; done..].
  - pose proof (good_ok _ _ (dok_windows _ _ _ _ Hg1)) as Hall.
    destruct (foldM_ind (fun a => desk_ok ppsl W H a /\ WINDOWS a = WINDOWS g /\ BUFS a = BUFS g /\ pointer a = pointer g)
      (fun g w => add_damage_rect (bounds w) g) (WINDOWS g1) g1) as (g2 & -> & Hd); [done| |by exists g2].
    intros a w Hin (Ha & A1 & A2 & A3). destruct (add_damage_desk (bounds w) a Ha) as (a' & E & Hd & Hset & _).
    { apply bounds_small. exact (proj1 (Forall_forall _ _) Hall w Hin). }
    exists a'. split_and!; [done|done|rewrite Hset; done..].
Qed.

Lemma drag_desk px py g : desk_ok ppsl W H g ->
  exists g' old moved, drag px py W H g = Some (g', old, moved) /\ desk_ok ppsl W H g' /\ g' = set_windows (WINDOWS g') g /\
    match old with Some r => rect_small r | None => True end /\ (moved = false -> g' = g).
Proof.
  intros Hg. unfold drag. destruct (DRAGGING g) as [[[s ox] oy]|]; [|exists g, None, false; split_and!; try done; by destruct g].
  destruct (move_window_desk s (signed 32 (px - ox)) (signed 32 (py - oy)) g Hg) as (g' & m & -> & Hd & Hset & _ & _ & Hm).
  cbn [mbind option_bind]. eexists _, _, m. split_and!; [done|done|done| |done].
  destruct (find_window s g) as [w|] eqn:Ef; [|done]. exact (bounds_small w (find_window_ok s g w Hg Ef)).
Qed.

Variable rdtsc : nat -> Z.

Lemma desk_pacing p g : desk_ok ppsl W H g -> desk_ok ppsl W H (set_pacing p g).
Proof. by intros []. Qed.

Lemma read_tsc_set g : exists now p, read_tsc rdtsc g = (now, set_pacing p g).
Proof. by eexists _, _. Qed.

Lemma request_desk force g : desk_ok ppsl W H g ->
  exists g' shown, request_presentation rdtsc ppsl W H force g = Some (g', shown) /\ desk_ok ppsl W H g' /\
    WINDOWS g' = WINDOWS g /\ pointer g' = pointer g /\ (shown = false -> force = false /\ BUFS g' = BUFS g).
Proof.
  intros Hg. unfold request_presentation. set (g0 := set_pacing _ g). destruct (read_tsc_set g0) as (now & p & ->).
  assert (desk_ok ppsl W H (set_pacing p g0)) as Hg1 by by do 2 apply desk_pacing. revert Hg1. set (g1 := set_pacing p g0). intros Hg1.
  destruct (_ || _) eqn:E.
  - match goal with |- context [flush_dirty_surfaces _ _ _ (set_pacing ?q g1)] =>
      destruct (flush_dirty_desk ppsl W H (set_pacing q g1) (desk_pacing q g1 Hg1)) as (g2 & -> & Hg2 & E1 & E2) end.
    cbn [mbind option_bind]. eexists _, true. split; [done|]. split_and!; [by apply desk_pacing|exact E1|exact E2|done].
  - apply orb_false_iff in E as [-> _]. eexists _, false. split; [done|]. split_and!; [by apply desk_pacing|done..].
Qed.

Lemma step_animation_desk now g acc any a : desk_ok ppsl W H g ->
  exists g' acc' any', step_animation now W H (g, acc, any) a = Some (g', acc', any') /\ desk_ok ppsl W H g' /\ g' = set_windows (WINDOWS g') g /\
    length acc' = S (length acc).
Proof.
  intros Hg. unfold step_animation. destruct (active a.2).
  2:{ exists g, (acc ++ [a]), any. split_and!; [done|done|by destruct g|]. rewrite length_app. cbn. lia. }
  destruct (slide_step now a.2) as [sl [[nx ny] fin]]. destruct (move_window_desk a.1 nx ny g Hg) as (g' & m & -> & Hd & Hset & _).
  cbn [mbind option_bind]. eexists _, _, _. split_and!; [done..|]. rewrite length_app. cbn. lia.
Qed.

Lemma step_animations_desk g : desk_ok ppsl W H g ->
  exists g' any, step_animations rdtsc g = Some (g', any) /\ desk_ok ppsl W H g' /\ BUFS g' = BUFS g /\ pointer g' = pointer g.
Proof.
  intros Hg. unfold step_animations. destruct (negb _); [by exists g, false|]. rewrite (dok_params _ _ _ _ Hg). destruct (read_tsc_set g) as (now & p & ->).
  set (g1 := set_pacing _ g). assert (desk_ok ppsl W H g1) as Hg1 by by apply desk_pacing.
  destruct (foldM_ind (fun a => desk_ok ppsl W H a.1.1 /\ BUFS a.1.1 = BUFS g /\ pointer a.1.1 = pointer g)
    (step_animation now W H) (ANIMATIONS (PACING g1)) (g1, [], false)) as ([[g2 anims] any] & -> & Hg2 & E1 & E2); [done| |].
  { intros [[a acc] any] an _ (Ha & A1 & A2). cbn [fst] in *. destruct (step_animation_desk now a acc any an Ha) as (a' & acc' & any' & -> & Ha' & Hset & _).
    eexists. split; [done|]. cbn [fst]. rewrite Hset in *. split_and!; done. }
  cbn [mbind option_bind fst] in *. eexists _, any. split; [done|]. split_and!; [by apply desk_pacing|done..].
Qed.

Lemma try_present_desk g : desk_ok ppsl W H g ->
  exists g' shown, try_present_pending rdtsc ppsl W H g = Some (g', shown) /\ desk_ok ppsl W H g' /\ pointer g' = pointer g.
Proof.
  intros Hg. unfold try_present_pending. destruct (_ && _); [by exists g, false|]. destruct (read_tsc_set g) as (now & p & ->). set (g1 := set_pacing _ g).
  assert (desk_ok ppsl W H g1) as Hg1 by by apply desk_pacing. destruct (can_present _ _); [|by exists g1, false].
  assert (exists g2, (if HAS_ACTIVE (PACING g) then fst <$> step_animations rdtsc g1 else Some g1) = Some g2 /\ desk_ok ppsl W H g2 /\
    pointer g2 = pointer g) as (g2 & -> & Hg2 & E1).
  { destruct (HAS_ACTIVE _); [|by exists g1]. destruct (step_animations_desk g1 Hg1) as (g2 & any & -> & Hg2 & _ & E1). by exists g2. }
  cbn [mbind option_bind]. destruct (request_desk true g2 Hg2) as (g3 & sh & E & Hg3 & _ & E3 & _). exists g3, sh. split_and!; [done..|by rewrite E3].
Qed.

(** Every mouse event is handled: whatever the movement and the buttons, in a
    well-formed desktop [report_mouse] does not panic, writes only inside its
    buffers and the display, and leaves a well-formed desktop with the cursor where
    the movement takes it, kept on the screen. *)
Theorem report_mouse_safe dx dy left_down g : desk_ok ppsl W H g ->
  exists g', report_mouse rdtsc dx dy left_down g = Some g' /\ desk_ok ppsl W H g' /\
    pointer g' = (Z.max 0 (Z.min (signed 32 (CURSOR_X g + dx)) (W - 1)), Z.max 0 (Z.min (signed 32 (CURSOR_Y g + dy)) (H - 1)), left_down).
Proof.
  intros Hg. pose proof Hg as [Hs _ _ _ [Hcx Hcy] _ Hp]. destruct (setup_pos _ _ _ Hs) as (_ & _ & ? & ?). pose proof Hs as [_ _ [? ?]].
  unfold report_mouse. rewrite Hp, (signed_in W), (signed_in H), !(signed_in (_ - 1)) by (unfold i32_min, i32_max; lia).
  unfold clamp at 1 2. rewrite (proj2 (Z.ltb_ge (W - 1) 0)), (proj2 (Z.ltb_ge (H - 1) 0)) by lia. cbn [mbind option_bind].
  set (nx := Z.max 0 _). set (ny := Z.max 0 _). set (g1 := set_cursor nx ny left_down g).
  assert (desk_ok ppsl W H g1) as Hg1 by (destruct Hg; split; try done; cbn; lia).
  assert (exists g2 raised, (if left_down && negb (LEFT_BUTTON_DOWN g) then press nx ny g1 else Some (g1, false)) = Some (g2, raised) /\
    desk_ok ppsl W H g2 /\ pointer g2 = (nx, ny, left_down)) as (g2 & raised & -> & Hg2 & P2).
  { destruct (_ && _); [|by exists g1, false]. destruct (press_desk nx ny g1 Hg1) as (g2 & r & E & Hd & _ & Hpt & _). by exists g2, r. }
  cbn [mbind option_bind]. set (g3 := if left_down then g2 else set_dragging None g2).
  assert (desk_ok ppsl W H g3 /\ pointer g3 = (nx, ny, left_down)) as (Hg3 & P3) by (unfold g3; destruct left_down; (split; [by destruct Hg2|done])).
  destruct (drag_desk nx ny g3 Hg3) as (g4 & old & moved & -> & Hg4 & Hset & Hold & _). cbn [mbind option_bind].
  assert (pointer g4 = (nx, ny, left_down)) as P4 by (rewrite Hset; exact P3). destruct (moved || raised).
  - destruct (damage_windows_desk old g4 Hg4 Hold) as (g5 & -> & Hg5 & _ & _ & P5). cbn [mbind option_bind].
    destruct (request_desk (negb left_down && LEFT_BUTTON_DOWN g) (mark_window_dirty g5)) as (g6 & sh & -> & Hg6 & _ & P6 & _); [by destruct Hg5|].
    exists g6. split_and!; [done..|]. rewrite P6. etransitivity; [exact P5|exact P4].
  - destruct (try_present_desk g4 Hg4) as (g5 & sh & -> & Hg5 & P5). cbn [mbind option_bind]. pose proof Hg5 as [].
    destruct (move_cursor_spec ppsl W H (CURSOR_X g) (CURSOR_Y g) nx ny (BUFS g5)) as (s & -> & Hs5 & _); [done|done|lia..|].
    cbn [mbind option_bind]. eexists. split; [done|]. split; [by split|]. etransitivity; [exact P5|exact P4].
Qed.
End events.

(** ** Drawing into a window *)

(** What drawing into [surface] may change: the pixels of the first window of that
    surface, and the colour table of the text renderer. *)
Definition drawn (surface : Z) (g g' : gui) : Prop :=
  g' = set_text (TEXT g') (set_windows (WINDOWS g') g) /\ same_font (TEXT g) (TEXT g') /\
  match position surface (WINDOWS g) with
  | Some k => exists buf, WINDOWS g' = alter (set_win_buffer buf) k (WINDOWS g)
  | None => g' = g
  end.

Section drawing.
Variables (ppsl W H : Z).

Lemma bitmap_cols_len w bx py row pitch data fg bg cols buf : window_ok w -> 0 <= py < win_height w ->
  length buf = length (win_buffer w) -> exists buf', bitmap_cols w bx py row pitch data fg bg cols buf = Some buf' /\ length buf' = length buf.
Proof.
  intros Hw Hpy. revert buf. induction cols as [|c cols IH]; intros buf Hl; [by exists buf|]. cbn [bitmap_cols].
  destruct (Z.leb_spec (win_width w) (u32 (bx + c))) as [_|Hlt]; [by exists buf|]. destruct (data !! _) as [byte|]; [|by exists buf].
  assert (0 <= u32 (bx + c)) by (apply (wrap_range 32); lia).
  assert (forall v, exists buf', wbyte buf (Z.to_nat (u32 (py * win_width w + u32 (bx + c)))) v = Some buf' /\ length buf' = length buf) as Hwb.
  { intros v. apply wbyte_len. pose proof Hw as []. assert ((py + 1) * win_width w <= win_height w * win_width w) by (apply Z.mul_le_mono_nonneg_r; lia).
    assert (0 <= py * win_width w) by nia. rewrite (wrap_small 32 (py * _ + _)) by (red; lia). lia. }
  destruct (negb _); [|destruct (negb (bg =? 0))].
  3: { cbn [mbind option_bind]. exact (IH buf Hl). }
  1: destruct (Hwb fg) as (b1 & -> & L). 2: destruct (Hwb bg) as (b1 & -> & L).
  all: cbn [mbind option_bind]; destruct (IH b1 ltac:(lia)) as (b2 & -> & L2); exists b2; split; [done|lia].
Qed.

Lemma bitmap_rows_len w bx by' bw pitch data fg bg rows buf : window_ok w ->
  length buf = length (win_buffer w) -> exists buf', bitmap_rows w bx by' bw pitch data fg bg rows buf = Some buf' /\ length buf' = length buf.
Proof.
  intros Hw. revert buf. induction rows as [|r rows IH]; intros buf Hl; [by exists buf|]. cbn [bitmap_rows].
  destruct (Z.leb_spec (win_height w) (u32 (by' + r))) as [_|Hlt]; [by exists buf|]. assert (0 <= u32 (by' + r)) by (apply (wrap_range 32); lia).
  destruct (bitmap_cols_len w bx (u32 (by' + r)) r pitch data fg bg (range 0 bw) buf Hw ltac:(lia) Hl) as (b1 & -> & L). cbn [mbind option_bind].
  destruct (IH b1 ltac:(lia)) as (b2 & -> & L2). exists b2. split; [done|lia].
Qed.

Lemma draw_into surface buf t g w : desk_ok ppsl W H g -> find_window surface g = Some w -> length buf = length (win_buffer w) ->
  text_ok t -> same_font (TEXT g) t ->
  let g' := set_text t (with_window surface (set_win_buffer buf) g) in desk_ok ppsl W H g' /\ drawn surface g g'.
Proof.
  intros Hg Hf Hl Ht Hs. destruct (find_window_Some _ _ _ Hf) as (k & Hk & Hw & _). unfold with_window, drawn. rewrite Hk. cbn zeta. split.
  - destruct Hg. split; cbn; try done. apply good_alter; [done|]. intros w' Hw' [[] Hh]. rewrite Hw in Hw'. injection Hw' as <-.
    split; [|done]. split; cbn; try done. by rewrite Hl.
  - split_and!; [done|done|by exists buf].
Qed.

Lemma draw_pixels surface buf g w : desk_ok ppsl W H g -> find_window surface g = Some w -> length buf = length (win_buffer w) ->
  let g' := with_window surface (set_win_buffer buf) g in desk_ok ppsl W H g' /\ drawn surface g g'.
Proof.
  intros Hg Hf Hl. pose proof (draw_into surface buf (TEXT g) g w Hg Hf Hl (dok_text _ _ _ _ Hg) (conj eq_refl eq_refl)) as Hd. cbn zeta in *.
  replace (set_text (TEXT g) _) with (with_window surface (set_win_buffer buf) g) in Hd; [done|]. unfold with_window. destruct (position _ _); by destruct g.
Qed.

(** Drawing is confined: text, bitmaps and fills, at any coordinates and of any
    size, never panic and change only the pixels of the window they name; with no
    such window nothing changes. *)
Theorem drawing_confined surface tx ty txt bw bh data fg bg g : desk_ok ppsl W H g -> 0 <= tx -> 0 <= ty -> all_bytes txt ->
  (exists g' done, window_draw_text surface tx ty txt fg bg g = Some (g', done) /\ desk_ok ppsl W H g' /\ drawn surface g g') /\
  (exists g' done, window_draw_bitmap surface tx ty bw bh data fg bg g = Some (g', done) /\ desk_ok ppsl W H g' /\ drawn surface g g') /\
  desk_ok ppsl W H (fill surface fg g).1 /\ drawn surface g (fill surface fg g).1.
Proof.
  intros Hg Htx Hty Htxt. unfold window_draw_text, window_draw_bitmap, fill. destruct (find_window surface g) as [w|] eqn:Hf.
  - pose proof (find_window_ok _ _ _ _ _ _ Hg Hf) as Hw. pose proof (dok_text _ _ _ _ Hg) as Ht. split_and!.
    + destruct (draw_text_to_buffer_spec (win_width w) (win_height w) fg bg (proj2 (content_wf w Hw)) tx ty txt (win_buffer w) (TEXT g)) as (buf & t & -> & Ht' & F1 & F2 & P); [done..| |].
      { pose proof Hw as []. lia. }
      cbn [mbind option_bind]. eexists _, true. split; [done|]. apply (draw_into surface buf t g w); [done|done| |done|done].
      apply (paints_length _ _ _ _ P).
    + destruct (bitmap_rows_len w tx ty bw (u32 (bw + 7) / 8) data fg bg (range 0 bh) (win_buffer w) Hw eq_refl) as (buf & -> & L). cbn [mbind option_bind].
      eexists _, true. split; [done|]. exact (draw_pixels surface buf g w Hg Hf L).
    + refine (proj1 (draw_pixels surface _ g w Hg Hf _)); by rewrite length_replicate.
    + refine (proj2 (draw_pixels surface _ g w Hg Hf _)); by rewrite length_replicate.
  - assert (drawn surface g g).
    { split; [by destruct g|]. split; [done|]. destruct (position surface (WINDOWS g)) as [k|] eqn:Ek; [|done]. unfold find_window in Hf. rewrite Ek in Hf. cbn in Hf.
      destruct (position_Some _ _ _ Ek) as (w & Hw & _). congruence. }
    split_and!; [by exists g, false|by exists g, false|done..].
Qed.
End drawing.

(** A window whose title bar cannot be kept on the screen: moving it, by dragging
    or by a slide, panics, since the range it is clamped to is empty. *)
Lemma tall_window_panics W H surface nx ny g w : 0 <= W < 2 ^ 29 -> 0 <= H < 2 ^ 29 -> find_window surface g = Some w -> window_ok w ->
  H < win_height w + 20 -> move_window surface nx ny W H g = None.
Proof.
  intros ? ? Hf Hw Hh. pose proof Hw as []. unfold move_window. rewrite Hf.
  rewrite !(signed_in W), !(signed_in H), !(signed_in (win_width w)), !(signed_in (win_height w)) by (unfold i32_min, i32_max; lia).
  rewrite !signed_in by (unfold i32_min, i32_max; lia). unfold clamp, TITLE_BAR_HEIGHT.
  rewrite (proj2 (Z.ltb_ge (Z.max (W - win_width w) 0) 0)) by lia. cbn [mbind option_bind]. by rewrite (proj2 (Z.ltb_lt _ 20)) by lia.
Qed.

(** ** Too many windows *)

(** With more than sixteen windows open the desktop can no longer be drawn:
    presenting it, and redrawing any part of the screen, indexes past the array of
    window bounds and panics. *)
Theorem too_many_windows ppsl W H g : screen_setup ppsl W H -> bufs_ready ppsl W H (BUFS g) -> (16 < length (WINDOWS g))%nat ->
  present ppsl W H g = None /\
  forall rx ry rw rh, 0 <= rx < W -> 0 <= ry < H -> 0 < rw < 2 ^ 29 -> 0 < rh < 2 ^ 29 -> redraw_rect ppsl W H rx ry rw rh g = None.
Proof.
  intros Hs Hb Hl. pose proof Hb as [(bb & Eb & Lb) (fb & Ef & Lf) _ _ _]. split.
  - unfold present. rewrite (ensure_ready _ _ _ _ Hb), Eb, Ef. cbn [mbind option_bind]. by rewrite compose_too_many.
  - intros rx ry rw rh ? ? ? ?. pose proof Hs as [_ _ [? ?]]. unfold redraw_rect. destruct (setup_pos _ _ _ Hs) as (? & ? & ? & ?).
    rewrite !(signed_in rw), !(signed_in rh), !signed_in by (unfold i32_min, i32_max in *; lia).
    rewrite (proj2 (Z.leb_gt _ _)), (proj2 (Z.leb_gt _ _)) by lia. cbn [orb]. rewrite (ensure_ready _ _ _ _ Hb), Eb, Ef. cbn [mbind option_bind].
    destruct (foldM _ bb _) as [b1|]; [|done]. cbn [mbind option_bind]. destruct (if _ <? _ then _ else _) as [[b2 t2]|]; [|done]. cbn [mbind option_bind].
    destruct (if _ && _ then _ else _) as [[b3 t3]|]; [|done]. cbn [mbind option_bind]. by rewrite compose_too_many.
Qed.

(** ** A small desktop *)

Module DesktopWitness.

Definition font : text := mkText (Some (mkFont 0 16)) (replicate 256 (replicate 16 0x5A)) (mkLut 0 0 false (replicate 256 (replicate 8 0))).
Definition win (surface wx wy w h colour : Z) : Window :=
  mkWindow surface w h wx wy (replicate (Z.to_nat (w * h)) colour) (replicate (Z.to_nat (w * TITLE_BAR_HEIGHT)) 0x222222) (replicate 24 65) 2.
Definition buffers : bufs := mkBufs (Some (replicate 4800 DESKTOP_BG_COLOR)) (Some (replicate 4800 DESKTOP_BG_COLOR)) 60 80 (replicate 4880 0).
Definition clock (n : nat) : Z := 1000000 * Z.of_nat n.
Definition desk (ws : list Window) : gui :=
  mkGui buffers ws font 50 70 false None false false [] 0 (Some (61, 60, 80)) (mkPacing 60 0 false 0 0 0 0 (replicate 16 (0, slide_new)) false 0).
Definition two : gui := desk [win 1 2 25 20 20 0x111111; win 2 12 40 24 20 0x333333].

Lemma win_ok surface wx wy w h colour : 0 < w < 100 -> 0 < h < 100 -> 0 <= wx < 100 -> 0 <= wy < 100 -> window_ok (win surface wx wy w h colour).
Proof.
  intros. split; cbn; rewrite ?length_replicate; unfold TITLE_BAR_HEIGHT; try lia; [nia|]. split_and!; [done| |unfold MAX_TITLE_LEN; lia]. by repeat constructor.
Qed.

Lemma font_ok : text_ok font.
Proof.
  split; [cbn; lia|done| |].
  - apply Forall_replicate. split; [done|]. apply Forall_replicate. red. lia.
  - intros E. cbn in E. discriminate E.
Qed.

Lemma setup_ok : screen_setup 61 60 80.
Proof. repeat split; lia. Qed.

Lemma buffers_ok : bufs_ready 61 60 80 buffers.
Proof. split; [eexists; split; [done|]|eexists; split; [done|]|..]; done. Qed.

Lemma two_ok : desk_ok 61 60 80 two.
Proof.
  split; [exact setup_ok|exact buffers_ok| |exact font_ok|cbn; lia| |done].
  - split; [|cbn; lia]. repeat constructor; try (apply win_ok; lia); cbn; lia.
  - split; [split; [apply Forall_nil_2|done]|cbn; unfold MAX_DIRTY_RECTS; lia].
Qed.

Lemma mouse_witness : exists g', report_mouse clock (-30) (-40) true two = Some g' /\ pointer g' = (20, 30, true).
Proof.
  destruct (report_mouse_safe 61 60 80 clock (-30) (-40) true two two_ok) as (g' & E & _ & P). exists g'. split; [exact E|exact P].
Defined.

Lemma drawing_witness : exists g' done, window_draw_text 2 5 4 [72; 105] 7 9 two = Some (g', done) /\ drawn 2 two g'.
Proof.
  destruct (drawing_confined 61 60 80 2 5 4 [72; 105] 8 8 [0xFF] 7 9 two two_ok ltac:(lia) ltac:(lia) ltac:(by repeat constructor)) as [(g' & d & E & _ & Hd) _].
  exists g', d. exact (conj E Hd).
Defined.

Lemma two_gui_ok : gui_ok 61 60 80 two.
Proof. exact (desk_gui _ _ _ _ two_ok). Qed.

Lemma two_fits clip : rect_wf clip -> scene_fits clip (WINDOWS two) = true /\ flush_fits (WINDOWS two) = true.
Proof. intros Hc. apply few_windows_fit; [done|exact (good_ok _ _ (dok_windows _ _ _ _ two_ok))|cbn; lia]. Qed.

Lemma present_witness : exists g', present 61 60 80 two = Some g' /\ front 60 (BUFS g') (15, 42) = Some 0x333333.
Proof.
  destruct (present_exact 61 60 80 two two_gui_ok ltac:(cbn; lia) (proj1 (two_fits _ (screen_rect_wf 60 80 (ss_screen _ _ _ setup_ok)))) (proj2 (two_fits _ (screen_rect_wf 60 80 (ss_screen _ _ _ setup_ok)))))
    as (g' & E & _ & _ & Hp & _).
  exists g'. split; [exact E|]. destruct (Hp (15, 42) ltac:(unfold on; cbn; lia)) as [-> _]. vm_compute. reflexivity.
Defined.

Lemma redraw_witness : exists g', redraw_rect 61 60 80 0 0 30 45 two = Some g' /\ front 60 (BUFS g') (1, 40) = Some DESKTOP_BG_COLOR.
Proof.
  destruct (redraw_rect_exact 61 60 80 0 0 30 45 two two_gui_ok ltac:(unfold rect_wf, i32_min, i32_max; cbn; lia) ltac:(cbn; lia) (fun clip Hc => proj1 (two_fits clip Hc)))
    as (g' & E & _ & _ & _ & Hp).
  exists g'. split; [exact E|]. destruct (Hp (1, 40) ltac:(unfold on; cbn; lia)) as [-> _]. vm_compute. reflexivity.
Defined.

Definition pointed : bufs := default buffers (draw_cursor_at 61 60 80 50 70 (mkBufs (BACKBUFFER buffers) (FRONTBUFFER buffers) 60 80 (replicate 4880 DESKTOP_BG_COLOR))).

Lemma pointed_clean p : on 60 80 p -> display 61 pointed p = with_cursor 50 70 (front 60 pointed) p.
Proof.
  intros Hp. assert (forallb (fun py => forallb (fun px => bool_decide (display 61 pointed (px, py) = with_cursor 50 70 (front 60 pointed) (px, py))) (range 0 60)) (range 0 80) = true) as Hall
    by (vm_compute; reflexivity).
  destruct p as [px py], Hp as [Hx Hy]. cbn [fst snd] in *. rewrite forallb_forall in Hall. specialize (Hall py ltac:(by apply list_elem_of_In, elem_of_range)).
  rewrite forallb_forall in Hall. specialize (Hall px ltac:(by apply list_elem_of_In, elem_of_range)). by apply bool_decide_eq_true in Hall.
Qed.

Lemma pointed_ready : bufs_ready 61 60 80 pointed.
Proof.
  destruct (draw_cursor_at 61 60 80 50 70 (mkBufs (BACKBUFFER buffers) (FRONTBUFFER buffers) 60 80 (replicate 4880 DESKTOP_BG_COLOR))) as [s|] eqn:E;
    [|vm_compute in E; discriminate E].
  destruct (draw_cursor_at_spec 61 60 80 50 70 (mkBufs (BACKBUFFER buffers) (FRONTBUFFER buffers) 60 80 (replicate 4880 DESKTOP_BG_COLOR)) setup_ok) as (s' & E' & Hr & _); [|lia|lia|].
  - split; [eexists; split; [done|]|eexists; split; [done|]|..]; done.
  - unfold pointed. rewrite E'. exact Hr.
Qed.

Lemma cursor_witness : exists s', move_cursor_overlay 61 60 80 50 70 10 10 pointed = Some s' /\ display 61 s' (51, 72) = Some DESKTOP_BG_COLOR.
Proof.
  destruct (cursor_moves_cleanly 61 60 80 50 70 10 10 pointed setup_ok pointed_ready ltac:(lia) ltac:(lia) ltac:(lia) ltac:(lia) pointed_clean) as (s' & E & _ & _ & _ & Hd).
  exists s'. split; [exact E|]. rewrite (Hd (51, 72) ltac:(unfold on; cbn; lia)). vm_compute. reflexivity.
Defined.

Lemma seventeen_witness : present 61 60 80 (desk (replicate 17 (win 1 0 30 4 4 0))) = None.
Proof. refine (proj1 (too_many_windows 61 60 80 (desk (replicate 17 (win 1 0 30 4 4 0))) setup_ok buffers_ok _)). cbn. lia. Defined.

(** A mouse event that raises a window draws the pointer at its new place and
    leaves its old image on the display, since only the windows are damaged. *)
Example ghost_cursor :
  (g1 ← init_desktop_chrome 61 60 80 two; g2 ← report_mouse clock (-45) (-35) true g1;
   Some (display 61 (BUFS g1) (51, 72), with_cursor 50 70 (front 60 (BUFS g1)) (51, 72), pointer g2, FRAME_PENDING (PACING g2),
         display 61 (BUFS g2) (51, 72), with_cursor 5 35 (front 60 (BUFS g2)) (51, 72))) =
  Some (Some 0xFFFFFF, Some 0xFFFFFF, (5, 35, true), false, Some 0xFFFFFF, Some DESKTOP_BG_COLOR).
Proof. vm_compute. reflexivity. Qed.

(** A click on the contents of the window on top goes to the window below when a
    hidden part of that window's title bar is there: it is focused and raised. *)
Definition stacked : gui := desk [win 1 2 50 20 20 0x111111; win 2 2 30 24 40 0x333333].
Example click_through :
  painter (WINDOWS stacked) (5, 40) None = Some 0x333333 /\ topmost_content_at 5 40 stacked = Some 2 /\
  ('(g', raised) ← press 5 40 stacked; Some (FOCUSED_SURFACE g', DRAGGING g', surface_object <$> WINDOWS g', raised)) = Some (1, Some (1, 3, -10), [2; 1], true).
Proof. split_and!; vm_compute; reflexivity. Qed.
End DesktopWitness.
