(* ===== verification/Driver.v ===== *)
(** * Hardware access through capabilities

    [kernel_rs/src/driver.rs] and [kernel_rs/src/interrupt_forward.rs]: the
    capabilities to device memory, interrupt lines and ports, the operations that
    check them, and the forwarding of interrupts to the thread that waits for them.

    [hw] holds the statics of the two modules.  [me] is the executing CPU; a
    capability table is an argument where the source passes a reference.  Waiting
    for an interrupt is a machine of steps ([wait_pc]), one step per access to the
    shared flags: between two of them the interrupt may fire on this CPU (the loop
    halts with interrupts on) or on another one. *)

From S2P Require Import Prelude AuditLog Capability Bits Pmm Vmm Gdt Thread.

(** ** State *)

Definition MAX_VECTORS : nat := 256.
Definition USER_MMIO_WINDOW_BASE : Z := 0x20000000.

Record hw := mkHw {
  REGISTERED : list bool; PENDING : list bool; LAST_DELIVERED_VECTOR : Z; NEXT_USER_MMIO_OFFSET : Z }.

Definition hw_init : hw := mkHw (replicate MAX_VECTORS false) (replicate MAX_VECTORS false) 0 0.

Definition set_pending (p : list bool) (h : hw) : hw := mkHw (REGISTERED h) p (LAST_DELIVERED_VECTOR h) (NEXT_USER_MMIO_OFFSET h).

(** ** Interrupt forwarding *)

Definition register (vector : Z) (h : hw) : hw :=
  mkHw (<[Z.to_nat vector := true]> (REGISTERED h)) (PENDING h) (LAST_DELIVERED_VECTOR h) (NEXT_USER_MMIO_OFFSET h).

Definition flag (l : list bool) (vector : Z) : bool := default false (l !! Z.to_nat vector).

Definition notify (vector : Z) (h : hw) : hw :=
  if flag (REGISTERED h) vector then set_pending (<[Z.to_nat vector := true]> (PENDING h)) h else h.

(** [PENDING[vector].swap(false)]: the old value. *)
Definition take_pending (vector : Z) (h : hw) : hw * bool :=
  (set_pending (<[Z.to_nat vector := false]> (PENDING h)) h, flag (PENDING h) vector).

Definition deliver (vector : Z) (h : hw) : hw := mkHw (REGISTERED h) (PENDING h) vector (NEXT_USER_MMIO_OFFSET h).

(** ** Capabilities to hardware *)

Section create.
Variable t : CapabilityTable.

Definition create_capability (kd : KernelObjectKind) (rs : Z) (k : kernel) : kernel * CapabilityTable * Z :=
  let '(k, oid) := create_object kd k in grant t oid rs k.

Definition create_mmio_capability (phys_base size rs : Z) (k : kernel) : kernel * CapabilityTable * Z :=
  create_capability (MmioRegion phys_base size) rs k.
Definition create_interrupt_capability (vector rs : Z) (kh : kernel * hw) : kernel * hw * CapabilityTable * Z :=
  let '(k, h) := kh in
  let '(k, oid) := create_object (InterruptLine vector) k in
  let h := register vector h in
  let '(k, t, c) := grant t oid rs k in (k, h, t, c).
Definition create_port_capability (base count rs : Z) (k : kernel) : kernel * CapabilityTable * Z :=
  create_capability (PortIoRange base count) rs k.
Definition create_socket_capability (p : SocketProtocol) (local_port : Z) (remote_ip : list Z) (remote_port rs : Z) (k : kernel)
    : kernel * CapabilityTable * Z :=
  create_capability (Socket p local_port remote_ip remote_port) rs k.
Definition create_surface_capability (x y width height rs : Z) (k : kernel) : kernel * CapabilityTable * Z :=
  create_capability (Surface x y width height) rs k.
Definition create_dns_resolver_capability (server_ip : list Z) (rs : Z) (k : kernel) : kernel * CapabilityTable * Z :=
  create_capability (DnsResolver server_ip) rs k.
End create.

Inductive DriverError := DrvCap (e : CapError) | DrvWrongObjectKind.

(** [table.resolve(cap_id, required)] and [object_kind] of what it gives. *)
Definition resolve_kind (me : nat) (t : CapabilityTable) (cap_id required : Z) (s : sched)
    : sched * result (option KernelObjectKind) DriverError :=
  let '(k, r) := resolve t cap_id required (kernel_on me s) in
  let s := set_kobj k s in
  match r with
  | Err e => (s, Err (DrvCap e))
  | Ok cap => (s, Ok (object_kind (KOBJ s) (object_id cap)))
  end.

Definition MMIO_FLAGS : Z := Z.lor (Z.lor (Z.lor PAGE_USER PAGE_WRITABLE) PAGE_NO_EXECUTE) PAGE_CACHE_DISABLE.

(** The loop over the pages of a region. *)
Definition map_region (into_pml4 vaddr_base phys_base pages flags : Z) (v : vmm) : option vmm :=
  foldM (fun v p => map_page_in into_pml4 (u64 (vaddr_base + p * 4096)) (u64 (phys_base + p * 4096)) flags v) v (range 0 pages).

Definition map_mmio (me : nat) (t : CapabilityTable) (cap_id into_pml4 : Z) (sh : sched * hw)
    : option (sched * hw * result Z DriverError) :=
  let '(s, h) := sh in
  let '(s, r) := resolve_kind me t cap_id MAP s in
  match r with
  | Err e => Some (s, h, Err e)
  | Ok (Some (MmioRegion phys_base size)) =>
      let pages := u64 (size + 4095) / 4096 in
      let offset := NEXT_USER_MMIO_OFFSET h in
      let h := mkHw (REGISTERED h) (PENDING h) (LAST_DELIVERED_VECTOR h) (u64 (offset + pages * 4096)) in
      let vaddr_base := u64 (USER_MMIO_WINDOW_BASE + offset) in
      v ← map_region into_pml4 vaddr_base phys_base pages MMIO_FLAGS (VM s);
      Some (set_vm v s, h, Ok vaddr_base)
  | Ok _ => Some (s, h, Err DrvWrongObjectKind)
  end.

(** [wait_interrupt]: resolve the capability, poll the flag with a halt in between,
    note the delivery. *)
Inductive wait_pc :=
  | WResolve
  | WPoll (vector : Z)
  | WDeliver (vector : Z)
  | WAudit (vector : Z)
  | WRet (r : result unit DriverError).

Definition record_event (me : nat) (ev : AuditEvent) (s : sched) : sched := set_kobj (audit_record ev (kernel_on me s)) s.

Definition wait_step (me : nat) (t : CapabilityTable) (cap_id : Z) (pc : wait_pc) (sh : sched * hw) : wait_pc * (sched * hw) :=
  let '(s, h) := sh in
  match pc with
  | WResolve =>
      let '(s, r) := resolve_kind me t cap_id WAIT s in
      (match r with
       | Err e => WRet (Err e)
       | Ok (Some (InterruptLine vector)) => WPoll vector
       | Ok _ => WRet (Err DrvWrongObjectKind)
       end, (s, h))
  | WPoll vector =>
      let '(h, fired) := take_pending vector h in
      (if (fired : bool) then WDeliver vector else WPoll vector, (s, h))
  | WDeliver vector => (WAudit vector, (s, deliver vector h))
  | WAudit vector => (WRet (Ok tt), (record_event me (EvInterruptDelivered vector) s, h))
  | WRet r => (WRet r, (s, h))
  end.

Definition acknowledge (me : nat) (vector : Z) (s : sched) : sched := record_event me (EvInterruptAcknowledged vector) s.

Definition ack_interrupt (me : nat) (t : CapabilityTable) (cap_id : Z) (s : sched) : sched * result unit DriverError :=
  let '(s, r) := resolve_kind me t cap_id WAIT s in
  match r with
  | Err e => (s, Err e)
  | Ok (Some (InterruptLine vector)) => (acknowledge me vector s, Ok tt)
  | Ok _ => (s, Err DrvWrongObjectKind)
  end.

Definition grant_port_access (me : nat) (t : CapabilityTable) (cap_id : Z) (s : sched) : option (sched * result unit DriverError) :=
  let '(s, r) := resolve_kind me t cap_id PORT_IO s in
  match r with
  | Err e => Some (s, Err e)
  | Ok (Some (PortIoRange base count)) =>
      s ← foldM (fun s port => allow_port_for_current me port s) s (range base (Z.min (base + count) (2 ^ 16 - 1)));
      Some (s, Ok tt)
  | Ok _ => Some (s, Err DrvWrongObjectKind)
  end.

(** ** Mapping a region *)

Lemma map_region_requests r vb pb pages flags v :
  map_region r vb pb pages flags v =
  s ← foldM (fun s q => map_walk zeroed_table intermediate_flags r q.1 q.2 s) (PMM v)
        ((fun p => (u64 (vb + p * 4096), leaf_of (u64 (pb + p * 4096)) flags)) <$> range 0 pages); Some (set_pmm s v).
Proof.
  unfold map_region. generalize (range 0 pages). intros l. revert v. induction l as [|p l IH]; intros v; [by destruct v|].
  cbn [foldM fmap list_fmap fst snd].
  change (map_page_in r (u64 (vb + p * 4096)) (u64 (pb + p * 4096)) flags v) with
    (s ← map_walk zeroed_table intermediate_flags r (u64 (vb + p * 4096)) (leaf_of (u64 (pb + p * 4096)) flags) (PMM v); Some (set_pmm s v)).
  destruct (map_walk _ _ _ _ _ (PMM v)) as [s|]; [|done]. cbn [mbind option_bind]. exact (IH (set_pmm s v)).
Qed.

Lemma map_region_spec roots r vb pb pages flags v :
  space_ok (PMM v) roots -> r ∈ roots -> 0 <= vb -> vb mod 4096 = 0 -> 0 <= pages -> vb + pages * 4096 <= 2 ^ 47 ->
  in_width 64 flags -> 3 * pages <= free_pages (STATS (PMM v)) ->
  exists v', map_region r vb pb pages flags v = Some v' /\ space_ok (PMM v') roots /\ v' = set_pmm (PMM v') v /\
    spares (PMM v) (PMM v') roots /\
    (forall a, 0 <= a < pages * 4096 -> debug_translate (MEM (PMM v')) r (vb + a) = leaf_of (u64 (pb + a / 4096 * 4096)) flags) /\
    (forall x, 0 <= x < 2 ^ 47 -> x < vb \/ vb + pages * 4096 <= x -> debug_translate (MEM (PMM v')) r x = debug_translate (MEM (PMM v)) r x) /\
    (forall r' x, r' ∈ roots -> r' <> r -> debug_translate (MEM (PMM v')) r' x = debug_translate (MEM (PMM v)) r' x).
Proof.
  intros Hok Hr Hvb Hal Hp Hfit Hfl Hfree. rewrite map_region_requests.
  assert (forall p, p ∈ range 0 pages -> u64 (vb + p * 4096) = vb + p * 4096 /\ 0 <= vb + p * 4096 < 2 ^ 47) as Hu.
  { intros p Hpr%elem_of_range. rewrite (wrap_small 64) by (red; lia). lia. }
  destruct (map_walk_all zeroed_table intermediate_flags roots r
    ((fun p => (u64 (vb + p * 4096), leaf_of (u64 (pb + p * 4096)) flags)) <$> range 0 pages) (PMM v)) as (s & -> & Hok' & Hsp & _ & Ht & Ho);
    [apply zeroed_table_supplies|apply intermediate_flags_link|done|done| |rewrite length_fmap, length_range; lia|].
  { apply Forall_fmap, Forall_forall. intros p Hpr. unfold compose. cbn [fst snd]. destruct (Hu p Hpr) as [-> ?]. split; [done|by apply leaf_of_width]. }
  cbn [mbind option_bind]. eexists. split; [done|]. cbn [PMM set_pmm]. split_and!; [done|done|done| | |done].
  - intros a Ha. rewrite Ht. assert (forall p, 0 <= p -> p < pages -> same_page (vb + a) (vb + p * 4096) -> p = a / 4096) as Hpage.
    { intros p ? ? Hs%same_page_low; [|lia|lia]. Z.div_mod_to_equations. lia. }
    assert (0 <= a / 4096 < pages) by (split; [apply Z.div_pos; lia|apply Z.div_lt_upper_bound; lia]).
    apply requested_const.
    + intros q (p & -> & Hpr)%list_elem_of_fmap. destruct (Hu p Hpr) as [E ?]. cbn [fst snd]. rewrite E. apply elem_of_range in Hpr. intros Hs. by rewrite (Hpage p) by lia || done.
    + exists (u64 (vb + a / 4096 * 4096), leaf_of (u64 (pb + a / 4096 * 4096)) flags). assert (a / 4096 ∈ range 0 pages) as Hin by (apply elem_of_range; lia).
      split; [apply list_elem_of_fmap; by exists (a / 4096)|]. cbn [fst]. destruct (Hu _ Hin) as [-> ?]. apply same_page_div; [lia|lia|]. Z.div_mod_to_equations. lia.
  - intros x Hx Hout. rewrite Ht. apply requested_other. intros q (p & -> & Hpr)%list_elem_of_fmap. cbn [fst]. destruct (Hu p Hpr) as [-> ?]. apply elem_of_range in Hpr.
    intros Hs%same_page_low; [|lia|lia]. Z.div_mod_to_equations. lia.
Qed.

Lemma MMIO_FLAGS_width : in_width 64 MMIO_FLAGS.
Proof. by vm_compute. Qed.

(** What [resolve_kind] gives, as a condition on the table and the objects. *)
Lemma resolve_kind_spec me t cap_id required s :
  exists k, (resolve_kind me t cap_id required s).1 = set_kobj k s /\ OBJECTS k = OBJECTS (KOBJ s) /\
    match (resolve_kind me t cap_id required s).2 with
    | Ok kd => exists cap, (resolve t cap_id required (kernel_on me s)).2 = Ok cap /\ kd = object_kind (KOBJ s) (object_id cap)
    | Err e => exists e', e = DrvCap e' /\ (resolve t cap_id required (kernel_on me s)).2 = Err e'
    end.
Proof.
  unfold resolve_kind. pose proof (resolve_OBJECTS t cap_id required (kernel_on me s)) as Ho. destruct (resolve t cap_id required (kernel_on me s)) as [k r].
  cbn [fst snd] in *. exists k. destruct r as [cap|e]; cbn [fst snd]; split_and!; try done.
  - exists cap. split; [done|]. unfold object_kind, get_object. cbn. by rewrite Ho.
  - by exists e.
Qed.

(** Mapping device memory.  A holder of a MAP capability to a page-aligned region
    gets exactly that region: the pages of the next free piece of the user window
    translate to it, uncached, not executable and open to ring 3, the next request
    starts after it, and no other address of this space and no address of any
    other space changes.  Any other capability, and none, changes no mapping. *)
Theorem map_mmio_exact me t cap_id pml4 roots s h :
  let '(s0, r) := resolve_kind me t cap_id MAP s in
  match r with
  | Ok (Some (MmioRegion phys size)) =>
      let pages := (size + 4095) / 4096 in
      let off := NEXT_USER_MMIO_OFFSET h in
      let base := USER_MMIO_WINDOW_BASE + off in
      space_ok (PMM (VM s)) roots -> pml4 ∈ roots -> 0 <= off -> off mod 4096 = 0 -> 0 <= size -> base + pages * 4096 <= 2 ^ 47 ->
      0 <= phys -> phys + pages * 4096 <= 2 ^ 52 -> 3 * pages <= free_pages (STATS (PMM (VM s))) ->
      exists v, map_mmio me t cap_id pml4 (s, h) =
          Some (set_vm v s0, mkHw (REGISTERED h) (PENDING h) (LAST_DELIVERED_VECTOR h) (off + pages * 4096), Ok base) /\
        space_ok (PMM v) roots /\
        (forall a, 0 <= a < pages * 4096 -> debug_translate (MEM (PMM v)) pml4 (base + a) = leaf_of (phys + a / 4096 * 4096) MMIO_FLAGS) /\
        (forall x, 0 <= x < 2 ^ 47 -> x < base \/ base + pages * 4096 <= x ->
           debug_translate (MEM (PMM v)) pml4 x = debug_translate (MEM (PMM (VM s))) pml4 x) /\
        (forall r' x, r' ∈ roots -> r' <> pml4 -> debug_translate (MEM (PMM v)) r' x = debug_translate (MEM (PMM (VM s))) r' x)
  | Ok _ => map_mmio me t cap_id pml4 (s, h) = Some (s0, h, Err DrvWrongObjectKind) /\ VM s0 = VM s
  | Err e => map_mmio me t cap_id pml4 (s, h) = Some (s0, h, Err e) /\ VM s0 = VM s
  end.
Proof.
  destruct (resolve_kind_spec me t cap_id MAP s) as (k & E1 & _ & _). unfold map_mmio. destruct (resolve_kind me t cap_id MAP s) as [s0 r]. cbn [fst] in E1. subst s0.
  destruct r as [[[]|]|e]; try done. set (pages := (size + 4095) / 4096). set (off := NEXT_USER_MMIO_OFFSET h). set (base := USER_MMIO_WINDOW_BASE + off). intros Hok Hr Ho Hal Hsz Hfit Hph Hpe Hfree.
  assert (0 <= pages) by (apply Z.div_pos; lia). assert (size <= pages * 4096) by (unfold pages; Z.div_mod_to_equations; lia).
  assert (USER_MMIO_WINDOW_BASE = 0x20000000) as EB by done.
  rewrite !(wrap_small 64 (size + 4095)) by (red; unfold pages in *; Z.div_mod_to_equations; lia). fold pages. rewrite !(wrap_small 64 base), !(wrap_small 64 (off + _)) by (red; lia).
  destruct (map_region_spec roots pml4 base phys_base pages MMIO_FLAGS (VM s)) as (v & E & Hok' & _ & _ & Hin & Hout & Hoth);
    [done|done|lia|unfold base; rewrite <- Zplus_mod_idemp_r, Hal; done|done|done|apply MMIO_FLAGS_width|done|].
  change (VM (set_kobj k s)) with (VM s). rewrite E. cbn [mbind option_bind]. exists v. split_and!; [done|done| |done|done].
  intros a Ha. rewrite Hin by done. f_equal. apply wrap_small. assert (0 <= a / 4096 < pages) by (split; [apply Z.div_pos; lia|apply Z.div_lt_upper_bound; lia]). red. lia.
Qed.

(** ** Interrupts are not lost *)

(** One turn of the machine: the line fires (in interrupt context, on any CPU), or
    the waiting thread takes a step. *)
Inductive irq_turn := Fire (vector : Z) | Turn.

Section wait.
Variables (me : nat) (t : CapabilityTable) (cap_id : Z).

Definition irq_step (st : wait_pc * (sched * hw)) (e : irq_turn) : wait_pc * (sched * hw) :=
  match e with
  | Fire vector => (st.1, (st.2.1, notify vector st.2.2))
  | Turn => wait_step me t cap_id st.1 st.2
  end.

Definition irq_run (evs : list irq_turn) (st : wait_pc * (sched * hw)) : wait_pc * (sched * hw) := foldl irq_step st evs.

Fixpoint turns (evs : list irq_turn) : nat :=
  match evs with [] => 0 | Fire _ :: evs' => turns evs' | Turn :: evs' => S (turns evs') end.

(** The steps the thread still needs once the line has fired. *)
Definition remaining (pc : wait_pc) : nat := match pc with WPoll _ => 3 | WDeliver _ => 2 | WAudit _ => 1 | _ => 0 end.

Definition hw_ok (h : hw) : Prop := length (REGISTERED h) = MAX_VECTORS /\ length (PENDING h) = MAX_VECTORS.

Definition waits (vector : Z) (pc : wait_pc) : Prop := pc = WPoll vector \/ pc = WDeliver vector \/ pc = WAudit vector \/ pc = WRet (Ok tt).

Lemma flag_insert l v w b : (Z.to_nat v < length l)%nat -> 0 <= v -> 0 <= w -> flag (<[Z.to_nat v := b]> l) w = if w =? v then b else flag l w.
Proof.
  intros Hv ? ?. unfold flag. destruct (Z.eqb_spec w v) as [->|Hne]; [by rewrite list_lookup_insert_eq|]. rewrite list_lookup_insert_ne by lia. done.
Qed.

Lemma notify_ok v h : hw_ok h -> hw_ok (notify v h).
Proof. intros [H1 H2]. unfold notify. destruct (flag _ v); [|done]. split; cbn; [done|by rewrite length_insert]. Qed.

Lemma notify_registered v h : REGISTERED (notify v h) = REGISTERED h.
Proof. unfold notify. by destruct (flag _ v). Qed.

Lemma notify_pending v w h : hw_ok h -> 0 <= v < 256 -> 0 <= w < 256 ->
  flag (PENDING (notify v h)) w = flag (PENDING h) w || ((w =? v) && flag (REGISTERED h) v).
Proof.
  intros [_ Hl] Hv Hw. unfold notify. destruct (flag (REGISTERED h) v); [|by rewrite andb_false_r, orb_false_r].
  cbn [PENDING set_pending]. rewrite flag_insert by (rewrite ?Hl; unfold MAX_VECTORS; lia). destruct (w =? v); [by rewrite orb_true_r|by rewrite orb_false_r].
Qed.

(** After the line fired, every turn of the waiting thread is progress, whatever
    fires in between. *)
Lemma wait_progress v evs pc s h : hw_ok h -> 0 <= v < 256 -> flag (REGISTERED h) v = true -> waits v pc ->
  (pc = WPoll v -> flag (PENDING h) v = true) -> Forall (fun e => match e with Fire w => 0 <= w < 256 | Turn => True end) evs ->
  (remaining pc <= turns evs)%nat ->
  (irq_run evs (pc, (s, h))).1 = WRet (Ok tt).
Proof.
  revert pc s h. induction evs as [|e evs IH]; intros pc s h Hok Hv Hreg Hw Hpend Hevs Ht.
  { destruct Hw as [->|[->|[->| ->]]]; cbn in *; [lia|lia|lia|done]. }
  apply Forall_cons in Hevs as [He Hevs]. cbn [irq_run foldl]. destruct e as [w|]; cbn [irq_step fst snd].
  - apply IH; [by apply notify_ok|done|by rewrite notify_registered|done| |done|by cbn in Ht].
    intros Hpc. rewrite notify_pending by done. by rewrite Hpend.
  - cbn in Ht. destruct Hw as [->|[->|[->| ->]]]; cbn [wait_step].
    + unfold take_pending. rewrite (Hpend eq_refl). apply IH; [|done|done|by right; left|done|done|cbn in *; lia].
      destruct Hok. split; cbn; [done|by rewrite length_insert].
    + apply IH; [done|done|done|by right; right; left|done|done|cbn in *; lia].
    + apply IH; [done|done|done|by right; right; right|done|done|cbn in *; lia].
    + apply IH; [done|done|done|by right; right; right|done|done|cbn in *; lia].
Qed.

(** Without an interrupt the thread keeps waiting. *)
Lemma wait_quiet v evs s h : hw_ok h -> 0 <= v < 256 -> flag (PENDING h) v = false ->
  Forall (fun e => match e with Fire w => 0 <= w < 256 /\ w <> v | Turn => True end) evs ->
  exists h', irq_run evs (WPoll v, (s, h)) = (WPoll v, (s, h')) /\ hw_ok h' /\ REGISTERED h' = REGISTERED h /\ flag (PENDING h') v = false /\
    LAST_DELIVERED_VECTOR h' = LAST_DELIVERED_VECTOR h.
Proof.
  intros Hok Hv. revert h Hok. induction evs as [|e evs IH]; intros h Hok Hp Hevs; [by exists h|]. apply Forall_cons in Hevs as [He Hevs].
  cbn [irq_run foldl]. destruct e as [w|]; cbn [irq_step fst snd].
  - destruct He as [Hw Hne]. destruct (IH (notify w h)) as (h' & E & H1 & H2 & H3 & H4); [by apply notify_ok| |done|].
    + rewrite notify_pending by done. rewrite Hp, (proj2 (Z.eqb_neq v w)) by done. done.
    + exists h'. split_and!; [exact E|done|by rewrite H2, notify_registered|done|]. rewrite H4. unfold notify. by destruct (flag _ w).
  - cbn [wait_step]. unfold take_pending. rewrite Hp. cbn iota. destruct Hok as [H1 H2].
    destruct (IH (set_pending (<[Z.to_nat v := false]> (PENDING h)) h)) as (h' & E & Q1 & Q2 & Q3 & Q4); [split; cbn; [done|by rewrite length_insert]| |done|].
    + cbn. rewrite flag_insert by (rewrite ?H2; unfold MAX_VECTORS; lia). by rewrite Z.eqb_refl.
    + by exists h'.
Qed.

(** C31. An interrupt is never lost and never made up.  A thread that waits on a
    registered line stays in the wait, with nothing delivered, as long as only
    other lines fire; once its line has fired it returns after three more steps of
    its own, whatever fires before, between and after them. *)
Theorem interrupt_not_lost v quiet later s h : hw_ok h -> 0 <= v < 256 ->
  flag (REGISTERED h) v = true -> flag (PENDING h) v = false ->
  Forall (fun e => match e with Fire w => 0 <= w < 256 /\ w <> v | Turn => True end) quiet ->
  Forall (fun e => match e with Fire w => 0 <= w < 256 | Turn => True end) later ->
  (exists h', irq_run quiet (WPoll v, (s, h)) = (WPoll v, (s, h')) /\ LAST_DELIVERED_VECTOR h' = LAST_DELIVERED_VECTOR h) /\
  ((3 <= turns later)%nat -> (irq_run (quiet ++ Fire v :: later) (WPoll v, (s, h))).1 = WRet (Ok tt)).
Proof.
  intros Hok Hv Hreg Hp Hq Hl. destruct (wait_quiet v quiet s h Hok Hv Hp Hq) as (h1 & E & Hok1 & R1 & P1 & L1). split; [by exists h1|].
  intros Ht. unfold irq_run. rewrite foldl_app. unfold irq_run in E. rewrite E. cbn [foldl irq_step fst snd].
  apply wait_progress with v; [by apply notify_ok|done|by rewrite notify_registered, R1|by left| |done|done].
  intros _. rewrite notify_pending by done. rewrite P1, R1, Hreg, Z.eqb_refl. done.
Qed.
End wait.

(** ** Port access *)

(** [s'] is [s] with the running thread of CPU [me] allowed exactly the ports [opened]
    more, in its own bitmap and in the live one. *)
Definition ports_opened (me : nat) (opened : Z -> bool) (s s' : sched) : Prop :=
  exists c t c' b, CPUS s !! me = Some c /\ current c = Some t /\ CPUS s' = <[me := c']> (CPUS s) /\
    current c' = Some (set_thread_iopb b t) /\ iopb_ok b /\
    (tss_iopb (tss c) = iopb t -> tss_iopb (tss c') = b) /\
    forall q, 0 <= q -> allowed b q = allowed (iopb t) q || (opened q && (q <? IOPB_PORTS)).

Lemma set_thread_iopb_twice b b' t : set_thread_iopb b (set_thread_iopb b' t) = set_thread_iopb b t.
Proof. done. Qed.

Lemma allow_port_current me p s c t b : CPUS s !! me = Some c -> current c = Some t -> allow_port_bits (iopb t) p = Some b ->
  allow_port_for_current me p s = Some (put_cpu me (set_tss (set_iopb b (tss c)) (set_current (Some (set_thread_iopb b t)) c)) s).
Proof. intros Hc Ht Hb. unfold allow_port_for_current, update_port. rewrite Hc. cbn [mbind option_bind]. rewrite Ht, Hb. done. Qed.

Lemma allow_ports me ports s c t : CPUS s !! me = Some c -> current c = Some t -> iopb_ok (iopb t) -> Forall (fun p => 0 <= p) ports ->
  exists s', foldM (fun s port => allow_port_for_current me port s) s ports = Some s' /\
    ports_opened me (fun q => existsb (fun p => q =? p) ports) s s' /\ KOBJ s' = KOBJ s.
Proof.
  intros Hc Ht Hb Hp. revert s c t Hc Ht Hb. induction Hp as [|p ports Hp Hps IH]; intros s c t Hc Ht Hb.
  - exists s. split; [done|]. split; [|done]. exists c, t, c, (iopb t). split_and!; [done|done|by rewrite list_insert_id|by rewrite Ht; destruct t|done|done|].
    intros q _. by rewrite orb_false_r.
  - cbn [foldM]. destruct (allow_port_spec (iopb t) p Hb Hp) as (b & Eb & Hb' & Hu). rewrite (allow_port_current me p s c t b Hc Ht Eb). cbn [mbind option_bind].
    set (c1 := set_tss _ _). set (s1 := put_cpu me c1 s). assert (CPUS s1 !! me = Some c1) as Hc1 by (cbn; apply list_lookup_insert_eq; by eapply lookup_lt_Some).
    destruct (IH s1 c1 (set_thread_iopb b t) Hc1 eq_refl Hb') as (s' & E & (c2 & t2 & c' & b2 & E1 & E2 & E3 & E4 & E5 & E6 & E7) & Hk).
    rewrite Hc1 in E1. injection E1 as <-. cbn in E2. injection E2 as <-. exists s'. split; [exact E|]. split; [|by rewrite Hk].
    exists c, t, c', b2. split_and!; [done|done| |by rewrite E4, set_thread_iopb_twice|done| |].
    + rewrite E3. cbn. apply list_insert_insert_eq.
    + intros _. by apply E6.
    + intros q Hq. rewrite E7 by done. cbn [iopb set_thread_iopb existsb]. rewrite Hu by done. destruct (Z.eqb_spec q p) as [->|]; [|done].
      destruct (Z.ltb_spec p IOPB_PORTS); cbn [andb orb]; [by rewrite orb_true_r|by rewrite !andb_false_r].
Qed.

(** Opening ports.  A PORT_IO capability to a range opens, for the running thread
    only, exactly the ports of that range the bitmap covers; anything else opens
    none. *)
Theorem port_access_exact me t cap_id s c th : CPUS s !! me = Some c -> current c = Some th -> iopb_ok (iopb th) ->
  let '(s0, r) := resolve_kind me t cap_id PORT_IO s in
  match r with
  | Ok (Some (PortIoRange base count)) => 0 <= base ->
      exists s', grant_port_access me t cap_id s = Some (s', Ok tt) /\
        ports_opened me (fun q => (base <=? q) && (q <? Z.min (base + count) (2 ^ 16 - 1))) s0 s' /\ KOBJ s' = KOBJ s0
  | Ok _ => grant_port_access me t cap_id s = Some (s0, Err DrvWrongObjectKind) /\ CPUS s0 = CPUS s
  | Err e => grant_port_access me t cap_id s = Some (s0, Err e) /\ CPUS s0 = CPUS s
  end.
Proof.
  intros Hc Ht Hb. destruct (resolve_kind_spec me t cap_id PORT_IO s) as (k & E1 & _ & _). unfold grant_port_access.
  destruct (resolve_kind me t cap_id PORT_IO s) as [s0 r]. cbn [fst] in E1. subst s0. destruct r as [[[]|]|e]; try done. intros Hbase.
  set (hi := Z.min _ _). destruct (allow_ports me (range base hi) (set_kobj k s) c th Hc Ht Hb) as (s' & -> & (c0 & t0 & c' & b & E1 & E2 & E3 & E4 & E5 & E6 & E7) & Hk).
  { apply Forall_forall. intros p Hp%elem_of_range. lia. }
  cbn [mbind option_bind]. exists s'. split_and!; [done| |done]. exists c0, t0, c', b. split_and!; try done. intros q Hq. rewrite E7 by done. f_equal. f_equal.
  destruct (existsb _ _) eqn:E.
  - apply existsb_exists in E as (p & Hp%list_elem_of_In%elem_of_range & ->%Z.eqb_eq). symmetry. apply andb_true_iff. split; [apply Z.leb_le|apply Z.ltb_lt]; lia.
  - symmetry. apply not_true_iff_false. intros [H1%Z.leb_le H2%Z.ltb_lt]%andb_true_iff. apply not_true_iff_false in E. apply E, existsb_exists.
    exists q. split; [by apply list_elem_of_In, elem_of_range|apply Z.eqb_refl].
Qed.

Module DriverWitness.

Definition two_lines : hw := register 33 (register 44 hw_init).
Definition noise : list irq_turn := [Turn; Fire 44; Turn; Fire 32].
Definition after : list irq_turn := [Fire 44; Turn; Fire 33; Turn; Turn].

Lemma two_lines_ok : hw_ok two_lines.
Proof. done. Qed.

Definition idle : percpu := mkCpu None (Some (mkThread 1 Running 0 0 0 VmmWitness.root table_new (replicate IOPB_BYTES 0xFF))) None TSS_ZERO 0
  (mkRegs 0 0 0 0 0 0 0 0 VmmWitness.root false) None.
Definition machine : sched := mkSched 2 [idle] (replicate 72 0) 0 (fun _ => 0) kernel_init VmmWitness.v0 [] [].

Lemma irq_witness : (irq_run 0 [] 0 (noise ++ Fire 33 :: after) (WPoll 33, (machine, two_lines))).1 = WRet (Ok tt).
Proof.
  refine (proj2 (interrupt_not_lost 0 [] 0 33 noise after machine two_lines two_lines_ok _ eq_refl eq_refl _ _) _);
    [lia|repeat constructor; lia|repeat constructor; lia|cbn; lia].
Defined.

(** A capability to two pages of device memory, and one to the serial ports. *)
Definition with_region : kernel * CapabilityTable * Z := create_mmio_capability [] 0xFEB00000 0x1800 MAP (mkKernel [] audit_init 1).
Definition with_ports : kernel * CapabilityTable * Z := create_port_capability with_region.1.2 0x3F8 8 PORT_IO with_region.1.1.
Definition granted : sched := set_kobj with_ports.1.1 machine.
Definition caps : CapabilityTable := with_ports.1.2.

Lemma granted_kinds : (resolve_kind 0 caps 0 MAP granted) = (granted, Ok (Some (MmioRegion 0xFEB00000 0x1800))) /\
  (resolve_kind 0 caps 1 PORT_IO granted) = (granted, Ok (Some (PortIoRange 0x3F8 8))).
Proof. split; reflexivity. Qed.

Lemma mmio_witness : exists v h, map_mmio 0 caps 0 VmmWitness.root (granted, two_lines) = Some (set_vm v granted, h, Ok 0x20000000) /\
  debug_translate (MEM (PMM v)) VmmWitness.root 0x20001234 = leaf_of 0xFEB01000 MMIO_FLAGS /\ NEXT_USER_MMIO_OFFSET h = 0x2000.
Proof.
  pose proof (map_mmio_exact 0 caps 0 VmmWitness.root [VmmWitness.root] granted two_lines) as Hm. rewrite (proj1 granted_kinds) in Hm.
  destruct Hm as (v & E & _ & Hin & _); [exact VmmWitness.space0_ok|apply VmmWitness.root_in|done|done|done|vm_compute; discriminate|done|vm_compute; discriminate|vm_compute; discriminate|].
  eexists v, _. split; [exact E|]. split; [|reflexivity]. exact (Hin 0x1234 ltac:(vm_compute; split; [discriminate|reflexivity])).
Defined.

Lemma ports_witness : exists s', grant_port_access 0 caps 1 granted = Some (s', Ok tt) /\
  ports_opened 0 (fun q => (0x3F8 <=? q) && (q <? Z.min (0x3F8 + 8) (2 ^ 16 - 1))) granted s'.
Proof.
  pose proof (port_access_exact 0 caps 1 granted idle _ eq_refl eq_refl denied_iopb_ok) as Hm. rewrite (proj2 granted_kinds) in Hm.
  destruct (Hm ltac:(lia)) as (s' & E & Hp & _). exists s'. exact (conj E Hp).
Defined.
End DriverWitness.
