(* ===== verification/Input.v ===== *)
(** * Input: the event queue and key routing

    [kernel_rs/src/input_queue.rs], the bounded ring of input events, and
    [kernel_rs/src/input_routing.rs], which gives every window an endpoint and sends
    each key to the window that has the focus.

    The focus itself is a field of the desktop ([Windows.FOCUSED_SURFACE]) and is an
    argument here.  The time stamp of an event is an argument.  The function keys
    that start and dump benchmarks only reach the counters of
    [compositor_metrics.rs], which are not state here: such a key ends the handler. *)

From S2P Require Import Prelude AuditLog Capability Ipc Thread Service ServiceInv.

(** ** The event queue *)

Definition INPUT_QUEUE_CAPACITY : Z := 128.
Definition QUEUE_MASK : Z := INPUT_QUEUE_CAPACITY - 1.

Inductive InputEventKind :=
  | MouseMotion (dx dy : Z) (left_down : bool)
  | MouseButton (button : Z) (down : bool)
  | Key (scancode : Z).

Record InputEvent := mkEvent { ev_kind : InputEventKind; timestamp_tsc : Z }.

Definition event_default : InputEvent := mkEvent (MouseMotion 0 0 false) 0.

Record event_queue := mkEvents { EVENT_BUFFER : list InputEvent; HEAD : Z; TAIL : Z; HAS_EVENTS : bool }.

Definition events_init : event_queue := mkEvents (replicate (Z.to_nat INPUT_QUEUE_CAPACITY) event_default) 0 0 false.

Definition enqueue_event (kind : InputEventKind) (now : Z) (q : event_queue) : option event_queue :=
  let head := HEAD q in
  let tail := if INPUT_QUEUE_CAPACITY <=? u64 (head - TAIL q) then u64 (TAIL q + 1) else TAIL q in
  buf ← wbyte (EVENT_BUFFER q) (Z.to_nat (Z.land head QUEUE_MASK)) (mkEvent kind now);
  Some (mkEvents buf (u64 (head + 1)) tail true).

Definition dequeue_event (q : event_queue) : option (event_queue * option InputEvent) :=
  if TAIL q =? HEAD q then Some (mkEvents (EVENT_BUFFER q) (HEAD q) (TAIL q) false, None) else
  ev ← EVENT_BUFFER q !! Z.to_nat (Z.land (TAIL q) QUEUE_MASK);
  let tail := u64 (TAIL q + 1) in
  Some (mkEvents (EVENT_BUFFER q) (HEAD q) tail (if tail =? HEAD q then false else HAS_EVENTS q), Some ev).

Definition has_pending_events (q : event_queue) : bool := HAS_EVENTS q.
Definition pending_event_count (q : event_queue) : Z := u64 (HEAD q - TAIL q).
Definition clear_queue (q : event_queue) : event_queue := mkEvents (EVENT_BUFFER q) (HEAD q) (HEAD q) false.

(** ** Key routing *)

Definition NO_FOCUS : Z := 2 ^ 32 - 1.

Record WindowInput := mkWindowInput { wi_surface_object : Z; send_cap : Z }.

Record input := mkInput { REGISTRY : list WindowInput; SENDER_TABLE : CapabilityTable; EVENTS : event_queue }.

Definition input_init : input := mkInput [] table_new events_init.

Definition register_window_input (me : nat) (surface : Z) (st : world * input) : option (world * input * Z) :=
  let '(w, i) := st in
  let '(s, t, sc) := create_endpoint (SENDER_TABLE i) SEND (ipc_on me w) in
  let w := set_ipc s w in
  let '(k, r) := resolve t sc SEND (kernel_on me (SCHED w)) in
  let w := set_sched (set_kobj k (SCHED w)) w in
  match r with
  | Err _ => None
  | Ok cap =>
      '(sch, receive_cap) ← grant_current_capability me (object_id cap) RECEIVE (SCHED w);
      Some (set_sched sch w, mkInput (REGISTRY i ++ [mkWindowInput surface sc]) t (EVENTS i), receive_cap)
  end.

(** The keys the benchmark harness takes: F1 to F7 and F12, and their releases. *)
Definition hotkey (scancode : Z) : bool :=
  ((0x3B <=? scancode) && (scancode <=? 0x41)) || (scancode =? 0x58) ||
  ((0xBB <=? scancode) && (scancode <=? 0xC1)) || (scancode =? 0xD8).

Definition find_registered (surface : Z) (l : list WindowInput) : option WindowInput :=
  snd <$> list_find (fun w => wi_surface_object w = surface) l.

Definition deliver_key_event (me : nat) (scancode focused now : Z) (st : world * input) : option (world * input) :=
  let '(w, i) := st in
  q ← enqueue_event (Key scancode) now (EVENTS i);
  let i := mkInput (REGISTRY i) (SENDER_TABLE i) q in
  if hotkey scancode then Some (w, i) else
  if focused =? NO_FOCUS then Some (w, i) else
  match find_registered focused (REGISTRY i) with
  | None => Some (w, i)
  | Some win => w ← announce me (SENDER_TABLE i) (send_cap win) (word_message scancode) w; Some (w, i)
  end.

(** ** The event queue keeps the newest events *)

Definition slot (q : event_queue) (k : Z) : InputEvent := default event_default (EVENT_BUFFER q !! Z.to_nat (k mod 128)).

(** The events waiting, oldest first. *)
Definition events (q : event_queue) : list InputEvent := slot q <$> range (TAIL q) (HEAD q).

Record events_ok (q : event_queue) : Prop := {
  eq_size : length (EVENT_BUFFER q) = 128%nat;
  eq_order : 0 <= TAIL q <= HEAD q;
  eq_room : HEAD q - TAIL q <= 128;
  eq_flag : HAS_EVENTS q = negb (TAIL q =? HEAD q) }.

(** What the queue is: a list that drops its oldest entry past 128. *)
Inductive queue_op := Enqueue (kind : InputEventKind) (now : Z) | Dequeue | Clear.

Definition newest (l : list InputEvent) : list InputEvent := drop (length l - 128) l.

Definition spec_op (l : list InputEvent) (o : queue_op) : list InputEvent * option InputEvent :=
  match o with
  | Enqueue kind now => (newest (l ++ [mkEvent kind now]), None)
  | Dequeue => (tail l, head l)
  | Clear => ([], None)
  end.

Definition exec_op (q : event_queue) (o : queue_op) : option (event_queue * option InputEvent) :=
  match o with
  | Enqueue kind now => q ← enqueue_event kind now q; Some (q, None)
  | Dequeue => dequeue_event q
  | Clear => Some (clear_queue q, None)
  end.

Fixpoint exec_ops (q : event_queue) (ops : list queue_op) : option (event_queue * list (option InputEvent)) :=
  match ops with
  | [] => Some (q, [])
  | o :: ops' => '(q, r) ← exec_op q o; '(q, rs) ← exec_ops q ops'; Some (q, r :: rs)
  end.

Fixpoint spec_ops (l : list InputEvent) (ops : list queue_op) : list InputEvent * list (option InputEvent) :=
  match ops with
  | [] => (l, [])
  | o :: ops' => let '(l, r) := spec_op l o in let '(l, rs) := spec_ops l ops' in (l, r :: rs)
  end.

Lemma mask_mod x : 0 <= x -> Z.land x QUEUE_MASK = x mod 128.
Proof. intros Hx. change QUEUE_MASK with (Z.ones 7). by rewrite Z.land_ones. Qed.

Lemma range_snoc lo hi : lo <= hi -> range lo (hi + 1) = range lo hi ++ [hi].
Proof.
  intros H. unfold range. replace (Z.to_nat (hi + 1 - lo)) with (Z.to_nat (hi - lo) + 1)%nat by lia. rewrite seq_app, fmap_app. cbn. do 2 f_equal. lia.
Qed.

Lemma length_events q : length (events q) = Z.to_nat (HEAD q - TAIL q).
Proof. unfold events. by rewrite length_fmap, length_range. Qed.

Lemma enqueue_event_spec kind now q : events_ok q -> HEAD q < 2 ^ 64 - 1 ->
  exists q', enqueue_event kind now q = Some q' /\ events_ok q' /\ HEAD q' = HEAD q + 1 /\ events q' = newest (events q ++ [mkEvent kind now]).
Proof.
  intros [Hs Ho Hr Hf] Hh. unfold enqueue_event. cbv zeta. rewrite mask_mod by lia. pose proof (Z.mod_pos_bound (HEAD q) 128).
  unfold wbyte. rewrite decide_True by lia. cbn [mbind option_bind]. rewrite (wrap_small 64 (HEAD q - TAIL q)), (wrap_small 64 (HEAD q + 1)) by (red; lia). eexists. split; [done|].
  set (tl := if _ <=? _ then _ else _). assert (tl = Z.max (TAIL q) (HEAD q - 127)) as Htl.
  { unfold tl, INPUT_QUEUE_CAPACITY. destruct (Z.leb_spec 128 (HEAD q - TAIL q)); [rewrite (wrap_small 64) by (red; lia)|]; lia. }
  split_and!; [split; cbn; [by rewrite length_insert|lia|lia|]| |].
  - symmetry. apply negb_true_iff, Z.eqb_neq. lia.
  - cbn. lia.
  - unfold newest, events. cbn [HEAD TAIL EVENT_BUFFER]. rewrite length_app, length_fmap, length_range, range_snoc, fmap_app by lia. cbn [length fmap list_fmap].
    set (q' := mkEvents _ _ _ _).
    assert (forall k, tl <= k < HEAD q -> slot q' k = slot q k) as Hold.
    { intros k Hk. unfold slot. cbn [EVENT_BUFFER q']. rewrite list_lookup_insert_ne; [done|]. intros E. apply Z2Nat.inj in E; [|lia|apply Z.mod_pos_bound; lia].
      Z.div_mod_to_equations. lia. }
    assert (slot q' (HEAD q) = mkEvent kind now) as ->.
    { unfold slot. cbn [EVENT_BUFFER q']. rewrite list_lookup_insert_eq by lia. done. }
    rewrite drop_app_le by (rewrite length_fmap, length_range; lia). f_equal.
    rewrite <- fmap_drop. destruct (Z.leb_spec 128 (HEAD q - TAIL q)) as [Hfull|Hroom].
    + replace (Z.to_nat (HEAD q - TAIL q) + 1 - 128)%nat with 1%nat by lia. rewrite (range_cons (TAIL q)) by lia. cbn [drop].
      replace tl with (TAIL q + 1) by lia. apply list_fmap_ext. intros i k Hk. apply Hold. apply list_elem_of_lookup_2, elem_of_range in Hk. lia.
    + replace (Z.to_nat (HEAD q - TAIL q) + 1 - 128)%nat with 0%nat by lia. rewrite drop_0. replace tl with (TAIL q) by lia. apply list_fmap_ext.
      intros i k Hk. apply Hold. apply list_elem_of_lookup_2, elem_of_range in Hk. lia.
Qed.

Lemma dequeue_event_spec q : events_ok q -> HEAD q < 2 ^ 64 ->
  exists q', dequeue_event q = Some (q', head (events q)) /\ events_ok q' /\ HEAD q' = HEAD q /\ events q' = tail (events q).
Proof.
  intros [Hs Ho Hr Hf] Hh. unfold dequeue_event. destruct (Z.eqb_spec (TAIL q) (HEAD q)) as [E|E].
  - unfold events. rewrite (range_nil (TAIL q)) by lia. eexists. split; [done|]. split_and!; [|done|cbn; by rewrite range_nil by lia].
    split; cbn; [done|lia|lia|]. by rewrite E, Z.eqb_refl.
  - rewrite mask_mod by lia. pose proof (Z.mod_pos_bound (TAIL q) 128). destruct (lookup_lt_is_Some_2 (EVENT_BUFFER q) (Z.to_nat (TAIL q mod 128))) as [ev Hev]; [lia|].
    rewrite Hev. cbn [mbind option_bind]. rewrite (wrap_small 64) by (red; lia). unfold events. rewrite (range_cons (TAIL q)) by lia. cbn [fmap list_fmap head tail].
    eexists. split; [unfold slot at 1; by rewrite Hev|]. split_and!; [|done|done].
    split; cbn; [done|lia|lia|]. destruct (TAIL q + 1 =? HEAD q); [done|]. by rewrite Hf.
Qed.

(** The event queue.  Under any sequence of calls it never panics and behaves as a
    list that keeps the newest 128 events: enqueuing drops the oldest one when it
    is full, dequeuing takes the oldest, and whether events are pending is known
    exactly. *)
Theorem event_queue_refines ops q : events_ok q -> HEAD q + Z.of_nat (length ops) < 2 ^ 64 ->
  exists q' rs, exec_ops q ops = Some (q', rs) /\ events_ok q' /\ spec_ops (events q) ops = (events q', rs) /\
    pending_event_count q' = Z.of_nat (length (events q')) /\ has_pending_events q' = negb (length (events q') =? 0)%nat.
Proof.
  revert q. induction ops as [|o ops IH]; intros q Hq Hh.
  - exists q, []. split_and!; [done..| |]; rewrite length_events; destruct Hq as [? ? ? Hf]; cbn [length] in Hh.
    + unfold pending_event_count. rewrite (wrap_small 64) by (red; lia). lia.
    + unfold has_pending_events. rewrite Hf. f_equal. destruct (Z.eqb_spec (TAIL q) (HEAD q)) as [->|]; symmetry; [apply Nat.eqb_eq|apply Nat.eqb_neq]; lia.
  - cbn [length] in Hh. assert (exists q1 r, exec_op q o = Some (q1, r) /\ events_ok q1 /\ HEAD q1 <= HEAD q + 1 /\ spec_op (events q) o = (events q1, r)) as (q1 & r & E1 & Hq1 & H1 & S1).
    { destruct o as [kind now| |]; cbn [exec_op spec_op].
      - destruct (enqueue_event_spec kind now q Hq ltac:(lia)) as (q1 & -> & ? & ? & Ee). eexists _, _. split_and!; [done|done|lia|by rewrite Ee].
      - destruct (dequeue_event_spec q Hq ltac:(lia)) as (q1 & -> & ? & ? & Ee). eexists _, _. split_and!; [done|done|lia|by rewrite Ee].
      - eexists _, _. split_and!; [done| |cbn; lia|unfold events; cbn; by rewrite range_nil by lia]. destruct Hq. split; cbn; [done|lia|lia|by rewrite Z.eqb_refl]. }
    destruct (IH q1 Hq1 ltac:(lia)) as (q' & rs & E2 & Hq' & S2 & P & F). exists q', (r :: rs). cbn [exec_ops spec_ops]. rewrite E1. cbn [mbind option_bind].
    rewrite E2, S1, S2. by split_and!.
Qed.

(** ** Keys go to the focused window only *)

(** The endpoint a key is sent to. *)
Definition recipient (me : nat) (scancode focused : Z) (w : world) (i : input) : option Z :=
  if hotkey scancode || (focused =? NO_FOCUS) then None else
  win ← find_registered focused (REGISTRY i);
  match (resolve (SENDER_TABLE i) (send_cap win) SEND (kernel_on me (SCHED w))).2 with Ok cap => Some (object_id cap) | Err _ => None end.

(** A full mailbox drops the key. *)
Definition with_key (scancode : Z) (ms : list Message) : list Message :=
  if decide (length ms < QUEUE_DEPTH)%nat then ms ++ [word_message scancode] else ms.

Definition eps_ok (w : world) : Prop := Forall (fun sl => ep_ok (slot_endpoint sl)) (EPS w).

Lemma deliver_key_spec me scancode focused now w i : eps_ok w -> events_ok (EVENTS i) -> HEAD (EVENTS i) < 2 ^ 64 - 1 ->
  exists w' i', deliver_key_event me scancode focused now (w, i) = Some (w', i') /\
    REGISTRY i' = REGISTRY i /\ SENDER_TABLE i' = SENDER_TABLE i /\ events_ok (EVENTS i') /\ events (EVENTS i') = newest (events (EVENTS i) ++ [mkEvent (Key scancode) now]) /\
    eps_ok w' /\ FILES w' = FILES w /\ NETS w' = NETS w /\ VM (SCHED w') = VM (SCHED w) /\ CPUS (SCHED w') = CPUS (SCHED w) /\
    OBJECTS (KOBJ (SCHED w')) = OBJECTS (KOBJ (SCHED w)) /\
    forall o, queues (ipc_on me w') o =
      if decide (recipient me scancode focused w i = Some o) then with_key scancode <$> queues (ipc_on me w) o else queues (ipc_on me w) o.
Proof.
  intros He Hq Hh. unfold deliver_key_event, recipient. destruct (enqueue_event_spec (Key scancode) now (EVENTS i) Hq Hh) as (q & -> & Hq' & _ & Ev).
  cbn [mbind option_bind REGISTRY SENDER_TABLE]. set (i' := mkInput _ _ q).
  assert (forall (r : option Z), r = None -> forall o, queues (ipc_on me w) o = if decide (r = Some o) then with_key scancode <$> queues (ipc_on me w) o else queues (ipc_on me w) o) as Hnone
    by (intros r -> o; by rewrite decide_False).
  destruct (hotkey scancode) eqn:Hk; [exists w, i'; split_and!; try done; by apply Hnone|].
  destruct (focused =? NO_FOCUS) eqn:Hf; [exists w, i'; split_and!; try done; by apply Hnone|]. cbn [orb].
  destruct (find_registered focused (REGISTRY i)) as [win|] eqn:Hw; [|exists w, i'; split_and!; try done; by apply Hnone].
  destruct (announce_total me (SENDER_TABLE i) (send_cap win) (word_message scancode) w He) as (w' & -> & He' & E1 & E2 & E3 & E4 & E5 & Hqs).
  cbn [mbind option_bind]. exists w', i'. split_and!; try done. intros o. rewrite Hqs. unfold spec_send.
  destruct ((resolve (SENDER_TABLE i) (send_cap win) SEND (kernel_on me (SCHED w))).2) as [cap|e]; [|by rewrite decide_False].
  destruct (queues (ipc_on me w) (object_id cap)) as [ms|] eqn:Em.
  - destruct (decide (Some (object_id cap) = Some o)) as [[= <-]|Hne].
    + rewrite Em. cbn [fmap option_fmap option_map]. unfold with_key. case_decide; cbn [fst]; [by rewrite decide_True|by rewrite Em].
    + case_decide; cbn [fst]; [|done]. rewrite decide_False; [done|congruence].
  - cbn [fst]. destruct (decide (Some (object_id cap) = Some o)) as [[= <-]|Hne]; [by rewrite Em|done].
Qed.

(** ** Every window has an endpoint of its own *)

Definition endpoint_of (i : input) (win : WindowInput) : option Z := object_id <$> mjoin (SENDER_TABLE i !! Z.to_nat (send_cap win)).

Record routing_ok (w : world) (i : input) : Prop := {
  ro_caps : Forall (fun win => 0 <= send_cap win /\ exists cap, mjoin (SENDER_TABLE i !! Z.to_nat (send_cap win)) = Some cap /\ live_for (KOBJ (SCHED w)) cap SEND) (REGISTRY i);
  ro_distinct : NoDup (endpoint_of i <$> REGISTRY i);
  ro_table : Forall (fun c => match c with Some cap => 0 <= object_id cap < Z.of_nat (length (OBJECTS (KOBJ (SCHED w)))) | None => True end) (SENDER_TABLE i);
  ro_slots : Forall (fun sl => 0 <= slot_object_id sl < Z.of_nat (length (OBJECTS (KOBJ (SCHED w))))) (EPS w);
  ro_eps : eps_ok w }.

Lemma live_for_grows k k' cap rs os : OBJECTS k' = OBJECTS k ++ os -> live_for k cap rs -> live_for k' cap rs.
Proof.
  intros Ho [(o & Hg & Ha & Hn) Hc]. split; [|done]. exists o. split_and!; [|done|done]. unfold get_object in *. rewrite Ho. by apply lookup_app_l_Some.
Qed.

Lemma queues_app me w w' o oid ep : EPS w' = EPS w ++ [mkSlot oid ep] -> Forall (fun sl => slot_object_id sl <> oid) (EPS w) ->
  queues (ipc_on me w') o = if decide (o = oid) then Some (queue_of ep) else queues (ipc_on me w) o.
Proof.
  intros He Hn. unfold queues, find_endpoint. cbn [ENDPOINTS ipc_on]. rewrite He.
  assert (find_slot o (EPS w ++ [mkSlot oid ep]) = match find_slot o (EPS w) with Some k => Some k | None => if decide (o = oid) then Some (length (EPS w)) else None end) as ->.
  { clear He Hn. induction (EPS w) as [|sl l IH]; cbn [find_slot app slot_object_id length].
    - destruct (Z.eqb_spec oid o); case_decide; congruence || done.
    - destruct (slot_object_id sl =? o); [done|]. rewrite IH. destruct (find_slot o l); [done|]. by case_decide. }
  destruct (find_slot o (EPS w)) as [k|] eqn:Ek.
  - destruct (find_slot_Some _ _ _ Ek) as (sl & Hsl & Hid). cbn [mbind option_bind]. rewrite (lookup_app_l_Some _ _ _ _ Hsl), Hsl. cbn [mbind option_bind].
    rewrite decide_False; [done|]. intros ->. exact (proj1 (Forall_lookup _ _) Hn _ _ Hsl Hid).
  - case_decide; [|done]. cbn [mbind option_bind]. rewrite lookup_app_r, Nat.sub_diag by lia. done.
Qed.

(** The thread a CPU runs. *)
Definition running (me : nat) (s : sched) : option Thread := c ← CPUS s !! me; current c.

Lemma create_endpoint_eq t rs s : Z.of_nat (length (OBJECTS (KERNEL s))) < 2 ^ 32 -> Z.of_nat (length t) < 2 ^ 32 ->
  let o := Z.of_nat (length (OBJECTS (KERNEL s))) in
  create_endpoint t rs s =
    (mkIpc (mkKernel (OBJECTS (KERNEL s) ++ [mkObject IpcEndpoint 1 true]) (record (TID (KERNEL s)) (EvGrant o rs) (AUDIT (KERNEL s))) (TID (KERNEL s)))
       (ENDPOINTS s ++ [mkSlot o endpoint_new]), t ++ [Some (mkCap o rs 1)], Z.of_nat (length t)).
Proof.
  intros Ho Ht o. unfold create_endpoint, create_object, grant, get_object. rewrite !(wrap_small 32) by (red; lia). fold o. cbn [OBJECTS set_objects].
  assert ((OBJECTS (KERNEL s) ++ [mkObject IpcEndpoint 1 true]) !! Z.to_nat o = Some (mkObject IpcEndpoint 1 true)) as ->; [|done].
  unfold o. rewrite Nat2Z.id, lookup_app_r, Nat.sub_diag by lia. done.
Qed.

Lemma resolve_last t cap rs k n : n = Z.of_nat (length t) -> current_gen k (object_id cap) = Some (cap_generation cap) -> contains (rights cap) rs = true ->
  resolve (t ++ [Some cap]) n rs k = (k, Ok cap).
Proof.
  intros -> Hg Hc. unfold resolve. rewrite Nat2Z.id, lookup_app_r, Nat.sub_diag by lia. cbn [lookup list_lookup mjoin option_join].
  by rewrite Hg, Z.eqb_refl, Hc.
Qed.

Lemma current_gen_last k os o obj : OBJECTS k = os ++ [obj] -> o = Z.of_nat (length os) -> alive obj = true -> current_gen k o = Some (generation obj).
Proof. intros Ho -> Ha. unfold current_gen, get_object. rewrite Ho, Nat2Z.id, lookup_app_r, Nat.sub_diag by lia. cbn. by rewrite Ha. Qed.

Lemma grant_current_eq me o rs s c th obj : CPUS s !! me = Some c -> current c = Some th -> Z.of_nat (length (cap_table th)) < 2 ^ 32 ->
  get_object (KOBJ s) o = Some obj ->
  exists k, grant_current_capability me o rs s =
    Some (set_kobj k (put_cpu me (set_current (Some (set_table (cap_table th ++ [Some (mkCap o rs (generation obj))]) th)) c) s), Z.of_nat (length (cap_table th))) /\
    OBJECTS k = OBJECTS (KOBJ s).
Proof.
  intros Hc Ht Hl Hg. unfold grant_current_capability. rewrite Hc. cbn [mbind option_bind]. rewrite Ht. unfold grant.
  change (get_object (kernel_on me s) o) with (get_object (KOBJ s) o). rewrite Hg, (wrap_small 32) by (red; lia). by eexists.
Qed.

Lemma register_spec me surface w i th : routing_ok w i -> running me (SCHED w) = Some th ->
  Z.of_nat (length (OBJECTS (KOBJ (SCHED w)))) < 2 ^ 32 -> Z.of_nat (length (SENDER_TABLE i)) < 2 ^ 32 -> Z.of_nat (length (cap_table th)) < 2 ^ 32 ->
  let o := Z.of_nat (length (OBJECTS (KOBJ (SCHED w)))) in
  let sc := Z.of_nat (length (SENDER_TABLE i)) in
  let rc := Z.of_nat (length (cap_table th)) in
  exists w' i', register_window_input me surface (w, i) = Some (w', i', rc) /\
    routing_ok w' i' /\ REGISTRY i' = REGISTRY i ++ [mkWindowInput surface sc] /\ EVENTS i' = EVENTS i /\
    OBJECTS (KOBJ (SCHED w')) = OBJECTS (KOBJ (SCHED w)) ++ [mkObject IpcEndpoint 1 true] /\
    running me (SCHED w') = Some (set_table (cap_table th ++ [Some (mkCap o RECEIVE 1)]) th) /\
    SENDER_TABLE i' = SENDER_TABLE i ++ [Some (mkCap o SEND 1)] /\
    (forall o', queues (ipc_on me w') o' = if decide (o' = o) then Some [] else queues (ipc_on me w) o').
Proof.
  intros [R1 R2 R3 R4 R5] Hth Ho Ht Hc o sc rc. unfold running in Hth. destruct (CPUS (SCHED w) !! me) as [c|] eqn:Hcpu; [cbn in Hth|done].
  unfold register_window_input. rewrite (create_endpoint_eq (SENDER_TABLE i) SEND (ipc_on me w) Ho Ht).
  cbn [KERNEL ENDPOINTS ipc_on kernel_on OBJECTS TID AUDIT]. fold o sc. set (os := OBJECTS (KOBJ (SCHED w)) ++ [mkObject IpcEndpoint 1 true]).
  set (w1 := set_ipc _ w). assert (OBJECTS (KOBJ (SCHED w1)) = os) as Ho1 by done.
  assert (get_object (KOBJ (SCHED w1)) o = Some (mkObject IpcEndpoint 1 true)) as Hg.
  { unfold get_object. rewrite Ho1. unfold os, o. rewrite Nat2Z.id, lookup_app_r, Nat.sub_diag by lia. done. }
  rewrite (resolve_last (SENDER_TABLE i) (mkCap o SEND 1) SEND (kernel_on me (SCHED w1)) sc eq_refl); [|exact (current_gen_last _ (OBJECTS (KOBJ (SCHED w))) o _ Ho1 eq_refl eq_refl)|done].
  cbn [object_id]. set (w2 := set_sched _ w1).
  destruct (grant_current_eq me o RECEIVE (SCHED w2) c th (mkObject IpcEndpoint 1 true) Hcpu Hth Hc Hg) as (k & -> & Hk). cbn [mbind option_bind generation]. fold rc.
  eexists _, _. split; [done|]. cbn [REGISTRY EVENTS SENDER_TABLE]. assert (EPS (set_sched (set_kobj k (put_cpu me (set_current (Some (set_table (cap_table th ++ [Some (mkCap o RECEIVE 1)]) th)) c) (SCHED w2))) w2) = EPS w ++ [mkSlot o endpoint_new]) as HE by done.
  assert (forall cap, live_for (KOBJ (SCHED w)) cap SEND -> live_for k cap SEND) as Hlive.
  { intros cap Hl. apply (live_for_grows (KOBJ (SCHED w)) k cap SEND [mkObject IpcEndpoint 1 true]); [by rewrite Hk|done]. }
  split_and!; [|done|done|by cbn; rewrite Hk|unfold running; cbn; rewrite list_lookup_insert_eq by (by eapply lookup_lt_Some); done|done|].
  - assert (length (OBJECTS k) = S (length (OBJECTS (KOBJ (SCHED w))))) as Hlen by (rewrite Hk; change (OBJECTS (KOBJ (SCHED w2))) with os; unfold os; rewrite length_app; cbn; lia).
    assert (forall win, win ∈ REGISTRY i -> endpoint_of (mkInput (REGISTRY i ++ [mkWindowInput surface sc]) (SENDER_TABLE i ++ [Some (mkCap o SEND 1)]) (EVENTS i)) win = endpoint_of i win) as Hep.
    { intros win Hin. destruct (proj1 (Forall_forall _ _) R1 win Hin) as (_ & cap & Hcap & _). unfold endpoint_of. cbn [SENDER_TABLE]. f_equal. f_equal.
      destruct (SENDER_TABLE i !! Z.to_nat (send_cap win)) as [x|] eqn:E; [|done]. by apply lookup_app_l_Some. }
    split; cbn [REGISTRY SENDER_TABLE].
    + apply Forall_app. split; [|apply Forall_singleton].
      * eapply Forall_impl; [exact R1|]. intros win (Hp & cap & Hcap & Hl). split; [done|]. exists cap. split; [|by apply Hlive].
        destruct (SENDER_TABLE i !! Z.to_nat (send_cap win)) as [x|] eqn:E; [|done]. by rewrite (lookup_app_l_Some _ _ _ _ E).
      * split; [cbn; lia|]. exists (mkCap o SEND 1). cbn [send_cap]. unfold sc. rewrite Nat2Z.id, lookup_app_r, Nat.sub_diag by lia. split; [done|].
        split; [|done]. exists (mkObject IpcEndpoint 1 true). split; [|done]. cbn. unfold get_object. rewrite Hk. exact Hg.
    + rewrite fmap_app. cbn [fmap list_fmap]. rewrite (list_fmap_ext _ (endpoint_of i) (REGISTRY i)) by (intros k0 win Hw; apply Hep; by eapply list_elem_of_lookup_2).
      apply NoDup_app. split_and!; [done| |apply NoDup_singleton]. intros e (win & -> & Hin)%list_elem_of_fmap He%list_elem_of_singleton.
      unfold endpoint_of at 2 in He. cbn [SENDER_TABLE send_cap] in He. unfold sc in He. rewrite Nat2Z.id, lookup_app_r, Nat.sub_diag in He by lia. cbn in He.
      unfold endpoint_of in He. destruct (SENDER_TABLE i !! Z.to_nat (send_cap win)) as [[cap|]|] eqn:E; [|done|done]. cbn in He. injection He as He.
      pose proof (proj1 (Forall_lookup _ _) R3 _ _ E) as Hlt. cbn in Hlt. lia.
    + change (OBJECTS (KOBJ (SCHED _))) with (OBJECTS k). rewrite Hlen. apply Forall_app. split; [|apply Forall_singleton; cbn; lia].
      eapply Forall_impl; [exact R3|]. intros [cap|]; [cbn; lia|done].
    + rewrite HE. change (OBJECTS (KOBJ (SCHED _))) with (OBJECTS k). rewrite Hlen. apply Forall_app. split; [|apply Forall_singleton; cbn; lia].
      eapply Forall_impl; [exact R4|]. intros sl. cbn. lia.
    + unfold eps_ok. rewrite HE. apply Forall_app. split; [done|]. apply Forall_singleton. apply endpoint_new_ok.
  - intros o'. rewrite (queues_app me w _ o' o endpoint_new HE); [done|]. eapply Forall_impl; [exact R4|]. intros sl. cbn. lia.
Qed.

Lemma find_registered_Some surface l win : find_registered surface l = Some win -> win ∈ l /\ wi_surface_object win = surface.
Proof.
  unfold find_registered. destruct (list_find _ l) as [[k w]|] eqn:E; [|done]. cbn. intros [= <-]. apply list_find_Some in E as (Hk & Hs & _).
  split; [by eapply list_elem_of_lookup_2|done].
Qed.

Lemma find_registered_last surface l sc : Forall (fun win => wi_surface_object win <> surface) l ->
  find_registered surface (l ++ [mkWindowInput surface sc]) = Some (mkWindowInput surface sc).
Proof.
  intros Hl. unfold find_registered. rewrite list_find_app_r by (by apply list_find_None). cbn. by rewrite decide_True.
Qed.

Lemma registered_endpoint me w i win : routing_ok w i -> win ∈ REGISTRY i ->
  exists cap, resolve (SENDER_TABLE i) (send_cap win) SEND (kernel_on me (SCHED w)) = (kernel_on me (SCHED w), Ok cap) /\ endpoint_of i win = Some (object_id cap).
Proof.
  intros Hr Hin. destruct (proj1 (Forall_forall _ _) (ro_caps _ _ Hr) win Hin) as (_ & cap & Hcap & Hl). exists cap. split; [|unfold endpoint_of; by rewrite Hcap].
  unfold resolve. rewrite Hcap. destruct Hl as [(o & Hg & Ha & Hn) Hc]. change (get_object (KOBJ (SCHED w)) (object_id cap)) with (get_object (kernel_on me (SCHED w)) (object_id cap)) in Hg.
  unfold current_gen. rewrite Hg. cbn [mbind option_bind]. by rewrite Ha, Hn, Z.eqb_refl, Hc.
Qed.

(** C33. Keys are private.  Whatever key arrives, only the window that has the focus can
    see it: the mailbox of every window registered for another surface is
    unchanged.  A key that is not one of the benchmark keys is appended to the
    mailbox of the focused window, unless that mailbox is full. *)
Theorem key_reaches_focused_only me scancode focused now w i : routing_ok w i -> events_ok (EVENTS i) -> HEAD (EVENTS i) < 2 ^ 64 - 1 ->
  exists w' i', deliver_key_event me scancode focused now (w, i) = Some (w', i') /\
    (forall win o, win ∈ REGISTRY i -> wi_surface_object win <> focused -> endpoint_of i win = Some o ->
       queues (ipc_on me w') o = queues (ipc_on me w) o) /\
    (forall win o, hotkey scancode = false -> focused <> NO_FOCUS -> find_registered focused (REGISTRY i) = Some win -> endpoint_of i win = Some o ->
       queues (ipc_on me w') o = with_key scancode <$> queues (ipc_on me w) o).
Proof.
  intros Hr Hq Hh. destruct (deliver_key_spec me scancode focused now w i (ro_eps _ _ Hr) Hq Hh) as (w' & i' & E & _ & _ & _ & _ & _ & _ & _ & _ & _ & _ & Hqs).
  exists w', i'. split; [done|]. split.
  - intros win o Hin Hne Ho. rewrite Hqs, decide_False; [done|]. unfold recipient. destruct (_ || _); [done|].
    destruct (find_registered focused (REGISTRY i)) as [win'|] eqn:Ef; [|done]. cbn [mbind option_bind]. destruct (find_registered_Some _ _ _ Ef) as [Hin' Hs].
    destruct (registered_endpoint me w i win' Hr Hin') as (cap & -> & Hcap). cbn [snd]. intros [= Heq]. rewrite Heq, <- Ho in Hcap.
    apply list_elem_of_lookup_1 in Hin as [a Ha]. apply list_elem_of_lookup_1 in Hin' as [c Hc].
    assert (a = c) as ->. { eapply (NoDup_lookup _ _ _ _ (ro_distinct _ _ Hr)); rewrite list_lookup_fmap; [by rewrite Ha|]. rewrite Hc. cbn. by rewrite Hcap. }
    congruence.
  - intros win o Hk Hf Ef Ho. rewrite Hqs. unfold recipient. rewrite Hk, (proj2 (Z.eqb_neq _ _) Hf), Ef. cbn [orb mbind option_bind].
    destruct (registered_endpoint me w i win Hr (proj1 (find_registered_Some _ _ _ Ef))) as (cap & -> & Hcap). cbn [snd]. rewrite decide_True; [done|]. congruence.
Qed.

Lemma receive_queued o s m ms : ipc_ok s -> queues s o = Some (m :: ms) -> exists s', try_receive_on_object o s = Some (s', Some m).
Proof.
  intros Hs Hq. unfold queues in Hq. unfold try_receive_on_object. destruct (find_endpoint o s) as [[k ep]|] eqn:Hf; [|done]. cbn in Hq. injection Hq as Hq.
  destruct (dequeue_spec ep (find_endpoint_ok _ _ _ _ Hs Hf)) as (ep' & -> & _ & Hd & _). rewrite Hq. cbn [mbind option_bind]. by eexists.
Qed.

(** A key typed into a new window comes back out of it.  A thread that registers a
    surface for input gets a capability; once the surface has the focus, the next
    key is what a receive on that capability returns, and no other mailbox changed
    since before the registration. *)
Theorem key_roundtrip me surface scancode now w i th : routing_ok w i -> events_ok (EVENTS i) -> HEAD (EVENTS i) < 2 ^ 64 - 1 ->
  running me (SCHED w) = Some th -> Z.of_nat (length (OBJECTS (KOBJ (SCHED w)))) < 2 ^ 32 -> Z.of_nat (length (SENDER_TABLE i)) < 2 ^ 32 ->
  Z.of_nat (length (cap_table th)) < 2 ^ 32 -> Forall (fun win => wi_surface_object win <> surface) (REGISTRY i) -> surface <> NO_FOCUS -> hotkey scancode = false ->
  exists w1 i1 rc w2 i2, register_window_input me surface (w, i) = Some (w1, i1, rc) /\
    deliver_key_event me scancode surface now (w1, i1) = Some (w2, i2) /\
    (exists s cap s', resolve_current_capability me rc RECEIVE (SCHED w2) = Some (s, Ok cap) /\
       try_receive_on_object (object_id cap) (ipc_on me (set_sched s w2)) = Some (s', Some (word_message scancode))) /\
    (forall o, o <> Z.of_nat (length (OBJECTS (KOBJ (SCHED w)))) -> queues (ipc_on me w2) o = queues (ipc_on me w) o).
Proof.
  intros Hr Hev Hh Hth Ho Ht Hc Hnew Hs Hk. set (o := Z.of_nat (length (OBJECTS (KOBJ (SCHED w))))).
  destruct (register_spec me surface w i th Hr Hth Ho Ht Hc) as (w1 & i1 & E1 & Hr1 & Reg & Ev & Hobj & Hrun & Htab & Hq1).
  destruct (deliver_key_spec me scancode surface now w1 i1 (ro_eps _ _ Hr1)) as (w2 & i2 & E2 & _ & _ & _ & _ & Hep & _ & _ & _ & Hcp & Hob & Hq2); [by rewrite Ev|by rewrite Ev|].
  assert (recipient me scancode surface w1 i1 = Some o) as Hrec.
  { unfold recipient. rewrite Hk, (proj2 (Z.eqb_neq _ _) Hs), Reg, find_registered_last by done. cbn [orb mbind option_bind]. rewrite Htab. cbn [send_cap].
    rewrite (resolve_last (SENDER_TABLE i) (mkCap o SEND 1) SEND _ _ eq_refl); [done| |done]. exact (current_gen_last _ (OBJECTS (KOBJ (SCHED w))) o _ Hobj eq_refl eq_refl). }
  exists w1, i1, (Z.of_nat (length (cap_table th))), w2, i2. split_and!; [done|done| |].
  - assert (running me (SCHED w2) = running me (SCHED w1)) as Hrun2 by (unfold running; by rewrite Hcp). rewrite Hrun in Hrun2.
    unfold resolve_current_capability, running in *. destruct (CPUS (SCHED w2) !! me) as [c|] eqn:E; [|done]. cbn [mbind option_bind] in *. rewrite Hrun2. cbn [cap_table set_table].
    rewrite (resolve_last (cap_table th) (mkCap o RECEIVE 1) RECEIVE _ _ eq_refl); [|refine (current_gen_last (kernel_on me (SCHED w2)) (OBJECTS (KOBJ (SCHED w))) o (mkObject IpcEndpoint 1 true) _ eq_refl eq_refl); cbn; by rewrite Hob|done].
    eexists _, _. destruct (receive_queued o (ipc_on me (set_sched (set_kobj (kernel_on me (SCHED w2)) (SCHED w2)) w2)) (word_message scancode) []) as (s' & Hs').
    + exact Hep.
    + assert (queues (ipc_on me w2) o = Some [word_message scancode]) as Hq; [|exact Hq]. rewrite Hq2, decide_True, Hq1, decide_True by done. done.
    + exists s'. split; [done|]. exact Hs'.
  - intros o' Hne. rewrite Hq2, decide_False by (rewrite Hrec; intros [= E]; by apply Hne). by rewrite Hq1, decide_False.
Qed.

Module InputWitness.

(** One thread, and a window of another thread that already takes input. *)
Definition thread1 : Thread := mkThread 1 Running 0 0 0 0x1000 table_new (replicate Gdt.IOPB_BYTES 0xFF).
Definition cpu : percpu := mkCpu None (Some thread1) None Gdt.TSS_ZERO 0 (mkRegs 0 0 0 0 0 0 0 0 0x1000 false) None.
Definition boot : world :=
  mkWorld (mkSched 2 [cpu] (replicate 72 0) 0 (fun _ => 0) kernel_init Vmm.VmmWitness.v0 [] []) [] service_init service_init.
Definition first : world * input := default (boot, input_init) (fst <$> register_window_input 0 7 (boot, input_init)).

Lemma boot_ok : routing_ok boot input_init.
Proof. split; [apply Forall_nil_2|apply NoDup_nil_2|apply Forall_nil_2|apply Forall_nil_2|apply Forall_nil_2]. Qed.

Lemma events_init_ok : events_ok events_init.
Proof. split; cbn; [by rewrite length_replicate|lia|lia|done]. Qed.

Lemma first_ok : routing_ok first.1 first.2 /\ EVENTS first.2 = events_init /\ endpoint_of first.2 (mkWindowInput 7 0) = Some 0 /\
  mkWindowInput 7 0 ∈ REGISTRY first.2 /\ REGISTRY first.2 = [mkWindowInput 7 0].
Proof.
  destruct (register_spec 0 7 boot input_init thread1 boot_ok eq_refl) as (w & i & E & Hok & Hreg & Hev & _ & _ & Ht & _); [vm_compute; done..|].
  assert (first = (w, i)) as -> by (unfold first; by rewrite E). cbn [fst snd]. split_and!; [done|done| |by rewrite Hreg; apply list_elem_of_singleton|done].
  unfold endpoint_of. by rewrite Ht.
Qed.

Lemma private_witness : exists w' i', deliver_key_event 0 0x1E 9 5 first = Some (w', i') /\ queues (ipc_on 0 w') 0 = queues (ipc_on 0 first.1) 0.
Proof.
  destruct first_ok as (H1 & H2 & H3 & H4 & _). destruct (key_reaches_focused_only 0 0x1E 9 5 first.1 first.2 H1) as (w' & i' & E & Hp & _);
    [rewrite H2; exact events_init_ok|rewrite H2; done|]. exists w', i'. split; [rewrite (surjective_pairing first); exact E|].
  exact (Hp (mkWindowInput 7 0) 0 H4 ltac:(done) H3).
Defined.

Lemma roundtrip_witness : exists w1 i1 rc w2 i2, register_window_input 0 9 (first.1, first.2) = Some (w1, i1, rc) /\
  deliver_key_event 0 0x1E 9 5 (w1, i1) = Some (w2, i2) /\
  (exists s cap s', resolve_current_capability 0 rc RECEIVE (SCHED w2) = Some (s, Ok cap) /\
     try_receive_on_object (object_id cap) (ipc_on 0 (set_sched s w2)) = Some (s', Some (word_message 0x1E))).
Proof.
  destruct first_ok as (H1 & H2 & H3 & H4 & H5).
  destruct (key_roundtrip 0 9 0x1E 5 first.1 first.2 (set_table [Some (mkCap 0 RECEIVE 1)] thread1) H1) as (w1 & i1 & rc & w2 & i2 & E1 & E2 & E3 & _);
    [rewrite H2; exact events_init_ok|rewrite H2; done|reflexivity|vm_compute; done|vm_compute; done|vm_compute; done|rewrite H5; by apply Forall_singleton|vm_compute; done|done|].
  exists w1, i1, rc, w2, i2. exact (conj E1 (conj E2 E3)).
Defined.

Lemma queue_witness : exists q' rs, exec_ops events_init [Enqueue (Key 0x1E) 5; Dequeue; Dequeue] = Some (q', rs) /\ rs = [None; Some (mkEvent (Key 0x1E) 5); None].
Proof.
  destruct (event_queue_refines [Enqueue (Key 0x1E) 5; Dequeue; Dequeue] events_init events_init_ok ltac:(cbn; lia)) as (q' & rs & E & _ & S & _).
  exists q', rs. split; [exact E|]. vm_compute in S. by injection S as _ <-.
Defined.
End InputWitness.
