(* ===== verification/Introspect.v ===== *)
(** * Introspection records

    What the kernel shows of itself to an agent ([kernel_rs/src/introspect.rs],
    [kernel_rs/src/tools.rs]): threads, audit records, windows and the catalog of
    tools as fixed-layout records, and the decoders an agent program reads them with
    ([user_rs/agent_demo/src/main.rs]).  The theorem is that the two sides agree: what
    the kernel writes for entry number [i] is what the program decodes there. *)

From S2P Require Import Prelude AuditLog Capability Bits Vmm Thread Geometry Damage Renderer Text Pacing Windows.

(** ** Threads *)

Record ThreadInfo := mkThreadInfo { ti_id : Z; ti_state : Z; ti_is_user : Z }.

Definition THREAD_INFO_SIZE : Z := 16.

Definition state_discriminant (st : ThreadState) : Z := match st with Ready => 0 | Running => 1 | Exited => 2 end.

Definition thread_info (e : Z * ThreadState * bool) : ThreadInfo :=
  let '(id, st, is_user) := e in mkThreadInfo id (state_discriminant st) (if (is_user : bool) then 1 else 0).

Definition snapshot_threads (max_entries : nat) (s : sched) : list ThreadInfo := thread_info <$> take max_entries (snapshot s).

Definition thread_info_bytes (i : ThreadInfo) : bytes := le_bytes 8 (ti_id i) ++ le_bytes 4 (ti_state i) ++ le_bytes 4 (ti_is_user i).

(** ** Audit records *)

Record AuditEntryInfo := mkAuditEntry { ae_seq : Z; ae_kind : Z; ae_a : Z; ae_b : Z }.

Definition AUDIT_ENTRY_SIZE : Z := 24.

Definition event_discriminant (ev : AuditEvent) : Z * Z * Z :=
  match ev with
  | EvGrant object_id rights => (0, object_id, rights)
  | EvDerive object_id rights => (1, object_id, rights)
  | EvRevoke object_id => (2, object_id, 0)
  | EvDenied cap_id => (3, cap_id, 0)
  | EvIpcSend object_id => (4, object_id, 0)
  | EvIpcReceive object_id => (5, object_id, 0)
  | EvInterruptDelivered vector => (6, vector, 0)
  | EvInterruptAcknowledged vector => (7, vector, 0)
  | EvPolicyDenied rights => (8, rights, 0)
  | EvIommuFault source_id reason => (9, source_id, reason)
  | EvProcessCrashed bdf fault_vector => (10, bdf, fault_vector)
  | EvProcessRestarted bdf attempt => (11, bdf, attempt)
  | EvProcessQuarantined bdf => (12, bdf, 0)
  | EvManifestDenied kind => (13, kind, 0)
  | EvAgentUiAction target_object action_type => (14, target_object, action_type)
  end.

Definition audit_entry (r : AuditRecord) : AuditEntryInfo :=
  let '(kind, a, b) := event_discriminant (rec_event r) in mkAuditEntry (rec_seq r) kind a b.

Definition snapshot_audit_for (tid : Z) (max_entries : nat) (a : audit) : list AuditEntryInfo := audit_entry <$> records_by_actor tid max_entries a.

Definition audit_entry_bytes (e : AuditEntryInfo) : bytes :=
  le_bytes 8 (ae_seq e) ++ le_bytes 4 (ae_kind e) ++ le_bytes 4 (ae_a e) ++ le_bytes 4 (ae_b e) ++ replicate 4 0.

(** ** Windows *)

Definition WINDOW_INFO_SIZE : Z := 60.

Definition snapshot_windows (max_entries : nat) (g : gui) : list WindowInfo := get_windows_snapshot max_entries g.

(** Signed fields are written in two's complement. *)
Definition window_info_bytes (i : WindowInfo) : bytes :=
  le_bytes 4 (wi_surface i) ++ le_bytes 4 (u32 (wi_x i)) ++ le_bytes 4 (u32 (wi_y i)) ++ le_bytes 4 (wi_width i) ++ le_bytes 4 (wi_height i) ++
  le_bytes 4 (wi_focused i) ++ le_bytes 4 (wi_title_len i) ++ wi_title i.

(** ** Tools *)

Record ToolDescriptor := mkTool { syscall_num : Z; required_rights : Z; side_effecting : Z }.

Definition TOOL_DESCRIPTOR_SIZE : Z := 16.

Definition catalog : list ToolDescriptor := [mkTool 7 INTROSPECT 0; mkTool 9 AUDIT_QUERY 0].

Definition tool_descriptor_bytes (d : ToolDescriptor) : bytes :=
  le_bytes 4 (syscall_num d) ++ le_bytes 4 (required_rights d) ++ le_bytes 4 (side_effecting d) ++ replicate 4 0.

(** ** The program's side

    Reads past the buffer cannot happen for an index below [MAX_ENTRIES]; a byte that
    is not there reads as zero here. *)

Definition read_le (n : nat) (buf : bytes) (offset : nat) : Z :=
  foldl (fun v i => Z.lor v (Z.shiftl (default 0 (buf !! (offset + i)%nat)) (Z.of_nat i * 8))) 0 (seq 0 n).

Definition read_u64_le (buf : bytes) (offset : nat) : Z := read_le 8 buf offset.
Definition read_u32_le (buf : bytes) (offset : nat) : Z := read_le 4 buf offset.

Definition decode_thread_info (buf : bytes) (index : nat) : Z * Z * Z :=
  let base := (index * 16)%nat in (read_u64_le buf base, read_u32_le buf (base + 8), read_u32_le buf (base + 12)).
Definition decode_tool_descriptor (buf : bytes) (index : nat) : Z * Z * Z :=
  let base := (index * 16)%nat in (read_u32_le buf base, read_u32_le buf (base + 4), read_u32_le buf (base + 8)).
Definition decode_audit_entry (buf : bytes) (index : nat) : Z * Z * Z * Z :=
  let base := (index * 24)%nat in (read_u64_le buf base, read_u32_le buf (base + 8), read_u32_le buf (base + 12), read_u32_le buf (base + 16)).
Definition decode_window_info (buf : bytes) (index : nat) : Z * Z * Z * Z * Z * Z * Z :=
  let base := (index * 60)%nat in
  (read_u32_le buf base, signed 32 (read_u32_le buf (base + 4)), signed 32 (read_u32_le buf (base + 8)), read_u32_le buf (base + 12),
   read_u32_le buf (base + 16), read_u32_le buf (base + 20), read_u32_le buf (base + 24)).

(** ** Reading back *)

Lemma lor_shiftl_add a b k : 0 <= k -> 0 <= a < 2 ^ k -> Z.lor a (Z.shiftl b k) = a + b * 2 ^ k.
Proof. intros Hk Ha. rewrite Z.lor_comm, lor_disjoint_add by done. lia. Qed.

Lemma le_val_app a b : le_val (a ++ b) = le_val a + le_val b * 2 ^ (8 * Z.of_nat (length a)).
Proof.
  induction a as [|x a IH]; cbn [app le_val length]; [cbn; lia|]. rewrite IH. replace (8 * Z.of_nat (S (length a))) with (8 + 8 * Z.of_nat (length a)) by lia.
  rewrite Z.pow_add_r by lia. change (2 ^ 8) with 256. lia.
Qed.

Lemma read_le_spec n buf off bs : all_bytes bs -> length bs = n -> take n (drop off buf) = bs -> read_le n buf off = le_val bs.
Proof.
  intros Hb Hl Ht. unfold read_le.
  assert (forall m, (m <= n)%nat -> foldl (fun v i => Z.lor v (Z.shiftl (default 0 (buf !! (off + i)%nat)) (Z.of_nat i * 8))) 0 (seq 0 m) = le_val (take m bs)) as Hm.
  { induction m as [|m IH]; intros Hle; [done|]. rewrite seq_S, foldl_app, IH by lia. cbn [foldl Nat.add].
    destruct (lookup_lt_is_Some_2 bs m) as [x Hx]; [lia|]. rewrite (take_S_r _ _ _ Hx), le_val_app. replace (le_val [x]) with x by (cbn [le_val]; lia). rewrite length_take, Nat.min_l by lia.
    assert (buf !! (off + m)%nat = Some x) as ->. { rewrite <- lookup_drop. rewrite <- Ht in Hx. by apply lookup_take_Some in Hx as [? _]. }
    cbn [default from_option id]. replace (Z.of_nat m * 8) with (8 * Z.of_nat m) by lia. rewrite lor_shiftl_add; [done|lia|].
    pose proof (le_val_range (take m bs) (Forall_take _ _ _ Hb)) as Hr. rewrite length_take, Nat.min_l in Hr by lia. done. }
  rewrite Hm by done. by rewrite take_ge by lia.
Qed.

(** A field at offset [k] of entry [i] of an array of entries of [n] bytes. *)
Lemma read_field {A} (enc : A -> bytes) (n k m i : nat) (es : list A) (e : A) (rest pre v post : bytes) :
  Forall (fun e => length (enc e) = n) es -> es !! i = Some e -> enc e = pre ++ v ++ post -> length pre = k -> length v = m -> all_bytes v ->
  read_le m (concat (enc <$> es) ++ rest) (i * n + k) = le_val v.
Proof.
  intros Hn He Henc Hk Hm Hb. apply read_le_spec; [done|done|]. revert i He. induction Hn as [|e0 es Hn0 Hn IH]; intros i He; [done|]. cbn [fmap list_fmap concat].
  destruct i as [|i].
  - injection He as ->. cbn [Nat.mul Nat.add]. rewrite Henc, <- !app_assoc, drop_app_length' by done. by rewrite take_app_length'.
  - cbn [Nat.mul]. rewrite <- !app_assoc. replace (n + i * n + k)%nat with (length (enc e0) + (i * n + k))%nat by (rewrite Hn0; lia).
    rewrite drop_app_add. by apply IH.
Qed.

Definition fits (n : nat) (v : Z) : Prop := 0 <= v < 2 ^ (8 * Z.of_nat n).

Ltac lens := rewrite ?length_app, ?length_le_bytes, ?length_replicate; cbn [length]; lia.

Lemma entry_field {A} (enc : A -> bytes) n i es e rest k m v pre post : Forall (fun e => length (enc e) = n) es -> es !! i = Some e ->
  enc e = pre ++ le_bytes m v ++ post -> length pre = k -> fits m v -> read_le m (concat (enc <$> es) ++ rest) (i * n + k) = v.
Proof.
  intros Hn He Henc Hk Hv. rewrite (read_field enc n k m i es e rest pre (le_bytes m v) post Hn He Henc Hk (length_le_bytes m v) (le_bytes_is_byte m v)).
  rewrite le_val_le_bytes. by apply Z.mod_small.
Qed.

(** One field of an entry, the bytes before it being [pre]. *)
Ltac entry pre := eapply (entry_field _ _ _ _ _ _ _ _ _ pre); [|eassumption|rewrite <- ?app_assoc; reflexivity|lens|eassumption].

Definition thread_info_ok (e : ThreadInfo) : Prop := fits 8 (ti_id e) /\ fits 4 (ti_state e) /\ fits 4 (ti_is_user e).
Definition tool_ok (e : ToolDescriptor) : Prop := fits 4 (syscall_num e) /\ fits 4 (required_rights e) /\ fits 4 (side_effecting e).
Definition audit_entry_ok (e : AuditEntryInfo) : Prop := fits 8 (ae_seq e) /\ fits 4 (ae_kind e) /\ fits 4 (ae_a e) /\ fits 4 (ae_b e).
Record window_info_ok (e : WindowInfo) : Prop := {
  wio_surface : fits 4 (wi_surface e); wio_x : i32_min <= wi_x e <= i32_max; wio_y : i32_min <= wi_y e <= i32_max;
  wio_width : fits 4 (wi_width e); wio_height : fits 4 (wi_height e); wio_focused : fits 4 (wi_focused e);
  wio_len : fits 4 (wi_title_len e); wio_title : length (wi_title e) = 32%nat }.

Lemma length_thread_info es : Forall (fun e => length (thread_info_bytes e) = 16%nat) es.
Proof. apply Forall_forall. intros. unfold thread_info_bytes. lens. Qed.
Lemma length_tool es : Forall (fun e => length (tool_descriptor_bytes e) = 16%nat) es.
Proof. apply Forall_forall. intros. unfold tool_descriptor_bytes. lens. Qed.
Lemma length_audit_entry es : Forall (fun e => length (audit_entry_bytes e) = 24%nat) es.
Proof. apply Forall_forall. intros. unfold audit_entry_bytes. lens. Qed.
Lemma length_window_info es : Forall (fun e => length (wi_title e) = 32%nat) es -> Forall (fun e => length (window_info_bytes e) = 60%nat) es.
Proof. intros H. eapply Forall_impl; [exact H|]. intros e He. cbn in He. unfold window_info_bytes. rewrite !length_app, !length_le_bytes, He. done. Qed.

Lemma signed_u32 v : i32_min <= v <= i32_max -> signed 32 (u32 v) = v.
Proof. intros H. unfold signed. rewrite wrap_wrap by lia. fold (signed 32 v). by apply signed_in. Qed.

(** The kernel and the program agree on every record.  Whatever entries precede it
    and whatever bytes follow, entry number [i] of an array the kernel wrote decodes
    to the fields of that entry: threads, tools, audit records, and windows with
    their signed positions. *)
Theorem records_roundtrip i rest :
  (forall es e, es !! i = Some e -> thread_info_ok e ->
     decode_thread_info (concat (thread_info_bytes <$> es) ++ rest) i = (ti_id e, ti_state e, ti_is_user e)) /\
  (forall es e, es !! i = Some e -> tool_ok e ->
     decode_tool_descriptor (concat (tool_descriptor_bytes <$> es) ++ rest) i = (syscall_num e, required_rights e, side_effecting e)) /\
  (forall es e, es !! i = Some e -> audit_entry_ok e ->
     decode_audit_entry (concat (audit_entry_bytes <$> es) ++ rest) i = (ae_seq e, ae_kind e, ae_a e, ae_b e)) /\
  (forall es e, es !! i = Some e -> Forall (fun e => length (wi_title e) = 32%nat) es -> window_info_ok e ->
     decode_window_info (concat (window_info_bytes <$> es) ++ rest) i =
       (wi_surface e, wi_x e, wi_y e, wi_width e, wi_height e, wi_focused e, wi_title_len e)).
Proof.
  split_and!.
  - intros es e He (H1 & H2 & H3). unfold decode_thread_info, read_u64_le, read_u32_le. rewrite <- (Nat.add_0_r (i * 16)) at 1.
    do 2 f_equal; [entry (@nil Z)|entry (le_bytes 8 (ti_id e))|entry (le_bytes 8 (ti_id e) ++ le_bytes 4 (ti_state e))]; apply length_thread_info.
  - intros es e He (H1 & H2 & H3). unfold decode_tool_descriptor, read_u32_le. rewrite <- (Nat.add_0_r (i * 16)) at 1.
    do 2 f_equal; [entry (@nil Z)|entry (le_bytes 4 (syscall_num e))|entry (le_bytes 4 (syscall_num e) ++ le_bytes 4 (required_rights e))]; apply length_tool.
  - intros es e He (H1 & H2 & H3 & H4). unfold decode_audit_entry, read_u64_le, read_u32_le. rewrite <- (Nat.add_0_r (i * 24)) at 1.
    do 3 f_equal; [entry (@nil Z)|entry (le_bytes 8 (ae_seq e))|entry (le_bytes 8 (ae_seq e) ++ le_bytes 4 (ae_kind e))
      |entry (le_bytes 8 (ae_seq e) ++ le_bytes 4 (ae_kind e) ++ le_bytes 4 (ae_a e))]; apply length_audit_entry.
  - intros es e He Ht [H1 H2 H3 H4 H5 H6 H7 _]. unfold decode_window_info, read_u32_le. rewrite <- (Nat.add_0_r (i * 60)) at 1.
    pose proof (length_window_info es Ht) as Hl. assert (forall v, fits 4 (u32 v)) as Hu by (intros v; exact (wrap_range 32 v ltac:(lia))).
    pose proof (Hu (wi_x e)) as Hx. pose proof (Hu (wi_y e)) as Hy. set (a := wi_surface e) in *. set (p := u32 (wi_x e)) in *. set (q := u32 (wi_y e)) in *.
    assert (read_le 4 (concat (window_info_bytes <$> es) ++ rest) (i * 60 + 4) = p) as -> by (entry (le_bytes 4 a); exact Hl).
    assert (read_le 4 (concat (window_info_bytes <$> es) ++ rest) (i * 60 + 8) = q) as -> by (entry (le_bytes 4 a ++ le_bytes 4 p); exact Hl).
    unfold p at 1, q at 1. rewrite !signed_u32 by done.
    do 6 f_equal; [entry (@nil Z)|entry (le_bytes 4 a ++ le_bytes 4 p ++ le_bytes 4 q)|entry (le_bytes 4 a ++ le_bytes 4 p ++ le_bytes 4 q ++ le_bytes 4 (wi_width e))
      |entry (le_bytes 4 a ++ le_bytes 4 p ++ le_bytes 4 q ++ le_bytes 4 (wi_width e) ++ le_bytes 4 (wi_height e))
      |entry (le_bytes 4 a ++ le_bytes 4 p ++ le_bytes 4 q ++ le_bytes 4 (wi_width e) ++ le_bytes 4 (wi_height e) ++ le_bytes 4 (wi_focused e))]; exact Hl.
Qed.

Module IntrospectWitness.

Definition entries : list WindowInfo := [mkWindowInfo 3 10 20 100 80 0 2 (replicate 32 65); mkWindowInfo 5 (-4) 20 64 48 1 1 (replicate 32 66)].

Lemma records_witness : decode_window_info (concat (window_info_bytes <$> entries) ++ [7; 7]) 1 = (5, -4, 20, 64, 48, 1, 1).
Proof.
  refine (proj2 (proj2 (proj2 (records_roundtrip 1 [7; 7]))) entries (mkWindowInfo 5 (-4) 20 64 48 1 1 (replicate 32 66)) eq_refl _ _); [by repeat constructor|].
  split; cbn; unfold fits, i32_min, i32_max; cbn; try lia; done.
Defined.
End IntrospectWitness.
