(* ===== verification/Machine.v ===== *)
(** * The kernel as the system calls see it

    [machine] is everything a system call can read or change: the scheduler with its
    memory, objects and audit log, the endpoints and the two services ([Service.world]),
    the desktop ([Windows.gui]), input routing, the hardware statics of the driver
    layer, the tables [kernel_rs/src/syscall.rs] keeps for its fixed processes, and the
    process table.

    A handler is a function of the machine that may panic: [handler A], with the
    notations of a monad.  The lifting functions run the operations of the components
    on their part of the machine. *)

From S2P Require Import Prelude AuditLog Capability Pmm Vmm Ipc Gdt Thread Service Geometry Damage Renderer Text Pacing Windows Driver Input.

(** ** State *)

(** A [static mut X_TABLE] with its [X_CAP]. *)
Record static_cap := mkStatic { static_table : option CapabilityTable; static_id : Z }.

Definition static_none : static_cap := mkStatic None 0.

Inductive ProcessStatus := ProcRunning | ProcExited (code : Z).

#[export] Instance ProcessStatus_eq_dec : EqDecision ProcessStatus.
Proof. solve_decision. Defined.

Record Process := mkProcess { pid : Z; thread_id : Z; proc_space : Z; status : ProcessStatus }.

Record processes := mkProcesses { NEXT_PID : Z; PROCESS_TABLE : list Process }.

Definition processes_init : processes := mkProcesses 1 [].

Record machine := mkMachine {
  WORLD : world; GUI : gui; INPUT : input; HW : hw; PROCS : processes;
  RING3_IPC : static_cap; INIT_SVC : static_cap; FB_READY : static_cap; KBD : static_cap; MOUSE : static_cap }.

Definition set_world (w : world) (m : machine) : machine :=
  mkMachine w (GUI m) (INPUT m) (HW m) (PROCS m) (RING3_IPC m) (INIT_SVC m) (FB_READY m) (KBD m) (MOUSE m).
Definition set_gui (g : gui) (m : machine) : machine :=
  mkMachine (WORLD m) g (INPUT m) (HW m) (PROCS m) (RING3_IPC m) (INIT_SVC m) (FB_READY m) (KBD m) (MOUSE m).
Definition set_input (i : input) (m : machine) : machine :=
  mkMachine (WORLD m) (GUI m) i (HW m) (PROCS m) (RING3_IPC m) (INIT_SVC m) (FB_READY m) (KBD m) (MOUSE m).
Definition set_hw (h : hw) (m : machine) : machine :=
  mkMachine (WORLD m) (GUI m) (INPUT m) h (PROCS m) (RING3_IPC m) (INIT_SVC m) (FB_READY m) (KBD m) (MOUSE m).
Definition set_procs (p : processes) (m : machine) : machine :=
  mkMachine (WORLD m) (GUI m) (INPUT m) (HW m) p (RING3_IPC m) (INIT_SVC m) (FB_READY m) (KBD m) (MOUSE m).

(** ** Handlers *)

Definition handler (A : Type) : Type := machine -> option (machine * A).

#[export] Instance handler_ret : MRet handler := fun _ a m => Some (m, a).
#[export] Instance handler_bind : MBind handler := fun _ _ f h m => match h m with Some (m, a) => f a m | None => None end.

Definition get {A} (f : machine -> A) : handler A := fun m => Some (m, f m).
Definition update (f : machine -> machine) : handler unit := fun m => Some (f m, tt).
Definition panic {A} : handler A := fun _ => None.
Definition from_option {A} (o : option A) : handler A := fun m => a ← o; Some (m, a).

Lemma bind_run {A B} (h : handler A) (f : A -> handler B) m m' a : h m = Some (m', a) -> (h ≫= f) m = f a m'.
Proof. intros E. unfold mbind, handler_bind. by rewrite E. Qed.

(** Operations of the components. *)
Definition on_world {A} (f : world -> option (world * A)) : handler A := fun m => '(w, a) ← f (WORLD m); Some (set_world w m, a).
Definition on_sched {A} (f : sched -> option (sched * A)) : handler A := fun m => '(s, a) ← f (SCHED (WORLD m)); Some (set_world (set_sched s (WORLD m)) m, a).
Definition on_gui {A} (f : gui -> option (gui * A)) : handler A := fun m => '(g, a) ← f (GUI m); Some (set_gui g m, a).
Definition on_gui_ (f : gui -> option gui) : handler unit := fun m => g ← f (GUI m); Some (set_gui g m, tt).
Definition on_procs {A} (f : processes -> processes * A) : handler A := fun m => let '(p, a) := f (PROCS m) in Some (set_procs p m, a).

Section handlers.
(** The executing CPU. *)
Variable me : nat.

Definition record_audit (ev : AuditEvent) : handler unit := update (fun m => set_world (record_on me ev (WORLD m)) m).

(** [thread::resolve_current_capability]. *)
Definition resolve_current (cap_id required : Z) : handler (result Capability CapError) := on_sched (resolve_current_capability me cap_id required).

(** [capability::object_kind]. *)
Definition kind_of_object (oid : Z) : handler (option KernelObjectKind) := get (fun m => object_kind (KOBJ (SCHED (WORLD m))) oid).

(** [vmm::current_cr3]. *)
Definition current_pml4 : handler Z := fun m => c ← CPUS (SCHED (WORLD m)) !! me; Some (m, current_cr3 (vmm_on c (SCHED (WORLD m)))).

Definition user_readable (pml4 vaddr len : Z) : handler bool := fun m => b ← readable pml4 vaddr len (WORLD m); Some (m, b).
Definition user_writable (pml4 vaddr len : Z) : handler bool := fun m => b ← writable pml4 vaddr len (WORLD m); Some (m, b).
Definition read_user (pml4 vaddr : Z) (len : nat) : handler bytes := get (fun m => copy_in pml4 vaddr len (WORLD m)).
Definition write_user (pml4 vaddr : Z) (data : bytes) : handler unit := update (fun m => set_world (copy_out pml4 vaddr data (WORLD m)) m).
End handlers.

(** ** Handlers that leave parts alone *)

(** Every result of a handler is related to its start. *)
Definition keeps {A} (R : machine -> machine -> Prop) (h : handler A) : Prop := forall m m' a, h m = Some (m', a) -> R m m'.

Section keeps.
Context (R : machine -> machine -> Prop) `{!PreOrder R}.

Lemma keeps_ret {A} (a : A) : keeps R (mret a).
Proof using PreOrder0. intros m m' a' [= <- _]. done. Qed.

Lemma keeps_bind {A B} (h : handler A) (f : A -> handler B) : keeps R h -> (forall a, keeps R (f a)) -> keeps R (h ≫= f).
Proof using PreOrder0.
  intros Hh Hf m m' b E. unfold mbind, handler_bind in E. destruct (h m) as [[m1 a]|] eqn:E1; [|done]. etransitivity; [by eapply Hh|by eapply Hf].
Qed.

Lemma keeps_get {A} (f : machine -> A) : keeps R (get f).
Proof using PreOrder0. intros m m' a [= <- _]. done. Qed.

Lemma keeps_update f : (forall m, R m (f m)) -> keeps R (update f).
Proof. intros Hf m m' a [= <- _]. done. Qed.

Lemma keeps_panic {A} : keeps R (panic : handler A).
Proof. done. Qed.

Lemma keeps_from_option {A} (o : option A) : keeps R (from_option o).
Proof using PreOrder0. intros m m' a E. unfold from_option in E. destruct o; [|done]. cbn in E. injection E as <- _. done. Qed.

Lemma keeps_if {A} (b : bool) (h1 h2 : handler A) : keeps R h1 -> keeps R h2 -> keeps R (if b then h1 else h2).
Proof using PreOrder0. by destruct b. Qed.

Lemma keeps_readable pml4 vaddr len : keeps R (user_readable pml4 vaddr len).
Proof using PreOrder0. intros m m' a E. unfold user_readable in E. destruct (readable _ _ _ _); [|done]. cbn in E. injection E as <- _. done. Qed.
Lemma keeps_writable pml4 vaddr len : keeps R (user_writable pml4 vaddr len).
Proof using PreOrder0. intros m m' a E. unfold user_writable in E. destruct (writable _ _ _ _); [|done]. cbn in E. injection E as <- _. done. Qed.
Lemma keeps_pml4 me : keeps R (current_pml4 me).
Proof using PreOrder0. intros m m' a E. unfold current_pml4 in E. destruct (CPUS _ !! me); [|done]. cbn in E. injection E as <- _. done. Qed.
End keeps.

Lemma keeps_on_gui {A} (R : machine -> machine -> Prop) (f : gui -> option (gui * A)) : (forall m g' a, f (GUI m) = Some (g', a) -> R m (set_gui g' m)) -> keeps R (on_gui f).
Proof. intros Hf m m' a E. unfold on_gui in E. bind_inv. destruct p as [g' a']. bind_inv. by eapply Hf. Qed.
Lemma keeps_on_gui_ (R : machine -> machine -> Prop) (f : gui -> option gui) : (forall m g', f (GUI m) = Some g' -> R m (set_gui g' m)) -> keeps R (on_gui_ f).
Proof. intros Hf m m' a E. unfold on_gui_ in E. bind_inv. by eapply Hf. Qed.
Lemma keeps_on_sched {A} (R : machine -> machine -> Prop) (f : sched -> option (sched * A)) :
  (forall m s' a, f (SCHED (WORLD m)) = Some (s', a) -> R m (set_world (set_sched s' (WORLD m)) m)) -> keeps R (on_sched f).
Proof. intros Hf m m' a E. unfold on_sched in E. bind_inv. destruct p as [s' a']. bind_inv. by eapply Hf. Qed.
Lemma keeps_on_world {A} (R : machine -> machine -> Prop) (f : world -> option (world * A)) :
  (forall m w' a, f (WORLD m) = Some (w', a) -> R m (set_world w' m)) -> keeps R (on_world f).
Proof. intros Hf m m' a E. unfold on_world in E. bind_inv. destruct p as [s' a']. bind_inv. by eapply Hf. Qed.

(** Walks through a handler, leaving the steps that change something. *)
Ltac keeps_step :=
  cbv beta zeta;
  match goal with
  | |- keeps _ (mret _) => apply keeps_ret; apply _
  | |- keeps _ (get _) => apply keeps_get; apply _
  | |- keeps _ panic => apply keeps_panic
  | |- keeps _ (from_option _) => apply keeps_from_option; apply _
  | |- keeps _ (user_readable _ _ _) => apply keeps_readable; apply _
  | |- keeps _ (user_writable _ _ _) => apply keeps_writable; apply _
  | |- keeps _ (current_pml4 _) => apply keeps_pml4; apply _
  | |- keeps _ (read_user _ _ _) => apply keeps_get; apply _
  | |- keeps _ (mbind _ _) => apply keeps_bind; [apply _| |intros ?]
  | |- keeps _ (if ?b then _ else _) => destruct b
  | |- keeps _ (match ?x with _ => _ end) => destruct x
  end.
Ltac keeps := repeat keeps_step.

(** ** Capabilities of the caller *)

(** The running thread holds [cap] in slot [cap_id], not revoked and with the rights
    [required]. *)
Definition holds_cap (me : nat) (cap_id required : Z) (cap : Capability) (m : machine) : Prop :=
  exists th, running me (SCHED (WORLD m)) = Some th /\ mjoin (cap_table th !! Z.to_nat cap_id) = Some cap /\
    live_for (KOBJ (SCHED (WORLD m))) cap required.

(** Only the audit log (and whom the next entry is attributed to) may differ. *)
Definition only_audit (m m' : machine) : Prop :=
  exists a t, m' = set_world (set_sched (set_kobj (mkKernel (OBJECTS (KOBJ (SCHED (WORLD m)))) a t) (SCHED (WORLD m))) (WORLD m)) m.

#[export] Instance only_audit_preorder : PreOrder only_audit.
Proof.
  split.
  - intros m. exists (AUDIT (KOBJ (SCHED (WORLD m)))), (TID (KOBJ (SCHED (WORLD m)))). destruct m as [w]; cbn. by destruct w as [[? ? ? ? ? [] ? ? ?]].
  - intros m1 m2 m3 (a & t & ->) (a' & t' & ->). by exists a', t'.
Qed.

Lemma record_audit_quiet me ev : keeps only_audit (record_audit me ev).
Proof. intros m m' a [= <- _]. eexists _, _. reflexivity. Qed.

Lemma resolve_current_spec me cap_id rs m m' r : resolve_current me cap_id rs m = Some (m', r) ->
  only_audit m m' /\ forall cap, r = Ok cap -> holds_cap me cap_id rs cap m.
Proof.
  unfold resolve_current, on_sched, resolve_current_capability. intros E. bind_inv. destruct p as [s' r']. bind_inv.
  destruct (current _) as [th|] eqn:Hth; bind_inv.
  - pose proof (resolve_OBJECTS (cap_table th) cap_id rs (kernel_on me (SCHED (WORLD m)))) as HO.
    pose proof (resolve_Ok (cap_table th) cap_id rs (kernel_on me (SCHED (WORLD m)))) as HR.
    destruct (resolve _ _ _ _) as [k r']. cbn [fst snd] in *. bind_inv. split.
    + exists (AUDIT k), (TID k). destruct k. cbn in *. by subst.
    + intros cap ->. destruct (proj1 (HR cap) eq_refl) as [Hc Hl]. exists th. split_and!; [|done|done]. unfold running. match goal with H : CPUS _ !! me = Some _ |- _ => by rewrite H end.
  - split; [|done]. match goal with |- only_audit ?a ?b => replace b with a; [reflexivity|] end. by destruct m as [[]].
Qed.

Lemma resolve_current_quiet me cap_id rs : keeps only_audit (resolve_current me cap_id rs).
Proof. intros m m' r E. by eapply resolve_current_spec. Qed.
