(* ===== verification/Surfaces.v ===== *)
(** * Windows through capabilities ([kernel_rs/src/compositor.rs])

    The system calls on surfaces: each resolves a capability of the calling thread with
    the right [MAP], checks that it names a [Surface], and works on the window of that
    object; a surface without a window is drawn straight to the display.  Also the mapping of
    a window's pixels into the caller's address space and the actions an agent can
    inject ([window_manager::map_window_buffer_to_user], [inject_agent_ui_action]).

    A surface call leaves every window but the one its capability names as it was. *)

From S2P Require Import Prelude AuditLog Capability Pmm Vmm Ipc FileServer Gdt Thread Service Geometry Damage Renderer Text Pacing Windows WindowsInv Desktop Driver Input Machine.

Definition MAX_DRAW_TEXT_LEN : Z := 256.
Definition MAX_BITMAP_BYTES : Z := 1024.
Definition USER_SURFACE_BASE : Z := 0x700000000000.
Definition SURFACE_FLAGS : Z := Z.lor (Z.lor PAGE_USER PAGE_WRITABLE) PAGE_NO_EXECUTE.

Section calls.
(** The executing CPU, the time-stamp counter, and where the allocator put the pixels of the
    window of each surface. *)
Variables (me : nat) (rdtsc : nat -> Z) (buf_ptr : Z -> Z).

(** The checks every surface call starts with: the object and its rectangle. *)
Definition current_surface (cap_id : Z) : handler (option (Z * (Z * Z * Z * Z))) :=
  r ← resolve_current me cap_id MAP;
  match r with
  | Err _ => mret None
  | Ok cap =>
      k ← kind_of_object (object_id cap);
      mret (match k with Some (Surface x y w h) => Some (object_id cap, (x, y, w, h)) | _ => None end)
  end.

Definition with_surface (cap_id : Z) (f : Z -> Z * Z * Z * Z -> handler Z) : handler Z :=
  s ← current_surface cap_id;
  match s with None => mret U64_MAX | Some (oid, rect) => f oid rect end.

Definition with_fb (f : Z -> Z -> Z -> handler Z) : handler Z :=
  p ← get (fun m => FB_PARAMS (GUI m));
  match p with None => mret U64_MAX | Some (ppsl, w, h) => f ppsl w h end.

(** The direct write of a surface no window is registered for. *)
Definition legacy_fill (ppsl sx sy w h color : Z) (g : gui) : option gui :=
  disp ← foldM (fun d py => foldM (fun d px => wbyte d (Z.to_nat (u64 (u64 (py * ppsl + px) * 4) / 4)) color) d (range sx (u32 (sx + w))))
    (DISPLAY (BUFS g)) (range sy (u32 (sy + h)));
  let s := BUFS g in
  Some (set_bufs (mkBufs (BACKBUFFER s) (FRONTBUFFER s) (BACKBUFFER_WIDTH s) (BACKBUFFER_HEIGHT s) disp) g).

Definition syscall_fill_surface (cap_id color : Z) : handler Z :=
  with_surface cap_id (fun oid '(sx, sy, w, h) => with_fb (fun ppsl _ _ =>
    filled ← on_gui (fun g => Some (fill oid color g));
    if (filled : bool) then mret 0
    else _ ← on_gui_ (legacy_fill ppsl sx sy w h color); mret 0)).

Definition legacy_text (ppsl sx sy w h tx ty fg bg : Z) (txt : bytes) (g : gui) : option gui :=
  '(disp, t) ← draw_text ppsl (u32 (sx + tx)) (u32 (sy + ty)) txt fg bg sx sy w h (DISPLAY (BUFS g), TEXT g);
  let s := BUFS g in
  Some (set_text t (set_bufs (mkBufs (BACKBUFFER s) (FRONTBUFFER s) (BACKBUFFER_WIDTH s) (BACKBUFFER_HEIGHT s) disp) g)).

(** [SurfaceTextRequest] and [SurfaceBitmapRequest], [repr(C)]. *)
Definition syscall_draw_text (cap_id request_vaddr : Z) : handler Z :=
  with_surface cap_id (fun oid '(sx, sy, w, h) =>
    pml4 ← current_pml4 me;
    ok ← user_readable pml4 request_vaddr 32;
    if negb ok then mret U64_MAX else
    b ← read_user pml4 request_vaddr 32;
    tx ← from_option (rle 4 b 0); ty ← from_option (rle 4 b 4);
    fg ← from_option (rle 4 b 8); bg ← from_option (rle 4 b 12);
    text_vaddr ← from_option (rle 8 b 16); len ← from_option (rle 4 b 24);
    let text_len := Z.min len MAX_DRAW_TEXT_LEN in
    ok ← (if text_len =? 0 then mret false else user_readable pml4 text_vaddr text_len);
    if negb ok then mret U64_MAX else
    txt ← read_user pml4 text_vaddr (Z.to_nat text_len);
    with_fb (fun ppsl _ _ =>
      drawn ← on_gui (window_draw_text oid tx ty txt fg bg);
      if (drawn : bool) then mret 0
      else _ ← on_gui_ (legacy_text ppsl sx sy w h tx ty fg bg txt); mret 0)).

Definition syscall_draw_bitmap (cap_id request_vaddr : Z) : handler Z :=
  with_surface cap_id (fun oid _ =>
    pml4 ← current_pml4 me;
    ok ← user_readable pml4 request_vaddr 40;
    if negb ok then mret U64_MAX else
    b ← read_user pml4 request_vaddr 40;
    bx ← from_option (rle 4 b 0); by' ← from_option (rle 4 b 4);
    bw ← from_option (rle 4 b 8); bh ← from_option (rle 4 b 12);
    fg ← from_option (rle 4 b 16); bg ← from_option (rle 4 b 20);
    data_vaddr ← from_option (rle 8 b 24); len ← from_option (rle 4 b 32);
    let data_len := Z.min len MAX_BITMAP_BYTES in
    ok ← (if data_len =? 0 then mret false else user_readable pml4 data_vaddr data_len);
    if negb ok then mret U64_MAX else
    data ← read_user pml4 data_vaddr (Z.to_nat data_len);
    _ ← on_gui (window_draw_bitmap oid bx by' bw bh data fg bg);
    mret 0).

Definition syscall_move_window (cap_id new_x new_y : Z) : handler Z :=
  with_surface cap_id (fun oid _ => with_fb (fun ppsl w h =>
    moved ← on_gui (move_window oid new_x new_y w h);
    if negb moved then mret U64_MAX
    else _ ← on_gui_ (present ppsl w h); mret 0)).

Definition syscall_present_window (cap_id : Z) (dirty : option (Z * Z)) : handler Z :=
  with_surface cap_id (fun oid _ => with_fb (fun ppsl w h =>
    match dirty with
    | Some (local_y, local_height) =>
        shown ← on_gui (present_partial ppsl w h oid local_y local_height);
        mret (if (shown : bool) then 0 else U64_MAX)
    | None => _ ← on_gui_ (present ppsl w h); mret 0
    end)).

(** The pages of a window's pixels, one by one; [None] when one is not mapped
    in the kernel, the earlier ones staying mapped for the caller. *)
Fixpoint map_buffer_pages (user_pml4 user_base ptr : Z) (pages : list Z) (s : sched) : option (sched * bool) :=
  match pages with
  | [] => Some (s, true)
  | p :: pages' =>
      match virt_to_phys (MEM (PMM (VM s))) (KERNEL_PML4_PHYS (VM s)) (u64 (ptr + p * 4096)) with
      | None => Some (s, false)
      | Some paddr =>
          v ← map_page_in user_pml4 (u64 (user_base + p * 4096)) paddr SURFACE_FLAGS (VM s);
          map_buffer_pages user_pml4 user_base ptr pages' (set_vm v s)
      end
  end.

Definition map_window_buffer_to_user (surface user_pml4 : Z) : handler (option Z) :=
  win ← get (fun m => find_window surface (GUI m));
  match win with
  | None => mret None
  | Some w =>
      let user_base := u64 (USER_SURFACE_BASE + surface * 0x100000) in
      let page_count := u64 (u64 (win_width w * win_height w * 4) + 4095) / 4096 in
      mapped ← on_sched (map_buffer_pages user_pml4 user_base (buf_ptr surface) (range 0 page_count));
      mret (if (mapped : bool) then Some user_base else None)
  end.

Definition syscall_map_surface (cap_id : Z) : handler Z :=
  with_surface cap_id (fun oid _ =>
    pml4 ← current_pml4 me;
    r ← map_window_buffer_to_user oid pml4;
    mret (default U64_MAX r)).

Definition syscall_commit_surface (cap_id x y w h : Z) : handler Z :=
  with_surface cap_id (fun oid _ =>
    damaged ← on_gui (commit_window_damage oid x y w h);
    if (damaged : bool) then
      p ← get (fun m => FB_PARAMS (GUI m));
      match p with
      | Some (ppsl, fw, fh) => _ ← on_gui (request_presentation rdtsc ppsl fw fh false); mret 0
      | None => mret 0
      end
    else mret U64_MAX).

(** ** Agents *)

(** [input_routing::deliver_key_event] on the machine. *)
Definition key_event (scancode : Z) : handler unit := fun m =>
  let '(now, g) := read_tsc rdtsc (GUI m) in
  '(w, i) ← deliver_key_event me scancode (FOCUSED_SURFACE (GUI m)) now (WORLD m, INPUT m);
  Some (set_world w (set_input i (set_gui g m)), tt).

Inductive agent_error := NoSuchWindow | UnknownActionType.

Definition inject_agent_ui_action (surface action arg0 arg1 : Z) : handler (result unit agent_error) :=
  ws ← get (fun m => WINDOWS (GUI m));
  let target := match ws with w :: _ => if surface =? 0 then surface_object w else surface | [] => surface end in
  match position target ws with
  | None => mret (Err NoSuchWindow)
  | Some pos =>
      if action =? 1 then
        _ ← update (fun m => set_gui (set_focus surface (GUI m)) m);
        _ ← key_event (u8 arg0); mret (Ok tt)
      else if action =? 2 then
        _ ← update (fun m => set_gui (set_focus surface (GUI m)) m); mret (Ok tt)
      else if action =? 3 then
        _ ← update (fun m => set_gui (mark_window_dirty (set_windows (to_top pos ws) (set_focus surface (GUI m)))) m); mret (Ok tt)
      else if action =? 4 then mret (Ok tt)
      else mret (Err UnknownActionType)
  end.
End calls.

(** ** Isolation *)

(** Windows of other surfaces are where and what they were, nothing is registered, closed or
    restacked, and the focus stays. *)
Definition untouched (oid : Z) (g g' : gui) : Prop :=
  surface_object <$> WINDOWS g' = surface_object <$> WINDOWS g /\ FOCUSED_SURFACE g' = FOCUSED_SURFACE g /\
  forall k w, WINDOWS g !! k = Some w -> surface_object w <> oid -> WINDOWS g' !! k = Some w.

#[export] Instance untouched_preorder oid : PreOrder (untouched oid).
Proof.
  split; [done|]. intros g1 g2 g3 (A1 & B1 & C1) (A2 & B2 & C2). split_and!; [congruence..|]. intros k w Hw Hs. exact (C2 k w (C1 k w Hw Hs) Hs).
Qed.

Lemma untouched_same oid g g' : WINDOWS g' = WINDOWS g -> FOCUSED_SURFACE g' = FOCUSED_SURFACE g -> untouched oid g g'.
Proof. intros A B. split; [by rewrite A|]. split; [done|]. by rewrite A. Qed.

Lemma untouched_with_window oid f g : (forall w, surface_object (f w) = surface_object w) -> untouched oid g (with_window oid f g).
Proof.
  intros Hf. unfold with_window. destruct (position oid (WINDOWS g)) as [k|] eqn:Hp; [|done]. destruct (position_Some _ _ _ Hp) as (w & Hw & Hs & _).
  split; [|split; [done|]]; cbn.
  - apply list_eq. intros i. rewrite !list_lookup_fmap. destruct (decide (i = k)) as [->|Hne]; [|by rewrite list_lookup_alter_ne].
    rewrite list_lookup_alter_eq, Hw. cbn. by rewrite Hf.
  - intros i w' Hw' Hne. rewrite list_lookup_alter_ne; [done|]. intros ->. congruence.
Qed.

Ltac gui_inv :=
  repeat match goal with
  | H : mbind _ _ = Some _ |- _ => progress bind_inv
  | H : Some _ = Some _ |- _ => progress bind_inv
  | p : (_ * _)%type |- _ => destruct p
  | H : (if ?c then _ else _) = Some _ |- _ => destruct c
  end.

Lemma fill_untouched oid c g : untouched oid g (fill oid c g).1.
Proof. unfold fill. destruct (find_window oid g); [by apply untouched_with_window|done]. Qed.

Lemma draw_text_untouched oid tx ty txt fg bg g g' d : window_draw_text oid tx ty txt fg bg g = Some (g', d) -> untouched oid g g'.
Proof. unfold window_draw_text. destruct (find_window oid g); intros; gui_inv; [|done]. by apply untouched_with_window. Qed.

Lemma draw_bitmap_untouched oid bx by' bw bh data fg bg g g' d : window_draw_bitmap oid bx by' bw bh data fg bg g = Some (g', d) -> untouched oid g g'.
Proof. unfold window_draw_bitmap. destruct (find_window oid g); intros; gui_inv; [|done]. by apply untouched_with_window. Qed.

Lemma move_untouched oid nx ny w h g g' d : move_window oid nx ny w h g = Some (g', d) -> untouched oid g g'.
Proof. unfold move_window. destruct (find_window oid g); intros; gui_inv; try done. by apply untouched_with_window. Qed.

Lemma draw_cursor_windows ppsl w h g g' : draw_cursor ppsl w h g = Some g' -> exists s, g' = set_bufs s g.
Proof. unfold draw_cursor. intros. gui_inv. by eexists. Qed.

Lemma present_untouched oid ppsl w h g g' : present ppsl w h g = Some g' -> untouched oid g g'.
Proof.
  unfold present. cbv zeta. intros. gui_inv. match goal with H : draw_cursor _ _ _ _ = Some _ |- _ => apply draw_cursor_windows in H as (s & ->) end. by apply untouched_same.
Qed.

Lemma present_partial_untouched oid ppsl w h s ly lh g g' d : present_partial ppsl w h s ly lh g = Some (g', d) -> untouched oid g g'.
Proof. unfold present_partial. cbv zeta. destruct (position _ _); intros; gui_inv; try done; by apply untouched_same. Qed.

Lemma redraw_untouched oid ppsl w h rx ry rw rh g g' : redraw_rect ppsl w h rx ry rw rh g = Some g' -> untouched oid g g'.
Proof. unfold redraw_rect. cbv zeta. intros. gui_inv; try done; by apply untouched_same. Qed.

Lemma foldM_keeps {A S} (R : S -> S -> Prop) `{!PreOrder R} (f : S -> A -> option S) l s s' :
  (forall s a s', f s a = Some s' -> R s s') -> foldM f s l = Some s' -> R s s'.
Proof.
  intros Hf. revert s. induction l as [|a l IH]; intros s; cbn [foldM]; intros E; [by injection E as ->|]. bind_inv. etransitivity; [by eapply Hf|by apply IH].
Qed.

Lemma flush_untouched oid ppsl w h g g' : flush_dirty_surfaces ppsl w h g = Some g' -> untouched oid g g'.
Proof.
  unfold flush_dirty_surfaces. cbv zeta. intros E. destruct (WINDOW_DIRTY g); [destruct (_ =? 0)%nat|destruct (CURSOR_DIRTY g)].
  - etransitivity; [|by eapply present_untouched]. by apply untouched_same.
  - bind_inv. apply draw_cursor_windows in E as (s & ->). transitivity g0; [|by apply untouched_same].
    transitivity (set_dirty (CURSOR_DIRTY g) false g); [by apply untouched_same|].
    refine (foldM_keeps (untouched oid) _ _ _ _ (fun g1 r g2 Hr => redraw_untouched oid _ _ _ _ _ _ _ _ _ Hr) E0).
  - apply draw_cursor_windows in E as (s & ->). by apply untouched_same.
  - by injection E as ->.
Qed.

Lemma commit_untouched oid s x y w h g g' d : commit_window_damage s x y w h g = Some (g', d) -> untouched oid g g'.
Proof. unfold commit_window_damage, add_damage_rect. cbv zeta. destruct (find_window _ _); intros; gui_inv; try done; by apply untouched_same. Qed.

Lemma request_untouched oid rdtsc ppsl w h force g g' d : request_presentation rdtsc ppsl w h force g = Some (g', d) -> untouched oid g g'.
Proof.
  unfold request_presentation. cbv zeta. destruct (read_tsc_set rdtsc (set_pacing (mkPacing (TARGET_FPS (PACING g)) (LAST_PRESENT_TSC (PACING g)) (FRAME_PENDING (PACING g)) (u64 (FRAMES_REQUESTED (PACING g) + 1)) (FRAMES_PRESENTED (PACING g)) (FRAMES_THROTTLED (PACING g))
     (PRESENTATION_SEQUENCE (PACING g)) (ANIMATIONS (PACING g)) (HAS_ACTIVE (PACING g)) (TSC_READS (PACING g))) g)) as (now & p & ->).
  intros. gui_inv; [|by apply untouched_same]. match goal with H : flush_dirty_surfaces _ _ _ ?g0 = Some ?g1 |- _ => transitivity g1; [transitivity g0|] end; [by apply untouched_same|by eapply flush_untouched|by apply untouched_same].
Qed.

(** The surface calls, by name. *)
Inductive surface_call :=
  | CFill (color : Z) | CText (request_vaddr : Z) | CBitmap (request_vaddr : Z) | CMove (new_x new_y : Z)
  | CPresent (dirty : option (Z * Z)) | CMap | CCommit (x y w h : Z).

Section isolation.
Variables (me : nat) (rdtsc : nat -> Z) (buf_ptr : Z -> Z).

Definition exec_call (c : surface_call) (cap_id : Z) : handler Z :=
  match c with
  | CFill color => syscall_fill_surface me cap_id color
  | CText v => syscall_draw_text me cap_id v
  | CBitmap v => syscall_draw_bitmap me cap_id v
  | CMove x y => syscall_move_window me cap_id x y
  | CPresent d => syscall_present_window me cap_id d
  | CMap => syscall_map_surface me buf_ptr cap_id
  | CCommit x y w h => syscall_commit_surface me rdtsc cap_id x y w h
  end.

Definition gui_keeps (oid : Z) (m m' : machine) : Prop := untouched oid (GUI m) (GUI m').

#[local] Instance gui_keeps_preorder oid : PreOrder (gui_keeps oid).
Proof. split; [intros m; unfold gui_keeps; reflexivity|]. intros m1 m2 m3 H1 H2. unfold gui_keeps in *. by etransitivity. Qed.

(** The capability in slot [cap_id] of the caller names the surface [oid]. *)
Definition names_surface (cap_id oid : Z) (m : machine) : Prop :=
  exists cap x y w h, holds_cap me cap_id MAP cap m /\ object_id cap = oid /\ object_kind (KOBJ (SCHED (WORLD m))) oid = Some (Surface x y w h).

Lemma with_surface_spec cap_id f m m' v : (forall oid rect, keeps (gui_keeps oid) (f oid rect)) -> with_surface me cap_id f m = Some (m', v) ->
  (exists oid, names_surface cap_id oid m /\ untouched oid (GUI m) (GUI m')) \/ (v = U64_MAX /\ only_audit m m').
Proof.
  intros Hf E. unfold with_surface, mbind, handler_bind in E. destruct (current_surface me cap_id m) as [[m1 r]|] eqn:E1; [|done].
  unfold current_surface, mbind, handler_bind in E1. destruct (resolve_current me cap_id MAP m) as [[m2 r2]|] eqn:E2; [|done].
  destruct (resolve_current_spec _ _ _ _ _ _ E2) as [Hq Hr]. destruct r2 as [cap|e]; [|injection E1 as <- <-; injection E as <- <-; by right].
  cbn in E1. injection E1 as <- <-. pose proof Hq as (a & t & ->). cbn in E.
  destruct (object_kind _ (object_id cap)) as [[]|] eqn:Hk; try (injection E as <- <-; by right).
  left. exists (object_id cap). split; [|by apply Hf in E].
  unfold object_kind, get_object in Hk |- *. cbn in Hk. unfold names_surface. eexists cap, _, _, _, _. split_and!; [by apply Hr|done|exact Hk].
Qed.

Lemma with_fb_keeps oid f : (forall ppsl w h, keeps (gui_keeps oid) (f ppsl w h)) -> keeps (gui_keeps oid) (with_fb f).
Proof. intros Hf. apply keeps_bind; [apply _|apply keeps_get; apply _|]. intros [[[ppsl w] h]|]; [done|apply keeps_ret; apply _]. Qed.

Lemma map_pages_gui oid pml4 base ptr pages : keeps (gui_keeps oid) (on_sched (map_buffer_pages pml4 base ptr pages)).
Proof. apply keeps_on_sched. intros m s' a _. unfold gui_keeps. reflexivity. Qed.

Lemma isolation_run c cap_id m m' v : exec_call c cap_id m = Some (m', v) ->
  (exists oid, names_surface cap_id oid m /\ untouched oid (GUI m) (GUI m')) \/ (v = U64_MAX /\ only_audit m m').
Proof.
  destruct c; cbn [exec_call]; apply with_surface_spec; intros oid [[[sx sy] sw] sh]; try apply with_fb_keeps; intros; keeps.
  - apply keeps_on_gui. intros m0 g' a [= E]. pose proof (fill_untouched oid color (GUI m0)) as H. by rewrite E in H.
  - apply keeps_on_gui_. intros m0 g' E. unfold legacy_fill in E. gui_inv. by apply untouched_same.
  - apply with_fb_keeps. intros. keeps.
    + apply keeps_on_gui. intros m0 g' d E. by eapply draw_text_untouched.
    + apply keeps_on_gui_. intros m0 g' E. unfold legacy_text in E. gui_inv. by apply untouched_same.
  - apply keeps_on_gui. intros m0 g' d E. by eapply draw_bitmap_untouched.
  - apply keeps_on_gui. intros m0 g' d E. by eapply move_untouched.
  - apply keeps_on_gui_. intros m0 g' E. by eapply present_untouched.
  - apply keeps_on_gui. intros m0 g' d E. by eapply present_partial_untouched.
  - apply keeps_on_gui_. intros m0 g' E. by eapply present_untouched.
  - unfold map_window_buffer_to_user. keeps. apply map_pages_gui.
  - apply keeps_on_gui. intros m0 g' d E. by eapply commit_untouched.
  - apply keeps_on_gui. intros m0 g' d E. by eapply request_untouched.
Qed.

Lemma resolve_handler_total cap_id rs m : is_Some (CPUS (SCHED (WORLD m)) !! me) -> exists m' r, resolve_current me cap_id rs m = Some (m', r).
Proof.
  intros [c Hc]. unfold resolve_current, on_sched, resolve_current_capability. rewrite Hc. cbn [mbind option_bind].
  destruct (current c); [|by eexists _, _]. destruct (resolve _ _ _ _). by eexists _, _.
Qed.

Lemma surface_denied cap_id f m : is_Some (CPUS (SCHED (WORLD m)) !! me) -> (forall oid, ~ names_surface cap_id oid m) ->
  exists m', with_surface me cap_id f m = Some (m', U64_MAX).
Proof.
  intros Hc Hno. destruct (resolve_handler_total cap_id MAP m Hc) as (m1 & r & E). destruct (resolve_current_spec _ _ _ _ _ _ E) as [(a & t & ->) Hr].
  unfold with_surface, current_surface, mbind, handler_bind. rewrite E. destruct r as [cap|e]; [|by eexists]. cbn.
  destruct (object_kind _ (object_id cap)) as [[]|] eqn:Hk; try by eexists. destruct (Hno (object_id cap)).
  eexists cap, _, _, _, _. split_and!; [by apply Hr|done|]. unfold object_kind, get_object in *. exact Hk.
Qed.

(** A surface call affects one window: the one the caller's own capability names, with the right to
    it; every other window keeps its place in the stack, its position and its pixels, and
    the focus stays.  Without such a capability the call returns [u64::MAX] and changes nothing
    but the audit log. *)
Theorem surface_isolation c cap_id m :
  (forall m' v, exec_call c cap_id m = Some (m', v) ->
     (exists oid, names_surface cap_id oid m /\ untouched oid (GUI m) (GUI m')) \/ (v = U64_MAX /\ only_audit m m')) /\
  (is_Some (CPUS (SCHED (WORLD m)) !! me) -> (forall oid, ~ names_surface cap_id oid m) ->
     exists m', exec_call c cap_id m = Some (m', U64_MAX) /\ only_audit m m').
Proof.
  split; [intros; by eapply isolation_run|]. intros Hc Hno.
  assert (exists m', exec_call c cap_id m = Some (m', U64_MAX)) as [m' E] by (destruct c; cbn [exec_call]; by apply surface_denied).
  exists m'. split; [done|]. destruct (isolation_run _ _ _ _ _ E) as [(oid & H & _)|[_ H]]; [by destruct (Hno oid)|done].
Qed.
End isolation.

(** ** Two windows, one of them the caller's *)

Module SurfacesWitness.
Import DesktopWitness.

Definition painter : Thread := mkThread 1 Running 0 0 0 0x1000 [Some (mkCap 2 MAP 1)] (replicate Gdt.IOPB_BYTES 0xFF).
Definition objects : list KernelObject :=
  [mkObject IpcEndpoint 1 true; mkObject (Surface 2 25 20 20) 1 true; mkObject (Surface 12 40 24 20) 1 true].
Definition boot : machine :=
  mkMachine
    (mkWorld (mkSched 2 [mkCpu None (Some painter) None Gdt.TSS_ZERO 0 (mkRegs 0 0 0 0 0 0 0 0 0x1000 false) None] (replicate 72 0) 0 (fun _ => 0)
       (mkKernel objects audit_init 0) Vmm.VmmWitness.v0 [] []) [] service_init service_init)
    two input_init hw_init processes_init static_none static_none static_none static_none static_none.

Lemma ran {A} (o : option (machine * A)) v : snd <$> o = Some v -> exists m', o = Some (m', v).
Proof. destruct o as [[m' a]|]; [|done]. intros [= ->]. by eexists. Qed.

Lemma isolation_witness : exists m', exec_call 0 clock (fun _ => 0) (CFill 7) 0 boot = Some (m', 0) /\ WINDOWS (GUI m') !! 0%nat = Some (win 1 2 25 20 20 0x111111).
Proof.
  destruct (ran (exec_call 0 clock (fun _ => 0) (CFill 7) 0 boot) 0) as [m' E]; [vm_compute; reflexivity|]. exists m'. split; [exact E|].
  destruct (proj1 (surface_isolation 0 clock (fun _ => 0) (CFill 7) 0 boot) m' 0 E) as [(oid & (cap & x & y & w & h & (th & Hth & Hc & _) & Ho & _) & _ & _ & U)|[H _]]; [|discriminate H].
  injection Hth as <-. cbn in Hc. injection Hc as <-. cbn in Ho. apply (U 0%nat); [reflexivity|]. cbn. lia.
Defined.
End SurfacesWitness.
