(* ===== verification/Process.v ===== *)
(** * Processes ([kernel_rs/src/process.rs])

    The process table, and the system calls to spawn, wait for and leave a process.
    Spawning asks the file server for the inode of the path and for the program, polling for
    each answer with a halt in between: it is a machine of [spawn_step]s, so that
    other threads may run between two polls.  The kernel's buffers ([path], [out] and the
    program's bytes) lie at addresses that are arguments of the model. *)

From stdpp Require Import gmap.
From S2P Require Import Prelude AuditLog Capability Pmm Vmm Ipc Elf FileServer Gdt Thread ThreadInv ThreadSwitch Service ServiceInv Geometry Damage Renderer Text Pacing Windows Driver Input Machine.

Definition EXEC_CAP_SLOT : Z := 3.
Definition MAX_ELF_BYTES : Z := 512 * 1024.
Definition FS_OP_LOOKUP : Z := 2.
Definition POLLS : Z := 10000000.
Definition STACK_VADDR : Z := 0xB00000.
Definition STACK_PAGES : Z := 4.
Definition STACK_FLAGS : Z := Z.lor (Z.lor PAGE_USER PAGE_NO_EXECUTE) PAGE_WRITABLE.

(** ** The process table *)

(** [NEXT_PID.fetch_add]. *)
Definition next_pid (p : processes) : processes * Z := (mkProcesses (u64 (NEXT_PID p + 1)) (PROCESS_TABLE p), NEXT_PID p).
Definition push_process (e : Process) (p : processes) : processes * unit := (mkProcesses (NEXT_PID p) (PROCESS_TABLE p ++ [e]), tt).

Definition find_pid (n : Z) (p : processes) : option (nat * Process) := list_find (fun e => pid e = n) (PROCESS_TABLE p).

Definition try_wait (n : Z) (p : processes) : processes * option Z :=
  match find_pid n p with
  | Some (pos, e) =>
      match status e with
      | ProcExited code => (mkProcesses (NEXT_PID p) (delete pos (PROCESS_TABLE p)), Some code)
      | ProcRunning => (p, None)
      end
  | None => (p, None)
  end.

Definition process_exists (n : Z) (p : processes) : bool := existsb (fun e => pid e =? n) (PROCESS_TABLE p).

Definition set_status (st : ProcessStatus) (e : Process) : Process := mkProcess (pid e) (thread_id e) (proc_space e) st.

(** The update of [sys_exit]: the first entry of the thread. *)
Definition mark_exited (tid code : Z) (p : processes) : processes :=
  match list_find (fun e => thread_id e = tid) (PROCESS_TABLE p) with
  | Some (i, _) => mkProcesses (NEXT_PID p) (alter (set_status (ProcExited code)) i (PROCESS_TABLE p))
  | None => p
  end.

(** ** Waiting *)

Inductive wait_pid := PwLoop (n : Z) | PwRet (v : Z).

Definition sys_wait (n : Z) : handler wait_pid :=
  ex ← get (fun m => process_exists n (PROCS m));
  mret (if (ex : bool) then PwLoop n else PwRet U64_MAX).

(** One turn of the loop; the thread halts when it stays in it. *)
Definition sys_wait_step (w : wait_pid) : handler wait_pid :=
  match w with
  | PwLoop n =>
      r ← on_procs (try_wait n);
      mret (match r with Some code => PwRet (u32 code) | None => PwLoop n end)
  | PwRet v => mret (PwRet v)
  end.

Section spawn.
(** The executing CPU, the entry stub of a new process, and the addresses of the kernel's
    buffers and of the new thread's kernel stack. *)
Variables (me : nat) (user_process_trampoline path_ptr out_ptr elf_ptr kernel_stack : Z).

Definition on_vm {A} (f : vmm -> option (vmm * A)) : handler A :=
  on_sched (fun s => c ← CPUS s !! me; '(v, a) ← f (vmm_on c s); Some (put_cpu me (set_reg (set_cr3 (CR3 v) (reg c)) c) (set_vm v s), a)).

Definition kernel_space : handler Z := get (fun m => kernel_pml4 (WORLD m)).

(** ** Spawning *)

Inductive spawn_pc := SpLookup (req_id tries : Z) | SpRead (req_id tries : Z) | SpRet (v : Z).

(** [lookup_path_inode], up to the loop. *)
Definition lookup_path_inode (path : bytes) : handler Z :=
  k ← kernel_space;
  _ ← write_user k path_ptr path;
  req_id ← on_world (FileService.write_file me k (Z.shiftl FS_OP_LOOKUP 24) path_ptr (Z.of_nat (length path)) 0);
  if req_id =? 0 then mret 0
  else _ ← write_user k out_ptr (replicate 16 0); mret req_id.

(** One poll for the inode: the loop ends when there is an answer. *)
Definition lookup_poll (req_id : Z) : handler (option Z) :=
  k ← kernel_space;
  n ← on_world (FileService.poll_reply k req_id out_ptr 16);
  if n =? U64_MAX then mret None
  else if 4 <=? n then out ← read_user k out_ptr 4; mret (Some (le_val out))
  else mret (Some 0).

(** One poll of [read_file_bytes]. *)
Definition read_poll (req_id : Z) : handler (option Z) :=
  k ← kernel_space;
  n ← on_world (FileService.poll_reply k req_id elf_ptr MAX_ELF_BYTES);
  mret (if n =? U64_MAX then None else Some (Z.min n MAX_ELF_BYTES)).

Definition sys_spawn (req_vaddr : Z) : handler spawn_pc :=
  r ← resolve_current me EXEC_CAP_SLOT EXEC;
  match r with
  | Err _ => _ ← record_audit me (EvDenied EXEC_CAP_SLOT); mret (SpRet U64_MAX)
  | Ok _ =>
      pml4 ← current_pml4 me;
      ok ← user_readable pml4 req_vaddr 32;
      if negb ok then mret (SpRet U64_MAX) else
      b ← read_user pml4 req_vaddr 32;
      path_vaddr ← from_option (rle 8 b 0); len ← from_option (rle 4 b 8);
      let path_len := Z.min len 127 in
      ok ← (if 0 <? path_len then user_readable pml4 path_vaddr path_len else mret true);
      if negb ok then mret (SpRet U64_MAX) else
      path_bytes ← read_user pml4 path_vaddr (Z.to_nat path_len);
      req_id ← lookup_path_inode (str_or_empty path_bytes);
      mret (if req_id =? 0 then SpRet U64_MAX else SpLookup req_id POLLS)
  end.

(** The four pages of the new process's stack. *)
Definition map_stack (space : Z) (v : vmm) : option (vmm * unit) :=
  v ← foldM (fun v i =>
    '(s, p) ← alloc_page (PMM v);
    map_page_in space (STACK_VADDR + i * 4096) p STACK_FLAGS (set_pmm s v)) v (range 0 STACK_PAGES);
  Some (v, tt).

(** From the program's bytes to the running process. *)
Definition start_process (elf : bytes) : handler Z :=
  space ← on_vm new_address_space;
  r ← on_vm (load space elf);
  match r with
  | Err _ => _ ← on_vm (fun v => v ← destroy_address_space space v; Some (v, tt)); mret U64_MAX
  | Ok entry =>
      _ ← on_vm (map_stack space);
      n ← on_procs next_pid;
      tid ← on_sched (spawn_user user_process_trampoline me entry (STACK_VADDR + STACK_PAGES * 4096) space kernel_stack);
      _ ← on_procs (push_process (mkProcess n tid space ProcRunning));
      mret n
  end.

Definition spawn_step (pc : spawn_pc) : handler spawn_pc :=
  match pc with
  | SpLookup req_id tries =>
      if tries =? 0 then mret (SpRet U64_MAX) else
      r ← lookup_poll req_id;
      match r with
      | None => mret (SpLookup req_id (tries - 1))
      | Some inode =>
          if inode =? 0 then mret (SpRet U64_MAX) else
          id ← on_world (FileService.request_file_internal me inode);
          mret (if id =? 0 then SpRet U64_MAX else SpRead id POLLS)
      end
  | SpRead req_id tries =>
      if tries =? 0 then mret (SpRet U64_MAX) else
      r ← read_poll req_id;
      match r with
      | None => mret (SpRead req_id (tries - 1))
      | Some elf_len =>
          if elf_len =? 0 then mret (SpRet U64_MAX) else
          k ← kernel_space;
          elf ← read_user k elf_ptr (Z.to_nat elf_len);
          v ← start_process elf;
          mret (SpRet v)
      end
  | SpRet v => mret (SpRet v)
  end.

(** ** Leaving *)

(** [sys_exit] does not return: the thread halts if it is ever resumed. *)
Definition sys_exit (code : Z) : handler unit :=
  tid ← get (fun m => current_id me (SCHED (WORLD m)));
  _ ← on_procs (fun p => (mark_exited tid code p, tt));
  on_sched (fun s => s ← kill_current_and_reschedule me s; Some (s, tt)).
End spawn.

(** ** The memory of a new process *)

Definition stack_page (s : pmm) (roots : list Z) (r pg : Z) : Prop :=
  exists f, foreign s roots f /\ (forall a, same_page a pg -> debug_translate (MEM s) r a = leaf_of f STACK_FLAGS) /\
    forall k, 0 <= k < 4096 -> MEM s (f + k) = 0.

Lemma new_space_stats v s1 p : alloc_page (PMM v) = Some (s1, p) -> exists s2, new_address_space v = Some (set_pmm s2 v, p) /\ STATS s2 = STATS s1.
Proof.
  intros E. unfold new_address_space. rewrite E. cbn [mbind option_bind]. eexists. split; [reflexivity|].
  exact (proj1 (proj2 (proj2 (proj2 (proj2 (copy_frame s1 p (range 256 512) (fun s i => entry (MEM s) (KERNEL_PML4_PHYS v) i))))))).
Qed.

Lemma new_space_spec v roots :
  space_ok (PMM v) roots -> KERNEL_PML4_PHYS v ∈ roots -> 0 < free_pages (STATS (PMM v)) ->
  exists s' r, new_address_space v = Some (set_pmm s' v, r) /\ ~ (r ∈ roots) /\ space_ok s' (r :: roots) /\
    free_pages (STATS s') = free_pages (STATS (PMM v)) - 1 /\
    (forall a, 0 <= a < 2 ^ 47 -> debug_translate (MEM s') r a = 0) /\
    (forall r' a, r' ∈ roots -> debug_translate (MEM s') r' a = debug_translate (MEM (PMM v)) r' a).
Proof.
  intros Hok HK Hf. destruct (new_address_space_exact v roots Hok HK Hf) as (v' & r & E & Hr & Hok' & Hz & _ & Hold).
  destruct (alloc_page_supplies _ (so_pmm _ _ Hok) (so_zero _ _ Hok) Hf) as (n & s1 & Hal1 & Hal & Hn).
  destruct (new_space_stats v s1 (n * PAGE_SIZE) Hal1) as (s2 & E2 & Hst). rewrite E in E2. injection E2 as -> ->.
  exists s2, (n * PAGE_SIZE). cbn [PMM set_pmm] in *. split_and!; try done. rewrite Hst. exact (allocates_free_pages _ n _ (so_pmm _ _ Hok) Hal).
Qed.

Lemma stack_page_spec v roots r pg : space_ok (PMM v) roots -> r ∈ roots -> page_in_range pg -> 4 <= free_pages (STATS (PMM v)) ->
  exists s', ('(s, p) ← alloc_page (PMM v); map_page_in r pg p STACK_FLAGS (set_pmm s v)) = Some (set_pmm s' v) /\
    step_ok (PMM v) s' roots r [pg] /\ stack_page s' roots r pg.
Proof.
  intros Hok Hr [_ Hpg] Hfree. destruct (alloc_page_supplies _ (so_pmm _ _ Hok) (so_zero _ _ Hok) ltac:(lia)) as (n & s1 & -> & Hal & Hn).
  cbn [mbind option_bind]. destruct (alloc_foreign _ roots n s1 Hok Hal Hn) as (Hok1 & Hsp1 & Hf1 & _ & _ & Htr1).
  pose proof (allocates_free_pages _ _ _ (so_pmm _ _ Hok) Hal) as Hfr1. unfold map_page_in. cbn [PMM set_pmm].
  destruct (map_page_spec s1 roots r pg (n * PAGE_SIZE) STACK_FLAGS) as (s3 & -> & [Hok3 Hfree3 Hhere Helse Hsp3]); [done|done|lia|by vm_compute|lia|].
  cbn [mbind option_bind]. exists s3. split_and!; [done| |].
  - constructor; [done|cbn; lia|by eapply spares_trans|]. intros r' a Hr' Hne. rewrite Helse; [by apply Htr1|done|].
    intros [Hsame [->|Hk]]; [apply Hne; split; [done|]; exists pg; split; [by apply list_elem_of_singleton|done]|].
    rewrite (Z.mod_small pg) in Hk by lia. change (PHYS_MAP_BASE mod 2 ^ 48) with (2 ^ 47) in Hk. lia.
  - exists (n * PAGE_SIZE). destruct (Hsp3 _ Hf1) as [Hf3 _]. split_and!; [done|done|]. intros k Hk.
    rewrite (spares_bytes s1 s3 roots (n * PAGE_SIZE)) by (done || lia). rewrite (al_mem _ _ _ Hal). unfold zero_page, PAGE_SIZE.
    by rewrite (proj2 (Z.leb_le _ _)), (proj2 (Z.ltb_lt _ _)) by lia.
Qed.

Lemma stack_page_step s s' roots r pg pages :
  r ∈ roots -> space_ok s roots -> step_ok s s' roots r pages -> (forall q, q ∈ pages -> ~ same_page pg q) ->
  stack_page s roots r pg -> stack_page s' roots r pg.
Proof.
  intros Hr Hok [Hok' _ Hsp Helse] Hd (f & Hf & Htr & Hmem). exists f. destruct (Hsp f Hf) as [Hf' _]. split_and!; [done| |].
  - intros a Ha. rewrite Helse; [by apply Htr|done|]. intros [_ (q & Hq & Hs)]. apply (Hd q Hq). red in Ha, Hs |- *. congruence.
  - intros k Hk. rewrite (spares_bytes s s' roots f) by (done || lia). by apply Hmem.
Qed.

Definition stack_list : list Z := (fun i => STACK_VADDR + i * 4096) <$> range 0 STACK_PAGES.

Lemma stack_list_eq : stack_list = [0xB00000; 0xB01000; 0xB02000; 0xB03000].
Proof. reflexivity. Qed.

Lemma map_pages_spec roots r ixs v : space_ok (PMM v) roots -> r ∈ roots -> NoDup ixs -> Forall (fun i => page_in_range (STACK_VADDR + i * 4096)) ixs ->
  4 * Z.of_nat (length ixs) <= free_pages (STATS (PMM v)) ->
  exists s', foldM (fun v i => '(s, p) ← alloc_page (PMM v); map_page_in r (STACK_VADDR + i * 4096) p STACK_FLAGS (set_pmm s v)) v ixs = Some (set_pmm s' v) /\
    step_ok (PMM v) s' roots r ((fun i => STACK_VADDR + i * 4096) <$> ixs) /\ forall i, i ∈ ixs -> stack_page s' roots r (STACK_VADDR + i * 4096).
Proof.
  intros Hok Hr Hnd Hall. revert v Hok. induction Hnd as [|p ixs Hp Hnd IH]; intros v Hok Hfree; cbn [foldM].
  { exists (PMM v). split_and!; [by destruct v|by apply step_ok_refl|by intros ? []%not_elem_of_nil]. }
  apply Forall_cons in Hall as [Hpr Hall]. cbn [length] in Hfree.
  destruct (stack_page_spec v roots r _ Hok Hr Hpr ltac:(lia)) as (s1 & -> & Hst1 & Hld1).
  cbn [mbind option_bind]. destruct (IH Hall (set_pmm s1 v)) as (s2 & -> & Hst2 & Hld2);
    [apply Hst1|cbn [PMM set_pmm]; pose proof (st_free _ _ _ _ _ Hst1) as Hf; cbn [length] in Hf; lia|].
  exists s2. cbn [PMM set_pmm] in Hst2. split_and!; [done|exact (step_ok_trans _ _ _ _ _ _ _ Hst1 Hst2)|].
  intros i [->|Hi]%elem_of_cons; [|by apply Hld2].
  eapply stack_page_step; [done|apply Hst1|exact Hst2| |done]. intros q (j & -> & Hj)%list_elem_of_fmap. rewrite Forall_forall in Hall.
  apply pages_distinct; [done|by apply Hall|]. intros E. replace j with p in Hj by lia. done.
Qed.

Lemma map_stack_spec roots r v : space_ok (PMM v) roots -> r ∈ roots -> 16 <= free_pages (STATS (PMM v)) ->
  exists s', map_stack r v = Some (set_pmm s' v, tt) /\ step_ok (PMM v) s' roots r stack_list /\ forall pg, pg ∈ stack_list -> stack_page s' roots r pg.
Proof.
  intros Hok Hr Hf. unfold map_stack.
  destruct (map_pages_spec roots r (range 0 STACK_PAGES) v Hok Hr) as (s' & -> & Hst & Hld); [| |done|].
  - apply (bool_decide_unpack _). by vm_compute.
  - repeat (apply Forall_cons_2; [split; [reflexivity|unfold STACK_VADDR; lia]|]). apply Forall_nil_2.
  - exists s'. split_and!; [done|done|]. intros pg (i & -> & Hi)%list_elem_of_fmap. by apply Hld.
Qed.

(** The memory of a new process: its segments and its stack, and nothing else below the kernel's
    half; the other spaces are as in [s]. *)
Record process_image (s s' : pmm) (roots : list Z) (r : Z) (bs : bytes) (phs : list Elf64Phdr) : Prop := {
  pi_space : space_ok s' (r :: roots);
  pi_segments : forall ph pg, ph ∈ phs -> pg ∈ load_list ph -> page_loaded s' (r :: roots) r bs ph pg;
  pi_stack : forall pg, pg ∈ stack_list -> stack_page s' (r :: roots) r pg;
  pi_rest : forall a, 0 <= a < 2 ^ 47 -> (forall pg, pg ∈ (phs ≫= load_list) ++ stack_list -> ~ same_page a pg) -> debug_translate (MEM s') r a = 0;
  pi_others : forall r' a, r' ∈ roots -> debug_translate (MEM s') r' a = debug_translate (MEM s) r' a }.

(** A program the kernel can start as it is meant to: its header and segments are those [load] accepts, its segments lie in
    the user half ([seg_ok]), and no page of it is loaded twice or lies in the stack.  The loader does not
    check the last two. *)
Record loadable (bs : bytes) (e : Elf64Ehdr) (phs : list Elf64Phdr) : Prop := {
  ld_bytes : all_bytes bs;
  ld_header : check_ehdr bs = Some (Ok e);
  ld_phdrs : mapM (read_phdr bs) (phdr_offsets e) = Some phs;
  ld_segments : forall ph, ph ∈ phs -> is_load ph = true -> seg_ok bs ph;
  ld_pages : NoDup ((phs ≫= load_list) ++ stack_list) }.

Lemma load_pages_in_range bs e phs pg : loadable bs e phs -> pg ∈ (phs ≫= load_list) ++ stack_list -> page_in_range pg.
Proof.
  intros Hl [(ph & Hpg & Hph)%list_elem_of_bind|Hpg]%elem_of_app.
  - unfold load_list in Hpg. destruct (is_load ph) eqn:Hil; [|by apply not_elem_of_nil in Hpg]. apply (seg_pages_range bs ph); [|done]. by apply Hl.
  - rewrite stack_list_eq in Hpg. unfold page_in_range. repeat (apply elem_of_cons in Hpg as [->|Hpg]; [split; [reflexivity|lia]|]). by apply not_elem_of_nil in Hpg.
Qed.

Lemma entry_width bs e : all_bytes bs -> check_ehdr bs = Some (Ok e) -> in_width 64 (e_entry e).
Proof.
  intros Hb E. unfold check_ehdr in E. destruct (_ <? _)%nat; [done|]. destruct (read_ehdr bs) as [e'|] eqn:Er; [|done]. cbn [mbind option_bind] in E.
  assert (e' = e) as ->.
  { destruct (negb _); [done|]. destruct (e_ident e' !! 4%nat), (e_ident e' !! 5%nat); cbn [mbind option_bind] in E; try done.
    repeat match type of E with (if ?c then _ else _) = _ => destruct c; [done|] end. by injection E as ->. }
  unfold read_ehdr in Er. bind_inv. cbn [e_entry]. by apply (rle_range 8 bs 24).
Qed.

Lemma image_exact v roots bs e phs : space_ok (PMM v) roots -> KERNEL_PML4_PHYS v ∈ roots -> loadable bs e phs ->
  17 + 4 * Z.of_nat (length (phs ≫= load_list)) <= free_pages (STATS (PMM v)) ->
  exists s1 s2 s3 r, new_address_space v = Some (set_pmm s1 v, r) /\ load r bs (set_pmm s1 v) = Some (set_pmm s2 v, Ok (e_entry e)) /\
    map_stack r (set_pmm s2 v) = Some (set_pmm s3 v, tt) /\ ~ (r ∈ roots) /\ process_image (PMM v) s3 roots r bs phs.
Proof.
  intros Hok HK Hld Hfree. pose proof Hld as [Hbs Hh Hm Hsg Hnd]. apply NoDup_app in Hnd as (Hnd1 & Hdis & Hnd2).
  destruct (new_space_spec v roots Hok HK ltac:(lia)) as (s1 & r & E1 & Hr & Hok1 & Hf1 & Hz & Hold).
  assert (r ∈ r :: roots) as Hin by apply list_elem_of_here.
  destruct (load_segments_spec (r :: roots) r bs (phdr_offsets e) phs (set_pmm s1 v) Hin Hbs Hm Hsg Hnd1 Hok1) as (s2 & E2 & Hst2 & Hld2); [cbn; lia|].
  cbn [PMM set_pmm] in Hst2. pose proof (st_free _ _ _ _ _ Hst2) as Hf2.
  destruct (map_stack_spec (r :: roots) r (set_pmm s2 v) (st_ok _ _ _ _ _ Hst2) Hin) as (s3 & E3 & Hst3 & Hld3); [cbn; lia|]. cbn [PMM set_pmm] in Hst3.
  exists s1, s2, s3, r. split_and!; [done| |done|done|constructor].
  - unfold load. rewrite Hh. cbn [mbind option_bind]. rewrite E2. done.
  - apply Hst3.
  - intros ph pg Hph Hpg. eapply page_loaded_step; [exact Hin|apply Hst2|exact Hst3| |by apply Hld2]. intros q Hq.
    assert (pg ∈ phs ≫= load_list) as Hpg' by (apply list_elem_of_bind; by exists ph).
    apply pages_distinct; [apply (load_pages_in_range bs e phs _ Hld), elem_of_app; by left|apply (load_pages_in_range bs e phs _ Hld), elem_of_app; by right|].
    intros ->. by apply (Hdis q).
  - done.
  - intros a Ha Hno. rewrite (st_else _ _ _ _ _ Hst3), (st_else _ _ _ _ _ Hst2) by
      (first [exact Hin|intros [_ (pg & Hpg & Hs)]; apply (Hno pg); [apply elem_of_app; by (left + right)|done]]). by apply Hz.
  - intros r' a Hr'. assert (r' ∈ r :: roots) by (by apply list_elem_of_further). assert (r' <> r) by (by intros ->).
    rewrite (st_else _ _ _ _ _ Hst3), (st_else _ _ _ _ _ Hst2) by (done || naive_solver). by apply Hold.
Qed.

Definition with_vm (v : vmm) (m : machine) : machine := set_world (set_sched (set_vm v (SCHED (WORLD m))) (WORLD m)) m.

Lemma on_vm_eq {A} me (f : vmm -> option (vmm * A)) m c p a : CPUS (SCHED (WORLD m)) !! me = Some c ->
  f (vmm_on c (SCHED (WORLD m))) = Some (set_pmm p (vmm_on c (SCHED (WORLD m))), a) ->
  on_vm me f m = Some (with_vm (set_pmm p (vmm_on c (SCHED (WORLD m)))) m, a).
Proof.
  intros Hc Hf. unfold on_vm, on_sched. rewrite Hc. cbn [mbind option_bind]. rewrite Hf. cbn [mbind option_bind]. f_equal. f_equal. unfold with_vm. f_equal. f_equal.
  unfold put_cpu, set_cpus, set_vm. cbn. f_equal. assert (set_reg (set_cr3 (cr3 (reg c)) (reg c)) c = c) as ->; [by destruct c as [? ? ? ? ? [] ?]|].
  by apply list_insert_id.
Qed.

Lemma spawn_user_eq ut me e sp a stk s c : CPUS s !! me = Some c -> 0 <= stk -> stk + KERNEL_STACK_SIZE < 2 ^ 64 ->
  in_width 64 ut -> in_width 64 e -> in_width 64 sp ->
  exists s' t, spawn_user ut me e sp a stk s = Some (s', NEXT_TID s) /\ CPUS s' = <[me := push_back t c]> (CPUS s) /\ VM s' = VM s /\ KOBJ s' = KOBJ s /\
    id t = NEXT_TID s /\ state t = Ready /\ address_space t = a /\ cap_table t = table_new /\ iopb t = replicate IOPB_BYTES 0xFF /\
    (fun k => rd64 (KMEM s') (saved_rsp t + 8 * k)) <$> range 0 9 = [0; 0; 0; 0; 0; 0; ut; e; sp].
Proof.
  intros Hc H0 H1 Hut He Hsp. unfold spawn_user. destruct (build_thread _ _ _ _) as [s1 t] eqn:Hb.
  destruct (build_thread_facts _ _ _ _ _ _ Hb) as (Hcs & _ & Hk & Hv & Hid & Hst & Hct & Ha & Hio).
  destruct (build_thread_stack _ _ _ _ _ _ Hb H0 H1) as (_ & Hz & Hw); [unfold KERNEL_STACK_SIZE; cbn; lia|by repeat (apply Forall_cons; split; [done|])|].
  unfold with_cpu. rewrite Hcs, Hc. cbn [mbind option_bind]. eexists _, t. rewrite Hid. split; [reflexivity|]. cbn [CPUS VM KOBJ KMEM put_cpu set_cpus]. rewrite Hcs. split_and!; try done.
  change (range 0 9) with [0; 1; 2; 3; 4; 5; 6; 7; 8]. cbn [fmap list_fmap]. rewrite !Hz by lia.
  pose proof (Hw 0%nat ut eq_refl) as A. pose proof (Hw 1%nat e eq_refl) as B. pose proof (Hw 2%nat sp eq_refl) as C.
  replace (saved_rsp t + 8 * 6) with (saved_rsp t + 48 + 8 * Z.of_nat 0) by lia. replace (saved_rsp t + 8 * 7) with (saved_rsp t + 48 + 8 * Z.of_nat 1) by lia.
  replace (saved_rsp t + 8 * 8) with (saved_rsp t + 48 + 8 * Z.of_nat 2) by lia. by rewrite A, B, C.
Qed.

(** C7. Starting a process: for a program the loader accepts, whose segments lie in the user half, with no
    page loaded twice and none in the range of the stack, and with enough memory, the call returns
    the next process id; the new address space holds exactly the segments, with their bytes and
    permissions, and four zeroed stack pages, on frames of their own, and no other
    space has changed; the new thread waits at the end of the queue, without
    capabilities or ports, its kernel stack set to enter the program at its entry point with the
    top of the stack; and the process is entered in the table as running. *)
Theorem start_process_exact me ut kstk m c roots bs e phs :
  CPUS (SCHED (WORLD m)) !! me = Some c -> space_ok (PMM (VM (SCHED (WORLD m)))) roots -> KERNEL_PML4_PHYS (VM (SCHED (WORLD m))) ∈ roots ->
  loadable bs e phs -> 17 + 4 * Z.of_nat (length (phs ≫= load_list)) <= free_pages (STATS (PMM (VM (SCHED (WORLD m))))) ->
  0 <= kstk -> kstk + KERNEL_STACK_SIZE < 2 ^ 64 -> in_width 64 ut ->
  exists m' r t, start_process me ut kstk bs m = Some (m', NEXT_PID (PROCS m)) /\ ~ (r ∈ roots) /\
    process_image (PMM (VM (SCHED (WORLD m)))) (PMM (VM (SCHED (WORLD m')))) roots r bs phs /\
    CPUS (SCHED (WORLD m')) = <[me := push_back t c]> (CPUS (SCHED (WORLD m))) /\ KOBJ (SCHED (WORLD m')) = KOBJ (SCHED (WORLD m)) /\
    id t = NEXT_TID (SCHED (WORLD m)) /\ state t = Ready /\ address_space t = r /\ cap_table t = table_new /\ iopb t = replicate IOPB_BYTES 0xFF /\
    (fun k => rd64 (KMEM (SCHED (WORLD m'))) (saved_rsp t + 8 * k)) <$> range 0 9 = [0; 0; 0; 0; 0; 0; ut; e_entry e; STACK_VADDR + STACK_PAGES * 4096] /\
    PROCS m' = mkProcesses (u64 (NEXT_PID (PROCS m) + 1)) (PROCESS_TABLE (PROCS m) ++ [mkProcess (NEXT_PID (PROCS m)) (NEXT_TID (SCHED (WORLD m))) r ProcRunning]).
Proof.
  intros Hc Hok HK Hld Hfree H0 H1 Hut. set (s := SCHED (WORLD m)) in *. set (v := vmm_on c s).
  destruct (image_exact v roots bs e phs Hok HK Hld Hfree) as (s1 & s2 & s3 & r & E1 & E2 & E3 & Hr & Him).
  unfold start_process. rewrite (bind_run _ _ _ _ _ (on_vm_eq me new_address_space m c s1 r Hc E1)).
  set (m1 := with_vm (set_pmm s1 (vmm_on c (SCHED (WORLD m)))) m). rewrite (bind_run _ _ m1 _ _ (on_vm_eq me (load r bs) m1 c s2 (Ok (e_entry e)) Hc E2)).
  set (m2 := with_vm (set_pmm s2 (vmm_on c (SCHED (WORLD m1)))) m1). rewrite (bind_run _ _ m2 _ _ (on_vm_eq me (map_stack r) m2 c s3 tt Hc E3)).
  set (m3 := with_vm (set_pmm s3 (vmm_on c (SCHED (WORLD m2)))) m2). rewrite (bind_run _ _ m3 (set_procs (next_pid (PROCS m)).1 m3) (NEXT_PID (PROCS m)) eq_refl).
  destruct (spawn_user_eq ut me (e_entry e) (STACK_VADDR + STACK_PAGES * 4096) r kstk (SCHED (WORLD m3)) c Hc H0 H1 Hut)
    as (s' & t & Es & Hcs & Hvm & Hko & Hid & Hst & Has & Hct & Hio & Hsk); [eapply entry_width; apply Hld|by vm_compute|].
  set (m4 := set_procs _ m3). assert (on_sched (spawn_user ut me (e_entry e) (STACK_VADDR + STACK_PAGES * 4096) r kstk) m4 = Some (set_world (set_sched s' (WORLD m4)) m4, NEXT_TID s)) as E4.
  { unfold on_sched. change (SCHED (WORLD m4)) with (SCHED (WORLD m3)). by rewrite Es. }
  rewrite (bind_run _ _ m4 _ _ E4).
  eexists _, r, t. split; [reflexivity|]. cbn. rewrite Hvm. split_and!; try done.
Qed.

(** ** The table is a map from process ids *)

Definition entries (p : processes) : gmap Z (Z * ProcessStatus) :=
  list_to_map ((fun e => (pid e, (thread_id e, status e))) <$> PROCESS_TABLE p).

Inductive proc_op := PSpawn (tid space : Z) | PExit (tid code : Z) | PWait (n : Z).

(** The operations as [start_process], [sys_exit] and [sys_wait] perform them. *)
Definition exec_proc (p : processes) (o : proc_op) : processes * option Z :=
  match o with
  | PSpawn tid space => let '(p, n) := next_pid p in ((push_process (mkProcess n tid space ProcRunning) p).1, Some n)
  | PExit tid code => (mark_exited tid code p, None)
  | PWait n => try_wait n p
  end.

Definition exit_entry (tid code : Z) (x : Z * ProcessStatus) : Z * ProcessStatus := if x.1 =? tid then (x.1, ProcExited code) else x.

(** A map and the next id: a spawned process is added under it; the exit of a thread sets the code of its
    process; the first wait after the exit takes the code and removes the process. *)
Definition spec_proc (s : Z * gmap Z (Z * ProcessStatus)) (o : proc_op) : Z * gmap Z (Z * ProcessStatus) * option Z :=
  let '(n, M) := s in
  match o with
  | PSpawn tid _ => (n + 1, <[n := (tid, ProcRunning)]> M, Some n)
  | PExit tid code => (n, exit_entry tid code <$> M, None)
  | PWait w => match M !! w with Some (_, ProcExited code) => (n, delete w M, Some code) | _ => (n, M, None) end
  end.

Fixpoint exec_procs (p : processes) (ops : list proc_op) : processes * list (option Z) :=
  match ops with
  | [] => (p, [])
  | o :: ops' => let '(p, r) := exec_proc p o in let '(p, rs) := exec_procs p ops' in (p, r :: rs)
  end.

Fixpoint spec_procs (s : Z * gmap Z (Z * ProcessStatus)) (ops : list proc_op) : Z * gmap Z (Z * ProcessStatus) * list (option Z) :=
  match ops with
  | [] => (s, [])
  | o :: ops' => let '(s, r) := spec_proc s o in let '(s, rs) := spec_procs s ops' in (s, r :: rs)
  end.

(** The threads the operations spawn. *)
Definition spawned (ops : list proc_op) : list Z := omap (fun o => match o with PSpawn tid _ => Some tid | _ => None end) ops.

Record table_ok (p : processes) : Prop := {
  tb_pids : NoDup (pid <$> PROCESS_TABLE p);
  tb_old : Forall (fun e => 0 <= pid e < NEXT_PID p) (PROCESS_TABLE p) }.

Lemma entries_lookup p n x : NoDup (pid <$> PROCESS_TABLE p) ->
  entries p !! n = Some x <-> exists e, e ∈ PROCESS_TABLE p /\ pid e = n /\ (thread_id e, status e) = x.
Proof.
  intros Hnd. unfold entries. rewrite <- elem_of_list_to_map.
  - rewrite list_elem_of_fmap. split; [intros (e & [= -> ->] & He)|intros (e & He & <- & <-)]; by exists e.
  - rewrite <- list_fmap_compose. exact Hnd.
Qed.

Lemma NoDup_same {A} (f : A -> Z) l i j a b : NoDup (f <$> l) -> l !! i = Some a -> l !! j = Some b -> f a = f b -> i = j.
Proof. intros Hnd Ha Hb E. eapply NoDup_lookup; [exact Hnd| |]; rewrite list_lookup_fmap, ?Ha, ?Hb; cbn; [done|by rewrite E]. Qed.

Lemma spawn_refines p tid space : table_ok p -> 0 <= NEXT_PID p < 2 ^ 64 - 1 ->
  let p' := (exec_proc p (PSpawn tid space)).1 in
  table_ok p' /\ NEXT_PID p' = NEXT_PID p + 1 /\ entries p' = <[NEXT_PID p := (tid, ProcRunning)]> (entries p).
Proof.
  intros [Hnd Hold] Hn. cbn [exec_proc next_pid push_process fst PROCESS_TABLE NEXT_PID]. rewrite (wrap_small 64) by (red; lia). assert (NoDup (pid <$> PROCESS_TABLE p ++ [mkProcess (NEXT_PID p) tid space ProcRunning])) as Hnd'.
  { rewrite fmap_app. apply NoDup_app. split_and!; [done| |apply NoDup_singleton]. intros x (e & -> & He)%list_elem_of_fmap [= E]%list_elem_of_singleton.
    rewrite Forall_forall in Hold. pose proof (Hold e He). cbn in E. lia. }
  split; [|split; [done|]].
  - split; [done|]. cbn. apply Forall_app. split; [|apply Forall_singleton; cbn; lia]. eapply Forall_impl; [exact Hold|]. cbn. intros. lia.
  - apply map_eq. intros k. apply option_eq. intros x. rewrite entries_lookup by done. cbn [PROCESS_TABLE]. setoid_rewrite elem_of_app. setoid_rewrite list_elem_of_singleton.
    destruct (decide (k = NEXT_PID p)) as [->|Hk].
    + rewrite lookup_insert_eq. split; [|intros [= <-]; eexists; split; [by right|done]]. intros (e & [He| ->] & Hp & <-); [|done].
      rewrite Forall_forall in Hold. pose proof (Hold e He). lia.
    + rewrite lookup_insert_ne, entries_lookup by done. naive_solver.
Qed.

Lemma wait_refines p n : table_ok p ->
  let '(p', r) := try_wait n p in
  table_ok p' /\ NEXT_PID p' = NEXT_PID p /\ spec_proc (NEXT_PID p, entries p) (PWait n) = (NEXT_PID p, entries p', r) /\ PROCESS_TABLE p' `sublist_of` PROCESS_TABLE p.
Proof.
  intros Hok. pose proof Hok as [Hnd Hold]. unfold try_wait, find_pid. cbn [spec_proc]. destruct (list_find _ _) as [[i e]|] eqn:F.
  - apply list_find_Some in F as (Hi & Hp & _). assert (entries p !! n = Some (thread_id e, status e)) as ->.
    { apply entries_lookup; [done|]. exists e. split; [by eapply list_elem_of_lookup_2|done]. }
    destruct (status e) as [|code] eqn:Hst; [by split_and!|]. split_and!.
    + split; cbn.
      * eapply sublist_NoDup; [exact Hnd|]. apply fmap_sublist, sublist_delete.
      * by apply Forall_delete.
    + done.
    + f_equal. f_equal. symmetry. apply map_eq. intros k. apply option_eq. intros x. rewrite lookup_delete_Some, !entries_lookup; [|done|].
      2: { cbn. eapply sublist_NoDup; [exact Hnd|]. apply fmap_sublist, sublist_delete. }
      cbn. split.
      * intros (e' & (j & Hj)%list_elem_of_lookup_1 & <- & Hx).
        destruct (decide (j < i)%nat) as [Hlt|Hge].
        -- rewrite list_lookup_delete_lt in Hj by done. split; [|exists e'; split; [by eapply list_elem_of_lookup_2|done]].
           intros E. pose proof (NoDup_same pid _ _ _ _ _ Hnd Hj Hi ltac:(congruence)). lia.
        -- rewrite list_lookup_delete_ge in Hj by lia. split; [|exists e'; split; [by eapply list_elem_of_lookup_2|done]].
           intros E. pose proof (NoDup_same pid _ _ _ _ _ Hnd Hj Hi ltac:(congruence)). lia.
      * intros (Hne & e' & (j & Hj)%list_elem_of_lookup_1 & Hk & Hx). exists e'. split; [|done].
        assert (j <> i) by (intros ->; congruence). destruct (decide (j < i)%nat) as [Hlt|Hge].
        -- apply (list_elem_of_lookup_2 _ j). by rewrite list_lookup_delete_lt.
        -- apply (list_elem_of_lookup_2 _ (j - 1)). rewrite list_lookup_delete_ge by lia. by replace (S (j - 1)) with j by lia.
    + apply sublist_delete.
  - apply list_find_None in F. destruct (entries p !! n) as [x|] eqn:En; [|by split_and!]. apply entries_lookup in En as (e & He & Hp & _); [|done].
    rewrite Forall_forall in F. by destruct (F e He).
Qed.

Lemma exit_refines p tid code : table_ok p -> NoDup (thread_id <$> PROCESS_TABLE p) ->
  let p' := mark_exited tid code p in
  table_ok p' /\ NEXT_PID p' = NEXT_PID p /\ entries p' = exit_entry tid code <$> entries p /\ thread_id <$> PROCESS_TABLE p' = thread_id <$> PROCESS_TABLE p.
Proof.
  intros [Hnd Hold] Ht. unfold mark_exited. destruct (list_find _ _) as [[i e]|] eqn:F.
  - apply list_find_Some in F as (Hi & He & _). set (T := alter _ i _).
    assert (forall (f : Process -> Z), (forall x, f (set_status (ProcExited code) x) = f x) -> f <$> T = f <$> PROCESS_TABLE p) as Hf.
    { intros f Hf. unfold T. apply list_eq. intros j. rewrite !list_lookup_fmap. destruct (decide (i = j)) as [->|Hne]; [|by rewrite list_lookup_alter_ne].
      rewrite list_lookup_alter_eq, Hi. cbn. by rewrite Hf. }
    cbv zeta. split_and!; [split|done| |by apply Hf]; cbn [PROCESS_TABLE NEXT_PID].
    + by rewrite Hf.
    + assert (Forall (fun z => 0 <= z < NEXT_PID p) (pid <$> T)) as HF by (rewrite Hf by done; by apply Forall_fmap). by apply Forall_fmap in HF.
    + apply map_eq. intros k. apply option_eq. intros x. rewrite lookup_fmap, fmap_Some, entries_lookup by (cbn; by rewrite Hf). cbn [PROCESS_TABLE].
      setoid_rewrite entries_lookup; [|done]. split.
      * intros (e' & (j & Hj)%list_elem_of_lookup_1 & <- & <-). unfold T in Hj. destruct (decide (i = j)) as [<-|Hne].
        -- rewrite list_lookup_alter_eq, Hi in Hj. injection Hj as <-. exists (thread_id e, status e). split; [exists e; split; [by eapply list_elem_of_lookup_2|done]|].
           unfold exit_entry. cbn. by rewrite He, Z.eqb_refl.
        -- rewrite list_lookup_alter_ne in Hj by done. exists (thread_id e', status e'). split; [exists e'; split; [by eapply list_elem_of_lookup_2|done]|].
           unfold exit_entry. cbn. rewrite (proj2 (Z.eqb_neq _ _)); [done|]. intros E. apply Hne. eapply (NoDup_same thread_id); [exact Ht|exact Hi|exact Hj|congruence].
      * intros (y & (e' & (j & Hj)%list_elem_of_lookup_1 & <- & <-) & ->). unfold exit_entry. cbn. destruct (Z.eqb_spec (thread_id e') tid) as [E|E].
        -- assert (i = j) as <- by (eapply (NoDup_same thread_id); [exact Ht|exact Hi|exact Hj|congruence]). rewrite Hi in Hj. injection Hj as <-.
           exists (set_status (ProcExited code) e). split; [|done]. apply (list_elem_of_lookup_2 _ i). unfold T. by rewrite list_lookup_alter_eq, Hi.
        -- exists e'. split; [|done]. apply (list_elem_of_lookup_2 _ j). unfold T. rewrite list_lookup_alter_ne; [done|]. intros ->. congruence.
  - apply list_find_None in F. split_and!; [done|done| |done]. apply map_eq. intros k. rewrite lookup_fmap. destruct (entries p !! k) as [x|] eqn:Ek; [|done].
    apply entries_lookup in Ek as (e & He & _ & <-); [|done]. rewrite Forall_forall in F. cbn. unfold exit_entry. cbn. by rewrite (proj2 (Z.eqb_neq _ _)) by (by apply F).
Qed.

(** C25. The process table refines a map: over any sequence of spawns, exits and waits (with thread ids
    never reused and ids not wrapping around), every result is that of a map from process id to
    the thread and its status, in which the exit of a thread sets the status of its own process
    only, and the first wait after it takes the exit code and the entry; so an exit
    code is delivered once, to a waiter for that process, and is never lost. *)
Theorem process_table_refines ops p : table_ok p -> NoDup ((thread_id <$> PROCESS_TABLE p) ++ spawned ops) ->
  0 <= NEXT_PID p -> NEXT_PID p + Z.of_nat (length ops) < 2 ^ 64 ->
  let '(p', rs) := exec_procs p ops in spec_procs (NEXT_PID p, entries p) ops = (NEXT_PID p', entries p', rs) /\ table_ok p'.
Proof.
  revert p. induction ops as [|o ops IH]; intros p Hok Hnd H0 Hn; [done|]. cbn [exec_procs spec_procs length] in *.
  assert (exists p1 r, exec_proc p o = (p1, r) /\ spec_proc (NEXT_PID p, entries p) o = (NEXT_PID p1, entries p1, r) /\ table_ok p1 /\
    NEXT_PID p <= NEXT_PID p1 <= NEXT_PID p + 1 /\ NoDup ((thread_id <$> PROCESS_TABLE p1) ++ spawned ops)) as (p1 & r & -> & -> & Hok1 & Hn1 & Hnd1).
  { destruct o as [tid space|tid code|w].
    - destruct (spawn_refines p tid space Hok ltac:(lia)) as (A & B & C). eexists _, _. split; [reflexivity|].
      cbn [exec_proc spec_proc next_pid push_process fst PROCESS_TABLE NEXT_PID] in *. split_and!; [by rewrite C, B|exact A|lia|lia|]. rewrite fmap_app, <- app_assoc. exact Hnd.
    - apply NoDup_app in Hnd as Hnd'. destruct (exit_refines p tid code Hok (proj1 Hnd')) as (A & B & C & D). eexists _, _. split; [reflexivity|].
      cbn [spec_proc]. rewrite B, C, D. split_and!; [done|done|lia|lia|exact Hnd].
    - pose proof (wait_refines p w Hok) as Hw. cbn [exec_proc]. destruct (try_wait w p) as [p1 r].
      destruct Hw as (A & B & C & E). exists p1, r. rewrite C, B. split_and!; [done|done|done|lia|lia|].
      eapply sublist_NoDup; [exact Hnd|]. apply sublist_app; [by apply fmap_sublist|done]. }
  specialize (IH p1 Hok1 Hnd1 ltac:(lia) ltac:(lia)). destruct (exec_procs p1 ops) as [p' rs]. destruct IH as [E Hok']. rewrite E. done.
Qed.

(** ** Bounds *)

(** The file service answers with at most one page, so a program larger than that is
    cut short although the buffer for it holds 512 KiB. *)
Lemma spawn_size_limit elf_ptr id m m' n : service_ok req_ok (FILES (WORLD m)) -> read_poll elf_ptr id m = Some (m', Some n) -> n <= Z.of_nat MAX_BYTES.
Proof.
  intros Hs E. unfold read_poll, kernel_space, mbind, handler_bind, get, on_world in E. destruct (FileService.poll_reply _ _ _ _ _) as [[w v]|] eqn:Ep; [|done]. cbn in E.
  assert (v = U64_MAX \/ v <= Z.of_nat MAX_BYTES) as Hv.
  { unfold FileService.poll_reply in Ep. destruct (find_request id (requests (FILES (WORLD m)))) as [[i r]|] eqn:Hf; [|injection Ep as <- <-; by left].
    destruct (find_request_ok _ _ _ _ _ Hs Hf) as (_ & Hl & _). destruct (negb (req_ready r)); [injection Ep as <- <-; by left|].
    destruct (_ || _); [injection Ep as <- <-; right; lia|]. bind_inv. destruct (negb _); bind_inv; [by left|right]. destruct (_ && _); lia. }
  destruct (Z.eqb_spec v U64_MAX) as [->|Hne]; [done|]. injection E as _ <-. destruct Hv; [done|]. unfold MAX_ELF_BYTES. lia.
Qed.

(** ** Authority *)

Lemma spawn_needs_exec me path_ptr out_ptr req m m' pc : sys_spawn me path_ptr out_ptr req m = Some (m', pc) ->
  (exists cap, holds_cap me EXEC_CAP_SLOT EXEC cap m) \/ (pc = SpRet U64_MAX /\ only_audit m m').
Proof.
  intros E. unfold sys_spawn, mbind at 1, handler_bind at 1 in E. destruct (resolve_current me EXEC_CAP_SLOT EXEC m) as [[m1 r]|] eqn:E1; [|done].
  destruct (resolve_current_spec _ _ _ _ _ _ E1) as [Hq Hr]. destruct r as [cap|e]; [left; exists cap; by apply Hr|right].
  cbn in E. injection E as <- <-. split; [done|]. etransitivity; [exact Hq|]. eexists _, _. reflexivity.
Qed.

(** ** Witnesses *)

Module ProcessWitness.
Import PmmWitness VmmWitness ElfWitness.

Definition idle : percpu := mkCpu None None None TSS_ZERO 0 (mkRegs 0 0 0 0 0 0 0 0 root false) None.
Definition boot : machine :=
  mkMachine (mkWorld (mkSched 5 [idle] (replicate 72 0) 0 (fun _ => 0) kernel_init v0 [] []) [] service_init service_init)
    (mkGui (mkBufs None None 0 0 []) [] text_boot 0 0 false None false false [] NO_FOCUS None (mkPacing 60 0 false 0 0 0 0 [] false 0))
    input_init hw_init processes_init static_none static_none static_none static_none static_none.

Lemma prog_loadable : loadable prog prog_ehdr [prog_segment].
Proof.
  split; [exact prog_bytes|vm_compute; reflexivity|vm_compute; reflexivity| |].
  - intros ph ->%list_elem_of_singleton _. exact prog_segment_ok.
  - apply (bool_decide_unpack _). vm_compute. exact I.
Qed.

Lemma start_witness : exists m' r t, start_process 0 0x1234 0x90000 prog boot = Some (m', 1) /\ ~ (r ∈ [root]) /\
  process_image s0 (PMM (VM (SCHED (WORLD m')))) [root] r prog [prog_segment] /\ id t = 5 /\
  PROCESS_TABLE (PROCS m') = [mkProcess 1 5 r ProcRunning].
Proof.
  destruct (start_process_exact 0 0x1234 0x90000 boot idle [root] prog prog_ehdr [prog_segment] eq_refl space0_ok root_in prog_loadable) as (m' & r & t & H).
  - vm_compute. discriminate.
  - lia.
  - vm_compute. reflexivity.
  - split; [lia|reflexivity].
  - exists m', r, t. destruct H as (H1 & H2 & H3 & _ & _ & H4 & _ & _ & _ & _ & _ & H5). exact (conj H1 (conj H2 (conj H3 (conj H4 (f_equal PROCESS_TABLE H5))))).
Defined.

Definition story : list proc_op := [PSpawn 7 0x5000; PSpawn 8 0x6000; PWait 1; PExit 8 3; PWait 2; PWait 2; PExit 7 9; PWait 1].

Lemma table_witness : (exec_procs processes_init story).2 = [Some 1; Some 2; None; None; Some 3; None; None; Some 9] /\
  let '(p', rs) := exec_procs processes_init story in spec_procs (1, entries processes_init) story = (NEXT_PID p', entries p', rs) /\ table_ok p'.
Proof.
  split; [vm_compute; reflexivity|]. apply (process_table_refines story processes_init).
  - split; [apply NoDup_nil_2|apply Forall_nil_2].
  - apply (bool_decide_unpack _). vm_compute. exact I.
  - cbn. lia.
  - cbn. lia.
Defined.
End ProcessWitness.
