(* ===== verification/Syscall.v ===== *)
(** * System calls ([kernel_rs/src/syscall.rs])

    [syscall_dispatch] with all of its calls, 1 to 36, on the machine of [Machine].  A call
    either returns a value or blocks: sending to an endpoint, waiting for an interrupt, spawning and
    waiting for a process go on, one step at a time, with [resume]; leaving a process does not return.
    The tables the kernel keeps for its fixed processes are set up by the [init_*] functions. *)

From S2P Require Import Prelude AuditLog Capability Pmm Vmm Ipc Elf FileServer Gdt Thread ThreadInv Service ServiceInv Geometry Damage Renderer Text Pacing Windows Desktop Driver Input Introspect Machine Surfaces Process.

Definition AGENT_INTROSPECT_CAP : Z := 0.
Definition AGENT_AUDIT_QUERY_CAP : Z := 1.
Definition KEYBOARD_VECTOR : Z := 0x21.
Definition MOUSE_VECTOR : Z := 0x2C.
Definition KEYBOARD_PORT : Z := 0x60.

(** ** The tables of the fixed processes *)

Definition set_static (k : nat) (c : static_cap) (m : machine) : machine :=
  let pick i old := if (i =? k)%nat then c else old in
  mkMachine (WORLD m) (GUI m) (INPUT m) (HW m) (PROCS m)
    (pick 0%nat (RING3_IPC m)) (pick 1%nat (INIT_SVC m)) (pick 2%nat (FB_READY m)) (pick 3%nat (KBD m)) (pick 4%nat (MOUSE m)).

Section init.
Variable me : nat.

(** [X_TABLE = Some(CapabilityTable::new())], an endpoint in it, and its id. *)
Definition init_endpoint (k : nat) (m : machine) : machine * Z :=
  let '(s, t, c) := create_endpoint table_new (union SEND RECEIVE) (ipc_on me (WORLD m)) in
  (set_static k (mkStatic (Some t) c) (set_world (set_ipc s (WORLD m)) m), c).

Definition init_ring3_ipc_demo : machine -> machine * Z := init_endpoint 0.
Definition init_service_ipc : machine -> machine * Z := init_endpoint 1.
Definition init_fb_ready_ipc : machine -> machine * Z := init_endpoint 2.

Definition init_interrupt (k : nat) (vector : Z) (m : machine) : machine :=
  let '(kn, h, t, c) := create_interrupt_capability table_new vector WAIT (kernel_on me (SCHED (WORLD m)), HW m) in
  set_static k (mkStatic (Some t) c) (set_hw h (set_world (set_sched (set_kobj kn (SCHED (WORLD m))) (WORLD m)) m)).

Definition init_kbd_capability : machine -> machine := init_interrupt 3 KEYBOARD_VECTOR.
Definition init_mouse_capability : machine -> machine := init_interrupt 4 MOUSE_VECTOR.
End init.

(** [X_TABLE.as_ref().unwrap()] and [X_CAP.load()]. *)
Definition static_of (f : machine -> static_cap) : handler (CapabilityTable * Z) := fun m =>
  t ← static_table (f m); Some (m, (t, static_id (f m))).

(** ** Dispatch *)

(** A call that has not returned. *)
Inductive blocked :=
  | BSend (t : CapabilityTable) (cap : Z) (msg : Message) (pc : send_pc)
  | BIrq (t : CapabilityTable) (cap : Z) (pc : wait_pc)
  | BSpawn (pc : spawn_pc)
  | BWait (w : wait_pid)
  | BExited.

Inductive outcome := Done (v : Z) | Blocked (b : blocked).

Section dispatch.
(** The executing CPU and the arguments of the calls' models. *)
Variables (me : nat) (rdtsc : nat -> Z) (buf_ptr : Z -> Z).
Variables (user_process_trampoline path_ptr out_ptr elf_ptr kernel_stack : Z).

Definition done (h : handler Z) : handler outcome := v ← h; mret (Done v).

(** A call that sends [a0] on the endpoint of one of the tables. *)
Definition send_call (f : machine -> static_cap) (a0 : Z) : handler outcome :=
  '(t, cap) ← static_of f; mret (Blocked (BSend t cap (word_message a0) SResolve)).

Definition wait_call (f : machine -> static_cap) : handler outcome :=
  '(t, cap) ← static_of f; mret (Blocked (BIrq t cap WResolve)).

Definition ack_call (f : machine -> static_cap) : handler Z :=
  '(t, cap) ← static_of f;
  r ← on_sched (fun s => Some (ack_interrupt me t cap s));
  mret (match r with Ok _ => 0 | Err _ => U64_MAX end).

(** The loop that copies records to the caller's buffer. *)
Fixpoint write_records (pml4 dst size : Z) (i : nat) (recs : list bytes) : handler unit :=
  match recs with
  | [] => mret tt
  | r :: recs' => _ ← write_user pml4 (u64 (dst + u64 (Z.of_nat i * size))) r; write_records pml4 dst size (S i) recs'
  end.

(** Records of [size] bytes to the buffer at [a0]: checked, then copied.  [none] is the
    result when there are none. *)
Definition return_records (a0 size : Z) (recs : list bytes) (none : Z) : handler Z :=
  pml4 ← current_pml4 me;
  let total_bytes := u64 (Z.of_nat (length recs) * size) in
  if total_bytes =? 0 then mret none else
  ok ← user_writable pml4 a0 total_bytes;
  if negb ok then mret U64_MAX else
  _ ← write_records pml4 a0 size 0 recs;
  mret (Z.of_nat (length recs)).

Definition sys_introspect_threads (a0 a1 : Z) : handler Z :=
  r ← resolve_current me AGENT_INTROSPECT_CAP INTROSPECT;
  match r with
  | Err _ => mret U64_MAX
  | Ok _ =>
      entries ← get (fun m => snapshot_threads (Z.to_nat a1) (SCHED (WORLD m)));
      return_records a0 THREAD_INFO_SIZE (thread_info_bytes <$> entries) U64_MAX
  end.

Definition sys_tools (a0 a1 : Z) : handler Z :=
  return_records a0 TOOL_DESCRIPTOR_SIZE (tool_descriptor_bytes <$> take (Z.to_nat a1) catalog) U64_MAX.

Definition sys_audit_query (a0 a1 : Z) : handler Z :=
  r ← resolve_current me AGENT_AUDIT_QUERY_CAP AUDIT_QUERY;
  match r with
  | Err _ => mret U64_MAX
  | Ok _ =>
      entries ← get (fun m => let s := SCHED (WORLD m) in snapshot_audit_for (current_id me s) (Z.to_nat a1) (AUDIT (KOBJ s)));
      return_records a0 AUDIT_ENTRY_SIZE (audit_entry_bytes <$> entries) 0
  end.

Definition sys_socket_use (a0 : Z) : handler Z :=
  r ← resolve_current me (u32 a0) SEND;
  match r with
  | Err _ => mret U64_MAX
  | Ok cap =>
      k ← kind_of_object (object_id cap);
      mret (match k with Some (Socket _ _ _ _) => 0 | _ => U64_MAX end)
  end.

Definition sys_try_receive (a0 : Z) : handler Z :=
  r ← resolve_current me (u32 a0) RECEIVE;
  match r with
  | Err _ => mret U64_MAX
  | Ok cap =>
      msg ← on_world (fun w => '(s, r) ← try_receive_on_object (object_id cap) (ipc_on me w); Some (set_ipc s w, r));
      match msg with
      | None => mret U64_MAX
      | Some msg => from_option (msg !! 0%nat)
      end
  end.

(** [current_has_port_access] for the keyboard controller's port, the refusal audited. *)
Definition with_port (h : handler Z) : handler Z :=
  ok ← (fun m => b ← current_has_port_access me KEYBOARD_PORT (SCHED (WORLD m)); Some (m, b) : option (machine * bool));
  if negb ok then _ ← record_audit me (EvDenied 0); mret U64_MAX else h.

Definition sys_route_key (a0 : Z) : handler Z := with_port (_ ← key_event me rdtsc (u8 a0); mret 0).

Definition sys_mouse_report (a0 : Z) : handler Z :=
  with_port (
    let dx := signed 16 (u16 a0) in
    let dy := signed 16 (u16 (Z.shiftr a0 16)) in
    let buttons := Z.land (u8 (Z.shiftr a0 32)) 1 in
    _ ← on_gui_ (report_mouse rdtsc dx dy (negb (buttons =? 0))); mret 0).

Definition sys_introspect_windows (a0 a1 : Z) : handler Z :=
  r ← resolve_current me AGENT_INTROSPECT_CAP INTROSPECT;
  match r with
  | Err _ => _ ← record_audit me (EvDenied AGENT_INTROSPECT_CAP); mret U64_MAX
  | Ok _ =>
      entries ← get (fun m => snapshot_windows (Z.to_nat a1) (GUI m));
      return_records a0 WINDOW_INFO_SIZE (window_info_bytes <$> entries) 0
  end.

Definition sys_agent_action (a0 a1 : Z) : handler Z :=
  r ← resolve_current me AGENT_INTROSPECT_CAP INTROSPECT;
  match r with
  | Err _ => _ ← record_audit me (EvDenied AGENT_INTROSPECT_CAP); mret U64_MAX
  | Ok _ =>
      let target := u32 a0 in
      let action := u32 (Z.shiftr a1 32) in
      r ← inject_agent_ui_action me rdtsc target action (Z.land (Z.shiftr a1 16) 0xFFFF) (Z.land a1 0xFFFF);
      match r with
      | Err _ => mret U64_MAX
      | Ok _ => _ ← record_audit me (EvAgentUiAction target action); mret 0
      end
  end.

Definition current_call (f : Z -> world -> option (world * Z)) : handler Z :=
  pml4 ← current_pml4 me; on_world (f pml4).

Definition packed_dirty (a1 : Z) : option (Z * Z) := if a1 =? 0 then None else Some (u32 (Z.shiftr a1 32), u32 a1).

Definition syscall_dispatch (num a0 a1 : Z) : handler outcome :=
  match num with
  | 1 => mret (Done 0)
  | 2 => send_call RING3_IPC a0
  | 3 => send_call INIT_SVC a0
  | 4 => send_call FB_READY a0
  | 5 => wait_call KBD
  | 6 => done (ack_call KBD)
  | 7 => done (sys_introspect_threads a0 a1)
  | 8 => done (sys_tools a0 a1)
  | 9 => done (sys_audit_query a0 a1)
  | 10 => done (sys_socket_use a0)
  | 11 => done (syscall_fill_surface me (u32 a0) (u32 a1))
  | 12 => done (sys_try_receive a0)
  | 13 => done (sys_route_key a0)
  | 14 => done (syscall_draw_text me (u32 a0) a1)
  | 15 => done (syscall_move_window me (u32 a0) (signed 32 (u32 (Z.shiftr a1 32))) (signed 32 (u32 a1)))
  | 16 => done (syscall_present_window me (u32 a0) (packed_dirty a1))
  | 17 => done (on_world (FileService.request_file me (u32 a0)))
  | 18 => done (current_call (fun pml4 => FileService.syscall_reply pml4 a1))
  | 19 => done (current_call (fun pml4 => FileService.syscall_poll pml4 a0 a1))
  | 20 => wait_call MOUSE
  | 21 => done (ack_call MOUSE)
  | 22 => done (sys_mouse_report a0)
  | 23 => done (syscall_draw_bitmap me (u32 a0) a1)
  | 24 => done (current_call (fun pml4 => FileService.syscall_write me pml4 (u32 a0) a1))
  | 25 => done (current_call (fun pml4 => FileService.syscall_get_write_data pml4 a0 a1 1024))
  | 26 => done (on_world (NetService.syscall_request me (u32 a0)))
  | 27 => done (current_call (fun pml4 => NetService.syscall_reply pml4 a1))
  | 28 => done (current_call (fun pml4 => NetService.syscall_poll pml4 a0 a1))
  | 29 => done (_ ← on_sched (fun s => s ← schedule me s; Some (s, tt)); mret 0)
  | 30 => done (syscall_map_surface me buf_ptr (u32 a0))
  | 31 => done (syscall_commit_surface me rdtsc (u32 a0) (Z.land (Z.shiftr a1 48) 0xFFFF) (Z.land (Z.shiftr a1 32) 0xFFFF)
                  (Z.land (Z.shiftr a1 16) 0xFFFF) (Z.land a1 0xFFFF))
  | 32 => done (sys_introspect_windows a0 a1)
  | 33 => done (sys_agent_action a0 a1)
  | 34 => pc ← sys_spawn me path_ptr out_ptr a0; mret (match pc with SpRet v => Done v | _ => Blocked (BSpawn pc) end)
  | 35 => w ← sys_wait a0; mret (match w with PwRet v => Done v | _ => Blocked (BWait w) end)
  | 36 => _ ← sys_exit me (signed 32 (u32 a0)); mret (Blocked BExited)
  | _ => mret (Done U64_MAX)
  end.

(** One step of a call that blocked. *)
Definition resume (b : blocked) : handler outcome :=
  match b with
  | BSend t cap msg pc =>
      pc ← on_world (fun w => let '(pc, s) := send_step t cap msg pc (ipc_on me w) in Some (set_ipc s w, pc));
      mret (match pc with SRet (Ok _) => Done 0 | SRet (Err _) => Done U64_MAX | _ => Blocked (BSend t cap msg pc) end)
  | BIrq t cap pc =>
      pc ← (fun m => let '(pc, (s, h)) := wait_step me t cap pc (SCHED (WORLD m), HW m) in
              Some (set_hw h (set_world (set_sched s (WORLD m)) m), pc) : option (machine * wait_pc));
      mret (match pc with WRet (Ok _) => Done 0 | WRet (Err _) => Done U64_MAX | _ => Blocked (BIrq t cap pc) end)
  | BSpawn pc =>
      pc ← spawn_step me user_process_trampoline out_ptr elf_ptr kernel_stack pc;
      mret (match pc with SpRet v => Done v | _ => Blocked (BSpawn pc) end)
  | BWait w => w ← sys_wait_step w; mret (match w with PwRet v => Done v | _ => Blocked (BWait w) end)
  | BExited => mret (Blocked BExited)
  end.
End dispatch.

(** ** Without capabilities *)

(** The running thread holds no capability that is alive, and not the keyboard's port: its slots are
    empty, or their objects were revoked or destroyed. *)
Record powerless (me : nat) (m : machine) : Prop := {
  pw_caps : forall cap_id required cap, ~ holds_cap me cap_id required cap m;
  pw_thread : exists c th, CPUS (SCHED (WORLD m)) !! me = Some c /\ current c = Some th /\ iopb_ok (iopb th) /\ allowed (iopb th) KEYBOARD_PORT = false }.

Lemma only_audit_holds me cap_id required cap m m' : only_audit m m' -> holds_cap me cap_id required cap m' <-> holds_cap me cap_id required cap m.
Proof. intros (a & t & ->). done. Qed.

Lemma only_audit_powerless me m m' : only_audit m m' -> powerless me m -> powerless me m'.
Proof.
  intros Hq [Hc Ht]. split; [intros cap_id rs cap; rewrite (only_audit_holds _ _ _ _ _ _ Hq); apply Hc|]. destruct Hq as (a & t & ->). exact Ht.
Qed.

Lemma powerless_resolve me cap_id rs m : powerless me m -> exists m' e, resolve_current me cap_id rs m = Some (m', Err e) /\ only_audit m m'.
Proof.
  intros [Hno (c & th & Hc & _)]. destruct (resolve_handler_total me cap_id rs m (ex_intro _ c Hc)) as (m' & r & E).
  destruct (resolve_current_spec _ _ _ _ _ _ E) as [Hq Hr]. destruct r as [cap|e]; [by destruct (Hno cap_id rs cap (Hr cap eq_refl))|by exists m', e].
Qed.

(** The scan for a file capability finds none. *)
Lemma scan_files_none t rest i want required k : (forall cap_id cap, mjoin (t !! cap_id) = Some cap -> ~ live_for k cap required) ->
  (scan_files t rest i want required k).2 = None.
Proof.
  revert i k. induction rest as [|slot rest IH]; intros i k Hno; [done|]. cbn [scan_files]. destruct slot as [cap|]; [|by apply IH].
  destruct (contains _ _); [|by apply IH]. destruct (object_kind k _) as [[]|]; try by apply IH. destruct (want _); [|by apply IH].
  pose proof (resolve_OBJECTS t (u32 (Z.of_nat i)) required k) as HO. pose proof (resolve_Ok t (u32 (Z.of_nat i)) required k) as HR.
  destruct (resolve t _ required k) as [k' [c|e]]; cbn in *; [destruct (proj1 (HR c) eq_refl) as [H1 H2]; by destruct (Hno _ _ H1 H2)|].
  apply IH. intros cap_id cap' Hc Hl. apply (Hno _ _ Hc). unfold live_for, get_object in *. by rewrite HO in Hl.
Qed.

Definition kernel_like (s s' : sched) : Prop := exists a t, s' = set_kobj (mkKernel (OBJECTS (KOBJ s)) a t) s.

#[local] Instance kernel_like_preorder : PreOrder kernel_like.
Proof.
  split; [intros s; exists (AUDIT (KOBJ s)), (TID (KOBJ s)); by destruct s as [? ? ? ? ? [] ? ? ?]|].
  intros s1 s2 s3 (a & t & ->) (a' & t' & ->). by exists a', t'.
Qed.

Lemma kernel_like_set me k s : OBJECTS k = OBJECTS (kernel_on me s) -> kernel_like s (set_kobj k s).
Proof. intros H. exists (AUDIT k), (TID k). destruct k. cbn in *. by subst. Qed.

(** The running thread [th] with none of its capabilities alive. *)
Definition no_live (me : nat) (s : sched) : Prop :=
  exists c th, CPUS s !! me = Some c /\ current c = Some th /\ forall i cap rs, mjoin (cap_table th !! i) = Some cap -> ~ live_for (KOBJ s) cap rs.

Lemma no_live_like me s s' : kernel_like s s' -> no_live me s -> no_live me s'.
Proof. intros (a & t & ->) H. exact H. Qed.

Lemma powerless_no_live me m : powerless me m -> no_live me (SCHED (WORLD m)).
Proof.
  intros [Hno (c & th & Hc & Hth & _)]. exists c, th. split_and!; [done|done|]. intros i cap rs Hi Hl.
  destruct (Hno (Z.of_nat i) rs cap). exists th. split_and!; [unfold running; by rewrite Hc|by rewrite Nat2Z.id|done].
Qed.

Lemma no_live_resolve me cap_id rs s : no_live me s -> exists s' e, resolve_current_capability me cap_id rs s = Some (s', Err e) /\ kernel_like s s'.
Proof.
  intros (c & th & Hc & Hth & Hno). unfold resolve_current_capability. rewrite Hc. cbn [mbind option_bind]. rewrite Hth.
  pose proof (resolve_OBJECTS (cap_table th) cap_id rs (kernel_on me s)) as HO. pose proof (resolve_Ok (cap_table th) cap_id rs (kernel_on me s)) as HR.
  destruct (resolve _ _ _ _) as [k [cap|e]]; cbn in *; [destruct (proj1 (HR cap) eq_refl) as [H1 H2]; by destruct (Hno _ _ _ H1 H2)|].
  eexists _, e. split; [done|]. by apply (kernel_like_set me).
Qed.

Lemma no_live_authorised me arg0 rs w : no_live me (SCHED w) ->
  exists s', FileService.authorised_inode me arg0 rs w = Some (set_sched s' w, None) /\ kernel_like (SCHED w) s'.
Proof.
  intros Hn. unfold FileService.authorised_inode, resolve_file_capability. destruct (no_live_resolve me arg0 rs _ Hn) as (s1 & e & -> & K1). cbn [mbind option_bind].
  pose proof (no_live_like _ _ _ K1 Hn) as (c & th & Hc & Hth & Hno). unfold current_has_file_capability. cbn [SCHED set_sched]. rewrite Hc. cbn [mbind option_bind]. rewrite Hth.
  unfold find_file_capability. pose proof (scan_files_OBJECTS (cap_table th) (cap_table th) 0 (fun o => o =? arg0) rs (kernel_on me s1)) as HO1.
  pose proof (scan_files_none (cap_table th) (cap_table th) 0 (fun o => o =? arg0) rs (kernel_on me s1) (fun i cap => Hno i cap rs)) as HN1.
  destruct (scan_files _ _ _ _ _ _) as [k1 r1]. cbn in HN1, HO1. subst r1. cbn [mbind option_bind]. rewrite bool_decide_eq_false_2 by (by intros [? ?]).
  unfold current_has_any_file_capability. cbn [SCHED set_sched CPUS set_kobj]. rewrite Hc. cbn [mbind option_bind]. rewrite Hth. unfold has_any_file_capability.
  set (s2 := set_kobj k1 s1). assert (kernel_like s1 s2) as K2 by (by apply (kernel_like_set me)).
  pose proof (scan_files_OBJECTS (cap_table th) (cap_table th) 0 (fun _ => true) rs (kernel_on me s2)) as HO2.
  assert ((scan_files (cap_table th) (cap_table th) 0 (fun _ => true) rs (kernel_on me s2)).2 = None) as HN2.
  { apply scan_files_none. intros i cap Hi Hl. apply (Hno i cap rs Hi). destruct K2 as (a & t & E). unfold s2 in *. rewrite E in Hl. exact Hl. }
  destruct (scan_files _ _ _ _ _ _) as [k2 r2]. cbn in HN2, HO2. subst r2. cbn [mbind option_bind]. eexists. split; [reflexivity|].
  transitivity s1; [done|]. transitivity s2; [done|]. by apply (kernel_like_set me).
Qed.

Lemma only_audit_sched m s' : kernel_like (SCHED (WORLD m)) s' -> only_audit m (set_world (set_sched s' (WORLD m)) m).
Proof. intros (a & t & ->). by exists a, t. Qed.

(** Handlers that are refused: they return [v] and change only the audit log. *)
Definition refused {A} (me : nat) (h : handler A) (v : A) : Prop := forall m, powerless me m -> exists m', h m = Some (m', v) /\ only_audit m m'.

Lemma refused_ret {A} me (v : A) : refused me (mret v) v.
Proof. intros m _. by exists m. Qed.

Lemma refused_bind {A B} me (h : handler A) (f : A -> handler B) a b : refused me h a -> refused me (f a) b -> refused me (h ≫= f) b.
Proof.
  intros Hh Hf m Hm. destruct (Hh m Hm) as (m1 & E & Q1). destruct (Hf m1 (only_audit_powerless _ _ _ Q1 Hm)) as (m2 & E2 & Q2).
  exists m2. rewrite (bind_run _ _ _ _ _ E). split; [done|by transitivity m1].
Qed.

Lemma refused_done me h v : refused me h v -> refused me (done h) (Done v).
Proof. intros H. apply (refused_bind _ _ _ v); [done|apply refused_ret]. Qed.

Lemma refused_resolve {A} me cap_id rs (f : result Capability CapError -> handler A) v : (forall e, refused me (f (Err e)) v) -> refused me (resolve_current me cap_id rs ≫= f) v.
Proof.
  intros Hf m Hm. destruct (powerless_resolve me cap_id rs m Hm) as (m1 & e & E & Q1). destruct (Hf e m1 (only_audit_powerless _ _ _ Q1 Hm)) as (m2 & E2 & Q2).
  exists m2. rewrite (bind_run _ _ _ _ _ E). split; [done|by transitivity m1].
Qed.

Lemma refused_audit {A} me ev (f : unit -> handler A) v : refused me (f tt) v -> refused me (record_audit me ev ≫= f) v.
Proof. intros Hf. apply (refused_bind _ _ _ tt); [|done]. intros m _. eexists. split; [reflexivity|]. eexists _, _. reflexivity. Qed.

Lemma refused_surface me cap_id f : refused me (with_surface me cap_id f) U64_MAX.
Proof.
  apply (refused_bind _ _ _ None); [|apply refused_ret]. apply refused_resolve. intros e. apply refused_ret.
Qed.

Lemma refused_port me h : refused me (with_port me h) U64_MAX.
Proof.
  intros m [Hno (c & th & Hc & Hth & Hio & Hp)]. unfold with_port, mbind at 1, handler_bind at 1. unfold current_has_port_access. rewrite Hc. cbn [mbind option_bind]. rewrite Hth.
  rewrite is_port_allowed_spec by (done || (unfold KEYBOARD_PORT; lia)). rewrite Hp. cbn. eexists. split; [reflexivity|]. eexists _, _. reflexivity.
Qed.

Lemma refused_file me a0 : refused me (on_world (FileService.request_file me a0)) 0.
Proof.
  intros m Hm. unfold on_world, FileService.request_file. destruct (no_live_authorised me a0 READ (WORLD m) (powerless_no_live _ _ Hm)) as (s' & -> & K).
  cbn [mbind option_bind]. eexists. split; [reflexivity|]. unfold record_on. cbn [SCHED set_sched]. destruct K as (a & t & ->). eexists _, _. reflexivity.
Qed.

Lemma refused_net me a0 : refused me (on_world (NetService.syscall_request me a0)) 0.
Proof.
  intros m Hm. unfold on_world, NetService.syscall_request, NetService.request_fetch. destruct (_ =? NO_SERVER).
  - cbn. eexists. split; [reflexivity|]. replace (set_world (WORLD m) m) with m by (by destruct m). reflexivity.
  - destruct (no_live_resolve me a0 SEND _ (powerless_no_live _ _ Hm)) as (s' & e & -> & K). cbn. eexists. split; [reflexivity|]. by apply only_audit_sched.
Qed.

(** The running thread uses the tables of a process. *)
Definition in_process (me : nat) (m : machine) : Prop :=
  exists c, CPUS (SCHED (WORLD m)) !! me = Some c /\ current_cr3 (vmm_on c (SCHED (WORLD m))) <> kernel_pml4 (WORLD m).

Lemma refused_write me pml4 a0 data_vaddr len offset m : powerless me m -> Z.shiftr a0 24 = 0 -> pml4 <> kernel_pml4 (WORLD m) ->
  exists w', FileService.write_file me pml4 a0 data_vaddr len offset (WORLD m) = Some (w', 0) /\ only_audit m (set_world w' m).
Proof.
  intros Hm Hop Hp. unfold FileService.write_file. rewrite Hop, Z.eqb_refl, (proj2 (Z.eqb_neq _ _) Hp). cbn [andb negb].
  destruct (no_live_authorised me a0 WRITE (WORLD m) (powerless_no_live _ _ Hm)) as (s' & -> & K). cbn [mbind option_bind]. eexists. split; [reflexivity|].
  unfold record_on. cbn [SCHED set_sched]. destruct K as (a & t & ->). eexists _, _. reflexivity.
Qed.

(** The request structure of a write is read, or it is refused; then the write is. *)
Lemma refused_write_call me pml4 a0 a1 m : powerless me m -> Z.shiftr a0 24 = 0 -> pml4 <> kernel_pml4 (WORLD m) -> addr_ok a1 ->
  exists w', FileService.syscall_write me pml4 a0 a1 (WORLD m) = Some (w', 0) /\ only_audit m (set_world w' m).
Proof.
  intros Hm Hop Hp Ha. unfold FileService.syscall_write. destruct (readable_answers pml4 a1 16 (WORLD m) Ha ltac:(lia)) as [[|] ->]; cbn [mbind option_bind].
  - destruct (rle_is_Some 8 (copy_in pml4 a1 16 (WORLD m)) 0) as [v1 ->]; [rewrite copy_in_length; lia|]. destruct (rle_is_Some 4 (copy_in pml4 a1 16 (WORLD m)) 8) as [v2 ->]; [rewrite copy_in_length; lia|].
    destruct (rle_is_Some 4 (copy_in pml4 a1 16 (WORLD m)) 12) as [v3 ->]; [rewrite copy_in_length; lia|]. by apply refused_write.
  - destruct (readable_answers pml4 a1 12 (WORLD m) Ha ltac:(lia)) as [[|] ->]; cbn [mbind option_bind].
    + destruct (rle_is_Some 8 (copy_in pml4 a1 12 (WORLD m)) 0) as [v1 ->]; [rewrite copy_in_length; lia|]. destruct (rle_is_Some 4 (copy_in pml4 a1 12 (WORLD m)) 8) as [v2 ->]; [rewrite copy_in_length; lia|].
      by apply refused_write.
    + exists (WORLD m). split; [done|]. replace (set_world (WORLD m) m) with m by (by destruct m). reflexivity.
Qed.

(** The calls that look at the caller's own capabilities or its ports: introspection (7, 32, 33) and the audit log (9),
    sockets (10, 26), windows (11, 14, 15, 16, 23, 30, 31), receiving from an endpoint (12), the drivers' key and mouse
    reports (13, 22), reading a file (17), spawning a process (34), and 24 when it writes a file (the top byte of its
    argument is the operation, 0 for a write). *)
Definition gated_calls : list Z := [7; 9; 10; 11; 12; 13; 14; 15; 16; 17; 22; 23; 26; 30; 31; 32; 33; 34].
Definition gated (num a0 : Z) : Prop := num ∈ gated_calls \/ num = 24 /\ Z.shiftr (u32 a0) 24 = 0.
(** What each returns when refused. *)
Definition refusal (num : Z) : Z := if (num =? 17) || (num =? 24) || (num =? 26) then 0 else U64_MAX.

Lemma gated_refused me rdtsc buf_ptr path_ptr out_ptr num a0 a1 : num ∈ gated_calls -> refused me (syscall_dispatch me rdtsc buf_ptr path_ptr out_ptr num a0 a1) (Done (refusal num)).
Proof.
  intros Hn. unfold gated_calls in Hn. repeat (apply elem_of_cons in Hn as [->|Hn]); try by apply not_elem_of_nil in Hn.
  all: unfold refusal; cbn [syscall_dispatch Z.eqb Pos.eqb orb]; try (apply refused_done, refused_surface).
  1-4: apply refused_done, refused_resolve; intros; apply refused_ret.
  - apply refused_done, refused_port.
  - apply refused_done, refused_file.
  - apply refused_done, refused_port.
  - apply refused_done, refused_net.
  - apply refused_done, refused_resolve. intros. apply refused_audit, refused_ret.
  - apply refused_done, refused_resolve. intros. apply refused_audit, refused_ret.
  - apply (refused_bind _ _ _ (SpRet U64_MAX)); [|apply refused_ret]. apply refused_resolve. intros. apply refused_audit, refused_ret.
Qed.

(** C3. The calls that check their caller check it properly.  A thread none of whose capabilities is alive (never granted,
    revoked, or its object destroyed) and that has not been given the keyboard's port gets nothing from calls 7, 9 to 17,
    22, 23, 26 and 30 to 34 (introspection, audit log, sockets, windows, receiving, key and mouse reports, reading a
    file, spawning), nor, from a process whose request lies below the last two pages of the address space, from call
    24 when it writes a file: each returns its error value, whatever the arguments, and leaves the machine as it was but
    for the audit log.  The other calls look at no capability of their caller, and nothing is claimed of them: 1, 8 and
    29; 2 to 6, 20 and 21, which use the kernel's own tables; 18, 19, 25, 27 and 28 of the two services; 35 and 36; and
    24 when it creates, makes a directory or removes. *)
Theorem powerless_refused me rdtsc buf_ptr path_ptr out_ptr num a0 a1 m : gated num a0 -> powerless me m -> (num = 24 -> in_process me m /\ addr_ok a1) ->
  exists m', syscall_dispatch me rdtsc buf_ptr path_ptr out_ptr num a0 a1 m = Some (m', Done (refusal num)) /\ only_audit m m'.
Proof.
  intros [Hn|[-> Hop]] Hm Hw; [by apply gated_refused|]. destruct (Hw eq_refl) as [(c & Hc & Hp) Ha]. cbn [syscall_dispatch].
  unfold done, current_call, current_pml4, on_world, mbind, handler_bind. rewrite Hc. cbn [mbind option_bind].
  destruct (refused_write_call me _ _ _ m Hm Hop Hp Ha) as (w' & -> & Hq). cbn [mbind option_bind]. by eexists.
Qed.

(** ** Windows *)

Lemma done_run (h : handler Z) m m' out : done h m = Some (m', out) -> exists v, h m = Some (m', v) /\ out = Done v.
Proof. unfold done, mbind, handler_bind. destruct (h m) as [[m1 v]|]; [|done]. intros [= <- <-]. by exists v. Qed.

(** The calls on windows: fill (11), text (14), move (15), present (16), bitmap (23), map (30), commit (31). *)
Definition surface_calls : list Z := [11; 14; 15; 16; 23; 30; 31].

Section windows.
Variables (me : nat) (rdtsc : nat -> Z) (buf_ptr : Z -> Z) (path_ptr out_ptr : Z).

Lemma surface_dispatch num a0 a1 : num ∈ surface_calls ->
  exists c, syscall_dispatch me rdtsc buf_ptr path_ptr out_ptr num a0 a1 = done (exec_call me rdtsc buf_ptr c (u32 a0)).
Proof.
  intros Hn. unfold surface_calls in Hn.
  repeat (apply elem_of_cons in Hn as [->|Hn]; [first [by eexists (CFill _)|by eexists (CText _)|by eexists (CMove _ _)|by eexists (CPresent _)|by eexists (CBitmap _)|by eexists CMap|by eexists (CCommit _ _ _ _)]|]).
  by apply not_elem_of_nil in Hn.
Qed.

(** C4. The calls on windows reach only the caller's window.  When one of them (fill 11, text 14, move 15, present 16,
    bitmap 23, map 30, commit 31) returns, either the caller's capability in the slot it passed names a live
    surface with the right to map, and then every window of any other surface has its place, size, title and
    pixels as before, the same windows are registered in the same order and the focus is where it was; or the call
    returned its error value and changed nothing but the audit log.  Without such a capability it returns, with the
    error.  The theorem is about these calls; what a process stores itself in a buffer that call 30 mapped for it, or
    has other calls store there, is outside it. *)
Theorem windows_isolated num a0 a1 m : num ∈ surface_calls ->
  (forall m' out, syscall_dispatch me rdtsc buf_ptr path_ptr out_ptr num a0 a1 m = Some (m', out) ->
    (exists oid, names_surface me (u32 a0) oid m /\ untouched oid (GUI m) (GUI m')) \/ out = Done U64_MAX /\ only_audit m m') /\
  (is_Some (CPUS (SCHED (WORLD m)) !! me) -> (forall oid, ~ names_surface me (u32 a0) oid m) ->
    exists m', syscall_dispatch me rdtsc buf_ptr path_ptr out_ptr num a0 a1 m = Some (m', Done U64_MAX) /\ only_audit m m').
Proof.
  intros Hin. destruct (surface_dispatch num a0 a1 Hin) as [c ->]. destruct (surface_isolation me rdtsc buf_ptr c (u32 a0) m) as [H1 H2]. split.
  - intros m' out (v & E & ->)%done_run. destruct (H1 m' v E) as [H|[-> H]]; [by left|by right].
  - intros Hc Hno. destruct (H2 Hc Hno) as (m' & E & H). exists m'. split; [|done]. unfold done, mbind, handler_bind. by rewrite E.
Qed.
End windows.

(** ** Records to the caller *)

Lemma write_user_bytes_app m r v d1 d2 :
  write_user_bytes m r v (d1 ++ d2) = write_user_bytes (write_user_bytes m r v d1) r (u64 (v + Z.of_nat (length d1))) d2.
Proof.
  unfold write_user_bytes, buffer. rewrite length_app, seq_app, fmap_app, zip_with_app by (by rewrite length_fmap, length_seq).
  rewrite foldl_app. f_equal. f_equal. rewrite Nat.add_0_l, <- (Nat.add_0_r (length d1)), <- fmap_add_seq, <- list_fmap_compose, Nat.add_0_r.
  apply list_fmap_ext. intros i k _. cbn. unfold wrap. rewrite Z.add_mod_idemp_l by lia. f_equal. lia.
Qed.

Lemma write_records_run pml4 dst size recs i m : Forall (fun r => Z.of_nat (length r) = size) recs ->
  write_records pml4 dst size i recs m = Some (set_world (copy_out pml4 (u64 (dst + Z.of_nat i * size)) (concat recs) (WORLD m)) m, tt).
Proof.
  intros Hl. revert i m. induction Hl as [|r recs Hr Hl IH]; intros i m; cbn [write_records concat].
  - unfold copy_out, set_phys. unfold write_user_bytes. cbn. by destruct m as [[[? ? ? ? ? ? [[] ? ? ? ?] ? ?]]].
  - assert (u64 (dst + u64 (Z.of_nat i * size)) = u64 (dst + Z.of_nat i * size)) as E1 by (unfold wrap; by rewrite Z.add_mod_idemp_r by lia).
    assert (u64 (dst + Z.of_nat (S i) * size) = u64 (u64 (dst + Z.of_nat i * size) + Z.of_nat (length r))) as E2.
    { unfold wrap. rewrite Z.add_mod_idemp_l by lia. f_equal. lia. }
    rewrite (bind_run _ _ m (set_world (copy_out pml4 (u64 (dst + u64 (Z.of_nat i * size))) r (WORLD m)) m) tt eq_refl). rewrite E1, IH, E2.
    unfold copy_out. rewrite write_user_bytes_app. done.
Qed.

(** Records of [size] bytes each reach the buffer, in order, and nothing else of the memory
    changes, when the buffer is writable, is not its own page tables and is not aliased. *)
Lemma return_records_run me a0 size recs none m c pml4 : CPUS (SCHED (WORLD m)) !! me = Some c -> current_cr3 (vmm_on c (SCHED (WORLD m))) = pml4 ->
  0 < size -> recs <> [] -> Forall (fun r => Z.of_nat (length r) = size) recs -> Z.of_nat (length recs) * size < 2 ^ 64 -> in_width 64 a0 ->
  writable pml4 a0 (Z.of_nat (length recs) * size) (WORLD m) = Some true ->
  return_records me a0 size recs none m = Some (set_world (copy_out pml4 a0 (concat recs) (WORLD m)) m, Z.of_nat (length recs)).
Proof.
  intros Hc Hp Hs Hne Hl Hb Ha Hw. unfold return_records.
  assert (current_pml4 me m = Some (m, pml4)) as Ep by (unfold current_pml4; rewrite Hc; cbn [mbind option_bind]; by rewrite Hp).
  rewrite (bind_run _ _ _ _ _ Ep). assert (0 < Z.of_nat (length recs)) by (destruct recs; [done|cbn; lia]).
  rewrite (wrap_small 64 (_ * size)) by (red; nia). rewrite (proj2 (Z.eqb_neq _ 0)) by nia.
  assert (user_writable pml4 a0 (Z.of_nat (length recs) * size) m = Some (m, true)) as Ew by (unfold user_writable; by rewrite Hw).
  rewrite (bind_run _ _ _ _ _ Ew). cbn [negb]. rewrite (bind_run _ _ _ _ _ (write_records_run pml4 a0 size recs 0 m Hl)).
  rewrite Z.mul_0_l, Z.add_0_r, (wrap_small 64 a0) by done. done.
Qed.

Lemma length_concat_same {A} n (l : list (list A)) : Forall (fun r => length r = n) l -> length (concat l) = (length l * n)%nat.
Proof. induction 1 as [|r l Hr Hl IH]; [done|]. cbn [concat length]. rewrite length_app, Hr, IH. lia. Qed.

(** The caller's memory is fit to receive [n] bytes at [vaddr]. *)
Record buffer_ok (pml4 vaddr : Z) (n : nat) (w : world) : Prop := {
  bo_writable : writable pml4 vaddr (Z.of_nat n) w = Some true;
  bo_apart : no_self_reference (phys w) pml4 (buffer vaddr n);
  bo_alias : NoDup (user_phys (phys w) pml4 <$> buffer vaddr n) }.

Lemma resolve_current_ok me cap_id rs cap m : holds_cap me cap_id rs cap m ->
  resolve_current me cap_id rs m = Some (set_world (set_sched (set_kobj (kernel_on me (SCHED (WORLD m))) (SCHED (WORLD m))) (WORLD m)) m, Ok cap).
Proof.
  intros (th & Hth & Hc & Hl). unfold running in Hth. destruct (CPUS _ !! me) as [c|] eqn:Hcpu; [|done]. cbn in Hth.
  unfold resolve_current, on_sched, resolve_current_capability. rewrite Hcpu. cbn [mbind option_bind]. rewrite Hth.
  pose proof (resolve_kernel (cap_table th) cap_id rs (kernel_on me (SCHED (WORLD m)))) as HK.
  pose proof (proj2 (resolve_Ok (cap_table th) cap_id rs (kernel_on me (SCHED (WORLD m))) cap) (conj Hc Hl)) as HR.
  destruct (resolve _ _ _ _) as [k r]. cbn in HR, HK. subst r. cbn in HK. by subst k.
Qed.

(** C27. The audit query, end to end.  A thread whose own table holds the right to query receives, newest
    first, exactly the records that name it as their actor, up to the number it asked for:
    the call returns how many there are, entry by entry its buffer then decodes to
    their fields, and no memory outside the buffer has changed. *)
Theorem audit_query_end_to_end me rdtsc buf_ptr path_ptr out_ptr a0 a1 m cap c th pml4 :
  holds_cap me AGENT_AUDIT_QUERY_CAP AUDIT_QUERY cap m -> CPUS (SCHED (WORLD m)) !! me = Some c -> current c = Some th -> current_cr3 (vmm_on c (SCHED (WORLD m))) = pml4 ->
  in_width 64 a0 ->
  let recs := records_by_actor (id th) (Z.to_nat a1) (AUDIT (KOBJ (SCHED (WORLD m)))) in
  recs <> [] -> Z.of_nat (length recs) * AUDIT_ENTRY_SIZE < 2 ^ 64 -> Forall (fun r => audit_entry_ok (audit_entry r)) recs ->
  buffer_ok pml4 a0 (length recs * 24) (WORLD m) ->
  exists m', syscall_dispatch me rdtsc buf_ptr path_ptr out_ptr 9 a0 a1 m = Some (m', Done (Z.of_nat (length recs))) /\
    (forall i r, recs !! i = Some r -> actor_tid r = id th /\ r ∈ LOG (AUDIT (KOBJ (SCHED (WORLD m)))) /\
       let e := audit_entry r in decode_audit_entry (copy_in pml4 a0 (length recs * 24) (WORLD m')) i = (ae_seq e, ae_kind e, ae_a e, ae_b e)) /\
    (forall p, p ∉ (user_phys (phys (WORLD m)) pml4 <$> buffer a0 (length recs * 24)) -> phys (WORLD m') p = phys (WORLD m) p).
Proof.
  intros Hcap Hc Hth Hp Ha recs Hne Hb Hfits [Hw Hno Hal].
  set (m1 := set_world (set_sched (set_kobj (kernel_on me (SCHED (WORLD m))) (SCHED (WORLD m))) (WORLD m)) m).
  assert (audit_entry_bytes <$> (audit_entry <$> recs) <> []) as Hne' by (by destruct recs).
  assert (length (audit_entry_bytes <$> (audit_entry <$> recs)) = length recs) as Hlen by (by rewrite !length_fmap).
  assert (Forall (fun r => Z.of_nat (length r) = AUDIT_ENTRY_SIZE) (audit_entry_bytes <$> (audit_entry <$> recs))) as Hl.
  { apply Forall_fmap. eapply Forall_impl; [apply length_audit_entry|]. intros e He. unfold compose. by rewrite He. }
  assert (length (concat (audit_entry_bytes <$> (audit_entry <$> recs))) = (length recs * 24)%nat) as Hcl.
  { rewrite (length_concat_same 24), Hlen; [done|]. apply Forall_fmap, length_audit_entry. }
  pose proof (return_records_run me a0 AUDIT_ENTRY_SIZE _ 0 m1 c pml4 Hc Hp ltac:(done) Hne' Hl ltac:(by rewrite Hlen) Ha) as Hrun.
  assert (Z.of_nat (length recs) * AUDIT_ENTRY_SIZE = Z.of_nat (length recs * 24)) as Ez by (unfold AUDIT_ENTRY_SIZE; lia).
  rewrite Hlen, Ez in Hrun. specialize (Hrun Hw).
  destruct (user_bytes_roundtrip (phys (WORLD m)) pml4 a0 (concat (audit_entry_bytes <$> (audit_entry <$> recs)))) as [Hrd Hoth]; [by rewrite Hcl..|].
  eexists. split; [|split].
  - cbn [syscall_dispatch]. unfold done. erewrite bind_run; [reflexivity|]. unfold sys_audit_query. rewrite (bind_run _ _ _ _ _ (resolve_current_ok _ _ _ _ _ Hcap)).
    fold m1. erewrite bind_run; [|reflexivity]. cbv zeta. assert (current_id me (SCHED (WORLD m1)) = id th) as -> by (unfold current_id; change (CPUS (SCHED (WORLD m1))) with (CPUS (SCHED (WORLD m))); by rewrite Hc; cbn; rewrite Hth).
    exact Hrun.
  - intros i r Hr. destruct (proj1 (records_by_actor_scoped (id th) (Z.to_nat a1) (AUDIT (KOBJ (SCHED (WORLD m)))) r) (list_elem_of_lookup_2 _ _ _ Hr)) as [H1 H2].
    split_and!; [done|done|]. unfold copy_in. change (phys (WORLD _)) with (write_user_bytes (phys (WORLD m)) pml4 a0 (concat (audit_entry_bytes <$> (audit_entry <$> recs)))).
    rewrite <- Hcl at 1. rewrite Hrd. rewrite <- (app_nil_r (concat _)). apply (proj1 (proj2 (proj2 (records_roundtrip i [])))); [by rewrite list_lookup_fmap, Hr|].
    rewrite Forall_forall in Hfits. apply Hfits. by eapply list_elem_of_lookup_2.
  - intros p Hpn. etransitivity; [|apply Hoth; by rewrite Hcl]. reflexivity.
Qed.

Module SyscallWitness.
Import VmmWitness SurfacesWitness DesktopWitness.

(** *** A thread whose only capability was revoked *)

Definition retired : Thread := mkThread 4 Running 0 0 0 0x2000 [Some (mkCap 2 MAP 1)] (replicate Gdt.IOPB_BYTES 0xFF).
Definition after_revoke : machine :=
  set_world (set_sched (set_kobj (mkKernel [mkObject IpcEndpoint 1 true; mkObject (Surface 2 25 20 20) 1 true; mkObject (Surface 12 40 24 20) 2 false] audit_init 0)
    (set_cpus [mkCpu None (Some retired) None Gdt.TSS_ZERO 0 (mkRegs 0 0 0 0 0 0 0 0 0x2000 false) None] (SCHED (WORLD boot)))) (WORLD boot)) boot.

Lemma retired_powerless : powerless 0 after_revoke.
Proof.
  split.
  - intros cap_id rs cap (th & Hth & Hc & (o & Ho & Ha & _) & _). injection Hth as <-. cbn in Hc.
    destruct (Z.to_nat cap_id) as [|k]; [|by destruct k]. injection Hc as <-. injection Ho as <-. discriminate Ha.
  - eexists _, retired. split_and!; [reflexivity|reflexivity| |vm_compute; reflexivity].
    apply denied_iopb_ok.
Qed.

(** It cannot fill its old window, nor write file 5. *)
Lemma powerless_witness : (exists m', syscall_dispatch 0 clock (fun _ => 0) 0 0 11 0 7 after_revoke = Some (m', Done U64_MAX) /\ only_audit after_revoke m') /\
  (exists m', syscall_dispatch 0 clock (fun _ => 0) 0 0 24 5 0x400000 after_revoke = Some (m', Done 0) /\ only_audit after_revoke m').
Proof.
  split.
  - apply (powerless_refused 0 clock (fun _ => 0) 0 0 11 0 7 after_revoke); [left; apply (bool_decide_unpack _); by vm_compute|exact retired_powerless|discriminate].
  - apply (powerless_refused 0 clock (fun _ => 0) 0 0 24 5 0x400000 after_revoke); [right; by split|exact retired_powerless|].
    intros _. split; [|split; lia]. eexists. split; [reflexivity|]. vm_compute. discriminate.
Defined.

(** The owner of window 12 fills it: window 1 keeps its pixels.  With a slot that holds nothing the call is refused. *)
Lemma windows_witness : (exists m', syscall_dispatch 0 clock (fun _ => 0) 0 0 11 0 7 boot = Some (m', Done 0) /\ WINDOWS (GUI m') !! 0%nat = Some (win 1 2 25 20 20 0x111111)) /\
  exists m', syscall_dispatch 0 clock (fun _ => 0) 0 0 11 9 7 boot = Some (m', Done U64_MAX) /\ only_audit boot m'.
Proof.
  split.
  - destruct (ran (syscall_dispatch 0 clock (fun _ => 0) 0 0 11 0 7 boot) (Done 0)) as [m' E]; [vm_compute; reflexivity|]. exists m'. split; [exact E|].
    destruct (windows_isolated 0 clock (fun _ => 0) 0 0 11 0 7 boot) as [H _]; [apply (bool_decide_unpack _); by vm_compute|].
    destruct (H m' (Done 0) E) as [(oid & (cap & x & y & w & h & (th & Hth & Hc & _) & Ho & _) & _ & _ & U)|[U _]]; [|discriminate].
    injection Hth as <-. cbn in Hc. injection Hc as <-. cbn in Ho. apply (U 0%nat); [reflexivity|]. cbn. lia.
  - destruct (windows_isolated 0 clock (fun _ => 0) 0 0 11 9 7 boot) as [_ H]; [apply (bool_decide_unpack _); by vm_compute|].
    apply H; [by eexists|]. intros oid (cap & x & y & w & h & (th & Hth & Hc & _) & _). injection Hth as <-. by vm_compute in Hc.
Defined.

(** *** An agent that asks for its own records *)

Definition agent : Thread := mkThread 4 Running 0 0 0 root [None; Some (mkCap 0 AUDIT_QUERY 1)] [].
Definition log : audit := record 4 (EvIpcSend 9) (record 3 (EvDenied 5) (record 4 (EvDenied 7) audit_init)).
Definition agent_cpu : percpu := mkCpu None (Some agent) None Gdt.TSS_ZERO 0 (mkRegs 0 0 0 0 0 0 0 0 root false) None.
Definition asking : machine :=
  set_world (set_sched (mkSched 5 [agent_cpu] [] 0 (fun _ => 0) (mkKernel [mkObject AuditQueryHandle 1 true] log 0) (mkVmm s1 root root 0 0) [] []) (WORLD boot)) boot.

Lemma asking_buffer : buffer_ok root 0x400800 (1 * 24) (WORLD asking).
Proof.
  split; [vm_compute; reflexivity| |apply (bool_decide_unpack _); vm_compute; exact I].
  intros a a' Ha Ha' f Hf. revert f Hf. revert a' Ha'. revert a Ha.
  assert (Forall (fun a => Forall (fun a' => Forall (fun f => user_phys (phys (WORLD asking)) root a < f \/ f + 4096 <= user_phys (phys (WORLD asking)) root a)
    (walk_frames (phys (WORLD asking)) root a')) (buffer 0x400800 (1 * 24))) (buffer 0x400800 (1 * 24))) as HF by (apply (bool_decide_unpack _); vm_compute; exact I).
  intros a Ha a' Ha' f Hf. rewrite Forall_forall in HF. specialize (HF a Ha). rewrite Forall_forall in HF. specialize (HF a' Ha'). rewrite Forall_forall in HF. exact (HF f Hf).
Qed.

Lemma own_records : records_by_actor 4 (Z.to_nat 1) log = [mkRecord 2 4 (EvIpcSend 9)].
Proof. vm_compute. reflexivity. Qed.

Lemma own_records_fit : Forall (fun r => audit_entry_ok (audit_entry r)) (records_by_actor 4 (Z.to_nat 1) log).
Proof. rewrite own_records. repeat (apply Forall_cons_2; [unfold audit_entry_ok, fits; cbn; lia|]). apply Forall_nil_2. Qed.

Lemma audit_witness : exists m', syscall_dispatch 0 clock (fun _ => 0) 0 0 9 0x400800 1 asking = Some (m', Done 1) /\
  decode_audit_entry (copy_in root 0x400800 24 (WORLD m')) 0 = (2, 4, 9, 0).
Proof.
  destruct (audit_query_end_to_end 0 clock (fun _ => 0) 0 0 0x400800 1 asking (mkCap 0 AUDIT_QUERY 1) agent_cpu agent root) as (m' & E & Hd & _).
  - exists agent. split_and!; [reflexivity|reflexivity|]. split; [exists (mkObject AuditQueryHandle 1 true); vm_compute; done|vm_compute; reflexivity].
  - reflexivity.
  - reflexivity.
  - vm_compute. reflexivity.
  - split; [lia|reflexivity].
  - vm_compute. discriminate.
  - vm_compute. reflexivity.
  - exact own_records_fit.
  - exact asking_buffer.
  - exists m'. split; [exact E|]. exact (proj2 (proj2 (Hd 0%nat (mkRecord 2 4 (EvIpcSend 9)) eq_refl))).
Defined.
End SyscallWitness.
