(* ===== verification/SyscallEntry.v ===== *)
(** * The system-call stub ([kernel_rs/src/syscall.rs], [syscall_entry] and [init])

    The naked function the [SYSCALL] instruction enters, instruction by instruction, over the
    registers it touches, the kernel's memory and the GS toggle; the dispatcher it calls is an
    argument that may change any register and any memory but must leave the stack pointer, the stub's own
    stack words and the toggle as it found them.  Also the model-specific registers [init] writes.

    Whatever the dispatcher does to the registers, the caller gets back its
    instruction pointer, flags, stack and callee-saved registers, and the result. *)

From S2P Require Import Prelude Bits Pmm Vmm Gdt.

Inductive reg := RAX | RBX | RCX | RDX | RSI | RDI | RBP | RSP | R10 | R11 | R12 | R13 | R14 | R15.

#[export] Instance reg_eq_dec : EqDecision reg.
Proof. solve_decision. Defined.

Definition regfile : Type := reg -> Z.
Definition upd (r : reg) (v : Z) (f : regfile) : regfile := fun r' => if decide (r = r') then v else f r'.

(** Registers, the kernel's memory, whether the kernel's GS base is the active one, and
    the interrupt flag. *)
Record cpu := mkCpuState { rf : regfile; kmem : Z -> Z; gs_kernel : bool; iflag : bool }.

Definition with_reg (r : reg) (v : Z) (c : cpu) : cpu := mkCpuState (upd r v (rf c)) (kmem c) (gs_kernel c) (iflag c).
Definition with_mem (m : Z -> Z) (c : cpu) : cpu := mkCpuState (rf c) m (gs_kernel c) (iflag c).

Inductive instr :=
  | Swapgs
  | Mov (d s : reg)
  | LoadGs (d : reg)              (* mov d, gs:[0] *)
  | SubSp (n : Z) | AddSp (n : Z)
  | StoreSp (s : reg)             (* mov [rsp], s *)
  | LoadSp (d : reg)              (* mov d, [rsp] *)
  | Push (s : reg) | PushImm (v : Z) | Pop (d : reg)
  | Call
  | Cli
  | Iretq.

(** What [iretq] loads, from the lowest address up. *)
Record user_frame := mkFrame { ret_rip : Z; ret_cs : Z; ret_rflags : Z; ret_rsp : Z; ret_ss : Z }.

Section stub.
(** [PER_CPU_SYSCALL_SCRATCH[cpu].kernel_rsp], which [gs:[0]] reads, and the dispatcher. *)
Variables (kernel_rsp : Z) (dispatch : cpu -> cpu).

Definition push (v : Z) (c : cpu) : cpu :=
  let sp := u64 (rf c RSP - 8) in with_reg RSP sp (with_mem (wr64 (kmem c) sp v) c).

(** One instruction; [None] when [gs:[0]] is read through the user's GS base. *)
Definition step (i : instr) (c : cpu) : option (cpu + cpu * user_frame) :=
  match i with
  | Swapgs => Some (inl (mkCpuState (rf c) (kmem c) (negb (gs_kernel c)) (iflag c)))
  | Mov d s => Some (inl (with_reg d (rf c s) c))
  | LoadGs d => if gs_kernel c then Some (inl (with_reg d kernel_rsp c)) else None
  | SubSp n => Some (inl (with_reg RSP (u64 (rf c RSP - n)) c))
  | AddSp n => Some (inl (with_reg RSP (u64 (rf c RSP + n)) c))
  | StoreSp s => Some (inl (with_mem (wr64 (kmem c) (rf c RSP) (rf c s)) c))
  | LoadSp d => Some (inl (with_reg d (rd64 (kmem c) (rf c RSP)) c))
  | Push s => Some (inl (push (rf c s) c))
  | PushImm v => Some (inl (push v c))
  | Pop d => Some (inl (with_reg d (rd64 (kmem c) (rf c RSP)) (with_reg RSP (u64 (rf c RSP + 8)) c)))
  | Call => Some (inl (dispatch c))
  | Cli => Some (inl (mkCpuState (rf c) (kmem c) (gs_kernel c) false))
  | Iretq =>
      let w k := rd64 (kmem c) (u64 (rf c RSP + 8 * k)) in
      Some (inr (c, mkFrame (w 0) (w 1) (w 2) (w 3) (w 4)))
  end.

Fixpoint run (is_ : list instr) (c : cpu) : option (cpu * user_frame) :=
  match is_ with
  | [] => None
  | i :: is' => r ← step i c; match r with inl c => run is' c | inr r => Some r end
  end.

Definition syscall_entry : list instr :=
  [Swapgs; Mov R10 RSP; LoadGs RSP; SubSp 8; StoreSp R10; Swapgs;
   Push RCX; Push R11; Push R14; Push R15; Push RBX; Push RBP; Push R12; Push R13;
   Mov R12 RDI; Mov R13 RSI; Mov RDI RAX; Mov RSI R12; Mov RDX R13;
   Call;
   Pop R13; Pop R12; Pop RBP; Pop RBX; Pop R15; Pop R14; Pop R11; Pop RCX;
   Cli; Swapgs; LoadSp R10; AddSp 8;
   PushImm USER_DATA_SELECTOR; Push R10; Push R11; PushImm USER_CODE_SELECTOR; Push RCX;
   Swapgs; Iretq].

(** The dispatcher as seen from the stub, a callee that keeps to the calling convention: it returns with the stack
    pointer it was called with, its caller's frame (the nine words the stub pushed) as it was, and the
    user's GS base active.  It may write any other memory. *)
Record balanced : Prop := {
  bal_rsp : forall c, rf (dispatch c) RSP = rf c RSP;
  bal_mem : forall c a, rf c RSP <= a < rf c RSP + 72 -> kmem (dispatch c) a = kmem c a;
  bal_gs : forall c, gs_kernel (dispatch c) = gs_kernel c }.
End stub.

(** ** Runs of pushes and pops *)

Lemma upd_eq r v f : upd r v f r = v.
Proof. unfold upd. by rewrite decide_True. Qed.
Lemma upd_ne r r' v f : r <> r' -> upd r v f r' = f r'.
Proof. intros. unfold upd. by rewrite decide_False. Qed.

Section runs.
Variables (K : Z) (dispatch : cpu -> cpu).

(** The value a push stores; no other instruction qualifies. *)
Definition pushed (f : regfile) (i : instr) : option Z :=
  match i with Push r => if decide (r = RSP) then None else Some (f r) | PushImm v => Some v | _ => None end.

Lemma run_pushes l vs c : mapM (pushed (rf c)) l = Some vs -> Forall (in_width 64) vs -> 8 * Z.of_nat (length l) <= rf c RSP < 2 ^ 64 ->
  exists c', (forall rest, run K dispatch (l ++ rest) c = run K dispatch rest c') /\ rf c' RSP = rf c RSP - 8 * Z.of_nat (length l) /\
    (forall r, r <> RSP -> rf c' r = rf c r) /\ gs_kernel c' = gs_kernel c /\ iflag c' = iflag c /\
    (forall a, rf c RSP <= a \/ a < rf c RSP - 8 * Z.of_nat (length l) -> kmem c' a = kmem c a) /\
    forall k v, vs !! k = Some v -> rd64 (kmem c') (rf c RSP - 8 * (Z.of_nat k + 1)) = v.
Proof.
  revert vs c. induction l as [|i l IH]; intros vs c Hm Hv Hr; cbn [mapM] in Hm.
  { injection Hm as <-. exists c. cbn. split_and!; try done; try lia. }
  destruct (pushed (rf c) i) as [v|] eqn:Hp; cbn [mbind option_bind] in Hm; [|done]. destruct (mapM _ l) as [vs'|] eqn:Hm'; cbn [mbind option_bind] in Hm; [|done]. injection Hm as <-.
  apply Forall_cons in Hv as [Hv0 Hv]. cbn [length] in *. set (c1 := push v c).
  assert (step K dispatch i c = Some (inl c1)) as Hs by (destruct i; cbn in Hp; try done; [case_decide; [done|]|]; injection Hp as <-; done).
  assert (rf c1 RSP = rf c RSP - 8) as Hsp by (unfold c1, push; cbn; rewrite upd_eq; apply wrap_small; red; lia).
  assert (forall r, r <> RSP -> rf c1 r = rf c r) as Hreg by (intros r Hr'; unfold c1, push; cbn; by rewrite upd_ne by done).
  assert (kmem c1 = wr64 (kmem c) (rf c RSP - 8) v) as Hmem by (unfold c1, push; cbn; rewrite wrap_small by (red; lia); done).
  destruct (IH vs' c1) as (c' & E & H1 & H2 & H3 & H4 & H5 & H6); [|done|lia|].
  { rewrite <- Hm'. clear - Hreg. induction l as [|i l IHl]; [done|]. cbn [mapM]. rewrite IHl.
    assert (pushed (rf c1) i = pushed (rf c) i) as -> by (destruct i; unfold pushed; try done; case_decide; [done|by rewrite Hreg]). done. }
  exists c'. rewrite Hsp, Hmem in *. split_and!; [intros rest; cbn [app run]; rewrite Hs; apply E|lia|intros r Hr'; by rewrite H2, Hreg|done|done| |].
  - intros a Ha. rewrite H5 by lia. unfold wr64. destruct (_ && _) eqn:Hc; [|done]. bool_to_prop. lia.
  - intros k w Hk. destruct k as [|k]; [injection Hk as <-|].
    + etransitivity; [|exact (rd64_wr64_eq (kmem c) (rf c RSP - 8) v Hv0)]. replace (rf c RSP - 8 * (Z.of_nat 0 + 1)) with (rf c RSP - 8) by lia.
      apply rd64_ext. intros a Ha. apply H5. lia.
    + rewrite <- (H6 k w Hk). f_equal. lia.
Qed.

Lemma run_pops ds c : RSP ∉ ds -> NoDup ds -> 0 <= rf c RSP -> rf c RSP + 8 * Z.of_nat (length ds) < 2 ^ 64 ->
  exists c', (forall rest, run K dispatch ((Pop <$> ds) ++ rest) c = run K dispatch rest c') /\ rf c' RSP = rf c RSP + 8 * Z.of_nat (length ds) /\
    (forall r, r <> RSP -> r ∉ ds -> rf c' r = rf c r) /\ gs_kernel c' = gs_kernel c /\ iflag c' = iflag c /\ kmem c' = kmem c /\
    forall k d, ds !! k = Some d -> rf c' d = rd64 (kmem c) (rf c RSP + 8 * Z.of_nat k).
Proof.
  intros Hn Hnd. revert c. induction Hnd as [|d ds Hd Hnd IH]; intros c H0 H1.
  { exists c. cbn. split_and!; try done; try lia. }
  apply not_elem_of_cons in Hn as [Hdr Hn]. cbn [length] in *.
  set (c1 := with_reg d (rd64 (kmem c) (rf c RSP)) (with_reg RSP (u64 (rf c RSP + 8)) c)).
  assert (rf c1 RSP = rf c RSP + 8) as Hsp by (unfold c1; cbn; rewrite upd_ne, upd_eq by done; apply wrap_small; red; lia).
  assert (forall r, r <> RSP -> r <> d -> rf c1 r = rf c r) as Hreg by (intros; unfold c1; cbn; by rewrite !upd_ne by done).
  destruct (IH Hn c1) as (c' & E & H2 & H3 & H4 & H5 & H6 & H7); [lia|lia|].
  exists c'. rewrite Hsp in *. change (kmem c1) with (kmem c) in *.
  split_and!; [intros rest; exact (E rest)|lia| |done|done|done|].
  - intros r Hr [Hr1 Hr2]%not_elem_of_cons. rewrite H3, Hreg by done. done.
  - intros k d' Hk. destruct k as [|k]; [injection Hk as <-|rewrite (H7 k d' Hk); f_equal; lia].
    rewrite H3 by done. unfold c1. cbn. rewrite upd_eq. f_equal. lia.
Qed.
End runs.

(** ** The round trip *)

Section roundtrip.
Variables (K : Z) (dispatch : cpu -> cpu).

(** What the dispatcher is called with: the number and the arguments, on the thread's own kernel stack. *)
Record called_with (c c0 : cpu) : Prop := {
  cw_num : rf c0 RDI = rf c RAX; cw_a0 : rf c0 RSI = rf c RDI; cw_a1 : rf c0 RDX = rf c RSI;
  cw_rsp : rf c0 RSP = K - 72; cw_gs : gs_kernel c0 = false; cw_if : iflag c0 = iflag c;
  cw_mem : forall a, K <= a \/ a < K - 72 -> kmem c0 a = kmem c a;
  cw_saved : forall k r, [RSP; RCX; R11; R14; R15; RBX; RBP; R12; R13] !! k = Some r -> rd64 (kmem c0) (K - 8 * (Z.of_nat k + 1)) = rf c r }.

Lemma entry_part c : 112 <= K < 2 ^ 64 -> (forall r, in_width 64 (rf c r)) -> gs_kernel c = false ->
  exists c0, called_with c c0 /\ forall rest, run K dispatch (take 19 syscall_entry ++ rest) c = run K dispatch rest c0.
Proof.
  intros HK Hw Hg. destruct c as [f m g fl]. cbn in Hg. subst g. cbn [rf] in Hw.
  set (ca := with_reg RSP K (with_reg R10 (f RSP) (mkCpuState f m true fl))). set (cb := with_reg RSP (u64 (rf ca RSP - 8)) ca).
  set (c1 := mkCpuState (rf cb) (wr64 (kmem cb) (rf cb RSP) (rf cb R10)) false fl).
  assert (rf c1 RSP = K - 8) as Hc1 by (unfold c1, cb, ca; cbn; rewrite !upd_eq; apply wrap_small; red; lia).
  assert (forall r, r <> RSP -> r <> R10 -> rf c1 r = f r) as Hc1r by (intros; unfold c1, cb, ca; cbn; by rewrite !upd_ne by done).
  assert (kmem c1 = wr64 m (K - 8) (f RSP)) as Hc1m.
  { unfold c1, cb, ca. cbn. rewrite !upd_eq, !upd_ne, upd_eq by done. rewrite wrap_small by (red; lia). done. }
  set (rest19 := [Mov R12 RDI; Mov R13 RSI; Mov RDI RAX; Mov RSI R12; Mov RDX R13]).
  assert (exists c2, (forall rest, run K dispatch ([Push RCX; Push R11; Push R14; Push R15; Push RBX; Push RBP; Push R12; Push R13] ++ rest) c1 = run K dispatch rest c2) /\
     rf c2 RSP = K - 72 /\ (forall r, r <> RSP -> rf c2 r = rf c1 r) /\ gs_kernel c2 = false /\ iflag c2 = fl /\
     (forall a, K - 8 <= a \/ a < K - 72 -> kmem c2 a = kmem c1 a) /\
     forall k v, [f RCX; f R11; f R14; f R15; f RBX; f RBP; f R12; f R13] !! k = Some v -> rd64 (kmem c2) (K - 8 - 8 * (Z.of_nat k + 1)) = v) as (c2 & E2 & P1 & P2 & P3 & P4 & P5 & P6).
  { destruct (run_pushes K dispatch [Push RCX; Push R11; Push R14; Push R15; Push RBX; Push RBP; Push R12; Push R13]
      [f RCX; f R11; f R14; f R15; f RBX; f RBP; f R12; f R13] c1) as (c2 & E & H1 & H2 & H3 & H4 & H5 & H6).
    - cbn [mapM pushed]. rewrite !decide_False by done. rewrite !Hc1r by done. done.
    - by repeat (apply Forall_cons_2; [apply Hw|]).
    - rewrite Hc1. cbn [length]. lia.
    - exists c2. rewrite Hc1 in *. cbn [length] in H1, H5. split_and!; try done; [lia|]. intros a Ha. apply H5. lia. }
  set (c2a := with_reg R12 (rf c2 RDI) c2). set (c2b := with_reg R13 (rf c2a RSI) c2a). set (c2c := with_reg RDI (rf c2b RAX) c2b).
  set (c2d := with_reg RSI (rf c2c R12) c2c). set (c3 := with_reg RDX (rf c2d R13) c2d).
  exists c3. split.
  - split; try (unfold c3, c2d, c2c, c2b, c2a; cbn; repeat (rewrite ?upd_eq, ?upd_ne by done); rewrite ?P2, ?Hc1r by done; done).
    + intros a Ha. change (kmem c3) with (kmem c2). rewrite P5, Hc1m by lia. cbn. unfold wr64. destruct (_ && _) eqn:Hc; [|done]. bool_to_prop. lia.
    + intros k r Hk. destruct k as [|k].
      * injection Hk as <-. etransitivity; [|exact (rd64_wr64_eq m (K - 8) (f RSP) (Hw RSP))]. replace (K - 8 * (Z.of_nat 0 + 1)) with (K - 8) by lia.
        rewrite <- Hc1m. apply rd64_ext. intros a Ha. apply P5. lia.
      * etransitivity; [|apply (P6 k (f r))]; [change (kmem c3) with (kmem c2); f_equal; lia|]. do 8 (destruct k as [|k]; [injection Hk as <-; done|]). done.
  - intros rest. change (take 19 syscall_entry ++ rest) with
      ([Swapgs; Mov R10 RSP; LoadGs RSP; SubSp 8; StoreSp R10; Swapgs] ++ [Push RCX; Push R11; Push R14; Push R15; Push RBX; Push RBP; Push R12; Push R13] ++ rest19 ++ rest).
    etransitivity; [|etransitivity; [apply (E2 (rest19 ++ rest))|]].
    + reflexivity.
    + reflexivity.
Qed.

Lemma run_call rest c : run K dispatch (Call :: rest) c = run K dispatch rest (dispatch c).
Proof. reflexivity. Qed.

Lemma exit_part c c0 : 112 <= K < 2 ^ 64 -> balanced dispatch -> (forall r, in_width 64 (rf c r)) -> called_with c c0 ->
  exists c', run K dispatch (drop 20 syscall_entry) (dispatch c0) = Some (c', mkFrame (rf c RCX) USER_CODE_SELECTOR (rf c R11) (rf c RSP) USER_DATA_SELECTOR) /\
    (forall r, r ∈ [RBX; RBP; R12; R13; R14; R15] -> rf c' r = rf c r) /\ rf c' RAX = rf (dispatch c0) RAX /\ gs_kernel c' = false /\ iflag c' = false /\
    forall a, K <= a \/ a < K - 72 -> kmem c' a = kmem (dispatch c0) a.
Proof.
  intros HK [B1 B2 B3] Hw [_ _ _ C4 C5 C6 C7 C8]. set (c1 := dispatch c0). assert (rf c1 RSP = K - 72) as Hsp by (unfold c1; by rewrite B1).
  assert (forall p, K - 72 <= p <= K - 8 -> rd64 (kmem c1) p = rd64 (kmem c0) p) as Hrd by (intros p Hp; apply rd64_ext; intros a Ha; apply B2; lia).
  destruct (run_pops K dispatch [R13; R12; RBP; RBX; R15; R14; R11; RCX] c1) as (c2 & E2 & P1 & P2 & P3 & P4 & P5 & P6);
    [by apply (bool_decide_unpack _); vm_compute|by apply (bool_decide_unpack _); vm_compute|lia|cbn [length]; lia|].
  rewrite Hsp in *. cbn [length] in P1.
  assert (forall k r, [R13; R12; RBP; RBX; R15; R14; R11; RCX] !! k = Some r -> rf c2 r = rf c r) as Hback.
  { intros k r Hk. assert ((k < 8)%nat) by (apply lookup_lt_Some in Hk; exact Hk). rewrite (P6 k r Hk), Hrd by lia.
    replace (K - 72 + 8 * Z.of_nat k) with (K - 8 * (Z.of_nat (8 - k) + 1)) by lia. apply C8.
    do 8 (destruct k as [|k]; [injection Hk as <-; done|]). lia. }
  set (ca := mkCpuState (rf c2) (kmem c2) (negb (gs_kernel c2)) false). set (cb := with_reg R10 (rd64 (kmem ca) (rf ca RSP)) ca).
  set (c3 := with_reg RSP (u64 (rf cb RSP + 8)) cb).
  assert (rf c3 RSP = K) as H3sp by (unfold c3, cb, ca; cbn; rewrite upd_eq, upd_ne by done; rewrite P1, wrap_small by (red; lia); lia).
  assert (rf c3 R10 = rf c RSP) as H3r.
  { unfold c3, cb, ca. cbn. rewrite upd_ne, upd_eq by done. rewrite P1, P5. replace (K - 72 + 8 * Z.of_nat 8) with (K - 8 * (Z.of_nat 0 + 1)) by lia. rewrite Hrd by lia. by apply C8. }
  assert (forall r, r <> RSP -> r <> R10 -> rf c3 r = rf c2 r) as H3o by (intros; unfold c3, cb, ca; cbn; by rewrite !upd_ne by done).
  destruct (run_pushes K dispatch [PushImm USER_DATA_SELECTOR; Push R10; Push R11; PushImm USER_CODE_SELECTOR; Push RCX]
    [USER_DATA_SELECTOR; rf c RSP; rf c R11; USER_CODE_SELECTOR; rf c RCX] c3) as (c4 & E4 & Q1 & Q2 & Q3 & Q4 & Q5 & Q6).
  { cbn [mapM pushed]. rewrite !decide_False by done. rewrite H3r, !H3o by done. rewrite (Hback 6%nat R11 eq_refl), (Hback 7%nat RCX eq_refl). done. }
  { repeat (apply Forall_cons_2; [first [apply Hw|by vm_compute]|]). apply Forall_nil_2. }
  { rewrite H3sp. cbn [length]. lia. }
  rewrite H3sp in *. cbn [length] in Q1. set (c5 := mkCpuState (rf c4) (kmem c4) (negb (gs_kernel c4)) (iflag c4)). exists c5.
  assert (forall r k, [R13; R12; RBP; RBX; R15; R14; R11; RCX] !! k = Some r -> rf c5 r = rf c r) as H5.
  { intros r k Hk. change (rf c5 r) with (rf c4 r). assert (r <> RSP /\ r <> R10) as [? ?] by (do 8 (destruct k as [|k]; [injection Hk as <-; done|]); done).
    rewrite Q2, H3o by done. exact (Hback k r Hk). }
  split_and!.
  - change (drop 20 syscall_entry) with ((Pop <$> [R13; R12; RBP; RBX; R15; R14; R11; RCX]) ++ [Cli; Swapgs; LoadSp R10; AddSp 8] ++
      [PushImm USER_DATA_SELECTOR; Push R10; Push R11; PushImm USER_CODE_SELECTOR; Push RCX] ++ [Swapgs; Iretq]).
    rewrite E2. transitivity (run K dispatch ([PushImm USER_DATA_SELECTOR; Push R10; Push R11; PushImm USER_CODE_SELECTOR; Push RCX] ++ [Swapgs; Iretq]) c3); [reflexivity|].
    rewrite E4. cbn [run step mbind option_bind]. f_equal. f_equal. cbn [rf kmem]. rewrite Q1.
    f_equal; rewrite wrap_small by (red; lia).
    + rewrite <- (Q6 4%nat _ eq_refl). f_equal. lia.
    + rewrite <- (Q6 3%nat _ eq_refl). f_equal. lia.
    + rewrite <- (Q6 2%nat _ eq_refl). f_equal. lia.
    + rewrite <- (Q6 1%nat _ eq_refl). f_equal. lia.
    + rewrite <- (Q6 0%nat _ eq_refl). f_equal. lia.
  - intros r Hr. repeat (apply elem_of_cons in Hr as [->|Hr]; [first [exact (H5 _ 0%nat eq_refl)|exact (H5 _ 1%nat eq_refl)|exact (H5 _ 2%nat eq_refl)|exact (H5 _ 3%nat eq_refl)|exact (H5 _ 4%nat eq_refl)|exact (H5 _ 5%nat eq_refl)]|]).
    by apply not_elem_of_nil in Hr.
  - change (rf c5 RAX) with (rf c4 RAX). rewrite Q2, H3o by done. apply P2; [done|]. by apply (bool_decide_unpack _); vm_compute.
  - change (gs_kernel c5) with (negb (gs_kernel c4)). rewrite Q3. change (gs_kernel c3) with (negb (gs_kernel c2)). rewrite P3. unfold c1. by rewrite B3, C5.
  - change (iflag c5) with (iflag c4). by rewrite Q4.
  - intros a Ha. change (kmem c5) with (kmem c4). rewrite Q5 by (cbn [length]; lia). change (kmem c3) with (kmem c2). by rewrite P5.
Qed.

(** C10. A system call returns to where it was made.  Entered in user mode with the user's GS base active, on
    a kernel stack of its own, the stub calls the dispatcher once, with the number from [rax]
    and the arguments from [rdi] and [rsi].  Whatever a dispatcher that keeps to the calling convention (it gives back the stack pointer
    and the GS base and leaves the stub's nine stack words alone) does to the registers and to all other memory, the
    return restores the instruction pointer, flags and stack the caller had, in ring 3, its
    six callee-saved registers and the GS base, with the dispatcher's result in [rax]; and the stub itself writes
    no memory but those nine words. *)
Theorem syscall_roundtrip c : 112 <= K < 2 ^ 64 -> balanced dispatch -> (forall r, in_width 64 (rf c r)) -> gs_kernel c = false ->
  exists c0 c', called_with c c0 /\
    run K dispatch syscall_entry c = Some (c', mkFrame (rf c RCX) USER_CODE_SELECTOR (rf c R11) (rf c RSP) USER_DATA_SELECTOR) /\
    (forall r, r ∈ [RBX; RBP; R12; R13; R14; R15] -> rf c' r = rf c r) /\ rf c' RAX = rf (dispatch c0) RAX /\ gs_kernel c' = false /\
    (forall a, K <= a \/ a < K - 72 -> kmem c0 a = kmem c a /\ kmem c' a = kmem (dispatch c0) a).
Proof.
  intros HK Hb Hw Hg. destruct (entry_part c HK Hw Hg) as (c0 & Hc & E). destruct (exit_part c c0 HK Hb Hw Hc) as (c' & E' & H1 & H2 & H3 & _ & H4).
  exists c0, c'. split; [done|]. assert (syscall_entry = take 19 syscall_entry ++ Call :: drop 20 syscall_entry) as Hl by reflexivity.
  split; [rewrite Hl, E, run_call; exact E'|]. split; [exact H1|]. split; [exact H2|]. split; [exact H3|]. intros a Ha. split; [by apply (cw_mem _ _ Hc)|by apply H4].
Qed.
End roundtrip.

(** With a stack top aligned to 16 bytes the dispatcher is called with a stack pointer of 8 modulo 16, where the
    C convention asks for 0. *)
Lemma dispatch_stack_misaligned K c c0 : called_with K c c0 -> K mod 16 = 0 -> rf c0 RSP mod 16 = 8.
Proof. intros H HK. rewrite (cw_rsp _ _ _ H). Z.div_mod_to_equations. lia. Qed.

(** ** Model-specific registers *)

Definition IA32_EFER : Z := 0xC0000080.
Definition IA32_STAR : Z := 0xC0000081.
Definition IA32_LSTAR : Z := 0xC0000082.
Definition IA32_FMASK : Z := 0xC0000084.
Definition IA32_KERNEL_GS_BASE : Z := 0xC0000102.
Definition EFER_SCE : Z := Z.shiftl 1 0.
Definition SCRATCH_SIZE : Z := 16.

(** [rdmsr] and [wrmsr] split and join the 64 bits as two halves. *)
Definition wrmsr (msr value : Z) (ms : Z -> Z) : Z -> Z :=
  fun x => if x =? msr then Z.lor (Z.shiftl (u32 (Z.shiftr value 32)) 32) (u32 value) else ms x.

(** Each CPU's registers and whether [init] has run on it. *)
Record msr_state := mkMsr { SYSCALL_INITIALIZED : list bool; MSRS : list (Z -> Z) }.

Section msrs.
(** The addresses of [syscall_entry] and of [PER_CPU_SYSCALL_SCRATCH]. *)
Variables (entry scratch : Z).

Definition STAR_VALUE : Z := Z.lor (Z.shiftl 0x20 48) (Z.shiftl 0x08 32).

Definition syscall_init (cpu : nat) (s : msr_state) : option msr_state :=
  b ← SYSCALL_INITIALIZED s !! cpu; ms ← MSRS s !! cpu;
  if (b : bool) then Some s else
  let ms := wrmsr IA32_EFER (Z.lor (ms IA32_EFER) EFER_SCE) ms in
  let ms := wrmsr IA32_STAR STAR_VALUE ms in
  let ms := wrmsr IA32_LSTAR entry ms in
  let ms := wrmsr IA32_FMASK 0x200 ms in
  let ms := wrmsr IA32_KERNEL_GS_BASE (u64 (scratch + Z.of_nat cpu * SCRATCH_SIZE)) ms in
  Some (mkMsr (<[cpu := true]> (SYSCALL_INITIALIZED s)) (<[cpu := ms]> (MSRS s))).
End msrs.

(** The selectors the processor derives from [STAR]. *)
Definition syscall_selectors (star : Z) : Z * Z := (Z.land (Z.shiftr star 32) 0xFFFF, Z.land (Z.shiftr star 32) 0xFFFF + 8).
Definition sysret_selectors (star : Z) : Z * Z :=
  (Z.lor (Z.land (Z.shiftr star 48) 0xFFFF + 16) 3, Z.lor (Z.land (Z.shiftr star 48) 0xFFFF + 8) 3).

Lemma wrmsr_eq msr v ms : in_width 64 v -> wrmsr msr v ms msr = v.
Proof.
  intros Hv. unfold wrmsr. rewrite Z.eqb_refl, lor_disjoint_add by (try lia; apply (wrap_range 32); lia).
  rewrite (wrap_small 32 (Z.shiftr v 32)) by (rewrite Z.shiftr_div_pow2 by lia; red in Hv |- *; split; [apply Z.div_pos; lia|apply Z.div_lt_upper_bound; lia]).
  rewrite Z.shiftr_div_pow2 by lia. unfold wrap. pose proof (Z.div_mod v (2 ^ 32) ltac:(lia)). lia.
Qed.
Lemma wrmsr_ne msr x v ms : x <> msr -> wrmsr msr v ms x = ms x.
Proof. intros. unfold wrmsr. by rewrite (proj2 (Z.eqb_neq _ _)). Qed.

(** The first [init] on a CPU enables [SYSCALL] there: the selectors derived from [STAR] are those of the kernel's
    and the user's segments, entry masks exactly the interrupt flag, and the GS base
    is the CPU's own slot; other CPUs and other registers are untouched, and a second
    call changes nothing. *)
Theorem syscall_init_exact entry scratch cpu s ms : SYSCALL_INITIALIZED s !! cpu = Some false -> MSRS s !! cpu = Some ms ->
  in_width 64 entry -> in_width 64 (ms IA32_EFER) ->
  exists s' ms', syscall_init entry scratch cpu s = Some s' /\ MSRS s' !! cpu = Some ms' /\
    syscall_selectors (ms' IA32_STAR) = (Z.shiftl 1 3, Z.shiftl 2 3) /\ sysret_selectors (ms' IA32_STAR) = (USER_CODE_SELECTOR, USER_DATA_SELECTOR) /\
    ms' IA32_LSTAR = entry /\ ms' IA32_FMASK = Z.shiftl 1 9 /\ ms' IA32_EFER = Z.lor (ms IA32_EFER) 1 /\
    ms' IA32_KERNEL_GS_BASE = u64 (scratch + 16 * Z.of_nat cpu) /\
    (forall x, x ∉ [IA32_EFER; IA32_STAR; IA32_LSTAR; IA32_FMASK; IA32_KERNEL_GS_BASE] -> ms' x = ms x) /\
    (forall other, other <> cpu -> MSRS s' !! other = MSRS s !! other) /\
    syscall_init entry scratch cpu s' = Some s'.
Proof.
  intros Hb Hm He Hef. unfold syscall_init. rewrite Hb, Hm. cbn [mbind option_bind].
  assert (in_width 64 (Z.lor (ms IA32_EFER) EFER_SCE)) by (apply in_width_lor; [lia|done|by vm_compute]).
  eexists _, _. split; [reflexivity|]. cbn [MSRS SYSCALL_INITIALIZED]. split; [apply list_lookup_insert_eq; by eapply lookup_lt_Some|].
  rewrite !(wrmsr_ne _ IA32_STAR), (wrmsr_eq IA32_STAR) by (done || by vm_compute).
  rewrite !(wrmsr_ne _ IA32_LSTAR), (wrmsr_eq IA32_LSTAR) by (done || by vm_compute).
  rewrite !(wrmsr_ne _ IA32_FMASK), (wrmsr_eq IA32_FMASK) by (done || by vm_compute).
  rewrite !(wrmsr_ne _ IA32_EFER), (wrmsr_eq IA32_EFER) by (done || by vm_compute).
  rewrite (wrmsr_eq IA32_KERNEL_GS_BASE) by (apply (wrap_range 64); lia).
  split; [reflexivity|]. split; [reflexivity|]. split; [reflexivity|]. split; [reflexivity|]. split; [reflexivity|]. split; [|split; [|split]].
  - unfold SCRATCH_SIZE. f_equal. lia.
  - intros x Hx. rewrite !not_elem_of_cons in Hx. destruct Hx as (? & ? & ? & ? & ? & _). rewrite !wrmsr_ne by assumption. reflexivity.
  - intros other Hne. rewrite list_lookup_insert_ne by congruence. reflexivity.
  - rewrite !list_lookup_insert_eq by (eapply lookup_lt_Some; eassumption). reflexivity.
Qed.

(** ** Witnesses *)

Module EntryWitness.

(** A dispatcher that ruins every register but the stack pointer, and all memory but its caller's frame. *)
Definition rude (c : cpu) : cpu :=
  mkCpuState (fun r => if decide (r = RSP) then rf c RSP else if decide (r = RAX) then rf c RDI + rf c RSI else 0xDEAD)
    (fun a => if (rf c RSP <=? a) && (a <? rf c RSP + 72) then kmem c a else 0xEE) (gs_kernel c) (iflag c).
Definition caller : cpu := mkCpuState (fun r => match r with RAX => 12 | RDI => 5 | RSP => 0xB03FF0 | RCX => 0x400123 | R11 => 0x202 | R15 => 77 | RBX => 88 | _ => 1 end) (fun _ => 0) false false.

Lemma entry_roundtrip_witness : exists c', run 0x90000 rude syscall_entry caller = Some (c', mkFrame 0x400123 0x33 0x202 0xB03FF0 0x2B) /\ rf c' R15 = 77 /\ rf c' RBX = 88 /\ kmem c' 0x90000 = 0xEE.
Proof.
  destruct (syscall_roundtrip 0x90000 rude caller) as (c0 & c' & [_ _ _ Hsp _ _ _ _] & E & H & _ & _ & Hm).
  - lia.
  - split; intros; unfold rude; cbn [rf kmem gs_kernel]; [by rewrite decide_True| |done]. rewrite (proj2 (Z.leb_le _ _)), (proj2 (Z.ltb_lt _ _)) by lia. done.
  - intros r. split; destruct r; cbn; lia.
  - reflexivity.
  - exists c'. split; [exact E|]. split; [apply (H R15); apply (bool_decide_unpack _); vm_compute; exact I|]. split; [apply (H RBX); apply (bool_decide_unpack _); vm_compute; exact I|].
    rewrite (proj2 (Hm 0x90000 ltac:(lia))). unfold rude. cbn [kmem]. rewrite Hsp. reflexivity.
Defined.

Lemma syscall_init_witness : exists s', syscall_init 0xFFFF1000 0x8000 1 (mkMsr [false; false] [fun _ => 0; fun _ => 0xD00]) = Some s' /\ syscall_init 0xFFFF1000 0x8000 1 s' = Some s'.
Proof.
  destruct (syscall_init_exact 0xFFFF1000 0x8000 1 (mkMsr [false; false] [fun _ => 0; fun _ => 0xD00]) (fun _ => 0xD00) eq_refl eq_refl) as (s' & ms' & E & _ & _ & _ & _ & _ & _ & _ & _ & _ & E2);
    [split; [lia|reflexivity]|split; [lia|reflexivity]|]. exact (ex_intro _ s' (conj E E2)).
Defined.
End EntryWitness.
