(* ===== verification/Nic.v ===== *)
(** * The network card

    The lowest layer of [user_rs/netstack_driver/src/main.rs]: bringing the card up, its receive
    ring and its transmissions.

    The card is an Intel 8254x.  What the driver relies on of its manual is the function [arrive]: a frame is put into the buffer of
    the descriptor the head register points to, the descriptor's length and done bit are set and the head moves on, unless
    the head has reached the tail register, when the frame is dropped.  Physical addresses of
    the buffers are those of [rx_buf_phys]; buffer [i] is the memory behind address [i]. *)

From S2P Require Import Prelude.

Definition REG_CTRL : Z := 0x0000.
Definition REG_RCTL : Z := 0x0100.
Definition REG_TCTL : Z := 0x0400.
Definition REG_TIPG : Z := 0x0410.
Definition REG_RDBAL : Z := 0x2800.
Definition REG_RDBAH : Z := 0x2804.
Definition REG_RDLEN : Z := 0x2808.
Definition REG_RDH : Z := 0x2810.
Definition REG_RDT : Z := 0x2818.
Definition REG_TDBAL : Z := 0x3800.
Definition REG_TDBAH : Z := 0x3804.
Definition REG_TDLEN : Z := 0x3808.
Definition REG_TDH : Z := 0x3810.
Definition REG_TDT : Z := 0x3818.
Definition REG_RAL0 : Z := 0x5400.
Definition REG_RAH0 : Z := 0x5404.
Definition CTRL_RST : Z := Z.shiftl 1 26.
Definition CTRL_SLU : Z := Z.shiftl 1 6.
Definition CTRL_ASDE : Z := Z.shiftl 1 5.
Definition RCTL_EN : Z := Z.shiftl 1 1.
Definition RCTL_BAM : Z := Z.shiftl 1 15.
Definition TCTL_EN : Z := Z.shiftl 1 1.
Definition TCTL_PSP : Z := Z.shiftl 1 3.

Definition RX_RING_ENTRIES : nat := 8.
Definition TX_RING_ENTRIES : nat := 8.
Definition RX_DESC_OFF : Z := 0x0000.
Definition TX_DESC_OFF : Z := 0x0080.

Record TxDesc := mkTx { tx_addr : Z; tx_length : Z; tx_cso : Z; tx_cmd : Z; tx_status : Z; tx_css : Z; tx_special : Z }.
Record RxDesc := mkRx { rx_addr : Z; rx_length : Z; rx_checksum : Z; rx_status : Z; rx_errors : Z; rx_special : Z }.

(** Registers, the two rings in the shared page, the receive buffers, and [next_rx]. *)
Record nic := mkNic { regs : Z -> Z; rx_ring : list RxDesc; tx_ring : list TxDesc; rx_bufs : list bytes; next_rx : nat }.

Definition mmio_write32 (off v : Z) (n : nic) : nic :=
  mkNic (fun r => if r =? off then u32 v else regs n r) (rx_ring n) (tx_ring n) (rx_bufs n) (next_rx n).
Definition mmio_read32 (off : Z) (n : nic) : Z := regs n off.
Definition set_rx_ring (l : list RxDesc) (n : nic) : nic := mkNic (regs n) l (tx_ring n) (rx_bufs n) (next_rx n).
Definition set_tx_ring (l : list TxDesc) (n : nic) : nic := mkNic (regs n) (rx_ring n) l (rx_bufs n) (next_rx n).
Definition set_bufs (l : list bytes) (n : nic) : nic := mkNic (regs n) (rx_ring n) (tx_ring n) l (next_rx n).
Definition set_next (k : nat) (n : nic) : nic := mkNic (regs n) (rx_ring n) (tx_ring n) (rx_bufs n) k.

(** The hardware address in [RAL0] and [RAH0]. *)
Definition read_mac (n : nic) : bytes :=
  let ral0 := mmio_read32 REG_RAL0 n in let rah0 := mmio_read32 REG_RAH0 n in
  [Z.land ral0 0xFF; Z.land (Z.shiftr ral0 8) 0xFF; Z.land (Z.shiftr ral0 16) 0xFF; Z.land (Z.shiftr ral0 24) 0xFF; Z.land rah0 0xFF; Z.land (Z.shiftr rah0 8) 0xFF].

Definition RING_BYTES : Z := Z.of_nat RX_RING_ENTRIES * 16.

(** [init_nic] once the reset has completed: the registers are written one by one, in this order, and every receive descriptor is posted with its
    own buffer. *)
Definition init_nic (desc_phys : Z) (rx_buf_phys : list Z) (n : nic) : nic * bytes :=
  let n := mmio_write32 REG_CTRL (Z.lor CTRL_SLU CTRL_ASDE) n in
  let mac := read_mac n in
  let n := set_rx_ring ((fun a => mkRx a 0 0 0 0 0) <$> rx_buf_phys) n in
  let n := mmio_write32 REG_RDBAL (u64 (desc_phys + RX_DESC_OFF)) n in
  let n := mmio_write32 REG_RDBAH (Z.shiftr (u64 (desc_phys + RX_DESC_OFF)) 32) n in
  let n := mmio_write32 REG_RDLEN RING_BYTES n in
  let n := mmio_write32 REG_RDH 0 n in
  let n := mmio_write32 REG_RDT (Z.of_nat RX_RING_ENTRIES - 1) n in
  let n := mmio_write32 REG_RCTL (Z.lor RCTL_EN RCTL_BAM) n in
  let n := mmio_write32 REG_TDBAL (u64 (desc_phys + TX_DESC_OFF)) n in
  let n := mmio_write32 REG_TDBAH (Z.shiftr (u64 (desc_phys + TX_DESC_OFF)) 32) n in
  let n := mmio_write32 REG_TDLEN (Z.of_nat TX_RING_ENTRIES * 16) n in
  let n := mmio_write32 REG_TDH 0 n in
  let n := mmio_write32 REG_TDT 0 n in
  let n := mmio_write32 REG_TIPG 0x0060200A n in
  let n := mmio_write32 REG_TCTL (Z.lor (Z.lor (Z.lor TCTL_EN TCTL_PSP) (Z.shiftl 0x0F 4)) (Z.shiftl 0x40 12)) n in
  (set_next 0 n, mac).

(** [rx_poll_one]: the index and length of the next frame, the descriptor handed back. *)
Definition rx_poll_one (n : nic) : option (nic * option (nat * nat)) :=
  d ← rx_ring n !! next_rx n;
  if Z.land (rx_status d) 0x1 =? 0 then Some (n, None) else
  let idx := next_rx n in
  let n' := set_rx_ring (<[idx := mkRx (rx_addr d) (rx_length d) (rx_checksum d) 0 (rx_errors d) (rx_special d)]> (rx_ring n)) n in
  let n' := mmio_write32 REG_RDT (Z.of_nat idx) n' in
  Some (set_next ((idx + 1) mod RX_RING_ENTRIES) n', Some (idx, Z.to_nat (rx_length d))).

(** The frame in buffer [idx]. *)
Definition rx_frame (n : nic) (idx len : nat) : option bytes := b ← rx_bufs n !! idx; rslice b 0 len.

(** The card receives a frame. *)
Definition arrive (frame : bytes) (n : nic) : option nic :=
  let h := Z.to_nat (mmio_read32 REG_RDH n) in
  if mmio_read32 REG_RDH n =? mmio_read32 REG_RDT n then Some n else
  d ← rx_ring n !! h; b ← rx_bufs n !! h; b ← wslice b 0 frame;
  let n := set_bufs (<[h := b]> (rx_bufs n)) n in
  let n := set_rx_ring (<[h := mkRx (rx_addr d) (Z.of_nat (length frame)) (rx_checksum d) (Z.lor (rx_status d) 0x1) (rx_errors d) (rx_special d)]> (rx_ring n)) n in
  Some (mmio_write32 REG_RDH (Z.of_nat ((h + 1) mod RX_RING_ENTRIES)) n).

(** [tx_frame] up to the doorbell, and its end once the done bit is seen. *)
Definition tx_start (tx_buf_phys : Z) (len : nat) (n : nic) : nic :=
  mmio_write32 REG_TDT 1 (set_tx_ring (<[0%nat := mkTx tx_buf_phys (u16 (Z.of_nat len)) 0 0x0B 0 0 0]> (tx_ring n)) n).
Definition tx_finish (n : nic) : nic := mmio_write32 REG_TDT 0 n.

(** The descriptors the card may work on: from the head up to the tail, around the ring. *)
Definition tx_owned (n : nic) : nat :=
  Z.to_nat ((mmio_read32 REG_TDT n - mmio_read32 REG_TDH n) mod Z.of_nat TX_RING_ENTRIES).
(** The card has worked on all of them. *)
Definition tx_drain (n : nic) : nic := mmio_write32 REG_TDH (mmio_read32 REG_TDT n) n.

(** ** The receive ring is a queue of at most seven frames *)

Definition BUF_SIZE : nat := 4096.

Definition pos (n : nic) (k : nat) : nat := ((next_rx n + k) mod RX_RING_ENTRIES)%nat.

Record ring_ok (n : nic) (q : list bytes) : Prop := {
  rk_ring : length (rx_ring n) = RX_RING_ENTRIES; rk_bufs : length (rx_bufs n) = RX_RING_ENTRIES; rk_next : (next_rx n < RX_RING_ENTRIES)%nat;
  rk_size : forall i b, rx_bufs n !! i = Some b -> length b = BUF_SIZE;
  rk_room : (length q < RX_RING_ENTRIES)%nat;
  rk_tail : mmio_read32 REG_RDT n = Z.of_nat (pos n 7); rk_head : mmio_read32 REG_RDH n = Z.of_nat (pos n (length q));
  rk_full : forall k f, q !! k = Some f -> exists d b, rx_ring n !! pos n k = Some d /\ rx_bufs n !! pos n k = Some b /\
    Z.land (rx_status d) 0x1 <> 0 /\ rx_length d = Z.of_nat (length f) /\ rslice b 0 (length f) = Some f;
  rk_free : forall k d, (length q <= k < RX_RING_ENTRIES)%nat -> rx_ring n !! pos n k = Some d -> rx_status d = 0 }.

Lemma pos_lt n k : (pos n k < RX_RING_ENTRIES)%nat.
Proof. apply Nat.mod_upper_bound. done. Qed.

Lemma pos_inj n j k : (j < RX_RING_ENTRIES)%nat -> (k < RX_RING_ENTRIES)%nat -> pos n j = pos n k -> j = k.
Proof.
  unfold pos, RX_RING_ENTRIES. intros Hj Hk H. pose proof (Nat.div_mod_eq (next_rx n + j) 8). pose proof (Nat.div_mod_eq (next_rx n + k) 8). lia.
Qed.

(** After a poll the places are numbered from one further on. *)
Lemma pos_next n k : (next_rx n < RX_RING_ENTRIES)%nat -> (((next_rx n + 1) mod RX_RING_ENTRIES + k) mod RX_RING_ENTRIES)%nat = pos n (S k).
Proof.
  unfold pos, RX_RING_ENTRIES. intros H. rewrite Nat.Div0.add_mod_idemp_l. f_equal. lia.
Qed.

Lemma ring_index k : (k < RX_RING_ENTRIES)%nat -> in_width 32 (Z.of_nat k).
Proof. unfold RX_RING_ENTRIES. intros. red. lia. Qed.

Lemma arrive_ring n q frame : ring_ok n q -> (length frame <= BUF_SIZE)%nat ->
  exists n', arrive frame n = Some n' /\ next_rx n' = next_rx n /\ ring_ok n' (if (length q <? 7)%nat then q ++ [frame] else q).
Proof.
  intros H Hf. pose proof H as [Hr Hb Hn Hs Hq Ht Hh Hfull Hfree]. unfold arrive. rewrite Hh, Ht. destruct (Nat.ltb_spec (length q) 7) as [Hl|Hl].
  - rewrite (proj2 (Z.eqb_neq _ _)) by (intros E%Nat2Z.inj%pos_inj; unfold RX_RING_ENTRIES in *; lia). rewrite Nat2Z.id.
    set (h := pos n (length q)). assert (h < 8)%nat as Hh8 by apply pos_lt.
    destruct (lookup_lt_is_Some_2 (rx_ring n) h) as [d Ed]; [rewrite Hr; done|]. destruct (lookup_lt_is_Some_2 (rx_bufs n) h) as [b Eb]; [rewrite Hb; done|].
    pose proof (Hs _ _ Eb) as Lb. destruct (wslice_is_Some b 0 frame) as [b' Ew]; [lia|]. rewrite Ed, Eb. cbn [mbind option_bind]. rewrite Ew. cbn [mbind option_bind].
    eexists. split; [reflexivity|]. split; [done|].
    assert (forall k, (k < 8)%nat -> k <> length q -> pos n k <> h) as Hne by (intros k Hk Hkq E; apply pos_inj in E; unfold RX_RING_ENTRIES in *; lia).
    split; cbn [rx_ring rx_bufs next_rx mmio_write32 set_rx_ring set_bufs].
    + by rewrite length_insert.
    + by rewrite length_insert.
    + done.
    + intros i x Hx. apply list_lookup_insert_Some in Hx as [(_ & <- & _)|[_ Hx]]; [by rewrite (length_wslice _ _ _ _ Ew)|by apply (Hs i)].
    + rewrite length_app. cbn. unfold RX_RING_ENTRIES. lia.
    + exact Ht.
    + unfold mmio_read32, mmio_write32. cbn [regs]. change (REG_RDH =? REG_RDH) with true. cbv iota.
      rewrite wrap_small by (by apply ring_index, Nat.mod_upper_bound). f_equal.
      rewrite length_app. cbn [length]. unfold h, pos, RX_RING_ENTRIES. cbn [next_rx mmio_write32 set_rx_ring set_bufs]. rewrite Nat.Div0.add_mod_idemp_l. f_equal. lia.
    + intros k f Hk. change (pos _ k) with (pos n k). apply lookup_app_Some in Hk as [Hk|[Hge Hk]].
      * assert (k < length q)%nat by by eapply lookup_lt_Some. rewrite !list_lookup_insert_ne by (apply not_eq_sym, Hne; lia). by apply Hfull.
      * apply list_lookup_singleton_Some in Hk as [Hk <-]. replace k with (length q) by lia. fold h. rewrite !list_lookup_insert_eq by (rewrite ?Hr, ?Hb; done).
        eexists _, _. split; [done|]. split; [done|]. cbn [rx_status rx_length]. assert (rx_status d = 0) as -> by (apply (Hfree (length q) d); [unfold RX_RING_ENTRIES; lia|done]).
        split; [done|]. split; [done|]. by apply rslice_wslice_eq in Ew.
    + rewrite length_app. cbn [length]. intros k x Hk. change (pos _ k) with (pos n k). rewrite list_lookup_insert_ne by (apply not_eq_sym, Hne; unfold RX_RING_ENTRIES in *; lia).
      apply Hfree. lia.
  - assert (length q = 7)%nat as E7 by (unfold RX_RING_ENTRIES in *; lia). rewrite E7, Z.eqb_refl. exists n. done.
Qed.

(** The frame at the head of the queue is polled, and its buffer can be read. *)
Lemma poll_ring n q : ring_ok n q ->
  match q with
  | [] => rx_poll_one n = Some (n, None)
  | f :: q' => exists n' idx, rx_poll_one n = Some (n', Some (idx, length f)) /\ rx_frame n' idx (length f) = Some f /\ ring_ok n' q' /\ mmio_read32 REG_RDT n' = Z.of_nat idx
  end.
Proof.
  intros H. pose proof H as [Hr Hb Hn Hs Hq Ht Hh Hfull Hfree]. assert (pos n 0 = next_rx n) as E0 by (unfold pos; rewrite Nat.add_0_r; by apply Nat.mod_small).
  unfold rx_poll_one. destruct q as [|f q'].
  - destruct (lookup_lt_is_Some_2 (rx_ring n) (next_rx n)) as [d Ed]; [by rewrite Hr|]. rewrite Ed. cbn [mbind option_bind].
    rewrite (Hfree 0%nat d); [done|cbn; unfold RX_RING_ENTRIES; lia|by rewrite E0].
  - destruct (Hfull 0%nat f eq_refl) as (d & b & Ed & Eb & Hd & Hl & Hf). rewrite E0 in Ed, Eb. rewrite Ed. cbn [mbind option_bind].
    rewrite (proj2 (Z.eqb_neq _ _) Hd), Hl, Nat2Z.id. eexists _, _. split; [reflexivity|].
    split; [unfold rx_frame; cbn [rx_bufs set_next mmio_write32 set_rx_ring]; by rewrite Eb|]. split.
    + assert (forall k, (k < 7)%nat -> pos n (S k) <> next_rx n) as Hne. { intros k Hk E. rewrite <- E0 in E. apply pos_inj in E; unfold RX_RING_ENTRIES; lia. }
      assert (forall k m, next_rx m = ((next_rx n + 1) mod RX_RING_ENTRIES)%nat -> pos m k = pos n (S k)) as Hp. { intros k m E. unfold pos at 1. rewrite E. by apply pos_next. }
      cbn [length] in *. split; cbn [rx_ring rx_bufs next_rx mmio_write32 set_rx_ring set_next].
      * by rewrite length_insert.
      * done.
      * by apply Nat.mod_upper_bound.
      * done.
      * lia.
      * unfold mmio_read32, mmio_write32, set_next. cbn [regs]. change (REG_RDT =? REG_RDT) with true. cbv iota. rewrite wrap_small by (by apply ring_index). f_equal.
        rewrite Hp by done. unfold pos, RX_RING_ENTRIES in *. replace (next_rx n + 8)%nat with (next_rx n + 1 * 8)%nat by lia. rewrite Nat.Div0.mod_add. symmetry. by apply Nat.mod_small.
      * rewrite Hp by done. exact Hh.
      * intros k g Hk. rewrite Hp by done. rewrite list_lookup_insert_ne. { by apply (Hfull (S k)). }
        apply not_eq_sym, Hne. apply lookup_lt_Some in Hk. unfold RX_RING_ENTRIES in *. lia.
      * intros k x Hk Hx. rewrite Hp in Hx by done. destruct (decide (k = 7%nat)) as [->|].
        -- assert (pos n 8 = next_rx n) as E8. { unfold pos, RX_RING_ENTRIES in *. replace (next_rx n + 8)%nat with (next_rx n + 1 * 8)%nat by lia. rewrite Nat.Div0.mod_add. by apply Nat.mod_small. }
           rewrite E8, list_lookup_insert_eq in Hx by (by rewrite Hr). by injection Hx as <-.
        -- rewrite list_lookup_insert_ne in Hx by (apply not_eq_sym, Hne; unfold RX_RING_ENTRIES in *; lia). apply (Hfree (S k)); [unfold RX_RING_ENTRIES in *; lia|done].
    + unfold mmio_read32, mmio_write32, set_next. cbn [regs]. change (REG_RDT =? REG_RDT) with true. cbv iota. by apply wrap_small, ring_index.
Qed.

(** ** Histories *)

Inductive event := Arrive (frame : bytes) | Poll.

(** What the driver sees of an event: the frame it reads after a poll. *)
Definition ring_step (st : nic * list (option bytes)) (e : event) : option (nic * list (option bytes)) :=
  let '(n, seen) := st in
  match e with
  | Arrive frame => n ← arrive frame n; Some (n, seen)
  | Poll => '(n, r) ← rx_poll_one n;
      match r with
      | None => Some (n, seen ++ [None])
      | Some (idx, len) => f ← rx_frame n idx len; Some (n, seen ++ [Some f])
      end
  end.

(** A queue with room for seven frames that drops what does not fit. *)
Definition queue_step (st : list bytes * list (option bytes)) (e : event) : list bytes * list (option bytes) :=
  let '(q, seen) := st in
  match e with
  | Arrive frame => (if (length q <? 7)%nat then q ++ [frame] else q, seen)
  | Poll => (tail q, seen ++ [head q])
  end.

Definition event_ok (e : event) : Prop := match e with Arrive frame => (length frame <= BUF_SIZE)%nat | Poll => True end.

Lemma ring_step_refines n q seen e : ring_ok n q -> event_ok e ->
  exists n', ring_step (n, seen) e = Some (n', (queue_step (q, seen) e).2) /\ ring_ok n' (queue_step (q, seen) e).1.
Proof.
  intros H He. destruct e as [frame|]; cbn [ring_step queue_step fst snd].
  - destruct (arrive_ring n q frame H He) as (n' & -> & _ & Hn'). by exists n'.
  - pose proof (poll_ring n q H) as Hp. destruct q as [|f q']; cbn [head tail].
    + rewrite Hp. cbn [mbind option_bind]. by exists n.
    + destruct Hp as (n' & idx & -> & Hf & Hn' & _). cbn [mbind option_bind]. rewrite Hf. cbn [mbind option_bind]. by exists n'.
Qed.

(** C20. The receive ring loses nothing and reorders nothing.  From a working ring, in any interleaving of frames arriving at the card and polls by the driver, the
    polls find exactly the frames a queue of seven places would give them: in order, each once, whole, and a frame is dropped only when seven
    are waiting. *)
Theorem rx_ring_refines evs n q : ring_ok n q -> Forall event_ok evs ->
  exists n', foldM ring_step (n, []) evs = Some (n', (foldl queue_step (q, []) evs).2) /\ ring_ok n' (foldl queue_step (q, []) evs).1.
Proof.
  intros H Hev. generalize (@nil (option bytes)). revert n q H. induction Hev as [|e evs He _ IH]; intros n q H seen; cbn [foldM foldl]; [by exists n|].
  destruct (ring_step_refines n q seen e H He) as (n1 & -> & H1). cbn [mbind option_bind]. destruct (queue_step (q, seen) e) as [q1 seen1]. by apply IH.
Qed.

(** ** A frame being read is safe *)

Lemma arrive_keeps n n' frame : arrive frame n = Some n' -> mmio_read32 REG_RDT n' = mmio_read32 REG_RDT n /\
  forall i, 0 <= mmio_read32 REG_RDH n -> mmio_read32 REG_RDT n = Z.of_nat i -> rx_bufs n' !! i = rx_bufs n !! i.
Proof.
  unfold arrive. destruct (Z.eqb_spec (mmio_read32 REG_RDH n) (mmio_read32 REG_RDT n)) as [He|He]; [by intros [= <-]|]. intros H.
  destruct (rx_ring n !! _) as [d|]; [|done]. cbn [mbind option_bind] in H. destruct (rx_bufs n !! Z.to_nat _) as [b|]; [|done]. cbn [mbind option_bind] in H.
  destruct (wslice b 0 frame) as [b'|]; [|done]. cbn [mbind option_bind] in H. injection H as <-. split; [done|]. intros i Hh Hi.
  cbn [rx_bufs mmio_write32 set_rx_ring set_bufs]. apply list_lookup_insert_ne. lia.
Qed.

(** The driver reads a frame after it has handed the descriptor back to the card; that is safe: whatever arrives before its next poll, the buffer of
    the frame just polled is not written. *)
Theorem polled_buffer_stable frames n q n1 idx len n2 : ring_ok n q -> Forall (fun f => (length f <= BUF_SIZE)%nat) frames ->
  rx_poll_one n = Some (n1, Some (idx, len)) -> foldM (fun n f => arrive f n) n1 frames = Some n2 -> rx_frame n2 idx len = rx_frame n1 idx len /\ is_Some (rx_frame n2 idx len).
Proof.
  intros H Hf Hp Hr. pose proof (poll_ring n q H) as Hq. destruct q as [|f q']; [congruence|]. destruct Hq as (n1' & idx' & Hp' & Hfr & Hok & Ht).
  rewrite Hp in Hp'. injection Hp' as <- <- ->. enough (rx_bufs n2 !! idx = rx_bufs n1 !! idx) as E by (unfold rx_frame in *; rewrite E; split; [done|by rewrite Hfr]).
  clear Hp Hfr H. revert n1 q' Hok Ht Hr. induction Hf as [|g frames Hg _ IH]; intros n1 q' Hok Ht Hr; cbn [foldM] in Hr; [by injection Hr as <-|].
  destruct (arrive_ring n1 q' g Hok Hg) as (n3 & E3 & _ & Hok3). rewrite E3 in Hr. cbn [mbind option_bind] in Hr. destruct (arrive_keeps _ _ _ E3) as [Ht3 Hb3].
  rewrite (IH n3 _ Hok3 ltac:(by rewrite Ht3) Hr). apply Hb3; [|done]. rewrite (rk_head _ _ Hok). lia.
Qed.

(** Bringing the card up gives a working, empty ring. *)
Lemma init_nic_ring desc_phys phys n : length phys = RX_RING_ENTRIES -> length (rx_bufs n) = RX_RING_ENTRIES -> (forall i b, rx_bufs n !! i = Some b -> length b = BUF_SIZE) ->
  ring_ok (init_nic desc_phys phys n).1 [].
Proof.
  intros Hp Hb Hs. split; try done.
  - cbn. by rewrite length_fmap.
  - cbn. unfold RX_RING_ENTRIES. lia.
  - cbn. unfold RX_RING_ENTRIES. lia.
  - intros k d _ Hd. cbn [rx_ring init_nic fst set_next mmio_write32 set_rx_ring] in Hd. apply list_lookup_fmap_Some_1 in Hd as (a & -> & _). done.
Qed.

(** ** Transmitting *)

(** Setting the tail back to 0 after a transmission gives the card the seven descriptors that were never filled in. *)
Lemma tx_hands_over_unused tx_buf_phys len n : mmio_read32 REG_TDH n = 0 -> tx_owned (tx_finish (tx_drain (tx_start tx_buf_phys len n))) = 7%nat.
Proof. done. Qed.

Module NicWitness.
Definition cold : nic := mkNic (fun r => if r =? REG_RAL0 then 0x12005452 else if r =? REG_RAH0 then 0x80005634 else 0) [] [] (replicate 8 (replicate 4096 0)) 0.
Definition up : nic := (init_nic 0x100000 ((fun i => 0x200000 + 4096 * i) <$> range 0 8) cold).1.

Lemma up_ok : ring_ok up [].
Proof. apply init_nic_ring; [done|done|]. intros i b Hb. apply lookup_replicate in Hb as [-> _]. done. Qed.

Lemma mac_read : (init_nic 0x100000 ((fun i => 0x200000 + 4096 * i) <$> range 0 8) cold).2 = [0x52; 0x54; 0x00; 0x12; 0x34; 0x56].
Proof. by vm_compute. Qed.

(** Nine frames of one byte arrive, the first polled at once: the last one is dropped. *)
Definition burst : list event := [Arrive [1]; Poll; Arrive [2]; Arrive [3]; Arrive [4]; Arrive [5]; Arrive [6]; Arrive [7]; Arrive [8]; Arrive [9]; Poll; Poll; Poll; Poll; Poll; Poll; Poll; Poll].

Lemma burst_witness : snd <$> foldM ring_step (up, []) burst = Some ([Some [1]; Some [2]; Some [3]; Some [4]; Some [5]; Some [6]; Some [7]; Some [8]; None]).
Proof.
  destruct (rx_ring_refines burst up [] up_ok) as (n' & E & _); [by repeat (constructor; [cbn; unfold BUF_SIZE; lia || done|])|]. rewrite E. by vm_compute.
Defined.

Lemma stable_witness : exists n1 n2, rx_poll_one (default up (arrive [42] up)) = Some (n1, Some (0%nat, 1%nat)) /\ foldM (fun n f => arrive f n) n1 [[7]; [8; 9]] = Some n2 /\ rx_frame n2 0 1 = Some [42].
Proof.
  destruct (arrive_ring up [] [42] up_ok) as (n0 & E0 & _ & H0); [cbn; unfold BUF_SIZE; lia|]. rewrite E0. cbn [default length Nat.ltb Nat.leb app] in *.
  destruct (poll_ring _ _ H0) as (n1 & idx & E1 & F1 & H1 & T1). destruct (arrive_ring _ _ [7] H1) as (n2 & E2 & _ & H2); [cbn; unfold BUF_SIZE; lia|].
  destruct (arrive_ring _ _ [8; 9] H2) as (n3 & E3 & _ & H3); [cbn; unfold BUF_SIZE; lia|].
  assert (foldM (fun n f => arrive f n) n1 [[7]; [8; 9]] = Some n3) as Er by (cbn [foldM]; rewrite E2; cbn [mbind option_bind]; by rewrite E3).
  assert (idx = 0%nat) as ->. { unfold rx_poll_one in E1. destruct (rx_ring n0 !! _); [|done]. cbn [mbind option_bind] in E1. destruct (_ =? 0); [done|]. injection E1 as _ <- _.
    assert (next_rx <$> arrive [42] up = Some 0%nat) as En by by vm_compute. rewrite E0 in En. by injection En. }
  destruct (polled_buffer_stable [[7]; [8; 9]] n0 [[42]] n1 0 1 n3 H0 ltac:(repeat (apply Forall_cons; split; [cbn; unfold BUF_SIZE; lia|]); apply Forall_nil_2) E1 Er) as [E _].
  exists n1, n3. split; [exact E1|]. split; [exact Er|]. rewrite E. exact F1.
Defined.
End NicWitness.
