(* ===== verification/Packet.v ===== *)
(** * Packets

    The formats of [user_rs/netstack_driver/src/main.rs]: Ethernet, ARP, IPv4,
    UDP, TCP, ICMP and DNS messages, the Internet checksum, the ARP table and the
    routing table.

    The builders write into a caller's buffer at an offset (the sub-slices
    [&mut buf[n..]] of the code) and return the buffer and the length written; an
    index past the end of the buffer is a panic, [None].  Addresses are the byte
    arrays of the code. *)

From S2P Require Import Prelude Bits.

Definition OUR_IP : bytes := [10; 0; 2; 15].
Definition GATEWAY_IP : bytes := [10; 0; 2; 2].
Definition BROADCAST_MAC : bytes := replicate 6 0xFF.

(** [copy_bytes(&mut b[off..off+len], src)]: as many bytes as both have. *)
Definition copy_bytes (b : bytes) (off len : nat) (src : bytes) : option bytes :=
  if decide (off + len <= length b)%nat then wslice b off (take len src) else None.

(** [b[off] = (v >> 8) as u8; b[off+1] = (v & 0xFF) as u8]. *)
Definition w16 (b : bytes) (off : nat) (v : Z) : option bytes := wslice b off [u8 (Z.shiftr v 8); Z.land v 0xFF].

(** [((b[off] as u16) << 8) | (b[off+1] as u16)]. *)
Definition r16 (b : bytes) (off : nat) : option Z :=
  hi ← b !! off; lo ← b !! S off; Some (Z.lor (Z.shiftl hi 8) lo).

(** ** The Internet checksum *)

Fixpoint sum16 (data : bytes) (sum : Z) : Z :=
  match data with
  | hi :: lo :: data' => sum16 data' (u32 (sum + Z.lor (Z.shiftl hi 8) lo))
  | [hi] => u32 (sum + Z.shiftl hi 8)
  | [] => sum
  end.

Fixpoint fold_carries (fuel : nat) (sum : Z) : Z :=
  match fuel with
  | O => sum
  | S fuel => if Z.shiftr sum 16 =? 0 then sum else fold_carries fuel (u32 (Z.land sum 0xFFFF + Z.shiftr sum 16))
  end.

(** Two rounds leave no carry, whatever the sum. *)
Definition FOLD_FUEL : nat := 2.

Definition checksum16 (data : bytes) : Z := wnot 16 (u16 (fold_carries FOLD_FUEL (sum16 data 0))).

(** ** Ethernet *)

Definition ETH_HDR_LEN : nat := 14.
Definition ETHERTYPE_ARP : bytes := [0x08; 0x06].
Definition ETHERTYPE_IPV4 : bytes := [0x08; 0x00].

Definition eth_build (b dst_mac src_mac ethertype : bytes) : option (bytes * nat) :=
  b ← copy_bytes b 0 6 dst_mac; b ← copy_bytes b 6 6 src_mac; b ← copy_bytes b 12 2 ethertype;
  Some (b, ETH_HDR_LEN).

(** ** ARP *)

Definition arp_fixed (b : bytes) (n : nat) (oper : Z) : option bytes :=
  b ← wslice b n [0x00; 0x01]; b ← wslice b (n + 2) [0x08; 0x00]; b ← wslice b (n + 4) [6; 4];
  wslice b (n + 6) [0x00; oper].

Definition arp_build_request (b src_mac src_ip target_ip : bytes) : option (bytes * nat) :=
  '(b, n) ← eth_build b BROADCAST_MAC src_mac ETHERTYPE_ARP;
  b ← arp_fixed b n 0x01;
  b ← copy_bytes b (n + 8) 6 src_mac; b ← copy_bytes b (n + 14) 4 src_ip;
  b ← copy_bytes b (n + 18) 6 (replicate 6 0); b ← copy_bytes b (n + 24) 4 target_ip;
  Some (b, n + 28)%nat.

Definition arp_build_reply (b src_mac src_ip dst_mac dst_ip : bytes) : option (bytes * nat) :=
  '(b, n) ← eth_build b dst_mac src_mac ETHERTYPE_ARP;
  b ← arp_fixed b n 0x02;
  b ← copy_bytes b (n + 8) 6 src_mac; b ← copy_bytes b (n + 14) 4 src_ip;
  b ← copy_bytes b (n + 18) 6 dst_mac; b ← copy_bytes b (n + 24) 4 dst_ip;
  Some (b, n + 28)%nat.

(** One row of the three arrays [ip], [mac], [valid] of [ArpTable]. *)
Record ArpSlot := mkSlot { slot_ip : bytes; slot_mac : bytes; valid : bool }.

Definition ARP_TABLE_SIZE : nat := 4.
Definition ArpTable : Type := list ArpSlot.
Definition arp_new : ArpTable := replicate ARP_TABLE_SIZE (mkSlot (replicate 4 0) (replicate 6 0) false).

Definition arp_lookup (t : ArpTable) (ip : bytes) : option bytes :=
  (slot_mac ∘ snd) <$> list_find (fun s => valid s = true /\ slot_ip s = ip) t.

Definition arp_insert (t : ArpTable) (ip mac : bytes) : ArpTable :=
  match list_find (fun s => valid s = false) t with
  | Some (i, _) => <[i := mkSlot ip mac true]> t
  | None => <[0%nat := mkSlot ip mac true]> t
  end.

(** ** Routing *)

Record RouteEntry := mkRoute { dest_ip : bytes; netmask : bytes; gateway : option bytes; iface : Z; metric : Z }.
Record RoutingTable := mkRoutes { routes : list RouteEntry; count : nat }.

Definition IF_LOOPBACK : Z := 0.
Definition IF_ETH0 : Z := 1.
Definition IF_WLAN0 : Z := 2.

Definition add_route (t : RoutingTable) (r : RouteEntry) : RoutingTable :=
  if (count t <? length (routes t))%nat then mkRoutes (<[count t := r]> (routes t)) (S (count t)) else t.

Definition routes_new : RoutingTable :=
  let t := mkRoutes (replicate 8 (mkRoute (replicate 4 0) (replicate 4 0) None IF_ETH0 0)) 0 in
  let t := add_route t (mkRoute [127; 0; 0; 0] [255; 0; 0; 0] None IF_LOOPBACK 0) in
  let t := add_route t (mkRoute [10; 0; 2; 0] [255; 255; 255; 0] None IF_ETH0 10) in
  let t := add_route t (mkRoute [192; 168; 1; 0] [255; 255; 255; 0] None IF_WLAN0 20) in
  add_route t (mkRoute [0; 0; 0; 0] [0; 0; 0; 0] (Some GATEWAY_IP) IF_ETH0 100).

Definition masked (ip mask : bytes) : bytes := zip_with Z.land ip mask.
Definition route_matches (target : bytes) (r : RouteEntry) : bool :=
  bool_decide (masked target (netmask r) = masked (dest_ip r) (netmask r)).

Definition count_ones (b : Z) : Z := foldr Z.add 0 ((fun i => Z.b2z (Z.testbit b i)) <$> range 0 8).
Definition prefix_len (r : RouteEntry) : Z := foldr Z.add 0 (count_ones <$> netmask r).

(** [best_match], [best_prefix_len], [best_metric]. *)
Record lpm := mkLpm { best_match : option (Z * option bytes); best_prefix_len : Z; best_metric : Z }.

Definition consider (target : bytes) (best : lpm) (r : RouteEntry) : lpm :=
  if route_matches target r then
    if (best_prefix_len best <? prefix_len r) || ((prefix_len r =? best_prefix_len best) && (metric r <? best_metric best))
    then mkLpm (Some (iface r, gateway r)) (prefix_len r) (metric r) else best
  else best.

Definition route_lookup (t : RoutingTable) (target : bytes) : option (Z * option bytes) :=
  best_match (foldl (consider target) (mkLpm None (-1) 0xFFFF) (take (count t) (routes t))).

(** ** IPv4 *)

Definition IPV4_HDR_LEN : nat := 20.
Definition PROTO_ICMP : Z := 1.
Definition PROTO_UDP : Z := 17.
Definition PROTO_TCP : Z := 6.

Definition ipv4_build (b : bytes) (off : nat) (src dst : bytes) (proto : Z) (payload_len : nat) (ident : Z) : option (bytes * nat) :=
  let total_len := u16 (Z.of_nat (IPV4_HDR_LEN + payload_len)) in
  b ← wslice b off [0x45; 0x00];
  b ← w16 b (off + 2) total_len;
  b ← w16 b (off + 4) ident;
  b ← wslice b (off + 6) [0x40; 0x00];
  b ← wslice b (off + 8) [64; proto];
  b ← wslice b (off + 10) [0; 0];
  b ← copy_bytes b (off + 12) 4 src;
  b ← copy_bytes b (off + 16) 4 dst;
  hdr ← rslice b off IPV4_HDR_LEN;
  b ← w16 b (off + 10) (checksum16 hdr);
  Some (b, IPV4_HDR_LEN).

Record Ipv4Parsed := mkIpv4 { ip_src : bytes; ip_dst : bytes; proto : Z; payload_off : nat; payload_len : nat }.

(** The outer option is a panic, the inner one the [None] of the code. *)
Definition ipv4_parse (frame : bytes) : option (option Ipv4Parsed) :=
  if (length frame <? ETH_HDR_LEN + IPV4_HDR_LEN)%nat then Some None else
  let ip := drop ETH_HDR_LEN frame in
  vihl ← ip !! 0%nat;
  if negb (vihl =? 0x45) then Some None else
  hdr ← rslice ip 0 IPV4_HDR_LEN;
  if negb (checksum16 hdr =? 0) then Some None else
  total ← r16 ip 2;
  let total_len := Nat.min (Z.to_nat total) (length frame - ETH_HDR_LEN) in
  src ← rslice ip 12 4; dst ← rslice ip 16 4; p ← ip !! 9%nat;
  Some (Some (mkIpv4 src dst p (ETH_HDR_LEN + IPV4_HDR_LEN) (total_len - IPV4_HDR_LEN))).

(** ** UDP and TCP *)

Definition UDP_HDR_LEN : nat := 8.
Definition TCP_HDR_LEN : nat := 20.
Definition TCP_FLAG_FIN : Z := 0x01.
Definition TCP_FLAG_SYN : Z := 0x02.
Definition TCP_FLAG_RST : Z := 0x04.
Definition TCP_FLAG_PSH : Z := 0x08.
Definition TCP_FLAG_ACK : Z := 0x10.
Definition TCP_WINDOW : Z := 4096.

(** The bytes of the buffer [pseudo] that are written and then summed. *)
Definition pseudo_header (src dst : bytes) (proto : Z) (segment : bytes) : bytes :=
  take 4 src ++ take 4 dst ++ [0; proto; Z.land (Z.shiftr (Z.of_nat (length segment)) 8) 0xFF; Z.land (Z.of_nat (length segment)) 0xFF]
  ++ take 256 segment.

Definition pseudo_checksum (src dst : bytes) (proto : Z) (segment : bytes) : Z :=
  let cksum := checksum16 (pseudo_header src dst proto segment) in
  if cksum =? 0 then 0xFFFF else cksum.

Definition udp_checksum (src dst udp_and_payload : bytes) : Z := pseudo_checksum src dst PROTO_UDP udp_and_payload.
Definition tcp_checksum (src dst segment : bytes) : Z := pseudo_checksum src dst PROTO_TCP segment.

Definition udp_build (b : bytes) (off : nat) (src_ip dst_ip : bytes) (src_port dst_port : Z) (payload : bytes) : option (bytes * nat) :=
  let total := (UDP_HDR_LEN + length payload)%nat in
  b ← w16 b off src_port; b ← w16 b (off + 2) dst_port; b ← w16 b (off + 4) (Z.of_nat total);
  b ← wslice b (off + 6) [0; 0];
  b ← copy_bytes b (off + 8) (length payload) payload;
  seg ← rslice b off total;
  b ← w16 b (off + 6) (udp_checksum src_ip dst_ip seg);
  Some (b, total).

(** [b[off] = (v >> 24) as u8; ...; b[off+3] = v as u8]. *)
Definition w32 (b : bytes) (off : nat) (v : Z) : option bytes :=
  wslice b off [u8 (Z.shiftr v 24); u8 (Z.shiftr v 16); u8 (Z.shiftr v 8); u8 v].

Definition tcp_build (b : bytes) (off : nat) (src_ip dst_ip : bytes) (src_port dst_port seq ack flags : Z) (payload : bytes) : option (bytes * nat) :=
  let total := (TCP_HDR_LEN + length payload)%nat in
  b ← w16 b off src_port; b ← w16 b (off + 2) dst_port; b ← w32 b (off + 4) seq; b ← w32 b (off + 8) ack;
  b ← wslice b (off + 12) [Z.shiftl 5 4; flags];
  b ← w16 b (off + 14) TCP_WINDOW;
  b ← wslice b (off + 16) [0; 0]; b ← wslice b (off + 18) [0; 0];
  b ← copy_bytes b (off + 20) (length payload) payload;
  seg ← rslice b off total;
  b ← w16 b (off + 16) (tcp_checksum src_ip dst_ip seg);
  Some (b, total).

Record TcpParsed := mkTcp { t_src_port : Z; t_dst_port : Z; t_seq : Z; t_ack : Z; t_flags : Z; t_payload : bytes }.

(** [((b[off] as u32) << 24) | ... | (b[off+3] as u32)]. *)
Definition r32 (b : bytes) (off : nat) : option Z :=
  b0 ← b !! off; b1 ← b !! (off + 1)%nat; b2 ← b !! (off + 2)%nat; b3 ← b !! (off + 3)%nat;
  Some (Z.lor (Z.lor (Z.lor (Z.shiftl b0 24) (Z.shiftl b1 16)) (Z.shiftl b2 8)) b3).

Definition tcp_parse (seg : bytes) : option (option TcpParsed) :=
  if (length seg <? TCP_HDR_LEN)%nat then Some None else
  src_port ← r16 seg 0; dst_port ← r16 seg 2; seq ← r32 seg 4; ack ← r32 seg 8;
  off ← seg !! 12%nat; flags ← seg !! 13%nat;
  let data_offset := (Z.to_nat (Z.shiftr off 4) * 4)%nat in
  if (data_offset <? TCP_HDR_LEN)%nat || (length seg <? data_offset)%nat then Some None else
  Some (Some (mkTcp src_port dst_port seq ack flags (drop data_offset seg))).

(** ** ICMP *)

Definition ICMP_ECHO_REQUEST : Z := 8.
Definition ICMP_ECHO_REPLY : Z := 0.

Definition icmp_build_echo_request (b : bytes) (off : nat) (id seq : Z) (payload : bytes) : option (bytes * nat) :=
  b ← wslice b off [ICMP_ECHO_REQUEST; 0]; b ← wslice b (off + 2) [0; 0];
  b ← w16 b (off + 4) id; b ← w16 b (off + 6) seq;
  b ← copy_bytes b (off + 8) (length payload) payload;
  let len := (8 + length payload)%nat in
  msg ← rslice b off len;
  b ← w16 b (off + 2) (checksum16 msg);
  Some (b, len).

(** ** DNS *)

Definition DNS_PORT : Z := 53.
Definition DNS_SERVER_IP : bytes := [10; 0; 2; 3].
Definition dot : Z := 46.

(** One round of the label loop: the buffer, [i] and [label_start]. *)
Definition label_step (host : bytes) (st : bytes * nat * nat) (pos : nat) : option (bytes * nat * nat) :=
  let '(b, i, label_start) := st in
  if bool_decide (pos = length host) || bool_decide (host !! pos = Some dot) then
    label ← rslice host label_start (pos - label_start);
    b ← wbyte b i (u8 (Z.of_nat (length label)));
    b ← copy_bytes b (S i) (length label) label;
    Some (b, S i + length label, S pos)%nat
  else Some st.

Definition dns_build_query (b : bytes) (id : Z) (hostname : bytes) : option (bytes * nat) :=
  b ← w16 b 0 id;
  b ← wslice b 2 [0x01; 0x00]; b ← wslice b 4 [0x00; 0x01]; b ← wslice b 6 [0x00; 0x00];
  b ← wslice b 8 [0x00; 0x00]; b ← wslice b 10 [0x00; 0x00];
  '(b, i, _) ← foldM (label_step hostname) (b, 12%nat, 0%nat) (seq 0 (S (length hostname)));
  b ← wbyte b i 0x00;
  b ← wslice b (i + 1) [0x00; 0x01]; b ← wslice b (i + 3) [0x00; 0x01];
  Some (b, i + 5)%nat.

(** The loop of [dns_name_len]; [None] when the fuel is spent. *)
Fixpoint name_end (fuel : nat) (msg : bytes) (i : nat) : option nat :=
  match fuel with
  | O => None
  | S fuel =>
      match msg !! i with
      | None => Some i
      | Some b =>
          if b =? 0 then Some (i + 1)%nat else
          if Z.land b 0xC0 =? 0xC0 then Some (i + 2)%nat else name_end fuel msg (i + 1 + Z.to_nat b)
      end
  end.

(** Every round moves on by a byte at least. *)
Definition dns_name_len (msg : bytes) (off : nat) : option nat :=
  e ← name_end (S (length msg)) msg off; Some (e - off)%nat.

Fixpoint dns_answers (ancount : nat) (msg : bytes) (off : nat) : option (option bytes) :=
  match ancount with
  | O => Some None
  | S ancount =>
      if (length msg <? off + 10)%nat then Some None else
      n ← dns_name_len msg off;
      let off := (off + n)%nat in
      if (length msg <? off + 10)%nat then Some None else
      rtype ← r16 msg off; rdlength ← r16 msg (off + 8);
      let off := (off + 10)%nat in
      if (length msg <? off + Z.to_nat rdlength)%nat then Some None else
      if (rtype =? 1) && (rdlength =? 4) then ip ← rslice msg off 4; Some (Some ip) else
      dns_answers ancount msg (off + Z.to_nat rdlength)
  end.

Definition dns_parse_response (msg : bytes) (expected_id : Z) : option (option bytes) :=
  if (length msg <? 12)%nat then Some None else
  id ← r16 msg 0;
  if negb (id =? expected_id) then Some None else
  flags ← r16 msg 2;
  if Z.land flags 0x8000 =? 0 then Some None else
  if negb (Z.land flags 0x000F =? 0) then Some None else
  ancount ← r16 msg 6;
  if ancount =? 0 then Some None else
  n ← dns_name_len msg 12;
  dns_answers (Z.to_nat ancount) msg (12 + n + 4).

(** ** Writing a message piece by piece *)

Lemma wslice_bind {A} (b : bytes) off off' s1 s2 (k : bytes -> option A) : off' = (off + length s1)%nat ->
  (r ← wslice b off s1; r ← wslice r off' s2; k r) = (r ← wslice b off (s1 ++ s2); k r).
Proof.
  intros ->. destruct (wslice b off s1) as [r|] eqn:E; cbn [mbind option_bind].
  - apply wslice_Some in E as [Hle ->]. unfold wslice. rewrite !length_app, length_take, length_drop.
    do 2 case_decide; try lia; [|done]. cbn [mbind option_bind]. f_equal.
    rewrite (app_assoc (take off b) s1), take_app_length' by (rewrite length_app, length_take; lia).
    rewrite drop_app_ge, drop_drop by (rewrite length_app, length_take; lia).
    rewrite <- !app_assoc. do 4 f_equal. rewrite length_app, length_take. lia.
  - unfold wslice in *. rewrite length_app. repeat case_decide; try lia; done.
Qed.

Lemma wslice_last (b : bytes) off off' s1 s2 : off' = (off + length s1)%nat ->
  (r ← wslice b off s1; wslice r off' s2) = wslice b off (s1 ++ s2).
Proof.
  intros Ho. pose proof (wslice_bind b off off' s1 s2 Some Ho) as E. destruct (wslice b off s1) as [r|]; cbn [mbind option_bind] in *.
  - destruct (wslice r off' s2), (wslice b off (s1 ++ s2)); done.
  - by destruct (wslice b off (s1 ++ s2)).
Qed.

Lemma rslice_app {A} (s1 s2 s3 : list A) off n : off = length s1 -> n = length s2 -> rslice (s1 ++ s2 ++ s3) off n = Some s2.
Proof.
  intros -> ->. unfold rslice. rewrite !length_app, decide_True by lia. by rewrite drop_app_length, take_app_length.
Qed.

Lemma rslice_end {A} (s1 s2 : list A) off n : off = length s1 -> n = length s2 -> rslice (s1 ++ s2) off n = Some s2.
Proof. intros. rewrite <- (app_nil_r s2) at 1. by apply rslice_app. Qed.

Lemma copy_bytes_full b off len src : length src = len -> copy_bytes b off len src = wslice b off src.
Proof. intros <-. unfold copy_bytes, wslice. rewrite take_ge by lia. by case_decide. Qed.

Lemma copy_bind {A} (b : bytes) off off' len s1 s2 (k : bytes -> option A) : off' = (off + length s1)%nat -> length s2 = len ->
  (r ← wslice b off s1; r ← copy_bytes r off' len s2; k r) = (r ← wslice b off (s1 ++ s2); k r).
Proof.
  intros Ho Hl. rewrite <- (wslice_bind b off off' s1 s2 k Ho). destruct (wslice b off s1); [|done]. cbn [mbind option_bind].
  by rewrite copy_bytes_full.
Qed.

(** The message is read back and its checksum field filled in. *)
Lemma wslice_patch {A} (b : bytes) off off' n s1 s2 s3 (ck : bytes -> bytes) (k : bytes -> option A) :
  n = length (s1 ++ s2 ++ s3) -> off' = (off + length s1)%nat -> length (ck (s1 ++ s2 ++ s3)) = length s2 ->
  (r ← wslice b off (s1 ++ s2 ++ s3); m ← rslice r off n; r ← wslice r off' (ck m); k r) =
  (r ← wslice b off (s1 ++ ck (s1 ++ s2 ++ s3) ++ s3); k r).
Proof.
  intros -> -> Hl. destruct (wslice b off (s1 ++ s2 ++ s3)) as [r|] eqn:E; cbn [mbind option_bind].
  - rewrite (rslice_wslice_eq _ _ _ _ E). cbn [mbind option_bind]. apply wslice_Some in E as [Hle ->].
    revert Hl. generalize (ck (s1 ++ s2 ++ s3)). intros c Hl.
    unfold wslice. rewrite !length_app in *. rewrite !length_take, !length_drop.
    do 2 case_decide; try lia. cbn [mbind option_bind]. f_equal.
    rewrite <- !app_assoc, (app_assoc (take off b) s1), take_app_length' by (rewrite length_app, length_take; lia).
    rewrite <- !app_assoc. do 3 f_equal. rewrite Hl.
    rewrite (app_assoc (take off b) s1), (app_assoc _ s2), drop_app_length' by (rewrite !length_app, length_take; lia). done.
  - unfold wslice in *. rewrite !length_app in *. repeat case_decide; try lia; done.
Qed.

Definition be16 (v : Z) : bytes := [u8 (Z.shiftr v 8); Z.land v 0xFF].
Definition be32 (v : Z) : bytes := [u8 (Z.shiftr v 24); u8 (Z.shiftr v 16); u8 (Z.shiftr v 8); u8 v].

Lemma u8_byte x : is_byte (u8 x).
Proof. apply (wrap_range 8 x). lia. Qed.
Lemma low_byte x : is_byte (Z.land x 0xFF).
Proof. change 0xFF with (Z.ones 8). rewrite Z.land_ones by lia. apply (wrap_range 8 x). lia. Qed.
#[export] Hint Resolve u8_byte low_byte : bytes.

Lemma be16_bytes v : all_bytes (be16 v).
Proof. repeat constructor; auto with bytes; apply u8_byte || apply low_byte. Qed.


(** The value of two and of four bytes, most significant first. *)
Lemma lor_word hi lo : is_byte lo -> Z.lor (Z.shiftl hi 8) lo = hi * 256 + lo.
Proof. intros H. by rewrite lor_disjoint_add by (red in H; lia). Qed.

Lemma be16_val v : in_width 16 v -> Z.lor (Z.shiftl (u8 (Z.shiftr v 8)) 8) (Z.land v 0xFF) = v.
Proof.
  intros Hv. rewrite lor_word by apply low_byte. change 0xFF with (Z.ones 8). rewrite Z.land_ones, Z.shiftr_div_pow2 by lia.
  unfold wrap. change (2 ^ 8) with 256. red in Hv. change (2 ^ 16) with 65536 in Hv.
  rewrite (Z.mod_small (v / 256)) by (split; [apply Z.div_pos; lia|apply Z.div_lt_upper_bound; lia]).
  pose proof (Z.div_mod v 256). lia.
Qed.

Lemma be32_val v : in_width 32 v ->
  Z.lor (Z.lor (Z.lor (Z.shiftl (u8 (Z.shiftr v 24)) 24) (Z.shiftl (u8 (Z.shiftr v 16)) 16)) (Z.shiftl (u8 (Z.shiftr v 8)) 8)) (u8 v) = v.
Proof.
  intros Hv. rewrite <- (wrap_small 32 v Hv) at 5. unfold wrap. apply Z.bits_inj'. intros n Hn.
  rewrite !Z.lor_spec, !Z.shiftl_spec by done.
  destruct (Z_lt_le_dec n 32); [rewrite (Z.mod_pow2_bits_low v 32) by lia|rewrite (Z.mod_pow2_bits_high v 32) by lia].
  - destruct (Z_lt_le_dec n 8); [|destruct (Z_lt_le_dec n 16); [|destruct (Z_lt_le_dec n 24)]].
    all: repeat first [rewrite (Z.testbit_neg_r _ (n - _)) by lia | rewrite Z.mod_pow2_bits_low by lia | rewrite Z.mod_pow2_bits_high by lia
      | rewrite Z.shiftr_spec by lia]; cbn [orb]; rewrite ?orb_false_r; f_equal; lia.
  - rewrite !Z.mod_pow2_bits_high by lia. done.
Qed.

Lemma r16_be16 s1 v s2 n : n = length s1 -> in_width 16 v -> r16 (s1 ++ be16 v ++ s2) n = Some v.
Proof.
  intros -> Hv. unfold r16. rewrite (lookup_app_r s1 _ (length s1)), (lookup_app_r s1 _ (S (length s1))) by lia.
  replace (length s1 - length s1)%nat with 0%nat by lia. replace (S (length s1) - length s1)%nat with 1%nat by lia.
  change (be16 v ++ s2) with (u8 (Z.shiftr v 8) :: Z.land v 0xFF :: s2). cbn [lookup list_lookup mbind option_bind]. by rewrite be16_val.
Qed.

Lemma r32_be32 s1 v s2 n : n = length s1 -> in_width 32 v -> r32 (s1 ++ be32 v ++ s2) n = Some v.
Proof.
  intros -> Hv. unfold r32. rewrite (lookup_app_r s1 _ (length s1)), (lookup_app_r s1 _ (length s1 + 1)), (lookup_app_r s1 _ (length s1 + 2)), (lookup_app_r s1 _ (length s1 + 3)) by lia.
  replace (length s1 - length s1)%nat with 0%nat by lia. replace (length s1 + 1 - length s1)%nat with 1%nat by lia.
  replace (length s1 + 2 - length s1)%nat with 2%nat by lia. replace (length s1 + 3 - length s1)%nat with 3%nat by lia.
  change (be32 v ++ s2) with (u8 (Z.shiftr v 24) :: u8 (Z.shiftr v 16) :: u8 (Z.shiftr v 8) :: u8 v :: s2).
  cbn [lookup list_lookup mbind option_bind]. by rewrite be32_val.
Qed.

(** ** The Internet checksum is a sum modulo 65535 *)

Fixpoint wsum (data : bytes) : Z :=
  match data with
  | hi :: lo :: data' => hi * 256 + lo + wsum data'
  | [hi] => hi * 256
  | [] => 0
  end.

Lemma pair_ind (P : bytes -> Prop) : P [] -> (forall x, P [x]) -> (forall x y l, P l -> P (x :: y :: l)) -> forall l, P l.
Proof.
  intros H0 H1 H2 l. enough (P l /\ forall x, P (x :: l)) by tauto. induction l as [|y l [IH1 IH2]]; [auto|].
  split; [auto|]. intros x. by apply H2.
Qed.

Lemma wsum_range data : all_bytes data -> 0 <= wsum data <= 65535 * Z.of_nat (length data).
Proof.
  induction data as [|x|x y l IH] using pair_ind; intros H; cbn [wsum length].
  - lia.
  - apply Forall_cons in H as [H _]. unfold is_byte in H. lia.
  - apply Forall_cons in H as [Hx H]. apply Forall_cons in H as [Hy H]. specialize (IH H). red in Hx, Hy. lia.
Qed.

Lemma sum16_wsum data : forall acc, all_bytes data -> 0 <= acc -> acc + wsum data < 2 ^ 32 -> sum16 data acc = acc + wsum data.
Proof.
  induction data as [|x|x y l IH] using pair_ind; intros acc H Ha Hs; cbn [sum16 wsum] in *.
  - lia.
  - apply Forall_cons in H as [H _]. rewrite Z.shiftl_mul_pow2 by lia. change (2 ^ 8) with 256. apply wrap_small. unfold is_byte in H. red. lia.
  - apply Forall_cons in H as [Hx H]. apply Forall_cons in H as [Hy H]. rewrite lor_word by done.
    pose proof (wsum_range _ H). red in Hx, Hy. rewrite wrap_small by (red; lia). rewrite IH by (done || lia). lia.
Qed.

Definition ones_sum (s : Z) : Z := if s =? 0 then 0 else (s - 1) mod 65535 + 1.

Lemma fold_carries_ones s : 0 <= s < 2 ^ 32 -> fold_carries FOLD_FUEL s = ones_sum s.
Proof.
  intros Hs. unfold FOLD_FUEL, ones_sum. cbn [fold_carries]. change (2 ^ 32) with 4294967296 in Hs.
  change 0xFFFF with (Z.ones 16). rewrite !Z.land_ones, !Z.shiftr_div_pow2 by lia. change (2 ^ 16) with 65536.
  assert (0 <= s mod 65536 < 65536) as Hm by (apply Z.mod_pos_bound; lia). pose proof (Z.div_mod s 65536 ltac:(lia)) as Hd.
  set (q := s / 65536) in *. set (m := s mod 65536) in *. assert (0 <= q < 65536) by lia.
  assert (forall r k, 1 <= r <= 65535 -> s = r + 65535 * k -> 0 <= k -> (if s =? 0 then 0 else (s - 1) mod 65535 + 1) = r) as Huniq.
  { intros r k Hr Hk Hk0. rewrite (proj2 (Z.eqb_neq _ _)) by lia. replace (s - 1) with ((r - 1) + k * 65535) by lia.
    rewrite Z_mod_plus_full, Z.mod_small; lia. }
  destruct (Z.eqb_spec q 0) as [Hq|Hq].
  - destruct (Z.eq_dec s 0) as [->|]; [done|]. symmetry. apply (Huniq s 0); lia.
  - rewrite (wrap_small 32 (m + q)) by (red; lia). destruct (Z.eqb_spec ((m + q) / 65536) 0) as [Hc|Hc].
    + assert (m + q < 65536) by (pose proof (Z.div_mod (m + q) 65536); pose proof (Z.mod_pos_bound (m + q) 65536); lia).
      symmetry. apply (Huniq _ q); lia.
    + pose proof (Z.div_mod (m + q) 65536 ltac:(lia)). pose proof (Z.mod_pos_bound (m + q) 65536 ltac:(lia)).
      assert ((m + q) / 65536 < 2) by (apply Z.div_lt_upper_bound; lia). assert (0 <= (m + q) / 65536) by (apply Z.div_pos; lia).
      rewrite wrap_small by (red; lia). symmetry. apply (Huniq _ (q + 1)); lia.
Qed.

Lemma ones_sum_range s : 0 <= s -> 0 <= ones_sum s <= 65535.
Proof. intros. unfold ones_sum. destruct (s =? 0); [lia|]. pose proof (Z.mod_pos_bound (s - 1) 65535). lia. Qed.

Lemma wnot_sub x : in_width 16 x -> wnot 16 x = 65535 - x.
Proof.
  intros Hx. unfold wnot. change (2 ^ 16 - 1) with (Z.ones 16). change 65535 with (Z.ones 16). rewrite Z.sub_nocarry_ldiff.
  - apply Z.bits_inj'. intros n Hn. rewrite Z.lxor_spec, Z.ldiff_spec. destruct (Z_lt_le_dec n 16).
    + rewrite Z.ones_spec_low by lia. by destruct (Z.testbit x n).
    + rewrite Z.ones_spec_high, (in_width_testbit 16 x n) by (done || lia). done.
  - apply Z.bits_inj'. intros n Hn. rewrite Z.ldiff_spec, Z.bits_0. destruct (Z_lt_le_dec n 16).
    + rewrite Z.ones_spec_low by lia. apply andb_false_r.
    + by rewrite (in_width_testbit 16 x n) by (done || lia).
Qed.

(** Messages of at most 64 KiB: the 32-bit sum does not overflow. *)
Lemma checksum16_ones data : all_bytes data -> Z.of_nat (length data) <= 65536 -> checksum16 data = 65535 - ones_sum (wsum data).
Proof.
  intros Hb Hl. pose proof (wsum_range _ Hb) as Hr. assert (0 <= wsum data < 2 ^ 32) by (change (2 ^ 32) with 4294967296; lia).
  unfold checksum16. rewrite sum16_wsum by (done || lia). rewrite Z.add_0_l, fold_carries_ones by done.
  pose proof (ones_sum_range (wsum data)). rewrite (wrap_small 16) by (red; lia). apply wnot_sub. red. lia.
Qed.

Lemma wsum_app s1 s2 : Nat.Even (length s1) -> wsum (s1 ++ s2) = wsum s1 + wsum s2.
Proof.
  induction s1 as [|x|x y l IH] using pair_ind; intros H; cbn [wsum app length] in *; [lia|by apply Nat.even_spec in H|].
  rewrite IH; [lia|]. by apply Nat.even_spec in H; apply Nat.even_spec.
Qed.

Lemma checksum_zero data : all_bytes data -> Z.of_nat (length data) <= 65536 ->
  checksum16 data = 0 <-> 0 < wsum data /\ (wsum data) mod 65535 = 0.
Proof.
  intros Hb Hl. rewrite checksum16_ones by done. pose proof (wsum_range _ Hb). unfold ones_sum.
  destruct (Z.eqb_spec (wsum data) 0) as [->|Hn]; [lia|]. pose proof (Z.div_mod (wsum data) 65535 ltac:(lia)) as E.
  pose proof (Z.mod_pos_bound (wsum data) 65535 ltac:(lia)) as B. set (q := wsum data / 65535) in *. set (m := wsum data mod 65535) in *.
  destruct (Z.eq_dec m 0) as [Hm|Hm].
  - replace (wsum data - 1) with (65534 + (q - 1) * 65535) by lia. rewrite Z_mod_plus_full. change (65534 mod 65535) with 65534. lia.
  - replace (wsum data - 1) with ((m - 1) + q * 65535) by lia. rewrite Z_mod_plus_full, Z.mod_small by lia. lia.
Qed.

Lemma wsum_be16 v : in_width 16 v -> wsum (be16 v) = v.
Proof. intros Hv. cbn [wsum be16]. rewrite <- (be16_val v Hv) at 3. rewrite lor_word by apply low_byte. lia. Qed.

(** Filling in the checksum makes the message sum to zero. *)
Lemma checksum_patch s1 s3 : all_bytes s1 -> all_bytes s3 -> Nat.Even (length s1) -> Z.of_nat (length (s1 ++ [0; 0] ++ s3)) <= 65536 ->
  checksum16 (s1 ++ be16 (checksum16 (s1 ++ [0; 0] ++ s3)) ++ s3) = 0.
Proof.
  intros H1 H3 He Hl. assert (all_bytes (s1 ++ [0; 0] ++ s3)) as Hb by (repeat (apply Forall_app; split; [done|]); repeat constructor; done).
  rewrite (checksum16_ones (s1 ++ [0; 0] ++ s3)) by done. set (S := wsum (s1 ++ [0; 0] ++ s3)).
  assert (0 <= S) as HS by apply (wsum_range _ Hb). pose proof (ones_sum_range S HS) as Ho.
  assert (in_width 16 (65535 - ones_sum S)) as Hw by (red; lia).
  apply checksum_zero; [repeat (apply Forall_app; split; [done || apply be16_bytes|]); done|by rewrite !length_app in *|].
  assert (S = wsum s1 + wsum s3) as ES by (unfold S; rewrite !wsum_app by (done || by exists 1%nat); cbn; lia).
  rewrite !wsum_app, wsum_be16 by (done || by exists 1%nat).
  replace (wsum s1 + (65535 - ones_sum S + wsum s3)) with (S + (65535 - ones_sum S)) by lia.
  unfold ones_sum. destruct (Z.eqb_spec S 0) as [->|]; [split; [lia|done]|].
  pose proof (Z.div_mod (S - 1) 65535 ltac:(lia)) as E. pose proof (Z.mod_pos_bound (S - 1) 65535 ltac:(lia)).
  split; [lia|]. replace (S + (65535 - ((S - 1) mod 65535 + 1))) with ((1 + (S - 1) / 65535) * 65535) by lia. apply Z_mod_mult.
Qed.

(** ** The messages, as lists of bytes *)

Definition eth_header (dst_mac src_mac ethertype : bytes) : bytes := dst_mac ++ src_mac ++ ethertype.

Definition ipv4_fixed (proto : Z) (payload_len : nat) (ident : Z) : bytes :=
  [0x45; 0x00] ++ be16 (u16 (Z.of_nat (IPV4_HDR_LEN + payload_len))) ++ be16 ident ++ [0x40; 0x00; 64; proto].

Definition ipv4_header (src dst : bytes) (proto : Z) (payload_len : nat) (ident : Z) : bytes :=
  let fixed := ipv4_fixed proto payload_len ident in
  fixed ++ be16 (checksum16 (fixed ++ [0; 0] ++ src ++ dst)) ++ src ++ dst.

Definition tcp_fixed (src_port dst_port seq ack flags : Z) : bytes :=
  be16 src_port ++ be16 dst_port ++ be32 seq ++ be32 ack ++ [Z.shiftl 5 4; flags] ++ be16 TCP_WINDOW.

Definition tcp_segment (src_ip dst_ip : bytes) (src_port dst_port seq ack flags : Z) (payload : bytes) : bytes :=
  let fixed := tcp_fixed src_port dst_port seq ack flags in
  fixed ++ be16 (tcp_checksum src_ip dst_ip (fixed ++ [0; 0] ++ [0; 0] ++ payload)) ++ [0; 0] ++ payload.

Definition udp_datagram (src_ip dst_ip : bytes) (src_port dst_port : Z) (payload : bytes) : bytes :=
  let fixed := be16 src_port ++ be16 dst_port ++ be16 (Z.of_nat (UDP_HDR_LEN + length payload)) in
  fixed ++ be16 (udp_checksum src_ip dst_ip (fixed ++ [0; 0] ++ payload)) ++ payload.

Definition icmp_echo (id seq : Z) (payload : bytes) : bytes :=
  let rest := be16 id ++ be16 seq ++ payload in
  [ICMP_ECHO_REQUEST; 0] ++ be16 (checksum16 ([ICMP_ECHO_REQUEST; 0] ++ [0; 0] ++ rest)) ++ rest.

Definition arp_message (oper : Z) (src_mac src_ip dst_mac dst_ip : bytes) : bytes :=
  [0x00; 0x01; 0x08; 0x00; 6; 4; 0x00; oper] ++ src_mac ++ src_ip ++ dst_mac ++ dst_ip.

Record mac_ok (m : bytes) : Prop := { mac_len : length m = 6%nat; mac_bytes : all_bytes m }.
Record ip_ok (a : bytes) : Prop := { ip_len : length a = 4%nat; ip_bytes : all_bytes a }.

#[local] Ltac len := unfold eth_header, BROADCAST_MAC, ETHERTYPE_ARP, ETHERTYPE_IPV4, IPV4_HDR_LEN, ETH_HDR_LEN in *; rewrite ?length_app; cbn [length be16 be32 replicate]; lia.
(** Joins consecutive writes into one. *)
#[local] Ltac pieces := repeat (first [rewrite wslice_bind by len | rewrite copy_bind by (done || len)]).

Lemma eth_build_spec b d s t : length d = 6%nat -> length s = 6%nat -> length t = 2%nat ->
  eth_build b d s t = (b ← wslice b 0 (eth_header d s t); Some (b, ETH_HDR_LEN)).
Proof. intros. unfold eth_build. rewrite copy_bytes_full by done. pieces. unfold eth_header. by rewrite <- app_assoc. Qed.

Lemma ipv4_build_spec b off src dst p n ident : length src = 4%nat -> length dst = 4%nat ->
  ipv4_build b off src dst p n ident = (b ← wslice b off (ipv4_header src dst p n ident); Some (b, IPV4_HDR_LEN)).
Proof.
  intros Hs Hd. unfold ipv4_build, w16. fold (be16 (u16 (Z.of_nat (IPV4_HDR_LEN + n)))). fold (be16 ident). cbv zeta. pieces.
  rewrite <- !app_assoc. change (Z.of_nat IPV4_HDR_LEN) with 20.
  refine (wslice_patch b off (off + 10) IPV4_HDR_LEN (ipv4_fixed p n ident) [0; 0] (src ++ dst) (fun m => be16 (checksum16 m)) _ _ _ _).
  - unfold ipv4_fixed, IPV4_HDR_LEN. len.
  - done.
  - done.
Qed.

Lemma tcp_build_spec b off si di sp dp sq ak fl payload :
  tcp_build b off si di sp dp sq ak fl payload =
  (b ← wslice b off (tcp_segment si di sp dp sq ak fl payload); Some (b, TCP_HDR_LEN + length payload)%nat).
Proof.
  unfold tcp_build, w16, w32. fold (be16 sp) (be16 dp) (be32 sq) (be32 ak) (be16 TCP_WINDOW). cbv zeta. pieces. rewrite <- !app_assoc.
  refine (wslice_patch b off (off + 16) _ (tcp_fixed sp dp sq ak fl) [0; 0] ([0; 0] ++ payload) (fun m => be16 (tcp_checksum si di m)) _ _ _ _).
  - unfold tcp_fixed, TCP_HDR_LEN. len.
  - done.
  - done.
Qed.

Lemma udp_build_spec b off si di sp dp payload :
  udp_build b off si di sp dp payload =
  (b ← wslice b off (udp_datagram si di sp dp payload); Some (b, UDP_HDR_LEN + length payload)%nat).
Proof.
  unfold udp_build, w16. cbv zeta. fold (be16 sp) (be16 dp) (be16 (Z.of_nat (UDP_HDR_LEN + length payload))). pieces. rewrite <- !app_assoc.
  refine (wslice_patch b off (off + 6) _ (be16 sp ++ be16 dp ++ be16 (Z.of_nat (UDP_HDR_LEN + length payload))) [0; 0] payload (fun m => be16 (udp_checksum si di m)) _ _ _ _).
  - unfold UDP_HDR_LEN. len.
  - done.
  - done.
Qed.

Lemma icmp_build_spec b off id seq payload :
  icmp_build_echo_request b off id seq payload = (b ← wslice b off (icmp_echo id seq payload); Some (b, 8 + length payload)%nat).
Proof.
  unfold icmp_build_echo_request, w16. cbv zeta. fold (be16 id) (be16 seq). pieces. rewrite <- !app_assoc.
  refine (wslice_patch b off (off + 2) _ [ICMP_ECHO_REQUEST; 0] [0; 0] (be16 id ++ be16 seq ++ payload) (fun m => be16 (checksum16 m)) _ _ _ _).
  - len.
  - done.
  - done.
Qed.

Lemma arp_fixed_spec b n oper : arp_fixed b n oper = wslice b n [0x00; 0x01; 0x08; 0x00; 6; 4; 0x00; oper].
Proof. unfold arp_fixed. pieces. by rewrite wslice_last by len. Qed.

(** An ARP packet behind its Ethernet header. *)
Lemma arp_body {A} b e oper sm si dm di (k : bytes -> option A) : length e = 14%nat -> length sm = 6%nat -> length si = 4%nat -> length dm = 6%nat -> length di = 4%nat ->
  (b ← wslice b 0 e; b ← arp_fixed b 14 oper; b ← copy_bytes b 22 6 sm; b ← copy_bytes b 28 4 si; b ← copy_bytes b 32 6 dm; b ← copy_bytes b 38 4 di; k b) =
  (b ← wslice b 0 (e ++ arp_message oper sm si dm di); k b).
Proof.
  intros. rewrite <- (wslice_bind b 0 14 e) by done. destruct (wslice b 0 e) as [r|]; [|done]. cbn [mbind option_bind].
  rewrite arp_fixed_spec. pieces. unfold arp_message. by rewrite <- !app_assoc.
Qed.

Lemma arp_request_spec b sm si ti : length sm = 6%nat -> length si = 4%nat -> length ti = 4%nat ->
  arp_build_request b sm si ti =
  (b ← wslice b 0 (eth_header BROADCAST_MAC sm ETHERTYPE_ARP ++ arp_message 1 sm si (replicate 6 0) ti); Some (b, 42%nat)).
Proof.
  intros. rewrite <- arp_body by (done || unfold eth_header; len). unfold arp_build_request. rewrite eth_build_spec by done.
  by destruct (wslice b 0 _).
Qed.

Lemma arp_reply_spec b sm si dm di : length sm = 6%nat -> length si = 4%nat -> length dm = 6%nat -> length di = 4%nat ->
  arp_build_reply b sm si dm di =
  (b ← wslice b 0 (eth_header dm sm ETHERTYPE_ARP ++ arp_message 2 sm si dm di); Some (b, 42%nat)).
Proof.
  intros. rewrite <- arp_body by (done || unfold eth_header; len). unfold arp_build_reply. rewrite eth_build_spec by done.
  by destruct (wslice b 0 _).
Qed.

(** ** Headers read back *)

Lemma ipv4_header_length src dst p n ident : length src = 4%nat -> length dst = 4%nat -> length (ipv4_header src dst p n ident) = IPV4_HDR_LEN.
Proof. intros. unfold ipv4_header, ipv4_fixed, IPV4_HDR_LEN. len. Qed.

Lemma ipv4_fixed_bytes p n ident : is_byte p -> all_bytes (ipv4_fixed p n ident).
Proof. intros. unfold ipv4_fixed. do 3 (apply Forall_app; split; [apply be16_bytes || (repeat constructor; done)|]). repeat constructor; done || apply H. Qed.

Lemma ipv4_header_sums src dst p n ident : ip_ok src -> ip_ok dst -> is_byte p -> checksum16 (ipv4_header src dst p n ident) = 0.
Proof.
  intros [Hs Bs] [Hd Bd] Hp. unfold ipv4_header. apply checksum_patch.
  - by apply ipv4_fixed_bytes.
  - by apply Forall_app.
  - by exists 5%nat.
  - unfold ipv4_fixed. len.
Qed.

(** The fields of a header, whatever follows it. *)
Lemma ipv4_fields src dst p n ident rest : length src = 4%nat -> length dst = 4%nat ->
  let ip := ipv4_header src dst p n ident ++ rest in
  ip !! 0%nat = Some 0x45 /\ rslice ip 0 IPV4_HDR_LEN = Some (ipv4_header src dst p n ident) /\
  r16 ip 2 = Some (u16 (Z.of_nat (IPV4_HDR_LEN + n))) /\ rslice ip 12 4 = Some src /\ rslice ip 16 4 = Some dst /\ ip !! 9%nat = Some p.
Proof.
  intros Hs Hd ip. assert (length (ipv4_header src dst p n ident) = IPV4_HDR_LEN) as Hh by by apply ipv4_header_length.
  split; [done|]. split; [by apply (rslice_app [])|]. unfold ip, ipv4_header.
  set (ck := checksum16 _). rewrite <- !app_assoc. split; [|split; [|split]].
  - apply (r16_be16 [_; _]); [done|]. apply wrap_range. lia.
  - apply (rslice_app (ipv4_fixed p n ident ++ be16 ck)); [done|by rewrite Hs].
  - rewrite (app_assoc _ (be16 ck)), (app_assoc _ src). apply rslice_app; [by rewrite length_app, Hs|by rewrite Hd].
  - done.
Qed.

Lemma ipv4_parse_built eth src dst p ident payload pad : length eth = ETH_HDR_LEN -> ip_ok src -> ip_ok dst -> is_byte p ->
  Z.of_nat (IPV4_HDR_LEN + length payload) < 2 ^ 16 ->
  ipv4_parse (eth ++ ipv4_header src dst p (length payload) ident ++ payload ++ pad) =
  Some (Some (mkIpv4 src dst p (ETH_HDR_LEN + IPV4_HDR_LEN) (length payload))).
Proof.
  intros He Hs Hd Hp Hl. pose proof (ipv4_header_length src dst p (length payload) ident (ip_len _ Hs) (ip_len _ Hd)) as Hh.
  destruct (ipv4_fields src dst p (length payload) ident (payload ++ pad) (ip_len _ Hs) (ip_len _ Hd)) as (E0 & Eh & Et & Es & Ed & Ep).
  unfold ipv4_parse. rewrite drop_app_length', !length_app, He, Hh by done. rewrite (proj2 (Nat.ltb_ge _ _)) by lia.
  rewrite Eh, Et, Es, Ed, Ep, E0. cbn [mbind option_bind]. rewrite ipv4_header_sums, (wrap_small 16) by (done || red; lia).
  change (negb (69 =? 0x45)) with false. change (negb (0 =? 0)) with false. cbv iota. do 3 f_equal.
  rewrite Nat2Z.id. unfold ETH_HDR_LEN, IPV4_HDR_LEN. lia.
Qed.

(** What [ipv4_build] writes is what [ipv4_parse] reads, behind any Ethernet header and in front
    of any payload and padding: the header's checksum is accepted, and the addresses, the
    protocol and the length of the payload come back. *)
Theorem ipv4_roundtrip eth src dst p ident payload pad : length eth = ETH_HDR_LEN -> ip_ok src -> ip_ok dst -> is_byte p ->
  Z.of_nat (IPV4_HDR_LEN + length payload) < 2 ^ 16 ->
  ipv4_parse (eth ++ ipv4_header src dst p (length payload) ident ++ payload ++ pad) =
  Some (Some (mkIpv4 src dst p (ETH_HDR_LEN + IPV4_HDR_LEN) (length payload))).
Proof. apply ipv4_parse_built. Qed.

(** A message in which one byte was changed no longer sums to zero. *)
Lemma wsum_insert data : forall i (v o : Z), data !! i = Some o -> wsum (<[i := v]> data) = wsum data + (v - o) * (if Nat.even i then 256 else 1).
Proof.
  induction data as [|x|x y l IH] using pair_ind; intros i v o H; [done| |].
  - destruct i as [|i]; [|done]. injection H as <-. cbn. lia.
  - destruct i as [|[|i]].
    + injection H as <-. cbn. lia.
    + injection H as <-. cbn. lia.
    + change (<[S (S i) := v]> (x :: y :: l)) with (x :: y :: <[i := v]> l). cbn [wsum]. rewrite (IH i v o H).
      change (Nat.even (S (S i))) with (Nat.even i). lia.
Qed.

Lemma corruption_detected data i v o : all_bytes data -> Z.of_nat (length data) <= 65536 -> is_byte v -> data !! i = Some o -> v <> o ->
  checksum16 data = 0 -> checksum16 (<[i := v]> data) <> 0.
Proof.
  intros Hb Hl Hv Ho Hne Hz Hz'. apply checksum_zero in Hz as [_ Hz]; [|done..].
  apply checksum_zero in Hz' as [_ Hz']; [|by apply Forall_insert|by rewrite length_insert].
  rewrite (wsum_insert _ _ _ _ Ho), Zplus_mod, Hz, Z.add_0_l, Z.mod_mod in Hz' by lia.
  pose proof (proj1 (Forall_lookup _ _) Hb _ _ Ho) as Hob. unfold is_byte in *.
  apply Z.mod_divide in Hz' as [k Hk]; [|lia]. destruct (Nat.even i); nia.
Qed.

(** No single corrupted byte of a header goes unnoticed: from a frame that [ipv4_parse] accepts,
    changing any one byte of its IPv4 header to another value gives a frame it rejects. *)
Theorem ipv4_rejects_corruption frame i v o r : all_bytes frame -> ipv4_parse frame = Some (Some r) ->
  (ETH_HDR_LEN <= i < ETH_HDR_LEN + IPV4_HDR_LEN)%nat -> frame !! i = Some o -> is_byte v -> v <> o ->
  ipv4_parse (<[i := v]> frame) = Some None.
Proof.
  intros Hb Hp Hi Ho Hv Hne. unfold ipv4_parse in *. rewrite length_insert. case_match; [done|]. apply Nat.ltb_ge in H.
  rewrite drop_insert_ge by lia. set (ip := drop ETH_HDR_LEN frame) in *.
  assert (rslice ip 0 IPV4_HDR_LEN = Some (take IPV4_HDR_LEN ip)) as Eh.
  { unfold rslice, ip. rewrite decide_True, drop_0 by (rewrite length_drop; lia). done. }
  assert (rslice (<[(i - ETH_HDR_LEN)%nat := v]> ip) 0 IPV4_HDR_LEN = Some (<[(i - ETH_HDR_LEN)%nat := v]> (take IPV4_HDR_LEN ip))) as Eh'.
  { unfold rslice, ip. rewrite decide_True, drop_0 by (rewrite length_insert, length_drop; lia). f_equal. rewrite take_insert_lt by lia. done. }
  destruct (<[_ := v]> ip !! 0%nat) as [x|] eqn:E; cbn [mbind option_bind].
  - destruct (negb (x =? 0x45)); [done|]. rewrite Eh'. cbn [mbind option_bind].
    destruct (checksum16 (<[_ := v]> (take IPV4_HDR_LEN ip)) =? 0) eqn:Ec; [|done]. exfalso. apply Z.eqb_eq in Ec. revert Ec.
    apply (corruption_detected _ _ _ o); try done.
    + by apply Forall_take, Forall_drop.
    + rewrite length_take. unfold IPV4_HDR_LEN. lia.
    + rewrite lookup_take_lt by lia. unfold ip. rewrite lookup_drop. by replace (ETH_HDR_LEN + (i - ETH_HDR_LEN))%nat with i by lia.
    + destruct (ip !! 0%nat) as [x'|]; [|done]. cbn [mbind option_bind] in Hp. destruct (negb (x' =? 0x45)); [done|].
      rewrite Eh in Hp. cbn [mbind option_bind] in Hp. destruct (Z.eqb_spec (checksum16 (take IPV4_HDR_LEN ip)) 0); [done|done].
  - apply lookup_ge_None in E. rewrite length_insert in E. unfold ip in E. rewrite length_drop in E. unfold ETH_HDR_LEN, IPV4_HDR_LEN in *. lia.
Qed.

Lemma tcp_segment_length si di sp dp sq ak fl payload : length (tcp_segment si di sp dp sq ak fl payload) = (TCP_HDR_LEN + length payload)%nat.
Proof. unfold tcp_segment, tcp_fixed, TCP_HDR_LEN. len. Qed.

Lemma tcp_parse_segment si di sp dp sq ak fl payload : in_width 16 sp -> in_width 16 dp -> in_width 32 sq -> in_width 32 ak ->
  tcp_parse (tcp_segment si di sp dp sq ak fl payload) = Some (Some (mkTcp sp dp sq ak fl payload)).
Proof.
  intros Hsp Hdp Hsq Hak. unfold tcp_parse. rewrite tcp_segment_length, (proj2 (Nat.ltb_ge _ _)) by (unfold TCP_HDR_LEN; lia).
  unfold tcp_segment. set (ck := tcp_checksum _ _ _). set (rest := be16 ck ++ [0; 0] ++ payload). set (s := tcp_fixed sp dp sq ak fl ++ rest).
  assert (r16 s 0 = Some sp) as -> by by apply (r16_be16 []). assert (r16 s 2 = Some dp) as -> by by apply (r16_be16 (be16 sp)).
  assert (r32 s 4 = Some sq) as -> by by apply (r32_be32 (be16 sp ++ be16 dp)).
  assert (r32 s 8 = Some ak) as -> by by apply (r32_be32 (be16 sp ++ be16 dp ++ be32 sq)). done.
Qed.

(** What the receiver of a segment sums: the pseudo-header and the whole segment. *)
Definition rfc_pseudo (src dst : bytes) (proto : Z) (segment : bytes) : bytes :=
  src ++ dst ++ [0; proto] ++ be16 (Z.of_nat (length segment)) ++ segment.

Lemma pseudo_rfc src dst proto s : length src = 4%nat -> length dst = 4%nat -> (length s <= 256)%nat -> pseudo_header src dst proto s = rfc_pseudo src dst proto s.
Proof.
  intros Hs Hd Hl. unfold pseudo_header, rfc_pseudo. rewrite !take_ge by lia.
  unfold be16, wrap. change 0xFF with (Z.ones 8). by rewrite !Z.land_ones by lia.
Qed.

(** A checksum field of zero is sent as all ones, which is the same sum. *)
Lemma checksum_patch_ones s1 s3 : all_bytes s1 -> all_bytes s3 -> Nat.Even (length s1) -> Z.of_nat (length (s1 ++ [0; 0] ++ s3)) <= 65536 ->
  let ck := checksum16 (s1 ++ [0; 0] ++ s3) in
  checksum16 (s1 ++ be16 (if ck =? 0 then 0xFFFF else ck) ++ s3) = 0.
Proof.
  intros H1 H3 He Hl ck. destruct (Z.eqb_spec ck 0) as [Hz|]; [|by apply checksum_patch].
  pose proof (checksum_patch s1 s3 H1 H3 He Hl) as Hp. fold ck in Hp. rewrite Hz in Hp.
  assert (forall v, all_bytes (s1 ++ be16 v ++ s3)) as Hb. { intros v. repeat (apply Forall_app; split; [done || apply be16_bytes|]). done. }
  assert (forall v, Z.of_nat (length (s1 ++ be16 v ++ s3)) <= 65536) as Hn. { intros v. by rewrite !length_app in *. }
  apply checksum_zero in Hp as [Hp1 Hp2]; [|done..]. apply checksum_zero; [done..|].
  rewrite !wsum_app in * by (done || by exists 1%nat). rewrite wsum_be16 in * by (red; lia). rewrite Z.add_0_l in *.
  split; [lia|]. replace (wsum s1 + (65535 + wsum s3)) with (wsum s1 + wsum s3 + 1 * 65535) by lia. by rewrite Z_mod_plus_full.
Qed.

Lemma tcp_fixed_bytes sp dp sq ak fl : is_byte fl -> all_bytes (tcp_fixed sp dp sq ak fl).
Proof.
  intros Hf. unfold tcp_fixed. do 2 (apply Forall_app; split; [apply be16_bytes|]). repeat constructor; (apply u8_byte || apply low_byte || done || apply Hf).
Qed.

(** The segments the stack sends are well-formed: a receiver reads back the ports, the sequence numbers,
    the flags and the payload [tcp_build] was given, and, as long as the segment has at
    most 256 bytes, finds that its checksum over pseudo-header and segment is right. *)
Theorem tcp_segment_valid si di sp dp sq ak fl payload : ip_ok si -> ip_ok di -> in_width 16 sp -> in_width 16 dp -> in_width 32 sq -> in_width 32 ak ->
  is_byte fl -> all_bytes payload ->
  let seg := tcp_segment si di sp dp sq ak fl payload in
  tcp_parse seg = Some (Some (mkTcp sp dp sq ak fl payload)) /\
  ((length payload <= 236)%nat -> checksum16 (rfc_pseudo si di PROTO_TCP seg) = 0).
Proof.
  intros [Ls Bs] [Ld Bd] Hsp Hdp Hsq Hak Hf Hb seg. split; [by apply tcp_parse_segment|]. intros Hl.
  unfold seg, tcp_segment, tcp_checksum, pseudo_checksum.
  assert (forall c, length (tcp_fixed sp dp sq ak fl ++ c ++ [0; 0] ++ payload) = (18 + length c + length payload)%nat) as HL.
  { intros c. unfold tcp_fixed. len. }
  rewrite pseudo_rfc; [|done..|rewrite HL; cbn; lia].
  assert (forall c, length c = 2%nat -> rfc_pseudo si di PROTO_TCP (tcp_fixed sp dp sq ak fl ++ c ++ [0; 0] ++ payload) =
    (si ++ di ++ [0; PROTO_TCP] ++ be16 (Z.of_nat (20 + length payload)) ++ tcp_fixed sp dp sq ak fl) ++ c ++ [0; 0] ++ payload) as E.
  { intros c Hc. unfold rfc_pseudo. rewrite HL, Hc. by rewrite <- !app_assoc. }
  rewrite !E by done. apply checksum_patch_ones.
  - do 4 (apply Forall_app; split; [done || apply be16_bytes || by repeat constructor|]). by apply tcp_fixed_bytes.
  - apply Forall_app. split; [by repeat constructor|done].
  - exists 14%nat. unfold tcp_fixed. len.
  - unfold tcp_fixed. len.
Qed.

(** ** Longest prefix *)

Definition better (r r' : RouteEntry) : Prop := prefix_len r' < prefix_len r \/ (prefix_len r' = prefix_len r /\ metric r <= metric r').

Definition best_of (target : bytes) (l : list RouteEntry) (b : lpm) : Prop :=
  (b = mkLpm None (-1) 0xFFFF /\ filter (fun r => route_matches target r = true) l = []) \/
  exists r, r ∈ l /\ route_matches target r = true /\ b = mkLpm (Some (iface r, gateway r)) (prefix_len r) (metric r) /\
    forall r', r' ∈ l -> route_matches target r' = true -> better r r'.

Lemma prefix_len_nonneg r : 0 <= prefix_len r.
Proof.
  unfold prefix_len. induction (netmask r) as [|x l IH]; cbn; [lia|]. enough (0 <= count_ones x) by lia.
  unfold count_ones. induction (range 0 8) as [|i k IHk]; cbn; [lia|]. destruct (Z.testbit x i); cbn; lia.
Qed.

Lemma consider_best target l r b : best_of target l b -> best_of target (l ++ [r]) (consider target b r).
Proof.
  intros Hb. unfold consider. destruct (route_matches target r) eqn:Em.
  - assert (forall b', (forall r', r' ∈ l -> route_matches target r' = true -> better r r') -> b' = mkLpm (Some (iface r, gateway r)) (prefix_len r) (metric r) -> best_of target (l ++ [r]) b') as Htake.
    { intros b' Hall ->. right. exists r. split; [set_solver|]. split; [done|]. split; [done|]. intros r' Hr' Hm'.
      apply elem_of_app in Hr' as [Hr'|Hr']; [by apply Hall|]. apply list_elem_of_singleton in Hr' as ->. right. lia. }
    destruct Hb as [[-> Hf]|(r0 & Hin & Hm0 & -> & Hall)]; cbn [best_prefix_len best_metric].
    + pose proof (prefix_len_nonneg r). rewrite (proj2 (Z.ltb_lt _ _)) by lia. cbn [orb]. apply Htake; [|done]. intros r' Hr' Hm'.
      exfalso. assert (r' ∈ filter (fun r => route_matches target r = true) l) as Hx by by apply list_elem_of_filter. rewrite Hf in Hx. by apply not_elem_of_nil in Hx.
    + destruct (_ || _) eqn:Ec.
      * apply Htake; [|done]. intros r' Hr' Hm'. specialize (Hall r' Hr' Hm'). unfold better in *.
        apply orb_true_iff in Ec as [Ec|Ec]; [apply Z.ltb_lt in Ec; lia|]. apply andb_true_iff in Ec as [E1 E2]. apply Z.eqb_eq in E1. apply Z.ltb_lt in E2. lia.
      * right. exists r0. split; [set_solver|]. split; [done|]. split; [done|]. intros r' Hr' Hm'. apply elem_of_app in Hr' as [Hr'|Hr']; [by apply Hall|].
        apply list_elem_of_singleton in Hr' as ->. unfold better. apply orb_false_iff in Ec as [E1 E2]. apply Z.ltb_ge in E1. apply andb_false_iff in E2 as [E2|E2]; [apply Z.eqb_neq in E2; lia|apply Z.ltb_ge in E2; lia].
  - destruct Hb as [[-> Hf]|(r0 & Hin & Hm0 & -> & Hall)].
    + left. split; [done|]. rewrite filter_app, Hf, filter_cons_False by congruence. done.
    + right. exists r0. split; [set_solver|]. split; [done|]. split; [done|]. intros r' Hr' Hm'. apply elem_of_app in Hr' as [Hr'|Hr']; [by apply Hall|].
      apply list_elem_of_singleton in Hr' as ->. congruence.
Qed.

Lemma lookup_best target l : best_of target l (foldl (consider target) (mkLpm None (-1) 0xFFFF) l).
Proof. induction l as [|r l IH] using rev_ind; [by left|]. rewrite foldl_app. by apply consider_best. Qed.

(** Routing is by longest prefix: [lookup] answers exactly when some route of the table matches the
    address, and then with the interface and gateway of a matching route that no other matching route
    beats, by a longer prefix or by the same prefix and a smaller metric. *)
Theorem lookup_longest_prefix t target :
  let candidates := filter (fun r => route_matches target r = true) (take (count t) (routes t)) in
  match route_lookup t target with
  | None => candidates = []
  | Some hop => exists r, r ∈ candidates /\ hop = (iface r, gateway r) /\ forall r', r' ∈ candidates -> better r r'
  end.
Proof.
  cbv zeta. unfold route_lookup. destruct (lookup_best target (take (count t) (routes t))) as [[-> Hf]|(r & Hin & Hm & -> & Hall)]; [done|].
  cbn [best_match]. exists r. split; [by apply list_elem_of_filter|]. split; [done|]. intros r' [Hm' Hr']%list_elem_of_filter. by apply Hall.
Qed.

(** ** DNS messages *)

(** A name on the wire: labels, then the root or a pointer to an earlier name. *)
Inductive name_tail := Root | Pointer (hi lo : Z).

Definition enc_label (l : bytes) : bytes := Z.of_nat (length l) :: l.
Definition enc_tail (t : name_tail) : bytes := match t with Root => [0] | Pointer hi lo => [hi; lo] end.
Definition enc_name (ls : list bytes) (t : name_tail) : bytes := concat (enc_label <$> ls) ++ enc_tail t.

Definition label_ok (l : bytes) : Prop := (1 <= length l <= 63)%nat.
Definition tail_ok (t : name_tail) : Prop := match t with Root => True | Pointer hi _ => 0xC0 <= hi < 256 end.

Lemma pointer_bits b : 0xC0 <= b < 256 -> Z.land b 0xC0 = 0xC0.
Proof.
  intros Hb. assert (forallb (fun x => Z.land x 0xC0 =? 0xC0) (range 0xC0 256) = true) as H by by vm_compute.
  rewrite forallb_forall in H. apply Z.eqb_eq, H, list_elem_of_In, elem_of_range. lia.
Qed.
Lemma label_bits b : 0 <= b < 64 -> Z.land b 0xC0 = 0.
Proof.
  intros Hb. assert (forallb (fun x => Z.land x 0xC0 =? 0) (range 0 64) = true) as H by by vm_compute.
  rewrite forallb_forall in H. apply Z.eqb_eq, H, list_elem_of_In, elem_of_range. lia.
Qed.

Lemma enc_name_cons l ls t : enc_name (l :: ls) t = enc_label l ++ enc_name ls t.
Proof. unfold enc_name. by rewrite fmap_cons, concat_cons, <- app_assoc. Qed.

Lemma name_end_spec t post ls : Forall label_ok ls -> tail_ok t -> forall fuel pre, (length ls < fuel)%nat ->
  name_end fuel (pre ++ enc_name ls t ++ post) (length pre) = Some (length pre + length (enc_name ls t))%nat.
Proof.
  intros Hls Ht. induction Hls as [|l ls Hl Hls IH]; intros fuel pre Hf; (destruct fuel as [|fuel]; [cbn in Hf; lia|]); cbn [name_end].
  - unfold enc_name. cbn [fmap list_fmap concat app]. destruct t as [|hi lo]; cbn [enc_tail app].
    + by rewrite list_lookup_middle.
    + rewrite list_lookup_middle by done. cbn in Ht. rewrite (proj2 (Z.eqb_neq _ _)), pointer_bits by lia. done.
  - assert (pre ++ enc_name (l :: ls) t ++ post = (pre ++ enc_label l) ++ enc_name ls t ++ post) as E.
    { by rewrite enc_name_cons, <- !app_assoc. }
    assert ((pre ++ enc_name (l :: ls) t ++ post) !! length pre = Some (Z.of_nat (length l))) as ->.
    { rewrite enc_name_cons. by apply list_lookup_middle. }
    unfold label_ok in Hl. rewrite (proj2 (Z.eqb_neq _ _)), label_bits by lia. change (0 =? 0xC0) with false. cbv iota.
    rewrite Nat2Z.id, E. cbn [length] in Hf. specialize (IH fuel (pre ++ enc_label l) ltac:(lia)).
    rewrite length_app in IH. cbn [enc_label length] in IH. replace (length pre + 1 + length l)%nat with (length pre + S (length l))%nat by lia.
    rewrite IH, enc_name_cons, length_app. cbn [enc_label length]. f_equal. lia.
Qed.

Lemma enc_name_longer ls t : (length ls < length (enc_name ls t))%nat.
Proof.
  unfold enc_name. rewrite length_app. assert (0 < length (enc_tail t))%nat by (destruct t; cbn; lia).
  enough (length ls <= length (concat (enc_label <$> ls)))%nat by lia. induction ls as [|l ls IH]; [done|]. cbn. rewrite length_app. lia.
Qed.

Lemma dns_name_len_spec pre ls t post : Forall label_ok ls -> tail_ok t ->
  dns_name_len (pre ++ enc_name ls t ++ post) (length pre) = Some (length (enc_name ls t)).
Proof.
  intros. unfold dns_name_len. pose proof (enc_name_longer ls t). rewrite name_end_spec by (done || rewrite !length_app; lia).
  cbn [mbind option_bind]. f_equal. lia.
Qed.

(** A resource record: its name, its type, class and time to live, its data. *)
Record RR := mkRR { rr_name : list bytes; rr_tail : name_tail; rr_type : Z; rr_class_ttl : bytes; rr_data : bytes }.

Record rr_ok (r : RR) : Prop := {
  rr_labels : Forall label_ok (rr_name r); rr_tail_ok : tail_ok (rr_tail r); rr_type_ok : in_width 16 (rr_type r);
  rr_class_len : length (rr_class_ttl r) = 6%nat; rr_data_len : Z.of_nat (length (rr_data r)) < 2 ^ 16 }.

Definition enc_rr (r : RR) : bytes :=
  enc_name (rr_name r) (rr_tail r) ++ be16 (rr_type r) ++ rr_class_ttl r ++ be16 (Z.of_nat (length (rr_data r))) ++ rr_data r.

Definition is_A (r : RR) : Prop := rr_type r = 1 /\ length (rr_data r) = 4%nat.
#[global] Instance is_A_dec r : Decision (is_A r).
Proof. unfold is_A. apply _. Defined.

(** The address a resolver is after. *)
Definition first_A (rrs : list RR) : option bytes := rr_data ∘ snd <$> list_find is_A rrs.

Lemma first_A_cons r rrs : first_A (r :: rrs) = if decide (is_A r) then Some (rr_data r) else first_A rrs.
Proof. unfold first_A. cbn [list_find]. case_decide; [done|]. by destruct (list_find is_A rrs) as [[]|]. Qed.

Lemma dns_answers_spec post rrs : Forall rr_ok rrs -> forall pre,
  dns_answers (length rrs) (pre ++ concat (enc_rr <$> rrs) ++ post) (length pre) = Some (first_A rrs).
Proof.
  induction 1 as [|r rrs [Hls Ht Hty Hc Hd] _ IH]; intros pre; [done|]. rewrite first_A_cons. cbn [fmap list_fmap concat length dns_answers].
  set (nm := enc_name (rr_name r) (rr_tail r)). set (tl := concat (enc_rr <$> rrs) ++ post).
  assert (pre ++ (enc_rr r ++ concat (enc_rr <$> rrs)) ++ post = pre ++ nm ++ be16 (rr_type r) ++ rr_class_ttl r ++ be16 (Z.of_nat (length (rr_data r))) ++ rr_data r ++ tl) as E.
  { unfold enc_rr, tl, nm. by rewrite <- !app_assoc. }
  rewrite E. set (msg := pre ++ nm ++ _).
  assert (length msg = length pre + length nm + 10 + length (rr_data r) + length tl)%nat as HL by (unfold msg; rewrite !length_app; cbn [length be16]; lia).
  assert (0 < length nm)%nat by (unfold nm; pose proof (enc_name_longer (rr_name r) (rr_tail r)); lia).
  rewrite (proj2 (Nat.ltb_ge _ _)) by lia. 
  assert (dns_name_len msg (length pre) = Some (length nm)) as -> by by apply dns_name_len_spec. cbn [mbind option_bind].
  rewrite (proj2 (Nat.ltb_ge _ _)) by lia.
  assert (r16 msg (length pre + length nm) = Some (rr_type r)) as ->.
  { unfold msg. rewrite (app_assoc pre). apply r16_be16; [by rewrite length_app|done]. }
  assert (r16 msg (length pre + length nm + 8) = Some (Z.of_nat (length (rr_data r)))) as ->.
  { unfold msg. rewrite (app_assoc pre), (app_assoc _ (be16 (rr_type r))), (app_assoc _ (rr_class_ttl r)).
    apply r16_be16; [rewrite !length_app, Hc; cbn [length be16]; lia|red; lia]. }
  cbn [mbind option_bind]. rewrite Nat2Z.id, (proj2 (Nat.ltb_ge _ _)) by lia.
  assert (rslice msg (length pre + length nm + 10) (length (rr_data r)) = Some (rr_data r)) as Er.
  { unfold msg. rewrite (app_assoc pre), (app_assoc _ (be16 (rr_type r))), (app_assoc _ (rr_class_ttl r)), (app_assoc _ (be16 (Z.of_nat _))).
    apply rslice_app; [rewrite !length_app, Hc; cbn [length be16]; lia|done]. }
  case_decide as HA.
  - destruct HA as [H1 H4]. assert ((rr_type r =? 1) && (Z.of_nat (length (rr_data r)) =? 4) = true) as -> by by rewrite H1, H4.
    rewrite H4 in Er. by rewrite Er.
  - assert ((rr_type r =? 1) && (Z.of_nat (length (rr_data r)) =? 4) = false) as ->.
    { apply not_true_is_false. intros [H1%Z.eqb_eq H2%Z.eqb_eq]%andb_true_iff. apply HA. split; [done|lia]. }
    specialize (IH (pre ++ enc_rr r)). rewrite <- IH. f_equal.
    + unfold msg, enc_rr, tl. by rewrite <- !app_assoc.
    + unfold enc_rr. rewrite !length_app, Hc. fold nm. cbn [length be16]. lia.
Qed.

Definition dns_message (id flags qd ns ar : Z) (qname : list bytes) (qtail : name_tail) (qtype : bytes) (rrs : list RR) (post : bytes) : bytes :=
  be16 id ++ be16 flags ++ be16 qd ++ be16 (Z.of_nat (length rrs)) ++ be16 ns ++ be16 ar ++
  enc_name qname qtail ++ qtype ++ concat (enc_rr <$> rrs) ++ post.

(** C37. The resolver finds the address: of a response to the query with this [id] that reports no error, with any
    question, any records (compressed names, aliases and other types included) and anything after them,
    [dns_parse_response] returns the data of the first address record, and nothing if there is none. *)
Theorem dns_response_exact id flags qd ns ar qname qtail qtype rrs post :
  in_width 16 id -> in_width 16 flags -> Z.land flags 0x8000 <> 0 -> Z.land flags 0x000F = 0 -> Forall label_ok qname -> tail_ok qtail ->
  length qtype = 4%nat -> Forall rr_ok rrs -> Z.of_nat (length rrs) < 2 ^ 16 ->
  dns_parse_response (dns_message id flags qd ns ar qname qtail qtype rrs post) id = Some (first_A rrs).
Proof.
  intros Hid Hfl Hqr Hrc Hq Hqt Hty Hrr Hn. unfold dns_parse_response, dns_message.
  set (body := enc_name qname qtail ++ qtype ++ concat (enc_rr <$> rrs) ++ post). set (msg := be16 id ++ _).
  rewrite (proj2 (Nat.ltb_ge _ _)) by (unfold msg; rewrite !length_app; cbn [length be16]; lia).
  assert (r16 msg 0 = Some id) as -> by by apply (r16_be16 []). assert (r16 msg 2 = Some flags) as -> by by apply (r16_be16 (be16 id)).
  assert (r16 msg 6 = Some (Z.of_nat (length rrs))) as -> by (apply (r16_be16 (be16 id ++ be16 flags ++ be16 qd)); [done|red; lia]).
  cbn [mbind option_bind]. rewrite Z.eqb_refl, Hrc, (proj2 (Z.eqb_neq _ _) Hqr). change (negb true) with false. change (negb (0 =? 0)) with false. cbv iota.
  destruct (Z.eqb_spec (Z.of_nat (length rrs)) 0) as [Hz|Hz]; [by destruct rrs|].
  set (hdr := be16 id ++ be16 flags ++ be16 qd ++ be16 (Z.of_nat (length rrs)) ++ be16 ns ++ be16 ar).
  assert (dns_name_len msg 12 = Some (length (enc_name qname qtail))) as ->.
  { change msg with (hdr ++ body). apply (dns_name_len_spec hdr); done. }
  cbn [mbind option_bind]. rewrite Nat2Z.id.
  pose proof (dns_answers_spec post rrs Hrr (hdr ++ enc_name qname qtail ++ qtype)) as H. rewrite !length_app, Hty in H.
  change (length hdr) with 12%nat in H.
  replace (12 + length (enc_name qname qtail) + 4)%nat with (12 + (length (enc_name qname qtail) + 4))%nat by lia. rewrite <- H.
  change msg with (hdr ++ body). unfold body. by rewrite <- !app_assoc.
Qed.

(** ** Totality *)

Lemma name_end_total msg : forall fuel i, (length msg < fuel + i)%nat -> (0 < fuel)%nat -> exists e, name_end fuel msg i = Some e /\ (i <= e)%nat.
Proof.
  induction fuel as [|fuel IH]; intros i Hf Hp; [lia|]. cbn [name_end]. destruct (msg !! i) as [b|] eqn:E; [|by exists i].
  apply lookup_lt_Some in E. destruct (b =? 0); [eexists; split; [done|lia]|]. destruct (_ =? 0xC0); [eexists; split; [done|lia]|].
  destruct (IH (i + 1 + Z.to_nat b)%nat) as (e & He & Hle); [lia|lia|]. exists e. split; [done|lia].
Qed.

Lemma dns_name_len_total msg off : exists n, dns_name_len msg off = Some n.
Proof. unfold dns_name_len. destruct (name_end_total msg (S (length msg)) off) as (e & -> & _); [lia..|]. by eexists. Qed.

Lemma r16_total b off : (S off < length b)%nat -> exists v, r16 b off = Some v.
Proof.
  intros H. unfold r16. destruct (lookup_lt_is_Some_2 b off) as [x ->]; [lia|]. destruct (lookup_lt_is_Some_2 b (S off)) as [y ->]; [lia|].
  by eexists.
Qed.

Lemma r32_total b off : (off + 3 < length b)%nat -> exists v, r32 b off = Some v.
Proof.
  intros H. unfold r32. destruct (lookup_lt_is_Some_2 b off) as [x0 ->]; [lia|]. destruct (lookup_lt_is_Some_2 b (off + 1)) as [x1 ->]; [lia|].
  destruct (lookup_lt_is_Some_2 b (off + 2)) as [x2 ->]; [lia|]. destruct (lookup_lt_is_Some_2 b (off + 3)) as [x3 ->]; [lia|]. by eexists.
Qed.

Lemma rslice_total {A} (b : list A) off n : (off + n <= length b)%nat -> exists r, rslice b off n = Some r /\ length r = n.
Proof. intros H. unfold rslice. rewrite decide_True by done. eexists. split; [done|]. rewrite length_take, length_drop. lia. Qed.

Lemma dns_answers_total msg : forall n off, exists r, dns_answers n msg off = Some r.
Proof.
  induction n as [|n IH]; intros off; cbn [dns_answers]; [by eexists|]. case_match eqn:E1; [by eexists|].
  destruct (dns_name_len_total msg off) as [k ->]. cbn [mbind option_bind]. case_match eqn:E2; [by eexists|]. apply Nat.ltb_ge in E2.
  destruct (r16_total msg (off + k)) as [ty ->]; [lia|]. destruct (r16_total msg (off + k + 8)) as [dl ->]; [lia|]. cbn [mbind option_bind].
  case_match eqn:E3; [by eexists|]. apply Nat.ltb_ge in E3. case_match eqn:E4; [|apply IH].
  apply andb_true_iff in E4 as [_ ->%Z.eqb_eq]. destruct (rslice_total msg (off + k + 10) 4) as (r & -> & _); [cbn in E3; lia|]. by eexists.
Qed.

Lemma dns_parse_any msg id : exists r, dns_parse_response msg id = Some r.
Proof.
  unfold dns_parse_response. case_match eqn:E; [by eexists|]. apply Nat.ltb_ge in E.
  destruct (r16_total msg 0) as [i ->]; [lia|]. destruct (r16_total msg 2) as [f ->]; [lia|]. destruct (r16_total msg 6) as [a ->]; [lia|].
  cbn [mbind option_bind]. repeat (case_match; [by eexists|]). destruct (dns_name_len_total msg 12) as [k ->]. apply dns_answers_total.
Qed.

(** No reply can crash the resolver: on any bytes at all [dns_parse_response] comes to an end without reading
    outside the message. *)
Theorem dns_parse_total msg id : exists r, dns_parse_response msg id = Some r.
Proof. apply dns_parse_any. Qed.

Lemma ipv4_parse_total frame : exists r, ipv4_parse frame = Some r /\
  forall p, r = Some p -> (payload_off p + payload_len p <= length frame)%nat /\ (ETH_HDR_LEN + IPV4_HDR_LEN <= length frame)%nat /\ length (ip_src p) = 4%nat.
Proof.
  unfold ipv4_parse. case_match eqn:E; [by eexists|]. apply Nat.ltb_ge in E. set (ip := drop ETH_HDR_LEN frame).
  assert (20 <= length ip)%nat by (unfold ip; rewrite length_drop; unfold IPV4_HDR_LEN in E; lia).
  destruct (lookup_lt_is_Some_2 ip 0) as [x ->]; [lia|]. cbn [mbind option_bind]. case_match; [by eexists|].
  destruct (rslice_total ip 0 IPV4_HDR_LEN) as (h & -> & _); [done|]. cbn [mbind option_bind]. case_match; [by eexists|].
  destruct (r16_total ip 2) as [t ->]; [lia|]. destruct (rslice_total ip 12 4) as (s & -> & Hs); [lia|]. destruct (rslice_total ip 16 4) as (d & -> & _); [lia|].
  destruct (lookup_lt_is_Some_2 ip 9) as [p ->]; [lia|]. cbn [mbind option_bind]. eexists. split; [done|]. intros ? [= <-]. cbn [payload_off payload_len ip_src].
  split; [|done]. unfold ETH_HDR_LEN, IPV4_HDR_LEN in *. lia.
Qed.

Lemma tcp_parse_total seg : exists r, tcp_parse seg = Some r.
Proof.
  unfold tcp_parse. case_match eqn:E; [by eexists|]. apply Nat.ltb_ge in E. unfold TCP_HDR_LEN in E.
  destruct (r16_total seg 0) as [a ->]; [lia|]. destruct (r16_total seg 2) as [b ->]; [lia|]. destruct (r32_total seg 4) as [c ->]; [lia|].
  destruct (r32_total seg 8) as [d ->]; [lia|]. destruct (lookup_lt_is_Some_2 seg 12) as [o ->]; [lia|]. destruct (lookup_lt_is_Some_2 seg 13) as [f ->]; [lia|].
  cbn [mbind option_bind]. case_match; by eexists.
Qed.

(** ** Queries *)

Fixpoint split_dots (cur s : bytes) : list bytes :=
  match s with
  | [] => [cur]
  | c :: s => if decide (c = dot) then cur :: split_dots [] s else split_dots (cur ++ [c]) s
  end.

(** The labels of a host name. *)
Definition labels (host : bytes) : list bytes := split_dots [] host.

Lemma label_step_eq host b i label_start pos : label_step host (b, i, label_start) pos =
  if bool_decide (pos = length host) || bool_decide (host !! pos = Some dot) then
    label ← rslice host label_start (pos - label_start);
    b ← wbyte b i (u8 (Z.of_nat (length label)));
    b ← copy_bytes b (S i) (length label) label;
    Some (b, S i + length label, S pos)%nat
  else Some (b, i, label_start).
Proof. done. Qed.

Lemma label_loop rest : forall b i pre cur, let host := pre ++ cur ++ rest in
  Forall (fun l => Z.of_nat (length l) < 256) (split_dots cur rest) ->
  foldM (label_step host) (b, i, length pre) (seq (length pre + length cur) (S (length rest))) =
  (b ← wslice b i (concat (enc_label <$> split_dots cur rest));
   Some (b, i + length (concat (enc_label <$> split_dots cur rest)), S (length host))%nat).
Proof.
  assert (forall host b i pre cur tl, host = pre ++ cur ++ tl -> Z.of_nat (length cur) < 256 ->
    (label ← rslice host (length pre) (length pre + length cur - length pre);
     b ← wbyte b i (u8 (Z.of_nat (length label))); b ← copy_bytes b (S i) (length label) label; Some (b, S i + length label, S (length pre + length cur))%nat) =
    (b ← wslice b i (enc_label cur); Some (b, i + length (enc_label cur), S (length pre + length cur))%nat)) as Hstep.
  { intros host b i pre cur tl -> Hc. rewrite (rslice_app pre cur tl) by lia. cbn [mbind option_bind]. rewrite wbyte_wslice, wrap_small by (red; lia).
    rewrite copy_bind by (done || cbn [length]; lia). cbn [app]. change (Z.of_nat (length cur) :: cur) with (enc_label cur).
    destruct (wslice b i (enc_label cur)); [|done]. cbn [mbind option_bind]. cbn [enc_label length]. do 3 f_equal. lia. }
  induction rest as [|c rest IH]; intros b i pre cur host HF; cbn [split_dots] in *.
  - apply Forall_cons in HF as [Hc _]. cbn [length seq foldM]. rewrite label_step_eq.
    rewrite bool_decide_eq_true_2 by (unfold host; rewrite !length_app; cbn [length]; lia). cbn [orb].
    rewrite (Hstep host b i pre cur []) by done. cbn [fmap list_fmap concat]. rewrite app_nil_r.
    destruct (wslice b i (enc_label cur)); [|done]. cbn [mbind option_bind]. unfold host. rewrite !length_app. cbn [length]. by rewrite Nat.add_0_r.
  - cbn [length]. rewrite <- cons_seq. cbn [foldM]. rewrite label_step_eq.
    rewrite bool_decide_eq_false_2 by (unfold host; rewrite !length_app; cbn [length]; lia). cbn [orb].
    assert (host !! (length pre + length cur)%nat = Some c) as ->.
    { unfold host. rewrite app_assoc, <- length_app. by apply list_lookup_middle. }
    case_decide as Hd.
    + subst c. apply Forall_cons in HF as [Hc HF]. rewrite bool_decide_eq_true_2 by done. rewrite (Hstep host b i pre cur (dot :: rest)) by done.
      rewrite fmap_cons, concat_cons. set (L := concat (enc_label <$> split_dots [] rest)) in *. rewrite <- (wslice_bind b i (i + length (enc_label cur)) (enc_label cur) L) by done.
      destruct (wslice b i (enc_label cur)) as [r|]; [|done]. cbn [mbind option_bind].
      specialize (IH r (i + length (enc_label cur))%nat (pre ++ cur ++ [dot]) []). fold L in IH. cbn [app length] in IH. rewrite !length_app in IH. cbn [length] in IH.
      replace (length pre + (length cur + 1) + 0)%nat with (S (length pre + length cur)) in IH by lia. replace (length pre + (length cur + 1))%nat with (S (length pre + length cur)) in IH by lia.
      replace ((pre ++ cur ++ [dot]) ++ rest) with host in IH by (unfold host; by rewrite <- !app_assoc). rewrite IH by done.
      destruct (wslice r _ L); [|done]. cbn [mbind option_bind]. rewrite length_app. do 3 f_equal; [lia|]. unfold host. rewrite !length_app. cbn [length]. lia.
    + rewrite bool_decide_eq_false_2 by congruence. cbn [mbind option_bind].
      specialize (IH b i pre (cur ++ [c])). rewrite length_app in IH. cbn [length] in IH. rewrite <- app_assoc in IH. change ([c] ++ rest) with (c :: rest) in IH. fold host in IH.
      replace (length pre + (length cur + 1))%nat with (S (length pre + length cur)) in IH by lia. by apply IH.
Qed.

Definition dns_query (id : Z) (host : bytes) : bytes :=
  be16 id ++ [0x01; 0x00; 0x00; 0x01; 0x00; 0x00; 0x00; 0x00; 0x00; 0x00] ++ enc_name (labels host) Root ++ [0x00; 0x01; 0x00; 0x01].

Lemma dns_build_query_spec b id host : Forall (fun l => Z.of_nat (length l) < 256) (labels host) ->
  dns_build_query b id host = (b ← wslice b 0 (dns_query id host); Some (b, length (dns_query id host))).
Proof.
  intros HF. unfold dns_build_query, w16. fold (be16 id). pieces. rewrite <- !app_assoc. cbn [app].
  set (hdr := be16 id ++ [0x01; 0x00; 0x00; 0x01; 0x00; 0x00; 0x00; 0x00; 0x00; 0x00]). set (L := concat (enc_label <$> labels host)).
  assert (dns_query id host = hdr ++ L ++ [0x00] ++ [0x00; 0x01] ++ [0x00; 0x01]) as -> by (unfold dns_query, enc_name, hdr, L; rewrite <- !app_assoc; done).
  rewrite <- (wslice_bind b 0 12 hdr) by done. destruct (wslice b 0 hdr) as [r|]; cbn [mbind option_bind]; [|done].
  pose proof (label_loop host r 12 [] [] HF) as H. cbn [app length Nat.add] in H. fold (labels host) in H. fold L in H. rewrite H.
  rewrite <- (wslice_bind r 12 (12 + length L) L) by done. destruct (wslice r 12 L) as [r2|]; cbn [mbind option_bind]; [|done].
  rewrite wbyte_wslice. pieces. rewrite <- !app_assoc. cbn [app]. destruct (wslice r2 _ _); [|done]. cbn [mbind option_bind]. do 2 f_equal.
  rewrite !length_app. change (length hdr) with 12%nat. cbn [length]. lia.
Qed.

(** ** The ARP table *)

(** A free slot, or slot 0: the address just inserted is found, unless an older entry for it comes first. *)
Lemma arp_lookup_insert t ip mac : arp_lookup t ip = None -> (0 < length t)%nat -> arp_lookup (arp_insert t ip mac) ip = Some mac.
Proof.
  unfold ArpTable in *. intros Hn Hl. assert (forall i, (i < length t)%nat -> arp_lookup (<[i := mkSlot ip mac true]> t) ip = Some mac) as H.
  { intros i Hi. unfold arp_lookup. rewrite (proj2 (list_find_Some _ _ i (mkSlot ip mac true))); [done|].
    split; [by apply list_lookup_insert_eq|]. split; [done|]. intros j y Hj Hji. rewrite list_lookup_insert_ne in Hj by lia.
    destruct (list_find (fun s => valid s = true /\ slot_ip s = ip) t) eqn:E; [by unfold arp_lookup in Hn; rewrite E in Hn|].
    apply list_find_None in E. by apply (proj1 (Forall_lookup _ _) E j). }
  unfold arp_insert. destruct (list_find _ t) as [[i s]|] eqn:E; [|by apply H]. apply list_find_Some in E as [E _]. apply H. by eapply lookup_lt_Some.
Qed.

(** ** Witnesses *)

Module PacketWitness.

Definition eth : bytes := eth_header (replicate 6 2) (replicate 6 1) ETHERTYPE_IPV4.
Definition peer : bytes := [93; 184; 215; 14].

Lemma our_ip_ok : ip_ok OUR_IP.
Proof. split; [done|]. by repeat constructor. Qed.
Lemma peer_ok : ip_ok peer.
Proof. split; [done|]. by repeat constructor. Qed.

(** The header of the ping the boot self-check sends, followed by its padding. *)
Lemma ipv4_roundtrip_witness :
  ipv4_parse (eth ++ ipv4_header OUR_IP GATEWAY_IP PROTO_ICMP 8 1 ++ [8; 0; 0; 0; 1; 2; 0; 1] ++ replicate 18 0) =
  Some (Some (mkIpv4 OUR_IP GATEWAY_IP 1 34 8)).
Proof. apply (ipv4_roundtrip eth OUR_IP GATEWAY_IP 1 1 [8; 0; 0; 0; 1; 2; 0; 1] (replicate 18 0)); [done|apply our_ip_ok|split; [done|by repeat constructor]|done|done]. Defined.

(** The time to live of the same header, decremented without a new checksum. *)
Lemma corruption_witness : let frame := eth ++ ipv4_header OUR_IP GATEWAY_IP PROTO_ICMP 0 1 in
  frame !! 22%nat = Some 64 /\ ipv4_parse (<[22%nat := 63]> frame) = Some None.
Proof.
  split; [done|]. apply (ipv4_rejects_corruption _ 22 63 64 (mkIpv4 OUR_IP GATEWAY_IP 1 34 0)); try done.
  - apply (bool_decide_unpack _). by vm_compute.
  - unfold ETH_HDR_LEN, IPV4_HDR_LEN. lia.
Defined.

(** The first segment of a connection to port 80. *)
Lemma segment_witness : let seg := tcp_segment OUR_IP peer 53000 80 0x12345678 0 TCP_FLAG_SYN [] in
  seg !! 13%nat = Some 2 /\ tcp_parse seg = Some (Some (mkTcp 53000 80 0x12345678 0 2 [])) /\ checksum16 (rfc_pseudo OUR_IP peer PROTO_TCP seg) = 0.
Proof.
  split; [by vm_compute|].
  destruct (tcp_segment_valid OUR_IP peer 53000 80 0x12345678 0 TCP_FLAG_SYN [] our_ip_ok peer_ok ltac:(red; lia) ltac:(red; lia) ltac:(red; lia) ltac:(red; lia)
    ltac:(by unfold is_byte, TCP_FLAG_SYN) ltac:(constructor)) as [H1 H2].
  exact (conj H1 (H2 ltac:(cbn; lia))).
Defined.

(** The stack sums at most 256 bytes of a segment: the checksum of a longer one is wrong. *)
Lemma long_segment_checksum_wrong :
  checksum16 (rfc_pseudo OUR_IP peer PROTO_TCP (tcp_segment OUR_IP peer 53000 80 1 1 (TCP_FLAG_PSH + TCP_FLAG_ACK) (replicate 300 1))) <> 0.
Proof. by vm_compute. Qed.

(** An alias for the name asked for, then its address behind a compressed name. *)
Definition www : bytes := [119; 119; 119].
Definition org : bytes := [111; 114; 103].
Definition alias : RR := mkRR [] (Pointer 0xC0 12) 5 (replicate 6 0) (enc_name [org] Root).
Definition address : RR := mkRR [] (Pointer 0xC0 30) 1 (replicate 6 0) peer.

Lemma dns_witness : dns_parse_response (dns_message 0x444E 0x8180 1 0 0 [www; org] Root [0; 1; 0; 1] [alias; address] []) 0x444E = Some (Some peer).
Proof.
  apply (dns_response_exact 0x444E 0x8180 1 0 0 [www; org] Root [0; 1; 0; 1] [alias; address] []); try done.
  - repeat constructor; cbn; lia.
  - repeat constructor; cbn; try lia; done.
Defined.

(** A changed hardware address is not taken up while an old entry is there. *)
Lemma arp_keeps_stale : let t := arp_insert (arp_insert arp_new GATEWAY_IP (replicate 6 1)) GATEWAY_IP (replicate 6 2) in
  arp_lookup t GATEWAY_IP = Some (replicate 6 1).
Proof. done. Qed.

(** The four destinations the boot self-check looks up. *)
Lemma boot_routes :
  route_lookup routes_new [127; 0; 0; 1] = Some (IF_LOOPBACK, None) /\ route_lookup routes_new [10; 0; 2; 15] = Some (IF_ETH0, None) /\
  route_lookup routes_new [192; 168; 1; 50] = Some (IF_WLAN0, None) /\ route_lookup routes_new [8; 8; 8; 8] = Some (IF_ETH0, Some GATEWAY_IP).
Proof. by vm_compute. Qed.

End PacketWitness.
