(* ===== verification/Netstack.v ===== *)
(** * The network stack

    The process [user_rs/netstack_driver/src/main.rs] on top of the formats of
    [Packet]: the receive ring of the card, ARP, ping, name resolution, TCP
    connections, and the requests of the network service.

    The card is what the polls find and what the transmissions do: [RX] is the
    frame each successive poll of the receive ring finds, or [None] when it finds
    the ring empty (a schedule that has run out finds it empty for ever); [TX_OK]
    is whether each successive transmission completes within its spin bound; [SENT]
    records the frames handed to the card.  The theorems hold for all schedules.
    [OUR_IP] depends on how the driver is built; it is the argument [our_ip].
    Serial output is not modelled.  A panic is [None]. *)

From S2P Require Import Prelude Bits Packet.

(** ** The card, seen by the stack *)

Record net := mkNet { RX : list (option bytes); TX_OK : list bool; SENT : list (bytes * bool); TXBUF : bytes; ARP : ArpTable }.

Definition FRAME_BUF_SIZE : nat := 2048.

Definition set_rx (rx : list (option bytes)) (s : net) : net := mkNet rx (TX_OK s) (SENT s) (TXBUF s) (ARP s).
Definition set_txbuf (b : bytes) (s : net) : net := mkNet (RX s) (TX_OK s) (SENT s) b (ARP s).
Definition set_arp (t : ArpTable) (s : net) : net := mkNet (RX s) (TX_OK s) (SENT s) (TXBUF s) t.

Definition NetM (A : Type) : Type := net -> option (net * A).
#[global] Instance net_ret : MRet NetM := fun A a s => Some (s, a).
#[global] Instance net_bind : MBind NetM := fun A B f m s => '(s, a) ← m s; f a s.

Definition lift {A} (x : option A) : NetM A := fun s => a ← x; Some (s, a).
Definition get_arp : NetM ArpTable := fun s => Some (s, ARP s).
Definition put_arp (t : ArpTable) : NetM unit := fun s => Some (set_arp t s, tt).

(** A builder run on the transmit buffer. *)
Definition build (f : bytes -> option (bytes * nat)) : NetM nat := fun s => '(b, n) ← f (TXBUF s); Some (set_txbuf b s, n).

Definition tx_frame (len : nat) : NetM bool := fun s =>
  let completed := default true (head (TX_OK s)) in
  Some (mkNet (RX s) (tail (TX_OK s)) (SENT s ++ [(take (Z.to_nat (u16 (Z.of_nat len))) (TXBUF s), completed)]) (TXBUF s) (ARP s), completed).

Definition rx_poll_one : NetM (option bytes) := fun s =>
  match RX s with [] => Some (s, None) | ev :: rx => Some (set_rx rx s, ev) end.

(** ** Waiting loops *)

(** What a round of a loop does: return, go round again, or go round again without counting the round. *)
Inductive verdict (A : Type) := Done (a : A) | Again | Free.
Arguments Done {A} a.
Arguments Again {A}.
Arguments Free {A}.

(** [while spins < left { ...rx_poll_one...; spins += 1 }]: the body gets what the poll found.  Once the schedule has
    run out every round is the same, and the loop runs to its limit.  A [Free] round ([continue] before [spins += 1], in
    [tcp_accept] only) leaves the limit as it is: while the schedule lasts nothing ends a run of them. *)
Fixpoint spin_on {A} (body : option bytes -> NetM (verdict A)) (rx : list (option bytes)) (left : Z) (s : net) : option (net * option A) :=
  if left <=? 0 then Some (set_rx rx s, None) else
  match rx with
  | [] => '(s, v) ← body None (set_rx [] s); Some (s, match v with Done a => Some a | _ => None end)
  | ev :: rx =>
      '(s, v) ← body ev (set_rx rx s);
      match v with
      | Done a => Some (s, Some a)
      | Again => spin_on body rx (left - 1) s
      | Free => spin_on body rx left s
      end
  end.

Definition spin {A} (body : option bytes -> NetM (verdict A)) (max_spins : Z) : NetM (option A) := fun s => spin_on body (RX s) max_spins s.

(** [for _attempt in 0..n]: a body that returns ends the loop. *)
Fixpoint attempts {A} (n : nat) (body : NetM (option A)) : NetM (option A) :=
  match n with
  | O => mret None
  | S n => r ← body; match r with Some a => mret (Some a) | None => attempts n body end
  end.

(** ** Connections *)

Inductive TcpState := Closed | SynSent | Established | FinWait1 | FinWait2 | Closed2.
#[global] Instance TcpState_eq_dec : EqDecision TcpState.
Proof. solve_decision. Defined.

Record TcpConn := mkConn {
  state : TcpState; local_port : Z; remote_ip : bytes; remote_port : Z; remote_mac : bytes; send_next : Z; recv_next : Z }.

Definition set_state (st : TcpState) (c : TcpConn) : TcpConn :=
  mkConn st (local_port c) (remote_ip c) (remote_port c) (remote_mac c) (send_next c) (recv_next c).
Definition set_send_next (n : Z) (c : TcpConn) : TcpConn :=
  mkConn (state c) (local_port c) (remote_ip c) (remote_port c) (remote_mac c) n (recv_next c).
Definition set_recv_next (n : Z) (c : TcpConn) : TcpConn :=
  mkConn (state c) (local_port c) (remote_ip c) (remote_port c) (remote_mac c) (send_next c) n.

Definition has_flag (flags mask : Z) : bool := negb (Z.land flags mask =? 0).

(** The TCP segment of a frame: [ipv4_parse], the protocol, the length, [tcp_parse]. *)
Definition tcp_of (frame : bytes) : option (option (Ipv4Parsed * TcpParsed)) :=
  parsed ← ipv4_parse frame;
  match parsed with
  | None => Some None
  | Some p =>
      if (proto p =? PROTO_TCP) && (TCP_HDR_LEN <=? payload_len p)%nat then
        seg ← rslice frame (payload_off p) (payload_len p);
        t ← tcp_parse seg;
        Some (match t with Some t => Some (p, t) | None => None end)
      else Some None
  end.

Definition is_arp (frame : bytes) : bool := (14 <=? length frame)%nat && bool_decide (rslice frame 12 2 = Some ETHERTYPE_ARP).

Section stack.
(** This machine's hardware and network address. *)
Context (mac our_ip : bytes).

Definition handle_arp (frame : bytes) : NetM unit :=
  if (length frame <? ETH_HDR_LEN + 28)%nat || negb (is_arp frame) then mret tt else
  let a := drop ETH_HDR_LEN frame in
  oper ← lift (r16 a 6); sender_mac ← lift (rslice a 8 6); sender_ip ← lift (rslice a 14 4);
  table ← get_arp; _ ← put_arp (arp_insert table sender_ip sender_mac);
  if oper =? 1 then
    target_ip ← lift (rslice a 24 4);
    if bool_decide (target_ip = our_ip) then
      len ← build (fun b => arp_build_reply b mac our_ip sender_mac sender_ip); _ ← tx_frame len; mret tt
    else mret tt
  else mret tt.

Definition dispatch_non_ping (frame : bytes) : NetM unit := if is_arp frame then handle_arp frame else mret tt.

(** [poll_and_dispatch], given what its poll found. *)
Definition poll_and_dispatch (ev : option bytes) : NetM unit :=
  match ev with Some frame => if is_arp frame then handle_arp frame else mret tt | None => mret tt end.

Definition arp_resolve (target_ip : bytes) : NetM (option bytes) :=
  table ← get_arp;
  match arp_lookup table target_ip with
  | Some m => mret (Some m)
  | None =>
      attempts 3 (
        len ← build (fun b => arp_build_request b mac our_ip target_ip);
        _ ← tx_frame len;
        spin (fun ev =>
          _ ← poll_and_dispatch ev; table ← get_arp;
          mret (match arp_lookup table target_ip with Some m => Done m | None => Again end)) 20000000)
  end.

(** The four builders of a TCP frame, and its transmission. *)
Definition send_tcp (dst_mac dst_ip : bytes) (src_port dst_port seq ack flags ident : Z) (payload : bytes) : NetM bool :=
  eth_len ← build (fun b => eth_build b dst_mac mac ETHERTYPE_IPV4);
  tcp_len ← build (fun b => tcp_build b (eth_len + IPV4_HDR_LEN) our_ip dst_ip src_port dst_port seq ack flags payload);
  _ ← build (fun b => ipv4_build b eth_len our_ip dst_ip PROTO_TCP tcp_len (u16 ident));
  tx_frame (eth_len + IPV4_HDR_LEN + tcp_len).

Definition send_on (c : TcpConn) (flags ident : Z) (payload : bytes) : NetM bool :=
  send_tcp (remote_mac c) (remote_ip c) (local_port c) (remote_port c) (send_next c) (recv_next c) flags ident payload.

Definition tcp_wait_for (c : TcpConn) (want : TcpParsed -> bool) (max_spins : Z) : NetM (option (Z * Z * nat)) :=
  spin (fun ev =>
    match ev with
    | None => mret Again
    | Some frame =>
        r ← lift (tcp_of frame);
        match r with
        | Some (_, t) =>
            if (t_dst_port t =? local_port c) && (t_src_port t =? remote_port c) && want t then mret (Done (t_seq t, t_flags t, length (t_payload t)))
            else _ ← dispatch_non_ping frame; mret Again
        | None => _ ← dispatch_non_ping frame; mret Again
        end
    end) max_spins.

Definition SERVER_ISN : Z := 0x9ABCDEF0.

Definition tcp_accept (port : Z) (max_spins : Z) : NetM (option TcpConn) :=
  r ← spin (fun ev =>
    match ev with
    | None => mret Again
    | Some frame =>
        r ← lift (tcp_of frame);
        match r with
        | Some (p, t) =>
            if (t_dst_port t =? port) && has_flag (t_flags t) TCP_FLAG_SYN && negb (has_flag (t_flags t) TCP_FLAG_ACK) then
              peer_mac ← lift (rslice frame 6 6);
              let next := u32 (t_seq t + 1) in
              sent ← send_tcp peer_mac (ip_src p) port (t_src_port t) SERVER_ISN next (Z.lor TCP_FLAG_SYN TCP_FLAG_ACK) SERVER_ISN [];
              if negb sent then mret Free else
              let c := mkConn SynSent port (ip_src p) (t_src_port t) peer_mac (u32 (SERVER_ISN + 1)) next in
              acked ← tcp_wait_for c (fun t => has_flag (t_flags t) TCP_FLAG_ACK) 100000000;
              mret (Done (match acked with Some _ => Some (set_state Established c) | None => None end))
            else _ ← dispatch_non_ping frame; mret Again
        | None => _ ← dispatch_non_ping frame; mret Again
        end
    end) max_spins;
  mret (mjoin r).

(** The next hop: the host itself on the local /24, the gateway otherwise. *)
Definition arp_target (ip : bytes) : bytes := if bool_decide (take 3 ip = take 3 our_ip) then ip else GATEWAY_IP.

Definition CLIENT_ISN : Z := 0x12345678.

Definition tcp_connect (dst_ip : bytes) (dst_port src_port : Z) : NetM (option TcpConn) :=
  m ← arp_resolve (arp_target dst_ip);
  match m with
  | None => mret None
  | Some peer_mac =>
      let c := mkConn SynSent src_port dst_ip dst_port peer_mac (u32 (CLIENT_ISN + 1)) 0 in
      r ← attempts 3 (
        sent ← send_tcp peer_mac dst_ip src_port dst_port CLIENT_ISN 0 TCP_FLAG_SYN CLIENT_ISN [];
        if negb sent then mret None else
        r ← tcp_wait_for c (fun t => Z.land (t_flags t) (Z.lor TCP_FLAG_SYN TCP_FLAG_ACK) =? Z.lor TCP_FLAG_SYN TCP_FLAG_ACK) 5000000;
        match r with
        | None => mret None
        | Some (their_seq, flags, _) =>
            if has_flag flags TCP_FLAG_RST then mret (Some None) else
            let c := set_recv_next (u32 (their_seq + 1)) c in
            _ ← send_on c TCP_FLAG_ACK (CLIENT_ISN + 2) [];
            mret (Some (Some (set_state Established c)))
        end);
      mret (mjoin r)
  end.

Definition tcp_send (c : TcpConn) (data : bytes) : NetM (TcpConn * bool) :=
  if negb (bool_decide (state c = Established)) then mret (c, false) else
  let expect_ack := u32 (send_next c + Z.of_nat (length data)) in
  r ← attempts 3 (
    sent ← send_on c (Z.lor TCP_FLAG_PSH TCP_FLAG_ACK) (send_next c) data;
    if negb sent then mret None else
    tcp_wait_for c (fun t => has_flag (t_flags t) TCP_FLAG_ACK && (t_ack t =? expect_ack)) 100000000);
  mret (match r with Some _ => (set_send_next expect_ack c, true) | None => (c, false) end).

(** [out] has room for [cap] bytes; the bytes copied into it are returned. *)
Definition tcp_recv (c : TcpConn) (cap : nat) (max_spins : Z) : NetM (TcpConn * bytes) :=
  r ← spin (fun ev =>
    match ev with
    | None => mret Again
    | Some frame =>
        r ← lift (tcp_of frame);
        match r with
        | Some (_, t) =>
            if (t_dst_port t =? local_port c) && (t_src_port t =? remote_port c) then
              if has_flag (t_flags t) TCP_FLAG_RST then mret (Done (set_state Closed2 c, [])) else
              if negb (bool_decide (t_payload t = [])) && (t_seq t =? recv_next c) then
                let c := set_recv_next (u32 (recv_next c + Z.of_nat (length (t_payload t)))) c in
                _ ← send_on c TCP_FLAG_ACK (send_next c) [];
                mret (Done (c, take cap (t_payload t)))
              else if has_flag (t_flags t) TCP_FLAG_FIN then
                let c := set_recv_next (u32 (t_seq t + 1)) c in
                _ ← send_on c TCP_FLAG_ACK (send_next c) [];
                mret (Done (set_state Closed2 c, []))
              else _ ← dispatch_non_ping frame; mret Again
            else _ ← dispatch_non_ping frame; mret Again
        | None => _ ← dispatch_non_ping frame; mret Again
        end
    end) max_spins;
  mret (default (c, []) r).

Definition tcp_close (c : TcpConn) : NetM TcpConn :=
  if negb (bool_decide (state c = Established)) then mret c else
  let c := set_state FinWait1 c in
  sent ← send_on c (Z.lor TCP_FLAG_FIN TCP_FLAG_ACK) (send_next c) [];
  c ← (if (sent : bool) then
         let c := set_send_next (u32 (send_next c + 1)) c in
         r ← tcp_wait_for c (fun t => has_flag (t_flags t) TCP_FLAG_ACK) 100000000;
         mret (match r with Some _ => set_state FinWait2 c | None => c end)
       else mret c);
  '(c, _) ← tcp_recv c 1 50000000;
  mret (set_state Closed2 c).

(** ** Names and pings *)

Definition dns_resolve (junk : bytes) (hostname : bytes) (id : Z) : NetM (option bytes) :=
  table ← get_arp;
  m ← (match arp_lookup table GATEWAY_IP with Some m => mret (Some m) | None => arp_resolve GATEWAY_IP end);
  match m with
  | None => mret None
  | Some dst_mac =>
      attempts 3 (
        eth_len ← build (fun b => eth_build b dst_mac mac ETHERTYPE_IPV4);
        q ← lift (dns_build_query junk id hostname);
        udp_len ← build (fun b => udp_build b (eth_len + IPV4_HDR_LEN) our_ip DNS_SERVER_IP (u16 (40000 + Z.land id 0xFF)) DNS_PORT (take q.2 q.1));
        _ ← build (fun b => ipv4_build b eth_len our_ip DNS_SERVER_IP PROTO_UDP udp_len id);
        sent ← tx_frame (eth_len + IPV4_HDR_LEN + udp_len);
        if negb (sent : bool) then mret None else
        spin (fun ev =>
          match ev with
          | None => mret Again
          | Some frame =>
              r ← lift (
                parsed ← ipv4_parse frame;
                match parsed with
                | Some p =>
                    if (proto p =? PROTO_UDP) && (UDP_HDR_LEN <=? payload_len p)%nat then
                      udp ← rslice frame (payload_off p) (payload_len p);
                      src_port ← r16 udp 0;
                      if src_port =? DNS_PORT then dns_parse_response (drop UDP_HDR_LEN udp) id else Some None
                    else Some None
                | None => Some None
                end);
              match r with Some ip => mret (Done ip) | None => _ ← dispatch_non_ping frame; mret Again end
          end) 100000000)
  end.

Definition ping (target_ip : bytes) (id seq : Z) : NetM bool :=
  m ← arp_resolve (arp_target target_ip);
  match m with
  | None => mret false
  | Some dst_mac =>
      eth_len ← build (fun b => eth_build b dst_mac mac ETHERTYPE_IPV4);
      icmp_len ← build (fun b => icmp_build_echo_request b (eth_len + IPV4_HDR_LEN) id seq (replicate 32 0xAB));
      _ ← build (fun b => ipv4_build b eth_len our_ip target_ip PROTO_ICMP icmp_len seq);
      sent ← tx_frame (eth_len + IPV4_HDR_LEN + icmp_len);
      if negb (sent : bool) then mret false else
      r ← spin (fun ev =>
        match ev with
        | None => mret Again
        | Some frame =>
            ok ← lift (
              parsed ← ipv4_parse frame;
              match parsed with
              | Some p =>
                  if (proto p =? PROTO_ICMP) && (8 <=? payload_len p)%nat then
                    icmp ← rslice frame (payload_off p) (payload_len p);
                    rid ← r16 icmp 4; rseq ← r16 icmp 6; ty ← icmp !! 0%nat;
                    Some ((ty =? ICMP_ECHO_REPLY) && (rid =? id) && (rseq =? seq))
                  else Some false
              | None => Some false
              end);
            if (ok : bool) then mret (Done tt) else _ ← dispatch_non_ping frame; mret Again
        end) 100000000;
      mret (bool_decide (is_Some r))
  end.

(** ** The network service *)

(** The reading loop: at most [room] more bytes; every round reads one at least. *)
Fixpoint read_response (fuel : nat) (c : TcpConn) (room : nat) : NetM (TcpConn * bytes) :=
  match fuel with
  | O => mret (c, [])
  | S fuel =>
      if bool_decide (room = 0%nat) || bool_decide (state c = Closed2) then mret (c, []) else
      '(c, got) ← tcp_recv c room 20000000;
      if bool_decide (length got = 0%nat) then mret (c, []) else
      '(c, rest) ← read_response fuel c (room - length got);
      mret (c, got ++ rest)
  end.

(** The request of the service, and the size of its answer buffer. *)
Definition HTTP_GET : bytes :=
  [71; 69; 84; 32; 47; 32; 72; 84; 84; 80; 47; 49; 46; 48; 13; 10; 72; 111; 115; 116; 58; 32; 101; 120; 97; 109; 112; 108; 101; 46; 99; 111; 109; 13; 10; 67; 111; 110; 110; 101; 99; 116; 105; 111; 110; 58; 32; 99; 108; 111; 115; 101; 13; 10; 13; 10].
Definition RESPONSE_SIZE : nat := 4096.

(** One request of the service loop: the reply it sends to the kernel, if it sends one. *)
Definition net_service_request (resolved_ip : bytes) (request_id : Z) : NetM (option (Z * bytes)) :=
  r ← tcp_connect resolved_ip 80 53000;
  match r with
  | None => mret (Some (request_id, []))
  | Some c =>
      '(c, sent) ← tcp_send c HTTP_GET;
      '(c, reply) ← (if (sent : bool) then '(c, resp) ← read_response RESPONSE_SIZE c RESPONSE_SIZE; mret (c, Some (request_id, resp)) else mret (c, None));
      _ ← tcp_close c;
      mret reply
  end.
End stack.
