(* ===== verification/NetstackInv.v ===== *)
(** * The network stack: what it guarantees

    The stack of [Netstack] never panics, whatever arrives; the bytes it hands to a client are
    those the peer sent, in order; two instances agree after the handshake. *)

From S2P Require Import Prelude Bits Packet Netstack.

(** ** Running the stack on any schedule *)

(** The frames still to arrive all satisfy [good], and the transmit buffer has its size. *)
Record net_ok (good : bytes -> Prop) (s : net) : Prop := {
  ok_buf : length (TXBUF s) = FRAME_BUF_SIZE;
  ok_rx : forall f, Some f ∈ RX s -> good f;
  ok_arp : Forall (fun e => length (slot_mac e) = 6%nat) (ARP s) }.

(** Polls consume the schedule, transmissions are appended. *)
Definition later (s s' : net) : Prop := (exists seen, RX s = seen ++ RX s') /\ (exists out, SENT s' = SENT s ++ out).

#[global] Instance later_preorder : PreOrder later.
Proof.
  split.
  - intros s. split; [by exists []|exists []; by rewrite app_nil_r].
  - intros s1 s2 s3 [[x1 E1] [o1 F1]] [[x2 E2] [o2 F2]]. split; [exists (x1 ++ x2); by rewrite E1, E2, app_assoc|exists (o1 ++ o2); by rewrite F2, F1, app_assoc].
Qed.

Section hoare.
Context (good : bytes -> Prop).

(** From any good state [m] returns, in a good later state, a result in [Q]. *)
Definition total {A} (m : NetM A) (Q : A -> Prop) : Prop :=
  forall s, net_ok good s -> exists s' a, m s = Some (s', a) /\ net_ok good s' /\ later s s' /\ Q a.

Lemma total_ret {A} (a : A) (Q : A -> Prop) : Q a -> total (mret a) Q.
Proof. intros H s Hs. by exists s, a. Qed.

Lemma total_bind {A B} (m : NetM A) (k : A -> NetM B) (Q : A -> Prop) (R : B -> Prop) :
  total m Q -> (forall a, Q a -> total (k a) R) -> total (m ≫= k) R.
Proof.
  intros Hm Hk s Hs. destruct (Hm s Hs) as (s1 & a & E & Hs1 & L1 & HQ). destruct (Hk a HQ s1 Hs1) as (s2 & b & E2 & Hs2 & L2 & HR).
  exists s2, b. split; [|split; [done|split; [by transitivity s1|done]]]. unfold mbind, net_bind. rewrite E. exact E2.
Qed.

Lemma total_mono {A} (m : NetM A) (Q R : A -> Prop) : total m Q -> (forall a, Q a -> R a) -> total m R.
Proof. intros Hm H s Hs. destruct (Hm s Hs) as (s' & a & ? & ? & ? & ?). exists s', a. auto. Qed.

Lemma total_lift {A} (x : option A) (Q : A -> Prop) : (exists a, x = Some a /\ Q a) -> total (lift x) Q.
Proof. intros (a & -> & HQ) s Hs. by exists s, a. Qed.

Lemma total_arp : total get_arp (fun t => Forall (fun e => length (slot_mac e) = 6%nat) t).
Proof. intros s Hs. exists s, (ARP s). split; [done|]. split; [done|]. split; [done|]. apply Hs. Qed.

Lemma total_put t : Forall (fun e => length (slot_mac e) = 6%nat) t -> total (put_arp t) (fun _ => True).
Proof. intros Ht s [Hb Hr Ha]. exists (set_arp t s), tt. split; [done|]. split; [by split|]. split; [|done]. split; [by exists []|exists []; by rewrite app_nil_r]. Qed.

(** A builder that writes a message at a place where the buffer has room for it. *)
Lemma total_build f off msg n : (off + length msg <= FRAME_BUF_SIZE)%nat ->
  (forall b, f b = (b ← wslice b off msg; Some (b, n))) -> total (build f) (fun k => k = n).
Proof.
  intros Hl Hf s [Hb Hr Ha]. unfold build. rewrite Hf. destruct (wslice_is_Some (TXBUF s) off msg) as [b Eb]; [lia|]. rewrite Eb. cbn [mbind option_bind].
  exists (set_txbuf b s), n. split; [done|]. split; [split; [cbn; by rewrite (length_wslice _ _ _ _ Eb)|done..]|]. split; [|done].
  split; [by exists []|exists []; by rewrite app_nil_r].
Qed.

Lemma total_tx n : total (tx_frame n) (fun _ => True).
Proof. intros s [Hb Hr Ha]. unfold tx_frame. eexists _, _. split; [reflexivity|]. split; [by split|]. split; [|done]. split; [by exists []|by eexists]. Qed.

(** What a round may do with a good frame or without a frame. *)
Definition round_ok {A} (body : option bytes -> NetM (verdict A)) (Q : A -> Prop) : Prop :=
  forall ev, (forall f, ev = Some f -> good f) -> total (body ev) (fun v => match v with Done a => Q a | _ => True end).

Lemma total_spin {A} (body : option bytes -> NetM (verdict A)) (Q : A -> Prop) max : round_ok body Q ->
  total (spin body max) (fun r => match r with Some a => Q a | None => True end).
Proof.
  intros Hb s Hs. unfold spin. enough (forall rx left s0, net_ok good (set_rx [] s0) -> (exists out, SENT s0 = SENT s ++ out) -> (exists seen, RX s = seen ++ rx) ->
    exists s' r, spin_on body rx left s0 = Some (s', r) /\ net_ok good s' /\ later s s' /\ match r with Some a => Q a | None => True end) as H.
  { apply H; [split; [apply Hs|intros f Hf; by apply not_elem_of_nil in Hf|apply Hs]|exists []; by rewrite app_nil_r|by exists []]. }
  assert (forall rx s0, net_ok good (set_rx [] s0) -> (exists seen, RX s = seen ++ rx) -> net_ok good (set_rx rx s0)) as Hok.
  { intros rx s0 [Hl _ Ha] [seen E]. split; [done| |done]. intros f Hf. apply Hs. rewrite E. cbn in Hf. set_solver. }
  induction rx as [|ev rx IH]; intros left s0 Hl Hsent Hseen; cbn [spin_on]; (destruct (left <=? 0); [eexists _, None; split; [done|]; split; [by apply Hok|split; [by split|done]]|]).
  - destruct (Hb None) with (s := set_rx [] s0) as (s1 & v & -> & Hs1 & [[x1 E1] [o1 F1]] & Hv); [done|by apply Hok|]. cbn [mbind option_bind].
    eexists s1, _. split; [done|]. split; [done|]. split.
    + destruct Hsent as [o F], Hseen as [seen E]. split; [exists (seen ++ x1); by rewrite E, <- app_assoc, <- E1|exists (o ++ o1); cbn in F1; by rewrite F1, F, app_assoc].
    + by destruct v.
  - assert (exists seen, RX s = seen ++ rx) as Hseen' by (destruct Hseen as [seen E]; exists (seen ++ [ev]); by rewrite E, <- app_assoc).
    destruct (Hb ev) with (s := set_rx rx s0) as (s1 & v & -> & Hs1 & [[x1 E1] [o1 F1]] & Hv); [|by apply Hok|].
    { intros f ->. apply Hs. destruct Hseen as [seen ->]. set_solver. }
    cbn [mbind option_bind]. assert (exists out, SENT s1 = SENT s ++ out) as Hsent1 by (destruct Hsent as [o F]; exists (o ++ o1); cbn in F1; by rewrite F1, F, app_assoc).
    destruct v as [a| |].
    + eexists s1, _. split; [done|]. split; [done|]. split; [|done]. split; [|done]. destruct Hseen' as [seen E]. exists (seen ++ x1). by rewrite E, <- app_assoc, <- E1.
    + apply IH; [destruct Hs1; split; [done|intros f Hf; by apply not_elem_of_nil in Hf|done]|done|done].
    + apply IH; [destruct Hs1; split; [done|intros f Hf; by apply not_elem_of_nil in Hf|done]|done|done].
Qed.

Lemma total_attempts {A} (m : NetM (option A)) (Q : A -> Prop) n : total m (fun r => match r with Some a => Q a | None => True end) ->
  total (attempts n m) (fun r => match r with Some a => Q a | None => True end).
Proof.
  intros Hm. induction n as [|n IH]; cbn [attempts]; [by apply total_ret|]. eapply total_bind; [done|]. intros [a|] Ha; [by apply total_ret|done].
Qed.
End hoare.

(** ** No frame can crash the stack *)

Lemma rslice_len {A} (b : list A) off n r : rslice b off n = Some r -> length r = n.
Proof. apply length_rslice. Qed.

Lemma tcp_of_total frame : exists r, tcp_of frame = Some r.
Proof.
  unfold tcp_of. destruct (ipv4_parse_total frame) as (r & -> & Hp). cbn [mbind option_bind]. destruct r as [p|]; [|by eexists].
  destruct (Hp p eq_refl) as (Hl & _). case_match; [|by eexists]. destruct (rslice_total frame (payload_off p) (payload_len p)) as (seg & -> & _); [done|].
  cbn [mbind option_bind]. destruct (tcp_parse_total seg) as [t ->]. cbn [mbind option_bind]. by eexists.
Qed.

Lemma arp_insert_ok t ip m : Forall (fun e => length (slot_mac e) = 6%nat) t -> length m = 6%nat -> Forall (fun e => length (slot_mac e) = 6%nat) (arp_insert t ip m).
Proof. intros. unfold arp_insert. case_match; [case_match|]; by apply Forall_insert. Qed.

Lemma arp_lookup_ok t ip m : Forall (fun e => length (slot_mac e) = 6%nat) t -> arp_lookup t ip = Some m -> length m = 6%nat.
Proof.
  intros Ht H. unfold arp_lookup in H. destruct (list_find _ t) as [[i e]|] eqn:E; [|done]. injection H as <-. apply list_find_Some in E as [E _].
  by apply (proj1 (Forall_lookup _ _) Ht i e).
Qed.

Section total_stack.
Context (good : bytes -> Prop) (mac our_ip : bytes) (Hmac : length mac = 6%nat) (Hip : length our_ip = 4%nat).

Lemma handle_arp_total frame : total good (handle_arp mac our_ip frame) (fun _ => True).
Proof using Hmac Hip.
  unfold handle_arp. case_match eqn:E; [by apply total_ret|]. apply orb_false_iff in E as [E _]. apply Nat.ltb_ge in E.
  set (a := drop ETH_HDR_LEN frame). assert (28 <= length a)%nat by (unfold a; rewrite length_drop; unfold ETH_HDR_LEN in *; lia).
  eapply (total_bind _ _ _ (fun _ => True)). { apply total_lift. destruct (r16_total a 6) as [v ->]; [lia|]. by eexists. }
  intros oper _. eapply (total_bind _ _ _ (fun m => length m = 6%nat)). { apply total_lift. destruct (rslice_total a 8 6) as (v & -> & Hv); [lia|]. by eexists. }
  intros sm Hsm. eapply (total_bind _ _ _ (fun m => length m = 4%nat)). { apply total_lift. destruct (rslice_total a 14 4) as (v & -> & Hv); [lia|]. by eexists. }
  intros si Hsi. eapply total_bind; [by apply total_arp|]. intros t Ht. eapply total_bind; [by apply total_put, arp_insert_ok|]. intros _ _.
  case_match; [|by apply total_ret]. eapply (total_bind _ _ _ (fun _ => True)). { apply total_lift. destruct (rslice_total a 24 4) as (v & -> & Hv); [lia|]. by eexists. }
  intros ti _. case_match; [|by apply total_ret].
  eapply total_bind. { eapply (total_build _ _ 0); [|intros b; by apply arp_reply_spec]. unfold eth_header, arp_message, FRAME_BUF_SIZE. rewrite !length_app. cbn. lia. }
  intros n ->. eapply total_bind; [apply total_tx|]. intros. by apply total_ret.
Qed.

Lemma dispatch_total frame : total good (dispatch_non_ping mac our_ip frame) (fun _ => True).
Proof using Hmac Hip. unfold dispatch_non_ping. case_match; [apply handle_arp_total|by apply total_ret]. Qed.

(** The rest of a round in which the frame was not the one waited for. *)
Lemma ignored_total {A} frame (Q : A -> Prop) :
  total good (_ ← dispatch_non_ping mac our_ip frame; mret Again) (fun v : verdict A => match v with Done a => Q a | _ => True end).
Proof using Hmac Hip. eapply total_bind; [apply dispatch_total|]. intros. by apply total_ret. Qed.

Lemma arp_resolve_total ip : length ip = 4%nat -> total good (arp_resolve mac our_ip ip) (fun r => forall m, r = Some m -> length m = 6%nat).
Proof using Hmac Hip.
  intros Hl. unfold arp_resolve. eapply total_bind; [apply total_arp|]. intros t Ht. destruct (arp_lookup t ip) as [m|] eqn:E.
  { apply total_ret. intros ? [= <-]. by eapply arp_lookup_ok. }
  eapply total_mono; [apply (total_attempts _ _ (fun m => length m = 6%nat))|intros [m|] H ? [=]; by subst].
  eapply total_bind. { eapply (total_build _ _ 0); [|intros b; by apply arp_request_spec]. unfold eth_header, arp_message, FRAME_BUF_SIZE. rewrite !length_app. cbn. lia. }
  intros n ->. eapply total_bind; [apply total_tx|]. intros _ _. apply total_spin. intros ev _.
  eapply (total_bind _ _ _ (fun _ => True)). { unfold poll_and_dispatch. repeat case_match; first [apply handle_arp_total|by apply total_ret]. }
  intros _ _. eapply total_bind; [apply total_arp|]. intros t' Ht'. apply total_ret. destruct (arp_lookup t' ip) as [m|] eqn:E'; [|done]. by eapply arp_lookup_ok.
Qed.
End total_stack.

(** ** Frames sent *)

Lemma wslice_app_mid {A} (s1 s2 s2' s3 : list A) : length s2' = length s2 -> wslice (s1 ++ s2 ++ s3) (length s1) s2' = Some (s1 ++ s2' ++ s3).
Proof.
  intros Hl. unfold wslice. rewrite decide_True by (rewrite !length_app; lia). rewrite take_app_length. f_equal. f_equal. f_equal.
  rewrite (app_assoc s1), drop_app_length' by (rewrite length_app; lia). done.
Qed.

(** Ethernet header, then the payload, then the IPv4 header: the order in which the code writes a frame. *)
Lemma frame_written (b e h p : bytes) : length e = 14%nat -> length h = 20%nat -> (34 + length p <= length b)%nat ->
  exists b1 b2 b3, wslice b 0 e = Some b1 /\ wslice b1 34 p = Some b2 /\ wslice b2 14 h = Some b3 /\
    take (34 + length p) b3 = e ++ h ++ p /\ length b3 = length b.
Proof.
  intros He Hh Hl. assert (exists x1 x2 x3 x4, b = x1 ++ x2 ++ x3 ++ x4 /\ length x1 = 14%nat /\ length x2 = 20%nat /\ length x3 = length p) as (x1 & x2 & x3 & x4 & -> & L1 & L2 & L3).
  { exists (take 14 b), (take 20 (drop 14 b)), (take (length p) (drop 34 b)), (drop (34 + length p) b).
    split; [|rewrite !length_take, !length_drop; lia]. replace (drop (34 + length p) b) with (drop (length p) (drop 34 b)) by (rewrite drop_drop; f_equal; lia).
    rewrite take_drop. replace (drop 34 b) with (drop 20 (drop 14 b)) by (rewrite drop_drop; f_equal; lia). by rewrite !take_drop. }
  exists (e ++ x2 ++ x3 ++ x4), (e ++ x2 ++ p ++ x4), (e ++ h ++ p ++ x4).
  split; [apply (wslice_app_mid [] x1 e); lia|]. split.
  { rewrite (app_assoc e x2 (x3 ++ x4)), (app_assoc e x2 (p ++ x4)). replace 34%nat with (length (e ++ x2)) by (rewrite length_app; lia). by apply wslice_app_mid. }
  split; [rewrite <- He; apply wslice_app_mid; lia|]. split; [|rewrite !length_app; lia].
  rewrite (app_assoc h), (app_assoc e). rewrite take_app_length' by (rewrite !length_app; lia). done.
Qed.

(** What one transmission adds to the record. *)
Definition sent_one (frame : bytes) (s s' : net) : Prop :=
  RX s' = RX s /\ TX_OK s' = tail (TX_OK s) /\ ARP s' = ARP s /\ length (TXBUF s') = length (TXBUF s) /\ SENT s' = SENT s ++ [(frame, default true (head (TX_OK s)))].

Section frames.
Context (mac our_ip : bytes) (Hmac : length mac = 6%nat) (Hip : length our_ip = 4%nat).

Definition ip_frame (dst_mac dst_ip : bytes) (p ident : Z) (payload : bytes) : bytes :=
  eth_header dst_mac mac ETHERTYPE_IPV4 ++ ipv4_header our_ip dst_ip p (length payload) ident ++ payload.

Definition tcp_frame (dst_mac dst_ip : bytes) (sp dp seq ack flags ident : Z) (payload : bytes) : bytes :=
  ip_frame dst_mac dst_ip PROTO_TCP (u16 ident) (tcp_segment our_ip dst_ip sp dp seq ack flags payload).

(** The three builders in the order of the code, and the transmission. *)
Lemma send_ip_run f dst_mac dst_ip p ident msg s : length dst_mac = 6%nat -> length dst_ip = 4%nat -> length (TXBUF s) = FRAME_BUF_SIZE ->
  (34 + length msg <= FRAME_BUF_SIZE)%nat -> (forall b off, f b off = (b ← wslice b off msg; Some (b, length msg))) ->
  exists s', (eth_len ← build (fun b => eth_build b dst_mac mac ETHERTYPE_IPV4);
     len ← build (fun b => f b (eth_len + IPV4_HDR_LEN)%nat);
     _ ← build (fun b => ipv4_build b eth_len our_ip dst_ip p len ident);
     tx_frame (eth_len + IPV4_HDR_LEN + len)) s = Some (s', default true (head (TX_OK s))) /\ sent_one (ip_frame dst_mac dst_ip p ident msg) s s'.
Proof using Hmac Hip.
  intros Hm Hd Hb Hl Hf. pose proof (ipv4_header_length our_ip dst_ip p (length msg) ident Hip Hd) as Hh.
  assert (length (eth_header dst_mac mac ETHERTYPE_IPV4) = 14%nat) as He by (unfold eth_header; rewrite !length_app, Hm, Hmac; done).
  destruct (frame_written (TXBUF s) _ _ msg He Hh ltac:(lia)) as (b1 & b2 & b3 & E1 & E2 & E3 & Et & El).
  eexists. split.
  - unfold mbind, net_bind, build. rewrite eth_build_spec, E1 by done. cbn [mbind option_bind TXBUF set_txbuf]. rewrite Hf.
    change (ETH_HDR_LEN + IPV4_HDR_LEN)%nat with 34%nat. rewrite E2. cbn [mbind option_bind TXBUF set_txbuf].
    rewrite ipv4_build_spec by done. change ETH_HDR_LEN with 14%nat. rewrite E3. cbn [mbind option_bind]. unfold tx_frame. reflexivity.
  - cbn [TXBUF set_txbuf]. split; [done|]. split; [done|]. split; [done|]. split; [done|]. cbn [SENT set_txbuf TX_OK]. do 2 f_equal. f_equal.
    unfold ip_frame. rewrite <- Et. f_equal. unfold FRAME_BUF_SIZE in Hl. rewrite wrap_small by (red; lia). rewrite Nat2Z.id. done.
Qed.

Lemma send_tcp_run dst_mac dst_ip sp dp seq ack flags ident payload s : length dst_mac = 6%nat -> length dst_ip = 4%nat -> length (TXBUF s) = FRAME_BUF_SIZE ->
  (54 + length payload <= FRAME_BUF_SIZE)%nat ->
  exists s', send_tcp mac our_ip dst_mac dst_ip sp dp seq ack flags ident payload s = Some (s', default true (head (TX_OK s))) /\
    sent_one (tcp_frame dst_mac dst_ip sp dp seq ack flags ident payload) s s'.
Proof using Hmac Hip.
  intros Hm Hd Hb Hl. apply (send_ip_run (fun b off => tcp_build b off our_ip dst_ip sp dp seq ack flags payload)); [done..|rewrite tcp_segment_length; unfold TCP_HDR_LEN; lia|].
  intros b off. by rewrite tcp_build_spec, tcp_segment_length.
Qed.

Lemma sent_one_ok good frame s s' : net_ok good s -> sent_one frame s s' -> net_ok good s' /\ later s s'.
Proof.
  intros [Hb Hr Ha] (E1 & _ & E2 & E3 & E4). split; [split; [by rewrite E3|by rewrite E1|by rewrite E2]|].
  split; [exists []; by rewrite E1|by eexists].
Qed.

Lemma send_tcp_total good dst_mac dst_ip sp dp seq ack flags ident payload : length dst_mac = 6%nat -> length dst_ip = 4%nat -> (54 + length payload <= FRAME_BUF_SIZE)%nat ->
  total good (send_tcp mac our_ip dst_mac dst_ip sp dp seq ack flags ident payload) (fun _ => True).
Proof using Hmac Hip.
  intros Hm Hd Hl s Hs. destruct (send_tcp_run dst_mac dst_ip sp dp seq ack flags ident payload s Hm Hd (ok_buf _ _ Hs) Hl) as (s' & E & H).
  destruct (sent_one_ok _ _ _ _ Hs H). eexists s', _. done.
Qed.
End frames.

(** ** Connections on any schedule *)

Record conn_ok (c : TcpConn) : Prop := { conn_mac : length (remote_mac c) = 6%nat; conn_ip : length (remote_ip c) = 4%nat }.

Definition same_peer (c c' : TcpConn) : Prop :=
  local_port c' = local_port c /\ remote_ip c' = remote_ip c /\ remote_port c' = remote_port c /\ remote_mac c' = remote_mac c.

Lemma same_peer_ok c c' : same_peer c c' -> conn_ok c -> conn_ok c'.
Proof. intros (_ & E1 & _ & E2) [H1 H2]. split; congruence. Qed.

(** The segment [t] of a frame for the connection [c]. *)
Definition for_conn (c : TcpConn) (frame : bytes) (t : TcpParsed) : Prop :=
  (exists p, tcp_of frame = Some (Some (p, t))) /\ t_dst_port t = local_port c /\ t_src_port t = remote_port c.

Lemma tcp_of_src frame p t : tcp_of frame = Some (Some (p, t)) -> length (ip_src p) = 4%nat /\ (34 <= length frame)%nat.
Proof.
  unfold tcp_of. intros H. destruct (ipv4_parse_total frame) as (r & Er & Hr). rewrite Er in H. cbn [mbind option_bind] in H.
  destruct r as [q|]; [|done]. case_match; [|done]. destruct (Hr q eq_refl) as (Hb & Hl & Hs).
  destruct (rslice_total frame (payload_off q) (payload_len q) Hb) as (seg & Eseg & _). rewrite Eseg in H. cbn [mbind option_bind] in H.
  destruct (tcp_parse_total seg) as [x Ex]. rewrite Ex in H. cbn [mbind option_bind] in H. destruct x as [x|]; [|done]. injection H as <- <-. done.
Qed.

Section conns.
Context (good : bytes -> Prop) (mac our_ip : bytes) (Hmac : length mac = 6%nat) (Hip : length our_ip = 4%nat).

Lemma wait_total c want max : total good (tcp_wait_for mac our_ip c want max)
  (fun r => match r with Some (seq, flags, _) => exists frame t, good frame /\ for_conn c frame t /\ want t = true /\ seq = t_seq t /\ flags = t_flags t | None => True end).
Proof using Hmac Hip.
  unfold tcp_wait_for. eapply total_mono; [apply (total_spin _ _ (fun '(seq, flags, _) => exists frame t, good frame /\ for_conn c frame t /\ want t = true /\ seq = t_seq t /\ flags = t_flags t))|by intros [[[]]|]].
  intros [frame|] Hg; [|by apply total_ret]. specialize (Hg frame eq_refl). destruct (tcp_of_total frame) as [r Er].
  eapply (total_bind _ _ _ (fun x => x = r)); [apply total_lift; by exists r|]. intros ? ->. destruct r as [[p t]|]; [|by apply ignored_total].
  case_match eqn:E; [|by apply ignored_total]. apply total_ret. apply andb_true_iff in E as [E Hw]. apply andb_true_iff in E as [E1%Z.eqb_eq E2%Z.eqb_eq].
  exists frame, t. unfold for_conn. eauto 10.
Qed.

Lemma send_on_total c flags ident payload : conn_ok c -> (54 + length payload <= FRAME_BUF_SIZE)%nat -> total good (send_on mac our_ip c flags ident payload) (fun _ => True).
Proof using Hmac Hip. intros [H1 H2] Hl. by apply send_tcp_total. Qed.

#[local] Ltac send_ack := eapply total_bind; [apply send_on_total; [match goal with H : conn_ok _ |- _ => by destruct H; split end|unfold FRAME_BUF_SIZE; cbn; lia]|].

(** What [tcp_recv] gives back: nothing, or the first bytes of the segment it was waiting for. *)
Definition received (c : TcpConn) (cap : nat) (r : TcpConn * bytes) : Prop :=
  same_peer c r.1 /\
  (r.2 = [] \/ exists frame t, good frame /\ for_conn c frame t /\ t_seq t = recv_next c /\ r.2 = take cap (t_payload t) /\
     recv_next r.1 = u32 (recv_next c + Z.of_nat (length (t_payload t)))).

Lemma recv_total c cap max : conn_ok c -> total good (tcp_recv mac our_ip c cap max) (received c cap).
Proof using Hmac Hip.
  intros Hc. unfold tcp_recv. eapply (total_bind _ _ _ (fun r => match r with Some a => received c cap a | None => True end)).
  2: { intros [r|] Hr; apply total_ret; [done|]. split; [done|by left]. }
  apply total_spin. intros [frame|] Hg; [|by apply total_ret]. specialize (Hg frame eq_refl). destruct (tcp_of_total frame) as [r Er].
  eapply (total_bind _ _ _ (fun x => x = r)); [apply total_lift; by exists r|]. intros ? ->. destruct r as [[p t]|]; [|by apply ignored_total].
  case_match eqn:E; [|by apply ignored_total]. apply andb_true_iff in E as [E1%Z.eqb_eq E2%Z.eqb_eq].
  case_match; [apply total_ret; split; [done|by left]|]. case_match eqn:E3.
  - apply andb_true_iff in E3 as [_ E3%Z.eqb_eq]. send_ack. intros _ _. apply total_ret. split; [done|]. right.
    exists frame, t. split; [done|]. split; [|done]. split; [by exists p|done].
  - case_match; [|by apply ignored_total]. send_ack. intros _ _. apply total_ret. split; [done|by left].
Qed.

Lemma tcp_send_total c data : conn_ok c -> (54 + length data <= FRAME_BUF_SIZE)%nat ->
  total good (tcp_send mac our_ip c data) (fun '(c', ok) => same_peer c c' /\ recv_next c' = recv_next c /\ state c' = state c /\
    if (ok : bool) then send_next c' = u32 (send_next c + Z.of_nat (length data)) /\
      exists frame t, good frame /\ for_conn c frame t /\ has_flag (t_flags t) TCP_FLAG_ACK = true /\ t_ack t = send_next c'
    else c' = c).
Proof using Hmac Hip.
  intros Hc Hl. unfold tcp_send. case_match; [by apply total_ret|]. set (expect := u32 _).
  eapply (total_bind _ _ _ (fun r => match r with Some _ => exists frame t, good frame /\ for_conn c frame t /\ has_flag (t_flags t) TCP_FLAG_ACK = true /\ t_ack t = expect | None => True end)).
  - apply (total_attempts _ _ (fun _ => _)). eapply total_bind; [by apply send_on_total|]. intros sent _. case_match; [by apply total_ret|].
    eapply total_mono; [apply wait_total|]. intros [[[seq flags] n]|]; [|done]. intros (frame & t & Hg & Hf & Hw & _). apply andb_true_iff in Hw as [Hw1 Hw2%Z.eqb_eq].
    by exists frame, t.
  - intros [a|] Hr; apply total_ret; done.
Qed.

Lemma tcp_close_total c : conn_ok c -> total good (tcp_close mac our_ip c) (fun c' => same_peer c c').
Proof using Hmac Hip.
  intros Hc. unfold tcp_close. case_match; [by apply total_ret|]. send_ack. intros sent _.
  eapply (total_bind _ _ _ (fun c' => same_peer c c')).
  - case_match; [|by apply total_ret]. eapply total_bind; [apply wait_total|]. intros [a|] _; by apply total_ret.
  - intros c1 H1. eapply total_bind; [apply recv_total; by eapply same_peer_ok|]. intros [c2 got] [H2 _]. apply total_ret.
    destruct H1 as (? & ? & ? & ?), H2 as (? & ? & ? & ?). cbn in *. unfold same_peer. cbn. split_and!; congruence.
Qed.

(** An established connection to the host asked for; its sequence number is that of a segment that answers the SYN. *)
Definition connected (dst_ip : bytes) (dst_port src_port : Z) (c : TcpConn) : Prop :=
  conn_ok c /\ state c = Established /\ local_port c = src_port /\ remote_ip c = dst_ip /\ remote_port c = dst_port /\ send_next c = u32 (CLIENT_ISN + 1) /\
  exists frame t, good frame /\ for_conn c frame t /\ Z.land (t_flags t) 0x12 = 0x12 /\ recv_next c = u32 (t_seq t + 1).

Lemma tcp_connect_total dst_ip dst_port src_port : length dst_ip = 4%nat ->
  total good (tcp_connect mac our_ip dst_ip dst_port src_port) (fun r => match r with Some c => connected dst_ip dst_port src_port c | None => True end).
Proof using Hmac Hip.
  intros Hd. unfold tcp_connect. eapply total_bind. { apply arp_resolve_total; [done..|]. unfold arp_target. by case_match. }
  intros [peer|] Hp; [|by apply total_ret]. specialize (Hp peer eq_refl). set (c := mkConn _ _ _ _ _ _ _). assert (conn_ok c) as Hc by by split.
  eapply (total_bind _ _ _ (fun r => match r with Some (Some c) => connected dst_ip dst_port src_port c | _ => True end)).
  2: { intros [[?|]|] Hr; by apply total_ret. }
  apply (total_attempts _ _ (fun r => match r with Some c => connected dst_ip dst_port src_port c | None => True end)).
  eapply total_bind; [apply send_tcp_total; unfold FRAME_BUF_SIZE; cbn; done || lia|]. intros sent _. case_match; [by apply total_ret|].
  eapply total_bind; [apply wait_total|]. intros [[[seq flags] n]|] Hr; [|by apply total_ret]. case_match; [by apply total_ret|].
  eapply total_bind; [apply send_on_total; [by split|unfold FRAME_BUF_SIZE; cbn; lia]|]. intros _ _. apply total_ret.
  destruct Hr as (frame & t & Hg & Hf & Hw & -> & _). split; [by split|]. do 5 (split; [done|]). exists frame, t. split; [done|]. split; [exact Hf|].
  split; [by apply Z.eqb_eq in Hw|done].
Qed.

Lemma tcp_accept_total port max : total good (tcp_accept mac our_ip port max) (fun r => match r with Some c => conn_ok c /\ local_port c = port /\ state c = Established | None => True end).
Proof using Hmac Hip.
  unfold tcp_accept. eapply (total_bind _ _ _ (fun r => match r with Some (Some c) => conn_ok c /\ local_port c = port /\ state c = Established | _ => True end)).
  2: { intros [[?|]|] Hr; by apply total_ret. }
  apply (total_spin _ _ (fun r => match r with Some c => conn_ok c /\ local_port c = port /\ state c = Established | None => True end)).
  intros [frame|] Hg; [|by apply total_ret]. destruct (tcp_of_total frame) as [r Er].
  eapply (total_bind _ _ _ (fun x => x = r)); [apply total_lift; by exists r|]. intros ? ->. destruct r as [[p t]|]; [|by apply ignored_total].
  case_match eqn:E; [|by apply ignored_total]. destruct (tcp_of_src _ _ _ Er) as [Hs Hl].
  eapply (total_bind _ _ _ (fun m => length m = 6%nat)). { apply total_lift. destruct (rslice_total frame 6 6) as (m & -> & Hm); [lia|]. by eexists. }
  intros m Hm. eapply total_bind; [apply send_tcp_total; unfold FRAME_BUF_SIZE; cbn; done || lia|]. intros sent _. case_match; [by apply total_ret|].
  eapply total_bind; [apply wait_total|]. intros [a|] _; apply total_ret; [|done]. done.
Qed.
End conns.

(** ** Names, pings, requests *)

Section requests.
Context (good : bytes -> Prop) (mac our_ip : bytes) (Hmac : length mac = 6%nat) (Hip : length our_ip = 4%nat).

Lemma ignored_bool_total {A} (x : option bool) frame (a : A) : is_Some x ->
  total good (ok ← lift x; if (ok : bool) then mret (Done a) else _ ← dispatch_non_ping mac our_ip frame; mret Again) (fun v : verdict A => match v with Done a => True | _ => True end).
Proof using Hmac Hip.
  intros [b ->]. eapply (total_bind _ _ _ (fun _ => True)); [apply total_lift; by exists b|]. intros [|] _; [by apply total_ret|]. by apply (ignored_total _ _ _ Hmac Hip frame (fun _ => True)).
Qed.

Lemma eth_total dst : length dst = 6%nat -> total good (build (fun b => eth_build b dst mac ETHERTYPE_IPV4)) (fun n => n = ETH_HDR_LEN).
Proof using Hmac Hip.
  intros Hd. eapply (total_build _ _ 0); [|intros b; by apply eth_build_spec]. unfold eth_header, FRAME_BUF_SIZE. rewrite !length_app, Hd, Hmac. cbn. lia.
Qed.

Lemma ip_total dst p n ident : length dst = 4%nat -> total good (build (fun b => ipv4_build b ETH_HDR_LEN our_ip dst p n ident)) (fun k => k = IPV4_HDR_LEN).
Proof using Hmac Hip.
  intros Hd. eapply total_build; [|intros b; by apply ipv4_build_spec]. rewrite ipv4_header_length by done. unfold ETH_HDR_LEN, IPV4_HDR_LEN, FRAME_BUF_SIZE. lia.
Qed.

Lemma ping_total target id seq : length target = 4%nat -> total good (ping mac our_ip target id seq) (fun _ => True).
Proof using Hmac Hip.
  intros Ht. unfold ping. eapply total_bind. { apply arp_resolve_total; [done..|]. unfold arp_target. by case_match. }
  intros [m|] Hm; [|by apply total_ret]. specialize (Hm m eq_refl).
  eapply total_bind; [by apply eth_total|]. intros ? ->.
  eapply total_bind; [eapply total_build; [|intros b; apply icmp_build_spec]; unfold ETH_HDR_LEN, IPV4_HDR_LEN, FRAME_BUF_SIZE; cbn; lia|]. intros ? ->.
  eapply total_bind; [by apply ip_total|]. intros _ _. eapply total_bind; [apply total_tx|]. intros sent _. case_match; [by apply total_ret|].
  eapply (total_bind _ _ _ (fun _ => True)); [|intros; by apply total_ret].
  eapply total_mono; [apply (total_spin _ _ (fun _ => True))|done]. intros [frame|] _; [|by apply total_ret]. apply ignored_bool_total.
  destruct (ipv4_parse_total frame) as (r & -> & Hp). cbn [mbind option_bind]. destruct r as [p|]; [|done]. destruct (Hp p eq_refl) as (Hb & _).
  case_match eqn:Ep; [|done]. apply andb_true_iff in Ep as [_ Ep%Nat.leb_le]. destruct (rslice_total frame (payload_off p) (payload_len p) Hb) as (icmp & -> & Hi). cbn [mbind option_bind].
  destruct (r16_total icmp 4) as [v4 ->]; [lia|]. destruct (r16_total icmp 6) as [v6 ->]; [lia|]. destruct (lookup_lt_is_Some_2 icmp 0) as [v0 ->]; [lia|]. done.
Qed.

(** The name has labels of at most 255 bytes and its query fits the 128-byte buffer. *)
Definition host_ok (junk host : bytes) : Prop :=
  Forall (fun l => Z.of_nat (length l) < 256) (labels host) /\ length junk = 128%nat /\ (length (dns_query 0 host) <= 128)%nat.

Lemma dns_query_length id id' host : length (dns_query id host) = length (dns_query id' host).
Proof. unfold dns_query. by rewrite !length_app. Qed.

Lemma dns_resolve_total junk host id : host_ok junk host -> total good (dns_resolve mac our_ip junk host id) (fun _ => True).
Proof using Hmac Hip.
  intros (HF & Hj & Hq). unfold dns_resolve. eapply total_bind; [apply total_arp|]. intros t Ht.
  eapply (total_bind _ _ _ (fun r => forall m, r = Some m -> length m = 6%nat)).
  { destruct (arp_lookup t GATEWAY_IP) as [m|] eqn:E; [|by apply arp_resolve_total]. apply total_ret. intros ? [= <-]. by eapply arp_lookup_ok. }
  intros [m|] Hm; [|by apply total_ret]. specialize (Hm m eq_refl). eapply total_mono; [apply (total_attempts _ _ (fun _ => True))|done].
  eapply total_bind; [by apply eth_total|]. intros ? ->.
  eapply (total_bind _ _ _ (fun q => (length (take q.2 q.1) <= 128)%nat)).
  { apply total_lift. rewrite dns_build_query_spec by done. destruct (wslice_is_Some junk 0 (dns_query id host)) as [b ->]; [rewrite (dns_query_length _ 0); lia|].
    cbn [mbind option_bind]. eexists. split; [done|]. cbn [fst snd]. rewrite length_take, (dns_query_length _ 0). lia. }
  intros q Hlq. eapply total_bind.
  { eapply total_build; [|intros b; apply udp_build_spec]. unfold udp_datagram, ETH_HDR_LEN, IPV4_HDR_LEN, FRAME_BUF_SIZE. rewrite !length_app. cbn [length be16]. lia. }
  intros ? ->. eapply total_bind; [by apply ip_total|]. intros _ _. eapply total_bind; [apply total_tx|]. intros sent _. case_match; [by apply total_ret|].
  apply total_spin. intros [frame|] _; [|by apply total_ret]. eapply (total_bind _ _ _ (fun _ => True)).
  - apply total_lift. destruct (ipv4_parse_total frame) as (r & -> & Hp). cbn [mbind option_bind]. destruct r as [p|]; [|by eexists]. destruct (Hp p eq_refl) as (Hb & _).
    case_match eqn:Ep; [|by eexists]. apply andb_true_iff in Ep as [_ Ep%Nat.leb_le]. destruct (rslice_total frame (payload_off p) (payload_len p) Hb) as (udp & -> & Hu). cbn [mbind option_bind].
    unfold UDP_HDR_LEN in Ep. destruct (r16_total udp 0) as [v ->]; [lia|]. cbn [mbind option_bind]. case_match; [|by eexists].
    destruct (dns_parse_any (drop UDP_HDR_LEN udp) id) as [r ->]. by eexists.
  - intros [ip|] _; [by apply total_ret|]. by apply (ignored_total _ _ _ Hmac Hip frame (fun _ => True)).
Qed.
End requests.

(** ** The stream *)

(** [n] bytes of the stream [S] from sequence number [q] on. *)
Definition slice (S : Z -> Z) (q : Z) (n : nat) : bytes := (fun i => S (u32 (q + Z.of_nat i))) <$> seq 0 n.

Lemma length_slice S q n : length (slice S q n) = n.
Proof. unfold slice. by rewrite length_fmap, length_seq. Qed.

Lemma take_slice S q n m : take m (slice S q n) = slice S q (Nat.min m n).
Proof. unfold slice. by rewrite <- fmap_take, take_seq. Qed.

Lemma slice_app S q n m : slice S q n ++ slice S (u32 (q + Z.of_nat n)) m = slice S q (n + m).
Proof.
  unfold slice. rewrite seq_app, fmap_app. f_equal.
  replace (seq (0 + n) m) with (Nat.add n <$> seq 0 m) by (rewrite fmap_add_seq; f_equal; lia). rewrite <- list_fmap_compose.
  apply list_fmap_ext. intros _ i _. unfold compose. f_equal. unfold wrap. rewrite Zplus_mod_idemp_l. f_equal. lia.
Qed.

(** What a peer that sends the stream [S] from its initial number [isn] on may put on the wire for the ports of a connection. Segments may
    be lost, repeated, reordered, cut differently. *)
Definition honest (S : Z -> Z) (isn lp rp : Z) (frame : bytes) : Prop :=
  forall p t, tcp_of frame = Some (Some (p, t)) -> t_dst_port t = lp -> t_src_port t = rp ->
    t_payload t = slice S (t_seq t) (length (t_payload t)) /\ (Z.land (t_flags t) 0x12 = 0x12 -> t_seq t = isn).

Section stream.
Context (S : Z -> Z) (isn lp rp : Z) (mac our_ip : bytes) (Hmac : length mac = 6%nat) (Hip : length our_ip = 4%nat).

Lemma read_stream fuel : forall c room, conn_ok c -> local_port c = lp -> remote_port c = rp ->
  total (honest S isn lp rp) (read_response mac our_ip fuel c room)
    (fun '(c', got) => same_peer c c' /\ (length got <= room)%nat /\ got = slice S (recv_next c) (length got)).
Proof using Hmac Hip.
  induction fuel as [|fuel IH]; intros c room Hc Hl Hr; cbn [read_response]; [apply total_ret; split; [done|]; cbn; split; [lia|done]|].
  case_match; [apply total_ret; split; [done|]; cbn; split; [lia|done]|].
  eapply total_bind; [by apply recv_total|]. intros [c1 got] [Hp Hg]. cbn [fst snd] in *.
  clear H. case_bool_decide as Hz; [apply total_ret; split; [done|]; cbn; split; [lia|done]|].
  destruct Hg as [->|(frame & t & Hh & ((p & Et) & Hd & Hs) & Hq & -> & Hn)]; [done|].
  destruct (Hh p t Et) as [Hpay _]; [congruence..|]. rewrite Hq in Hpay. set (k := length (t_payload t)) in *.
  destruct Hp as (P1 & P2 & P3 & P4). eapply total_bind; [apply IH; [split; [by rewrite P4; apply Hc|by rewrite P2; apply Hc]|congruence..]|].
  intros [c2 rest] (Hp2 & Hl2 & Hr2). apply total_ret. rewrite Hpay, take_slice, !length_slice in *. split.
  { destruct Hp2 as (? & ? & ? & ?). unfold same_peer. split_and!; congruence. }
  rewrite length_app, length_slice. split; [lia|]. destruct (Nat.le_gt_cases room k) as [Hle|Hgt].
  - assert (length rest = 0%nat) as H0 by lia. apply nil_length_inv in H0 as ->. by rewrite app_nil_r, Nat.add_0_r.
  - rewrite Nat.min_r in * by lia. rewrite Hr2 at 1. rewrite Hn. apply slice_app.
Qed.
End stream.

Lemma read_total good mac our_ip fuel : length mac = 6%nat -> length our_ip = 4%nat -> forall c room, conn_ok c ->
  total good (read_response mac our_ip fuel c room) (fun '(c', _) => conn_ok c').
Proof.
  intros Hmac Hip. induction fuel as [|fuel IH]; intros c room Hc; cbn [read_response]; [by apply total_ret|]. case_match; [by apply total_ret|].
  eapply total_bind; [by apply recv_total|]. intros [c1 got] [Hp _]. cbn [fst] in Hp. assert (conn_ok c1) by by eapply same_peer_ok.
  case_match; [by apply total_ret|]. eapply total_bind; [by apply IH|]. intros [c2 rest] H2. by apply total_ret.
Qed.

(** A fuel of the size of the buffer is enough: every round reads a byte. *)
Lemma read_fuel mac our_ip : forall fuel c room s, (room <= fuel)%nat -> read_response mac our_ip fuel c room s = read_response mac our_ip (S fuel) c room s.
Proof.
  induction fuel as [|fuel IH]; intros c room s Hr.
  - cbn [read_response]. rewrite bool_decide_eq_true_2 by lia. done.
  - cbn [read_response]. change (read_response mac our_ip (S fuel)) with (read_response mac our_ip (S fuel)).
    case_match; [done|]. apply orb_false_iff in H as [Hz _]. apply bool_decide_eq_false in Hz.
    unfold mbind, net_bind. destruct (tcp_recv mac our_ip c room 20000000 s) as [[s1 [c1 got]]|]; [|done]. cbn [mbind option_bind].
    case_bool_decide as Hg; [done|]. unfold mbind, net_bind. rewrite IH by lia. done.
Qed.

(** ** How long the loops last *)

(** How often a run has looked at the receive ring, as far as the schedule tells, and how many of its transmissions
    have failed. *)
Definition polled (s s' : net) : Z := Z.of_nat (length (RX s)) - Z.of_nat (length (RX s')).
Definition failures (s : net) : Z := Z.of_nat (length (filter (fun x => snd x = false) (SENT s))).

(** If the computation returns, it has looked at the ring at most [n] times, and its result satisfies [Q]. *)
Definition polls {A} (m : NetM A) (n : Z) (Q : A -> Prop) : Prop :=
  forall s s' a, m s = Some (s', a) -> polled s s' <= n /\ failures s <= failures s' /\ Q a.

Lemma polls_mono {A} (m : NetM A) n n' (Q R : A -> Prop) : polls m n Q -> n <= n' -> (forall a, Q a -> R a) -> polls m n' R.
Proof. intros H Hn HQ s s' a E. destruct (H s s' a E) as (? & ? & ?). split; [lia|]. by split; [|apply HQ]. Qed.

Lemma polls_ret {A} (a : A) (Q : A -> Prop) : Q a -> polls (mret a) 0 Q.
Proof. intros HQ s s' b [= <- <-]. unfold polled. split; [lia|]. by split; [lia|]. Qed.

(** A computation that returns early costs less than it may. *)
Lemma polls_early {A} (a : A) n : 0 <= n -> polls (mret a) n (fun _ => True).
Proof. intros Hn. by apply (polls_mono _ 0 n (fun _ => True)); [apply polls_ret| |]. Qed.

Lemma net_bind_inv {A B} (m : NetM A) (k : A -> NetM B) s s' b : (m ≫= k) s = Some (s', b) -> exists s1 a, m s = Some (s1, a) /\ k a s1 = Some (s', b).
Proof. unfold mbind, net_bind. destruct (m s) as [[s1 a]|]; [|discriminate]. eauto. Qed.

Lemma polls_bind {A B} (m : NetM A) (k : A -> NetM B) n n' (Q : A -> Prop) (R : B -> Prop) :
  polls m n Q -> (forall a, Q a -> polls (k a) n' R) -> polls (m ≫= k) (n + n') R.
Proof.
  intros H Hk s s' b (s1 & a & E1 & E)%net_bind_inv. destruct (H s s1 a E1) as (? & ? & HQ).
  destruct (Hk a HQ s1 s' b E) as (? & ? & ?). unfold polled in *. split; [lia|]. by split; [lia|].
Qed.

Lemma polls_seq {A B} (m : NetM A) (k : A -> NetM B) n (R : B -> Prop) : polls m 0 (fun _ => True) -> (forall a, polls (k a) n R) -> polls (m ≫= k) n R.
Proof. intros H Hk. change n with (0 + n). eapply polls_bind; [exact H|auto]. Qed.

Lemma polls_lift {A} (x : option A) : polls (lift x) 0 (fun _ => True).
Proof. intros s s' a E. unfold lift in E. destruct x; [|discriminate]. injection E as <- <-. unfold polled. repeat split; lia. Qed.

Lemma polls_get : polls get_arp 0 (fun _ => True).
Proof. intros s s' a [= <- <-]. unfold polled. repeat split; lia. Qed.

Lemma polls_put t : polls (put_arp t) 0 (fun _ => True).
Proof. intros s s' a [= <- <-]. unfold polled, failures. cbn. repeat split; lia. Qed.

Lemma polls_build f : polls (build f) 0 (fun _ => True).
Proof. intros s s' a E. unfold build in E. destruct (f (TXBUF s)) as [[b n]|]; [|discriminate]. injection E as <- <-. unfold polled, failures. cbn. repeat split; lia. Qed.

Lemma tx_failures n s s' b : tx_frame n s = Some (s', b) -> RX s' = RX s /\ failures s' = failures s + (if b then 0 else 1).
Proof.
  intros [= <- Hb]. split; [done|]. unfold failures. cbn [SENT]. rewrite filter_app, length_app, Hb. cbn [filter list_filter snd].
  destruct b; [rewrite decide_False by done|rewrite decide_True by done]; cbn; lia.
Qed.

Lemma polls_tx n : polls (tx_frame n) 0 (fun _ => True).
Proof. intros s s' b E. destruct (tx_failures _ _ _ _ E) as [Hr Hf]. unfold polled. rewrite Hr. repeat split; destruct b; lia. Qed.

(** A loop looks at the ring once in a round it counts; a round it does not count raises [free].  The round that ends it
    may look [d] times more. *)
Lemma spin_on_polls {A} (body : option bytes -> NetM (verdict A)) (free : net -> Z) d : 0 <= d -> (forall rx s, free (set_rx rx s) = free s) ->
  (forall ev s s' v, body ev s = Some (s', v) -> free s + match v with Free => 1 | _ => 0 end <= free s' /\ match v with Done _ => polled s s' <= d | _ => True end) ->
  forall rx left s s' r, spin_on body rx left s = Some (s', r) -> Z.of_nat (length rx) - Z.of_nat (length (RX s')) <= Z.max 0 left + d + (free s' - free s).
Proof.
  intros Hd Hf Hb. induction rx as [|ev rx IH]; intros left s s' r; cbn [spin_on]; (destruct (Z.leb_spec left 0); [intros [= <- <-]; rewrite Hf; cbn; lia|]).
  - destruct (body None (set_rx [] s)) as [[s1 v]|] eqn:E; [|discriminate]. intros [= <- _]. apply Hb in E as [E _]. rewrite Hf in E. cbn [length]. destruct v; lia.
  - destruct (body ev (set_rx rx s)) as [[s1 v]|] eqn:E; [|discriminate]. cbn [mbind option_bind]. apply Hb in E as [E Ed]. rewrite Hf in E. cbn [length].
    unfold polled in Ed. cbn [set_rx RX] in Ed. destruct v as [a| |]; [intros [= <- <-]; lia|intros E2%IH; lia|intros E2%IH; lia].
Qed.

Lemma polls_spin {A} (body : option bytes -> NetM (verdict A)) max :
  (forall ev, polls (body ev) 0 (fun v => match v with Free => False | _ => True end)) -> polls (spin body max) (Z.max 0 max) (fun _ => True).
Proof.
  intros Hb s s' r E. split; [|split; [|done]].
  - pose proof (spin_on_polls body (fun _ => 0) 0 ltac:(lia) ltac:(done)) as H. unfold polled. rewrite <- (Z.add_0_r (Z.max 0 max)), <- (Z.add_0_r (_ + 0)).
    eapply (H ltac:(intros ev s1 s2 v E1; destruct (Hb ev s1 s2 v E1) as (? & _ & ?); by destruct v)), E.
  - unfold spin in E. revert E. generalize (RX s). intros rx. revert max s. induction rx as [|ev rx IH]; intros left s; cbn [spin_on]; (destruct (left <=? 0); [by intros [= <- <-]|]).
    + destruct (body None (set_rx [] s)) as [[s1 v]|] eqn:E1; [|discriminate]. intros [= <- _]. by apply Hb in E1 as (_ & E1 & _).
    + destruct (body ev (set_rx rx s)) as [[s1 v]|] eqn:E1; [|discriminate]. cbn [mbind option_bind]. apply Hb in E1 as (_ & E1 & Hv).
      change (failures (set_rx rx s)) with (failures s) in E1. destruct v; [by intros [= <- <-]|intros E2%IH; lia|done].
Qed.

Lemma polls_attempts {A} (m : NetM (option A)) n k : 0 <= n -> polls m n (fun _ => True) -> polls (attempts k m) (Z.of_nat k * n) (fun _ => True).
Proof.
  intros Hn Hm. induction k as [|k IH]; [by apply polls_ret|]. cbn [attempts]. replace (Z.of_nat (S k) * n) with (n + Z.of_nat k * n) by lia.
  eapply polls_bind; [exact Hm|]. intros [a|] _; [|exact IH]. apply polls_early; nia.
Qed.

Create HintDb polls.
#[local] Hint Resolve polls_lift polls_get polls_put polls_build polls_tx : polls.

(** The straight-line parts look at the ring nowhere. *)
#[local] Ltac quiet :=
  repeat first
    [ solve [apply polls_ret; repeat case_match; done] | apply polls_seq; [solve [auto with polls]|intros ?]
    | match goal with
      | |- polls (if ?b then _ else _) _ _ => destruct b
      | |- polls (match ?x with _ => _ end) _ _ => destruct x
      | |- polls (let '_ := ?x in _) _ _ => destruct x
      end
    | solve [auto with polls] ].

Section durations.
Context (mac our_ip : bytes).

Lemma polls_handle frame : polls (handle_arp mac our_ip frame) 0 (fun _ => True).
Proof. unfold handle_arp. quiet. Qed.
#[local] Hint Resolve polls_handle : polls.

Lemma polls_dispatch frame : polls (dispatch_non_ping mac our_ip frame) 0 (fun _ => True).
Proof. unfold dispatch_non_ping. quiet. Qed.
#[local] Hint Resolve polls_dispatch : polls.

Lemma polls_dispatch_ev ev : polls (poll_and_dispatch mac our_ip ev) 0 (fun _ => True).
Proof. unfold poll_and_dispatch. quiet. Qed.
#[local] Hint Resolve polls_dispatch_ev : polls.

Lemma polls_send dst_mac dst_ip sp dp seq ack flags ident payload : polls (send_tcp mac our_ip dst_mac dst_ip sp dp seq ack flags ident payload) 0 (fun _ => True).
Proof. unfold send_tcp. quiet. Qed.
#[local] Hint Resolve polls_send : polls.

Lemma polls_send_on c flags ident payload : polls (send_on mac our_ip c flags ident payload) 0 (fun _ => True).
Proof. apply polls_send. Qed.
#[local] Hint Resolve polls_send_on : polls.

Lemma polls_resolve ip : polls (arp_resolve mac our_ip ip) 60000000 (fun _ => True).
Proof.
  unfold arp_resolve. apply polls_seq; [auto with polls|]. intros t. destruct (arp_lookup t ip); [apply polls_early; lia|].
  apply (polls_attempts _ 20000000 3); [lia|]. quiet. apply (polls_spin _ 20000000). intros ev. quiet.
Qed.

Lemma polls_wait c want max : polls (tcp_wait_for mac our_ip c want max) (Z.max 0 max) (fun _ => True).
Proof. apply polls_spin. intros ev. quiet. Qed.

Lemma polls_recv c cap max : polls (tcp_recv mac our_ip c cap max) (Z.max 0 max) (fun _ => True).
Proof. unfold tcp_recv. rewrite <- (Z.add_0_r (Z.max 0 max)). eapply polls_bind; [apply polls_spin; intros ev; quiet|]. intros r _. by apply polls_ret. Qed.

Lemma polls_tcp_send c data : polls (tcp_send mac our_ip c data) 300000000 (fun _ => True).
Proof.
  unfold tcp_send. destruct (negb _); [apply polls_early; lia|]. change 300000000 with (300000000 + 0).
  eapply polls_bind; [apply (polls_attempts _ 100000000 3); [lia|]|intros r _; by apply polls_ret].
  apply polls_seq; [auto with polls|]. intros sent. destruct sent; [apply (polls_wait _ _ 100000000)|]. apply polls_early; lia.
Qed.

Lemma polls_connect ip dp sp : polls (tcp_connect mac our_ip ip dp sp) 75000000 (fun _ => True).
Proof.
  unfold tcp_connect. change 75000000 with (60000000 + (15000000 + 0)). eapply polls_bind; [apply polls_resolve|]. intros [m|] _; [|apply polls_early; lia].
  eapply polls_bind; [apply (polls_attempts _ 5000000 3); [lia|]|intros r _; by apply polls_ret].
  apply polls_seq; [auto with polls|]. intros sent. destruct sent; [|apply polls_early; lia].
  change 5000000 with (5000000 + 0) at 2. eapply polls_bind; [apply (polls_wait _ _ 5000000)|]. intros r _. quiet.
Qed.

Lemma polls_close c : polls (tcp_close mac our_ip c) 150000000 (fun _ => True).
Proof.
  unfold tcp_close. destruct (negb _); [apply polls_early; lia|]. apply polls_seq; [auto with polls|]. intros sent.
  change 150000000 with (100000000 + (50000000 + 0)). eapply (polls_bind _ _ _ _ (fun _ => True)).
  - destruct sent; [|apply polls_early; lia]. change 100000000 with (100000000 + 0) at 2.
    eapply polls_bind; [apply (polls_wait _ _ 100000000)|]. intros r _. by apply polls_ret.
  - intros c' _. eapply polls_bind; [apply (polls_recv _ _ 50000000)|]. intros [c2 got] _. by apply polls_ret.
Qed.

Lemma polls_dns junk host id : polls (dns_resolve mac our_ip junk host id) 360000000 (fun _ => True).
Proof.
  unfold dns_resolve. apply polls_seq; [auto with polls|]. intros t. change 360000000 with (60000000 + 300000000). eapply (polls_bind _ _ _ _ (fun _ => True)).
  - destruct (arp_lookup t GATEWAY_IP); [apply polls_early; lia|apply polls_resolve].
  - intros [m|] _; [|apply polls_early; lia]. apply (polls_attempts _ 100000000 3); [lia|].
    do 5 (apply polls_seq; [auto with polls|]; intros ?). destruct (negb _); [apply polls_early; lia|].
    apply (polls_spin _ 100000000). intros ev. quiet.
Qed.

Lemma polls_ping ip id seq : polls (ping mac our_ip ip id seq) 160000000 (fun _ => True).
Proof.
  unfold ping. change 160000000 with (60000000 + (100000000 + 0)). eapply polls_bind; [apply polls_resolve|]. intros [m|] _; [|apply polls_early; lia].
  do 4 (apply polls_seq; [auto with polls|]; intros ?). destruct (negb _); [apply polls_early; lia|].
  eapply polls_bind; [apply (polls_spin _ 100000000); intros ev; quiet|]. intros r _. by apply polls_ret.
Qed.

Lemma polls_read fuel : forall c room, polls (read_response mac our_ip fuel c room) (Z.of_nat fuel * 20000000) (fun _ => True).
Proof.
  induction fuel as [|fuel IH]; intros c room; cbn [read_response]; [by apply polls_ret|]. destruct (_ || _); [apply polls_early; lia|].
  replace (Z.of_nat (S fuel) * 20000000) with (20000000 + (Z.of_nat fuel * 20000000 + 0)) by lia.
  eapply polls_bind; [apply (polls_recv _ _ 20000000)|]. intros [c1 got] _. destruct (bool_decide _); [apply polls_early; lia|].
  eapply polls_bind; [apply IH|]. intros [c2 rest] _. by apply polls_ret.
Qed.

(** What a request of the service may cost: a connection, a transmission, a round for each byte of the answer, a close. *)
Lemma polls_request ip request_id : polls (net_service_request mac our_ip ip request_id) (75000000 + (300000000 + (4096 * 20000000 + 150000000))) (fun _ => True).
Proof.
  unfold net_service_request. eapply polls_bind; [apply polls_connect|]. intros [c|] _; [|apply polls_early; lia].
  eapply polls_bind; [apply polls_tcp_send|]. intros [c1 sent] _. eapply (polls_bind _ _ _ _ (fun _ => True)).
  - destruct sent; [|apply polls_early; lia]. rewrite <- (Z.add_0_r (4096 * 20000000)).
    eapply polls_bind; [apply (polls_read RESPONSE_SIZE)|]. intros [c2 resp] _. by apply polls_ret.
  - intros [c2 reply] _. rewrite <- (Z.add_0_r 150000000). eapply polls_bind; [apply polls_close|]. intros c3 _. by apply polls_ret.
Qed.

Lemma send_failures dst_mac dst_ip sp dp seq ack flags ident payload s s' b : send_tcp mac our_ip dst_mac dst_ip sp dp seq ack flags ident payload s = Some (s', b) ->
  failures s + (if b then 0 else 1) <= failures s'.
Proof.
  unfold send_tcp. intros (s1 & n1 & (_ & H1 & _)%polls_build & (s2 & n2 & (_ & H2 & _)%polls_build & (s3 & n3 & (_ & H3 & _)%polls_build & [_ E]%tx_failures)%net_bind_inv)%net_bind_inv)%net_bind_inv. lia.
Qed.

(** Waiting for a connection does not count the rounds whose transmission fails. *)
Lemma accept_polls port max s s' r : tcp_accept mac our_ip port max s = Some (s', r) -> polled s s' <= Z.max 0 max + 100000000 + (failures s' - failures s).
Proof.
  unfold tcp_accept. intros (s1 & o & E & [= <- <-])%net_bind_inv. unfold polled, spin in *.
  revert E. apply spin_on_polls; [lia|done|]. clear. intros [frame|] s s' v; [|intros [= <- <-]; split; [lia|done]].
  assert (polls (_ ← dispatch_non_ping mac our_ip frame; mret (Again : verdict (option TcpConn))) 0 (fun v => v = Again)) as Hq by quiet.
  intros (s1 & o & Ho & E)%net_bind_inv. unfold lift in Ho. destruct (tcp_of frame) as [o'|]; [|discriminate]. injection Ho as <- <-.
  destruct o' as [[p t]|]; [|destruct (Hq _ _ _ E) as (_ & ? & ->); split; [lia|done]].
  destruct (_ && _); [|destruct (Hq _ _ _ E) as (_ & ? & ->); split; [lia|done]].
  apply net_bind_inv in E as (s1 & peer & Hp & E). unfold lift in Hp. destruct (rslice frame 6 6); [|discriminate]. injection Hp as <- <-.
  apply net_bind_inv in E as (s1 & b & E1 & E). pose proof (polls_send _ _ _ _ _ _ _ _ _ s s1 b E1) as (Hp & _ & _). apply send_failures in E1.
  destruct b; cbn [negb] in E; [|injection E as <- <-; split; [lia|done]].
  apply net_bind_inv in E as (s2 & acked & E2 & [= <- <-]). apply polls_wait in E2 as (? & ? & _). unfold polled in *. split; lia.
Qed.
End durations.

Section service.
Context (mac our_ip : bytes) (Hmac : length mac = 6%nat) (Hip : length our_ip = 4%nat).

(** A computation returns, after at most [n] looks at the receive ring. *)
Definition ends {A} (m : NetM A) (s : net) (n : Z) : Prop := exists s' r, m s = Some (s', r) /\ polled s s' <= n.

Lemma total_ends {A} (m : NetM A) Q n s : net_ok (fun _ => True) s -> total (fun _ => True) m Q -> polls m n (fun _ => True) -> ends m s n.
Proof. intros Hs Hm Hp. destruct (Hm s Hs) as (s' & a & E & _). exists s', a. split; [done|]. by destruct (Hp s s' a E). Qed.

Lemma request_total ip request_id : length ip = 4%nat -> total (fun _ => True) (net_service_request mac our_ip ip request_id) (fun _ => True).
Proof using Hmac Hip.
  intros Hl. unfold net_service_request. eapply total_bind; [by apply tcp_connect_total|]. intros [c|] Hc; [|by apply total_ret].
  eapply total_bind; [apply tcp_send_total; [done..|apply Hc|unfold FRAME_BUF_SIZE; cbn; lia]|]. intros [c1 sent] (Hp1 & _).
  assert (conn_ok c1) as Hok1 by (eapply same_peer_ok; [done|apply Hc]). eapply (total_bind _ _ _ (fun '(c', r) => conn_ok c')).
  - destruct sent; [|by apply total_ret]. eapply total_bind; [by apply read_total|]. intros [c2 got] H2. by apply total_ret.
  - intros [c2 r] Hok2. eapply total_bind; [by apply tcp_close_total|]. intros _ _. by apply total_ret.
Qed.

(** C12. The network service relays the peer's bytes.  Suppose every TCP segment that arrives with the connection's two
    ports, from whatever host (the stack does not compare addresses), carries bytes of the stream [S] at the place its
    sequence number gives them, and a SYN+ACK among them has the peer's initial number.  Then, whatever arrives for other
    ports, and whatever segments are lost, repeated, reordered or cut differently, a request to the peer ends, and if an
    answer is handed to the kernel it carries the number of the request and a beginning of the stream, of at most 4096
    bytes, from the byte after the initial number on, with nothing missing, repeated or out of place. *)
Theorem service_relays_stream S isn ip request_id s : length ip = 4%nat -> net_ok (honest S isn 53000 80) s ->
  exists s' r, net_service_request mac our_ip ip request_id s = Some (s', r) /\
    forall id resp, r = Some (id, resp) -> id = request_id /\ (length resp <= RESPONSE_SIZE)%nat /\ resp = slice S (u32 (isn + 1)) (length resp).
Proof using Hmac Hip.
  intros Hl Hs. set (Q := fun r : option (Z * bytes) => forall id resp, r = Some (id, resp) -> id = request_id /\ (length resp <= RESPONSE_SIZE)%nat /\ resp = slice S (u32 (isn + 1)) (length resp)).
  enough (total (honest S isn 53000 80) (net_service_request mac our_ip ip request_id) Q) as H.
  { destruct (H s Hs) as (s' & r & E & _ & _ & HQ). by exists s', r. }
  unfold net_service_request. eapply total_bind; [by apply tcp_connect_total|]. intros [c|] Hc.
  2: { apply total_ret. intros ? ? [= <- <-]. split; [done|]. cbn. split; [lia|done]. }
  destruct Hc as (Hok & _ & Hlp & _ & Hrp & _ & frame & t & Hg & ((p & Et) & Hd & Hsr) & Hf & Hn).
  assert (t_seq t = isn) as Hisn by (apply (Hg p t Et); congruence). rewrite Hisn in Hn.
  eapply total_bind; [apply tcp_send_total; [done..|unfold FRAME_BUF_SIZE; cbn; lia]|]. intros [c1 sent] (Hp1 & Hn1 & _).
  assert (conn_ok c1) as Hok1 by by eapply same_peer_ok. destruct Hp1 as (P1 & P2 & P3 & P4).
  eapply (total_bind _ _ _ (fun '(c', r) => conn_ok c' /\ Q r)).
  - destruct sent; [|apply total_ret; split; [done|]; intros ? ? [=]].
    eapply total_bind; [apply (read_stream S isn 53000 80); [done..|congruence|congruence]|]. intros [c2 got] (Hp2 & Hlen & Hgot). apply total_ret.
    split; [by eapply same_peer_ok|]. intros ? ? [= <- <-]. split; [done|]. split; [done|]. by rewrite Hn1, Hn in Hgot.
  - intros [c2 r] [Hok2 HQ]. eapply total_bind; [by apply tcp_close_total|]. intros _ _. by apply total_ret.
Qed.

(** C32. Nothing on the wire can crash the stack, and nothing keeps it busy for ever but in accepting.  Whatever frames arrive, in whatever order, and
    whether or not transmissions complete, every operation of the stack returns without a panic, having looked at the
    receive ring at most so often: 60,000,000 times to resolve an address, 160,000,000 to ping, 360,000,000 to resolve a
    name, 75,000,000 to open a connection, 300,000,000 to send, its own limit to receive, 150,000,000 to close,
    82,445,000,000 for a request of the network service.  Accepting a connection is the exception: it looks at most its
    limit plus 100,000,000 times and once more for every transmission that failed meanwhile, so that connection requests
    whose answers cannot be transmitted keep it going for as long as they come.  The addresses, the transmit buffer and
    the address table have their sizes, at most 1,994 bytes are sent at once, and a name that is resolved makes a query
    that fits its 128-byte buffer. *)
Theorem stack_never_panics s ip : length ip = 4%nat -> length (TXBUF s) = FRAME_BUF_SIZE -> Forall (fun e => length (slot_mac e) = 6%nat) (ARP s) ->
  ends (arp_resolve mac our_ip ip) s 60000000 /\
  (forall id seq, ends (ping mac our_ip ip id seq) s 160000000) /\
  (forall junk host id, host_ok junk host -> ends (dns_resolve mac our_ip junk host id) s 360000000) /\
  (forall port max, exists s' r, tcp_accept mac our_ip port max s = Some (s', r) /\ polled s s' <= Z.max 0 max + 100000000 + (failures s' - failures s)) /\
  (forall dp sp, ends (tcp_connect mac our_ip ip dp sp) s 75000000) /\
  (forall c, conn_ok c ->
    (forall data, (length data <= 1994)%nat -> ends (tcp_send mac our_ip c data) s 300000000) /\
    (forall cap max, ends (tcp_recv mac our_ip c cap max) s (Z.max 0 max)) /\ ends (tcp_close mac our_ip c) s 150000000) /\
  (forall request_id, ends (net_service_request mac our_ip ip request_id) s 82445000000).
Proof using Hmac Hip.
  intros Hl Hb Ha. assert (net_ok (fun _ => True) s) as Hs by by split.
  assert (forall A (m : NetM A) Q n, total (fun _ => True) m Q -> polls m n (fun _ => True) -> ends m s n) as H by (intros; by eapply total_ends).
  split; [eapply H; [by apply arp_resolve_total|apply polls_resolve]|]. split; [intros; eapply H; [by apply ping_total|apply polls_ping]|].
  split; [intros; eapply H; [by apply dns_resolve_total|apply polls_dns]|]. split.
  { intros port max. destruct (tcp_accept_total (fun _ => True) mac our_ip Hmac Hip port max s Hs) as (s' & r & E & _). exists s', r. by split; [|eapply accept_polls]. }
  split; [intros; eapply H; [by apply tcp_connect_total|apply polls_connect]|]. split.
  - intros c Hc. split; [intros data Hd; eapply H; [apply tcp_send_total; [done..|unfold FRAME_BUF_SIZE; lia]|apply polls_tcp_send]|].
    split; [intros; eapply H; [by apply recv_total|apply polls_recv]|eapply H; [by apply tcp_close_total|apply polls_close]].
  - intros request_id. eapply H; [by apply request_total|apply polls_request].
Qed.
End service.

(** ** Two instances *)

Lemma tcp_of_frame mac our_ip dst_mac dst_ip sp dp seq ack flags ident payload : length mac = 6%nat -> length dst_mac = 6%nat -> ip_ok our_ip -> ip_ok dst_ip ->
  in_width 16 sp -> in_width 16 dp -> in_width 32 seq -> in_width 32 ack -> (54 + length payload <= FRAME_BUF_SIZE)%nat ->
  tcp_of (tcp_frame mac our_ip dst_mac dst_ip sp dp seq ack flags ident payload) =
  Some (Some (mkIpv4 our_ip dst_ip PROTO_TCP 34 (20 + length payload), mkTcp sp dp seq ack flags payload)).
Proof.
  intros Hm Hdm Hi Hd Hsp Hdp Hsq Hak Hl. unfold tcp_of, tcp_frame, ip_frame. set (seg := tcp_segment _ _ _ _ _ _ _ _).
  assert (length seg = 20 + length payload)%nat as Hseg by apply tcp_segment_length. unfold FRAME_BUF_SIZE in Hl.
  assert (length (eth_header dst_mac mac ETHERTYPE_IPV4) = 14%nat) as He by (unfold eth_header; rewrite !length_app, Hm, Hdm; done).
  pose proof (ipv4_parse_built (eth_header dst_mac mac ETHERTYPE_IPV4) our_ip dst_ip PROTO_TCP (u16 ident) seg [] He Hi Hd) as E. rewrite app_nil_r in E.
  rewrite E by (unfold is_byte, PROTO_TCP, IPV4_HDR_LEN; lia). cbn [mbind option_bind proto payload_len payload_off].
  change (PROTO_TCP =? PROTO_TCP) with true. rewrite Hseg, (proj2 (Nat.leb_le _ _)) by (unfold TCP_HDR_LEN; lia). cbn [andb].
  set (hdr := ipv4_header _ _ _ _ _). assert (length hdr = 20%nat) as Hh by (apply ipv4_header_length; [apply Hi|apply Hd]).
  assert (rslice (eth_header dst_mac mac ETHERTYPE_IPV4 ++ hdr ++ seg) (ETH_HDR_LEN + IPV4_HDR_LEN) (20 + length payload) = Some seg) as ->.
  { rewrite app_assoc. apply rslice_end; [by rewrite length_app, He, Hh|done]. }
  cbn [mbind option_bind]. unfold seg. by rewrite tcp_parse_segment.
Qed.

(** Rounds that find nothing pass. *)
Lemma spin_idle {A} (body : option bytes -> NetM (verdict A)) f rest : (forall s, body None s = Some (s, Again)) -> forall n left s, Z.of_nat n < left ->
  spin_on body (replicate n None ++ Some f :: rest) left s =
  ('(s, v) ← body (Some f) (set_rx rest s);
   match v with Done a => Some (s, Some a) | Again => spin_on body rest (left - Z.of_nat n - 1) s | Free => spin_on body rest (left - Z.of_nat n) s end).
Proof.
  intros Hb. induction n as [|n IH]; intros left s Hl.
  - cbn [replicate app spin_on]. rewrite (proj2 (Z.leb_gt _ _)) by lia. by replace (left - Z.of_nat 0) with left by lia.
  - cbn [replicate app spin_on]. rewrite (proj2 (Z.leb_gt _ _)), Hb by lia. cbn [mbind option_bind]. rewrite IH by lia.
    by replace (left - 1 - Z.of_nat n) with (left - Z.of_nat (S n)) by lia.
Qed.

Definition all_complete (s : net) : Prop := Forall (eq true) (TX_OK s).

Lemma complete_head s : all_complete s -> default true (head (TX_OK s)) = true.
Proof. unfold all_complete. destruct (TX_OK s); [done|]. by intros [<- _]%Forall_cons. Qed.

(** A transmission that completes. *)
Definition sent_ok (frame : bytes) (s s' : net) : Prop :=
  RX s' = RX s /\ ARP s' = ARP s /\ all_complete s' /\ length (TXBUF s') = FRAME_BUF_SIZE /\ SENT s' = SENT s ++ [(frame, true)].

Section two.
Context (mac our_ip : bytes) (Hmac : length mac = 6%nat) (Hip : ip_ok our_ip).

Lemma send_tcp_ok dst_mac dst_ip sp dp seq ack flags ident payload s : length dst_mac = 6%nat -> length dst_ip = 4%nat -> length (TXBUF s) = FRAME_BUF_SIZE ->
  (54 + length payload <= FRAME_BUF_SIZE)%nat -> all_complete s ->
  exists s', send_tcp mac our_ip dst_mac dst_ip sp dp seq ack flags ident payload s = Some (s', true) /\
    sent_ok (tcp_frame mac our_ip dst_mac dst_ip sp dp seq ack flags ident payload) s s'.
Proof using Hmac Hip.
  intros Hm Hd Hb Hl Hc. destruct (send_tcp_run mac our_ip Hmac (ip_len _ Hip) dst_mac dst_ip sp dp seq ack flags ident payload s Hm Hd Hb Hl) as (s' & E & E1 & E2 & E3 & E4 & E5).
  rewrite complete_head in * by done. exists s'. split; [done|]. split; [done|]. split; [done|]. split; [|split; [by rewrite E4|done]].
  unfold all_complete in *. rewrite E2. by destruct (TX_OK s); [|apply Forall_cons in Hc as [_ Hc]].
Qed.

(** The segment waited for arrives after [n] empty polls. *)
Lemma wait_run c want max n f rest p t s : RX s = replicate n None ++ Some f :: rest -> Z.of_nat n < max -> tcp_of f = Some (Some (p, t)) ->
  t_dst_port t = local_port c -> t_src_port t = remote_port c -> want t = true ->
  tcp_wait_for mac our_ip c want max s = Some (set_rx rest s, Some (t_seq t, t_flags t, length (t_payload t))).
Proof.
  intros Hr Hn Et Hd Hs Hw. unfold tcp_wait_for, spin. rewrite Hr, spin_idle by done. unfold lift, mbind, net_bind, mret, net_ret. rewrite Et. cbn [mbind option_bind].
  by rewrite Hd, Hs, !Z.eqb_refl, Hw.
Qed.

Lemma arp_known ip m s : arp_lookup (ARP s) ip = Some m -> arp_resolve mac our_ip ip s = Some (s, Some m).
Proof. intros H. unfold arp_resolve, get_arp, mbind, net_bind. cbn [mbind option_bind]. by rewrite H. Qed.

Definition syn_frame (m ip : bytes) (sp dp : Z) : bytes := tcp_frame mac our_ip m ip sp dp CLIENT_ISN 0 TCP_FLAG_SYN CLIENT_ISN [].
Definition synack_frame (m ip : bytes) (sp dp ack : Z) : bytes := tcp_frame mac our_ip m ip sp dp SERVER_ISN ack (Z.lor TCP_FLAG_SYN TCP_FLAG_ACK) SERVER_ISN [].
Definition ack_frame (m ip : bytes) (sp dp seq ack ident : Z) : bytes := tcp_frame mac our_ip m ip sp dp seq ack TCP_FLAG_ACK ident [].

(** A SYN, the answer after [n] empty polls, and the acknowledgement. *)
Lemma connect_run ip dp sp m n f rest p t s : length ip = 4%nat -> length m = 6%nat -> length (TXBUF s) = FRAME_BUF_SIZE -> all_complete s ->
  arp_lookup (ARP s) (arp_target our_ip ip) = Some m -> RX s = replicate n None ++ Some f :: rest -> Z.of_nat n < 5000000 ->
  tcp_of f = Some (Some (p, t)) -> t_dst_port t = sp -> t_src_port t = dp -> t_flags t = Z.lor TCP_FLAG_SYN TCP_FLAG_ACK ->
  exists s', tcp_connect mac our_ip ip dp sp s = Some (s', Some (mkConn Established sp ip dp m (u32 (CLIENT_ISN + 1)) (u32 (t_seq t + 1)))) /\
    RX s' = rest /\ SENT s' = SENT s ++ [(syn_frame m ip sp dp, true); (ack_frame m ip sp dp (u32 (CLIENT_ISN + 1)) (u32 (t_seq t + 1)) (CLIENT_ISN + 2), true)].
Proof using Hmac Hip.
  intros Hi Hm Hb Hc Ha Hr Hn Et Hd Hs Hf. unfold tcp_connect, mbind, net_bind. rewrite (arp_known _ _ _ Ha). cbn [mbind option_bind attempts].
  destruct (send_tcp_ok m ip sp dp CLIENT_ISN 0 TCP_FLAG_SYN CLIENT_ISN [] s Hm Hi Hb) as (s1 & E1 & R1 & _ & C1 & B1 & S1); [unfold FRAME_BUF_SIZE; cbn; lia|done|].
  unfold mbind, net_bind. rewrite E1. cbn [mbind option_bind negb].
  rewrite (wait_run _ _ _ n f rest p t) by (done || by rewrite ?R1, ?Hf). cbn [mbind option_bind]. rewrite Hf. change (has_flag (Z.lor TCP_FLAG_SYN TCP_FLAG_ACK) TCP_FLAG_RST) with false.
  cbv iota. unfold send_on. cbn [remote_mac remote_ip local_port remote_port send_next recv_next set_recv_next].
  destruct (send_tcp_ok m ip sp dp (u32 (CLIENT_ISN + 1)) (u32 (t_seq t + 1)) TCP_FLAG_ACK (CLIENT_ISN + 2) [] (set_rx rest s1) Hm Hi B1) as (s2 & E2 & R2 & _ & C2 & B2 & S2); [unfold FRAME_BUF_SIZE; cbn; lia|done|].
  rewrite E2. cbn [mbind option_bind]. exists s2. split; [done|]. split; [done|]. rewrite S2. cbn [SENT set_rx]. rewrite S1. by rewrite <- app_assoc.
Qed.

(** A SYN after [n] empty polls, the answer, and the acknowledgement after [k] more. *)
Lemma accept_run port max n k f g rest p t pg tg m s : length (TXBUF s) = FRAME_BUF_SIZE -> all_complete s ->
  RX s = replicate n None ++ Some f :: replicate k None ++ Some g :: rest -> Z.of_nat n < max -> Z.of_nat k < 100000000 ->
  tcp_of f = Some (Some (p, t)) -> t_dst_port t = port -> t_flags t = TCP_FLAG_SYN -> rslice f 6 6 = Some m ->
  tcp_of g = Some (Some (pg, tg)) -> t_dst_port tg = port -> t_src_port tg = t_src_port t -> t_flags tg = TCP_FLAG_ACK ->
  exists s', tcp_accept mac our_ip port max s = Some (s', Some (mkConn Established port (ip_src p) (t_src_port t) m (u32 (SERVER_ISN + 1)) (u32 (t_seq t + 1)))) /\
    RX s' = rest /\ SENT s' = SENT s ++ [(synack_frame m (ip_src p) port (t_src_port t) (u32 (t_seq t + 1)), true)].
Proof using Hmac Hip.
  intros Hb Hc Hr Hn Hk Et Hd Hf Hm Eg Hdg Hsg Hfg. destruct (tcp_of_src _ _ _ Et) as [Hs _]. pose proof (length_rslice _ _ _ _ Hm) as Hml.
  unfold tcp_accept, spin. unfold mbind at 1, net_bind at 1. rewrite Hr, spin_idle by done. unfold lift, mbind, net_bind. rewrite Et. cbn [mbind option_bind].
  rewrite Hd, Z.eqb_refl, Hf. change (has_flag TCP_FLAG_SYN TCP_FLAG_SYN) with true. change (has_flag TCP_FLAG_SYN TCP_FLAG_ACK) with false. cbn [andb negb]. rewrite Hm. cbn [mbind option_bind].
  destruct (send_tcp_ok m (ip_src p) port (t_src_port t) SERVER_ISN (u32 (t_seq t + 1)) (Z.lor TCP_FLAG_SYN TCP_FLAG_ACK) SERVER_ISN [] (set_rx (replicate k None ++ Some g :: rest) s) Hml Hs Hb) as (s1 & E1 & R1 & _ & C1 & B1 & S1); [unfold FRAME_BUF_SIZE; cbn; lia|done|].
  rewrite E1. cbn [mbind option_bind negb]. rewrite (wait_run _ _ _ k g rest pg tg) by (done || by rewrite ?R1, ?Hfg). cbn [mbind option_bind].
  exists (set_rx rest s1). split; [done|]. split; [done|]. exact S1.
Qed.
End two.

(** The two ends of one connection. *)
Record paired (mac_a ip_a mac_b ip_b : bytes) (a b : TcpConn) : Prop := {
  paired_a : remote_ip a = ip_b /\ remote_mac a = mac_b; paired_b : remote_ip b = ip_a /\ remote_mac b = mac_a;
  paired_ports : local_port a = remote_port b /\ remote_port a = local_port b;
  paired_ab : send_next a = recv_next b; paired_ba : send_next b = recv_next a }.

(** The two halves of the handshake fit.  When [tcp_connect] on one instance and [tcp_accept] on another see each other's frames, after any number of
    empty polls within their bounds, each sends exactly what the other waits for, both report the connection established, and they agree on it:
    each end has the other's address and ports, and expects the sequence number the other will send next. *)
Theorem handshake_agrees mac_a ip_a mac_b ip_b sp dp max i j k sa sb ra rb :
  length mac_a = 6%nat -> length mac_b = 6%nat -> ip_ok ip_a -> ip_ok ip_b -> in_width 16 sp -> in_width 16 dp ->
  length (TXBUF sa) = FRAME_BUF_SIZE -> length (TXBUF sb) = FRAME_BUF_SIZE -> all_complete sa -> all_complete sb ->
  arp_lookup (ARP sa) (arp_target ip_a ip_b) = Some mac_b -> Z.of_nat i < 5000000 -> Z.of_nat j < max -> Z.of_nat k < 100000000 ->
  let next_a := u32 (CLIENT_ISN + 1) in let next_b := u32 (SERVER_ISN + 1) in
  let syn := syn_frame mac_a ip_a mac_b ip_b sp dp in
  let synack := synack_frame mac_b ip_b mac_a ip_a dp sp next_a in
  let ack := ack_frame mac_a ip_a mac_b ip_b sp dp next_a next_b (CLIENT_ISN + 2) in
  RX sa = replicate i None ++ Some synack :: ra -> RX sb = replicate j None ++ Some syn :: replicate k None ++ Some ack :: rb ->
  exists sa' sb' a b, tcp_connect mac_a ip_a ip_b dp sp sa = Some (sa', Some a) /\ tcp_accept mac_b ip_b dp max sb = Some (sb', Some b) /\
    SENT sa' = SENT sa ++ [(syn, true); (ack, true)] /\ SENT sb' = SENT sb ++ [(synack, true)] /\
    state a = Established /\ state b = Established /\ paired mac_a ip_a mac_b ip_b a b.
Proof.
  intros Hma Hmb Hia Hib Hsp Hdp Hba Hbb Hca Hcb Harp Hi Hj Hk next_a next_b syn synack ack Hra Hrb.
  assert (forall x, in_width 32 (u32 x)) as Hw by (intros x; apply wrap_range; lia).
  assert (Z.of_nat (length (@nil Z)) = 0 /\ (54 + length (@nil Z) <= FRAME_BUF_SIZE)%nat) as [_ Hnil] by (unfold FRAME_BUF_SIZE; cbn; lia).
  assert (tcp_of syn = Some (Some (mkIpv4 ip_a ip_b PROTO_TCP 34 20, mkTcp sp dp CLIENT_ISN 0 TCP_FLAG_SYN []))) as Esyn by (apply tcp_of_frame; done || apply Hw).
  assert (tcp_of synack = Some (Some (mkIpv4 ip_b ip_a PROTO_TCP 34 20, mkTcp dp sp SERVER_ISN next_a (Z.lor TCP_FLAG_SYN TCP_FLAG_ACK) []))) as Esa by (apply tcp_of_frame; done || apply Hw).
  assert (tcp_of ack = Some (Some (mkIpv4 ip_a ip_b PROTO_TCP 34 20, mkTcp sp dp next_a next_b TCP_FLAG_ACK []))) as Eack by (apply tcp_of_frame; done || apply Hw).
  assert (rslice syn 6 6 = Some mac_a) as Hm by (unfold syn, syn_frame, tcp_frame, ip_frame, eth_header; rewrite <- !app_assoc; apply rslice_app; done).
  destruct (connect_run mac_a ip_a Hma Hia ip_b dp sp mac_b i synack ra _ _ sa (ip_len _ Hib) Hmb Hba Hca Harp Hra Hi Esa eq_refl eq_refl eq_refl) as (sa' & Ea & _ & Sa).
  destruct (accept_run mac_b ip_b Hmb Hib dp max j k syn ack rb _ _ _ _ mac_a sb Hbb Hcb Hrb Hj Hk Esyn eq_refl eq_refl Hm Eack eq_refl eq_refl eq_refl) as (sb' & Eb & _ & Sb).
  eexists sa', sb', _, _. split; [exact Ea|]. split; [exact Eb|]. split; [exact Sa|]. split; [exact Sb|]. by repeat split.
Qed.

Definition data_frame (mac our_ip : bytes) (c : TcpConn) (data : bytes) : bytes :=
  tcp_frame mac our_ip (remote_mac c) (remote_ip c) (local_port c) (remote_port c) (send_next c) (recv_next c) (Z.lor TCP_FLAG_PSH TCP_FLAG_ACK) (send_next c) data.

(** A transfer keeps the two ends in step.  When one end of an established connection sends up to 1994 bytes and the other receives, each seeing the
    other's frame after any number of empty polls within its bounds, the receiver gets the beginning of the data its buffer has room for and acknowledges
    all of it, the sender reports success, and the two ends agree again on both sequence numbers. *)
Theorem transfer_keeps_agreement mac_a ip_a mac_b ip_b a b data cap max i j sa sb ra rb :
  length mac_a = 6%nat -> length mac_b = 6%nat -> ip_ok ip_a -> ip_ok ip_b -> paired mac_a ip_a mac_b ip_b a b -> state a = Established ->
  in_width 16 (local_port a) -> in_width 16 (local_port b) -> in_width 32 (send_next a) -> in_width 32 (send_next b) ->
  data <> [] -> (length data <= 1994)%nat ->
  length (TXBUF sa) = FRAME_BUF_SIZE -> length (TXBUF sb) = FRAME_BUF_SIZE -> all_complete sa -> all_complete sb -> Z.of_nat i < 100000000 -> Z.of_nat j < max ->
  let next := u32 (send_next a + Z.of_nat (length data)) in
  let ack := ack_frame mac_b ip_b mac_a ip_a (local_port b) (local_port a) (send_next b) next (send_next b) in
  RX sa = replicate i None ++ Some ack :: ra -> RX sb = replicate j None ++ Some (data_frame mac_a ip_a a data) :: rb ->
  exists sa' sb' a' b', tcp_send mac_a ip_a a data sa = Some (sa', (a', true)) /\ tcp_recv mac_b ip_b b cap max sb = Some (sb', (b', take cap data)) /\
    SENT sa' = SENT sa ++ [(data_frame mac_a ip_a a data, true)] /\ SENT sb' = SENT sb ++ [(ack, true)] /\ paired mac_a ip_a mac_b ip_b a' b'.
Proof.
  intros Hma Hmb Hia Hib [[Ra1 Ra2] [Rb1 Rb2] [P1 P2] Nab Nba] Hst Hpa Hpb Hna Hnb Hd Hl Hba Hbb Hca Hcb Hi Hj next ack Hra Hrb.
  assert (forall x, in_width 32 (u32 x)) as Hw by (intros x; apply wrap_range; lia). assert ((54 + length data <= FRAME_BUF_SIZE)%nat /\ (54 + length (@nil Z) <= FRAME_BUF_SIZE)%nat) as [Hld Hnil] by (unfold FRAME_BUF_SIZE; cbn; lia).
  assert (tcp_of (data_frame mac_a ip_a a data) = Some (Some (mkIpv4 ip_a ip_b PROTO_TCP 34 (20 + length data), mkTcp (local_port a) (remote_port a) (send_next a) (recv_next a) (Z.lor TCP_FLAG_PSH TCP_FLAG_ACK) data))) as Ed.
  { unfold data_frame. rewrite Ra1, Ra2. apply tcp_of_frame; rewrite ?P2, <- ?Nba; done. }
  assert (tcp_of ack = Some (Some (mkIpv4 ip_b ip_a PROTO_TCP 34 20, mkTcp (local_port b) (local_port a) (send_next b) next TCP_FLAG_ACK []))) as Ea by (apply tcp_of_frame; done || apply Hw).
  (* the sender *)
  assert (exists sa', tcp_send mac_a ip_a a data sa = Some (sa', (set_send_next next a, true)) /\ SENT sa' = SENT sa ++ [(data_frame mac_a ip_a a data, true)]) as (sa' & Es & Ss).
  { unfold tcp_send. rewrite bool_decide_eq_true_2 by done. cbn [negb attempts]. unfold mbind, net_bind, send_on.
    destruct (send_tcp_ok mac_a ip_a Hma Hia (remote_mac a) (remote_ip a) (local_port a) (remote_port a) (send_next a) (recv_next a) (Z.lor TCP_FLAG_PSH TCP_FLAG_ACK) (send_next a) data sa) as (s1 & -> & R1 & _ & _ & _ & S1); [by rewrite Ra2|rewrite Ra1; apply Hib|done..|].
    cbn [mbind option_bind negb]. rewrite (wait_run mac_a ip_a _ _ _ i ack ra _ _ _ ltac:(rewrite R1; exact Hra) Hi Ea) by (cbn; try done; by rewrite Z.eqb_refl).
    cbn [mbind option_bind]. eexists. split; [reflexivity|]. exact S1. }
  (* the receiver *)
  assert (exists sb', tcp_recv mac_b ip_b b cap max sb = Some (sb', (set_recv_next next b, take cap data)) /\ SENT sb' = SENT sb ++ [(ack, true)]) as (sb' & Er & Sr).
  { unfold tcp_recv, spin. unfold mbind at 1, net_bind at 1. rewrite Hrb, spin_idle by done. unfold lift, mbind, net_bind. rewrite Ed. cbn [mbind option_bind t_dst_port t_src_port t_flags t_payload t_seq].
    rewrite P1, P2, !Z.eqb_refl. change (has_flag (Z.lor TCP_FLAG_PSH TCP_FLAG_ACK) TCP_FLAG_RST) with false. cbn [andb]. rewrite bool_decide_eq_false_2, <- Nab, Z.eqb_refl by done. cbn [andb negb]. fold next.
    unfold send_on. cbn [remote_mac remote_ip local_port remote_port send_next recv_next set_recv_next].
    destruct (send_tcp_ok mac_b ip_b Hmb Hib (remote_mac b) (remote_ip b) (local_port b) (remote_port b) (send_next b) next TCP_FLAG_ACK (send_next b) [] (set_rx rb sb)) as (s1 & E1 & R1 & _ & _ & _ & S1); [by rewrite Rb2|rewrite Rb1; apply Hia|done..|].
    rewrite E1. cbn [mbind option_bind]. eexists. split; [reflexivity|]. rewrite S1. unfold ack, ack_frame. by rewrite P1, Rb1, Rb2. }
  eexists sa', sb', _, _. split; [exact Es|]. split; [exact Er|]. split; [exact Ss|]. split; [exact Sr|]. by split.
Qed.

(** ** Address resolution between two instances *)

Definition arp_frame (oper : Z) (dst src_mac src_ip dst_mac dst_ip : bytes) : bytes := eth_header dst src_mac ETHERTYPE_ARP ++ arp_message oper src_mac src_ip dst_mac dst_ip.

Section arp.
Context (mac our_ip : bytes) (Hmac : length mac = 6%nat) (Hip : length our_ip = 4%nat).

(** An ARP packet teaches its sender's address; a request for our own is answered. *)
Lemma handle_arp_run oper dst sm si dm di s : length dst = 6%nat -> length sm = 6%nat -> length si = 4%nat -> length dm = 6%nat -> length di = 4%nat -> oper = 1 \/ oper = 2 ->
  length (TXBUF s) = FRAME_BUF_SIZE ->
  exists s', handle_arp mac our_ip (arp_frame oper dst sm si dm di) s = Some (s', tt) /\ ARP s' = arp_insert (ARP s) si sm /\
    SENT s' = SENT s ++ (if (oper =? 1) && bool_decide (di = our_ip) then [(arp_frame 2 sm mac our_ip sm si, default true (head (TX_OK s)))] else []).
Proof using Hmac Hip.
  intros Hd Hsm Hsi Hdm Hdi Ho Hb. unfold handle_arp, arp_frame. set (e := eth_header dst sm ETHERTYPE_ARP). set (a := arp_message oper sm si dm di).
  assert (length e = 14%nat) as He by (unfold e, eth_header; rewrite !length_app, Hd, Hsm; done).
  assert (length a = 28%nat) as La by (unfold a, arp_message; rewrite !length_app, Hsm, Hsi, Hdm, Hdi; done).
  assert (is_arp (e ++ a) = true) as Harp.
  { unfold is_arp. rewrite length_app, He, La. rewrite bool_decide_eq_true_2; [done|]. unfold e, eth_header. rewrite <- !app_assoc, (app_assoc dst). apply rslice_app; [by rewrite length_app, Hd, Hsm|done]. }
  rewrite Harp, length_app, He, La. cbn [negb Nat.ltb Nat.leb ETH_HDR_LEN Nat.add orb]. rewrite drop_app_length' by done.
  assert (rslice a 8 6 = Some sm) as E1 by (unfold a, arp_message; apply rslice_app; done).
  assert (rslice a 14 4 = Some si) as E2 by (unfold a, arp_message; rewrite app_assoc; apply rslice_app; [by rewrite length_app, Hsm|done]).
  assert (rslice a 24 4 = Some di) as E3.
  { unfold a, arp_message. rewrite (app_assoc _ sm), (app_assoc _ si), (app_assoc _ dm). apply rslice_end; [by rewrite !length_app, Hsm, Hsi, Hdm|done]. }
  assert (r16 a 6 = Some oper) as E4 by (unfold a, arp_message, r16; by destruct Ho as [->| ->]).
  unfold lift, get_arp, put_arp, mbind, net_bind, mret, net_ret. rewrite E1, E2, E3, E4. cbn [mbind option_bind].
  destruct Ho as [->| ->]; cbn [Z.eqb Pos.eqb andb]; [|eexists; split; [done|]; split; [done|by rewrite app_nil_r]].
  case_bool_decide as Ht; [|eexists; split; [done|]; split; [done|by rewrite app_nil_r]].
  unfold build. rewrite arp_reply_spec by done. cbn [TXBUF set_arp]. set (reply := eth_header sm mac ETHERTYPE_ARP ++ _).
  assert (length reply = 42%nat) as Lr by (unfold reply, eth_header, arp_message; rewrite !length_app, Hsm, Hmac, Hip, Hsi; done).
  destruct (wslice (TXBUF s) 0 reply) as [b|] eqn:Eb; [|unfold wslice in Eb; rewrite decide_True in Eb by (rewrite Lr, Hb; unfold FRAME_BUF_SIZE; lia); done].
  cbn [mbind option_bind]. unfold tx_frame. cbn [mbind option_bind]. eexists. split; [done|]. split; [done|]. cbn [SENT set_txbuf set_arp TX_OK TXBUF].
  do 2 f_equal. f_equal. apply wslice_Some in Eb as [_ ->]. change (Z.to_nat (u16 (Z.of_nat 42))) with 42%nat. by rewrite take_0, app_nil_l, take_app_length' by done.
Qed.
End arp.

(** Address resolution works between two instances: the request that [arp_resolve] broadcasts on one, handled by the other, is answered with exactly the frame that, handled
    by the first, makes it know the other's hardware address; and the asking side's address is learnt on the way. *)
Theorem arp_exchange mac_a ip_a mac_b ip_b sa sb b1 b2 n :
  length mac_a = 6%nat -> length mac_b = 6%nat -> length ip_a = 4%nat -> length ip_b = 4%nat -> length (TXBUF sa) = FRAME_BUF_SIZE -> length (TXBUF sb) = FRAME_BUF_SIZE ->
  arp_lookup (ARP sa) ip_b = None -> ARP sa <> [] -> arp_lookup (ARP sb) ip_a = None -> ARP sb <> [] ->
  arp_build_request b1 mac_a ip_a ip_b = Some (b2, n) ->
  exists sb' reply sent, handle_arp mac_b ip_b (take n b2) sb = Some (sb', tt) /\ SENT sb' = SENT sb ++ [(reply, sent)] /\ arp_lookup (ARP sb') ip_a = Some mac_a /\
  exists sa', handle_arp mac_a ip_a reply sa = Some (sa', tt) /\ arp_lookup (ARP sa') ip_b = Some mac_b.
Proof.
  intros Hma Hmb Hia Hib Hba Hbb Hna Hea Hnb Heb Hreq. rewrite arp_request_spec in Hreq by done.
  destruct (wslice b1 0 _) as [b|] eqn:Eb; [|done]. cbn [mbind option_bind] in Hreq. injection Hreq as -> <-.
  assert (take 42 b2 = arp_frame 1 BROADCAST_MAC mac_a ip_a (replicate 6 0) ip_b) as ->.
  { apply wslice_Some in Eb as [_ ->]. rewrite take_0, app_nil_l, take_app_length'; [done|]. unfold eth_header, arp_message. rewrite !length_app, Hma, Hia, Hib. done. }
  destruct (handle_arp_run mac_b ip_b Hmb Hib 1 BROADCAST_MAC mac_a ip_a (replicate 6 0) ip_b sb) as (sb' & E1 & A1 & S1); [done..|by left|done|].
  rewrite bool_decide_eq_true_2 in S1 by done. cbn [Z.eqb Pos.eqb andb] in S1.
  eexists sb', _, _. split; [exact E1|]. split; [exact S1|]. split; [rewrite A1; apply arp_lookup_insert; [done|by destruct (ARP sb); cbn; [|lia]]|].
  destruct (handle_arp_run mac_a ip_a Hma Hia 2 mac_a mac_b ip_b mac_a ip_a sa) as (sa' & E2 & A2 & _); [done..|by right|done|].
  exists sa'. split; [exact E2|]. rewrite A2. apply arp_lookup_insert; [done|by destruct (ARP sa); cbn; [|lia]].
Qed.

(** ** Witnesses *)

Definition honestb (S : Z -> Z) (isn lp rp : Z) (frame : bytes) : bool :=
  match tcp_of frame with
  | Some (Some (_, t)) =>
      negb (t_dst_port t =? lp) || negb (t_src_port t =? rp) ||
      (bool_decide (t_payload t = slice S (t_seq t) (length (t_payload t))) && (negb (Z.land (t_flags t) 0x12 =? 0x12) || (t_seq t =? isn)))
  | _ => true
  end.

Lemma honestb_honest S isn lp rp frame : honestb S isn lp rp frame = true -> honest S isn lp rp frame.
Proof.
  intros H p t E Hd Hs. unfold honestb in H. rewrite E, Hd, Hs, !Z.eqb_refl in H. cbn [negb orb] in H. apply andb_true_iff in H as [H1%bool_decide_eq_true H2].
  split; [done|]. intros Hf. rewrite Hf, Z.eqb_refl in H2. by apply Z.eqb_eq in H2.
Qed.

Definition eventb (P : bytes -> bool) (ev : option bytes) : bool := match ev with Some f => P f | None => true end.

Lemma honest_schedule S isn lp rp rx : forallb (eventb (honestb S isn lp rp)) rx = true -> forall f, Some f ∈ rx -> honest S isn lp rp f.
Proof. intros H f Hf. apply honestb_honest. rewrite forallb_forall in H. by apply (H (Some f)), list_elem_of_In. Qed.

Module NetWitness.

Definition mac_a : bytes := replicate 6 0x52.
Definition mac_b : bytes := replicate 6 0x53.
Definition ip_a : bytes := [10; 0; 2; 15].
Definition ip_b : bytes := [10; 0; 2; 16].
Definition knows (ip mac : bytes) : ArpTable := arp_insert arp_new ip mac.
Definition start (arp : ArpTable) (rx : list (option bytes)) : net := mkNet rx [] [] (replicate 2048 0) arp.

Lemma ip_a_ok : ip_ok ip_a.
Proof. split; [done|]. by repeat constructor. Qed.
Lemma ip_b_ok : ip_ok ip_b.
Proof. split; [done|]. by repeat constructor. Qed.

(** A web server whose answer begins [HTTP/1.0 200]. *)
Definition server : bytes := [93; 184; 215; 14].
Definition isn : Z := 1000.
Definition answer : bytes := [72; 84; 84; 80; 47; 49; 46; 48; 32; 50; 48; 48].
Definition stream (q : Z) : Z := default 0 (answer !! Z.to_nat (u32 (q - (isn + 1)))).
Definition from_server (seq ack flags : Z) (payload : bytes) : option bytes := Some (tcp_frame mac_b server mac_a ip_a 80 53000 seq ack flags 0 payload).
Definition acked : Z := CLIENT_ISN + 1 + Z.of_nat (length HTTP_GET).

(** Its segments arrive late, twice and out of order, between other frames. *)
Definition conversation : list (option bytes) :=
  [None; Some [1; 2; 3]; from_server isn (CLIENT_ISN + 1) 0x12 []; None; from_server (isn + 1) acked 0x10 [];
   from_server (isn + 1) acked 0x18 (take 5 answer); None; from_server (isn + 10) acked 0x18 (drop 9 answer); from_server (isn + 1) acked 0x18 (take 5 answer);
   from_server (isn + 6) acked 0x18 (take 4 (drop 5 answer)); from_server (isn + 10) acked 0x18 (drop 9 answer); from_server (isn + 13) acked 0x11 []].

Definition online : net := start (knows GATEWAY_IP mac_b) conversation.

Lemma relay_witness : snd <$> net_service_request mac_a ip_a server 7 online = Some (Some (7, answer)) /\ answer = slice stream (u32 (isn + 1)) 12.
Proof.
  assert (snd <$> net_service_request mac_a ip_a server 7 online = Some (Some (7, answer))) as E by by vm_compute. split; [exact E|].
  destruct (service_relays_stream mac_a ip_a eq_refl eq_refl stream isn server 7 online eq_refl) as (s' & r & Er & H).
  { split; [done|apply honest_schedule; by vm_compute|apply (bool_decide_unpack _); by vm_compute]. }
  rewrite Er in E. injection E as ->. by destruct (H 7 answer eq_refl) as (_ & _ & ?).
Defined.

Definition noisy : net := start (knows ip_b mac_b) [Some [0]; Some (replicate 60 0x45); None].

Lemma robust_witness : ends (ping mac_a ip_a ip_b 1 1) noisy 160000000 /\ ends (tcp_send mac_a ip_a (mkConn Established 52000 ip_b 7000 mac_b 1 1) HTTP_GET) noisy 300000000 /\
  exists s' r, tcp_accept mac_a ip_a 7000 2 noisy = Some (s', r) /\ polled noisy s' <= 100000002 + (failures s' - failures noisy).
Proof.
  destruct (stack_never_panics mac_a ip_a eq_refl eq_refl noisy ip_b eq_refl eq_refl) as (_ & H1 & _ & H2 & _ & H3 & _); [apply (bool_decide_unpack _); by vm_compute|].
  split; [exact (H1 1 1)|]. split; [|exact (H2 7000 2)].
  destruct (H3 (mkConn Established 52000 ip_b 7000 mac_b 1 1)) as (H4 & _); [by split|]. apply H4. cbn. lia.
Defined.

Definition syn : bytes := syn_frame mac_a ip_a mac_b ip_b 52000 7000.
Definition synack : bytes := synack_frame mac_b ip_b mac_a ip_a 7000 52000 (u32 (CLIENT_ISN + 1)).
Definition ack : bytes := ack_frame mac_a ip_a mac_b ip_b 52000 7000 (u32 (CLIENT_ISN + 1)) (u32 (SERVER_ISN + 1)) (CLIENT_ISN + 2).
Definition client : net := start (knows ip_b mac_b) [None; Some synack].
Definition listener : net := start arp_new [None; None; Some syn; Some ack].

(** A connection request whose answer cannot be transmitted does not count as a round: four of them are looked at with a
    limit of one. *)
Lemma accept_exceeds_limit : let s := mkNet (replicate 4 (Some syn)) (replicate 4 false) [] (replicate 2048 0) arp_new in
  (fun r => (polled s r.1, failures r.1)) <$> tcp_accept mac_b ip_b 7000 1 s = Some (4, 4).
Proof. by vm_compute. Qed.

Lemma handshake_witness : exists sa sb a b, tcp_connect mac_a ip_a ip_b 7000 52000 client = Some (sa, Some a) /\ tcp_accept mac_b ip_b 7000 300000000 listener = Some (sb, Some b) /\
  state a = Established /\ state b = Established /\ paired mac_a ip_a mac_b ip_b a b.
Proof.
  destruct (handshake_agrees mac_a ip_a mac_b ip_b 52000 7000 300000000 1 2 0 client listener [] [] eq_refl eq_refl ip_a_ok ip_b_ok ltac:(red; lia) ltac:(red; lia) eq_refl eq_refl
    (Forall_nil_2 _) (Forall_nil_2 _) eq_refl ltac:(lia) ltac:(lia) ltac:(lia) eq_refl eq_refl) as (sa & sb & a & b & E1 & E2 & _ & _ & H).
  exact (ex_intro _ sa (ex_intro _ sb (ex_intro _ a (ex_intro _ b (conj E1 (conj E2 H)))))).
Defined.

Definition conn_a : TcpConn := mkConn Established 52000 ip_b 7000 mac_b (u32 (CLIENT_ISN + 1)) (u32 (SERVER_ISN + 1)).
Definition conn_b : TcpConn := mkConn Established 7000 ip_a 52000 mac_a (u32 (SERVER_ISN + 1)) (u32 (CLIENT_ISN + 1)).
Definition hello : bytes := [72; 69; 76; 76; 79].
Definition hello_ack : bytes := ack_frame mac_b ip_b mac_a ip_a 7000 52000 (u32 (SERVER_ISN + 1)) (u32 (u32 (CLIENT_ISN + 1) + 5)) (u32 (SERVER_ISN + 1)).

Lemma transfer_witness : exists sb b, tcp_recv mac_b ip_b conn_b 128 100000000 (start arp_new [Some (data_frame mac_a ip_a conn_a hello)]) = Some (sb, (b, hello)) /\ recv_next b = u32 (CLIENT_ISN + 6).
Proof.
  assert (forall x, in_width 32 (u32 x)) as Hw by (intros x; apply wrap_range; lia).
  destruct (transfer_keeps_agreement mac_a ip_a mac_b ip_b conn_a conn_b hello 128 100000000 0 0 (start arp_new [Some hello_ack]) (start arp_new [Some (data_frame mac_a ip_a conn_a hello)]) [] []
    eq_refl eq_refl ip_a_ok ip_b_ok ltac:(by repeat split) eq_refl ltac:(red; cbn; lia) ltac:(red; cbn; lia) (Hw _) (Hw _) ltac:(done) ltac:(cbn; lia) eq_refl eq_refl
    (Forall_nil_2 _) (Forall_nil_2 _) ltac:(lia) ltac:(lia) eq_refl eq_refl) as (sa & sb & a & b & E1 & E2 & _ & _ & [_ _ _ Hn _]).
  exists sb, b. split; [exact E2|]. rewrite <- Hn. assert (fst ∘ snd <$> tcp_send mac_a ip_a conn_a hello (start arp_new [Some hello_ack]) = Some (set_send_next (u32 (CLIENT_ISN + 6)) conn_a)) as E by by vm_compute.
  rewrite E1 in E. by injection E as ->.
Defined.

Lemma arp_witness : exists sb reply sent, handle_arp mac_b ip_b (arp_frame 1 BROADCAST_MAC mac_a ip_a (replicate 6 0) ip_b) (start arp_new []) = Some (sb, tt) /\ SENT sb = [(reply, sent)] /\
  exists sa, handle_arp mac_a ip_a reply (start arp_new []) = Some (sa, tt) /\ arp_lookup (ARP sa) ip_b = Some mac_b.
Proof.
  destruct (arp_exchange mac_a ip_a mac_b ip_b (start arp_new []) (start arp_new []) (replicate 42 0) (arp_frame 1 BROADCAST_MAC mac_a ip_a (replicate 6 0) ip_b) 42
    eq_refl eq_refl eq_refl eq_refl eq_refl eq_refl eq_refl ltac:(discriminate) eq_refl ltac:(discriminate) ltac:(by vm_compute)) as (sb & reply & sent & E & Hs & _ & H).
  exists sb, reply, sent. split; [exact E|]. split; [exact Hs|]. exact H.
Defined.

(** A connection does not look at the sender's address: a segment from any host with the right ports counts. *)
Lemma foreign_data_accepted :
  (snd ∘ snd) <$> tcp_recv mac_b ip_b conn_b 128 100000000 (start arp_new [Some (tcp_frame mac_a [6; 6; 6; 6] mac_b ip_b 52000 7000 (recv_next conn_b) 0 0x18 0 hello)]) = Some hello /\ remote_ip conn_b <> [6; 6; 6; 6].
Proof. split; [by vm_compute|done]. Qed.

(** A request whose data is never acknowledged is never answered. *)
Lemma unanswered_request : snd <$> net_service_request mac_a ip_a server 7 (start (knows GATEWAY_IP mac_b) [from_server isn (CLIENT_ISN + 1) 0x12 []]) = Some None.
Proof. by vm_compute. Qed.

(** Bytes that do not fit the caller's buffer are acknowledged and lost. *)
Lemma overflow_lost : let s := start arp_new [Some (data_frame mac_a ip_a conn_a hello)] in
  (fun r => (snd r.2, recv_next (fst r.2))) <$> tcp_recv mac_b ip_b conn_b 2 100000000 s = Some (take 2 hello, u32 (recv_next conn_b + 5)).
Proof. by vm_compute. Qed.
End NetWitness.
