(* ===== verification/Update.v ===== *)
(** * Packages, signed updates and crash records

    [kernel_rs/src/package.rs] (the [AGYPKG1] format with its Adler-32 checksum and the update check), [update.rs] (the
    [AGYPKG2] format authenticated with SHA-256 and HMAC, and the two banks an update alternates between) and
    [telemetry.rs] (the crash record and its digest).  The headers are read at the offsets [repr(C)] gives their fields;
    [None] is a panic. *)

From S2P Require Import Prelude Bits Crypto.

(** ** Signed packages *)

(** [AGYPKG2], then a zero. *)
Definition SIGNED_PACKAGE_MAGIC : bytes := [65; 71; 89; 80; 75; 71; 50; 0].

(** [AGENTIC_OS_ROOT_TRUST_KEY_2026!!]. *)
Definition ROOT_UPDATE_KEY : bytes :=
  [65; 71; 69; 78; 84; 73; 67; 95; 79; 83; 95; 82; 79; 79; 84; 95; 84; 82; 85; 83; 84; 95; 75; 69; 89; 95; 50; 48; 50; 54; 33; 33].

Record SignedPackageHeader := mkSigned {
  magic : bytes; version : Z; flags : Z; payload_offset : Z; payload_size : Z; sha256_digest : bytes; hmac_signature : bytes; name : bytes }.

(** [size_of::<SignedPackageHeader>()]. *)
Definition SIGNED_HDR_SIZE : nat := 120.

(** [read_unaligned]. *)
Definition read_signed (b : bytes) : option SignedPackageHeader :=
  m ← rslice b 0 8; v ← rle 4 b 8; f ← rle 4 b 12; po ← rle 4 b 16; ps ← rle 4 b 20;
  d ← rslice b 24 32; s ← rslice b 56 32; n ← rslice b 88 32; Some (mkSigned m v f po ps d s n).

(** The bytes of a header, as [from_raw_parts] sees them. *)
Definition signed_bytes (h : SignedPackageHeader) : bytes :=
  magic h ++ le_bytes 4 (version h) ++ le_bytes 4 (flags h) ++ le_bytes 4 (payload_offset h) ++ le_bytes 4 (payload_size h) ++
  sha256_digest h ++ hmac_signature h ++ name h.

Inductive UpdateError :=
  | UTooShort | UBadMagic | UInvalidOffsets | TamperedPayload | BadSignature | VersionDowngrade (current_version new_version : Z) | RollbackUnavailable.

Inductive BankSlot := BankA | BankB.
#[export] Instance BankSlot_eq_dec : EqDecision BankSlot.
Proof. solve_decision. Defined.

Definition alternate (b : BankSlot) : BankSlot := match b with BankA => BankB | BankB => BankA end.

Record DualBankManager := mkBanks { active_bank : BankSlot; bank_a_version : Z; bank_b_version : Z; rollback_available : bool }.

Definition banks_new (initial_version : Z) : DualBankManager := mkBanks BankA initial_version 0 false.

Definition active_version (m : DualBankManager) : Z := match active_bank m with BankA => bank_a_version m | BankB => bank_b_version m end.

Definition stage_update (m : DualBankManager) (package_bytes key : bytes) : option (result (BankSlot * Z * bytes) UpdateError) :=
  if (length package_bytes <? SIGNED_HDR_SIZE)%nat then Some (Err UTooShort) else
  hdr ← read_signed package_bytes;
  if negb (bool_decide (magic hdr = SIGNED_PACKAGE_MAGIC)) then Some (Err UBadMagic) else
  let start := payload_offset hdr in
  let end_ := saturating_add 64 start (payload_size hdr) in
  if (start <? Z.of_nat SIGNED_HDR_SIZE) || (Z.of_nat (length package_bytes) <? end_) then Some (Err UInvalidOffsets) else
  payload ← rslice package_bytes (Z.to_nat start) (Z.to_nat (end_ - start));
  let current_version := active_version m in
  if version hdr <=? current_version then Some (Err (VersionDowngrade current_version (version hdr))) else
  computed_digest ← digest payload;
  if negb (constant_time_eq computed_digest (sha256_digest hdr)) then Some (Err TamperedPayload) else
  computed_hmac ← mac key (sha256_digest hdr);
  if negb (constant_time_eq computed_hmac (hmac_signature hdr)) then Some (Err BadSignature) else
  Some (Ok (alternate (active_bank m), version hdr, payload)).

Definition commit_update (m : DualBankManager) (target_bank : BankSlot) (new_version : Z) : DualBankManager :=
  match target_bank with
  | BankA => mkBanks BankA new_version (bank_b_version m) true
  | BankB => mkBanks BankB (bank_a_version m) new_version true
  end.

Definition rollback (m : DualBankManager) : DualBankManager * result (BankSlot * Z) UpdateError :=
  if negb (rollback_available m) then (m, Err RollbackUnavailable) else
  let m := mkBanks (alternate (active_bank m)) (bank_a_version m) (bank_b_version m) false in
  (m, Ok (active_bank m, active_version m)).

(** At most 32 bytes of a string, padded with zeros: [name_bytes] here, [reason] in a crash record. *)
Definition fixed32 (s : bytes) : option bytes :=
  let nlen := Nat.min (length s) 32 in
  src ← rslice s 0 nlen; wslice (replicate 32 0) 0 src.

Definition create_signed_package (v : Z) (nm payload key : bytes) : option bytes :=
  d ← digest payload; s ← mac key d; n ← fixed32 nm;
  Some (signed_bytes (mkSigned SIGNED_PACKAGE_MAGIC v 0 (Z.of_nat SIGNED_HDR_SIZE) (u32 (Z.of_nat (length payload))) d s n) ++ payload).

(** What the callers of the manager do with a package: stage it, and commit what was staged. *)
Definition apply_update (m : DualBankManager) (package_bytes key : bytes) : option (DualBankManager * result Z UpdateError) :=
  r ← stage_update m package_bytes key;
  match r with
  | Ok (target_bank, v, _) => Some (commit_update m target_bank v, Ok v)
  | Err e => Some (m, Err e)
  end.

(** ** Application packages *)

(** [AGYPKG1], then a zero. *)
Definition PACKAGE_MAGIC : bytes := [65; 71; 89; 80; 75; 71; 49; 0].

Record PackageHeader := mkPkgHdr {
  p_magic : bytes; p_version : Z; manifest_mask : Z; p_flags : Z; elf_offset : Z; elf_size : Z; checksum : Z; p_name : bytes }.

(** [size_of::<PackageHeader>()]. *)
Definition PACKAGE_HDR_SIZE : nat := 60.

Definition read_package (b : bytes) : option PackageHeader :=
  m ← rslice b 0 8; v ← rle 4 b 8; k ← rle 2 b 12; f ← rle 2 b 14; eo ← rle 4 b 16; es ← rle 4 b 20; c ← rle 4 b 24; n ← rslice b 28 32;
  Some (mkPkgHdr m v k f eo es c n).

Inductive PackageError :=
  | TooShort | BadMagic | InvalidOffsets | ChecksumMismatch (expected actual : Z) | UpdateVersionDowngrade (old_version new_version : Z).

Record Package := mkPackage { header : PackageHeader; elf : bytes }.

Definition adler_step (st : Z * Z) (byte : Z) : Z * Z :=
  let '(a, b) := st in
  let a := u32 (a + byte) mod 65521 in (a, u32 (b + a) mod 65521).

Definition adler32 (data : bytes) : Z :=
  let '(a, b) := foldl adler_step (1, 0) data in Z.lor (u32 (Z.shiftl b 16)) a.

Definition parse_and_verify (b : bytes) : option (result Package PackageError) :=
  if (length b <? PACKAGE_HDR_SIZE)%nat then Some (Err TooShort) else
  hdr ← read_package b;
  if negb (bool_decide (p_magic hdr = PACKAGE_MAGIC)) then Some (Err BadMagic) else
  let start := elf_offset hdr in
  let end_ := saturating_add 64 start (elf_size hdr) in
  if (start <? Z.of_nat PACKAGE_HDR_SIZE) || (Z.of_nat (length b) <? end_) then Some (Err InvalidOffsets) else
  elf ← rslice b (Z.to_nat start) (Z.to_nat (end_ - start));
  let computed := adler32 elf in
  if negb (computed =? checksum hdr) then Some (Err (ChecksumMismatch (checksum hdr) computed)) else
  Some (Ok (mkPackage hdr elf)).

Definition verify_update (current_version : Z) (new_pkg_bytes : bytes) (expected_source_checksum : Z) : option (result Package PackageError) :=
  r ← parse_and_verify new_pkg_bytes;
  match r with
  | Err e => Some (Err e)
  | Ok pkg =>
      if p_version (header pkg) <=? current_version then Some (Err (UpdateVersionDowngrade current_version (p_version (header pkg)))) else
      if negb (checksum (header pkg) =? expected_source_checksum) then Some (Err (ChecksumMismatch expected_source_checksum (checksum (header pkg)))) else
      Some (Ok pkg)
  end.

(** ** Crash records *)

(** [AGYCRSH1]. *)
Definition TELEMETRY_MAGIC : bytes := [65; 71; 89; 67; 82; 83; 72; 49].

Record TelemetryCrashRecord := mkCrash {
  t_magic : bytes; timestamp : Z; fault_vector : Z; reserved : bytes; error_code : Z; rip : Z; rsp : Z; cr2 : Z;
  thread_id : Z; uid : Z; reason : bytes; sha256_checksum : bytes }.

(** The bytes before [sha256_checksum]. *)
Definition crash_data (r : TelemetryCrashRecord) : bytes :=
  t_magic r ++ le_bytes 8 (timestamp r) ++ le_bytes 1 (fault_vector r) ++ reserved r ++ le_bytes 8 (error_code r) ++ le_bytes 8 (rip r) ++
  le_bytes 8 (rsp r) ++ le_bytes 8 (cr2 r) ++ le_bytes 4 (thread_id r) ++ le_bytes 4 (uid r) ++ reason r.

Definition compute_checksum (r : TelemetryCrashRecord) : option bytes := digest (crash_data r).

Definition crash_verify (r : TelemetryCrashRecord) : option bool :=
  if negb (bool_decide (t_magic r = TELEMETRY_MAGIC)) then Some false else
  expected ← compute_checksum r; Some (constant_time_eq expected (sha256_checksum r)).

Definition with_checksum (r : TelemetryCrashRecord) (c : bytes) : TelemetryCrashRecord :=
  mkCrash (t_magic r) (timestamp r) (fault_vector r) (reserved r) (error_code r) (rip r) (rsp r) (cr2 r) (thread_id r) (uid r) (reason r) c.

(** The store [CRASH_RECORD_STORE] after it, and the record. *)
Definition capture_crash (vector code ip sp addr thread user : Z) (reason_str : bytes) : option (option TelemetryCrashRecord * TelemetryCrashRecord) :=
  rs ← fixed32 reason_str;
  let record := mkCrash TELEMETRY_MAGIC 1000 vector (replicate 7 0) code ip sp addr thread user rs (replicate 32 0) in
  c ← compute_checksum record;
  let record := with_checksum record c in
  Some (Some record, record).

Definition last_crash_record (store : option TelemetryCrashRecord) : option TelemetryCrashRecord := store.

(** ** Reading headers *)

Lemma rslice_skip {A} (s t : list A) off len n : length s = n -> (n <= off)%nat -> rslice (s ++ t) off len = rslice t (off - n) len.
Proof.
  intros <- H. unfold rslice. rewrite length_app. rewrite drop_app_ge by done. destruct (decide (off - length s + len <= length t)%nat); [by rewrite decide_True by lia|by rewrite decide_False by lia].
Qed.

Lemma rslice_here {A} (s t : list A) len : length s = len -> rslice (s ++ t) 0 len = Some s.
Proof. intros <-. apply rslice_Some. rewrite length_app, drop_0, take_app_length. split; [lia|done]. Qed.

Lemma rle_skip (s t : bytes) k off n : length s = n -> (n <= off)%nat -> rle k (s ++ t) off = rle k t (off - n).
Proof. intros. unfold rle. by rewrite (rslice_skip _ _ _ _ n). Qed.

Lemma rle_here n v (t : bytes) : in_width (8 * Z.of_nat n) v -> rle n (le_bytes n v ++ t) 0 = Some v.
Proof. intros H. unfold rle. rewrite rslice_here by apply length_le_bytes. cbn. f_equal. rewrite le_val_le_bytes. by apply Z.mod_small. Qed.

(** Read the next field: step over the fields before it. *)
Ltac field_length := first [apply length_le_bytes | eassumption].
Ltac read_field :=
  repeat first
    [ erewrite rslice_here by eassumption | rewrite rle_here by assumption
    | erewrite rslice_skip; [cbn [Nat.sub]|field_length|lia] | erewrite rle_skip; [cbn [Nat.sub]|field_length|lia] ];
  cbn [mbind option_bind].

Record signed_ok (h : SignedPackageHeader) : Prop := {
  so_magic : length (magic h) = 8%nat; so_version : in_width 32 (version h); so_flags : in_width 32 (flags h); so_off : in_width 32 (payload_offset h);
  so_size : in_width 32 (payload_size h); so_digest : length (sha256_digest h) = 32%nat; so_sig : length (hmac_signature h) = 32%nat; so_name : length (name h) = 32%nat }.

Lemma length_signed_bytes h : signed_ok h -> length (signed_bytes h) = SIGNED_HDR_SIZE.
Proof. intros []. unfold signed_bytes. rewrite !length_app, !length_le_bytes. unfold SIGNED_HDR_SIZE. lia. Qed.

Lemma read_signed_bytes h rest : signed_ok h -> read_signed (signed_bytes h ++ rest) = Some h.
Proof. intros []. unfold read_signed, signed_bytes. rewrite <- !app_assoc. read_field. by destruct h. Qed.

Lemma read_signed_total b : all_bytes b -> (SIGNED_HDR_SIZE <= length b)%nat -> exists h, read_signed b = Some h /\ signed_ok h.
Proof.
  intros Hb Hl. unfold SIGNED_HDR_SIZE in Hl. unfold read_signed.
  assert (forall off len, (off + len <= 120)%nat -> exists r, rslice b off len = Some r /\ length r = len) as Hs.
  { intros off len H. unfold rslice. rewrite decide_True by lia. eexists. split; [done|]. rewrite length_take, length_drop. lia. }
  assert (forall off, (off + 4 <= 120)%nat -> exists v, rle 4 b off = Some v /\ in_width 32 v) as Hr.
  { intros off H. destruct (rle_is_Some 4 b off) as [v E]; [lia|]. exists v. split; [done|]. exact (rle_range 4 b off v Hb E). }
  destruct (Hs 0%nat 8%nat) as (m & -> & Lm); [lia|]. destruct (Hr 8%nat) as (v & -> & Lv); [lia|]. destruct (Hr 12%nat) as (f & -> & Lf); [lia|].
  destruct (Hr 16%nat) as (po & -> & Lo); [lia|]. destruct (Hr 20%nat) as (ps & -> & Lp); [lia|]. destruct (Hs 24%nat 32%nat) as (d & -> & Ld); [lia|].
  destruct (Hs 56%nat 32%nat) as (s & -> & Ls); [lia|]. destruct (Hs 88%nat 32%nat) as (n & -> & Ln); [lia|].
  eexists. split; [done|]. by split.
Qed.

(** No sum of two 32-bit numbers reaches the top of [usize]. *)
Lemma saturating_u32 a b : in_width 32 a -> in_width 32 b -> saturating_add 64 a b = a + b.
Proof. unfold in_width, saturating_add. lia. Qed.

Lemma rslice_Z {A} (b : list A) start len : 0 <= start -> 0 <= len -> start + len <= Z.of_nat (length b) ->
  rslice b (Z.to_nat start) (Z.to_nat len) = Some (take (Z.to_nat len) (drop (Z.to_nat start) b)).
Proof. intros. apply rslice_Some. split; [lia|done]. Qed.

(** ** What is accepted *)

(** The header of a package, the bytes it names, and the two checks of its authenticity. *)
Definition payload_of (h : SignedPackageHeader) (pkg : bytes) : bytes := take (Z.to_nat (payload_size h)) (drop (Z.to_nat (payload_offset h)) pkg).
Record authentic (pkg key : bytes) (h : SignedPackageHeader) : Prop := {
  au_size : (SIGNED_HDR_SIZE <= length pkg)%nat; au_hdr : read_signed pkg = Some h; au_magic : magic h = SIGNED_PACKAGE_MAGIC;
  au_lo : Z.of_nat SIGNED_HDR_SIZE <= payload_offset h; au_hi : payload_offset h + payload_size h <= Z.of_nat (length pkg);
  au_digest : sha256_digest h = sha256_ref (payload_of h pkg); au_sig : hmac_signature h = hmac_ref key (sha256_ref (payload_of h pkg)) }.

(** The package is refused: its only header [h] fails a check. *)
Ltac refused Hu := eexists; split; [done|]; let h' := fresh "h'" in let H' := fresh "H'" in intros h' H'; pose proof (Hu _ H') as ->; destruct H'; first [done | lia | congruence].

Lemma stage_cases m pkg key : all_bytes pkg -> exists r, stage_update m pkg key = Some r /\
  match r with
  | Ok (b, v, payload) => exists h, authentic pkg key h /\ active_version m < version h /\ b = alternate (active_bank m) /\ v = version h /\ payload = payload_of h pkg
  | Err _ => forall h, authentic pkg key h -> version h <= active_version m
  end.
Proof.
  intros Hb. unfold stage_update. destruct (Nat.ltb_spec (length pkg) SIGNED_HDR_SIZE) as [Hl|Hl]; [eexists; split; [done|]; intros h []; lia|].
  destruct (read_signed_total pkg Hb Hl) as (h & E & Hh). rewrite E. cbn [mbind option_bind].
  assert (forall h', authentic pkg key h' -> h' = h) as Hu by (intros h' []; congruence).
  destruct (bool_decide_reflect (magic h = SIGNED_PACKAGE_MAGIC)) as [Hm|Hm]; cbn [negb]; [|refused Hu].
  cbv zeta. rewrite saturating_u32 by apply Hh.
  destruct (Z.ltb_spec (payload_offset h) (Z.of_nat SIGNED_HDR_SIZE)) as [Hlo|Hlo]; cbn [orb]; [refused Hu|].
  destruct (Z.ltb_spec (Z.of_nat (length pkg)) (payload_offset h + payload_size h)) as [Hhi|Hhi]; [refused Hu|].
  replace (payload_offset h + payload_size h - payload_offset h) with (payload_size h) by lia.
  rewrite rslice_Z by (destruct Hh as [_ _ _ Ho Hs _ _ _]; unfold in_width in *; lia). cbn [mbind option_bind]. fold (payload_of h pkg).
  destruct (Z.leb_spec (version h) (active_version m)) as [Hv|Hv]; [eexists; split; [done|]; intros h' H'; by pose proof (Hu _ H') as ->|].
  rewrite digest_spec. cbn [mbind option_bind]. rewrite constant_time_eq_spec.
  destruct (bool_decide_reflect (sha256_ref (payload_of h pkg) = sha256_digest h)) as [Hd|Hd]; cbn [negb]; [|refused Hu].
  rewrite mac_spec. cbn [mbind option_bind]. rewrite constant_time_eq_spec.
  destruct (bool_decide_reflect (hmac_ref key (sha256_digest h) = hmac_signature h)) as [Hs|Hs]; cbn [negb]; [|refused Hu].
  eexists. split; [done|]. exists h. split; [|done]. split; try done. by rewrite Hd.
Qed.

(** C26. Staging an update never panics, whatever the bytes, and accepts exactly the authentic packages newer than the active bank: the header is whole and
    names a payload inside the package, the digest is the payload's, the signature is the key's HMAC of that digest, and the version is larger.
    What it returns is the other bank, that version and that payload. *)
Theorem stage_update_exact m pkg key : all_bytes pkg ->
  is_Some (stage_update m pkg key) /\ forall b v payload, stage_update m pkg key = Some (Ok (b, v, payload)) <->
    exists h, authentic pkg key h /\ active_version m < version h /\ b = alternate (active_bank m) /\ v = version h /\ payload = payload_of h pkg.
Proof.
  intros Hb. destruct (stage_cases m pkg key Hb) as (r & E & Hr). rewrite E. split; [eauto|]. intros b v payload. split; [intros [= ->]; exact Hr|].
  intros (h & Ha & Hv & -> & -> & ->). destruct r as [[[b' v'] p']|e].
  - destruct Hr as (h' & Ha' & _ & -> & -> & ->). assert (h' = h) as -> by (destruct Ha, Ha'; congruence). done.
  - specialize (Hr _ Ha). lia.
Qed.

(** ** Packages that are created *)

Lemma fixed32_spec s : fixed32 s = Some (take 32 s ++ replicate (32 - length s) 0).
Proof.
  unfold fixed32, rslice. rewrite decide_True by lia. cbn [mbind option_bind]. rewrite drop_0. unfold wslice. rewrite length_take, length_replicate, decide_True by lia.
  f_equal. rewrite take_0, drop_replicate. cbn [app]. f_equal; [|f_equal; lia]. destruct (Nat.le_gt_cases (length s) 32); [rewrite !take_ge by lia; done|by rewrite Nat.min_r by lia].
Qed.

Lemma length_fixed32 (s : bytes) : length (take 32 s ++ replicate (32 - length s) 0) = 32%nat.
Proof. rewrite length_app, length_take, length_replicate. lia. Qed.

Lemma length_hmac key msg : length (hmac_ref key msg) = 32%nat.
Proof. apply length_sha256_ref. Qed.

Definition created_header (v : Z) (nm payload key : bytes) : SignedPackageHeader :=
  mkSigned SIGNED_PACKAGE_MAGIC v 0 120 (Z.of_nat (length payload)) (sha256_ref payload) (hmac_ref key (sha256_ref payload)) (take 32 nm ++ replicate (32 - length nm) 0).

Lemma created_ok v nm payload key : in_width 32 v -> Z.of_nat (length payload) < 2 ^ 32 -> signed_ok (created_header v nm payload key).
Proof. intros Hv Hp. split; cbn [created_header magic version flags payload_offset payload_size sha256_digest hmac_signature name];
  [done|done|unfold in_width; lia|unfold in_width; lia|unfold in_width; lia|apply length_sha256_ref|apply length_hmac|apply length_fixed32]. Qed.

Lemma create_spec v nm payload key : Z.of_nat (length payload) < 2 ^ 32 ->
  create_signed_package v nm payload key = Some (signed_bytes (created_header v nm payload key) ++ payload).
Proof.
  intros Hp. unfold create_signed_package. rewrite digest_spec. cbn [mbind option_bind]. rewrite mac_spec. cbn [mbind option_bind]. rewrite fixed32_spec. cbn [mbind option_bind].
  rewrite wrap_small by (unfold in_width; lia). done.
Qed.

Lemma built_authentic h payload key : signed_ok h -> magic h = SIGNED_PACKAGE_MAGIC -> payload_offset h = 120 -> payload_size h = Z.of_nat (length payload) ->
  sha256_digest h = sha256_ref payload -> hmac_signature h = hmac_ref key (sha256_ref payload) ->
  authentic (signed_bytes h ++ payload) key h /\ payload_of h (signed_bytes h ++ payload) = payload.
Proof.
  intros Hok Hm Ho Hs Hd Hg. assert (payload_of h (signed_bytes h ++ payload) = payload) as E.
  { unfold payload_of. rewrite Ho, Hs, Nat2Z.id. rewrite drop_app_length' by (rewrite length_signed_bytes by done; done). apply take_ge. lia. }
  split; [|done]. split; try done; rewrite ?E, ?length_app, ?length_signed_bytes by done; unfold SIGNED_HDR_SIZE; try done; try lia.
  by apply read_signed_bytes.
Qed.

Lemma signed_all_bytes h : all_bytes (magic h) -> all_bytes (sha256_digest h) -> all_bytes (hmac_signature h) -> all_bytes (name h) -> all_bytes (signed_bytes h).
Proof. intros. unfold signed_bytes. by repeat (apply Forall_app; split; [by auto with bytes|]). Qed.

Lemma built_staged m h payload key : signed_ok h -> magic h = SIGNED_PACKAGE_MAGIC -> payload_offset h = 120 -> payload_size h = Z.of_nat (length payload) ->
  sha256_digest h = sha256_ref payload -> hmac_signature h = hmac_ref key (sha256_ref payload) -> active_version m < version h ->
  all_bytes (signed_bytes h ++ payload) -> stage_update m (signed_bytes h ++ payload) key = Some (Ok (alternate (active_bank m), version h, payload)).
Proof.
  intros Hok Hm Ho Hs Hd Hg Hv Hb. destruct (built_authentic h payload key Hok Hm Ho Hs Hd Hg) as [Ha Hp].
  destruct (stage_cases m _ key Hb) as ([[[b v] p]|e] & -> & Hr); [|specialize (Hr _ Ha); lia].
  destruct Hr as (h' & Ha' & _ & -> & -> & ->). assert (h' = h) as -> by (destruct Ha, Ha'; congruence). by rewrite Hp.
Qed.

Lemma sha256_ref_bytes m : all_bytes (sha256_ref m).
Proof.
  unfold sha256_ref, words_to_bytes. induction (foldl compress _ _) as [|w ws IH]; [apply Forall_nil_2|]. cbn [mbind list_bind].
  apply Forall_app. split; [|exact IH]. unfold be_bytes. apply Forall_reverse. apply le_bytes_is_byte.
Qed.

Lemma fixed32_bytes (s : bytes) : all_bytes s -> all_bytes (take 32 s ++ replicate (32 - length s) 0).
Proof. intros H. apply Forall_app. split; [by apply Forall_take|]. apply Forall_replicate. unfold is_byte. lia. Qed.

Lemma created_all_bytes v nm payload key : all_bytes nm -> all_bytes payload -> all_bytes (signed_bytes (created_header v nm payload key) ++ payload).
Proof.
  intros Hn Hp. apply Forall_app. split; [|done]. apply signed_all_bytes; [by repeat constructor|apply sha256_ref_bytes|apply sha256_ref_bytes|by apply fixed32_bytes].
Qed.

(** A package made by [create_signed_package] with the key is staged by every manager whose active version is smaller, for the other bank, and its payload
    comes back unchanged. *)
Theorem created_package_stages m v nm payload key : in_width 32 v -> Z.of_nat (length payload) < 2 ^ 32 -> all_bytes nm -> all_bytes payload -> active_version m < v ->
  exists pkg, create_signed_package v nm payload key = Some pkg /\ stage_update m pkg key = Some (Ok (alternate (active_bank m), v, payload)).
Proof.
  intros Hv Hl Hn Hp Hlt. rewrite create_spec by done. eexists. split; [done|].
  apply (built_staged m (created_header v nm payload key)); try done; [by apply created_ok|by apply created_all_bytes].
Qed.

(** The version of a header is not covered by the signature: the same package with any other version in its header is still authentic, so an old payload can
    be offered again under a larger number. *)
Definition relabel (v : Z) (h : SignedPackageHeader) : SignedPackageHeader :=
  mkSigned (magic h) v (flags h) (payload_offset h) (payload_size h) (sha256_digest h) (hmac_signature h) (name h).

Lemma version_not_signed m v v' nm payload key : in_width 32 v -> in_width 32 v' -> Z.of_nat (length payload) < 2 ^ 32 -> all_bytes nm -> all_bytes payload -> active_version m < v' ->
  exists pkg, create_signed_package v nm payload key = Some pkg /\
    exists pkg', wle 4 pkg 8 v' = Some pkg' /\ stage_update m pkg' key = Some (Ok (alternate (active_bank m), v', payload)).
Proof.
  intros Hv Hv' Hl Hn Hp Hlt. rewrite create_spec by done. eexists. split; [done|]. exists (signed_bytes (created_header v' nm payload key) ++ payload). split.
  - unfold wle. apply wslice_Some. pose proof (length_signed_bytes _ (created_ok v nm payload key Hv Hl)) as Hs. unfold SIGNED_HDR_SIZE in Hs. rewrite length_app, Hs, length_le_bytes. split; [lia|].
    unfold signed_bytes. rewrite <- !app_assoc. rewrite take_app_length' by done. rewrite drop_app_ge by (cbn; lia). rewrite drop_app_length' by done. done.
  - apply (built_staged m (created_header v' nm payload key)); try done; [by apply created_ok|by apply created_all_bytes].
Qed.

(** ** The two banks *)

(** What the manager promises: a current version and, after an update, the one before it. *)
Record history := mkHistory { current : Z; previous : option Z }.

Inductive bank_op := OpUpdate (pkg : bytes) | OpRollback.

(** An answer: the version that is active afterwards, [None] for an error. *)
Definition bank_step (key : bytes) (st : DualBankManager * list (option Z)) (op : bank_op) : option (DualBankManager * list (option Z)) :=
  let '(m, log) := st in
  match op with
  | OpUpdate pkg => '(m, r) ← apply_update m pkg key; Some (m, log ++ [match r with Ok v => Some v | Err _ => None end])
  | OpRollback => let '(m, r) := rollback m in Some (m, log ++ [match r with Ok (_, v) => Some v | Err _ => None end])
  end.

Definition history_step (verdict : bytes -> option Z) (st : history * list (option Z)) (op : bank_op) : history * list (option Z) :=
  let '(h, log) := st in
  match op with
  | OpUpdate pkg =>
      match verdict pkg with
      | Some v => if v <=? current h then (h, log ++ [None]) else (mkHistory v (Some (current h)), log ++ [Some v])
      | None => (h, log ++ [None])
      end
  | OpRollback => match previous h with Some v => (mkHistory v None, log ++ [Some v]) | None => (h, log ++ [None]) end
  end.

Definition other_version (m : DualBankManager) : Z := match active_bank m with BankA => bank_b_version m | BankB => bank_a_version m end.

Record banks_ok (m : DualBankManager) (h : history) : Prop := {
  bk_cur : active_version m = current h; bk_prev : previous h = if rollback_available m then Some (other_version m) else None }.

(** [verdict] gives the version of every authentic package and refuses the others. *)
Definition judges (key : bytes) (verdict : bytes -> option Z) : Prop :=
  forall pkg v, all_bytes pkg -> verdict pkg = Some v <-> exists h, authentic pkg key h /\ version h = v.

Lemma apply_refines key verdict m h pkg : judges key verdict -> all_bytes pkg -> banks_ok m h ->
  exists m' r, apply_update m pkg key = Some (m', r) /\ (forall log, exists h', history_step verdict (h, log) (OpUpdate pkg) = (h', log ++ [match r with Ok v => Some v | Err _ => None end]) /\ banks_ok m' h').
Proof.
  intros Hj Hb [Hc Hp]. unfold apply_update. destruct (stage_cases m pkg key Hb) as ([[[b v] p]|e] & -> & Hr); cbn [mbind option_bind].
  - destruct Hr as (hd & Ha & Hv & -> & -> & ->). eexists _, _. split; [done|]. intros log. cbn [history_step].
    rewrite (proj2 (Hj pkg (version hd) Hb)) by eauto. rewrite <- Hc. destruct (Z.leb_spec (version hd) (active_version m)); [lia|]. eexists. split; [done|].
    destruct m as [[] a b r]; by split.
  - eexists _, _. split; [done|]. intros log. cbn [history_step]. destruct (verdict pkg) as [v|] eqn:E; [|eexists; split; [done|]; by split].
    apply (Hj pkg v Hb) in E as (hd & Ha & <-). specialize (Hr _ Ha). rewrite <- Hc. destruct (Z.leb_spec (version hd) (active_version m)); [|lia]. eexists; split; [done|]. by split.
Qed.

Lemma bank_step_refines key verdict m h op log : judges key verdict -> match op with OpUpdate pkg => all_bytes pkg | OpRollback => True end -> banks_ok m h ->
  exists m', bank_step key (m, log) op = Some (m', (history_step verdict (h, log) op).2) /\ banks_ok m' (history_step verdict (h, log) op).1.
Proof.
  intros Hj Hb Hok. destruct op as [pkg|]; cbn [bank_step].
  - destruct (apply_refines key verdict m h pkg Hj Hb Hok) as (m' & r & -> & H). cbn [mbind option_bind]. destruct (H log) as (h' & -> & Hok'). by exists m'.
  - destruct Hok as [Hc Hp]. unfold rollback, history_step. rewrite Hp. destruct m as [[] a b []]; cbn in *; eexists; split; done || by split.
Qed.

(** Any sequence of updates and rollbacks.  The two banks answer as a current version and a remembered previous one: an authentic package with a larger version
    becomes current and what was current is remembered, everything else changes nothing, and a rollback gives back the remembered version, once. *)
Theorem banks_refine key verdict ops v0 : judges key verdict -> Forall (fun op => match op with OpUpdate pkg => all_bytes pkg | OpRollback => True end) ops ->
  exists m, foldM (bank_step key) (banks_new v0, []) ops = Some (m, (foldl (history_step verdict) (mkHistory v0 None, []) ops).2) /\
    banks_ok m (foldl (history_step verdict) (mkHistory v0 None, []) ops).1.
Proof.
  intros Hj Hf. enough (forall m h log, banks_ok m h -> exists m', foldM (bank_step key) (m, log) ops = Some (m', (foldl (history_step verdict) (h, log) ops).2) /\
    banks_ok m' (foldl (history_step verdict) (h, log) ops).1) as H by (apply H; by split).
  induction Hf as [|op ops Hop _ IH]; intros m h log Hok; cbn [foldM foldl]; [by exists m|].
  destruct (bank_step_refines key verdict m h op log Hj Hop Hok) as (m' & -> & Hok'). cbn [mbind option_bind].
  destruct (history_step verdict (h, log) op) as [h' log']. by apply IH.
Qed.

(** ** The Adler-32 checksum *)

Definition byte_sum (data : bytes) : Z := foldr Z.add 0 data.
(** The sum of the running sums that start at [a]. *)
Fixpoint running_sum (a : Z) (data : bytes) : Z := match data with [] => 0 | x :: data => (a + x) + running_sum (a + x) data end.

Lemma running_sum_shift data a d : running_sum (a + d) data = running_sum a data + Z.of_nat (length data) * d.
Proof. revert a. induction data as [|x data IH]; intros a; cbn [running_sum length]; [lia|]. replace (a + d + x) with (a + x + d) by lia. rewrite IH. lia. Qed.

Lemma running_sum_mod data a : running_sum (a mod 65521) data mod 65521 = running_sum a data mod 65521.
Proof.
  assert (running_sum a data = running_sum (a mod 65521) data + Z.of_nat (length data) * (a / 65521) * 65521) as ->.
  { rewrite <- Z.mul_assoc, <- running_sum_shift. f_equal. rewrite (Z.div_mod a 65521) at 1 by lia. lia. }
  by rewrite Z.mod_add by lia.
Qed.

Lemma adler_fold data a b : all_bytes data -> 0 <= a < 65521 -> 0 <= b < 65521 ->
  foldl adler_step (a, b) data = ((a + byte_sum data) mod 65521, (b + running_sum a data) mod 65521).
Proof.
  intros H. revert a b. induction H as [|x data Hx _ IH]; intros a b Ha Hb; cbn [foldl byte_sum foldr running_sum]; [by rewrite !Z.add_0_r, !Z.mod_small by lia|].
  unfold is_byte in Hx. cbn [adler_step]. rewrite (wrap_small 32 (a + x)) by (unfold in_width; lia).
  pose proof (Z.mod_pos_bound (a + x) 65521 ltac:(lia)). rewrite wrap_small by (unfold in_width; lia).
  rewrite IH by (try apply Z.mod_pos_bound; lia). fold (byte_sum data). f_equal; rewrite Zplus_mod_idemp_l; [f_equal; lia|].
  rewrite <- Zplus_mod_idemp_r, running_sum_mod, Zplus_mod_idemp_r. replace (b + (a + x) mod 65521 + running_sum (a + x) data) with (b + running_sum (a + x) data + (a + x) mod 65521) by lia.
  rewrite Zplus_mod_idemp_r. f_equal. lia.
Qed.

(** RFC 1950: the two sums side by side. *)
Lemma adler32_rfc data : all_bytes data -> adler32 data = 65536 * (running_sum 1 data mod 65521) + (1 + byte_sum data) mod 65521.
Proof.
  intros H. unfold adler32. rewrite adler_fold by (done || lia). rewrite Z.add_0_l.
  pose proof (Z.mod_pos_bound (running_sum 1 data) 65521 ltac:(lia)). pose proof (Z.mod_pos_bound (1 + byte_sum data) 65521 ltac:(lia)).
  rewrite wrap_small by (unfold in_width; rewrite Z.shiftl_mul_pow2 by lia; lia).
  rewrite lor_disjoint_add by lia. lia.
Qed.

Lemma running_sum_app a s t : running_sum a (s ++ t) = running_sum a s + running_sum (a + byte_sum s) t.
Proof.
  revert a. induction s as [|x s IH]; intros a; cbn [app running_sum byte_sum foldr]; [by rewrite Z.add_0_r|].
  rewrite IH. fold (byte_sum s). replace (a + x + byte_sum s) with (a + (x + byte_sum s)) by lia. lia.
Qed.

Lemma byte_sum_app s t : byte_sum (s ++ t) = byte_sum s + byte_sum t.
Proof. unfold byte_sum. induction s as [|x s IH]; cbn [app foldr]; lia. Qed.

Lemma mod_differ a b : 0 < Z.abs (a - b) < 65521 -> a mod 65521 <> b mod 65521.
Proof.
  intros H E. assert ((a - b) mod 65521 = 0) as E' by (rewrite Zminus_mod, E, Z.sub_diag; done). apply Z.mod_divide in E' as [k Hk]; [|done]. nia.
Qed.

(** The checksum tells apart two files that differ in one byte, or in the order of two neighbouring bytes. *)
Lemma adler32_one_byte s x y t : all_bytes s -> all_bytes t -> is_byte x -> is_byte y -> x <> y -> adler32 (s ++ x :: t) <> adler32 (s ++ y :: t).
Proof.
  intros Hs Ht Hx Hy Hne E. rewrite !adler32_rfc in E by (apply Forall_app; split; [done|by apply Forall_cons]).
  assert ((1 + byte_sum (s ++ x :: t)) mod 65521 <> (1 + byte_sum (s ++ y :: t)) mod 65521) as Hd.
  { apply mod_differ. rewrite !byte_sum_app. cbn [byte_sum foldr]. unfold is_byte in *. lia. }
  pose proof (Z.mod_pos_bound (1 + byte_sum (s ++ x :: t)) 65521 ltac:(lia)). pose proof (Z.mod_pos_bound (1 + byte_sum (s ++ y :: t)) 65521 ltac:(lia)). lia.
Qed.

Lemma adler32_swap s x y t : all_bytes s -> all_bytes t -> is_byte x -> is_byte y -> x <> y -> adler32 (s ++ x :: y :: t) <> adler32 (s ++ y :: x :: t).
Proof.
  intros Hs Ht Hx Hy Hne E. rewrite !adler32_rfc in E by (apply Forall_app; split; [done|by repeat apply Forall_cons_2]).
  assert (running_sum 1 (s ++ x :: y :: t) mod 65521 <> running_sum 1 (s ++ y :: x :: t) mod 65521) as Hd.
  { apply mod_differ. rewrite !running_sum_app. cbn [running_sum]. replace (1 + byte_sum s + y + x) with (1 + byte_sum s + x + y) by lia. unfold is_byte in *. lia. }
  pose proof (Z.mod_pos_bound (1 + byte_sum (s ++ x :: y :: t)) 65521 ltac:(lia)). pose proof (Z.mod_pos_bound (1 + byte_sum (s ++ y :: x :: t)) 65521 ltac:(lia)). lia.
Qed.

(** ** Application packages *)

Lemma read_package_bounds b h : all_bytes b -> read_package b = Some h -> in_width 32 (elf_offset h) /\ in_width 32 (elf_size h).
Proof. intros Hb H. unfold read_package in H. bind_inv. cbn. split; by eapply (rle_range 4). Qed.

Lemma read_package_total b : (PACKAGE_HDR_SIZE <= length b)%nat -> is_Some (read_package b).
Proof.
  unfold PACKAGE_HDR_SIZE. intros Hl. unfold read_package, rle, rslice. by repeat (rewrite decide_True by lia; cbn [mbind option_bind fmap option_fmap option_map]).
Qed.

Lemma read_package_ext b b' : length b = length b' -> (forall i, (i < PACKAGE_HDR_SIZE)%nat -> b !! i = b' !! i) -> read_package b = read_package b'.
Proof.
  intros Hl Hi. unfold PACKAGE_HDR_SIZE in Hi. unfold read_package, rle. rewrite !(rslice_ext b b') by (done || (intros; apply Hi; lia)). done.
Qed.

(** What the header names. *)
Definition elf_of (h : PackageHeader) (b : bytes) : bytes := take (Z.to_nat (elf_size h)) (drop (Z.to_nat (elf_offset h)) b).

Record package_shape (b : bytes) (h : PackageHeader) : Prop := {
  ps_size : (PACKAGE_HDR_SIZE <= length b)%nat; ps_hdr : read_package b = Some h; ps_magic : p_magic h = PACKAGE_MAGIC;
  ps_lo : Z.of_nat PACKAGE_HDR_SIZE <= elf_offset h; ps_hi : elf_offset h + elf_size h <= Z.of_nat (length b) }.

Lemma parse_shape b h : all_bytes b -> package_shape b h ->
  parse_and_verify b = Some (if adler32 (elf_of h b) =? checksum h then Ok (mkPackage h (elf_of h b)) else Err (ChecksumMismatch (checksum h) (adler32 (elf_of h b)))).
Proof.
  intros Hb [Hl Hh Hm Hlo Hhi]. destruct (read_package_bounds b h Hb Hh) as [Ho Hs]. unfold parse_and_verify. destruct (Nat.ltb_spec (length b) PACKAGE_HDR_SIZE); [lia|].
  rewrite Hh. cbn [mbind option_bind]. rewrite bool_decide_true by done. cbn [negb]. cbv zeta. rewrite saturating_u32 by done.
  destruct (Z.ltb_spec (elf_offset h) (Z.of_nat PACKAGE_HDR_SIZE)); [lia|]. destruct (Z.ltb_spec (Z.of_nat (length b)) (elf_offset h + elf_size h)); [lia|]. cbn [orb].
  replace (elf_offset h + elf_size h - elf_offset h) with (elf_size h) by lia. rewrite rslice_Z by (unfold in_width in *; lia). cbn [mbind option_bind]. fold (elf_of h b).
  by destruct (adler32 (elf_of h b) =? checksum h).
Qed.

Lemma parse_ok_shape b pkg : all_bytes b -> parse_and_verify b = Some (Ok pkg) -> package_shape b (header pkg) /\ elf pkg = elf_of (header pkg) b /\ adler32 (elf pkg) = checksum (header pkg).
Proof.
  intros Hb H. assert (exists h, package_shape b h) as [h Hs].
  { unfold parse_and_verify in H. destruct (Nat.ltb_spec (length b) PACKAGE_HDR_SIZE); [done|]. destruct (read_package b) as [h|] eqn:E; [|done]. cbn [mbind option_bind] in H.
    destruct (bool_decide_reflect (p_magic h = PACKAGE_MAGIC)); [|done]. cbn [negb] in H. cbv zeta in H. destruct (read_package_bounds b h Hb E). rewrite saturating_u32 in H by done.
    destruct (Z.ltb_spec (elf_offset h) (Z.of_nat PACKAGE_HDR_SIZE)); [done|]. destruct (Z.ltb_spec (Z.of_nat (length b)) (elf_offset h + elf_size h)); [done|]. by exists h. }
  rewrite (parse_shape b h Hb Hs) in H. destruct (Z.eqb_spec (adler32 (elf_of h b)) (checksum h)); [|done]. by injection H as <-.
Qed.

Lemma elf_insert b h i x : package_shape b h -> elf_offset h <= Z.of_nat i < elf_offset h + elf_size h ->
  elf_of h (<[i := x]> b) = <[(i - Z.to_nat (elf_offset h))%nat := x]> (elf_of h b).
Proof.
  intros [] Hi. unfold elf_of. rewrite drop_insert_ge by lia. by rewrite take_insert_lt by lia.
Qed.

(** A package that verifies no longer does when any one byte of its program is changed: the answer is a checksum mismatch. *)
Theorem tampered_byte_rejected b pkg i x : all_bytes b -> is_byte x -> parse_and_verify b = Some (Ok pkg) ->
  elf_offset (header pkg) <= Z.of_nat i < elf_offset (header pkg) + elf_size (header pkg) -> b !! i <> Some x ->
  exists actual, actual <> checksum (header pkg) /\ parse_and_verify (<[i := x]> b) = Some (Err (ChecksumMismatch (checksum (header pkg)) actual)).
Proof.
  intros Hb Hx Hp Hi Hne. destruct (parse_ok_shape b pkg Hb Hp) as (Hs & He & Hc). set (h := header pkg) in *. pose proof Hs as [Hl Hh Hm Hlo Hhi]. unfold PACKAGE_HDR_SIZE in *.
  assert (package_shape (<[i := x]> b) h) as Hs'.
  { split; rewrite ?length_insert; try done. rewrite <- Hh. apply read_package_ext; [by rewrite length_insert|]. unfold PACKAGE_HDR_SIZE. intros j Hj. apply list_lookup_insert_ne. lia. }
  rewrite (parse_shape _ h) by (done || by apply Forall_insert). rewrite (elf_insert b h i x Hs Hi).
  set (e := elf_of h b) in *. set (k := (i - Z.to_nat (elf_offset h))%nat).
  assert (exists y, e !! k = Some y /\ is_byte y /\ y <> x) as (y & Ey & Hy & Hyx).
  { destruct (lookup_lt_is_Some_2 b i) as [y Ey]; [lia|]. exists y. split; [|split; [exact (Forall_lookup_1 _ _ _ _ Hb Ey)|congruence]].
    unfold e, elf_of, k. rewrite lookup_take_lt, lookup_drop by lia. rewrite <- Ey. f_equal. lia. }
  assert (all_bytes e) as Hbe by (unfold e, elf_of; by apply Forall_take, Forall_drop). pose proof (lookup_lt_Some _ _ _ Ey) as Hk.
  exists (adler32 (<[k := x]> e)). assert (adler32 (<[k := x]> e) <> checksum h) as Hd.
  { rewrite <- Hc, He. rewrite <- (take_drop_middle e k y Ey) at 2. rewrite (insert_take_drop e k x Hk). apply adler32_one_byte; [by apply Forall_take|by apply Forall_drop|done|done|done]. }
  split; [done|]. by rewrite (proj2 (Z.eqb_neq _ _) Hd).
Qed.

(** An update that is accepted is newer, and its program has the checksum declared for its source. *)
Lemma verify_update_sound current b expected pkg : all_bytes b -> verify_update current b expected = Some (Ok pkg) ->
  current < p_version (header pkg) /\ adler32 (elf pkg) = expected /\ elf pkg = elf_of (header pkg) b.
Proof.
  intros Hb H. unfold verify_update in H. destruct (parse_and_verify b) as [[p|e]|] eqn:E; [|done|done]. cbn [mbind option_bind] in H.
  destruct (parse_ok_shape b p Hb E) as (_ & He & Hc). destruct (Z.leb_spec (p_version (header p)) current); [done|].
  destruct (Z.eqb_spec (checksum (header p)) expected); [|done]. injection H as <-. by subst.
Qed.

(** ** Crash records *)

Lemma crash_verify_exact r : crash_verify r = Some (bool_decide (t_magic r = TELEMETRY_MAGIC /\ sha256_checksum r = sha256_ref (crash_data r))).
Proof.
  unfold crash_verify, compute_checksum. destruct (bool_decide_reflect (t_magic r = TELEMETRY_MAGIC)) as [Hm|Hm]; cbn [negb]; [|by rewrite bool_decide_false by naive_solver].
  rewrite digest_spec. cbn [mbind option_bind]. rewrite constant_time_eq_spec. f_equal. apply bool_decide_ext. naive_solver.
Qed.

Lemma with_checksum_verifies r : t_magic r = TELEMETRY_MAGIC -> crash_verify (with_checksum r (sha256_ref (crash_data r))) = Some true.
Proof.
  intros Hm. rewrite crash_verify_exact. assert (crash_data (with_checksum r (sha256_ref (crash_data r))) = crash_data r) as -> by done.
  cbn [with_checksum t_magic sha256_checksum]. by rewrite bool_decide_true by by split.
Qed.

Lemma bind_some {A B} (f : A -> option B) a : (x ← Some a; f x) = f a.
Proof. done. Qed.

(** A captured record is the one stored, and verifies. *)
Lemma captured_verifies vector code ip sp addr thread user why : exists r, capture_crash vector code ip sp addr thread user why = Some (Some r, r) /\ crash_verify r = Some true /\
  fault_vector r = vector /\ error_code r = code /\ rip r = ip /\ rsp r = sp /\ cr2 r = addr /\ thread_id r = thread /\ uid r = user.
Proof.
  unfold capture_crash. rewrite fixed32_spec, bind_some. unfold compute_checksum. rewrite digest_spec, bind_some.
  eexists. split; [reflexivity|]. split; [by apply with_checksum_verifies|done].
Qed.

Module UpdateWitness.
(** The demonstration of [run_signed_update_demo]: version 2 over version 1. *)
Definition demo_payload : bytes := [65; 71; 69; 78; 84; 73; 67; 95; 75; 69; 82; 78; 69; 76; 95; 86; 50].
Definition demo_name : bytes := [115; 121; 115; 116; 101; 109].
Definition demo_package : bytes := signed_bytes (created_header 2 demo_name demo_payload ROOT_UPDATE_KEY) ++ demo_payload.

Lemma demo_bytes : all_bytes demo_package.
Proof. apply created_all_bytes; by repeat constructor. Qed.

Lemma stage_witness : is_Some (stage_update (banks_new 1) demo_package ROOT_UPDATE_KEY).
Proof. exact (proj1 (stage_update_exact (banks_new 1) demo_package ROOT_UPDATE_KEY demo_bytes)). Defined.

Lemma created_witness : exists pkg, create_signed_package 2 demo_name demo_payload ROOT_UPDATE_KEY = Some pkg /\
  stage_update (banks_new 1) pkg ROOT_UPDATE_KEY = Some (Ok (BankB, 2, demo_payload)).
Proof.
  exact (created_package_stages (banks_new 1) 2 demo_name demo_payload ROOT_UPDATE_KEY ltac:(unfold in_width; lia) ltac:(vm_compute; done) ltac:(by repeat constructor) ltac:(by repeat constructor) ltac:(cbn; lia)).
Defined.

(** A verdict computed from a manager that takes every version. *)
Definition verdict_of (pkg : bytes) : option Z := match stage_update (banks_new (-1)) pkg ROOT_UPDATE_KEY with Some (Ok (_, v, _)) => Some v | _ => None end.

Lemma verdict_judges : judges ROOT_UPDATE_KEY verdict_of.
Proof.
  intros pkg v Hb. unfold verdict_of. destruct (stage_cases (banks_new (-1)) pkg ROOT_UPDATE_KEY Hb) as ([[[b v'] p]|e] & -> & Hr).
  - destruct Hr as (h & Ha & _ & _ & -> & _). split; [intros [= <-]; by exists h|]. intros (h' & Ha' & <-). assert (h' = h) as -> by (destruct Ha, Ha'; congruence). done.
  - split; [done|]. intros (h & Ha & <-). specialize (Hr h Ha). destruct (read_signed_total pkg Hb (au_size _ _ _ Ha)) as (h' & E & Hh). assert (h' = h) as -> by (destruct Ha; congruence).
    destruct Hh as [_ Hv _ _ _ _ _ _]. unfold in_width in Hv. cbn in Hr. lia.
Qed.

(** Version 2 is installed, offered again, rolled back, and rolled back again. *)
Definition demo_ops : list bank_op := [OpUpdate demo_package; OpUpdate demo_package; OpRollback; OpRollback].

Lemma demo_verdict : verdict_of demo_package = Some 2.
Proof.
  apply (verdict_judges _ _ demo_bytes). exists (created_header 2 demo_name demo_payload ROOT_UPDATE_KEY). split; [|done].
  refine (proj1 (built_authentic (created_header 2 demo_name demo_payload ROOT_UPDATE_KEY) demo_payload ROOT_UPDATE_KEY (created_ok 2 demo_name demo_payload ROOT_UPDATE_KEY _ _) _ _ _ _ _)); done.
Qed.

Lemma demo_history f : f demo_package = Some 2 -> (foldl (history_step f) (mkHistory 1 None, []) demo_ops).2 = [Some 2; None; Some 1; None].
Proof. unfold demo_ops. generalize demo_package as pkg. intros pkg H. cbn. rewrite H. cbn. rewrite H. reflexivity. Qed.

Lemma banks_witness : exists m, foldM (bank_step ROOT_UPDATE_KEY) (banks_new 1, []) demo_ops = Some (m, [Some 2; None; Some 1; None]).
Proof.
  destruct (banks_refine ROOT_UPDATE_KEY verdict_of demo_ops 1 verdict_judges) as (m & E & _).
  - apply Forall_cons; split; [exact demo_bytes|]. apply Forall_cons; split; [exact demo_bytes|]. apply Forall_cons; split; [exact I|]. apply Forall_cons; split; [exact I|]. apply Forall_nil_2.
  - exists m. rewrite <- (demo_history verdict_of demo_verdict). exact E.
Defined.

(** The package of [run_app_update_demo], with a program of four bytes. *)
Definition app_elf : bytes := [0x7F; 69; 76; 70].
Definition app_package : bytes :=
  PACKAGE_MAGIC ++ le_bytes 4 1 ++ le_bytes 2 0x0101 ++ le_bytes 2 0 ++ le_bytes 4 64 ++ le_bytes 4 4 ++ le_bytes 4 (adler32 app_elf) ++ replicate 32 0 ++ replicate 4 0 ++ app_elf.

Lemma tampered_witness : exists actual, parse_and_verify (<[65%nat := 0]> app_package) = Some (Err (ChecksumMismatch (adler32 app_elf) actual)).
Proof.
  destruct (tampered_byte_rejected app_package (mkPackage (mkPkgHdr PACKAGE_MAGIC 1 0x0101 0 64 4 (adler32 app_elf) (replicate 32 0)) app_elf) 65 0
    ltac:(by repeat constructor) ltac:(unfold is_byte; lia) ltac:(by vm_compute) ltac:(cbn; lia) ltac:(by vm_compute)) as (actual & _ & E).
  exists actual. exact E.
Defined.
End UpdateWitness.
