(* ===== verification/Runtime.v ===== *)
(** * Memory routines and the interrupt event queue

    [kernel_common/src/mem_intrinsics.rs] (the byte loops every freestanding binary of the repository links as its [memcpy], [memmove], [memset]
    and [memcmp]), on memory as a function from addresses to bytes, and [kernel_rs/src/events.rs] (the lock-free queue between the interrupt
    handlers and the main loop), one access of a shared word at a time. *)

From S2P Require Import Prelude.

(** ** Memory *)

Abbreviation mem := (Z -> Z).
Definition store (m : mem) (a v : Z) : mem := fun b => if b =? a then v else m b.

(** [while i < count { ... i += 1 }]. *)
Fixpoint copy_up (n : nat) (i : Z) (d s : Z) (m : mem) : mem :=
  match n with O => m | S n => copy_up n (i + 1) d s (store m (d + i) (m (s + i))) end.

(** [while i > 0 { i -= 1; ... }]. *)
Fixpoint copy_down (i : nat) (d s : Z) (m : mem) : mem :=
  match i with O => m | S i => copy_down i d s (store m (d + Z.of_nat i) (m (s + Z.of_nat i))) end.

Fixpoint fill_up (n : nat) (i : Z) (d v : Z) (m : mem) : mem :=
  match n with O => m | S n => fill_up n (i + 1) d v (store m (d + i) v) end.

Definition memset (dest value : Z) (count : nat) (m : mem) : mem := fill_up count 0 dest (u8 value) m.
Definition memcpy (dest src : Z) (count : nat) (m : mem) : mem := copy_up count 0 dest src m.
Definition memmove (dest src : Z) (count : nat) (m : mem) : mem :=
  if dest <? src then copy_up count 0 dest src m else copy_down count dest src m.

Fixpoint compare_up (n : nat) (i : Z) (a b : Z) (m : mem) : Z :=
  match n with
  | O => 0
  | S n => let av := m (a + i) in let bv := m (b + i) in if negb (av =? bv) then av - bv else compare_up n (i + 1) a b m
  end.
Definition memcmp (a b : Z) (count : nat) (m : mem) : Z := compare_up count 0 a b m.

(** ** The event queue *)

Definition CAPACITY : Z := 256.

Inductive Event := Tick (t : Z).

Record RingBuffer := mkRing { slots : list (option Event); head : Z; tail : Z }.
Definition QUEUE : RingBuffer := mkRing (replicate 256 None) 0 0.

(** Where the producer is in [push], and the consumer in [pop]. *)
Inductive producer :=
  | PIdle
  | PLoadTail (event : Event) (head : Z)
  | PWrite (event : Event) (head : Z)
  | PPublish (event : Event) (head : Z).
Inductive consumer :=
  | CIdle
  | CLoadHead (tail : Z)
  | CTake (tail : Z)
  | CRelease (tail : Z) (event : option Event).

(** The queue, where every processor is in [push] and the main loop in [pop], the events whose [push] went through and what each [pop] returned.
    Every processor's timer interrupt pushes ([apic.rs], [on_tick]). *)
Record shared := mkShared { ring : RingBuffer; prods : list producer; cons : consumer; accepted : list Event; popped : list (option Event) }.
Definition CPUS : nat := 32.
Definition shared_init : shared := mkShared QUEUE (replicate CPUS PIdle) CIdle [] [].

Definition set_prod (c : nat) (p : producer) (s : shared) : shared := mkShared (ring s) (<[c := p]> (prods s)) (cons s) (accepted s) (popped s).

(** The next access of [push] on processor [c], which is at [p]; an idle processor starts on [event]. *)
Definition push_step (c : nat) (p : producer) (event : Event) (s : shared) : option shared :=
  let q := ring s in
  match p with
  | PIdle => Some (set_prod c (PLoadTail event (head q)) s)
  | PLoadTail e h =>
      let next := (h + 1) mod CAPACITY in
      if next =? tail q then Some (set_prod c PIdle s) else Some (set_prod c (PWrite e h) s)
  | PWrite e h =>
      sl ← wbyte (slots q) (Z.to_nat h) (Some e);
      Some (set_prod c (PPublish e h) (mkShared (mkRing sl (head q) (tail q)) (prods s) (cons s) (accepted s) (popped s)))
  | PPublish e h =>
      Some (set_prod c PIdle (mkShared (mkRing (slots q) ((h + 1) mod CAPACITY) (tail q)) (prods s) (cons s) (accepted s ++ [e]) (popped s)))
  end.

Definition pop_step (s : shared) : option shared :=
  let q := ring s in
  match cons s with
  | CIdle => Some (mkShared q (prods s) (CLoadHead (tail q)) (accepted s) (popped s))
  | CLoadHead t =>
      if t =? head q then Some (mkShared q (prods s) CIdle (accepted s) (popped s ++ [None]))
      else Some (mkShared q (prods s) (CTake t) (accepted s) (popped s))
  | CTake t =>
      ev ← slots q !! Z.to_nat t; sl ← wbyte (slots q) (Z.to_nat t) None;
      Some (mkShared (mkRing sl (head q) (tail q)) (prods s) (CRelease t ev) (accepted s) (popped s))
  | CRelease t ev => Some (mkShared (mkRing (slots q) (head q) ((t + 1) mod CAPACITY)) (prods s) CIdle (accepted s) (popped s ++ [ev]))
  end.

(** Any interleaving of the processors' interrupts and the main loop. *)
Inductive turn := Interrupt (c : nat) (event : Event) | MainLoop.
Definition queue_turn (s : shared) (t : turn) : option shared :=
  match t with Interrupt c e => p ← prods s !! c; push_step c p e s | MainLoop => pop_step s end.

(** ** The routines copy what they promise *)

(** Is the byte read the one just written? *)
Ltac same_byte := first [lia | done | match goal with |- context [if ?x =? ?y then _ else _] => destruct (Z.eqb_spec x y); first [done | lia | f_equal; lia] end].

Lemma copy_up_exact n i d s m a : (d <= s \/ s + i + Z.of_nat n <= d + i \/ n = O) ->
  copy_up n i d s m a = if (d + i <=? a) && (a <? d + i + Z.of_nat n) then m (s + (a - d)) else m a.
Proof.
  revert i m. induction n as [|n IH]; intros i m H; cbn [copy_up].
  - destruct (Z.leb_spec (d + i) a); [|done]. destruct (Z.ltb_spec a (d + i + Z.of_nat 0)); [lia|done].
  - rewrite IH by lia. unfold store.
    destruct (Z.leb_spec (d + i) a), (Z.leb_spec (d + (i + 1)) a), (Z.ltb_spec a (d + (i + 1) + Z.of_nat n)), (Z.ltb_spec a (d + i + Z.of_nat (S n))); cbn [andb]; same_byte.
Qed.

Lemma copy_down_exact n d s m a : s <= d ->
  copy_down n d s m a = if (d <=? a) && (a <? d + Z.of_nat n) then m (s + (a - d)) else m a.
Proof.
  intros H. revert m. induction n as [|n IH]; intros m; cbn [copy_down].
  - destruct (Z.leb_spec d a); [|done]. destruct (Z.ltb_spec a (d + Z.of_nat 0)); [lia|done].
  - rewrite IH. unfold store. destruct (Z.leb_spec d a), (Z.ltb_spec a (d + Z.of_nat n)), (Z.ltb_spec a (d + Z.of_nat (S n))); cbn [andb]; same_byte.
Qed.

(** [memmove] moves the bytes as they were before the call, wherever the two ranges lie and however they overlap, and touches nothing else. *)
Theorem memmove_exact dest src count m a :
  memmove dest src count m a = if (dest <=? a) && (a <? dest + Z.of_nat count) then m (src + (a - dest)) else m a.
Proof.
  unfold memmove. destruct (Z.ltb_spec dest src).
  - rewrite copy_up_exact by lia. by rewrite !Z.add_0_r.
  - apply copy_down_exact. lia.
Qed.

(** [memcpy] does the same on ranges that do not overlap, or when it copies downwards. *)
Lemma memcpy_exact dest src count m a : dest <= src \/ src + Z.of_nat count <= dest -> memcpy dest src count m a = memmove dest src count m a.
Proof. intros H. rewrite memmove_exact. unfold memcpy. rewrite copy_up_exact by lia. by rewrite !Z.add_0_r. Qed.

Lemma fill_up_exact n i d v m a : fill_up n i d v m a = if (d + i <=? a) && (a <? d + i + Z.of_nat n) then v else m a.
Proof.
  revert i m. induction n as [|n IH]; intros i m; cbn [fill_up].
  - destruct (Z.leb_spec (d + i) a); [|done]. destruct (Z.ltb_spec a (d + i + Z.of_nat 0)); [lia|done].
  - rewrite IH. unfold store.
    destruct (Z.leb_spec (d + i) a), (Z.leb_spec (d + (i + 1)) a), (Z.ltb_spec a (d + (i + 1) + Z.of_nat n)), (Z.ltb_spec a (d + i + Z.of_nat (S n))), (Z.eqb_spec a (d + i)); cbn [andb]; done || lia.
Qed.

Lemma memset_exact dest value count m a : memset dest value count m a = if (dest <=? a) && (a <? dest + Z.of_nat count) then u8 value else m a.
Proof. unfold memset. rewrite fill_up_exact. by rewrite !Z.add_0_r. Qed.

(** The bytes of a range, and their order. *)
Definition read_range (m : mem) (a : Z) (n : nat) : bytes := (fun i => m (a + Z.of_nat i)) <$> seq 0 n.
Fixpoint lex (x y : bytes) : comparison :=
  match x, y with
  | a :: x, b :: y => match a ?= b with Eq => lex x y | c => c end
  | _, _ => Eq
  end.

(** The sign of [memcmp] is the order of the two byte strings, most significant byte first. *)
Lemma memcmp_lex a b count m : (memcmp a b count m ?= 0) = lex (read_range m a count) (read_range m b count).
Proof.
  unfold memcmp, read_range. enough (forall k, (compare_up count (Z.of_nat k) a b m ?= 0) = lex ((fun i => m (a + Z.of_nat i)) <$> seq k count) ((fun i => m (b + Z.of_nat i)) <$> seq k count)) as H by exact (H O).
  induction count as [|n IH]; intros k; [done|]. cbn [compare_up seq fmap list_fmap lex].
  destruct (Z.compare_spec (m (a + Z.of_nat k)) (m (b + Z.of_nat k))) as [E|E|E].
  - rewrite (proj2 (Z.eqb_eq _ _) E). cbn [negb]. replace (Z.of_nat k + 1) with (Z.of_nat (S k)) by lia. apply IH.
  - rewrite (proj2 (Z.eqb_neq _ _)) by lia. cbn [negb]. apply Z.compare_lt_iff. lia.
  - rewrite (proj2 (Z.eqb_neq _ _)) by lia. cbn [negb]. apply Z.compare_gt_iff. lia.
Qed.

(** ** The queue between the interrupt handlers and the main loop *)

(** The events that [pop] handed out. *)
Definition delivered (s : shared) : list Event := omap id (popped s).

(** The slot of the [k]-th waiting event. *)
Definition slot (s : shared) (k : nat) : nat := Z.to_nat ((tail (ring s) + Z.of_nat k) mod CAPACITY).

Record queue_ok (s : shared) (q : list Event) : Prop := {
  qk_len : length (slots (ring s)) = 256%nat;
  qk_tail : 0 <= tail (ring s) < CAPACITY;
  qk_room : (length q <= 255)%nat;
  qk_head : head (ring s) = (tail (ring s) + Z.of_nat (length q)) mod CAPACITY;
  qk_order : accepted s = delivered s ++ q;
  qk_slots : forall k e, q !! k = Some e -> match cons s with CRelease _ _ => k = O \/ slots (ring s) !! slot s k = Some (Some e) | _ => slots (ring s) !! slot s k = Some (Some e) end;
  qk_prod : forall c p, prods s !! c = Some p -> match p with
            | PIdle => True
            | PLoadTail _ h => h = head (ring s)
            | PWrite _ h => h = head (ring s) /\ (length q <= 254)%nat
            | PPublish e h => h = head (ring s) /\ (length q <= 254)%nat /\ slots (ring s) !! slot s (length q) = Some (Some e)
            end;
  qk_cons : match cons s with
            | CIdle => True
            | CLoadHead t => t = tail (ring s)
            | CTake t => t = tail (ring s) /\ q <> []
            | CRelease t ev => t = tail (ring s) /\ exists e q', q = e :: q' /\ ev = Some e
            end }.

Lemma slot_lt s k : (slot s k < 256)%nat.
Proof. unfold slot, CAPACITY. pose proof (Z.mod_pos_bound (tail (ring s) + Z.of_nat k) 256 ltac:(lia)). lia. Qed.

Lemma slot_inj s j k : (j < 256)%nat -> (k < 256)%nat -> slot s j = slot s k -> j = k.
Proof. unfold slot, CAPACITY. intros Hj Hk E. apply Nat2Z.inj. Z.to_euclidean_division_equations. lia. Qed.

Lemma head_slot s q : queue_ok s q -> Z.to_nat (head (ring s)) = slot s (length q).
Proof. intros []. unfold slot. congruence. Qed.

Lemma tail_slot s : 0 <= tail (ring s) < CAPACITY -> Z.to_nat (tail (ring s)) = slot s 0.
Proof. intros H. unfold slot. rewrite Z.add_0_r. by rewrite Z.mod_small. Qed.

(** Advancing an index. *)
Lemma bump t n : 0 <= t -> ((t + Z.of_nat n) mod CAPACITY + 1) mod CAPACITY = (t + Z.of_nat (S n)) mod CAPACITY.
Proof. intros. unfold CAPACITY. rewrite Zplus_mod_idemp_l. f_equal. lia. Qed.

Lemma full_test t n : 0 <= t < CAPACITY -> (n <= 255)%nat -> (t + Z.of_nat (S n)) mod CAPACITY = t <-> n = 255%nat.
Proof. unfold CAPACITY. intros. Z.to_euclidean_division_equations. lia. Qed.

Lemma empty_test t n : 0 <= t < CAPACITY -> (n <= 255)%nat -> t = (t + Z.of_nat n) mod CAPACITY <-> n = O.
Proof. unfold CAPACITY. intros. Z.to_euclidean_division_equations. lia. Qed.

(** No processor but [c] is inside [push]. *)
Definition idle_but (c : nat) (s : shared) : Prop := forall d p, d <> c -> prods s !! d = Some p -> p = PIdle.

(** What holds of the processor that moves holds of all when the others are idle. *)
Lemma prods_insert c p s (P : producer -> Prop) : idle_but c s -> P PIdle -> P p -> forall d p', <[c := p]> (prods s) !! d = Some p' -> P p'.
Proof. intros Hi H0 Hp d p' [(-> & <- & _)|[Hd E]]%list_lookup_insert_Some; [done|]. by rewrite (Hi d p' ltac:(done) E). Qed.

Lemma push_ok c p event s q : queue_ok s q -> idle_but c s -> prods s !! c = Some p -> exists s' q', push_step c p event s = Some s' /\ queue_ok s' q'.
Proof.
  intros H Hi Hcp. pose proof H as [Hl Ht Hr Hh Ho Hs Hp Hc]. specialize (Hp c p Hcp). unfold push_step, set_prod. destruct p as [|e h|e h|e h].
  - eexists _, q. split; [done|]. split; try done. cbn [prods]. by apply prods_insert.
  - subst h. rewrite Hh, bump by lia. destruct (Z.eqb_spec ((tail (ring s) + Z.of_nat (S (length q))) mod CAPACITY) (tail (ring s))) as [E|E].
    + eexists _, q. split; [done|]. split; try done. cbn [prods]. by apply prods_insert.
    + rewrite full_test in E by done. eexists _, q. split; [done|]. split; try done. cbn [prods]. apply prods_insert; [done|done|]. split; [done|lia].
  - destruct Hp as [-> Hq]. rewrite (head_slot s q H). unfold wbyte. rewrite decide_True by (rewrite Hl; apply slot_lt). cbn [mbind option_bind].
    eexists _, q. split; [done|]. split; try done; cbn [ring slots head tail prods cons].
    + by rewrite length_insert.
    + intros k x Hk. specialize (Hs k x Hk). pose proof (lookup_lt_Some _ _ _ Hk).
      assert (slot s (length q) <> slot s k) by (intros E; apply slot_inj in E; lia).
      unfold slot at 2 4. cbn [ring tail]. fold (slot s k). rewrite !list_lookup_insert_ne by done. done.
    + apply prods_insert; [done|done|]. split; [done|]. split; [done|]. apply list_lookup_insert_eq. rewrite Hl. apply slot_lt.
  - destruct Hp as (-> & Hq & He). eexists _, (q ++ [e]). split; [done|]. split; try done; cbn [ring slots head tail prods cons].
    + rewrite length_app. cbn. lia.
    + rewrite Hh, bump by lia. rewrite length_app. cbn. do 2 f_equal. lia.
    + cbn [accepted delivered popped]. by rewrite Ho, <- app_assoc.
    + intros k x Hk. unfold slot. cbn [ring tail]. fold (slot s k). apply lookup_snoc_Some in Hk as [[Hk Hx]|[-> <-]]; [by apply Hs|]. destruct (cons s); auto.
    + by apply prods_insert.
    + destruct (cons s) as [| |t|t ev]; try done; [destruct Hc as [-> Hc]; split; [done|by destruct q]|].
      destruct Hc as (-> & x & q' & -> & ->). split; [done|]. by exists x, (q' ++ [e]).
Qed.

Lemma pop_ok s q : queue_ok s q -> exists s' q', pop_step s = Some s' /\ queue_ok s' q'.
Proof.
  intros H. pose proof H as [Hl Ht Hr Hh Ho Hs Hp Hc]. unfold pop_step. destruct (cons s) as [|t|t|t ev] eqn:Ec.
  - eexists _, q. split; [done|]. by split.
  - subst t. destruct (Z.eqb_spec (tail (ring s)) (head (ring s))) as [E|E]; eexists _, q; (split; [done|]); split; try done.
    + cbn [accepted delivered popped]. rewrite Ho. unfold delivered. cbn [popped]. by rewrite omap_app, app_nil_r.
    + cbn [cons]. split; [done|]. intros ->. rewrite Hh in E. apply E, (proj2 (empty_test (tail (ring s)) 0 Ht ltac:(lia))). done.
  - destruct Hc as [-> Hq]. destruct q as [|e q]; [done|]. rewrite tail_slot by done. rewrite (Hs O e eq_refl). cbn [mbind option_bind].
    unfold wbyte. rewrite decide_True by (rewrite Hl; apply slot_lt). cbn [mbind option_bind]. eexists _, (e :: q). split; [done|].
    split; try done; cbn [ring slots head tail prods cons].
    + by rewrite length_insert.
    + intros k x Hk. destruct k as [|k]; [by left|]. right. pose proof (lookup_lt_Some _ _ _ Hk). assert (slot s 0 <> slot s (S k)) by (intros E; apply slot_inj in E; lia).
      unfold slot at 2. cbn [ring tail]. fold (slot s (S k)). rewrite list_lookup_insert_ne by done. by apply Hs.
    + intros c p Ep. specialize (Hp c p Ep). destruct p as [| | |e' h]; try done. destruct Hp as (-> & Hq' & He). split; [done|]. split; [done|].
      assert (slot s 0 <> slot s (length (e :: q))) by (intros E; apply slot_inj in E; cbn in *; lia).
      unfold slot at 2. cbn [ring tail]. fold (slot s (length (e :: q))). by rewrite list_lookup_insert_ne by done.
    + split; [done|]. by exists e, q.
  - destruct Hc as (-> & e & q' & -> & ->). assert (forall k, Z.to_nat (((tail (ring s) + 1) mod CAPACITY + Z.of_nat k) mod CAPACITY) = slot s (S k)) as Hsh.
    { intros k. unfold slot, CAPACITY. rewrite Zplus_mod_idemp_l. do 2 f_equal. lia. }
    eexists _, q'. split; [done|]. split; try done; cbn [ring slots head tail prods cons].
    + unfold CAPACITY. pose proof (Z.mod_pos_bound (tail (ring s) + 1) 256 ltac:(lia)). lia.
    + cbn [length] in Hr. lia.
    + rewrite Hh. unfold CAPACITY. rewrite Zplus_mod_idemp_l. f_equal. cbn [length]. lia.
    + cbn [accepted delivered popped]. rewrite Ho. unfold delivered. cbn [popped]. rewrite omap_app. by rewrite <- app_assoc.
    + intros k x Hk. unfold slot. cbn [ring tail]. rewrite Hsh. destruct (Hs (S k) x Hk) as [E|E]; [done|exact E].
    + intros c p Ep. specialize (Hp c p Ep). destruct p as [| |e' h|e' h]; try done; [destruct Hp as [-> Hp]; split; [done|cbn [length] in Hp; lia]|].
      destruct Hp as (-> & Hq' & He). split; [done|]. split; [cbn [length] in Hq'; lia|]. unfold slot. cbn [ring tail]. by rewrite Hsh.
Qed.

(** A whole [push], and a whole [pop], that nothing interrupts. *)
Definition push (c : nat) (event : Event) (s : shared) : option shared := foldM queue_turn s (replicate 4 (Interrupt c event)).
Definition pop (s : shared) : option shared := foldM queue_turn s (replicate 4 MainLoop).

Lemma push_takes c event s q : queue_ok s q -> (c < length (prods s))%nat -> (forall d p, prods s !! d = Some p -> p = PIdle) -> (length q < 255)%nat ->
  exists s', push c event s = Some s' /\ accepted s' = accepted s ++ [event].
Proof.
  intros H Hlt Hp Hq. destruct (lookup_lt_is_Some_2 _ _ Hlt) as [p Ep]. pose proof (Hp c p Ep) as ->. pose proof H as [Hl Ht Hr Hh Ho Hs _ Hc].
  destruct s as [r ps co acc out]. cbn [prods ring accepted] in *. unfold push, queue_turn.
  cbn [replicate foldM prods]. rewrite Ep. cbn [mbind option_bind push_step set_prod prods ring cons accepted popped]. rewrite list_lookup_insert_eq by done. cbn [mbind option_bind push_step set_prod prods ring cons accepted popped].
  assert ((head r + 1) mod CAPACITY = (tail r + Z.of_nat (S (length q))) mod CAPACITY) as -> by (rewrite Hh; apply bump; lia).
  destruct (Z.eqb_spec ((tail r + Z.of_nat (S (length q))) mod CAPACITY) (tail r)) as [E|E]; [apply full_test in E; lia|].
  cbn [mbind option_bind set_prod prods ring cons accepted popped]. rewrite list_lookup_insert_eq by (rewrite ?length_insert; done). cbn [mbind option_bind push_step set_prod prods ring cons accepted popped].
  pose proof (head_slot _ q H) as Ez. cbn [ring] in Ez. rewrite Ez. unfold wbyte. rewrite decide_True by (rewrite Hl; apply slot_lt).
  cbn [mbind option_bind set_prod prods ring cons accepted popped]. rewrite list_lookup_insert_eq by (rewrite ?length_insert; done). cbn [mbind option_bind push_step set_prod]. by eexists.
Qed.

Lemma pop_gives e s q : queue_ok s (e :: q) -> cons s = CIdle -> exists s', pop s = Some s' /\ popped s' = popped s ++ [Some e].
Proof.
  intros H Hc. pose proof H as [Hl Ht Hr Hh _ Hs _ _]. pose proof (tail_slot s Ht) as Ez. destruct s as [r p c acc out]. cbn [cons ring popped] in *. subst c. unfold pop.
  cbn [replicate foldM queue_turn pop_step prods ring cons accepted popped mbind option_bind].
  destruct (Z.eqb_spec (tail r) (head r)) as [E|E]; [rewrite Hh in E; apply empty_test in E; done|].
  cbn [pop_step prods ring cons accepted popped mbind option_bind]. rewrite Ez. rewrite (Hs O e eq_refl). cbn [mbind option_bind].
  unfold wbyte. rewrite decide_True by (rewrite Hl; apply slot_lt). cbn [pop_step prods ring cons accepted popped mbind option_bind]. by eexists.
Qed.

(** A schedule in which no two processors are inside [push] at the same time. *)
Fixpoint one_at_a_time (s : shared) (turns : list turn) : Prop :=
  match turns with
  | [] => True
  | t :: turns => match t with Interrupt c _ => (c < CPUS)%nat /\ idle_but c s | MainLoop => True end /\
      forall s', queue_turn s t = Some s' -> one_at_a_time s' turns
  end.

Lemma queue_turn_prods s t s' : queue_turn s t = Some s' -> length (prods s') = length (prods s).
Proof.
  unfold queue_turn, push_step, pop_step, set_prod. destruct t as [c e|]; intros H.
  - bind_inv. destruct p; cbn in H; bind_inv; repeat case_match; simplify_eq; apply length_insert.
  - destruct (cons s); bind_inv; repeat case_match; by simplify_eq.
Qed.

(** C34. The event queue is first in, first out, under every interleaving of the accesses of [push] on the
    processors and [pop] in the main loop in which at most one processor is inside [push] at a time: neither side
    ever panics, what [pop] has handed out is a prefix of what [push] has taken in, in order and without loss or
    duplication, and at most 255 events wait. From any point at which no processor is inside [push], a [push] that
    runs through takes its event in unless 255 wait, and a [pop] that starts and runs through hands out the oldest
    event whenever one waits. (When two processors' pushes overlap, an event is lost: [two_cpus_lose_tick].) *)
Theorem event_queue_fifo turns : one_at_a_time shared_init turns -> exists s q, foldM queue_turn shared_init turns = Some s /\ accepted s = delivered s ++ q /\ (length q <= 255)%nat /\
  (forall c e, (c < CPUS)%nat -> (forall d p, prods s !! d = Some p -> p = PIdle) -> (length q < 255)%nat -> exists s', push c e s = Some s' /\ accepted s' = accepted s ++ [e]) /\
  (forall e q', cons s = CIdle -> q = e :: q' -> exists s', pop s = Some s' /\ popped s' = popped s ++ [Some e]).
Proof.
  enough (forall s q, queue_ok s q -> length (prods s) = CPUS -> one_at_a_time s turns ->
    exists s' q', foldM queue_turn s turns = Some s' /\ queue_ok s' q' /\ length (prods s') = CPUS) as H.
  { intros H1. destruct (H shared_init []) as (s & q & E & Hok & Hn); [|done|done|].
    { split; try done; try (cbn; unfold CAPACITY; lia). by intros c p [-> _]%lookup_replicate. }
    exists s, q. split; [done|]. pose proof Hok as [_ _ Hr _ Ho _ _ _].
    split; [done|]. split; [done|]. split; [intros; apply (push_takes c e s q); [done|by rewrite Hn|done|done]|]. intros e q' Hc ->. by apply (pop_gives e s q'). }
  induction turns as [|t turns IH]; intros s q Hok Hn H1; cbn [foldM]; [by exists s, q|]. cbn [one_at_a_time] in H1. destruct H1 as [Ht H1].
  assert (exists s' q', queue_turn s t = Some s' /\ queue_ok s' q') as (s' & q' & E & Hok').
  { destruct t as [c e|]; [|by apply (pop_ok s q)]. destruct Ht as [Hc Hi]. destruct (lookup_lt_is_Some_2 (prods s) c) as [p Ep]; [by rewrite Hn|].
    cbn [queue_turn]. rewrite Ep. by apply (push_ok c p e s q). }
  rewrite E. cbn [mbind option_bind]. apply (IH s' q'); [done|by rewrite (queue_turn_prods _ _ _ E)|by apply H1].
Qed.

Module RuntimeWitness.

(** A tick is pushed on processor 0 while the main loop looks, then one on processor 3. *)
Definition ticks : list turn :=
  [Interrupt 0 (Tick 1); MainLoop; Interrupt 0 (Tick 1); Interrupt 0 (Tick 1); MainLoop; Interrupt 0 (Tick 1); MainLoop; Interrupt 3 (Tick 2); MainLoop; Interrupt 3 (Tick 2);
   MainLoop; Interrupt 3 (Tick 2); MainLoop; Interrupt 3 (Tick 2)].

(** The other processors, one by one. *)
Lemma idle_but_check c s : forallb (fun d => (d =? c)%nat || match prods s !! d with Some PIdle | None => true | _ => false end) (seq 0 CPUS) = true -> length (prods s) = CPUS -> idle_but c s.
Proof.
  intros H Hl d p Hd E. rewrite forallb_forall in H. pose proof (lookup_lt_Some _ _ _ E).
  specialize (H d ltac:(apply in_seq; lia)). rewrite E in H. destruct (Nat.eqb_spec d c); [done|]. by destruct p.
Qed.

Ltac next_turn := split; [first [exact I | split; [unfold CPUS; lia|apply idle_but_check; reflexivity]]|intros ? [= <-]].

Lemma ticks_witness : exists s q, foldM queue_turn shared_init ticks = Some s /\ accepted s = [Tick 1; Tick 2] /\ delivered s = [Tick 1] /\ accepted s = delivered s ++ q.
Proof.
  destruct (event_queue_fifo ticks) as (s & q & E & H & _); [unfold ticks, one_at_a_time; repeat next_turn; exact I|].
  exists s, q. split; [exact E|]. vm_compute in E. injection E as <-. split; [reflexivity|]. split; [reflexivity|]. exact H.
Defined.

(** Two processors push at once: both events are taken, the main loop sees one. *)
Definition overlapping : list turn := concat (replicate 4 [Interrupt 0 (Tick 1); Interrupt 1 (Tick 2)]) ++ replicate 6 MainLoop.

Lemma two_cpus_lose_tick : (s ← foldM queue_turn shared_init overlapping; Some (accepted s, popped s)) = Some ([Tick 1; Tick 2], [Some (Tick 2); None]).
Proof. by vm_compute. Qed.
End RuntimeWitness.
