(* ===== verification/Pci.v ===== *)
(** * PCI configuration space

    [kernel_rs/src/pci.rs]: configuration mechanism 1 (the address port [0xCF8] and the data port [0xCFC]), the size probe of a base address
    register, the walk of the capability list for virtio structures, and the scan of every bus.

    The ports are a machine with an address register; each configuration dword has a value and the mask of the bits a write changes, as the PCI
    specification describes read-only bits.  Printing is left out. *)

From S2P Require Import Prelude Bits.

(** ** The ports *)

Definition CONFIG_ADDRESS : Z := 0xCF8.
Definition CONFIG_DATA : Z := 0xCFC.

(** The address register, every dword by its address, and its writable bits. *)
Record config := mkConfig { selected : Z; dwords : Z -> Z; writable : Z -> Z }.

Definition PciM (A : Type) : Type := config -> config * A.
#[global] Instance pci_ret : MRet PciM := fun A a c => (c, a).
#[global] Instance pci_bind : MBind PciM := fun A B f m c => let '(c, a) := m c in f a c.

Definition outl (port value : Z) : PciM unit := fun c =>
  if port =? CONFIG_ADDRESS then (mkConfig value (dwords c) (writable c), tt) else
  let a := selected c in
  let v := Z.lor (Z.land (dwords c a) (wnot 32 (writable c a))) (Z.land value (writable c a)) in
  (mkConfig a (fun b => if b =? a then v else dwords c b) (writable c), tt).

Definition inl (port : Z) : PciM Z := fun c => (c, if port =? CONFIG_DATA then dwords c (selected c) else selected c).

Definition config_address (bus device function offset : Z) : Z :=
  Z.lor (Z.lor (Z.lor (Z.lor (Z.shiftl 1 31) (Z.shiftl bus 16)) (Z.shiftl (Z.land device 0x1F) 11)) (Z.shiftl (Z.land function 0x07) 8)) (Z.land offset 0xFC).

Definition read_config_u32 (bus device function offset : Z) : PciM Z :=
  _ ← outl CONFIG_ADDRESS (config_address bus device function offset); inl CONFIG_DATA.

Definition read_config_u16 (bus device function offset : Z) : PciM Z :=
  dword ← read_config_u32 bus device function (Z.land offset 0xFC);
  let shift := Z.land offset 2 * 8 in mret (Z.land (Z.shiftr dword shift) 0xFFFF).

Definition read_config_u8 (bus device function offset : Z) : PciM Z :=
  dword ← read_config_u32 bus device function (Z.land offset 0xFC);
  let shift := Z.land offset 3 * 8 in mret (Z.land (Z.shiftr dword shift) 0xFF).

Definition write_config_u32 (bus device function offset value : Z) : PciM unit :=
  _ ← outl CONFIG_ADDRESS (config_address bus device function offset); outl CONFIG_DATA value.

(** ** Base address registers *)

Record Bar := mkBar { phys_addr : Z; bar_size : Z }.

Definition read_bar (bus device function index : Z) : PciM (option Bar) :=
  let offset := u8 (0x10 + u8 (index * 4)) in
  orig ← read_config_u32 bus device function offset;
  if (orig =? 0) || negb (Z.land orig 1 =? 0) then mret None else
  let is_64bit := Z.land (Z.shiftr orig 1) 0x3 =? 2 in
  _ ← write_config_u32 bus device function offset 0xFFFFFFFF;
  size_probe ← read_config_u32 bus device function offset;
  _ ← write_config_u32 bus device function offset orig;
  let size_mask := wnot 32 (Z.land size_probe 0xFFFFFFF0) in
  let size := size_mask + 1 in
  let addr := Z.land orig 0xFFFFFFF0 in
  if (is_64bit : bool) then
    hi ← read_config_u32 bus device function (u8 (offset + 4));
    mret (Some (mkBar (Z.lor addr (Z.shiftl hi 32)) size))
  else mret (Some (mkBar addr size)).

(** ** Virtio capabilities *)

Record VirtioCap := mkCap { cfg_type : Z; bar : Z; cap_offset : Z; cap_length : Z; notify_off_multiplier : Z }.

Definition PCI_CAP_ID_VENDOR_SPECIFIC : Z := 0x09.
Definition VIRTIO_PCI_CAP_NOTIFY_CFG : Z := 2.

(** The entry at [ptr], if it is a virtio structure, and the link to the next one. *)
Definition virtio_cap_at (bus device function ptr : Z) : PciM (option VirtioCap * Z) :=
  cap_id ← read_config_u8 bus device function ptr;
  next ← read_config_u8 bus device function (u8 (ptr + 1));
  if cap_id =? PCI_CAP_ID_VENDOR_SPECIFIC then
    cfg ← read_config_u8 bus device function (u8 (ptr + 3));
    b ← read_config_u8 bus device function (u8 (ptr + 4));
    off ← read_config_u32 bus device function (u8 (ptr + 8));
    len ← read_config_u32 bus device function (u8 (ptr + 12));
    mul ← (if cfg =? VIRTIO_PCI_CAP_NOTIFY_CFG then read_config_u32 bus device function (u8 (ptr + 16)) else mret 0);
    mret (Some (mkCap cfg b off len mul), Z.land next 0xFC)
  else mret (None, Z.land next 0xFC).

(** [while ptr != 0]; [None] when the fuel is spent. *)
Fixpoint walk_caps (fuel : nat) (bus device function ptr : Z) (caps : list VirtioCap) : PciM (option (list VirtioCap)) :=
  if ptr =? 0 then mret (Some caps) else
  match fuel with
  | O => mret None
  | S fuel => '(cap, next) ← virtio_cap_at bus device function ptr; walk_caps fuel bus device function next (caps ++ option_list cap)
  end.

Definition find_virtio_caps (fuel : nat) (bus device function : Z) : PciM (option (list VirtioCap)) :=
  status ← read_config_u16 bus device function 0x06;
  if Z.land status 0x10 =? 0 then mret (Some []) else
  ptr ← read_config_u8 bus device function 0x34;
  walk_caps fuel bus device function (Z.land ptr 0xFC) [].

(** ** The scan *)

Record PciDevice := mkPci {
  pci_bus : Z; pci_device : Z; pci_function : Z; vendor_id : Z; device_id : Z; class : Z; subclass : Z; prog_if : Z; header_type : Z }.

(** A [for] loop over a list that collects what its body finds. *)
Fixpoint collect {A B} (f : A -> PciM (list B)) (l : list A) : PciM (list B) :=
  match l with [] => mret [] | x :: l => r ← f x; rest ← collect f l; mret (r ++ rest) end.

Definition probe_function (bus device function : Z) : PciM (list PciDevice) :=
  vendor ← read_config_u16 bus device function 0x00;
  if vendor =? 0xFFFF then mret [] else
  dev_id ← read_config_u16 bus device function 0x02;
  cl ← read_config_u8 bus device function 0x0B;
  sub ← read_config_u8 bus device function 0x0A;
  pif ← read_config_u8 bus device function 0x09;
  ht ← read_config_u8 bus device function 0x0E;
  mret [mkPci bus device function vendor dev_id cl sub pif ht].

Definition probe_device (bus device : Z) : PciM (list PciDevice) :=
  vendor ← read_config_u16 bus device 0 0x00;
  if vendor =? 0xFFFF then mret [] else
  ht ← read_config_u8 bus device 0 0x0E;
  let max_function := if negb (Z.land ht 0x80 =? 0) then 8 else 1 in
  collect (probe_function bus device) (range 0 max_function).

Definition enumerate : PciM (list PciDevice) := collect (fun bus => collect (probe_device bus) (range 0 32)) (range 0 256).

(** ** Reading does not change what is read *)

(** On a machine whose dwords are [D], [m] returns [a] and only moves the address register. *)
Definition reads {A} (D : Z -> Z) (m : PciM A) (a : A) : Prop := forall s w, exists s', m (mkConfig s D w) = (mkConfig s' D w, a).

Lemma reads_ret {A} D (a : A) : reads D (mret a) a.
Proof. intros s w. by exists s. Qed.

Lemma reads_bind {A B} D (m : PciM A) (k : A -> PciM B) a b : reads D m a -> reads D (k a) b -> reads D (x ← m; k x) b.
Proof. intros Hm Hk s w. destruct (Hm s w) as [s1 E1]. destruct (Hk s1 w) as [s2 E2]. exists s2. unfold mbind, pci_bind. by rewrite E1. Qed.

(** The dword, half and byte of a function's configuration. *)
Definition dword (D : Z -> Z) (b d f off : Z) : Z := D (config_address b d f off).
Definition word (D : Z -> Z) (b d f off : Z) : Z := Z.land (Z.shiftr (dword D b d f (Z.land off 0xFC)) (Z.land off 2 * 8)) 0xFFFF.
Definition byte (D : Z -> Z) (b d f off : Z) : Z := Z.land (Z.shiftr (dword D b d f (Z.land off 0xFC)) (Z.land off 3 * 8)) 0xFF.

Lemma reads_u32 D b d f off : reads D (read_config_u32 b d f off) (dword D b d f off).
Proof. intros s w. eexists. reflexivity. Qed.

Lemma reads_u16 D b d f off : reads D (read_config_u16 b d f off) (word D b d f off).
Proof. eapply reads_bind; [apply reads_u32|]. apply reads_ret. Qed.

Lemma reads_u8 D b d f off : reads D (read_config_u8 b d f off) (byte D b d f off).
Proof. eapply reads_bind; [apply reads_u32|]. apply reads_ret. Qed.

Create HintDb pci.
#[local] Hint Resolve reads_ret reads_u32 reads_u16 reads_u8 : pci.
(** Run the next reads. *)
Ltac read_next := repeat (eapply reads_bind; [solve [auto with pci]|]; cbv beta zeta).

Lemma reads_collect {A B} D (f : A -> PciM (list B)) g l : (forall x, reads D (f x) (g x)) -> reads D (collect f l) (l ≫= g).
Proof.
  intros H. induction l as [|x l IH]; [apply reads_ret|]. cbn [collect mbind list_bind].
  eapply reads_bind; [apply H|]. eapply reads_bind; [apply IH|]. apply reads_ret.
Qed.

(** ** The scan finds every function *)

Definition present (D : Z -> Z) (b d f : Z) : bool := negb (word D b d f 0 =? 0xFFFF).
Definition multi_function (D : Z -> Z) (b d : Z) : bool := negb (Z.land (byte D b d 0 0x0E) 0x80 =? 0).
(** A function other than the first is looked at only on a multi-function device. *)
Definition visible (D : Z -> Z) (p : Z * Z * Z) : bool :=
  let '(b, d, f) := p in present D b d 0 && (((f =? 0) || multi_function D b d) && present D b d f).
Definition describe (D : Z -> Z) (p : Z * Z * Z) : PciDevice :=
  let '(b, d, f) := p in mkPci b d f (word D b d f 0) (word D b d f 0x02) (byte D b d f 0x0B) (byte D b d f 0x0A) (byte D b d f 0x09) (byte D b d f 0x0E).

(** Every bus, device and function number, in order. *)
Definition all_functions : list (Z * Z * Z) := b ← range 0 256; d ← range 0 32; (fun f => (b, d, f)) <$> range 0 8.

Lemma reads_probe_function D b d f : reads D (probe_function b d f) (if present D b d f then [describe D (b, d, f)] else []).
Proof.
  unfold probe_function, present. eapply reads_bind; [apply reads_u16|]. cbv beta. destruct (word D b d f 0 =? 0xFFFF); cbn [negb]; [apply reads_ret|]. read_next. apply reads_ret.
Qed.

Lemma filter_bind {A B} (P : B -> bool) (g : A -> list B) l : filter P (l ≫= g) = l ≫= fun x => filter P (g x).
Proof. induction l as [|x l IH]; [done|]. cbn [mbind list_bind]. by rewrite filter_app, IH. Qed.

Lemma fmap_bind {A B C} (h : B -> C) (g : A -> list B) l : h <$> (l ≫= g) = l ≫= fun x => h <$> g x.
Proof. induction l as [|x l IH]; [done|]. cbn [mbind list_bind]. by rewrite fmap_app, IH. Qed.

Lemma bind_ext_eq {A B} (g h : A -> list B) l : (forall x, g x = h x) -> l ≫= g = l ≫= h.
Proof. intros E. induction l as [|x l IH]; [done|]. cbn [mbind list_bind]. by rewrite E, IH. Qed.

(** The functions of one device. *)
Definition found_on (D : Z -> Z) (b d : Z) : list PciDevice := describe D <$> filter (visible D) ((fun f => (b, d, f)) <$> range 0 8).

Lemma found_functions D b d : found_on D b d = range 0 8 ≫= fun f => if visible D (b, d, f) then [describe D (b, d, f)] else [].
Proof.
  unfold found_on. induction (range 0 8) as [|x l IH]; [done|]. cbn [fmap list_fmap mbind list_bind]. rewrite filter_cons, <- IH.
  destruct (visible D (b, d, x)); [by rewrite decide_True|by rewrite decide_False by exact id].
Qed.

Lemma reads_probe_device D b d : reads D (probe_device b d) (found_on D b d).
Proof.
  rewrite found_functions. unfold probe_device. eapply reads_bind; [apply reads_u16|]. cbv beta. cbn [visible]. unfold present at 1. destruct (word D b d 0 0 =? 0xFFFF) eqn:E; cbn [negb andb].
  { exact (reads_ret D []). }
  eapply reads_bind; [apply reads_u8|]. cbv beta zeta. fold (multi_function D b d).
  assert (range 0 8 ≫= (fun f => if ((f =? 0) || multi_function D b d) && present D b d f then [describe D (b, d, f)] else []) =
    range 0 (if multi_function D b d then 8 else 1) ≫= (fun f => if present D b d f then [describe D (b, d, f)] else [])) as ->.
  { destruct (multi_function D b d); [apply bind_ext_eq; intros f; by rewrite orb_true_r|].
    change (range 0 8) with [0; 1; 2; 3; 4; 5; 6; 7]. change (range 0 1) with [0]. cbn [mbind list_bind Z.eqb orb andb app]. by destruct (present D b d 0). }
  apply reads_collect. apply reads_probe_function.
Qed.

(** The scan reports every function there is, once and in the order of their addresses, with the registers of its own configuration, and changes nothing:
    a function is reported when its vendor is not the value of an empty slot, the first function of its device is present, and the device says it has
    several functions if it is not the first. *)
Theorem enumerate_exact c : exists s, enumerate c =
  (mkConfig s (dwords c) (writable c), describe (dwords c) <$> filter (visible (dwords c)) all_functions).
Proof.
  destruct c as [s D w]. cbn [dwords writable].
  assert (describe D <$> filter (visible D) all_functions = range 0 256 ≫= fun b => range 0 32 ≫= fun d => found_on D b d) as ->.
  { unfold all_functions. rewrite filter_bind, fmap_bind. apply bind_ext_eq. intros b. rewrite filter_bind, fmap_bind. apply bind_ext_eq. intros d. done. }
  apply (reads_collect D (fun bus => collect (probe_device bus) (range 0 32)) (fun b => range 0 32 ≫= fun d => found_on D b d)).
  intros b. apply reads_collect. intros d. apply reads_probe_device.
Qed.

(** ** Addresses *)

Lemma lor_aligned x y k : 0 <= k -> x mod 2 ^ k = 0 -> 0 <= y < 2 ^ k -> Z.lor x y = x + y.
Proof.
  intros Hk Hx Hy. assert (x = Z.shiftl (x / 2 ^ k) k) as E by (rewrite Z.shiftl_mul_pow2 by lia; pose proof (Z.div_mod x (2 ^ k) ltac:(lia)); lia).
  rewrite E at 1. rewrite lor_disjoint_add by lia. rewrite Z.shiftl_mul_pow2 in E by lia. lia.
Qed.

Lemma land_0xFC x : 0 <= x < 256 -> Z.land x 0xFC = x - x mod 4.
Proof.
  intros Hx. change 0xFC with (Z.ldiff (Z.ones 8) (Z.ones 2)). rewrite Z.ldiff_land, Z.land_assoc, Z.land_ones, (Z.mod_small x) by lia.
  rewrite <- Z.ldiff_land, Z.ldiff_ones_r, Z.shiftl_mul_pow2, Z.shiftr_div_pow2 by lia. pose proof (Z.div_mod x 4 ltac:(lia)). change (2 ^ 2) with 4. lia.
Qed.

Lemma config_address_arith b d f off : 0 <= b < 256 -> 0 <= d < 32 -> 0 <= f < 8 -> 0 <= off < 256 ->
  config_address b d f off = 2 ^ 31 + b * 65536 + d * 2048 + f * 256 + (off - off mod 4).
Proof.
  intros Hb Hd Hf Ho. unfold config_address. change (Z.land d 0x1F) with (Z.land d (Z.ones 5)). change (Z.land f 0x07) with (Z.land f (Z.ones 3)). rewrite !Z.land_ones by lia.
  rewrite (Z.mod_small d) by lia. rewrite (Z.mod_small f) by lia. rewrite land_0xFC, !Z.shiftl_mul_pow2 by lia.
  rewrite (lor_aligned (1 * 2 ^ 31) (b * 2 ^ 16) 31) by (try done; lia).
  rewrite (lor_aligned (1 * 2 ^ 31 + b * 2 ^ 16) (d * 2 ^ 11) 16); [|lia|apply Z.mod_divide; [lia|]; exists (2 ^ 15 + b); lia|lia].
  rewrite (lor_aligned (1 * 2 ^ 31 + b * 2 ^ 16 + d * 2 ^ 11) (f * 2 ^ 8) 11); [|lia|apply Z.mod_divide; [lia|]; exists (2 ^ 20 + b * 32 + d); lia|lia].
  rewrite (lor_aligned (1 * 2 ^ 31 + b * 2 ^ 16 + d * 2 ^ 11 + f * 2 ^ 8) _ 8); [lia|lia|apply Z.mod_divide; [lia|]; exists (2 ^ 23 + b * 256 + d * 8 + f); lia|].
  Z.to_euclidean_division_equations. lia.
Qed.

(** Different dwords have different addresses. *)
Lemma config_address_inj b d f off b' d' f' off' : 0 <= b < 256 -> 0 <= d < 32 -> 0 <= f < 8 -> 0 <= off < 256 -> 0 <= b' < 256 -> 0 <= d' < 32 -> 0 <= f' < 8 -> 0 <= off' < 256 ->
  config_address b d f off = config_address b' d' f' off' -> b = b' /\ d = d' /\ f = f' /\ off / 4 = off' / 4.
Proof. intros ? ? ? ? ? ? ? ?. rewrite !config_address_arith by done. intros E. Z.to_euclidean_division_equations. lia. Qed.

(** ** The size probe *)

(** The writable bits of a region of [2 ^ k] bytes. *)
Definition bar_mask (k : Z) : Z := 2 ^ 32 - 2 ^ k.

Lemma bar_mask_shift k : 0 <= k <= 32 -> bar_mask k = Z.shiftl (Z.ones (32 - k)) k.
Proof. intros. unfold bar_mask. rewrite Z.shiftl_mul_pow2, Z.ones_equiv by lia. rewrite Z.mul_pred_l, <- Z.pow_add_r by lia. replace (32 - k + k) with 32 by lia. lia. Qed.

Lemma wnot_mask k : 0 <= k <= 32 -> wnot 32 (bar_mask k) = Z.ones k.
Proof.
  intros Hk. unfold wnot. apply Z.bits_inj'. intros i Hi. rewrite Z.lxor_spec, bar_mask_shift by done. change (2 ^ 32 - 1) with (Z.ones 32).
  rewrite Z.shiftl_spec by done. rewrite !Z.testbit_ones by lia.
  destruct (Z.leb_spec 0 (i - k)), (Z.ltb_spec (i - k) (32 - k)), (Z.leb_spec 0 i), (Z.ltb_spec i 32), (Z.ltb_spec i k); try done; lia.
Qed.

Lemma land_mask x k : in_width 32 x -> 0 <= k <= 32 -> Z.land x (bar_mask k) = x - x mod 2 ^ k.
Proof.
  intros Hx Hk. assert (Z.land x (bar_mask k) = Z.ldiff x (Z.ones k)) as ->.
  { apply Z.bits_inj'. intros i Hi. rewrite Z.land_spec, Z.ldiff_spec, bar_mask_shift, Z.shiftl_spec, !Z.testbit_ones by lia.
    destruct (Z.ltb_spec i 32) as [H32|H32]; [|by rewrite (in_width_testbit 32) by (done || lia)]. f_equal.
    destruct (Z.leb_spec 0 (i - k)), (Z.ltb_spec (i - k) (32 - k)), (Z.leb_spec 0 i), (Z.ltb_spec i k); done || lia. }
  rewrite Z.ldiff_ones_r, Z.shiftl_mul_pow2, Z.shiftr_div_pow2 by lia. pose proof (Z.div_mod x (2 ^ k) ltac:(lia)). lia.
Qed.

Lemma write_u32_spec b d f off v c : exists c', write_config_u32 b d f off v c = (c', tt) /\ writable c' = writable c /\
  forall a, dwords c' a = if a =? config_address b d f off then
    Z.lor (Z.land (dwords c a) (wnot 32 (writable c a))) (Z.land v (writable c a)) else dwords c a.
Proof.
  eexists. split; [reflexivity|]. split; [reflexivity|]. intros a. cbn [dwords selected writable].
  destruct (Z.eqb_spec a (config_address b d f off)) as [->|H]; [done|done].
Qed.

(** Base register [index] of a function: a memory region of [2 ^ k] bytes at [base]. *)
Record implements (c : config) (b d f index base flags k : Z) : Prop := {
  im_mask : writable c (config_address b d f (0x10 + index * 4)) = bar_mask k;
  im_value : dwords c (config_address b d f (0x10 + index * 4)) = base + flags;
  im_k : 4 <= k <= 32; im_base : 0 <= base < 2 ^ 32; im_align : base mod 2 ^ k = 0; im_flags : 0 <= flags < 16; im_memory : flags mod 2 = 0; im_used : base + flags <> 0 }.

(** The bits of a register that hold an address and flags below it. *)
Section probe.
Context (base flags k : Z) (Hk : 4 <= k <= 32) (Hb : 0 <= base < 2 ^ 32) (Ha : base mod 2 ^ k = 0) (Hf : 0 <= flags < 16).

Lemma pow_16 : exists p, 2 ^ k = 16 * p /\ 0 < p.
Proof using Hk Hb Ha Hf. exists (2 ^ (k - 4)). split; [|lia]. change 16 with (2 ^ 4). rewrite <- Z.pow_add_r by lia. f_equal. lia. Qed.

Lemma pow_le : 2 ^ k <= 2 ^ 32.
Proof using Hk Hb Ha Hf. apply Z.pow_le_mono_r; lia. Qed.

Lemma base_mult : exists q, base = q * 2 ^ k.
Proof using Hk Hb Ha Hf. apply Z.mod_divide in Ha as [q ->]; [by exists q|]. destruct pow_16 as (p & -> & ?). lia. Qed.

Lemma mask_mult : exists q, bar_mask k = q * 2 ^ k.
Proof using Hk Hb Ha Hf. exists (2 ^ (32 - k) - 1). unfold bar_mask. rewrite Z.mul_sub_distr_r, <- Z.pow_add_r by lia. replace (32 - k + k) with 32 by lia. lia. Qed.

Lemma mod_flags q : (q * 2 ^ k + flags) mod 2 ^ k = flags /\ (q * 2 ^ k + flags) mod 16 = flags.
Proof using Hk Hb Ha Hf.
  destruct pow_16 as (p & E & Hp). rewrite E. split.
  - rewrite Z.add_comm, Z.mod_add by lia. apply Z.mod_small. lia.
  - replace (q * (16 * p) + flags) with (flags + (q * p) * 16) by lia. rewrite Z.mod_add by lia. apply Z.mod_small. lia.
Qed.

Lemma value_width : in_width 32 (base + flags).
Proof using Hk Hb Ha Hf.
  destruct base_mult as [q E], pow_16 as (p & Ep & Hp). unfold in_width. assert (2 ^ 32 = 16 * 2 ^ 28) as E32 by reflexivity.
  assert (base <= 2 ^ 32 - 16) by (rewrite E, Ep, E32 in *; nia). lia.
Qed.

Lemma mask_range : 0 <= bar_mask k < 2 ^ 32.
Proof using Hk Hb Ha Hf. unfold bar_mask. pose proof pow_le. lia. Qed.

Lemma mask_width : in_width 32 (bar_mask k + flags).
Proof using Hk Hb Ha Hf.
  pose proof mask_range. destruct mask_mult as [q E], pow_16 as (p & Ep & Hp). unfold in_width. assert (2 ^ 32 = 16 * 2 ^ 28) as E32 by reflexivity.
  assert (bar_mask k <= 2 ^ 32 - 16) by (rewrite E, Ep, E32 in *; nia). lia.
Qed.

(** Writing ones gives back the mask over the flags; writing the old value puts it back. *)
Lemma probe_ones : Z.lor (Z.land (base + flags) (wnot 32 (bar_mask k))) (Z.land 0xFFFFFFFF (bar_mask k)) = bar_mask k + flags.
Proof using Hk Hb Ha Hf.
  rewrite wnot_mask, Z.land_ones by lia. destruct base_mult as [q Eq]. rewrite Eq, (proj1 (mod_flags q)). rewrite Z.land_comm. change 0xFFFFFFFF with (Z.ones 32).
  pose proof mask_range. rewrite Z.land_ones, Z.mod_small by lia. rewrite Z.lor_comm. apply (lor_aligned _ _ k); [lia| |destruct pow_16 as (p & -> & ?); lia].
  destruct mask_mult as [q' ->]. apply Z.mod_mul. lia.
Qed.

Lemma probe_restore : Z.lor (Z.land (bar_mask k + flags) (wnot 32 (bar_mask k))) (Z.land (base + flags) (bar_mask k)) = base + flags.
Proof using Hk Hb Ha Hf.
  rewrite land_mask by (apply value_width || lia). rewrite wnot_mask, Z.land_ones by lia. destruct mask_mult as [q E], base_mult as [q' E']. rewrite E, E', (proj1 (mod_flags q)), (proj1 (mod_flags q')).
  rewrite Z.lor_comm. replace (q' * 2 ^ k + flags - flags) with (q' * 2 ^ k) by lia. apply (lor_aligned _ _ k); [lia|apply Z.mod_mul; lia|]. destruct pow_16 as (p & -> & ?). lia.
Qed.

Lemma probe_size : wnot 32 (Z.land (bar_mask k + flags) 0xFFFFFFF0) + 1 = 2 ^ k.
Proof using Hk Hb Ha Hf.
  change 0xFFFFFFF0 with (bar_mask 4). rewrite land_mask by (apply mask_width || lia). destruct mask_mult as [q E]. rewrite E. change (2 ^ 4) with 16. rewrite (proj2 (mod_flags q)).
  replace (q * 2 ^ k + flags - flags) with (bar_mask k) by lia. rewrite wnot_mask, Z.ones_equiv by lia. lia.
Qed.

Lemma probe_base : Z.land (base + flags) 0xFFFFFFF0 = base.
Proof using Hk Hb Ha Hf.
  change 0xFFFFFFF0 with (bar_mask 4). rewrite land_mask by (apply value_width || lia). destruct base_mult as [q E]. rewrite E. change (2 ^ 4) with 16. rewrite (proj2 (mod_flags q)). lia.
Qed.

Lemma probe_type : Z.land (Z.shiftr (base + flags) 1) 0x3 = (flags / 2) mod 4.
Proof using Hk Hb Ha Hf.
  change 0x3 with (Z.ones 2). rewrite Z.land_ones, Z.shiftr_div_pow2 by lia. change (2 ^ 1) with 2. change (2 ^ 2) with 4. destruct base_mult as [q E], pow_16 as (p & Ep & _). rewrite E, Ep.
  replace (q * (16 * p) + flags) with (flags + (q * p * 8) * 2) by lia. rewrite Z.div_add by lia. replace (q * p * 8) with (q * p * 2 * 4) by lia. by rewrite Z.mod_add by lia.
Qed.

Lemma probe_memory : flags mod 2 = 0 -> Z.land (base + flags) 1 = 0.
Proof using Hk Hb Ha Hf.
  intros Hm. change 1 with (Z.ones 1). rewrite Z.land_ones by lia. change (2 ^ 1) with 2. destruct base_mult as [q E], pow_16 as (p & Ep & _). rewrite E, Ep.
  replace (q * (16 * p) + flags) with (flags + (q * p * 8) * 2) by lia. by rewrite Z.mod_add by lia.
Qed.
End probe.

(** The size probe.  For a function that implements a memory region of [2 ^ k] bytes, 16 bytes to 4 gigabytes, in one of its six registers, [read_bar]
    returns the address, with the upper half of a 64-bit register, and that size, and every configuration register has its old value afterwards. *)
Theorem read_bar_exact c b d f index base flags k : 0 <= b < 256 -> 0 <= d < 32 -> 0 <= f < 8 -> 0 <= index < 6 -> implements c b d f index base flags k ->
  0 <= dword (dwords c) b d f (0x14 + index * 4) ->
  exists c', read_bar b d f index c = (c', Some (mkBar (base + if (flags / 2) mod 4 =? 2 then 2 ^ 32 * dword (dwords c) b d f (0x14 + index * 4) else 0) (2 ^ k))) /\
    writable c' = writable c /\ forall a, dwords c' a = dwords c a.
Proof.
  intros Hb Hd Hf Hi [Hw Hv Hk Hba Hal Hfl Hm Hu] Hhi. unfold read_bar. rewrite (wrap_small 8 (index * 4)), (wrap_small 8 (16 + index * 4)), (wrap_small 8 (16 + index * 4 + 4)) by (unfold in_width; lia).
  set (off := 16 + index * 4) in *. set (A := config_address b d f off) in *.
  unfold mbind at 1, pci_bind at 1. destruct c as [s0 D w]. cbn [dwords writable] in *. destruct (reads_u32 D b d f off s0 w) as [s1 ->]. cbv beta iota. assert (dword D b d f off = base + flags) as -> by exact Hv.
  rewrite (proj2 (Z.eqb_neq _ _) Hu), (probe_memory base flags k Hk Hba Hal Hfl Hm). cbn [orb negb Z.eqb].
  unfold mbind at 1, pci_bind at 1. destruct (write_u32_spec b d f off 0xFFFFFFFF (mkConfig s1 D w)) as (c1 & -> & Hw1 & Hd1). cbv beta iota. cbn [dwords writable] in Hw1, Hd1. fold A in Hd1.
  unfold mbind at 1, pci_bind at 1. destruct c1 as [s2 D1 w1]. cbn [dwords writable] in Hw1, Hd1. subst w1. destruct (reads_u32 D1 b d f off s2 w) as [s3 ->]. cbv beta iota.
  assert (dword D1 b d f off = bar_mask k + flags) as -> by (unfold dword; fold A; rewrite (Hd1 A), Z.eqb_refl, Hw, Hv; by apply probe_ones).
  unfold mbind at 1, pci_bind at 1. destruct (write_u32_spec b d f off (base + flags) (mkConfig s3 D1 w)) as (c2 & -> & Hw2 & Hd2). cbv beta iota zeta. cbn [dwords writable] in Hw2, Hd2. fold A in Hd2.
  assert (forall a, dwords c2 a = D a) as Hsame.
  { intros a. rewrite Hd2, Hd1. destruct (Z.eqb_spec a A) as [->|]; [|done]. rewrite Hw, Hv, (probe_ones base flags k Hk Hba Hal Hfl). by apply probe_restore. }
  rewrite (probe_size base flags k Hk Hba Hal Hfl), (probe_base base flags k Hk Hba Hal Hfl), (probe_type base flags k Hk Hba Hal Hfl).
  destruct ((flags / 2) mod 4 =? 2).
  - destruct c2 as [s4 D2 w2]. cbn [dwords writable] in *. subst w2. unfold mbind at 1, pci_bind at 1. destruct (reads_u32 D2 b d f (off + 4) s4 w) as [s5 ->]. exists (mkConfig s5 D2 w). split; [|by split].
    unfold mret, pci_ret. do 3 f_equal. unfold dword. rewrite Hsame. replace (off + 4) with (20 + index * 4) by (subst off; lia). fold (dword D b d f (20 + index * 4)).
    rewrite Z.lor_comm, lor_disjoint_add by lia. lia.
  - exists c2. rewrite Z.add_0_r. split; [reflexivity|]. by split.
Qed.

(** ** The capability list *)

Section caps.
Context (D : Z -> Z) (b d f : Z).

(** The link after an entry, and the virtio structure it holds. *)
Definition next_of (p : Z) : Z := Z.land (byte D b d f (u8 (p + 1))) 0xFC.
Definition cap_of (p : Z) : option VirtioCap :=
  if byte D b d f p =? PCI_CAP_ID_VENDOR_SPECIFIC then
    let cfg := byte D b d f (u8 (p + 3)) in
    Some (mkCap cfg (byte D b d f (u8 (p + 4))) (dword D b d f (u8 (p + 8))) (dword D b d f (u8 (p + 12)))
      (if cfg =? VIRTIO_PCI_CAP_NOTIFY_CFG then dword D b d f (u8 (p + 16)) else 0))
  else None.

(** The entries from [p] to the end of the list. *)
Inductive chain : Z -> list Z -> Prop :=
  | chain_end : chain 0 []
  | chain_next p ps : p <> 0 -> chain (next_of p) ps -> chain p (p :: ps).

Lemma reads_cap_at p : reads D (virtio_cap_at b d f p) (cap_of p, next_of p).
Proof.
  unfold virtio_cap_at, cap_of. read_next. destruct (byte D b d f p =? PCI_CAP_ID_VENDOR_SPECIFIC); [|apply reads_ret]. read_next.
  destruct (byte D b d f (u8 (p + 3)) =? VIRTIO_PCI_CAP_NOTIFY_CFG); (eapply reads_bind; [eauto with pci|]); apply reads_ret.
Qed.

Lemma reads_walk p ps fuel caps : chain p ps -> (length ps <= fuel)%nat -> reads D (walk_caps fuel b d f p caps) (Some (caps ++ omap cap_of ps)).
Proof.
  intros H. revert fuel caps. induction H as [|p ps Hp _ IH]; intros fuel caps Hl.
  - destruct fuel; cbn [walk_caps Z.eqb]; rewrite app_nil_r; apply reads_ret.
  - destruct fuel as [|fuel]; cbn [length] in Hl; [lia|]. cbn [walk_caps]. rewrite (proj2 (Z.eqb_neq _ _) Hp). eapply reads_bind; [apply reads_cap_at|]. cbv beta iota.
    replace (caps ++ omap cap_of (p :: ps)) with ((caps ++ option_list (cap_of p)) ++ omap cap_of ps); [apply IH; lia|]. rewrite <- app_assoc. f_equal. cbn [omap list_omap]. by destruct (cap_of p).
Qed.

Lemma chain_unique p ps qs : chain p ps -> chain p qs -> ps = qs.
Proof.
  intros H. revert qs. induction H as [|p ps Hp _ IH]; intros qs Hq; inversion Hq; subst; try done. f_equal. by apply IH.
Qed.

Lemma chain_suffix p ps l q r : chain p ps -> ps = l ++ q :: r -> chain q (q :: r).
Proof.
  intros H. revert l. induction H as [|p ps Hp Hc IH]; intros l E; [by destruct l|]. destruct l as [|x l]; cbn [app] in E; [injection E as <- <-; by constructor|].
  injection E as <- E. by apply (IH l).
Qed.

(** A list that ends never visits an entry twice. *)
Lemma chain_NoDup p ps : chain p ps -> NoDup ps.
Proof.
  intros H. induction H as [|p ps Hp Hc IH]; [constructor|]. constructor; [|done]. intros (l1 & l2 & ->)%list_elem_of_split.
  pose proof (chain_suffix _ _ l1 p l2 Hc eq_refl) as Hs. inversion Hs; subst.
  match goal with H1 : chain (next_of p) l2 |- _ => pose proof (chain_unique _ _ _ Hc H1) as E end. apply (f_equal length) in E. rewrite length_app in E. cbn [length] in E. lia.
Qed.
End caps.

(** Entries are dwords of the first 256 bytes. *)
Definition entries : list Z := (fun k => 4 * k) <$> range 1 64.

Lemma land_entry x : Z.land x 0xFC = 0 \/ Z.land x 0xFC ∈ entries.
Proof.
  assert (0 <= Z.land x 0xFC < 256 /\ Z.land x 0xFC mod 4 = 0) as [Hr Hm].
  { split.
    - replace (Z.land x 0xFC) with (Z.land x 0xFC mod 256); [apply Z.mod_pos_bound; lia|]. change 256 with (2 ^ 8). rewrite <- Z.land_ones by lia. by rewrite <- Z.land_assoc.
    - change 4 with (2 ^ 2). rewrite <- Z.land_ones by lia. rewrite <- Z.land_assoc. change (Z.land 0xFC (Z.ones 2)) with 0. apply Z.land_0_r. }
  destruct (Z.eq_dec (Z.land x 0xFC) 0) as [E|E]; [by left|right]. apply list_elem_of_fmap. exists (Z.land x 0xFC / 4). split; [|apply elem_of_range]; Z.to_euclidean_division_equations; lia.
Qed.

Lemma chain_entries D b d f p ps : chain D b d f p ps -> p ∈ entries \/ p = 0 -> ps ⊆ entries.
Proof.
  intros H. induction H as [|p ps Hp _ IH]; intros He; [set_solver|]. destruct He as [He|He]; [|done].
  assert (ps ⊆ entries) by (apply IH; destruct (land_entry (byte D b d f (u8 (p + 1)))); [by right|by left]). set_solver.
Qed.

Lemma chain_short D b d f p ps : chain D b d f p ps -> p ∈ entries \/ p = 0 -> (length ps <= 63)%nat.
Proof.
  intros H He. pose proof (chain_NoDup _ _ _ _ _ _ H) as Hn. pose proof (chain_entries _ _ _ _ _ _ H He) as Hs.
  exact (submseteq_length _ _ (NoDup_submseteq _ _ Hn Hs)).
Qed.


(** The virtio structures of a function.  When its capability list ends, the walk finds every vendor structure of the list, in order, within 63 steps;
    without a capability list it finds none. *)
Theorem find_virtio_caps_exact c b d f ps : (Z.land (word (dwords c) b d f 0x06) 0x10 = 0 /\ ps = []) \/
    (Z.land (word (dwords c) b d f 0x06) 0x10 <> 0 /\ chain (dwords c) b d f (Z.land (byte (dwords c) b d f 0x34) 0xFC) ps) ->
  exists s, find_virtio_caps 63 b d f c = (mkConfig s (dwords c) (writable c), Some (omap (cap_of (dwords c) b d f) ps)).
Proof.
  intros H. destruct c as [s0 D w]. cbn [dwords writable] in *. enough (reads D (find_virtio_caps 63 b d f) (Some (omap (cap_of D b d f) ps))) as Hr by apply Hr.
  unfold find_virtio_caps. eapply reads_bind; [apply reads_u16|]. cbv beta. destruct H as [[E ->]|[E Hc]].
  - rewrite E. apply reads_ret.
  - rewrite (proj2 (Z.eqb_neq _ _) E). eapply reads_bind; [apply reads_u8|]. cbv beta. apply (reads_walk D b d f _ ps 63 []); [done|].
    apply (chain_short D b d f _ _ Hc). destruct (land_entry (byte D b d f 0x34)); auto.
Qed.

(** A list that leads back to where it was keeps the walk going for ever. *)
Lemma caps_cycle_hangs fuel b d f p caps c : p <> 0 -> next_of (dwords c) b d f p = p -> (walk_caps fuel b d f p caps c).2 = None.
Proof.
  intros Hp Hn. revert caps c Hn. induction fuel as [|fuel IH]; intros caps c Hn; cbn [walk_caps]; rewrite (proj2 (Z.eqb_neq _ _) Hp); [done|].
  unfold mbind, pci_bind. destruct c as [s D w]. destruct (reads_cap_at D b d f p s w) as [s' ->]. cbn [dwords] in Hn. rewrite Hn. by apply IH.
Qed.

Module PciWitness.
(** One function at 0:3.0 with a memory register of 4096 bytes and two capabilities, the second a virtio notify structure. *)
Definition reg (off : Z) : Z := config_address 0 3 0 off.
Definition image : list (Z * Z) :=
  [(reg 0x00, 0x10421AF4); (reg 0x04, 0x00100000); (reg 0x08, 0x01000000); (reg 0x0C, 0); (reg 0x10, 0xFEBD1000); (reg 0x14, 0); (reg 0x34, 0x40);
   (reg 0x40, 0x00005011); (reg 0x50, 0x02140009); (reg 0x54, 0x00000001); (reg 0x58, 0x3000); (reg 0x5C, 0x1000); (reg 0x60, 4)].
Definition value_at (a : Z) : Z := foldr (fun p v => if p.1 =? a then p.2 else v) 0xFFFFFFFF image.
Definition machine : config := mkConfig 0 value_at (fun a => if a =? reg 0x10 then bar_mask 12 else 0).

Lemma bar_implements : implements machine 0 3 0 0 0xFEBD1000 0 12.
Proof. split; by vm_compute. Qed.

Lemma read_bar_witness : exists c', read_bar 0 3 0 0 machine = (c', Some (mkBar 0xFEBD1000 4096)) /\ writable c' = writable machine /\ forall a, dwords c' a = dwords machine a.
Proof.
  exact (read_bar_exact machine 0 3 0 0 0xFEBD1000 0 12 ltac:(lia) ltac:(lia) ltac:(lia) ltac:(lia) bar_implements ltac:(by vm_compute)).
Defined.

Lemma two_caps : chain (dwords machine) 0 3 0 0x40 [0x40; 0x50].
Proof.
  apply chain_next; [done|]. assert (next_of (dwords machine) 0 3 0 0x40 = 0x50) as -> by by vm_compute.
  apply chain_next; [done|]. assert (next_of (dwords machine) 0 3 0 0x50 = 0) as -> by by vm_compute. apply chain_end.
Qed.

Lemma caps_witness : exists s, find_virtio_caps 63 0 3 0 machine = (mkConfig s (dwords machine) (writable machine), Some [mkCap 2 1 0x3000 0x1000 4]).
Proof.
  destruct (find_virtio_caps_exact machine 0 3 0 [0x40; 0x50]) as [s E].
  - right. split; [by vm_compute|]. assert (Z.land (byte (dwords machine) 0 3 0 0x34) 0xFC = 0x40) as -> by by vm_compute. exact two_caps.
  - exists s. rewrite E. assert (omap (cap_of (dwords machine) 0 3 0) [0x40; 0x50] = [mkCap 2 1 0x3000 0x1000 4]) as -> by by vm_compute. exact eq_refl.
Defined.

(** The same function with a capability that links to itself. *)
Definition looped : config := mkConfig 0 (fun a => if a =? reg 0x40 then 0x00004011 else value_at a) (fun _ => 0).
Example looped_never_ends fuel : (find_virtio_caps fuel 0 3 0 looped).2 = None.
Proof.
  unfold find_virtio_caps, mbind, pci_bind. destruct (reads_u16 (dwords looped) 0 3 0 0x06 0 (fun _ => 0)) as [s E]. change looped with (mkConfig 0 (dwords looped) (fun _ => 0)). rewrite E.
  assert ((Z.land (word (dwords looped) 0 3 0 0x06) 0x10 =? 0) = false) as -> by by vm_compute.
  destruct (reads_u8 (dwords looped) 0 3 0 0x34 s (fun _ => 0)) as [s' ->]. assert (Z.land (byte (dwords looped) 0 3 0 0x34) 0xFC = 0x40) as -> by by vm_compute.
  apply caps_cycle_hangs; [done|]. by vm_compute.
Qed.
End PciWitness.
