(* ===== verification/DeviceManager.v ===== *)
(** * Device manager and supervisor

    [kernel_rs/src/device_manager.rs] (discovery, classification, the lifecycle of a device and the bounded restarts), [supervisor.rs] (which thread
    runs which driver, and what happens when one is killed by a fault) and the decisions of [service_manager.rs].  The audit records each of them writes
    are part of the state.  A respawn function is known by a number: the model keeps the list of the calls; [None] is a panic. *)

From S2P Require Import Prelude AuditLog Bits Pci.

Definition MAX_RESTARTS : Z := 3.

Inductive DeviceState := Discovered | Bound | Running | Crashed | Restarting | Failed.
#[export] Instance DeviceState_eq_dec : EqDecision DeviceState.
Proof. solve_decision. Defined.

Inductive DriverKind := HostBridge | IsaBridge | AhciController | VgaController | SmBusController | Unknown | Compositor.
#[export] Instance DriverKind_eq_dec : EqDecision DriverKind.
Proof. solve_decision. Defined.

Definition classify (d : PciDevice) : DriverKind :=
  if (class d =? 0x06) && (subclass d =? 0x00) then HostBridge else
  if (class d =? 0x06) && (subclass d =? 0x01) then IsaBridge else
  if (class d =? 0x01) && (subclass d =? 0x06) && (prog_if d =? 0x01) then AhciController else
  if (class d =? 0x03) && (subclass d =? 0x00) then VgaController else
  if (class d =? 0x0C) && (subclass d =? 0x05) then SmBusController else Unknown.

Record ManagedDevice := mkManaged { pci : PciDevice; driver_kind : DriverKind; state : DeviceState; restart_count : Z }.
Definition DeviceManager : Type := list ManagedDevice.

Definition dm_new : DeviceManager := [].

(** Bus, device and function. *)
Abbreviation bdf := (Z * Z * Z)%type.
Definition bdf_of (d : ManagedDevice) : bdf := (pci_bus (pci d), pci_device (pci d), pci_function (pci d)).

Definition set_state (s : DeviceState) (d : ManagedDevice) : ManagedDevice := mkManaged (pci d) (driver_kind d) s (restart_count d).
Definition set_restart (n : Z) (d : ManagedDevice) : ManagedDevice := mkManaged (pci d) (driver_kind d) (state d) n.

Definition discover (found : list PciDevice) (dm : DeviceManager) : DeviceManager :=
  dm ++ ((fun d => mkManaged d (classify d) Discovered 0) <$> found).

Definition bind_all (dm : DeviceManager) : DeviceManager :=
  (fun dev => if bool_decide (driver_kind dev = Unknown) then dev else set_state Bound dev) <$> dm.

(** The first device with this address. *)
Definition find_mut (a : bdf) (dm : DeviceManager) : option nat := fst <$> list_find (fun d => bdf_of d = a) dm.

Definition mark_running (a : bdf) (dm : DeviceManager) : DeviceManager :=
  match find_mut a dm with
  | None => dm
  | Some i => alter (fun dev => if bool_decide (state dev = Bound) || bool_decide (state dev = Restarting) then set_state Running dev else dev) i dm
  end.

Definition report_crash (tid : Z) (a : bdf) (fault_vector : option Z) (dm : DeviceManager) (log : audit) : DeviceManager * audit * bool :=
  match (i ← find_mut a dm; dev ← dm !! i; Some (i, dev)) with
  | None => (dm, log, false)
  | Some (i, dev) =>
      let dm := alter (set_state Crashed) i dm in
      let '(bus, device, function) := a in
      let id := pack_bdf bus device function in
      let log := record tid (EvProcessCrashed id (default 0xFF fault_vector)) log in
      match decide_restart (restart_count dev) MAX_RESTARTS with
      | Quarantine => (alter (set_state Failed) i dm, record tid (EvProcessQuarantined id) log, false)
      | Restart attempt => (alter (set_state Restarting) i (alter (set_restart attempt) i dm), record tid (EvProcessRestarted id attempt) log, true)
      end
  end.

Definition register_synthetic (a : bdf) (kind : DriverKind) (dm : DeviceManager) : DeviceManager :=
  match find_mut a dm with
  | Some _ => dm
  | None => let '(bus, device, function) := a in dm ++ [mkManaged (mkPci bus device function 0 0 0 0 0 0) kind Running 0]
  end.

Definition bound_devices (dm : DeviceManager) : list ManagedDevice := filter (fun d => state d = Bound) dm.

(** [service_manager_thread], once the token has arrived. *)
Definition start_services (dm : DeviceManager) : DeviceManager := foldl (fun dm a => mark_running a dm) dm (bdf_of <$> bound_devices dm).

(** ** The supervisor *)

Record SupervisedDriver := mkSup { sup_bdf : bdf; respawn : Z; owner_thread : Z }.

(** [GLOBAL], [REGISTRY], the audit log, and the calls of respawn functions so far, with the device each was for. *)
Record sup := mkSupState { GLOBAL : option DeviceManager; REGISTRY : list SupervisedDriver; AUDIT : audit; RESPAWNED : list (bdf * Z) }.

Definition install_global (dm : DeviceManager) (s : sup) : sup := mkSupState (Some dm) (REGISTRY s) (AUDIT s) (RESPAWNED s).

Definition register (a : bdf) (respawn_fn : Z) (s : sup) : sup :=
  if existsb (fun d => bool_decide (sup_bdf d = a)) (REGISTRY s) then s
  else mkSupState (GLOBAL s) (REGISTRY s ++ [mkSup a respawn_fn 0]) (AUDIT s) (RESPAWNED s).

Definition mark_thread_owner (tid : Z) (a : bdf) (s : sup) : sup :=
  match list_find (fun d => sup_bdf d = a) (REGISTRY s) with
  | None => s
  | Some (i, d) => mkSupState (GLOBAL s) (<[i := mkSup (sup_bdf d) (respawn d) tid]> (REGISTRY s)) (AUDIT s) (RESPAWNED s)
  end.

Definition on_process_killed (tid fault_vector : Z) (s : sup) : option sup :=
  match list_find (fun d => owner_thread d = tid) (REGISTRY s) with
  | None => Some s
  | Some (_, d) =>
      dm ← GLOBAL s;
      let '(dm, log, restart_scheduled) := report_crash tid (sup_bdf d) (Some fault_vector) dm (AUDIT s) in
      if (restart_scheduled : bool) then
        Some (mkSupState (Some (mark_running (sup_bdf d) dm)) (REGISTRY s) log (RESPAWNED s ++ [(sup_bdf d, respawn d)]))
      else Some (mkSupState (Some dm) (REGISTRY s) log (RESPAWNED s))
  end.

(** ** What happens to one device *)

Definition device (a : bdf) (dm : DeviceManager) : option ManagedDevice := snd <$> list_find (fun d => bdf_of d = a) dm.

Lemma device_cons a d dm : device a (d :: dm) = if decide (bdf_of d = a) then Some d else device a dm.
Proof. unfold device. cbn [list_find]. destruct (decide (bdf_of d = a)); [done|]. by destruct (list_find _ dm) as [[]|]. Qed.

Lemma find_mut_cons a d dm : find_mut a (d :: dm) = if decide (bdf_of d = a) then Some O else S <$> find_mut a dm.
Proof. unfold find_mut. cbn [list_find]. destruct (decide (bdf_of d = a)); [done|]. by destruct (list_find _ dm) as [[]|]. Qed.

Lemma find_mut_device a dm i : find_mut a dm = Some i -> dm !! i = device a dm.
Proof.
  unfold DeviceManager, find_mut, device in *. destruct (list_find _ dm) as [[j d]|] eqn:E; [|done]. cbn. intros [= <-]. by apply list_find_Some in E as (-> & _ & _).
Qed.

Lemma find_mut_none a dm : find_mut a dm = None <-> device a dm = None.
Proof. unfold find_mut, device. by destruct (list_find _ dm) as [[j d]|]. Qed.

Lemma device_bdf a dm d : device a dm = Some d -> bdf_of d = a.
Proof. unfold device. destruct (list_find _ dm) as [[j x]|] eqn:E; [|done]. cbn. intros [= <-]. by apply list_find_Some in E as (_ & ? & _). Qed.

(** Changing the first device with an address changes what is found at that address only. *)
Lemma device_alter f a b i dm : (forall d, bdf_of (f d) = bdf_of d) -> find_mut a dm = Some i ->
  device b (alter f i dm) = if decide (b = a) then f <$> device a dm else device b dm.
Proof.
  unfold DeviceManager in *. intros Hf. revert i. induction dm as [|d dm IH]; intros i Hi; [done|]. rewrite find_mut_cons in Hi. destruct (decide (bdf_of d = a)) as [Ha|Ha].
  - injection Hi as <-. cbn [alter list_alter]. rewrite !device_cons, Hf. rewrite (decide_True (P := bdf_of d = a)) by done. destruct (decide (b = a)) as [->|Hb]; [by rewrite decide_True by done|by rewrite !decide_False by congruence].
  - destruct (find_mut a dm) as [j|] eqn:E; [|done]. injection Hi as <-. change (alter f (S j) (d :: dm)) with (d :: alter f j dm). rewrite !device_cons, (IH j eq_refl). rewrite (decide_False (P := bdf_of d = a)) by done.
    destruct (decide (b = a)) as [->|Hb]; [by rewrite decide_False by done|done].
Qed.

Lemma find_mut_alter f a i dm : (forall d, bdf_of (f d) = bdf_of d) -> find_mut a (alter f i dm) = find_mut a dm.
Proof.
  unfold DeviceManager in *. intros Hf. revert i. induction dm as [|d dm IH]; intros i; [done|]. destruct i as [|i]; [cbn [alter list_alter]; by rewrite !find_mut_cons, Hf|].
  change (alter f (S i) (d :: dm)) with (d :: alter f i dm). by rewrite !find_mut_cons, IH.
Qed.

Lemma device_app a dm dm' : device a (dm ++ dm') = match device a dm with Some d => Some d | None => device a dm' end.
Proof. induction dm as [|d dm IH]; [done|]. cbn [app]. rewrite !device_cons, IH. by destruct (decide (bdf_of d = a)). Qed.

Lemma mark_running_device a b dm : device b (mark_running a dm) =
  if decide (b = a) then (fun dev => if bool_decide (state dev = Bound) || bool_decide (state dev = Restarting) then set_state Running dev else dev) <$> device a dm else device b dm.
Proof.
  unfold mark_running. destruct (find_mut a dm) as [i|] eqn:E.
  - apply device_alter; [|done]. intros d. by destruct (_ || _).
  - apply find_mut_none in E. rewrite E. by destruct (decide (b = a)) as [->|].
Qed.

(** What a crash does to the device, and the answer. *)
Definition crashed (dev : ManagedDevice) : ManagedDevice :=
  if MAX_RESTARTS <=? restart_count dev then set_state Failed dev else set_state Restarting (set_restart (u32 (restart_count dev + 1)) dev).

Lemma report_crash_device tid a fv dm log dm' log' r b : report_crash tid a fv dm log = (dm', log', r) ->
  device b dm' = (if decide (b = a) then crashed <$> device a dm else device b dm) /\
  r = match device a dm with Some dev => negb (MAX_RESTARTS <=? restart_count dev) | None => false end.
Proof.
  unfold report_crash. destruct (find_mut a dm) as [i|] eqn:E; cbn [mbind option_bind].
  2:{ apply find_mut_none in E. intros [= <- <- <-]. rewrite E. split; [|done]. by destruct (decide (b = a)) as [->|]. }
  rewrite (find_mut_device a dm i E). destruct (device a dm) as [dev|] eqn:Ed; cbn [mbind option_bind].
  2:{ intros [= <- <- <-]. split; [|done]. by destruct (decide (b = a)) as [->|]. }
  assert (crashed dev = if MAX_RESTARTS <=? restart_count dev then set_state Failed (set_state Crashed dev) else set_state Restarting (set_restart (u32 (restart_count dev + 1)) (set_state Crashed dev))) as Ec by done.
  destruct a as [[bus dv] fn]. unfold decide_restart. cbn [fmap option_fmap option_map]. rewrite Ec. clear Ec. intros H.
  destruct (MAX_RESTARTS <=? restart_count dev); injection H as <- <- <-; (split; [|done]);
    (destruct (decide (b = (bus, dv, fn))) as [->|Hb]; repeat (rewrite (device_alter _ (bus, dv, fn)); [|done|by rewrite ?find_mut_alter by done]);
    [by rewrite !decide_True, Ed by done|by rewrite !decide_False by done]).
Qed.

(** ** Restarts are bounded *)

Inductive sup_op :=
  | OpRegister (a : bdf) (respawn_fn : Z)
  | OpSynthetic (a : bdf) (kind : DriverKind)
  | OpOwner (tid : Z) (a : bdf)
  | OpRunning (a : bdf)
  | OpKilled (tid fault_vector : Z).

Definition on_global (f : DeviceManager -> DeviceManager) (s : sup) : option sup := dm ← GLOBAL s; Some (mkSupState (Some (f dm)) (REGISTRY s) (AUDIT s) (RESPAWNED s)).

Definition sup_step (s : sup) (op : sup_op) : option sup :=
  match op with
  | OpRegister a r => Some (register a r s)
  | OpSynthetic a k => on_global (register_synthetic a k) s
  | OpOwner tid a => Some (mark_thread_owner tid a s)
  | OpRunning a => on_global (mark_running a) s
  | OpKilled tid v => on_process_killed tid v s
  end.

(** How often the driver of a device was started again. *)
Definition restarts (a : bdf) (s : sup) : nat := length (filter (fun p => p.1 = a) (RESPAWNED s)).
Definition managed (a : bdf) (s : sup) : option ManagedDevice := GLOBAL s ≫= device a.

Record sup_ok (s : sup) : Prop := {
  sk_global : is_Some (GLOBAL s);
  sk_count : forall a, Z.of_nat (restarts a s) = match managed a s with Some dev => restart_count dev | None => 0 end;
  sk_bound : forall a dev, managed a s = Some dev -> 0 <= restart_count dev <= MAX_RESTARTS;
  sk_failed : forall a dev, managed a s = Some dev -> state dev = Failed -> restart_count dev = MAX_RESTARTS }.

Lemma sup_ok_device s dm dm' reg log : GLOBAL s = Some dm -> sup_ok s ->
  (forall a, match device a dm' with Some dev' => match device a dm with Some dev => restart_count dev' = restart_count dev /\ (state dev' = Failed -> state dev = Failed) | None => restart_count dev' = 0 /\ state dev' <> Failed end | None => device a dm = None end) ->
  sup_ok (mkSupState (Some dm') reg log (RESPAWNED s)).
Proof.
  intros E [_ Hc Hb Hf] Hd. unfold managed in *. rewrite E in *. cbn [mbind option_bind] in *. split; [done| | |]; intros a; cbn [managed GLOBAL mbind option_bind]; specialize (Hc a); specialize (Hd a).
  - unfold restarts, managed in *. cbn [RESPAWNED GLOBAL mbind option_bind]. rewrite Hc. destruct (device a dm'), (device a dm); try done; by destruct Hd.
  - intros dev E'. unfold managed in E'. cbn in E'. rewrite E' in Hd. destruct (device a dm) as [d|] eqn:Ed; [|unfold MAX_RESTARTS; destruct Hd; lia]. destruct Hd as [-> _]. exact (Hb a d Ed).
  - intros dev E' Hs. unfold managed in E'. cbn in E'. rewrite E' in Hd. destruct (device a dm) as [d|] eqn:Ed; [|by destruct Hd]. destruct Hd as [-> Hs']. exact (Hf a d Ed (Hs' Hs)).
Qed.

Lemma sup_ok_registry s reg log : sup_ok s -> sup_ok (mkSupState (GLOBAL s) reg log (RESPAWNED s)).
Proof. intros [H1 H2 H3 H4]. by split. Qed.

Lemma managed_some s dm a : GLOBAL s = Some dm -> managed a s = device a dm.
Proof. intros E. unfold managed. by rewrite E. Qed.

Lemma managed_mk a dm reg log calls : managed a (mkSupState (Some dm) reg log calls) = device a dm.
Proof. done. Qed.

Lemma restarts_app a s dm reg log calls : restarts a (mkSupState dm reg log (RESPAWNED s ++ calls)) = (restarts a s + length (filter (fun p => p.1 = a) calls))%nat.
Proof. unfold restarts. cbn [RESPAWNED]. by rewrite filter_app, length_app. Qed.

Lemma calls_other a0 a (calls : list (bdf * Z)) : Forall (fun p => p.1 = a0) calls -> length (filter (fun p => p.1 = a) calls) = if decide (a = a0) then length calls else O.
Proof.
  intros H. induction H as [|p calls Hp _ IH]; [by destruct (decide (a = a0))|]. rewrite filter_cons.
  destruct (decide (a = a0)) as [->|Ha]; [rewrite decide_True by done; cbn; by rewrite IH|by rewrite decide_False by congruence].
Qed.

(** One device changes, and its driver is called as often as its count grows. *)
Lemma sup_ok_update s dm dm' reg log calls a0 dev0 dev' : GLOBAL s = Some dm -> sup_ok s -> device a0 dm = Some dev0 ->
  (forall b, device b dm' = if decide (b = a0) then Some dev' else device b dm) -> Forall (fun p => p.1 = a0) calls ->
  restart_count dev' = restart_count dev0 + Z.of_nat (length calls) -> 0 <= restart_count dev' <= MAX_RESTARTS -> (state dev' = Failed -> restart_count dev' = MAX_RESTARTS) ->
  sup_ok (mkSupState (Some dm') reg log (RESPAWNED s ++ calls)).
Proof.
  intros Eg [_ Hc Hb Hf] E0 Hd Hcalls Hn Hr Hfail. split; [done| | |]; intros a; specialize (Hc a); specialize (Hb a); specialize (Hf a); rewrite (managed_some s dm a Eg) in *;
    rewrite ?restarts_app, ?(calls_other a0) by done; rewrite managed_mk, Hd; destruct (decide (a = a0)) as [->|Ha].
  - rewrite E0 in Hc. lia.
  - by rewrite Nat.add_0_r.
  - by intros dev [= <-].
  - done.
  - by intros dev [= <-].
  - done.
Qed.

Lemma report_other tid a v dm log dm' log' : report_crash tid a v dm log = (dm', log', false) -> device a dm = None -> forall b, device b dm' = device b dm.
Proof. intros E H b. rewrite (proj1 (report_crash_device _ _ _ _ _ _ _ _ b E)), H. by destruct (decide (b = a)) as [->|]. Qed.

(** One death: the fault of a thread that runs a driver.  A failed device stays failed and is not started again. *)
Lemma killed_ok tid v s : sup_ok s -> exists s', on_process_killed tid v s = Some s' /\ sup_ok s' /\
  forall a dev, managed a s = Some dev -> state dev = Failed -> restarts a s' = restarts a s /\ exists dev', managed a s' = Some dev' /\ state dev' = Failed.
Proof.
  intros Hok. pose proof Hok as [[dm Eg] Hc Hb Hf]. unfold on_process_killed. destruct (list_find _ (REGISTRY s)) as [[i d]|]; [|exists s; split; [done|]; split; [done|]; eauto].
  rewrite Eg. cbn [mbind option_bind]. destruct (report_crash tid (sup_bdf d) (Some v) dm (AUDIT s)) as [[dm' log'] r] eqn:Er. set (a0 := sup_bdf d) in *.
  pose proof (fun b => proj1 (report_crash_device _ _ _ _ _ _ _ _ b Er)) as Hd. pose proof (proj2 (report_crash_device _ _ _ _ _ _ _ _ a0 Er)) as Hr. destruct (device a0 dm) as [dev0|] eqn:E0.
  2:{ subst r. pose proof (report_other _ _ _ _ _ _ _ Er E0) as Hsame. eexists. split; [done|]. split; [apply (sup_ok_device s dm); [done|done|]; intros a; rewrite Hsame; by destruct (device a dm)|].
    intros a dev Hma Hs. split; [done|]. exists dev. rewrite managed_mk, Hsame. by rewrite <- (managed_some s dm a Eg). }
  pose proof (Hb a0 dev0 ltac:(by rewrite (managed_some s dm))) as Hb0. cbn [fmap option_fmap option_map] in Hd. unfold crashed in Hd.
  destruct (Z.leb_spec MAX_RESTARTS (restart_count dev0)) as [Hm|Hm]; subst r; cbn [negb].
  - eexists. split; [done|]. rewrite <- (app_nil_r (RESPAWNED s)) at 1. split.
    + apply (sup_ok_update s dm dm' _ _ [] a0 dev0 (set_state Failed dev0)); try done; cbn; lia.
    + intros a dev Hma Hs. split; [done|]. rewrite managed_mk, Hd. rewrite (managed_some s dm a Eg) in Hma. destruct (decide (a = a0)); eauto.
  - rewrite wrap_small in Hd by (unfold in_width, MAX_RESTARTS in *; lia). set (dev1 := set_restart (restart_count dev0 + 1) dev0) in *.
    assert (forall b, device b (mark_running a0 dm') = if decide (b = a0) then Some (set_state Running dev1) else device b dm) as Hd2.
    { intros b. rewrite mark_running_device, !Hd. rewrite (decide_True (P := a0 = a0)) by done. by destruct (decide (b = a0)) as [->|]. }
    eexists. split; [done|]. split.
    + apply (sup_ok_update s dm _ _ _ _ a0 dev0 (set_state Running dev1)); try done; [by repeat constructor|cbn; lia].
    + intros a dev Hma Hs. rewrite (managed_some s dm a Eg) in Hma. assert (a <> a0) as Ha.
      { intros ->. pose proof (Hf a0 dev ltac:(by rewrite (managed_some s dm)) Hs). rewrite E0 in Hma. injection Hma as ->. lia. }
      rewrite restarts_app, (calls_other a0) by by repeat constructor. rewrite decide_False by done. split; [lia|]. exists dev. by rewrite managed_mk, Hd2, decide_False by done.
Qed.

(** A failed device of [s] is failed in [s'], and was not started again in between. *)
Definition quarantine_kept (s s' : sup) : Prop :=
  forall a dev, managed a s = Some dev -> state dev = Failed -> restarts a s' = restarts a s /\ exists dev', managed a s' = Some dev' /\ state dev' = Failed.

Lemma quarantine_refl s : quarantine_kept s s.
Proof. intros a dev. eauto. Qed.

Lemma quarantine_registry s reg log : quarantine_kept s (mkSupState (GLOBAL s) reg log (RESPAWNED s)).
Proof. intros a dev. eauto. Qed.

Lemma quarantine_trans s1 s2 s3 : quarantine_kept s1 s2 -> quarantine_kept s2 s3 -> quarantine_kept s1 s3.
Proof. intros H1 H2 a dev Ha Hs. destruct (H1 a dev Ha Hs) as (E1 & dev' & Ha' & Hs'). destruct (H2 a dev' Ha' Hs') as (E2 & H). split; [congruence|done]. Qed.

Lemma global_ok f s : sup_ok s ->
  (forall dm a, match device a (f dm) with
    | Some dev' => match device a dm with Some dev => restart_count dev' = restart_count dev /\ (state dev' = Failed <-> state dev = Failed) | None => restart_count dev' = 0 /\ state dev' <> Failed end
    | None => device a dm = None end) ->
  exists s', on_global f s = Some s' /\ sup_ok s' /\ quarantine_kept s s'.
Proof.
  intros Hok Hf. pose proof (sk_global s Hok) as [dm Eg]. unfold on_global. rewrite Eg. cbn [mbind option_bind]. eexists. split; [done|]. split.
  - apply (sup_ok_device s dm); [done|done|]. intros a. specialize (Hf dm a). destruct (device a (f dm)), (device a dm); naive_solver.
  - intros a dev Ha Hs. split; [done|]. rewrite (managed_some s dm a Eg) in Ha. rewrite managed_mk. specialize (Hf dm a). rewrite Ha in Hf. destruct (device a (f dm)); naive_solver.
Qed.

Lemma step_ok s op : sup_ok s -> exists s', sup_step s op = Some s' /\ sup_ok s' /\ quarantine_kept s s'.
Proof.
  intros Hok. destruct op as [a r|a k|tid a|a|tid v]; cbn [sup_step].
  - eexists. split; [done|]. unfold register. destruct (existsb _ (REGISTRY s)); [split; [done|apply quarantine_refl]|]. split; [by apply sup_ok_registry|apply quarantine_registry].
  - apply global_ok; [done|]. intros dm b. unfold register_synthetic. destruct (find_mut a dm) as [i|] eqn:E; [by destruct (device b dm)|]. destruct a as [[bus dv] fn].
    rewrite device_app, device_cons. destruct (device b dm); [done|]. by destruct (decide _).
  - eexists. split; [done|]. unfold mark_thread_owner. destruct (list_find _ (REGISTRY s)) as [[i d]|]; [|split; [done|apply quarantine_refl]]. split; [by apply sup_ok_registry|apply quarantine_registry].
  - apply global_ok; [done|]. intros dm b. rewrite mark_running_device. destruct (decide (b = a)) as [->|]; [|by destruct (device b dm)]. destruct (device a dm) as [dev|]; [|done]. cbn.
    destruct (bool_decide_reflect (state dev = Bound)) as [Hs|]; cbn; [rewrite Hs; done|]. destruct (bool_decide_reflect (state dev = Restarting)) as [Hs|]; cbn; [rewrite Hs; done|done].
  - exact (killed_ok tid v s Hok).
Qed.

Lemma steps_ok ops s : sup_ok s -> exists s', foldM sup_step s ops = Some s' /\ sup_ok s' /\ quarantine_kept s s'.
Proof.
  revert s. induction ops as [|op ops IH]; intros s Hok; cbn [foldM]; [exists s; split; [done|]; split; [done|apply quarantine_refl]|].
  destruct (step_ok s op Hok) as (s1 & -> & Hok1 & Hq1). cbn [mbind option_bind]. destruct (IH s1 Hok1) as (s2 & -> & Hok2 & Hq2). exists s2. split; [done|]. split; [done|]. by apply (quarantine_trans s s1).
Qed.

(** The kernel after the scan: [discover], [bind_all], [install_global]. *)
Definition boot (found : list PciDevice) : sup := install_global (bind_all (discover found dm_new)) (mkSupState None [] audit_init []).

Lemma supervisor_boot_ok found : sup_ok (boot found).
Proof.
  assert (forall a dev, device a (bind_all (discover found dm_new)) = Some dev -> restart_count dev = 0 /\ state dev <> Failed) as H.
  { unfold discover, bind_all, dm_new. cbn [app]. induction found as [|d found IH]; [done|]. intros a dev. cbn [fmap list_fmap driver_kind]. rewrite device_cons.
    destruct (decide _); [|by apply IH]. intros [= <-]. by case_bool_decide. }
  split; [done| | |]; intros a; unfold boot, install_global; rewrite managed_mk.
  - unfold restarts. cbn [RESPAWNED filter list_filter length]. destruct (device a (bind_all (discover found dm_new))) as [dev|] eqn:E; [|done]. by destruct (H a dev E) as [-> _].
  - intros dev E. destruct (H a dev E) as [-> _]. unfold MAX_RESTARTS. lia.
  - intros dev E Hs. by destruct (H a dev E).
Qed.

(** C30. Restarts are bounded.  From boot, whatever registrations, thread starts and faults follow, the supervisor never panics, no driver is started again more
    than three times, the number of restarts is the one the device manager counts, and a device given up as failed stays failed and is never restarted again. *)
Theorem restarts_bounded found before later : exists s1 s2, foldM sup_step (boot found) before = Some s1 /\ foldM sup_step s1 later = Some s2 /\
  (forall a, (restarts a s2 <= 3)%nat) /\ (forall a dev, managed a s2 = Some dev -> restart_count dev = Z.of_nat (restarts a s2)) /\ quarantine_kept s1 s2.
Proof.
  destruct (steps_ok before (boot found) (supervisor_boot_ok found)) as (s1 & E1 & Hok1 & _). destruct (steps_ok later s1 Hok1) as (s2 & E2 & [Hg Hc Hb Hf] & Hq).
  exists s1, s2. split; [done|]. split; [done|]. split; [|split; [|done]].
  - intros a. specialize (Hc a). destruct (managed a s2) as [dev|] eqn:E; [|lia]. specialize (Hb a dev E). unfold MAX_RESTARTS in Hb. lia.
  - intros a dev E. rewrite Hc, E. done.
Qed.

(** What one death does: with restarts left the driver is started again and the device runs, otherwise the device has failed; both are audited under the dead thread. *)
Theorem death_exact tid v s i d dev dm : GLOBAL s = Some dm -> list_find (fun d => owner_thread d = tid) (REGISTRY s) = Some (i, d) -> device (sup_bdf d) dm = Some dev -> 0 <= restart_count dev < 2 ^ 32 - 1 ->
  let '(bus, dv, fn) := sup_bdf d in let id := pack_bdf bus dv fn in
  exists s', on_process_killed tid v s = Some s' /\ REGISTRY s' = REGISTRY s /\
    (forall a, managed a s' = if decide (a = sup_bdf d) then Some (if restart_count dev <? 3 then set_state Running (set_restart (restart_count dev + 1) dev) else set_state Failed dev) else managed a s) /\
    RESPAWNED s' = RESPAWNED s ++ (if restart_count dev <? 3 then [(sup_bdf d, respawn d)] else []) /\
    AUDIT s' = record tid (if restart_count dev <? 3 then EvProcessRestarted id (restart_count dev + 1) else EvProcessQuarantined id) (record tid (EvProcessCrashed id v) (AUDIT s)).
Proof.
  intros Eg Ef Ed Hc. destruct (sup_bdf d) as [[bus dv] fn] eqn:Ea. cbv zeta. unfold on_process_killed. rewrite Ef, Eg, Ea. cbn [mbind option_bind].
  destruct (report_crash tid (bus, dv, fn) (Some v) dm (AUDIT s)) as [[dm' log'] r] eqn:Er. pose proof (fun b => report_crash_device _ _ _ _ _ _ _ _ b Er) as Hd.
  assert (log' = record tid (if restart_count dev <? 3 then EvProcessRestarted (pack_bdf bus dv fn) (restart_count dev + 1) else EvProcessQuarantined (pack_bdf bus dv fn)) (record tid (EvProcessCrashed (pack_bdf bus dv fn) v) (AUDIT s))) as Hlog.
  { unfold report_crash in Er. destruct (find_mut (bus, dv, fn) dm) as [j|] eqn:Ej; [|apply find_mut_none in Ej; congruence]. cbn [mbind option_bind] in Er. rewrite (find_mut_device _ _ _ Ej), Ed in Er. cbn [mbind option_bind] in Er.
    unfold decide_restart, MAX_RESTARTS in Er. rewrite (wrap_small 32 (restart_count dev + 1)) in Er by (unfold in_width; lia). destruct (Z.leb_spec 3 (restart_count dev)), (Z.ltb_spec (restart_count dev) 3); try lia; by injection Er as _ <- _. }
  pose proof (proj2 (Hd (bus, dv, fn))) as Hr. rewrite Ed in Hr. unfold MAX_RESTARTS in Hr.
  assert (forall a, device a dm' = if decide (a = (bus, dv, fn)) then Some (if restart_count dev <? 3 then set_state Restarting (set_restart (restart_count dev + 1) dev) else set_state Failed dev) else device a dm) as Hdev.
  { intros a. rewrite (proj1 (Hd a)), Ed. cbn [fmap option_fmap option_map]. unfold crashed, MAX_RESTARTS. rewrite (wrap_small 32 (restart_count dev + 1)) by (unfold in_width; lia).
    destruct (Z.leb_spec 3 (restart_count dev)), (Z.ltb_spec (restart_count dev) 3); try lia; done. }
  destruct (Z.ltb_spec (restart_count dev) 3) as [Hlt|Hlt].
  - rewrite (proj2 (Z.leb_gt _ _)) in Hr by lia. cbn [negb] in Hr. subst r. eexists. split; [done|]. split; [done|]. split; [|by split]. intros a. rewrite managed_mk, (managed_some s dm a Eg), mark_running_device, !Hdev.
    rewrite (decide_True (P := (bus, dv, fn) = (bus, dv, fn))) by done. by destruct (decide (a = (bus, dv, fn))).
  - rewrite (proj2 (Z.leb_le _ _)) in Hr by lia. cbn [negb] in Hr. subst r. eexists. split; [done|]. split; [done|]. split; [|by rewrite app_nil_r]. intros a. by rewrite managed_mk, (managed_some s dm a Eg), Hdev.
Qed.

Module SupervisorWitness.
(** The disk controller of the scan at 0:1f.2, its driver on thread 7. *)
Definition ahci : PciDevice := mkPci 0 0x1f 2 0x8086 0x2922 0x01 0x06 0x01 0.
Definition ahci_bdf : bdf := (0, 0x1f, 2).
Definition started : sup := mark_thread_owner 7 ahci_bdf (register ahci_bdf 100 (boot [ahci])).

Lemma death_witness : exists s', on_process_killed 7 14 started = Some s' /\ RESPAWNED s' = [(ahci_bdf, 100)].
Proof.
  destruct (death_exact 7 14 started 0 (mkSup ahci_bdf 100 7) (mkManaged ahci AhciController Bound 0) [mkManaged ahci AhciController Bound 0] eq_refl eq_refl eq_refl ltac:(cbn; lia)) as (s' & E & _ & _ & Hr & _).
  exists s'. split; [exact E|]. rewrite Hr. reflexivity.
Defined.

(** Four faults, a new thread after each: three restarts, then the device has failed. *)
Example four_deaths : exists s, foldM sup_step started [OpKilled 7 14; OpOwner 8 ahci_bdf; OpKilled 8 13; OpOwner 9 ahci_bdf; OpKilled 9 14; OpOwner 10 ahci_bdf; OpKilled 10 6] = Some s /\
  restarts ahci_bdf s = 3%nat /\ state <$> managed ahci_bdf s = Some Failed.
Proof. eexists. split; [vm_compute; reflexivity|]. by vm_compute. Qed.
End SupervisorWitness.
