(* ===== verification/Stores.v ===== *)
(** * User sessions, the object store and the encrypted store

    [kernel_rs/src/multi_user.rs] (a session is a capability table of its own), [object_store.rs] (a file is named by a capability) and
    [crypto_store.rs] (sectors are decrypted for the holder of a capability), on the capability substrate and the stream cipher.  The
    theorems are about these operations in any system, not about the demonstrations in the same files. *)

From S2P Require Import Prelude AuditLog Capability Crypto.

(** ** Sessions *)

(** [struct UserSession]. *)
Record Session := mkSession { uid : Z; username : bytes; username_len : nat; session_cap : Z; table : CapabilityTable }.

Definition SESSION_RIGHTS : Z := union (union SESSION_SWITCH GRANT) REVOKE.

(** [UserSession::new]. *)
Definition session_new (id : Z) (username_str : bytes) (k : kernel) : option (kernel * Session) :=
  let '(k, obj_id) := create_object (UserSession id) k in
  let '(k, t, cap) := grant table_new obj_id SESSION_RIGHTS k in
  let len := Nat.min (length username_str) 16 in
  src ← rslice username_str 0 len; name ← wslice (replicate 16 0) 0 src;
  Some (k, mkSession id name len cap t).

(** ** The object store *)

Inductive ObjectStoreError := StoreCap (e : CapError) | WrongObjectKind.

Definition create_file_capability (t : CapabilityTable) (inode rs : Z) (k : kernel) : kernel * CapabilityTable * Z :=
  let '(k, object_id) := create_object (FileObject inode) k in grant t object_id rs k.

Definition resolve_to_inode (t : CapabilityTable) (cap_id required : Z) (k : kernel) : kernel * result Z ObjectStoreError :=
  match resolve t cap_id required k with
  | (k, Err e) => (k, Err (StoreCap e))
  | (k, Ok cap) => (k, match object_kind k (object_id cap) with Some (FileObject inode) => Ok inode | _ => Err WrongObjectKind end)
  end.

(** ** The encrypted store *)

Definition SECTOR_SIZE : nat := 512.

(** [AGENTIC_DISK_ENCRYPTION_KEY_2026]. *)
Definition MASTER_DISK_KEY : bytes :=
  [65; 71; 69; 78; 84; 73; 67; 95; 68; 73; 83; 75; 95; 69; 78; 67; 82; 89; 80; 84; 73; 79; 78; 95; 75; 69; 89; 95; 50; 48; 50; 54].

Definition derive_sector_nonce (lba : Z) : option bytes := wslice (replicate 12 0) 0 (le_bytes 8 lba).

(** [transform_sector] of this file: copy, then the cipher in place. *)
Definition store_transform (key : bytes) (lba : Z) (input output : bytes) : option bytes :=
  output ← wslice output 0 input; transform_sector key lba output.

Definition create_key_capability (t : CapabilityTable) (key_id rs : Z) (k : kernel) : kernel * CapabilityTable * Z :=
  let '(k, obj_id) := create_object (CryptoKey key_id) k in grant t obj_id rs k.

(** The buffer afterwards, and the answer. *)
Definition decrypt_sector_gated (t : CapabilityTable) (cap : Z) (key : bytes) (lba : Z) (ciphertext plaintext_out : bytes) (k : kernel)
  : option (kernel * bytes * result unit CapError) :=
  match resolve t cap DECRYPT k with
  | (k, Err e) => Some (k, plaintext_out, Err e)
  | (k, Ok _) => out ← store_transform key lba ciphertext plaintext_out; Some (k, out, Ok tt)
  end.

(** ** New objects *)

Section fresh.
Context (kd : KernelObjectKind) (k : kernel) (Hroom : Z.of_nat (length (OBJECTS k)) < 2 ^ 32).

(** The number of the next object. *)
Definition next_id : Z := Z.of_nat (length (OBJECTS k)).

Lemma create_object_id : create_object kd k = (set_objects (OBJECTS k ++ [mkObject kd 1 true]) k, next_id).
Proof using Hroom. unfold create_object, next_id. by rewrite wrap_small by (unfold in_width; lia). Qed.

Lemma new_object : get_object (create_object kd k).1 next_id = Some (mkObject kd 1 true).
Proof using Hroom. rewrite create_object_id. unfold get_object, next_id. cbn. rewrite Nat2Z.id. apply list_lookup_middle. done. Qed.
End fresh.

Lemma grant_get t oid rs k x : get_object (grant t oid rs k).1.1 x = get_object k x.
Proof. done. Qed.

(** Granting a live object of generation [g] gives a capability that resolves. *)
Lemma grant_resolves t oid rs k o req : get_object k oid = Some o -> alive o = true -> Z.of_nat (length t) < 2 ^ 32 ->
  let '(k', t', id) := grant t oid rs k in
  id = Z.of_nat (length t) /\ t' = t ++ [Some (mkCap oid rs (generation o))] /\ mjoin (t' !! Z.to_nat id) = Some (mkCap oid rs (generation o)) /\
  (resolve t' id req k').2 = if contains rs req then Ok (mkCap oid rs (generation o)) else Err InsufficientRights.
Proof.
  intros Ho Ha Hl. unfold grant. rewrite Ho, wrap_small by (unfold in_width; lia). set (c := mkCap oid rs (generation o)).
  assert (mjoin ((t ++ [Some c]) !! Z.to_nat (Z.of_nat (length t))) = Some c) as Hs by (rewrite Nat2Z.id; rewrite list_lookup_middle by done; done).
  split; [done|]. split; [done|]. split; [done|]. destruct (contains rs req) eqn:Hc.
  - apply resolve_Ok. split; [done|]. split; [by exists o|done].
  - apply (resolve_short _ _ _ _ c); [done| |done]. split; [by exists o|]. apply contains_spec, Z.land_0_r.
Qed.

(** ** Files are reached through capabilities only *)

(** The object store.  [resolve_to_inode] answers with an inode exactly when the slot holds a live capability to a file object with the rights asked for,
    and then with that file's inode; a capability to anything else is refused as the wrong kind, an unusable one with the error of [resolve]. *)
Theorem resolve_to_inode_exact t cap_id required k r :
  (resolve_to_inode t cap_id required k).2 = r <->
  match r with
  | Ok inode => exists cap o, mjoin (t !! Z.to_nat cap_id) = Some cap /\ live_for k cap required /\ get_object k (object_id cap) = Some o /\ kind o = FileObject inode
  | Err WrongObjectKind => exists cap o, mjoin (t !! Z.to_nat cap_id) = Some cap /\ live_for k cap required /\ get_object k (object_id cap) = Some o /\ forall inode, kind o <> FileObject inode
  | Err (StoreCap e) => (resolve t cap_id required k).2 = Err e
  end.
Proof.
  unfold resolve_to_inode. pose proof (resolve_Ok t cap_id required k) as Hok. pose proof (resolve_OBJECTS t cap_id required k) as Hobj. destruct (resolve t cap_id required k) as [k' [cap|e]]; cbn [fst snd] in *.
  - destruct (proj1 (Hok cap) eq_refl) as [Ht Hl]. pose proof Hl as [(o & Ho & Ha & Hg) _]. assert (object_kind k' (object_id cap) = Some (kind o)) as ->.
    { unfold object_kind, get_object. rewrite Hobj. fold (get_object k (object_id cap)). rewrite Ho. cbn. by rewrite Ha. }
    split; [intros <-; destruct (kind o) eqn:E; try (exists cap, o; split; [done|]; split; [done|]; split; [done|]; congruence)|].
    destruct r as [inode|[e|]]; [|done|]; intros (cap' & o' & Ht' & _ & Ho' & Hk); assert (cap' = cap) as -> by congruence; assert (o' = o) as -> by congruence.
    + by rewrite Hk.
    + destruct (kind o); try done. by destruct (Hk inode).
  - split; [by intros <-|]. destruct r as [inode|[e'|]]; [| |]; [intros (cap & o & Ht & Hl & _); by pose proof (proj2 (Hok cap) (conj Ht Hl))|by intros [= <-]|intros (cap & o & Ht & Hl & _); by pose proof (proj2 (Hok cap) (conj Ht Hl))].
Qed.

(** A capability made for a file leads back to it. *)
Lemma file_capability_roundtrip t inode rs k req : Z.of_nat (length (OBJECTS k)) < 2 ^ 32 -> Z.of_nat (length t) < 2 ^ 32 -> contains rs req = true ->
  let '(k', t', id) := create_file_capability t inode rs k in (resolve_to_inode t' id req k').2 = Ok inode.
Proof.
  intros Hk Ht Hc. unfold create_file_capability. pose proof (new_object (FileObject inode) k Hk) as Hn. rewrite create_object_id in * by done. cbn [fst] in Hn.
  pose proof (grant_resolves t (next_id k) rs (set_objects (OBJECTS k ++ [mkObject (FileObject inode) 1 true]) k) _ req Hn eq_refl Ht) as Hg.
  destruct (grant t (next_id k) rs _) as [[k' t'] id] eqn:E. destruct Hg as (_ & _ & Hs & Hr). rewrite Hc in Hr. apply resolve_Ok in Hr as [_ Hl].
  apply resolve_to_inode_exact. eexists _, _. split; [exact Hs|]. split; [exact Hl|]. split; [unfold grant in E; injection E as <- _ _; exact Hn|done].
Qed.

(** ** Decryption needs the right *)

Lemma store_transform_spec key lba input output : length key = 32%nat -> in_width 64 lba -> length input = length output ->
  exists out, store_transform key lba input output = Some out /\ length out = length input /\ transform_sector key lba input = Some out.
Proof.
  intros Hk Hl He. unfold store_transform, wslice. rewrite decide_True by lia. cbn [mbind option_bind take app]. rewrite drop_ge by lia. rewrite app_nil_r.
  destruct (proj1 (transform_sector_roundtrip key lba lba input Hk Hl Hl)) as (out & E & Hlen & _). by exists out.
Qed.

(** The gated decryption.  It never panics on a sector; the holder of a live capability with the [DECRYPT] right gets back the plaintext that was encrypted under
    the same key for the same sector, anybody else an error and an untouched buffer. *)
Theorem decrypt_gated_exact t cap key lba plaintext ciphertext buffer k : length key = 32%nat -> in_width 64 lba -> length buffer = length plaintext ->
  transform_sector key lba plaintext = Some ciphertext ->
  exists k' out r, decrypt_sector_gated t cap key lba ciphertext buffer k = Some (k', out, r) /\ OBJECTS k' = OBJECTS k /\
    match r with
    | Ok _ => out = plaintext /\ exists c, mjoin (t !! Z.to_nat cap) = Some c /\ live_for k c DECRYPT
    | Err e => out = buffer /\ (resolve t cap DECRYPT k).2 = Err e
    end.
Proof.
  intros Hk Hl Hb Hc. destruct (proj1 (transform_sector_roundtrip key lba lba plaintext Hk Hl Hl)) as (out & E & Hlen & Hback). assert (out = ciphertext) as -> by congruence.
  unfold decrypt_sector_gated. pose proof (resolve_OBJECTS t cap DECRYPT k) as Ho. pose proof (resolve_Ok t cap DECRYPT k) as Hok. destruct (resolve t cap DECRYPT k) as [k' [c|e]]; cbn [fst snd] in *.
  - destruct (store_transform_spec key lba ciphertext buffer Hk Hl ltac:(congruence)) as (out & -> & _ & E'). cbn [mbind option_bind]. eexists _, _, _. split; [done|]. split; [done|].
    split; [congruence|]. exists c. by apply Hok.
  - by eexists _, _, _.
Qed.

(** ** Users are kept apart *)

(** A session opened in a running system: its table joins those of the other sessions and processes.  The number is
    its place among them. *)
Definition open_session (id : Z) (name : bytes) (s : system) : option (system * nat) :=
  '(k, u) ← session_new id name (sys_kernel s); Some (mkSystem k (sys_tables s ++ [table u]), length (sys_tables s)).

(** The operation hands an object to the group [G]: the kernel grants it to a member, or somebody outside derives a
    capability to it into a member's table. *)
Definition handed_over (G : nat -> bool) (oid : Z) (o : op) (s : system) : bool :=
  match o with
  | OpGrant p oid' _ => G p && (oid' =? oid)
  | OpDerive p cap_id _ q => negb (G p) && G q && match slot_at s p (Z.to_nat cap_id) with Some cap => object_id cap =? oid | None => false end
  | _ => false
  end.

Fixpoint never_handed_over (G : nat -> bool) (oid : Z) (ops : list op) (s : system) : bool :=
  match ops with [] => true | o :: ops => negb (handed_over G oid o s) && never_handed_over G oid ops (exec o s) end.

(** No member of the group holds a capability to the object, alive or not. *)
Definition kept_from (G : nat -> bool) (oid : Z) (s : system) : Prop := forall p cap, G p = true -> holds s p cap -> object_id cap <> oid.

Lemma session_new_spec id name k : Z.of_nat (length (OBJECTS k)) < 2 ^ 32 ->
  exists k' s, session_new id name k = Some (k', s) /\ OBJECTS k' = OBJECTS k ++ [mkObject (UserSession id) 1 true] /\ table s = [Some (mkCap (next_id k) SESSION_RIGHTS 1)].
Proof.
  intros Hk. unfold session_new. rewrite create_object_id by done. unfold grant, get_object. cbn [OBJECTS set_objects]. unfold next_id. rewrite Nat2Z.id, list_lookup_middle by done. cbn [generation].
  unfold rslice. rewrite decide_True by lia. cbn [mbind option_bind]. unfold wslice. rewrite length_take, length_drop, length_replicate, decide_True by lia. cbn [mbind option_bind]. by eexists _, _.
Qed.

(** What a derivation adds is in the target's table, and names the object of the source's slot. *)
Lemma derive_slot_inv p cid rs q s p' c cap : slot_at (exec (OpDerive p cid rs q) s) p' c = Some cap ->
  slot_at s p' c = Some cap \/ p' = q /\ exists src, slot_at s p (Z.to_nat cid) = Some src /\ object_id cap = object_id src.
Proof.
  unfold exec. destruct (sys_tables s !! p) as [t|] eqn:Hp; [|by left]. destruct (sys_tables s !! q) as [tgt|] eqn:Hq; [|by left].
  pose proof (derive_push t cid rs tgt (sys_kernel s)) as Hd. destruct (derive t cid rs tgt (sys_kernel s)) as [[k' t'] r]. cbn [fst snd] in Hd. unfold slot_at. cbn [sys_tables].
  destruct Hd as [->|(src & Hs & _ & _ & ->)]; [rewrite list_insert_id by done; by left|]. intros H.
  destruct (tab_step_slot_inv _ _ _ _ _ _ (tab_push (sys_tables s) q tgt _ Hq) H) as [Ho|[= -> <-]]; [by left|right]. split; [done|]. exists src. by rewrite Hp.
Qed.

Lemma derive_self_exec p cid rs s : exec (OpDeriveSelf p cid rs) s = exec (OpDerive p cid rs p) s.
Proof. cbn. by destruct (sys_tables s !! p). Qed.

(** No operation but these two gives a member the object. *)
Lemma kept_step G oid o s : kept_from G oid s -> handed_over G oid o s = false -> kept_from G oid (exec o s).
Proof.
  intros Hk Hno p cap HG [c Hc].
  assert (forall p0 cid rs q, slot_at (exec (OpDerive p0 cid rs q) s) p c = Some cap -> negb (G p0) && G q && match slot_at s p0 (Z.to_nat cid) with Some cap => object_id cap =? oid | None => false end = false ->
    object_id cap <> oid) as Hder.
  { intros p0 cid rs q [H|(-> & src & Hs & Ho)]%derive_slot_inv Hf; [apply (Hk p cap HG); by exists c|]. rewrite Ho, HG, Hs, andb_true_r in *.
    destruct (G p0) eqn:E; [apply (Hk p0 src E); by exists (Z.to_nat cid)|]. by apply Z.eqb_neq. }
  destruct (exec_tab_step o s) as (w & Hst & Hpush). destruct o as [|kd|q oid' rs|q cid req|q cid rs q'|q cid rs|oid' d|q inode req|tid];
    try (destruct (tab_step_slot_inv _ _ _ _ _ _ Hst Hc) as [Ho|Ho]; [apply (Hk p cap HG); by exists c|by destruct (Hpush _ _ Ho)]).
  - destruct (tab_step_slot_inv _ _ _ _ _ _ Hst Hc) as [Ho|Ho]; [apply (Hk p cap HG); by exists c|]. destruct (Hpush _ _ Ho) as [-> ->]. cbn in Hno |- *.
    rewrite HG in Hno. by apply Z.eqb_neq.
  - by eapply Hder.
  - rewrite derive_self_exec in Hc. eapply Hder; [exact Hc|]. by destruct (G q).
Qed.

Lemma kept_run G oid ops : forall s, kept_from G oid s -> never_handed_over G oid ops s = true -> kept_from G oid (run ops s).
Proof.
  induction ops as [|o ops IH]; intros s Hk; [done|]. cbn [never_handed_over]. intros [Ho Hr]%andb_prop. rewrite run_cons. apply IH; [|done].
  apply kept_step; [done|]. by apply negb_true_iff.
Qed.

(** C28. Users are kept apart.  Open a session for a user in any system of fewer than 2^32 objects, and take any group of sessions and processes, with the
    new one in it, of which none of the others holds a capability to a certain object (any object but the new session's
    own).  Then, whatever anybody does in whatever order (make objects, tables and capabilities, resolve any number, derive,
    revoke), unless the kernel grants that very object to a member of the group or somebody outside the group derives a
    capability to it into a member's table, no member can name it: no slot and no rights a member tries resolve to it. *)
Theorem sessions_isolated id name s G oid ops : Z.of_nat (length (OBJECTS (sys_kernel s))) < 2 ^ 32 -> kept_from G oid s -> oid <> next_id (sys_kernel s) ->
  exists s' user, open_session id name s = Some (s', user) /\
    let G' := fun p => G p || (p =? user)%nat in
    (never_handed_over G' oid ops s' = true ->
     forall p t cap_id required cap, G' p = true -> sys_tables (run ops s') !! p = Some t ->
       (resolve t cap_id required (sys_kernel (run ops s'))).2 = Ok cap -> object_id cap <> oid).
Proof.
  intros Hr Hk Hid. destruct (session_new_spec id name (sys_kernel s) Hr) as (k' & u & E & _ & Ht). unfold open_session. rewrite E. cbn [mbind option_bind].
  set (G' := fun p => G p || (p =? length (sys_tables s))%nat).
  eexists _, _. split; [done|]. cbv zeta. fold G'. intros Hn p t cid req cap HG Hp [Hs _]%resolve_Ok.
  apply (kept_run G' oid ops _) in Hn; [apply (Hn p cap HG); exists (Z.to_nat cid); unfold slot_at; by rewrite Hp|].
  clear - Hk Hid Ht. intros p cap HG [c Hc]. unfold slot_at in Hc. cbn [sys_tables] in Hc. destruct (decide (p < length (sys_tables s))%nat) as [Hl|Hl].
  - rewrite lookup_app_l in Hc by done. apply (Hk p cap); [|by exists c]. unfold G' in HG. by rewrite (proj2 (Nat.eqb_neq _ _)), orb_false_r in HG by lia.
  - rewrite lookup_app_r, Ht in Hc by lia. destruct (p - length (sys_tables s))%nat; [|done]. cbn in Hc. destruct c; [|done]. injection Hc as <-. cbn. congruence.
Qed.

Module StoresWitness.

(** Alice's session (table 0) has a private file (object 1); Bob's session is table 1. *)
Definition before_bob : system :=
  default system_init ('(s, _) ← open_session 1000 [97; 108; 105; 99; 101] system_init; Some (run [OpCreate (FileObject 101); OpGrant 0 1 (union (union READ WRITE) GRANT)] s)).
(** She shares an endpoint with him; he tries to pass things on, to derive from every slot and to make objects of his own. *)
Definition afterwards : list op :=
  [OpCreate IpcEndpoint; OpGrant 0 3 (union (union SEND RECEIVE) GRANT); OpDerive 0 2 RECEIVE 1; OpDeriveSelf 1 1 SEND; OpDerive 1 0 REVOKE 0; OpDeriveSelf 1 7 NONE; OpCreate (FileObject 101); OpGrant 1 4 READ].

(** Bob holds three capabilities by then, and none of his resolutions names object 1; had she derived slot 1 to him, one would. *)
Lemma sessions_witness : exists s', open_session 1001 [98; 111; 98] before_bob = Some (s', 1%nat) /\
  (length <$> sys_tables (run afterwards s') !! 1%nat) = Some 3%nat /\
  forall t cap_id required cap, sys_tables (run afterwards s') !! 1%nat = Some t -> (resolve t cap_id required (sys_kernel (run afterwards s'))).2 = Ok cap -> object_id cap <> 1.
Proof.
  destruct (sessions_isolated 1001 [98; 111; 98] before_bob (fun _ => false) 1 afterwards) as (s' & user & E & H); [by vm_compute|by intros p cap|by vm_compute|].
  exists s'. assert (open_session 1001 [98; 111; 98] before_bob = Some (s', 1%nat)) as E' by (rewrite E; vm_compute in E |- *; injection E as <- <-; reflexivity).
  rewrite E in E'. injection E' as ->. split; [exact E|]. vm_compute in E. injection E as <-. split; [by vm_compute|].
  intros t cap_id required cap. apply (H ltac:(by vm_compute) 1%nat). reflexivity.
Defined.

Example shared_by_derivation : (fun x => never_handed_over (fun p => (p =? 1)%nat) 1 (afterwards ++ [OpDerive 0 1 READ 1]) x.1) <$> open_session 1001 [98; 111; 98] before_bob = Some false.
Proof. by vm_compute. Qed.

Definition sector : bytes := range 0 64.
Definition sealed : bytes := default [] (transform_sector MASTER_DISK_KEY 42 sector).
(** A key capability with and without the right to decrypt, and a file capability with it. *)
Definition keys : kernel * CapabilityTable * Z := create_key_capability table_new 1 DECRYPT kernel_init.
Definition encrypt_only : kernel * CapabilityTable * Z := create_key_capability table_new 1 ENCRYPT kernel_init.
Definition file_key : kernel * CapabilityTable * Z := create_file_capability table_new 9 DECRYPT kernel_init.

Lemma decrypt_witness : exists k' out r, decrypt_sector_gated keys.1.2 keys.2 MASTER_DISK_KEY 42 sealed (replicate 64 0) keys.1.1 = Some (k', out, r) /\ OBJECTS k' = OBJECTS keys.1.1.
Proof.
  destruct (decrypt_gated_exact keys.1.2 keys.2 MASTER_DISK_KEY 42 sector sealed (replicate 64 0) keys.1.1 eq_refl ltac:(unfold in_width; lia) eq_refl ltac:(by vm_compute)) as (k' & out & r & E & Ho & _).
  exists k', out, r. split; [exact E|exact Ho].
Defined.

Example encrypt_only_refused : (fun x => (x.1.2, x.2)) <$> decrypt_sector_gated encrypt_only.1.2 encrypt_only.2 MASTER_DISK_KEY 42 sealed (replicate 64 0) encrypt_only.1.1 = Some (replicate 64 0, Err InsufficientRights).
Proof. by vm_compute. Qed.

(** The kind of the object is not looked at: a file capability with the right decrypts as well. *)
Example any_kind_decrypts : (fun x => (x.1.2, x.2)) <$> decrypt_sector_gated file_key.1.2 file_key.2 MASTER_DISK_KEY 42 sealed (replicate 64 0) file_key.1.1 = Some (sector, Ok tt).
Proof. by vm_compute. Qed.
End StoresWitness.
