(* ===== verification/Install.v ===== *)
(** * Installing an application

    [kernel_rs/src/installer.rs] (a program is loaded into a new address space and the running thread receives exactly the capabilities its manifest
    declares) and [package.rs::install_package_into_current_thread] (the same for a package, after its checks). *)

From S2P Require Import Prelude AuditLog Capability Pmm Vmm Elf Gdt Policy Thread Service Driver Machine Process Update.

Record CapRequest := mkRequest { req_kind : CapKind; req_object : KernelObjectKind; req_rights : Z }.

(** One round of the loop over the requests. *)
Definition install_one (me : nat) (manifest : Manifest) (s : sched) (req : CapRequest) : option sched :=
  if negb (declares manifest (req_kind req)) then Some (record_event me (EvManifestDenied (CapKind_code (req_kind req))) s) else
  match req_object req with
  | PortIoRange base count =>
      let '(k, table, cap) := create_port_capability table_new base count (req_rights req) (kernel_on me s) in
      '(s, _) ← grant_port_access me table cap (set_kobj k s); Some s
  | kd =>
      let '(k, object_id) := create_object kd (kernel_on me s) in
      '(s, _) ← grant_current_capability me object_id (req_rights req) (set_kobj k s); Some s
  end.

Definition INSTALL_STACK_FLAGS : Z := Z.lor (Z.lor PAGE_USER PAGE_NO_EXECUTE) PAGE_WRITABLE.

(** The page of the stack. *)
Definition map_stack_page (space stack_vaddr : Z) (v : vmm) : option (vmm * unit) :=
  '(s, p) ← alloc_page (PMM v);
  v ← map_page_in space stack_vaddr p INSTALL_STACK_FLAGS (set_pmm s v); Some (v, tt).

Definition install_into_current_thread (me : nat) (elf : bytes) (stack_vaddr : Z) (manifest : Manifest) (requests : list CapRequest) : handler (option (Z * Z)) :=
  space ← on_vm me new_address_space;
  r ← on_vm me (load space elf);
  match r with
  | Err _ => mret None
  | Ok entry =>
      _ ← on_vm me (map_stack_page space stack_vaddr);
      _ ← on_sched (fun s => s ← foldM (install_one me manifest) s requests; Some (s, tt));
      mret (Some (entry, space))
  end.

Definition install_package_into_current_thread (me : nat) (pkg_bytes : bytes) (stack_vaddr : Z) (requests : list CapRequest) : handler (option (Z * Z)) :=
  pkg ← from_option (parse_and_verify pkg_bytes);
  match pkg with
  | Err _ => mret None
  | Ok p => install_into_current_thread me (Update.elf p) stack_vaddr (manifest_mask (header p)) requests
  end.

(** ** What is granted *)























Module InstallWitness.
Import DriverWitness.

(** Surfaces and ports are declared, files are not. *)
Definition manifest : Manifest := foldl allow MANIFEST_NONE [KSurface; KPortIoRange].
Definition requests : list CapRequest :=
  [mkRequest KSurface (Surface 0 0 320 200) MAP; mkRequest KFileObject (FileObject 12) READ; mkRequest KPortIoRange (PortIoRange 0x3F8 8) PORT_IO].



(** The kind that is checked and the object that is made are separate fields: a request that declares one kind and names an object of another is granted. *)
Example mismatched_request : let r := mkRequest KSurface (FileObject 12) WRITE in
  exists s', install_one 0 manifest machine r = Some s' /\ kind <$> OBJECTS (KOBJ s') = [FileObject 12] /\ declares manifest KFileObject = false.
Proof. eexists. split; [reflexivity|]. by vm_compute. Qed.
End InstallWitness.
