(* ===== verification/Editor.v ===== *)
(** * The text editor and the terminal

    [user_rs/text_editor/src/main.rs] and [user_rs/terminal_emulator/src/main.rs], two ring-3 applications that turn scancodes into a text
    on a window, with what they use of [user_rs/agentic_sdk/src] ([surface.rs], [text_widget.rs]).  An application is a step function: a
    scancode in, the new state and the requests to the kernel out ([None] is a panic).  The requests are those the system calls of
    [Surfaces] serve; the log lines on the serial port are left out.

    The editor refines an editor of sixteen lines, each a list of characters, with a cursor; and what its requests leave on the window is
    that text.  The terminal's line does the same, but its scrolled history is drawn without erasing what was there. *)

From S2P Require Import Prelude.

#[local] Open Scope nat_scope.

(** ** Keys *)

Inductive Key := Ascii (b : Z) | Backspace | Enter | Left | Right | Up | Down | PageUp | PageDown | Escape | Tab.

Record ModifierState := mkMods { shift : bool; caps_lock : bool; ctrl : bool; alt : bool }.
Definition mods_default : ModifierState := mkMods false false false false.

Definition letter (mods : ModifierState) (up low : Z) : option Key := Some (Ascii (if xorb (shift mods) (caps_lock mods) then up else low)).
Definition symbol (mods : ModifierState) (shifted plain : Z) : option Key := Some (Ascii (if shift mods then shifted else plain)).

(** The last [match] of [decode_key]: the keys without a prefix byte. *)
Definition plain_key (code : Z) (m : ModifierState) : option Key :=
  match code with
  | 0x01 => Some Escape | 0x0E => Some Backspace | 0x0F => Some Tab | 0x1C => Some Enter | 0x39 => Some (Ascii 32)
  | 0x1E => letter m 65 97 | 0x30 => letter m 66 98 | 0x2E => letter m 67 99 | 0x20 => letter m 68 100 | 0x12 => letter m 69 101
  | 0x21 => letter m 70 102 | 0x22 => letter m 71 103 | 0x23 => letter m 72 104 | 0x17 => letter m 73 105 | 0x24 => letter m 74 106
  | 0x25 => letter m 75 107 | 0x26 => letter m 76 108 | 0x32 => letter m 77 109 | 0x31 => letter m 78 110 | 0x18 => letter m 79 111
  | 0x19 => letter m 80 112 | 0x10 => letter m 81 113 | 0x13 => letter m 82 114 | 0x1F => letter m 83 115 | 0x14 => letter m 84 116
  | 0x16 => letter m 85 117 | 0x2F => letter m 86 118 | 0x11 => letter m 87 119 | 0x2D => letter m 88 120 | 0x15 => letter m 89 121
  | 0x2C => letter m 90 122
  | 0x02 => symbol m 33 49 | 0x03 => symbol m 64 50 | 0x04 => symbol m 35 51 | 0x05 => symbol m 36 52 | 0x06 => symbol m 37 53
  | 0x07 => symbol m 94 54 | 0x08 => symbol m 38 55 | 0x09 => symbol m 42 56 | 0x0A => symbol m 40 57 | 0x0B => symbol m 41 48
  | 0x0C => symbol m 95 45 | 0x0D => symbol m 43 61 | 0x1A => symbol m 123 91 | 0x1B => symbol m 125 93 | 0x27 => symbol m 58 59
  | 0x28 => symbol m 34 39 | 0x29 => symbol m 126 96 | 0x2B => symbol m 124 92 | 0x33 => symbol m 60 44 | 0x34 => symbol m 62 46
  | 0x35 => symbol m 63 47
  | _ => None
  end%Z.

Definition extended_key (code : Z) : option Key :=
  match code with
  | 0x4B => Some Left | 0x4D => Some Right | 0x48 => Some Up | 0x50 => Some Down | 0x49 => Some PageUp | 0x51 => Some PageDown
  | _ => None
  end%Z.

Definition decode_key (code : Z) (extended : bool) (m : ModifierState) : option Key * ModifierState :=
  let '(mkMods sh ca ct al) := m in
  (if (code =? 0xAA) || (code =? 0xB6) then (None, mkMods false ca ct al)
  else if code =? 0x9D then (None, mkMods sh ca false al)
  else if code =? 0xB8 then (None, mkMods sh ca ct false)
  else if negb (Z.land code 0x80 =? 0) then (None, m)
  else if (code =? 0x2A) || (code =? 0x36) then (None, mkMods true ca ct al)
  else if code =? 0x1D then (None, mkMods sh ca true al)
  else if code =? 0x38 then (None, mkMods sh ca ct true)
  else if code =? 0x3A then (None, mkMods sh (negb ca) ct al)
  else if extended then (extended_key code, m)
  else (plain_key code m, m))%Z.

(** ** Drawing, from the kit *)

(** The requests an application makes on its surface: system calls 14 and 16. *)
Inductive request :=
  | DrawText (x y : Z) (text : bytes) (fg bg : Z)
  | Present
  | PresentRect (y height : Z).

Definition MAX_DRAW_TEXT_LEN : nat := 256.

Definition draw_text (x y : Z) (text : bytes) (fg bg : Z) : request :=
  DrawText x y (take (Nat.min (length text) MAX_DRAW_TEXT_LEN) text) fg bg.

Definition present_rect (y height : Z) : request := PresentRect y (Z.max height 1).

Definition blank (b : Z) : Z := if (b =? 0)%Z then 32%Z else b.

Definition draw_line_padded (x y : Z) (text : bytes) (total_cols : nat) (fg bg : Z) : request :=
  let total := Nat.min total_cols MAX_DRAW_TEXT_LEN in
  let copy_len := Nat.min (length text) total in
  draw_text x y ((blank <$> take copy_len text) ++ replicate (total - copy_len) 32%Z) fg bg.

Definition GLYPH_HEIGHT : Z := 16.
Definition GLYPH_WIDTH : Z := 8.
Definition FG : Z := 0x00FFFFFF.
Definition BG : Z := 0.

(** ** Moving characters inside a row *)

(** [for i in (lo..hi).rev() { row[i + n] = row[i]; }]. *)
Definition shift_right (n lo hi : nat) (r : bytes) : option bytes :=
  foldM (fun r i => b ← r !! i; wbyte r (i + n) b) r (reverse (seq lo (hi - lo))).

(** [for i in lo..hi { row[i] = row[i + 1]; }]. *)
Definition shift_left (lo hi : nat) (r : bytes) : option bytes :=
  foldM (fun r i => b ← r !! (i + 1); wbyte r i b) r (seq lo (hi - lo)).

(** [for k in 0..n { row[at + k] = v; }]. *)
Definition fill_from (at_ n : nat) (v : Z) (r : bytes) : option bytes := foldM (fun r k => wbyte r (at_ + k) v) r (seq 0 n).

(** ** The editor *)

Definition ROWS : nat := 16.
Definition COLS : nat := 56.

(** [EditorState] with the locals of the loop. *)
Record editor := mkEditor {
  buf : list bytes; row_len : list nat; row : nat; col : nat; pending_extended : bool; mods : ModifierState; typed_total : Z }.

(** [init_in_place] and the loop's first values. *)
Definition init_in_place : editor := mkEditor (replicate ROWS (replicate COLS 0%Z)) (replicate ROWS 0) 0 0 false mods_default 0.

Definition set_row (r : bytes) (len : nat) (c : nat) (e : editor) : option editor :=
  buf' ← wbyte (buf e) (row e) r; lens ← wbyte (row_len e) (row e) len;
  Some (mkEditor buf' lens (row e) c (pending_extended e) (mods e) (typed_total e)).
Definition move_to (rw c : nat) (e : editor) : editor := mkEditor (buf e) (row_len e) rw c (pending_extended e) (mods e) (typed_total e).

Definition redraw_row (rw : nat) (b : list bytes) (cursor : option nat) : option (list request) :=
  let y := (Z.of_nat rw * GLYPH_HEIGHT)%Z in
  line ← b !! rw;
  cell ← match cursor with
         | None => Some []
         | Some c => under ← (if c <? COLS then blank <$> line !! c else Some 32%Z); Some [draw_text (Z.of_nat c * GLYPH_WIDTH)%Z y [under] BG FG]
         end;
  Some (draw_line_padded 0 y line COLS FG BG :: cell ++ [present_rect y GLYPH_HEIGHT]).

Definition redraw_cursor_row (e : editor) : option (list request) := redraw_row (row e) (buf e) (Some (col e)).

(** The cursor leaves [prev_row]. *)
Definition redraw_both (prev_row : nat) (e : editor) : option (list request) :=
  a ← redraw_row prev_row (buf e) None; b ← redraw_cursor_row e; Some (a ++ b).

Definition with_drawing (draw : editor -> option (list request)) (e : editor) : option (editor * list request) := d ← draw e; Some (e, d).

Definition key_ascii (ch : Z) (e : editor) : option (editor * list request) :=
  e ← (if col e <? COLS then
         len ← row_len e !! row e; r ← buf e !! row e;
         let insert_at := Nat.min (col e) len in
         r ← shift_right 1 insert_at (Nat.min len (COLS - 1)) r;
         r ← wbyte r insert_at ch;
         set_row r (Nat.min (len + 1) COLS) (col e + 1) e
       else Some e);
  with_drawing redraw_cursor_row e.

Definition key_tab (e : editor) : option (editor * list request) :=
  e ← (if col e + 4 <=? COLS then
         len ← row_len e !! row e; r ← buf e !! row e;
         let insert_at := Nat.min (col e) len in
         r ← shift_right 4 insert_at (Nat.min len (COLS - 4)) r;
         r ← fill_from insert_at 4 32%Z r;
         set_row r (Nat.min (len + 4) COLS) (col e + 4) e
       else Some e);
  with_drawing redraw_cursor_row e.

Definition end_of_previous (e : editor) : option (editor * list request) :=
  if 0 <? row e then
    c ← row_len e !! (row e - 1);
    with_drawing (redraw_both (row e)) (move_to (row e - 1) c e)
  else Some (e, []).

Definition start_of_next (e : editor) : option (editor * list request) :=
  if row e + 1 <? ROWS then with_drawing (redraw_both (row e)) (move_to (row e + 1) 0 e) else Some (e, []).

Definition key_backspace (e : editor) : option (editor * list request) :=
  if 0 <? col e then
    len ← row_len e !! row e; r ← buf e !! row e;
    r ← shift_left (col e - 1) (len - 1) r;
    r ← (if 0 <? len then wbyte r (len - 1) 0%Z else Some r);
    e ← set_row r (len - 1) (col e - 1) e;
    with_drawing redraw_cursor_row e
  else end_of_previous e.

Definition key_vertical (to : nat) (e : editor) : option (editor * list request) :=
  len ← row_len e !! to; with_drawing (redraw_both (row e)) (move_to to (Nat.min (col e) len) e).

Definition handle_key (key : Key) (e : editor) : option (editor * list request) :=
  match key with
  | Ascii ch => key_ascii ch e
  | Tab => key_tab e
  | Backspace => key_backspace e
  | Enter => start_of_next e
  | Left => if 0 <? col e then with_drawing redraw_cursor_row (move_to (row e) (col e - 1) e) else end_of_previous e
  | Right => len ← row_len e !! row e;
             if col e <? len then with_drawing redraw_cursor_row (move_to (row e) (col e + 1) e) else start_of_next e
  | Up => if 0 <? row e then key_vertical (row e - 1) e else Some (e, [])
  | Down => if row e + 1 <? ROWS then key_vertical (row e + 1) e else Some (e, [])
  | PageUp | PageDown | Escape => Some (e, [])
  end.

(** One turn of the loop of [_start] with the scancode the kernel returned. *)
Definition editor_step (scancode : Z) (e : editor) : option (editor * list request) :=
  if (scancode =? 0xE0)%Z then Some (mkEditor (buf e) (row_len e) (row e) (col e) true (mods e) (typed_total e), []) else
  let '(k, m) := decode_key scancode (pending_extended e) (mods e) in
  let e := mkEditor (buf e) (row_len e) (row e) (col e) false m (typed_total e) in
  match k with
  | None => Some (e, [])
  | Some key => handle_key key (mkEditor (buf e) (row_len e) (row e) (col e) false m (wrap 64 (typed_total e + 1)))
  end.

Fixpoint editor_run (codes : list Z) (e : editor) : option (editor * list request) :=
  match codes with
  | [] => Some (e, [])
  | c :: codes => '(e, d) ← editor_step c e; '(e, d') ← editor_run codes e; Some (e, d ++ d')
  end.

(** What [_start] draws before the loop: the greeting. *)
Definition EDITOR_READY : bytes := [84; 69; 88; 84; 95; 69; 68; 73; 84; 79; 82; 95; 82; 69; 65; 68; 89]%Z.
Definition editor_greeting : list request := [draw_text 0 0 EDITOR_READY FG BG; Present].

(** ** The scrolling region of the kit *)

(** [TextRegion<LINES, COLS>]. *)
Record TextRegion := mkRegion { rlines : list bytes; lens : list nat; count : nat }.

Section region.
  Context (LINES COLS : nat).

Definition region_init : TextRegion := mkRegion (replicate LINES (replicate COLS 32%Z)) (replicate LINES 0) 0.

(** The row [push_line] writes, and its length. *)
Definition region_row (s : bytes) : bytes :=
  let len := Nat.min (length s) COLS in (blank <$> take len s) ++ replicate (COLS - len) 32%Z.
Definition region_len (s : bytes) : nat := Nat.min (length s) COLS mod 256.

Definition shift_row_up (dst src : nat) (t : TextRegion) : option TextRegion :=
  r ← rlines t !! src; ls ← wbyte (rlines t) dst r; n ← lens t !! src; ns ← wbyte (lens t) dst n; Some (mkRegion ls ns (count t)).

Definition put_row (i : nat) (s : bytes) (c : nat) (t : TextRegion) : option TextRegion :=
  ls ← wbyte (rlines t) i (region_row s); ns ← wbyte (lens t) i (region_len s); Some (mkRegion ls ns c).

Definition push_line (s : bytes) (t : TextRegion) : option TextRegion :=
  if count t <? LINES then put_row (count t) s (count t + 1) t
  else t ← foldM (fun t i => shift_row_up (i - 1) i t) t (seq 1 (LINES - 1)); put_row (LINES - 1) s (count t) t.

Definition render (t : TextRegion) : option (list request) :=
  foldM (fun qs i => n ← lens t !! i; r ← rlines t !! i; s ← rslice r 0 n;
                     Some (qs ++ [draw_text 0 (Z.of_nat i * GLYPH_HEIGHT) s FG BG])) [] (seq 0 (count t)).
End region.

(** ** The terminal *)

Module Terminal.
Definition T_COLS : nat := 40.
Definition LINES : nat := 8.

Record terminal := mkTerm {
  history : TextRegion; current : bytes; current_len : nat; cursor : nat; t_extended : bool; t_mods : ModifierState; t_typed : Z }.

Definition terminal_init : terminal := mkTerm (region_init LINES T_COLS) (replicate T_COLS 32%Z) 0 0 false mods_default 0.

Definition TERMINAL_READY : bytes := [84; 69; 82; 77; 73; 78; 65; 76; 95; 69; 77; 85; 76; 65; 84; 79; 82; 95; 82; 69; 65; 68; 89]%Z.
Definition terminal_greeting : list request := [draw_text 0 0 TERMINAL_READY FG BG; Present].

(** The terminal has its own copy of the editor's decoder, line for line. *)
Definition terminal_decode : Z -> bool -> ModifierState -> option Key * ModifierState := decode_key.

Definition current_line_y : Z := Z.of_nat LINES * 16.

Definition redraw_current_line (t : terminal) : option (list request) :=
  s ← rslice (current t) 0 (current_len t);
  under ← (if cursor t <? current_len t then current t !! cursor t else Some 32%Z);
  Some [draw_line_padded 0 current_line_y s T_COLS FG BG; draw_text (Z.of_nat (cursor t) * GLYPH_WIDTH) current_line_y [under] BG FG].

Definition set_current (c : bytes) (n k : nat) (t : terminal) : terminal := mkTerm (history t) c n k (t_extended t) (t_mods t) (t_typed t).

Definition terminal_redraw (t : terminal) : option (terminal * list request) :=
  qs ← redraw_current_line t; Some (t, qs ++ [present_rect current_line_y 16]).

Definition terminal_enter (t : terminal) : option (terminal * list request) :=
  s ← rslice (current t) 0 (current_len t); h ← push_line LINES T_COLS s (history t);
  let t := mkTerm h (replicate T_COLS 32%Z) 0 0 (t_extended t) (t_mods t) (t_typed t) in
  qs ← render h; qs' ← redraw_current_line t; Some (t, qs ++ qs' ++ [Present]).

Definition terminal_backspace (t : terminal) : option (terminal * list request) :=
  let k := Nat.min (cursor t) (current_len t) in
  t ← (if (0 <? k) && (0 <? current_len t) then
         c ← shift_left (k - 1) (current_len t - 1) (current t);
         c ← wbyte c (current_len t - 1) 32%Z;
         Some (set_current c (current_len t - 1) (k - 1) t)
       else Some (set_current (current t) (current_len t) k t));
  terminal_redraw t.

Definition terminal_tab (t : terminal) : option (terminal * list request) :=
  let k := Nat.min (cursor t) (current_len t) in
  if current_len t + 4 <=? T_COLS then
    c ← shift_right 4 k (current_len t) (current t);
    c ← fill_from k 4 32%Z c;
    terminal_redraw (set_current c (current_len t + 4) (k + 4) t)
  else Some (set_current (current t) (current_len t) k t, []).

Definition terminal_ascii (ch : Z) (t : terminal) : option (terminal * list request) :=
  let k := Nat.min (cursor t) (current_len t) in
  t ← (if current_len t <? T_COLS then
         c ← shift_right 1 k (current_len t) (current t);
         c ← wbyte c k ch;
         Some (set_current c (current_len t + 1) (k + 1) t)
       else Some (set_current (current t) (current_len t) k t));
  terminal_redraw t.

Definition terminal_key (key : Key) (t : terminal) : option (terminal * list request) :=
  match key with
  | Enter => terminal_enter t
  | Backspace => terminal_backspace t
  | Left => terminal_redraw (if 0 <? cursor t then set_current (current t) (current_len t) (cursor t - 1) t else t)
  | Right => terminal_redraw (if cursor t <? current_len t then set_current (current t) (current_len t) (cursor t + 1) t else t)
  | Tab => terminal_tab t
  | Ascii ch => terminal_ascii ch t
  | Up | Down | PageUp | PageDown | Escape => Some (t, [])
  end.

Definition terminal_step (scancode : Z) (t : terminal) : option (terminal * list request) :=
  if (scancode =? 0xE0)%Z then Some (mkTerm (history t) (current t) (current_len t) (cursor t) true (t_mods t) (t_typed t), []) else
  let '(k, m) := terminal_decode scancode (t_extended t) (t_mods t) in
  match k with
  | None => Some (mkTerm (history t) (current t) (current_len t) (cursor t) false m (t_typed t), [])
  | Some key => terminal_key key (mkTerm (history t) (current t) (current_len t) (cursor t) false m (wrap 64 (t_typed t + 1)))
  end.

Fixpoint terminal_run (codes : list Z) (t : terminal) : option (terminal * list request) :=
  match codes with
  | [] => Some (t, [])
  | c :: codes => '(t, d) ← terminal_step c t; '(t, d') ← terminal_run codes t; Some (t, d ++ d')
  end.
End Terminal.

(** ** The editor it should be

    Sixteen lines of at most [COLS] characters, and a cursor between two characters of its line. *)

Record document := mkDoc { lines : list bytes; cur_row : nat; cur_col : nat }.

(** Inserting and deleting in a line of at most [w] characters. *)
Definition insert_at (w c : nat) (s l : bytes) : bytes := take w (take c l ++ s ++ drop c l).
Definition delete_before (c : nat) (l : bytes) : bytes := take (c - 1) l ++ drop c l.

Definition line (d : document) : bytes := nth (cur_row d) (lines d) [].
Definition set_line (l : bytes) (c : nat) (d : document) : document := mkDoc (<[cur_row d := l]> (lines d)) (cur_row d) c.
Definition goto (r c : nat) (d : document) : document := mkDoc (lines d) r c.

(** Typing inserts while there is room left of the margin; what is pushed over the margin is lost. *)
Definition type (s : bytes) (d : document) : document :=
  if cur_col d + length s <=? COLS then set_line (insert_at COLS (cur_col d) s (line d)) (cur_col d + length s) d else d.

Definition back (d : document) : document :=
  if 0 <? cur_row d then goto (cur_row d - 1) (length (nth (cur_row d - 1) (lines d) [])) d else d.
Definition forth (d : document) : document := if cur_row d + 1 <? ROWS then goto (cur_row d + 1) 0 d else d.
Definition vertical (r : nat) (d : document) : document := goto r (Nat.min (cur_col d) (length (nth r (lines d) []))) d.

Definition edit (key : Key) (d : document) : document :=
  match key with
  | Ascii ch => type [ch] d
  | Tab => type (replicate 4 32%Z) d
  | Backspace => if 0 <? cur_col d then set_line (delete_before (cur_col d) (line d)) (cur_col d - 1) d else back d
  | Enter => forth d
  | Left => if 0 <? cur_col d then goto (cur_row d) (cur_col d - 1) d else back d
  | Right => if cur_col d <? length (line d) then goto (cur_row d) (cur_col d + 1) d else forth d
  | Up => if 0 <? cur_row d then vertical (cur_row d - 1) d else d
  | Down => if cur_row d + 1 <? ROWS then vertical (cur_row d + 1) d else d
  | PageUp | PageDown | Escape => d
  end.

(** The keys a sequence of scancodes means. *)
Fixpoint keys (codes : list Z) (ext : bool) (m : ModifierState) : list Key :=
  match codes with
  | [] => []
  | c :: codes =>
      if (c =? 0xE0)%Z then keys codes true m
      else let '(k, m) := decode_key c ext m in option_list k ++ keys codes false m
  end.

Definition empty_document : document := mkDoc (replicate ROWS []) 0 0.
Definition written (codes : list Z) : document := foldl (fun d k => edit k d) empty_document (keys codes false mods_default).

Record doc_ok (d : document) : Prop := {
  ok_rows : length (lines d) = ROWS;
  ok_cols : Forall (fun l => length l <= COLS) (lines d);
  ok_row : cur_row d < ROWS;
  ok_col : cur_col d <= length (line d) }.

(** A line in a row of [w] cells. *)
Definition pad_to (w : nat) (z : Z) (l : bytes) : bytes := l ++ replicate (w - length l) z.

(** A line as the editor stores it. *)
Abbreviation pad := (pad_to COLS 0%Z).

Record represents (e : editor) (d : document) : Prop := {
  rep_buf : buf e = pad <$> lines d;
  rep_len : row_len e = length <$> lines d;
  rep_row : row e = cur_row d;
  rep_col : col e = cur_col d }.

(** ** Rows *)

Lemma wbyte_lt {A} (b : list A) i v : i < length b -> wbyte b i v = Some (<[i := v]> b).
Proof. intros. unfold wbyte. by rewrite decide_True. Qed.

Lemma shift_right_lookup n lo k r : lo + k + n <= length r ->
  exists r', shift_right n lo (lo + k) r = Some r' /\ length r' = length r /\
    forall j, r' !! j = if decide (lo + n <= j < lo + k + n) then r !! (j - n) else r !! j.
Proof.
  unfold shift_right. replace (lo + k - lo) with k by lia. revert r. induction k as [|k IH]; intros r Hhi.
  - exists r. split_and!; [done..|]. intros j. by rewrite decide_False by lia.
  - rewrite seq_S, reverse_app. cbn [reverse rev_append app foldM].
    destruct (lookup_lt_is_Some_2 r (lo + k)) as [b Hb]; [lia|]. rewrite Hb. cbn [mbind option_bind].
    rewrite wbyte_lt by lia. destruct (IH (<[lo + k + n := b]> r)) as (r' & HE & Hl & Hj); [rewrite length_insert; lia|].
    exists r'. split; [exact HE|]. rewrite length_insert in Hl. split; [done|]. intros j. rewrite Hj.
    repeat case_decide; try lia.
    + by rewrite list_lookup_insert_ne by lia.
    + assert (j = lo + k + n) as -> by lia. rewrite list_lookup_insert_eq by lia. rewrite <- Hb. f_equal. lia.
    + by rewrite list_lookup_insert_ne by lia.
Qed.

Lemma shift_left_lookup lo k r : lo + k + 1 <= length r ->
  exists r', shift_left lo (lo + k) r = Some r' /\ length r' = length r /\
    forall j, r' !! j = if decide (lo <= j < lo + k) then r !! (j + 1) else r !! j.
Proof.
  unfold shift_left. replace (lo + k - lo) with k by lia. revert r. induction k as [|k IH]; intros r Hhi.
  - exists r. split_and!; [done..|]. intros j. by rewrite decide_False by lia.
  - rewrite seq_S, foldM_app. destruct (IH r) as (r' & HE & Hl & Hj); [lia|]. rewrite HE. cbn [mbind option_bind foldM].
    rewrite Hj, decide_False by lia. destruct (lookup_lt_is_Some_2 r (lo + k + 1)) as [b Hb]; [lia|]. rewrite Hb. cbn [mbind option_bind].
    rewrite wbyte_lt by lia. exists (<[lo + k := b]> r'). cbn [mbind option_bind]. rewrite length_insert. split_and!; [done..|].
    intros j. destruct (decide (j = lo + k)) as [->|Hne].
    + rewrite list_lookup_insert_eq by lia. by rewrite decide_True by lia.
    + rewrite list_lookup_insert_ne by lia. rewrite Hj. repeat case_decide; lia || done.
Qed.

Lemma fill_from_exact at_ n v r : at_ + n <= length r -> fill_from at_ n v r = wslice r at_ (replicate n v).
Proof.
  unfold fill_from. induction n as [|n IH]; intros Hn.
  - unfold wslice. rewrite decide_True by (simpl; lia). simpl. by rewrite Nat.add_0_r, take_drop.
  - rewrite seq_S, foldM_app, IH by lia. unfold wslice. rewrite !length_replicate, !decide_True by lia.
    cbn [mbind option_bind foldM Nat.add]. rewrite wbyte_lt by (rewrite !length_app, length_take, length_replicate, length_drop; lia).
    cbn [mbind option_bind]. f_equal. rewrite insert_app_r_alt by (rewrite length_take; lia). f_equal.
    rewrite length_take, insert_app_r_alt by (rewrite length_replicate; lia). rewrite length_replicate.
    replace (at_ + n - at_ `min` length r - n) with 0 by lia.
    destruct (drop (at_ + n) r) as [|x t] eqn:Hd; [apply (f_equal length) in Hd; rewrite length_drop in Hd; simpl in Hd; lia|].
    change (<[0 := v]> (x :: t)) with (v :: t). rewrite replicate_S_end, <- app_assoc. cbn [app]. do 2 f_equal.
    replace (at_ + S n) with (S (at_ + n)) by lia.
    assert (drop (S (at_ + n)) r = drop 1 (drop (at_ + n) r)) as ->. { rewrite drop_drop. f_equal. lia. } by rewrite Hd.
Qed.

Lemma length_insert_at w c s l : c <= length l -> length (insert_at w c s l) = Nat.min (length l + length s) w.
Proof. intros. unfold insert_at. rewrite length_take, !length_app, length_take, length_drop. lia. Qed.

Lemma length_delete_before c l : 0 < c <= length l -> length (delete_before c l) = length l - 1.
Proof. intros. unfold delete_before. rewrite length_app, length_take, length_drop. lia. Qed.

Lemma length_pad_to w z l : length l <= w -> length (pad_to w z l) = w.
Proof. intros. unfold pad_to. rewrite length_app, length_replicate. lia. Qed.

Lemma lookup_pad_to w z l i : pad_to w z l !! i = if decide (i < length l) then l !! i else if decide (i < w) then Some z else None.
Proof.
  unfold pad_to. case_decide; [by rewrite lookup_app_l|]. rewrite lookup_app_r by lia.
  case_decide; [rewrite lookup_replicate_2 by lia; done|]. apply lookup_replicate_None. lia.
Qed.

(** Making room and writing is inserting. *)
Lemma insert_row w z c s l : length l <= w -> c <= length l -> c + length s <= w ->
  exists r, shift_right (length s) c (Nat.min (length l) (w - length s)) (pad_to w z l) = Some r /\
    wslice r c s = Some (pad_to w z (insert_at w c s l)) /\ length r = w.
Proof.
  intros Hl Hc Hs. set (hi := Nat.min (length l) (w - length s)).
  destruct (shift_right_lookup (length s) c (hi - c) (pad_to w z l)) as (r & HE & Hr & Hj); [rewrite length_pad_to; lia|].
  rewrite length_pad_to in Hr by done. replace (c + (hi - c)) with hi in * by lia.
  exists r. split_and!; [done| |done]. unfold wslice. rewrite decide_True by lia. f_equal.
  pose proof (length_insert_at w c s l Hc) as Hli.
  apply list_eq. intros j. rewrite lookup_pad_to, Hli. unfold insert_at.
  destruct (decide (j < c)) as [Hjc|].
  { rewrite lookup_app_l by (rewrite length_take; lia). rewrite !lookup_take, !decide_True, Hj, decide_False, lookup_pad_to, decide_True by lia.
    rewrite lookup_app_l by (rewrite length_take; lia). by rewrite lookup_take, decide_True by lia. }
  rewrite lookup_app_r; rewrite length_take; [|lia]. destruct (decide (j < c + length s)).
  { rewrite lookup_app_l by lia. rewrite decide_True, lookup_take, decide_True by lia.
    rewrite lookup_app_r; rewrite length_take; [|lia]. rewrite lookup_app_l by lia. f_equal. lia. }
  rewrite lookup_app_r by lia. rewrite lookup_drop. replace (c + length s + _) with j by lia. rewrite Hj, !lookup_pad_to.
  destruct (decide (j < Nat.min (length l + length s) w)).
  { rewrite decide_True by lia. rewrite lookup_take, decide_True by lia. rewrite !lookup_app_r; rewrite ?length_take, ?lookup_drop; try lia.
    repeat case_decide; try lia; f_equal; lia. }
  repeat case_decide; try lia; done.
Qed.

Lemma delete_row w z c l : length l <= w -> 0 < c <= length l ->
  exists r, shift_left (c - 1) (length l - 1) (pad_to w z l) = Some r /\ wbyte r (length l - 1) z = Some (pad_to w z (delete_before c l)).
Proof.
  intros Hl Hc. destruct (shift_left_lookup (c - 1) (length l - c) (pad_to w z l)) as (r & HE & Hr & Hj); [rewrite length_pad_to; lia|].
  rewrite length_pad_to in Hr by done. replace (c - 1 + (length l - c)) with (length l - 1) in * by lia.
  exists r. split; [done|]. rewrite wbyte_lt by lia. f_equal.
  pose proof (length_delete_before c l Hc) as Hd.
  apply list_eq. intros j. rewrite lookup_pad_to, Hd. destruct (decide (j = length l - 1)) as [->|Hne].
  { rewrite list_lookup_insert_eq by lia. by rewrite decide_False, decide_True by lia. }
  rewrite list_lookup_insert_ne by lia. rewrite Hj, !lookup_pad_to. unfold delete_before.
  destruct (decide (j < c - 1)).
  { rewrite lookup_app_l by (rewrite length_take; lia). rewrite lookup_take. repeat case_decide; lia || done. }
  rewrite lookup_app_r; rewrite length_take; [|lia]. rewrite lookup_drop. replace (c + (j - (c - 1) `min` length l)) with (j + 1) by lia.
  repeat case_decide; try lia; done.
Qed.

Lemma length_pad l : length l <= COLS -> length (pad l) = COLS.
Proof. apply length_pad_to. Qed.

(** ** What a key does *)

Lemma lookup_line d : doc_ok d -> lines d !! cur_row d = Some (line d).
Proof. intros [Hr _ Hc _]. unfold line. destruct (lookup_lt_is_Some_2 (lines d) (cur_row d)) as [l Hl]; [lia|]. by rewrite Hl, (nth_lookup_Some _ _ [] _ Hl). Qed.

Lemma lookup_nth d r : doc_ok d -> r < ROWS -> lines d !! r = Some (nth r (lines d) []).
Proof. intros [Hr _ _ _] Hlt. destruct (lookup_lt_is_Some_2 (lines d) r) as [l Hl]; [lia|]. by rewrite Hl, (nth_lookup_Some _ _ [] _ Hl). Qed.

Lemma line_fits d r l : doc_ok d -> lines d !! r = Some l -> length l <= COLS.
Proof. intros [_ Hc _ _] Hl. exact (Forall_lookup_1 _ _ _ _ Hc Hl). Qed.

Lemma goto_ok d r c : doc_ok d -> r < ROWS -> c <= length (nth r (lines d) []) -> doc_ok (goto r c d).
Proof. intros [? ? ? ?] Hr Hc. by constructor. Qed.

Lemma set_line_ok d l c : doc_ok d -> length l <= COLS -> c <= length l -> doc_ok (set_line l c d).
Proof.
  intros [Hr Hf Hc Hk] Hl Hcl. constructor; cbn; [by rewrite length_insert|by apply Forall_insert|done|].
  unfold line. cbn. rewrite (nth_lookup_Some _ _ [] l); [done|]. apply list_lookup_insert_eq. lia.
Qed.

Lemma line_set_line d l c : doc_ok d -> line (set_line l c d) = l.
Proof. intros [Hr _ Hc _]. unfold line. cbn. apply nth_lookup_Some. apply list_lookup_insert_eq. lia. Qed.

(** The requests that redraw a line. *)
Definition row_requests (r : nat) (l : bytes) (cursor : option nat) : list request :=
  let y := (Z.of_nat r * GLYPH_HEIGHT)%Z in
  draw_line_padded 0 y (pad l) COLS FG BG ::
    from_option (fun c => [draw_text (Z.of_nat c * GLYPH_WIDTH)%Z y [default 32%Z (blank <$> pad l !! c)] BG FG]) [] cursor
    ++ [present_rect y GLYPH_HEIGHT].

(** How a key changes the document and what it redraws. *)
Inductive update (d : document) : document -> list request -> Prop :=
  | update_none : update d d []
  | update_line d' : cur_row d' = cur_row d -> (forall r, r <> cur_row d -> lines d' !! r = lines d !! r) ->
      update d d' (row_requests (cur_row d') (line d') (Some (cur_col d')))
  | update_move d' : lines d' = lines d -> cur_row d' <> cur_row d ->
      update d d' (row_requests (cur_row d) (line d) None ++ row_requests (cur_row d') (line d') (Some (cur_col d'))).

Lemma redraw_row_pad ls r l cursor : ls !! r = Some l -> length l <= COLS ->
  redraw_row r (pad <$> ls) cursor = Some (row_requests r l cursor).
Proof.
  intros Hr Hl. unfold redraw_row. rewrite list_lookup_fmap, Hr. cbn [fmap option_fmap option_map mbind option_bind]. destruct cursor as [c|]; [|done].
  destruct (Nat.ltb_spec c COLS) as [Hc|Hc].
  - destruct (lookup_lt_is_Some_2 (pad l) c) as [b Hb]; [rewrite length_pad; lia|]. unfold row_requests. cbn [from_option]. by rewrite Hb.
  - unfold row_requests. cbn [from_option]. rewrite (lookup_ge_None_2 (pad l) c) by (rewrite length_pad; lia). done.
Qed.

Lemma draw_cursor_row e d : represents e d -> doc_ok d -> redraw_cursor_row e = Some (row_requests (cur_row d) (line d) (Some (cur_col d))).
Proof.
  intros [Hb _ Hr Hc] Hok. unfold redraw_cursor_row. rewrite Hb, Hr, Hc. pose proof (lookup_line d Hok) as Hl.
  by apply redraw_row_pad, (line_fits d (cur_row d)).
Qed.

(** A key whose effect is known redraws accordingly. *)
Section outcomes.
  Context (e : editor) (d : document) (Hrep : represents e d) (Hok : doc_ok d).

Definition good (res : option (editor * list request)) (d' : document) : Prop :=
  exists e' reqs, res = Some (e', reqs) /\ represents e' d' /\ doc_ok d' /\ update d d' reqs /\
    pending_extended e' = pending_extended e /\ mods e' = mods e.

Lemma good_none : good (Some (e, [])) d.
Proof using Hrep Hok. eexists _, _. split_and!; [done..|constructor|done|done]. Qed.

Lemma good_line e' d' : represents e' d' -> doc_ok d' -> cur_row d' = cur_row d -> (forall r, r <> cur_row d -> lines d' !! r = lines d !! r) ->
  pending_extended e' = pending_extended e -> mods e' = mods e -> good (with_drawing redraw_cursor_row e') d'.
Proof.
  intros Hr' Hok' Hrow Hl ? ?. unfold with_drawing. rewrite (draw_cursor_row e' d') by done. eexists _, _. split_and!; [done..| |done|done].
  by apply update_line.
Qed.

Lemma represents_move r c : represents (move_to r c e) (goto r c d).
Proof using Hrep. destruct Hrep. by constructor. Qed.

Lemma good_column c : c <= length (line d) -> good (with_drawing redraw_cursor_row (move_to (row e) c e)) (goto (cur_row d) c d).
Proof using Hrep Hok.
  intros Hc. destruct Hrep as [? ? Hr ?]. rewrite Hr. apply good_line; [apply represents_move|apply goto_ok; [done|apply Hok|done]|done..].
Qed.

Lemma good_move r c : r < ROWS -> r <> cur_row d -> c <= length (nth r (lines d) []) ->
  good (with_drawing (redraw_both (row e)) (move_to r c e)) (goto r c d).
Proof using Hrep Hok.
  intros Hr Hne Hc. pose proof (goto_ok d r c Hok Hr Hc) as Hok'. unfold with_drawing, redraw_both.
  rewrite (draw_cursor_row _ (goto r c d)) by (done || apply represents_move). cbn [buf move_to].
  rewrite (rep_buf _ _ Hrep), (rep_row _ _ Hrep), (redraw_row_pad _ _ (line d)); [|by apply lookup_line|by apply (line_fits d (cur_row d)), lookup_line].
  eexists _, _. split_and!; [done|apply represents_move|done| |done|done]. by apply update_move.
Qed.

Lemma good_set_line l c : length l <= COLS -> c <= length l ->
  good (e' ← set_row (pad l) (length l) c e; with_drawing redraw_cursor_row e') (set_line l c d).
Proof using Hrep Hok.
  intros Hl Hc. destruct Hrep as [Hb Hn Hr Hcol], Hok as [Hrows Hf Hrow Hk]. unfold set_row.
  rewrite Hb, Hn, Hr, !wbyte_lt by (rewrite length_fmap; lia). cbn [mbind option_bind].
  apply good_line; [|by apply set_line_ok|done| |done|done].
  - constructor; cbn; [by rewrite list_fmap_insert|by rewrite list_fmap_insert|done|done].
  - intros r Hne. cbn. by rewrite list_lookup_insert_ne.
Qed.

Lemma good_type s n (wr : nat -> bytes -> option bytes) : n = length s ->
  (forall r, length r = COLS -> wr (cur_col d) r = wslice r (cur_col d) s) ->
  cur_col d + length s <= COLS ->
  good (e' ← (len ← row_len e !! row e; r ← buf e !! row e;
              r ← shift_right n (Nat.min (col e) len) (Nat.min len (COLS - n)) r;
              r ← wr (Nat.min (col e) len) r; set_row r (Nat.min (len + n) COLS) (col e + n) e); with_drawing redraw_cursor_row e')
    (set_line (insert_at COLS (cur_col d) s (line d)) (cur_col d + length s) d).
Proof using Hrep Hok.
  intros -> Hwr Hc. pose proof (lookup_line d Hok) as Hl. pose proof (line_fits d _ _ Hok Hl) as Hfit. pose proof (ok_col d Hok) as Hcol.
  rewrite (rep_len _ _ Hrep), (rep_buf _ _ Hrep), (rep_row _ _ Hrep), (rep_col _ _ Hrep), !list_lookup_fmap, Hl.
  cbn [fmap option_fmap option_map mbind option_bind].
  rewrite (Nat.min_l (cur_col d)) by done. destruct (insert_row COLS 0%Z (cur_col d) s (line d)) as (r & -> & Hw & Hr); [done..|].
  cbn [mbind option_bind]. rewrite Hwr by done. rewrite Hw. cbn [mbind option_bind].
  pose proof (length_insert_at COLS _ s _ Hcol) as Hli.
  rewrite <- Hli. apply good_set_line; lia.
Qed.

Lemma good_back : good (end_of_previous e) (back d).
Proof using Hrep Hok.
  unfold end_of_previous, back. rewrite (rep_row _ _ Hrep). destruct (Nat.ltb_spec 0 (cur_row d)) as [H0|]; [|apply good_none].
  pose proof (ok_row d Hok). rewrite (rep_len _ _ Hrep), list_lookup_fmap, (lookup_nth d) by (done || lia).
  cbn [fmap option_fmap option_map mbind option_bind]. rewrite <- (rep_row _ _ Hrep) at 1. apply good_move; [lia|lia|done].
Qed.

Lemma good_forth : good (start_of_next e) (forth d).
Proof using Hrep Hok.
  unfold start_of_next, forth. rewrite (rep_row _ _ Hrep). destruct (Nat.ltb_spec (cur_row d + 1) ROWS) as [H0|]; [|apply good_none].
  rewrite <- (rep_row _ _ Hrep) at 1. apply good_move; lia.
Qed.

Lemma good_vertical r : r < ROWS -> r <> cur_row d -> good (key_vertical r e) (vertical r d).
Proof using Hrep Hok.
  intros Hr Hne. unfold key_vertical, vertical. rewrite (rep_len _ _ Hrep), list_lookup_fmap, (lookup_nth d) by (done || lia).
  cbn [fmap option_fmap option_map mbind option_bind]. rewrite (rep_col _ _ Hrep). apply good_move; lia.
Qed.

Lemma good_delete : 0 < cur_col d -> good (key_backspace e) (set_line (delete_before (cur_col d) (line d)) (cur_col d - 1) d).
Proof using Hrep Hok.
  intros H0. pose proof (lookup_line d Hok) as Hl. pose proof (line_fits d _ _ Hok Hl) as Hfit. pose proof (ok_col d Hok) as Hcol.
  unfold key_backspace. rewrite (rep_len _ _ Hrep), (rep_buf _ _ Hrep), (rep_row _ _ Hrep), (rep_col _ _ Hrep), !list_lookup_fmap, Hl.
  destruct (Nat.ltb_spec 0 (cur_col d)); [|lia]. cbn [fmap option_fmap option_map mbind option_bind].
  destruct (delete_row COLS 0%Z (cur_col d) (line d)) as (r & -> & Hw); [done|lia|]. cbn [mbind option_bind].
  destruct (Nat.ltb_spec 0 (length (line d))); [|lia]. rewrite Hw. cbn [mbind option_bind].
  pose proof (length_delete_before _ _ (conj H0 Hcol)) as Hd.
  rewrite <- Hd. apply good_set_line; lia.
Qed.

Lemma handle_key_good key : good (handle_key key e) (edit key d).
Proof using Hrep Hok.
  destruct key as [ch| | | | | | | | | |]; cbn [handle_key edit]; try apply good_none; try apply good_forth.
  - unfold key_ascii, type. cbn [length]. destruct (Nat.leb_spec (cur_col d + 1) COLS) as [Hc|Hc].
    + rewrite (rep_col _ _ Hrep) at 1. destruct (Nat.ltb_spec (cur_col d) COLS); [|lia].
      apply (good_type [ch] 1 (fun i r => wbyte r i ch)); [done| |done]. intros r Hr. by rewrite wbyte_wslice.
    + rewrite (rep_col _ _ Hrep) at 1. destruct (Nat.ltb_spec (cur_col d) COLS); [lia|]. by apply good_line.
  - destruct (Nat.ltb_spec 0 (cur_col d)); [by apply good_delete|]. unfold key_backspace. rewrite (rep_col _ _ Hrep) at 1.
    destruct (Nat.ltb_spec 0 (cur_col d)); [lia|apply good_back].
  - rewrite !(rep_col _ _ Hrep). destruct (Nat.ltb_spec 0 (cur_col d)); [|apply good_back].
    apply good_column. pose proof (ok_col d Hok). lia.
  - rewrite (rep_len _ _ Hrep), (rep_row _ _ Hrep), list_lookup_fmap, (lookup_line d Hok), !(rep_col _ _ Hrep). cbn [fmap option_fmap option_map mbind option_bind].
    rewrite <- (rep_row _ _ Hrep). destruct (Nat.ltb_spec (cur_col d) (length (line d))); [|apply good_forth]. rewrite (rep_row _ _ Hrep) at 2. apply good_column. lia.
  - rewrite !(rep_row _ _ Hrep). destruct (Nat.ltb_spec 0 (cur_row d)); [|apply good_none]. pose proof (ok_row d Hok). apply good_vertical; lia.
  - rewrite !(rep_row _ _ Hrep). destruct (Nat.ltb_spec (cur_row d + 1) ROWS); [|apply good_none]. apply good_vertical; lia.
  - unfold key_tab, type. rewrite length_replicate. rewrite (rep_col _ _ Hrep) at 1. destruct (Nat.leb_spec (cur_col d + 4) COLS) as [Hc|Hc].
    + apply (good_type (replicate 4 32%Z) 4 (fun i r => fill_from i 4 32%Z r)); [done| |done]. intros r Hr. apply fill_from_exact. lia.
    + by apply good_line.
Qed.
End outcomes.

(** ** What is on the window

    A window of [h] rows of [w] character cells; what is drawn is seen when its rows are presented. *)

Definition cell : Type := Z * Z * Z.
Record display := mkDisplay { window : list (list cell); shown : list (list cell) }.

(** Characters past the edge are clipped. *)
Definition write_cells (c : nat) (s r : list cell) : list cell := take (length r) (take c r ++ s ++ drop (c + length s) r).

Definition paint (q : request) (v : display) : display :=
  match q with
  | DrawText x y text fg bg =>
      mkDisplay (alter (write_cells (Z.to_nat (x / GLYPH_WIDTH)) ((fun b => (b, fg, bg)) <$> text)) (Z.to_nat (y / GLYPH_HEIGHT)) (window v)) (shown v)
  | Present => mkDisplay (window v) (window v)
  | PresentRect y _ =>
      let r := Z.to_nat (y / GLYPH_HEIGHT) in mkDisplay (window v) (alter (fun old => default old (window v !! r)) r (shown v))
  end.
Definition paints (qs : list request) (v : display) : display := foldl (fun v q => paint q v) v qs.

(** How a line looks. *)
Definition view_line (l : bytes) (cursor : option nat) : list cell :=
  let plain := (fun b => (blank b, FG, BG)) <$> pad l in
  from_option (fun c => alter (fun '(b, _, _) => (b, BG, FG)) c plain) plain cursor.

Definition cursor_on (d : document) (r : nat) : option nat := if decide (r = cur_row d) then Some (cur_col d) else None.

Definition display_ok (v : display) : Prop :=
  length (window v) = ROWS /\ length (shown v) = ROWS /\ Forall (fun r => length r = COLS) (window v).

(** Row [r] shows its line, or it has never been drawn and its line is empty. *)
Definition row_shown (v0 v : display) (d : document) (r : nat) : Prop :=
  exists l, lines d !! r = Some l /\
    (shown v !! r = Some (view_line l (cursor_on d r)) \/ (l = [] /\ shown v !! r = shown v0 !! r)).

Lemma length_view_line l c : length l <= COLS -> length (view_line l c) = COLS.
Proof. intros. unfold view_line. destruct c; simpl; rewrite ?length_alter, length_fmap; by apply length_pad. Qed.

Lemma write_cells_all s r : length s = length r -> write_cells 0 s r = s.
Proof. intros H. unfold write_cells. rewrite <- H, take_0. cbn [Nat.add app]. by rewrite take_app_length. Qed.

Lemma write_cells_one c x r : write_cells c [x] r = alter (fun _ => x) c r.
Proof.
  unfold write_cells. destruct (decide (c < length r)) as [Hc|Hc].
  - destruct (lookup_lt_is_Some_2 r c Hc) as [y Hy]. rewrite take_ge by (rewrite !length_app, length_take, length_drop; simpl; lia).
    apply list_eq. intros j. destruct (decide (j = c)) as [->|Hne].
    + rewrite list_lookup_alter_eq, Hy. rewrite lookup_app_r; rewrite length_take; [|lia]. by replace (c - c `min` length r) with 0 by lia.
    + rewrite list_lookup_alter_ne by done. destruct (decide (j < c)).
      * rewrite lookup_app_l by (rewrite length_take; lia). by rewrite lookup_take, decide_True.
      * rewrite lookup_app_r; rewrite length_take; [|lia]. rewrite lookup_app_r by (simpl; lia). rewrite lookup_drop. f_equal. simpl. lia.
  - rewrite (take_ge r), take_app_length by lia. symmetry. apply list_eq. intros j. destruct (decide (j = c)) as [->|]; [|by rewrite list_lookup_alter_ne].
    rewrite list_lookup_alter_eq, lookup_ge_None_2 by lia. done.
Qed.

Lemma alter_at {A} (f : A -> A) (l : list A) i x : l !! i = Some x -> alter f i l = <[i := f x]> l.
Proof.
  intros Hx. pose proof (lookup_lt_Some _ _ _ Hx). apply list_eq. intros j.
  destruct (decide (j = i)) as [->|Hne]; [by rewrite list_lookup_alter_eq, list_lookup_insert_eq, Hx|by rewrite list_lookup_alter_ne, list_lookup_insert_ne].
Qed.

Lemma row_of_y r : Z.to_nat (Z.of_nat r * GLYPH_HEIGHT / GLYPH_HEIGHT) = r.
Proof. rewrite Z.div_mul by done. lia. Qed.

Lemma paint_line r l v w0 : window v !! r = Some w0 -> length w0 = COLS -> length l <= COLS ->
  paint (draw_line_padded 0 (Z.of_nat r * GLYPH_HEIGHT) (pad l) COLS FG BG) v = mkDisplay (<[r := view_line l None]> (window v)) (shown v).
Proof.
  intros Hw0 Hlw Hl. unfold draw_line_padded, draw_text. rewrite length_pad by done. change (COLS `min` MAX_DRAW_TEXT_LEN) with COLS.
  rewrite Nat.min_id, Nat.sub_diag. cbn [replicate]. rewrite app_nil_r, (take_ge (pad l)) by (rewrite length_pad; lia).
  rewrite length_fmap, length_pad by done. change (COLS `min` MAX_DRAW_TEXT_LEN) with COLS.
  rewrite take_ge by (rewrite length_fmap, length_pad; lia). cbn [paint]. rewrite row_of_y, (alter_at _ _ _ w0) by done. do 2 f_equal.
  change (Z.to_nat (0 / GLYPH_WIDTH)) with 0. rewrite <- list_fmap_compose. rewrite write_cells_all; [done|]. rewrite length_fmap, length_pad; lia.
Qed.

Lemma paint_cursor r l c v : window v !! r = Some (view_line l None) -> length l <= COLS ->
  paint (draw_text (Z.of_nat c * GLYPH_WIDTH) (Z.of_nat r * GLYPH_HEIGHT) [default 32%Z (blank <$> pad l !! c)] BG FG) v =
    mkDisplay (<[r := view_line l (Some c)]> (window v)) (shown v).
Proof.
  intros Hw Hl. unfold draw_text. cbn [length]. change (1 `min` MAX_DRAW_TEXT_LEN) with 1. cbn [take paint fmap list_fmap]. rewrite row_of_y, (alter_at _ _ _ _ Hw). do 2 f_equal. rewrite Z.div_mul by done.
  rewrite Nat2Z.id, write_cells_one. unfold view_line. cbn [from_option].
  apply list_eq. intros j. destruct (decide (j = c)) as [->|Hne]; [|by rewrite !list_lookup_alter_ne].
  rewrite !list_lookup_alter_eq, list_lookup_fmap. by destruct (pad l !! c).
Qed.

Lemma paint_present r h v w : window v !! r = Some w -> r < length (shown v) ->
  paint (present_rect (Z.of_nat r * GLYPH_HEIGHT) h) v = mkDisplay (window v) (<[r := w]> (shown v)).
Proof.
  intros Hw Hr. cbn [present_rect paint]. rewrite row_of_y, Hw. destruct (lookup_lt_is_Some_2 _ _ Hr) as [x Hx]. by rewrite (alter_at _ _ _ _ Hx).
Qed.

(** The requests of a row make it look right, whatever was on it. *)
Lemma row_requests_shown r l c v : display_ok v -> r < ROWS -> length l <= COLS ->
  display_ok (paints (row_requests r l c) v) /\
  shown (paints (row_requests r l c) v) = <[r := view_line l c]> (shown v).
Proof.
  intros (Hw & Hs & Hf) Hr Hl. destruct (lookup_lt_is_Some_2 (window v) r) as [w0 Hw0]; [lia|].
  assert (length w0 = COLS) as Hlw by exact (Forall_lookup_1 _ _ _ _ Hf Hw0).
  assert (paints (row_requests r l c) v = mkDisplay (<[r := view_line l c]> (window v)) (<[r := view_line l c]> (shown v))) as ->.
  { unfold row_requests, paints. cbn [foldl]. rewrite (paint_line r l v w0) by done. destruct c as [c|]; cbn [from_option app foldl].
    - rewrite (paint_cursor r l); [|cbn [window]; apply list_lookup_insert_eq; lia|done]. cbn [window shown]. rewrite list_insert_insert_eq.
      rewrite (paint_present r _ _ (view_line l (Some c))); [done|cbn [window]; apply list_lookup_insert_eq; lia|cbn [shown]; lia].
    - rewrite (paint_present r _ _ (view_line l None)); [done|cbn [window]; apply list_lookup_insert_eq; lia|cbn [shown]; lia]. }
  split; [|done]. unfold display_ok. cbn [window shown]. rewrite !length_insert. split_and!; [done..|]. apply Forall_insert; [done|by apply length_view_line].
Qed.

Lemma paints_app a b v : paints (a ++ b) v = paints b (paints a v).
Proof. apply foldl_app. Qed.

(** Every update keeps the window true to the document. *)
Lemma update_shown v0 d d' reqs v : update d d' reqs -> doc_ok d -> doc_ok d' -> display_ok v ->
  (forall r, r < ROWS -> row_shown v0 v d r) ->
  display_ok (paints reqs v) /\ forall r, r < ROWS -> row_shown v0 (paints reqs v) d' r.
Proof.
  intros Hu Hok Hok' Hv Hrows. destruct Hu as [|d' Hrow Hl|d' Hl Hne]; [done|..].
  - pose proof (lookup_line d' Hok') as Hcur. destruct (row_requests_shown (cur_row d') (line d') (Some (cur_col d')) v) as [Hv' Hs'];
      [done|apply Hok'|by apply (line_fits d' (cur_row d'))|]. split; [done|]. intros r Hr. unfold row_shown, cursor_on. rewrite Hs'.
    destruct (decide (r = cur_row d')) as [->|Hner].
    + exists (line d'). split; [done|]. left. apply list_lookup_insert_eq. by rewrite (proj1 (proj2 Hv)).
    + rewrite Hrow in Hner. destruct (Hrows r Hr) as (l & Hlr & H). exists l. rewrite Hl by done. split; [done|].
      rewrite list_lookup_insert_ne by (rewrite Hrow; done). unfold cursor_on in H. by rewrite decide_False in H.
  - pose proof (lookup_line d' Hok') as Hcur. pose proof (lookup_line d Hok) as Hcur0. rewrite paints_app.
    destruct (row_requests_shown (cur_row d) (line d) None v) as [Hv1 Hs1]; [done|apply Hok|by apply (line_fits d (cur_row d))|].
    destruct (row_requests_shown (cur_row d') (line d') (Some (cur_col d')) (paints (row_requests (cur_row d) (line d) None) v)) as [Hv2 Hs2];
      [done|apply Hok'|by apply (line_fits d' (cur_row d'))|]. split; [done|]. intros r Hr. unfold row_shown, cursor_on. rewrite Hs2.
    destruct (decide (r = cur_row d')) as [->|Hner].
    + exists (line d'). split; [done|]. left. apply list_lookup_insert_eq. by rewrite (proj1 (proj2 Hv1)).
    + rewrite list_lookup_insert_ne, Hs1 by done. rewrite Hl. destruct (decide (r = cur_row d)) as [->|Hner0].
      * exists (line d). split; [done|]. left. apply list_lookup_insert_eq. by rewrite (proj1 (proj2 Hv)).
      * destruct (Hrows r Hr) as (l & Hlr & H). exists l. split; [done|]. rewrite list_lookup_insert_ne by done.
        unfold cursor_on in H. by rewrite decide_False in H.
Qed.

(** ** Any typing *)

Definition after (codes : list Z) (ext : bool) (m : ModifierState) (d : document) : document := foldl (fun d k => edit k d) d (keys codes ext m).

Lemma editor_run_refines v0 codes e d v : represents e d -> doc_ok d -> display_ok v -> (forall r, r < ROWS -> row_shown v0 v d r) ->
  exists e' reqs, editor_run codes e = Some (e', reqs) /\
    let d' := after codes (pending_extended e) (mods e) d in
    represents e' d' /\ doc_ok d' /\ forall r, r < ROWS -> row_shown v0 (paints reqs v) d' r.
Proof.
  revert e d v. induction codes as [|c codes IH]; intros e d v Hrep Hok Hv Hrows; [by eexists _, _|].
  cbn [editor_run]. unfold editor_step, after. cbn [keys]. destruct (Z.eqb_spec c 0xE0).
  { cbn [mbind option_bind]. destruct (IH (mkEditor (buf e) (row_len e) (row e) (col e) true (mods e) (typed_total e)) d v) as (e' & reqs & -> & H);
      [by destruct Hrep|done..|]. cbn [mbind option_bind app]. by eexists _, _. }
  destruct (decode_key c (pending_extended e) (mods e)) as [[key|] m].
  - set (e1 := mkEditor _ _ _ _ false m _). assert (represents e1 d) as Hrep1 by (by destruct Hrep).
    destruct (handle_key_good e1 d Hrep1 Hok key) as (e2 & reqs & -> & Hrep2 & Hok2 & Hu & Hp & Hm). cbn [mbind option_bind].
    destruct (update_shown v0 d _ reqs v Hu Hok Hok2 Hv Hrows) as [Hv2 Hrows2].
    destruct (IH e2 (edit key d) (paints reqs v)) as (e' & reqs' & -> & H); [done..|]. cbn [mbind option_bind].
    eexists _, _. split; [done|]. rewrite paints_app. by rewrite Hp, Hm in H.
  - cbn [mbind option_bind buf row_len row col typed_total]. set (e1 := mkEditor _ _ _ _ false m _). destruct (IH e1 d v) as (e' & reqs & -> & H); [by destruct Hrep|done..|].
    cbn [mbind option_bind app]. by eexists _, _.
Qed.

Lemma init_represents : represents init_in_place empty_document /\ doc_ok empty_document.
Proof.
  split; [by constructor|]. constructor; [done| |unfold ROWS; cbn; lia|cbn; lia]. apply Forall_replicate. cbn. lia.
Qed.

(** C21. The editor never panics, whatever is typed: its memory is the document that the typed keys produce, and every row of its window shows
    the document's line with the cursor, unless the row has never been visited and its line is empty. *)
Theorem editor_refines_document codes v0 :
  display_ok v0 ->
  exists e reqs, editor_run codes init_in_place = Some (e, reqs) /\ represents e (written codes) /\
    (forall r, r < ROWS -> row_shown v0 (paints reqs v0) (written codes) r).
Proof.
  intros Hv. destruct init_represents as [Hrep Hok].
  destruct (editor_run_refines v0 codes init_in_place empty_document v0) as (e & reqs & HE & H1 & H2 & H3); [done..| |].
  - intros r Hr. exists []. split; [|by right]. cbn [lines empty_document]. apply lookup_replicate_2. done.
  - by exists e, reqs.
Qed.

(** ** The terminal's contract

    Lines that have been entered, the line being typed, and a cursor in it. *)

Module TerminalSpec.
Import Terminal.

Record session := mkSession { past : list bytes; text : bytes; pos : nat }.

Definition enter_text (s : bytes) (x : session) : session :=
  if length (text x) + length s <=? T_COLS then mkSession (past x) (insert_at T_COLS (pos x) s (text x)) (pos x + length s) else x.

Definition session_edit (key : Key) (x : session) : session :=
  match key with
  | Enter => mkSession (past x ++ [text x]) [] 0
  | Backspace => if 0 <? pos x then mkSession (past x) (delete_before (pos x) (text x)) (pos x - 1) else x
  | Left => mkSession (past x) (text x) (pos x - 1)
  | Right => mkSession (past x) (text x) (Nat.min (pos x + 1) (length (text x)))
  | Tab => enter_text (replicate 4 32%Z) x
  | Ascii ch => enter_text [ch] x
  | _ => x
  end.

(** The last lines entered, the newest last. *)
Definition recent (n : nat) (p : list bytes) : list bytes := drop (length p - n) p.

(** The region holds the recent lines. *)
Definition region_holds (t : TextRegion) (p : list bytes) : Prop :=
  let q := recent LINES p in
  length (rlines t) = LINES /\ length (lens t) = LINES /\ count t = length q /\
  take (count t) (rlines t) = region_row T_COLS <$> q /\ take (count t) (lens t) = length <$> q.

Record holds (t : terminal) (x : session) : Prop := {
  h_history : region_holds (history t) (past x);
  h_past : Forall (fun l => length l <= T_COLS) (past x);
  h_current : current t = pad_to T_COLS 32%Z (text x);
  h_len : current_len t = length (text x);
  h_cursor : cursor t = pos x;
  h_pos : pos x <= length (text x);
  h_text : length (text x) <= T_COLS }.
End TerminalSpec.

(** ** The region scrolls *)

Module TerminalProofs.
Import Terminal TerminalSpec.

Lemma recent_snoc n p s : 0 < n -> recent n (p ++ [s]) = (if decide (length p < n) then p else drop 1 (recent n p)) ++ [s].
Proof.
  intros Hn. unfold recent. rewrite length_app. cbn [length]. case_decide as Hlt.
  - by replace (length p + 1 - n) with 0 by lia.
  - rewrite drop_drop, drop_app_le by lia. do 2 f_equal. lia.
Qed.

Lemma length_recent n p : length (recent n p) = Nat.min (length p) n.
Proof. unfold recent. rewrite length_drop. lia. Qed.

Lemma length_region_row s : length s <= T_COLS -> length (region_row T_COLS s) = T_COLS.
Proof. intros. unfold region_row. rewrite length_app, length_fmap, length_take, length_replicate. lia. Qed.

(** Moving every row up by one. *)
Definition up {A} (k : nat) (l l' : list A) : Prop := length l' = length l /\ forall j, l' !! j = if decide (j < k) then l !! (j + 1) else l !! j.

Lemma up_insert {A} k (l l' : list A) x : S k < length l -> up k l l' -> l !! S k = Some x -> up (S k) l (<[k := x]> l').
Proof.
  intros Hk [Hl Hj] Hx. split; [by rewrite length_insert|]. intros j. destruct (decide (j = k)) as [->|Hne].
  - rewrite list_lookup_insert_eq, decide_True by lia. by rewrite <- Hx, Nat.add_1_r.
  - rewrite list_lookup_insert_ne, Hj by done. repeat case_decide; lia || done.
Qed.

Lemma shift_rows t k : k < length (rlines t) -> k < length (lens t) ->
  exists t', foldM (fun t i => shift_row_up (i - 1) i t) t (seq 1 k) = Some t' /\
    up k (rlines t) (rlines t') /\ up k (lens t) (lens t') /\ count t' = count t.
Proof.
  induction k as [|k IH]; intros H1 H2; [exists t; by repeat split|].
  destruct IH as (t' & HE & Hr & Hn & Hc); [lia..|]. rewrite seq_S, foldM_app, HE. cbn [mbind option_bind foldM Nat.add].
  unfold shift_row_up. replace (S k - 1) with k by lia.
  destruct (lookup_lt_is_Some_2 (rlines t) (S k)) as [r Hlr]; [lia|]. destruct (lookup_lt_is_Some_2 (lens t) (S k)) as [n Hln]; [lia|].
  destruct (Hr) as [Hrl Hrj]. destruct (Hn) as [Hnl Hnj]. rewrite Hrj, decide_False, Hlr by lia. cbn [mbind option_bind].
  rewrite wbyte_lt by lia. cbn [mbind option_bind]. rewrite Hnj, decide_False, Hln by lia. cbn [mbind option_bind].
  rewrite wbyte_lt by lia. cbn [mbind option_bind]. eexists. split; [done|]. cbn. split_and!; [by apply up_insert..|done].
Qed.

Lemma up_full {A} (l l' : list A) x k : length l = S k -> up k l l' -> <[k := x]> l' = drop 1 l ++ [x].
Proof.
  intros Hl [Hl' Hj]. apply list_eq. intros j. destruct (decide (j = k)) as [->|Hne].
  - rewrite list_lookup_insert_eq by lia. rewrite lookup_app_r; rewrite length_drop; [|lia]. by replace (k - (length l - 1)) with 0 by lia.
  - rewrite list_lookup_insert_ne, Hj by done. case_decide.
    + rewrite lookup_app_l by (rewrite length_drop; lia). rewrite lookup_drop. f_equal. lia.
    + rewrite !lookup_ge_None_2; [done|rewrite length_app, length_drop; simpl; lia|lia].
Qed.

Lemma take_insert_snoc {A} (l : list A) i x : i < length l -> take (i + 1) (<[i := x]> l) = take i l ++ [x].
Proof. intros Hi. rewrite Nat.add_1_r, (take_S_r _ _ x) by (by apply list_lookup_insert_eq). by rewrite take_insert_ge. Qed.

Lemma push_line_holds t p s : region_holds t p -> length s <= T_COLS ->
  exists t', push_line LINES T_COLS s t = Some t' /\ region_holds t' (p ++ [s]).
Proof.
  intros (Hr & Hn & Hc & Hrows & Hlens) Hs. unfold push_line. assert (region_len T_COLS s = length s) as Hlen.
  { unfold region_len. rewrite Nat.min_l by done. apply Nat.mod_small. unfold T_COLS in Hs. lia. }
  rewrite length_recent in Hc. destruct (Nat.ltb_spec (count t) LINES) as [Hlt|Hge].
  - unfold put_row. rewrite !wbyte_lt, Hlen by lia. cbn [mbind option_bind]. eexists. split; [done|]. unfold region_holds.
    rewrite recent_snoc, decide_True by (unfold LINES in *; lia). cbn [rlines lens count]. rewrite !length_insert, length_app, !fmap_app.
    rewrite !take_insert_snoc, Hrows, Hlens by lia. unfold recent. replace (length p - LINES) with 0 by lia. cbn [length fmap list_fmap].
    split_and!; [lia..|done|done].
  - destruct (shift_rows t (LINES - 1)) as (t' & -> & Hu & Hun & Hct); [unfold LINES in *; lia..|]. cbn [mbind option_bind]. unfold put_row.
    rewrite !wbyte_lt, Hlen by (rewrite ?(proj1 Hu), ?(proj1 Hun); unfold LINES in *; lia). cbn [mbind option_bind]. eexists. split; [done|].
    unfold region_holds. rewrite recent_snoc, decide_False by (unfold LINES in *; lia). cbn [rlines lens count].
    rewrite (up_full (rlines t)) by done. rewrite (up_full (lens t)) by done.
    rewrite (take_ge (rlines t)) in Hrows by lia. rewrite (take_ge (lens t)) in Hlens by lia. rewrite Hrows, Hlens, Hct, !length_app, !fmap_app, !length_drop, !length_fmap, length_recent.
    rewrite !take_ge by (rewrite length_app, length_drop, length_fmap, length_recent; unfold LINES in *; simpl; lia).
    rewrite !fmap_drop. cbn [length fmap list_fmap]. split_and!; [unfold LINES in *; lia..|done|done].
Qed.

(** Every held line is drawn over its row, from its first character to its last, and no further. *)
Definition history_requests (q : list bytes) : list request := imap (fun i l => draw_text 0 (Z.of_nat i * GLYPH_HEIGHT) (blank <$> l) FG BG) q.

Lemma take_lookup {A} n (l q : list A) i : take n l = q -> i < length q -> l !! i = q !! i.
Proof. intros <- Hi. rewrite length_take in Hi. by rewrite lookup_take, decide_True by lia. Qed.

Lemma render_exact t p : region_holds t p -> Forall (fun l => length l <= T_COLS) p ->
  render t = Some (history_requests (recent LINES p)).
Proof.
  intros (_ & _ & Hc & Hrows & Hlens) Hp. unfold render. set (q := recent LINES p) in *. rewrite Hc.
  assert (Forall (fun l => length l <= T_COLS) q) as Hq by (by apply Forall_drop).
  assert (forall k, k <= length q -> foldM (fun qs i => n ← lens t !! i; r ← rlines t !! i; s ← rslice r 0 n;
     Some (qs ++ [draw_text 0 (Z.of_nat i * GLYPH_HEIGHT) s FG BG])) [] (seq 0 k) = Some (history_requests (take k q))) as H.
  2:{ by rewrite H, firstn_all. }
  induction k as [|k IH]; intros Hk; [done|]. rewrite seq_S, foldM_app, IH by lia. cbn [mbind option_bind foldM Nat.add].
  destruct (lookup_lt_is_Some_2 q k) as [l Hl]; [lia|]. rewrite Hc in Hrows, Hlens.
  rewrite (take_lookup _ _ _ k Hlens), (take_lookup _ _ _ k Hrows), !list_lookup_fmap, Hl by (rewrite length_fmap; lia).
  cbn [fmap option_fmap option_map mbind option_bind]. pose proof (Forall_lookup_1 _ _ _ _ Hq Hl) as Hll. cbn in Hll.
  unfold rslice. rewrite decide_True by (rewrite length_region_row by done; lia). cbn [mbind option_bind]. f_equal.
  unfold history_requests. rewrite (take_S_r _ _ l Hl), imap_app. cbn [imap]. rewrite length_take, Nat.min_l by lia. f_equal. cbn. do 2 f_equal; [lia|].
  unfold region_row. rewrite Nat.min_l, firstn_all by done. rewrite drop_0, take_app_le by (rewrite length_fmap; lia). rewrite take_ge by (rewrite length_fmap; lia). done.
Qed.

(** The requests for the line being typed. *)
Definition line_requests (x : session) : list request :=
  [draw_line_padded 0 current_line_y (text x) T_COLS FG BG;
   draw_text (Z.of_nat (pos x) * GLYPH_WIDTH) current_line_y [default 32%Z (text x !! pos x)] BG FG].

Lemma rslice_pad w z l : length l <= w -> rslice (pad_to w z l) 0 (length l) = Some l.
Proof. intros. unfold rslice. rewrite length_pad_to, decide_True by lia. unfold pad_to. by rewrite drop_0, take_app_length. Qed.

Section outcomes.
  Context (t : terminal) (x : session) (Hh : holds t x).

Definition term_good (res : option (terminal * list request)) (x' : session) : Prop :=
  exists t' qs, res = Some (t', qs) /\ holds t' x' /\ t_extended t' = t_extended t /\ t_mods t' = t_mods t /\
    (qs = [] /\ x' = x \/ qs = line_requests x' ++ [present_rect current_line_y 16] /\ past x' = past x \/
     qs = history_requests (recent LINES (past x')) ++ line_requests x' ++ [Present]).

Lemma redraw_line : redraw_current_line t = Some (line_requests x).
Proof using Hh.
  destruct Hh as [_ _ Hc Hl Hk Hp Ht]. unfold redraw_current_line. rewrite Hc, Hl, Hk, rslice_pad by done. cbn [mbind option_bind].
  destruct (Nat.ltb_spec (pos x) (length (text x))) as [H|H].
  - rewrite lookup_pad_to, decide_True by done. unfold line_requests. by destruct (lookup_lt_is_Some_2 _ _ H) as [b ->].
  - unfold line_requests. by rewrite (lookup_ge_None_2 (text x)) by lia.
Qed.

Lemma set_current_holds c n k x' : past x' = past x -> c = pad_to T_COLS 32%Z (text x') -> n = length (text x') -> k = pos x' ->
  pos x' <= length (text x') <= T_COLS -> holds (set_current c n k t) x'.
Proof using Hh. intros Hp -> -> -> [? ?]. destruct Hh. constructor; cbn; rewrite ?Hp; done. Qed.
End outcomes.

Lemma good_redraw t x t' x' : holds t' x' -> past x' = past x -> t_extended t' = t_extended t -> t_mods t' = t_mods t ->
  term_good t x (terminal_redraw t') x'.
Proof.
  intros Hh Hp He Hm. unfold terminal_redraw. rewrite (redraw_line t' x') by done. cbn [mbind option_bind]. eexists _, _. split_and!; [done..|]. right. by left.
Qed.

Section keys.
  Context (t : terminal) (x : session) (Hh : holds t x).

(** Inserting, through the shared lemmas on rows. *)
Lemma insert_current s n (wr : nat -> bytes -> option bytes) : n = length s -> length (text x) + n <= T_COLS ->
  (forall r, length r = T_COLS -> wr (pos x) r = wslice r (pos x) s) ->
  exists r, shift_right n (pos x) (length (text x)) (pad_to T_COLS 32%Z (text x)) = Some r /\
    wr (pos x) r = Some (pad_to T_COLS 32%Z (insert_at T_COLS (pos x) s (text x))).
Proof using Hh.
  intros -> Hn Hwr. destruct Hh as [_ _ _ _ _ Hp Ht]. destruct (insert_row T_COLS 32%Z (pos x) s (text x)) as (r & HE & Hw & Hr); [lia..|].
  rewrite Nat.min_l in HE by lia. exists r. split; [done|]. by rewrite Hwr.
Qed.

Lemma enter_holds s : length (text x) + length s <= T_COLS ->
  holds (set_current (pad_to T_COLS 32%Z (insert_at T_COLS (pos x) s (text x))) (length (text x) + length s) (pos x + length s) t)
    (mkSession (past x) (insert_at T_COLS (pos x) s (text x)) (pos x + length s)).
Proof using Hh.
  intros Hs. pose proof (h_pos _ _ Hh) as Hp. apply (set_current_holds t x Hh); cbn [past text pos]; [done|done| |done|]; rewrite length_insert_at by done; lia.
Qed.

Lemma cursor_min : Nat.min (cursor t) (current_len t) = pos x.
Proof using Hh. destruct Hh. lia. Qed.

Lemma holds_here : holds (set_current (current t) (current_len t) (pos x) t) x.
Proof using Hh. destruct Hh. by constructor. Qed.

Lemma good_enter : term_good t x (terminal_enter t) (session_edit Enter x).
Proof using Hh.
  unfold terminal_enter. rewrite (h_current _ _ Hh), (h_len _ _ Hh), rslice_pad by apply Hh. cbn [mbind option_bind].
  destruct (push_line_holds _ _ _ (h_history _ _ Hh) (h_text _ _ Hh)) as (h & -> & Hreg). cbn [mbind option_bind].
  set (x' := session_edit Enter x). assert (Forall (fun l => length l <= T_COLS) (past x')) as Hp'.
  { apply Forall_app; split; [apply Hh|]. apply Forall_singleton, Hh. }
  rewrite (render_exact h (past x')) by done. cbn [mbind option_bind]. set (t' := mkTerm h _ _ _ _ _ _).
  assert (holds t' x') as Hh' by (by constructor; [done|done|..]; cbn; lia || done).
  rewrite (redraw_line t' x' Hh'). cbn [mbind option_bind]. eexists _, _. split_and!; [done..|]. by right; right.
Qed.

Lemma terminal_key_good key : term_good t x (terminal_key key t) (session_edit key x).
Proof using Hh.
  destruct key as [ch| | | | | | | | | |]; cbn [terminal_key session_edit]; try (eexists _, _; split_and!; [done..|by left]).
  - unfold terminal_ascii, enter_text. rewrite cursor_min, (h_len _ _ Hh), (h_current _ _ Hh). cbn [length].
    destruct (Nat.leb_spec (length (text x) + 1) T_COLS) as [Hc|Hc]; destruct (Nat.ltb_spec (length (text x)) T_COLS); try lia.
    + destruct (insert_current [ch] 1 (fun i r => wbyte r i ch)) as (r & -> & Hw); [done|done|intros; by rewrite wbyte_wslice|].
      cbn [mbind option_bind]. rewrite Hw. cbn [mbind option_bind]. apply good_redraw; [by apply (enter_holds [ch])|done..].
    + cbn [mbind option_bind]. rewrite <- (h_len _ _ Hh), <- (h_current _ _ Hh). apply good_redraw; [apply holds_here|done..].
  - unfold terminal_backspace. rewrite cursor_min, (h_len _ _ Hh), (h_current _ _ Hh). pose proof (h_pos _ _ Hh). pose proof (h_text _ _ Hh).
    destruct (Nat.ltb_spec 0 (pos x)); cbn [andb].
    + destruct (Nat.ltb_spec 0 (length (text x))); [|lia]. destruct (delete_row T_COLS 32%Z (pos x) (text x)) as (r & -> & Hw); [lia..|].
      cbn [mbind option_bind]. rewrite Hw. cbn [mbind option_bind]. apply good_redraw; [|done..].
      apply (set_current_holds t x Hh); cbn [past text pos]; [done|done| |done|]; rewrite length_delete_before; lia.
    + cbn [mbind option_bind]. rewrite <- (h_len _ _ Hh), <- (h_current _ _ Hh). apply good_redraw; [apply holds_here|done..].
  - apply good_enter.
  - rewrite (h_cursor _ _ Hh). pose proof (h_pos _ _ Hh). pose proof (h_text _ _ Hh). destruct (Nat.ltb_spec 0 (pos x)).
    + apply good_redraw; [|done..]. apply (set_current_holds t x Hh); cbn; try apply Hh; done || lia.
    + apply good_redraw; [|done..]. destruct Hh. constructor; cbn; done || lia.
  - rewrite (h_cursor _ _ Hh), (h_len _ _ Hh). pose proof (h_pos _ _ Hh). pose proof (h_text _ _ Hh). destruct (Nat.ltb_spec (pos x) (length (text x))).
    + apply good_redraw; [|done..]. apply (set_current_holds t x Hh); cbn; try apply Hh; done || lia.
    + apply good_redraw; [|done..]. destruct Hh. constructor; cbn; done || lia.
  - unfold terminal_tab, enter_text. rewrite cursor_min, (h_len _ _ Hh), (h_current _ _ Hh), length_replicate.
    destruct (Nat.leb_spec (length (text x) + 4) T_COLS) as [Hc|Hc].
    + destruct (insert_current (replicate 4 32%Z) 4 (fun i r => fill_from i 4 32%Z r)) as (r & -> & Hw); [done|done| |].
      { intros r Hr. apply fill_from_exact. pose proof (h_pos _ _ Hh). lia. }
      cbn [mbind option_bind]. rewrite Hw. cbn [mbind option_bind]. apply good_redraw; [by apply (enter_holds (replicate 4 32%Z))|done..].
    + rewrite <- (h_len _ _ Hh), <- (h_current _ _ Hh). eexists _, _. split_and!; [done|apply holds_here|done|done|by left].
Qed.
End keys.
End TerminalProofs.

Module TerminalRun.
Import Terminal TerminalSpec TerminalProofs.

Definition said (codes : list Z) (ext : bool) (m : ModifierState) (x : session) : session := foldl (fun x k => session_edit k x) x (keys codes ext m).

Lemma terminal_run_holds codes t x : holds t x ->
  exists t' qs, terminal_run codes t = Some (t', qs) /\ holds t' (said codes (t_extended t) (t_mods t) x).
Proof.
  revert t x. induction codes as [|c codes IH]; intros t x Hh; [by eexists _, _|].
  cbn [terminal_run]. unfold terminal_step, terminal_decode, said. cbn [keys]. destruct (Z.eqb_spec c 0xE0).
  { cbn [mbind option_bind].
    destruct (IH (mkTerm (history t) (current t) (current_len t) (cursor t) true (t_mods t) (t_typed t)) x) as (t' & qs & -> & H);
      [by destruct Hh|]. cbn [mbind option_bind app]. by eexists _, _. }
  destruct (decode_key c (t_extended t) (t_mods t)) as [[key|] m].
  - set (t1 := mkTerm _ _ _ _ false m _). assert (holds t1 x) as Hh1 by (by destruct Hh).
    destruct (terminal_key_good t1 x Hh1 key) as (t2 & qs & -> & Hh2 & He & Hm & _). cbn [mbind option_bind].
    destruct (IH t2 _ Hh2) as (t' & qs' & -> & H). cbn [mbind option_bind]. eexists _, _. split; [done|]. by rewrite He, Hm in H.
  - cbn [mbind option_bind]. set (t1 := mkTerm _ _ _ _ false m _). destruct (IH t1 x) as (t' & qs & -> & H); [by destruct Hh|].
    cbn [mbind option_bind app]. by eexists _, _.
Qed.

(** The terminal never panics, whatever is typed: it holds the line being typed with its cursor and the last eight lines entered. *)
Theorem terminal_refines_session codes :
  exists t qs, terminal_run codes terminal_init = Some (t, qs) /\ holds t (said codes false mods_default (mkSession [] [] 0)).
Proof. apply (terminal_run_holds codes terminal_init). constructor; cbn; [by repeat split|constructor|done..|lia|lia]. Qed.
End TerminalRun.

(** ** Witnesses *)

Module EditorWitness.

Definition blank_rows (h w : nat) : list (list cell) := replicate h (replicate w (32%Z, FG, BG)).
Definition blank_display (h w : nat) : display := mkDisplay (blank_rows h w) (blank_rows h w).
Definition start : display := paints editor_greeting (blank_display ROWS COLS).

(** Shift-h, i, left, backspace, tab. *)
Definition typing : list Z := [0x2A; 0x23; 0xAA; 0x17; 0xE0; 0x4B; 0x0E; 0x0F]%Z.

Example typing_means : lines (written typing) = (replicate 4 32 ++ [105])%Z :: replicate 15 [] /\ cur_col (written typing) = 4.
Proof. by vm_compute. Qed.

Lemma start_ok : display_ok start.
Proof. split_and!; [done..|]. apply Forall_lookup. intros i x Hx. do 16 (destruct i as [|i]; [injection Hx as <-; done|]). done. Qed.

Lemma editor_witness : display_ok start /\
  exists e reqs, editor_run typing init_in_place = Some (e, reqs) /\ represents e (written typing) /\
    (forall r, r < ROWS -> row_shown start (paints reqs start) (written typing) r).
Proof. split; [exact start_ok|]. exact (editor_refines_document typing start start_ok). Defined.

(** The characters the terminal's window shows on a row. *)
Definition terminal_row (r : nat) (codes : list Z) : option (list Z) :=
  match Terminal.terminal_run codes Terminal.terminal_init with
  | Some (_, qs) => Some (map (fun c : cell => c.1.1) (nth r (shown (paints qs (paints Terminal.terminal_greeting (blank_display 9 Terminal.T_COLS)))) []))
  | None => None
  end.

(** The scrolled history is drawn without erasing what was on its rows: after [a] and Enter the first row still shows the rest of the
    greeting, and after eight more empty lines, when [a] has left the history, the row still shows it all. *)
Example history_not_erased :
  terminal_row 0 [0x1E; 0x1C]%Z = Some ([97; 69; 82; 77; 73; 78; 65; 76; 95; 69; 77; 85; 76; 65; 84; 79; 82; 95; 82; 69; 65; 68; 89] ++ replicate 17 32)%Z /\
  terminal_row 0 ([0x1E; 0x1C] ++ replicate 8 0x1C)%Z = terminal_row 0 [0x1E; 0x1C]%Z /\
  TerminalSpec.recent Terminal.LINES (TerminalSpec.past (TerminalRun.said ([0x1E; 0x1C] ++ replicate 8 0x1C)%Z false mods_default (TerminalSpec.mkSession [] [] 0)))
    = replicate 8 [].
Proof. by vm_compute. Qed.
End EditorWitness.
