(* ===== verification/Shell.v ===== *)
(** * The text shell

    [user_rs/shell/src/main.rs], the ring-3 shell on the serial port: its line reader, its number printer and parser, its commands and
    the resolution of plain-English requests.  The kernel's answers to the system calls and the bytes that ports return are arguments
    ([None] for a port the process may not read: it is killed there); what the shell does is the list of its actions.  [None] for a
    command is a panic.

    The commands print exactly the records of [Introspect] that the kernel exports; a request in English does what the command does. *)

From S2P Require Import Prelude AuditLog Capability Introspect.
From Stdlib Require Ascii String.
Import (notations) String.

(** ** Actions *)

Inductive act := Out (s : bytes) | Sys (num : Z) | PortRead (port : Z).

Definition str (s : String.string) : bytes := (fun c => Z.of_N (Ascii.N_of_ascii c)) <$> String.list_ascii_of_string s.
Definition CRLF : bytes := [13; 10].
Definition line_of (s : String.string) : act := Out (str s ++ CRLF).

(** ** Numbers *)

(** The loop of [write_u64_dec]: digits from the end of a buffer of twenty. *)
Fixpoint dec_loop (i : nat) (v : Z) (buf : bytes) : option (nat * bytes) :=
  if v =? 0 then Some (i, buf) else
  match i with
  | O => None
  | S i => dec_loop i (v / 10) (<[i := 48 + v mod 10]> buf)
  end.

Definition write_u64_dec (v : Z) : option bytes :=
  if v =? 0 then Some [48] else '(i, buf) ← dec_loop 20 v (replicate 20 0); rslice buf i (20 - i).

Definition hex_digit (n : Z) : Z := if n <? 10 then 48 + n else 97 + (n - 10).

Definition hex_step (v : Z) (s : bool * bytes) (shift : Z) : bool * bytes :=
  let nibble := Z.land (Z.shiftr v (shift * 4)) 0xF in
  if negb (nibble =? 0) || s.1 || (shift =? 0) then (true, s.2 ++ [hex_digit nibble]) else s.

Definition write_hex_u64 (v : Z) : bytes := (foldl (hex_step v) (false, str "0x"%string) (reverse (range 0 16))).2.

Definition hex_value (c : Z) : option Z :=
  if (48 <=? c) && (c <=? 57) then Some (c - 48)
  else if (97 <=? c) && (c <=? 102) then Some (c - 97 + 10)
  else if (65 <=? c) && (c <=? 70) then Some (c - 65 + 10)
  else None.

Definition hex_prefix (s : bytes) : bytes :=
  match s with a :: b :: r => if (a =? 48) && ((b =? 120) || (b =? 88)) then r else s | _ => s end.

Definition parse_hex_u16 (s : bytes) : option Z :=
  match hex_prefix s with
  | [] => None
  | s => foldM (fun v c => d ← hex_value c; let v := wrap 32 (v * 16 + d) in if 0xFFFF <? v then None else Some v) 0 s
  end.

(** ** Lines *)

Definition LINE_MAX : nat := 128.

Definition is_newline (b : Z) : bool := (b =? 13) || (b =? 10).
Definition is_backspace (b : Z) : bool := (b =? 8) || (b =? 127).

(** [read_line] over the bytes that arrive; [None] while no line is complete. *)
Fixpoint read_line (inp : bytes) (buf : bytes) (len : nat) : option (bytes * nat * list act * bytes) :=
  match inp with
  | [] => None
  | b :: inp =>
      if is_newline b then Some (buf, len, [Out CRLF], inp)
      else if is_backspace b then
        match len with
        | O => read_line inp buf len
        | S len => '(buf, n, out, rest) ← read_line inp buf len; Some (buf, n, Out [8; 32; 8] :: out, rest)
        end
      else if (len <? LINE_MAX)%nat then '(buf, n, out, rest) ← read_line inp (<[len := b]> buf) (S len); Some (buf, n, Out [b] :: out, rest)
      else read_line inp buf len
  end.

Definition SPACE : Z := 32.

Fixpoint word_end (line : bytes) : nat := match line with [] => O | c :: r => if c =? SPACE then O else S (word_end r) end.
Fixpoint skip_spaces (line : bytes) : bytes := match line with [] => [] | c :: r => if c =? SPACE then skip_spaces r else line end.

Definition split_first_word (line : bytes) : bytes * bytes := let i := word_end line in (take i line, skip_spaces (drop i line)).

Fixpoint bytes_eq (a b : bytes) : bool :=
  match a, b with [], [] => true | x :: a, y :: b => (x =? y) && bytes_eq a b | _, _ => false end.

Fixpoint contains_phrase (line phrase : bytes) : bool :=
  if (length line <? length phrase)%nat then false
  else bytes_eq (take (length phrase) line) phrase || match line with [] => false | _ :: r => contains_phrase r phrase end.

(** ** Intents *)

Definition PS : bytes := str "ps"%string.
Definition TOOLS : bytes := str "tools"%string.
Definition AUDIT : bytes := str "audit"%string.
Definition HELP : bytes := str "help"%string.
Definition RAWIN : bytes := str "rawin"%string.

Definition resolve_intent (line : bytes) : option bytes :=
  if contains_phrase line (str "show me the processes"%string) then Some PS
  else if contains_phrase line (str "list the processes"%string) then Some PS
  else if contains_phrase line (str "what is running"%string) then Some PS
  else if contains_phrase line (str "what tools are available"%string) then Some TOOLS
  else if contains_phrase line (str "list the tools"%string) then Some TOOLS
  else if contains_phrase line (str "show me the audit log"%string) then Some AUDIT
  else if contains_phrase line (str "show my audit trail"%string) then Some AUDIT
  else None.

(** ** Commands *)

Definition MAX_ENTRIES : Z := 16.
Definition U64_MAX : Z := 2 ^ 64 - 1.

Definition state_name (st : Z) : bytes :=
  match st with 0 => str "Ready"%string | 1 => str "Running"%string | 2 => str "Exited"%string | _ => str "?"%string end.
Definition yes_no (v : Z) : bytes := if v =? 0 then str "no"%string else str "yes"%string.

Definition ps_row (e : Z * Z * Z) : option act :=
  let '(id, state, is_user) := e in
  d ← write_u64_dec id;
  Some (Out (str "  "%string ++ d ++ str "    "%string ++ state_name state ++ str "    "%string ++ yes_no is_user ++ CRLF)).

Definition tools_row (e : Z * Z * Z) : option act :=
  let '(num, rights, side) := e in
  d ← write_u64_dec num;
  Some (Out (str "  "%string ++ d ++ str "        "%string ++ write_hex_u64 rights ++ str "        "%string ++ yes_no side ++ CRLF)).

Definition print_audit_event (kind a b : Z) : option bytes :=
  match kind with
  | 0 => d ← write_u64_dec a; Some (str "Grant           object="%string ++ d ++ str " rights="%string ++ write_hex_u64 b)
  | 1 => d ← write_u64_dec a; Some (str "Derive          object="%string ++ d ++ str " rights="%string ++ write_hex_u64 b)
  | 2 => d ← write_u64_dec a; Some (str "Revoke          object="%string ++ d)
  | 3 => d ← write_u64_dec a; Some (str "Denied          cap_id="%string ++ d)
  | 4 => d ← write_u64_dec a; Some (str "IpcSend         object="%string ++ d)
  | 5 => d ← write_u64_dec a; Some (str "IpcReceive      object="%string ++ d)
  | 6 => Some (str "InterruptDelivered  vector="%string ++ write_hex_u64 a)
  | 7 => Some (str "InterruptAcknowledged  vector="%string ++ write_hex_u64 a)
  | 8 => Some (str "PolicyDenied    rights="%string ++ write_hex_u64 a)
  | 9 => Some (str "IommuFault      source_id="%string ++ write_hex_u64 a ++ str " reason="%string ++ write_hex_u64 b)
  | _ => d ← write_u64_dec kind; Some (str "(unknown event kind "%string ++ d ++ str ")"%string)
  end.

Definition audit_row (e : Z * Z * Z * Z) : option act :=
  let '(seq, kind, a, b) := e in
  d ← write_u64_dec seq; ev ← print_audit_event kind a b; Some (Out (str "  #"%string ++ d ++ str "  "%string ++ ev ++ CRLF)).

Section commands.
  (** What the kernel returns for a system call, with the buffer it fills; what a port holds. *)
  Context (answer : Z -> Z * bytes) (port_in : Z -> option Z).

Definition rows {A} (decode : bytes -> nat -> A) (row : A -> option act) (result : Z) (buf : bytes) : option (list act) :=
  mapM (fun i => row (decode buf i)) (seq 0 (Z.to_nat (Z.min result MAX_ENTRIES))).

Definition cmd_ps : option (list act) :=
  let '(result, buf) := answer 7 in
  if result =? U64_MAX then Some [Sys 7; line_of "permission denied: this shell was not granted Rights::INTROSPECT"%string]
  else r ← rows decode_thread_info ps_row result buf; Some (Sys 7 :: line_of "  PID  STATE    USER"%string :: r).

Definition cmd_tools : option (list act) :=
  let '(result, buf) := answer 8 in
  r ← rows decode_tool_descriptor tools_row result buf; Some (Sys 8 :: line_of "  SYSCALL  REQUIRED_RIGHTS  SIDE_EFFECTING"%string :: r).

Definition cmd_audit : option (list act) :=
  let '(result, buf) := answer 9 in
  if result =? U64_MAX then Some [Sys 9; line_of "permission denied: this shell was not granted Rights::AUDIT_QUERY"%string]
  else if result =? 0 then Some [Sys 9; line_of "(no audit records attributed to this shell process yet)"%string]
  else r ← rows decode_audit_entry audit_row result buf; Some (Sys 9 :: r).

(** The result says whether the process survives. *)
Definition cmd_rawin (arg : bytes) : list act * bool :=
  match parse_hex_u16 arg with
  | None => ([line_of "usage: rawin <hex port>, e.g. rawin 3f8"%string], true)
  | Some port =>
      let before := Out (str "reading port "%string ++ write_hex_u64 port ++
        str " (if this shell wasn't granted it, this process ends here -- real IOPB enforcement, not a message this code prints)"%string ++ CRLF) in
      match port_in port with
      | None => ([before; PortRead port], false)
      | Some value => ([before; PortRead port; Out (str "  value = "%string ++ write_hex_u64 value ++ CRLF)], true)
      end
  end.

Definition cmd_help : list act :=
  [line_of "Agentic OS shell -- commands:"%string; line_of "  help            this text"%string;
   line_of "  ps              real typed thread list (syscall 7, Rights::INTROSPECT)"%string;
   line_of "  tools           real typed tool/intent catalog (syscall 8, unconditional)"%string;
   line_of "  audit           this process's OWN audit trail (syscall 9, Rights::AUDIT_QUERY)"%string;
   line_of "  rawin <port>    read one byte from a raw port -- ONLY COM1 is granted;"%string;
   line_of "                  anything else demonstrates real capability enforcement"%string;
   line_of "                  by ending this process (see module doc)"%string; Out CRLF;
   line_of "plain-English requests also work, e.g. 'show me the processes',"%string;
   line_of "'what tools are available', 'show me the audit log' -- each resolves"%string;
   line_of "to the EXACT SAME command above, same syscall, same audit record."%string].

Definition is_command (cmd : bytes) : bool :=
  bytes_eq cmd HELP || bytes_eq cmd PS || bytes_eq cmd TOOLS || bytes_eq cmd AUDIT || bytes_eq cmd RAWIN || bytes_eq cmd [].

(** The last [match] of the loop. *)
Definition dispatch (resolved rest : bytes) : option (list act * bool) :=
  if bytes_eq resolved HELP then Some (cmd_help, true)
  else if bytes_eq resolved PS then r ← cmd_ps; Some (r, true)
  else if bytes_eq resolved TOOLS then r ← cmd_tools; Some (r, true)
  else if bytes_eq resolved AUDIT then r ← cmd_audit; Some (r, true)
  else if bytes_eq resolved RAWIN then Some (cmd_rawin rest)
  else if bytes_eq resolved [] then Some ([], true)
  else Some ([line_of "unknown command -- type 'help'"%string], true).

(** What the loop of [_start] does with a line. *)
Definition shell_turn (line : bytes) : option (list act * bool) :=
  let '(cmd, rest) := split_first_word line in
  if is_command cmd then dispatch cmd rest else
  match resolve_intent line with
  | Some mapped => '(r, alive) ← dispatch mapped rest; Some (Out (str "(interpreted as: "%string ++ mapped ++ str ")"%string ++ CRLF) :: r, alive)
  | None => dispatch cmd rest
  end.

(** The loop of [_start] over the bytes that arrive, until they run out or the process is killed. *)
Fixpoint shell_loop (turns : nat) (inp buf : bytes) : option (list act * bool) :=
  match turns with
  | O => Some ([], true)
  | S turns =>
      match read_line inp buf 0 with
      | None => Some ([Out (str "agentos> "%string)], true)
      | Some (buf, len, echo, rest) =>
          line ← rslice buf 0 len; '(r, alive) ← shell_turn line;
          if (alive : bool) then '(r', alive) ← shell_loop turns rest buf; Some (Out (str "agentos> "%string) :: echo ++ r ++ r', alive)
          else Some (Out (str "agentos> "%string) :: echo ++ r, false)
      end
  end.
End commands.

(** ** Numbers are printed and read back *)

Definition dec_value (s : bytes) : Z := foldl (fun v c => v * 10 + (c - 48)) 0 s.
Definition is_digit (c : Z) : Prop := 48 <= c <= 57.

Lemma dec_value_snoc s c : dec_value (s ++ [c]) = dec_value s * 10 + (c - 48).
Proof. unfold dec_value. by rewrite foldl_app. Qed.

Lemma dec_loop_spec i : forall v buf, 0 <= v < 10 ^ Z.of_nat i -> (i <= length buf)%nat ->
  exists ds buf', dec_loop i v buf = Some ((i - length ds)%nat, buf') /\ (length ds <= i)%nat /\ length buf' = length buf /\
    drop (i - length ds) buf' = ds ++ drop i buf /\ dec_value ds = v /\ Forall is_digit ds /\ (v = 0 -> ds = []) /\ (0 < v -> exists c r, ds = c :: r /\ c <> 48).
Proof.
  induction i as [|i IH]; intros v buf Hv Hi; cbn [dec_loop].
  - cbn in Hv. assert (v = 0) as -> by lia. exists [], buf. split_and!; done || (cbn; lia).
  - destruct (Z.eqb_spec v 0) as [->|Hne]. { exists [], buf. split_and!; done || (cbn; lia). }
    rewrite Nat2Z.inj_succ, Z.pow_succ_r in Hv by lia.
    pose proof (Z.mod_pos_bound v 10 ltac:(lia)) as Hm. pose proof (Z.div_mod v 10 ltac:(lia)) as Hdm.
    destruct (IH (v / 10) (<[i := 48 + v mod 10]> buf)) as (ds & buf' & -> & Hl & Hlb & Hd & Hval & Hdig & Hnil & Hhd).
    { split; [apply Z.div_pos; lia|apply Z.div_lt_upper_bound; lia]. } { rewrite length_insert. lia. }
    exists (ds ++ [48 + v mod 10]), buf'. rewrite length_app. cbn [length]. replace (S i - (length ds + 1))%nat with (i - length ds)%nat by lia.
    rewrite length_insert in Hlb. split_and!; [done|lia|done| | | |lia|].
    + rewrite Hd, <- app_assoc. cbn [app]. f_equal. rewrite (drop_S _ (48 + v mod 10)) by (apply list_lookup_insert_eq; lia). f_equal. by rewrite drop_insert_lt by lia.
    + rewrite dec_value_snoc, Hval. lia.
    + apply Forall_app. split; [done|]. apply Forall_singleton. unfold is_digit. lia.
    + intros _. destruct (decide (0 < v / 10)) as [Hp|Hp].
      * destruct (Hhd Hp) as (c & r & -> & Hc). by exists c, (r ++ [48 + v mod 10]).
      * assert (v / 10 = 0) as Hz by (pose proof (Z.div_pos v 10); lia). rewrite Hz in Hval, Hdm.
        rewrite (Hnil Hz). exists (48 + v mod 10), []. split; [done|lia].
Qed.

(** A number is printed in decimal, without a leading zero, and nothing overflows. *)
Lemma write_u64_dec_exact v : 0 <= v < 2 ^ 64 ->
  exists s, write_u64_dec v = Some s /\ dec_value s = v /\ Forall is_digit s /\ (head s = Some 48 -> v = 0).
Proof.
  intros Hv. unfold write_u64_dec. destruct (Z.eqb_spec v 0) as [->|Hne].
  { exists [48]. split_and!; [done..| |done]. by apply Forall_singleton. }
  destruct (dec_loop_spec 20 v (replicate 20 0)) as (ds & buf & -> & Hl & Hlb & Hd & Hval & Hdig & _ & Hhd); [cbn; lia|done|].
  cbn [mbind option_bind]. exists ds. rewrite length_replicate in Hlb. unfold rslice. rewrite decide_True by lia.
  change (drop 20 (replicate 20 0)) with (@nil Z) in Hd. rewrite app_nil_r in Hd. rewrite Hd, take_ge by lia. split_and!; [done..|].
  destruct (Hhd ltac:(lia)) as (c & r & -> & Hc). cbn. intros [= ->]. done.
Qed.

Lemma write_u64_dec_some v : 0 <= v < 2 ^ 64 -> is_Some (write_u64_dec v).
Proof. intros Hv. destruct (write_u64_dec_exact v Hv) as (s & -> & _). by eexists. Qed.

Definition nib (v k : Z) : Z := Z.land (Z.shiftr v (k * 4)) 0xF.

Lemma nib_div v k : 0 <= k -> nib v k = v / 16 ^ k mod 16.
Proof.
  intros Hk. unfold nib. change 0xF with (Z.ones 4). rewrite Z.land_ones, Z.shiftr_div_pow2 by lia. rewrite Z.mul_comm, Z.pow_mul_r by lia. done.
Qed.

Lemma hex_value_digit n : 0 <= n < 16 -> hex_value (hex_digit n) = Some n.
Proof. intros Hn. assert (n ∈ range 0 16) as H by (apply elem_of_range; lia). cbn in H. repeat (apply elem_of_cons in H as [->|H]; [done|]). by apply elem_of_nil in H. Qed.

(** The digits of a number below 65536. *)
Lemma hex_small p : 0 <= p < 2 ^ 16 ->
  write_hex_u64 p = str "0x"%string ++ map hex_digit (if bool_decide (nib p 3 <> 0) then [nib p 3; nib p 2; nib p 1; nib p 0]
    else if bool_decide (nib p 2 <> 0) then [nib p 2; nib p 1; nib p 0] else if bool_decide (nib p 1 <> 0) then [nib p 1; nib p 0] else [nib p 0]).
Proof.
  intros Hp. unfold write_hex_u64. assert (forall k s, 4 <= k -> hex_step p (false, s) k = (false, s)) as Hskip.
  { intros k s Hk. unfold hex_step. fold (nib p k). rewrite nib_div by lia. rewrite Z.div_small, (proj2 (Z.eqb_neq k 0)); [done|lia|].
    pose proof (Z.pow_le_mono_r 16 4 k). change (16 ^ 4) with (2 ^ 16) in *. lia. }
  change (reverse (range 0 16)) with [15; 14; 13; 12; 11; 10; 9; 8; 7; 6; 5; 4; 3; 2; 1; 0]. cbn [foldl]. rewrite !Hskip by lia.
  unfold hex_step. fold (nib p 3) (nib p 2) (nib p 1) (nib p 0). cbn [fst snd].
  destruct (Z.eqb_spec (nib p 3) 0); destruct (Z.eqb_spec (nib p 2) 0); destruct (Z.eqb_spec (nib p 1) 0);
    cbn [negb orb fst snd]; rewrite ?orb_true_r; cbn [negb orb fst snd Z.eqb];
    repeat case_bool_decide; try lia; cbn [map]; rewrite <- ?app_assoc; done.
Qed.

(** Every port number the shell prints is read back as that port. *)
Lemma hex_roundtrip p : 0 <= p < 2 ^ 16 -> parse_hex_u16 (write_hex_u64 p) = Some p.
Proof.
  intros Hp. rewrite hex_small by done. assert (forall k, 0 <= k -> 0 <= nib p k < 16) as Hb.
  { intros k Hk. rewrite nib_div by done. apply Z.mod_pos_bound. lia. }
  assert (p = nib p 3 * 4096 + nib p 2 * 256 + nib p 1 * 16 + nib p 0) as Hsum.
  { rewrite !nib_div by lia. change (16 ^ 3) with 4096. change (16 ^ 2) with 256. change (16 ^ 1) with 16. change (16 ^ 0) with 1.
    rewrite (Z.mod_small (p / 4096)) by (split; [apply Z.div_pos; lia|apply Z.div_lt_upper_bound; lia]).
    replace (p / 4096) with (p / 16 / 16 / 16) by (by rewrite !Z.div_div by lia). replace (p / 256) with (p / 16 / 16) by (by rewrite !Z.div_div by lia).
    rewrite Z.div_1_r. Z.to_euclidean_division_equations. lia. }
  pose proof (Hb 0 ltac:(lia)). pose proof (Hb 1 ltac:(lia)). pose proof (Hb 2 ltac:(lia)). pose proof (Hb 3 ltac:(lia)).
  generalize dependent (nib p 3). generalize dependent (nib p 2). generalize dependent (nib p 1). generalize dependent (nib p 0).
  intros n0 H0 n1 H1 n2 H2 n3 Hsum H3. clear Hb.
  assert (forall v d l, 0 <= v * 16 + d < 2 ^ 16 -> 0 <= d < 16 ->
    foldM (fun v c => d ← hex_value c; let v := wrap 32 (v * 16 + d) in if 0xFFFF <? v then None else Some v) v (hex_digit d :: l) =
    foldM (fun v c => d ← hex_value c; let v := wrap 32 (v * 16 + d) in if 0xFFFF <? v then None else Some v) (v * 16 + d) l) as Hstep.
  { intros v d l Hv Hd. cbn [foldM]. rewrite hex_value_digit by done. cbn [mbind option_bind]. rewrite wrap_small by (unfold in_width; lia).
    destruct (Z.ltb_spec 0xFFFF (v * 16 + d)); [lia|done]. }
  unfold parse_hex_u16.
  repeat case_bool_decide; cbn [map]; change (hex_prefix (str "0x"%string ++ ?l)) with l; cbv iota; rewrite !Hstep by lia; cbn [foldM]; f_equal; lia.
Qed.

(** ** Lines *)

Lemma bytes_eq_true a b : bytes_eq a b = true <-> a = b.
Proof.
  revert b. induction a as [|x a IH]; intros [|y b]; cbn; try done.
  rewrite andb_true_iff, Z.eqb_eq, IH. split; [by intros [-> ->]|by intros [= -> ->]].
Qed.

Lemma contains_phrase_exact l q : contains_phrase l q = true <-> exists a b, l = a ++ q ++ b.
Proof.
  induction l as [|x l IH]; cbn [contains_phrase].
  - destruct q as [|y q]; cbn; [split; [by exists [], []|done]|]. split; [done|]. intros (a & b & H). by destruct a.
  - destruct (Nat.ltb_spec (length (x :: l)) (length q)) as [Hlt|Hge].
    { split; [done|]. intros (a & b & H). apply (f_equal length) in H. rewrite !length_app in H. cbn in *. lia. }
    rewrite orb_true_iff, bytes_eq_true, IH. split.
    + intros [H|(a & b & ->)]; [|by exists (x :: a), b]. exists [], (drop (length q) (x :: l)). cbn [app]. rewrite <- H at 1. by rewrite take_drop.
    + intros ([|y a] & b & H); [left; rewrite H; cbn [app]; apply take_app_length|]. right. injection H as -> ->. by exists a, b.
Qed.

(** The line a typist means: backspace takes back, what does not fit is dropped. *)
Definition line_edit (l : bytes) (b : Z) : bytes :=
  if is_backspace b then take (length l - 1) l else if (length l <? LINE_MAX)%nat then l ++ [b] else l.

Lemma read_line_exact inp : forall rest buf len nl, Forall (fun b => is_newline b = false) inp -> is_newline nl = true -> length buf = LINE_MAX ->
  (len <= LINE_MAX)%nat ->
  exists buf' len' echo, read_line (inp ++ nl :: rest) buf len = Some (buf', len', echo, rest) /\ length buf' = LINE_MAX /\ (len' <= LINE_MAX)%nat /\
    take len' buf' = foldl line_edit (take len buf) inp.
Proof.
  induction inp as [|b inp IH]; intros rest buf len nl Hinp Hnl Hbuf Hlen; cbn [app read_line foldl].
  { rewrite Hnl. by eexists _, _, _. }
  apply Forall_cons in Hinp as [Hb Hinp]. rewrite Hb. unfold line_edit at 2. rewrite length_take, Nat.min_l by lia. destruct (is_backspace b).
  - destruct len as [|len].
    + destruct (IH rest buf 0%nat nl) as (buf' & n & e & -> & H); [done..|]. by eexists _, _, _.
    + destruct (IH rest buf len nl) as (buf' & n & e & -> & Hl & Hn & Ht); [done|done|done|lia|]. cbn [mbind option_bind]. eexists _, _, _. split_and!; [done..|].
      rewrite Ht. f_equal. rewrite take_take. f_equal. lia.
  - destruct (Nat.ltb_spec len LINE_MAX) as [Hlt|Hge].
    + destruct (IH rest (<[len := b]> buf) (S len) nl) as (buf' & n & e & -> & Hl & Hn & Ht); [done|done|by rewrite length_insert|lia|].
      cbn [mbind option_bind]. eexists _, _, _. split_and!; [done..|]. rewrite Ht. f_equal.
      rewrite (take_S_r _ _ b) by (apply list_lookup_insert_eq; lia). by rewrite take_insert_ge.
    + destruct (IH rest buf len nl) as (buf' & n & e & -> & H); [done..|]. by eexists _, _, _.
Qed.

(** ** Tables *)

Lemma rows_exact {A B} (enc : A -> bytes) (decode : bytes -> nat -> B) (fields : A -> B) (row : B -> option act) es rest :
  (forall i e, es !! i = Some e -> decode (concat (enc <$> es) ++ rest) i = fields e) -> Z.of_nat (length es) <= MAX_ENTRIES ->
  rows decode row (Z.of_nat (length es)) (concat (enc <$> es) ++ rest) = mapM (fun e => row (fields e)) es.
Proof.
  intros Hd Hl. unfold rows. rewrite Z.min_l, Nat2Z.id by done. set (buf := concat (enc <$> es) ++ rest) in *. clearbody buf.
  assert (forall k es', (forall i e, es' !! i = Some e -> decode buf (k + i)%nat = fields e) ->
    mapM (fun i => row (decode buf i)) (seq k (length es')) = mapM (fun e => row (fields e)) es') as H; [|by apply (H 0%nat)].
  intros k es'. revert k. induction es' as [|e es' IH]; intros k Hk; [done|]. cbn [length seq mapM].
  rewrite <- (Nat.add_0_r k) at 1. rewrite (Hk 0%nat e eq_refl), IH; [done|]. intros i e' He'. rewrite <- (Hk (S i) e' He'). f_equal. lia.
Qed.

Section tables.
  Context (answer : Z -> Z * bytes) (rest : bytes).

Lemma cmd_ps_exact es : answer 7 = (Z.of_nat (length es), concat (thread_info_bytes <$> es) ++ rest) -> Z.of_nat (length es) <= MAX_ENTRIES -> Forall thread_info_ok es ->
  cmd_ps answer = r ← mapM (fun e => ps_row (ti_id e, ti_state e, ti_is_user e)) es; Some (Sys 7 :: line_of "  PID  STATE    USER"%string :: r).
Proof.
  intros Ha Hl Hok. unfold cmd_ps. rewrite Ha. unfold MAX_ENTRIES in Hl. destruct (Z.eqb_spec (Z.of_nat (length es)) U64_MAX) as [He|_]; [unfold U64_MAX in He; lia|].
  rewrite (rows_exact _ _ (fun e => (ti_id e, ti_state e, ti_is_user e))); [done| |done].
  intros i e He. apply (proj1 (records_roundtrip i rest) es e He). exact (Forall_lookup_1 _ _ _ _ Hok He).
Qed.

Lemma cmd_tools_exact es : answer 8 = (Z.of_nat (length es), concat (tool_descriptor_bytes <$> es) ++ rest) -> Z.of_nat (length es) <= MAX_ENTRIES -> Forall tool_ok es ->
  cmd_tools answer = r ← mapM (fun e => tools_row (syscall_num e, required_rights e, side_effecting e)) es;
    Some (Sys 8 :: line_of "  SYSCALL  REQUIRED_RIGHTS  SIDE_EFFECTING"%string :: r).
Proof.
  intros Ha Hl Hok. unfold cmd_tools. rewrite Ha. rewrite (rows_exact _ _ (fun e => (syscall_num e, required_rights e, side_effecting e))); [done| |done].
  intros i e He. apply (proj1 (proj2 (records_roundtrip i rest)) es e He). exact (Forall_lookup_1 _ _ _ _ Hok He).
Qed.

Lemma cmd_audit_exact es : es <> [] -> answer 9 = (Z.of_nat (length es), concat (audit_entry_bytes <$> es) ++ rest) -> Z.of_nat (length es) <= MAX_ENTRIES -> Forall audit_entry_ok es ->
  cmd_audit answer = r ← mapM (fun e => audit_row (ae_seq e, ae_kind e, ae_a e, ae_b e)) es; Some (Sys 9 :: r).
Proof.
  intros Hne Ha Hl Hok. unfold cmd_audit. rewrite Ha. unfold MAX_ENTRIES in Hl. destruct (Z.eqb_spec (Z.of_nat (length es)) U64_MAX) as [He|_]; [unfold U64_MAX in He; lia|].
  destruct (Z.eqb_spec (Z.of_nat (length es)) 0) as [He|_]; [destruct es; [done|cbn in He; lia]|].
  rewrite (rows_exact _ _ (fun e => (ae_seq e, ae_kind e, ae_a e, ae_b e))); [done| |done].
  intros i e He. apply (proj1 (proj2 (proj2 (records_roundtrip i rest))) es e He). exact (Forall_lookup_1 _ _ _ _ Hok He).
Qed.
End tables.

(** ** Intents *)

Lemma resolve_intent_commands l c : resolve_intent l = Some c -> c = PS \/ c = TOOLS \/ c = AUDIT.
Proof. unfold resolve_intent. repeat case_match; intros [= <-]; auto. Qed.

(** A request in English does what the command it stands for does when it is typed: after a line that says how it was understood, the
    same system calls and the same output. *)
Theorem intent_same_command answer port_in line c :
  is_command (split_first_word line).1 = false -> resolve_intent line = Some c ->
  shell_turn answer port_in line =
    '(r, alive) ← shell_turn answer port_in c; Some (Out (str "(interpreted as: "%string ++ c ++ str ")"%string ++ CRLF) :: r, alive).
Proof.
  intros Hc Hi. unfold shell_turn at 1. destruct (split_first_word line) as [cmd rest] eqn:E. cbn [fst] in Hc. rewrite Hc, Hi.
  destruct (resolve_intent_commands line c Hi) as [-> | [-> | ->]]; reflexivity.
Qed.

(** ** The session *)

(** What the shell does for a list of typed lines, until one of them kills it. *)
Fixpoint session (answer : Z -> Z * bytes) (port_in : Z -> option Z) (typed : list bytes) : option (list (list act) * bool) :=
  match typed with
  | [] => Some ([], true)
  | t :: typed =>
      '(r, alive) ← shell_turn answer port_in (foldl line_edit [] t);
      if (alive : bool) then '(rs, alive) ← session answer port_in typed; Some (r :: rs, alive) else Some ([r], false)
  end.

(** The actions that are not output. *)
Definition calls (l : list act) : list act := List.filter (fun a => match a with Out _ => false | _ => true end) l.

Lemma calls_app a b : calls (a ++ b) = calls a ++ calls b.
Proof. apply List.filter_app. Qed.

Lemma read_line_echo inp : forall buf len buf' len' echo rest, read_line inp buf len = Some (buf', len', echo, rest) -> calls echo = [].
Proof.
  induction inp as [|b inp IH]; intros buf len buf' len' echo rest H; [done|]. cbn [read_line] in H.
  destruct (is_newline b); [by injection H as <- <- <- <-|]. destruct (is_backspace b).
  - destruct len; [by eapply IH|]. destruct (read_line inp buf len) as [[[[? ?] ?] ?]|] eqn:E; cbn [mbind option_bind] in H; [|done]. injection H as <- <- <- <-. exact (IH _ _ _ _ _ _ E).
  - destruct (len <? LINE_MAX)%nat; [|by eapply IH].
    destruct (read_line inp _ _) as [[[[? ?] ?] ?]|] eqn:E; cbn [mbind option_bind] in H; [|done]. injection H as <- <- <- <-. exact (IH _ _ _ _ _ _ E).
Qed.

(** ** No panic *)

Lemma read_le_range n buf off : all_bytes buf -> in_width (8 * Z.of_nat n) (read_le n buf off).
Proof.
  intros Hb. unfold read_le. assert (forall m, (m <= n)%nat -> in_width (8 * Z.of_nat m)
    (foldl (fun v i => Z.lor v (Z.shiftl (default 0 (buf !! (off + i)%nat)) (Z.of_nat i * 8))) 0 (seq 0 m))) as H; [|by apply H].
  induction m as [|m IH]; intros Hm; [done|]. rewrite seq_S, foldl_app. cbn [foldl Nat.add]. apply in_width_lor; [lia|by eapply in_width_mono, IH; lia|].
  assert (is_byte (default 0 (buf !! (off + m)%nat))) as Hx.
  { destruct (buf !! (off + m)%nat) eqn:E; [exact (Forall_lookup_1 _ _ _ _ Hb E)|done]. }
  unfold is_byte in Hx. unfold in_width. rewrite Z.shiftl_mul_pow2 by lia. replace (8 * Z.of_nat (S m)) with (8 + Z.of_nat m * 8) by lia.
  rewrite Z.pow_add_r by lia. change (2 ^ 8) with 256. nia.
Qed.

Lemma dec_u32 buf off : all_bytes buf -> is_Some (write_u64_dec (read_u32_le buf off)).
Proof. intros Hb. apply write_u64_dec_some. pose proof (read_le_range 4 buf off Hb) as H. unfold in_width in H. unfold read_u32_le. cbn in *. lia. Qed.
Lemma dec_u64 buf off : all_bytes buf -> is_Some (write_u64_dec (read_u64_le buf off)).
Proof. intros Hb. apply write_u64_dec_some. exact (read_le_range 8 buf off Hb). Qed.

Lemma print_audit_event_some buf k a b : all_bytes buf -> is_Some (print_audit_event (read_u32_le buf k) (read_u32_le buf a) (read_u32_le buf b)).
Proof.
  intros Hb. destruct (dec_u32 buf a Hb) as [s Hs]. destruct (dec_u32 buf k Hb) as [s' Hs']. unfold print_audit_event.
  rewrite Hs, Hs'. cbn [mbind option_bind]. clear Hs Hs'. generalize (read_u32_le buf k). intros kind. repeat case_match; by eexists.
Qed.

Lemma rows_some {A} (decode : bytes -> nat -> A) (row : A -> option act) result buf : (forall i, is_Some (row (decode buf i))) ->
  is_Some (rows decode row result buf).
Proof. intros H. unfold rows. apply mapM_is_Some, Forall_forall. intros i _. apply H. Qed.

Lemma dispatch_some answer port_in cmd rest : (forall n, all_bytes (answer n).2) -> is_Some (dispatch answer port_in cmd rest).
Proof.
  intros Hb. unfold dispatch, cmd_ps, cmd_tools, cmd_audit. pose proof (Hb 7) as H7. pose proof (Hb 8) as H8. pose proof (Hb 9) as H9.
  destruct (answer 7) as [r7 b7], (answer 8) as [r8 b8], (answer 9) as [r9 b9]. cbn [snd] in *.
  assert (is_Some (rows decode_thread_info ps_row r7 b7)) as [l7 E7].
  { apply rows_some. intros i. unfold ps_row, decode_thread_info. destruct (dec_u64 b7 (i * 16) H7) as [s ->]. by eexists. }
  assert (is_Some (rows decode_tool_descriptor tools_row r8 b8)) as [l8 E8].
  { apply rows_some. intros i. unfold tools_row, decode_tool_descriptor. destruct (dec_u32 b8 (i * 16) H8) as [s ->]. by eexists. }
  assert (is_Some (rows decode_audit_entry audit_row r9 b9)) as [l9 E9].
  { apply rows_some. intros i. unfold audit_row, decode_audit_entry. destruct (dec_u64 b9 (i * 24) H9) as [s ->].
    destruct (print_audit_event_some b9 (i * 24 + 8) (i * 24 + 12) (i * 24 + 16) H9) as [s' ->]. by eexists. }
  rewrite E7, E8, E9. repeat case_match; by eexists.
Qed.

Lemma shell_turn_some answer port_in line : (forall n, all_bytes (answer n).2) -> is_Some (shell_turn answer port_in line).
Proof.
  intros Hb. unfold shell_turn. destruct (split_first_word line) as [cmd rest]. destruct (is_command cmd); [by apply dispatch_some|].
  destruct (resolve_intent line) as [c|]; [|by apply dispatch_some]. destruct (dispatch_some answer port_in c rest Hb) as [[r a] ->]. by eexists.
Qed.

(** Whatever is typed, line by line, and whatever the kernel answers, the shell never panics: the system calls and port reads it makes
    are exactly those of its lines as edited, in order, and it stops only where a port read kills it. *)
Theorem shell_runs_lines answer port_in typed buf :
  (forall n, all_bytes (answer n).2) -> Forall (Forall (fun b => is_newline b = false)) typed -> length buf = LINE_MAX ->
  exists l rs alive, shell_loop answer port_in (S (length typed)) (concat ((fun t => t ++ [13]) <$> typed)) buf = Some (l, alive) /\
    session answer port_in typed = Some (rs, alive) /\ calls l = concat (calls <$> rs).
Proof.
  intros Hb Hnl. revert buf. induction Hnl as [|t typed Ht _ IH]; intros buf Hl; [by exists [Out (str "agentos> "%string)], [], true|].
  cbn [length fmap list_fmap concat]. rewrite <- app_assoc. cbn [app].
  remember (S (length typed)) as turns. cbn [shell_loop session].
  destruct (read_line_exact t (concat ((fun t => t ++ [13]) <$> typed)) buf 0 13) as (buf' & n & echo & E & Hb' & Hn & Htk); [done|done|done|lia|].
  rewrite E. unfold rslice. rewrite decide_True by lia. cbn [mbind option_bind]. rewrite drop_0, Htk, take_0. pose proof (read_line_echo _ _ _ _ _ _ _ E) as He.
  destruct (shell_turn_some answer port_in (foldl line_edit [] t) Hb) as [[r alive] ->]. cbn [mbind option_bind]. destruct alive.
  - destruct (IH buf' Hb') as (l & rs & alive & -> & -> & Hc). cbn [mbind option_bind]. eexists _, _, _. split_and!; [done..|].
    cbn [calls List.filter]. fold (calls (echo ++ r ++ l)). rewrite !calls_app, He, Hc. done.
  - eexists _, _, _. split_and!; [done..|]. cbn [calls List.filter]. fold (calls (echo ++ r)). rewrite calls_app, He. cbn. by rewrite app_nil_r.
Qed.

(** ** Witnesses *)

Module ShellWitness.

Definition threads : list ThreadInfo := [mkThreadInfo 1 1 0; mkThreadInfo 12 0 1].
Definition answer (n : Z) : Z * bytes :=
  if n =? 7 then (2, concat (thread_info_bytes <$> threads) ++ replicate 64 0) else if n =? 9 then (U64_MAX, []) else (0, []).
Definition port_in (p : Z) : option Z := if (0x3F8 <=? p) && (p <=? 0x3FF) then Some 0x41 else None.

Definition english : bytes := str "please show me the processes"%string.

Lemma answer_bytes n : all_bytes (answer n).2.
Proof. unfold answer. destruct (n =? 7); [|destruct (n =? 9); constructor]. apply Forall_forall. intros x Hx. vm_compute in Hx. repeat (apply elem_of_cons in Hx as [->|Hx]; [done|]). by apply elem_of_nil in Hx. Qed.

Lemma intent_witness :
  shell_turn answer port_in english =
    '(r, alive) ← shell_turn answer port_in PS; Some (Out (str "(interpreted as: "%string ++ PS ++ str ")"%string ++ CRLF) :: r, alive).
Proof. exact (intent_same_command answer port_in english PS eq_refl eq_refl). Defined.

(** [pss] with a correction, then a port that is not granted, then a line that is never read. *)
Definition lines : list bytes := [str "pss"%string ++ [127]; str "rawin 0x60"%string; HELP].

Lemma lines_witness :
  exists l rs alive, shell_loop answer port_in 4 (concat ((fun t => t ++ [13]) <$> lines)) (replicate LINE_MAX 0) = Some (l, alive) /\
    session answer port_in lines = Some (rs, alive) /\ calls l = concat (calls <$> rs).
Proof. exact (shell_runs_lines answer port_in lines (replicate LINE_MAX 0) answer_bytes ltac:(by repeat constructor) eq_refl). Defined.

Example lines_calls :
  (fun r => (calls r.1, r.2)) <$> shell_loop answer port_in 4 (concat ((fun t => t ++ [13]) <$> lines)) (replicate LINE_MAX 0) =
    Some ([Sys 7; PortRead 0x60], false).
Proof. by vm_compute. Qed.

(** Process crashes, restarts and agent actions are events the shell does not know. *)
Example crash_unknown : print_audit_event (ae_kind (audit_entry (mkRecord 5 0 (EvProcessCrashed 3 14)))) 3 14 = Some (str "(unknown event kind 10)"%string).
Proof. by vm_compute. Qed.
End ShellWitness.
