(* ===== verification/Boot.v ===== *)
(** * The boot loader: loading and measuring the kernel

    [boot_rs/src/loader.rs] up to the jump: [load_kernel_elf] reads the kernel from the boot volume, places its segments at their
    physical addresses, hashes the file and compares the hash with [kernel.sig].  The firmware is an argument: which files open, what a
    read returns, which positions and which memory can be had.  What the loader relies on is that a read that succeeds returns the bytes
    of the file at that place (fewer at its end), which the class [Volume] states.

    What is loaded is what the file says, and a kernel whose hash differs from a readable signature is never started. *)

From S2P Require Import Prelude Bits Pmm Vmm Elf Crypto.
From Stdlib Require String.
Import (notations) String.

(** ** The firmware *)

Inductive volume_file := KernelElf | KernelSig | FontPsf.

(** Status codes are errors or not; a failed call returns nothing. *)
Record Firmware := mkFirmware {
  opens : volume_file -> bool;
  read_at : volume_file -> Z -> nat -> option bytes;
  set_position : volume_file -> Z -> bool;
  allocate_pool : Z -> bool;
  allocate_pages : Z -> Z -> bool }.

(** What the files hold, and what reading promises. *)
Class Volume (fw : Firmware) (disk : volume_file -> bytes) : Prop := {
  vol_read f pos len b : read_at fw f pos len = Some b -> b = take len (drop (Z.to_nat pos) (disk f)) }.

Definition LoadError : Type := String.string.

Definition KERNEL_VIRTUAL_BASE : Z := 0xFFFFFFFF80000000.

Record LoadedKernel := mkLoaded { lk_entry : Z; lk_start : Z; lk_end : Z; lk_sha256 : bytes }.

(** Memory, the position in the kernel's file, and the range loaded so far. *)
Record loading := mkLoading { MEMORY : Z -> Z; pos : Z; kernel_start : Z; kernel_end : Z }.

Section loader.
  Context (fw : Firmware).

(** [read_exact]: one read, and a short one is an error. *)
Definition read_exact (f : volume_file) (p : Z) (len : nat) : result bytes LoadError :=
  match read_at fw f p len with
  | Some b => if (length b =? len)%nat then Ok b else Err "short/failed file read"%string
  | None => Err "short/failed file read"%string
  end.

Definition ident_ok (e : Elf64Ehdr) : bool := bool_decide (take 4 (e_ident e) = [0x7F; 69; 76; 70]).

Definition header_ok (e : Elf64Ehdr) : bool :=
  bool_decide (e_ident e !! 4%nat = Some ELFCLASS64) && bool_decide (e_ident e !! 5%nat = Some ELFDATA2LSB) &&
  bool_decide (e_ident e !! 6%nat = Some EV_CURRENT) && (e_machine e =? EM_X86_64) && (e_phentsize e =? PHDR_SIZE) && negb (e_phnum e =? 0).

(** The header and the program headers. *)
Definition read_headers : option (result (Elf64Ehdr * bytes) LoadError) :=
  match read_exact KernelElf 0 EHDR_SIZE with
  | Err e => Some (Err e)
  | Ok b =>
      e ← read_ehdr b;
      if negb (ident_ok e) then Some (Err "not an ELF file"%string) else
      if negb (header_ok e) then Some (Err "unsupported ELF header"%string) else
      let phdrs_size := e_phnum e * e_phentsize e in
      if negb (allocate_pool fw phdrs_size) then Some (Err "AllocatePool(phdrs) failed"%string) else
      if negb (set_position fw KernelElf (e_phoff e)) then Some (Err "SetPosition(phoff) failed"%string) else
      match read_exact KernelElf (e_phoff e) (Z.to_nat phdrs_size) with
      | Err e => Some (Err e)
      | Ok phdrs => Some (Ok (e, phdrs))
      end
  end.

(** [write_bytes(bss, 0, n)]. *)
Definition zero_bytes (dst n : Z) (m : Z -> Z) : Z -> Z := fun a => if (dst <=? a) && (a <? dst + n) then 0 else m a.

(** One turn of the segment loop. *)
Definition load_phdr (ph : Elf64Phdr) (s : loading) : result loading LoadError :=
  if negb (p_type ph =? PT_LOAD) then Ok s else
  if (p_memsz ph =? 0) || (p_memsz ph <? p_filesz ph) then Err "PT_LOAD segment size invalid"%string else
  if (p_paddr ph =? 0) || (2 ^ 64 <=? p_paddr ph + p_memsz ph) then Err "PT_LOAD segment range invalid"%string else
  let pages := u64 (p_memsz ph + 0xFFF) / 0x1000 in
  if negb (allocate_pages fw (p_paddr ph) pages) then Err "AllocatePages(segment) failed"%string else
  if negb (set_position fw KernelElf (p_offset ph)) then Err "SetPosition(segment) failed"%string else
  match read_exact KernelElf (p_offset ph) (Z.to_nat (p_filesz ph)) with
  | Err e => Err e
  | Ok b =>
      let m := copy_bytes (p_paddr ph) b (MEMORY s) in
      let m := if p_filesz ph <? p_memsz ph then zero_bytes (p_paddr ph + p_filesz ph) (p_memsz ph - p_filesz ph) m else m in
      Ok (mkLoading m (p_offset ph + Z.of_nat (length b)) (Z.min (p_paddr ph) (kernel_start s)) (Z.max (p_paddr ph + p_memsz ph) (kernel_end s)))
  end.

Fixpoint load_phdrs (phs : list Elf64Phdr) (s : loading) : result loading LoadError :=
  match phs with
  | [] => Ok s
  | ph :: phs => match load_phdr ph s with Err e => Err e | Ok s => load_phdrs phs s end
  end.

Definition phdr_table (e : Elf64Ehdr) (phdrs : bytes) : option (list Elf64Phdr) :=
  mapM (fun i => read_phdr phdrs (i * 56)) (seq 0 (Z.to_nat (e_phnum e))).

(** The hash loop: until a read fails or returns nothing. *)
Fixpoint hash_loop (fuel : nat) (p : Z) (hasher : Sha256) : option Sha256 :=
  match fuel with
  | O => None
  | S fuel =>
      match read_at fw KernelElf p 512 with
      | None | Some [] => Some hasher
      | Some b => hasher ← update hasher b; hash_loop fuel (p + Z.of_nat (length b)) hasher
      end
  end.

(** The comparison with [kernel.sig]. *)
Definition check_signature (sha256 : bytes) : option LoadError :=
  if opens fw KernelSig then
    match read_exact KernelSig 0 32 with
    | Ok expected => if negb (constant_time_eq sha256 expected) then Some "SECURE_BOOT_VIOLATION: KERNEL_HASH_MISMATCH"%string else None
    | Err _ => None
    end
  else None.

Definition load_kernel_elf (fuel : nat) (m : Z -> Z) : option (result ((Z -> Z) * LoadedKernel) LoadError) :=
  if negb (opens fw KernelElf) then Some (Err "file Open failed"%string) else
  h ← read_headers;
  match h with
  | Err e => Some (Err e)
  | Ok (e, phdrs) =>
      phs ← phdr_table e phdrs;
      match load_phdrs phs (mkLoading m (e_phoff e + Z.of_nat (length phdrs)) (2 ^ 64 - 1) 0) with
      | Err e => Some (Err e)
      | Ok s =>
          let vaddr_start := u64 (kernel_start s + KERNEL_VIRTUAL_BASE) in
          let vaddr_end := u64 (kernel_end s + KERNEL_VIRTUAL_BASE) in
          if (e_entry e <? vaddr_start) || (vaddr_end <=? e_entry e) then Some (Err "entry point outside loaded kernel"%string) else
          let start := if set_position fw KernelElf 0 then 0 else pos s in
          hasher ← hash_loop fuel start sha_new;
          sha256 ← finalize hasher;
          match check_signature sha256 with
          | Some e => Some (Err e)
          | None => Some (Ok (MEMORY s, mkLoaded (e_entry e) (kernel_start s) (kernel_end s) sha256))
          end
      end
  end.
End loader.

(** ** What it means to be loaded *)

Definition loads (ph : Elf64Phdr) : Prop := p_type ph = PT_LOAD.

(** The byte of a segment at a physical address. *)
Definition segment_byte (file : bytes) (ph : Elf64Phdr) (a : Z) : Z :=
  if a <? p_paddr ph + p_filesz ph then default 0 (file !! Z.to_nat (p_offset ph + (a - p_paddr ph))) else 0.

Definition in_segment (ph : Elf64Phdr) (a : Z) : Prop := loads ph /\ p_paddr ph <= a < p_paddr ph + p_memsz ph.

(** No two segments overlap. *)
Fixpoint separate (phs : list Elf64Phdr) : Prop :=
  match phs with
  | [] => True
  | ph :: r => (forall ph' a, ph' ∈ r -> in_segment ph a -> ~ in_segment ph' a) /\ separate r
  end.

Definition phdr_wf (ph : Elf64Phdr) : Prop := 0 <= p_paddr ph /\ 0 <= p_offset ph /\ 0 <= p_filesz ph /\ 0 <= p_memsz ph.

Section volume.
  Context (fw : Firmware) (disk : volume_file -> bytes) `{!Volume fw disk}.

Lemma read_exact_Ok f p len b : read_exact fw f p len = Ok b -> b = take len (drop (Z.to_nat p) (disk f)) /\ length b = len.
Proof using All.
  unfold read_exact. destruct (read_at fw f p len) as [b'|] eqn:E; [|done]. destruct (Nat.eqb_spec (length b') len); [|done].
  intros [= <-]. split; [by apply (vol_read (fw := fw))|done].
Qed.

Lemma load_phdr_Ok ph s s' : phdr_wf ph -> load_phdr fw ph s = Ok s' ->
  (forall a, in_segment ph a -> MEMORY s' a = segment_byte (disk KernelElf) ph a) /\
  (forall a, ~ in_segment ph a -> MEMORY s' a = MEMORY s a) /\
  (loads ph -> kernel_start s' <= p_paddr ph /\ p_paddr ph + p_memsz ph <= kernel_end s' /\ p_paddr ph <> 0 /\ p_paddr ph + p_memsz ph < 2 ^ 64) /\
  kernel_start s' <= kernel_start s /\ kernel_end s <= kernel_end s'.
Proof using All.
  intros (Hp & Ho & Hf & Hm). unfold load_phdr, in_segment, loads. destruct (Z.eqb_spec (p_type ph) PT_LOAD) as [Ht|Ht]; cbn [negb].
  2: { intros [= <-]. split_and!; [by intros a [? _]|done|done|lia|lia]. }
  destruct (_ || _) eqn:E1; [done|]. destruct ((p_paddr ph =? 0) || _) eqn:E2; [done|]. destruct (negb _); [done|]. destruct (negb _); [done|].
  destruct (read_exact fw KernelElf _ _) as [b|] eqn:Er; [|done]. apply read_exact_Ok in Er as [Hb Hl]. intros [= <-]. bool_to_prop. cbn [MEMORY kernel_start kernel_end].
  assert (forall a, p_paddr ph <= a < p_paddr ph + p_filesz ph -> default 0 (b !! Z.to_nat (a - p_paddr ph)) = default 0 (disk KernelElf !! Z.to_nat (p_offset ph + (a - p_paddr ph)))) as Hbyte.
  { intros a Ha. rewrite Hb, lookup_take, decide_True, lookup_drop by lia. do 2 f_equal. lia. }
  assert (forall a, (if p_filesz ph <? p_memsz ph then zero_bytes (p_paddr ph + p_filesz ph) (p_memsz ph - p_filesz ph) (copy_bytes (p_paddr ph) b (MEMORY s))
     else copy_bytes (p_paddr ph) b (MEMORY s)) a = if bool_decide (p_paddr ph <= a < p_paddr ph + p_memsz ph) then segment_byte (disk KernelElf) ph a else MEMORY s a) as Hmem.
  { intros a. unfold zero_bytes, copy_bytes, segment_byte. rewrite Hl, Z2Nat.id by done.
    destruct (Z.ltb_spec (p_filesz ph) (p_memsz ph)); case_bool_decide;
    repeat match goal with |- context [?x <=? ?y] => destruct (Z.leb_spec x y) | |- context [?x <? ?y] => destruct (Z.ltb_spec x y) end; cbn [andb]; try lia; try done; apply Hbyte; lia. }
  split_and!; [intros a [_ Ha]; rewrite Hmem; by rewrite bool_decide_eq_true_2|intros a Ha; rewrite Hmem; rewrite bool_decide_eq_false_2; [done|naive_solver]|intros _; lia|lia|lia].
Qed.

Lemma load_phdrs_Ok phs s s' : Forall phdr_wf phs -> load_phdrs fw phs s = Ok s' ->
  (separate phs -> forall ph a, ph ∈ phs -> in_segment ph a -> MEMORY s' a = segment_byte (disk KernelElf) ph a) /\
  (forall a, (forall ph, ph ∈ phs -> ~ in_segment ph a) -> MEMORY s' a = MEMORY s a) /\
  (forall ph, ph ∈ phs -> loads ph -> kernel_start s' <= p_paddr ph /\ p_paddr ph + p_memsz ph <= kernel_end s' /\ p_paddr ph <> 0 /\ p_paddr ph + p_memsz ph < 2 ^ 64) /\
  kernel_start s' <= kernel_start s /\ kernel_end s <= kernel_end s'.
Proof using All.
  intros Hwf. revert s. induction Hwf as [|ph phs Hph _ IH]; intros s H; cbn [load_phdrs] in H.
  { injection H as <-. split_and!; [by intros _ ph a Hp%elem_of_nil|done|by intros ph Hp%elem_of_nil|lia|lia]. }
  destruct (load_phdr fw ph s) as [s1|] eqn:E; [|done]. destruct (load_phdr_Ok ph s s1 Hph E) as (A1 & A2 & A3 & A4 & A5).
  destruct (IH s1 H) as (B1 & B2 & B3 & B4 & B5). split_and!; [| | |lia|lia].
  - intros [Hs1 Hs2] ph' a Hin Ha. apply elem_of_cons in Hin as [->|Hin]; [|by apply B1].
    rewrite B2; [by apply A1|]. intros ph' Hin'. by apply (Hs1 ph' a).
  - intros a Ha. rewrite B2 by (intros; apply Ha; set_solver). apply A2, Ha. set_solver.
  - intros ph' Hin Hl. apply elem_of_cons in Hin as [->|Hin]; [|by apply B3]. specialize (A3 Hl). lia.
Qed.

(** Reading the kernel never fails inside the file. *)
Definition reliable : Prop := forall p len, 0 <= p <= Z.of_nat (length (disk KernelElf)) -> read_at fw KernelElf p len <> None.

Lemma hash_loop_spec fuel : forall p h m, hasher_ok h m -> 0 <= p -> (length (disk KernelElf) - Z.to_nat p < fuel)%nat ->
  exists h' m', hash_loop fw fuel p h = Some h' /\ hasher_ok h' m' /\
    (reliable -> p <= Z.of_nat (length (disk KernelElf)) -> m' = m ++ drop (Z.to_nat p) (disk KernelElf)).
Proof using All.
  induction fuel as [|fuel IH]; intros p h m Hh Hp Hf; [lia|]. cbn [hash_loop]. destruct (read_at fw KernelElf p 512) as [b|] eqn:E.
  2: { exists h, m. split_and!; [done..|]. intros Hr Hle. by destruct (Hr p 512%nat ltac:(lia)). }
  pose proof (vol_read (fw := fw) KernelElf p 512 b E) as Hb. destruct b as [|x b].
  { exists h, m. split_and!; [done..|]. intros Hr Hle. apply (f_equal length) in Hb. rewrite length_take, length_drop in Hb. cbn [length] in Hb.
    rewrite drop_ge by lia. by rewrite app_nil_r. }
  destruct (update_spec h m (x :: b) Hh) as (h1 & -> & Hh1). cbn [mbind option_bind].
  assert (length (x :: b) = Nat.min 512 (length (disk KernelElf) - Z.to_nat p)) as Hlb by (rewrite Hb, length_take, length_drop; done).
  assert (0 < length (x :: b))%nat as H0 by (cbn; lia). remember (x :: b) as bb eqn:Ebb. clear Ebb x b.
  destruct (IH (p + Z.of_nat (length bb)) h1 (m ++ bb) Hh1 ltac:(lia)) as (h' & m' & -> & Hh' & Hm); [lia|].
  exists h', m'. split_and!; [done..|]. intros Hr Hle. rewrite Hm by (done || lia). rewrite <- app_assoc. f_equal.
  replace (Z.to_nat (p + Z.of_nat (length bb))) with (Z.to_nat p + length bb)%nat by lia. rewrite <- drop_drop.
  rewrite Hb at 1. destruct (decide (512 <= length (disk KernelElf) - Z.to_nat p)%nat).
  - replace (length bb) with 512%nat by lia. apply take_drop.
  - rewrite take_ge by (rewrite length_drop; lia). rewrite (drop_ge _ (length bb)) by (rewrite length_drop; lia). by rewrite app_nil_r.
Qed.

(** ** Headers *)

Lemma read_ehdr_some b : length b = EHDR_SIZE -> is_Some (read_ehdr b).
Proof using Type.
  intros Hl. unfold EHDR_SIZE in Hl. unfold read_ehdr, rslice. rewrite decide_True by lia. cbn [mbind option_bind].
  repeat match goal with |- context [rle ?n b ?o] => let v := fresh in destruct (rle_is_Some n b o ltac:(lia)) as [v ->]; cbn [mbind option_bind] end. by eexists.
Qed.

Lemma read_phdr_some b off : (off + 56 <= length b)%nat -> is_Some (read_phdr b off).
Proof using Type.
  intros Hl. unfold read_phdr.
  repeat match goal with |- context [rle ?n b ?o] => let v := fresh in destruct (rle_is_Some n b o ltac:(lia)) as [v ->]; cbn [mbind option_bind] end. by eexists.
Qed.

Lemma read_phdr_wf b off ph : all_bytes b -> read_phdr b off = Some ph -> phdr_wf ph.
Proof using Type.
  intros Hb H. unfold read_phdr in H. bind_inv.
  repeat match goal with E : rle ?n b ?o = Some ?v |- _ => pose proof (rle_range n b o v Hb E) as [? _]; clear E end. by split_and!.
Qed.

Lemma phdr_table_some e phdrs : length phdrs = Z.to_nat (e_phnum e * 56) -> 0 <= e_phnum e -> all_bytes phdrs ->
  exists phs, phdr_table e phdrs = Some phs /\ Forall phdr_wf phs.
Proof using Type.
  intros Hl Hn Hb. unfold phdr_table. assert (is_Some (mapM (fun i => read_phdr phdrs (i * 56)) (seq 0 (Z.to_nat (e_phnum e))))) as [phs Hphs].
  { apply mapM_is_Some, Forall_forall. intros i Hi%elem_of_seq. apply read_phdr_some. lia. }
  exists phs. split; [done|]. apply mapM_Some in Hphs. apply Forall_lookup. intros i ph Hi.
  destruct (Forall2_lookup_r _ _ _ _ _ Hphs Hi) as (j & _ & Hj). by eapply read_phdr_wf.
Qed.

Lemma read_ehdr_nonneg b e : all_bytes b -> read_ehdr b = Some e -> 0 <= e_phnum e /\ 0 <= e_phoff e.
Proof using Type.
  intros Hb H. unfold read_ehdr in H. bind_inv.
  repeat match goal with E : rle ?n b ?o = Some ?v |- _ => pose proof (rle_range n b o v Hb E) as [? _]; clear E end. done.
Qed.
End volume.

(** ** The kernel that is started *)

(** The program headers of a kernel file. *)
Definition kernel_phdrs (file : bytes) (e : Elf64Ehdr) : option (list Elf64Phdr) :=
  phdr_table e (take (Z.to_nat (e_phnum e * e_phentsize e)) (drop (Z.to_nat (e_phoff e)) file)).

(** What a successful load establishes. *)
Record booted (fw : Firmware) (disk : volume_file -> bytes) (m m' : Z -> Z) (k : LoadedKernel) (e : Elf64Ehdr) (phs : list Elf64Phdr) : Prop := {
  bt_headers : read_ehdr (take EHDR_SIZE (disk KernelElf)) = Some e /\ kernel_phdrs (disk KernelElf) e = Some phs;
  bt_entry : lk_entry k = e_entry e /\ u64 (lk_start k + KERNEL_VIRTUAL_BASE) <= lk_entry k < u64 (lk_end k + KERNEL_VIRTUAL_BASE);
  bt_image : separate phs -> forall ph a, ph ∈ phs -> in_segment ph a -> m' a = segment_byte (disk KernelElf) ph a;
  bt_other : forall a, (forall ph, ph ∈ phs -> ~ in_segment ph a) -> m' a = m a;
  bt_range : forall ph, ph ∈ phs -> loads ph -> lk_start k <= p_paddr ph /\ p_paddr ph + p_memsz ph <= lk_end k /\ p_paddr ph <> 0;
  bt_measured : reliable fw disk -> set_position fw KernelElf 0 = true -> lk_sha256 k = sha256_ref (disk KernelElf);
  bt_signed : opens fw KernelSig = true -> is_ok (read_exact fw KernelSig 0 32) = true -> lk_sha256 k = take 32 (disk KernelSig) }.

Section boot.
  Context (fw : Firmware) (disk : volume_file -> bytes) `{!Volume fw disk} (Hbytes : all_bytes (disk KernelElf)).

Lemma read_headers_cases : exists r, read_headers fw = Some r /\ forall e phdrs, r = Ok (e, phdrs) ->
  read_ehdr (take EHDR_SIZE (disk KernelElf)) = Some e /\ phdrs = take (Z.to_nat (e_phnum e * e_phentsize e)) (drop (Z.to_nat (e_phoff e)) (disk KernelElf)) /\
  length phdrs = Z.to_nat (e_phnum e * 56) /\ 0 <= e_phnum e /\ 0 <= e_phoff e.
Proof using All.
  unfold read_headers. destruct (read_exact fw KernelElf 0 EHDR_SIZE) as [b|] eqn:E; [|by eexists].
  apply read_exact_Ok with (disk := disk) in E as [Hb Hl]; [|done]. change (Z.to_nat 0) with 0%nat in Hb. rewrite drop_0 in Hb.
  destruct (read_ehdr_some b Hl) as [e He]. rewrite He. cbn [mbind option_bind].
  destruct (negb (ident_ok e)); [by eexists|]. destruct (header_ok e) eqn:Hh; cbn [negb]; [|by eexists].
  destruct (negb (allocate_pool _ _)); [by eexists|]. destruct (negb (set_position _ _ _)); [by eexists|].
  destruct (read_exact fw KernelElf (e_phoff e) _) as [phdrs|] eqn:E2; [|by eexists]. eexists. split; [done|]. intros e' phdrs' [= <- <-].
  apply read_exact_Ok with (disk := disk) in E2 as [Hp Hlp]; [|done].
  assert (e_phentsize e = 56) as H56 by (unfold header_ok in Hh; bool_to_prop; done).
  destruct (read_ehdr_nonneg b e) as [Hn Ho]; [rewrite Hb; by apply Forall_take|done|]. rewrite <- Hb. by rewrite H56 in *.
Qed.

Lemma load_phdrs_pos phs s s' : Forall phdr_wf phs -> 0 <= pos s -> load_phdrs fw phs s = Ok s' -> 0 <= pos s'.
Proof using Type.
  intros Hwf. revert s. induction Hwf as [|ph phs (_ & Ho & _) _ IH]; intros s Hs H; cbn [load_phdrs] in H; [by injection H as <-|].
  destruct (load_phdr fw ph s) as [s1|] eqn:E; [|done]. apply (IH s1); [|done]. unfold load_phdr in E.
  repeat (case_match; simplify_eq; try done); cbn [pos] in *; lia.
Qed.

Lemma load_kernel_cases fuel m : (length (disk KernelElf) < fuel)%nat ->
  exists r, load_kernel_elf fw fuel m = Some r /\ forall m' k, r = Ok (m', k) -> exists e phs, booted fw disk m m' k e phs.
Proof using All.
  intros Hf. unfold load_kernel_elf. destruct (negb (opens fw KernelElf)); [by eexists|].
  destruct read_headers_cases as (r & -> & Hr). cbn [mbind option_bind]. destruct r as [[e phdrs]|]; [|by eexists].
  destruct (Hr e phdrs eq_refl) as (He & Hp & Hl & Hn & Ho). destruct (phdr_table_some e phdrs) as (phs & Hphs & Hwf); [done|done|rewrite Hp; by apply Forall_take, Forall_drop|].
  rewrite Hphs. cbn [mbind option_bind]. destruct (load_phdrs fw phs _) as [s|] eqn:El; [|by eexists].
  destruct (load_phdrs_Ok fw disk phs _ s Hwf El) as (H1 & H2 & H3 & _). destruct (_ || _) eqn:Ee; [by eexists|]. bool_to_prop.
  set (start := if set_position fw KernelElf 0 then 0 else pos s).
  assert (0 <= start) as Hs0. { subst start. destruct (set_position fw KernelElf 0); [lia|]. apply (load_phdrs_pos _ _ _ Hwf) in El; cbn [pos]; lia. }
  destruct (hash_loop_spec fw disk fuel start sha_new [] new_ok Hs0) as (h & b & -> & Hh & Hm); [lia|]. cbn [mbind option_bind].
  rewrite (finalize_spec h b Hh). cbn [mbind option_bind]. destruct (check_signature fw (sha256_ref b)) as [err|] eqn:Es; [by eexists|].
  eexists. split; [done|]. intros m' k [= <- <-]. exists e, phs. split; cbn [lk_entry lk_start lk_end lk_sha256].
  - split; [done|]. unfold kernel_phdrs. by rewrite <- Hp.
  - split; [done|lia].
  - exact H1.
  - exact H2.
  - intros ph Hin Hld. destruct (H3 ph Hin Hld) as (? & ? & ? & _). done.
  - intros Hrel Hpos. rewrite (Hm Hrel); subst start; rewrite Hpos; [|lia]. done.
  - intros Hopen Hok. unfold check_signature in Es. rewrite Hopen in Es. destruct (read_exact fw KernelSig 0 32) as [x|] eqn:Ex; [|done].
    apply read_exact_Ok with (disk := disk) in Ex as [Hx _]; [|done]. rewrite constant_time_eq_spec in Es. case_bool_decide as Hc; [|done]. rewrite Hc, Hx. done.
Qed.

(** The kernel that is started.  Whatever the boot volume holds and whichever firmware calls fail, loading ends, with an error or with a
    kernel.  Of a kernel it starts, every segment is in memory at its physical address as the file has it, followed by zeros, and
    nothing else is written (segments that do not overlap); the entry point lies in the range of the segments; the digest is the SHA-256
    of the file, unless a read failed while hashing; and if [kernel.sig] opens and 32 bytes of it can be read, they are that digest. *)
Theorem load_kernel_exact fuel m : (length (disk KernelElf) < fuel)%nat ->
  exists r, load_kernel_elf fw fuel m = Some r /\ forall m' k, r = Ok (m', k) -> exists e phs, booted fw disk m m' k e phs.
Proof using All. exact (load_kernel_cases fuel m). Qed.
End boot.

Module BootWitness.

(** A kernel of one segment: five bytes of code at 2 MiB, sixteen in memory. *)
Definition kernel : bytes :=
  [0x7f; 69; 76; 70; 2; 1; 1] ++ replicate 9 0 ++ le_bytes 2 2 ++ le_bytes 2 62 ++ le_bytes 4 1 ++
  le_bytes 8 (KERNEL_VIRTUAL_BASE + 0x200000) ++ le_bytes 8 64 ++ le_bytes 12 0 ++ le_bytes 2 64 ++ le_bytes 2 56 ++ le_bytes 2 1 ++ le_bytes 6 0 ++
  le_bytes 4 1 ++ le_bytes 4 5 ++ le_bytes 8 120 ++ le_bytes 8 (KERNEL_VIRTUAL_BASE + 0x200000) ++ le_bytes 8 0x200000 ++ le_bytes 8 5 ++ le_bytes 8 16 ++
  le_bytes 8 4096 ++ [0x90; 0x90; 0x90; 0x0f; 0x05].

Definition volume (sig : bytes) (f : volume_file) : bytes := match f with KernelElf => kernel | KernelSig => sig | FontPsf => [] end.
Definition firmware (sig : bytes) : Firmware :=
  mkFirmware (fun _ => true) (fun f p len => Some (take len (drop (Z.to_nat p) (volume sig f)))) (fun _ _ => true) (fun _ => true) (fun _ _ => true).

#[export] Instance volume_of sig : Volume (firmware sig) (volume sig).
Proof. constructor. by intros f p len b [= <-]. Qed.

Definition signature : bytes := Eval vm_compute in default [] (digest kernel).

Lemma kernel_bytes : all_bytes (volume signature KernelElf).
Proof. vm_compute. repeat (apply Forall_cons_2; [split; [discriminate|reflexivity]|]). apply Forall_nil_2. Qed.

Definition started (sig : bytes) : option LoadError + LoadedKernel :=
  match load_kernel_elf (firmware sig) 200 (fun _ => 7) with Some (Ok (_, k)) => inr k | Some (Err e) => inl (Some e) | None => inl None end.

Example signed_kernel_starts : started signature = inr (mkLoaded (KERNEL_VIRTUAL_BASE + 0x200000) 0x200000 0x200010 signature).
Proof. by vm_compute. Qed.

Example changed_kernel_refused : started (replicate 32 0) = inl (Some "SECURE_BOOT_VIOLATION: KERNEL_HASH_MISMATCH"%string).
Proof. by vm_compute. Qed.

(** A signature file one byte short is not compared at all. *)
Example short_signature_starts : started (replicate 31 0) = started signature.
Proof. by vm_compute. Qed.

Lemma boot_witness : (length (volume signature KernelElf) < 200)%nat /\
  exists r, load_kernel_elf (firmware signature) 200 (fun _ => 7) = Some r /\
    forall m' k, r = Ok (m', k) -> exists e phs, booted (firmware signature) (volume signature) (fun _ => 7) m' k e phs.
Proof.
  assert (length (volume signature KernelElf) < 200)%nat as Hl by (vm_compute; lia). split; [exact Hl|].
  exact (load_kernel_exact (firmware signature) (volume signature) kernel_bytes 200 (fun _ => 7) Hl).
Defined.
End BootWitness.
