(* ===== verification/Bootstrap.v ===== *)
(** * The bootstrap page tables

    [boot_rs/src/bootstrap_paging.rs]: the tables the boot loader builds after leaving the firmware and installs before it jumps to the
    kernel.  Memory is the bytes of physical memory, read and written through an identity mapping; the pool hands out zeroed pages, and
    an exhausted pool halts the machine ([None] here).

    The tables are exactly what the loader needs: every address of the firmware's memory map translates to itself and every address of the
    kernel's range to the place it was loaded at, while nothing outside the pool is written. *)

From S2P Require Import Prelude Bits Pmm Vmm.

(** ** The pool *)

Definition PAGE_HUGE : Z := Z.shiftl 1 7.
Definition ADDR_MASK_2MB : Z := 0x000FFFFFFFE00000.
Definition ADDR_MASK_4K : Z := 0x000FFFFFFFFFF000.

(** [TablePool] with the memory it hands out. *)
Record TablePool := mkPool { RAM : Z -> Z; base : Z; used_pages : Z; total_pages : Z }.

Definition set_ram (m : Z -> Z) (p : TablePool) : TablePool := mkPool m (base p) (used_pages p) (total_pages p).

Definition pool_next (p : TablePool) : option (TablePool * Z) :=
  if total_pages p <=? used_pages p then None else
  let addr := u64 (base p + used_pages p * 4096) in
  Some (mkPool (zero_page addr (RAM p)) (base p) (used_pages p + 1) (total_pages p), addr).

Definition indices (vaddr : Z) : Z * Z * Z :=
  let pd := Z.land (Z.shiftr vaddr 21) 0x1ff in
  let pdpt := Z.land (Z.shiftr vaddr 30) 0x1ff in
  let pml4 := Z.land (Z.shiftr vaddr 39) 0x1ff in
  (pml4, pdpt, pd).

Definition indices_4k (vaddr : Z) : Z * Z * Z * Z :=
  let pt := Z.land (Z.shiftr vaddr 12) 0x1ff in let '(pml4, pdpt, pd) := indices vaddr in (pml4, pdpt, pd, pt).

(** [if *table.add(i) & PAGE_PRESENT == 0 { *table.add(i) = pool.next() | ...; }] and the table it names. *)
Definition descend (table i : Z) (p : TablePool) : option (TablePool * Z) :=
  p ← (if Z.land (entry (RAM p) table i) PAGE_PRESENT =? 0 then
         '(p, new) ← pool_next p; Some (set_ram (wr64 (RAM p) (table + 8 * i) (Z.lor (Z.lor new PAGE_PRESENT) PAGE_WRITABLE)) p)
       else Some p);
  Some (p, Z.land (entry (RAM p) table i) ADDR_MASK_4K).

Definition walk_to_pd (pml4_phys vaddr : Z) (p : TablePool) : option (TablePool * Z) :=
  let '(i4, i3, _) := indices vaddr in
  '(p, pdpt) ← descend pml4_phys i4 p; descend pdpt i3 p.

Definition map_2mb (pml4_phys vaddr paddr : Z) (p : TablePool) : option TablePool :=
  '(p, pd) ← walk_to_pd pml4_phys vaddr p;
  let '(_, _, i2) := indices vaddr in
  Some (set_ram (wr64 (RAM p) (pd + 8 * i2) (Z.lor (Z.lor (Z.lor (Z.land paddr ADDR_MASK_2MB) PAGE_PRESENT) PAGE_WRITABLE) PAGE_HUGE)) p).

Definition map_4k (pml4_phys vaddr paddr : Z) (p : TablePool) : option TablePool :=
  let '(i4, i3, i2, i1) := indices_4k vaddr in
  '(p, pdpt) ← descend pml4_phys i4 p; '(p, pd) ← descend pdpt i3 p; '(p, pt) ← descend pd i2 p;
  Some (set_ram (wr64 (RAM p) (pt + 8 * i1) (Z.lor (Z.lor (Z.land paddr ADDR_MASK_4K) PAGE_PRESENT) PAGE_WRITABLE)) p).

(** [while addr < end { ...; addr += step; }], both ends being multiples of [step]. *)
Definition steps (start end_ step : Z) : list Z := (fun k => start + k * step) <$> range 0 ((end_ - start) / step).

(** One descriptor of the memory map. *)
Definition map_descriptor (pml4_phys : Z) (p : TablePool) (d : EfiMemoryDescriptor) : option TablePool :=
  if number_of_pages d =? 0 then Some p else
  let start := physical_start d in
  let len := u64 (number_of_pages d * 4096) in
  let end_ := u64 (start + len) in
  let start_aligned := Z.land start (wnot 64 0x1FFFFF) in
  let end_aligned := Z.land (u64 (end_ + 0x1FFFFF)) (wnot 64 0x1FFFFF) in
  foldM (fun p addr => map_2mb pml4_phys addr addr p) p (steps start_aligned end_aligned 0x200000).

Definition build (memory_map : list EfiMemoryDescriptor) (kernel_paddr_start kernel_paddr_end kernel_vaddr_start : Z) (p : TablePool)
  : option (TablePool * Z) :=
  '(p, pml4_phys) ← pool_next p;
  p ← foldM (map_descriptor pml4_phys) p memory_map;
  let offset := u64 (kernel_vaddr_start - kernel_paddr_start) in
  let paddr := Z.land kernel_paddr_start (wnot 64 0xFFF) in
  let end_ := Z.land (u64 (kernel_paddr_end + 0xFFF)) (wnot 64 0xFFF) in
  p ← foldM (fun p paddr => map_4k pml4_phys (u64 (paddr + offset)) paddr p) p (steps paddr end_ 0x1000);
  Some (p, pml4_phys).

(** ** The processor's walk *)

Definition hw_next (m : Z -> Z) (table i : Z) : option Z :=
  let e := entry m table i in if Z.land e PAGE_PRESENT =? 0 then None else Some e.

Definition hw_translate (m : Z -> Z) (root v : Z) : option Z :=
  let '(i4, i3, i2, i1) := indices_4k v in
  e4 ← hw_next m root i4; e3 ← hw_next m (Z.land e4 ADDR_MASK_4K) i3; e2 ← hw_next m (Z.land e3 ADDR_MASK_4K) i2;
  if negb (Z.land e2 PAGE_HUGE =? 0) then Some (Z.land e2 ADDR_MASK_2MB + v mod 0x200000)
  else e1 ← hw_next m (Z.land e2 ADDR_MASK_4K) i1; Some (Z.land e1 ADDR_MASK_4K + v mod 0x1000).

(** ** The tables as a set of paths

    The pages of the pool in use are tables, each for one path of indices from the root; [T] lists the paths in the order of the pages and
    [L] gives the entries that map memory. *)

Section tables.
  Context (B N : Z) (HB : is_frame B) (HN : B + N * 4096 <= 2 ^ 52).
  (** The paths that will be needed. *)
  Context (U : list (list Z)) (HU : Z.of_nat (length U) <= N).

Definition page (k : nat) : Z := B + Z.of_nat k * 4096.
Definition link (k : nat) : Z := Z.lor (Z.lor (page k) PAGE_PRESENT) PAGE_WRITABLE.

Record inv (p : TablePool) (T : list (list Z)) (L : list Z -> option Z) : Prop := {
  i_pool : base p = B /\ total_pages p = N /\ used_pages p = Z.of_nat (length T);
  i_root : T !! 0%nat = Some [];
  i_nodup : NoDup T;
  i_needed : T ⊆ U;
  i_closed q i : q ++ [i] ∈ T -> q ∈ T /\ (length q <= 2)%nat;
  i_leaf q e : L q = Some e -> (3 <= length q <= 4)%nat /\ (q ∉ T) /\ exists q' i, q = q' ++ [i] /\ q' ∈ T;
  i_table k j q i : T !! k = Some q -> T !! j = Some (q ++ [i]) -> is_index i -> entry (RAM p) (page k) i = link j;
  i_entry k q i : T !! k = Some q -> q ++ [i] ∉ T -> is_index i -> entry (RAM p) (page k) i = default 0 (L (q ++ [i])) }.

Definition outside (p p' : TablePool) : Prop := forall a, a < B \/ B + N * 4096 <= a -> RAM p' a = RAM p a.

Lemma length_T p T L : inv p T L -> Z.of_nat (length T) <= N.
Proof using All. intros H. pose proof (submseteq_length T U (NoDup_submseteq T U (i_nodup _ _ _ H) (i_needed _ _ _ H))). lia. Qed.

Lemma page_frame k : (Z.of_nat k < N) -> is_frame (page k).
Proof using All. intros Hk. destruct HB as [H1 H2]. unfold page. split; [lia|]. rewrite Z.mod_add by lia. done. Qed.

Lemma page_inj k j : page k = page j -> k = j.
Proof using All. unfold page. lia. Qed.

Lemma T_lt p T L k q : inv p T L -> T !! k = Some q -> Z.of_nat k < N.
Proof using All. intros H Hk%lookup_lt_Some. pose proof (length_T p T L H). lia. Qed.

Lemma link_masked k : Z.of_nat k < N -> Z.land (link k) ADDR_MASK_4K = page k.
Proof using All.
  intros Hk. destruct (page_frame k Hk) as [Hf Hm]. unfold link. rewrite <- Z.lor_assoc. change ADDR_MASK_4K with ADDR_MASK.
  by apply (frame_from_entry_roundtrip (page k)).
Qed.

Lemma frame_low f i : is_frame f -> 0 <= i < 12 -> Z.testbit f i = false.
Proof using All.
  intros [_ Hm] Hi. rewrite <- (Z.mod_pow2_bits_low f 12) by lia. change (2 ^ 12) with 4096. by rewrite Hm, Z.bits_0.
Qed.

Lemma link_present k : Z.land (link k) PAGE_PRESENT <> 0.
Proof using All.
  intros H. apply (f_equal (fun x => Z.testbit x 0)) in H. unfold link in H. rewrite Z.land_spec, !Z.lor_spec in H.
  change (Z.testbit PAGE_PRESENT 0) with true in H. rewrite orb_true_r in H. done.
Qed.

Lemma link_not_huge k : Z.of_nat k < N -> Z.land (link k) PAGE_HUGE = 0.
Proof using All.
  intros Hk. change PAGE_HUGE with (2 ^ 7). assert (Z.testbit (link k) 7 = false) as H.
  { unfold link. rewrite !Z.lor_spec, (frame_low (page k)) by (by apply page_frame || lia). done. }
  apply Z.bits_inj'. intros i Hi. rewrite Z.land_spec, Z.pow2_bits_eqb, Z.bits_0 by lia. destruct (Z.eqb_spec 7 i) as [<-|]; [by rewrite H|apply andb_false_r].
Qed.

Lemma link_width k : Z.of_nat k < N -> in_width 64 (link k).
Proof using All.
  intros Hk. destruct (page_frame k Hk) as [Hf _]. unfold link. apply in_width_lor; [lia| |done]. apply in_width_lor; [lia| |done]. split; lia.
Qed.

Lemma entry_wr_eq m f i v : in_width 64 v -> entry (wr64 m (f + 8 * i) v) f i = v.
Proof using All. intros. by apply rd64_wr64_eq. Qed.

Lemma entry_wr_ne m f i v g j : is_frame f -> is_frame g -> is_index i -> is_index j -> f <> g \/ i <> j ->
  entry (wr64 m (f + 8 * i) v) g j = entry m g j.
Proof using All.
  intros Hf Hg Hi Hj Hne. apply rd64_wr64_ne. red in Hi, Hj. destruct (decide (f = g)) as [->|Hfg]; [destruct Hne as [|Hne]; [done|lia]|].
  pose proof (frame_gap f g Hf Hg Hfg). lia.
Qed.

Lemma wr_outside m k i v a : Z.of_nat k < N -> is_index i -> a < B \/ B + N * 4096 <= a -> wr64 m (page k + 8 * i) v a = m a.
Proof using All.
  intros Hk Hi Ha. red in Hi. unfold wr64, page. destruct (Z.leb_spec (B + Z.of_nat k * 4096 + 8 * i) a); [|done].
  destruct (Z.ltb_spec a (B + Z.of_nat k * 4096 + 8 * i + 8)); [lia|done].
Qed.

(** A new table. *)
Section new_table.
  Context (p : TablePool) (T : list (list Z)) (L : list Z -> option Z) (k : nat) (q : list Z) (i : Z).
  Context (H : inv p T L) (Hk : T !! k = Some q) (Hq : (length q <= 2)%nat) (Hi : is_index i) (HL : L (q ++ [i]) = None).
  Context (Hneed : q ++ [i] ∈ U) (Hnew : q ++ [i] ∉ T).

Definition n : nat := length T.
Definition p1 : TablePool := mkPool (zero_page (page n) (RAM p)) B (Z.of_nat n + 1) N.
Definition p2 : TablePool := set_ram (wr64 (RAM p1) (page k + 8 * i) (link n)) p1.
Definition T2 : list (list Z) := T ++ [q ++ [i]].

Lemma room : Z.of_nat n < N.
Proof using All.
  assert (NoDup T2) as Hd. { apply NoDup_app. split_and!; [apply H|intros x Hx Hx'%list_elem_of_singleton; congruence|apply NoDup_singleton]. }
  assert (T2 ⊆ U) as Hs. { intros x [Hx|Hx%list_elem_of_singleton]%elem_of_app; [by apply (i_needed _ _ _ H)|congruence]. }
  pose proof (submseteq_length T2 U (NoDup_submseteq T2 U Hd Hs)) as Hl. unfold T2 in Hl. rewrite length_app in Hl. cbn in Hl. unfold n. lia.
Qed.

Lemma pool_next_new : pool_next p = Some (p1, page n).
Proof using All.
  destruct (i_pool _ _ _ H) as (Hb & Ht & Hu). pose proof room. unfold pool_next. rewrite Ht, Hu, Hb. destruct (Z.leb_spec N (Z.of_nat (length T))); [unfold n in *; lia|].
  destruct HB as [? _]. assert (u64 (B + Z.of_nat (length T) * 4096) = page n) as -> by (unfold page, n; apply wrap_small; unfold in_width, n in *; lia). done.
Qed.

Lemma p2_entry j y : (j <= n)%nat -> is_index y -> entry (RAM p2) (page j) y =
  if decide (j = k /\ y = i) then link n else if decide (j = n) then 0 else entry (RAM p) (page j) y.
Proof using All.
  intros Hj Hy. pose proof room as Hr. pose proof (lookup_lt_Some _ _ _ Hk) as Hkl. fold n in Hkl. unfold p2, p1. cbn [RAM set_ram].
  destruct (decide (j = k /\ y = i)) as [[-> ->]|Hne]; [by apply entry_wr_eq, link_width|].
  rewrite entry_wr_ne; [|apply page_frame; lia|apply page_frame; lia|done|done|].
  2: { destruct (decide (y = i)) as [->|]; [left; intros E%page_inj; naive_solver|by right; congruence]. }
  rewrite entry_zero_page; [|apply page_frame; lia|apply page_frame; lia|done]. destruct (decide (page n = page j)) as [E|E], (decide (j = n)) as [E'|E']; try done; [by apply page_inj in E|by rewrite E' in E].
Qed.

Lemma T2_lookup j x : T2 !! j = Some x <-> T !! j = Some x \/ (j = n /\ x = q ++ [i]).
Proof using All.
  unfold T2, n. rewrite lookup_app_Some. split.
  - intros [?|[Hl Hx]]; [by left|right]. apply list_lookup_singleton_Some in Hx as [Hj <-]. split; [lia|done].
  - intros [?|[-> ->]]; [by left|right]. split; [lia|]. by rewrite Nat.sub_diag.
Qed.

Lemma T2_elem x : x ∈ T2 <-> x ∈ T \/ x = q ++ [i].
Proof using All. unfold T2. rewrite elem_of_app, list_elem_of_singleton. done. Qed.

Lemma no_child x : (q ++ [i]) ++ [x] ∉ T2.
Proof using All.
  intros [Hx|Hx]%T2_elem; [by destruct (i_closed _ _ _ H _ _ Hx)|]. apply (f_equal length) in Hx. rewrite !length_app in Hx. cbn in Hx. lia.
Qed.

Lemma new_inv : inv p2 T2 L.
Proof using All.
  pose proof room as Hr. pose proof (lookup_lt_Some _ _ _ Hk) as Hkn. fold n in Hkn. split.
  - cbn. split_and!; [done..|]. unfold T2. rewrite length_app. cbn. unfold n. lia.
  - apply T2_lookup. left. apply H.
  - apply NoDup_app. split_and!; [apply H|intros x Hx Hx'%list_elem_of_singleton; congruence|apply NoDup_singleton].
  - intros x [Hx| ->]%T2_elem; [by apply (i_needed _ _ _ H)|done].
  - intros q' j [Hx|Hx]%T2_elem.
    + destruct (i_closed _ _ _ H q' j Hx) as [? ?]. split; [apply T2_elem; by left|done].
    + apply app_inj_tail in Hx as [-> ->]. split; [|done]. apply T2_elem. left. by eapply list_elem_of_lookup_2.
  - intros x e Hx. destruct (i_leaf _ _ _ H x e Hx) as (Hl & Hn & q' & j & -> & Hq'). split; [done|]. split.
    + intros [?|E]%T2_elem; [done|]. rewrite E, HL in Hx. done.
    + exists q', j. split; [done|]. apply T2_elem. by left.
  - intros k' j q' i' [Hk'|[-> ->]]%T2_lookup Hj Hi'.
    + pose proof (lookup_lt_Some _ _ _ Hk') as Hlt. fold n in Hlt. rewrite p2_entry by (done || lia). apply T2_lookup in Hj as [Hj|[-> E]].
      * destruct (decide (k' = k /\ i' = i)) as [[-> ->]|Hne]. { rewrite Hk in Hk'. injection Hk' as <-. by apply list_elem_of_lookup_2 in Hj. }
        rewrite decide_False by lia. by apply (i_table _ _ _ H _ _ q').
      * apply app_inj_tail in E as [-> ->]. rewrite decide_True; [done|]. split; [|done]. by eapply NoDup_lookup, Hk; [apply H|].
    + by apply list_elem_of_lookup_2, no_child in Hj.
  - intros k' q' i' [Hk'|[-> ->]]%T2_lookup Hn Hi'.
    + pose proof (lookup_lt_Some _ _ _ Hk') as Hlt. fold n in Hlt. rewrite p2_entry by (done || lia).
      destruct (decide (k' = k /\ i' = i)) as [[-> ->]|Hne]. { rewrite Hk in Hk'. injection Hk' as <-. by destruct Hn; apply T2_elem; right. }
      rewrite decide_False by lia. apply (i_entry _ _ _ H); [done| |done]. intros ?. apply Hn, T2_elem. by left.
    + rewrite p2_entry by (done || lia). rewrite decide_False by lia. rewrite decide_True by done.
      destruct (L ((q ++ [i]) ++ [i'])) as [e|] eqn:E; [|done]. destruct (i_leaf _ _ _ H _ _ E) as (_ & _ & q' & j & E' & Hq').
      apply app_inj_tail in E' as [<- _]. done.
Qed.

Lemma new_outside : outside p p2.
Proof using All.
  intros a Ha. pose proof room as Hr. pose proof (lookup_lt_Some _ _ _ Hk) as Hkn. fold n in Hkn. unfold p2, p1. cbn [RAM set_ram].
  rewrite wr_outside by (done || lia). unfold zero_page, PAGE_SIZE, page. destruct (Z.leb_spec (B + Z.of_nat n * 4096) a); [|done].
  destruct (Z.ltb_spec a (B + Z.of_nat n * 4096 + 4096)); [lia|done].
Qed.
End new_table.

Lemma descend_spec p T L k q i : inv p T L -> T !! k = Some q -> (length q <= 2)%nat -> is_index i -> L (q ++ [i]) = None -> q ++ [i] ∈ U ->
  exists p' T' j, descend (page k) i p = Some (p', page j) /\ inv p' T' L /\ T' !! j = Some (q ++ [i]) /\ outside p p' /\
    (forall x, x ∈ T' <-> x ∈ T \/ x = q ++ [i]).
Proof using All.
  intros H Hk Hq Hi HL Hneed. unfold descend. destruct (decide (q ++ [i] ∈ T)) as [Hin|Hnew].
  - destruct (list_elem_of_lookup_1 _ _ Hin) as [j Hj]. pose proof (i_table _ _ _ H k j q i Hk Hj Hi) as He. rewrite He.
    rewrite (proj2 (Z.eqb_neq _ _) (link_present j)). cbn [mbind option_bind]. rewrite He, link_masked by (by eapply T_lt).
    exists p, T, j. split_and!; [done..|]. intros x. split; [by left|]. intros [?| ->]; done.
  - rewrite (i_entry _ _ _ H k q i Hk Hnew Hi), HL. change (Z.land (default 0 None) PAGE_PRESENT =? 0) with true. cbv iota.
    rewrite (pool_next_new p T L k q i) by done. cbn [mbind option_bind].
    pose proof (new_inv p T L k q i H Hk Hq Hi HL Hneed Hnew) as H2. pose proof (room p T L k q i H Hk Hq Hi HL Hneed Hnew) as Hr.
    assert (T2 T q i !! n T = Some (q ++ [i])) as Hn. { unfold T2, n. rewrite lookup_app_r by lia. by rewrite Nat.sub_diag. }
    fold (link (n T)). change (set_ram _ (p1 p T)) with (p2 p T k i).
    rewrite (i_table _ _ _ H2 k (n T) q i) by (done || (unfold T2; by apply lookup_app_l_Some)). rewrite link_masked by done.
    exists (p2 p T k i), (T2 T q i), (n T). split_and!; [done|done|done|by eapply new_outside|]. intros x. unfold T2. by rewrite elem_of_app, list_elem_of_singleton.
Qed.

(** Writing an entry that maps memory. *)
Definition upd (L : list Z -> option Z) (q : list Z) (e : Z) : list Z -> option Z := fun x => if decide (x = q) then Some e else L x.

Lemma leaf_inv p T L k q i e : inv p T L -> T !! k = Some q -> (2 <= length q <= 3)%nat -> is_index i -> q ++ [i] ∉ T -> in_width 64 e ->
  inv (set_ram (wr64 (RAM p) (page k + 8 * i) e) p) T (upd L (q ++ [i]) e) /\ outside p (set_ram (wr64 (RAM p) (page k + 8 * i) e) p).
Proof using All.
  intros H Hk Hq Hi Hn He. pose proof (T_lt _ _ _ _ _ H Hk) as HkN. split; [|intros a Ha; by apply wr_outside].
  assert (forall k' i', Z.of_nat k' < N -> is_index i' -> ~ (k' = k /\ i' = i) -> entry (wr64 (RAM p) (page k + 8 * i) e) (page k') i' = entry (RAM p) (page k') i') as Hsame.
  { intros k' i' Hk' Hi' Hne. apply entry_wr_ne; [by apply page_frame|by apply page_frame|done|done|].
    destruct (decide (i' = i)) as [->|]; [left; intros E%page_inj; naive_solver|by right; congruence]. }
  split; try apply H.
  - intros x v. unfold upd. case_decide as E; [intros [= <-]|apply H]. rewrite E, length_app. cbn. split; [lia|]. split; [done|].
    exists q, i. split; [done|]. by eapply list_elem_of_lookup_2.
  - intros k' j q' i' Hk' Hj Hi'. cbn [RAM set_ram]. rewrite Hsame; [by apply (i_table _ _ _ H _ _ q')|by eapply T_lt|done|].
    intros [-> ->]. rewrite Hk in Hk'. injection Hk' as <-. by apply list_elem_of_lookup_2 in Hj.
  - intros k' q' i' Hk' Hn' Hi'. cbn [RAM set_ram]. unfold upd. case_decide as E.
    + apply app_inj_tail in E as [-> ->]. assert (k' = k) as -> by (eapply NoDup_lookup; [apply H|done..]). by apply entry_wr_eq.
    + rewrite Hsame; [by apply (i_entry _ _ _ H)|by eapply T_lt|done|]. intros [-> ->]. rewrite Hk in Hk'. by injection Hk' as <-.
Qed.

(** ** Mapping one page *)

Definition idx (s v : Z) : Z := Z.land (Z.shiftr v s) 0x1ff.
Definition path1 (v : Z) : list Z := [idx 39 v].
Definition path2 (v : Z) : list Z := [idx 39 v; idx 30 v].
Definition path3 (v : Z) : list Z := [idx 39 v; idx 30 v; idx 21 v].
Definition path4 (v : Z) : list Z := [idx 39 v; idx 30 v; idx 21 v; idx 12 v].

Lemma idx_index s v : 0 <= s -> is_index (idx s v).
Proof using All. intros. unfold idx, is_index. change 0x1ff with (Z.ones 9). rewrite Z.land_ones by lia. apply Z.mod_pos_bound. lia. Qed.

Definition huge_entry (a : Z) : Z := Z.lor (Z.lor (Z.lor (Z.land a ADDR_MASK_2MB) PAGE_PRESENT) PAGE_WRITABLE) PAGE_HUGE.
Definition small_entry (a : Z) : Z := Z.lor (Z.lor (Z.land a ADDR_MASK_4K) PAGE_PRESENT) PAGE_WRITABLE.

Lemma masked_width a m : in_width 64 m -> 0 <= a -> in_width 64 (Z.land a m).
Proof using All. intros Hm Ha. rewrite Z.land_comm. by apply in_width_land_l. Qed.

Lemma huge_width a : 0 <= a -> in_width 64 (huge_entry a).
Proof using All. intros Ha. unfold huge_entry. repeat (apply in_width_lor; [lia| |done]). by apply masked_width. Qed.
Lemma small_width a : 0 <= a -> in_width 64 (small_entry a).
Proof using All. intros Ha. unfold small_entry. repeat (apply in_width_lor; [lia| |done]). by apply masked_width. Qed.

Lemma root_page : page 0 = B.
Proof using All. unfold page. lia. Qed.

Lemma short_path p T L q e : inv p T L -> (length q <= 2)%nat -> L q = Some e -> False.
Proof using All. intros H Hl E. destruct (i_leaf _ _ _ H q e E) as (? & _). lia. Qed.

Lemma no_short p T L q : inv p T L -> (length q <= 2)%nat -> L q = None.
Proof using All. intros H Hl. destruct (L q) eqn:E; [|done]. by destruct (short_path p T L q z H Hl E). Qed.

Lemma outside_trans p1 p2 p3 : outside p1 p2 -> outside p2 p3 -> outside p1 p3.
Proof using All. intros H1 H2 a Ha. by rewrite (H2 a Ha), (H1 a Ha). Qed.

(** The first two levels. *)
Lemma walk_spec p T L v : inv p T L -> path1 v ∈ U -> path2 v ∈ U ->
  exists p' T' j, walk_to_pd B v p = Some (p', page j) /\ inv p' T' L /\ T' !! j = Some (path2 v) /\ outside p p' /\
    forall x, x ∈ T' <-> x ∈ T \/ x = path1 v \/ x = path2 v.
Proof using All.
  intros H Hu1 Hu2. unfold walk_to_pd, indices. fold (idx 39 v) (idx 30 v). rewrite <- root_page.
  destruct (descend_spec p T L 0 [] (idx 39 v)) as (p1 & T1 & j1 & -> & H1 & Hj1 & Ho1 & He1);
    [done|apply H|cbn; lia|by apply idx_index|eapply no_short; [exact H|cbn; lia]|done|]. cbn [mbind option_bind].
  destruct (descend_spec p1 T1 L j1 (path1 v) (idx 30 v)) as (p2 & T2 & j2 & -> & H2 & Hj2 & Ho2 & He2);
    [done|done|cbn; lia|by apply idx_index|eapply no_short; [exact H1|cbn; lia]|done|].
  exists p2, T2, j2. split_and!; [done..|by eapply outside_trans|]. intros x. rewrite He2, He1. change ([] ++ [idx 39 v]) with (path1 v). change (path1 v ++ [idx 30 v]) with (path2 v). tauto.
Qed.

Lemma map_2mb_spec p T L v a : inv p T L -> path1 v ∈ U -> path2 v ∈ U -> path3 v ∉ T -> 0 <= a ->
  exists p' T', map_2mb B v a p = Some p' /\ inv p' T' (upd L (path3 v) (huge_entry a)) /\ outside p p' /\
    forall x, x ∈ T' <-> x ∈ T \/ x = path1 v \/ x = path2 v.
Proof using All.
  intros H Hu1 Hu2 Hn Ha. unfold map_2mb. destruct (walk_spec p T L v H Hu1 Hu2) as (p1 & T1 & j & -> & H1 & Hj & Ho & He). cbn [mbind option_bind].
  unfold indices. fold (idx 21 v) (huge_entry a). destruct (leaf_inv p1 T1 L j (path2 v) (idx 21 v) (huge_entry a)) as [H2 Ho2]; [done|done|cbn; lia|by apply idx_index| |by apply huge_width|].
  { change (path2 v ++ [idx 21 v]) with (path3 v). rewrite He. intros [?|[E|E]]; [done|by apply (f_equal length) in E..]. }
  eexists _, T1. split; [done|]. split; [exact H2|]. split; [by eapply outside_trans|done].
Qed.

Lemma map_4k_spec p T L v a : inv p T L -> path1 v ∈ U -> path2 v ∈ U -> path3 v ∈ U -> L (path3 v) = None -> 0 <= a ->
  exists p' T', map_4k B v a p = Some p' /\ inv p' T' (upd L (path4 v) (small_entry a)) /\ outside p p' /\
    forall x, x ∈ T' <-> x ∈ T \/ x = path1 v \/ x = path2 v \/ x = path3 v.
Proof using All.
  intros H Hu1 Hu2 Hu3 HL Ha. unfold map_4k, indices_4k, indices. fold (idx 39 v) (idx 30 v) (idx 21 v) (idx 12 v) (small_entry a).
  destruct (walk_spec p T L v H Hu1 Hu2) as (p1 & T1 & j & Hw & H1 & Hj & Ho & He). unfold walk_to_pd, indices in Hw. fold (idx 39 v) (idx 30 v) in Hw.
  destruct (descend B (idx 39 v) p) as [[pa ta]|] eqn:Ea; [|done]. cbn [mbind option_bind] in Hw |- *. rewrite Hw. cbn [mbind option_bind].
  destruct (descend_spec p1 T1 L j (path2 v) (idx 21 v)) as (p2 & T2 & j2 & -> & H2 & Hj2 & Ho2 & He2); [done|done|cbn; lia|by apply idx_index|done|done|].
  cbn [mbind option_bind]. change (path2 v ++ [idx 21 v]) with (path3 v) in *.
  destruct (leaf_inv p2 T2 L j2 (path3 v) (idx 12 v) (small_entry a)) as [H3 Ho3]; [done|done|cbn; lia|by apply idx_index| |by apply small_width|].
  { intros Hin. destruct (i_closed _ _ _ H2 _ _ Hin) as [_ Hl]. cbn in Hl. lia. }
  eexists _, T2. split; [done|]. split; [exact H3|]. split; [by eapply outside_trans, outside_trans|]. intros x. rewrite He2, He. tauto.
Qed.

(** ** What the processor finds *)

Lemma hw_next_table p T L k j q i : inv p T L -> T !! k = Some q -> T !! j = Some (q ++ [i]) -> is_index i ->
  hw_next (RAM p) (page k) i = Some (link j) /\ Z.land (link j) ADDR_MASK_4K = page j /\ Z.land (link j) PAGE_HUGE = 0.
Proof using All.
  intros H Hk Hj Hi. pose proof (T_lt _ _ _ _ _ H Hj). unfold hw_next. rewrite (i_table _ _ _ H k j q i Hk Hj Hi), (proj2 (Z.eqb_neq _ _) (link_present j)).
  split_and!; [done|by apply link_masked|by apply link_not_huge].
Qed.

Lemma hw_next_leaf p T L k q i e : inv p T L -> T !! k = Some q -> L (q ++ [i]) = Some e -> Z.land e PAGE_PRESENT <> 0 -> is_index i -> hw_next (RAM p) (page k) i = Some e.
Proof using All.
  intros H Hk HL He Hi. destruct (i_leaf _ _ _ H _ _ HL) as (_ & Hn & _). unfold hw_next. rewrite (i_entry _ _ _ H k q i Hk Hn Hi), HL. cbn [default from_option id]. by rewrite (proj2 (Z.eqb_neq _ _) He).
Qed.

Lemma leaf_parent p T L q i e : inv p T L -> L (q ++ [i]) = Some e -> exists k, T !! k = Some q.
Proof using All. intros H HL. destruct (i_leaf _ _ _ H _ _ HL) as (_ & _ & q' & i' & E & Hq). apply app_inj_tail in E as [-> _]. by apply list_elem_of_lookup_1. Qed.

Lemma table_parent p T L q i k : inv p T L -> T !! k = Some (q ++ [i]) -> exists j, T !! j = Some q.
Proof using All. intros H Hk. apply list_elem_of_lookup_2 in Hk. destruct (i_closed _ _ _ H _ _ Hk) as [Hq _]. by apply list_elem_of_lookup_1. Qed.

Lemma flag_present a b : Z.testbit b 0 = true -> Z.land (Z.lor a b) PAGE_PRESENT <> 0.
Proof using All. intros Hb E. apply (f_equal (fun x => Z.testbit x 0)) in E. rewrite Z.land_spec, Z.lor_spec, Hb, orb_true_r in E. done. Qed.

Lemma walk_down p T L v k : inv p T L -> T !! k = Some (path2 v) ->
  exists j1, hw_next (RAM p) B (idx 39 v) = Some (link j1) /\ Z.land (link j1) ADDR_MASK_4K = page j1 /\
    hw_next (RAM p) (page j1) (idx 30 v) = Some (link k) /\ Z.land (link k) ADDR_MASK_4K = page k.
Proof using All.
  intros H Hk. destruct (table_parent p T L (path1 v) (idx 30 v) k H Hk) as [j1 Hj1]. exists j1. rewrite <- root_page.
  destruct (hw_next_table p T L 0 j1 [] (idx 39 v) H (i_root _ _ _ H) Hj1) as (A & A' & _); [by apply idx_index|].
  destruct (hw_next_table p T L j1 k (path1 v) (idx 30 v) H Hj1 Hk) as (C & C' & _); [by apply idx_index|]. by split_and!.
Qed.

Lemma huge_translate p T L v a : inv p T L -> L (path3 v) = Some (huge_entry a) ->
  hw_translate (RAM p) B v = Some (Z.land (huge_entry a) ADDR_MASK_2MB + v mod 0x200000).
Proof using All.
  intros H HL. destruct (leaf_parent p T L (path2 v) (idx 21 v) _ H HL) as [k Hk]. destruct (walk_down p T L v k H Hk) as (j1 & A & A' & C & C').
  unfold hw_translate, indices_4k, indices. fold (idx 39 v) (idx 30 v) (idx 21 v) (idx 12 v). rewrite A. cbn [mbind option_bind]. rewrite A', C. cbn [mbind option_bind].
  rewrite C', (hw_next_leaf p T L k (path2 v) (idx 21 v) (huge_entry a)); [|done|done|done| |by apply idx_index].
  2: { unfold huge_entry. rewrite <- !Z.lor_assoc. by apply flag_present. }
  cbn [mbind option_bind]. assert ((Z.land (huge_entry a) PAGE_HUGE =? 0) = false) as ->; [|done]. apply Z.eqb_neq. intros E.
  apply (f_equal (fun x => Z.testbit x 7)) in E. unfold huge_entry in E. rewrite Z.land_spec, Z.lor_spec in E. change (Z.testbit PAGE_HUGE 7) with true in E. rewrite orb_true_r in E. done.
Qed.

Lemma small_translate p T L v a : inv p T L -> L (path4 v) = Some (small_entry a) ->
  hw_translate (RAM p) B v = Some (Z.land (small_entry a) ADDR_MASK_4K + v mod 0x1000).
Proof using All.
  intros H HL. destruct (leaf_parent p T L (path3 v) (idx 12 v) _ H HL) as [k Hk]. destruct (table_parent p T L (path2 v) (idx 21 v) k H Hk) as [j Hj].
  destruct (walk_down p T L v j H Hj) as (j1 & A & A' & C & C'). destruct (hw_next_table p T L j k (path2 v) (idx 21 v) H Hj Hk) as (D & D' & D''); [by apply idx_index|].
  unfold hw_translate, indices_4k, indices. fold (idx 39 v) (idx 30 v) (idx 21 v) (idx 12 v). rewrite A. cbn [mbind option_bind]. rewrite A', C. cbn [mbind option_bind].
  rewrite C', D. cbn [mbind option_bind]. rewrite D''. cbn [negb Z.eqb]. rewrite D', (hw_next_leaf p T L k (path3 v) (idx 12 v) (small_entry a)); [done|done|done|done| |by apply idx_index].
  unfold small_entry. rewrite <- !Z.lor_assoc. by apply flag_present.
Qed.

(** ** Addresses and paths *)

Lemma idx_div s v : 0 <= s -> idx s v = v / 2 ^ s mod 512.
Proof using All. intros. unfold idx. change 0x1ff with (Z.ones 9). by rewrite Z.land_ones, Z.shiftr_div_pow2 by lia. Qed.

(** The three upper indices are 27 bits of the address, the fourth nine more. *)
Lemma path3_bits v : 0 <= v -> idx 39 v * 2 ^ 18 + idx 30 v * 2 ^ 9 + idx 21 v = v / 2 ^ 21 mod 2 ^ 27.
Proof using All.
  intros Hv. rewrite !idx_div by lia. replace (v / 2 ^ 39) with (v / 2 ^ 21 / 2 ^ 9 / 2 ^ 9) by (by rewrite !Z.div_div by lia).
  replace (v / 2 ^ 30) with (v / 2 ^ 21 / 2 ^ 9) by (by rewrite !Z.div_div by lia). set (x := v / 2 ^ 21). clearbody x.
  change (2 ^ 9) with 512. change (2 ^ 18) with 262144. change (2 ^ 27) with 134217728. Z.to_euclidean_division_equations. lia.
Qed.

Lemma path4_bits v : 0 <= v -> (idx 39 v * 2 ^ 18 + idx 30 v * 2 ^ 9 + idx 21 v) * 512 + idx 12 v = v / 2 ^ 12 mod 2 ^ 36.
Proof using All.
  intros Hv. rewrite path3_bits by done. rewrite idx_div by lia. replace (v / 2 ^ 21) with (v / 2 ^ 12 / 2 ^ 9) by (by rewrite !Z.div_div by lia).
  set (x := v / 2 ^ 12). clearbody x. change (2 ^ 9) with 512. change (2 ^ 27) with 134217728. change (2 ^ 36) with 68719476736. Z.to_euclidean_division_equations. lia.
Qed.

Lemma path3_same v w : v / 2 ^ 21 = w / 2 ^ 21 -> path3 v = path3 w.
Proof using All.
  intros E. unfold path3. rewrite !idx_div by lia.
  assert (forall x, x / 2 ^ 39 = x / 2 ^ 21 / 2 ^ 18) as E1 by (intros; by rewrite Z.div_div by lia).
  assert (forall x, x / 2 ^ 30 = x / 2 ^ 21 / 2 ^ 9) as E2 by (intros; by rewrite Z.div_div by lia). by rewrite !E1, !E2, E.
Qed.

Lemma path4_same v w : v / 2 ^ 12 = w / 2 ^ 12 -> path4 v = path4 w.
Proof using All.
  intros E. unfold path4. rewrite !idx_div by lia.
  assert (forall x, x / 2 ^ 39 = x / 2 ^ 12 / 2 ^ 27) as E1 by (intros; by rewrite Z.div_div by lia).
  assert (forall x, x / 2 ^ 30 = x / 2 ^ 12 / 2 ^ 18) as E2 by (intros; by rewrite Z.div_div by lia).
  assert (forall x, x / 2 ^ 21 = x / 2 ^ 12 / 2 ^ 9) as E3 by (intros; by rewrite Z.div_div by lia). by rewrite !E1, !E2, !E3, E.
Qed.

(** Identity pages are low, kernel pages are high. *)
Definition low_page (a : Z) : Prop := 0 <= a < 2 ^ 47 /\ a mod 2 ^ 21 = 0.
Definition KVB : Z := 0xFFFFFFFF80000000.
Definition kernel_page (a : Z) : Prop := 0 <= a < 2 ^ 31 /\ a mod 2 ^ 12 = 0.

Lemma low_inj a b : low_page a -> low_page b -> path3 a = path3 b -> a = b.
Proof using All.
  intros [Ha Ha0] [Hb Hb0] E. pose proof (path3_bits a ltac:(lia)) as Ea. pose proof (path3_bits b ltac:(lia)) as Eb. injection E as E1 E2 E3.
  rewrite E1, E2, E3, Eb in Ea. change (2 ^ 21) with 2097152 in *. change (2 ^ 27) with 134217728 in *. change (2 ^ 47) with 140737488355328 in *. Z.to_euclidean_division_equations. lia.
Qed.

Lemma kernel_inj a b : kernel_page a -> kernel_page b -> path4 (a + KVB) = path4 (b + KVB) -> a = b.
Proof using All.
  unfold KVB. intros [Ha Ha0] [Hb Hb0] E. pose proof (path4_bits (a + 0xFFFFFFFF80000000) ltac:(lia)) as Ea. pose proof (path4_bits (b + 0xFFFFFFFF80000000) ltac:(lia)) as Eb.
  injection E as E1 E2 E3 E4. rewrite E1, E2, E3, E4, Eb in Ea. change (2 ^ 12) with 4096 in *. change (2 ^ 36) with 68719476736 in *. change (2 ^ 31) with 2147483648 in *. Z.to_euclidean_division_equations. lia.
Qed.

Lemma low_high a b : low_page a -> kernel_page b -> idx 39 a <> idx 39 (b + KVB).
Proof using All.
  unfold KVB. intros [Ha _] [Hb _]. rewrite !idx_div by lia. change (2 ^ 39) with 549755813888. change (2 ^ 47) with 140737488355328 in *. change (2 ^ 31) with 2147483648 in *.
  Z.to_euclidean_division_equations. lia.
Qed.

Lemma masked_page a w : 0 <= w <= 52 -> 0 <= a < 2 ^ 52 -> a mod 2 ^ w = 0 -> Z.land a (Z.shiftl (Z.ones (52 - w)) w) = a.
Proof using All.
  intros Hw Ha Hm. apply Z.bits_inj'. intros i Hi. rewrite Z.land_spec. destruct (decide (i < w)).
  - rewrite Z.shiftl_spec_low, andb_false_r by lia. rewrite <- (Z.mod_pow2_bits_low a w) by lia. by rewrite Hm, Z.bits_0.
  - rewrite Z.shiftl_spec by lia. destruct (decide (i < 52)).
    + rewrite Z.ones_spec_low by lia. apply andb_true_r.
    + rewrite Z.ones_spec_high, andb_false_r by lia. symmetry. apply (in_width_testbit 52); [lia|exact Ha].
Qed.

Lemma huge_masked a : low_page a -> Z.land (huge_entry a) ADDR_MASK_2MB = a.
Proof using All.
  intros [Ha Hm]. unfold huge_entry. rewrite !Z.land_lor_distr_l. rewrite <- Z.land_assoc, Z.land_diag.
  change (Z.land PAGE_PRESENT ADDR_MASK_2MB) with 0. change (Z.land PAGE_WRITABLE ADDR_MASK_2MB) with 0. change (Z.land PAGE_HUGE ADDR_MASK_2MB) with 0. rewrite !Z.lor_0_r.
  change ADDR_MASK_2MB with (Z.shiftl (Z.ones (52 - 21)) 21). apply masked_page; [lia|lia|done].
Qed.

Lemma small_masked a : kernel_page a -> Z.land (small_entry a) ADDR_MASK_4K = a.
Proof using All.
  intros [Ha Hm]. unfold small_entry. rewrite !Z.land_lor_distr_l. rewrite <- Z.land_assoc, Z.land_diag.
  change (Z.land PAGE_PRESENT ADDR_MASK_4K) with 0. change (Z.land PAGE_WRITABLE ADDR_MASK_4K) with 0. rewrite !Z.lor_0_r.
  change ADDR_MASK_4K with (Z.shiftl (Z.ones (52 - 12)) 12). apply masked_page; [lia|lia|done].
Qed.

(** ** The two loops *)

Definition known (L : list Z -> option Z) : Prop := forall q e, L q = Some e ->
  (exists a, low_page a /\ q = path3 a /\ e = huge_entry a) \/ (exists a, kernel_page a /\ q = path4 (a + KVB) /\ e = small_entry a).

Definition grows (L L' : list Z -> option Z) : Prop := forall q e, L q = Some e -> L' q = Some e.

Lemma upd_low L a : known L -> low_page a -> known (upd L (path3 a) (huge_entry a)) /\ grows L (upd L (path3 a) (huge_entry a)).
Proof using All.
  intros HL Ha. split; intros q e; unfold upd; case_decide as E.
  - intros [= <-]. left. by exists a.
  - apply HL.
  - intros Hq. destruct (HL q e Hq) as [(b & Hb & Eq & ->)|(b & Hb & Eq & _)]; rewrite E in Eq; [|done]. by rewrite (low_inj a b Ha Hb Eq).
  - done.
Qed.

Lemma upd_kernel L a : known L -> kernel_page a -> known (upd L (path4 (a + KVB)) (small_entry a)) /\ grows L (upd L (path4 (a + KVB)) (small_entry a)).
Proof using All.
  intros HL Ha. split; intros q e; unfold upd; case_decide as E.
  - intros [= <-]. right. by exists a.
  - apply HL.
  - intros Hq. destruct (HL q e Hq) as [(b & Hb & Eq & _)|(b & Hb & Eq & ->)]; rewrite E in Eq; [done|]. by rewrite (kernel_inj a b Ha Hb Eq).
  - done.
Qed.

Lemma upd_here L q e : upd L q e q = Some e.
Proof using All. unfold upd. by rewrite decide_True. Qed.

Lemma identity_loop as_ p T L : inv p T L -> known L -> (forall x, x ∈ T -> (length x <= 2)%nat) ->
  Forall (fun a => low_page a /\ path1 a ∈ U /\ path2 a ∈ U) as_ ->
  exists p' T' L', foldM (fun p a => map_2mb B a a p) p as_ = Some p' /\ inv p' T' L' /\ known L' /\ (forall x, x ∈ T' -> (length x <= 2)%nat) /\
    grows L L' /\ (forall a, a ∈ as_ -> L' (path3 a) = Some (huge_entry a)) /\ outside p p'.
Proof using All.
  intros H HL HT Has. revert p T L H HL HT. induction Has as [|a as_ (Ha & Hu1 & Hu2) _ IH]; intros p T L H HL HT; cbn [foldM].
  { exists p, T, L. split_and!; [done|done|done|done|by intros ? ?|by intros ? ?%elem_of_nil|by intros ?]. }
  destruct (map_2mb_spec p T L a a) as (p1 & T1 & -> & H1 & Ho1 & He1); [done|done|done| |apply Ha|]. { intros Hin%HT. cbn in Hin. lia. }
  cbn [mbind option_bind]. destruct (upd_low L a HL Ha) as [HL1 Hg1].
  destruct (IH p1 T1 _ H1 HL1) as (p' & T' & L' & -> & H' & HL' & HT' & Hg' & Hc & Ho'). { intros x [?|[->| ->]]%He1; [by apply HT|cbn; lia..]. }
  exists p', T', L'. split_and!; [done..|intros q e ?; by apply Hg', Hg1| |by eapply outside_trans].
  intros b [->|Hb]%elem_of_cons; [apply Hg', upd_here|by apply Hc].
Qed.

Lemma kernel_loop ps p T L : inv p T L -> known L ->
  Forall (fun a => kernel_page a /\ path1 (a + KVB) ∈ U /\ path2 (a + KVB) ∈ U /\ path3 (a + KVB) ∈ U) ps ->
  exists p' T' L', foldM (fun p a => map_4k B (u64 (a + KVB)) a p) p ps = Some p' /\ inv p' T' L' /\
    grows L L' /\ (forall a, a ∈ ps -> L' (path4 (a + KVB)) = Some (small_entry a)) /\ outside p p'.
Proof using All.
  intros H HL Hps. revert p T L H HL. induction Hps as [|a ps (Ha & Hu1 & Hu2 & Hu3) _ IH]; intros p T L H HL; cbn [foldM].
  { exists p, T, L. split_and!; [done|done|by intros ? ?|by intros ? ?%elem_of_nil|by intros ?]. }
  rewrite wrap_small by (destruct Ha; unfold in_width, KVB; lia).
  destruct (map_4k_spec p T L (a + KVB) a) as (p1 & T1 & -> & H1 & Ho1 & _); [done|done|done|done| |apply Ha|].
  { destruct (L (path3 (a + KVB))) as [e|] eqn:E; [|done]. destruct (HL _ _ E) as [(b & Hb & Eq & _)|(b & _ & Eq & _)]; [|done].
    injection Eq as Eq _ _. by destruct (low_high b a Hb Ha). }
  cbn [mbind option_bind]. destruct (upd_kernel L a HL Ha) as [HL1 Hg1]. destruct (IH p1 T1 _ H1 HL1) as (p' & T' & L' & -> & H' & Hg' & Hc & Ho').
  exists p', T', L'. split_and!; [done..|intros q e ?; by apply Hg', Hg1| |by eapply outside_trans].
  intros b [->|Hb]%elem_of_cons; [apply Hg', upd_here|by apply Hc].
Qed.

Lemma first_page p : base p = B -> total_pages p = N -> used_pages p = 0 -> [] ∈ U ->
  exists p', pool_next p = Some (p', B) /\ inv p' [[]] (fun _ => None) /\ outside p p'.
Proof using All.
  intros Hb Ht Hu HU0. assert (1 <= N) as HN1. { destruct U; [by apply elem_of_nil in HU0|cbn in HU; lia]. }
  unfold pool_next. rewrite Hb, Ht, Hu. destruct (Z.leb_spec N 0); [lia|]. destruct (HB) as [Hb0 _]. rewrite Z.mul_0_l, Z.add_0_r, wrap_small by (unfold in_width; lia).
  eexists. split; [done|]. split.
  - split; [done|done|apply NoDup_singleton|intros x ->%list_elem_of_singleton; done| | | |].
    + intros q i E%list_elem_of_singleton. by destruct q.
    + done.
    + intros k j q i _ Hj%list_lookup_singleton_Some _. destruct Hj as [_ E]. by destruct q.
    + intros k q i [-> <-]%list_lookup_singleton_Some _ Hi. cbn [RAM default from_option id]. rewrite root_page, entry_zero_page by done. by rewrite decide_True.
  - intros a Ha. cbn [RAM]. unfold zero_page, PAGE_SIZE. destruct (Z.leb_spec B a); [|done]. destruct (Z.ltb_spec a (B + 4096)); [lia|done].
Qed.
End tables.

(** ** The tables that are built *)

Definition identity_of (d : EfiMemoryDescriptor) : list Z :=
  if number_of_pages d =? 0 then [] else
  steps (Z.land (physical_start d) (wnot 64 0x1FFFFF)) (Z.land (u64 (u64 (physical_start d + u64 (number_of_pages d * 4096)) + 0x1FFFFF)) (wnot 64 0x1FFFFF)) 0x200000.
Definition identity_pages (ds : list EfiMemoryDescriptor) : list Z := ds ≫= identity_of.
Definition kernel_pages (ks ke : Z) : list Z := steps (Z.land ks (wnot 64 0xFFF)) (Z.land (u64 (ke + 0xFFF)) (wnot 64 0xFFF)) 0x1000.

(** One table for each path the pages need. *)
Definition tables_needed (ds : list EfiMemoryDescriptor) (ks ke : Z) : list (list Z) :=
  remove_dups ([] :: (identity_pages ds ≫= fun a => [path1 a; path2 a]) ++
               (kernel_pages ks ke ≫= fun a => [path1 (a + KVB); path2 (a + KVB); path3 (a + KVB)])).

Definition desc_ok (d : EfiMemoryDescriptor) : Prop :=
  0 <= physical_start d /\ 0 <= number_of_pages d /\ physical_start d + number_of_pages d * 4096 <= 2 ^ 47.

Lemma foldM_bind {A C S} (f : S -> A -> option S) (g : C -> list A) (l : list C) s :
  foldM (fun s c => foldM f s (g c)) s l = foldM f s (l ≫= g).
Proof. revert s. induction l as [|c l IH]; intros s; [done|]. cbn [foldM mbind list_bind]. rewrite foldM_app. destruct (foldM f s (g c)); cbn [mbind option_bind]; [apply IH|done]. Qed.

Lemma foldM_ext {A S} (f g : S -> A -> option S) l s : (forall s a, f s a = g s a) -> foldM f s l = foldM g s l.
Proof. intros H. revert s. induction l as [|a l IH]; intros s; cbn [foldM]; [done|]. rewrite H. destruct (g s a); cbn [mbind option_bind]; [apply IH|done]. Qed.

Lemma floor_bits w v : 0 <= w <= 64 -> in_width 64 v -> Z.land v (wnot 64 (2 ^ w - 1)) = v / 2 ^ w * 2 ^ w.
Proof.
  intros Hw Hv. rewrite <- Z.shiftr_div_pow2, <- Z.shiftl_mul_pow2 by lia. unfold wnot.
  apply Z.bits_inj'. intros i Hi. rewrite Z.land_spec, Z.lxor_spec.
  replace (2 ^ w - 1) with (Z.ones w) by (rewrite Z.ones_equiv; lia). replace (2 ^ 64 - 1) with (Z.ones 64) by done.
  destruct (decide (i < w)).
  - rewrite Z.shiftl_spec_low, !Z.ones_spec_low by lia. apply andb_false_r.
  - rewrite Z.shiftl_spec, Z.shiftr_spec, (Z.ones_spec_high w) by lia. replace (i - w + w) with i by lia. destruct (decide (i < 64)).
    + rewrite Z.ones_spec_low by lia. apply andb_true_r.
    + rewrite Z.ones_spec_high, andb_false_r by lia. symmetry. apply (in_width_testbit 64); [lia|done].
Qed.

Lemma elem_steps start end_ step a : 0 < step -> start mod step = 0 -> end_ mod step = 0 -> start <= end_ ->
  a ∈ steps start end_ step <-> start <= a < end_ /\ a mod step = 0.
Proof.
  intros Hs H1 H2 Hle. unfold steps. rewrite list_elem_of_fmap. setoid_rewrite elem_of_range.
  apply Z.mod_divide in H1 as [x ->]; [|lia]. apply Z.mod_divide in H2 as [y ->]; [|lia]. rewrite <- Z.mul_sub_distr_r, Z.div_mul by lia. split.
  - intros (k & -> & Hk). rewrite <- Z.mul_add_distr_r. split; [nia|]. apply Z.mod_mul. lia.
  - intros [Ha [z ->]%Z.mod_divide]; [|lia]. exists (z - x). split; [lia|]. nia.
Qed.

(** The pages of a descriptor are those its memory lies in. *)
Lemma elem_identity d a : desc_ok d -> a ∈ identity_of d <->
  0 < number_of_pages d /\ a mod 0x200000 = 0 /\ physical_start d < a + 0x200000 /\ a < physical_start d + number_of_pages d * 4096.
Proof.
  intros (H1 & H2 & H3). unfold identity_of. destruct (Z.eqb_spec (number_of_pages d) 0) as [->|Hne]. { split; [by intros ?%elem_of_nil|lia]. }
  set (s := physical_start d) in *. set (n := number_of_pages d) in *.
  rewrite (wrap_small 64 (n * 4096)), (wrap_small 64 (s + n * 4096)), (wrap_small 64 (s + n * 4096 + 0x1FFFFF)) by (unfold in_width; lia).
  change 0x1FFFFF with (2 ^ 21 - 1) at 1 3. rewrite !floor_bits by (unfold in_width; lia). change (2 ^ 21) with 0x200000.
  rewrite elem_steps; [|lia|apply Z.mod_mul; lia|apply Z.mod_mul; lia|Z.to_euclidean_division_equations; lia].
  split; intros; Z.to_euclidean_division_equations; lia.
Qed.

Lemma elem_kernel ks ke a : 0 <= ks -> ks <= ke <= 2 ^ 31 -> a ∈ kernel_pages ks ke <-> a mod 0x1000 = 0 /\ ks / 4096 * 4096 <= a < (ke + 4095) / 4096 * 4096.
Proof.
  intros H1 H2. unfold kernel_pages. rewrite (wrap_small 64 (ke + 0xFFF)) by (unfold in_width; lia). change 0xFFF with (2 ^ 12 - 1) at 1 3.
  rewrite !floor_bits by (unfold in_width; lia). change (2 ^ 12) with 0x1000. rewrite elem_steps; [|lia|apply Z.mod_mul; lia|apply Z.mod_mul; lia|Z.to_euclidean_division_equations; lia].
  change 0x1000 with 4096. change 0xFFF with 4095. tauto.
Qed.

Record ready (p : TablePool) (ds : list EfiMemoryDescriptor) (ks ke : Z) : Prop := {
  r_frame : is_frame (base p); r_end : base p + total_pages p * 4096 <= 2 ^ 52; r_fresh : used_pages p = 0;
  r_room : Z.of_nat (length (tables_needed ds ks ke)) <= total_pages p;
  r_map : Forall desc_ok ds; r_kernel : 0 <= ks /\ ks <= ke <= 2 ^ 31 }.

Lemma needed_identity ds ks ke a : a ∈ identity_pages ds -> path1 a ∈ tables_needed ds ks ke /\ path2 a ∈ tables_needed ds ks ke.
Proof.
  intros Ha. unfold tables_needed. rewrite !elem_of_remove_dups. split; apply elem_of_cons; right; apply elem_of_app; left; apply list_elem_of_bind; exists a; split; set_solver.
Qed.

Lemma needed_kernel ds ks ke a : a ∈ kernel_pages ks ke ->
  path1 (a + KVB) ∈ tables_needed ds ks ke /\ path2 (a + KVB) ∈ tables_needed ds ks ke /\ path3 (a + KVB) ∈ tables_needed ds ks ke.
Proof.
  intros Ha. unfold tables_needed. rewrite !elem_of_remove_dups. split_and!; apply elem_of_cons; right; apply elem_of_app; right; apply list_elem_of_bind; exists a; split; set_solver.
Qed.

Lemma identity_low ds a : Forall desc_ok ds -> a ∈ identity_pages ds -> low_page a.
Proof.
  intros Hds Ha. apply list_elem_of_bind in Ha as (d & Ha & Hd). rewrite Forall_forall in Hds. specialize (Hds d Hd). apply (elem_identity d a Hds) in Ha as (? & ? & ? & ?).
  destruct Hds as (? & ? & ?). split; [|done]. change (2 ^ 47) with (67108864 * 0x200000) in *. Z.to_euclidean_division_equations. lia.
Qed.

Lemma kernel_low ks ke a : 0 <= ks -> ks <= ke <= 2 ^ 31 -> a ∈ kernel_pages ks ke -> kernel_page a.
Proof.
  intros H1 H2 [Hm Ha]%elem_kernel; [|done|done]. split; [|done]. change (2 ^ 31) with (524288 * 4096) in *. Z.to_euclidean_division_equations. lia.
Qed.

Lemma build_tables p ds ks ke : ready p ds ks ke ->
  exists p', build ds ks ke (u64 (ks + KVB)) p = Some (p', base p) /\
    (forall d a, d ∈ ds -> physical_start d <= a < physical_start d + number_of_pages d * 4096 -> hw_translate (RAM p') (base p) a = Some a) /\
    (forall a, ks <= a < ke -> hw_translate (RAM p') (base p) (a + KVB) = Some a) /\
    (forall a, a < base p \/ base p + total_pages p * 4096 <= a -> RAM p' a = RAM p a).
Proof.
  intros [Hf He Hu Hr Hds [Hk1 Hk2]]. set (B := base p) in *. set (N := total_pages p) in *. set (U := tables_needed ds ks ke) in *.
  destruct (first_page B N Hf He U Hr p eq_refl eq_refl Hu) as (p0 & E0 & H0 & Ho0). { unfold U, tables_needed. rewrite elem_of_remove_dups. set_solver. }
  unfold build. rewrite E0. cbn [mbind option_bind].
  assert (foldM (map_descriptor B) p0 ds = foldM (fun p a => map_2mb B a a p) p0 (identity_pages ds)) as ->.
  { unfold identity_pages. rewrite <- foldM_bind. apply foldM_ext. intros s d. unfold map_descriptor, identity_of. by destruct (number_of_pages d =? 0). }
  destruct (identity_loop B N Hf He U Hr (identity_pages ds) p0 [[]] (fun _ => None)) as (p1 & T1 & L1 & -> & H1 & HL1 & _ & _ & Hc1 & Ho1);
    [done|done|by intros x ->%list_elem_of_singleton; cbn; lia| |]. { apply Forall_forall. intros a Ha. split; [by eapply identity_low|by apply needed_identity]. }
  cbn [mbind option_bind]. assert (u64 (u64 (ks + KVB) - ks) = KVB) as ->. { unfold u64, wrap, KVB. rewrite Zminus_mod_idemp_l. rewrite Z.add_simpl_l. done. }
  fold (kernel_pages ks ke).
  destruct (kernel_loop B N Hf He U Hr (kernel_pages ks ke) p1 T1 L1) as (p2 & T2 & L2 & -> & H2 & Hg2 & Hc2 & Ho2); [done|done| |].
  { apply Forall_forall. intros a Ha. split; [by eapply kernel_low|by apply needed_kernel]. }
  cbn [mbind option_bind]. exists p2. split; [done|]. split_and!.
  - intros d a Hd Ha. set (g := a / 0x200000 * 0x200000). rewrite Forall_forall in Hds.
    assert (g ∈ identity_pages ds) as Hg. { apply list_elem_of_bind. exists d. split; [|done]. apply elem_identity; [by apply Hds|]. destruct (Hds d Hd) as (? & ? & ?).
      subst g. split; [lia|]. split; [apply Z.mod_mul; lia|]. Z.to_euclidean_division_equations. lia. }
    assert (low_page g) as Hlow by (eapply identity_low, Hg; by apply Forall_forall). rewrite (huge_translate B N Hf He U Hr p2 T2 L2 a g); [|done|].
    + f_equal. rewrite (huge_masked B N Hf He U Hr) by done. subst g. pose proof (Z.div_mod a 0x200000 ltac:(lia)). lia.
    + apply Hg2. rewrite (path3_same B N Hf He U Hr a g); [by apply Hc1|]. subst g. change (2 ^ 21) with 0x200000. by rewrite Z.div_mul.
  - intros a Ha. set (g := a / 4096 * 4096). assert (g ∈ kernel_pages ks ke) as Hg.
    { apply elem_kernel; [done|done|]. subst g. split; [apply Z.mod_mul; lia|]. Z.to_euclidean_division_equations. lia. }
    assert (kernel_page g) as Hkp by by eapply kernel_low.
    rewrite (small_translate B N Hf He U Hr p2 T2 L2 (a + KVB) g); [|done|].
    + f_equal. rewrite (small_masked B N Hf He U Hr) by done. change 0x1000 with 4096. unfold KVB. change 0xFFFFFFFF80000000 with (4503599626846208 * 4096). rewrite Z.mod_add by lia.
      subst g. pose proof (Z.div_mod a 4096 ltac:(lia)). lia.
    + rewrite (path4_same B N Hf He U Hr (a + KVB) (g + KVB)); [by apply Hc2|]. unfold KVB. change (2 ^ 12) with 4096. change 0xFFFFFFFF80000000 with (4503599626846208 * 4096).
      rewrite !Z.div_add by lia. subst g. by rewrite Z.div_mul.
  - intros a Ha. rewrite (Ho2 a Ha), (Ho1 a Ha), (Ho0 a Ha). done.
Qed.

(** The bootstrap tables.  With a pool that holds one page for each table the mappings need, building them ends, and in the tables it returns
    every address of the memory map translates to itself, and every address of the kernel's range, at its place in the higher half, to
    the physical address it was loaded at.  No memory outside the pool is written. *)
Theorem build_exact p ds ks ke : ready p ds ks ke ->
  exists p', build ds ks ke (u64 (ks + KVB)) p = Some (p', base p) /\
    (forall d a, d ∈ ds -> physical_start d <= a < physical_start d + number_of_pages d * 4096 -> hw_translate (RAM p') (base p) a = Some a) /\
    (forall a, ks <= a < ke -> hw_translate (RAM p') (base p) (a + KVB) = Some a) /\
    (forall a, a < base p \/ base p + total_pages p * 4096 <= a -> RAM p' a = RAM p a).
Proof. exact (build_tables p ds ks ke). Qed.

Module BootstrapWitness.

(** Three megabytes of memory in two pieces and a kernel of five pages, with six tables. *)
Definition firmware_map : list EfiMemoryDescriptor := [mkDesc 7 0 160; mkDesc 7 0x100000 512; mkDesc 7 0 0].
Definition pool : TablePool := mkPool (fun _ => 0xAA) 0x300000 0 6.

Lemma pool_ready : ready pool firmware_map 0x201000 0x205010.
Proof. split; [by vm_compute| |done| |repeat constructor; cbn; lia|]; vm_compute; intuition discriminate. Qed.

Lemma build_witness : ready pool firmware_map 0x201000 0x205010 /\ exists p', build firmware_map 0x201000 0x205010 (u64 (0x201000 + KVB)) pool = Some (p', 0x300000) /\
  hw_translate (RAM p') 0x300000 0x2FFFFF = Some 0x2FFFFF /\ hw_translate (RAM p') 0x300000 (0x20500F + KVB) = Some 0x20500F.
Proof.
  split; [exact pool_ready|]. destruct (build_exact pool firmware_map 0x201000 0x205010 pool_ready) as (p' & E & H1 & H2 & _). exists p'. split; [exact E|].
  split; [apply (H1 (mkDesc 7 0x100000 512) 0x2FFFFF)|apply (H2 0x20500F); lia]; [right; left|cbn; lia].
Defined.

(** One table fewer and the machine halts. *)
Example pool_too_small : build firmware_map 0x201000 0x205010 (u64 (0x201000 + KVB)) (mkPool (fun _ => 0xAA) 0x300000 0 5) = None.
Proof. by vm_compute. Qed.
End BootstrapWitness.
