(* ===== verification/Handoff.v ===== *)
(** * The boot loader: handing over

    [prepare_boot] of [boot_rs/src/loader.rs] from end to end: the volume, the kernel ([Boot]), the font, the framebuffer, the boot
    information, the measurements, the memory map and the departure from the firmware, and the bootstrap tables ([Bootstrap]).  Memory the
    firmware hands out from its pool for the loader's own records is their value here; the firmware's answers are arguments.

    The theorem is that of the jump: where the processor continues, the kernel is. *)

From S2P Require Import Prelude Bits Pmm Vmm Elf Crypto Tpm Boot Bootstrap.
From Stdlib Require String.
Import (notations) String.

(** ** The font *)

Definition PSF1_MAGIC : Z := 0x0436.
Definition PSF1_HEADER_SIZE : nat := 4.

Record Psf1Font := mkFont { psf_mode : Z; psf_chars_size : Z; psf_glyphs : bytes }.

Definition psf_glyph_size (mode chars_size : Z) : Z := if mode =? 1 then chars_size * 512 else chars_size * 256.

Section font.
  Context (fw : Firmware).

(** The branch of [load_psf1_font] with a file. *)
Definition load_font_file : option (result Psf1Font LoadError) :=
  if negb (allocate_pool fw (Z.of_nat PSF1_HEADER_SIZE)) then Some (Err "AllocatePool(font header) failed"%string) else
  match read_exact fw FontPsf 0 PSF1_HEADER_SIZE with
  | Err e => Some (Err e)
  | Ok h =>
      magic ← rle 2 h 0; mode ← h !! 2%nat; chars_size ← h !! 3%nat;
      if negb (magic =? PSF1_MAGIC) then Some (Err "font magic invalid"%string) else
      let glyph_size := psf_glyph_size mode chars_size in
      if negb (set_position fw FontPsf (Z.of_nat PSF1_HEADER_SIZE)) then Some (Err "SetPosition(glyphs) failed"%string) else
      if negb (allocate_pool fw glyph_size) then Some (Err "AllocatePool(font glyphs) failed"%string) else
      match read_exact fw FontPsf (Z.of_nat PSF1_HEADER_SIZE) (Z.to_nat glyph_size) with
      | Err e => Some (Err e)
      | Ok glyphs =>
          if negb (allocate_pool fw 16) then Some (Err "AllocatePool(font obj) failed"%string) else Some (Ok (mkFont mode chars_size glyphs))
      end
  end.

(** [EMBEDDED_FONT] is a file of the build. *)
Definition load_embedded_font (embedded : bytes) : option (result Psf1Font LoadError) :=
  if (length embedded <? PSF1_HEADER_SIZE)%nat then Some (Err "embedded font too small"%string) else
  magic ← rle 2 embedded 0; mode ← embedded !! 2%nat; chars_size ← embedded !! 3%nat;
  if negb (magic =? PSF1_MAGIC) then Some (Err "embedded font magic invalid"%string) else
  let glyph_size := psf_glyph_size mode chars_size in
  if Z.of_nat (length embedded) <? Z.of_nat PSF1_HEADER_SIZE + glyph_size then Some (Err "embedded font truncated glyphs"%string) else
  if negb (allocate_pool fw (Z.of_nat PSF1_HEADER_SIZE)) then Some (Err "AllocatePool(embedded font header) failed"%string) else
  if negb (allocate_pool fw glyph_size) then Some (Err "AllocatePool(embedded font glyphs) failed"%string) else
  glyphs ← rslice embedded PSF1_HEADER_SIZE (Z.to_nat glyph_size);
  if negb (allocate_pool fw 16) then Some (Err "AllocatePool(embedded font obj) failed"%string) else Some (Ok (mkFont mode chars_size glyphs)).

Definition load_psf1_font (embedded : bytes) : option (result Psf1Font LoadError) :=
  if opens fw FontPsf then load_font_file else load_embedded_font embedded.
End font.

(** ** The rest of the firmware *)

Definition Guid : Type := Z * Z * Z * bytes.
Definition ACPI_20_TABLE_GUID : Guid := (0x8868e871, 0xe4f1, 0x11d3, [0xbc; 0x22; 0x00; 0x80; 0xc7; 0x3c; 0x88; 0x81]).
Definition ACPI_10_TABLE_GUID : Guid := (0xeb9d2d30, 0x2d88, 0x11d3, [0x9a; 0x16; 0x00; 0x50; 0xda; 0x34; 0x55; 0x53]).

(** The first table of version 2, or else the last of version 1. *)
Fixpoint find_rsdp_from (tables : list (Guid * Z)) (fallback : Z) : Z :=
  match tables with
  | [] => fallback
  | (g, t) :: tables => if bool_decide (g = ACPI_20_TABLE_GUID) then t else find_rsdp_from tables (if bool_decide (g = ACPI_10_TABLE_GUID) then t else fallback)
  end.
Definition find_rsdp (tables : list (Guid * Z)) : Z := find_rsdp_from tables 0.

Record Framebuffer := mkFramebuffer { fb_base : Z; fb_size : Z; fb_width : Z; fb_height : Z; fb_ppsl : Z }.

(** One turn of the loop that leaves the firmware, as the firmware answers it. *)
Record attempt := mkAttempt { pool_for_map : bool; got_map : option (list EfiMemoryDescriptor); exit_status : Z }.

Record Platform := mkPlatform {
  has_loaded_image : bool; has_file_system : bool; opens_volume : bool;
  config_tables : list (Guid * Z); graphics : option Framebuffer; pool_pages : option Z; probe_status : Z; attempts : list attempt }.

Definition EFI_ERROR_BIT : Z := 2 ^ 63.
Definition is_error (status : Z) : bool := negb (Z.land status EFI_ERROR_BIT =? 0).
Definition EFI_BUFFER_TOO_SMALL : Z := Z.lor 5 EFI_ERROR_BIT.
Definition EFI_INVALID_PARAMETER : Z := Z.lor 2 EFI_ERROR_BIT.

Definition open_root_volume (pf : Platform) : option LoadError :=
  if negb (has_loaded_image pf) then Some "HandleProtocol(LoadedImage) failed"%string
  else if negb (has_file_system pf) then Some "HandleProtocol(SimpleFileSystem) failed"%string
  else if negb (opens_volume pf) then Some "OpenVolume failed"%string else None.

Definition find_gop_framebuffer (fw : Firmware) (pf : Platform) : result Framebuffer LoadError :=
  match graphics pf with
  | None => Err "LocateProtocol(GOP) failed"%string
  | Some fb => if negb (allocate_pool fw 32) then Err "AllocatePool(framebuffer) failed"%string else Ok fb
  end.

(** The loop; [None] while the firmware has not answered. *)
Fixpoint exit_boot_services (l : list attempt) : option (result (list EfiMemoryDescriptor) LoadError) :=
  match l with
  | [] => None
  | t :: l =>
      if negb (pool_for_map t) then Some (Err "AllocatePool(memory map) failed"%string) else
      match got_map t with
      | None => Some (Err "GetMemoryMap failed"%string)
      | Some ds =>
          if negb (is_error (exit_status t)) then Some (Ok ds) else
          if negb (exit_status t =? EFI_INVALID_PARAMETER) then Some (Err "ExitBootServices failed"%string) else exit_boot_services l
      end
  end.

(** ** Preparing *)

Definition BOOTSTRAP_POOL_PAGES : Z := 3072.
Definition PCR_PLATFORM_FIRMWARE : Z := 0.
Definition PCR_BOOTLOADER : Z := 4.
Definition PCR_KERNEL_PAYLOAD : Z := 9.
Definition EV_POST_CODE : Z := 1.
Definition EV_IPL : Z := 0xD.

Definition bytes_of (s : String.string) : bytes := (fun c => Z.of_N (Ascii.N_of_ascii c)) <$> String.list_ascii_of_string s.

(** The three measurements. *)
Definition measure_boot (kernel_hash : bytes) : option TcgEventLog :=
  '(l, _) ← record log_new PCR_PLATFORM_FIRMWARE EV_POST_CODE (replicate 32 0x5a) (bytes_of "UEFI_FW_INITIALIZED"%string);
  '(l, _) ← record l PCR_BOOTLOADER EV_IPL (replicate 32 0xb0) (bytes_of "BOOTX64.EFI"%string);
  '(l, _) ← record l PCR_KERNEL_PAYLOAD EV_IPL kernel_hash (bytes_of "KERNEL.ELF"%string);
  Some l.

(** [BootInfo] and what the jump needs: the tables, the entry point, memory. *)
Record PreparedBoot := mkPrepared {
  pb_framebuffer : Framebuffer; pb_font : Psf1Font; pb_map : list EfiMemoryDescriptor; pb_rsdp : Z; pb_kernel : LoadedKernel; pb_tpm : TcgEventLog;
  pb_pool : Z; pb_cr3 : Z; pb_entry : Z; pb_memory : Z -> Z }.

Definition prepare_boot (fw : Firmware) (pf : Platform) (embedded : bytes) (fuel : nat) (m : Z -> Z) : option (result PreparedBoot LoadError) :=
  match open_root_volume pf with
  | Some e => Some (Err e)
  | None =>
  r ← load_kernel_elf fw fuel m;
  match r with
  | Err e => Some (Err e)
  | Ok (m, kernel) =>
  r ← load_psf1_font fw embedded;
  match r with
  | Err e => Some (Err e)
  | Ok font =>
  match find_gop_framebuffer fw pf with
  | Err e => Some (Err e)
  | Ok framebuffer =>
  if negb (allocate_pool fw 136) then Some (Err "AllocatePool(BootInfo) failed"%string) else
  let rsdp := find_rsdp (config_tables pf) in
  tpm ← measure_boot (lk_sha256 kernel);
  match pool_pages pf with
  | None => Some (Err "AllocatePages(bootstrap page-table pool) failed"%string)
  | Some pool_phys =>
  if negb (probe_status pf =? EFI_BUFFER_TOO_SMALL) then Some (Err "GetMemoryMap(size probe) unexpected status"%string) else
  r ← exit_boot_services (attempts pf);
  match r with
  | Err e => Some (Err e)
  | Ok memory_map =>
  '(pool, pml4_phys) ← build memory_map (lk_start kernel) (lk_end kernel) (u64 (lk_start kernel + Boot.KERNEL_VIRTUAL_BASE)) (mkPool m pool_phys 0 BOOTSTRAP_POOL_PAGES);
  Some (Ok (mkPrepared framebuffer font memory_map rsdp kernel tpm pool_phys pml4_phys (lk_entry kernel) (RAM pool)))
  end end end end end end.

(** ** The jump *)

(** The kernel's image and the pool are apart, and the pool is large enough. *)
Record handoff_ok (r : PreparedBoot) : Prop := {
  ho_ready : ready (mkPool (pb_memory r) (pb_pool r) 0 BOOTSTRAP_POOL_PAGES) (pb_map r) (lk_start (pb_kernel r)) (lk_end (pb_kernel r));
  ho_apart : forall a, lk_start (pb_kernel r) <= a < lk_end (pb_kernel r) -> a < pb_pool r \/ pb_pool r + BOOTSTRAP_POOL_PAGES * 4096 <= a }.

Lemma record_room l pcr ty d data : log_ok l -> count l < 16 -> exists e, record l pcr ty d data = Some (mkLog (magic l) (count l + 1) (<[Z.to_nat (count l) := e]> (events l)), true) /\
  pcr_index e = pcr /\ ev_digest e = d.
Proof.
  intros [Hl Hc] Hlt. unfold record. destruct (event_new_spec pcr ty d data) as (e & -> & Hp & _ & Hd & _). unfold MAX_TPM_EVENTS in *.
  destruct (Nat.leb_spec 16 (Z.to_nat (count l))); [lia|]. cbn [mbind option_bind]. unfold wbyte. rewrite decide_True by lia. cbn [mbind option_bind].
  exists e. rewrite wrap_small by (unfold in_width; lia). done.
Qed.

(** The third event is the kernel's. *)
Lemma measure_boot_kernel h : exists l e, measure_boot h = Some l /\ count l = 3 /\ events l !! 2%nat = Some e /\ pcr_index e = PCR_KERNEL_PAYLOAD /\ ev_digest e = h.
Proof.
  unfold measure_boot. destruct (record_room log_new PCR_PLATFORM_FIRMWARE EV_POST_CODE (replicate 32 0x5a) (bytes_of "UEFI_FW_INITIALIZED"%string)) as (e0 & -> & _); [done|done|].
  cbn [mbind option_bind]. set (l0 := mkLog _ _ _). destruct (record_room l0 PCR_BOOTLOADER EV_IPL (replicate 32 0xb0) (bytes_of "BOOTX64.EFI"%string)) as (e1 & -> & _); [by split|done|].
  cbn [mbind option_bind]. set (l1 := mkLog _ _ _). destruct (record_room l1 PCR_KERNEL_PAYLOAD EV_IPL h (bytes_of "KERNEL.ELF"%string)) as (e2 & -> & Hp & Hd); [by split|done|].
  cbn [mbind option_bind]. by eexists _, e2.
Qed.

Lemma entry_in_range ks ke v : 0 <= ks -> ks <= ke <= 2 ^ 31 -> u64 (ks + KVB) <= v < u64 (ke + KVB) -> ks <= v - KVB < ke.
Proof.
  intros H1 H2 H. unfold KVB in *. destruct (decide (ke = 2 ^ 31)) as [->|]; [change (u64 (2 ^ 31 + 0xFFFFFFFF80000000)) with 0 in H; pose proof (wrap_range 64 (ks + 0xFFFFFFFF80000000) ltac:(lia)) as [? _]; lia|].
  rewrite !wrap_small in H by (unfold in_width; lia). lia.
Qed.

Section jump.
  Context (fw : Firmware) (disk : volume_file -> bytes) `{!Volume fw disk} (Hbytes : all_bytes (disk KernelElf)).

(** C11. The jump.  On firmware whose successful reads return the bytes of the file, if the loader is ready to jump, with a pool that is page-aligned, large enough
    and apart from the kernel, a memory map within the first 2^47 bytes and a kernel within the first 2 GiB, then under the tables it installed every address of the kernel's range, the
    entry point among them, is reached in the higher half, and every address of the firmware's last memory map leads to itself.  If no two segments of the file overlap, what the
    processor finds in the higher half is each segment as the file has it, zero past its file size.  The third event of the log, for register 9,
    is the digest the loader computed: it is the content of a readable [kernel.sig], and if every read of the kernel and the rewinding before the hashing
    succeed it is the digest of the whole file. *)
Theorem handoff_exact pf embedded fuel m r : (length (disk KernelElf) < fuel)%nat -> prepare_boot fw pf embedded fuel m = Some (Ok r) -> handoff_ok r ->
  exists e phs ev, read_ehdr (take EHDR_SIZE (disk KernelElf)) = Some e /\ kernel_phdrs (disk KernelElf) e = Some phs /\
    pb_entry r = e_entry e /\ lk_start (pb_kernel r) <= pb_entry r - KVB < lk_end (pb_kernel r) /\
    (forall a, lk_start (pb_kernel r) <= a < lk_end (pb_kernel r) -> hw_translate (pb_memory r) (pb_cr3 r) (a + KVB) = Some a) /\
    (forall d a, d ∈ pb_map r -> physical_start d <= a < physical_start d + number_of_pages d * 4096 -> hw_translate (pb_memory r) (pb_cr3 r) a = Some a) /\
    (separate phs -> forall ph a, ph ∈ phs -> in_segment ph a ->
      hw_translate (pb_memory r) (pb_cr3 r) (a + KVB) = Some a /\ pb_memory r a = segment_byte (disk KernelElf) ph a) /\
    events (pb_tpm r) !! 2%nat = Some ev /\ pcr_index ev = PCR_KERNEL_PAYLOAD /\
    (opens fw KernelSig = true -> is_ok (read_exact fw KernelSig 0 32) = true -> ev_digest ev = take 32 (disk KernelSig)) /\
    (reliable fw disk -> set_position fw KernelElf 0 = true -> ev_digest ev = sha256_ref (disk KernelElf)).
Proof using All.
  intros Hf E [Hready Hapart]. unfold prepare_boot in E. destruct (open_root_volume pf); [done|].
  destruct (load_kernel_cases fw disk Hbytes fuel m Hf) as (rk & Ek & Hk). rewrite Ek in E. cbn [mbind option_bind] in E. destruct rk as [[m' k]|]; [|done].
  destruct (load_psf1_font fw embedded) as [[font|]|]; cbn [mbind option_bind] in E; [|done..]. destruct (find_gop_framebuffer fw pf) as [fb|]; [|done].
  destruct (negb (allocate_pool fw 136)); [done|]. destruct (measure_boot_kernel (lk_sha256 k)) as (tpm & ev & Et & _ & Hev). rewrite Et in E. cbn [mbind option_bind] in E.
  destruct (pool_pages pf) as [pool_phys|]; [|done]. destruct (negb (probe_status pf =? _)); [done|].
  destruct (exit_boot_services (attempts pf)) as [[ds|]|]; cbn [mbind option_bind] in E; [|done..].
  destruct (build ds (lk_start k) (lk_end k) _ _) as [[pool pml4]|] eqn:Eb; cbn [mbind option_bind] in E; [|done]. injection E as <-. cbn [pb_kernel pb_memory pb_pool pb_map pb_cr3 pb_entry pb_tpm] in *.
  destruct (Hk m' k eq_refl) as (e & phs & Hbt). assert (ready (mkPool m' pool_phys 0 BOOTSTRAP_POOL_PAGES) ds (lk_start k) (lk_end k)) as Hready' by (destruct Hready; by split).
  destruct (build_tables _ _ _ _ Hready') as (p' & Eb' & Hid & Hkern & Hout). cbn [base total_pages RAM] in *. change Boot.KERNEL_VIRTUAL_BASE with KVB in Eb. rewrite Eb in Eb'. injection Eb' as <- ->.
  destruct Hbt as [[He Hp] [Hent Hrange] Himg _ Hseg Hmeas Hsig]. change Boot.KERNEL_VIRTUAL_BASE with KVB in Hrange. destruct Hev as (Hev & Hpcr & Hdig).
  exists e, phs, ev. split; [done|]. split; [done|]. split; [done|]. split; [destruct Hready as [_ _ _ _ _ [Hk1 Hk2]]; exact (entry_in_range _ _ _ Hk1 Hk2 Hrange)|].
  split; [done|]. split; [exact Hid|]. split; [|by rewrite Hdig].
  intros Hsep ph a Hph Ha. destruct (Hseg ph Hph (proj1 Ha)) as (H1 & H2 & _). assert (lk_start k <= a < lk_end k) as Hin by (destruct Ha as [_ ?]; lia).
  split; [by apply Hkern|]. rewrite Hout by by apply Hapart. by apply Himg.
Qed.
End jump.

(** ** Witness *)

Module HandoffWitness.
Import BootWitness.

Definition tiny_font : bytes := [0x36; 0x04; 0; 0].
Definition screen : Framebuffer := mkFramebuffer 0x80000000 0x300000 1024 768 1024.
Definition no_font (sig : bytes) : Firmware :=
  mkFirmware (fun f => match f with FontPsf => false | _ => true end) (fun f p len => Some (take len (drop (Z.to_nat p) (volume sig f)))) (fun _ _ => true) (fun _ => true) (fun _ _ => true).

#[export] Instance volume_no_font sig : Volume (no_font sig) (volume sig).
Proof. constructor. by intros f p len b [= <-]. Qed.

(** The first map is out of date when it is presented. *)
Definition machine_map : list EfiMemoryDescriptor := [mkDesc 7 0 0x1000].
Definition platform : Platform :=
  mkPlatform true true true [(ACPI_10_TABLE_GUID, 0xE0000); (ACPI_20_TABLE_GUID, 0xF0000)] (Some screen) (Some 0x400000) EFI_BUFFER_TOO_SMALL
    [mkAttempt true (Some []) EFI_INVALID_PARAMETER; mkAttempt true (Some machine_map) 0].

Definition prepared : option PreparedBoot :=
  match prepare_boot (no_font signature) platform tiny_font 200 (fun _ => 7) with Some (Ok r) => Some r | _ => None end.

(** What can be read off without looking at memory. *)
Definition summary (x : option (result PreparedBoot LoadError)) : option (LoadedKernel * list EfiMemoryDescriptor * Z * Z * Z) :=
  match x with Some (Ok r) => Some (pb_kernel r, pb_map r, pb_pool r, pb_entry r, pb_rsdp r) | _ => None end.

Lemma summary_computed : summary (prepare_boot (no_font signature) platform tiny_font 200 (fun _ => 7)) =
  Some (mkLoaded (KVB + 0x200000) 0x200000 0x200010 signature, machine_map, 0x400000, KVB + 0x200000, 0xF0000).
Proof. by vm_compute. Qed.

Lemma few_tables : Z.of_nat (length (tables_needed machine_map 0x200000 0x200010)) = 6.
Proof. by vm_compute. Qed.

Lemma pool_suffices f : ready (mkPool f 0x400000 0 BOOTSTRAP_POOL_PAGES) machine_map 0x200000 0x200010.
Proof.
  split; cbn [base total_pages used_pages].
  - split; [lia|done].
  - unfold BOOTSTRAP_POOL_PAGES. lia.
  - done.
  - rewrite few_tables. unfold BOOTSTRAP_POOL_PAGES. lia.
  - apply Forall_singleton. unfold desc_ok. cbn [physical_start number_of_pages]. lia.
  - lia.
Qed.

Lemma handoff_witness : exists r, prepared = Some r /\ handoff_ok r /\ pb_entry r = KVB + 0x200000 /\ pb_rsdp r = 0xF0000 /\
  hw_translate (pb_memory r) (pb_cr3 r) (pb_entry r) = Some 0x200000 /\ hw_translate (pb_memory r) (pb_cr3 r) 0xFFF123 = Some 0xFFF123.
Proof.
  unfold prepared. pose proof summary_computed as Ev. destruct (prepare_boot (no_font signature) platform tiny_font 200 (fun _ => 7)) as [[r|]|] eqn:E; [|discriminate Ev..].
  cbn [summary] in Ev.
  injection Ev as Hk Hm Hp He Hr. assert (handoff_ok r) as Hok.
  { split; rewrite Hk, ?Hm, Hp; cbn [lk_start lk_end].
    - apply pool_suffices.
    - intros a Ha. left. lia. }
  exists r. split; [done|]. split; [done|]. split; [done|]. split; [done|].
  destruct (handoff_exact (no_font signature) (volume signature) kernel_bytes platform tiny_font 200 (fun _ => 7) r) as (e & phs & ev & _ & _ & _ & _ & H1 & H2 & _); [vm_compute; lia|done|done|].
  rewrite Hk, Hm in *. cbn [lk_start lk_end] in *. rewrite He. split; [rewrite Z.add_comm; apply (H1 0x200000); lia|apply (H2 (mkDesc 7 0 0x1000) 0xFFF123); [by apply list_elem_of_singleton|cbn; lia]].
Defined.
End HandoffWitness.
